(* ===== verification/_CoqProject ===== *)
-Q . S2P
Prelude.v
Schemas.v
Tables.v
Json.v
Journal.v
AuditLog.v
Router.v
RateLimit.v
Quarantine.v
QuarantineProofs.v
QuarantineConc.v
Ipc.v
IpcProofs.v
Expr.v
RuleEval.v
IpcCommands.v
Allowlist.v
HuntCompiler.v
Alerts.v
Cases.v
QuarantineIpc.v
Evidence.v
HuntSql.v
Retention.v
Supervisor.v
AuditIpc.v
HuntStore.v
HuntFidelity.v
HuntInjection.v
HuntScheduler.v
Vuln.v
Projector.v
Panels.v
ScannerRunner.v
ScannerProofs.v
ScanJob.v
WorkerContract.v
CommandChannel.v
Adapters.v
AdapterProofs.v
Enrichment.v
EventPath.v
Float64.v
AnomalyStats.v
AnomalyProofs.v
AnomalyTrackers.v
TrackerProofs.v
AnomalyDetector.v
CheckpointProofs.v
DetectorProofs.v
Regex.v
Parsers.v
ParserProofs.v
LogTailer.v
Base64.v
PersistenceSource.v
PersistenceWorker.v
PersistenceProofs.v
CaseExport.v
CaseExportProofs.v
RegexSub.v
ProcTree.v
ProcTreeProofs.v
Numerals.v
IpAddr.v
IpAddrProofs.v
Listeners.v
ListenersProofs.v
Services.v
ServicesProofs.v
WebGuard.v
WebGuardProofs.v
EntityCard.v
EntityCardProofs.v
Udev.v
DepsFiles.v
Deps.v
DepsProofs.v
Collectors.v
WorkerLoop.v
