(* ===== verification/Prelude.v ===== *)
(** * inspectord: a verification development (root file)

    inspectord is a host monitoring daemon. Workers emit events; the supervisor
    enriches them, runs the rules over them, turns matches into deduplicated
    alerts, captures evidence for severe ones and publishes every event on a
    router, from which it is journalled and stored in DuckDB. Users search the
    store with hunts, curate cases, quarantine files and operate the daemon
    through a JSON-RPC socket guarded by polkit. An audit log records what was
    done. This library models the Python code under src/inspectord that carries
    this logic and proves what makes it correct.

    ** Files, and the code each of them models

    - [Prelude.v] (this file): results of fallible code, Python's string
      functions on Latin-1 strings, [int]/[str] of integers, shared lemmas.
    - [Schemas.v]: Python values and dicts, [schemas/event.py], [alert.py],
      [allowlist.py], [versions.py], and [build_event] of [parsers/base.py].
    - [Tables.v]: generic lemmas on tables given by a history of events, and
      the class [ClosedTable] a projection has to satisfy.
    - [Json.v]: the standard library's [json.dumps]/[json.loads] as the code
      calls them, with their round trip.
    - [Expr.v]: the expression grammar of [expr.py]; [RuleEval.v]: rules and
      their evaluation ([rules/base.py], [yaml_loader.py], [registry.py]).
    - [HuntCompiler.v]: [hunt/compiler.py] as a translation to a syntax tree of
      SQL with its rendering; [HuntSql.v]: the meaning of that SQL over the
      stored rows ([storage/events.py], [hunt/execute.py]) against the class
      [DuckDB] of the database's functions with its laws; [HuntFidelity.v] and
      [HuntInjection.v]: the theorems about it, and a reference database that
      satisfies the laws.
    - [HuntStore.v]: [hunt/store.py], [hunt/ipc_handlers.py];
      [HuntScheduler.v]: [hunt/scheduler.py] as a thread among the others.
    - [Allowlist.v]: [allowlist/evaluator.py] with [fnmatch]. [Alerts.v]:
      [alerts/*.py] and [rule_engine.py].
    - [Journal.v]: [journal.py]. [AuditLog.v]: [audit/log.py];
      [AuditIpc.v]: [audit/ipc_handlers.py].
    - [Router.v]: [router.py]. [RateLimit.v]: [ratelimit.py].
    - [Quarantine.v]: [quarantine/ops.py], [paths.py], [errors.py] over a file
      system of inodes; [QuarantineProofs.v]: its theorems; [QuarantineConc.v]:
      the same operations as interleaved threads; [QuarantineIpc.v]:
      [quarantine/ipc_handlers.py] and the quarantine methods of [__main__.py]
      in the IPC server.
    - [Ipc.v]: [ipc_server.py], [authz.py]; [IpcProofs.v]: its theorems;
      [IpcCommands.v]: [ipc_commands.py].
    - [Cases.v]: [cases/store.py] and most of [cases/ipc_handlers.py];
      [Evidence.v]: [evidence/store.py], [capture.py], [collector.py].
    - [Retention.v]: [retention/engine.py].
    - [Supervisor.v]: the restart policy, the persistence health and the audit
      tick of [supervisor.py], and [newest_anchor] of [audit/log.py].
    - [Vuln.v]: [vuln/*.py], [workers/vuln_scanner/worker.py] and the
      vulnerability part of [state/projector.py]. [Projector.v]: the rest of
      [state/projector.py] and [state/reconcile.py]. [Panels.v]:
      [state/baseline.py], [state/ipc_handlers.py].
    - [ScannerRunner.v]: [workers/scanner_runner/runner.py] in a state and
      exception monad, with an adapter as a record of operations
      ([scanners/base.py]); [ScannerProofs.v]: its theorems; [ScanJob.v]: the
      bounded sinks, the kill sequence and the thread of one scan.
      [Adapters.v]: the AIDE, rkhunter and YARA adapters ([scanners/*.py]);
      [AdapterProofs.v]: their theorems.
    - [WorkerContract.v]: the worker's end of the command channel
      ([workers/contract.py]); [CommandChannel.v]: the supervisor's end
      ([send_worker_command] and what it meets in [supervisor.py]) as
      interleaved threads, and the two ends together.
    - [Enrichment.v]: [enrichment/*.py] and [anomaly/first_sighting.py].
      [EventPath.v]: the path of an event through [supervisor.py], from
      dispatch over the rules and the router to the journal and the tables,
      as a composition of the models above.
    - [Float64.v]: Python's floats as IEEE 754 binary64, [sum], ring buffers,
      ordered dicts and a state and exception monad. [AnomalyStats.v]:
      [anomaly/stats.py], [anomaly/metrics.py]; [AnomalyTrackers.v]:
      [anomaly/beacon.py], [anomaly/entity_baseline.py]; [AnomalyDetector.v]:
      [anomaly/detector.py]. Their theorems are in [AnomalyProofs.v] (the
      engine), [TrackerProofs.v], [CheckpointProofs.v] (restoring one row) and
      [DetectorProofs.v] (invariants and restarts).
    - [Regex.v]: the backtracking matcher of Python's [re] for the patterns of
      the log parsers, with its meaning; [Parsers.v]: [parsers/auth_log.py],
      [pacman.py], [journald.py]; [ParserProofs.v]: their theorems.
      [LogTailer.v]: [sources/file_tail.py], [sources/journal_source.py] and
      the step of [workers/log_tailer].
    - [PersistenceSource.v], [PersistenceWorker.v]: the enumerators and the
      worker of [workers/persistence_snapshotter]; [PersistenceProofs.v]: their
      theorems, composed with the projector.
    - [Base64.v]: the [base64] functions the code uses. [CaseExport.v]:
      [cases/export.py] and the reading handlers of [cases/ipc_handlers.py];
      [CaseExportProofs.v]: their theorems.
    - [RegexSub.v]: substitution over the matcher of [Regex.v], with what it
      removes and keeps. [ProcTree.v]: [evidence/proctree.py];
      [ProcTreeProofs.v]: its theorems.
    - [Numerals.v], [IpAddr.v]: decimal numerals and the [ipaddress] module, with
      the round trips of addresses in [IpAddrProofs.v]. [Listeners.v]:
      [workers/listening_socket_snapshotter] and [evidence/netsnapshot.py];
      [ListenersProofs.v]: their theorems, composed with the projector.
    - [Services.v]: [workers/services_monitor], [workers/kmod_watcher], with
      their theorems in [ServicesProofs.v]; [Udev.v]: [workers/udev_monitor];
      [Collectors.v]: the seven eBPF collectors, [workers/firewall_inspector]
      and [workers/fim_watcher].
    - [WorkerLoop.v]: the main loop of [workers/contract.py] against stop
      requests and commands.
    - [WebGuard.v]: [inspectorctl/web/csrf.py] as [web/app.py] installs it, over
      models of [urlsplit] and [ip_address]; [WebGuardProofs.v]: its theorems.
    - [EntityCard.v]: [entities/card.py], [entities/ipc_handlers.py];
      [EntityCardProofs.v]: their theorems.
    - [DepsFiles.v]: [dependencies/distro.py] and [backup.py]; [Deps.v]: the
      rest of [dependencies/*.py] and [workers/dependency_manager] in a state
      and exception monad over an interface of the host; [DepsProofs.v]: its
      theorems.

    ** How the code is represented

    State is passed explicitly: one record per object or table group, one
    definition per method or handler, with exceptions as values of [result],
    [option] or a reply type. A table is the list of its rows. Times are
    integers, in microseconds where the code computes with calendar days.
    Randomness, clocks, fresh identifiers, failures of external calls and the
    actions of other processes are arguments, and the theorems quantify over
    them. SHA-256, [realpath], float formatting, [datetime.fromisoformat], the
    compilation of user-written patterns, the C library's [pow] and DuckDB's
    functions are parameters; what is assumed of them is a class or hypothesis
    with an instance that satisfies it. Nothing is assumed of
    SHA-256: where collision freedom would be needed, the conclusion exhibits
    the collision. Strings are sequences of Latin-1 characters.

    ** What the theorems show

    Hunts: a compiled query returns exactly the newest events, up to the limit,
    that the rule evaluator accepts, for expressions and events within stated
    bounds; the SQL text contains no user text outside placeholders; scheduled
    hunts scan every event exactly once, and requests that change saved hunts
    are audited and keep standing detections unless told otherwise.
    Rules: printing and parsing expressions round-trips. Alerts: rows evolve
    along the status machine, bursts collapse into one alert, and the engine's
    history is the right window. Journal and audit log: everything the daemon
    writes verifies, the verifier accepts exactly the unbroken chains, and a
    change behind an anchor is found or yields a collision. Quarantine: an
    isolation removes exactly what it preserved, a restoration never replaces
    anything, blobs of live rows are never lost, also under concurrency, and
    nothing changes in quarantine without an audit row that names an authorized
    peer. IPC:
    gated handlers run only when polkit authorized the connected process,
    prompts are rate bounded, a process cannot spoof its identity by its name.
    Retention: protected data is never pruned and runs terminate. Supervisor:
    restarts back off and are bounded, outage reports are bounded, the audit
    tick detects tampering, and a reply to a worker command comes from the
    process the command was written to. Event path: enrichment only adds, first
    sightings are the first, and no event disappears between its dispatch and
    the tables without a count. Panels: the state tables are exactly
    what the event stream says, a baseline diff says what changed between two
    histories, a vulnerability is open exactly when the last scan found it.
    Scanner runner: the events of a run are those of a single-flight machine
    that the scan panel follows, a due scanner is never silently skipped,
    triggers do not move the schedule, a clean verdict needs a clean exit, the
    reports of the three scanners read back whatever the file names in them
    are, no control character reaches a finding, and a shutdown leaves no scan
    process behind. Anomaly detection: the engine with its bounded rings gives
    the signals of one that keeps the whole history, beacons are decided on
    the arrivals of their own key, a resource signal needs and follows from a
    sustained excess over one frozen baseline, and a restart gives every
    baseline back. Logs: following a file loses and repeats no line while it
    is only appended to, the records of sshd and sudo read back field by field,
    and the parsers do not raise within stated bounds. Persistence: the table
    the daemon keeps follows the inventory of the host from poll to poll, with
    what cannot be read carried over. Cases: an exported archive decodes to
    exactly the case, its alert records and its readable evidence, and a download
    reaches only the evidence of the case it names. Process trees: secrets at
    the known places of command lines and environments leave no trace in what is
    stored, known token formats are gone, and the walk follows the ancestry.
    Sensors: the listener, service and process tables follow what the kernel and
    [systemctl] report, module events replay to the loaded modules, device
    records do not depend on how the pipe cuts them, addresses read back, and no
    stop or command waits for a worker's interval. Web: a request that passes
    the guards is the dashboard's own. Entity cards: the events shown are exactly
    the newest of the entity, and links lead back. Dependencies: the privileged
    helper runs only what its static manifests allow, a plan installs what is
    missing, and an edit replaces the managed block and nothing else. A last
    group states behaviour that differs from what a comment, a docstring or the
    evident intent says.

    ** Fuel

    Recursion that is not structural carries fuel that is proved sufficient:
    [json_fuel] is twice the text length plus two (two calls per character of
    input), the chunk loop of [prune_events] runs at most once more than there
    are rows, since every round but the last deletes a row; the command reader
    runs at most once per byte of its stream.

    ** What is not modelled

    The Rust crates with the eBPF programs, which are not Python; the command
    line and tray clients and the web pages behind the guards, which render what
    the modelled handlers answer; the healthcheck, notifier and synthetic worker
    processes, a few lines each; reading the configuration and the dependency
    manifests, which is done by [tomllib], [yaml] and [pydantic]; migrations,
    which are SQL files; logging; and threads, pipes, sockets and processes as
    such, whose effects are inputs or interleavings. Within the modelled
    modules: the rounding of floating point time arithmetic outside the anomaly,
    journal and collector code, non-Latin-1 text, JSON's NaN and infinities, the
    texts of quarantine and helper errors, Jinja templates, [difflib], and the
    temporary file debris sweep. *)

From stdpp Require Export base list gmap strings sorting.
From Stdlib Require Export ZArith NArith Ascii QArith Lia Lqa Bool.
From Stdlib Require String.
From Stdlib Require Import DecimalString DecimalZ.

Open Scope Z_scope.

(** stdpp makes string concatenation [simpl never]; the proofs here compute
    with it. *)
#[global] Arguments String.append : simpl nomatch.

(** ** Results of fallible Python code

    A function that can raise is modelled as a [result E A]: [Ok] is the
    returned value, [Err] the exception. [MRet]/[MBind] give stdpp's
    [x ← m; k] notation. *)

Inductive result (E A : Type) : Type :=
| Ok (a : A)
| Err (e : E).
Arguments Ok {E A} a.
Arguments Err {E A} e.

#[export] Instance result_ret {E} : MRet (result E) := fun A x => Ok x.
#[export] Instance result_bind {E} : MBind (result E) :=
  fun A B f m => match m with Ok x => f x | Err e => Err e end.
#[export] Instance result_fmap {E} : FMap (result E) :=
  fun A B f m => match m with Ok x => Ok (f x) | Err e => Err e end.

Definition is_ok {E A} (r : result E A) : bool :=
  match r with Ok _ => true | Err _ => false end.

(** [catch r h] is [try: r except E as e: h e]. *)
Definition catch {E F A} (r : result E A) (h : E -> result F A) : result F A :=
  match r with Ok a => Ok a | Err e => h e end.

(** ** Characters

    Text is modelled as a [string] whose 256 characters stand for the code
    points U+0000..U+00FF; the classes below are Python's Unicode classes
    restricted to that range. *)

Definition code (c : ascii) : N := N_of_ascii c.

Definition in_range (lo hi : N) (c : ascii) : bool :=
  (lo <=? code c)%N && (code c <=? hi)%N.

(** [str.isspace], which is also the regex class [\s]. *)
Definition py_space (c : ascii) : bool :=
  in_range 9 13 c || in_range 28 32 c || (code c =? 133)%N || (code c =? 160)%N.

Definition is_digit (c : ascii) : bool := in_range 48 57 c.
Definition is_upper_ascii (c : ascii) : bool := in_range 65 90 c.
Definition is_lower_ascii (c : ascii) : bool := in_range 97 122 c.
Definition is_alpha_ascii (c : ascii) : bool := is_upper_ascii c || is_lower_ascii c.

(** The regex class [\w]: alphanumeric (in the Unicode sense) or underscore. *)
Definition py_word (c : ascii) : bool :=
  is_digit c || is_alpha_ascii c || (code c =? 95)%N
  || (code c =? 170)%N || in_range 178 179 c || (code c =? 181)%N
  || in_range 185 186 c || in_range 188 190 c
  || in_range 192 214 c || in_range 216 246 c || in_range 248 255 c.

(** [[A-Za-z_]] and [[A-Za-z0-9_]]. *)
Definition ident_start (c : ascii) : bool := is_alpha_ascii c || (code c =? 95)%N.
Definition ident_char (c : ascii) : bool := ident_start c || is_digit c.

Definition newline : ascii := "010"%char.

(** ** Strings *)

Fixpoint str_forall (p : ascii -> bool) (s : string) : bool :=
  match s with
  | EmptyString => true
  | String c s' => p c && str_forall p s'
  end.

Definition str_exists (p : ascii -> bool) (s : string) : bool :=
  negb (str_forall (fun c => negb (p c)) s).

Fixpoint str_rev_app (s acc : string) : string :=
  match s with
  | EmptyString => acc
  | String c s' => str_rev_app s' (String c acc)
  end.
Definition str_rev (s : string) : string := str_rev_app s EmptyString.

(** [str.lstrip()], [str.rstrip()], [str.strip()]. *)
Fixpoint lstrip (s : string) : string :=
  match s with
  | EmptyString => EmptyString
  | String c s' => if py_space c then lstrip s' else s
  end.
Fixpoint rstrip (s : string) : string :=
  match s with
  | EmptyString => EmptyString
  | String c s' =>
      match rstrip s' with
      | EmptyString => if py_space c then EmptyString else String c EmptyString
      | r => String c r
      end
  end.
Definition strip (s : string) : string := rstrip (lstrip s).

(** [s.startswith(p)], [s.endswith(p)], [p in s]. *)
Fixpoint startswith (p s : string) : bool :=
  match p, s with
  | EmptyString, _ => true
  | String a p', String b s' => Ascii.eqb a b && startswith p' s'
  | String _ _, EmptyString => false
  end.
Fixpoint endswith (p s : string) : bool :=
  String.eqb p s ||
  match s with
  | EmptyString => false
  | String _ s' => endswith p s'
  end.
Fixpoint contains (p s : string) : bool :=
  startswith p s ||
  match s with
  | EmptyString => false
  | String _ s' => contains p s'
  end.

(** [s[n:]] and [s[:n]]. *)
Fixpoint str_drop (n : nat) (s : string) : string :=
  match n, s with
  | O, _ => s
  | S n', String _ s' => str_drop n' s'
  | S _, EmptyString => EmptyString
  end.
Fixpoint str_take (n : nat) (s : string) : string :=
  match n, s with
  | O, _ => EmptyString
  | S n', String c s' => String c (str_take n' s')
  | S _, EmptyString => EmptyString
  end.

(** [s[1:-1]]. *)
Fixpoint str_init (s : string) : string :=
  match s with
  | EmptyString => EmptyString
  | String _ EmptyString => EmptyString
  | String c s' => String c (str_init s')
  end.
Definition str_inner (s : string) : string := str_init (str_drop 1 s).

(** [s.split(c)] for a one-character separator. *)
Fixpoint split_on (sep : ascii) (s : string) : list string :=
  match s with
  | EmptyString => [EmptyString]
  | String c s' =>
      if Ascii.eqb c sep then EmptyString :: split_on sep s'
      else match split_on sep s' with
           | [] => [String c EmptyString]
           | w :: ws => String c w :: ws
           end
  end.

(** [s.partition(sep)]: the text before the first [sep], and that after it. *)
Fixpoint str_partition (sep : ascii) (s : string) : string * option string :=
  match s with
  | EmptyString => (EmptyString, None)
  | String c s' => if Ascii.eqb c sep then (EmptyString, Some s') else let '(a, b) := str_partition sep s' in (String c a, b)
  end.

(** [s.split()]: runs of whitespace separate, empty fields are dropped. *)
Fixpoint split_ws_aux (s : string) (cur : string) : list string :=
  match s with
  | EmptyString => if String.eqb cur EmptyString then [] else [str_rev cur]
  | String c s' =>
      if py_space c then
        if String.eqb cur EmptyString then split_ws_aux s' EmptyString
        else str_rev cur :: split_ws_aux s' EmptyString
      else split_ws_aux s' (String c cur)
  end.
Definition split_ws (s : string) : list string := split_ws_aux s EmptyString.

(** [s.rstrip("/")]. *)
Fixpoint rstrip_slash (s : string) : string :=
  match s with
  | EmptyString => EmptyString
  | String c s' =>
      match rstrip_slash s' with
      | EmptyString => if Ascii.eqb c "/"%char then EmptyString else String c EmptyString
      | r => String c r
      end
  end.

(** [os.path.basename]: the text after the last slash. *)
Fixpoint after_last_slash (s acc : string) : string :=
  match s with
  | EmptyString => acc
  | String c s' => if Ascii.eqb c "/"%char then after_last_slash s' s' else after_last_slash s' acc
  end.
Definition path_basename (p : string) : string := after_last_slash p p.

(** [s[:n]]. *)
Fixpoint prefix_upto (n : Z) (s : string) : string :=
  match s with
  | EmptyString => EmptyString
  | String c s' => if n <=? 0 then EmptyString else String c (prefix_upto (n - 1) s')
  end.

(** [sep.join(parts)]. *)
Fixpoint join (sep : string) (parts : list string) : string :=
  match parts with
  | [] => EmptyString
  | [p] => p
  | p :: ps => p +:+ sep +:+ join sep ps
  end.

(** [s.lower()] on the modelled range. *)
Definition lower_char (c : ascii) : ascii :=
  if in_range 65 90 c || (in_range 192 222 c && negb (code c =? 215)%N)
  then ascii_of_N (code c + 32) else c.
Fixpoint str_lower (s : string) : string :=
  match s with
  | EmptyString => EmptyString
  | String c s' => String (lower_char c) (str_lower s')
  end.

(** [str.splitlines] on Latin-1 text. *)
Definition line_break (c : ascii) : bool :=
  in_range 10 13 c || in_range 28 30 c || (code c =? 133)%N.
Fixpoint splitlines_aux (s : string) (cur : string) (after_cr : bool) : list string :=
  match s with
  | EmptyString => if String.eqb cur EmptyString then [] else [str_rev cur]
  | String c s' =>
      if after_cr && (code c =? 10)%N then splitlines_aux s' cur false
      else if line_break c then str_rev cur :: splitlines_aux s' EmptyString (code c =? 13)%N
      else splitlines_aux s' (String c cur) false
  end.
Definition splitlines (s : string) : list string := splitlines_aux s EmptyString false.

(** [str(n)] of a Python int. *)
Definition str_of_Z (z : Z) : string := NilZero.string_of_int (Z.to_int z).
Definition str_of_nat (n : nat) : string := str_of_Z (Z.of_nat n).

(** ** [int(s)]

    Surrounding whitespace, an optional sign, decimal digits with single
    underscores between them; more than 4300 digits is a [ValueError]
    (CPython's default limit). [None] is the [ValueError]. *)

Definition digit_val (c : ascii) : Z := Z.of_N (code c) - 48.

Fixpoint int_digits (s : string) (acc : Z) (n : Z) (prev_us : bool) : option (Z * Z) :=
  match s with
  | EmptyString => if prev_us then None else Some (acc, n)
  | String c s' =>
      if is_digit c then int_digits s' (10 * acc + digit_val c) (n + 1) false
      else if (code c =? 95)%N then
        if prev_us then None else int_digits s' acc n true
      else None
  end.

Definition int_max_str_digits : Z := 4300.

Definition int_unsigned (s : string) : option Z :=
  match int_digits s 0 0 true with
  | Some (v, n) => if n <=? int_max_str_digits then Some v else None
  | None => None
  end.

Definition py_int (s : string) : option Z :=
  match strip s with
  | String "+"%char s' => int_unsigned s'
  | String "-"%char s' => Z.opp <$> int_unsigned s'
  | s' => int_unsigned s'
  end.

(** ** String lemmas *)

Create Rewrite HintDb pystr.

Lemma sapp_nil_r (s : string) : s +:+ EmptyString = s.
Proof. induction s as [|c s IH]; simpl; [done | by rewrite IH]. Qed.

Lemma sapp_assoc (a b c : string) : (a +:+ b) +:+ c = a +:+ b +:+ c.
Proof. induction a as [|x a IH]; simpl; [done | by rewrite IH]. Qed.

Lemma slength_app (a b : string) :
  String.length (a +:+ b) = (String.length a + String.length b)%nat.
Proof. induction a as [|x a IH]; simpl; [done | by rewrite IH]. Qed.

#[export] Hint Rewrite sapp_nil_r sapp_assoc slength_app : pystr.

Lemma str_rev_app_acc (s a b : string) : str_rev_app s (a +:+ b) = str_rev_app s a +:+ b.
Proof. revert a. induction s as [|c s IH]; intros a; simpl; [done|]. apply (IH (String c a)). Qed.

Lemma str_rev_cons (c : ascii) (s : string) :
  str_rev (String c s) = str_rev s +:+ String c EmptyString.
Proof. unfold str_rev. simpl. apply (str_rev_app_acc s EmptyString). Qed.

Lemma str_rev_app_distr (a b : string) : str_rev (a +:+ b) = str_rev b +:+ str_rev a.
Proof.
  induction a as [|c a IH]; simpl.
  - by rewrite sapp_nil_r.
  - by rewrite !str_rev_cons, IH, sapp_assoc.
Qed.

Lemma str_rev_involutive (s : string) : str_rev (str_rev s) = s.
Proof.
  induction s as [|c s IH]; [done|].
  by rewrite str_rev_cons, str_rev_app_distr, IH.
Qed.

Lemma str_forall_app (p : ascii -> bool) (a b : string) :
  str_forall p (a +:+ b) = str_forall p a && str_forall p b.
Proof. induction a as [|c a IH]; simpl; [done|]. by rewrite IH, andb_assoc. Qed.

Lemma str_forall_impl (p q : ascii -> bool) (s : string) :
  (forall c, p c = true -> q c = true) -> str_forall p s = true -> str_forall q s = true.
Proof.
  intros Hpq. induction s as [|c s IH]; simpl; [done|].
  intros [Hc Hs]%andb_prop. by rewrite (Hpq c Hc), IH.
Qed.

Lemma str_forall_spec (p : ascii -> bool) (a b : string) (c : ascii) :
  str_forall p (a +:+ String c b) = true -> p c = true.
Proof. rewrite str_forall_app. simpl. intros [_ [? _]%andb_prop]%andb_prop. done. Qed.

(** Whitespace at either end disappears under [strip]. *)
Lemma lstrip_ws_app (w s : string) :
  str_forall py_space w = true -> lstrip (w +:+ s) = lstrip s.
Proof.
  induction w as [|c w IH]; simpl; [done|].
  intros [-> Hw]%andb_prop. by apply IH.
Qed.

Lemma rstrip_all_ws (w : string) : str_forall py_space w = true -> rstrip w = EmptyString.
Proof.
  induction w as [|c w IH]; simpl; [done|].
  intros [Hc Hw]%andb_prop. by rewrite IH, Hc.
Qed.

Lemma rstrip_app_ws (s w : string) :
  str_forall py_space w = true -> rstrip (s +:+ w) = rstrip s.
Proof.
  intros Hw. induction s as [|c s IH]; simpl; [by apply rstrip_all_ws|].
  by rewrite IH.
Qed.

Lemma lstrip_app_nonempty (a b : string) :
  lstrip a <> EmptyString -> lstrip (a +:+ b) = lstrip a +:+ b.
Proof. induction a as [|c a IH]; simpl; [done|]. destruct (py_space c); auto. Qed.

Lemma lstrip_empty_all_ws (s : string) :
  lstrip s = EmptyString -> str_forall py_space s = true.
Proof. induction s as [|c s IH]; simpl; [done|]. by destruct (py_space c); simpl. Qed.

Lemma rstrip_empty_all_ws (s : string) :
  rstrip s = EmptyString -> str_forall py_space s = true.
Proof.
  induction s as [|c s IH]; simpl; [done|].
  destruct (rstrip s) eqn:E; [|done].
  destruct (py_space c); [intros _; by apply IH | done].
Qed.

Lemma strip_app_ws (s w : string) :
  str_forall py_space w = true -> strip (s +:+ w) = strip s.
Proof.
  intros Hw. unfold strip. destruct (lstrip s) as [|c l] eqn:E.
  - rewrite lstrip_ws_app by by apply lstrip_empty_all_ws.
    assert (lstrip w = EmptyString) as ->; [|done].
    clear -Hw. induction w as [|c w IH]; simpl in *; [done|].
    apply andb_prop in Hw as [-> Hw]. by apply IH.
  - rewrite lstrip_app_nonempty by by rewrite E. rewrite E. by apply rstrip_app_ws.
Qed.

Lemma strip_ws_app (w s : string) :
  str_forall py_space w = true -> strip (w +:+ s) = strip s.
Proof. intros Hw. unfold strip. by rewrite lstrip_ws_app. Qed.

Lemma startswith_app (p s : string) : startswith p (p +:+ s) = true.
Proof. induction p as [|c p IH]; simpl; [done|]. by rewrite Ascii.eqb_refl. Qed.

Lemma startswith_spec (p s : string) : startswith p s = true <-> exists r, s = p +:+ r.
Proof.
  split.
  - revert s. induction p as [|c p IH]; intros s; simpl; [by exists s|].
    destruct s as [|d s]; [done|].
    intros [->%Ascii.eqb_eq [r ->]%IH]%andb_prop. by exists r.
  - intros [r ->]. apply startswith_app.
Qed.

Lemma str_take_drop (n : nat) (s : string) : str_take n s +:+ str_drop n s = s.
Proof. revert s. induction n as [|n IH]; intros [|c s]; cbn; [done..|]. by rewrite IH. Qed.
Lemma str_take_length (n : nat) (s : string) : String.length (str_take n s) = Nat.min n (String.length s).
Proof. revert s. induction n as [|n IH]; intros [|c s]; cbn; [done..|]. by rewrite IH. Qed.
Lemma str_take_app (n : nat) (a b : string) :
  str_take n (a +:+ b) = str_take n a +:+ str_take (n - String.length a) b.
Proof. revert a. induction n as [|n IH]; intros [|c a]; cbn; [done..|]. by rewrite IH. Qed.
Lemma str_take_all (n : nat) (s : string) : (String.length s <= n)%nat -> str_take n s = s.
Proof. revert s. induction n as [|n IH]; intros [|c s]; cbn; intros; [done|lia|done|]. by rewrite IH by lia. Qed.

Lemma str_drop_all (n : nat) (s : string) : (String.length s <= n)%nat -> str_drop n s = EmptyString.
Proof. revert s. induction n as [|n IH]; intros [|c s]; cbn; intros; [done|lia|done|]. by rewrite IH by lia. Qed.

Lemma str_drop_app (a b : string) : str_drop (String.length a) (a +:+ b) = b.
Proof. by induction a. Qed.

(** [int] of [str]: the decimal text reads back. *)
Lemma string_int_roundtrip (z : Z) :
  Z.of_int <$> NilZero.int_of_string (str_of_Z z) = Some z.
Proof.
  assert (Hnil : Z.to_int z <> Decimal.Pos Decimal.Nil /\
                 Z.to_int z <> Decimal.Neg Decimal.Nil).
  { split; intros H; pose proof (DecimalZ.of_to z) as Hz;
      rewrite H in Hz; simpl in Hz; subst z; discriminate H. }
  unfold str_of_Z. rewrite NilZero.isi by apply Hnil. simpl. by rewrite DecimalZ.of_to.
Qed.

Lemma str_of_Z_inj (a b : Z) : str_of_Z a = str_of_Z b -> a = b.
Proof.
  intros H. pose proof (string_int_roundtrip a) as Ha. rewrite H, string_int_roundtrip in Ha.
  congruence.
Qed.

(** [split] undoes [join] when the separator does not occur in the parts. *)
Lemma partition_reads (sep : ascii) (a r : string) :
  str_forall (fun c => negb (Ascii.eqb c sep)) a = true -> str_partition sep (a +:+ String sep r) = (a, Some r).
Proof.
  induction a as [|c a IH]; [by intros _; cbn; rewrite Ascii.eqb_refl|]. cbn [str_forall]. intros [Hc Ha]%andb_prop.
  cbn [String.append str_partition]. apply negb_true_iff in Hc as ->. by rewrite IH.
Qed.

Lemma split_on_app (sep : ascii) (w s : string) :
  str_forall (fun c => negb (Ascii.eqb c sep)) w = true ->
  split_on sep (w +:+ String sep s) = w :: split_on sep s.
Proof.
  induction w as [|c w IH]; simpl; [by rewrite Ascii.eqb_refl|].
  intros [Hc Hw]%andb_prop. apply negb_true_iff in Hc as ->. by rewrite IH.
Qed.
Lemma split_on_single (sep : ascii) (w : string) :
  str_forall (fun c => negb (Ascii.eqb c sep)) w = true -> split_on sep w = [w].
Proof.
  induction w as [|c w IH]; simpl; [done|].
  intros [Hc Hw]%andb_prop. apply negb_true_iff in Hc as ->. by rewrite IH.
Qed.
Lemma split_on_join (sep : ascii) (parts : list string) :
  parts <> [] ->
  Forall (fun w => str_forall (fun c => negb (Ascii.eqb c sep)) w = true) parts ->
  split_on sep (join (String sep EmptyString) parts) = parts.
Proof.
  intros Hne. induction parts as [|w [|w' ws] IH]; [done| |]; intros [Hw Hws]%Forall_cons_1.
  - by apply split_on_single.
  - change (join (String sep EmptyString) (w :: w' :: ws))
      with (w +:+ String sep (join (String sep EmptyString) (w' :: ws))).
    rewrite split_on_app by done. f_equal. by apply IH.
Qed.

(** [split()] undoes [" ".join] of words. *)
Definition is_word (w : string) : bool :=
  negb (String.eqb w EmptyString) && str_forall (fun c => negb (py_space c)) w.

Lemma split_ws_aux_word (w s cur : string) :
  str_forall (fun c => negb (py_space c)) w = true ->
  split_ws_aux (w +:+ s) cur = split_ws_aux s (str_rev w +:+ cur).
Proof.
  revert cur. induction w as [|c w IH]; intros cur; [done|]. simpl.
  intros [Hc%negb_true_iff Hw]%andb_prop. rewrite Hc, IH by done.
  by rewrite str_rev_cons, sapp_assoc.
Qed.

Lemma str_rev_nonempty (w : string) : w <> EmptyString -> String.eqb (str_rev w) EmptyString = false.
Proof.
  intros Hw. apply String.eqb_neq. intros H. apply Hw. rewrite <- (str_rev_involutive w), H. done.
Qed.

Lemma split_ws_join (ws : list string) (c : ascii) :
  py_space c = true -> forallb is_word ws = true ->
  split_ws (join " " ws +:+ String c EmptyString) = ws.
Proof.
  intros Hc. unfold split_ws. induction ws as [|w [|w' ws] IH]; simpl; [by rewrite Hc|..];
    intros [[Hw Hf]%andb_prop Hr]%andb_prop;
    apply negb_true_iff, String.eqb_neq, str_rev_nonempty in Hw.
  - rewrite split_ws_aux_word by done. simpl. rewrite Hc, sapp_nil_r, Hw. simpl.
    by rewrite str_rev_involutive.
  - rewrite sapp_assoc, split_ws_aux_word by done. simpl. rewrite sapp_nil_r, Hw, str_rev_involutive.
    f_equal. by apply IH.
Qed.

(** ** Keyed tables *)

(** Rows with one key are one row. *)
Lemma NoDup_fmap_eq {A B} (f : A -> B) (l : list A) (x y : A) :
  NoDup (f <$> l) -> x ∈ l -> y ∈ l -> f x = f y -> x = y.
Proof.
  intros Hnd (i & Hi)%list_elem_of_lookup (j & Hj)%list_elem_of_lookup He.
  assert (i = j) as ->; [|congruence].
  eapply NoDup_lookup; [exact Hnd| |]; rewrite list_lookup_fmap, ?Hi, ?Hj; simpl; [done|by rewrite He].
Qed.

Lemma bind_Ok {E A B} (r : result E A) (f : A -> result E B) (y : B) :
  (x ← r; f x) = Ok y -> exists x, r = Ok x /\ f x = Ok y.
Proof. destruct r as [a|]; [|done]. intros H. by exists a. Qed.

Lemma exists_cons {A} (P : A -> Prop) (x : A) (l : list A) :
  (exists y, y ∈ x :: l /\ P y) <-> P x \/ exists y, y ∈ l /\ P y.
Proof.
  split.
  - intros (y & [->|Hy]%elem_of_cons & HP); [by left | right; by exists y].
  - intros [HP|(y & Hy & HP)]; [exists x | exists y]; (split; [|done]); [left | by right].
Qed.

Lemma exists_nil {A} (P : A -> Prop) : (exists y, y ∈ @nil A /\ P y) <-> False.
Proof. split; [|done]. by intros (y & ?%not_elem_of_nil & _). Qed.
