(* ===== verification/Schemas.v ===== *)
(** * Data model ([inspectord/schemas/*.py], [inspectord/parsers/base.py])

    Python values, the normalized [Event], the [Alert] and [AllowlistEntry]
    schemas, and [build_event], the constructor every
    collector goes through. *)

From S2P Require Import Prelude.

(** ** Python values

    What a [dict[str, Any]] block of an event can hold. [PFloat] is a finite
    float given by its exact rational value; [PTime] is a [datetime] in
    microseconds since the epoch. *)

#[warnings="-register-all"]
Inductive pyval : Type :=
| PNone
| PBool (b : bool)
| PInt (z : Z)
| PFloat (q : Q)
| PStr (s : string)
| PTime (us : Z)
| PList (l : list pyval)
| PDict (d : list (string * pyval)).

(** A Python [dict] with string keys, in insertion order. *)
Definition dict := list (string * pyval).

(** [d.get(k)] as an option: [None] when the key is missing. *)
Fixpoint dict_lookup (k : string) (d : dict) : option pyval :=
  match d with
  | [] => None
  | (k', v) :: d' => if String.eqb k k' then Some v else dict_lookup k d'
  end.

(** [d.get(k)] with Python's default [None]. *)
Definition dict_get (k : string) (d : dict) : pyval :=
  default PNone (dict_lookup k d).

(** [k in d]. *)
Definition dict_mem (k : string) (d : dict) : bool :=
  match dict_lookup k d with Some _ => true | None => false end.

(** [d[k] = v]: replaces in place or appends. *)
Fixpoint dict_set (k : string) (v : pyval) (d : dict) : dict :=
  match d with
  | [] => [(k, v)]
  | (k', v') :: d' => if String.eqb k k' then (k, v) :: d' else (k', v') :: dict_set k v d'
  end.

(** [d.pop(k, None)]. *)
Fixpoint dict_pop (k : string) (d : dict) : dict :=
  match d with
  | [] => []
  | (k', v') :: d' => if String.eqb k k' then dict_pop k d' else (k', v') :: dict_pop k d'
  end.

Definition is_dict (v : pyval) : bool := match v with PDict _ => true | _ => false end.
Definition as_dict (v : pyval) : option dict := match v with PDict d => Some d | _ => None end.
Definition as_str (v : pyval) : option string := match v with PStr s => Some s | _ => None end.

(** [bool(v)]. *)
Definition truthy (v : pyval) : bool :=
  match v with
  | PNone => false
  | PBool b => b
  | PInt z => negb (z =? 0)
  | PFloat q => negb (Qeq_bool q 0)
  | PStr s => negb (String.eqb s EmptyString)
  | PTime _ => true
  | PList l => negb (bool_decide (length l = 0%nat))
  | PDict d => negb (bool_decide (length d = 0%nat))
  end.

(** [block or {}] for an optional block. *)
Definition block_or_empty (b : option dict) : dict := default [] b.

(** ** Enumerations of [schemas/event.py] *)

Inductive EventKind := EK_event | EK_alert | EK_signal | EK_state | EK_metric.
Inductive Severity := SevInfo | SevLow | SevMedium | SevHigh | SevCritical.
Inductive Outcome := OutSuccess | OutFailure | OutUnknown.

#[export] Instance EventKind_eq_dec : EqDecision EventKind.
Proof. solve_decision. Defined.
#[export] Instance Severity_eq_dec : EqDecision Severity.
Proof. solve_decision. Defined.
#[export] Instance Outcome_eq_dec : EqDecision Outcome.
Proof. solve_decision. Defined.

Definition kind_value (k : EventKind) : string :=
  match k with
  | EK_event => "event" | EK_alert => "alert" | EK_signal => "signal"
  | EK_state => "state" | EK_metric => "metric"
  end.
Definition severity_value (s : Severity) : string :=
  match s with
  | SevInfo => "info" | SevLow => "low" | SevMedium => "medium"
  | SevHigh => "high" | SevCritical => "critical"
  end.
Definition outcome_value (o : Outcome) : string :=
  match o with OutSuccess => "success" | OutFailure => "failure" | OutUnknown => "unknown" end.

(** [Enum(value)]: the member with that value, or a [ValueError] ([None]). *)
Definition enum_of {A} (value : A -> string) (members : list A) (s : string) : option A :=
  List.find (fun m => String.eqb (value m) s) members.

Definition EventKind_members := [EK_event; EK_alert; EK_signal; EK_state; EK_metric].
Definition Severity_members := [SevInfo; SevLow; SevMedium; SevHigh; SevCritical].
Definition Outcome_members := [OutSuccess; OutFailure; OutUnknown].

Definition EventKind_of : string -> option EventKind := enum_of kind_value EventKind_members.
Definition Severity_of : string -> option Severity := enum_of severity_value Severity_members.
Definition Outcome_of : string -> option Outcome := enum_of outcome_value Outcome_members.

Lemma Severity_of_value (s : Severity) : Severity_of (severity_value s) = Some s.
Proof. by destruct s. Qed.

(** ** Schema versions ([schemas/versions.py]) *)

Definition EVENT_SCHEMA_VERSION : string := "1.0.0".
Definition ALERT_SCHEMA_VERSION : string := "1.0.0".
Definition IPC_PROTOCOL_VERSION : string := "1.0.0".
Definition JOURNAL_FORMAT_VERSION : string := "1.0.0".

(** ** [Event] *)

Record Event := mkEvent {
  ev_schema_version : string;
  ev_ts : Z;
  ev_event_id : string;
  ev_kind : EventKind;
  ev_category : list string;
  ev_type : list string;
  ev_action : string;
  ev_outcome : option Outcome;
  ev_severity : Severity;
  ev_module : string;
  ev_first_seen : bool;
  ev_host : option dict;
  ev_user : option dict;
  ev_process : option dict;
  ev_file : option dict;
  ev_source : option dict;
  ev_destination : option dict;
  ev_network : option dict;
  ev_service : option dict;
  ev_package : option dict;
  ev_device : option dict;
  ev_persistence : option dict;
  ev_vulnerability : option dict;
  ev_hunt : option dict;
  ev_rule : option dict;
  ev_threat : option dict;
  ev_baseline : option dict;
  ev_evidence : option dict;
  ev_raw : option dict;
  ev_labels : list string;
  ev_message : option string;
}.

Definition opt_dict (b : option dict) : pyval :=
  match b with Some d => PDict d | None => PNone end.
Definition opt_str (s : option string) : pyval :=
  match s with Some s => PStr s | None => PNone end.
Definition str_list (l : list string) : pyval := PList (PStr <$> l).

(** The declared fields in declaration order, as [getattr] returns them. The
    enumerations are [StrEnum]s, so they are strings. *)
Definition event_fields (e : Event) : dict :=
  [("schema_version", PStr (ev_schema_version e));
   ("ts", PTime (ev_ts e));
   ("event_id", PStr (ev_event_id e));
   ("kind", PStr (kind_value (ev_kind e)));
   ("category", str_list (ev_category e));
   ("type", str_list (ev_type e));
   ("action", PStr (ev_action e));
   ("outcome", match ev_outcome e with Some o => PStr (outcome_value o) | None => PNone end);
   ("severity", PStr (severity_value (ev_severity e)));
   ("module", PStr (ev_module e));
   ("first_seen", PBool (ev_first_seen e));
   ("host", opt_dict (ev_host e));
   ("user", opt_dict (ev_user e));
   ("process", opt_dict (ev_process e));
   ("file", opt_dict (ev_file e));
   ("source", opt_dict (ev_source e));
   ("destination", opt_dict (ev_destination e));
   ("network", opt_dict (ev_network e));
   ("service", opt_dict (ev_service e));
   ("package", opt_dict (ev_package e));
   ("device", opt_dict (ev_device e));
   ("persistence", opt_dict (ev_persistence e));
   ("vulnerability", opt_dict (ev_vulnerability e));
   ("hunt", opt_dict (ev_hunt e));
   ("rule", opt_dict (ev_rule e));
   ("threat", opt_dict (ev_threat e));
   ("baseline", opt_dict (ev_baseline e));
   ("evidence", opt_dict (ev_evidence e));
   ("raw", opt_dict (ev_raw e));
   ("labels", str_list (ev_labels e));
   ("message", opt_str (ev_message e))]%string.

(** ** [build_event] ([parsers/base.py])

    The keyword arguments, with the source's defaults. *)

Record EventArgs := mkArgs {
  a_module : string; a_action : string;
  a_category : list string; a_type : list string;
  a_severity : string; a_kind : string;
  a_host : option dict; a_outcome : option string; a_message : option string;
  a_process : option dict; a_file : option dict; a_user : option dict;
  a_source : option dict; a_destination : option dict; a_network : option dict;
  a_service : option dict; a_package : option dict; a_device : option dict;
  a_persistence : option dict; a_vulnerability : option dict; a_hunt : option dict;
  a_threat : option dict; a_raw : option dict;
  a_labels : option (list string); a_ts : option Z; a_first_seen : bool;
}.

Definition event_args (module action : string) (category type_ : list string)
    (severity : string) : EventArgs :=
  {| a_module := module; a_action := action; a_category := category; a_type := type_;
     a_severity := severity; a_kind := "event";
     a_host := None; a_outcome := None; a_message := None; a_process := None;
     a_file := None; a_user := None; a_source := None; a_destination := None;
     a_network := None; a_service := None; a_package := None; a_device := None;
     a_persistence := None; a_vulnerability := None; a_hunt := None; a_threat := None;
     a_raw := None; a_labels := None; a_ts := None; a_first_seen := false |}.

(** [now] is the wall clock and [event_id] the fresh [uuid7] the body draws.
    [None] is the [ValueError] of an unknown kind, outcome or severity. *)
Definition build_event (now : Z) (event_id : string) (a : EventArgs) : option Event :=
  kind ← EventKind_of (a_kind a);
  outcome ← (match a_outcome a with
             | None => Some None
             | Some o => Some <$> Outcome_of o
             end);
  severity ← Severity_of (a_severity a);
  Some {| ev_schema_version := EVENT_SCHEMA_VERSION;
          ev_ts := default now (a_ts a);
          ev_event_id := event_id;
          ev_kind := kind;
          ev_category := a_category a;
          ev_type := a_type a;
          ev_action := a_action a;
          ev_outcome := outcome;
          ev_severity := severity;
          ev_module := a_module a;
          ev_first_seen := a_first_seen a;
          ev_host := a_host a;
          ev_user := a_user a;
          ev_process := a_process a;
          ev_file := a_file a;
          ev_source := a_source a;
          ev_destination := a_destination a;
          ev_network := a_network a;
          ev_service := a_service a;
          ev_package := a_package a;
          ev_device := a_device a;
          ev_persistence := a_persistence a;
          ev_vulnerability := a_vulnerability a;
          ev_hunt := a_hunt a;
          ev_rule := None;
          ev_threat := a_threat a;
          ev_baseline := None;
          ev_evidence := None;
          ev_raw := a_raw a;
          ev_labels := default [] (a_labels a);
          ev_message := a_message a |}.

(** ** [Alert] ([schemas/alert.py]) *)

Inductive AlertStatus := St_new | St_acknowledged | St_resolved | St_suppressed.
#[export] Instance AlertStatus_eq_dec : EqDecision AlertStatus.
Proof. solve_decision. Defined.

Definition status_value (s : AlertStatus) : string :=
  match s with
  | St_new => "new" | St_acknowledged => "acknowledged"
  | St_resolved => "resolved" | St_suppressed => "suppressed"
  end.
Definition AlertStatus_members := [St_new; St_acknowledged; St_resolved; St_suppressed].
Definition AlertStatus_of : string -> option AlertStatus :=
  enum_of status_value AlertStatus_members.

Record RuleRef := mkRuleRef {
  rr_id : string; rr_name : string; rr_ruleset : string; rr_version : string;
  rr_severity : Severity; rr_why : string; rr_false_positives : list string;
}.

Record EntityRef := mkEntityRef { er_kind : string; er_key : string }.

Record RenderedAlert := mkRendered { ra_short : string; ra_detail : string }.

Record Alert := mkAlert {
  al_schema_version : string;
  al_alert_id : string;
  al_rule : RuleRef;
  al_ts : Z;
  al_severity : Severity;
  al_status : AlertStatus;
  al_category : string;
  al_event_ids : list string;
  al_entities : list EntityRef;
  al_incident_id : option string;
  al_dedup_key : string;
  al_dedup_count : Z;
  al_first_seen_at : Z;
  al_last_seen_at : Z;
  al_evidence_case_id : option string;
  al_notes : list dict;
  al_labels : list string;
  al_rendered : RenderedAlert;
}.

(** ** [AllowlistEntry] ([schemas/allowlist.py]) *)

Record AllowlistScope := mkScope {
  sc_rule_id : option string;
  sc_entity : option EntityRef;
  sc_user_id : option Z;
  sc_path_glob : option string;
}.

Record AllowlistStats := mkStats {
  as_suppressed_count : Z;
  as_last_suppressed_at : option Z;
}.

Record AllowlistEntry := mkEntry {
  ae_schema_version : string;
  ae_id : string;
  ae_scope : AllowlistScope;
  ae_reason : string;
  ae_created_by : string;
  ae_created_at : Z;
  ae_expires_at : option Z;
  ae_auto_origin : bool;
  ae_stats : AllowlistStats;
}.

(** ** Dictionary lemmas *)

Lemma dict_lookup_set_eq (k : string) (v : pyval) (d : dict) :
  dict_lookup k (dict_set k v d) = Some v.
Proof.
  induction d as [|[k' v'] d IH]; simpl; [by rewrite String.eqb_refl|].
  destruct (String.eqb k k') eqn:E; simpl; [by rewrite String.eqb_refl|].
  by rewrite E.
Qed.

Lemma dict_lookup_set_ne (k k' : string) (v : pyval) (d : dict) :
  k <> k' -> dict_lookup k (dict_set k' v d) = dict_lookup k d.
Proof.
  intros Hne. induction d as [|[k2 v2] d IH]; simpl.
  - by apply String.eqb_neq in Hne as ->.
  - destruct (String.eqb k' k2) eqn:E; simpl.
    + apply String.eqb_eq in E as ->. by apply String.eqb_neq in Hne as ->.
    + by rewrite IH.
Qed.

Lemma dict_lookup_pop_eq (k : string) (d : dict) : dict_lookup k (dict_pop k d) = None.
Proof.
  induction d as [|[k' v'] d IH]; simpl; [done|].
  destruct (String.eqb k k') eqn:E; simpl; [done|]. by rewrite E.
Qed.
