(* ===== verification/Tables.v ===== *)
(** * Keyed tables

    The SQL statements the daemon runs on a table with a primary key, on the
    list of its rows: [INSERT ... ON CONFLICT (key) DO UPDATE], [DELETE] and
    [UPDATE ... WHERE key = ?]. A table abstracts to the finite map from keys
    to rows, on which these are insertion, deletion and alteration. *)

From S2P Require Import Prelude.

Section Keyed.
Context {K R : Type} `{Countable K} (key : R -> K).

Definition keys (rows : list R) : list K := key <$> rows.

Definition has_key (k : K) (r : R) : bool := bool_decide (key r = k).

(** [ON CONFLICT (key) DO UPDATE SET ...]: [upd excluded old]. *)
Definition upsert_with (upd : R -> R -> R) (row : R) (rows : list R) : list R :=
  if existsb (has_key (key row)) rows
  then (fun r => if has_key (key row) r then upd row r else r) <$> rows
  else rows ++ [row].

(** [ON CONFLICT (key) DO NOTHING]. *)
Definition insert_new (row : R) (rows : list R) : list R :=
  if existsb (has_key (key row)) rows then rows else rows ++ [row].

Definition delete_key (k : K) (rows : list R) : list R :=
  List.filter (fun r => negb (has_key k r)) rows.

Definition update_key (k : K) (f : R -> R) (rows : list R) : list R :=
  (fun r => if has_key k r then f r else r) <$> rows.

(** The map a table stands for. *)
Definition to_map (rows : list R) : gmap K R := list_to_map ((fun r => (key r, r)) <$> rows).

Lemma to_map_cons (r : R) (rows : list R) : to_map (r :: rows) = <[key r := r]> (to_map rows).
Proof. done. Qed.

Lemma to_map_None (rows : list R) (k : K) : to_map rows !! k = None <-> k ∉ keys rows.
Proof.
  unfold to_map, keys. rewrite <- not_elem_of_list_to_map, <- list_fmap_compose. done.
Qed.

Lemma existsb_has_key (rows : list R) (k : K) : existsb (has_key k) rows = true <-> k ∈ keys rows.
Proof.
  unfold keys. rewrite existsb_exists, list_elem_of_fmap. unfold has_key. split.
  - intros (r & Hr%list_elem_of_In & Hk%bool_decide_eq_true). by exists r.
  - intros (r & -> & Hr%list_elem_of_In). exists r. by rewrite bool_decide_eq_true.
Qed.

Lemma to_map_lookup (rows : list R) (k : K) (r : R) :
  NoDup (keys rows) -> to_map rows !! k = Some r <-> r ∈ rows /\ key r = k.
Proof.
  intros Hnd. unfold to_map. rewrite <- elem_of_list_to_map by by rewrite <- list_fmap_compose.
  rewrite list_elem_of_fmap. split; [by intros (r' & [= -> ->] & Hr) | intros [Hr <-]; by exists r].
Qed.

Lemma to_map_app (rows : list R) (r : R) :
  key r ∉ keys rows -> to_map (rows ++ [r]) = <[key r := r]> (to_map rows).
Proof.
  intros Hk. induction rows as [|x rows IH]; [done|]. unfold keys in Hk. rewrite fmap_cons, not_elem_of_cons in Hk.
  destruct Hk as [Hx Hk]. cbn [app]. rewrite !to_map_cons, IH by done. by apply insert_insert_ne.
Qed.

Lemma keys_update (rows : list R) (k : K) (f : R -> R) :
  (forall r, key r = k -> key (f r) = k) -> keys (update_key k f rows) = keys rows.
Proof.
  intros Hf. unfold keys, update_key. rewrite <- list_fmap_compose. apply list_fmap_ext.
  intros i r _. simpl. unfold has_key. destruct (bool_decide_reflect (key r = k)) as [<-|]; [|done]. by apply Hf.
Qed.

Lemma to_map_update (rows : list R) (k : K) (f : R -> R) :
  NoDup (keys rows) -> (forall r, key r = k -> key (f r) = k) ->
  NoDup (keys (update_key k f rows)) /\ to_map (update_key k f rows) = alter f k (to_map rows).
Proof.
  intros Hnd Hf. split; [by rewrite keys_update|]. apply map_eq. intros k'. apply option_eq. intros r.
  rewrite to_map_lookup by by rewrite keys_update. unfold update_key.
  rewrite list_elem_of_fmap. destruct (decide (k = k')) as [<-|Hne].
  - rewrite lookup_alter_eq. split.
    + intros ((x & -> & Hx) & Hk). unfold has_key in *. destruct (bool_decide_reflect (key x = k)); [|done].
      rewrite (proj2 (to_map_lookup rows k x Hnd)) by done. done.
    + destruct (to_map rows !! k) as [x|] eqn:E; [|done]. intros [= <-].
      apply to_map_lookup in E as [Hx Hk]; [|done]. split; [|by apply Hf]. exists x. split; [|done].
      unfold has_key. by rewrite bool_decide_eq_true_2.
  - rewrite lookup_alter_ne by done. rewrite to_map_lookup by done. split.
    + intros ((x & -> & Hx) & Hk). unfold has_key in *. destruct (bool_decide_reflect (key x = k)) as [Hxk|]; [|done].
      exfalso. apply Hne. rewrite <- Hk. symmetry. by apply Hf.
    + intros [Hr <-]. split; [|done]. exists r. split; [|done]. unfold has_key.
      by rewrite bool_decide_eq_false_2.
Qed.

Lemma to_map_upsert (upd : R -> R -> R) (row : R) (rows : list R) :
  NoDup (keys rows) -> (forall r, key r = key row -> key (upd row r) = key row) ->
  NoDup (keys (upsert_with upd row rows)) /\
  to_map (upsert_with upd row rows) =
    <[key row := match to_map rows !! key row with Some old => upd row old | None => row end]> (to_map rows).
Proof.
  intros Hnd Hu. unfold upsert_with. destruct (existsb _ rows) eqn:E.
  - destruct (to_map_update rows (key row) (upd row) Hnd Hu) as [H1 H2]. split; [done|].
    unfold update_key in H2. rewrite H2. apply existsb_has_key in E.
    destruct (to_map rows !! key row) as [old|] eqn:El; [|by apply to_map_None in El].
    apply map_eq. intros k. destruct (decide (key row = k)) as [<-|Hne].
    + by rewrite lookup_alter_eq, lookup_insert_eq, El.
    + by rewrite lookup_alter_ne, lookup_insert_ne.
  - assert (key row ∉ keys rows) as Hn by (rewrite <- existsb_has_key; congruence). split.
    + unfold keys in *. rewrite fmap_app. apply NoDup_app. split_and!; [done| |apply NoDup_singleton].
      by intros k Hk ->%list_elem_of_singleton.
    + rewrite to_map_app by done. apply to_map_None in Hn. by rewrite Hn.
Qed.

Lemma to_map_insert_new (row : R) (rows : list R) :
  NoDup (keys rows) ->
  NoDup (keys (insert_new row rows)) /\
  to_map (insert_new row rows) =
    match to_map rows !! key row with Some _ => to_map rows | None => <[key row := row]> (to_map rows) end.
Proof.
  intros Hnd. unfold insert_new. destruct (existsb _ rows) eqn:E.
  - split; [done|]. apply existsb_has_key in E.
    destruct (to_map rows !! key row) as [old|] eqn:El; [done|]. by apply to_map_None in El.
  - destruct (to_map_upsert (fun _ r => r) row rows Hnd) as [H1 H2]; [done|].
    unfold upsert_with in H1, H2. rewrite E in H1, H2. split; [done|]. rewrite H2.
    assert (key row ∉ keys rows) as Hn by (rewrite <- existsb_has_key; congruence).
    apply to_map_None in Hn. by rewrite Hn.
Qed.

Lemma to_map_delete (rows : list R) (k : K) :
  NoDup (keys rows) ->
  NoDup (keys (delete_key k rows)) /\ to_map (delete_key k rows) = delete k (to_map rows).
Proof.
  intros Hnd. unfold delete_key. induction rows as [|r rows IH].
  { split; [done|]. change (to_map []) with (∅ : gmap K R). by rewrite delete_empty. }
  unfold keys in *. rewrite fmap_cons in Hnd. apply NoDup_cons in Hnd as [Hr Hnd].
  destruct (IH Hnd) as [H1 H2]. cbn [List.filter].
  destruct (has_key k r) eqn:E; cbn [negb]; unfold has_key in E.
  - apply bool_decide_eq_true in E. subst k. split; [done|]. rewrite H2, to_map_cons. by rewrite delete_insert_eq.
  - split.
    + rewrite fmap_cons. apply NoDup_cons. split; [|done].
      intros (x & Hx & [Hin _]%list_elem_of_In%List.filter_In)%list_elem_of_fmap.
      apply Hr, list_elem_of_fmap. exists x. split; [done|]. by apply list_elem_of_In.
    + apply bool_decide_eq_false in E. rewrite !to_map_cons, H2. by rewrite delete_insert_ne.
Qed.

(** ** A stream of statements, seen from one key *)

Inductive table_op :=
| TUpsert (row : R) (upd : R -> R)
| TDrop (k : K)
| TTouch (k : K) (f : R -> R)
| TSkip.

(** Updates keep the key. *)
Definition op_ok (op : table_op) : Prop :=
  match op with
  | TUpsert row upd => forall r, key r = key row -> key (upd r) = key row
  | TTouch k f => forall r, key r = k -> key (f r) = k
  | _ => True
  end.

Definition run_op (rows : list R) (op : table_op) : list R :=
  match op with
  | TUpsert row upd => upsert_with (fun _ => upd) row rows
  | TDrop k => delete_key k rows
  | TTouch k f => update_key k f rows
  | TSkip => rows
  end.

(** What a statement does to the row of one key. *)
Definition key_step (k : K) (o : option R) (op : table_op) : option R :=
  match op with
  | TUpsert row upd =>
      if has_key k row then Some (match o with Some r => upd r | None => row end) else o
  | TDrop k' => if bool_decide (k' = k) then None else o
  | TTouch k' f => if bool_decide (k' = k) then f <$> o else o
  | TSkip => o
  end.

(** The table is the product of its keys: each evolves by its own statements. *)
Lemma run_ops_keys (ops : list table_op) :
  Forall op_ok ops ->
  NoDup (keys (foldl run_op [] ops)) /\
  forall k, to_map (foldl run_op [] ops) !! k = foldl (key_step k) None ops.
Proof.
  induction ops as [|op ops IH] using rev_ind; [split; [constructor|done]|].
  intros [Hops Hop]%Forall_app. apply Forall_cons in Hop as [Hop _]. destruct (IH Hops) as [Hnd Hl].
  rewrite foldl_app. cbn [foldl]. setoid_rewrite foldl_app. cbn [foldl].
  destruct op as [row upd|k'|k' f|]; cbn [run_op op_ok] in *.
  - destruct (to_map_upsert (fun _ => upd) row _ Hnd Hop) as [H1 H2]. split; [done|].
    intros k. rewrite H2. cbn [key_step]. unfold has_key. destruct (bool_decide_reflect (key row = k)) as [<-|Hk].
    + by rewrite lookup_insert_eq, Hl.
    + by rewrite lookup_insert_ne, Hl.
  - destruct (to_map_delete _ k' Hnd) as [H1 H2]. split; [done|]. intros k. rewrite H2. cbn [key_step].
    destruct (bool_decide_reflect (k' = k)) as [<-|Hk]; [by rewrite lookup_delete_eq | by rewrite lookup_delete_ne].
  - destruct (to_map_update _ k' f Hnd Hop) as [H1 H2]. split; [done|]. intros k. rewrite H2. cbn [key_step].
    destruct (bool_decide_reflect (k' = k)) as [<-|Hk]; [by rewrite lookup_alter_eq, Hl | by rewrite lookup_alter_ne].
  - split; [done|]. apply Hl.
Qed.
End Keyed.

Arguments TUpsert {K R} row upd.
Arguments TDrop {K R} k.
Arguments TTouch {K R} k f.
Arguments TSkip {K R}.

(** ** Lives

    The elements of a stream that concern an entity since it was last
    removed, oldest first. *)
Section Lives.
Context {E : Type} (about removes : E -> bool).

Definition life_step (acc : list E) (e : E) : list E :=
  if about e then if removes e then [] else acc ++ [e] else acc.
Definition life (es : list E) : list E := foldl life_step [] es.

(** Its newest element with the oldest one. *)
Definition lifespan (es : list E) : option (E * E) :=
  oldest ← head (life es); newest ← last (life es); Some (oldest, newest).

Lemma lifespan_snoc (es : list E) (e : E) :
  lifespan (es ++ [e]) =
  (if about e then
     if removes e then None
     else Some (match lifespan es with Some (oldest, _) => oldest | None => e end, e)
   else lifespan es).
Proof.
  unfold lifespan, life. rewrite foldl_app. cbn [foldl]. unfold life_step at 1 3.
  destruct (about e); [|done]. destruct (removes e); [done|]. rewrite last_snoc.
  destruct (foldl life_step [] es) as [|x l]; [done|]. cbn [head app mbind option_bind].
  destruct (last (x :: l)) eqn:El; [done|]. by apply last_None in El.
Qed.
End Lives.

(** ** Tables fed by a stream of events *)
Section Closed.
Context {K R E : Type} `{Countable K} (key : R -> K) (op_of : E -> @table_op K R).

(** The event concerns, or removes, the entity with this key. *)
Definition about (k : K) (e : E) : bool :=
  match op_of e with
  | TUpsert row _ => has_key key k row
  | TDrop k' | TTouch k' _ => bool_decide (k' = k)
  | TSkip => false
  end.
Definition removes (e : E) : bool := match op_of e with TDrop _ => true | _ => false end.

(** The row of an entity as a function of its oldest and newest event. *)
Context (row : E -> E -> R).
Hypothesis row_new : forall e r upd, op_of e = TUpsert r upd -> r = row e e.
Hypothesis row_upd : forall k o n e r upd, about k n = true -> op_of e = TUpsert r upd -> has_key key k r = true ->
  upd (row o n) = row o e.
Hypothesis no_touch : forall e k f, op_of e <> TTouch k f.

Definition entity (k : K) (es : list E) : option R :=
  '(oldest, newest) ← lifespan (about k) removes es; Some (row oldest newest).

Lemma lifespan_about (k : K) (es : list E) (o n : E) :
  lifespan (about k) removes es = Some (o, n) -> about k n = true.
Proof.
  revert o n. induction es as [|e es IH] using rev_ind; intros o n; [done|]. rewrite lifespan_snoc.
  destruct (about k e) eqn:Ea; [|apply IH]. destruct (removes e); [done|]. by intros [= _ <-].
Qed.

Lemma key_steps_entity (k : K) (es : list E) :
  foldl (key_step key k) None (op_of <$> es) = entity k es.
Proof.
  unfold entity. induction es as [|e es IH] using rev_ind; [done|].
  rewrite fmap_app, foldl_app, lifespan_snoc, IH. cbn [foldl fmap list_fmap].
  destruct (op_of e) as [r upd|k'|k' f|] eqn:Eo.
  - assert (about k e = has_key key k r) as -> by (unfold about; by rewrite Eo).
    assert (removes e = false) as -> by (unfold removes; by rewrite Eo). cbn [key_step].
    destruct (has_key key k r) eqn:Ek; [|done].
    destruct (lifespan (about k) removes es) as [[o n]|] eqn:El; cbn [mbind option_bind].
    + by rewrite (row_upd k o n e r upd (lifespan_about _ _ _ _ El) Eo Ek).
    + by rewrite (row_new e r upd Eo).
  - assert (about k e = bool_decide (k' = k)) as -> by (unfold about; by rewrite Eo).
    assert (removes e = true) as -> by (unfold removes; by rewrite Eo). cbn [key_step].
    by destruct (bool_decide (k' = k)).
  - by destruct (no_touch e k' f).
  - assert (about k e = false) as -> by (unfold about; by rewrite Eo). done.
Qed.
End Closed.

(** What makes the rows of a table functions of the stream that feeds it. *)
Class ClosedTable {K R E} `{Countable K} (key : R -> K) (op_of : E -> @table_op K R) (row : E -> E -> R) : Prop := {
  ct_ok : forall e, op_ok key (op_of e);
  ct_new : forall e r upd, op_of e = TUpsert r upd -> r = row e e;
  ct_next : forall k o n e r upd, about key op_of k n = true -> op_of e = TUpsert r upd ->
    has_key key k r = true -> upd (row o n) = row o e;
  ct_no_touch : forall e k f, op_of e <> TTouch k f;
}.

Lemma closed_table {K R E} `{Countable K} (key : R -> K) (op_of : E -> @table_op K R) (row : E -> E -> R)
    `{!ClosedTable key op_of row} (es : list E) :
  let rows := foldl (run_op key) [] (op_of <$> es) in
  NoDup (keys key rows) /\ forall k, to_map key rows !! k = entity key op_of row k es.
Proof.
  destruct (run_ops_keys key (op_of <$> es)) as [H1 H2].
  { apply Forall_fmap, Forall_forall. intros e _. apply (ct_ok (row:=row)). }
  split; [done|]. intros k. rewrite H2. apply key_steps_entity; [apply ct_new | apply ct_next | apply (ct_no_touch (row:=row))].
Qed.
