(* ===== verification/Json.v ===== *)
(** * JSON text ([json.dumps(..., sort_keys=True, separators=(",", ":"))] and
      [json.loads] of the standard library)

    The serialization the journal, the audit log and the stored payloads go
    through, and its reader. Floats are written and read by the parameters
    [float_repr] and [float_parse]; [NaN] and the infinities, escapes above
    U+00FF and integers of more than 4300 digits are outside the model. *)

From Stdlib Require Import DecimalString DecimalZ.
From S2P Require Import Prelude Schemas.

(** ** Strings *)

Definition hex_digit (n : N) : ascii :=
  if (n <? 10)%N then ascii_of_N (48 + n) else ascii_of_N (87 + n).

Definition bslash : ascii := "092"%char.
Definition quote : ascii := "034"%char.

(** One character inside a string literal ([ESCAPE_ASCII]). *)
Definition escape (c : ascii) : string :=
  let n := code c in
  if (n =? 34)%N then String bslash (String quote EmptyString)
  else if (n =? 92)%N then String bslash (String bslash EmptyString)
  else if (n =? 10)%N then String bslash "n"
  else if (n =? 13)%N then String bslash "r"
  else if (n =? 9)%N then String bslash "t"
  else if (n =? 12)%N then String bslash "f"
  else if (n =? 8)%N then String bslash "b"
  else if (32 <=? n)%N && (n <=? 126)%N then String c EmptyString
  else String bslash ("u00" +:+
         String (hex_digit (n / 16)) (String (hex_digit (n mod 16)) EmptyString)).

Fixpoint escape_all (s : string) : string :=
  match s with
  | EmptyString => EmptyString
  | String c s' => escape c +:+ escape_all s'
  end.

Definition json_string (s : string) : string :=
  String quote (escape_all s +:+ String quote EmptyString).

(** ** [json.dumps] *)

(** [sort_keys=True]: every dict in key order. *)
Definition key_le (a b : string * pyval) : Prop := String.le a.1 b.1.
#[export] Instance key_le_dec a b : Decision (key_le a b).
Proof. unfold key_le. apply _. Defined.

Fixpoint sort_keys (v : pyval) : pyval :=
  match v with
  | PList l => PList (map sort_keys l)
  | PDict d => PDict (merge_sort key_le (map (fun kv => (kv.1, sort_keys kv.2)) d))
  | _ => v
  end.

Section Json.
Context (float_repr : Q -> string) (float_parse : string -> Q).

(** The text of a value, dicts in their order, with [gap] after each comma and
    colon; [None] is the [TypeError] of a value JSON cannot hold. *)
Fixpoint json_gap (gap : string) (v : pyval) : option string :=
  match v with
  | PNone => Some "null"%string
  | PBool true => Some "true"%string
  | PBool false => Some "false"%string
  | PInt z => Some (str_of_Z z)
  | PFloat q => Some (float_repr q)
  | PStr s => Some (json_string s)
  | PTime _ => None
  | PList l =>
      (fun items => "[" +:+ join ("," +:+ gap) items +:+ "]") <$>
        (fix go (l : list pyval) : option (list string) :=
           match l with
           | [] => Some []
           | x :: l' => t ← json_gap gap x; ts ← go l'; Some (t :: ts)
           end) l
  | PDict d =>
      (fun items => "{" +:+ join ("," +:+ gap) items +:+ "}") <$>
        (fix go (d : list (string * pyval)) : option (list string) :=
           match d with
           | [] => Some []
           | (k, x) :: d' =>
               t ← json_gap gap x; ts ← go d'; Some ((json_string k +:+ (":" +:+ gap) +:+ t) :: ts)
           end) d
  end.

(** [separators=(",", ":")], and the default separators. *)
Abbreviation json_text := (json_gap EmptyString).
Definition json_spaced : pyval -> option string := json_gap " ".

Definition json_dumps (v : pyval) : option string := json_text (sort_keys v).

(** [json.dumps(..., indent=2)]: a line per element, [level] deep. *)
Fixpoint spaces (n : nat) : string :=
  match n with O => EmptyString | S n' => String " " (spaces n') end.
Definition new_line (level : nat) : string := String "010" (spaces (2 * level)).
Fixpoint json_pretty (level : nat) (v : pyval) : option string :=
  match v with
  | PList ((_ :: _) as l) =>
      (fun items => "[" +:+ new_line (S level) +:+ join ("," +:+ new_line (S level)) items
                    +:+ new_line level +:+ "]") <$>
        (fix go (l : list pyval) : option (list string) :=
           match l with
           | [] => Some []
           | x :: l' => t ← json_pretty (S level) x; ts ← go l'; Some (t :: ts)
           end) l
  | PDict ((_ :: _) as d) =>
      (fun items => "{" +:+ new_line (S level) +:+ join ("," +:+ new_line (S level)) items
                    +:+ new_line level +:+ "}") <$>
        (fix go (d : list (string * pyval)) : option (list string) :=
           match d with
           | [] => Some []
           | (k, x) :: d' =>
               t ← json_pretty (S level) x; ts ← go d'; Some ((json_string k +:+ ": " +:+ t) :: ts)
           end) d
  | _ => json_text v
  end.

(** ** [json.loads] *)

Definition json_ws (c : ascii) : bool :=
  let n := code c in (n =? 32)%N || (n =? 9)%N || (n =? 10)%N || (n =? 13)%N.
Fixpoint skip_ws (s : string) : string :=
  match s with
  | String c s' => if json_ws c then skip_ws s' else s
  | EmptyString => EmptyString
  end.

Definition hex_val (c : ascii) : option N :=
  if is_digit c then Some (code c - 48)%N
  else if in_range 97 102 c then Some (code c - 87)%N
  else if in_range 65 70 c then Some (code c - 55)%N
  else None.

(** The inside of a string literal, up to the closing quote. *)
Fixpoint parse_chars (s : string) : option (string * string) :=
  match s with
  | EmptyString => None
  | String c s' =>
      if Ascii.eqb c quote then Some (EmptyString, s')
      else if Ascii.eqb c bslash then
        match s' with
        | String e s'' =>
            let simple r := '(t, rest) ← parse_chars s''; Some (String r t, rest) in
            if Ascii.eqb e quote then simple quote
            else if Ascii.eqb e bslash then simple bslash
            else if Ascii.eqb e "/"%char then simple "/"%char
            else if Ascii.eqb e "n"%char then simple "010"%char
            else if Ascii.eqb e "r"%char then simple "013"%char
            else if Ascii.eqb e "t"%char then simple "009"%char
            else if Ascii.eqb e "f"%char then simple "012"%char
            else if Ascii.eqb e "b"%char then simple "008"%char
            else if Ascii.eqb e "u"%char then
              match s'' with
              | String h1 (String h2 (String h3 (String h4 s4))) =>
                  a ← hex_val h1; b ← hex_val h2; x ← hex_val h3; y ← hex_val h4;
                  if (a =? 0)%N && (b =? 0)%N then
                    '(t, rest) ← parse_chars s4;
                    Some (String (ascii_of_N (16 * x + y)) t, rest)
                  else None
              | _ => None
              end
            else None
        | EmptyString => None
        end
      else if (code c <? 32)%N then None
      else '(t, rest) ← parse_chars s'; Some (String c t, rest)
  end.

(** Numbers: the longest run of number characters, then its shape. *)
Definition num_char (c : ascii) : bool :=
  is_digit c || Ascii.eqb c "-"%char || Ascii.eqb c "+"%char || Ascii.eqb c "."%char
  || Ascii.eqb c "e"%char || Ascii.eqb c "E"%char.

Fixpoint span_num (s : string) : string * string :=
  match s with
  | EmptyString => (EmptyString, EmptyString)
  | String c s' =>
      if num_char c then let '(a, b) := span_num s' in (String c a, b) else (EmptyString, s)
  end.

(** [-?(0|[1-9][0-9]* )] at the head: the rest. *)
Fixpoint drop_digits (s : string) : string :=
  match s with
  | String c s' => if is_digit c then drop_digits s' else s
  | EmptyString => EmptyString
  end.
Definition drop_sign (s : string) : string :=
  match s with String "-"%char s' => s' | _ => s end.
Definition int_rest (s : string) : option string :=
  match drop_sign s with
  | String c s' =>
      if Ascii.eqb c "0"%char then Some s'
      else if is_digit c then Some (drop_digits s') else None
  | EmptyString => None
  end.
Definition digits1_rest (s : string) : option string :=
  match s with
  | String c s' => if is_digit c then Some (drop_digits s') else None
  | EmptyString => None
  end.
Definition frac_rest (s : string) : option string :=
  match s with
  | String "."%char s' => digits1_rest s'
  | _ => Some s
  end.
Definition exp_rest (s : string) : option string :=
  match s with
  | String c s' =>
      if Ascii.eqb c "e"%char || Ascii.eqb c "E"%char then
        match s' with
        | String d s'' =>
            if Ascii.eqb d "-"%char || Ascii.eqb d "+"%char then digits1_rest s''
            else digits1_rest s'
        | EmptyString => None
        end
      else Some s
  | EmptyString => Some s
  end.

Definition parse_number (s : string) : option (pyval * string) :=
  let '(t, rest) := span_num s in
  r1 ← int_rest t;
  if String.eqb r1 EmptyString then
    z ← Z.of_int <$> NilZero.int_of_string t; Some (PInt z, rest)
  else
    r2 ← frac_rest r1; r3 ← exp_rest r2;
    if String.eqb r3 EmptyString then Some (PFloat (float_parse t), rest) else None.

(** Values, with fuel; [dict_set] gives the last of two equal keys. *)
Fixpoint parse_value (fuel : nat) (s : string) : option (pyval * string) :=
  match fuel with
  | O => None
  | S f =>
      match s with
      | EmptyString => None
      | String c s' =>
          if Ascii.eqb c quote then '(t, rest) ← parse_chars s'; Some (PStr t, rest)
          else if Ascii.eqb c "{"%char then
            match skip_ws s' with
            | String "}"%char rest => Some (PDict [], rest)
            | s2 => parse_members f s2 []
            end
          else if Ascii.eqb c "["%char then
            match skip_ws s' with
            | String "]"%char rest => Some (PList [], rest)
            | s2 => parse_items f s2
            end
          else if startswith "null" s then Some (PNone, str_drop 4 s)
          else if startswith "true" s then Some (PBool true, str_drop 4 s)
          else if startswith "false" s then Some (PBool false, str_drop 5 s)
          else parse_number s
      end
  end
with parse_items (fuel : nat) (s : string) : option (pyval * string) :=
  match fuel with
  | O => None
  | S f =>
      '(x, r) ← parse_value f s;
      match skip_ws r with
      | String ","%char r2 =>
          '(v, rest) ← parse_items f (skip_ws r2);
          match v with PList xs => Some (PList (x :: xs), rest) | _ => None end
      | String "]"%char rest => Some (PList [x], rest)
      | _ => None
      end
  end
with parse_members (fuel : nat) (s : string) (acc : dict) : option (pyval * string) :=
  match fuel with
  | O => None
  | S f =>
      match s with
      | String c s' =>
          if Ascii.eqb c quote then
            '(k, r) ← parse_chars s';
            match skip_ws r with
            | String ":"%char r2 =>
                '(x, r3) ← parse_value f (skip_ws r2);
                match skip_ws r3 with
                | String ","%char r4 => parse_members f (skip_ws r4) (dict_set k x acc)
                | String "}"%char rest => Some (PDict (dict_set k x acc), rest)
                | _ => None
                end
            | _ => None
            end
          else None
      | EmptyString => None
      end
  end.

(** The fuel covers any document: every call consumes a character of input
    per two units. *)
Definition json_fuel (s : string) : nat := (2 * String.length s + 2)%nat.

Definition json_loads (s : string) : option pyval :=
  '(v, rest) ← parse_value (json_fuel s) (skip_ws s);
  if String.eqb (skip_ws rest) EmptyString then Some v else None.

End Json.
Abbreviation json_text fr := (json_gap fr EmptyString).

(** ** Reading back what was written *)

(** Induction over values, through lists and dicts. *)
Section PyvalInd.
Context (P : pyval -> Prop)
  (HNone : P PNone) (HBool : forall b, P (PBool b)) (HInt : forall z, P (PInt z))
  (HFloat : forall q, P (PFloat q)) (HStr : forall s, P (PStr s)) (HTime : forall u, P (PTime u))
  (HList : forall l, Forall P l -> P (PList l))
  (HDict : forall d, Forall (fun kv => P kv.2) d -> P (PDict d)).
Fixpoint pyval_ind' (v : pyval) : P v :=
  match v with
  | PNone => HNone | PBool b => HBool b | PInt z => HInt z | PFloat q => HFloat q
  | PStr s => HStr s | PTime u => HTime u
  | PList l => HList l ((fix go l : Forall P l :=
      match l with
      | [] => Forall_nil_2 P
      | x :: l' => Forall_cons_2 P x l' (pyval_ind' x) (go l')
      end) l)
  | PDict d => HDict d ((fix go d : Forall (fun kv => P kv.2) d :=
      match d with
      | [] => Forall_nil_2 _
      | kv :: d' => Forall_cons_2 (fun kv => P kv.2) kv d' (pyval_ind' kv.2) (go d')
      end) d)
  end.
End PyvalInd.

Lemma parse_escape (c : ascii) (s : string) :
  parse_chars (escape c +:+ s) = '(t, rest) ← parse_chars s; Some (String c t, rest).
Proof. destruct c as [[] [] [] [] [] [] [] []]; reflexivity. Qed.

Lemma parse_json_string (s rest : string) :
  parse_chars (escape_all s +:+ String quote rest) = Some (s, rest).
Proof.
  induction s as [|c s IH]; [done|]. cbn [escape_all].
  by rewrite sapp_assoc, parse_escape, IH.
Qed.

(** The text after a value: the end, or a character no number continues with. *)
Definition delimited (rest : string) : bool :=
  match rest with EmptyString => true | String c _ => negb (num_char c) end.

Lemma span_num_app (t rest : string) :
  str_forall num_char t = true -> delimited rest = true -> span_num (t +:+ rest) = (t, rest).
Proof.
  intros Ht Hr. induction t as [|c t IH]; simpl in *.
  - destruct rest as [|c rest]; [done|]. simpl in *. by destruct (num_char c).
  - apply andb_prop in Ht as [-> Ht]. by rewrite IH.
Qed.

Lemma uint_chars (u : Decimal.uint) :
  str_forall is_digit (NilEmpty.string_of_uint u) = true.
Proof. by induction u. Qed.

Lemma drop_digits_all (s : string) : str_forall is_digit s = true -> drop_digits s = EmptyString.
Proof. induction s as [|c s IH]; simpl; [done|]. intros [-> H]%andb_prop. by apply IH. Qed.

Lemma digit_num_char (c : ascii) : is_digit c = true -> num_char c = true.
Proof. intros H. unfold num_char. by rewrite H. Qed.

(** The digits of a normalized number have no leading zero. *)
Lemma norm_to_int (z : Z) : Decimal.norm (Z.to_int z) = Z.to_int z.
Proof. by rewrite <- DecimalZ.to_of, DecimalZ.of_to. Qed.

Definition uint_ok (u : Decimal.uint) : Prop := u <> Decimal.Nil /\ Decimal.unorm u = u.

Lemma uint_text (u : Decimal.uint) :
  uint_ok u ->
  NilZero.string_of_uint u = NilEmpty.string_of_uint u /\
  (exists c s, NilEmpty.string_of_uint u = String c s /\ is_digit c = true /\ c <> "-"%char /\
     int_rest (String c s) = Some EmptyString).
Proof.
  intros [Hn Hu]. split; [by destruct u|].
  destruct u as [|u|u|u|u|u|u|u|u|u|u]; try done.
  { rewrite DecimalFacts.unorm_D0 in Hu. unfold Decimal.unorm in Hu.
    destruct (Decimal.nzhead u) eqn:E; try done.
    - injection Hu as <-. by exists "0"%char, EmptyString.
    - by apply DecimalFacts.nzhead_nonzero in E. }
  all: cbn [NilEmpty.string_of_uint]; do 2 eexists; split_and!; [done | done | done |];
    unfold int_rest; simpl; f_equal; apply drop_digits_all, uint_chars.
Qed.

Lemma to_int_cases (z : Z) :
  (exists u, Z.to_int z = Decimal.Pos u /\ uint_ok u) \/
  (exists u, Z.to_int z = Decimal.Neg u /\ uint_ok u).
Proof.
  pose proof (norm_to_int z) as H. destruct (Z.to_int z) as [u|u]; simpl in H.
  - left. exists u. split; [done|]. injection H as H. split; [|done]. intros ->. done.
  - right. exists u. split; [done|]. unfold uint_ok, Decimal.unorm.
    destruct (Decimal.nzhead u) eqn:E; simplify_eq; split; done.
Qed.

Lemma int_text_shape (z : Z) :
  str_forall num_char (str_of_Z z) = true /\ int_rest (str_of_Z z) = Some EmptyString /\
  exists c s, str_of_Z z = String c s /\ num_char c = true.
Proof.
  unfold str_of_Z. destruct (to_int_cases z) as [(u & -> & Hu)|(u & -> & Hu)];
    destruct (uint_text u Hu) as (Hz & c & s & Hs & Hc & Hm & Hr); simpl; rewrite Hz;
    assert (Hf := uint_chars u); apply (str_forall_impl _ num_char) in Hf;
    try apply digit_num_char.
  - rewrite Hs in *. split_and!; [done | done|]. exists c, s. by rewrite digit_num_char.
  - split_and!; [by rewrite Hf | | by eexists _, _].
    rewrite Hs in *. unfold int_rest in *. simpl.
    assert (drop_sign (String c s) = String c s) as Hd
      by (clear -Hc; destruct c as [[] [] [] [] [] [] [] []]; done).
    by rewrite Hd in Hr.
Qed.

Section RoundTrip.
Context (float_repr : Q -> string) (float_parse : string -> Q).

Lemma parse_number_app (t rest : string) (v : pyval) :
  str_forall num_char t = true -> delimited rest = true ->
  parse_number float_parse t = Some (v, EmptyString) ->
  parse_number float_parse (t +:+ rest) = Some (v, rest).
Proof.
  intros Ht Hr. unfold parse_number. rewrite (span_num_app t rest) by done.
  rewrite <- (sapp_nil_r t) at 1. rewrite (span_num_app t EmptyString) by done.
  destruct (int_rest t) as [r1|]; simpl; [|done].
  destruct (String.eqb r1 EmptyString).
  - destruct (NilZero.int_of_string t); simpl; [|done]. by intros [= ->].
  - destruct (frac_rest r1) as [r2|]; simpl; [|done].
    destruct (exp_rest r2) as [r3|]; simpl; [|done].
    destruct (String.eqb r3 EmptyString); [|done]. by intros [= ->].
Qed.

Lemma parse_int_text (z : Z) :
  parse_number float_parse (str_of_Z z) = Some (PInt z, EmptyString).
Proof.
  destruct (int_text_shape z) as (Hn & Hi & _). unfold parse_number.
  rewrite <- (sapp_nil_r (str_of_Z z)) at 1. rewrite span_num_app by done.
  rewrite Hi. simpl. by rewrite string_int_roundtrip.
Qed.

(** [repr] of the float is a JSON number that reads back as the float. *)
Definition float_ok (q : Q) : Prop :=
  str_forall num_char (float_repr q) = true /\
  parse_number float_parse (float_repr q) = Some (PFloat q, EmptyString).

(** Values whose dicts have each key once and whose floats read back. *)
Fixpoint json_wf (v : pyval) : Prop :=
  match v with
  | PFloat q => float_ok q
  | PTime _ => False
  | PList l => (fix all (l : list pyval) : Prop :=
      match l with [] => True | x :: l' => json_wf x /\ all l' end) l
  | PDict d => NoDup (map fst d) /\ (fix all (d : list (string * pyval)) : Prop :=
      match d with [] => True | (_, x) :: d' => json_wf x /\ all d' end) d
  | _ => True
  end.

(** [parse_value] started on the text of a number falls through to it. *)
Lemma parse_value_number (f : nat) (c : ascii) (s : string) :
  num_char c = true ->
  parse_value float_parse (S f) (String c s) = parse_number float_parse (String c s).
Proof.
  intros Hc. cbn [parse_value].
  destruct c as [[] [] [] [] [] [] [] []]; try discriminate Hc; reflexivity.
Qed.

(** How a value's text starts. *)
Definition starts_ok (t : string) : Prop :=
  exists c s, t = String c s /\ json_ws c = false /\ c <> "]"%char.

Lemma num_char_starts (c : ascii) : num_char c = true -> json_ws c = false /\ c <> "]"%char.
Proof. by destruct c as [[] [] [] [] [] [] [] []]. Qed.

Lemma number_starts (t : string) (v : pyval) :
  str_forall num_char t = true -> parse_number float_parse t = Some (v, EmptyString) ->
  exists c s, t = String c s /\ num_char c = true.
Proof.
  destruct t as [|c s]; [done|]. simpl. intros [Hc _]%andb_prop _. by exists c, s.
Qed.

Lemma text_starts (v : pyval) (t : string) :
  json_wf v -> json_text float_repr v = Some t -> starts_ok t.
Proof.
  destruct v as [|[]|z|q|s|u|l|d]; simpl; intros Hw; try (intros [= <-]; by do 2 eexists); try done.
  - intros [= <-]. destruct (int_text_shape z) as (_ & _ & c & s & -> & Hc).
    exists c, s. destruct (num_char_starts c Hc). done.
  - intros [= <-]. destruct Hw as [Hf Hp]. destruct (number_starts _ _ Hf Hp) as (c & s & -> & Hc).
    exists c, s. destruct (num_char_starts c Hc). done.
  - intros (items & _ & ->)%fmap_Some. by do 2 eexists.
  - intros (items & _ & ->)%fmap_Some. by do 2 eexists.
Qed.

Lemma skip_ws_starts (t rest : string) :
  starts_ok t -> skip_ws (t +:+ rest) = t +:+ rest.
Proof. intros (c & s & -> & Hc & _). simpl. by rewrite Hc. Qed.

Lemma starts_ok_length (t : string) : starts_ok t -> (1 <= String.length t)%nat.
Proof. intros (c & s & -> & _). simpl. lia. Qed.

(** [t] is read as [v], whatever follows. *)
Definition reads_as (t : string) (v : pyval) : Prop :=
  starts_ok t /\
  forall fuel rest, (2 * String.length t + 1 <= fuel)%nat -> delimited rest = true ->
    parse_value float_parse fuel (t +:+ rest) = Some (v, rest).

Lemma skip_ws_cons (c : ascii) (s : string) : json_ws c = false -> skip_ws (String c s) = String c s.
Proof. intros H. simpl. by rewrite H. Qed.

Lemma join_cons2 (sep x y : string) (l : list string) :
  join sep (x :: y :: l) = x +:+ sep +:+ join sep (y :: l).
Proof. done. Qed.

Lemma starts_join (sep x : string) (l : list string) :
  starts_ok x -> starts_ok (join sep (x :: l)).
Proof.
  intros Hx. destruct l as [|y l]; [done|]. rewrite join_cons2.
  destruct Hx as (c & s & -> & Hc). exists c, (s +:+ sep +:+ join sep (y :: l)). done.
Qed.

(** White space, which may follow an opening bracket, a comma or a colon and
    may precede a closing bracket. *)
Lemma skip_ws_app (w s : string) : str_forall json_ws w = true -> skip_ws (w +:+ s) = skip_ws s.
Proof. induction w as [|c w IH]; simpl; [done|]. intros [Hc Hw]%andb_prop. by rewrite Hc, IH. Qed.

Lemma ws_not_num (c : ascii) : json_ws c = true -> num_char c = false.
Proof. by destruct c as [[] [] [] [] [] [] [] []]. Qed.

Lemma delimited_ws (w : string) (c : ascii) (rest : string) :
  str_forall json_ws w = true -> num_char c = false -> delimited (w +:+ String c rest) = true.
Proof.
  destruct w as [|x w]; simpl; [by intros _ ->|]. intros [Hx _]%andb_prop _. by rewrite (ws_not_num x Hx).
Qed.

Lemma parse_items_ok (w w' : string) (l : list pyval) (ts : list string) (fuel : nat) (rest : string) :
  str_forall json_ws w = true -> str_forall json_ws w' = true ->
  Forall2 reads_as ts l -> l <> [] ->
  (2 * String.length (join ("," +:+ w) ts) + 2 <= fuel)%nat ->
  parse_items float_parse fuel (join ("," +:+ w) ts +:+ w' +:+ String "]"%char rest) = Some (PList l, rest).
Proof.
  intros Hw Hw' H. revert fuel. induction H as [|t x ts l [Hst Ht] Hl IH]; [done|]. intros fuel _ Hfuel.
  destruct fuel as [|f]; [lia|]. cbn [parse_items].
  destruct Hl as [|t2 x2 ts l Ht2 Hl].
  - cbn [join] in *. rewrite Ht by (by apply delimited_ws || lia). cbn [mbind option_bind].
    by rewrite skip_ws_app, skip_ws_cons by done.
  - assert (Hj : starts_ok (join ("," +:+ w) (t2 :: ts))) by apply starts_join, Ht2.
    rewrite join_cons2 in *. set (J := join ("," +:+ w) (t2 :: ts)) in *. clearbody J.
    rewrite !slength_app in Hfuel. cbn [String.length] in Hfuel.
    rewrite !sapp_assoc, Ht by (done || lia). cbn [mbind option_bind].
    change ("," +:+ ?a) with (String "," a). rewrite skip_ws_cons by done. cbv beta iota.
    rewrite skip_ws_app, skip_ws_starts by done.
    pose proof (starts_ok_length t Hst). rewrite IH by (done || lia). done.
Qed.

Lemma dict_set_fresh (k : string) (v : pyval) (d : dict) :
  k ∉ map fst d -> dict_set k v d = d ++ [(k, v)].
Proof.
  induction d as [|[k' v'] d IH]; simpl; [done|]. intros [Hne Hd]%not_elem_of_cons.
  apply String.eqb_neq in Hne as ->. by rewrite IH.
Qed.

(** The text of one member of an object, with [kw] after the colon. *)
Definition member_as (kw m : string) (kv : string * pyval) : Prop :=
  exists t, m = json_string kv.1 +:+ (":" +:+ kw) +:+ t /\ reads_as t kv.2.

Lemma member_starts (kw m : string) (kv : string * pyval) :
  member_as kw m kv -> starts_ok m.
Proof. intros (t & -> & _). by eexists _, _. Qed.

(** The key and value of one member. *)
Lemma parse_member (kw k t rest : string) (x : pyval) (fuel : nat) (acc : dict) :
  str_forall json_ws kw = true -> reads_as t x -> (2 * String.length t + 1 <= fuel)%nat ->
  delimited rest = true ->
  parse_members float_parse (S fuel) ((json_string k +:+ (":" +:+ kw) +:+ t) +:+ rest) acc =
  match skip_ws rest with
  | String ","%char r4 => parse_members float_parse fuel (skip_ws r4) (dict_set k x acc)
  | String "}"%char rest => Some (PDict (dict_set k x acc), rest)
  | _ => None
  end.
Proof.
  intros Hkw [Hst Ht] Hf Hd. unfold json_string. rewrite !sapp_assoc. cbn [parse_members].
  change (String quote ?a +:+ ?b) with (String quote (a +:+ b)). cbv beta iota.
  rewrite Ascii.eqb_refl, !sapp_assoc. simpl (String _ "" +:+ _).
  rewrite parse_json_string. cbn [mbind option_bind].
  change (":" +:+ ?a) with (String ":" a). rewrite skip_ws_cons by done. cbv beta iota.
  rewrite skip_ws_app, skip_ws_starts, Ht by done. done.
Qed.

Lemma parse_members_ok (w w' kw : string) (d : dict) (ms : list string) (fuel : nat) (rest : string)
    (acc : dict) :
  str_forall json_ws w = true -> str_forall json_ws w' = true -> str_forall json_ws kw = true ->
  Forall2 (member_as kw) ms d -> d <> [] -> NoDup (map fst (acc ++ d)) ->
  (2 * String.length (join ("," +:+ w) ms) + 2 <= fuel)%nat ->
  parse_members float_parse fuel (join ("," +:+ w) ms +:+ w' +:+ String "}"%char rest) acc
  = Some (PDict (acc ++ d), rest).
Proof.
  intros Hw Hw' Hkw H. revert fuel acc.
  induction H as [|m [k x] ms d (t & -> & Hst & Ht) Hd IH]; [done|].
  intros fuel acc _ Hnd Hfuel.
  assert (Hset : dict_set k x acc = acc ++ [(k, x)]).
  { apply dict_set_fresh. rewrite map_app in Hnd. apply NoDup_app in Hnd as (_ & Hnd & _).
    intros Hin. apply (Hnd k Hin). left. }
  destruct fuel as [|f]; [lia|]. cbn [fst snd] in *.
  assert (Hlen : (2 <= String.length (json_string k))%nat) by (unfold json_string; simpl;
    rewrite slength_app; simpl; lia).
  destruct Hd as [|m2 kv2 ms d Hm2 Hd].
  - cbn [join] in *. rewrite !slength_app in Hfuel. cbn [String.length] in Hfuel.
    rewrite (parse_member kw k t _ x) by (done || lia || by apply delimited_ws).
    by rewrite skip_ws_app, skip_ws_cons, Hset by done.
  - assert (Hj : starts_ok (join ("," +:+ w) (m2 :: ms)))
      by apply starts_join, (member_starts _ _ _ Hm2).
    rewrite join_cons2 in *. set (J := join ("," +:+ w) (m2 :: ms)) in *. clearbody J.
    rewrite !slength_app in Hfuel. cbn [String.length] in Hfuel.
    rewrite (sapp_assoc (json_string k +:+ _)), (parse_member kw k t _ x) by (done || lia).
    rewrite !sapp_assoc. change ("," +:+ ?a) with (String "," a). rewrite skip_ws_cons by done. cbv beta iota.
    rewrite skip_ws_app, skip_ws_starts by done.
    pose proof (starts_ok_length t Hst).
    rewrite Hset, IH; [by rewrite <- app_assoc | done | | lia].
    by rewrite <- app_assoc.
Qed.

Lemma number_reads (t : string) (v : pyval) :
  str_forall num_char t = true -> parse_number float_parse t = Some (v, EmptyString) ->
  reads_as t v.
Proof.
  intros Ht Hp. destruct (number_starts _ _ Ht Hp) as (c & s & -> & Hc).
  destruct (num_char_starts c Hc) as [Hw Hb]. split; [by exists c, s|].
  intros [|f] rest Hf Hr; [simpl in Hf; lia|].
  change (String c s +:+ rest) with (String c (s +:+ rest)).
  rewrite parse_value_number by done.
  exact (parse_number_app (String c s) rest v Ht Hr Hp).
Qed.

Lemma items_text (gap : string) (l : list pyval) (t : string) :
  json_gap float_repr gap (PList l) = Some t ->
  exists ts, t = "[" +:+ join ("," +:+ gap) ts +:+ "]" /\
    Forall2 (fun ti x => json_gap float_repr gap x = Some ti) ts l.
Proof.
  simpl. intros (ts & Hts & ->)%fmap_Some. exists ts. split; [done|]. revert ts Hts.
  induction l as [|x l IH]; intros ts.
  - intros [= <-]. constructor.
  - intros (t & Ht & (ts' & Hts & [= <-])%bind_Some)%bind_Some. constructor; auto.
Qed.

Lemma members_text (gap : string) (d : dict) (t : string) :
  json_gap float_repr gap (PDict d) = Some t ->
  exists ms, t = "{" +:+ join ("," +:+ gap) ms +:+ "}" /\
    Forall2 (fun m kv => exists ti, m = json_string kv.1 +:+ (":" +:+ gap) +:+ ti /\
                           json_gap float_repr gap kv.2 = Some ti) ms d.
Proof.
  simpl. intros (ms & Hms & ->)%fmap_Some. exists ms. split; [done|]. revert ms Hms.
  induction d as [|[k x] d IH]; intros ms.
  - intros [= <-]. constructor.
  - intros (t & Ht & (ts' & Hts & [= <-])%bind_Some)%bind_Some. constructor; eauto.
Qed.

Lemma json_wf_list (l : list pyval) : json_wf (PList l) <-> Forall json_wf l.
Proof.
  simpl. induction l as [|x l IH]; [by split; [constructor|]|].
  rewrite Forall_cons. by rewrite IH.
Qed.

Lemma json_wf_dict (d : dict) :
  json_wf (PDict d) <-> NoDup (map fst d) /\ Forall (fun kv => json_wf kv.2) d.
Proof.
  simpl. apply and_iff_compat_l. induction d as [|[k x] d IH]; [by split; [constructor|]|].
  rewrite Forall_cons. by rewrite IH.
Qed.

Lemma list_reads (w0 w w' : string) (l : list pyval) (ts : list string) :
  str_forall json_ws w0 = true -> str_forall json_ws w = true -> str_forall json_ws w' = true ->
  Forall2 reads_as ts l -> l <> [] -> reads_as ("[" +:+ w0 +:+ join ("," +:+ w) ts +:+ w' +:+ "]") (PList l).
Proof.
  intros Hw0 Hw Hw' H Hl. split; [by eexists _, _|]. intros [|f] rest Hf Hr; [simpl in Hf; lia|].
  rewrite !sapp_assoc. change ("[" +:+ ?a) with (String "[" a).
  change ("]" +:+ rest) with (String "]" rest). rewrite !slength_app in Hf. cbn [String.length] in Hf.
  destruct H as [|t x ts l Ht Hts]; [done|].
  assert (Hj : starts_ok (join ("," +:+ w) (t :: ts))) by apply starts_join, Ht.
  assert (Hi : parse_items float_parse f (join ("," +:+ w) (t :: ts) +:+ w' +:+ String "]" rest)
               = Some (PList (x :: l), rest)).
  { apply parse_items_ok; [done | done | by constructor | done | lia]. }
  cbn [parse_value]. rewrite skip_ws_app, skip_ws_starts by done.
  destruct Hj as (c & s & Heq & Hc & Hb). rewrite Heq in *.
  change (String c s +:+ ?a) with (String c (s +:+ a)) in *.
  clear -Hb Hi. destruct c as [[] [] [] [] [] [] [] []]; first [exact Hi | done].
Qed.

Lemma dict_reads (w0 w w' kw : string) (d : dict) (ms : list string) :
  str_forall json_ws w0 = true -> str_forall json_ws w = true -> str_forall json_ws w' = true ->
  str_forall json_ws kw = true -> NoDup (map fst d) -> Forall2 (member_as kw) ms d -> d <> [] ->
  reads_as ("{" +:+ w0 +:+ join ("," +:+ w) ms +:+ w' +:+ "}") (PDict d).
Proof.
  intros Hw0 Hw Hw' Hkw Hnd H Hd. split; [by eexists _, _|]. intros [|f] rest Hf Hr; [simpl in Hf; lia|].
  rewrite !sapp_assoc. change ("{" +:+ ?a) with (String "{" a).
  change ("}" +:+ rest) with (String "}" rest). rewrite !slength_app in Hf. cbn [String.length] in Hf.
  destruct H as [|m kv ms d Hm Hms]; [done|].
  assert (Hj : starts_ok (join ("," +:+ w) (m :: ms))) by apply starts_join, (member_starts _ _ _ Hm).
  assert (Hi : parse_members float_parse f (join ("," +:+ w) (m :: ms) +:+ w' +:+ String "}" rest) []
               = Some (PDict (kv :: d), rest)).
  { apply (parse_members_ok w w' kw (kv :: d) _ f rest []); [done | done | done | by constructor | done | done | lia]. }
  cbn [parse_value]. rewrite skip_ws_app, skip_ws_starts by done.
  destruct Hm as (t & -> & _). destruct ms; exact Hi.
Qed.

(** Values of no or several elements, from the texts of the elements. *)
Lemma elements_read (l : list pyval) (ts : list string) (text : pyval -> option string) :
  Forall (fun x => forall t, json_wf x -> text x = Some t -> reads_as t x) l -> Forall json_wf l ->
  Forall2 (fun ti x => text x = Some ti) ts l -> Forall2 reads_as ts l.
Proof.
  revert l. induction ts as [|ti ts IHt]; intros l IH Hw Hts; inversion Hts; subst; [constructor|].
  apply Forall_cons in IH as [IHx IH], Hw as [Hwx Hw]. constructor; auto.
Qed.
Lemma members_read (kw : string) (d : dict) (ms : list string) (text : pyval -> option string) :
  Forall (fun kv => forall t, json_wf kv.2 -> text kv.2 = Some t -> reads_as t kv.2) d ->
  Forall (fun kv => json_wf kv.2) d ->
  Forall2 (fun m kv => exists ti, m = json_string kv.1 +:+ (":" +:+ kw) +:+ ti /\ text kv.2 = Some ti) ms d ->
  Forall2 (member_as kw) ms d.
Proof.
  revert d. induction ms as [|m ms IHm]; intros d IH Hw Hms;
    inversion Hms as [|? kv ? d' (ti & -> & Hti)]; subst; [constructor|].
  apply Forall_cons in IH as [IHx IH], Hw as [Hwx Hw]. constructor; [|by apply IHm]. exists ti. auto.
Qed.

Lemma json_gap_reads (gap : string) (v : pyval) (t : string) :
  str_forall json_ws gap = true -> json_wf v -> json_gap float_repr gap v = Some t -> reads_as t v.
Proof.
  intros Hgap. revert t. induction v as [|b|z|q|s|u|l IH|d IH] using pyval_ind'; intros t Hw.
  - intros [= <-]. split; [by eexists _, _|]. intros [|f] rest Hf Hr; [simpl in Hf; lia|done].
  - destruct b; intros [= <-]; (split; [by eexists _, _|]);
      intros [|f] rest Hf Hr; [simpl in Hf; lia|done|simpl in Hf; lia|done].
  - intros [= <-]. apply number_reads; [apply int_text_shape | apply parse_int_text].
  - intros [= <-]. by apply number_reads; apply Hw.
  - intros [= <-]. split; [by eexists _, _|]. intros [|f] rest Hf Hr; [simpl in Hf; lia|].
    unfold json_string. cbn [String.append parse_value]. rewrite Ascii.eqb_refl, sapp_assoc.
    change (String quote "" +:+ rest) with (String quote rest). by rewrite parse_json_string.
  - done.
  - intros (ts & -> & Hts)%items_text. apply json_wf_list in Hw. destruct l as [|x l].
    { inversion Hts; subst. split; [by eexists _, _|]. intros [|f] rest Hf Hr; [simpl in Hf; lia|done]. }
    apply (list_reads EmptyString gap EmptyString); [done|done|done| |done]. by eapply elements_read.
  - intros (ms & -> & Hms)%members_text. apply json_wf_dict in Hw as [Hnd Hw]. destruct d as [|kv d].
    { inversion Hms; subst. split; [by eexists _, _|]. intros [|f] rest Hf Hr; [simpl in Hf; lia|done]. }
    apply (dict_reads EmptyString gap EmptyString gap); [done|done|done|done|done| |done]. by eapply members_read.
Qed.

Lemma json_text_reads (v : pyval) (t : string) :
  json_wf v -> json_text float_repr v = Some t -> reads_as t v.
Proof. by apply json_gap_reads. Qed.

(** The same of the indented text. *)
Lemma new_line_ws (level : nat) : str_forall json_ws (new_line level) = true.
Proof. unfold new_line. generalize (2 * level)%nat. intros n. change (str_forall json_ws (spaces n) = true). by induction n. Qed.

Lemma pretty_items (level : nat) (x : pyval) (l : list pyval) (t : string) :
  json_pretty float_repr level (PList (x :: l)) = Some t ->
  exists ts, t = "[" +:+ new_line (S level) +:+ join ("," +:+ new_line (S level)) ts +:+ new_line level +:+ "]" /\
    Forall2 (fun ti x => json_pretty float_repr (S level) x = Some ti) ts (x :: l).
Proof.
  cbn [json_pretty]. intros (ts & Hts & ->)%fmap_Some. exists ts. split; [done|].
  apply bind_Some in Hts as (t1 & Ht & (ts' & Hts & [= <-])%bind_Some). constructor; [done|]. clear Ht.
  revert ts' Hts. induction l as [|y l IH]; intros ts.
  - intros [= <-]. constructor.
  - intros (t & Ht & (ts' & Hts & [= <-])%bind_Some)%bind_Some. constructor; auto.
Qed.

Lemma pretty_members (level : nat) (kv : string * pyval) (d : dict) (t : string) :
  json_pretty float_repr level (PDict (kv :: d)) = Some t ->
  exists ms, t = "{" +:+ new_line (S level) +:+ join ("," +:+ new_line (S level)) ms +:+ new_line level +:+ "}" /\
    Forall2 (fun m kv => exists ti, m = json_string kv.1 +:+ (":" +:+ " ") +:+ ti /\
                           json_pretty float_repr (S level) kv.2 = Some ti) ms (kv :: d).
Proof.
  cbn [json_pretty]. intros (ts & Hts & ->)%fmap_Some. exists ts. split; [done|]. destruct kv as [k1 x1].
  apply bind_Some in Hts as (t1 & Ht & (ts' & Hts & [= <-])%bind_Some). constructor; [by eexists|]. clear Ht.
  revert ts' Hts. induction d as [|[k x] d IH]; intros ts.
  - intros [= <-]. constructor.
  - intros (t & Ht & (ts' & Hts & [= <-])%bind_Some)%bind_Some. constructor; eauto.
Qed.

Lemma json_pretty_reads (v : pyval) (level : nat) (t : string) :
  json_wf v -> json_pretty float_repr level v = Some t -> reads_as t v.
Proof.
  revert level t. induction v as [|b|z|q|s|u|l IH|d IH] using pyval_ind'; intros level t Hw;
    try (by apply json_text_reads).
  - destruct l as [|x l]; [by apply json_text_reads|].
    intros (ts & -> & Hts)%pretty_items. apply json_wf_list in Hw.
    apply list_reads; [apply new_line_ws | apply new_line_ws | apply new_line_ws | | done].
    eapply elements_read; [|done|done]. eapply Forall_impl; [exact IH|]. eauto.
  - destruct d as [|kv d]; [by apply json_text_reads|].
    intros (ms & -> & Hms)%pretty_members. apply json_wf_dict in Hw as [Hnd Hw].
    apply (dict_reads _ _ _ " "); [apply new_line_ws | apply new_line_ws | apply new_line_ws | done | done | | done].
    eapply members_read; [|done|done]. eapply Forall_impl; [exact IH|]. eauto.
Qed.

Lemma json_wf_pretty (v : pyval) (level : nat) : json_wf v -> is_Some (json_pretty float_repr level v).
Proof.
  revert level. induction v as [|b|z|q|s|u|l IH|d IH] using pyval_ind'; intros level; try done;
    try (intros _; by eexists).
  - intros _. destruct b; by eexists.
  - rewrite json_wf_list. intros Hw. destruct l as [|y l]; [by eexists|].
    apply Forall_cons in IH as [IHy IH], Hw as [Hwy Hw]. destruct (IHy (S level) Hwy) as [ty Ety].
    cbn [json_pretty]. rewrite Ety. apply fmap_is_Some. cbn [mbind option_bind].
    enough (exists ts, _ = Some ts) as [ts ->] by (by eexists).
    induction IH as [|x l' Hx Hl IHl]; [by eexists|]. apply Forall_cons in Hw as [Hwx Hw].
    destruct (Hx (S level) Hwx) as [t Ht], (IHl Hw) as [ts (ts0 & Hts & _)%bind_Some]. rewrite Ht.
    cbn [mbind option_bind]. rewrite Hts. by eexists.
  - rewrite json_wf_dict. intros [_ Hw]. destruct d as [|[ky y] d]; [by eexists|].
    apply Forall_cons in IH as [IHy IH], Hw as [Hwy Hw]. destruct (IHy (S level) Hwy) as [ty Ety].
    cbn [snd] in Ety. cbn [json_pretty]. rewrite Ety. apply fmap_is_Some. cbn [mbind option_bind].
    enough (exists ts, _ = Some ts) as [ts ->] by (by eexists).
    induction IH as [|[k x] d' Hx Hl IHl]; [by eexists|]. apply Forall_cons in Hw as [Hwx Hw].
    destruct (Hx (S level) Hwx) as [t Ht], (IHl Hw) as [ts (ts0 & Hts & _)%bind_Some]. cbn [snd] in Ht. rewrite Ht.
    cbn [mbind option_bind]. rewrite Hts. by eexists.
Qed.

(** Every well-formed value has a text. *)
Lemma json_wf_gap (gap : string) (v : pyval) : json_wf v -> is_Some (json_gap float_repr gap v).
Proof.
  induction v as [|b|z|q|s|u|l IH|d IH] using pyval_ind'; try done; try (intros _; by eexists).
  - intros _. destruct b; by eexists.
  - rewrite json_wf_list. intros Hw. simpl. apply fmap_is_Some.
    induction IH as [|x l Hx Hl IHl]; [by eexists|]. apply Forall_cons in Hw as [Hwx Hw].
    destruct (Hx Hwx) as [t ->], (IHl Hw) as [ts Hts]. simpl. rewrite Hts. by eexists.
  - rewrite json_wf_dict. intros [_ Hw]. simpl. apply fmap_is_Some.
    induction IH as [|[k x] d Hx Hl IHl]; [by eexists|]. apply Forall_cons in Hw as [Hwx Hw].
    destruct (Hx Hwx) as [t Ht], (IHl Hw) as [ts Hts]. simpl in Ht |- *. rewrite Ht. simpl.
    rewrite Hts. by eexists.
Qed.

Lemma json_wf_text (v : pyval) : json_wf v -> is_Some (json_text float_repr v).
Proof. apply json_wf_gap. Qed.

(** Sorting the keys keeps a value well formed. *)
Lemma sort_keys_wf (v : pyval) : json_wf v -> json_wf (sort_keys v).
Proof.
  induction v as [|b|z|q|s|u|l IH|d IH] using pyval_ind'; try done.
  - rewrite json_wf_list. intros H. cbn [sort_keys]. rewrite json_wf_list.
    rewrite Forall_map. revert H. rewrite !Forall_forall in *. intros H x Hx. simpl. auto.
  - rewrite json_wf_dict. intros [Hnd H]. cbn [sort_keys]. rewrite json_wf_dict. split.
    + eapply NoDup_Permutation_proper.
      * apply Permutation_map, merge_sort_Permutation.
      * by rewrite map_map.
    + rewrite merge_sort_Permutation, Forall_map. revert H. rewrite !Forall_forall in *.
      intros H x Hx. simpl. auto.
Qed.

End RoundTrip.

Lemma reads_as_loads (float_parse : string -> Q) (t : string) (v : pyval) :
  reads_as float_parse t v -> json_loads float_parse t = Some v.
Proof.
  intros [Hst Hr]. unfold json_loads. rewrite <- (sapp_nil_r t) at 2. rewrite skip_ws_starts by done.
  by rewrite Hr by (done || unfold json_fuel; lia).
Qed.

Lemma json_loads_dumps (float_repr : Q -> string) (float_parse : string -> Q)
    (v : pyval) (t : string) :
  json_wf float_repr float_parse v -> json_dumps float_repr v = Some t ->
  json_loads float_parse t = Some (sort_keys v).
Proof.
  intros Hw%sort_keys_wf Ht. by eapply reads_as_loads, json_text_reads.
Qed.

(** [json.loads] reads back exactly the value [json.dumps(sort_keys=True)]
    wrote, with the keys of every object in order: for every value whose dicts
    have each key once and whose floats read back, the text parses and nothing
    is lost or reinterpreted. *)
Theorem json_roundtrip (float_repr : Q -> string) (float_parse : string -> Q)
    (v : pyval) (t : string) :
  json_wf float_repr float_parse v -> json_dumps float_repr v = Some t ->
  json_loads float_parse t = Some (sort_keys v).
Proof.
  apply json_loads_dumps.
Qed.

Lemma json_roundtrip_witness :
  json_loads (fun _ => 0%Q)
    (default EmptyString (json_dumps (fun _ => EmptyString)
       (PDict [("b", PList [PInt (-12); PNone; PStr (String "034" (String "010" "x"))]);
               ("a", PDict [("z", PBool true)])]%string)))
  = Some (PDict [("a", PDict [("z", PBool true)]);
                 ("b", PList [PInt (-12); PNone; PStr (String "034" (String "010" "x"))])]%string).
Proof.
  apply (json_roundtrip (fun _ => EmptyString) (fun _ => 0%Q)
    (PDict [("b", PList [PInt (-12); PNone; PStr (String "034" (String "010" "x"))]);
            ("a", PDict [("z", PBool true)])]%string)).
  - simpl. split_and!; try done; by apply (bool_decide_unpack _); vm_compute.
  - vm_compute. reflexivity.
Defined.
