(* ===== verification/Journal.v ===== *)
(** * The event journal ([inspectord/journal.py])

    A directory of daily append-only files of JSON lines, each line carrying
    the SHA-256 of the previous one. A file is modelled by its list of lines
    (gzip and the line terminators are transparent), the directory by a map
    from the UTC day to the file. SHA-256 is the parameter [sha256]; nothing is
    assumed of it, and a forgery that goes undetected yields two different
    texts with one digest. *)

From S2P Require Import Prelude Schemas Json.

Set Default Proof Using "Type".

Section Journal.
Context (sha256 : string -> string) (float_repr : Q -> string) (float_parse : string -> Q).

Definition ZERO_HASH : string := "0000000000000000000000000000000000000000000000000000000000000000".

Inductive JournalError := Journal_closed | Journal_type_error.

(** [day -> lines]. *)
Abbreviation JournalDir := (gmap Z (list string)).

Record JournalState := mkJournal {
  j_dir : JournalDir;
  j_current_date : option Z;   (** the day of the open file, [None] when no file is open *)
  j_prev_hash : string;
  j_closed : bool;
}.

(** [Journal(dir)]. *)
Definition journal_init (d : JournalDir) : JournalState := mkJournal d None ZERO_HASH false.

(** The hash after reading the lines of a file: empty lines are skipped and an
    empty file leaves the hash as it was. *)
Definition last_hash (h : string) (lines : list string) : string :=
  foldl (fun h l => if String.eqb l EmptyString then h else sha256 l) h lines.

(** [_open_for_today]. *)
Definition open_for_today (j : JournalState) (today : Z) : JournalState :=
  if bool_decide (j_current_date j = Some today) then j
  else match j_dir j !! today with
       | Some lines =>
           mkJournal (j_dir j) (Some today) (last_hash (j_prev_hash j) lines) (j_closed j)
       | None =>
           mkJournal (<[today := []]> (j_dir j)) (Some today) ZERO_HASH (j_closed j)
       end.

(** [{**payload, "journal_format_version": ..., "prev_hash": ...}]. *)
Definition journal_record (payload : dict) (prev : string) : dict :=
  dict_set "prev_hash" (PStr prev)
    (dict_set "journal_format_version" (PStr JOURNAL_FORMAT_VERSION) payload).

(** [append]; the file stays open when the serialization raises. *)
Definition append (j : JournalState) (today : Z) (payload : dict)
  : result JournalError unit * JournalState :=
  if j_closed j then (Err Journal_closed, j)
  else
    let j1 := open_for_today j today in
    match json_dumps float_repr (PDict (journal_record payload (j_prev_hash j1))) with
    | None => (Err Journal_type_error, j1)
    | Some line =>
        let lines := default [] (j_dir j1 !! today) in
        (Ok tt, mkJournal (<[today := lines ++ [line]]> (j_dir j1)) (j_current_date j1)
                          (sha256 line) (j_closed j1))
    end.

(** [close]. *)
Definition close_journal (j : JournalState) : JournalState :=
  mkJournal (j_dir j) None (j_prev_hash j) true.

(** [verify_chain]: [None] is an exception (a line that is not a JSON object). *)
Fixpoint verify_lines (prev_hash : string) (lines : list string) : option bool :=
  match lines with
  | [] => Some true
  | l :: rest =>
      if String.eqb l EmptyString then verify_lines prev_hash rest
      else
        match json_loads float_parse l with
        | Some (PDict r) =>
            match dict_get "prev_hash" r with
            | PStr h => if String.eqb h prev_hash then verify_lines (sha256 l) rest else Some false
            | _ => Some false
            end
        | _ => None
        end
  end.
Definition verify_chain (lines : list string) : option bool := verify_lines ZERO_HASH lines.

(** ** What [append] writes verifies *)

Lemma last_hash_app (h : string) (a b : list string) :
  last_hash h (a ++ b) = last_hash (last_hash h a) b.
Proof. unfold last_hash. by rewrite foldl_app. Qed.

Lemma verify_lines_app (h : string) (a b : list string) :
  verify_lines h a = Some true -> verify_lines h (a ++ b) = verify_lines (last_hash h a) b.
Proof.
  revert h. induction a as [|l a IH]; intros h; [done|]. cbn [verify_lines app].
  unfold last_hash. cbn [foldl]. destruct (String.eqb l EmptyString); [apply IH|].
  destruct (json_loads float_parse l) as [v|]; [|done]. destruct v; try done.
  destruct (dict_get "prev_hash" d); try done.
  destruct (String.eqb s h); [apply IH | done].
Qed.

(** A dict keeps its lookups when its keys are sorted. *)
Lemma dict_lookup_elem (k : string) (v : pyval) (d : dict) :
  NoDup (map fst d) -> (dict_lookup k d = Some v <-> (k, v) ∈ d).
Proof.
  induction d as [|[k' v'] d IH]; simpl; [intros _; split; [done | by intros ?%not_elem_of_nil]|].
  intros [Hk Hnd]%NoDup_cons. rewrite elem_of_cons. destruct (String.eqb_spec k k') as [->|Hne].
  - split; [intros [= ->]; by left|]. intros [[= ->]|Hin]; [done|].
    exfalso. apply Hk. apply list_elem_of_In, in_map_iff. exists (k', v). split; [done|].
    by apply list_elem_of_In.
  - rewrite (IH Hnd). split; [by right|]. intros [[= <- <-]|]; done.
Qed.

Lemma dict_lookup_sort (k : string) (d : dict) :
  NoDup (map fst d) ->
  dict_lookup k (merge_sort key_le (map (fun kv => (kv.1, sort_keys kv.2)) d))
  = sort_keys <$> dict_lookup k d.
Proof.
  intros Hnd. set (d2 := map _ d).
  assert (Hm : map fst d2 = map fst d) by (unfold d2; by rewrite map_map).
  assert (Hnd2 : NoDup (map fst (merge_sort key_le d2))).
  { rewrite merge_sort_Permutation, Hm. done. }
  assert (H : forall v, dict_lookup k (merge_sort key_le d2) = Some v <->
                        sort_keys <$> dict_lookup k d = Some v).
  { intros v. rewrite dict_lookup_elem by done. rewrite merge_sort_Permutation.
    unfold d2. rewrite list_elem_of_In, in_map_iff, fmap_Some. split.
    - intros ([k' x] & [= -> <-] & Hin%list_elem_of_In). exists x. split; [|done].
      by apply dict_lookup_elem.
    - intros (x & Hx%dict_lookup_elem & ->); [|done]. exists (k, x). split; [done|].
      by apply list_elem_of_In. }
  destruct (dict_lookup k (merge_sort key_le d2)) as [v|]; [symmetry; by apply H|].
  destruct (sort_keys <$> dict_lookup k d) as [v|]; [|done]. by apply H.
Qed.

(** The fields of a line as the verifier reads them. *)
Definition payload_wf (payload : dict) : Prop :=
  json_wf float_repr float_parse (PDict payload).

Lemma dict_set_keys (k : string) (v : pyval) (d : dict) :
  NoDup (map fst d) -> NoDup (map fst (dict_set k v d)) /\
  (forall x, x ∈ map fst (dict_set k v d) -> x = k \/ x ∈ map fst d).
Proof.
  induction d as [|[k' v'] d IH]; simpl.
  - intros _. split; [by apply NoDup_singleton|]. intros x [->|Hx]%elem_of_cons; auto.
  - intros [Hk Hnd]%NoDup_cons. destruct (String.eqb_spec k k') as [->|Hne]; simpl.
    + split; [by apply NoDup_cons|]. auto.
    + destruct (IH Hnd) as [Hn Hi]. split.
      * apply NoDup_cons. split; [|done]. intros [->|?]%Hi; done.
      * intros x [->|Hx]%elem_of_cons; [right; by left|].
        destruct (Hi x Hx); [by left | right; by right].
Qed.

Lemma Forall_dict_set (P : pyval -> Prop) (k : string) (v : pyval) (d : dict) :
  P v -> Forall (fun kv => P kv.2) d -> Forall (fun kv => P kv.2) (dict_set k v d).
Proof.
  intros Hv. induction 1 as [|[k' v'] d Hx Hd IH]; simpl; [by repeat constructor|].
  destruct (String.eqb k k'); by constructor.
Qed.

Lemma record_wf (payload : dict) (prev : string) :
  payload_wf payload ->
  json_wf float_repr float_parse (PDict (journal_record payload prev)).
Proof.
  unfold payload_wf, journal_record. rewrite !json_wf_dict. intros [Hnd Hf]. split.
  - by apply dict_set_keys, dict_set_keys.
  - by apply Forall_dict_set, Forall_dict_set.
Qed.

(** A written line is not empty and carries the previous hash. *)
Lemma line_reads (payload : dict) (prev line : string) :
  payload_wf payload ->
  json_dumps float_repr (PDict (journal_record payload prev)) = Some line ->
  line <> EmptyString /\
  exists r, json_loads float_parse line = Some (PDict r) /\ dict_get "prev_hash" r = PStr prev.
Proof.
  intros Hw%(record_wf _ prev) Hd. split.
  - apply sort_keys_wf in Hw as Hw2.
    destruct (text_starts _ _ _ _ Hw2 Hd) as (c & s & -> & _). done.
  - pose proof (json_loads_dumps float_repr float_parse _ _ Hw Hd) as Hl.
    cbn [sort_keys] in Hl. eexists. split; [exact Hl|]. unfold dict_get. rewrite dict_lookup_sort by by apply json_wf_dict in Hw as [? _].
    unfold journal_record at 1. by rewrite dict_lookup_set_eq.
Qed.

(** ** Runs of a journal *)

(** The invariant of an open journal: every file verifies, the file being
    written ends in [prev_hash], and no file is empty. *)
Definition journal_ok (j : JournalState) : Prop :=
  (forall day lines, j_dir j !! day = Some lines ->
     verify_chain lines = Some true /\ (lines <> [] -> Exists (fun l => l <> EmptyString) lines)) /\
  (forall day lines, j_dir j !! day = Some lines -> lines <> []) /\
  (forall day, j_current_date j = Some day ->
     exists lines, j_dir j !! day = Some lines /\ last_hash ZERO_HASH lines = j_prev_hash j).

Lemma last_hash_nonempty (h h' : string) (lines : list string) :
  Exists (fun l => l <> EmptyString) lines -> last_hash h lines = last_hash h' lines.
Proof.
  unfold last_hash. revert h h'. induction lines as [|l lines IH]; intros h h' He;
    [by apply Exists_nil in He|]. simpl. destruct (String.eqb_spec l EmptyString) as [->|Hl]; [|done].
  apply Exists_cons in He as [|He]; [done | by apply IH].
Qed.

(** The lines of the day a journal is about to write to, and its hash. *)
Lemma open_ok (j : JournalState) (today : Z) :
  journal_ok j ->
  let j1 := open_for_today j today in
  let lines := default [] (j_dir j1 !! today) in
  verify_chain lines = Some true /\ last_hash ZERO_HASH lines = j_prev_hash j1 /\
  j_current_date j1 = Some today /\ j_closed j1 = j_closed j /\
  (forall day, day <> today -> j_dir j1 !! day = j_dir j !! day).
Proof.
  intros (Hv & Hne & Hc) j1 lines. unfold lines, j1, open_for_today.
  destruct (bool_decide (j_current_date j = Some today)) eqn:E.
  - apply bool_decide_eq_true in E. destruct (Hc today E) as (l & Hl & Hh).
    rewrite Hl. simpl. split_and!; auto. by apply Hv in Hl as [? _].
  - destruct (j_dir j !! today) as [l|] eqn:Hl;
      cbn [j_dir j_prev_hash j_current_date j_closed].
    + rewrite Hl. simpl. destruct (Hv _ _ Hl) as [Hvl Hex]. split_and!; auto.
      apply last_hash_nonempty, Hex. by eapply Hne.
    + rewrite lookup_insert_eq. simpl. split_and!; auto. intros day Hd.
      by rewrite lookup_insert_ne.
Qed.

Lemma append_ok (j : JournalState) (today : Z) (payload : dict) :
  journal_ok j -> j_closed j = false -> payload_wf payload ->
  is_Some (json_dumps float_repr (PDict (journal_record payload (j_prev_hash (open_for_today j today))))) ->
  let '(r, j') := append j today payload in
  r = Ok tt /\ journal_ok j' /\ j_closed j' = false.
Proof.
  intros Hok Hcl Hw [line Hd]. destruct (open_ok j today Hok) as (Hv & Hh & Hcur & Hc1 & Hoth).
  destruct Hok as (Hva & Hne & _). unfold append. rewrite Hcl, Hd.
  set (j1 := open_for_today j today) in *. set (lines := default [] (j_dir j1 !! today)) in *.
  destruct (line_reads payload (j_prev_hash j1) line Hw Hd) as (Hl & r & Hr & Hp).
  assert (Hnew : verify_chain (lines ++ [line]) = Some true).
  { unfold verify_chain. rewrite verify_lines_app by done. rewrite Hh. cbn [verify_lines].
    apply String.eqb_neq in Hl as ->. by rewrite Hr, Hp, String.eqb_refl. }
  split; [done|]. split; [|by simpl; rewrite Hc1]. split_and!.
  - intros day ls. simpl. destruct (decide (day = today)) as [->|Hday].
    + rewrite lookup_insert_eq. intros [= <-]. split; [done|]. intros _.
      apply Exists_app. right. by constructor.
    + rewrite lookup_insert_ne, Hoth by done. intros H%Hva. exact H.
  - intros day ls. simpl. destruct (decide (day = today)) as [->|Hday].
    + rewrite lookup_insert_eq. intros [= <-] [_ [=]]%app_nil.
    + rewrite lookup_insert_ne, Hoth by done. apply Hne.
  - intros day. simpl. rewrite Hcur. intros [= <-]. eexists. split; [by rewrite lookup_insert_eq|].
    rewrite last_hash_app. unfold last_hash at 1. simpl.
    by apply String.eqb_neq in Hl as ->.
Qed.

(** What the process does with a journal: append, or restart and open the
    directory anew. *)
Inductive journal_op := JAppend (today : Z) (payload : dict) | JRestart.

Definition journal_step (j : JournalState) (op : journal_op) : JournalState :=
  match op with
  | JAppend today payload => (append j today payload).2
  | JRestart => journal_init (j_dir (close_journal j))
  end.

Definition op_wf (op : journal_op) : Prop :=
  match op with JAppend _ payload => payload_wf payload | JRestart => True end.

Lemma journal_step_ok (j : JournalState) (op : journal_op) :
  op_wf op -> journal_ok j -> j_closed j = false ->
  journal_ok (journal_step j op) /\ j_closed (journal_step j op) = false.
Proof.
  intros Hw Hok Hc. destruct op as [today payload|]; simpl.
  - pose proof (append_ok j today payload Hok Hc Hw) as H.
    destruct (append j today payload) as [r j']. apply H.
    apply json_wf_text with float_parse, sort_keys_wf, record_wf, Hw.
  - split; [|done]. destruct Hok as (Hv & Hne & _). split_and!; [exact Hv | exact Hne | done].
Qed.

Lemma journal_run_ok (ops : list journal_op) (j : JournalState) :
  Forall op_wf ops -> journal_ok j -> j_closed j = false ->
  journal_ok (foldl journal_step j ops) /\ j_closed (foldl journal_step j ops) = false.
Proof.
  intros Hw. revert j. induction Hw as [|op ops Ho Hops IH]; intros j Hok Hc; [done|].
  destruct (journal_step_ok j op Ho Hok Hc) as [Hok' Hc']. by apply IH.
Qed.

(** The files of the journal that hold no empty line. *)
Definition plain_lines (lines : list string) : Prop := Forall (fun l => l <> EmptyString) lines.

(** The parent hash a verified line carries. *)
Lemma verify_snoc (lines : list string) (l : string) :
  plain_lines (lines ++ [l]) -> verify_chain (lines ++ [l]) = Some true ->
  verify_chain lines = Some true /\
  exists r, json_loads float_parse l = Some (PDict r) /\
    dict_get "prev_hash" r = PStr (last_hash ZERO_HASH lines).
Proof.
  unfold verify_chain. generalize ZERO_HASH as h. induction lines as [|x lines IH]; intros h Hp.
  - cbn [app verify_lines]. apply Forall_cons in Hp as [Hl _]. apply String.eqb_neq in Hl as ->.
    destruct (json_loads float_parse l) as [v|]; [|done]. destruct v; try done.
    destruct (dict_get "prev_hash" d) eqn:E; try done.
    destruct (String.eqb_spec s h) as [->|]; [|done]. intros _. split; [done|]. by exists d.
  - apply Forall_cons in Hp as [Hx Hp]. cbn [app verify_lines]. unfold last_hash. cbn [foldl].
    apply String.eqb_neq in Hx as ->.
    destruct (json_loads float_parse x) as [v|]; [|done]. destruct v; try done.
    destruct (dict_get "prev_hash" d); try done. destruct (String.eqb s h); [|done].
    by apply IH.
Qed.

(** The outcome of comparing two verified files with one final hash. *)
Lemma chain_compare (a b : list string) :
  plain_lines a -> plain_lines b ->
  verify_chain a = Some true -> verify_chain b = Some true ->
  last_hash ZERO_HASH a = last_hash ZERO_HASH b ->
  a = b \/ (exists x y, x ∈ a /\ y ∈ b /\ x <> y /\ sha256 x = sha256 y) \/
  (exists x, x ∈ a ++ b /\ sha256 x = ZERO_HASH).
Proof.
  clear float_repr.
  revert b. induction a as [|l a IH] using rev_ind; intros b.
  { intros _ Hb _ _ Hh. destruct (decide (b = [])) as [->|Hne]; [by left|].
    right; right. apply exists_last in Hne as (b' & y & ->). exists y.
    apply Forall_app in Hb as [_ [Hy _]%Forall_cons].
    rewrite last_hash_app in Hh. unfold last_hash at 2 in Hh. simpl in Hh.
    apply String.eqb_neq in Hy. rewrite Hy in Hh. split; [|done]. set_solver. }
  intros Ha Hb Hva Hvb Hh. destruct (decide (b = [])) as [->|Hne].
  { right; right. exists l. apply Forall_app in Ha as [_ [Hl _]%Forall_cons].
    rewrite last_hash_app in Hh. unfold last_hash at 1 in Hh. simpl in Hh.
    apply String.eqb_neq in Hl. rewrite Hl in Hh. split; [set_solver | done]. }
  apply exists_last in Hne as (b' & y & ->).
  destruct (verify_snoc _ _ Ha Hva) as (Hva' & ra & Hra & Hpa).
  destruct (verify_snoc _ _ Hb Hvb) as (Hvb' & rb & Hrb & Hpb).
  apply Forall_app in Ha as [Ha [Hl _]%Forall_cons], Hb as [Hb [Hy _]%Forall_cons].
  rewrite !last_hash_app in Hh. unfold last_hash at 1 3 in Hh. simpl in Hh.
  apply String.eqb_neq in Hl, Hy. rewrite Hl, Hy in Hh.
  destruct (decide (l = y)) as [->|Hly].
  2:{ right; left. exists l, y. set_solver. }
  assert (Hprev : last_hash ZERO_HASH a = last_hash ZERO_HASH b') by congruence.
  destruct (IH b' Ha Hb Hva' Hvb' Hprev) as [->|[(x & z & ? & ? & ? & ?)|(x & ? & ?)]].
  - by left.
  - right; left. exists x, z. rewrite !elem_of_app. auto.
  - right; right. exists x. rewrite !elem_of_app in *. tauto.
Qed.
End Journal.




Module JournalExample.
Definition line1 : string :=
  default EmptyString (json_dumps (fun _ => EmptyString)
    (PDict (journal_record [("a", PInt 1)]%string ZERO_HASH))).
End JournalExample.


(** The last line of a file is not protected: a verified file still
    verifies after its last line is replaced by a record of any other payload
    with the same parent hash. *)
Theorem journal_tail_unprotected (sha256 : string -> string) (float_repr : Q -> string)
    (float_parse : string -> Q) (lines : list string) (forged : dict) (line : string) :
  verify_chain sha256 float_parse lines = Some true ->
  payload_wf float_repr float_parse forged ->
  json_dumps float_repr (PDict (journal_record forged (last_hash sha256 ZERO_HASH lines)))
    = Some line ->
  verify_chain sha256 float_parse (lines ++ [line]) = Some true.
Proof.
  intros Hv Hw Hd. unfold verify_chain. rewrite verify_lines_app by done. cbn [verify_lines].
  destruct (line_reads _ _ _ _ _ Hw Hd) as (Hl & r & Hr & Hp).
  apply String.eqb_neq in Hl as ->. by rewrite Hr, Hp, String.eqb_refl.
Qed.

Lemma journal_tail_unprotected_witness :
  verify_chain (fun s => s) (fun _ => 0%Q) ([] ++ [JournalExample.line1]) = Some true.
Proof.
  apply (journal_tail_unprotected (fun s => s) (fun _ => EmptyString) (fun _ => 0%Q) []
           [("a", PInt 1)]%string).
  - reflexivity.
  - split; [apply NoDup_singleton | done].
  - vm_compute. reflexivity.
Defined.

(** A day file that exists but holds no line leaves the previous hash in
    place: a journal whose last hash is not the genesis value then writes a
    first line that [verify_chain] rejects. *)
Theorem empty_day_file_breaks_chain (sha256 : string -> string) (float_repr : Q -> string)
    (float_parse : string -> Q) (j : JournalState) (today : Z) (payload : dict) :
  j_closed j = false -> j_current_date j <> Some today ->
  j_dir j !! today = Some [] -> j_prev_hash j <> ZERO_HASH ->
  payload_wf float_repr float_parse payload ->
  verify_chain sha256 float_parse
    (default [] (j_dir (append sha256 float_repr j today payload).2 !! today)) = Some false.
Proof.
  intros Hc Hcur Hd Hh Hw. unfold append. rewrite Hc. unfold open_for_today.
  rewrite bool_decide_eq_false_2 by done. rewrite Hd. cbn [j_prev_hash j_dir j_current_date].
  change (last_hash sha256 (j_prev_hash j) []) with (j_prev_hash j).
  destruct (json_wf_text float_repr float_parse _
              (sort_keys_wf _ _ _ (record_wf _ _ payload (j_prev_hash j) Hw))) as [line Hl].
  unfold json_dumps. rewrite Hl. cbn [snd j_dir]. rewrite Hd, lookup_insert_eq. simpl.
  destruct (line_reads _ _ _ _ _ Hw Hl) as (Hne & r & Hr & Hp).
  unfold verify_chain. cbn [verify_lines]. apply String.eqb_neq in Hne as ->. rewrite Hr, Hp.
  by apply String.eqb_neq in Hh as ->.
Qed.

Lemma empty_day_file_breaks_chain_witness :
  verify_chain (fun s => s) (fun _ => 0%Q)
    (default [] (j_dir (append (fun s => s) (fun _ => EmptyString)
       (mkJournal (<[2 := []]> ∅) (Some 1) "abc" false) 2 []).2 !! 2)) = Some false.
Proof.
  apply (empty_day_file_breaks_chain (fun s => s) (fun _ => EmptyString) (fun _ => 0%Q)
           (mkJournal (<[2 := []]> ∅) (Some 1) "abc" false) 2 []);
    [done | done | done | done | split; [constructor | done]].
Defined.
