(* ===== verification/AuditLog.v ===== *)
(** * The audit log ([inspectord/audit/log.py])

    A table of hash-chained rows, appended under one lock with a fail-open
    policy, and its verifier. SHA-256 is the parameter [sha256]; a database
    failure is an input of [append_audit]. *)

From S2P Require Import Prelude Schemas Json Journal.

(** ** Timestamps ([_canon_ts]) *)

(** A naive [datetime]. *)
Record DateTime := mkDT {
  dt_year : Z; dt_month : Z; dt_day : Z;
  dt_hour : Z; dt_minute : Z; dt_second : Z; dt_micro : Z;
}.
#[export] Instance DateTime_eq_dec : EqDecision DateTime.
Proof. solve_decision. Defined.

(** The ranges [datetime] enforces. *)
Definition dt_ok (t : DateTime) : bool :=
  (1 <=? dt_year t) && (dt_year t <=? 9999) && (1 <=? dt_month t) && (dt_month t <=? 12)
  && (1 <=? dt_day t) && (dt_day t <=? 31) && (0 <=? dt_hour t) && (dt_hour t <=? 23)
  && (0 <=? dt_minute t) && (dt_minute t <=? 59) && (0 <=? dt_second t) && (dt_second t <=? 59)
  && (0 <=? dt_micro t) && (dt_micro t <=? 999999).

(** [n] decimal digits of [z], zero-padded. *)
Fixpoint pad (n : nat) (z : Z) : string :=
  match n with
  | O => EmptyString
  | S n' => pad n' (z / 10) +:+ String (ascii_of_N (48 + Z.to_N (z mod 10))) EmptyString
  end.

(** [isoformat(sep="T", timespec="microseconds")]. *)
Definition canon_ts (t : DateTime) : string :=
  pad 4 (dt_year t) +:+ "-" +:+ pad 2 (dt_month t) +:+ "-" +:+ pad 2 (dt_day t) +:+ "T" +:+
  pad 2 (dt_hour t) +:+ ":" +:+ pad 2 (dt_minute t) +:+ ":" +:+ pad 2 (dt_second t) +:+ "." +:+
  pad 6 (dt_micro t).

Lemma pad_length (n : nat) (z : Z) : String.length (pad n z) = n.
Proof. revert z. induction n; intros z; simpl; [done|]. rewrite slength_app, IHn. simpl. lia. Qed.

Lemma sapp_inj (a b c d : string) :
  String.length a = String.length c -> a +:+ b = c +:+ d -> a = c /\ b = d.
Proof.
  revert c. induction a as [|x a IH]; intros [|y c] Hl H; simpl in *; try done.
  injection H as -> H. destruct (IH c) as [-> ->]; [lia | done | done].
Qed.

Lemma pad_inj (n : nat) (a b : Z) :
  0 <= a < 10 ^ Z.of_nat n -> 0 <= b < 10 ^ Z.of_nat n -> pad n a = pad n b -> a = b.
Proof.
  revert a b. induction n as [|n IH]; intros a b Ha Hb H; [simpl in *; lia|].
  rewrite Nat2Z.inj_succ, Z.pow_succ_r in Ha, Hb by lia.
  apply sapp_inj in H as [H1 H2]; [|by rewrite !pad_length].
  apply IH in H1; [|split; [apply Z.div_pos | apply Z.div_lt_upper_bound]; lia..].
  injection H2 as H2. apply (f_equal N_of_ascii) in H2.
  pose proof (Z.mod_pos_bound a 10). pose proof (Z.mod_pos_bound b 10).
  rewrite !N_ascii_embedding in H2 by lia.
  rewrite (Z.div_mod a 10), (Z.div_mod b 10) by lia. rewrite H1. lia.
Qed.

Lemma canon_ts_inj (s t : DateTime) :
  dt_ok s = true -> dt_ok t = true -> canon_ts s = canon_ts t -> s = t.
Proof.
  unfold dt_ok, canon_ts. intros Hs Ht H.
  rewrite !andb_true_iff, !Z.leb_le in Hs, Ht. destruct s, t;
    cbn [dt_year dt_month dt_day dt_hour dt_minute dt_second dt_micro] in *.
  do 12 (apply sapp_inj in H as [?Hf H]; [|by rewrite ?pad_length]).
  repeat match goal with
         | Hp : pad ?n _ = pad ?n _ |- _ => apply pad_inj in Hp; [|simpl; lia..]
         end. by subst.
Qed.

(** ** Rows *)

Record AuditRow := mkAudit {
  au_seq : Z;
  au_ts : DateTime;
  au_actor : string;
  au_action : string;
  au_target : option string;
  au_details_json : string;
  au_prev_hash : string;
  au_row_hash : string;
}.

(** [json.dumps(default=str)]: a value JSON cannot hold is its [str]. *)
Fixpoint default_str (str_time : Z -> string) (v : pyval) : pyval :=
  match v with
  | PTime u => PStr (str_time u)
  | PList l => PList (map (default_str str_time) l)
  | PDict d => PDict (map (fun kv => (kv.1, default_str str_time kv.2)) d)
  | _ => v
  end.

Section Audit.
Context (sha256 : string -> string) (float_repr : Q -> string).

(** The document the row hash covers. *)
Definition row_document (seq : Z) (ts : DateTime) (actor action : string)
    (target : option string) (details_json prev_hash : string) : pyval :=
  PDict [("seq", PInt seq); ("ts", PStr (canon_ts ts)); ("actor", PStr actor);
         ("action", PStr action); ("target", opt_str target);
         ("details", PStr details_json); ("prev_hash", PStr prev_hash)]%string.

(** [_row_hash_from_stored]. *)
Definition row_text (seq : Z) (ts : DateTime) (actor action : string)
    (target : option string) (details_json prev_hash : string) : string :=
  default EmptyString
    (json_dumps float_repr (row_document seq ts actor action target details_json prev_hash)).
Definition row_hash_from_stored (seq : Z) (ts : DateTime) (actor action : string)
    (target : option string) (details_json prev_hash : string) : string :=
  sha256 (row_text seq ts actor action target details_json prev_hash).

(** ** Appending *)

Definition FAILURE_WINDOW : nat := 20.
Definition FAILURE_ALERT_THRESHOLD : Z := 5.
Definition FAILURE_COOLDOWN_S : Z := 300.

(** The module state besides the connection. *)
Record AuditModule := mkModule {
  am_outcomes : list bool;             (** newest last *)
  am_last_alert_mono : option Z;
}.
Definition module_init : AuditModule := mkModule [] None.

(** [deque(maxlen=FAILURE_WINDOW).append]. *)
Definition push_outcome (l : list bool) (ok : bool) : list bool :=
  let l' := l ++ [ok] in drop (length l' - FAILURE_WINDOW) l'.

Definition failures (l : list bool) : Z := Z.of_nat (length (List.filter negb l)).

(** [SELECT ... ORDER BY seq DESC LIMIT 1]. *)
Definition head_row (rows : list AuditRow) : option AuditRow :=
  foldr (fun r best => match best with
                       | Some b => if au_seq b <? au_seq r then Some r else best
                       | None => Some r
                       end) None rows.

(** A failed append: the outcome window, and the listener's arguments when it fires. *)
Definition record_failure (m : AuditModule) (now : Z) : AuditModule * option (Z * nat) :=
  let outcomes := push_outcome (am_outcomes m) false in
  let n := failures outcomes in
  if (FAILURE_ALERT_THRESHOLD <=? n) &&
     match am_last_alert_mono m with None => true | Some t => FAILURE_COOLDOWN_S <=? now - t end
  then (mkModule outcomes (Some now), Some (n, FAILURE_WINDOW))
  else (mkModule outcomes (am_last_alert_mono m), None).

(** What [append_audit] leaves behind. *)
Record AppendOutcome := mkAppend {
  ap_seq : option Z;
  ap_rows : list AuditRow;
  ap_module : AuditModule;
  ap_fired : option (Z * nat);
}.

(** [append_audit]: [db_error] says whether a database call raises (nothing is
    written then), [ts] is the time, [mono] the monotonic clock in seconds. *)
Definition append_audit (str_time : Z -> string) (m : AuditModule) (rows : list AuditRow) (db_error : bool) (ts : DateTime)
    (mono : Z) (actor action : string) (target : option string) (details : dict)
  : AppendOutcome :=
  match json_dumps float_repr (default_str str_time (PDict details)), db_error with
  | Some details_json, false =>
      let head := head_row rows in
      let seq := match head with None => 1 | Some r => au_seq r + 1 end in
      let prev := match head with None => ZERO_HASH | Some r => au_row_hash r end in
      let h := row_hash_from_stored seq ts actor action target details_json prev in
      mkAppend (Some seq)
        (rows ++ [mkAudit seq ts actor action target details_json prev h])
        (mkModule (push_outcome (am_outcomes m) true) (am_last_alert_mono m)) None
  | _, _ =>
      let '(m', fired) := record_failure m mono in mkAppend None rows m' fired
  end.

(** ** Verification *)

Record AuditVerification := mkVerification {
  av_ok : bool;
  av_rows : nat;
  av_first_bad_seq : option Z;
  av_reason : option string;
  av_anchor_checked : bool;
  av_last_good : option AuditRow;
  av_first_bad : option AuditRow;
}.

Definition seq_le (a b : AuditRow) : Prop := au_seq a <= au_seq b.
#[export] Instance seq_le_dec a b : Decision (seq_le a b).
Proof. unfold seq_le. apply _. Defined.

(** The checks on one row. *)
Definition row_fault (row : AuditRow) (prev_hash : string) (expected_seq : Z) : option string :=
  if negb (au_seq row =? expected_seq) then Some "seq_gap"%string
  else if negb (String.eqb (au_prev_hash row) prev_hash) then Some "prev_hash_mismatch"%string
  else if negb (String.eqb (row_hash_from_stored (au_seq row) (au_ts row) (au_actor row)
                  (au_action row) (au_target row) (au_details_json row) (au_prev_hash row))
                (au_row_hash row)) then Some "row_hash_mismatch"%string
  else None.

(** The loop: the row before the first bad one, the bad one and the reason. *)
Fixpoint walk (rows : list AuditRow) (prev : option AuditRow) (prev_hash : string) (expected : Z)
  : option (option AuditRow * AuditRow * string) :=
  match rows with
  | [] => None
  | row :: rest =>
      match row_fault row prev_hash expected with
      | Some reason => Some (prev, row, reason)
      | None => walk rest (Some row) (au_row_hash row) (expected + 1)
      end
  end.

(** [verify_audit_chain]. *)
Definition verify_audit_chain (table : list AuditRow) (anchor : option (Z * string))
  : AuditVerification :=
  let rows := merge_sort seq_le table in
  let checked := match anchor with Some _ => true | None => false end in
  match walk rows None ZERO_HASH 1 with
  | Some (good, bad, reason) =>
      mkVerification false (length rows) (Some (au_seq bad)) (Some reason) checked good (Some bad)
  | None =>
      let result := mkVerification true (length rows) None None checked (last rows) None in
      match anchor with
      | None => result
      | Some (a_seq, a_hash) =>
          match List.find (fun r => au_seq r =? a_seq) rows with
          | Some r => if String.eqb (au_row_hash r) a_hash then result
                      else mkVerification false (length rows) (Some a_seq)
                             (Some "anchor_mismatch"%string) true None None
          | None => mkVerification false (length rows) (Some a_seq)
                      (Some "anchor_mismatch"%string) true None None
          end
      end
  end.

(** ** The chain as a specification *)

Definition hash_of (r : AuditRow) : string :=
  row_hash_from_stored (au_seq r) (au_ts r) (au_actor r) (au_action r) (au_target r)
    (au_details_json r) (au_prev_hash r).
Definition text_of (r : AuditRow) : string :=
  row_text (au_seq r) (au_ts r) (au_actor r) (au_action r) (au_target r)
    (au_details_json r) (au_prev_hash r).

(** Consecutive numbers from [s], each row naming the hash before it and its own. *)
Fixpoint chain (h : string) (s : Z) (rows : list AuditRow) : Prop :=
  match rows with
  | [] => True
  | r :: rest =>
      au_seq r = s /\ au_prev_hash r = h /\ au_row_hash r = hash_of r /\
      chain (au_row_hash r) (s + 1) rest
  end.

Lemma row_fault_None (r : AuditRow) (h : string) (s : Z) :
  row_fault r h s = None <->
  au_seq r = s /\ au_prev_hash r = h /\ au_row_hash r = hash_of r.
Proof.
  unfold row_fault, hash_of.
  destruct (Z.eqb_spec (au_seq r) s); simpl; [|intuition congruence].
  destruct (String.eqb_spec (au_prev_hash r) h); simpl; [|intuition congruence].
  destruct (String.eqb_spec (row_hash_from_stored (au_seq r) (au_ts r) (au_actor r)
    (au_action r) (au_target r) (au_details_json r) (au_prev_hash r)) (au_row_hash r)); simpl;
    intuition congruence.
Qed.

Lemma walk_None (rows : list AuditRow) (prev : option AuditRow) (h : string) (s : Z) :
  walk rows prev h s = None <-> chain h s rows.
Proof.
  revert prev h s. induction rows as [|r rows IH]; intros prev h s; simpl; [done|].
  destruct (row_fault r h s) as [reason|] eqn:E.
  - split; [done|]. intros (H1 & H2 & H3 & _).
    assert (row_fault r h s = None) by by apply row_fault_None. congruence.
  - apply row_fault_None in E as (H1 & H2 & H3). rewrite IH. tauto.
Qed.

(** The first row [walk] stops at, and the chain before it. *)
Lemma walk_Some (rows : list AuditRow) (prev good : option AuditRow) (bad : AuditRow)
    (reason h : string) (s : Z) :
  walk rows prev h s = Some (good, bad, reason) ->
  exists pre post, rows = pre ++ bad :: post /\ chain h s pre /\
    good = from_option Some prev (last pre) /\
    row_fault bad (from_option au_row_hash h (last pre)) (s + Z.of_nat (length pre)) = Some reason.
Proof.
  revert prev h s. induction rows as [|r rows IH]; intros prev h s; simpl; [done|].
  destruct (row_fault r h s) as [why|] eqn:E.
  - intros [= <- <- <-]. exists [], rows. simpl. by rewrite Z.add_0_r.
  - intros (pre & post & -> & Hc & Hg & Hf)%IH.
    apply row_fault_None in E as (H1 & H2 & H3). exists (r :: pre), post.
    rewrite last_cons. split_and!; [done | done | |].
    + rewrite Hg. by destruct (last pre).
    + rewrite <- Hf. simpl length. f_equal; [by destruct (last pre) | lia].
Qed.

Lemma chain_lookup (rows : list AuditRow) (h : string) (s : Z) (i : nat) (r : AuditRow) :
  chain h s rows -> rows !! i = Some r ->
  au_seq r = s + Z.of_nat i /\ au_row_hash r = hash_of r /\
  au_prev_hash r = match i with O => h | S j => from_option au_row_hash h (rows !! j) end.
Proof.
  revert h s i. induction rows as [|x rows IH]; intros h s i; [done|].
  intros (H1 & H2 & H3 & Hc). destruct i as [|i]; simpl.
  - intros [= <-]. split_and!; [lia | done | done].
  - intros Hi. destruct (IH _ _ _ Hc Hi) as (Hs & Hh & Hp). split_and!; [lia | done|].
    rewrite Hp. by destruct i as [|i]; simpl; [|destruct (rows !! i) eqn:?; [|
      apply lookup_lt_Some in Hi; apply lookup_ge_None in Heqo; lia]].
Qed.

Lemma chain_snoc (rows : list AuditRow) (h : string) (s : Z) (r : AuditRow) :
  chain h s rows -> au_seq r = s + Z.of_nat (length rows) ->
  au_prev_hash r = from_option au_row_hash h (last rows) -> au_row_hash r = hash_of r ->
  chain h s (rows ++ [r]).
Proof.
  revert h s. induction rows as [|x rows IH]; intros h s; simpl.
  - rewrite Z.add_0_r. done.
  - intros (H1 & H2 & H3 & Hc) Hs Hp Hh. split_and!; [done..|].
    apply IH; [done | lia | | done]. rewrite Hp. change (x :: rows) with ([x] ++ rows).
    destruct rows using rev_ind; [done|]. by rewrite app_assoc, !last_snoc.
Qed.

Lemma chain_head (rows : list AuditRow) (h : string) (s : Z) :
  chain h s rows -> head_row rows = last rows.
Proof.
  revert h s. induction rows as [|r rows IH]; intros h s; [done|].
  intros (H1 & H2 & H3 & Hc). cbn [head_row foldr]. fold (head_row rows).
  rewrite (IH _ _ Hc). rewrite last_cons. destruct (last rows) as [b|] eqn:E; [|done].
  rewrite last_lookup in E. destruct (chain_lookup _ _ _ _ _ Hc E) as (Hs & _).
  replace (au_seq b <? au_seq r) with false; [done|]. symmetry. apply Z.ltb_ge. lia.
Qed.

Lemma chain_last_seq (rows : list AuditRow) (h : string) (s : Z) (r : AuditRow) :
  chain h s rows -> last rows = Some r -> au_seq r = s + Z.of_nat (length rows) - 1.
Proof.
  intros Hc E. rewrite last_lookup in E. destruct (chain_lookup _ _ _ _ _ Hc E) as (Hs & _).
  apply lookup_lt_Some in E. lia.
Qed.

(** A chain is in the order the verifier reads it. *)
Lemma chain_strongly_sorted (rows : list AuditRow) (h : string) (s : Z) :
  chain h s rows -> StronglySorted seq_le rows.
Proof.
  revert h s. induction rows as [|r rows IH]; intros h s; [constructor|].
  intros (H1 & H2 & H3 & Hc). constructor; [by eapply IH|].
  apply Forall_lookup. intros i x Hi. destruct (chain_lookup _ _ _ _ _ Hc Hi) as (Hs & _).
  unfold seq_le. lia.
Qed.

#[export] Instance seq_le_trans : Transitive seq_le.
Proof. intros x y z. unfold seq_le. lia. Qed.
#[export] Instance seq_le_total : Total seq_le.
Proof. intros x y. unfold seq_le. lia. Qed.

Lemma chain_sorted (rows : list AuditRow) (h : string) (s : Z) :
  chain h s rows -> merge_sort seq_le rows = rows.
Proof.
  intros Hc. apply (StronglySorted_unique_strong seq_le).
  - intros x y Hx (j & Hj)%list_elem_of_lookup Hxy Hyx. rewrite merge_sort_Permutation in Hx.
    apply list_elem_of_lookup in Hx as (i & Hi).
    destruct (chain_lookup _ _ _ _ _ Hc Hi) as (Hs & _).
    destruct (chain_lookup _ _ _ _ _ Hc Hj) as (Hs' & _). unfold seq_le in *.
    assert (i = j) as -> by lia. congruence.
  - apply StronglySorted_merge_sort; apply _.
  - by eapply chain_strongly_sorted.
  - apply merge_sort_Permutation.
Qed.

(** ** Appending keeps the chain *)

(** The arguments of one call. *)
Record AuditCall := mkCall {
  ac_db_error : bool; ac_ts : DateTime; ac_mono : Z;
  ac_actor : string; ac_action : string; ac_target : option string; ac_details : dict;
}.

Definition call (str_time : Z -> string) (m : AuditModule) (rows : list AuditRow) (c : AuditCall) : AppendOutcome :=
  append_audit str_time m rows (ac_db_error c) (ac_ts c) (ac_mono c) (ac_actor c) (ac_action c)
    (ac_target c) (ac_details c).

(** A run of calls: the outcomes, oldest first, and the final state. *)
Fixpoint run_calls (str_time : Z -> string) (m : AuditModule) (rows : list AuditRow) (cs : list AuditCall)
  : list AppendOutcome * (AuditModule * list AuditRow) :=
  match cs with
  | [] => ([], (m, rows))
  | c :: rest =>
      let o := call str_time m rows c in
      let '(os, final) := run_calls str_time (ap_module o) (ap_rows o) rest in
      (o :: os, final)
  end.

Lemma call_chain (str_time : Z -> string) (m : AuditModule) (rows : list AuditRow) (c : AuditCall) :
  chain ZERO_HASH 1 rows ->
  let o := call str_time m rows c in
  chain ZERO_HASH 1 (ap_rows o) /\
  ((ap_seq o = Some (Z.of_nat (length rows) + 1) /\ length (ap_rows o) = S (length rows) /\
    exists r, ap_rows o = rows ++ [r] /\ au_actor r = ac_actor c /\ au_action r = ac_action c /\
      au_target r = ac_target c /\ au_ts r = ac_ts c) \/
   (ap_seq o = None /\ ap_rows o = rows)).
Proof.
  intros Hc o. unfold o, call, append_audit. rewrite (chain_head _ _ _ Hc).
  destruct (json_dumps _ _) as [dj|]; destruct (ac_db_error c);
    try (destruct (record_failure m (ac_mono c)); simpl; split; [done|]; by right).
  cbn [ap_rows ap_seq].
  assert (Hseq : match last rows with Some r => au_seq r + 1 | None => 1 end
                 = Z.of_nat (length rows) + 1).
  { destruct (last rows) as [r|] eqn:E; [rewrite (chain_last_seq _ _ _ _ Hc E); lia|].
    apply last_None in E as ->. done. }
  rewrite Hseq. split.
  - apply chain_snoc; [done | simpl; lia | by destruct (last rows) | done].
  - left. rewrite length_app. split_and!; [done | simpl; lia |]. by eexists.
Qed.

Lemma run_calls_chain (str_time : Z -> string) (cs : list AuditCall) (m : AuditModule) (rows : list AuditRow) :
  chain ZERO_HASH 1 rows ->
  let '(os, (m', rows')) := run_calls str_time m rows cs in
  chain ZERO_HASH 1 rows' /\
  omap ap_seq os = seqZ (Z.of_nat (length rows) + 1) (Z.of_nat (length rows') - Z.of_nat (length rows)) /\
  (length rows <= length rows')%nat.
Proof.
  revert m rows. induction cs as [|c cs IH]; intros m rows Hc; simpl.
  { by rewrite Z.sub_diag. }
  destruct (call_chain str_time m rows c Hc) as [Hc' Hcase].
  specialize (IH (ap_module (call str_time m rows c)) (ap_rows (call str_time m rows c)) Hc').
  destruct (run_calls _ _ _ cs) as [os [m' rows']]. destruct IH as (Hch & Hos & Hle).
  change (omap ap_seq (call str_time m rows c :: os)) with
    (match ap_seq (call str_time m rows c) with Some s => s :: omap ap_seq os | None => omap ap_seq os end).
  split; [done|]. destruct Hcase as [(Hs & Hl & _)|(Hs & Hr)]; rewrite Hs, Hos.
  - rewrite Hl in *. split; [|lia].
    rewrite (seqZ_cons (Z.of_nat (length rows) + 1) (Z.of_nat (length rows') - Z.of_nat (length rows)))
      by lia. do 2 f_equal; lia.
  - by rewrite Hr in *.
Qed.

Section RowText.
Context (float_parse : string -> Q).

(** ** What a row hash pins down *)

Lemma row_document_wf (seq : Z) (ts : DateTime) (actor action : string)
    (target : option string) (details_json prev_hash : string) :
  json_wf float_repr float_parse
    (row_document seq ts actor action target details_json prev_hash).
Proof.
  unfold row_document. apply json_wf_dict. split.
  - by apply (bool_decide_unpack _).
  - repeat constructor. by destruct target.
Qed.

Lemma row_text_loads (seq : Z) (ts : DateTime) (actor action : string)
    (target : option string) (details_json prev_hash : string) :
  json_loads float_parse (row_text seq ts actor action target details_json prev_hash)
  = Some (PDict [("action", PStr action); ("actor", PStr actor); ("details", PStr details_json);
                 ("prev_hash", PStr prev_hash); ("seq", PInt seq); ("target", opt_str target);
                 ("ts", PStr (canon_ts ts))]%string).
Proof.
  pose proof (row_document_wf seq ts actor action target details_json prev_hash) as Hw.
  destruct (json_wf_text _ _ _ (sort_keys_wf _ _ _ Hw)) as [t Ht].
  unfold row_text, json_dumps. rewrite Ht. simpl default.
  rewrite (json_loads_dumps _ _ _ _ Hw Ht). f_equal. by destruct target.
Qed.

Lemma text_of_inj (a b : AuditRow) :
  dt_ok (au_ts a) = true -> dt_ok (au_ts b) = true ->
  au_row_hash a = au_row_hash b -> text_of a = text_of b -> a = b.
Proof.
  intros Ha Hb Hh Ht. apply (f_equal (json_loads float_parse)) in Ht.
  unfold text_of in Ht. rewrite !row_text_loads in Ht.
  assert (H7 : canon_ts (au_ts a) = canon_ts (au_ts b)) by congruence.
  apply canon_ts_inj in H7; [|done..].
  assert (H6 : opt_str (au_target a) = opt_str (au_target b)) by congruence.
  assert (H1 : au_action a = au_action b /\ au_actor a = au_actor b /\
    au_details_json a = au_details_json b /\ au_prev_hash a = au_prev_hash b /\
    au_seq a = au_seq b) by (split_and!; congruence). clear Ht.
  assert (H8 : au_target a = au_target b)
    by (destruct (au_target a), (au_target b); simpl in *; congruence).
  destruct a, b, H1 as (? & ? & ? & ? & ?); simpl in *; congruence.
Qed.

(** Two chains that agree on one row hash agree up to that row, or collide. *)
Lemma chain_prefix (A B : list AuditRow) (i : nat) (a b : AuditRow) :
  chain ZERO_HASH 1 A -> chain ZERO_HASH 1 B ->
  Forall (fun r => dt_ok (au_ts r) = true) A -> Forall (fun r => dt_ok (au_ts r) = true) B ->
  A !! i = Some a -> B !! i = Some b -> au_row_hash a = au_row_hash b ->
  take (S i) A = take (S i) B \/
  exists x y, x ∈ A /\ y ∈ B /\ text_of x <> text_of y /\
    sha256 (text_of x) = sha256 (text_of y).
Proof.
  intros HA HB HdA HdB. revert a b. induction i as [|i IH]; intros a b Ha Hb Hh;
    destruct (chain_lookup _ _ _ _ _ HA Ha) as (_ & Hha & Hpa);
    destruct (chain_lookup _ _ _ _ _ HB Hb) as (_ & Hhb & Hpb);
    (destruct (decide (text_of a = text_of b)) as [Ht|Hne];
     [|right; exists a, b; split_and!;
       [by eapply list_elem_of_lookup_2 | by eapply list_elem_of_lookup_2 | done
        | change (hash_of a = hash_of b); congruence]]);
    assert (a = b) as <- by
      (apply text_of_inj; [exact (Forall_lookup_1 _ _ _ _ HdA Ha)
                          | exact (Forall_lookup_1 _ _ _ _ HdB Hb) | done | done]).
  - left. by rewrite (take_S_r A 0 a), (take_S_r B 0 a).
  - assert (Hi : (i < length A)%nat) by (apply lookup_lt_Some in Ha; lia).
    assert (Hj : (i < length B)%nat) by (apply lookup_lt_Some in Hb; lia).
    apply lookup_lt_is_Some in Hi as [a' Ha'], Hj as [b' Hb']. rewrite Ha' in Hpa.
    rewrite Hb' in Hpb. simpl in Hpa, Hpb.
    destruct (IH a' b' Ha' Hb') as [Heq|Hcol]; [congruence| |by right].
    left. by rewrite (take_S_r A _ a), (take_S_r B _ a), Heq.
Qed.

End RowText.

Lemma chain_find (rows : list AuditRow) (n : Z) (r : AuditRow) :
  chain ZERO_HASH 1 rows -> List.find (fun r => au_seq r =? n) rows = Some r ->
  1 <= n /\ rows !! Z.to_nat (n - 1) = Some r.
Proof.
  intros Hc Hf. apply List.find_some in Hf as [Hin Hn%Z.eqb_eq].
  apply list_elem_of_In, list_elem_of_lookup in Hin as (i & Hi).
  destruct (chain_lookup _ _ _ _ _ Hc Hi) as (Hs & _). split; [lia|].
  by replace (Z.to_nat (n - 1)) with i by lia.
Qed.

Lemma verify_ok_chain (table : list AuditRow) (anchor : option (Z * string)) :
  av_ok (verify_audit_chain table anchor) = true ->
  chain ZERO_HASH 1 (merge_sort seq_le table) /\
  match anchor with
  | Some (n, h) => exists r, List.find (fun r => au_seq r =? n) (merge_sort seq_le table) = Some r
                             /\ au_row_hash r = h
  | None => True
  end.
Proof.
  unfold verify_audit_chain. destruct (walk _ _ _ _) as [[[good bad] reason]|] eqn:E; [done|].
  apply walk_None in E. destruct anchor as [[n h]|]; [|done].
  destruct (List.find _ _) as [r|]; [|done].
  destruct (String.eqb_spec (au_row_hash r) h) as [<-|]; [|done]. intros _. split; [done|].
  by exists r.
Qed.
End Audit.

(** C15. Every sequence of [append_audit] calls on an empty log, with any mix
    of database failures, leaves a log that verifies, and the calls that
    return a number return 1, 2, 3, ... in order, one per stored row. *)
Theorem audit_log_always_verifies (sha256 : string -> string) (float_repr : Q -> string)
    (str_time : Z -> string) (cs : list AuditCall) :
  let '(os, (_, rows)) := run_calls sha256 float_repr str_time module_init [] cs in
  verify_audit_chain sha256 float_repr rows None
    = mkVerification true (length rows) None None false (last rows) None /\
  omap ap_seq os = seqZ 1 (Z.of_nat (length rows)).
Proof.
  pose proof (run_calls_chain sha256 float_repr str_time cs module_init [] I) as H.
  destruct (run_calls _ _ _ _ _ cs) as [os [m rows]]. destruct H as (Hc & Hs & _).
  split; [|by rewrite Hs; simpl; rewrite Z.sub_0_r].
  unfold verify_audit_chain. rewrite (chain_sorted _ _ _ _ _ Hc).
  apply (walk_None _ _ _ None) in Hc. by rewrite Hc.
Qed.

(** [verify_audit_chain] accepts exactly the tables that form one
    unbroken chain from the genesis value, and otherwise names the first row
    that breaks it: everything before the reported row is a valid chain, and
    the reason is the check that row fails. *)
Theorem verify_audit_chain_spec (sha256 : string -> string) (float_repr : Q -> string)
    (table : list AuditRow) :
  let v := verify_audit_chain sha256 float_repr table None in
  let rows := merge_sort seq_le table in
  (av_ok v = true <-> chain sha256 float_repr ZERO_HASH 1 rows) /\
  (av_ok v = false -> exists pre bad post reason,
     rows = pre ++ bad :: post /\ chain sha256 float_repr ZERO_HASH 1 pre /\
     av_first_bad_seq v = Some (au_seq bad) /\ av_first_bad v = Some bad /\
     av_reason v = Some reason /\ av_last_good v = last pre /\
     row_fault sha256 float_repr bad (from_option au_row_hash ZERO_HASH (last pre))
       (1 + Z.of_nat (length pre)) = Some reason).
Proof.
  intros v rows. unfold v, verify_audit_chain. fold rows.
  rewrite <- (walk_None _ _ _ None).
  destruct (walk sha256 float_repr rows None ZERO_HASH 1) as [[[good bad] reason]|] eqn:E; simpl.
  - split; [by split|]. intros _. apply walk_Some in E as (pre & post & Hr & Hc & Hg & Hf).
    exists pre, bad, post, reason. split_and!; try done. rewrite Hg. by destruct (last pre).
  - by split; [split|].
Qed.

(** Tamper evidence: if a log verified with row [n] hashing to [h], and a
    log read later verifies against the anchor [(n, h)], then the two agree on
    their first [n] rows, or the hash covers two different row texts with one
    digest. *)
Theorem audit_anchor_tamper_evident (sha256 : string -> string) (float_repr : Q -> string)
    (float_parse : string -> Q) (A B : list AuditRow) (n : Z) (h : string) :
  Forall (fun r => dt_ok (au_ts r) = true) A -> Forall (fun r => dt_ok (au_ts r) = true) B ->
  av_ok (verify_audit_chain sha256 float_repr A (Some (n, h))) = true ->
  av_ok (verify_audit_chain sha256 float_repr B (Some (n, h))) = true ->
  take (Z.to_nat n) (merge_sort seq_le A) = take (Z.to_nat n) (merge_sort seq_le B) \/
  exists x y, x ∈ A /\ y ∈ B /\ text_of float_repr x <> text_of float_repr y /\
    sha256 (text_of float_repr x) = sha256 (text_of float_repr y).
Proof.
  intros HdA HdB [HA (a & Hfa & <-)]%verify_ok_chain [HB (b & Hfb & Hh)]%verify_ok_chain.
  destruct (chain_find _ _ _ _ _ HA Hfa) as [Hn Ha].
  destruct (chain_find _ _ _ _ _ HB Hfb) as [_ Hb].
  replace (Z.to_nat n) with (S (Z.to_nat (n - 1))) by lia.
  rewrite <- (merge_sort_Permutation seq_le A) in HdA.
  rewrite <- (merge_sort_Permutation seq_le B) in HdB.
  destruct (chain_prefix sha256 float_repr float_parse _ _ _ a b HA HB HdA HdB Ha Hb (eq_sym Hh))
    as [|(x & y & Hx & Hy & Hc)]; [by left|].
  right. rewrite merge_sort_Permutation in Hx, Hy. by exists x, y.
Qed.

Module AuditExample.
Definition t0 : DateTime := mkDT 2026 8 25 12 0 0 0.
Definition calls : list AuditCall :=
  [mkCall false t0 0 "uid:0" "quarantine" (Some "/x"%string) [("n", PInt 1)]%string;
   mkCall true t0 1 "uid:0" "lost" None [];
   mkCall false t0 2 "uid:0" "restore" None []].
(** A log and the same log with a third row. *)
Definition log2 : list AuditRow :=
  (run_calls (fun s => s) (fun _ => EmptyString) str_of_Z module_init [] calls).2.2.
Definition log3 : list AuditRow :=
  ap_rows (append_audit (fun s => s) (fun _ => EmptyString) str_of_Z module_init log2 false t0 3
             "a" "b" None []).
Definition h2 : string := default EmptyString (au_row_hash <$> (log2 !! 1%nat)).
End AuditExample.

Lemma audit_anchor_tamper_evident_witness :
  take 2 (merge_sort seq_le AuditExample.log2) = take 2 (merge_sort seq_le AuditExample.log3) \/
  exists x y, x ∈ AuditExample.log2 /\ y ∈ AuditExample.log3 /\
    text_of (fun _ => EmptyString) x <> text_of (fun _ => EmptyString) y /\
    text_of (fun _ => EmptyString) x = text_of (fun _ => EmptyString) y.
Proof.
  apply (audit_anchor_tamper_evident (fun s => s) (fun _ => EmptyString) (fun _ => 0%Q)
           AuditExample.log2 AuditExample.log3 2 AuditExample.h2).
  - by repeat constructor.
  - by repeat constructor.
  - vm_compute. reflexivity.
  - vm_compute. reflexivity.
Defined.

(** ** Escalation *)

Lemma push_outcome_length (l : list bool) (b : bool) :
  (length (push_outcome l b) <= FAILURE_WINDOW)%nat.
Proof. unfold push_outcome. rewrite length_drop. unfold FAILURE_WINDOW. lia. Qed.

(** The outcome windows a module goes through. *)
Definition window_ok (m : AuditModule) (hist : list bool) : Prop :=
  am_outcomes m = drop (length hist - FAILURE_WINDOW) hist.

Lemma push_outcome_window (m : AuditModule) (hist : list bool) (b : bool) :
  window_ok m hist ->
  push_outcome (am_outcomes m) b = drop (length (hist ++ [b]) - FAILURE_WINDOW) (hist ++ [b]).
Proof.
  unfold window_ok, push_outcome, FAILURE_WINDOW. intros ->. rewrite !length_app, length_drop. simpl.
  destruct (decide (length hist <= 20)%nat).
  - replace (length hist - 20)%nat with 0%nat by lia. rewrite drop_0.
    f_equal. lia.
  - rewrite !drop_app_le by (rewrite ?length_drop; lia). rewrite drop_drop. do 2 f_equal. lia.
Qed.

(** The monotonic times at which the failure listener fired. *)
Fixpoint fire_times (cs : list AuditCall) (os : list AppendOutcome) : list Z :=
  match cs, os with
  | c :: cs', o :: os' =>
      match ap_fired o with Some _ => [ac_mono c] | None => [] end ++ fire_times cs' os'
  | _, _ => []
  end.

Section Escalation.
Context (sha256 : string -> string) (float_repr : Q -> string) (str_time : Z -> string).

(** One call: what it records and when it fires. *)
Lemma call_escalation (m : AuditModule) (rows : list AuditRow) (c : AuditCall) :
  let o := call sha256 float_repr str_time m rows c in
  let w := push_outcome (am_outcomes m) (match ap_seq o with Some _ => true | None => false end) in
  am_outcomes (ap_module o) = w /\
  match ap_fired o with
  | Some (n, size) =>
      ap_seq o = None /\ n = failures w /\ size = FAILURE_WINDOW /\ FAILURE_ALERT_THRESHOLD <= n /\
      am_last_alert_mono (ap_module o) = Some (ac_mono c) /\
      (forall t, am_last_alert_mono m = Some t -> FAILURE_COOLDOWN_S <= ac_mono c - t)
  | None =>
      am_last_alert_mono (ap_module o) = am_last_alert_mono m /\
      (ap_seq o = None -> FAILURE_ALERT_THRESHOLD <= failures w ->
       exists t, am_last_alert_mono m = Some t /\ ac_mono c - t < FAILURE_COOLDOWN_S)
  end.
Proof.
  unfold call, append_audit.
  assert (Hf : let '(m', fired) := record_failure m (ac_mono c) in
    let w := push_outcome (am_outcomes m) false in
    am_outcomes m' = w /\
    match fired with
    | Some (n, size) => n = failures w /\ size = FAILURE_WINDOW /\ FAILURE_ALERT_THRESHOLD <= n /\
        am_last_alert_mono m' = Some (ac_mono c) /\
        (forall t, am_last_alert_mono m = Some t -> FAILURE_COOLDOWN_S <= ac_mono c - t)
    | None => am_last_alert_mono m' = am_last_alert_mono m /\
        (FAILURE_ALERT_THRESHOLD <= failures w ->
         exists t, am_last_alert_mono m = Some t /\ ac_mono c - t < FAILURE_COOLDOWN_S)
    end).
  { unfold record_failure. set (w := push_outcome (am_outcomes m) false).
    destruct (Z.leb_spec FAILURE_ALERT_THRESHOLD (failures w)) as [Hge|Hlt]; simpl.
    - destruct (am_last_alert_mono m) as [t|]; [|split_and!; done].
      destruct (Z.leb_spec FAILURE_COOLDOWN_S (ac_mono c - t)); simpl; split_and!; try done.
      + by intros t' [= <-].
      + intros _. by exists t.
    - split_and!; [done..|]. lia. }
  destruct (json_dumps _ _) as [dj|], (ac_db_error c); try done;
    destruct (record_failure m (ac_mono c)) as [m' [[n size]|]]; simpl in *; tauto.
Qed.

Definition succeeded (o : AppendOutcome) : bool :=
  match ap_seq o with Some _ => true | None => false end.

(** When a call should fire, from the outcomes and the firings so far. *)
Definition should_fire (hist : list bool) (fires : list Z) (now : Z) (ok : bool)
  : option (Z * nat) :=
  let all := hist ++ [ok] in
  let n := failures (drop (length all - FAILURE_WINDOW) all) in
  if negb ok && (FAILURE_ALERT_THRESHOLD <=? n) &&
     match last fires with None => true | Some t => FAILURE_COOLDOWN_S <=? now - t end
  then Some (n, FAILURE_WINDOW) else None.

Fixpoint escalates (hist : list bool) (fires : list Z) (cs : list AuditCall)
    (os : list AppendOutcome) : Prop :=
  match cs, os with
  | [], [] => True
  | c :: cs', o :: os' =>
      ap_fired o = should_fire hist fires (ac_mono c) (succeeded o) /\
      escalates (hist ++ [succeeded o])
        (fires ++ match ap_fired o with Some _ => [ac_mono c] | None => [] end) cs' os'
  | _, _ => False
  end.

Lemma run_escalates (cs : list AuditCall) (m : AuditModule) (rows : list AuditRow)
    (hist : list bool) (fires : list Z) :
  window_ok m hist -> am_last_alert_mono m = last fires ->
  escalates hist fires cs (run_calls sha256 float_repr str_time m rows cs).1.
Proof.
  revert m rows hist fires. induction cs as [|c cs IH]; intros m rows hist fires Hw Hl; simpl; [done|].
  destruct (call_escalation m rows c) as [Ho Hf].
  set (o := call sha256 float_repr str_time m rows c) in *.
  fold (succeeded o) in Ho, Hf. rewrite (push_outcome_window m hist) in Ho, Hf by done.
  specialize (IH (ap_module o) (ap_rows o) (hist ++ [succeeded o])
    (fires ++ match ap_fired o with Some _ => [ac_mono c] | None => [] end) Ho).
  destruct (run_calls _ _ _ _ _ cs) as [os fin]. split.
  - unfold should_fire. rewrite <- Hl. destruct (ap_fired o) as [[n size]|].
    + destruct Hf as (Hs & Hn & Hsz & Hge & _ & Hcool). unfold succeeded. rewrite Hs. simpl.
      unfold succeeded in Hn. rewrite Hs in Hn. rewrite <- Hn, Hsz.
      replace (_ <=? n) with true by (symmetry; by apply Z.leb_le). simpl.
      destruct (am_last_alert_mono m) as [t|]; [|done].
      by rewrite (proj2 (Z.leb_le _ _) (Hcool t eq_refl)).
    + destruct Hf as [_ Hno]. unfold succeeded in *. destruct (ap_seq o) as [s|]; [done|]. simpl.
      destruct (Z.leb_spec FAILURE_ALERT_THRESHOLD
        (failures (drop (length (hist ++ [false]) - FAILURE_WINDOW) (hist ++ [false]))))
        as [Hge|]; [|done]. destruct (Hno eq_refl Hge) as (t & -> & Hlt). simpl.
      by rewrite (proj2 (Z.leb_gt _ _) Hlt).
  - apply IH. destruct (ap_fired o) as [[n size]|].
    + destruct Hf as (_ & _ & _ & _ & -> & _). by rewrite last_snoc.
    + destruct Hf as [-> _]. by rewrite app_nil_r.
Qed.

Lemma escalates_spaced (cs : list AuditCall) (os : list AppendOutcome) (hist : list bool)
    (fires : list Z) :
  escalates hist fires cs os ->
  Sorted (fun a b => FAILURE_COOLDOWN_S <= b - a) fires ->
  Sorted (fun a b => FAILURE_COOLDOWN_S <= b - a) (fires ++ fire_times cs os).
Proof.
  revert os hist fires. induction cs as [|c cs IH]; intros [|o os] hist fires; simpl; try done;
    [by rewrite app_nil_r|].
  intros [Ho He] Hs. rewrite app_assoc. eapply IH; [done|].
  unfold should_fire in Ho. destruct (ap_fired o); [|by rewrite app_nil_r].
  destruct fires as [|f fires _] using rev_ind; [repeat constructor|].
  rewrite last_snoc in Ho. destruct (FAILURE_COOLDOWN_S <=? ac_mono c - f) eqn:E;
    [|rewrite andb_false_r in Ho; done].
  apply Z.leb_le in E. clear -Hs E. induction fires as [|g fires IH]; simpl in *.
  - repeat constructor. lia.
  - apply Sorted_inv in Hs as [Hs Hh]. constructor; [by apply IH|].
    destruct fires; simpl in *; by inversion Hh; constructor.
Qed.
End Escalation.

(** Over any run of appends the failure listener fires exactly when it
    should: on a failed append, when at least five of the last twenty appends
    failed and the previous firing (if any) is at least 300 seconds ago, with
    the number of failures as argument; so firings are always at least 300
    seconds apart. *)
Theorem audit_failure_escalation (sha256 : string -> string) (float_repr : Q -> string)
    (str_time : Z -> string) (cs : list AuditCall) :
  let os := (run_calls sha256 float_repr str_time module_init [] cs).1 in
  escalates [] [] cs os /\
  Sorted (fun a b => FAILURE_COOLDOWN_S <= b - a) (fire_times cs os).
Proof.
  intros os. assert (H : escalates [] [] cs os) by by apply run_escalates.
  split; [done|]. by apply (escalates_spaced cs os [] []).
Qed.
