(* ===== verification/Router.v ===== *)
(** * The event router ([inspectord/router.py])

    Bounded per-subscription queues. A full queue either drops its oldest
    non-critical event or refuses; a refusal ends [publish] with [RouterFull],
    after the earlier subscriptions have received the event. *)

From S2P Require Import Prelude Schemas.

Inductive DropPolicy := DP_block | DP_drop_oldest_non_critical.

Record Subscription := mkSub {
  sub_name : string;
  sub_queue_size : Z;
  sub_drop_policy : DropPolicy;
  sub_filter_fn : option (Event -> bool);
  sub_q : list Event;
  sub_dropped : Z;
  sub_blocked : Z;
}.

Definition set_q (s : Subscription) (q : list Event) (dropped : Z) : Subscription :=
  mkSub (sub_name s) (sub_queue_size s) (sub_drop_policy s) (sub_filter_fn s)
        q dropped (sub_blocked s).
Definition bump_blocked (s : Subscription) : Subscription :=
  mkSub (sub_name s) (sub_queue_size s) (sub_drop_policy s) (sub_filter_fn s)
        (sub_q s) (sub_dropped s) (sub_blocked s + 1).

Definition critical (e : Event) : bool := bool_decide (ev_severity e = SevCritical).

(** [del self._q[i]] at the first event that is not critical. *)
Fixpoint drop_first_non_critical (q : list Event) : option (list Event) :=
  match q with
  | [] => None
  | e :: q' =>
      if critical e then cons e <$> drop_first_non_critical q' else Some q'
  end.

(** [_try_drop_oldest_non_critical]. *)
Definition try_drop_oldest_non_critical (s : Subscription) : option Subscription :=
  (fun q => set_q s q (sub_dropped s + 1)) <$> drop_first_non_critical (sub_q s).

(** [get_nowait]; [None] is [QueueEmpty]. *)
Definition get_nowait (s : Subscription) : option (Event * Subscription) :=
  match sub_q s with
  | [] => None
  | e :: q => Some (e, set_q s q (sub_dropped s))
  end.

Definition subscribe (subs : list Subscription) (name : string) (queue_size : Z)
    (policy : DropPolicy) (filter_fn : option (Event -> bool)) : list Subscription :=
  subs ++ [mkSub name queue_size policy filter_fn [] 0 0].

(** What one subscription does with a published event. *)
Inductive offer_result :=
| Skipped
| Accepted (s : Subscription)
| Full (s : Subscription).

Definition wants (s : Subscription) (e : Event) : bool :=
  match sub_filter_fn s with Some f => f e | None => true end.

Definition offer (s : Subscription) (e : Event) : offer_result :=
  if negb (wants s e) then Skipped
  else if Z.of_nat (length (sub_q s)) <? sub_queue_size s
       then Accepted (set_q s (sub_q s ++ [e]) (sub_dropped s))
  else match sub_drop_policy s with
       | DP_drop_oldest_non_critical =>
           match try_drop_oldest_non_critical s with
           | Some s' => Accepted (set_q s' (sub_q s' ++ [e]) (sub_dropped s'))
           | None => Full (bump_blocked s)
           end
       | DP_block => Full (bump_blocked s)
       end.

(** [RouterFull], with the name of the saturated subscription. *)
Inductive RouterFull := router_full (name : string).

(** [publish]: the subscriptions afterwards, and the exception if one is raised. *)
Fixpoint publish (subs : list Subscription) (e : Event)
  : list Subscription * option RouterFull :=
  match subs with
  | [] => ([], None)
  | s :: rest =>
      match offer s e with
      | Skipped => let '(rest', r) := publish rest e in (s :: rest', r)
      | Accepted s' => let '(rest', r) := publish rest e in (s' :: rest', r)
      | Full s' => (s' :: rest, Some (router_full (sub_name s)))
      end
  end.

(** ** One subscription over time *)

Inductive sub_op := OpPublish (e : Event) | OpGet.

(** A history: what was accepted, what was delivered, how often it refused. *)
Record History := mkHistory {
  h_sub : Subscription;
  h_accepted : list Event;
  h_delivered : list Event;
  h_refused : Z;
}.

Definition step (h : History) (op : sub_op) : History :=
  match op with
  | OpPublish e =>
      match offer (h_sub h) e with
      | Skipped => h
      | Accepted s => mkHistory s (h_accepted h ++ [e]) (h_delivered h) (h_refused h)
      | Full s => mkHistory s (h_accepted h) (h_delivered h) (h_refused h + 1)
      end
  | OpGet =>
      match get_nowait (h_sub h) with
      | None => h
      | Some (e, s) => mkHistory s (h_accepted h) (h_delivered h ++ [e]) (h_refused h)
      end
  end.

Definition fresh (name : string) (size : Z) (policy : DropPolicy)
    (f : option (Event -> bool)) : History :=
  mkHistory (mkSub name size policy f [] 0 0) [] [] 0.

Definition run_ops (h : History) (ops : list sub_op) : History := foldl step h ops.

(** ** Lemmas *)

Lemma sublist_full {A} (l k : list A) : sublist l k -> (length k <= length l)%nat -> l = k.
Proof.
  induction 1 as [|x l k Hs IH|x l k Hs IH]; intros Hl; simpl in *; [done | f_equal; apply IH; lia|].
  apply sublist_length in Hs. lia.
Qed.

Lemma drop_first_spec (q q' : list Event) :
  drop_first_non_critical q = Some q' ->
  exists a e b, q = a ++ e :: b /\ q' = a ++ b /\ critical e = false /\
    forallb critical a = true.
Proof.
  revert q'. induction q as [|x q IH]; intros q'; simpl; [done|].
  destruct (critical x) eqn:Hx.
  - intros (q1 & (a & e & b & -> & -> & He & Ha)%IH & ->)%fmap_Some.
    exists (x :: a), e, b. simpl. by rewrite Hx.
  - intros [= <-]. by exists [], x, q.
Qed.

Lemma drop_first_None (q : list Event) :
  drop_first_non_critical q = None <-> forallb critical q = true.
Proof.
  induction q as [|x q IH]; simpl; [done|]. destruct (critical x); simpl; [|done].
  by rewrite fmap_None.
Qed.

Lemma filter_critical_drop (q q' : list Event) :
  drop_first_non_critical q = Some q' ->
  List.filter critical q' = List.filter critical q /\
  sublist q' q /\ S (length q') = length q.
Proof.
  intros (a & e & b & -> & -> & He & _)%drop_first_spec. split_and!.
  - rewrite !List.filter_app. simpl. by rewrite He.
  - apply sublist_app; [done|]. by constructor.
  - rewrite !length_app. simpl. lia.
Qed.

(** The invariant of a subscription's history. *)
Record hist_ok (h : History) : Prop := {
  ho_order : sublist (h_delivered h ++ sub_q (h_sub h)) (h_accepted h);
  ho_critical : List.filter critical (h_delivered h ++ sub_q (h_sub h))
                = List.filter critical (h_accepted h);
  ho_count : Z.of_nat (length (h_accepted h))
             = Z.of_nat (length (h_delivered h)) + Z.of_nat (length (sub_q (h_sub h)))
               + sub_dropped (h_sub h);
  ho_blocked : sub_blocked (h_sub h) = h_refused h;
  ho_bound : Z.of_nat (length (sub_q (h_sub h))) <= Z.max 0 (sub_queue_size (h_sub h));
  ho_block : sub_drop_policy (h_sub h) = DP_block -> sub_dropped (h_sub h) = 0;
  ho_dropped : 0 <= sub_dropped (h_sub h);
}.

Lemma step_accept_room (h : History) (e : Event) :
  Z.of_nat (length (sub_q (h_sub h))) < sub_queue_size (h_sub h) -> hist_ok h ->
  hist_ok (mkHistory (set_q (h_sub h) (sub_q (h_sub h) ++ [e]) (sub_dropped (h_sub h)))
             (h_accepted h ++ [e]) (h_delivered h) (h_refused h)).
Proof.
  intros Hlt [Ho Hc Hn Hb Hq Hp]. split; simpl; rewrite ?length_app; simpl;
    [| |lia|done|lia|done|done].
  - rewrite app_assoc. by apply sublist_app.
  - by rewrite app_assoc, !(List.filter_app _ _ [e]), Hc.
Qed.

Lemma step_accept_drop (h : History) (e : Event) (q : list Event) :
  drop_first_non_critical (sub_q (h_sub h)) = Some q ->
  sub_drop_policy (h_sub h) = DP_drop_oldest_non_critical -> hist_ok h ->
  hist_ok (mkHistory (set_q (h_sub h) (q ++ [e]) (sub_dropped (h_sub h) + 1))
             (h_accepted h ++ [e]) (h_delivered h) (h_refused h)).
Proof.
  intros (Hcr & Hsub & Hlen)%filter_critical_drop Hpol [Ho Hc Hn Hb Hq Hp Hd].
  split; simpl; rewrite ?length_app; simpl; [| |lia|done|lia|by rewrite Hpol|lia].
  - rewrite app_assoc. apply sublist_app; [|done].
    etrans; [|exact Ho]. by apply sublist_app.
  - rewrite app_assoc, !(List.filter_app _ _ [e]), List.filter_app, Hcr, <- List.filter_app. by rewrite Hc.
Qed.

Lemma step_ok (h : History) (op : sub_op) : hist_ok h -> hist_ok (step h op).
Proof.
  intros H. destruct op as [e|]; simpl.
  - unfold offer. destruct (wants (h_sub h) e); simpl; [|done].
    destruct (Z.ltb_spec (Z.of_nat (length (sub_q (h_sub h)))) (sub_queue_size (h_sub h))).
    { by apply step_accept_room. }
    assert (Hfull : hist_ok (mkHistory (bump_blocked (h_sub h)) (h_accepted h)
                                (h_delivered h) (h_refused h + 1))).
    { destruct H as [Ho Hc Hn Hb Hq Hp Hd]. split; simpl; try done. lia. }
    destruct (sub_drop_policy (h_sub h)) eqn:Hpol; [done|].
    unfold try_drop_oldest_non_critical.
    destruct (drop_first_non_critical _) as [q|] eqn:E; simpl; [|done].
    by apply step_accept_drop.
  - destruct H as [Ho Hc Hn Hb Hq Hp Hd]. unfold get_nowait.
    destruct (sub_q (h_sub h)) as [|e q] eqn:E; [by split; rewrite ?E|].
    split; simpl in *; rewrite ?length_app, <- ?app_assoc; simpl; try done; lia.
Qed.

Lemma run_ok (ops : list sub_op) (h : History) : hist_ok h -> hist_ok (run_ops h ops).
Proof. revert h. induction ops as [|op ops IH]; intros h H; [done|]. by apply IH, step_ok. Qed.

(** A subscription keeps its size and policy. *)
Definition config (s : Subscription) : Z * DropPolicy := (sub_queue_size s, sub_drop_policy s).

Lemma step_config (h : History) (op : sub_op) : config (h_sub (step h op)) = config (h_sub h).
Proof.
  destruct op as [e|]; simpl.
  - unfold offer, try_drop_oldest_non_critical.
    destruct (wants _ _); simpl; [|done]. destruct (_ <? _); [done|].
    destruct (sub_drop_policy (h_sub h)) eqn:E; [done|].
    by destruct (drop_first_non_critical _).
  - unfold get_nowait. by destruct (sub_q _).
Qed.

Lemma run_config (ops : list sub_op) (h : History) :
  config (h_sub (run_ops h ops)) = config (h_sub h).
Proof.
  revert h. induction ops as [|op ops IH]; intros h; [done|]. simpl.
  by rewrite (IH (step h op)), step_config.
Qed.

(** ** Theorems *)

(** For every sequence of publications and reads of a subscription: what
    was delivered followed by what is queued is the accepted events in order
    with some left out; no critical event is ever left out; the events left
    out are counted by [dropped] and the refusals by [blocked]; the queue
    never exceeds its size; and under the [block] policy nothing is dropped. *)
Theorem subscription_history (name : string) (size : Z) (policy : DropPolicy)
    (f : option (Event -> bool)) (ops : list sub_op) :
  let h := run_ops (fresh name size policy f) ops in
  let kept := h_delivered h ++ sub_q (h_sub h) in
  sublist kept (h_accepted h) /\
  List.filter critical kept = List.filter critical (h_accepted h) /\
  Z.of_nat (length (h_accepted h)) = Z.of_nat (length kept) + sub_dropped (h_sub h) /\
  sub_blocked (h_sub h) = h_refused h /\
  Z.of_nat (length (sub_q (h_sub h))) <= Z.max 0 size /\
  (policy = DP_block -> kept = h_accepted h).
Proof.
  intros h kept.
  assert (Hf : hist_ok (fresh name size policy f)) by (split; simpl; done || lia).
  destruct (run_ok ops _ Hf) as [Ho Hc Hn Hb Hq Hp Hd].
  pose proof (run_config ops (fresh name size policy f)) as [= Hsz Hpol].
  fold h in Ho, Hc, Hn, Hb, Hq, Hp, Hd, Hsz, Hpol. fold kept in Ho, Hc.
  assert (Hlen : Z.of_nat (length (h_accepted h))
                 = Z.of_nat (length kept) + sub_dropped (h_sub h)).
  { unfold kept. rewrite length_app. lia. }
  split_and!; [done..| |]; [by rewrite Hsz in Hq|].
  intros ->. specialize (Hp Hpol). apply sublist_full; [done | lia].
Qed.

(** [publish] reaches the subscriptions in order: either every one that
    wants the event has accepted it, or the first saturated one raises, the
    ones before it have the event, its own queue is unchanged and its refusal
    counted, and the ones after it are untouched. *)
Theorem publish_outcome (subs : list Subscription) (e : Event) :
  let after s := match offer s e with Skipped => s | Accepted s' => s' | Full s' => s' end in
  let saturated s := match offer s e with Full _ => true | _ => false end in
  match publish subs e with
  | (subs', None) => subs' = after <$> subs /\ existsb saturated subs = false
  | (subs', Some (router_full n)) =>
      exists pre s post, subs = pre ++ s :: post /\
        subs' = (after <$> pre) ++ bump_blocked s :: post /\
        existsb saturated pre = false /\ saturated s = true /\ n = sub_name s
  end.
Proof.
  intros after saturated.
  assert (Hfull : forall s s', offer s e = Full s' -> s' = bump_blocked s).
  { intros s s'. unfold offer. destruct (wants s e); simpl; [|done].
    destruct (_ <? _); [done|]. destruct (sub_drop_policy s); [by intros [= <-]|].
    by destruct (try_drop_oldest_non_critical s); intros [= <-]. }
  induction subs as [|s subs IH]; simpl; [done|].
  destruct (offer s e) as [|s'|s'] eqn:E.
  3:{ exists [], s, subs. apply Hfull in E as HE. subst s'.
      unfold saturated. rewrite E. done. }
  all: assert (Ha : after s = _) by (unfold after; rewrite E; reflexivity);
    assert (Hs : saturated s = false) by (unfold saturated; by rewrite E);
    destruct (publish subs e) as [subs' [[n]|]];
    [ destruct IH as (pre & s0 & post & -> & -> & Hpre & Hs0 & Hn); exists (s :: pre), s0, post;
      simpl; by rewrite Ha, Hs
    | destruct IH as [-> Hx]; simpl; by rewrite Ha, Hs ].
Qed.
