(* ===== verification/RateLimit.v ===== *)
(** * Rate limiters ([inspectord/ratelimit.py])

    [TokenBucket] and [SlidingWindowLimiter]. Clock readings are integers (a
    tick of any size) for the window and exact rationals for the bucket; the
    rounding of floating point arithmetic is not modelled. *)

From S2P Require Import Prelude.

(** ** [SlidingWindowLimiter] *)

Record Limiter := mkLimiter {
  lim_limit : Z;
  lim_window_s : Z;
  lim_stamps : list Z;
  lim_rejection_audited : bool;
}.

Definition new_limiter (limit window : Z) : Limiter := mkLimiter limit window [] false.

(** [while self._stamps and now - self._stamps[0] >= self._window_s]. *)
Fixpoint expire (window now : Z) (stamps : list Z) : list Z :=
  match stamps with
  | [] => []
  | s :: rest => if window <=? now - s then expire window now rest else stamps
  end.

(** [check]: (allowed, audit this rejection) and the new state. *)
Definition check_limit (l : Limiter) (now : Z) : (bool * bool) * Limiter :=
  let stamps := expire (lim_window_s l) now (lim_stamps l) in
  if Z.of_nat (length stamps) <? lim_limit l then
    ((true, false), mkLimiter (lim_limit l) (lim_window_s l) (stamps ++ [now]) false)
  else if lim_rejection_audited l then
    ((false, false), mkLimiter (lim_limit l) (lim_window_s l) stamps true)
  else ((false, true), mkLimiter (lim_limit l) (lim_window_s l) stamps true).

(** A run of checks at the given clock readings: each reading with its answer. *)
Fixpoint run_checks (l : Limiter) (times : list Z) : list (Z * (bool * bool)) :=
  match times with
  | [] => []
  | t :: rest => let '(r, l') := check_limit l t in (t, r) :: run_checks l' rest
  end.

Definition allowed_times (log : list (Z * (bool * bool))) : list Z :=
  fst <$> List.filter (fun x => x.2.1) log.
Definition audits (log : list (Z * (bool * bool))) : nat :=
  length (List.filter (fun x => x.2.2) log).

(** [t] lies in the window that starts at [w0]. *)
Definition in_window (w0 window t : Z) : bool := (w0 <=? t) && (t <? w0 + window).
Definition count_in (w0 window : Z) (l : list Z) : Z :=
  Z.of_nat (length (List.filter (in_window w0 window) l)).

(** *** The window never holds more than the limit *)

Lemma expire_spec (window now : Z) (stamps : list Z) (x : Z) :
  x ∈ stamps -> now - x < window -> x ∈ expire window now stamps.
Proof.
  induction stamps as [|s rest IH]; [done|]. intros Hx Hlt. simpl.
  destruct (Z.leb_spec window (now - s)); [|done].
  apply elem_of_cons in Hx as [->|Hx]; [lia | by apply IH].
Qed.

Lemma expire_suffix (window now : Z) (stamps : list Z) :
  exists old, stamps = old ++ expire window now stamps /\
              Forall (fun s => window <= now - s) old.
Proof.
  induction stamps as [|s rest IH]; simpl; [by exists []|].
  destruct (Z.leb_spec window (now - s)); [|by exists []].
  destruct IH as (old & Hr & Ho). exists (s :: old). simpl. split; [by f_equal|].
  by constructor.
Qed.

(** The stamps are the tail of the allowed times; the rest has expired. *)
Record lim_ok (l : Limiter) (done : list Z) (now : Z) : Prop := {
  lo_split : exists old, done = old ++ lim_stamps l /\
             Forall (fun s => s <= now - lim_window_s l) old;
  lo_past : Forall (fun s => s <= now) done;
  lo_window : forall w0, count_in w0 (lim_window_s l) done <= Z.max 0 (lim_limit l);
}.

Lemma count_in_app (w0 window : Z) (a b : list Z) :
  count_in w0 window (a ++ b) = count_in w0 window a + count_in w0 window b.
Proof. unfold count_in. rewrite List.filter_app, length_app. lia. Qed.

Lemma count_in_le (w0 window : Z) (l : list Z) : count_in w0 window l <= Z.of_nat (length l).
Proof. unfold count_in. pose proof (List.filter_length_le (in_window w0 window) l). lia. Qed.

Lemma count_in_old (w0 window now : Z) (old : list Z) :
  now < w0 + window -> Forall (fun s => s <= now - window) old -> count_in w0 window old = 0.
Proof.
  intros Hlt H. unfold count_in. induction H as [|s old Hs Ho IH]; [done|]. simpl.
  unfold in_window at 1. replace (w0 <=? s) with false; [done|].
  symmetry. apply Z.leb_gt. lia.
Qed.

Lemma lim_ok_advance (l : Limiter) (done : list Z) (now0 now : Z) :
  now0 <= now -> lim_ok l done now0 ->
  exists old, done = old ++ expire (lim_window_s l) now (lim_stamps l) /\
    Forall (fun s => s <= now - lim_window_s l) old.
Proof.
  intros Hle [(old & -> & Ho) _ _].
  destruct (expire_suffix (lim_window_s l) now (lim_stamps l)) as (old2 & Hs & Ho2).
  exists (old ++ old2). rewrite <- app_assoc, <- Hs. split; [done|].
  apply Forall_app. split; eapply Forall_impl; [done| | done |]; simpl; lia.
Qed.

Lemma check_ok (l : Limiter) (done : list Z) (now0 now : Z) :
  now0 <= now -> lim_ok l done now0 ->
  let '(r, l') := check_limit l now in
  lim_ok l' (if (r.1 : bool) then done ++ [now] else done) now /\
  lim_limit l' = lim_limit l /\ lim_window_s l' = lim_window_s l.
Proof.
  intros Hle Hok. destruct (lim_ok_advance l done now0 now Hle Hok) as (old & Hd & Ho).
  destruct Hok as [_ Hpast Hwin].
  assert (Hpast' : Forall (fun s => s <= now) done)
    by (eapply Forall_impl; [done|]; simpl; lia).
  unfold check_limit.
  destruct (Z.ltb_spec (Z.of_nat (length (expire (lim_window_s l) now (lim_stamps l))))
              (lim_limit l)) as [Hlt|Hge].
  - split; [|done]. split; simpl.
    + exists old. by rewrite Hd at 1; rewrite <- app_assoc.
    + apply Forall_app. split; [done|]. by repeat constructor.
    + intros w0. rewrite count_in_app. destruct (in_window w0 (lim_window_s l) now) eqn:E.
      * apply andb_prop in E as [_ E%Z.ltb_lt].
        rewrite Hd, count_in_app, (count_in_old _ _ now) by done.
        pose proof (count_in_le w0 (lim_window_s l) (expire (lim_window_s l) now (lim_stamps l))).
        pose proof (count_in_le w0 (lim_window_s l) [now]). simpl in *. lia.
      * unfold count_in at 2. simpl. rewrite E. simpl. specialize (Hwin w0). lia.
  - destruct (lim_rejection_audited l); (split; [|done]); split; simpl; eauto.
Qed.

Lemma run_checks_window (times : list Z) (l : Limiter) (done : list Z) (now w0 : Z) :
  lim_ok l done now -> StronglySorted Z.le (now :: times) ->
  count_in w0 (lim_window_s l) (done ++ allowed_times (run_checks l times))
    <= Z.max 0 (lim_limit l).
Proof.
  revert l done now. induction times as [|t times IH]; intros l done now Hok Hs; simpl.
  { rewrite app_nil_r. by apply lo_window with now. }
  apply StronglySorted_inv in Hs as [Hs Hf]. apply Forall_cons in Hf as [Hle Hf].
  pose proof (check_ok l done now t Hle Hok) as Hc.
  destruct (check_limit l t) as [[a u] l']. destruct Hc as (Hok' & Hl & Hw).
  rewrite <- Hl, <- Hw. specialize (IH l' _ t Hok' Hs).
  unfold allowed_times. simpl. simpl in IH. destruct a; simpl; [|done].
  by rewrite <- app_assoc in IH.
Qed.

(** For any clock that does not run backwards, every half-open window of
    [window] ticks holds at most [limit] allowed calls. *)
Theorem window_never_exceeded (limit window : Z) (times : list Z) (w0 : Z) :
  StronglySorted Z.le times ->
  count_in w0 window (allowed_times (run_checks (new_limiter limit window) times))
    <= Z.max 0 limit.
Proof.
  intros Hs. destruct times as [|t times]; [unfold count_in; simpl; lia|].
  apply (run_checks_window (t :: times) (new_limiter limit window) [] t).
  - split; simpl; [by exists [] | done |]. intros. unfold count_in. simpl. lia.
  - constructor; [done|]. apply StronglySorted_inv in Hs as [_ Hf]. by constructor.
Qed.

Lemma window_never_exceeded_witness :
  count_in 0 60 (allowed_times (run_checks (new_limiter 2 60) [0; 10; 20; 60; 61])) <= 2.
Proof.
  apply (window_never_exceeded 2 60 [0; 10; 20; 60; 61] 0).
  repeat constructor; lia.
Defined.

(** *** One audit row per saturated stretch *)

Lemma run_checks_audits (times : list Z) (l : Limiter) :
  (audits (run_checks l times) + (if lim_rejection_audited l then 1 else 0)
   <= length (allowed_times (run_checks l times)) + 1)%nat.
Proof.
  revert l. induction times as [|t times IH]; intros l; simpl.
  { destruct (lim_rejection_audited l); unfold audits; simpl; lia. }
  unfold check_limit. destruct (_ <? _).
  - specialize (IH (mkLimiter (lim_limit l) (lim_window_s l)
      (expire (lim_window_s l) t (lim_stamps l) ++ [t]) false)).
    unfold audits, allowed_times in *. rewrite length_fmap in *. simpl in *.
    destruct (lim_rejection_audited l); lia.
  - destruct (lim_rejection_audited l) eqn:E;
      specialize (IH (mkLimiter (lim_limit l) (lim_window_s l)
        (expire (lim_window_s l) t (lim_stamps l)) true));
      unfold audits, allowed_times in *; rewrite length_fmap in *; simpl in *; lia.
Qed.

(** However many calls are rejected, between two audited rejections there
    is an allowed call: over any stretch of a run, whatever the limiter's
    state at its start, the audited rejections exceed the allowed calls by at
    most one. *)
Theorem audits_bounded (l : Limiter) (times : list Z) :
  (audits (run_checks l times) <= length (allowed_times (run_checks l times)) + 1)%nat.
Proof. pose proof (run_checks_audits times l). lia. Qed.

(** The audited rejections of a run, by clock reading. *)
Definition audited_times (log : list (Z * (bool * bool))) : list Z :=
  fst <$> List.filter (fun x => x.2.2) log.

(** The audit is not limited to one row per window: when the allowed calls
    are spread over the window they expire one by one, each expiry lets one
    call through and re-arms the audit of the next rejection. With the default
    12 calls per 60 seconds, a client calling every 5 seconds and once more a
    second later has 12 rejections audited within one window. *)
Theorem audit_not_once_per_window :
  let times := [0; 5; 10; 15; 20; 25; 30; 35; 40; 45; 50; 55; 56; 60; 61; 65; 66; 70; 71; 75; 76;
                80; 81; 85; 86; 90; 91; 95; 96; 100; 101; 105; 106; 110; 111] in
  count_in 56 60 (audited_times (run_checks (new_limiter 12 60) times)) = 12.
Proof. vm_compute. reflexivity. Qed.

(** ** [TokenBucket] *)

Local Open Scope Q_scope.

Record TokenBucket := mkBucket {
  tb_rate_per_s : Q;
  tb_capacity : Q;
  tb_tokens : Q;
  tb_last : Q;
}.

(** [__post_init__]. *)
Definition new_bucket (rate capacity now : Q) : TokenBucket :=
  mkBucket rate capacity capacity now.

Definition Qmin2 (a b : Q) : Q := if Qle_bool a b then a else b.

Definition try_take (b : TokenBucket) (now n : Q) : bool * TokenBucket :=
  let elapsed := now - tb_last b in
  let tokens := Qmin2 (tb_capacity b) (tb_tokens b + elapsed * tb_rate_per_s b) in
  if Qle_bool n tokens
  then (true, mkBucket (tb_rate_per_s b) (tb_capacity b) (tokens - n) now)
  else (false, mkBucket (tb_rate_per_s b) (tb_capacity b) tokens now).

(** The total granted by a run of requests (time, amount), and the bucket. *)
Fixpoint run_takes (b : TokenBucket) (reqs : list (Q * Q)) : Q * TokenBucket :=
  match reqs with
  | [] => (0, b)
  | (now, n) :: rest =>
      let '(ok, b') := try_take b now n in
      let '(g, b'') := run_takes b' rest in
      ((if ok then n else 0) + g, b'')
  end.

Lemma Qmin2_le (a b : Q) : Qmin2 a b <= a /\ Qmin2 a b <= b.
Proof.
  unfold Qmin2. destruct (Qle_bool a b) eqn:E.
  - apply Qle_bool_iff in E. split; [apply Qle_refl | done].
  - split; [|apply Qle_refl]. apply Qlt_le_weak, Qnot_le_lt. intros H%Qle_bool_iff. congruence.
Qed.

Lemma Qmin2_glb (a b c : Q) : c <= a -> c <= b -> c <= Qmin2 a b.
Proof. intros Ha Hb. unfold Qmin2. by destruct (Qle_bool a b). Qed.

Definition bucket_ok (b : TokenBucket) : Prop :=
  0 <= tb_rate_per_s b /\ 0 <= tb_tokens b /\ tb_tokens b <= tb_capacity b.

Lemma try_take_ok (b : TokenBucket) (now n : Q) :
  bucket_ok b -> tb_last b <= now -> 0 <= n ->
  let '(ok, b') := try_take b now n in
  bucket_ok b' /\ tb_last b' = now /\ tb_rate_per_s b' = tb_rate_per_s b /\
  (if ok then n else 0) + tb_tokens b' <= tb_tokens b + (now - tb_last b) * tb_rate_per_s b.
Proof.
  intros (Hr & Ht & Hc) Hnow Hn. unfold try_take.
  set (tk := Qmin2 _ _).
  assert (Hin : 0 <= (now - tb_last b) * tb_rate_per_s b)
    by (apply Qmult_le_0_compat; [lra|done]).
  assert (H0 : 0 <= tk) by (apply Qmin2_glb; lra).
  destruct (Qmin2_le (tb_capacity b) (tb_tokens b + (now - tb_last b) * tb_rate_per_s b))
    as [H1 H2]. fold tk in H1, H2.
  destruct (Qle_bool n tk) eqn:E; unfold bucket_ok; simpl.
  - apply Qle_bool_iff in E. split_and!; [done | lra | lra | done | done | lra].
  - split_and!; [done | lra | lra | done | done | lra].
Qed.

(** Requests at times that do not run backwards, for non-negative amounts. *)
Fixpoint reqs_ok (last : Q) (reqs : list (Q * Q)) : Prop :=
  match reqs with
  | [] => True
  | (now, n) :: rest => last <= now /\ 0 <= n /\ reqs_ok now rest
  end.

Lemma run_takes_ok (reqs : list (Q * Q)) (b : TokenBucket) :
  bucket_ok b -> reqs_ok (tb_last b) reqs ->
  let '(g, b') := run_takes b reqs in
  bucket_ok b' /\ tb_rate_per_s b' = tb_rate_per_s b /\
  g + tb_tokens b' <= tb_tokens b + (tb_last b' - tb_last b) * tb_rate_per_s b.
Proof.
  revert b. induction reqs as [|[now n] rest IH]; intros b Hb Hr; simpl.
  { split_and!; [done..|]. lra. }
  destruct Hr as (Hnow & Hn & Hrest). pose proof (try_take_ok b now n Hb Hnow Hn) as Ht.
  destruct (try_take b now n) as [ok b1]. destruct Ht as (Hb1 & Hl1 & Hr1 & Hg1).
  rewrite <- Hl1 in Hrest. specialize (IH b1 Hb1 Hrest).
  destruct (run_takes b1 rest) as [g b2]. destruct IH as (Hb2 & Hr2 & Hg2).
  split_and!; [done | congruence|]. rewrite Hr1, Hl1 in Hg2.
  assert (Hd : (tb_last b2 - tb_last b) * tb_rate_per_s b ==
    (tb_last b2 - now) * tb_rate_per_s b + (now - tb_last b) * tb_rate_per_s b) by ring.
  rewrite Hd. lra.
Qed.

(** Over any run of requests at non-decreasing times, a bucket grants at
    most its capacity plus the rate times the elapsed time, and its level
    stays between zero and the capacity. *)
Theorem bucket_rate_bound (rate capacity t0 : Q) (reqs : list (Q * Q)) :
  0 <= rate -> 0 <= capacity -> reqs_ok t0 reqs ->
  let '(granted, b) := run_takes (new_bucket rate capacity t0) reqs in
  granted <= capacity + (tb_last b - t0) * rate /\
  0 <= tb_tokens b /\ tb_tokens b <= tb_capacity b.
Proof.
  intros Hr Hc Hq. pose proof (run_takes_ok reqs (new_bucket rate capacity t0)) as H.
  destruct (run_takes _ reqs) as [g b].
  destruct H as ((_ & Ht & Hcap) & _ & Hg); [|done|].
  { split_and!; simpl; [done | done | apply Qle_refl]. }
  simpl in Hg. split_and!; [lra | done | done].
Qed.

Lemma bucket_rate_bound_witness :
  (run_takes (new_bucket 1 2 0) [(0, 1); (0, 1); (0, 1); (1, 1)]).1
  <= 2 + ((tb_last (run_takes (new_bucket 1 2 0) [(0, 1); (0, 1); (0, 1); (1, 1)]).2) - 0) * 1.
Proof.
  assert (Hr : reqs_ok 0 [(0, 1); (0, 1); (0, 1); (1, 1)])
    by (vm_compute; repeat split; discriminate).
  pose proof (bucket_rate_bound 1 2 0 [(0, 1); (0, 1); (0, 1); (1, 1)]
                ltac:(vm_compute; discriminate) ltac:(vm_compute; discriminate) Hr) as H.
  destruct (run_takes _ _) as [g b]. exact (proj1 H).
Defined.
