(* ===== verification/Quarantine.v ===== *)
(** * Quarantine ([inspectord/quarantine/ops.py], [paths.py], [errors.py],
      [evidence/store.py])

    Isolating a file into the content-addressed store, restoring it and
    deleting it. The file system is a tree of inodes reached component by
    component, as the directory descriptors of the code reach it; what other
    processes do to it between two system calls is an explicit function.
    SHA-256, [realpath] and the outcome of external calls are inputs. *)

From S2P Require Import Prelude Schemas.

(** ** Errors *)

Inductive QuarantineError :=
| QDenied | QNotFound | QNotRegular | QTooLarge | QSwapped | QIsolationFailed | QIOError
| QNotActive | QBadStatus | QPathOccupied | QRestoreNoParent | QBlobMissing | QShaMismatch
| QRequestError.

Definition error_kind (e : QuarantineError) : string :=
  match e with
  | QDenied => "denied" | QNotFound => "not_found" | QNotRegular => "not_regular"
  | QTooLarge => "too_large" | QSwapped => "swapped" | QIsolationFailed => "isolation_failed"
  | QIOError => "io_error" | QNotActive => "not_active" | QBadStatus => "bad_status"
  | QPathOccupied => "path_occupied" | QRestoreNoParent => "restore_no_parent"
  | QBlobMissing => "blob_missing" | QShaMismatch => "sha_mismatch" | QRequestError => "request"
  end.

(** ** The file system *)

(** An inode: its number is its identity ([st_dev], [st_ino]). *)
Record FileData := mkFile { f_bytes : string; f_mode : Z; f_uid : Z; f_gid : Z }.
Inductive Inode :=
| IReg (d : FileData)
| IDir (entries : gmap string Z)
| ILink (target : string)
| IOther.

Abbreviation Fs := (gmap Z Inode).
Definition root_ino : Z := 2.

Inductive OsError := ENOENT | ENOTDIR | ELOOP | EOTHER.

Definition entries_of (fs : Fs) (dir : Z) : option (gmap string Z) :=
  match fs !! dir with Some (IDir m) => Some m | _ => None end.

(** [fstatat(dirfd, name, AT_SYMLINK_NOFOLLOW)]: the inode the entry names. *)
Definition stat_at (fs : Fs) (dir : Z) (name : string) : option Z :=
  m ← entries_of fs dir; m !! name.

(** [unlinkat] and [linkat] through a directory descriptor. *)
Definition unlink_at (fs : Fs) (dir : Z) (name : string) : Fs :=
  match entries_of fs dir with
  | Some m => <[dir := IDir (delete name m)]> fs
  | None => fs
  end.
Definition link_at (fs : Fs) (dir : Z) (name : string) (ino : Z) : Fs :=
  match entries_of fs dir with
  | Some m => <[dir := IDir (<[name := ino]> m)]> fs
  | None => fs
  end.

(** ** [paths.py] *)

Definition components (path : string) : list string := split_on "/"%char path.
(** [os.path.basename] and the components of [os.path.dirname]. *)
Definition basename (path : string) : string := default EmptyString (last (components path)).
Definition parent_components (path : string) : list string :=
  List.filter (fun c => negb (String.eqb c EmptyString))
    (take (length (components path) - 1) (components path)).

(** [_open_component]: a component opened with [O_NOFOLLOW | O_DIRECTORY]. *)
Definition open_component (fs : Fs) (dir : Z) (component : string) : result OsError Z :=
  if String.eqb component "." then Ok dir
  else match stat_at fs dir component with
       | None => Err ENOENT
       | Some ino =>
           match fs !! ino with
           | Some (IDir _) => Ok ino
           | Some (ILink _) => Err ELOOP
           | Some _ => Err ENOTDIR
           | None => Err ENOENT
           end
       end.

Fixpoint open_components (fs : Fs) (dir : Z) (cs : list string) : result OsError Z :=
  match cs with
  | [] => Ok dir
  | c :: rest => d ← open_component fs dir c; open_components fs d rest
  end.
Definition open_parent_dirfd (fs : Fs) (path : string) : result OsError Z :=
  open_components fs root_ino (parent_components path).

Record QuarantinePaths := mkQPaths {
  qp_state_dir : string;
  qp_socket_dir : string;
  qp_config_path : option string;
}.

Definition DENY_PREFIXES : list string :=
  ["/proc"; "/sys"; "/dev"; "/etc/shadow"; "/etc/gshadow"; "/root/.ssh"]%string.
Definition POLKIT_DIR : string := "/usr/share/polkit-1".

Definition deny_list (p : QuarantinePaths) : list string :=
  DENY_PREFIXES ++ [POLKIT_DIR; qp_state_dir p; qp_socket_dir p]
  ++ match qp_config_path p with Some c => [c] | None => [] end.

Definition quarantine_deny (path_resolved : string) (p : QuarantinePaths) : bool :=
  existsb (fun entry => String.eqb path_resolved entry
                        || startswith (rstrip_slash entry +:+ "/") path_resolved)
    (deny_list p).

(** ** Rows and the store *)

Inductive QStatus := QS_isolating | QS_active | QS_failed | QS_restoring | QS_restored
                   | QS_deleting | QS_deleted.
#[export] Instance QStatus_eq_dec : EqDecision QStatus.
Proof. solve_decision. Defined.

Record QRow := mkQRow {
  qr_id : string;
  qr_sha256 : string;
  qr_original_path : string;
  qr_mode : Z;
  qr_uid : Z;
  qr_gid : Z;
  qr_size : Z;
  qr_pkg_owner : option string;
  qr_note : option string;
  qr_alert_id : option string;
  qr_case_id : option string;
  qr_status : QStatus;
  qr_quarantined_at : Z;
  qr_restored_at : option Z;
  qr_deleted_at : option Z;
}.

(** A stored blob with the inode that holds it. *)
Record Blob := mkBlob { b_ino : Z; b_bytes : string }.

(** An audit append: actor, action, target, and of a refusal's details the verb
    and the [error_kind]. *)
Record AuditNote := mkNote {
  an_actor : string;
  an_action : string;
  an_target : string;
  an_refused : option (string * string);
}.

Record QState := mkQ {
  q_fs : Fs;
  q_store : gmap string Blob;
  q_rows : list QRow;
  q_case_shas : list string;                     (** [case_evidence.sha256] *)
  q_audit : list AuditNote;
  q_timeline : list (string * string * string);  (** case, kind, text *)
}.

Definition with_fs (s : QState) (fs : Fs) : QState :=
  mkQ fs (q_store s) (q_rows s) (q_case_shas s) (q_audit s) (q_timeline s).
Definition with_store (s : QState) (st : gmap string Blob) : QState :=
  mkQ (q_fs s) st (q_rows s) (q_case_shas s) (q_audit s) (q_timeline s).
Definition with_rows (s : QState) (rows : list QRow) : QState :=
  mkQ (q_fs s) (q_store s) rows (q_case_shas s) (q_audit s) (q_timeline s).
Definition note (s : QState) (n : AuditNote) : QState :=
  mkQ (q_fs s) (q_store s) (q_rows s) (q_case_shas s) (q_audit s ++ [n]) (q_timeline s).
Definition timeline (s : QState) (case : option string) (kind text : string) : QState :=
  match case with
  | None => s
  | Some c => mkQ (q_fs s) (q_store s) (q_rows s) (q_case_shas s) (q_audit s)
                  (q_timeline s ++ [(c, kind, text)])
  end.

(** [_cas]: the guarded UPDATE, and whether it changed a row. [stamp] sets a
    timestamp column. *)
Definition set_qstatus (st : QStatus) (stamp : QRow -> QRow) (r : QRow) : QRow :=
  let r := stamp r in
  mkQRow (qr_id r) (qr_sha256 r) (qr_original_path r) (qr_mode r) (qr_uid r) (qr_gid r)
    (qr_size r) (qr_pkg_owner r) (qr_note r) (qr_alert_id r) (qr_case_id r) st
    (qr_quarantined_at r) (qr_restored_at r) (qr_deleted_at r).
Definition stamp_restored (now : Z) (r : QRow) : QRow :=
  mkQRow (qr_id r) (qr_sha256 r) (qr_original_path r) (qr_mode r) (qr_uid r) (qr_gid r)
    (qr_size r) (qr_pkg_owner r) (qr_note r) (qr_alert_id r) (qr_case_id r) (qr_status r)
    (qr_quarantined_at r) (Some now) (qr_deleted_at r).
Definition stamp_deleted (now : Z) (r : QRow) : QRow :=
  mkQRow (qr_id r) (qr_sha256 r) (qr_original_path r) (qr_mode r) (qr_uid r) (qr_gid r)
    (qr_size r) (qr_pkg_owner r) (qr_note r) (qr_alert_id r) (qr_case_id r) (qr_status r)
    (qr_quarantined_at r) (qr_restored_at r) (Some now).

Definition cas_hits (id : string) (froms : list QStatus) (r : QRow) : bool :=
  String.eqb (qr_id r) id && bool_decide (qr_status r ∈ froms).
Definition cas (rows : list QRow) (id : string) (froms : list QStatus) (to : QStatus)
    (stamp : QRow -> QRow) : bool * list QRow :=
  (existsb (cas_hits id froms) rows,
   (fun r => if cas_hits id froms r then set_qstatus to stamp r else r) <$> rows).

Definition fetch_row (rows : list QRow) (id : string) : option QRow :=
  List.find (fun r => String.eqb (qr_id r) id) rows.

(** ** Operations *)

Definition is_abs (path : string) : bool := startswith "/" path.

Record IsolateResult := mkIsolated {
  ir_quarantine_id : string;
  ir_sha256 : string;
  ir_pkg_owner : option string;
  ir_running_pids : list (Z * string);
  ir_warnings : list string;
}.

Record RestoreResult := mkRestored {
  rs_quarantine_id : string;
  rs_original_path : string;
  rs_sha256 : string;
  rs_setuid_warning : bool;
}.

Record DeleteResult := mkDeleted {
  dl_quarantine_id : string;
  dl_original_path : string;
  dl_blob_removed : bool;
}.

(** [_pacman_owner] of how [pacman -Qqo] ended: [None] is a spawn failure or a
    timeout, else the exit status and the output. *)
Definition pacman_owner (run : option (Z * string)) : option string :=
  '(returncode, stdout) ← run;
  if negb (returncode =? 0) then None
  else match splitlines (strip stdout) with
       | [] => None
       | l :: _ => if String.eqb l EmptyString then None else Some l
       end.

(** An entry of [/proc]: its name, the inode behind [exe] and the text of
    [comm], [None] where reading fails. *)
Record ProcEntry := mkProc { pe_name : string; pe_exe : option Z; pe_comm : option string }.

Definition isdigit (s : string) : bool :=
  negb (String.eqb s EmptyString) && str_forall is_digit s.

(** [_running_from_inode]. *)
Definition running_from_inode (proc : list ProcEntry) (ino : Z) : list (Z * string) :=
  omap (fun e =>
    if negb (isdigit (pe_name e)) then None
    else
      exe ← pe_exe e;
      if negb (exe =? ino) then None
      else
        pid ← py_int (pe_name e);
        Some (pid, match pe_comm e with Some c => strip c | None => EmptyString end)) proc.

Definition RUNNING_WARNING : string :=
  "processes already running from this file are NOT stopped".

(** The warnings of a successful isolation. *)
Definition isolate_warnings (pkg_owner : option string) (running : list (Z * string)) : list string :=
  match pkg_owner with Some o => ["file is owned by package " +:+ o]%string | None => [] end
  ++ match running with [] => [] | _ => [RUNNING_WARNING] end.

Section Quarantine.
Context (sha256 : string -> string) (realpath : Fs -> string -> string)
        (qpaths : QuarantinePaths) (store_root : string).

(** *** Isolate *)

Definition validate_target (fs : Fs) (path : string) : option QuarantineError :=
  if negb (is_abs path) || bool_decide (".."%string ∈ components path) then Some QDenied
  else if String.eqb (basename path) EmptyString then Some QNotRegular
  else if quarantine_deny (realpath fs path) qpaths then Some QDenied
  else None.

Definition open_parent (fs : Fs) (path : string) : result QuarantineError Z :=
  match open_parent_dirfd fs path with
  | Ok d => Ok d
  | Err (ENOENT | ENOTDIR) => Err QNotFound
  | Err ELOOP => Err QDenied
  | Err EOTHER => Err QIOError
  end.

(** [_open_target] and the regular-file check: the inode behind the descriptor
    and its [fstat]. [open_error] is an [OSError] of the open itself. *)
Definition open_target (fs : Fs) (dirfd : Z) (path : string) (open_error : bool)
  : result QuarantineError (Z * FileData) :=
  match stat_at fs dirfd (basename path) with
  | None => Err QNotFound
  | Some ino =>
      match fs !! ino with
      | Some (ILink _) => Err QNotRegular
      | None => Err QNotFound
      | Some n =>
          if open_error then Err QIOError
          else match n with IReg d => Ok (ino, d) | _ => Err QNotRegular end
      end
  end.

(** [ForensicStore.put_stream]: the digest; content over the cap stores
    nothing, content already there is stored once. *)
Definition put_stream (store : gmap string Blob) (bytes : string) (max_bytes fresh_ino : Z)
  : option (string * gmap string Blob) :=
  if max_bytes <? Z.of_nat (String.length bytes) then None
  else
    let sha := sha256 bytes in
    Some (sha, match store !! sha with
               | Some _ => store
               | None => <[sha := mkBlob fresh_ino bytes]> store
               end).

(** The inputs of one isolation. *)
Record IsolateIn := mkIsolateIn {
  ii_path : string;
  ii_alert_id : option string;
  ii_case_id : option string;
  ii_note : option string;
  ii_actor : string;
  ii_pacman : option (Z * string);
  ii_max_bytes : Z;
  ii_open_error : bool;
  ii_fresh_id : string;
  ii_fresh_ino : Z;
  ii_now : Z;
  ii_unlink_error : bool;
  ii_proc : list ProcEntry;
}.
Definition ii_pkg_owner (i : IsolateIn) : option string := pacman_owner (ii_pacman i).

(** [_capture]: the bytes read through the descriptor of [ino]. *)
Definition capture (i : IsolateIn) (s : QState) (ino : Z) (st : FileData)
  : result QuarantineError string * QState :=
  let bytes := match q_fs s !! ino with Some (IReg d) => f_bytes d | _ => EmptyString end in
  match put_stream (q_store s) bytes (ii_max_bytes i) (ii_fresh_ino i) with
  | None => (Err QTooLarge, s)
  | Some (sha, store) =>
      let s1 := with_store s store in
      let same_inode := match store !! sha with Some b => b_ino b =? ino | None => false end in
      if same_inode || startswith (rstrip_slash store_root +:+ "/") (realpath (q_fs s) (ii_path i))
      then (Err QDenied, s1)
      else
        let row := mkQRow (ii_fresh_id i) sha (ii_path i) (Z.land (f_mode st) 4095) (f_uid st)
                     (f_gid st) (Z.of_nat (String.length bytes)) (ii_pkg_owner i) (ii_note i)
                     (ii_alert_id i) (ii_case_id i) QS_isolating (ii_now i) None None in
        (Ok sha, with_rows s1 (q_rows s1 ++ [row]))
  end.

(** [_unlink_guarded]; [race] is what happens between the stat and the unlink. *)
Definition unlink_guarded (i : IsolateIn) (race : Fs -> Fs) (s : QState) (dirfd ino : Z)
  : result QuarantineError unit * QState :=
  let name := basename (ii_path i) in
  if bool_decide (stat_at (q_fs s) dirfd name = Some ino) then
    let s1 := with_fs s (race (q_fs s)) in
    if ii_unlink_error i || bool_decide (stat_at (q_fs s1) dirfd name = None) then
      let '(_, rows) := cas (q_rows s1) (ii_fresh_id i) [QS_isolating] QS_failed id in
      (Err QIsolationFailed, with_rows s1 rows)
    else
      let s2 := with_fs s1 (unlink_at (q_fs s1) dirfd name) in
      let '(ok, rows) := cas (q_rows s2) (ii_fresh_id i) [QS_isolating] QS_active id in
      ((if ok then Ok tt else Err QIOError), with_rows s2 rows)
  else
    let '(_, rows) := cas (q_rows s) (ii_fresh_id i) [QS_isolating] QS_failed id in
    (Err QSwapped, with_rows s rows).

(** [_isolate]; [env1] acts after the open, [env2] after the capture, [race]
    between the last stat and the unlink. *)
Definition isolate_core (i : IsolateIn) (env1 env2 race : Fs -> Fs) (s : QState)
  : result QuarantineError IsolateResult * QState :=
  match validate_target (q_fs s) (ii_path i) with
  | Some e => (Err e, s)
  | None =>
      match open_parent (q_fs s) (ii_path i) with
      | Err e => (Err e, s)
      | Ok dirfd =>
          match open_target (q_fs s) dirfd (ii_path i) (ii_open_error i) with
          | Err e => (Err e, s)
          | Ok (ino, st) =>
              let s1 := with_fs s (env1 (q_fs s)) in
              match capture i s1 ino st with
              | (Err e, s2) => (Err e, s2)
              | (Ok sha, s2) =>
                  match unlink_guarded i race (with_fs s2 (env2 (q_fs s2))) dirfd ino with
                  | (Err e, s3) => (Err e, s3)
                  | (Ok _, s3) =>
                      let running := running_from_inode (ii_proc i) ino in
                      (Ok (mkIsolated (ii_fresh_id i) sha (ii_pkg_owner i) running
                             (isolate_warnings (ii_pkg_owner i) running)), s3)
                  end
              end
          end
      end
  end.

(** [isolate]: every refusal and every success is audited. *)
Definition isolate (i : IsolateIn) (env1 env2 race : Fs -> Fs) (s : QState)
  : result QuarantineError IsolateResult * QState :=
  match isolate_core i env1 env2 race s with
  | (Err e, s') =>
      (Err e, note s' (mkNote (ii_actor i) "quarantine_refused" (ii_path i)
                         (Some ("quarantine"%string, error_kind e))))
  | (Ok r, s') =>
      (Ok r, timeline (note s' (mkNote (ii_actor i) "file_quarantined" (ii_path i) None))
               (ii_case_id i) "file_quarantined" (ii_path i))
  end.

(** *** Restore *)

(** [_verify_blob]. *)
Definition verify_blob (s : QState) (sha : string) : option QuarantineError :=
  match q_store s !! sha with
  | None => Some QBlobMissing
  | Some b => if String.eqb (sha256 (b_bytes b)) sha then None else Some QShaMismatch
  end.

Definition open_parent_for_restore (fs : Fs) (path : string) : result QuarantineError Z :=
  match open_parent_dirfd fs path with
  | Ok d => Ok d
  | Err (ENOENT | ENOTDIR) => Err QRestoreNoParent
  | Err ELOOP => Err QDenied
  | Err EOTHER => Err QIOError
  end.

(** [_write_and_commit]: the temporary file is a new inode holding what
    [os_write] wrote of the blob; [link] refuses an occupied name. [race] acts
    between the writing and the link; [io_error] is an [OSError] on the way. *)
Definition write_and_commit (os_write : string -> string) (race : Fs -> Fs) (io_error : bool)
    (fs : Fs) (dirfd fresh_ino : Z) (bytes : string) (r : QRow)
  : result QuarantineError unit * Fs :=
  if io_error then (Err QIOError, fs)
  else
    let fs1 := race (<[fresh_ino := IReg (mkFile (os_write bytes) (qr_mode r) (qr_uid r) (qr_gid r))]> fs) in
    match stat_at fs1 dirfd (basename (qr_original_path r)) with
    | Some _ => (Err QPathOccupied, delete fresh_ino fs1)
    | None => (Ok tt, link_at fs1 dirfd (basename (qr_original_path r)) fresh_ino)
    end.

Record RestoreIn := mkRestoreIn {
  ri_id : string;
  ri_actor : string;
  ri_io_error : bool;
  ri_fresh_ino : Z;
  ri_now : Z;
}.

(** The body between the two CASes: after the blob was verified, and all of it. *)
Definition restore_write (os_write : string -> string) (race : Fs -> Fs) (i : RestoreIn)
    (s : QState) (r : QRow) : result QuarantineError unit * Fs :=
  if quarantine_deny (realpath (q_fs s) (qr_original_path r)) qpaths then (Err QDenied, q_fs s)
  else
    match open_parent_for_restore (q_fs s) (qr_original_path r) with
    | Err e => (Err e, q_fs s)
    | Ok dirfd =>
        let bytes := match q_store s !! qr_sha256 r with
                     | Some b => b_bytes b | None => EmptyString end in
        write_and_commit os_write race (ri_io_error i) (q_fs s) dirfd (ri_fresh_ino i) bytes r
    end.
Definition restore_body (os_write : string -> string) (race : Fs -> Fs) (i : RestoreIn)
    (s : QState) (r : QRow) : result QuarantineError unit * Fs :=
  match verify_blob s (qr_sha256 r) with
  | Some e => (Err e, q_fs s)
  | None => restore_write os_write race i s r
  end.

(** [_restore]. *)
Definition restore_core (os_write : string -> string) (race : Fs -> Fs) (i : RestoreIn)
    (s : QState) : result QuarantineError (RestoreResult * option string) * QState :=
  match fetch_row (q_rows s) (ri_id i) with
  | None => (Err QNotFound, s)
  | Some r =>
      let '(won, rows) := cas (q_rows s) (ri_id i) [QS_active] QS_restoring id in
      if negb won then (Err QNotActive, s)
      else
        let s1 := with_rows s rows in
        let '(res, fs) := restore_body os_write race i s1 r in
        let s2 := with_fs s1 fs in
        match res with
        | Err e =>
            let '(_, rows2) := cas (q_rows s2) (ri_id i) [QS_restoring] QS_active id in
            (Err e, with_rows s2 rows2)
        | Ok _ =>
            let '(ok, rows2) := cas (q_rows s2) (ri_id i) [QS_restoring] QS_restored
                                  (stamp_restored (ri_now i)) in
            if ok then
              (Ok (mkRestored (ri_id i) (qr_original_path r) (qr_sha256 r)
                     (negb (Z.land (qr_mode r) 3072 =? 0)), qr_case_id r), with_rows s2 rows2)
            else (Err QIOError, with_rows s2 rows2)
        end
  end.

Definition restore (os_write : string -> string) (race : Fs -> Fs) (i : RestoreIn) (s : QState)
  : result QuarantineError RestoreResult * QState :=
  match restore_core os_write race i s with
  | (Err e, s') =>
      (Err e, note s' (mkNote (ri_actor i) "quarantine_refused" (ri_id i)
                         (Some ("restore"%string, error_kind e))))
  | (Ok (r, case), s') =>
      (Ok r, timeline (note s' (mkNote (ri_actor i) "quarantine_restored" (rs_original_path r) None))
               case "quarantine_restored" (rs_original_path r))
  end.

(** *** Delete *)

Definition held_by_other (rows : list QRow) (sha id : string) : bool :=
  existsb (fun r => String.eqb (qr_sha256 r) sha && negb (String.eqb (qr_id r) id)
                    && negb (bool_decide (qr_status r = QS_deleted))) rows.

(** [_delete]. *)
Definition delete_core (id : string) (now : Z) (s : QState)
  : result QuarantineError (DeleteResult * option string) * QState :=
  match fetch_row (q_rows s) id with
  | None => (Err QNotFound, s)
  | Some r =>
      let '(won, rows) := cas (q_rows s) id [QS_active; QS_restored; QS_failed] QS_deleting Datatypes.id in
      if negb won then (Err QBadStatus, s)
      else
        let s1 := with_rows s rows in
        let sha := qr_sha256 r in
        let free := negb (bool_decide (sha ∈ q_case_shas s1))
                    && negb (held_by_other (q_rows s1) sha id) in
        let present := match q_store s1 !! sha with Some _ => true | None => false end in
        let removed := free && present in
        let s2 := if removed then with_store s1 (delete sha (q_store s1)) else s1 in
        let '(ok, rows2) := cas (q_rows s2) id [QS_deleting] QS_deleted (stamp_deleted now) in
        if ok then
          (Ok (mkDeleted id (qr_original_path r) removed, qr_case_id r), with_rows s2 rows2)
        else (Err QIOError, with_rows s2 rows2)
  end.

Definition delete_quarantined (id actor : string) (now : Z) (s : QState)
  : result QuarantineError DeleteResult * QState :=
  match delete_core id now s with
  | (Err e, s') =>
      (Err e, note s' (mkNote actor "quarantine_refused" id (Some ("delete"%string, error_kind e))))
  | (Ok (r, case), s') =>
      (Ok r, timeline (note s' (mkNote actor "quarantine_deleted" (dl_original_path r) None))
               case "quarantine_deleted" (dl_original_path r))
  end.

(** *** Listing *)

Definition health_flags (s : QState) (lexists : string -> bool) (r : QRow) : list string :=
  (if bool_decide (qr_status r ∈ [QS_isolating; QS_failed]) then ["isolation_incomplete"%string] else [])
  ++ (if bool_decide (qr_status r = QS_active) && lexists (qr_original_path r)
      then ["file_still_present"%string] else [])
  ++ (if negb (bool_decide (qr_status r = QS_deleted))
         && match q_store s !! qr_sha256 r with Some _ => false | None => true end
      then ["blob_missing"%string] else []).

Definition row_newer (a b : QRow) : Prop :=
  qr_quarantined_at b < qr_quarantined_at a \/
  (qr_quarantined_at a = qr_quarantined_at b /\ String.le (qr_id b) (qr_id a)).
#[export] Instance row_newer_dec a b : Decision (row_newer a b).
Proof. unfold row_newer. apply _. Defined.

Definition list_quarantine (s : QState) (lexists : string -> bool) (limit : Z)
  : list (QRow * list string) * Z :=
  let limit := Z.max 1 (Z.min limit 1000) in
  ((fun r => (r, health_flags s lexists r)) <$>
     take (Z.to_nat limit) (merge_sort row_newer (q_rows s)), limit).

End Quarantine.
