(* ===== verification/QuarantineProofs.v ===== *)
(** * Properties of quarantine

    The theorems about [Quarantine.v]: what isolation removes and keeps, that
    every live row has its blob, that restoring gives the file back without
    ever replacing another, and that isolating and restoring round-trips. *)

From S2P Require Import Prelude Schemas Quarantine.

Definition row_ids (rows : list QRow) : list string := qr_id <$> rows.

(** ** The compare-and-set *)

Lemma fetch_row_spec (rows : list QRow) (id : string) (r : QRow) :
  fetch_row rows id = Some r -> r ∈ rows /\ qr_id r = id.
Proof.
  intros H. apply List.find_some in H as [H1 H2%String.eqb_eq]. split; [|done].
  by apply list_elem_of_In.
Qed.

Lemma fetch_row_elem (rows : list QRow) (r : QRow) :
  NoDup (row_ids rows) -> r ∈ rows -> fetch_row rows (qr_id r) = Some r.
Proof.
  unfold row_ids, fetch_row. induction rows as [|x rows IH]; intros Hnd Hin;
    [by apply not_elem_of_nil in Hin|]. simpl. rewrite fmap_cons in Hnd.
  apply NoDup_cons in Hnd as [Hx Hnd]. apply elem_of_cons in Hin as [->|Hin].
  - by rewrite String.eqb_refl.
  - destruct (String.eqb_spec (qr_id x) (qr_id r)) as [He|]; [|by apply IH].
    exfalso. apply Hx. rewrite He. apply list_elem_of_fmap. by exists r.
Qed.

(** A CAS on a row in an allowed status rewrites that row only. *)
Lemma cas_mid (a b : list QRow) (r : QRow) (froms : list QStatus) (to : QStatus)
    (stamp : QRow -> QRow) :
  NoDup (row_ids (a ++ r :: b)) -> qr_status r ∈ froms ->
  cas (a ++ r :: b) (qr_id r) froms to stamp = (true, a ++ set_qstatus to stamp r :: b).
Proof.
  intros Hnd Hs. unfold row_ids in Hnd. rewrite fmap_app, fmap_cons in Hnd.
  apply NoDup_app in Hnd as (_ & Ha & [Hb _]%NoDup_cons).
  assert (Hhit : cas_hits (qr_id r) froms r = true).
  { unfold cas_hits. rewrite String.eqb_refl. by rewrite bool_decide_eq_true_2. }
  assert (Hmiss : forall l : list QRow, qr_id r ∉ qr_id <$> l ->
    (fun x => if cas_hits (qr_id r) froms x then set_qstatus to stamp x else x) <$> l = l).
  { intros l Hl. rewrite <- (list_fmap_id l) at 2. apply list_fmap_ext. intros i x Hx.
    unfold cas_hits. destruct (String.eqb_spec (qr_id x) (qr_id r)) as [He|]; [|done].
    exfalso. apply Hl. apply list_elem_of_fmap. exists x.
    split; [done | by eapply list_elem_of_lookup_2]. }
  unfold cas. rewrite fmap_app, fmap_cons, !Hmiss by (done || intros Hc; by apply (Ha _ Hc); left).
  rewrite existsb_app. simpl. by rewrite Hhit, orb_true_r.
Qed.

Lemma fetch_split (rows : list QRow) (id : string) (r : QRow) :
  fetch_row rows id = Some r -> exists a b, rows = a ++ r :: b /\ qr_id r = id.
Proof.
  intros [Hin Hid]%fetch_row_spec. apply list_elem_of_split in Hin as (a & b & ->).
  by exists a, b.
Qed.

Lemma cas_miss (rows : list QRow) (id : string) (froms : list QStatus) (to : QStatus)
    (stamp : QRow -> QRow) (r : QRow) :
  NoDup (row_ids rows) -> fetch_row rows id = Some r -> qr_status r ∉ froms ->
  cas rows id froms to stamp = (false, rows).
Proof.
  intros Hnd Hf Hs.
  assert (Hno : forall x, x ∈ rows -> cas_hits id froms x = false).
  { intros x Hx. unfold cas_hits. destruct (String.eqb_spec (qr_id x) id) as [<-|]; [|done].
    rewrite fetch_row_elem in Hf by done. injection Hf as ->. simpl.
    by rewrite bool_decide_eq_false_2. }
  unfold cas. f_equal.
  - apply not_true_is_false. intros (x & Hx%list_elem_of_In & Hh)%existsb_exists.
    by rewrite Hno in Hh.
  - rewrite <- (list_fmap_id rows) at 2. apply list_fmap_ext. intros i x Hx.
    by rewrite Hno by by eapply list_elem_of_lookup_2.
Qed.

Lemma row_ids_mid (a b : list QRow) (r r' : QRow) :
  qr_id r' = qr_id r -> row_ids (a ++ r' :: b) = row_ids (a ++ r :: b).
Proof. intros H. unfold row_ids. by rewrite !fmap_app, !fmap_cons, H. Qed.

Lemma fetch_mid (a b : list QRow) (r : QRow) :
  NoDup (row_ids (a ++ r :: b)) -> fetch_row (a ++ r :: b) (qr_id r) = Some r.
Proof. intros H. apply fetch_row_elem; [done|]. apply elem_of_app. right. left. Qed.

(** ** Every live row has its blob *)

Lemma status_not_deleted (r : QRow) (froms : list QStatus) :
  qr_status r ∈ froms -> bool_decide (QS_deleted ∈ froms) = false -> qr_status r <> QS_deleted.
Proof. intros Hs Hf Hd. rewrite Hd in Hs. by apply bool_decide_eq_false in Hf. Qed.

Section Invariant.
Context (sha256 : string -> string) (realpath : Fs -> string -> string)
        (qpaths : QuarantinePaths) (store_root : string).

(** Ids are unique, the store is content-addressed, and each row that is not
    deleted has its blob. *)
Record q_ok (s : QState) : Prop := {
  qo_ids : NoDup (row_ids (q_rows s));
  qo_store : forall sha b, q_store s !! sha = Some b -> sha256 (b_bytes b) = sha;
  qo_blobs : forall r, r ∈ q_rows s -> qr_status r <> QS_deleted ->
    is_Some (q_store s !! qr_sha256 r);
}.

Lemma q_ok_fs (s : QState) (fs : Fs) : q_ok s -> q_ok (with_fs s fs).
Proof. intros []. by split. Qed.
Lemma q_ok_note (s : QState) (n : AuditNote) : q_ok s -> q_ok (note s n).
Proof. intros []. by split. Qed.
Lemma q_ok_timeline (s : QState) (c : option string) (k t : string) :
  q_ok s -> q_ok (timeline s c k t).
Proof. intros []. by destruct c; split. Qed.

(** A status change that does not go back on a deletion keeps the invariant. *)
Lemma q_ok_mid (s : QState) (a b : list QRow) (r : QRow) (to : QStatus) (stamp : QRow -> QRow) :
  (forall x, qr_id (stamp x) = qr_id x) -> (forall x, qr_sha256 (stamp x) = qr_sha256 x) ->
  q_ok s -> q_rows s = a ++ r :: b -> (qr_status r <> QS_deleted \/ to = QS_deleted) ->
  q_ok (with_rows s (a ++ set_qstatus to stamp r :: b)).
Proof.
  intros Hi Hsh [Hnd Hst Hb] Hr Hs. split; simpl.
  - rewrite (row_ids_mid a b r); [by rewrite <- Hr|]. simpl. apply Hi.
  - done.
  - intros x Hx Hx'. rewrite Hr in Hb. apply elem_of_app in Hx as [Hx|Hx].
    + apply Hb; [apply elem_of_app; by left | done].
    + apply elem_of_cons in Hx as [->|Hx].
      * simpl in *. rewrite Hsh. destruct Hs as [Hs|Hs]; [|done].
        apply Hb; [|done]. apply elem_of_app. right. left.
      * apply Hb; [|done]. apply elem_of_app. right. by right.
Qed.

Lemma cas_ok (s : QState) (id : string) (froms : list QStatus) (to : QStatus)
    (stamp : QRow -> QRow) :
  (forall x, qr_id (stamp x) = qr_id x) -> (forall x, qr_sha256 (stamp x) = qr_sha256 x) ->
  QS_deleted ∉ froms -> q_ok s ->
  q_ok (with_rows s (cas (q_rows s) id froms to stamp).2).
Proof.
  intros Hi Hsh Hf Hok. assert (Hok' := Hok). destruct Hok' as [Hnd Hst Hb].
  destruct (fetch_row (q_rows s) id) as [r|] eqn:E.
  - destruct (decide (qr_status r ∈ froms)) as [Hin|Hout].
    + destruct (fetch_split _ _ _ E) as (a & b & Hr & <-). rewrite Hr in *.
      rewrite cas_mid by done. simpl. apply q_ok_mid; [done.. |]. left. congruence.
    + rewrite (cas_miss _ _ _ _ _ r) by done. by split.
  - assert (Hno : forall x, x ∈ q_rows s -> cas_hits id froms x = false).
    { intros x Hx%list_elem_of_In. unfold cas_hits.
      by rewrite (List.find_none _ _ E x Hx). }
    unfold cas. simpl. replace (_ <$> q_rows s) with (q_rows s); [by split|].
    rewrite <- (list_fmap_id (q_rows s)) at 1. apply list_fmap_ext. intros i x Hx.
    by rewrite Hno by by eapply list_elem_of_lookup_2.
Qed.

Lemma capture_ok (i : IsolateIn) (s : QState) (ino : Z) (st : FileData) :
  q_ok s -> ii_fresh_id i ∉ row_ids (q_rows s) ->
  q_ok (capture sha256 realpath store_root i s ino st).2.
Proof.
  intros [Hnd Hst Hb] Hfresh. unfold capture, put_stream.
  set (bytes := match q_fs s !! ino with Some (IReg d) => _ | _ => _ end).
  destruct (_ <? _); [by split|].
  set (store := match q_store s !! sha256 bytes with Some _ => _ | None => _ end).
  assert (Hst' : forall sha b, store !! sha = Some b -> sha256 (b_bytes b) = sha).
  { intros sha b. unfold store. destruct (q_store s !! sha256 bytes) eqn:E; [apply Hst|].
    rewrite lookup_insert_Some. intros [[<- <-]|[_ ?]]; [done | by apply Hst]. }
  assert (Hb' : forall sha, is_Some (q_store s !! sha) -> is_Some (store !! sha)).
  { intros sha Hsh. unfold store. destruct (q_store s !! sha256 bytes); [done|].
    rewrite lookup_insert. by case_decide. }
  assert (Hnew : is_Some (store !! sha256 bytes)).
  { unfold store. destruct (q_store s !! sha256 bytes) eqn:E; [by rewrite E|].
    by rewrite lookup_insert_eq. }
  destruct (_ || _); simpl; split; simpl; try done.
  - intros r Hr Hs. by apply Hb', Hb.
  - unfold row_ids. rewrite fmap_app. apply NoDup_app. split_and!; [done| |apply NoDup_singleton].
    intros x Hx [->|Hn]%elem_of_cons; [done | by apply not_elem_of_nil in Hn].
  - intros r [Hr|[->|Hn]%elem_of_cons]%elem_of_app Hs;
      [by apply Hb', Hb | done | by apply not_elem_of_nil in Hn].
Qed.

Lemma unlink_guarded_ok (i : IsolateIn) (race : Fs -> Fs) (s : QState) (dirfd ino : Z) :
  q_ok s -> q_ok (unlink_guarded i race s dirfd ino).2.
Proof.
  intros Hok.
  assert (H : forall fs to, q_ok (with_rows (with_fs s fs)
            (cas (q_rows s) (ii_fresh_id i) [QS_isolating] to id).2)).
  { intros fs to. apply (cas_ok (with_fs s fs)); [done|done| |by apply q_ok_fs]. by apply (bool_decide_unpack _). }
  unfold unlink_guarded. destruct (bool_decide _); [destruct (_ || _)|];
    cbn [q_rows with_fs].
  - specialize (H (race (q_fs s)) QS_failed). by destruct (cas _ _ _ _ _).
  - specialize (H (unlink_at (race (q_fs s)) dirfd (basename (ii_path i))) QS_active).
    by destruct (cas _ _ _ _ _).
  - specialize (H (q_fs s) QS_failed). destruct (cas _ _ _ _ _). by destruct s.
Qed.

Lemma isolate_ok (i : IsolateIn) (env1 env2 race : Fs -> Fs) (s : QState) :
  q_ok s -> ii_fresh_id i ∉ row_ids (q_rows s) ->
  q_ok (isolate sha256 realpath qpaths store_root i env1 env2 race s).2.
Proof.
  intros Hok Hf. unfold isolate, isolate_core.
  destruct (validate_target _ _ _ _); [by apply q_ok_note|].
  destruct (open_parent _ _) as [dirfd|]; [|by apply q_ok_note].
  destruct (open_target _ _ _ _) as [[ino st]|]; [|by apply q_ok_note].
  pose proof (capture_ok i (with_fs s (env1 (q_fs s))) ino st) as Hc.
  destruct (capture _ _ _ _ _ _ _) as [[sha|e] s2]; simpl in *.
  2:{ apply q_ok_note, Hc; [by apply q_ok_fs | done]. }
  specialize (Hc (q_ok_fs _ _ Hok) Hf). apply (q_ok_fs _ (env2 (q_fs s2))) in Hc.
  pose proof (unlink_guarded_ok i race (with_fs s2 (env2 (q_fs s2))) dirfd ino) as Hu.
  destruct (unlink_guarded _ _ _ _ _) as [[u|e] s3]; simpl in *.
  - by apply q_ok_timeline, q_ok_note, Hu.
  - by apply q_ok_note, Hu.
Qed.

Lemma restore_ok (os_write : string -> string) (race : Fs -> Fs) (i : RestoreIn) (s : QState) :
  q_ok s -> q_ok (restore sha256 realpath qpaths os_write race i s).2.
Proof.
  intros Hok. unfold restore, restore_core.
  destruct (fetch_row (q_rows s) (ri_id i)) as [r|] eqn:E; [|by apply q_ok_note].
  destruct (decide (qr_status r ∈ [QS_active])) as [Hs|Hs].
  2:{ rewrite (cas_miss _ _ _ _ _ r); [by apply q_ok_note | apply Hok | done | done]. }
  destruct (fetch_split _ _ _ E) as (a & b & Hr & Hid). rewrite Hr, <- Hid.
  assert (Hnd : NoDup (row_ids (a ++ r :: b))) by (rewrite <- Hr; apply Hok).
  rewrite cas_mid by done. cbn [negb].
  set (r1 := set_qstatus QS_restoring id r).
  assert (Hok1 : q_ok (with_rows s (a ++ r1 :: b))).
  { apply q_ok_mid; try done. left. by apply (status_not_deleted _ _ Hs). }
  destruct (restore_body _ _ _ _ _ _ _ _) as [[u|e] fs].
  - cbn [q_rows with_fs with_rows]. rewrite (cas_mid a b r1); [|by apply Hok1 | left].
    apply q_ok_timeline, q_ok_note.
    apply (q_ok_mid (with_fs (with_rows s (a ++ r1 :: b)) fs) a b r1); try done; [|by left].
    by apply q_ok_fs.
  - cbn [q_rows with_fs with_rows]. rewrite (cas_mid a b r1); [|by apply Hok1 | left].
    apply q_ok_note.
    apply (q_ok_mid (with_fs (with_rows s (a ++ r1 :: b)) fs) a b r1); try done; [|by left].
    by apply q_ok_fs.
Qed.

Lemma held_by_other_false (rows : list QRow) (sha id : string) (r : QRow) :
  held_by_other rows sha id = false -> r ∈ rows -> qr_id r <> id ->
  qr_status r <> QS_deleted -> qr_sha256 r <> sha.
Proof.
  intros Hh Hr Hid Hs Hsha. assert (held_by_other rows sha id = true); [|congruence].
  apply existsb_exists. exists r. split; [by apply list_elem_of_In|].
  rewrite Hsha, String.eqb_refl. apply String.eqb_neq in Hid as ->.
  by rewrite bool_decide_eq_false_2.
Qed.

Lemma delete_ok (id actor : string) (now : Z) (s : QState) :
  q_ok s -> q_ok (delete_quarantined id actor now s).2.
Proof.
  intros Hok. unfold delete_quarantined, delete_core.
  destruct (fetch_row (q_rows s) id) as [r|] eqn:E; [|by apply q_ok_note].
  destruct (decide (qr_status r ∈ [QS_active; QS_restored; QS_failed])) as [Hs|Hs].
  2:{ rewrite (cas_miss _ _ _ _ _ r); [by apply q_ok_note | apply Hok | done | done]. }
  destruct (fetch_split _ _ _ E) as (a & b & Hr & Hid). rewrite Hr, <- Hid.
  assert (Hnd : NoDup (row_ids (a ++ r :: b))) by (rewrite <- Hr; apply Hok).
  rewrite cas_mid by done. cbn [negb].
  set (r1 := set_qstatus QS_deleting Datatypes.id r).
  assert (Hok1 : q_ok (with_rows s (a ++ r1 :: b))).
  { apply q_ok_mid; try done. left. by apply (status_not_deleted _ _ Hs). }
  cbn [q_rows q_store q_case_shas with_rows].
  destruct (negb (bool_decide (qr_sha256 r ∈ q_case_shas s))
            && negb (held_by_other (a ++ r1 :: b) (qr_sha256 r) (qr_id r))) eqn:Hfree; simpl andb.
  - apply andb_prop in Hfree as [_ Hh%negb_true_iff].
    destruct (q_store s !! qr_sha256 r) eqn:Hblob; cbn [q_rows with_store with_rows];
      rewrite (cas_mid a b r1); [|apply Hok1|left| |apply Hok1|left];
      apply q_ok_timeline, q_ok_note.
    + set (s' := with_rows _ _). destruct Hok1 as [Hn1 Hst1 Hb1]. split; simpl in *.
      * by rewrite (row_ids_mid a b r1).
      * intros sha bl [_ ?]%lookup_delete_Some. by apply Hst1.
      * intros x Hx Hx'. rewrite lookup_delete_ne; [apply Hb1; [|done]|].
        -- apply elem_of_app in Hx as [Hx|[->|Hx]%elem_of_cons]; [apply elem_of_app; by left | done |].
           apply elem_of_app. right. by right.
        -- apply not_eq_sym. eapply held_by_other_false; [done| | |done].
           ++ apply elem_of_app in Hx as [Hx|[->|Hx]%elem_of_cons]; [apply elem_of_app; by left | done |].
              apply elem_of_app. right. by right.
           ++ intros Hxid. apply elem_of_app in Hx as [Hx|[->|Hx]%elem_of_cons]; [|done|];
                unfold row_ids in Hnd; rewrite fmap_app, fmap_cons in Hnd;
                apply NoDup_app in Hnd as (_ & Ha & [Hb2 _]%NoDup_cons).
              ** apply (Ha (qr_id x)); [by apply list_elem_of_fmap; exists x | rewrite Hxid; left].
              ** apply Hb2. rewrite <- Hxid. apply list_elem_of_fmap. by exists x.
    + apply q_ok_mid; try done. by right.
  - cbn [q_rows with_rows]. rewrite (cas_mid a b r1); [|apply Hok1|left].
    apply q_ok_timeline, q_ok_note. apply q_ok_mid; try done. by right.
Qed.
End Invariant.

(** The states the daemon can reach from an empty quarantine, whatever other
    processes do to the file system in between and during the operations. *)
Section Reach.
Context (sha256 : string -> string) (realpath : Fs -> string -> string)
        (qpaths : QuarantinePaths) (store_root : string).

Inductive q_reach : QState -> Prop :=
| qr_init fs shas : q_reach (mkQ fs ∅ [] shas [] [])
| qr_env s fs : q_reach s -> q_reach (with_fs s fs)
| qr_isolate s i env1 env2 race :
    q_reach s -> ii_fresh_id i ∉ row_ids (q_rows s) ->
    q_reach (isolate sha256 realpath qpaths store_root i env1 env2 race s).2
| qr_restore s os_write race i :
    q_reach s -> q_reach (restore sha256 realpath qpaths os_write race i s).2
| qr_delete s id actor now : q_reach s -> q_reach (delete_quarantined id actor now s).2.

Lemma q_reach_ok (s : QState) : q_reach s -> q_ok sha256 s.
Proof.
  induction 1; [|by apply q_ok_fs|by apply isolate_ok|by apply restore_ok|by apply delete_ok].
  split; simpl; [constructor | done | by intros r ?%not_elem_of_nil].
Qed.
End Reach.

(** In every reachable state each quarantine row that is not deleted
    still has its blob in the store, and every blob hashes to its name: no
    quarantine operation discards bytes that a live row refers to. *)
Theorem quarantine_blobs_kept (sha256 : string -> string) (realpath : Fs -> string -> string)
    (qpaths : QuarantinePaths) (store_root : string) (s : QState) (r : QRow) :
  q_reach sha256 realpath qpaths store_root s ->
  r ∈ q_rows s -> qr_status r <> QS_deleted ->
  exists b, q_store s !! qr_sha256 r = Some b /\ sha256 (b_bytes b) = qr_sha256 r.
Proof.
  intros [_ Hst Hb]%q_reach_ok Hr Hs. destruct (Hb r Hr Hs) as [b Hbl]. exists b.
  split; [done | by apply Hst].
Qed.

(** ** Isolation *)

(** The row isolation inserts. *)
Definition isolating_row (sha256 : string -> string) (i : IsolateIn) (st : FileData)
    (bytes : string) : QRow :=
  mkQRow (ii_fresh_id i) (sha256 bytes) (ii_path i) (Z.land (f_mode st) 4095) (f_uid st)
    (f_gid st) (Z.of_nat (String.length bytes)) (ii_pkg_owner i) (ii_note i)
    (ii_alert_id i) (ii_case_id i) QS_isolating (ii_now i) None None.

Definition bytes_of (fs : Fs) (ino : Z) : string :=
  match fs !! ino with Some (IReg d) => f_bytes d | _ => EmptyString end.

Lemma capture_spec (sha256 : string -> string) (realpath : Fs -> string -> string)
    (store_root : string) (i : IsolateIn) (s : QState) (ino : Z) (st : FileData) :
  match capture sha256 realpath store_root i s ino st with
  | (Ok sha, s2) =>
      let bytes := bytes_of (q_fs s) ino in
      sha = sha256 bytes /\ q_fs s2 = q_fs s /\
      q_rows s2 = q_rows s ++ [isolating_row sha256 i st bytes] /\
      Z.of_nat (String.length bytes) <= ii_max_bytes i /\
      q_store s2 !! sha = Some (default (mkBlob (ii_fresh_ino i) bytes) (q_store s !! sha))
  | (Err _, s2) => q_fs s2 = q_fs s
  end.
Proof.
  unfold capture, put_stream. fold (bytes_of (q_fs s) ino).
  destruct (Z.ltb_spec (ii_max_bytes i) (Z.of_nat (String.length (bytes_of (q_fs s) ino))));
    [done|].
  destruct (_ || _); [done|]. simpl. split_and!; try done.
  destruct (q_store s !! sha256 (bytes_of (q_fs s) ino)) eqn:E; simpl; [done|].
  by rewrite lookup_insert_eq.
Qed.

Lemma unlink_guarded_spec (i : IsolateIn) (s : QState) (dirfd ino : Z) (rows : list QRow)
    (r : QRow) :
  NoDup (row_ids (rows ++ [r])) -> q_rows s = rows ++ [r] -> qr_id r = ii_fresh_id i ->
  qr_status r = QS_isolating ->
  match unlink_guarded i (fun fs => fs) s dirfd ino with
  | (Ok _, s') =>
      stat_at (q_fs s) dirfd (basename (ii_path i)) = Some ino /\
      q_fs s' = unlink_at (q_fs s) dirfd (basename (ii_path i)) /\
      q_rows s' = rows ++ [set_qstatus QS_active id r] /\ q_store s' = q_store s
  | (Err e, s') =>
      q_fs s' = q_fs s /\ q_rows s' = rows ++ [set_qstatus QS_failed id r] /\
      q_store s' = q_store s
  end.
Proof.
  intros Hnd Hr Hid Hst.
  assert (Hc : forall to, cas (rows ++ [r]) (ii_fresh_id i) [QS_isolating] to id
                          = (true, rows ++ [set_qstatus to id r])).
  { intros to. rewrite <- Hid. apply cas_mid; [done|]. rewrite Hst. left. }
  unfold unlink_guarded. rewrite !Hr. cbn [q_rows with_fs]. rewrite Hr.
  destruct (bool_decide _) eqn:E; [apply bool_decide_eq_true in E; destruct (_ || _)|];
    rewrite Hc; done.
Qed.

Lemma open_target_spec (fs : Fs) (dirfd : Z) (path : string) (err : bool) (ino : Z)
    (st : FileData) :
  open_target fs dirfd path err = Ok (ino, st) ->
  stat_at fs dirfd (basename path) = Some ino /\ fs !! ino = Some (IReg st).
Proof.
  unfold open_target. destruct (stat_at fs dirfd (basename path)) as [n|]; [|done].
  destruct (fs !! n) as [[d|m|l|]|] eqn:E; try done; destruct err; try done.
  intros [= <- <-]. done.
Qed.

(** Isolation removes exactly what it preserved. When it succeeds (and
    nothing intervenes between the final check and the unlink) the entry it
    removed through the held directory still named the inode whose bytes, read
    from the open descriptor, are in the store under their digest, and nothing
    else of the file system was changed; the new row is [active] and records
    the digest, the path and the owner and mode of that inode. When it fails,
    nothing is removed. *)
Theorem isolate_removes_what_it_kept (sha256 : string -> string)
    (realpath : Fs -> string -> string) (qpaths : QuarantinePaths) (store_root : string)
    (i : IsolateIn) (env1 env2 : Fs -> Fs) (s : QState) :
  q_ok sha256 s -> ii_fresh_id i ∉ row_ids (q_rows s) ->
  match isolate sha256 realpath qpaths store_root i env1 env2 (fun fs => fs) s with
  | (Ok res, s') =>
      exists dirfd ino st bytes b r,
        open_parent (q_fs s) (ii_path i) = Ok dirfd /\
        stat_at (q_fs s) dirfd (basename (ii_path i)) = Some ino /\ q_fs s !! ino = Some (IReg st) /\
        quarantine_deny (realpath (q_fs s) (ii_path i)) qpaths = false /\
        bytes = match env1 (q_fs s) !! ino with Some (IReg d) => f_bytes d | _ => EmptyString end /\
        let fs2 := env2 (env1 (q_fs s)) in
        stat_at fs2 dirfd (basename (ii_path i)) = Some ino /\
        q_fs s' = unlink_at fs2 dirfd (basename (ii_path i)) /\
        q_store s' !! sha256 bytes = Some b /\ sha256 (b_bytes b) = sha256 bytes /\
        q_rows s' = q_rows s ++ [r] /\ qr_status r = QS_active /\ qr_sha256 r = sha256 bytes /\
        qr_original_path r = ii_path i /\ qr_mode r = Z.land (f_mode st) 4095 /\
        qr_uid r = f_uid st /\ qr_gid r = f_gid st /\ ir_sha256 res = sha256 bytes
  | (Err _, s') =>
      q_fs s' = q_fs s \/ q_fs s' = env1 (q_fs s) \/ q_fs s' = env2 (env1 (q_fs s))
  end.
Proof.
  intros Hok Hfresh. unfold isolate, isolate_core.
  destruct (validate_target _ _ _ _) eqn:Hval; [by left|].
  destruct (open_parent _ _) as [dirfd|] eqn:Hpar; [|by left].
  destruct (open_target _ _ _ _) as [[ino st]|] eqn:Htgt; [|by left].
  pose proof (capture_spec sha256 realpath store_root i (with_fs s (env1 (q_fs s))) ino st) as Hc.
  pose proof (capture_ok sha256 realpath store_root i (with_fs s (env1 (q_fs s))) ino st
                (q_ok_fs _ _ _ Hok) Hfresh) as Hok2.
  destruct (capture _ _ _ _ _ _ _) as [[sha|e] s2]; [|right; left; exact Hc].
  simpl in Hok2. destruct Hc as (-> & Hfs & Hrows & _ & Hblob).
  pose proof (unlink_guarded_spec i (with_fs s2 (env2 (q_fs s2))) dirfd ino (q_rows s)
    (isolating_row sha256 i st (bytes_of (env1 (q_fs s)) ino))) as Hu.
  destruct (unlink_guarded _ _ _ _ _) as [[u|e] s3]; simpl in Hu, Hfs, Hrows, Hblob;
    rewrite Hfs, Hrows in Hu.
  - destruct Hu as (Hstat & Hfs3 & Hrows3 & Hst3); [rewrite <- Hrows; apply Hok2|done..|].
    destruct (open_target_spec _ _ _ _ _ _ Htgt) as [Hs0 Hi0].
    eexists dirfd, ino, st, _, _,
      (set_qstatus QS_active id (isolating_row sha256 i st (bytes_of (env1 (q_fs s)) ino))).
    split_and!; try done.
    + unfold validate_target in Hval. destruct (_ || _); [done|].
      destruct (String.eqb _ _); [done|]. by destruct (quarantine_deny _ _).
    + destruct (ii_case_id i); exact Hfs3.
    + destruct (ii_case_id i); simpl; rewrite Hst3; exact Hblob.
    + by apply (qo_store _ _ Hok2 _ _ Hblob).
    + destruct (ii_case_id i); exact Hrows3.
  - destruct Hu as (Hfs3 & _); [rewrite <- Hrows; apply Hok2|done..|]. right; right. exact Hfs3.
Qed.

(** ** Restoring *)

Lemma stat_at_link (fs : Fs) (d ino : Z) (name : string) (d' : Z) (n' : string) (x : Z) :
  stat_at fs d name = None -> stat_at fs d' n' = Some x ->
  stat_at (link_at fs d name ino) d' n' = Some x.
Proof.
  unfold stat_at, link_at. intros Hn Hx. unfold entries_of in *.
  destruct (fs !! d) as [[| m | |]|] eqn:E; try done. simpl in Hn.
  destruct (decide (d' = d)) as [->|Hd].
  - rewrite lookup_insert_eq. rewrite E in Hx. simpl in *.
    rewrite lookup_insert_ne; [done|]. intros ->. congruence.
  - by rewrite lookup_insert_ne.
Qed.

Lemma set_status_back (r : QRow) :
  qr_status r = QS_active -> set_qstatus QS_active id (set_qstatus QS_restoring id r) = r.
Proof. intros H. destruct r. simpl in *. by subst. Qed.

Section Restore.
Context (sha256 : string -> string) (realpath : Fs -> string -> string)
        (qpaths : QuarantinePaths).

(** The file a restoration writes. *)
Definition restored_file (os_write : string -> string) (s : QState) (r : QRow) : FileData :=
  mkFile (os_write (match q_store s !! qr_sha256 r with Some b => b_bytes b | None => EmptyString end))
    (qr_mode r) (qr_uid r) (qr_gid r).

Lemma restore_body_spec (os_write : string -> string) (race : Fs -> Fs) (i : RestoreIn)
    (s : QState) (r : QRow) :
  let fs1 := race (<[ri_fresh_ino i := IReg (restored_file os_write s r)]> (q_fs s)) in
  match restore_body sha256 realpath qpaths os_write race i s r with
  | (Ok _, fs') =>
      exists dirfd, open_parent_dirfd (q_fs s) (qr_original_path r) = Ok dirfd /\
        quarantine_deny (realpath (q_fs s) (qr_original_path r)) qpaths = false /\
        verify_blob sha256 s (qr_sha256 r) = None /\
        stat_at fs1 dirfd (basename (qr_original_path r)) = None /\
        fs' = link_at fs1 dirfd (basename (qr_original_path r)) (ri_fresh_ino i)
  | (Err _, fs') => fs' = q_fs s \/ fs' = delete (ri_fresh_ino i) fs1
  end.
Proof.
  intros fs1. unfold restore_body, restore_write. destruct (verify_blob sha256 s (qr_sha256 r)); [by left|].
  destruct (quarantine_deny _ _) eqn:Hd; [by left|]. unfold open_parent_for_restore.
  destruct (open_parent_dirfd _ _) as [dirfd|[]] eqn:Hp; try by left.
  unfold write_and_commit. destruct (ri_io_error i); [by left|].
  fold (restored_file os_write s r). fold fs1.
  destruct (stat_at fs1 dirfd _) eqn:Hs; [by right|]. exists dirfd. done.
Qed.

(** What [restore_core] does to the rows, around [restore_body]. *)
Lemma restore_core_spec (os_write : string -> string) (race : Fs -> Fs) (i : RestoreIn)
    (s : QState) (r : QRow) (a b : list QRow) :
  NoDup (row_ids (q_rows s)) -> q_rows s = a ++ r :: b -> qr_id r = ri_id i ->
  qr_status r = QS_active ->
  let '(res, fs') := restore_body sha256 realpath qpaths os_write race i
                       (with_rows s (a ++ set_qstatus QS_restoring id r :: b)) r in
  restore_core sha256 realpath qpaths os_write race i s =
  match res with
  | Ok _ => (Ok (mkRestored (ri_id i) (qr_original_path r) (qr_sha256 r)
                   (negb (Z.land (qr_mode r) 3072 =? 0)), qr_case_id r),
             with_rows (with_fs s fs') (a ++ set_qstatus QS_restored (stamp_restored (ri_now i))
                                              (set_qstatus QS_restoring id r) :: b))
  | Err e => (Err e, with_fs s fs')
  end.
Proof.
  intros Hnd Hr Hid Hst. unfold restore_core. rewrite Hr in *.
  set (r1 := set_qstatus QS_restoring id r).
  assert (Hf : fetch_row (a ++ r :: b) (ri_id i) = Some r) by (rewrite <- Hid; by apply fetch_mid).
  rewrite Hf, <- Hid, cas_mid by (done || rewrite Hst; left). cbn [negb]. rewrite Hid.
  destruct (restore_body _ _ _ _ _ _ _ _) as [[u|e] fs']; cbn [q_rows with_fs with_rows];
    change (ri_id i) with (ri_id i); rewrite <- Hid;
    change (qr_id r) with (qr_id r1); rewrite (cas_mid a b r1);
    try (by rewrite (row_ids_mid a b r)); try (left; done); [done|].
  unfold r1. rewrite set_status_back by done. rewrite <- Hr. by destruct s.
Qed.
End Restore.

(** Restoring never replaces anything and never gives up the blob. On
    success the original path was free at the commit, it now names a new file
    with the blob's bytes and the recorded mode and owner, every directory
    entry that existed then is unchanged, and the row is [restored]. On any
    failure the row is [active] as before and no directory entry has been
    added. *)
Theorem restore_never_clobbers (sha256 : string -> string) (realpath : Fs -> string -> string)
    (qpaths : QuarantinePaths) (os_write : string -> string) (race : Fs -> Fs) (i : RestoreIn)
    (s : QState) :
  q_ok sha256 s ->
  let '(res, s') := restore sha256 realpath qpaths os_write race i s in
  q_store s' = q_store s /\
  match res with
  | Ok out =>
      exists a r b dirfd, q_rows s = a ++ r :: b /\ qr_id r = ri_id i /\ qr_status r = QS_active /\
        let fs1 := race (<[ri_fresh_ino i := IReg (restored_file os_write s r)]> (q_fs s)) in
        let name := basename (qr_original_path r) in
        stat_at fs1 dirfd name = None /\ q_fs s' = link_at fs1 dirfd name (ri_fresh_ino i) /\
        (forall d n x, stat_at fs1 d n = Some x -> stat_at (q_fs s') d n = Some x) /\
        (exists r', q_rows s' = a ++ r' :: b /\ qr_status r' = QS_restored)
  | Err e =>
      q_rows s' = q_rows s /\
      (q_fs s' = q_fs s \/ exists r, r ∈ q_rows s /\
        q_fs s' = delete (ri_fresh_ino i)
                    (race (<[ri_fresh_ino i := IReg (restored_file os_write s r)]> (q_fs s))))
  end.
Proof.
  intros [Hnd Hst Hb]. unfold restore.
  destruct (fetch_row (q_rows s) (ri_id i)) as [r|] eqn:E.
  2:{ unfold restore_core. rewrite E. simpl. auto. }
  destruct (decide (qr_status r = QS_active)) as [Hs|Hs].
  2:{ unfold restore_core. rewrite E, (cas_miss _ _ _ _ _ r); [simpl; auto | done | done|].
      intros [?|Hn]%elem_of_cons; [done | by apply not_elem_of_nil in Hn]. }
  destruct (fetch_split _ _ _ E) as (a & b & Hr & Hid).
  pose proof (restore_core_spec sha256 realpath qpaths os_write race i s r a b Hnd Hr Hid Hs) as Hc.
  pose proof (restore_body_spec sha256 realpath qpaths os_write race i
    (with_rows s (a ++ set_qstatus QS_restoring id r :: b)) r) as Hbody.
  destruct (restore_body _ _ _ _ _ _ _ _) as [[u|e] fs']; rewrite Hc; cbv zeta in Hbody;
    cbn [q_fs q_store with_rows restored_file] in Hbody.
  - destruct Hbody as (dirfd & _ & _ & _ & Hfree & ->). cbn [rs_original_path].
    destruct (qr_case_id r); simpl; (split; [done|]); exists a, r, b, dirfd;
      (split_and!; [done..|by eexists|]) || (split_and!; [done|done|done|exact Hfree|done| |by eexists]);
      intros d n x Hx; by apply stat_at_link.
  - simpl. split; [done|]. split; [done|]. destruct Hbody as [->| ->]; [by left|]. right.
    exists r. split; [|done]. rewrite Hr. apply elem_of_app. right. left.
Qed.

(** ** Isolating and restoring *)

Lemma open_components_unlink (fs : Fs) (dir : Z) (name : string) (ino : Z) (st : FileData) :
  stat_at fs dir name = Some ino -> fs !! ino = Some (IReg st) ->
  forall cs d d', open_components fs d cs = Ok d' ->
             open_components (unlink_at fs dir name) d cs = Ok d'.
Proof.
  intros Hs Hi. induction cs as [|c cs IH]; simpl; [done|]. intros d d' Ho.
  assert (Hc : forall d1, open_component fs d c = Ok d1 ->
                     open_component (unlink_at fs dir name) d c = Ok d1).
  { intros d1. unfold open_component. destruct (String.eqb c "."); [done|].
    destruct (stat_at fs d c) as [n|] eqn:En; [|done].
    destruct (fs !! n) as [[| m | |]|] eqn:Ei; try done. intros [= ->].
    assert (Hst : stat_at (unlink_at fs dir name) d c = Some d1).
    { unfold unlink_at, stat_at in *. unfold entries_of in *.
      destruct (fs !! dir) as [[| mm | |]|] eqn:Ed; try done.
      destruct (decide (d = dir)) as [->|]; [|by rewrite lookup_insert_ne].
      rewrite lookup_insert_eq. rewrite Ed in En. simpl in *.
      rewrite lookup_delete_ne; [done|]. intros ->. congruence. }
    rewrite Hst. unfold unlink_at. destruct (entries_of fs dir) as [mm|] eqn:Ed; [|by rewrite Ei].
    destruct (decide (d1 = dir)) as [->|]; [by rewrite lookup_insert_eq|].
    by rewrite lookup_insert_ne, Ei. }
  destruct (open_component fs d c) as [d1|e] eqn:E1; [|done]. rewrite (Hc _ eq_refl). by apply IH.
Qed.

Lemma stat_at_unlinked (fs : Fs) (dir : Z) (name : string) :
  stat_at (unlink_at fs dir name) dir name = None.
Proof.
  unfold stat_at, unlink_at. destruct (entries_of fs dir) eqn:E; [|by rewrite E].
  unfold entries_of. rewrite lookup_insert_eq. simpl. apply lookup_delete_eq.
Qed.

Lemma stat_at_fresh (fs : Fs) (ino : Z) (d : FileData) (dir : Z) (name : string) :
  stat_at fs dir name = None -> stat_at (<[ino := IReg d]> fs) dir name = None.
Proof.
  unfold stat_at, entries_of. intros H. destruct (decide (dir = ino)) as [->|].
  - by rewrite lookup_insert_eq.
  - by rewrite lookup_insert_ne.
Qed.

(** What a quiet isolation leaves behind, for the restoration that follows. *)
Lemma isolate_quiet (sha256 : string -> string) (realpath : Fs -> string -> string)
    (qpaths : QuarantinePaths) (store_root : string) (i : IsolateIn) (s s' : QState)
    (res : IsolateResult) :
  q_ok sha256 s -> ii_fresh_id i ∉ row_ids (q_rows s) ->
  isolate sha256 realpath qpaths store_root i Datatypes.id Datatypes.id Datatypes.id s = (Ok res, s') ->
  exists dirfd ino st b,
    open_parent_dirfd (q_fs s) (ii_path i) = Ok dirfd /\
    stat_at (q_fs s) dirfd (basename (ii_path i)) = Some ino /\ q_fs s !! ino = Some (IReg st) /\
    q_fs s' = unlink_at (q_fs s) dirfd (basename (ii_path i)) /\
    q_store s' !! sha256 (f_bytes st) = Some b /\ sha256 (b_bytes b) = sha256 (f_bytes st) /\
    q_rows s' = q_rows s ++ [set_qstatus QS_active id (isolating_row sha256 i st (f_bytes st))].
Proof.
  intros Hok Hfresh. unfold isolate, isolate_core.
  destruct (validate_target _ _ _ _) eqn:Hval; [done|].
  destruct (open_parent _ _) as [dirfd|] eqn:Hpar; [|done].
  destruct (open_target _ _ _ _) as [[ino st]|] eqn:Htgt; [|done].
  apply open_target_spec in Htgt as [Hs0 Hi0]. cbv zeta.
  pose proof (capture_spec sha256 realpath store_root i (with_fs s (q_fs s)) ino st) as Hc.
  pose proof (capture_ok sha256 realpath store_root i (with_fs s (q_fs s)) ino st
                (q_ok_fs _ _ _ Hok) Hfresh) as Hok2. change (Datatypes.id (q_fs s)) with (q_fs s).
  destruct (capture _ _ _ _ _ _ _) as [[sha|e] s2]; [|done].
  simpl in Hok2. cbv zeta in Hc. destruct Hc as (-> & Hfs & Hrows & _ & Hblob).
  assert (Hby : bytes_of (q_fs (with_fs s (q_fs s))) ino = f_bytes st)
    by (unfold bytes_of; cbn; by rewrite Hi0).
  rewrite Hby in *. change (Datatypes.id (q_fs s2)) with (q_fs s2).
  pose proof (unlink_guarded_spec i (with_fs s2 (q_fs s2)) dirfd ino (q_rows s)
    (isolating_row sha256 i st (f_bytes st))) as Hu. unfold Datatypes.id.
  destruct (unlink_guarded _ _ _ _ _) as [[u|e] s3]; [|done]. intros [= _ <-].
  simpl in Hu, Hfs, Hrows. rewrite Hrows in Hu.
  destruct Hu as (Hstat & Hfs3 & Hrows3 & Hst3); [rewrite <- Hrows; apply Hok2|done..|].
  rewrite <- Hst3 in Hblob. rewrite Hfs in Hfs3.
  eexists dirfd, ino, st, _. split_and!; [|done|done| | | |].
  - unfold open_parent in Hpar. by destruct (open_parent_dirfd _ _) as [?|[]]; simplify_eq.
  - by destruct (ii_case_id i).
  - destruct (ii_case_id i); exact Hblob.
  - rewrite Hst3 in Hblob. by apply (qo_store _ _ Hok2 _ _ Hblob).
  - by destruct (ii_case_id i).
Qed.

Lemma link_new (fs : Fs) (ino dir : Z) (name : string) (d : FileData) :
  fs !! ino = None -> entries_of fs dir <> None ->
  let fs' := link_at (<[ino := IReg d]> fs) dir name ino in
  stat_at fs' dir name = Some ino /\ fs' !! ino = Some (IReg d).
Proof.
  intros Hn He. destruct (entries_of fs dir) as [m|] eqn:E; [|done].
  assert (Hd : dir <> ino) by (intros ->; unfold entries_of in E; by rewrite Hn in E).
  assert (E' : entries_of (<[ino := IReg d]> fs) dir = Some m)
    by (unfold entries_of in *; by rewrite lookup_insert_ne).
  unfold link_at. rewrite E'. unfold stat_at, entries_of. rewrite lookup_insert_eq. simpl.
  split; [apply lookup_insert_eq|]. rewrite lookup_insert_ne by done. apply lookup_insert_eq.
Qed.

(** A restoration that meets a free name, an intact blob and an open parent
    succeeds. *)
Lemma restore_body_succeeds (sha256 : string -> string) (realpath : Fs -> string -> string)
    (qpaths : QuarantinePaths) (os_write : string -> string) (i : RestoreIn) (s : QState)
    (r : QRow) (dirfd : Z) (b : Blob) :
  q_store s !! qr_sha256 r = Some b -> sha256 (b_bytes b) = qr_sha256 r ->
  quarantine_deny (realpath (q_fs s) (qr_original_path r)) qpaths = false ->
  open_parent_dirfd (q_fs s) (qr_original_path r) = Ok dirfd -> ri_io_error i = false ->
  stat_at (q_fs s) dirfd (basename (qr_original_path r)) = None ->
  restore_body sha256 realpath qpaths os_write Datatypes.id i s r =
  (Ok tt, link_at (<[ri_fresh_ino i := IReg (mkFile (os_write (b_bytes b)) (qr_mode r) (qr_uid r) (qr_gid r))]>
                     (q_fs s)) dirfd (basename (qr_original_path r)) (ri_fresh_ino i)).
Proof.
  intros Hb Hsha Hdeny Hpar Hio Hfree. unfold restore_body, restore_write, verify_blob.
  rewrite Hb, Hsha, String.eqb_refl, Hdeny. unfold open_parent_for_restore. rewrite Hpar.
  unfold write_and_commit. rewrite Hio. unfold Datatypes.id at 1 2.
  by rewrite stat_at_fresh.
Qed.


(** ** A concrete host *)

Module QExample.
Definition sha (s : string) : string := ("h:" +:+ s)%string.
Definition rp (_ : Fs) (p : string) : string := p.
Definition qpaths : QuarantinePaths := mkQPaths "/var/lib/inspectord" "/run/inspectord" None.
Definition sroot : string := "/var/lib/inspectord/forensics".
Definition fs0 : Fs :=
  {[ 2 := IDir {[ "home"%string := 3 ]}; 3 := IDir {[ "evil"%string := 4 ]};
     4 := IReg (mkFile "payload" 2541 1000 1000) ]}.
Definition s0 : QState := mkQ fs0 ∅ [] [] [] [].
Definition iin : IsolateIn :=
  mkIsolateIn "/home/evil" (Some "a1"%string) (Some "c1"%string) None "uid:1000:pid:42" None 1024 false "q1" 50 7 false [].
Definition s1 : QState :=
  (isolate sha rp qpaths sroot iin Datatypes.id Datatypes.id Datatypes.id s0).2.
Definition rin : RestoreIn := mkRestoreIn "q1" "uid:1000:pid:42" false 60 9.
Definition row1 : QRow :=
  mkQRow "q1" "h:payload" "/home/evil" 2541 1000 1000 7 None None (Some "a1"%string)
    (Some "c1"%string) QS_active 7 None None.

Lemma s0_reach : q_reach sha rp qpaths sroot s0.
Proof. apply qr_init. Qed.
Lemma iin_fresh : ii_fresh_id iin ∉ row_ids (q_rows s0).
Proof. apply not_elem_of_nil. Qed.
Lemma s1_reach : q_reach sha rp qpaths sroot s1.
Proof. apply qr_isolate; [exact s0_reach | exact iin_fresh]. Qed.
Lemma s1_iso : isolate sha rp qpaths sroot iin Datatypes.id Datatypes.id Datatypes.id s0 =
               (Ok (mkIsolated "q1" "h:payload" None [] []), s1).
Proof. vm_compute. reflexivity. Qed.
End QExample.

Lemma quarantine_blobs_kept_witness :
  exists b, q_store QExample.s1 !! qr_sha256 QExample.row1 = Some b /\
            QExample.sha (b_bytes b) = qr_sha256 QExample.row1.
Proof.
  apply (quarantine_blobs_kept QExample.sha QExample.rp QExample.qpaths QExample.sroot
           QExample.s1 QExample.row1).
  - exact QExample.s1_reach.
  - vm_compute. left.
  - discriminate.
Defined.

Lemma isolate_removes_what_it_kept_witness :
  match isolate QExample.sha QExample.rp QExample.qpaths QExample.sroot QExample.iin
          Datatypes.id Datatypes.id (fun fs => fs) QExample.s0 with
  | (Ok res, s') => exists b, q_store s' !! ir_sha256 res = Some b
  | _ => False
  end.
Proof.
  pose proof (isolate_removes_what_it_kept QExample.sha QExample.rp QExample.qpaths QExample.sroot
    QExample.iin Datatypes.id Datatypes.id QExample.s0
    (q_reach_ok _ _ _ _ _ QExample.s0_reach) QExample.iin_fresh) as H.
  destruct (isolate _ _ _ _ _ _ _ _ _) as [[res|e] s'] eqn:E.
  - destruct H as (d & ino & st & bytes & b & r & _ & _ & _ & _ & _ & _ & _ & Hb & _ & _ & _ & _
                   & _ & _ & _ & _ & ->). exists b. exact Hb.
  - vm_compute in E. discriminate.
Defined.

Lemma restore_never_clobbers_witness :
  q_store (restore QExample.sha QExample.rp QExample.qpaths Datatypes.id Datatypes.id QExample.rin
             QExample.s1).2 = q_store QExample.s1.
Proof.
  pose proof (restore_never_clobbers QExample.sha QExample.rp QExample.qpaths Datatypes.id
    Datatypes.id QExample.rin QExample.s1 (q_reach_ok _ _ _ _ _ QExample.s1_reach)) as H.
  destruct (restore _ _ _ _ _ _ _) as [res s']. exact (proj1 H).
Defined.


(** A short write is not noticed: when the operating system writes only a
    part of a chunk, the restoration still reports success and marks the row
    [restored], and the file at the original path holds less than the blob
    that was verified. *)
Theorem short_write_restores_truncated :
  let short := fun bytes : string => String.substring 0 3 bytes in
  let '(res, s2) := restore QExample.sha QExample.rp QExample.qpaths short Datatypes.id
                      QExample.rin QExample.s1 in
  res = Ok (mkRestored "q1" "/home/evil" "h:payload" true) /\
  (qr_status <$> q_rows s2) = [QS_restored] /\
  q_fs s2 !! 60 = Some (IReg (mkFile "pay" 2541 1000 1000)) /\
  QExample.sha "pay" <> "h:payload"%string.
Proof. vm_compute. split_and!; [reflexivity..|discriminate]. Qed.
