(* ===== verification/QuarantineConc.v ===== *)
(** * Concurrent quarantine operations

    IPC requests run on their own threads, so restorations, deletions and
    isolations of [quarantine/ops.py] interleave. Here each of them is a small
    program whose atomic steps are the database statements ([_fetch_row], each
    [_cas]), the blob check, the write-and-link, and the two blocks that hold
    the capture lock ([_capture], and the reference check with the blob removal
    of [_delete]). The steps reuse the operations' own definitions. The
    invariant says that a row in [restoring] or [deleting] has at most one
    thread working on it, and that the blob a restoration verified stays in the
    store until it is done. *)

From S2P Require Import Prelude Schemas Quarantine QuarantineProofs.

Section Conc.
Context (sha256 : string -> string) (realpath : Fs -> string -> string)
        (qpaths : QuarantinePaths) (store_root : string).

(** Where a thread stands inside [_restore], [_delete] or [_isolate]. *)
Inductive Op :=
| RFetched (r : QRow)            (** row read, before the first CAS *)
| RHeld (r : QRow)               (** [active -> restoring] won *)
| RVerified (r : QRow)           (** blob verified *)
| RDone (r : QRow) (ok : bool)   (** written and linked, or failed *)
| DFetched (r : QRow)
| DHeld (r : QRow)               (** [-> deleting] won *)
| DRemoved (r : QRow)            (** lock released, before the last CAS *)
| IOpened (i : IsolateIn) (dirfd ino : Z) (st : FileData)
| ICaptured (i : IsolateIn) (dirfd ino : Z).

Record Conf := mkConf { c_q : QState; c_ops : gmap nat Op }.

Definition set_op (c : Conf) (s : QState) (t : nat) (o : Op) : Conf := mkConf s (<[t := o]> (c_ops c)).
Definition end_op (c : Conf) (s : QState) (t : nat) : Conf := mkConf s (delete t (c_ops c)).

(** The block of [_delete] under the lock. *)
Definition remove_blob (s : QState) (r : QRow) : QState :=
  let sha := qr_sha256 r in
  if negb (bool_decide (sha ∈ q_case_shas s)) && negb (held_by_other (q_rows s) sha (qr_id r))
  then with_store s (delete sha (q_store s)) else s.

Inductive cstep : Conf -> Conf -> Prop :=
| cs_env c fs shas :
    cstep c (mkConf (mkQ fs (q_store (c_q c)) (q_rows (c_q c)) shas (q_audit (c_q c))
                       (q_timeline (c_q c))) (c_ops c))
| cs_restore_fetch c t id r :
    c_ops c !! t = None -> fetch_row (q_rows (c_q c)) id = Some r ->
    cstep c (set_op c (c_q c) t (RFetched r))
| cs_restore_win c t r rows :
    c_ops c !! t = Some (RFetched r) ->
    cas (q_rows (c_q c)) (qr_id r) [QS_active] QS_restoring id = (true, rows) ->
    cstep c (set_op c (with_rows (c_q c) rows) t (RHeld r))
| cs_restore_lose c t r rows :
    c_ops c !! t = Some (RFetched r) ->
    cas (q_rows (c_q c)) (qr_id r) [QS_active] QS_restoring id = (false, rows) ->
    cstep c (end_op c (c_q c) t)
| cs_restore_verified c t r :
    c_ops c !! t = Some (RHeld r) -> verify_blob sha256 (c_q c) (qr_sha256 r) = None ->
    cstep c (set_op c (c_q c) t (RVerified r))
| cs_restore_refused c t r e :
    c_ops c !! t = Some (RHeld r) -> verify_blob sha256 (c_q c) (qr_sha256 r) = Some e ->
    cstep c (set_op c (c_q c) t (RDone r false))
| cs_restore_write c t r os_write race i res fs :
    c_ops c !! t = Some (RVerified r) ->
    restore_write realpath qpaths os_write race i (c_q c) r = (res, fs) ->
    cstep c (set_op c (with_fs (c_q c) fs) t
               (RDone r (match res with Ok _ => true | Err _ => false end)))
| cs_restore_back c t r won rows :
    c_ops c !! t = Some (RDone r false) ->
    cas (q_rows (c_q c)) (qr_id r) [QS_restoring] QS_active id = (won, rows) ->
    cstep c (end_op c (with_rows (c_q c) rows) t)
| cs_restore_commit c t r now won rows :
    c_ops c !! t = Some (RDone r true) ->
    cas (q_rows (c_q c)) (qr_id r) [QS_restoring] QS_restored (stamp_restored now) = (won, rows) ->
    cstep c (end_op c (with_rows (c_q c) rows) t)
| cs_delete_fetch c t id r :
    c_ops c !! t = None -> fetch_row (q_rows (c_q c)) id = Some r ->
    cstep c (set_op c (c_q c) t (DFetched r))
| cs_delete_win c t r rows :
    c_ops c !! t = Some (DFetched r) ->
    cas (q_rows (c_q c)) (qr_id r) [QS_active; QS_restored; QS_failed] QS_deleting id = (true, rows) ->
    cstep c (set_op c (with_rows (c_q c) rows) t (DHeld r))
| cs_delete_lose c t r rows :
    c_ops c !! t = Some (DFetched r) ->
    cas (q_rows (c_q c)) (qr_id r) [QS_active; QS_restored; QS_failed] QS_deleting id = (false, rows) ->
    cstep c (end_op c (c_q c) t)
| cs_delete_blob c t r :
    c_ops c !! t = Some (DHeld r) ->
    cstep c (set_op c (remove_blob (c_q c) r) t (DRemoved r))
| cs_delete_commit c t r now won rows :
    c_ops c !! t = Some (DRemoved r) ->
    cas (q_rows (c_q c)) (qr_id r) [QS_deleting] QS_deleted (stamp_deleted now) = (won, rows) ->
    cstep c (end_op c (with_rows (c_q c) rows) t)
| cs_isolate_open c t i dirfd ino st :
    c_ops c !! t = None -> validate_target realpath qpaths (q_fs (c_q c)) (ii_path i) = None ->
    open_parent (q_fs (c_q c)) (ii_path i) = Ok dirfd ->
    open_target (q_fs (c_q c)) dirfd (ii_path i) (ii_open_error i) = Ok (ino, st) ->
    cstep c (set_op c (c_q c) t (IOpened i dirfd ino st))
| cs_isolate_capture c t i dirfd ino st sha s' :
    c_ops c !! t = Some (IOpened i dirfd ino st) ->
    ii_fresh_id i ∉ row_ids (q_rows (c_q c)) ->
    capture sha256 realpath store_root i (c_q c) ino st = (Ok sha, s') ->
    cstep c (set_op c s' t (ICaptured i dirfd ino))
| cs_isolate_refused c t i dirfd ino st e s' :
    c_ops c !! t = Some (IOpened i dirfd ino st) ->
    ii_fresh_id i ∉ row_ids (q_rows (c_q c)) ->
    capture sha256 realpath store_root i (c_q c) ino st = (Err e, s') ->
    cstep c (end_op c s' t)
| cs_isolate_unlink c t i dirfd ino race res s' :
    c_ops c !! t = Some (ICaptured i dirfd ino) ->
    unlink_guarded i race (c_q c) dirfd ino = (res, s') ->
    cstep c (end_op c s' t).

Inductive creach : Conf -> Prop :=
| cr_init fs shas : creach (mkConf (mkQ fs ∅ [] shas [] []) ∅)
| cr_step c c' : creach c -> cstep c c' -> creach c'.

(** ** The invariant *)

Definition op_row (o : Op) : option QRow :=
  match o with
  | RFetched r | RHeld r | RVerified r | RDone r _ | DFetched r | DHeld r | DRemoved r => Some r
  | IOpened _ _ _ _ | ICaptured _ _ _ => None
  end.
(** The status the thread has put its row in. *)
Definition op_holds (o : Op) : option QStatus :=
  match o with
  | RHeld _ | RVerified _ | RDone _ _ => Some QS_restoring
  | DHeld _ | DRemoved _ => Some QS_deleting
  | _ => None
  end.

Definition op_ok (rows : list QRow) (o : Op) : Prop :=
  forall r, op_row o = Some r ->
  exists r', r' ∈ rows /\ qr_id r' = qr_id r /\ qr_sha256 r' = qr_sha256 r /\
        forall st, op_holds o = Some st -> qr_status r' = st.

Definition blobs_ok (s : QState) : Prop :=
  forall r, r ∈ q_rows s -> qr_status r ∉ [QS_deleting; QS_deleted] ->
  is_Some (q_store s !! qr_sha256 r).

Definition exclusive (ops : gmap nat Op) : Prop :=
  forall t1 t2 o1 o2 r1 r2,
    ops !! t1 = Some o1 -> ops !! t2 = Some o2 -> op_row o1 = Some r1 -> op_row o2 = Some r2 ->
    op_holds o1 <> None -> op_holds o2 <> None -> qr_id r1 = qr_id r2 -> t1 = t2.

Record cinv (c : Conf) : Prop := {
  ci_ids : NoDup (row_ids (q_rows (c_q c)));
  ci_store : forall sha b, q_store (c_q c) !! sha = Some b -> sha256 (b_bytes b) = sha;
  ci_blobs : blobs_ok (c_q c);
  ci_ops : forall t o, c_ops c !! t = Some o -> op_ok (q_rows (c_q c)) o;
  ci_excl : exclusive (c_ops c);
}.

(** Rows with one id are one row. *)
Lemma same_row (rows : list QRow) (r r' : QRow) :
  NoDup (row_ids rows) -> r ∈ rows -> r' ∈ rows -> qr_id r = qr_id r' -> r = r'.
Proof.
  intros Hnd H1 H2 He. apply (fetch_row_elem _ _ Hnd) in H1, H2. congruence.
Qed.

(** What a [stamp] may not touch. *)
Definition keeps (stamp : QRow -> QRow) : Prop :=
  forall r, qr_id (stamp r) = qr_id r /\ qr_sha256 (stamp r) = qr_sha256 r.

Lemma cas_ids (rows : list QRow) (id : string) froms to stamp :
  keeps stamp -> row_ids (cas rows id froms to stamp).2 = row_ids rows.
Proof.
  intros Hk. unfold row_ids, cas. simpl. rewrite <- list_fmap_compose. apply list_fmap_ext.
  intros _ r _. simpl. destruct (cas_hits id froms r); simpl; [|done]. by destruct (Hk r).
Qed.

Lemma cas_rows_ok (rows : list QRow) (id : string) froms to stamp o :
  keeps stamp ->
  (forall r st, op_row o = Some r -> op_holds o = Some st -> st ∈ froms -> qr_id r <> id) ->
  op_ok rows o -> op_ok (cas rows id froms to stamp).2 o.
Proof.
  intros Hk Hne Hok r Hr. destruct (Hok r Hr) as (r' & Hin & Hid & Hsha & Hst).
  destruct (Hk r') as [Hk1 Hk2].
  exists (if cas_hits id froms r' then set_qstatus to stamp r' else r'). split.
  { unfold cas. simpl. apply list_elem_of_fmap. by exists r'. }
  destruct (cas_hits id froms r') eqn:E; [|done]. simpl. rewrite Hk1, Hk2.
  split_and!; [done|done|]. intros st Ho. exfalso.
  apply andb_true_iff in E as [E1%String.eqb_eq E2%bool_decide_eq_true].
  rewrite (Hst st Ho) in E2. apply (Hne r st Hr Ho E2). congruence.
Qed.

Lemma cas_blobs_ok (s : QState) (id : string) froms to stamp :
  keeps stamp ->
  (to ∈ [QS_deleting; QS_deleted] \/ forall st, st ∈ froms -> st ∉ [QS_deleting; QS_deleted]) ->
  blobs_ok s -> blobs_ok (with_rows s (cas (q_rows s) id froms to stamp).2).
Proof.
  intros Hk Hto Hb r. unfold cas. simpl. intros (r' & -> & Hin)%list_elem_of_fmap.
  destruct (cas_hits id froms r') eqn:E; [|by apply Hb]. simpl. intros Hst.
  destruct (Hk r') as [_ ->]. destruct Hto as [|Hto]; [done|]. apply Hb; [done|].
  apply andb_true_iff in E as [_ E2%bool_decide_eq_true]. by apply Hto.
Qed.

(** Winning the CAS from a status nobody holds excludes every other thread. *)
Lemma cas_wins_alone (rows : list QRow) (r r' : QRow) (id : string) froms to stamp o st :
  NoDup (row_ids rows) -> (cas rows id froms to stamp).1 = true ->
  op_ok rows o -> op_row o = Some r -> op_holds o = Some st -> st ∉ froms -> qr_id r <> id.
Proof.
  intros Hnd Hwin Hok Hr Ho Hst Heq. simpl in Hwin.
  apply existsb_exists in Hwin as (x & Hx%list_elem_of_In & Hh).
  apply andb_true_iff in Hh as [E1%String.eqb_eq E2%bool_decide_eq_true].
  destruct (Hok r Hr) as (y & Hy & Hid & _ & Hs).
  rewrite (same_row rows y x Hnd Hy Hx) in Hs by congruence. apply Hst. by rewrite <- (Hs st Ho).
Qed.

Lemma cas_win_row (rows : list QRow) (r : QRow) froms to stamp o o' :
  NoDup (row_ids rows) -> keeps stamp -> (cas rows (qr_id r) froms to stamp).1 = true ->
  op_ok rows o -> op_row o = Some r -> op_row o' = Some r -> op_holds o' = Some to ->
  op_ok (cas rows (qr_id r) froms to stamp).2 o'.
Proof.
  intros Hnd Hk Hwin Hok Hr Hr' Ho' r0 Hr0. rewrite Hr' in Hr0. injection Hr0 as <-.
  destruct (Hok r Hr) as (y & Hy & Hid & Hsha & _). simpl in Hwin.
  apply existsb_exists in Hwin as (x & Hx%list_elem_of_In & Hh).
  assert (x = y) as ->.
  { apply (same_row rows); try done. apply andb_true_iff in Hh as [E1%String.eqb_eq _]. congruence. }
  exists (set_qstatus to stamp y). split_and!.
  - unfold cas. simpl. apply list_elem_of_fmap. exists y. by rewrite Hh.
  - simpl. destruct (Hk y). congruence.
  - simpl. destruct (Hk y). congruence.
  - intros st Ho. simpl. congruence.
Qed.

(** ** Preservation *)

Lemma exclusive_end (ops : gmap nat Op) (t : nat) : exclusive ops -> exclusive (delete t ops).
Proof.
  intros He t1 t2 o1 o2 r1 r2 [_ H1]%lookup_delete_Some [_ H2]%lookup_delete_Some. by apply He.
Qed.

Lemma exclusive_set (ops : gmap nat Op) (t : nat) (o : Op) :
  exclusive ops ->
  (forall r t2 o2 r2, op_row o = Some r -> op_holds o <> None -> t2 <> t -> ops !! t2 = Some o2 ->
     op_row o2 = Some r2 -> op_holds o2 <> None -> qr_id r2 <> qr_id r) ->
  exclusive (<[t := o]> ops).
Proof.
  intros He Hn t1 t2 o1 o2 r1 r2 H1 H2 Hr1 Hr2 Hh1 Hh2 Hid.
  apply lookup_insert_Some in H1 as [[<- <-]|[Ht1 H1]], H2 as [[<- <-]|[Ht2 H2]].
  - done.
  - by destruct (Hn r1 t2 o2 r2); [..|symmetry].
  - by destruct (Hn r2 t1 o1 r1).
  - by eapply He.
Qed.

(** A thread moves on without touching the rows and without taking a row. *)
Lemma inv_move (c : Conf) (s : QState) (t : nat) (o o' : Op) :
  cinv c -> q_rows s = q_rows (c_q c) -> q_store s = q_store (c_q c) ->
  c_ops c !! t = Some o -> op_row o' = op_row o -> op_holds o' = op_holds o ->
  cinv (set_op c s t o').
Proof.
  intros [Hnd Hst Hb Hops He] Hr Hs Ht Hrow Hh. split; simpl; rewrite ?Hr, ?Hs; try done.
  - unfold blobs_ok. by rewrite Hr, Hs.
  - intros t' o1 H1. apply lookup_insert_Some in H1 as [[<- <-]|[_ H1]]; [|by eapply Hops].
    intros r. rewrite Hrow, Hh. by apply (Hops t).
  - apply exclusive_set; [done|]. intros r t2 o2 r2 Ho Hho Hne H2 Hr2 Hh2 Heq.
    apply Hne. eapply He; try done; congruence.
Qed.

Lemma inv_fetch (c : Conf) (t : nat) (o : Op) (r : QRow) (id : string) :
  cinv c -> fetch_row (q_rows (c_q c)) id = Some r -> op_row o = Some r -> op_holds o = None ->
  cinv (set_op c (c_q c) t o).
Proof.
  intros [Hnd Hst Hb Hops He] Hf Ho Hh. split; simpl; try done.
  - intros t' o1 H1. apply lookup_insert_Some in H1 as [[<- <-]|[_ H1]]; [|by eapply Hops].
    intros r0 Hr0. assert (r0 = r) as -> by congruence. apply fetch_row_spec in Hf as [Hin _].
    exists r. split_and!; [done|done|done|]. intros st Hs. congruence.
  - apply exclusive_set; [done|]. intros. congruence.
Qed.

Lemma inv_end (c : Conf) (t : nat) : cinv c -> cinv (end_op c (c_q c) t).
Proof.
  intros [Hnd Hst Hb Hops He]. split; simpl; try done; [|by apply exclusive_end].
  intros t' o [_ H]%lookup_delete_Some. by eapply Hops.
Qed.

(** A thread wins the CAS that takes its row. *)
Lemma inv_win (c : Conf) (t : nat) (o o' : Op) (r : QRow) (froms : list QStatus) (to : QStatus)
    (rows : list QRow) :
  cinv c -> c_ops c !! t = Some o -> op_row o = Some r -> op_holds o = None ->
  op_row o' = Some r -> op_holds o' = Some to ->
  QS_restoring ∉ froms -> QS_deleting ∉ froms -> QS_deleted ∉ froms ->
  cas (q_rows (c_q c)) (qr_id r) froms to id = (true, rows) ->
  cinv (set_op c (with_rows (c_q c) rows) t o').
Proof.
  intros [Hnd Hst Hb Hops He] Ht Hr Hh Hr' Hh' Hf1 Hf2 Hf3 Hcas.
  assert (Hrows : rows = (cas (q_rows (c_q c)) (qr_id r) froms to id).2) by by rewrite Hcas.
  assert (Hwin : (cas (q_rows (c_q c)) (qr_id r) froms to id).1 = true) by by rewrite Hcas.
  assert (Hk : keeps id) by done.
  assert (Hfree : forall t2 o2 r2 st, t2 <> t -> c_ops c !! t2 = Some o2 -> op_row o2 = Some r2 ->
             op_holds o2 = Some st -> qr_id r2 <> qr_id r).
  { intros t2 o2 r2 st _ H2 Hr2 Hh2.
    eapply (cas_wins_alone _ r2 r); try done; [by eapply Hops|].
    destruct o2; simpl in Hh2; congruence. }
  rewrite Hrows. split; cbn [c_q c_ops set_op end_op q_rows q_store with_rows].
  - by rewrite cas_ids.
  - done.
  - apply (cas_blobs_ok (c_q c)); [done| |done]. right. intros st Hs.
    intros [->|[->|[]%not_elem_of_nil]%elem_of_cons]%elem_of_cons; done.
  - intros t' o1 H1. apply lookup_insert_Some in H1 as [[<- <-]|[Hne H1]].
    + eapply (cas_win_row _ _ _ _ _ o); try done. by eapply Hops.
    + eapply cas_rows_ok; [done| |by eapply Hops]. intros r0 st Hr0 Ho0 _. by eapply Hfree.
  - apply exclusive_set; [done|]. intros r0 t2 o2 r2 Hr0 _ Hne H2 Hr2 Hh2.
    assert (r0 = r) as -> by congruence. destruct (op_holds o2) eqn:E; [|done]. by eapply Hfree.
Qed.

(** A thread gives its row up with its last CAS. *)
Lemma inv_release (c : Conf) (t : nat) (o : Op) (r : QRow) (st to : QStatus)
    (stamp : QRow -> QRow) (won : bool) (rows : list QRow) :
  cinv c -> c_ops c !! t = Some o -> op_row o = Some r -> op_holds o = Some st ->
  keeps stamp -> (to = QS_deleted \/ st = QS_restoring) ->
  cas (q_rows (c_q c)) (qr_id r) [st] to stamp = (won, rows) ->
  cinv (end_op c (with_rows (c_q c) rows) t).
Proof.
  intros [Hnd Hst Hb Hops He] Ht Hr Hh Hk Hto Hcas.
  assert (Hrows : rows = (cas (q_rows (c_q c)) (qr_id r) [st] to stamp).2) by by rewrite Hcas.
  rewrite Hrows. split; cbn [c_q c_ops set_op end_op q_rows q_store with_rows].
  - by rewrite cas_ids.
  - done.
  - apply (cas_blobs_ok (c_q c)); [done| |done]. destruct Hto as [->| ->]; [left; set_solver|].
    right. intros s [->|[]%not_elem_of_nil]%elem_of_cons. by apply (bool_decide_unpack _).
  - intros t' o1 [Hne H1]%lookup_delete_Some. eapply cas_rows_ok; [done| |by eapply Hops].
    intros r0 st0 Hr0 Ho0 _ Hid. apply Hne. eapply He; try done; congruence.
  - by apply exclusive_end.
Qed.

(** What a capture does to store and rows, refused or not. *)
Lemma capture_effect (i : IsolateIn) (s : QState) (ino : Z) (st : FileData) :
  let '(res, s') := capture sha256 realpath store_root i s ino st in
  let bytes := bytes_of (q_fs s) ino in
  (q_store s' = q_store s /\ (res = Err QTooLarge \/ is_Some (q_store s !! sha256 bytes)) \/
   q_store s' = <[sha256 bytes := mkBlob (ii_fresh_ino i) bytes]> (q_store s)) /\
  q_rows s' = q_rows s ++ match res with Ok _ => [isolating_row sha256 i st bytes] | Err _ => [] end.
Proof.
  unfold capture, put_stream. fold (bytes_of (q_fs s) ino).
  destruct (_ <? _); [rewrite app_nil_r; by auto|].
  destruct (q_store s !! sha256 (bytes_of (q_fs s) ino)) eqn:E;
    destruct (_ || _); simpl; rewrite ?app_nil_r; (split; [|done]); [left|left|by right|by right];
    (split; [done|right; by eexists]).
Qed.

Lemma op_ok_app (rows extra : list QRow) (o : Op) : op_ok rows o -> op_ok (rows ++ extra) o.
Proof.
  intros H r Hr. destruct (H r Hr) as (r' & Hin & Hrest). exists r'. split; [|done].
  apply elem_of_app. by left.
Qed.

Lemma inv_capture (c : Conf) (s' : QState) (i : IsolateIn) (ino : Z) (st : FileData)
    (res : result QuarantineError string) (ops : gmap nat Op) :
  cinv c -> ii_fresh_id i ∉ row_ids (q_rows (c_q c)) ->
  capture sha256 realpath store_root i (c_q c) ino st = (res, s') ->
  (forall t o, ops !! t = Some o -> op_row o = None \/ c_ops c !! t = Some o) ->
  cinv (mkConf s' ops).
Proof.
  intros [Hnd Hst Hb Hops He] Hfr Hcap Hsub. pose proof (capture_effect i (c_q c) ino st) as Hc.
  rewrite Hcap in Hc. destruct Hc as [Hstore Hrows].
  assert (Hmono : forall sha, is_Some (q_store (c_q c) !! sha) -> is_Some (q_store s' !! sha)).
  { intros sha Hs. destruct Hstore as [[-> _]| ->]; [done|].
    destruct (decide (sha = sha256 (bytes_of (q_fs (c_q c)) ino))) as [->|];
      [rewrite lookup_insert_eq; by eexists | by rewrite lookup_insert_ne]. }
  split; cbn [c_q c_ops].
  - rewrite Hrows. unfold row_ids in *. rewrite fmap_app. destruct res; simpl;
      [|by rewrite app_nil_r]. apply NoDup_app. split_and!; [done| |apply NoDup_singleton].
    by intros x Hx ->%list_elem_of_singleton.
  - intros sha b. destruct Hstore as [[-> _]| ->]; [apply Hst|].
    intros [[<- <-]|[_ H]]%lookup_insert_Some; [done | by apply Hst].
  - intros r. rewrite Hrows. intros [Hin|Hin]%elem_of_app Hs; [by apply Hmono, Hb|].
    destruct res; [|by apply not_elem_of_nil in Hin]. apply list_elem_of_singleton in Hin as ->.
    simpl. destruct Hstore as [[-> [?|?]]| ->]; [done|done|]. rewrite lookup_insert_eq. by eexists.
  - intros t o Ho. rewrite Hrows. apply op_ok_app. destruct (Hsub t o Ho) as [Hn|Hc];
      [intros r Hr; congruence | by eapply Hops].
  - intros t1 t2 o1 o2 r1 r2 H1 H2 Hr1 Hr2.
    destruct (Hsub _ _ H1) as [|H1']; [congruence|]. destruct (Hsub _ _ H2) as [|H2']; [congruence|].
    by apply He.
Qed.

Lemma inv_unlink (c : Conf) (s' : QState) (t : nat) (i : IsolateIn) (race : Fs -> Fs)
    (dirfd ino : Z) (res : result QuarantineError unit) :
  cinv c -> unlink_guarded i race (c_q c) dirfd ino = (res, s') -> cinv (end_op c s' t).
Proof.
  intros Hinv Hu.
  assert (exists to, to <> QS_restoring /\ q_store s' = q_store (c_q c) /\
            q_rows s' = (cas (q_rows (c_q c)) (ii_fresh_id i) [QS_isolating] to id).2)
    as (to & _ & Hs & Hr).
  { unfold unlink_guarded in Hu. destruct (bool_decide _); [destruct (_ || _)|];
      simpl in Hu; injection Hu as _ <-; eexists; (split; [|split; reflexivity]); done. }
  destruct Hinv as [Hnd Hst Hb Hops He]. split; cbn [c_q c_ops end_op].
  - by rewrite Hr, cas_ids.
  - by rewrite Hs.
  - unfold blobs_ok. rewrite Hr, Hs. apply (cas_blobs_ok (c_q c)); [done| |done]. right.
    intros st [->|[]%not_elem_of_nil]%elem_of_cons. by apply (bool_decide_unpack _).
  - intros t' o [_ H]%lookup_delete_Some. rewrite Hr. apply cas_rows_ok; [done| |by eapply Hops].
    intros r st _ Hh [->|[]%not_elem_of_nil]%elem_of_cons. by destruct o.
  - by apply exclusive_end.
Qed.

Lemma inv_remove_blob (c : Conf) (t : nat) (r : QRow) :
  cinv c -> c_ops c !! t = Some (DHeld r) -> cinv (set_op c (remove_blob (c_q c) r) t (DRemoved r)).
Proof.
  intros Hinv Ht. unfold remove_blob. destruct (_ && _) eqn:E.
  2: { by eapply inv_move. }
  apply andb_true_iff in E as [_ E%negb_true_iff].
  destruct Hinv as [Hnd Hst Hb Hops He].
  split; cbn [c_q c_ops set_op q_rows q_store with_store]; try done.
  - intros sha b [_ H]%lookup_delete_Some. by apply Hst.
  - intros r' Hin Hs. cbn in Hin |- *. rewrite lookup_delete_ne; [by apply Hb|]. intros Heq.
    destruct (Hops t _ Ht r eq_refl) as (y & Hy & Hid & _ & Hys).
    destruct (decide (qr_id r' = qr_id r)) as [Hir|Hir].
    + apply Hs. rewrite (same_row _ r' y Hnd Hin Hy), (Hys _ eq_refl) by congruence. left.
    + apply (held_by_other_false _ _ _ r' E Hin Hir); [|done].
      intros Hd. apply Hs. rewrite Hd. right. left.
  - intros t' o [[<- <-]|[_ H]]%lookup_insert_Some; [|by eapply Hops].
    intros r0 Hr0. by apply (Hops t (DHeld r) Ht).
  - apply exclusive_set; [done|]. intros r0 t2 o2 r2 Hr0 _ Hne H2 Hr2 Hh2 Heq.
    apply Hne. eapply (He t2 t); try done; simpl in *; congruence.
Qed.

Lemma cstep_inv (c c' : Conf) : cinv c -> cstep c c' -> cinv c'.
Proof.
  intros Hinv Hstep. destruct Hstep.
  - destruct Hinv. by split.
  - by eapply inv_fetch.
  - eapply (inv_win _ _ (RFetched r) (RHeld r)); try done; by apply (bool_decide_unpack _).
  - by apply inv_end.
  - by eapply inv_move.
  - by eapply inv_move.
  - by eapply (inv_move _ _ _ (RVerified r)).
  - apply (inv_release c t (RDone r false) r QS_restoring QS_active id won); try done; by right.
  - apply (inv_release c t (RDone r true) r QS_restoring QS_restored (stamp_restored now) won); try done; by right.
  - by eapply inv_fetch.
  - eapply (inv_win _ _ (DFetched r) (DHeld r)); try done; by apply (bool_decide_unpack _).
  - by apply inv_end.
  - by apply inv_remove_blob.
  - apply (inv_release c t (DRemoved r) r QS_deleting QS_deleted (stamp_deleted now) won); try done; by left.
  - destruct Hinv as [Hnd Hst Hb Hops He]. split; simpl; try done.
    + intros t' o [[<- <-]|[_ Ho]]%lookup_insert_Some; [done | by eapply Hops].
    + by apply exclusive_set.
  - eapply inv_capture; try done.
    intros t' o [[<- <-]|[_ Ho]]%lookup_insert_Some; [by left | by right].
  - eapply inv_capture; try done. intros t' o [_ Ho]%lookup_delete_Some. by right.
  - by eapply inv_unlink.
Qed.

Lemma creach_inv (c : Conf) : creach c -> cinv c.
Proof.
  induction 1; [|by eapply cstep_inv]. split; simpl; try done; [constructor|].
  by intros r ?%not_elem_of_nil.
Qed.

(** A row in [restoring] keeps an intact blob. *)
Lemma held_blob (c : Conf) (t : nat) (o : Op) (r : QRow) :
  cinv c -> c_ops c !! t = Some o -> op_row o = Some r -> op_holds o = Some QS_restoring ->
  verify_blob sha256 (c_q c) (qr_sha256 r) = None.
Proof.
  intros [Hnd Hst Hb Hops He] Ht Hr Hh. destruct (Hops t o Ht r Hr) as (y & Hy & _ & Hsha & Hs).
  destruct (Hb y Hy) as [b Hbl]; [rewrite (Hs _ Hh); by apply (bool_decide_unpack _)|].
  rewrite Hsha in Hbl. unfold verify_blob. rewrite Hbl, (Hst _ _ Hbl). by rewrite String.eqb_refl.
Qed.

End Conc.


(** Thread 1 isolates a file, then thread 2 restores it while thread 3 has
    read the row in order to delete it. *)
Module ConcExample.
Import QExample.
Definition k0 : Conf := mkConf s0 ∅.
Definition k1 : Conf := set_op k0 s0 1 (IOpened iin 3 4 (mkFile "payload" 2541 1000 1000)).
Definition q2 : QState := (capture sha rp sroot iin s0 4 (mkFile "payload" 2541 1000 1000)).2.
Definition k2 : Conf := set_op k1 q2 1 (ICaptured iin 3 4).
Definition q3 : QState := (unlink_guarded iin Datatypes.id q2 3 4).2.
Definition k3 : Conf := end_op k2 q3 1.
Definition k4 : Conf := set_op k3 q3 2 (RFetched row1).
Definition k5 : Conf := set_op k4 q3 3 (DFetched row1).
Definition q6 : QState := with_rows q3 (cas (q_rows q3) "q1" [QS_active] QS_restoring Datatypes.id).2.
Definition k6 : Conf := set_op k5 q6 2 (RHeld row1).

Lemma k6_reach : creach sha rp qpaths sroot k6.
Proof.
  apply (cr_step _ _ _ _ k5).
  2: { apply (cs_restore_win _ _ _ _ k5 2 row1); vm_compute; reflexivity. }
  apply (cr_step _ _ _ _ k4).
  2: { apply (cs_delete_fetch _ _ _ _ k4 3 "q1"); vm_compute; reflexivity. }
  apply (cr_step _ _ _ _ k3).
  2: { apply (cs_restore_fetch _ _ _ _ k3 2 "q1"); vm_compute; reflexivity. }
  apply (cr_step _ _ _ _ k2).
  2: { apply (cs_isolate_unlink _ _ _ _ k2 1 iin 3 4 Datatypes.id (Ok tt)); vm_compute; reflexivity. }
  apply (cr_step _ _ _ _ k1).
  2: { apply (cs_isolate_capture _ _ _ _ k1 1 iin 3 4 (mkFile "payload" 2541 1000 1000) "h:payload");
         [vm_compute; reflexivity | apply not_elem_of_nil | vm_compute; reflexivity]. }
  apply (cr_step _ _ _ _ k0).
  2: { apply (cs_isolate_open _ _ _ _ k0 1 iin 3 4); vm_compute; reflexivity. }
  apply cr_init.
Qed.
End ConcExample.

