(* ===== verification/Ipc.v ===== *)
(** * The IPC server ([inspectord/ipc_server.py], [authz.py], [ipc_errors.py])

    The JSON-RPC endpoint: who may connect, which requests reach a handler,
    and what a client is told. [check_polkit] is the authorization gate,
    [gate] the limiter-then-polkit pipeline, [dispatch] one request and
    [handle] one connection. Handlers are functions on the world [W] they act
    on. Socket set-up and its permissions are not modelled. *)

From S2P Require Import Prelude Schemas Json RateLimit.

(** ** [authz.py] *)

Record PeerIdentity := mkPeer { pi_pid : Z; pi_uid : Z; pi_start_time : Z }.

Record AuthzResult := mkAuthz { az_outcome : string; az_detail : string }.
Definition authorized (r : AuthzResult) : bool := String.eqb (az_outcome r) "authorized".

(** [raw.rsplit(")", 1)[-1]]: what follows the last closing parenthesis. *)
Fixpoint after_last (sep : ascii) (s : string) : string :=
  match s with
  | EmptyString => EmptyString
  | String c s' =>
      if str_exists (Ascii.eqb sep) s' then after_last sep s'
      else if Ascii.eqb c sep then s' else s
  end.

Definition parse_start_time (raw : string) : option Z :=
  tail ← split_ws (after_last ")" raw) !! 19%nat; py_int tail.

(** How the run of [pkcheck] ends. *)
Inductive RunOutcome :=
| RunFinished (returncode : Z) (stderr : string)
| RunNotFound
| RunTimeout
| RunOSError (text : string).

Definition classify (returncode : Z) (raw_stderr : string) : AuthzResult :=
  if returncode =? 0 then mkAuthz "authorized" EmptyString
  else
    let stderr := strip raw_stderr in
    let low := str_lower stderr in
    if contains "no agent is available" low then mkAuthz "agent_missing" stderr
    else if contains "is not registered" low then mkAuthz "action_unknown" stderr
    else mkAuthz "denied" stderr.

Definition pkcheck_argv (action_id : string) (peer : PeerIdentity) (target : option string)
    (interactive : bool) : list string :=
  ["pkcheck"; "--action-id"; action_id; "--process";
   str_of_Z (pi_pid peer) +:+ "," +:+ str_of_Z (pi_start_time peer)]%string
  ++ (if interactive then ["--allow-user-interaction"%string] else [])
  ++ match target with Some t => ["--detail"; "path"; t]%string | None => [] end.

(** [check_polkit]; [busy] says whether the prompt semaphore is taken. *)
Definition check_polkit (busy : bool) (runner : list string -> RunOutcome) (action_id : string)
    (peer : PeerIdentity) (target : option string) (interactive : bool) : AuthzResult :=
  if busy then mkAuthz "authz_busy" EmptyString
  else match runner (pkcheck_argv action_id peer target interactive) with
       | RunNotFound => mkAuthz "polkit_unavailable" "pkcheck is not installed"
       | RunTimeout => mkAuthz "timeout" "no answer to the authorization prompt in 60s"
       | RunOSError text => mkAuthz "error" ("pkcheck could not run: " +:+ text)
       | RunFinished rc stderr => classify rc stderr
       end.

(** ** Requests and responses *)

Definition AUTHZ_DENIED_CODE : Z := -32001.
Definition PEER_PARAM : string := "_peer".

(** The em dash of two messages is written as its UTF-8 bytes. *)
Definition DENIAL_MESSAGES : list (string * string) :=
  [("rate_limited", "too many requests; retry in a minute");
   ("peer_gone", "peer process identity could not be captured at connect; reconnect and retry");
   ("polkit_unavailable", "polkit is unavailable; the daemon cannot authorize this action");
   ("agent_missing", "no polkit agent in this session " +:+ String "226"%char (String "128"%char
      (String "148"%char EmptyString)) +:+ " use a desktop terminal, " +:+
      "or run pkttyagent --process <your pid> --fallback");
   ("action_unknown", "polkit policy not installed " +:+ String "226"%char (String "128"%char
      (String "148"%char EmptyString)) +:+ " run: " +:+
      "sudo cp packaging/polkit/org.inspectord.policy /usr/share/polkit-1/actions/");
   ("timeout", "no answer to the authorization prompt in 60s");
   ("authz_busy", "another authorization prompt is in progress; retry in a moment");
   ("denied", "authorization denied")]%string.

Fixpoint assoc {A} (k : string) (l : list (string * A)) : option A :=
  match l with
  | [] => None
  | (k', v) :: l' => if String.eqb k k' then Some v else assoc k l'
  end.

Definition denial_message (outcome : string) : string :=
  outcome +:+ ": " +:+ default "authorization failed"%string (assoc outcome DENIAL_MESSAGES).

Definition internal_error (ref : string) : string :=
  "internal error (error_ref=" +:+ ref +:+ "); the daemon log has the details".

(** [_err] and [_ok], before their JSON rendering. *)
Inductive Response :=
| RespErr (req_id : pyval) (code : Z) (message : string)
| RespOk (req_id result : pyval).

(** A parameter as a handler sees it: the client's JSON, or the identity the
    server put there. *)
Inductive ParamVal := PV (v : pyval) | PPeer (p : PeerIdentity).

(** Keys of a Python [dict]: the hashable values, numbers equal across types. *)
Definition as_num (v : pyval) : option Q :=
  match v with
  | PBool b => Some (inject_Z (if b then 1 else 0))
  | PInt z => Some (inject_Z z)
  | PFloat q => Some q
  | _ => None
  end.
Definition hashable (v : pyval) : bool :=
  match v with PList _ | PDict _ => false | _ => true end.
Definition key_eqb (a b : pyval) : bool :=
  match a, b with
  | PStr s, PStr t => String.eqb s t
  | PNone, PNone => true
  | PTime s, PTime t => s =? t
  | _, _ => match as_num a, as_num b with Some p, Some q => Qeq_bool p q | _, _ => false end
  end.

Abbreviation Params := (list (pyval * ParamVal)).

Fixpoint params_get (k : pyval) (ps : Params) : option ParamVal :=
  match ps with
  | [] => None
  | (k', v) :: ps' => if key_eqb k k' then Some v else params_get k ps'
  end.
Fixpoint params_set (k : pyval) (v : ParamVal) (ps : Params) : Params :=
  match ps with
  | [] => [(k, v)]
  | (k', v') :: ps' => if key_eqb k k' then (k', v) :: ps' else (k', v') :: params_set k v ps'
  end.
Definition params_pop (k : pyval) (ps : Params) : Params :=
  List.filter (fun kv => negb (key_eqb k kv.1)) ps.

(** The two members of a pair handed to [dict(...)]: a list or a string of two
    elements, or the keys of a two-key dict. *)
Definition as_pair (v : pyval) : option (pyval * pyval) :=
  match v with
  | PList [a; b] => Some (a, b)
  | PStr (String a (String b EmptyString)) =>
      Some (PStr (String a EmptyString), PStr (String b EmptyString))
  | PDict [(a, _); (b, _)] => Some (PStr a, PStr b)
  | _ => None
  end.

Fixpoint params_of_pairs (l : list pyval) (acc : Params) : option Params :=
  match l with
  | [] => Some acc
  | x :: l' =>
      '(k, v) ← as_pair x;
      if hashable k then params_of_pairs l' (params_set k (PV v) acc) else None
  end.

(** [dict(req.get("params") or {})]; [None] is the exception of [dict]. *)
Definition params_of (v : pyval) : option Params :=
  if negb (truthy v) then Some []
  else match v with
       | PDict d => Some ((fun kv => (PStr kv.1, PV kv.2)) <$> d)
       | PList l => params_of_pairs l []
       | _ => None
       end.

(** ** The server *)

(** How a handler fails: with a message meant for the client, or not. *)
Inductive HandlerError := ClientFacing (message : string) | Unexpected (repr : string).

Section Server.
Context {W : Type}.

(** [Method]; [m_limiter] names a limiter, which several methods may share. *)
Record Method := mkMethod {
  m_name : string;
  m_handler : Params -> W -> result HandlerError pyval * W;
  m_polkit_action : option string;
  m_limiter : option nat;
  m_polkit_target : option (Params -> option string);
}.

(** The keyword arguments of one audit call. *)
Record Denial := mkDenial {
  dn_method : string;
  dn_action : string;
  dn_pid : Z;
  dn_uid : Z;
  dn_reason : string;
  dn_target : option string;
}.

(** One call of the polkit check: when, for which limiter, and its arguments. *)
Record Asked := mkAsked {
  as_now : Z;
  as_limiter : option nat;
  as_action : string;
  as_peer : PeerIdentity;
  as_target : option string;
}.

(** What the server touches: the handlers' world, the limiters, the audit rows
    of refusals, the polkit checks made and the handler calls made. *)
Record Srv := mkSrv {
  sv_world : W;
  sv_limiters : gmap nat Limiter;
  sv_audit : list Denial;
  sv_asked : list Asked;
  sv_calls : list (string * Params);
}.

(** What surrounds one request: the clock, the error reference to use, the
    polkit check's answers ([None]: no check configured) and whether the audit
    callable accepts a row ([None]: none configured). *)
Record Env := mkEnv {
  en_now : Z;
  en_ref : string;
  en_authz : option (string -> PeerIdentity -> option string -> AuthzResult);
  en_audit : option (Denial -> bool);
}.

Definition set_limiters (s : Srv) (l : gmap nat Limiter) : Srv :=
  mkSrv (sv_world s) l (sv_audit s) (sv_asked s) (sv_calls s).
Definition ask (s : Srv) (a : Asked) : Srv :=
  mkSrv (sv_world s) (sv_limiters s) (sv_audit s) (sv_asked s ++ [a]) (sv_calls s).
Definition call (s : Srv) (name : string) (ps : Params) (w : W) : Srv :=
  mkSrv w (sv_limiters s) (sv_audit s) (sv_asked s) (sv_calls s ++ [(name, ps)]).

(** [_audit_denial]: an exception of the audit callable drops the row. *)
Definition audit_denial (env : Env) (s : Srv) (d : Denial) : Srv :=
  match en_audit env with
  | Some accepts =>
      if accepts d then mkSrv (sv_world s) (sv_limiters s) (sv_audit s ++ [d]) (sv_asked s) (sv_calls s)
      else s
  | None => s
  end.

(** [method.limiter.check()], on the shared limiter. *)
Definition limiter_check (env : Env) (m : Method) (s : Srv) : (bool * bool) * Srv :=
  match m_limiter m with
  | None => ((true, false), s)
  | Some id =>
      let '(r, l) := check_limit (default (new_limiter 12 60) (sv_limiters s !! id)) (en_now env) in
      (r, set_limiters s (<[id := l]> (sv_limiters s)))
  end.

(** [_gate]: a denial's outcome, or [None] when the call may go on. *)
Definition gate (env : Env) (m : Method) (action : string) (pid uid : Z)
    (peer : option PeerIdentity) (ps : Params) (s : Srv) : option string * Srv :=
  let target := f ← m_polkit_target m; f ps in
  let deny reason := mkDenial (m_name m) action pid uid reason target in
  let '((allowed, audit_this), s1) := limiter_check env m s in
  if negb allowed then
    (Some "rate_limited"%string,
     if audit_this then audit_denial env s1 (deny "rate_limited"%string) else s1)
  else match peer with
  | None => (Some "peer_gone"%string, audit_denial env s1 (deny "peer_gone"%string))
  | Some p =>
      match en_authz env with
      | None => (Some "polkit_unavailable"%string,
                 audit_denial env s1 (deny "polkit_unavailable"%string))
      | Some check =>
          let r := check action p target in
          let s2 := ask s1 (mkAsked (en_now env) (m_limiter m) action p target) in
          if authorized r then (None, s2)
          else (Some (az_outcome r), audit_denial env s2 (deny (az_outcome r)))
      end
  end.

(** [_ok] raises on a result JSON cannot hold. *)
Definition serializable (v : pyval) : bool :=
  match json_text (fun _ => EmptyString) v with Some _ => true | None => false end.

(** The handler call with its three outcomes. *)
Definition call_handler (env : Env) (m : Method) (req_id : pyval) (ps : Params) (s : Srv)
  : Response * Srv :=
  let '(r, w) := m_handler m ps (sv_world s) in
  (match r with
   | Ok v => if serializable v then RespOk req_id v
             else RespErr req_id (-32000) (internal_error (en_ref env))
   | Err (ClientFacing msg) => RespErr req_id (-32000) msg
   | Err (Unexpected _) => RespErr req_id (-32000) (internal_error (en_ref env))
   end, call s (m_name m) ps w).

Definition find_method (methods : list Method) (name : string) : option Method :=
  List.find (fun m => String.eqb (m_name m) name) (rev methods).

Definition is_str (v : pyval) (s : string) : bool :=
  match v with PStr t => String.eqb t s | _ => false end.

(** [_dispatch]; [None] is an exception that escapes it. *)
Definition dispatch (methods : list Method) (env : Env) (req : pyval) (pid uid : Z)
    (peer : option PeerIdentity) (s : Srv) : option Response * Srv :=
  match req with
  | PDict d =>
      let req_id := dict_get "id" d in
      if negb (is_str (dict_get "jsonrpc" d) "2.0") then
        (Some (RespErr req_id (-32600) "invalid request"), s)
      else if negb (is_str (dict_get "schema_version" d) IPC_PROTOCOL_VERSION) then
        (Some (RespErr req_id (-32602)
                 ("unsupported schema_version, expected " +:+ IPC_PROTOCOL_VERSION)), s)
      else
        let name := default (PStr EmptyString) (dict_lookup "method" d) in
        if negb (hashable name) then (None, s)
        else match (n ← as_str name; find_method methods n) with
        | None => (Some (RespErr req_id (-32601) "method not found"), s)
        | Some m =>
            match params_of (dict_get "params" d) with
            | None => (None, s)
            | Some ps0 =>
                let ps := params_pop (PStr PEER_PARAM) ps0 in
                match m_polkit_action m with
                | None => let '(r, s') := call_handler env m req_id ps s in (Some r, s')
                | Some action =>
                    let '(denied, s1) := gate env m action pid uid peer ps s in
                    match denied with
                    | Some outcome =>
                        (Some (RespErr req_id AUTHZ_DENIED_CODE (denial_message outcome)), s1)
                    | None =>
                        let value := match peer with Some p => PPeer p | None => PV PNone end in
                        let '(r, s') := call_handler env m req_id
                                          (params_set (PStr PEER_PARAM) value ps) s1 in
                        (Some r, s')
                    end
                end
            end
        end
  | _ => (None, s)
  end.

(** [_handle]: one connection, its lines with what surrounds each of them.
    [loads] is [json.loads] of a line; [start_time] is read once at accept. *)
Fixpoint serve (loads : string -> option pyval) (methods : list Method)
    (lines : list (Env * string)) (pid uid : Z) (peer : option PeerIdentity) (s : Srv)
  : list Response * Srv :=
  match lines with
  | [] => ([], s)
  | (env, line) :: rest =>
      if String.eqb line EmptyString then serve loads methods rest pid uid peer s
      else match loads line with
      | None =>
          let '(rs, s') := serve loads methods rest pid uid peer s in
          (RespErr PNone (-32700) "parse error" :: rs, s')
      | Some req =>
          match dispatch methods env req pid uid peer s with
          | (None, s1) => ([], s1)
          | (Some r, s1) =>
              let '(rs, s') := serve loads methods rest pid uid peer s1 in (r :: rs, s')
          end
      end
  end.

Definition handle (loads : string -> option pyval) (methods : list Method)
    (allowed_uids : list Z) (lines : list (Env * string)) (pid uid : Z)
    (start_time : option Z) (s : Srv) : list Response * Srv :=
  if negb (bool_decide (allowed_uids = [])) && negb (bool_decide (uid ∈ allowed_uids)) then
    ([RespErr PNone (-32000) "peer uid not allowed"], s)
  else serve loads methods lines pid uid (mkPeer pid uid <$> start_time) s.

End Server.
