(* ===== verification/IpcProofs.v ===== *)
(** * Properties of the IPC server

    What a client can reach through [Ipc.v]: authorization of gated calls, the
    bound on authorization prompts, and the peer identity they are made for. *)

From S2P Require Import Prelude Schemas Json RateLimit Ipc.

Section Gate.
Context {W : Type}.
Implicit Types (m : Method (W := W)) (s : Srv (W := W)).

Lemma params_get_pop (k : pyval) (ps : Params) : params_get k (params_pop k ps) = None.
Proof.
  unfold params_pop. induction ps as [|[k' v] ps IH]; simpl; [done|].
  destruct (key_eqb k k') eqn:E; simpl; [done|]. by rewrite E.
Qed.

Lemma params_get_set (k : pyval) (v : ParamVal) (ps : Params) :
  key_eqb k k = true -> params_get k (params_set k v ps) = Some v.
Proof.
  intros Hk. induction ps as [|[k' v'] ps IH]; simpl; [by rewrite Hk|].
  destruct (key_eqb k k') eqn:E; simpl; by rewrite E.
Qed.

Lemma audit_denial_frame (env : Env) s (d : Denial) :
  let s' := audit_denial env s d in
  sv_world s' = sv_world s /\ sv_calls s' = sv_calls s /\ sv_asked s' = sv_asked s /\
  sv_limiters s' = sv_limiters s.
Proof. unfold audit_denial. destruct (en_audit env) as [f|]; [destruct (f d)|]; done. Qed.

Lemma limiter_check_frame (env : Env) m s :
  let s' := (limiter_check env m s).2 in
  sv_world s' = sv_world s /\ sv_calls s' = sv_calls s /\ sv_asked s' = sv_asked s /\
  sv_audit s' = sv_audit s.
Proof. unfold limiter_check. destruct (m_limiter m); [destruct (check_limit _ _)|]; done. Qed.

(** What the gate leaves alone, and what its approval means. *)
Lemma gate_spec (env : Env) m (action : string) (pid uid : Z) (peer : option PeerIdentity)
    (ps : Params) s :
  let '(denied, s') := gate env m action pid uid peer ps s in
  sv_world s' = sv_world s /\ sv_calls s' = sv_calls s /\
  sv_limiters s' = sv_limiters (limiter_check env m s).2 /\
  match denied with
  | None =>
      exists p check target, peer = Some p /\ en_authz env = Some check /\
        authorized (check action p target) = true /\ (limiter_check env m s).1.1 = true
  | Some _ => True
  end.
Proof.
  unfold gate. pose proof (limiter_check_frame env m s) as (Hw & Hc & _ & _).
  destruct (limiter_check env m s) as [[allowed audit] s1] eqn:E. cbn [fst snd] in *.
  destruct allowed; cbn [negb]; [|destruct audit; [|done];
    destruct (audit_denial_frame env s1 (mkDenial (m_name m) action pid uid "rate_limited"
       (f ← m_polkit_target m; f ps))) as (-> & -> & _ & ->); done].
  destruct peer as [p|].
  2: { destruct (audit_denial_frame env s1 (mkDenial (m_name m) action pid uid "peer_gone"
         (f ← m_polkit_target m; f ps))) as (-> & -> & _ & ->). done. }
  destruct (en_authz env) as [check|] eqn:Ea.
  2: { destruct (audit_denial_frame env s1 (mkDenial (m_name m) action pid uid "polkit_unavailable"
         (f ← m_polkit_target m; f ps))) as (-> & -> & _ & ->). done. }
  destruct (authorized _) eqn:Ez.
  - split_and!; try done. by eexists p, check, _.
  - destruct (audit_denial_frame env
       (ask s1 (mkAsked (en_now env) (m_limiter m) action p (f ← m_polkit_target m; f ps)))
       (mkDenial (m_name m) action pid uid (az_outcome (check action p (f ← m_polkit_target m; f ps)))
       (f ← m_polkit_target m; f ps))) as (-> & -> & _ & ->). done.
Qed.

Lemma call_handler_spec (env : Env) m (req_id : pyval) (ps : Params) s :
  let '(r, s') := call_handler env m req_id ps s in
  sv_calls s' = sv_calls s ++ [(m_name m, ps)] /\ sv_limiters s' = sv_limiters s /\
  sv_asked s' = sv_asked s.
Proof. unfold call_handler. destruct (m_handler m ps (sv_world s)). done. Qed.

(** What running the handler of [m] on [ps] for a request guarantees. *)
Definition run_ok (methods : list (Method (W := W))) (env : Env) (peer : option PeerIdentity)
    m (ps : Params) : Prop :=
  m ∈ methods /\
  match m_polkit_action m with
  | None => params_get (PStr PEER_PARAM) ps = None
  | Some action =>
      exists p check target, peer = Some p /\ en_authz env = Some check /\
        authorized (check action p target) = true /\
        params_get (PStr PEER_PARAM) ps = Some (PPeer p)
  end.
Definition call_ok (methods : list (Method (W := W))) (env : Env) (peer : option PeerIdentity)
    (c : string * Params) : Prop :=
  exists m, m_name m = c.1 /\ run_ok methods env peer m c.2.

Lemma find_method_elem (methods : list (Method (W := W))) (n : string) m :
  find_method methods n = Some m -> m ∈ methods.
Proof.
  unfold find_method. intros [H _]%List.find_some. apply list_elem_of_In. by apply in_rev.
Qed.

(** A request runs no handler and leaves the handlers' world alone, or runs
    exactly one, on a world it alone changes. *)
Lemma dispatch_runs (methods : list (Method (W := W))) (env : Env) (req : pyval) (pid uid : Z)
    (peer : option PeerIdentity) s :
  let s' := (dispatch methods env req pid uid peer s).2 in
  (sv_calls s' = sv_calls s /\ sv_world s' = sv_world s) \/
  exists m ps, sv_calls s' = sv_calls s ++ [(m_name m, ps)] /\
    sv_world s' = (m_handler m ps (sv_world s)).2 /\ run_ok methods env peer m ps.
Proof.
  unfold dispatch. destruct req as [| | | | | | |d]; try by left.
  destruct (negb _); [by left|]. destruct (negb _); [by left|].
  destruct (hashable _); cbn [negb]; [|by left].
  destruct (n ← as_str _; find_method methods n) as [m|] eqn:Em; [|by left].
  assert (Hm : m ∈ methods).
  { apply bind_Some in Em as (n & _ & Hf). by eapply find_method_elem. }
  destruct (params_of _) as [ps0|]; [|by left].
  destruct (m_polkit_action m) as [action|] eqn:Ea.
  - pose proof (gate_spec env m action pid uid peer (params_pop (PStr PEER_PARAM) ps0) s) as Hg.
    destruct (gate _ _ _ _ _ _ _ _) as [[o|] s1]; destruct Hg as (Hw & Hc & _ & Hg).
    { left. done. }
    destruct Hg as (p & check & target & -> & He & Hz & _). right.
    exists m, (params_set (PStr PEER_PARAM) (PPeer p) (params_pop (PStr PEER_PARAM) ps0)).
    unfold call_handler. rewrite Hw. destruct (m_handler m _ _) as [r w]. cbn.
    split_and!; [by rewrite Hc|done|]. split; [done|]. rewrite Ea.
    exists p, check, target. split_and!; try done. by apply params_get_set.
  - right. exists m, (params_pop (PStr PEER_PARAM) ps0).
    unfold call_handler. destruct (m_handler m _ _) as [r w]. cbn.
    split_and!; [done|done|]. split; [done|]. rewrite Ea. apply params_get_pop.
Qed.

Lemma dispatch_calls (methods : list (Method (W := W))) (env : Env) (req : pyval) (pid uid : Z)
    (peer : option PeerIdentity) s :
  let s' := (dispatch methods env req pid uid peer s).2 in
  (sv_calls s' = sv_calls s /\ sv_world s' = sv_world s) \/
  exists c, sv_calls s' = sv_calls s ++ [c] /\ call_ok methods env peer c.
Proof.
  destruct (dispatch_runs methods env req pid uid peer s) as [?|(m & ps & Hc & _ & Hr)];
    [by left|]. right. exists (m_name m, ps). split; [done|]. by exists m.
Qed.

Lemma serve_calls (loads : string -> option pyval) (methods : list (Method (W := W)))
    (lines : list (Env * string)) (pid uid : Z) (peer : option PeerIdentity) s :
  exists new, sv_calls (serve loads methods lines pid uid peer s).2 = sv_calls s ++ new /\
    Forall (fun c => exists env line, (env, line) ∈ lines /\ call_ok methods env peer c) new.
Proof.
  revert s. induction lines as [|[env line] rest IH]; intros s; simpl.
  { exists []. by rewrite app_nil_r. }
  assert (Hweak : forall new, Forall (fun c => exists e l, (e, l) ∈ rest /\ call_ok methods e peer c) new ->
            Forall (fun c => exists e l, (e, l) ∈ (env, line) :: rest /\ call_ok methods e peer c) new).
  { intros new H. eapply Forall_impl; [exact H|]. intros c (e & l & Hin & Hc). exists e, l.
    split; [by right | done]. }
  assert (Hskip : exists new, sv_calls (serve loads methods rest pid uid peer s).2 = sv_calls s ++ new /\
    Forall (fun c => exists e l, (e, l) ∈ (env, line) :: rest /\ call_ok methods e peer c) new).
  { destruct (IH s) as (new & Hn & Hf). exists new. split; [done | by apply Hweak]. }
  destruct (String.eqb _ _); [exact Hskip|]. destruct (loads line) as [req|].
  2: { by destruct (serve loads methods rest pid uid peer s) as [rs s']. }
  pose proof (dispatch_calls methods env req pid uid peer s) as Hd.
  destruct (dispatch methods env req pid uid peer s) as [[r|] s1]; cbn [snd] in *.
  - destruct (IH s1) as (new & Hn & Hf). destruct (serve _ _ _ _ _ _ s1) as [rs s'].
    cbn [snd] in *. destruct Hd as [[Hd _]|(c & Hd & Hc)]; rewrite Hd in Hn.
    + exists new. split; [done | by apply Hweak].
    + exists (c :: new). rewrite Hn, <- app_assoc. split; [done|]. constructor; [|by apply Hweak].
      exists env, line. split; [left | done].
  - destruct Hd as [[Hd _]|(c & Hd & Hc)]; rewrite Hd.
    + exists []. by rewrite app_nil_r.
    + exists [c]. split; [done|]. repeat constructor. exists env, line. split; [left | done].
Qed.
End Gate.

(** C3. What a connection can make the daemon do. Every handler call made for
    it comes from a peer whose uid is allowed, for a registered method; a
    method with a polkit action runs only when the check, asked for exactly
    the process identity captured at accept, answered [authorized], and its
    handler sees that identity as [_peer] whatever the client sent; other
    handlers see no [_peer]. *)
Theorem gated_calls_authorized {W : Type} (loads : string -> option pyval)
    (methods : list (@Method W)) (allowed_uids : list Z) (lines : list (Env * string))
    (pid uid : Z) (start_time : option Z) (s : @Srv W) :
  exists new,
    sv_calls (handle loads methods allowed_uids lines pid uid start_time s).2 = sv_calls s ++ new /\
    Forall (fun c =>
      (allowed_uids = [] \/ uid ∈ allowed_uids) /\
      exists env line m, (env, line) ∈ lines /\ m ∈ methods /\ m_name m = c.1 /\
      match m_polkit_action m with
      | None => params_get (PStr PEER_PARAM) c.2 = None
      | Some action =>
          exists st check target, start_time = Some st /\ en_authz env = Some check /\
            authorized (check action (mkPeer pid uid st) target) = true /\
            params_get (PStr PEER_PARAM) c.2 = Some (PPeer (mkPeer pid uid st))
      end) new.
Proof.
  unfold handle. destruct (_ && _) eqn:E.
  { exists []. by rewrite app_nil_r. }
  destruct (serve_calls loads methods lines pid uid (mkPeer pid uid <$> start_time) s)
    as (new & Hn & Hf). exists new. split; [exact Hn|]. eapply Forall_impl; [exact Hf|].
  intros c (env & line & Hin & m & Hm & Hname & Hc). split.
  - apply andb_false_iff in E as [E|E]; apply negb_false_iff, bool_decide_eq_true in E; auto.
  - exists env, line, m. split_and!; try done. destruct (m_polkit_action m); [|done].
    destruct Hc as (p & check & target & Hp & Ha & Hz & Hg). destruct start_time as [st|]; [|done].
    simpl in Hp. injection Hp as <-. by exists st, check, target.
Qed.

(** ** The bound on authorization prompts *)

Section Prompts.
Context {W : Type}.
Implicit Types (m : Method (W := W)) (s : Srv (W := W)).

(** A request with what surrounds it, from any connection. *)
Record Request := mkRequest {
  rq_env : Env;
  rq_req : pyval;
  rq_pid : Z;
  rq_uid : Z;
  rq_peer : option PeerIdentity;
}.

(** The requests the server handles, in the order it does. *)
Fixpoint run_requests (methods : list (Method (W := W))) (reqs : list Request) s : Srv :=
  match reqs with
  | [] => s
  | r :: rest =>
      run_requests methods rest
        (dispatch methods (rq_env r) (rq_req r) (rq_pid r) (rq_uid r) (rq_peer r) s).2
  end.

Definition limiter_of (id : nat) s : Limiter := default (new_limiter 12 60) (sv_limiters s !! id).
Definition asked_times (id : nat) s : list Z :=
  as_now <$> List.filter (fun a => bool_decide (as_limiter a = Some id)) (sv_asked s).

(** One step of a limiter: untouched, or checked once, and asked only when it
    allowed the call. *)
Definition lim_step (id : nat) (now : Z) s s' : Prop :=
  (limiter_of id s' = limiter_of id s /\ asked_times id s' = asked_times id s) \/
  (limiter_of id s' = (check_limit (limiter_of id s) now).2 /\
   (asked_times id s' = asked_times id s \/
    (check_limit (limiter_of id s) now).1.1 = true /\ asked_times id s' = asked_times id s ++ [now])).

Lemma asked_times_ask (id : nat) s (a : Asked) :
  asked_times id (ask s a) =
  asked_times id s ++ (if bool_decide (as_limiter a = Some id) then [as_now a] else []).
Proof.
  unfold asked_times. simpl. rewrite List.filter_app, fmap_app. simpl. by destruct (bool_decide _).
Qed.

Lemma lim_step_same (id : nat) (now : Z) s s' s'' :
  lim_step id now s s' -> sv_limiters s'' = sv_limiters s' -> sv_asked s'' = sv_asked s' ->
  lim_step id now s s''.
Proof. unfold lim_step, limiter_of, asked_times. by intros H -> ->. Qed.

(** The check of method [m] seen from limiter [id], then a possible question. *)
Lemma limiter_check_step (id : nat) (env : Env) m s s' :
  sv_limiters s' = sv_limiters (limiter_check env m s).2 ->
  (sv_asked s' = sv_asked s \/
   (limiter_check env m s).1.1 = true /\
   exists a, sv_asked s' = sv_asked s ++ [a] /\ as_limiter a = m_limiter m /\ as_now a = en_now env) ->
  lim_step id (en_now env) s s'.
Proof.
  intros Hl Ha. unfold lim_step.
  assert (Hasked : asked_times id s' = asked_times id s \/
            (limiter_check env m s).1.1 = true /\ m_limiter m = Some id /\
            asked_times id s' = asked_times id s ++ [en_now env]).
  { destruct Ha as [Ha|(Hok & a & Ha & Hal & Han)]; [left; unfold asked_times; by rewrite Ha|].
    assert (Heq : asked_times id s' = asked_times id (ask s a)) by (unfold asked_times; by rewrite Ha).
    rewrite Heq, asked_times_ask, Hal, Han. case_bool_decide as Hb; [by right|left].
    by rewrite app_nil_r. }
  unfold limiter_of in *. rewrite Hl. unfold limiter_check in *.
  destruct (m_limiter m) as [j|] eqn:Em.
  - destruct (check_limit _ (en_now env)) as [r l] eqn:Ec. cbn [snd fst sv_limiters set_limiters] in *.
    destruct (decide (j = id)) as [->|Hj].
    + right. rewrite lookup_insert_eq, Ec. split; [done|]. destruct Hasked as [?|(? & _ & ?)]; auto.
    + left. rewrite lookup_insert_ne by done. split; [done|].
      destruct Hasked as [?|(_ & Heq & _)]; [done|congruence].
  - left. split; [done|]. destruct Hasked as [?|(_ & ? & _)]; [done|congruence].
Qed.

Lemma gate_step (id : nat) (env : Env) m (action : string) (pid uid : Z)
    (peer : option PeerIdentity) (ps : Params) s :
  lim_step id (en_now env) s (gate env m action pid uid peer ps s).2.
Proof.
  apply (limiter_check_step id env m).
  - pose proof (gate_spec env m action pid uid peer ps s) as H.
    destruct (gate _ _ _ _ _ _ _ _). apply H.
  - unfold gate. pose proof (limiter_check_frame env m s) as (_ & _ & Hk & _).
    destruct (limiter_check env m s) as [[allowed audit] s1] eqn:E. cbn [fst snd] in *.
    destruct allowed; cbn [negb]; [|left; destruct audit; [|done]; cbn [snd];
      by rewrite (proj1 (proj2 (proj2 (audit_denial_frame _ _ _))))].
    destruct peer as [p|]; [|left; cbn [snd];
      by rewrite (proj1 (proj2 (proj2 (audit_denial_frame _ _ _))))].
    destruct (en_authz env) as [check|]; [|left; cbn [snd];
      by rewrite (proj1 (proj2 (proj2 (audit_denial_frame _ _ _))))].
    right. split; [done|].
    destruct (authorized _); cbn [snd]; rewrite ?(proj1 (proj2 (proj2 (audit_denial_frame _ _ _))));
      eexists; (split; [cbn; by rewrite Hk|done]).
Qed.

Lemma dispatch_step (id : nat) (methods : list (Method (W := W))) (env : Env) (req : pyval)
    (pid uid : Z) (peer : option PeerIdentity) s :
  lim_step id (en_now env) s (dispatch methods env req pid uid peer s).2.
Proof.
  assert (H0 : lim_step id (en_now env) s s) by by left.
  unfold dispatch. destruct req as [| | | | | | |d]; try exact H0.
  destruct (negb _); [exact H0|]. destruct (negb _); [exact H0|].
  destruct (hashable _); cbn [negb]; [|exact H0].
  destruct (n ← as_str _; find_method methods n) as [m|]; [|exact H0].
  destruct (params_of _) as [ps0|]; [|exact H0].
  destruct (m_polkit_action m) as [action|].
  - pose proof (gate_step id env m action pid uid peer (params_pop (PStr PEER_PARAM) ps0) s) as Hg.
    destruct (gate _ _ _ _ _ _ _ _) as [[o|] s1]; [exact Hg|]. cbn [snd] in *.
    pose proof (call_handler_spec env m (dict_get "id" d) (params_set (PStr PEER_PARAM)
      (match peer with Some p => PPeer p | None => PV PNone end)
      (params_pop (PStr PEER_PARAM) ps0)) s1) as Hh.
    destruct (call_handler _ _ _ _ _) as [r s2]. destruct Hh as (_ & H1 & H2).
    by eapply lim_step_same.
  - pose proof (call_handler_spec env m (dict_get "id" d) (params_pop (PStr PEER_PARAM) ps0) s) as Hh.
    destruct (call_handler _ _ _ _ _) as [r s2]. destruct Hh as (_ & H1 & H2).
    by eapply lim_step_same.
Qed.

(** The questions asked are among the calls the limiter allowed. *)
Definition prompts_ok (id : nat) (now : Z) s : Prop :=
  exists done, lim_ok (limiter_of id s) done now /\ sublist (asked_times id s) done.

Lemma lim_ok_later (l : Limiter) (done : list Z) (now now' : Z) :
  now <= now' -> lim_ok l done now -> lim_ok l done now'.
Proof.
  intros Hle [(old & Hd & Ho) Hp Hw]. split; [exists old; split; [done|]|..|done];
    eapply Forall_impl; try done; simpl; lia.
Qed.

Lemma prompts_step (id : nat) (now now' : Z) s s' :
  now <= now' -> prompts_ok id now s -> lim_step id now' s s' ->
  prompts_ok id now' s' /\ lim_limit (limiter_of id s') = lim_limit (limiter_of id s) /\
  lim_window_s (limiter_of id s') = lim_window_s (limiter_of id s).
Proof.
  intros Hle (done & Hok & Hsub) [[Hl Ha]|[Hl Ha]].
  - rewrite Hl. split; [|done]. exists done. rewrite Hl, Ha. split; [by eapply lim_ok_later | done].
  - pose proof (check_ok _ done now now' Hle Hok) as Hc.
    destruct (check_limit (limiter_of id s) now') as [[a u] l']. cbn [fst snd] in *.
    rewrite Hl. destruct Hc as (Hc & H1 & H2). split; [|done].
    eexists. rewrite Hl. split; [exact Hc|]. destruct Ha as [->|[-> ->]].
    + destruct a; [by apply sublist_inserts_r | done].
    + by apply sublist_app.
Qed.

Lemma run_prompts (id : nat) (methods : list (Method (W := W))) (reqs : list Request) (now : Z) s :
  prompts_ok id now s -> StronglySorted Z.le (now :: ((fun r => en_now (rq_env r)) <$> reqs)) ->
  let s' := run_requests methods reqs s in
  (exists now', prompts_ok id now' s') /\
  lim_limit (limiter_of id s') = lim_limit (limiter_of id s) /\
  lim_window_s (limiter_of id s') = lim_window_s (limiter_of id s).
Proof.
  revert now s. induction reqs as [|r reqs IH]; intros now s Hok Hs; simpl; [eauto|].
  apply StronglySorted_inv in Hs as [Hs Hf]. rewrite fmap_cons in Hs, Hf.
  apply Forall_cons in Hf as [Hle _].
  destruct (prompts_step id now (en_now (rq_env r)) s _ Hle Hok
    (dispatch_step id methods (rq_env r) (rq_req r) (rq_pid r) (rq_uid r) (rq_peer r) s))
    as (Hok' & <- & <-). by apply (IH _ _ Hok').
Qed.

Lemma sublist_count (w0 window : Z) (l k : list Z) :
  sublist l k -> count_in w0 window l <= count_in w0 window k.
Proof.
  unfold count_in. induction 1; simpl; [lia|..]; destruct (in_window _ _ _); simpl; lia.
Qed.
End Prompts.

(** A flood of requests cannot stack authorization prompts: however many
    requests arrive for gated methods that share a limiter, on however many
    connections, any window of the limiter's length contains at most its limit
    of polkit checks. *)
Theorem prompts_bounded {W : Type} (methods : list (Method (W := W))) (reqs : list Request)
    (s : Srv (W := W)) (id : nat) (w0 : Z) :
  StronglySorted Z.le ((fun r => en_now (rq_env r)) <$> reqs) ->
  sv_asked s = [] -> lim_stamps (limiter_of id s) = [] ->
  count_in w0 (lim_window_s (limiter_of id s)) (asked_times id (run_requests methods reqs s))
    <= Z.max 0 (lim_limit (limiter_of id s)).
Proof.
  intros Hs Ha Hst. destruct reqs as [|r reqs].
  { unfold count_in, asked_times. simpl. rewrite Ha. simpl. lia. }
  set (now := en_now (rq_env r)).
  assert (Hok : prompts_ok id now s).
  { exists []. split; [|unfold asked_times; by rewrite Ha]. split; simpl; [|done|].
    - exists []. rewrite Hst. done.
    - intros. unfold count_in. simpl. lia. }
  destruct (run_prompts id methods (r :: reqs) now s Hok) as ((now' & done & Hd & Hsub) & Hl & Hw).
  { rewrite fmap_cons in *. constructor; [done|]. apply StronglySorted_inv in Hs as [_ Hf].
    constructor; [lia|done]. }
  rewrite <- Hl, <- Hw. etrans; [by apply sublist_count|]. by apply lo_window with now'.
Qed.

(** A server with one gated method, asked three times within its window. *)
Module IpcExample.
Definition method1 : Method (W := nat) :=
  mkMethod "quarantine_file" (fun _ w => (Ok PNone, S w)) (Some "org.inspectord.quarantine"%string)
    (Some 0%nat) None.
Definition env_at (now : Z) : Env :=
  mkEnv now "ref" (Some (fun _ _ _ => mkAuthz "authorized" EmptyString)) (Some (fun _ => true)).
Definition req1 : pyval :=
  PDict [("jsonrpc", PStr "2.0"); ("schema_version", PStr "1.0.0"); ("id", PInt 1);
         ("method", PStr "quarantine_file"); ("params", PDict [("_peer", PStr "root")])]%string.
Definition reqs : list Request :=
  (fun now => mkRequest (env_at now) req1 7 1000 (Some (mkPeer 7 1000 99))) <$> [0; 1; 2].
Definition srv0 : Srv (W := nat) := mkSrv 0%nat {[ 0%nat := new_limiter 2 60 ]} [] [] [].
End IpcExample.

Lemma prompts_bounded_witness :
  count_in 0 60 (asked_times 0 (run_requests [IpcExample.method1] IpcExample.reqs IpcExample.srv0)) <= 2.
Proof.
  apply (prompts_bounded [IpcExample.method1] IpcExample.reqs IpcExample.srv0 0 0).
  - repeat constructor; vm_compute; discriminate.
  - reflexivity.
  - reflexivity.
Defined.

(** ** Peer identity *)

Lemma after_last_app (sep : ascii) (a b : string) :
  str_forall (fun c => negb (Ascii.eqb sep c)) b = true -> after_last sep (a +:+ String sep b) = b.
Proof.
  intros Hb. induction a as [|c a IH]; simpl; unfold str_exists.
  - by rewrite Hb, Ascii.eqb_refl.
  - rewrite str_forall_app. simpl. by rewrite Ascii.eqb_refl, andb_false_r.
Qed.

(** The fields of a [/proc/<pid>/stat] line after the command name. *)
Definition stat_field (w : string) : bool :=
  is_word w && str_forall (fun c => negb (Ascii.eqb ")" c)) w.

Lemma join_no_paren (ws : list string) :
  forallb stat_field ws = true ->
  str_forall (fun c => negb (Ascii.eqb ")" c)) (join " " ws) = true.
Proof.
  induction ws as [|w [|w' ws] IH]; [done|..]; cbn [forallb];
    intros [[_ Hw]%andb_prop Hr]%andb_prop; [exact Hw|].
  change (join " " (w :: w' :: ws)) with (w +:+ " " +:+ join " " (w' :: ws)).
  rewrite !str_forall_app, Hw. by apply IH.
Qed.

(** A process cannot forge its identity through its name: whatever the
    command name contains (spaces, parentheses, text that looks like a whole
    [stat] line), the start time read from the line is the twentieth field
    after the command, as the kernel wrote it. *)
Theorem start_time_not_spoofable (pid comm : string) (fields : list string) :
  forallb stat_field fields = true ->
  parse_start_time (pid +:+ " (" +:+ comm +:+ ") " +:+ join " " fields +:+ String newline EmptyString)
  = (w ← fields !! 19%nat; py_int w).
Proof.
  intros Hf. unfold parse_start_time.
  replace (pid +:+ " (" +:+ comm +:+ ") " +:+ join " " fields +:+ String newline EmptyString)
    with ((pid +:+ " (" +:+ comm) +:+ String ")" (String " " (join " " fields +:+ String newline EmptyString)))
    by by rewrite !sapp_assoc.
  rewrite after_last_app by (simpl; rewrite str_forall_app; simpl; by rewrite join_no_paren).
  change (split_ws (String " " ?s)) with (split_ws s). unfold split_ws. cbn [split_ws_aux].
  change (py_space " ") with true. cbn [String.eqb].
  fold (split_ws (join " " fields +:+ String newline EmptyString)).
  rewrite split_ws_join; [done|done|].
  eapply List.forallb_forall. intros w Hw. eapply List.forallb_forall in Hf; [|exact Hw].
  by apply andb_prop in Hf as [? _].
Qed.

Lemma start_time_not_spoofable_witness :
  parse_start_time
    ("42 (evil) R 1 1 1 1 1 1 1 1 1 1 1 1 1 1 1 1 1 1 666 0 0) S 1 42 42 0 -1 4194304 100 0 0 0 1 2 0 0 20 0 1 0 12345 9"
     +:+ String newline EmptyString) = Some 12345.
Proof.
  exact (start_time_not_spoofable "42" "evil) R 1 1 1 1 1 1 1 1 1 1 1 1 1 1 1 1 1 1 666 0 0"
    ["S"; "1"; "42"; "42"; "0"; "-1"; "4194304"; "100"; "0"; "0"; "0"; "1"; "2"; "0"; "0"; "20"; "0";
     "1"; "0"; "12345"; "9"]%string eq_refl).
Defined.

(** ** The authorization check *)

(** The check fails closed: it authorizes exactly when no other prompt is
    in progress and [pkcheck], run for that action and that process identity,
    exits with status 0; whatever it prints on its error output never
    authorizes. *)
Theorem polkit_fail_closed (busy : bool) (runner : list string -> RunOutcome) (action : string)
    (peer : PeerIdentity) (target : option string) (interactive : bool) :
  authorized (check_polkit busy runner action peer target interactive) = true <->
  busy = false /\
  exists stderr, runner (pkcheck_argv action peer target interactive) = RunFinished 0 stderr.
Proof.
  unfold check_polkit. destruct busy; [split; [done | by intros [? _]]|].
  destruct (runner _) as [rc err| | |text].
  2-4: split; [done | by intros [_ [? ?]]].
  unfold classify. destruct (Z.eqb_spec rc 0) as [->|Hrc].
  - split; [|done]. split; [done|]. by exists err.
  - split; [|intros [_ [e H]]; congruence].
    destruct (contains _ _); [done|]. by destruct (contains _ _).
Qed.
