(* ===== verification/Expr.v ===== *)
(** * The rule/hunt expression grammar ([inspectord/expr.py])

    The one parser behind both backends: [tokenize], [parse_leaf],
    [parse_expression], [parse_literal], [parse_list] and [path_segments],
    transcribed from the source. The two regular expressions of the module
    ([_LEAF_OP] and [_BOOL_TOKEN_RE]) are written out as matchers on the
    character list they scan. *)

From S2P Require Import Prelude.

(** ** Data *)

(** [LiteralValue = str | int | bool]. *)
Inductive LiteralValue :=
| LStr (s : string)
| LInt (z : Z)
| LBool (b : bool).

#[export] Instance LiteralValue_eq_dec : EqDecision LiteralValue.
Proof. solve_decision. Defined.

(** [Node = Leaf | InvalidLeaf]. *)
Record Leaf := mkLeaf {
  leaf_path : string;
  leaf_op : string;
  leaf_rhs : string;
  leaf_negated : bool;
}.

Record InvalidLeaf := mkInvalidLeaf {
  inv_text : string;
  inv_negated : bool;
}.

Inductive Node :=
| NLeaf (l : Leaf)
| NInvalid (l : InvalidLeaf).

#[export] Instance Leaf_eq_dec : EqDecision Leaf.
Proof. solve_decision. Defined.
#[export] Instance InvalidLeaf_eq_dec : EqDecision InvalidLeaf.
Proof. solve_decision. Defined.
#[export] Instance Node_eq_dec : EqDecision Node.
Proof. solve_decision. Defined.

Definition node_negated (n : Node) : bool :=
  match n with NLeaf l => leaf_negated l | NInvalid l => inv_negated l end.

(** [ParsedExpression]: an OR of AND groups. *)
Record ParsedExpression := mkParsed { groups : list (list Node) }.

Definition nodes (p : ParsedExpression) : list Node := List.concat (groups p).

(** [LEAF_OPS]. *)
Definition LEAF_OPS : list string :=
  ["=="; "!="; "IN"; "NOT IN"; "STARTSWITH"; "ENDSWITH"; "CONTAINS"; "MATCHES"]%string.

(** ** The boolean tokenizer: [\bAND\b|\bOR\b|\bNOT\b(?!\s+IN\b)] *)

(** [\b] after a keyword (whose last letter is a word character): the next
    character is not a word character. *)
Definition boundary (s : string) : bool :=
  match s with
  | EmptyString => true
  | String c _ => negb (py_word c)
  end.

(** [\s+IN\b] at the head of [s]. *)
Definition ws_in (s : string) : bool :=
  match s with
  | String c _ =>
      py_space c &&
      match lstrip s with
      | String "I" (String "N" rest) => boundary rest
      | _ => false
      end
  | EmptyString => false
  end.

(** One alternative of [_BOOL_TOKEN_RE] at the head of [s], given that no
    word character precedes. *)
Definition bool_kw (s : string) : option string :=
  if startswith "AND" s && boundary (str_drop 3 s) then Some "AND"%string
  else if startswith "OR" s && boundary (str_drop 2 s) then Some "OR"%string
  else if startswith "NOT" s && boundary (str_drop 3 s) && negb (ws_in (str_drop 3 s))
       then Some "NOT"%string
  else None.

(** [parts.append(expr[last:start].strip())], dropping the empty ones as the
    final comprehension of [tokenize] does. [seg] holds the characters of
    [expr[last:start]] in reverse. *)
Definition flush (seg : string) : list string :=
  let t := strip (str_rev seg) in
  if String.eqb t EmptyString then [] else [t].

(** The [finditer] loop: [prev_word] says whether the character before [s] is
    a word character, [skip] counts the remaining characters of a keyword that
    has just been emitted. *)
Fixpoint scan (s : string) (prev_word : bool) (skip : nat) (seg : string) : list string :=
  match s with
  | EmptyString => flush seg
  | String c s' =>
      match skip with
      | S k => scan s' (py_word c) k seg
      | O =>
          match (if prev_word then None else bool_kw s) with
          | Some kw =>
              flush seg ++ kw :: scan s' (py_word c) (String.length kw - 1) EmptyString
          | None => scan s' (py_word c) O (String c seg)
          end
      end
  end.

Definition tokenize (expr : string) : list string := scan expr false O EmptyString.

(** ** Leaves: [_LEAF_OP] *)

(** [[a-zA-Z0-9_.]]. *)
Definition path_char (c : ascii) : bool := ident_char c || Ascii.eqb c "."%char.

Fixpoint span (p : ascii -> bool) (s : string) : string * string :=
  match s with
  | EmptyString => (EmptyString, EmptyString)
  | String c s' =>
      if p c then let '(a, b) := span p s' in (String c a, b)
      else (EmptyString, s)
  end.

(** [(?P<path>[a-zA-Z_][a-zA-Z0-9_.]* )]. *)
Definition match_path (s : string) : option (string * string) :=
  match s with
  | String c _ => if ident_start c then Some (span path_char s) else None
  | EmptyString => None
  end.

(** [(?P<op>==|!=|IN|NOT\s+IN|STARTSWITH|...)], with the whitespace of
    [NOT  IN] already collapsed to one space as [re.sub(r"\s+", " ", op)]
    does. *)
Definition fixed_ops : list string :=
  ["=="; "!="; "IN"; "STARTSWITH"; "ENDSWITH"; "CONTAINS"; "MATCHES"]%string.

Definition match_op (s : string) : option (string * string) :=
  match List.find (fun op => startswith op s) fixed_ops with
  | Some op => Some (op, str_drop (String.length op) s)
  | None =>
      if startswith "NOT" s then
        match str_drop 3 s with
        | String c _ as t =>
            if py_space c then
              match lstrip t with
              | String "I" (String "N" rest) => Some ("NOT IN"%string, rest)
              | _ => None
              end
            else None
        | EmptyString => None
        end
      else None
  end.

(** [\s+(?P<rhs>.+?)\s*$] followed by [rhs.strip()]. When a non-space
    character follows the separator the lazy group stretches to the last one,
    and [.] forbids a newline inside; when only whitespace is left the
    separator gives one character back, which must not be a newline, and the
    stripped group is empty. *)
Definition match_rhs (s : string) : option string :=
  match s with
  | String c s' =>
      if py_space c then
        match rstrip (lstrip s) with
        | EmptyString =>
            if str_exists (fun d => negb (Ascii.eqb d newline)) s'
            then Some EmptyString else None
        | rhs =>
            if str_forall (fun d => negb (Ascii.eqb d newline)) rhs
            then Some rhs else None
        end
      else None
  | EmptyString => None
  end.

(** [\s+] between two groups: at least one whitespace character. *)
Definition skip_ws1 (s : string) : option string :=
  match s with
  | String c _ => if py_space c then Some (lstrip s) else None
  | EmptyString => None
  end.

(** [_LEAF_OP.match(text)]: (path, op, stripped rhs). *)
Definition match_leaf_op (text : string) : option (string * string * string) :=
  '(path, r1) ← match_path (lstrip text);
  r2 ← skip_ws1 r1;
  '(op, r3) ← match_op r2;
  rhs ← match_rhs r3;
  Some (path, op, rhs).

Definition parse_leaf (text : string) (negated : bool) : Node :=
  match match_leaf_op text with
  | None => NInvalid (mkInvalidLeaf (strip text) negated)
  | Some (path, op, rhs) => NLeaf (mkLeaf path op rhs negated)
  end.

(** ** [parse_expression]

    [done] holds the closed groups and [cur] the open one, [groups[-1]]. *)
Definition close_groups (done : list (list Node)) (cur : list Node) : list (list Node) :=
  match cur with [] => done | _ => done ++ [cur] end.

Fixpoint parse_tokens (tokens : list string) (done : list (list Node)) (cur : list Node)
  : list (list Node) :=
  match tokens with
  | [] => close_groups done cur
  | token :: rest =>
      if String.eqb token "NOT" then
        match rest with
        | [] => close_groups done (cur ++ [parse_leaf EmptyString true])
        | following :: rest' => parse_tokens rest' done (cur ++ [parse_leaf following true])
        end
      else if String.eqb token "AND" then parse_tokens rest done cur
      else if String.eqb token "OR" then parse_tokens rest (done ++ [cur]) []
      else parse_tokens rest done (cur ++ [parse_leaf token false])
  end.

Definition parse_expression (expr : string) : ParsedExpression :=
  mkParsed (parse_tokens (tokenize expr) [] []).

(** ** Right-hand sides *)

Definition dquote : ascii := "034"%char.
Definition squote : ascii := "039"%char.

Definition quoted (q : ascii) (raw : string) : bool :=
  let qs := String q EmptyString in startswith qs raw && endswith qs raw.

Definition parse_literal (raw0 : string) : LiteralValue :=
  let raw := strip raw0 in
  if quoted dquote raw then LStr (str_inner raw)
  else if quoted squote raw then LStr (str_inner raw)
  else if String.eqb raw "true" then LBool true
  else if String.eqb raw "false" then LBool false
  else match py_int raw with
       | Some z => LInt z
       | None => LStr raw
       end.

Definition parse_list (raw0 : string) : list LiteralValue :=
  let raw := strip raw0 in
  if negb (startswith "[" raw && endswith "]" raw) then []
  else
    let inner := strip (str_inner raw) in
    if String.eqb inner EmptyString then []
    else parse_literal ∘ strip <$> split_on ","%char inner.

Definition path_segments (path : string) : list string := split_on "."%char path.

(** ** Examples (from the module's own test-suite) *)

Example tok_ex1 :
  tokenize "a.b NOT IN [1] AND NOT c.d == ANDROID OR NOT" =
  ["a.b NOT IN [1]"; "AND"; "NOT"; "c.d == ANDROID"; "OR"; "NOT"]%string.
Proof. vm_compute. reflexivity. Qed.

Example parse_ex1 :
  groups (parse_expression "a.x == 1 AND b.y NOT   IN [x, 2] OR NOT c.z CONTAINS true") =
  [[NLeaf (mkLeaf "a.x" "==" "1" false); NLeaf (mkLeaf "b.y" "NOT IN" "[x, 2]" false)];
   [NLeaf (mkLeaf "c.z" "CONTAINS" "true" true)]].
Proof. vm_compute. reflexivity. Qed.

Example parse_ex2 :
  groups (parse_expression "NOT AND a.x == '1'") =
  [[NInvalid (mkInvalidLeaf "AND" true); NLeaf (mkLeaf "a.x" "==" "'1'" false)]].
Proof. vm_compute. reflexivity. Qed.

Example literal_ex :
  parse_literal <$> ["'a b'"; "true"; " 1_000 "; "-5"; "5.5"; "bare"]%string =
  [LStr "a b"; LBool true; LInt 1000; LInt (-5); LStr "5.5"; LStr "bare"].
Proof. vm_compute. reflexivity. Qed.

(** ** Printing, and the round trip

    The concrete syntax of a parsed expression. *)

Definition leaf_text (l : Leaf) : string :=
  leaf_path l +:+ " " +:+ leaf_op l +:+ " " +:+ leaf_rhs l.

Definition print_leaf (l : Leaf) : string :=
  if leaf_negated l then "NOT " +:+ leaf_text l else leaf_text l.

Definition print_node (n : Node) : string :=
  match n with NLeaf l => print_leaf l | NInvalid l => inv_text l end.

Definition print_group (g : list Node) : string := join " AND " (print_node <$> g).

Definition print_expression (p : ParsedExpression) : string :=
  join " OR " (print_group <$> groups p).

(** A leaf the grammar can express: a path of path characters, one of the
    eight operators, a stripped one-line right-hand side, and no boolean
    keyword standing as a word of its own anywhere in the text. *)
Definition wf_leaf (l : Leaf) : bool :=
  match leaf_path l with
  | String c p => ident_start c && str_forall path_char p
  | EmptyString => false
  end
  && bool_decide (leaf_op l ∈ LEAF_OPS)
  && negb (String.eqb (leaf_rhs l) EmptyString)
  && String.eqb (strip (leaf_rhs l)) (leaf_rhs l)
  && str_forall (fun d => negb (Ascii.eqb d newline)) (leaf_rhs l)
  && bool_decide (tokenize (leaf_text l) = [leaf_text l])
  && negb (leaf_negated l && ws_in (String " " (leaf_text l))).

Definition wf_node (n : Node) : bool :=
  match n with NLeaf l => wf_leaf l | NInvalid _ => false end.

Definition wf_group (g : list Node) : bool :=
  negb (bool_decide (g = [])) && forallb wf_node g.

Definition wf_expression (p : ParsedExpression) : bool := forallb wf_group (groups p).

(** *** The scanner *)

Lemma flush_ws (seg w : string) :
  str_forall py_space w = true -> flush (seg +:+ w) = flush seg.
Proof.
  intros Hw. unfold flush. rewrite str_rev_app_distr, strip_ws_app; [done|].
  clear seg. induction w as [|c w IH]; [done|].
  rewrite str_rev_cons, str_forall_app. simpl in *.
  apply andb_prop in Hw as [-> Hw]. by rewrite IH.
Qed.

Lemma flush_cons_ws (c : ascii) (seg : string) :
  py_space c = true -> flush (String c seg) = flush seg.
Proof.
  intros Hc. unfold flush. rewrite str_rev_cons, strip_app_ws; [done|].
  simpl. by rewrite Hc.
Qed.

(** Whitespace in front of the pending segment does not change the tokens. *)
Lemma scan_seg_ws (s : string) (pw : bool) (k : nat) (seg w : string) :
  str_forall py_space w = true -> scan s pw k (seg +:+ w) = scan s pw k seg.
Proof.
  intros Hw. revert pw k seg. induction s as [|c s IH]; intros pw k seg.
  - by apply flush_ws.
  - cbn [scan]. destruct k as [|k]; [|apply IH].
    destruct (if pw then None else bool_kw (String c s)) as [kw|].
    + by rewrite flush_ws.
    + apply (IH _ _ (String c seg)).
Qed.

(** A boolean keyword between spaces, the separators of the printer. *)
Definition sep_kw (kw : string) : Prop := kw = "AND" \/ kw = "OR".

Lemma boundary_app_space (s t : string) :
  boundary (s +:+ String " " t) = boundary s.
Proof. by destruct s. Qed.

Lemma lstrip_app_sep (s kw r : string) :
  sep_kw kw ->
  (exists c l, lstrip s = String c l /\
     lstrip (s +:+ String " " (kw +:+ r)) = String c (l +:+ String " " (kw +:+ r)))
  \/ (lstrip s = EmptyString /\ lstrip (s +:+ String " " (kw +:+ r)) = kw +:+ r).
Proof.
  intros Hkw. destruct (lstrip s) as [|c l] eqn:E.
  - right. split; [done|].
    rewrite lstrip_ws_app by by apply lstrip_empty_all_ws.
    by destruct Hkw as [-> | ->].
  - left. exists c, l. split; [done|]. rewrite lstrip_app_nonempty by by rewrite E.
    by rewrite E.
Qed.

(** The two characters of [IN], followed by a boundary. *)
Definition in_word (s : string) : bool :=
  match s with
  | String "I" (String "N" rest) => boundary rest
  | _ => false
  end.

Lemma in_word_app_sep (c : ascii) (l kw r : string) :
  in_word (String c (l +:+ String " " (kw +:+ r))) = in_word (String c l).
Proof.
  destruct (decide (c = "I"%char)) as [->|Hc].
  - destruct l as [|d l]; [done|]. simpl.
    destruct (decide (d = "N"%char)) as [->|Hd]; [apply boundary_app_space|].
    destruct d as [[] [] [] [] [] [] [] []]; congruence || done.
  - destruct c as [[] [] [] [] [] [] [] []]; congruence || done.
Qed.

Lemma ws_in_app_sep (s kw r : string) :
  sep_kw kw -> ws_in (s +:+ String " " (kw +:+ r)) = ws_in s.
Proof.
  intros Hkw. destruct s as [|c s]; [by destruct Hkw as [-> | ->]|].
  change (py_space c && in_word (lstrip (String c s +:+ String " " (kw +:+ r))) =
          py_space c && in_word (lstrip (String c s))).
  destruct (lstrip_app_sep (String c s) kw r Hkw) as [(d&l&->&->)|[-> ->]].
  - by rewrite in_word_app_sep.
  - by destruct Hkw as [-> | ->].
Qed.

Lemma startswith_app_space (p s t : string) :
  str_forall (fun c => negb (Ascii.eqb c " ")) p = true ->
  startswith p (s +:+ String " " t) = startswith p s.
Proof.
  revert s. induction p as [|a p IH]; intros s Hp; [done|].
  simpl in Hp. apply andb_prop in Hp as [Ha Hp].
  destruct s as [|b s]; simpl.
  - apply negb_true_iff in Ha. by rewrite Ha.
  - by rewrite IH.
Qed.

Lemma str_drop_app_le (n : nat) (s t : string) :
  (n <= String.length s)%nat -> str_drop n (s +:+ t) = str_drop n s +:+ t.
Proof.
  revert s. induction n as [|n IH]; intros s Hn; [done|].
  destruct s as [|c s]; simpl in *; [lia|]. apply IH. lia.
Qed.

Lemma startswith_length (p s : string) :
  startswith p s = true -> (String.length p <= String.length s)%nat.
Proof. intros [r ->]%startswith_spec. rewrite slength_app. lia. Qed.

Lemma bool_kw_app_sep (s kw r : string) :
  sep_kw kw -> bool_kw (s +:+ String " " (kw +:+ r)) = bool_kw s.
Proof.
  intros Hkw. unfold bool_kw. rewrite !startswith_app_space by done.
  destruct (startswith "AND" s) eqn:E1;
    [apply startswith_length in E1; simpl in E1|];
  (destruct (startswith "OR" s) eqn:E2;
    [apply startswith_length in E2; simpl in E2|]);
  (destruct (startswith "NOT" s) eqn:E3;
    [apply startswith_length in E3; simpl in E3|]);
  cbn [andb]; rewrite ?str_drop_app_le by lia;
  by rewrite ?boundary_app_space, ?ws_in_app_sep.
Qed.

Lemma bool_kw_length (s kw : string) :
  bool_kw s = Some kw ->
  (String.length kw <= String.length s)%nat /\ (0 < String.length kw)%nat.
Proof.
  unfold bool_kw. intros H.
  repeat case_match; simplify_eq;
  repeat match goal with E : _ && _ = true |- _ => apply andb_prop in E as [E ?] end;
  match goal with E : startswith _ _ = true |- _ => apply startswith_length in E end;
  split; done || (simpl; lia).
Qed.

(** The separator closes the segment, emits its keyword and starts afresh. *)
Lemma scan_sep (kw r seg : string) (pw : bool) :
  sep_kw kw ->
  scan (String " " (kw +:+ String " " r)) pw 0 seg = flush seg ++ kw :: tokenize r.
Proof.
  intros Hkw.
  assert (forall x, scan (String " " r) x 0 EmptyString = tokenize r) as Hr.
  { intros x. cbn [scan].
    replace (if x then None else bool_kw (String " " r)) with (@None string) by by destruct x.
    apply (scan_seg_ws r false 0 EmptyString " "). done. }
  assert (scan (String " " (kw +:+ String " " r)) pw 0 seg =
          scan (kw +:+ String " " r) false 0 (String " " seg)) as ->.
  { cbn [scan].
    by replace (if pw then None else bool_kw (String " " (kw +:+ String " " r)))
      with (@None string) by by destruct pw. }
  destruct Hkw as [-> | ->]; cbn; rewrite flush_cons_ws by done; by rewrite <- (Hr true).
Qed.

Lemma scan_app_sep (s kw r seg : string) (pw : bool) (k : nat) :
  sep_kw kw -> (k <= String.length s)%nat ->
  scan (s +:+ String " " (kw +:+ String " " r)) pw k seg =
  scan s pw k seg ++ kw :: tokenize r.
Proof.
  intros Hkw. revert pw k seg. induction s as [|c s IH]; intros pw k seg Hk.
  - simpl in Hk. assert (k = 0)%nat as -> by lia. by apply scan_sep.
  - cbn [String.append scan]. destruct k as [|k].
    + change (String c (s +:+ String " " (kw +:+ String " " r)))
        with (String c s +:+ String " " (kw +:+ String " " r)).
      rewrite bool_kw_app_sep by done.
      destruct pw; [apply IH; lia|].
      destruct (bool_kw (String c s)) as [kw'|] eqn:E; [|apply IH; lia].
      apply bool_kw_length in E as [E ?]. simpl in E.
      rewrite IH by lia. by rewrite <- app_assoc.
    + apply IH. simpl in Hk. lia.
Qed.

Lemma tokenize_sep (s kw r : string) :
  sep_kw kw ->
  tokenize (s +:+ String " " (kw +:+ String " " r)) = tokenize s ++ kw :: tokenize r.
Proof. intros Hkw. apply scan_app_sep; [done | lia]. Qed.

Lemma tokenize_not (t : string) :
  ws_in (String " " t) = false -> tokenize ("NOT " +:+ t) = "NOT"%string :: tokenize t.
Proof.
  intros Ht. unfold tokenize. cbn [String.append scan].
  replace (bool_kw (String "N" (String "O" (String "T" (String " " t)))))
    with (Some "NOT"%string).
  - cbn. f_equal. apply (scan_seg_ws t false 0 EmptyString " "). done.
  - unfold bool_kw. cbn -[ws_in]. by rewrite Ht.
Qed.

(** *** Leaves *)

Lemma span_forall (p : ascii -> bool) (a s : string) (c : ascii) :
  str_forall p a = true -> p c = false -> span p (a +:+ String c s) = (a, String c s).
Proof.
  intros Ha Hc. induction a as [|x a IH]; simpl in *; [by rewrite Hc|].
  apply andb_prop in Ha as [-> Ha]. by rewrite IH.
Qed.

Lemma match_path_app (path s : string) (c : ascii) (p : string) :
  path = String c p -> ident_start c && str_forall path_char p = true ->
  match_path (path +:+ String " " s) = Some (path, String " " s).
Proof.
  intros -> [Hc Hp]%andb_prop.
  unfold match_path. cbn [String.append]. rewrite Hc. f_equal.
  change (String c (p +:+ String " " s)) with (String c p +:+ String " " s).
  apply span_forall; [|done]. simpl. rewrite Hp, andb_true_r.
  unfold path_char, ident_char. by rewrite Hc.
Qed.

Lemma match_op_app (op s : string) :
  op ∈ LEAF_OPS -> match_op (op +:+ String " " s) = Some (op, String " " s).
Proof. intros Hop. unfold LEAF_OPS in Hop. set_unfold. by destruct_or! Hop; subst. Qed.

(** A non-empty string [strip] leaves alone starts with a non-space. *)
Lemma strip_id_head (s : string) :
  s <> EmptyString -> strip s = s -> lstrip s = s /\ rstrip s = s.
Proof.
  unfold strip. intros Hne H.
  assert (lstrip s = s) as E; [|by rewrite E in H].
  destruct s as [|c s]; [done|]. simpl in *. destruct (py_space c); [|done].
  exfalso. assert (String.length (rstrip (lstrip s)) <= String.length s)%nat as Hl.
  { clear. assert (forall t, String.length (rstrip t) <= String.length t)%nat as Hr.
    { induction t as [|d t IH]; simpl; [done|].
      destruct (rstrip t); [destruct (py_space d)|]; simpl in *; lia. }
    assert (forall t, String.length (lstrip t) <= String.length t)%nat as Hl.
    { induction t as [|d t IH]; simpl; [done|]. destruct (py_space d); simpl; lia. }
    etrans; [apply Hr | apply Hl]. }
  rewrite H in Hl. simpl in Hl. lia.
Qed.

Lemma match_rhs_ok (rhs : string) :
  rhs <> EmptyString -> strip rhs = rhs ->
  str_forall (fun d => negb (Ascii.eqb d newline)) rhs = true ->
  match_rhs (String " " rhs) = Some rhs.
Proof.
  intros Hne Hs Hnl. destruct (strip_id_head rhs Hne Hs) as [Hl Hr].
  unfold match_rhs. change (lstrip (String " " rhs)) with (lstrip rhs).
  cbn -[rstrip lstrip str_forall]. rewrite Hl, Hr.
  destruct rhs; [done|]. by rewrite Hnl.
Qed.

Lemma parse_leaf_text (l : Leaf) :
  wf_leaf l = true -> parse_leaf (leaf_text l) (leaf_negated l) = NLeaf l.
Proof.
  destruct l as [path op rhs neg]. unfold wf_leaf, parse_leaf, leaf_text. simpl.
  intros [[[[[[Hp Hop%bool_decide_eq_true_1]%andb_prop Hr]%andb_prop Hs%String.eqb_eq]%andb_prop
    Hnl]%andb_prop _]%andb_prop _]%andb_prop.
  apply negb_true_iff, String.eqb_neq in Hr.
  destruct path as [|c p] eqn:Epath; [done|]. rewrite <- Epath.
  assert (match_leaf_op (path +:+ String " " (op +:+ String " " rhs)) = Some (path, op, rhs)) as E.
  { unfold match_leaf_op.
    assert (lstrip (path +:+ String " " (op +:+ String " " rhs)) =
            path +:+ String " " (op +:+ String " " rhs)) as ->.
    { rewrite Epath. simpl. apply andb_prop in Hp as [Hc _].
      replace (py_space c) with false; [done|].
      clear -Hc. by destruct c as [[] [] [] [] [] [] [] []]. }
    rewrite (match_path_app path _ c p Epath Hp). cbn -[match_op match_rhs].
    replace (lstrip (op +:+ String " " rhs)) with (op +:+ String " " rhs).
    - change (py_space " ") with true. cbn -[match_op match_rhs].
      rewrite match_op_app by done. cbn -[match_rhs]. by rewrite match_rhs_ok.
    - clear -Hop. unfold LEAF_OPS in Hop. set_unfold. by destruct_or! Hop; subst. }
  cbn in E |- *. rewrite Epath in E |- *. by rewrite E.
Qed.

(** *** Groups *)

Definition node_tokens (n : Node) : list string :=
  match n with
  | NLeaf l => if leaf_negated l then ["NOT"%string; leaf_text l] else [leaf_text l]
  | NInvalid l => [inv_text l]
  end.

(** The tokens of a printed list, [kw] between the items. *)
Fixpoint sep_tokens {A} (kw : string) (tok : A -> list string) (l : list A) : list string :=
  match l with
  | [] => []
  | [x] => tok x
  | x :: xs => tok x ++ kw :: sep_tokens kw tok xs
  end.

Lemma tokenize_join {A} (kw : string) (pr : A -> string) (tok : A -> list string) (l : list A) :
  sep_kw kw -> Forall (fun x => tokenize (pr x) = tok x) l ->
  tokenize (join (" " +:+ kw +:+ " ") (pr <$> l)) = sep_tokens kw tok l.
Proof.
  intros Hkw. induction l as [|x l IH]; [done|].
  intros [Hx Hl]%Forall_cons. specialize (IH Hl). destruct l as [|y l]; [done|].
  cbn [fmap list_fmap join sep_tokens] in *.
  cbn [String.append]. rewrite sapp_assoc. cbn [String.append].
  rewrite tokenize_sep, Hx by done. by rewrite <- IH.
Qed.

Lemma tokenize_node (n : Node) : wf_node n = true -> tokenize (print_node n) = node_tokens n.
Proof.
  destruct n as [l|]; [|done]. cbn [wf_node print_node node_tokens]. unfold wf_leaf, print_leaf.
  intros [[_ Ht%bool_decide_eq_true_1]%andb_prop Hn]%andb_prop.
  destruct (leaf_negated l); [|done].
  rewrite tokenize_not, Ht; [done|]. by destruct (ws_in _).
Qed.

Lemma leaf_text_not_kw (l : Leaf) (kw : string) :
  str_forall (fun c => negb (Ascii.eqb c " ")) kw = true -> String.eqb (leaf_text l) kw = false.
Proof.
  intros Hkw. apply String.eqb_neq. intros E. rewrite <- E in Hkw.
  unfold leaf_text in Hkw. apply str_forall_spec in Hkw. done.
Qed.

Lemma parse_tokens_node (n : Node) rest done cur :
  wf_node n = true ->
  parse_tokens (node_tokens n ++ rest) done cur = parse_tokens rest done (cur ++ [n]).
Proof.
  destruct n as [l|]; [|done]. intros Hwf. cbn [node_tokens wf_node] in *.
  pose proof (parse_leaf_text l Hwf) as Hp. destruct (leaf_negated l).
  - cbn -[parse_leaf]. by rewrite Hp.
  - cbn -[parse_leaf]. rewrite !leaf_text_not_kw by done. by rewrite Hp.
Qed.

Lemma parse_tokens_group (g : list Node) rest done cur :
  forallb wf_node g = true ->
  parse_tokens (sep_tokens "AND" node_tokens g ++ rest) done cur =
  parse_tokens rest done (cur ++ g).
Proof.
  revert cur. induction g as [|n g IH]; intros cur Hg; [by rewrite app_nil_r|].
  cbn in Hg. apply andb_prop in Hg as [Hn Hg]. destruct g as [|m g].
  - by apply parse_tokens_node.
  - cbn [sep_tokens]. rewrite <- app_assoc, parse_tokens_node by done.
    change (parse_tokens (sep_tokens "AND" node_tokens (m :: g) ++ rest) done (cur ++ [n]) =
            parse_tokens rest done (cur ++ n :: m :: g)).
    rewrite IH by done. by rewrite <- app_assoc.
Qed.

Lemma parse_tokens_groups (gs : list (list Node)) done :
  forallb wf_group gs = true ->
  parse_tokens (sep_tokens "OR" (sep_tokens "AND" node_tokens) gs) done [] = done ++ gs.
Proof.
  revert done. induction gs as [|g gs IH]; intros done Hgs; [by rewrite app_nil_r|].
  cbn in Hgs. apply andb_prop in Hgs as [[Hne Hg]%andb_prop Hgs].
  assert (close_groups done g = done ++ [g]) as Hclose by by destruct g.
  destruct gs as [|g' gs].
  - cbn [sep_tokens]. rewrite <- (app_nil_r (sep_tokens "AND" _ _)).
    by rewrite parse_tokens_group.
  - cbn [sep_tokens]. rewrite parse_tokens_group by done. cbn [app].
    change (parse_tokens (sep_tokens "OR" (sep_tokens "AND" node_tokens) (g' :: gs))
              (done ++ [g]) [] = done ++ g :: g' :: gs).
    rewrite IH by done. by rewrite <- app_assoc.
Qed.

(** C30 (round trip): printing a well-formed expression (an OR of non-empty AND
    groups of leaves, each optionally negated) and parsing the text gives the
    expression back: precedence, [NOT]'s reach, [NOT IN], paths, operators and
    right-hand sides are all recovered exactly. *)
Theorem parse_print_roundtrip (p : ParsedExpression) :
  wf_expression p = true -> parse_expression (print_expression p) = p.
Proof.
  destruct p as [gs]. unfold wf_expression, parse_expression, print_expression. simpl.
  intros Hgs. f_equal.
  rewrite (tokenize_join "OR" print_group (sep_tokens "AND" node_tokens)).
  - by rewrite parse_tokens_groups.
  - by right.
  - apply Forall_forall. intros g Hg. apply (tokenize_join "AND" print_node node_tokens).
    + by left.
    + apply Forall_forall. intros n Hn. apply tokenize_node.
      pose proof (proj1 (forallb_forall _ _) Hgs g (proj1 (list_elem_of_In _ _) Hg))
        as [_ Hg']%andb_prop.
      apply (proj1 (forallb_forall _ _) Hg' n (proj1 (list_elem_of_In _ _) Hn)).
Qed.

Definition sample_expression : ParsedExpression :=
  mkParsed [[NLeaf (mkLeaf "process.name" "==" "'curl'" false);
             NLeaf (mkLeaf "source.ip" "NOT IN" "[1, 2]" true)];
            [NLeaf (mkLeaf "event.action" "CONTAINS" "x y" true)]].

Lemma parse_print_roundtrip_witness :
  wf_expression sample_expression = true /\
  parse_expression (print_expression sample_expression) = sample_expression.
Proof.
  split; [vm_compute; reflexivity|].
  apply parse_print_roundtrip. vm_compute. reflexivity.
Defined.
