(* ===== verification/RuleEval.v ===== *)
(** * YAML rules and their evaluator ([inspectord/rules/*.py])

    [rules/base.py] ([Match], [EvalContext]), [rules/yaml_loader.py] (loading a
    rule from a mapping and evaluating its expressions against an event) and
    [rules/registry.py] (running every rule, a raising rule isolated).

    Three things the code calls are parameters of the section: the attributes
    pydantic's model class itself has ([class_attr]), Python's regular
    expression search ([re_search]) and [str()] of the values whose text is
    not modelled, floats and containers ([str_other]). *)

From S2P Require Import Prelude Schemas Expr.

(** The exceptions evaluation can raise. *)
Inductive PyExc := TypeError | ReError | ValueError | YamlRuleError (msg : string).

(** ** [rules/base.py] *)

Record Match := mkMatch {
  m_rule_id : string;
  m_severity : string;
  m_category : string;
  m_dedup_key : string;
  m_primary_entity_kind : string;
  m_primary_entity_key : string;
  m_short : string;
  m_detail : string;
  m_rule_name : string;
  m_why : string;
  m_false_positives : list pyval;
  m_triggering_event_ids : list string;
  m_labels : list pyval;
  m_dedup_window_s : option Q;
}.

Record EvalContext := mkCtx {
  ctx_event : Event;
  ctx_history : list Event;
}.

(** [recent_events(window_s=...)]: the window in microseconds. *)
Definition recent_events (ctx : EvalContext) (window_us : Z) : list Event :=
  let cutoff := ev_ts (ctx_event ctx) - window_us in
  List.filter (fun e => cutoff <=? ev_ts e) (ctx_history ctx).

(** ** Loading ([load_yaml_rule_from_dict]) *)

Record YamlRule := mkRule {
  r_rule_id : string;
  r_name : string;
  r_severity : string;
  r_category : string;
  r_why : string;
  r_false_positives : list pyval;
  r_detect_any_of : list string;
  r_short_tpl : string;
  r_detail_tpl : string;
  r_version : string;
  r_labels : list pyval;
  r_dedup_window_s : option Q;
}.

Section Rules.
Context (class_attr : string -> pyval)
        (re_search : string -> string -> result PyExc bool)
        (str_other : pyval -> string).

(** [str(v)]. *)
Definition py_str (v : pyval) : string :=
  match v with
  | PNone => "None"
  | PBool true => "True"
  | PBool false => "False"
  | PInt z => str_of_Z z
  | PStr s => s
  | _ => str_other v
  end.

(** [list(v)]: a string iterates its characters, a dict its keys. *)
Fixpoint chars (s : string) : list pyval :=
  match s with
  | EmptyString => []
  | String c s' => PStr (String c EmptyString) :: chars s'
  end.
Definition py_list (v : pyval) : result PyExc (list pyval) :=
  match v with
  | PList l => Ok l
  | PStr s => Ok (chars s)
  | PDict d => Ok ((fun kv => PStr kv.1) <$> d)
  | _ => Err TypeError
  end.

Definition required_keys : list string :=
  ["id"; "name"; "severity"; "category"; "detect"; "short"; "detail"]%string.

(** [_parse_dedup_window]: a positive number, or absent. *)
Definition parse_dedup_window (data : dict) : result PyExc (option Q) :=
  let bad := Err (YamlRuleError "dedup_window_s must be a positive number of seconds") in
  match dict_get "dedup_window_s" data with
  | PNone => Ok None
  | PInt z => if z <=? 0 then bad else Ok (Some (inject_Z z))
  | PFloat q => if Qle_bool q 0 then bad else Ok (Some q)
  | _ => bad
  end.

(** [data.get(k) or []] passed to [list]. *)
Definition get_list (k : string) (data : dict) : result PyExc (list pyval) :=
  let v := dict_get k data in if truthy v then py_list v else Ok [].

Definition load_yaml_rule_from_dict (data : dict) : result PyExc YamlRule :=
  match List.find (fun k => negb (dict_mem k data)) required_keys with
  | Some k => Err (YamlRuleError ("missing required field '" +:+ k +:+ "'"))
  | None =>
      let detect_raw := dict_get "detect" data in
      let detect := if truthy detect_raw then detect_raw else PDict [] in
      match detect with
      | PDict d =>
          match dict_lookup "any_of" d with
          | None => Err (YamlRuleError "detect must be a mapping with 'any_of'")
          | Some (PList l) =>
              match mapM as_str l with
              | None => Err (YamlRuleError "detect.any_of must be a list of strings")
              | Some any_of =>
                  fps ← get_list "false_positives" data;
                  labels ← get_list "labels" data;
                  window ← parse_dedup_window data;
                  Ok {| r_version := py_str (default (PStr "1.0.0") (dict_lookup "version" data));
                        r_rule_id := py_str (dict_get "id" data);
                        r_name := py_str (dict_get "name" data);
                        r_severity := py_str (dict_get "severity" data);
                        r_category := py_str (dict_get "category" data);
                        r_why := py_str (default (PStr EmptyString) (dict_lookup "why" data));
                        r_false_positives := fps;
                        r_detect_any_of := any_of;
                        r_short_tpl := py_str (dict_get "short" data);
                        r_detail_tpl := py_str (dict_get "detail" data);
                        r_labels := labels;
                        r_dedup_window_s := window |}
              end
          | Some _ => Err (YamlRuleError "detect.any_of must be a list of strings")
          end
      | _ => Err (YamlRuleError "detect must be a mapping with 'any_of'")
      end
  end.

(** ** Resolving a path *)

(** [getattr(event, name, None)]: a declared field, else whatever the model
    class has under that name. *)
Definition event_attr (e : Event) (name : string) : pyval :=
  match dict_lookup name (event_fields e) with
  | Some v => v
  | None => class_attr name
  end.

(** [_walk_dict]. *)
Fixpoint walk_dict (val : pyval) (segs : list string) : pyval :=
  match segs with
  | [] => val
  | seg :: rest =>
      match val with
      | PDict d => walk_dict (dict_get seg d) rest
      | _ => PNone
      end
  end.

(** [_resolve_path]; [_enum_value] is the identity on the values of the model,
    whose enumerations are strings. *)
Definition resolve_path (path : string) (e : Event) : pyval :=
  match path_segments path with
  | [] => PNone
  | head :: rest =>
      if String.eqb head "event" then
        match rest with
        | [] => PNone
        | a :: rest' => walk_dict (event_attr e a) rest'
        end
      else
        match event_attr e head with
        | PDict _ as block => walk_dict block rest
        | _ => PNone
        end
  end.

(** ** Evaluating an expression *)

Definition bool_Z (b : bool) : Z := if b then 1 else 0.

(** Python's [lhs == literal]. *)
Definition py_eq_lit (v : pyval) (l : LiteralValue) : bool :=
  match v, l with
  | PStr s, LStr t => String.eqb s t
  | PInt z, LInt k => z =? k
  | PInt z, LBool b => z =? bool_Z b
  | PBool c, LInt k => bool_Z c =? k
  | PBool c, LBool b => Bool.eqb c b
  | PFloat q, LInt k => Qeq_bool q (inject_Z k)
  | PFloat q, LBool b => Qeq_bool q (inject_Z (bool_Z b))
  | _, _ => false
  end.

(** [_STR_OPS[op](lhs, rhs)]; a right-hand side that is not a string raises. *)
Definition str_op (op lhs : string) (rhs : LiteralValue) : result PyExc bool :=
  match rhs with
  | LStr r =>
      if String.eqb op "STARTSWITH" then Ok (startswith r lhs)
      else if String.eqb op "ENDSWITH" then Ok (endswith r lhs)
      else if String.eqb op "CONTAINS" then Ok (contains r lhs)
      else re_search r lhs
  | _ => Err TypeError
  end.

Definition is_str_op (op : string) : bool :=
  bool_decide (op ∈ ["STARTSWITH"; "ENDSWITH"; "CONTAINS"; "MATCHES"]%string).

(** [_eval_leaf]. *)
Definition eval_leaf (l : Leaf) (e : Event) : result PyExc bool :=
  let lhs := resolve_path (leaf_path l) e in
  if String.eqb (leaf_op l) "==" then Ok (py_eq_lit lhs (parse_literal (leaf_rhs l)))
  else if String.eqb (leaf_op l) "!=" then Ok (negb (py_eq_lit lhs (parse_literal (leaf_rhs l))))
  else if bool_decide (leaf_op l ∈ ["IN"; "NOT IN"]%string) then
    let r := existsb (py_eq_lit lhs) (parse_list (leaf_rhs l)) in
    Ok (if String.eqb (leaf_op l) "IN" then r else negb r)
  else if is_str_op (leaf_op l) then
    match lhs with
    | PStr s => str_op (leaf_op l) s (parse_literal (leaf_rhs l))
    | _ => Ok false
    end
  else Ok false.

(** [_eval_node]. *)
Definition eval_node (n : Node) (e : Event) : result PyExc bool :=
  r ← match n with
      | NInvalid _ => Ok false
      | NLeaf l => eval_leaf l e
      end;
  Ok (if node_negated n then negb r else r).

(** [all(...)] and [any(...)] over a generator: evaluation stops early, and an
    exception escapes from the element that raises it. *)
Fixpoint py_all {A} (f : A -> result PyExc bool) (l : list A) : result PyExc bool :=
  match l with
  | [] => Ok true
  | x :: l' => b ← f x; if (b : bool) then py_all f l' else Ok false
  end.
Fixpoint py_any {A} (f : A -> result PyExc bool) (l : list A) : result PyExc bool :=
  match l with
  | [] => Ok false
  | x :: l' => b ← f x; if (b : bool) then Ok true else py_any f l'
  end.

(** [evaluate_parsed], [evaluate_expression]. *)
Definition evaluate_parsed (p : ParsedExpression) (e : Event) : result PyExc bool :=
  py_any (fun g => py_all (fun n => eval_node n e) g) (groups p).

Definition evaluate_expression (expr : string) (e : Event) : result PyExc bool :=
  evaluate_parsed (parse_expression expr) e.

(** ** Rendering a match *)

(** [_FIELD_RE.sub]: [{path}] with a path of path characters is replaced by
    the resolved value, everything else is copied. [skip] counts the rest of
    a placeholder that has just been replaced. *)
Fixpoint interpolate_aux (tpl : string) (skip : nat) (e : Event) : string :=
  match tpl with
  | EmptyString => EmptyString
  | String c rest =>
      match skip with
      | S k => interpolate_aux rest k e
      | O =>
          match (if Ascii.eqb c "{"%char then match_path rest else None) with
          | Some (path, String "}"%char _) =>
              let v := resolve_path path e in
              (match v with PNone => EmptyString | _ => py_str v end)
              +:+ interpolate_aux rest (S (String.length path)) e
          | _ => String c (interpolate_aux rest O e)
          end
      end
  end.
Definition interpolate (tpl : string) (e : Event) : string := interpolate_aux tpl O e.

(** [block and key in block]. *)
Definition block_has (b : option dict) (k : string) : bool := dict_mem k (block_or_empty b).
Definition block_get (b : option dict) (k : string) : pyval := dict_get k (block_or_empty b).

(** [_primary_entity_for]. *)
Definition primary_entity_for (e : Event) : string * string :=
  if block_has (ev_vulnerability e) "avg_id" && block_has (ev_vulnerability e) "package" then
    ("package", py_str (block_get (ev_vulnerability e) "avg_id") +:+ "/" +:+
                py_str (block_get (ev_vulnerability e) "package"))%string
  else if String.eqb (ev_module e) "hunt_scheduler" && block_has (ev_hunt e) "name" then
    ("hunt", py_str (block_get (ev_hunt e) "name"))%string
  else if block_has (ev_process e) "pid" then
    ("process", "pid:" +:+ py_str (block_get (ev_process e) "pid"))%string
  else if block_has (ev_process e) "name" then
    ("process", "name:" +:+ py_str (block_get (ev_process e) "name"))%string
  else if block_has (ev_file e) "path" then
    ("file", py_str (block_get (ev_file e) "path"))%string
  else if block_has (ev_user e) "name" then
    ("user", py_str (block_get (ev_user e) "name"))%string
  else if block_has (ev_source e) "ip" then
    ("ip", py_str (block_get (ev_source e) "ip"))%string
  else ("event"%string, ev_event_id e).

Definition match_of (rule : YamlRule) (e : Event) : Match :=
  let '(kind, key) := primary_entity_for e in
  {| m_rule_id := r_rule_id rule;
     m_severity := r_severity rule;
     m_category := r_category rule;
     m_dedup_key := r_rule_id rule +:+ ":" +:+ kind +:+ ":" +:+ key;
     m_primary_entity_kind := kind;
     m_primary_entity_key := key;
     m_short := interpolate (r_short_tpl rule) e;
     m_detail := interpolate (r_detail_tpl rule) e;
     m_rule_name := r_name rule;
     m_why := r_why rule;
     m_false_positives := r_false_positives rule;
     m_triggering_event_ids := [ev_event_id e];
     m_labels := r_labels rule;
     m_dedup_window_s := r_dedup_window_s rule |}.

(** [evaluate_yaml_rule]: the first expression that holds produces the one match. *)
Fixpoint eval_any_of (rule : YamlRule) (exprs : list string) (e : Event)
  : result PyExc (list Match) :=
  match exprs with
  | [] => Ok []
  | x :: rest =>
      b ← evaluate_expression x e;
      if (b : bool) then Ok [match_of rule e] else eval_any_of rule rest e
  end.
Definition evaluate_yaml_rule (rule : YamlRule) (ctx : EvalContext) : result PyExc (list Match) :=
  eval_any_of rule (r_detect_any_of rule) (ctx_event ctx).

(** ** [rules/registry.py]

    A Python rule is a function from the context to matches, or an exception. *)

Record PyRule := mkPyRule {
  pr_rule_id : string;
  pr_evaluate : EvalContext -> result PyExc (list Match);
}.

Record Registry := mkRegistry {
  reg_yaml_rules : list YamlRule;
  reg_python_rules : list PyRule;
}.

(** [try: out.extend(...) except Exception: continue]. *)
Definition extend_or_skip (out : list Match) (r : result PyExc (list Match)) : list Match :=
  match r with Ok ms => out ++ ms | Err _ => out end.

Definition registry_evaluate (reg : Registry) (ctx : EvalContext) : list Match :=
  let out := foldl (fun o yr => extend_or_skip o (evaluate_yaml_rule yr ctx)) []
               (reg_yaml_rules reg) in
  foldl (fun o pr => extend_or_skip o (pr_evaluate pr ctx)) out (reg_python_rules reg).

Definition rule_ids (reg : Registry) : list string :=
  (r_rule_id <$> reg_yaml_rules reg) ++ (pr_rule_id <$> reg_python_rules reg).

End Rules.
