(* ===== verification/IpcCommands.v ===== *)
(** * The worker-command method ([inspectord/ipc_commands.py])

    [run_worker_command] bridges the socket to a worker's command pipe. The
    pipe itself is [send], a parameter (the supervisor's method); [py_repr] is
    Python's [repr] and [str_other] its [str] on values other than scalars. *)

From S2P Require Import Prelude Schemas Json RateLimit RuleEval Ipc.

Definition ALLOWED_WORKER_COMMANDS : list (string * string) :=
  [("vuln_scanner", "rescan"); ("scanner_runner", "run_scanner")]%string.
Definition RATE_LIMIT_PER_MIN : Z := 12.
Definition ARGS_REPR_MAX_CHARS : nat := 200.
Definition NAME_AUDIT_MAX_CHARS : nat := 64.
Definition DETAIL_AUDIT_MAX_CHARS : nat := 500.
Definition COMMAND_ARGS_MAX_BYTES : Z := 4096.

(** One row handed to [append_audit]: its target and its details. *)
Record CommandAudit := mkCommandAudit { ca_target : string; ca_details : dict }.

Section Commands.
Context {W : Type} (float_repr : Q -> string) (str_other py_repr : pyval -> string)
        (send : string -> string -> dict -> W -> dict * W).

Definition truncated_repr (v : pyval) : string :=
  let text := py_repr v in
  if (ARGS_REPR_MAX_CHARS <? String.length text)%nat
  then str_take ARGS_REPR_MAX_CHARS text +:+ "...[truncated]" else text.

Definition command_audit (worker : string) (details : dict) : CommandAudit :=
  mkCommandAudit ("worker:" +:+ str_take NAME_AUDIT_MAX_CHARS worker) details.

(** What the handler did: its answer, the limiter, the audit rows, the
    commands sent and the world after them. *)
Record CommandRun := mkRun {
  cr_result : result HandlerError dict;
  cr_limiter : Limiter;
  cr_audit : list CommandAudit;
  cr_sent : list (string * string * dict);
  cr_world : W;
}.

Definition get_str (k : string) (fallback : string) (d : dict) : string :=
  match dict_lookup k d with Some v => py_str str_other v | None => fallback end.

(** [handle_run_worker_command]. *)
Definition handle_run_worker_command (params : dict) (now : Z) (limiter : Limiter) (w : W)
  : CommandRun :=
  let worker := get_str "worker" EmptyString params in
  let command := get_str "command" EmptyString params in
  let raw_args := dict_get "args" params in
  let audited_command := PStr (str_take NAME_AUDIT_MAX_CHARS command) in
  let '((allowed, audit_rejection), limiter') := check_limit limiter now in
  let refuse message rows := mkRun (Err (ClientFacing message)) limiter' rows [] w in
  let rejected reason shown :=
    [command_audit worker ([("command"%string, audited_command)] ++ shown ++
       [("status"%string, PStr "rejected"); ("reason"%string, PStr reason)])] in
  if negb allowed then
    refuse ("run_worker_command rate limit exceeded (" +:+ str_of_Z RATE_LIMIT_PER_MIN +:+ "/min)")%string
      (if audit_rejection then rejected "rate_limited"%string [] else [])
  else if negb (bool_decide ((worker, command) ∈ ALLOWED_WORKER_COMMANDS)) then
    refuse ("command not allowed: " +:+ worker +:+ "/" +:+ command)%string
      (rejected "not_allowlisted"%string [("args"%string, PStr (truncated_repr raw_args))])
  else
    match (match raw_args with PNone => Some [] | PDict d => Some d | _ => None end) with
    | None =>
        refuse "args must be an object"%string
          (rejected "args_not_object"%string [("args"%string, PStr (truncated_repr raw_args))])
    | Some args =>
        match json_text float_repr (PDict args) with
        | None => mkRun (Err (Unexpected "TypeError")) limiter' [] [] w
        | Some serialized =>
            if COMMAND_ARGS_MAX_BYTES <? Z.of_nat (String.length serialized) then
              refuse ("args over " +:+ str_of_Z COMMAND_ARGS_MAX_BYTES +:+ " bytes")%string
                (rejected "args_too_large"%string [("args"%string, PStr (truncated_repr (PDict args)))])
            else
              let '(res, w') := send worker command args w in
              let status := get_str "status" "worker_unavailable" res in
              let detail := get_str "detail" EmptyString res in
              mkRun (Ok [("schema_version", PStr "1.0.0");
                         ("ok", PBool (String.eqb status "accepted"));
                         ("status", PStr status); ("detail", PStr detail)]%string)
                limiter'
                [command_audit worker
                   [("command"%string, audited_command); ("args"%string, PDict args);
                    ("status"%string, PStr status);
                    ("detail"%string, PStr (str_take DETAIL_AUDIT_MAX_CHARS detail))]]
                [(worker, command, args)] w'
        end
    end.
End Commands.

Lemma truncated_repr_length (py_repr : pyval -> string) (v : pyval) :
  (String.length (truncated_repr py_repr v) <= 214)%nat.
Proof.
  unfold truncated_repr.
  destruct (Nat.ltb_spec ARGS_REPR_MAX_CHARS (String.length (py_repr v))) as [H|H].
  - rewrite slength_app. pose proof (str_take_length ARGS_REPR_MAX_CHARS (py_repr v)) as Hl.
    change (String.length "...[truncated]") with 14%nat. unfold ARGS_REPR_MAX_CHARS in *. lia.
  - unfold ARGS_REPR_MAX_CHARS in H. lia.
Qed.

(** A details value that cannot carry an unbounded payload. *)
Definition short_value (v : pyval) : Prop :=
  match v with PStr s => (String.length s <= 500)%nat | _ => False end.

(** Closes the goals about the rows of refused attempts. *)
Ltac short_rows Hcmd Hrepr Hlit :=
  cbn [cr_audit command_audit ca_details app];
  repeat first [apply Forall_nil_2 | apply Forall_cons_2];
  cbn [fst snd command_audit ca_details app];
  repeat first [apply Forall_nil_2 | apply Forall_cons_2]; cbn [fst snd];
  first [exact Hcmd | apply Hrepr | apply Hlit; simpl; lia].

(** The worker-command method forwards only what it should. Whatever the
    client sends: at most one command goes out, it is on the allowlist, the
    limiter allowed it and its serialized arguments are within the cap; every
    attempt leaves exactly one audit row, except an already audited rate
    limit rejection and arguments that cannot be serialized; and the row of a
    refused attempt holds only strings of at most 500 characters, so that a
    rejected payload does not enter the log. *)
Theorem worker_command_guarded {W : Type} (float_repr : Q -> string)
    (str_other py_repr : pyval -> string) (send : string -> string -> dict -> W -> dict * W)
    (params : dict) (now : Z) (limiter : Limiter) (w : W) :
  let run := handle_run_worker_command float_repr str_other py_repr send params now limiter w in
  let verdict := (check_limit limiter now).1 in
  (forall worker command args, (worker, command, args) ∈ cr_sent run ->
     (worker, command) ∈ ALLOWED_WORKER_COMMANDS /\ verdict.1 = true /\
     exists text, json_text float_repr (PDict args) = Some text /\
       Z.of_nat (String.length text) <= COMMAND_ARGS_MAX_BYTES) /\
  (length (cr_sent run) <= 1)%nat /\
  (cr_sent run = [] -> cr_world run = w) /\
  (cr_audit run = [] -> verdict = (false, false) \/ cr_result run = Err (Unexpected "TypeError")) /\
  (length (cr_audit run) <= 1)%nat /\
  (cr_sent run = [] -> Forall (fun row => Forall (fun kv => short_value kv.2) (ca_details row)) (cr_audit run)).
Proof.
  cbv zeta. unfold handle_run_worker_command.
  set (worker := get_str _ "worker" _ params). set (command := get_str _ "command" _ params).
  assert (Hcmd : short_value (PStr (str_take NAME_AUDIT_MAX_CHARS command))).
  { cbn [short_value]. pose proof (str_take_length NAME_AUDIT_MAX_CHARS command) as Hl.
    unfold NAME_AUDIT_MAX_CHARS in *. lia. }
  assert (Hrepr : forall v, short_value (PStr (truncated_repr py_repr v))).
  { intros v. cbn [short_value]. pose proof (truncated_repr_length py_repr v). lia. }
  assert (Hlit : forall s, (String.length s <= 20)%nat -> short_value (PStr s)) by (simpl; lia).
  destruct (check_limit limiter now) as [[allowed audit] limiter'] eqn:E.
  destruct allowed; cbn [negb].
  2: { split_and!; try done; [by intros ??? ?%not_elem_of_nil | simpl; lia
       | destruct audit; by auto | destruct audit; simpl; lia |].
       intros _. destruct audit; short_rows Hcmd Hrepr Hlit. }
  case_bool_decide as Hin; cbn [negb].
  2: { split_and!; try done; [by intros ??? ?%not_elem_of_nil | simpl; lia|].
       intros _. short_rows Hcmd Hrepr Hlit. }
  destruct (match dict_get "args" params with PNone => Some [] | PDict d => Some d | _ => None end)
    as [args|].
  2: { split_and!; try done; [by intros ??? ?%not_elem_of_nil | simpl; lia|].
       intros _. short_rows Hcmd Hrepr Hlit. }
  destruct (json_text float_repr (PDict args)) as [text|] eqn:Ej.
  2: { split_and!; try done; [by intros ??? ?%not_elem_of_nil | simpl; lia|auto|simpl; lia]. }
  destruct (Z.ltb_spec COMMAND_ARGS_MAX_BYTES (Z.of_nat (String.length text))).
  { split_and!; try done; [by intros ??? ?%not_elem_of_nil | simpl; lia|].
    intros _. short_rows Hcmd Hrepr Hlit. }
  destruct (send worker command args w) as [res w']. split_and!; try done.
  intros ? ? ? [= -> -> ->]%list_elem_of_singleton. split_and!; [done|done|]. by exists text.
Qed.
