(* ===== verification/Allowlist.v ===== *)
(** * The allowlist ([inspectord/allowlist/evaluator.py])

    [is_suppressed] and the shell-style patterns it uses ([fnmatch.fnmatch] of
    the standard library, on a POSIX system where [normcase] is the identity). *)

From S2P Require Import Prelude Schemas Expr RuleEval.

(** ** [fnmatch] *)

Inductive gtok :=
| GStar
| GAny
| GNever
| GLit (c : ascii)
| GSet (negated : bool) (items : list (ascii * ascii)).

(** [pat[i:j]] up to the closing bracket, and what follows it: a [!] and a []]
    right after the opening bracket belong to the set. *)
Fixpoint until_bracket (s : string) : option (string * string) :=
  match s with
  | EmptyString => None
  | String c s' =>
      if Ascii.eqb c "]"%char then Some (EmptyString, s')
      else '(a, b) ← until_bracket s'; Some (String c a, b)
  end.
Definition skip_one (c : ascii) (s : string) : string * string :=
  match s with
  | String d s' => if Ascii.eqb c d then (String c EmptyString, s') else (EmptyString, s)
  | EmptyString => (EmptyString, EmptyString)
  end.
Definition bracket (s : string) : option (string * string) :=
  let '(bang, s1) := skip_one "!"%char s in
  let '(close, s2) := skip_one "]"%char s1 in
  '(a, rest) ← until_bracket s2;
  Some (bang +:+ close +:+ a, rest).

(** [pat.find('-', k)]. *)
Fixpoint find_dash (s : string) (k pos : nat) : option nat :=
  match s with
  | EmptyString => None
  | String c s' =>
      if (k <=? pos)%nat && Ascii.eqb c "-"%char then Some pos else find_dash s' k (S pos)
  end.

(** The chunks between range hyphens; [fuel] bounds the hyphens. *)
Fixpoint chunks (fuel : nat) (stuff : string) (i k : nat) (acc : list string) : list string :=
  match fuel with
  | O => acc
  | S f =>
      match find_dash stuff k 0 with
      | Some p => chunks f stuff (p + 1) (p + 3) (acc ++ [str_take (p - i) (str_drop i stuff)])
      | None =>
          match str_drop i stuff, acc with
          | EmptyString, _ :: _ =>
              match last acc with
              | Some c => take (length acc - 1) acc ++ [c +:+ "-"]
              | None => acc
              end
          | chunk, _ => acc ++ [chunk]
          end
      end
  end.

Fixpoint str_last (s : string) : option ascii :=
  match s with
  | EmptyString => None
  | String c EmptyString => Some c
  | String _ s' => str_last s'
  end.
Definition str_head (s : string) : option ascii :=
  match s with String c _ => Some c | EmptyString => None end.

(** Empty ranges disappear, from the right. *)
Fixpoint merge_empty (l : list string) : list string :=
  match l with
  | [] => []
  | c :: rest =>
      match merge_empty rest with
      | [] => [c]
      | d :: ds =>
          match str_last c, str_head d with
          | Some x, Some y =>
              if (code y <? code x)%N then (str_init c +:+ str_drop 1 d) :: ds else c :: d :: ds
          | _, _ => c :: d :: ds
          end
      end
  end.

Fixpoint singles (s : string) : list (ascii * ascii) :=
  match s with EmptyString => [] | String c s' => (c, c) :: singles s' end.

(** The members of a set: hyphens join the ends of neighbouring chunks. *)
Fixpoint set_items (c : string) (rest : list string) : list (ascii * ascii) :=
  match rest with
  | [] => singles c
  | d :: ds =>
      singles (str_init c) ++
      match str_last c, str_head d with Some x, Some y => [(x, y)] | _, _ => [] end ++
      set_items (str_drop 1 d) ds
  end.

Definition set_token (stuff : string) : gtok :=
  let start := if startswith "!" stuff then 2%nat else 1%nat in
  let cs := if str_exists (fun c => Ascii.eqb c "-"%char) stuff
            then merge_empty (chunks (S (String.length stuff)) stuff 0 start [])
            else [stuff] in
  match cs with
  | [] => GNever
  | c :: rest =>
      match c, rest with
      | EmptyString, [] => GNever
      | String "!"%char EmptyString, [] => GAny
      | String "!"%char c', _ => GSet true (set_items c' rest)
      | _, _ => GSet false (set_items c rest)
      end
  end.

(** [fnmatch.translate]; the fuel covers the pattern. *)
Fixpoint glob_tokens (fuel : nat) (pat : string) : list gtok :=
  match fuel with
  | O => []
  | S f =>
      match pat with
      | EmptyString => []
      | String c rest =>
          if Ascii.eqb c "*"%char then GStar :: glob_tokens f rest
          else if Ascii.eqb c "?"%char then GAny :: glob_tokens f rest
          else if Ascii.eqb c "["%char then
            match bracket rest with
            | None => GLit c :: glob_tokens f rest
            | Some (stuff, rest') => set_token stuff :: glob_tokens f rest'
            end
          else GLit c :: glob_tokens f rest
      end
  end.

Definition tok_matches (t : gtok) (c : ascii) : bool :=
  match t with
  | GStar | GNever => false
  | GAny => true
  | GLit d => Ascii.eqb c d
  | GSet negated items =>
      xorb negated (existsb (fun r => in_range (code r.1) (code r.2) c) items)
  end.

Fixpoint glob_matches (toks : list gtok) (s : string) : bool :=
  match toks with
  | [] => String.eqb s EmptyString
  | GStar :: ts =>
      (fix star (s : string) : bool :=
         glob_matches ts s || match s with EmptyString => false | String _ s' => star s' end) s
  | t :: ts =>
      match s with String c s' => tok_matches t c && glob_matches ts s' | EmptyString => false end
  end.

Definition fnmatch (name pat : string) : bool :=
  glob_matches (glob_tokens (S (String.length pat)) pat) name.

(** ** [is_suppressed] *)

(** [glob.replace("**", "*")]. *)
Fixpoint glob_to_fnmatch (s : string) : string :=
  match s with
  | String "*"%char (String "*"%char s') => String "*"%char (glob_to_fnmatch s')
  | String c s' => String c (glob_to_fnmatch s')
  | EmptyString => EmptyString
  end.

Definition opt_is {A} (o : option A) : bool := match o with Some _ => true | None => false end.

Definition entry_matches (m : Match) (entry : AllowlistEntry) : bool :=
  let scope := ae_scope entry in
  if match sc_rule_id scope with Some r => negb (String.eqb r (m_rule_id m)) | None => false end
  then false
  else if match sc_entity scope with
          | Some e => negb (String.eqb (er_kind e) (m_primary_entity_kind m))
                      || negb (String.eqb (er_key e) (m_primary_entity_key m))
          | None => false
          end
  then false
  else if match sc_path_glob scope with
          | Some g => negb (String.eqb (m_primary_entity_kind m) "file")
                      || negb (fnmatch (m_primary_entity_key m) (glob_to_fnmatch g))
          | None => false
          end
  then false
  else opt_is (sc_rule_id scope) || opt_is (sc_entity scope) || opt_is (sc_path_glob scope)
       || opt_is (sc_user_id scope).

Definition is_suppressed (m : Match) (entries : list AllowlistEntry) : bool :=
  existsb (entry_matches m) entries.

Example fnmatch_examples :
  (fun p => fnmatch p.1 p.2) <$>
    [("/tmp/a/b.py", "/tmp/*.py"); ("a]b", "a[]x]b"); ("ax", "a[!a-f]"); ("ab", "a[!a-f]");
     ("a-", "a[x-]"); ("am", "a[z-a]"); ("a[", "a["); ("am", "a[!z-a]")]%string =
  [true; true; true; false; true; false; true; true].
Proof. vm_compute. reflexivity. Qed.

(** ** What an entry suppresses *)

(** The documented reading: the scope is the conjunction of its set fields,
    and an empty scope suppresses nothing. *)
Definition scope_spec (m : Match) (scope : AllowlistScope) : Prop :=
  (forall r, sc_rule_id scope = Some r -> r = m_rule_id m) /\
  (forall e, sc_entity scope = Some e ->
     er_kind e = m_primary_entity_kind m /\ er_key e = m_primary_entity_key m) /\
  (forall g, sc_path_glob scope = Some g ->
     m_primary_entity_kind m = "file"%string /\
     fnmatch (m_primary_entity_key m) (glob_to_fnmatch g) = true) /\
  (is_Some (sc_rule_id scope) \/ is_Some (sc_entity scope) \/ is_Some (sc_path_glob scope) \/
   is_Some (sc_user_id scope)).

Lemma entry_matches_spec (m : Match) (entry : AllowlistEntry) :
  entry_matches m entry = true <-> scope_spec m (ae_scope entry).
Proof.
  unfold entry_matches, scope_spec, opt_is, is_Some.
  destruct (ae_scope entry) as [rid ent uid glob]; simpl.
  destruct rid as [r|];
    [destruct (String.eqb_spec r (m_rule_id m)) as [->|Hr]; simpl;
       [|split; [done | intros (H & _); by specialize (H r eq_refl)]]|];
  (destruct ent as [e|];
    [destruct (String.eqb_spec (er_kind e) (m_primary_entity_kind m)) as [Hk|Hk];
       destruct (String.eqb_spec (er_key e) (m_primary_entity_key m)) as [Hy|Hy]; simpl;
       try (split; [done | intros (_ & H & _); by destruct (H e eq_refl)])|]);
  (destruct glob as [g|];
    [destruct (String.eqb_spec (m_primary_entity_kind m) "file") as [Hf|Hf];
       destruct (fnmatch (m_primary_entity_key m) (glob_to_fnmatch g)) eqn:Hg; simpl;
       try (split; [done | intros (_ & _ & H & _); destruct (H g eq_refl); congruence])|]);
  destruct uid; simpl; (split; [intros ?; split_and!; naive_solver | naive_solver]).
Qed.

(** A match is suppressed exactly when some allowlist entry has at least
    one scope field set and its rule id, entity and path pattern, where set,
    all match. *)
Theorem is_suppressed_spec (m : Match) (entries : list AllowlistEntry) :
  is_suppressed m entries = true <-> exists e, e ∈ entries /\ scope_spec m (ae_scope e).
Proof.
  unfold is_suppressed. rewrite existsb_exists. split.
  - intros (e & Hin & Hm). exists e. split; [by apply list_elem_of_In | by apply entry_matches_spec].
  - intros (e & Hin & Hm). exists e. split; [by apply list_elem_of_In | by apply entry_matches_spec].
Qed.

(** The user id of a scope is never compared: an entry that names only a
    user suppresses every match of every rule, whatever the event. *)
Theorem user_scope_suppresses_everything (m : Match) (entry : AllowlistEntry) (uid : Z)
    (entries : list AllowlistEntry) :
  ae_scope entry = mkScope None None (Some uid) None ->
  is_suppressed m (entry :: entries) = true.
Proof. intros H. unfold is_suppressed, entry_matches. simpl. by rewrite H. Qed.

Lemma user_scope_suppresses_everything_witness :
  is_suppressed
    (mkMatch "r" "high" "c" "k" "file" "/etc/shadow" "s" "d" "n" "w" [] [] [] None)
    [mkEntry "1.0.0" "e" (mkScope None None (Some 1000) None) "why" "me" 0 (Some 1) false
       (mkStats 0 None)] = true.
Proof.
  by apply (user_scope_suppresses_everything _ _ 1000).
Defined.
