(* ===== verification/HuntCompiler.v ===== *)
(** * The hunt compiler ([inspectord/hunt/compiler.py], [hunt/errors.py],
      [hunt/execute.py], [storage/events.py])

    [compile_hunt_query] translates an expression of the shared grammar into a
    parameterized SQL statement. The statement is modelled by its syntax tree;
    [render_query] is the text the Python f-strings build. Bound parameters
    are collected by the binder in the order the code calls [bind], and are
    consumed by the SQL semantics in the order of the placeholders. *)

From S2P Require Import Prelude Schemas Expr RuleEval.

(** ** [hunt/errors.py] *)

Inductive HuntError :=
| HuntSyntaxError (what : string)
| HuntPathError (segment : string)
| HuntUnsupportedError (what : string)
| HuntBoundsError
| HuntExecutionError
| HuntNameError
| HuntQueryExists (existing : string)
| HuntQueryNotFound
| HuntRequestError
| HuntScheduledError.

Definition COLUMN_PATHS : list string := ["kind"; "module"; "action"; "severity"]%string.
Definition DEFAULT_LIMIT : Z := 500.
Definition MAX_LIMIT : Z := 5000.

(** ** SQL fragments *)

(** A bound parameter. [BDouble z] is the double whose exact value is [z]. *)
Inductive param :=
| BStr (s : string)
| BDouble (z : Z)
| BInt (z : Z)
| BTime (us : Z).

(** [_Operand]: a column, a JSON path, or a path that can never resolve. *)
Inductive Operand :=
| OpColumn (col : string)
| OpJson (segments : list string)
| OpMissing.
#[export] Instance Operand_eq_dec : EqDecision Operand.
Proof. solve_decision. Defined.

(** The VARCHAR-valued text of an operand. *)
Inductive sqltext := TCol (col : string) | TJson (segments : list string).

Inductive sqlfun := F_starts_with | F_ends_with | F_contains | F_regexp_matches.

(** Predicates, one constructor per template of the compiler. *)
#[warnings="-register-all"]
Inductive pred :=
| QTrue
| QFalse
| QTypeEq (segments : list string) (ty : string)
| QTypeNumber (segments : list string)
| QEqParam (t : sqltext)
| QFloatEq (t : sqltext)
| QCall (f : sqlfun) (t : sqltext)
| QGuard (g b : pred)
| QOr (ps : list pred)
| QTruth (p : pred) (positive : bool)
| QNot (p : pred).

(** ** Rendering *)

Definition json_path (segments : list string) : string := "$." +:+ join "." segments.

Definition render_text (t : sqltext) : string :=
  match t with
  | TCol c => c
  | TJson segs => "json_extract_string(payload_json, '" +:+ json_path segs +:+ "')"
  end.
Definition type_sql (segs : list string) : string :=
  "json_type(payload_json, '" +:+ json_path segs +:+ "')".

Definition fun_name (f : sqlfun) : string :=
  match f with
  | F_starts_with => "starts_with" | F_ends_with => "ends_with"
  | F_contains => "contains" | F_regexp_matches => "regexp_matches"
  end.

Fixpoint render (p : pred) : string :=
  match p with
  | QTrue => "TRUE"
  | QFalse => "FALSE"
  | QTypeEq segs ty => type_sql segs +:+ " = '" +:+ ty +:+ "'"
  | QTypeNumber segs => type_sql segs +:+ " IN ('BIGINT', 'UBIGINT', 'DOUBLE')"
  | QEqParam t => render_text t +:+ " = ?"
  | QFloatEq t =>
      "(NOT regexp_matches(" +:+ render_text t +:+ ", '^-?[0-9]+$') AND TRY_CAST("
      +:+ render_text t +:+ " AS DOUBLE) = ?)"
  | QCall f t => fun_name f +:+ "(" +:+ render_text t +:+ ", ?)"
  | QGuard g b => "(" +:+ render g +:+ " AND " +:+ render b +:+ ")"
  | QOr ps => "(" +:+ join " OR " (map render ps) +:+ ")"
  | QTruth p positive =>
      "((" +:+ render p +:+ ") IS " +:+ (if positive then "TRUE" else "NOT TRUE") +:+ ")"
  | QNot p => "NOT (" +:+ render p +:+ ")"
  end.

(** ** Operands *)

(** [_SEGMENT_RE.match]: [$] also matches before a final newline. *)
Definition chomp (s : string) : string :=
  if endswith (String newline EmptyString) s then str_init s else s.
Definition segment_ok (s : string) : bool :=
  match chomp s with
  | String c r => ident_start c && str_forall ident_char r
  | EmptyString => false
  end.

Definition operand_for (path : string) : result HuntError Operand :=
  let segments := path_segments path in
  match List.find (fun s => negb (segment_ok s)) segments with
  | Some s => Err (HuntPathError s)
  | None =>
      match segments with
      | [_] => Ok OpMissing
      | head :: rest =>
          if String.eqb head "event" then
            match rest with
            | a :: rest' =>
                if String.eqb a "ts" then Err (HuntUnsupportedError "event.ts")
                else if bool_decide (rest' = []) && bool_decide (a ∈ COLUMN_PATHS)
                     then Ok (OpColumn a)
                else Ok (OpJson rest)
            | [] => Ok OpMissing
            end
          else Ok (OpJson segments)
      | [] => Ok OpMissing
      end
  end.

Definition operand_text (o : Operand) : sqltext :=
  match o with OpColumn c => TCol c | OpJson segs => TJson segs | OpMissing => TCol EmptyString end.

Definition is_string_guard (o : Operand) : pred :=
  match o with OpColumn _ => QTrue | OpJson segs => QTypeEq segs "VARCHAR" | OpMissing => QFalse end.
Definition is_number_guard (o : Operand) : pred :=
  match o with OpJson segs => QTypeNumber segs | _ => QFalse end.
Definition is_boolean_guard (o : Operand) : pred :=
  match o with OpJson segs => QTypeEq segs "BOOLEAN" | _ => QFalse end.

Definition is_false (p : pred) : bool := match p with QFalse => true | _ => false end.

(** [_guarded], [_disjoin], [_truth]. *)
Definition guarded (g b : pred) : pred := match g with QTrue => b | _ => QGuard g b end.
Definition disjoin (parts : list pred) : pred :=
  match parts with [] => QFalse | [p] => p | _ => QOr parts end.

(** ** [float(int)]

    Rounding to the nearest double, ties to even, as an exact integer;
    [None] is the [OverflowError]. *)
Definition round_half_even (v p : Z) : Z :=
  let q := v / p in
  let r := v mod p in
  if 2 * r <? p then q
  else if p <? 2 * r then q + 1
  else if Z.even q then q else q + 1.

Definition float_of_int (v : Z) : option Z :=
  if Z.abs v <? 2 ^ 53 then Some v
  else
    let s := Z.log2 (Z.abs v) - 52 in
    let d := round_half_even v (2 ^ s) * 2 ^ s in
    if Z.abs d <? 2 ^ 1024 then Some d else None.

(** [_lossless_double]. *)
Definition lossless_double (v : Z) : option Z :=
  match float_of_int v with
  | Some d => if d =? v then Some d else None
  | None => None
  end.

(** ** Operators

    [parts] and the binder are threaded; [bind] appends to the binder. *)

Definition binder := list param.

(** [_append_typed]. *)
Definition append_typed (parts : list pred) (guard : pred) (o : Operand) (bd : binder)
    (value : string) : list pred * binder :=
  if is_false guard then (parts, bd)
  else (parts ++ [guarded guard (QEqParam (operand_text o))], bd ++ [BStr value]).

(** [_append_numeric]. *)
Definition append_numeric (parts : list pred) (o : Operand) (bd : binder) (value : Z)
  : list pred * binder :=
  let guard := is_number_guard o in
  if is_false guard then (parts, bd)
  else
    let bd1 := bd ++ [BStr (str_of_Z value)] in
    let '(branches, bd2) :=
      match lossless_double value with
      | Some d => ([QEqParam (operand_text o); QFloatEq (operand_text o)], bd1 ++ [BDouble d])
      | None => ([QEqParam (operand_text o)], bd1)
      end in
    (parts ++ [guarded guard (disjoin branches)], bd2).

Definition bool_text (b : bool) : string := if b then "true" else "false".

(** [_equals]. *)
Definition equals (o : Operand) (l : LiteralValue) (bd : binder) : pred * binder :=
  match o with
  | OpMissing => (QFalse, bd)
  | _ =>
      let '(parts, bd') :=
        match l with
        | LBool b =>
            let '(p1, b1) := append_typed [] (is_boolean_guard o) o bd (bool_text b) in
            append_numeric p1 o b1 (bool_Z b)
        | LInt z =>
            let '(p1, b1) := append_numeric [] o bd z in
            if (z =? 0) || (z =? 1)
            then append_typed p1 (is_boolean_guard o) o b1 (bool_text (z =? 1))
            else (p1, b1)
        | LStr s => append_typed [] (is_string_guard o) o bd s
        end in
      (disjoin parts, bd')
  end.

(** [_in_list]: the generator binds member by member, dropping [FALSE]. *)
Fixpoint equals_all (o : Operand) (members : list LiteralValue) (bd : binder)
  : list pred * binder :=
  match members with
  | [] => ([], bd)
  | m :: ms =>
      let '(p, b1) := equals o m bd in
      let '(ps, b2) := equals_all o ms b1 in
      ((if is_false p then ps else p :: ps), b2)
  end.
Definition in_list (o : Operand) (rhs : string) (bd : binder) : pred * binder :=
  let '(parts, bd') := equals_all o (parse_list rhs) bd in (disjoin parts, bd').

(** [_string_literal]. *)
Definition string_literal (l : Leaf) : result HuntError string :=
  match parse_literal (leaf_rhs l) with
  | LStr s => Ok s
  | _ => Err (HuntUnsupportedError (leaf_op l))
  end.

Definition string_func (op : string) : option sqlfun :=
  if String.eqb op "STARTSWITH" then Some F_starts_with
  else if String.eqb op "ENDSWITH" then Some F_ends_with
  else if String.eqb op "CONTAINS" then Some F_contains
  else None.

Definition call_guarded (o : Operand) (f : sqlfun) (lit : string) (bd : binder) : pred * binder :=
  let guard := is_string_guard o in
  if is_false guard then (QFalse, bd)
  else (guarded guard (QCall f (operand_text o)), bd ++ [BStr lit]).

(** [_string_call]. *)
Definition string_call (o : Operand) (l : Leaf) (f : sqlfun) (bd : binder)
  : result HuntError (pred * binder) :=
  lit ← string_literal l; Ok (call_guarded o f lit bd).

(** [_RE2_UNSUPPORTED] and the back-reference check of [_validate_regex];
    [re.compile] itself is a parameter. *)
Definition RE2_UNSUPPORTED : list string :=
  ["(?="; "(?!"; "(?<="; "(?<!"; "(?>"; "(?P="; "(?("; "\Z"]%string.

(** [(?<!\\)\\[1-9]] anywhere in [s]. *)
Fixpoint has_backref (prev_bs : bool) (s : string) : bool :=
  match s with
  | EmptyString => false
  | String c s' =>
      (negb prev_bs && Ascii.eqb c "\"%char &&
       match s' with String d _ => in_range 49 57 d | EmptyString => false end)
      || has_backref (Ascii.eqb c "\"%char) s'
  end.

Section Compiler.
Context (re_compiles : string -> bool).

Definition validate_regex (pattern : string) : result HuntError unit :=
  if negb (re_compiles pattern) then Err (HuntSyntaxError pattern)
  else if existsb (fun c => contains c pattern) RE2_UNSUPPORTED
       then Err (HuntUnsupportedError pattern)
  else if has_backref false pattern then Err (HuntUnsupportedError pattern)
  else Ok tt.

(** [_matches]. *)
Definition matches (o : Operand) (l : Leaf) (bd : binder) : result HuntError (pred * binder) :=
  pattern ← string_literal l;
  _ ← validate_regex pattern;
  Ok (call_guarded o F_regexp_matches pattern bd).

(** [_compile_leaf]. *)
Definition compile_leaf (l : Leaf) (bd : binder) : result HuntError (pred * binder) :=
  o ← operand_for (leaf_path l);
  if bool_decide (leaf_op l ∈ ["=="; "!="]%string) then
    let '(p, bd') := equals o (parse_literal (leaf_rhs l)) bd in
    Ok (QTruth p (String.eqb (leaf_op l) "=="), bd')
  else if bool_decide (leaf_op l ∈ ["IN"; "NOT IN"]%string) then
    let '(p, bd') := in_list o (leaf_rhs l) bd in
    Ok (QTruth p (String.eqb (leaf_op l) "IN"), bd')
  else
    match string_func (leaf_op l) with
    | Some f => '(p, bd') ← string_call o l f bd; Ok (QTruth p true, bd')
    | None =>
        if String.eqb (leaf_op l) "MATCHES" then
          '(p, bd') ← matches o l bd; Ok (QTruth p true, bd')
        else Err (HuntUnsupportedError (leaf_op l))
    end.

(** [_compile_node]. *)
Definition compile_node (n : Node) (bd : binder) : result HuntError (pred * binder) :=
  match n with
  | NInvalid i => Err (HuntSyntaxError (inv_text i))
  | NLeaf l =>
      '(p, bd') ← compile_leaf l bd;
      Ok (if leaf_negated l then QNot p else p, bd')
  end.

Fixpoint compile_nodes (ns : list Node) (bd : binder) : result HuntError (list pred * binder) :=
  match ns with
  | [] => Ok ([], bd)
  | n :: ns' =>
      '(p, b1) ← compile_node n bd;
      '(ps, b2) ← compile_nodes ns' b1;
      Ok (p :: ps, b2)
  end.

(** [_compile_parsed]: an empty group is the literal [TRUE]. *)
Fixpoint compile_groups (gs : list (list Node)) (bd : binder)
  : result HuntError (list (list pred) * binder) :=
  match gs with
  | [] => Ok ([], bd)
  | g :: gs' =>
      '(ps, b1) ← compile_nodes g bd;
      '(rest, b2) ← compile_groups gs' b1;
      Ok ((match ps with [] => [QTrue] | _ => ps end) :: rest, b2)
  end.

End Compiler.

Definition render_groups (gs : list (list pred)) : string :=
  join " OR " ((fun g => "(" +:+ join " AND " (render <$> g) +:+ ")") <$> gs).

(** ** [compile_hunt_query] *)

Record sql_query := mkSql {
  q_groups : list (list pred);
  q_since : bool;
  q_until : bool;
  q_ingest : bool;
}.

Record CompiledQuery := mkCompiled {
  cq_expression : string;
  cq_sql : sql_query;
  cq_params : list param;
  cq_limit : Z;
  cq_since : option Z;
  cq_until : option Z;
  cq_ingest_bounds : option (Z * Z);
}.

Definition lf : string := String newline EmptyString.

Definition render_query (q : sql_query) : string :=
  let clauses :=
    ["(" +:+ render_groups (q_groups q) +:+ ")"]
    ++ (if q_since q then ["ts >= ?"%string] else [])
    ++ (if q_until q then ["ts <= ?"%string] else [])
    ++ (if q_ingest q then ["(ingest_seq > ? AND ingest_seq <= ?)"%string] else []) in
  "SELECT event_id, ts, kind, module, action, severity, payload_json" +:+ lf +:+
  "FROM events_enriched" +:+ lf +:+
  "WHERE " +:+ join " AND " clauses +:+ lf +:+
  "ORDER BY ts DESC, event_id DESC" +:+ lf +:+
  "LIMIT ?".

(** [_resolve_limit]. *)
Definition resolve_limit (limit : option Z) : result HuntError Z :=
  match limit with
  | None => Ok DEFAULT_LIMIT
  | Some l => if l <=? 0 then Err HuntBoundsError else Ok (Z.min l MAX_LIMIT)
  end.

Definition window_inverted (since until : option Z) : bool :=
  match since, until with Some s, Some u => u <? s | _, _ => false end.

Definition opt_bind (b : option Z) : list param :=
  match b with Some t => [BTime t] | None => [] end.
Definition ingest_bind (b : option (Z * Z)) : list param :=
  match b with Some (low, high) => [BInt low; BInt high] | None => [] end.
Definition is_some {A} (o : option A) : bool := match o with Some _ => true | None => false end.

Definition compile_hunt_query (re_compiles : string -> bool) (expression : string)
    (since until limit : option Z) (ingest_bounds : option (Z * Z))
  : result HuntError CompiledQuery :=
  resolved_limit ← resolve_limit limit;
  if window_inverted since until then Err HuntBoundsError
  else
    let parsed := parse_expression expression in
    match groups parsed with
    | [] => Err (HuntSyntaxError "empty query")
    | _ =>
        '(gs, bd) ← compile_groups re_compiles (groups parsed) [];
        Ok {| cq_expression := expression;
              cq_sql := mkSql gs (is_some since) (is_some until) (is_some ingest_bounds);
              cq_params := bd ++ opt_bind since ++ opt_bind until ++ ingest_bind ingest_bounds
                             ++ [BInt (resolved_limit + 1)];
              cq_limit := resolved_limit;
              cq_since := since;
              cq_until := until;
              cq_ingest_bounds := ingest_bounds |}
    end.
