(* ===== verification/Alerts.v ===== *)
(** * Alerts ([inspectord/alerts/*.py], [inspectord/rule_engine.py])

    The status machine ([lifecycle.py]), the builder ([builder.py]), the
    deduplicating store ([dedup.py]), the rule engine that drives them
    ([rule_engine.py]) and the handlers that move an alert's status
    ([ipc_handlers.py]). The [alerts] table is a list of rows in insertion
    order. *)

From S2P Require Import Prelude Schemas Json Journal AuditLog Expr RuleEval Allowlist HuntCompiler.

(** ** [lifecycle.py] *)

Definition ALLOWED (s : AlertStatus) : list AlertStatus :=
  match s with
  | St_new => [St_acknowledged; St_resolved; St_suppressed]
  | St_acknowledged => [St_resolved; St_suppressed]
  | St_resolved => []
  | St_suppressed => []
  end.

(** [validate_transition]; [false] is [InvalidTransitionError]. *)
Definition validate_transition (current target : AlertStatus) : bool :=
  bool_decide (target ∈ ALLOWED current).

(** ** [builder.py] *)

(** [None] is the [ValueError] of an unknown severity or the [ValidationError]
    of a label or false positive that is not a string. [event.ts] is always
    set. *)
Definition build_alert (alert_id : string) (m : Match) (e : Event) : option Alert :=
  sev ← Severity_of (m_severity m);
  fps ← mapM as_str (m_false_positives m);
  labels ← mapM as_str (m_labels m);
  Some {| al_schema_version := ALERT_SCHEMA_VERSION;
          al_alert_id := alert_id;
          al_rule := {| rr_id := m_rule_id m;
                        rr_name := if String.eqb (m_rule_name m) EmptyString
                                   then m_rule_id m else m_rule_name m;
                        rr_ruleset := "starter-pack";
                        rr_version := "1.0.0";
                        rr_severity := sev;
                        rr_why := m_why m;
                        rr_false_positives := fps |};
          al_ts := ev_ts e;
          al_severity := sev;
          al_status := St_new;
          al_category := m_category m;
          al_event_ids := match m_triggering_event_ids m with
                          | [] => [ev_event_id e] | ids => ids end;
          al_entities := [mkEntityRef (m_primary_entity_kind m) (m_primary_entity_key m)];
          al_incident_id := None;
          al_dedup_key := m_dedup_key m;
          al_dedup_count := 1;
          al_first_seen_at := ev_ts e;
          al_last_seen_at := ev_ts e;
          al_evidence_case_id := None;
          al_notes := [];
          al_labels := labels;
          al_rendered := mkRendered (m_short m) (m_detail m) |}.

(** ** The table *)

Record AlertRow := mkAlertRow {
  ar_alert_id : string;
  ar_rule_id : string;
  ar_ts : Z;
  ar_severity : Severity;
  ar_status : AlertStatus;
  ar_category : string;
  ar_dedup_key : string;
  ar_dedup_count : Z;
  ar_first_seen_at : Z;
  ar_last_seen_at : Z;
  ar_rendered : RenderedAlert;
  ar_payload : Alert;          (** [payload_json], as the value it encodes *)
}.

Definition row_of_alert (a : Alert) : AlertRow :=
  {| ar_alert_id := al_alert_id a; ar_rule_id := rr_id (al_rule a); ar_ts := al_ts a;
     ar_severity := al_severity a; ar_status := al_status a; ar_category := al_category a;
     ar_dedup_key := al_dedup_key a; ar_dedup_count := al_dedup_count a;
     ar_first_seen_at := al_first_seen_at a; ar_last_seen_at := al_last_seen_at a;
     ar_rendered := al_rendered a; ar_payload := a |}.

(** ** [dedup.py] *)

(** [timedelta(seconds=q)] in microseconds. *)
Definition timedelta_us (q : Q) : Z := round_half_even (Qnum q * 1000000) (Z.pos (Qden q)).

(** [SELECT ... WHERE dedup_key = ? AND last_seen_at >= ?
    ORDER BY last_seen_at DESC LIMIT 1]. *)
Definition in_dedup_window (key : string) (cutoff : Z) (r : AlertRow) : bool :=
  String.eqb (ar_dedup_key r) key && (cutoff <=? ar_last_seen_at r).
Fixpoint newest_in_window (key : string) (cutoff : Z) (rows : list AlertRow) : option AlertRow :=
  match rows with
  | [] => None
  | r :: rest =>
      let best := newest_in_window key cutoff rest in
      if in_dedup_window key cutoff r then
        match best with
        | Some b => if ar_last_seen_at r <? ar_last_seen_at b then best else Some r
        | None => Some r
        end
      else best
  end.

(** The two UPDATE statements, [WHERE alert_id = ?]. *)
Definition bump_open (count last_seen : Z) (a : Alert) (r : AlertRow) : AlertRow :=
  mkAlertRow (ar_alert_id r) (ar_rule_id r) (ar_ts r) (ar_severity r) (ar_status r)
    (ar_category r) (ar_dedup_key r) count (ar_first_seen_at r) last_seen (al_rendered a) a.
Definition bump_counters (count last_seen : Z) (r : AlertRow) : AlertRow :=
  mkAlertRow (ar_alert_id r) (ar_rule_id r) (ar_ts r) (ar_severity r) (ar_status r)
    (ar_category r) (ar_dedup_key r) count (ar_first_seen_at r) last_seen
    (ar_rendered r) (ar_payload r).

Definition update_row (id : string) (f : AlertRow -> AlertRow) (rows : list AlertRow)
  : list AlertRow :=
  (fun r => if String.eqb (ar_alert_id r) id then f r else r) <$> rows.

Record PersistResult := mkPersist {
  pr_alert : Alert;
  pr_was_new : bool;
  pr_notifiable : bool;
  pr_rows : list AlertRow;
}.

Definition with_identity (a : Alert) (id : string) (count first_seen : Z) : Alert :=
  mkAlert (al_schema_version a) id (al_rule a) (al_ts a) (al_severity a) (al_status a)
    (al_category a) (al_event_ids a) (al_entities a) (al_incident_id a) (al_dedup_key a)
    count first_seen (al_last_seen_at a) (al_evidence_case_id a) (al_notes a) (al_labels a)
    (al_rendered a).

(** [DedupEngine.persist]; [window] is the engine's, in microseconds. *)
Definition persist (window : Z) (rows : list AlertRow) (a : Alert) (window_s : option Q)
  : PersistResult :=
  let w := match window_s with None => window | Some q => timedelta_us q end in
  match newest_in_window (al_dedup_key a) (al_ts a - w) rows with
  | Some r =>
      let count := ar_dedup_count r + 1 in
      let notifiable := bool_decide (ar_status r = St_new) in
      let f := if notifiable then bump_open count (al_last_seen_at a) a
               else bump_counters count (al_last_seen_at a) in
      mkPersist (with_identity a (ar_alert_id r) count (ar_first_seen_at r)) false notifiable
        (update_row (ar_alert_id r) f rows)
  | None => mkPersist a true true (rows ++ [row_of_alert a])
  end.

(** ** [rule_engine.py] *)

Definition HISTORY_WINDOW : Z := 300000000.
Definition HISTORY_MAX : nat := 5000.

Record RuleEngine := mkEngine {
  re_registry : Registry;
  re_allowlist : list AllowlistEntry;
  re_window : Z;
  re_history : list Event;
  re_rows : list AlertRow;
}.

(** [deque(maxlen=_HISTORY_MAX).append]. *)
Definition push_history (h : list Event) (e : Event) : list Event :=
  let h' := h ++ [e] in drop (length h' - HISTORY_MAX) h'.

(** [_trim_history]. *)
Fixpoint trim_history (now : Z) (h : list Event) : list Event :=
  match h with
  | [] => []
  | e :: rest => if ev_ts e <? now - HISTORY_WINDOW then trim_history now rest else h
  end.

Section Engine.
Context (class_attr : string -> pyval)
        (re_search : string -> string -> result PyExc bool)
        (str_other : pyval -> string).

(** The loop over the matches: the table and the alerts to fan out, or the
    exception of [build_alert]. [fresh k] is the [k]-th new [uuid7]. *)
Fixpoint process_matches (eng : RuleEngine) (e : Event) (ms : list Match) (fresh : nat -> string)
    (k : nat) (rows : list AlertRow) (out : list Alert)
  : list AlertRow * result PyExc (list Alert) :=
  match ms with
  | [] => (rows, Ok out)
  | m :: ms' =>
      if is_suppressed m (re_allowlist eng) then process_matches eng e ms' fresh k rows out
      else
        match build_alert (fresh k) m e with
        | None => (rows, Err ValueError)
        | Some a =>
            let p := persist (re_window eng) rows a (m_dedup_window_s m) in
            process_matches eng e ms' fresh (S k) (pr_rows p)
              (if pr_notifiable p then out ++ [pr_alert p] else out)
        end
  end.

(** [process]. *)
Definition process (eng : RuleEngine) (e : Event) (fresh : nat -> string)
  : RuleEngine * result PyExc (list Alert) :=
  if ev_first_seen e then (eng, Ok [])
  else
    let h := trim_history (ev_ts e) (push_history (re_history eng) e) in
    let ms := registry_evaluate class_attr re_search str_other (re_registry eng) (mkCtx e h) in
    let '(rows, r) := process_matches eng e ms fresh 0 (re_rows eng) [] in
    (mkEngine (re_registry eng) (re_allowlist eng) (re_window eng) h rows, r).

End Engine.

(** ** [ipc_handlers.py] *)

Definition AUDIT_ACTION (s : AlertStatus) : string :=
  match s with
  | St_acknowledged => "alert_acked"
  | St_resolved => "alert_resolved"
  | St_suppressed => "alert_suppressed"
  | St_new => EmptyString      (** never a target *)
  end.

(** What a transition answers. *)
Inductive TransitionReply :=
| TR_not_found
| TR_invalid (current target : AlertStatus)    (** [InvalidTransitionError] *)
| TR_ok (status : AlertStatus).

Definition find_alert (id : string) (rows : list AlertRow) : option AlertRow :=
  List.find (fun r => String.eqb (ar_alert_id r) id) rows.

Definition set_status (s : AlertStatus) (r : AlertRow) : AlertRow :=
  mkAlertRow (ar_alert_id r) (ar_rule_id r) (ar_ts r) (ar_severity r) s (ar_category r)
    (ar_dedup_key r) (ar_dedup_count r) (ar_first_seen_at r) (ar_last_seen_at r)
    (ar_rendered r) (ar_payload r).

(** The alerts and the audit log of the database. *)
Record AlertDb := mkAlertDb {
  db_alerts : list AlertRow;
  db_audit : list AuditRow;
  db_audit_module : AuditModule;
}.

Section Handlers.
Context (sha256 : string -> string) (float_repr : Q -> string) (str_time : Z -> string).

(** The surroundings of one audit append. *)
Record AuditEnv := mkAuditEnv { env_db_error : bool; env_ts : DateTime; env_mono : Z }.

(** [_transition]. *)
Definition transition (env : AuditEnv) (db : AlertDb) (alert_id : string) (target : AlertStatus)
  : TransitionReply * AlertDb :=
  match find_alert alert_id (db_alerts db) with
  | None => (TR_not_found, db)
  | Some r =>
      if negb (validate_transition (ar_status r) target)
      then (TR_invalid (ar_status r) target, db)
      else
        let rows := update_row alert_id (set_status target) (db_alerts db) in
        let o := append_audit sha256 float_repr str_time (db_audit_module db) (db_audit db)
                   (env_db_error env) (env_ts env) (env_mono env)
                   "user:local" (AUDIT_ACTION target) (Some ("alert:" +:+ alert_id)) [] in
        (TR_ok target, mkAlertDb rows (ap_rows o) (ap_module o))
  end.

(** [str(params.get("alert_id", ""))]. *)
Definition alert_id_param (str_other : pyval -> string) (params : dict) : string :=
  match dict_lookup "alert_id" params with
  | Some v => py_str str_other v
  | None => EmptyString
  end.

Definition handle_ack_alert (so : pyval -> string) env db (params : dict) :=
  transition env db (alert_id_param so params) St_acknowledged.
Definition handle_resolve_alert (so : pyval -> string) env db (params : dict) :=
  transition env db (alert_id_param so params) St_resolved.
Definition handle_suppress_alert (so : pyval -> string) env db (params : dict) :=
  transition env db (alert_id_param so params) St_suppressed.

(** [handle_get_alert]: the stored payload. *)
Definition handle_get_alert (so : pyval -> string) (db : AlertDb) (params : dict) : option Alert :=
  ar_payload <$> find_alert (alert_id_param so params) (db_alerts db).

(** [handle_list_alerts]; [None] is an exception: a limit that is not an
    integer, or a negative one, which the database refuses. *)
Definition int_of (v : pyval) : option Z :=
  match v with
  | PInt z => Some z
  | PBool b => Some (bool_Z b)
  | PFloat q => Some (Z.quot (Qnum q) (Z.pos (Qden q)))
  | PStr s => py_int s
  | _ => None
  end.

Definition alert_newer (a b : AlertRow) : Prop := ar_ts b <= ar_ts a.
#[export] Instance alert_newer_dec a b : Decision (alert_newer a b).
Proof. unfold alert_newer. apply _. Defined.

Definition handle_list_alerts (so : pyval -> string) (db : AlertDb) (params : dict)
  : option (list AlertRow) :=
  let status := dict_get "status" params in
  let severity := dict_get "severity" params in
  limit ← int_of (default (PInt 100) (dict_lookup "limit" params));
  if limit <? 0 then None
  else
    let keep r :=
      (negb (truthy status) || String.eqb (status_value (ar_status r)) (py_str so status)) &&
      (negb (truthy severity) || String.eqb (severity_value (ar_severity r)) (py_str so severity))
    in
    Some (take (Z.to_nat limit) (merge_sort alert_newer (List.filter keep (db_alerts db)))).

End Handlers.

(** ** How a stored alert evolves *)

(** One edge of the status machine, and paths of it. *)
Definition edge (s s' : AlertStatus) : Prop := validate_transition s s' = true.

Record row_evolves (r r' : AlertRow) : Prop := {
  ev_same_id : ar_alert_id r' = ar_alert_id r;
  ev_same_rule : ar_rule_id r' = ar_rule_id r;
  ev_same_ts : ar_ts r' = ar_ts r;
  ev_same_key : ar_dedup_key r' = ar_dedup_key r;
  ev_same_first : ar_first_seen_at r' = ar_first_seen_at r;
  ev_status : rtc edge (ar_status r) (ar_status r');
  ev_count : ar_dedup_count r <= ar_dedup_count r';
  ev_closed : ar_status r <> St_new ->
    ar_rendered r' = ar_rendered r /\ ar_payload r' = ar_payload r;
}.

Lemma edge_not_new (s s' : AlertStatus) : rtc edge s s' -> s <> St_new -> s' <> St_new.
Proof.
  induction 1 as [s|s s1 s' He Hr IH]; [done|]. intros Hn. apply IH.
  unfold edge, validate_transition in He. by destruct s, s1.
Qed.

#[export] Instance row_evolves_refl : Reflexive row_evolves.
Proof. intros r. by split. Qed.
#[export] Instance row_evolves_trans : Transitive row_evolves.
Proof.
  intros a b c [] []. split; try congruence; [by etrans | lia|].
  intros Hn. assert (ar_status b <> St_new) by by eapply edge_not_new.
  destruct ev_closed0; [done|]. destruct ev_closed1; [done|]. split; congruence.
Qed.

(** The operations on the table. *)
Inductive alert_op :=
| AO_persist (window : Z) (a : Alert) (window_s : option Q)
| AO_transition (id : string) (target : AlertStatus).

Definition apply_op (rows : list AlertRow) (op : alert_op) : list AlertRow :=
  match op with
  | AO_persist w a ws => pr_rows (persist w rows a ws)
  | AO_transition id target =>
      match find_alert id rows with
      | Some r => if validate_transition (ar_status r) target
                  then update_row id (set_status target) rows else rows
      | None => rows
      end
  end.

Definition op_ids (op : alert_op) : list string :=
  match op with AO_persist _ a _ => [al_alert_id a] | AO_transition _ _ => [] end.
Definition op_count (op : alert_op) : Z :=
  match op with AO_persist _ a _ => 1 | AO_transition _ _ => 0 end.
Definition op_single (op : alert_op) : Prop :=
  match op with AO_persist _ a _ => al_dedup_count a = 1 | AO_transition _ _ => True end.

Definition total (rows : list AlertRow) : Z := foldr (fun r n => ar_dedup_count r + n) 0 rows.
Definition ids (rows : list AlertRow) : list string := ar_alert_id <$> rows.

Lemma total_app (a b : list AlertRow) : total (a ++ b) = total a + total b.
Proof. induction a as [|r a IH]; simpl; [done|]. rewrite IH. lia. Qed.

Lemma newest_in_window_spec (key : string) (cutoff : Z) (rows : list AlertRow) (r : AlertRow) :
  newest_in_window key cutoff rows = Some r -> r ∈ rows /\ in_dedup_window key cutoff r = true.
Proof.
  induction rows as [|x rows IH]; simpl; [done|].
  destruct (in_dedup_window key cutoff x) eqn:E; [|intros [??]%IH; split; [by right | done]].
  destruct (newest_in_window key cutoff rows) as [b|]; [|intros [= <-]; split; [left | done]].
  destruct (ar_last_seen_at x <? ar_last_seen_at b); intros [= <-].
  - destruct (IH eq_refl). split; [by right | done].
  - split; [left | done].
Qed.

Lemma newest_in_window_None (key : string) (cutoff : Z) (rows : list AlertRow) :
  newest_in_window key cutoff rows = None <->
  existsb (in_dedup_window key cutoff) rows = false.
Proof.
  induction rows as [|x rows IH]; simpl; [done|].
  destruct (in_dedup_window key cutoff x); simpl; [|done].
  destruct (newest_in_window key cutoff rows) as [b|]; [|done].
  by destruct (ar_last_seen_at x <? ar_last_seen_at b).
Qed.

(** Rewriting the one row with an id. *)
Lemma update_row_ids (id : string) (f : AlertRow -> AlertRow) (rows : list AlertRow) :
  (forall r, ar_alert_id (f r) = ar_alert_id r) -> ids (update_row id f rows) = ids rows.
Proof.
  intros Hf. unfold ids, update_row. rewrite <- list_fmap_compose. apply list_fmap_ext.
  intros i r _. simpl. by destruct (String.eqb _ _).
Qed.

Lemma update_row_split (id : string) (f : AlertRow -> AlertRow) (rows : list AlertRow)
    (r : AlertRow) :
  NoDup (ids rows) -> r ∈ rows -> ar_alert_id r = id ->
  exists a b, rows = a ++ r :: b /\ update_row id f rows = a ++ f r :: b.
Proof.
  intros Hnd Hin Hid. apply list_elem_of_split in Hin as (a & b & ->). exists a, b.
  split; [done|]. unfold update_row. rewrite fmap_app, fmap_cons, Hid, String.eqb_refl.
  unfold ids in Hnd. rewrite fmap_app, fmap_cons in Hnd.
  apply NoDup_app in Hnd as (_ & Ha & [Hb _]%NoDup_cons).
  assert (Hid_of : forall l : list AlertRow, id ∉ ar_alert_id <$> l ->
    (fun x => if String.eqb (ar_alert_id x) id then f x else x) <$> l = l).
  { intros l Hl. rewrite <- (list_fmap_id l) at 2. apply list_fmap_ext. intros i x Hx.
    destruct (String.eqb_spec (ar_alert_id x) id) as [<-|]; [|done].
    exfalso. apply Hl. apply list_elem_of_fmap. exists x. split; [done|].
    by eapply list_elem_of_lookup_2. }
  rewrite !Hid_of; [done | by rewrite <- Hid | ].
  intros Hc. rewrite <- Hid in Hc. apply (Ha _ Hc). left.
Qed.

Lemma find_alert_spec (id : string) (rows : list AlertRow) (r : AlertRow) :
  find_alert id rows = Some r -> r ∈ rows /\ ar_alert_id r = id.
Proof.
  intros H. apply List.find_some in H as [H1 H2%String.eqb_eq]. split; [|done].
  by apply list_elem_of_In.
Qed.

Lemma evolves_refl_list (l : list AlertRow) : Forall2 row_evolves l l.
Proof. induction l; by constructor. Qed.

Lemma evolves_mid (a b : list AlertRow) (r r' : AlertRow) :
  row_evolves r r' -> Forall2 row_evolves (a ++ r :: b) (a ++ r' :: b).
Proof.
  intros H. apply Forall2_app; [apply evolves_refl_list|].
  constructor; [done | apply evolves_refl_list].
Qed.

(** One operation: the old rows evolve in place, at most one row is added,
    and the counts add up. *)
Lemma apply_op_evolves (rows : list AlertRow) (op : alert_op) :
  NoDup (ids rows) -> (forall x, x ∈ op_ids op -> x ∉ ids rows) -> op_single op ->
  let rows' := apply_op rows op in
  Forall2 row_evolves rows (take (length rows) rows') /\
  (length rows <= length rows')%nat /\
  total rows' = total rows + op_count op /\
  NoDup (ids rows') /\ (forall x, x ∈ ids rows' -> x ∈ ids rows \/ x ∈ op_ids op).
Proof.
  intros Hnd Hfresh Hone. destruct op as [w a ws|id target]; simpl in *.
  - unfold persist. destruct (newest_in_window _ _ rows) as [r|] eqn:E; simpl.
    + apply newest_in_window_spec in E as [Hin _].
      set (f := if bool_decide (ar_status r = St_new) then _ else _).
      assert (Hf : forall x, ar_alert_id (f x) = ar_alert_id x)
        by (intros x; unfold f; by destruct (bool_decide _)).
      destruct (update_row_split (ar_alert_id r) f rows r Hnd Hin eq_refl) as (b & c & Hr & Hu).
      rewrite (update_row_ids _ _ _ Hf), Hu, Hr.
      assert (He : row_evolves r (f r)).
      { unfold f. case_bool_decide; split; simpl; try done; lia. }
      split_and!; [|by rewrite !length_app| |by rewrite <- Hr|by left].
      * rewrite take_ge by (rewrite !length_app; simpl; lia). by apply evolves_mid.
      * rewrite !total_app. simpl. unfold f. case_bool_decide; simpl; lia.
    + split_and!.
      * rewrite take_app_length. apply evolves_refl_list.
      * rewrite length_app. lia.
      * rewrite total_app. simpl. lia.
      * unfold ids. rewrite fmap_app. apply NoDup_app. split_and!; [done| |by apply NoDup_singleton].
        intros x Hx [->|Hn]%elem_of_cons; [|by apply not_elem_of_nil in Hn].
        by apply (Hfresh (al_alert_id a)); [left|].
      * intros x. unfold ids. rewrite fmap_app, elem_of_app. simpl. tauto.
  - destruct (find_alert id rows) as [r|] eqn:E.
    2:{ split_and!; [by rewrite take_ge; [apply evolves_refl_list|]|done|lia|done|by left]. }
    destruct (validate_transition (ar_status r) target) eqn:Ev.
    2:{ split_and!; [by rewrite take_ge; [apply evolves_refl_list|]|done|lia|done|by left]. }
    apply find_alert_spec in E as [Hin Hid].
    destruct (update_row_split id (set_status target) rows r Hnd Hin Hid) as (b & c & Hr & Hu).
    rewrite (update_row_ids id (set_status target) rows) by done. rewrite Hu, Hr.
    assert (He : row_evolves r (set_status target r)).
    { split; simpl; try done. by apply rtc_once. }
    split_and!; [|by rewrite !length_app| |by rewrite <- Hr|by left].
    + rewrite take_ge by (rewrite !length_app; simpl; lia). by apply evolves_mid.
    + rewrite !total_app. simpl. lia.
Qed.

Lemma Forall2_evolves_trans (a b c : list AlertRow) :
  Forall2 row_evolves a b -> Forall2 row_evolves b c -> Forall2 row_evolves a c.
Proof.
  intros H. revert c. induction H as [|x y a b Hxy Hab IH]; intros c Hc; inversion Hc; subst;
    constructor; [by etrans | by apply IH].
Qed.

Lemma run_ops_evolves (ops : list alert_op) (rows : list AlertRow) :
  NoDup (ids rows ++ (ops ≫= op_ids)) -> Forall op_single ops ->
  let rows' := foldl apply_op rows ops in
  Forall2 row_evolves rows (take (length rows) rows') /\
  (length rows <= length rows')%nat /\
  total rows' = total rows + foldr (fun op n => op_count op + n) 0 ops.
Proof.
  revert rows. induction ops as [|op ops IH]; intros rows Hnd Hs.
  { simpl. split_and!; [|done | lia]. by rewrite take_ge; [apply evolves_refl_list|]. }
  apply Forall_cons in Hs as [Ho Hs]. rewrite bind_cons, app_assoc in Hnd.
  assert (Hnd1 := Hnd). apply NoDup_app in Hnd1 as (Hnd1 & Hd & Hrest).
  assert (Hn0 : NoDup (ids rows)) by (apply NoDup_app in Hnd1; tauto).
  destruct (apply_op_evolves rows op Hn0) as (He & Hl & Ht & Hn & Hi); [|done|].
  { intros x Hx Hx'. apply NoDup_app in Hnd1 as (_ & Hdis & _). by apply (Hdis x). }
  destruct (IH (apply_op rows op)) as (He' & Hl' & Ht'); [|done|].
  { apply NoDup_app. split_and!; [done| |done]. intros x Hx. apply Hd.
    rewrite elem_of_app. by apply Hi. }
  simpl. split_and!; [|lia|lia].
  eapply Forall2_evolves_trans; [exact He|].
  assert (Hk : take (length rows) (foldl apply_op (apply_op rows op) ops) =
    take (length rows) (take (length (apply_op rows op)) (foldl apply_op (apply_op rows op) ops)))
    by (rewrite take_take; f_equal; lia).
  rewrite Hk. by apply Forall2_take.
Qed.

(** C36. Over any sequence of persisted alerts and status changes (alert ids
    fresh), every stored alert keeps its identity, rule, key and first-seen
    time, its status only moves along the allowed edges, a closed alert's text
    and payload never change, and the dedup counts of the table add up to the
    number of alerts persisted: none is lost and none is counted twice. *)
Theorem alert_table_evolution (rows : list AlertRow) (ops : list alert_op) :
  NoDup (ids rows ++ (ops ≫= op_ids)) -> Forall op_single ops ->
  let rows' := foldl apply_op rows ops in
  Forall2 row_evolves rows (take (length rows) rows') /\
  total rows' = total rows + foldr (fun op n => op_count op + n) 0 ops.
Proof. intros Hnd Hs rows'. by destruct (run_ops_evolves ops rows Hnd Hs) as (? & _ & ?). Qed.

Module AlertExample.
Definition alert (id key : string) (ts : Z) : Alert :=
  mkAlert "1.0.0" id (mkRuleRef "r" "r" "starter-pack" "1.0.0" SevHigh "" []) ts SevHigh St_new
    "c" [] [] None key 1 ts ts None [] [] (mkRendered id "").
Definition ops : list alert_op :=
  [AO_persist 600 (alert "a1" "k" 0) None; AO_persist 600 (alert "a2" "k" 100) None;
   AO_transition "a1" St_acknowledged; AO_persist 600 (alert "a3" "k" 200) None;
   AO_transition "a1" St_resolved; AO_transition "a1" St_acknowledged;
   AO_persist 600 (alert "a4" "k" 5000) None].
Definition final : list AlertRow := foldl apply_op [] ops.
Definition db : AlertDb := mkAlertDb final [] module_init.
Definition env : AuditEnv := mkAuditEnv false (mkDT 2026 1 1 0 0 0 0) 0.
Definition reply : TransitionReply * AlertDb :=
  transition (fun s => s) (fun _ => EmptyString) str_of_Z env db "a4" St_resolved.
End AlertExample.

(** The example's table: one closed alert with three occurrences and the text
    of the second, one new alert. *)
Example alert_example_table :
  (fun r => (ar_alert_id r, ar_status r, ar_dedup_count r, ra_short (ar_rendered r)))
    <$> AlertExample.final =
  [("a1", St_resolved, 3, "a2"); ("a4", St_new, 1, "a4")]%string.
Proof. vm_compute. reflexivity. Qed.

Lemma alert_table_evolution_witness : total AlertExample.final = total [] + 4.
Proof.
  apply (alert_table_evolution [] AlertExample.ops).
  - by apply (bool_decide_unpack _).
  - by repeat constructor.
Defined.

(** ** Bursts *)

(** Consecutive alerts of one key, each within the window of the one before. *)
Fixpoint burst (w : Z) (key : string) (prev : Z) (l : list Alert) : Prop :=
  match l with
  | [] => True
  | a :: rest =>
      al_dedup_key a = key /\ al_last_seen_at a = al_ts a /\
      prev <= al_ts a /\ al_ts a - w <= prev /\ burst w key (al_ts a) rest
  end.

Definition persist_all (w : Z) (rows : list AlertRow) (l : list Alert) : list AlertRow :=
  foldl (fun t a => pr_rows (persist w t a None)) rows l.

Lemma newest_unique (key : string) (cutoff : Z) (rows : list AlertRow) (r : AlertRow) :
  Forall (fun x => ar_dedup_key x <> key) rows -> in_dedup_window key cutoff r = true ->
  newest_in_window key cutoff (rows ++ [r]) = Some r.
Proof.
  intros Hf Hr. induction Hf as [|x rows Hx Hf IH]; simpl; [by rewrite Hr|].
  rewrite IH. unfold in_dedup_window at 1. by apply String.eqb_neq in Hx as ->.
Qed.

Lemma update_last (rows : list AlertRow) (r : AlertRow) (f : AlertRow -> AlertRow) :
  ar_alert_id r ∉ ids rows -> update_row (ar_alert_id r) f (rows ++ [r]) = rows ++ [f r].
Proof.
  intros Hid. unfold update_row. rewrite fmap_app. simpl. rewrite String.eqb_refl. f_equal.
  rewrite <- (list_fmap_id rows) at 2. apply list_fmap_ext. intros i x Hx.
  destruct (String.eqb_spec (ar_alert_id x) (ar_alert_id r)) as [He|]; [|done].
  exfalso. apply Hid. rewrite <- He. apply list_elem_of_fmap. exists x.
  split; [done|]. by eapply list_elem_of_lookup_2.
Qed.

Lemma burst_one_row (w : Z) (key : string) (l : list Alert) (rows : list AlertRow) (r : AlertRow) :
  Forall (fun x => ar_dedup_key x <> key) rows -> ar_alert_id r ∉ ids rows ->
  ar_dedup_key r = key -> ar_status r = St_new -> burst w key (ar_last_seen_at r) l ->
  exists r', persist_all w (rows ++ [r]) l = rows ++ [r'] /\
    ar_alert_id r' = ar_alert_id r /\ ar_status r' = St_new /\
    ar_first_seen_at r' = ar_first_seen_at r /\
    ar_dedup_count r' = ar_dedup_count r + Z.of_nat (length l) /\
    ar_last_seen_at r' = default (ar_last_seen_at r) (al_ts <$> last l).
Proof.
  intros Hf. revert r. induction l as [|a l IH]; intros r Hid Hk Hs Hb.
  { exists r. simpl. split_and!; try done. lia. }
  destruct Hb as (Ha & Hl & Hge & Hw & Hb). simpl.
  assert (Hp : pr_rows (persist w (rows ++ [r]) a None)
               = rows ++ [bump_open (ar_dedup_count r + 1) (al_last_seen_at a) a r]).
  { unfold persist. rewrite newest_unique.
    - simpl. rewrite bool_decide_eq_true_2 by done. by apply update_last.
    - by rewrite Ha.
    - unfold in_dedup_window. rewrite Hk, Ha, String.eqb_refl. simpl. by apply Z.leb_le. }
  rewrite Hp. destruct (IH (bump_open (ar_dedup_count r + 1) (al_last_seen_at a) a r))
    as (r' & Hr & Hi & Hst & Hfs & Hc & Hls); try done.
  { simpl. by rewrite Hl. }
  exists r'. split_and!; [done | done | done | done | simpl in *; lia |].
  rewrite Hls. simpl. rewrite Hl, last_cons. by destruct (last l).
Qed.

(** A burst of alerts with one dedup key, each within the window of the
    one before, is stored as a single open alert: first seen at the first,
    last seen at the last, with the number of alerts as its count. *)
Theorem burst_single_alert (w : Z) (rows : list AlertRow) (a : Alert) (l : list Alert) :
  Forall (fun x => ar_dedup_key x <> al_dedup_key a) rows -> al_alert_id a ∉ ids rows ->
  al_status a = St_new -> al_dedup_count a = 1 -> al_last_seen_at a = al_ts a ->
  burst w (al_dedup_key a) (al_ts a) l ->
  exists r, persist_all w rows (a :: l) = rows ++ [r] /\
    ar_alert_id r = al_alert_id a /\ ar_status r = St_new /\
    ar_first_seen_at r = al_first_seen_at a /\
    ar_dedup_count r = Z.of_nat (length (a :: l)) /\
    ar_last_seen_at r = default (al_ts a) (al_ts <$> last l).
Proof.
  intros Hf Hid Hs Hc Hl Hb. simpl.
  assert (Hp : pr_rows (persist w rows a None) = rows ++ [row_of_alert a]).
  { unfold persist. replace (newest_in_window _ _ rows) with (@None AlertRow); [done|].
    symmetry. apply newest_in_window_None. clear -Hf.
    induction Hf as [|x rows Hx Hf IH]; simpl; [done|]. rewrite IH.
    unfold in_dedup_window. by apply String.eqb_neq in Hx as ->. }
  rewrite Hp. destruct (burst_one_row w (al_dedup_key a) l rows (row_of_alert a))
    as (r & Hr & Hi & Hst & Hfs & Hcn & Hls); try done; [by simpl; rewrite Hl|].
  exists r. simpl in *. rewrite Hl in Hls. split_and!; try done. lia.
Qed.

Lemma burst_single_alert_witness :
  exists r, persist_all 600 [] [AlertExample.alert "x" "k" 0; AlertExample.alert "y" "k" 500;
                                AlertExample.alert "z" "k" 1100] = [] ++ [r] /\
    ar_alert_id r = "x"%string /\ ar_status r = St_new /\ ar_first_seen_at r = 0 /\
    ar_dedup_count r = 3 /\ ar_last_seen_at r = 1100.
Proof.
  apply (burst_single_alert 600 [] (AlertExample.alert "x" "k" 0)
    [AlertExample.alert "y" "k" 500; AlertExample.alert "z" "k" 1100]);
    try done; first [apply not_elem_of_nil | simpl; split_and!; done || lia].
Defined.

(** A repetition of an alert that is no longer open is silent: it is
    reported as neither new nor notifiable, and only the counter and the
    last-seen time of the stored alert change. *)
Theorem closed_alert_bump_silent (w : Z) (rows : list AlertRow) (a : Alert)
    (window_s : option Q) (r : AlertRow) :
  NoDup (ids rows) ->
  newest_in_window (al_dedup_key a)
    (al_ts a - match window_s with None => w | Some q => timedelta_us q end) rows = Some r ->
  ar_status r <> St_new ->
  let p := persist w rows a window_s in
  pr_was_new p = false /\ pr_notifiable p = false /\
  exists x y, rows = x ++ r :: y /\
    pr_rows p = x ++ bump_counters (ar_dedup_count r + 1) (al_last_seen_at a) r :: y.
Proof.
  intros Hnd Hr Hs p. unfold p, persist. rewrite Hr. simpl.
  rewrite bool_decide_eq_false_2 by done. split_and!; [done..|].
  apply newest_in_window_spec in Hr as [Hin _]. by apply update_row_split.
Qed.

Lemma closed_alert_bump_silent_witness :
  pr_notifiable (persist 600 AlertExample.final (AlertExample.alert "b" "k" 700) None) = true /\
  pr_notifiable (persist 600 (take 1 AlertExample.final) (AlertExample.alert "b" "k" 700) None)
    = false.
Proof.
  split; [vm_compute; reflexivity|].
  apply (closed_alert_bump_silent 600 (take 1 AlertExample.final) (AlertExample.alert "b" "k" 700)
           None (match head AlertExample.final with
                 | Some r => r | None => row_of_alert (AlertExample.alert "b" "k" 0) end)).
  - by apply (bool_decide_unpack _).
  - vm_compute. reflexivity.
  - discriminate.
Defined.

(** ** Status changes and their audit rows *)

(** A status change succeeds exactly when the alert exists and the status
    machine allows it; it then changes nothing but that alert's status and
    makes exactly one audit append, with the action of the target; in every
    other case the database is untouched. *)
Theorem transition_spec (sha256 : string -> string) (float_repr : Q -> string)
    (str_time : Z -> string) (env : AuditEnv) (db : AlertDb) (id : string)
    (target : AlertStatus) :
  NoDup (ids (db_alerts db)) ->
  match transition sha256 float_repr str_time env db id target with
  | (TR_ok s, db') =>
      s = target /\
      (exists a r b, db_alerts db = a ++ r :: b /\ ar_alert_id r = id /\
         edge (ar_status r) target /\ db_alerts db' = a ++ set_status target r :: b) /\
      (let o := append_audit sha256 float_repr str_time (db_audit_module db) (db_audit db)
                  (env_db_error env) (env_ts env) (env_mono env) "user:local"
                  (AUDIT_ACTION target) (Some ("alert:" +:+ id)) [] in
       db_audit db' = ap_rows o /\ db_audit_module db' = ap_module o)
  | (TR_invalid c t, db') =>
      db' = db /\ t = target /\ exists r, r ∈ db_alerts db /\ ar_alert_id r = id /\
        ar_status r = c /\ ~ edge c target
  | (TR_not_found, db') => db' = db /\ id ∉ ids (db_alerts db)
  end.
Proof.
  intros Hnd. unfold transition. destruct (find_alert id (db_alerts db)) as [r|] eqn:E.
  - apply find_alert_spec in E as [Hin Hid].
    destruct (validate_transition (ar_status r) target) eqn:Ev; simpl.
    + split; [done|]. split; [|done].
      destruct (update_row_split id (set_status target) _ r Hnd Hin Hid) as (a & b & H1 & H2).
      exists a, r, b. done.
    + split_and!; [done..|]. exists r. split_and!; try done. unfold edge. by rewrite Ev.
  - split; [done|]. intros (r & -> & Hin)%list_elem_of_fmap.
    apply list_elem_of_In, (List.find_none _ _ E) in Hin. by apply String.eqb_neq in Hin.
Qed.

Lemma transition_spec_witness :
  fst AlertExample.reply = TR_ok St_resolved /\
  exists a r b, AlertExample.final = a ++ r :: b /\ ar_alert_id r = "a4"%string /\
     edge (ar_status r) St_resolved /\
     db_alerts (snd AlertExample.reply) = a ++ set_status St_resolved r :: b.
Proof.
  assert (Hf : fst AlertExample.reply = TR_ok St_resolved) by (vm_compute; reflexivity).
  split; [exact Hf|].
  assert (Hnd : NoDup (ids (db_alerts AlertExample.db))) by (by apply (bool_decide_unpack _)).
  pose proof (transition_spec (fun s => s) (fun _ => EmptyString) str_of_Z AlertExample.env
                AlertExample.db "a4" St_resolved Hnd) as H.
  fold AlertExample.reply in H. destruct AlertExample.reply as [rep db']. simpl in *. subst rep.
  apply H.
Defined.

(** ** The rule engine's history *)

Lemma trim_sorted (now : Z) (h : list Event) :
  StronglySorted (fun a b => ev_ts a <= ev_ts b) h ->
  trim_history now h = List.filter (fun e => now - HISTORY_WINDOW <=? ev_ts e) h.
Proof.
  induction 1 as [|e h Hs IH Hf]; [done|]. cbn [trim_history List.filter].
  destruct (Z.ltb_spec (ev_ts e) (now - HISTORY_WINDOW)) as [Hlt|Hge].
  - rewrite (proj2 (Z.leb_gt _ _) Hlt). done.
  - rewrite (proj2 (Z.leb_le _ _) Hge). f_equal. symmetry. clear IH Hs.
    induction Hf as [|x h Hx Hf IH]; [done|]. simpl.
    rewrite (proj2 (Z.leb_le (now - HISTORY_WINDOW) (ev_ts x))) by lia. by rewrite IH.
Qed.

Lemma push_history_suffix (h : list Event) (e : Event) :
  exists k, push_history h e = drop k (h ++ [e]) /\ (k <= length h)%nat /\
    (length (push_history h e) <= HISTORY_MAX)%nat.
Proof.
  unfold push_history. exists (length (h ++ [e]) - HISTORY_MAX)%nat. split; [done|].
  rewrite length_drop, length_app. simpl. unfold HISTORY_MAX. lia.
Qed.

(** An event marked [first_seen] (baseline catch-up) reaches no rule and
    leaves the engine as it was. Any other event is added to the history,
    which holds at most 5000 events and, when events arrive in time order,
    exactly those of the last five minutes among them; the rules see that
    history, and what is fanned out and stored is determined by their matches. *)
Theorem process_history (class_attr : string -> pyval)
    (re_search : string -> string -> result PyExc bool) (str_other : pyval -> string)
    (eng : RuleEngine) (e : Event) (fresh : nat -> string) :
  let '(eng', r) := process class_attr re_search str_other eng e fresh in
  if ev_first_seen e then eng' = eng /\ r = Ok []
  else
    exists k recent, recent = drop k (re_history eng ++ [e]) /\ (length recent <= HISTORY_MAX)%nat /\
      (k <= length (re_history eng))%nat /\
      (StronglySorted (fun a b => ev_ts a <= ev_ts b) (re_history eng ++ [e]) ->
       re_history eng' = List.filter (fun x => ev_ts e - HISTORY_WINDOW <=? ev_ts x) recent) /\
      (re_rows eng', r) = process_matches eng e
        (registry_evaluate class_attr re_search str_other (re_registry eng)
           (mkCtx e (re_history eng'))) fresh 0 (re_rows eng) [].
Proof.
  unfold process. destruct (ev_first_seen e); [done|].
  destruct (process_matches _ _ _ _ _ _ _) as [rows r] eqn:E.
  destruct (push_history_suffix (re_history eng) e) as (k & Hk & Hle & Hmax).
  exists k, (push_history (re_history eng) e). split_and!; try done. simpl.
  intros Hs. apply trim_sorted. rewrite Hk. clear -Hs.
  generalize (re_history eng ++ [e]) as l, k as n, Hs. clear. induction l as [|x l IH];
    intros [|n] Hs; simpl; try done. apply IH. by apply StronglySorted_inv in Hs as [? _].
Qed.

(** ** A finding: the payload of a bumped alert *)

(** After a repetition is folded into an open alert, [handle_get_alert] of
    that alert returns the payload of the repetition: its alert id is the id of
    the candidate that was never stored, and its count is one. *)
Theorem get_alert_after_bump (so : pyval -> string) (w : Z) (db : AlertDb) (a : Alert)
    (r : AlertRow) (window_s : option Q) :
  NoDup (ids (db_alerts db)) ->
  newest_in_window (al_dedup_key a)
    (al_ts a - match window_s with None => w | Some q => timedelta_us q end) (db_alerts db)
    = Some r ->
  ar_status r = St_new ->
  let db' := mkAlertDb (pr_rows (persist w (db_alerts db) a window_s)) (db_audit db)
               (db_audit_module db) in
  handle_get_alert so db' [("alert_id", PStr (ar_alert_id r))]%string = Some a.
Proof.
  intros Hnd Hr Hs db'. unfold handle_get_alert, db', persist. rewrite Hr.
  change (alert_id_param so _) with (ar_alert_id r). cbn [db_alerts pr_rows].
  rewrite bool_decide_eq_true_2 by done.
  apply newest_in_window_spec in Hr as [Hin _].
  destruct (update_row_split (ar_alert_id r) (bump_open (ar_dedup_count r + 1) (al_last_seen_at a) a)
              _ r Hnd Hin eq_refl) as (x & y & Hx & ->).
  unfold find_alert. rewrite Hx in Hnd. unfold ids in Hnd. rewrite fmap_app in Hnd.
  apply NoDup_app in Hnd as (_ & Hd & _). simpl in Hd.
  assert (Hn : List.find (fun z => String.eqb (ar_alert_id z) (ar_alert_id r)) x = None).
  { clear -Hd. induction x as [|z x IH]; [done|]. simpl.
    destruct (String.eqb_spec (ar_alert_id z) (ar_alert_id r)) as [He|].
    - exfalso. apply (Hd (ar_alert_id z)); [left | rewrite He; left].
    - apply IH. intros v Hv. apply Hd. by right. }
  assert (List.find (fun z => String.eqb (ar_alert_id z) (ar_alert_id r))
            (x ++ bump_open (ar_dedup_count r + 1) (al_last_seen_at a) a r :: y)
          = Some (bump_open (ar_dedup_count r + 1) (al_last_seen_at a) a r)) as ->; [|done].
  clear -Hn. induction x as [|z x IH]; simpl in *; [by rewrite String.eqb_refl|].
  destruct (String.eqb _ _); [done | by apply IH].
Qed.

Lemma get_alert_after_bump_witness :
  handle_get_alert (fun _ => EmptyString)
    (mkAlertDb (pr_rows (persist 600 [row_of_alert (AlertExample.alert "x" "k" 0)]
       (AlertExample.alert "y" "k" 5) None)) [] module_init)
    [("alert_id", PStr "x")]%string = Some (AlertExample.alert "y" "k" 5).
Proof.
  apply (get_alert_after_bump (fun _ => EmptyString) 600
    (mkAlertDb [row_of_alert (AlertExample.alert "x" "k" 0)] [] module_init)
    (AlertExample.alert "y" "k" 5) (row_of_alert (AlertExample.alert "x" "k" 0)) None);
    [by apply (bool_decide_unpack _) | vm_compute; reflexivity | reflexivity].
Defined.
