(* ===== verification/Cases.v ===== *)
(** * Cases ([inspectord/cases/store.py], [cases/ipc_handlers.py])

    The store of user-curated cases: the [cases], [case_alert], [case_event]
    and [case_evidence] tables, their operations, and the handlers that audit
    them. Clock readings and fresh ids are arguments. *)

From S2P Require Import Prelude Schemas RuleEval Alerts Ipc.

Inductive CaseStatus := Case_open | Case_closed.
#[export] Instance CaseStatus_eq_dec : EqDecision CaseStatus.
Proof. solve_decision. Defined.

Record CaseRow := mkCaseRow {
  cs_id : string;
  cs_title : string;
  cs_status : CaseStatus;
  cs_opened_at : Z;
  cs_closed_at : option Z;
}.
Record CaseAlert := mkCaseAlert { ca_case : string; ca_alert : string; ca_attached_at : Z }.
Record CaseEvent := mkCaseEvent {
  ce_case : string;
  ce_ts : Z;
  ce_seq : Z;
  ce_kind : string;
  ce_text : option string;
}.
Record EvidenceRow := mkEvidence {
  ce_ev_case : string;
  ce_ev_kind : string;
  ce_sha256 : string;
  ce_original_path : string;
  ce_captured_at : Z;
  ce_meta_json : option string;
}.

Record CaseDb := mkCaseDb {
  cd_cases : list CaseRow;
  cd_links : list CaseAlert;
  cd_events : list CaseEvent;
  cd_evidence : list EvidenceRow;
  cd_alerts : list AlertRow;
}.

Definition MAX_TEXT : Z := 16384.

Definition bound (text : option string) : option string := prefix_upto MAX_TEXT <$> text.

(** [_append_event]. *)
Definition append_event (db : CaseDb) (case_id : string) (ts seq : Z) (kind : string)
    (text : option string) : CaseDb :=
  mkCaseDb (cd_cases db) (cd_links db)
    (cd_events db ++ [mkCaseEvent case_id ts seq kind (bound text)]) (cd_evidence db) (cd_alerts db).

Definition find_case (db : CaseDb) (case_id : string) : option CaseRow :=
  List.find (fun c => String.eqb (cs_id c) case_id) (cd_cases db).
Definition case_exists (db : CaseDb) (case_id : string) : bool :=
  match find_case db case_id with Some _ => true | None => false end.
Definition link_exists (db : CaseDb) (case_id alert_id : string) : bool :=
  existsb (fun l => String.eqb (ca_case l) case_id && String.eqb (ca_alert l) alert_id) (cd_links db).

(** [_attach]. *)
Definition attach (db : CaseDb) (case_id alert_id : string) (ts seq : Z) : bool * CaseDb :=
  if link_exists db case_id alert_id then (false, db)
  else
    let db1 := mkCaseDb (cd_cases db) (cd_links db ++ [mkCaseAlert case_id alert_id ts])
                 (cd_events db) (cd_evidence db) (cd_alerts db) in
    (true, append_event db1 case_id ts seq "alert_attached" (Some alert_id)).

(** [case_id[:8]]. *)
Definition derived_title (db : CaseDb) (case_id alert_id : string) (title : option string) : string :=
  match title with
  | Some t => t
  | None => match find_alert alert_id (cd_alerts db) with
            | Some r => ra_short (ar_rendered r)
            | None => "Case " +:+ str_take 8 case_id
            end
  end.

(** [open_case]; [fails] is an exception between BEGIN and COMMIT, which rolls
    everything back, as does a case id that is taken. *)
Definition open_case (db : CaseDb) (case_id : string) (now : Z) (fails : bool)
    (alert_id : string) (title : option string) : option string * CaseDb :=
  let title := derived_title db case_id alert_id title in
  if fails || case_exists db case_id then (None, db)
  else
    let row := mkCaseRow case_id (prefix_upto MAX_TEXT title) Case_open now None in
    let db1 := mkCaseDb (cd_cases db ++ [row]) (cd_links db) (cd_events db) (cd_evidence db)
                 (cd_alerts db) in
    let db2 := append_event db1 case_id now 0 "opened" None in
    (Some case_id, (attach db2 case_id alert_id now 1).2).

Definition attach_alert (db : CaseDb) (now : Z) (case_id alert_id : string) : CaseDb :=
  if case_exists db case_id then (attach db case_id alert_id now 0).2 else db.

Definition add_note (db : CaseDb) (now : Z) (case_id text : string) : CaseDb :=
  if case_exists db case_id then append_event db case_id now 0 "note" (Some text) else db.

Definition append_timeline (db : CaseDb) (now : Z) (case_id kind : string) (text : option string)
  : CaseDb :=
  if case_exists db case_id then append_event db case_id now 0 kind text else db.

Definition close_row (now : Z) (case_id : string) (c : CaseRow) : CaseRow :=
  if String.eqb (cs_id c) case_id
  then mkCaseRow (cs_id c) (cs_title c) Case_closed (cs_opened_at c) (Some now) else c.

Definition close_case (db : CaseDb) (now : Z) (case_id : string) : CaseDb :=
  match find_case db case_id with
  | None => db
  | Some c =>
      if bool_decide (cs_status c = Case_closed) then db
      else append_event (mkCaseDb (close_row now case_id <$> cd_cases db) (cd_links db)
                           (cd_events db) (cd_evidence db) (cd_alerts db))
             case_id now 0 "closed" None
  end.

(** ** Reading *)

Definition links_of (db : CaseDb) (case_id : string) : list CaseAlert :=
  List.filter (fun l => String.eqb (ca_case l) case_id) (cd_links db).

Definition case_newer (a b : CaseRow) : Prop := cs_opened_at b <= cs_opened_at a.
#[export] Instance case_newer_dec a b : Decision (case_newer a b).
Proof. unfold case_newer. apply _. Defined.

(** [list_cases]: each case with its alert count. *)
Definition list_cases (db : CaseDb) : list (CaseRow * nat) :=
  (fun c => (c, length (links_of db (cs_id c)))) <$> merge_sort case_newer (cd_cases db).

Definition attached_before (a b : CaseAlert) : Prop := ca_attached_at a <= ca_attached_at b.
#[export] Instance attached_before_dec a b : Decision (attached_before a b).
Proof. unfold attached_before. apply _. Defined.
Definition event_before (a b : CaseEvent) : Prop :=
  ce_ts a < ce_ts b \/ (ce_ts a = ce_ts b /\ ce_seq a <= ce_seq b).
#[export] Instance event_before_dec a b : Decision (event_before a b).
Proof. unfold event_before. apply _. Defined.
Definition evidence_before (a b : EvidenceRow) : Prop :=
  ce_captured_at a < ce_captured_at b \/
  (ce_captured_at a = ce_captured_at b /\
   ((ce_ev_kind a <> ce_ev_kind b /\ String.le (ce_ev_kind a) (ce_ev_kind b)) \/
    (ce_ev_kind a = ce_ev_kind b /\ String.le (ce_sha256 a) (ce_sha256 b)))).
#[export] Instance evidence_before_dec a b : Decision (evidence_before a b).
Proof. unfold evidence_before. apply _. Defined.

(** [get_case]: the row, its alerts (pruned ones as [None]), its timeline and
    its evidence. *)
Record CaseView := mkCaseView {
  cv_case : CaseRow;
  cv_alerts : list (string * option AlertRow);
  cv_timeline : list CaseEvent;
  cv_evidence : list EvidenceRow;
}.
Definition get_case (db : CaseDb) (case_id : string) : option CaseView :=
  c ← find_case db case_id;
  Some (mkCaseView c
    ((fun l => (ca_alert l, find_alert (ca_alert l) (cd_alerts db))) <$>
       merge_sort attached_before (links_of db case_id))
    (merge_sort event_before (List.filter (fun e => String.eqb (ce_case e) case_id) (cd_events db)))
    (merge_sort evidence_before
       (List.filter (fun e => String.eqb (ce_ev_case e) case_id) (cd_evidence db)))).

(** ** The handlers *)

(** The database with the audit calls made: action, target, details. *)
Record CaseSrv := mkCaseSrv { ch_db : CaseDb; ch_audit : list (string * string * dict) }.
Definition audited (s : CaseSrv) (db : CaseDb) (action case_id : string) (details : dict) : CaseSrv :=
  mkCaseSrv db (ch_audit s ++ [(action, "case:" +:+ case_id, details)]).

Section Handlers.
Context (str_other : pyval -> string).

(** [_required]. *)
Definition required (params : dict) (key : string) : result HandlerError string :=
  match dict_get key params with
  | PNone => Err (ClientFacing (key +:+ " is required"))
  | PStr EmptyString => Err (ClientFacing (key +:+ " is required"))
  | v => Ok (py_str str_other v)
  end.

(** [handle_open_case]; a title that is not a string cannot be sliced. *)
Definition handle_open_case (params : dict) (case_id : string) (now : Z) (fails : bool)
    (s : CaseSrv) : result HandlerError string * CaseSrv :=
  match required params "alert_id" with
  | Err e => (Err e, s)
  | Ok alert_id =>
      let title := match dict_get "title" params with
                   | PNone => Some None | PStr t => Some (Some t) | _ => None end in
      match title with
      | None => (Err (Unexpected "TypeError"), s)
      | Some title =>
          match open_case (ch_db s) case_id now fails alert_id title with
          | (None, db) => (Err (Unexpected "duckdb.Error"), mkCaseSrv db (ch_audit s))
          | (Some id, db) =>
              let stored := match find_case db id with Some c => PStr (cs_title c) | None => PNone end in
              (Ok id, audited s db "case_opened" id [("title"%string, stored)])
          end
      end
  end.

Definition gated (exists_ : bool) (s : CaseSrv) (db : CaseDb) (action case_id : string)
    (details : dict) : CaseSrv :=
  if exists_ then audited s db action case_id details else mkCaseSrv db (ch_audit s).

Definition handle_attach_alert (params : dict) (now : Z) (s : CaseSrv)
  : result HandlerError unit * CaseSrv :=
  match required params "case_id", required params "alert_id" with
  | Err e, _ | _, Err e => (Err e, s)
  | Ok case_id, Ok alert_id =>
      (Ok tt, gated (case_exists (ch_db s) case_id) s (attach_alert (ch_db s) now case_id alert_id)
                "case_alert_attached" case_id [("alert_id"%string, PStr alert_id)])
  end.

Definition handle_add_note (params : dict) (now : Z) (s : CaseSrv)
  : result HandlerError unit * CaseSrv :=
  match required params "case_id", required params "text" with
  | Err e, _ | _, Err e => (Err e, s)
  | Ok case_id, Ok text =>
      (Ok tt, gated (case_exists (ch_db s) case_id) s (add_note (ch_db s) now case_id text)
                "case_note_added" case_id [])
  end.

Definition handle_close_case (params : dict) (now : Z) (s : CaseSrv)
  : result HandlerError unit * CaseSrv :=
  match required params "case_id" with
  | Err e => (Err e, s)
  | Ok case_id =>
      (Ok tt, gated (case_exists (ch_db s) case_id) s (close_case (ch_db s) now case_id)
                "case_closed" case_id [])
  end.
End Handlers.

(** ** The history of a case *)

Definition count_events (db : CaseDb) (case_id kind : string) : nat :=
  length (List.filter (fun e => String.eqb (ce_case e) case_id && String.eqb (ce_kind e) kind)
            (cd_events db)).

(** What the tables say of one case. *)
Definition history_of (db : CaseDb) (c : CaseRow) : Prop :=
  count_events db (cs_id c) "opened" = 1%nat /\
  count_events db (cs_id c) "closed" = (if decide (cs_status c = Case_closed) then 1%nat else 0%nat) /\
  (cs_status c = Case_closed <-> is_Some (cs_closed_at c)) /\
  count_events db (cs_id c) "alert_attached" = length (links_of db (cs_id c)).

Definition case_ids (db : CaseDb) : list string := cs_id <$> cd_cases db.
Definition link_pairs (db : CaseDb) : list (string * string) :=
  (fun l => (ca_case l, ca_alert l)) <$> cd_links db.

Record case_inv (db : CaseDb) : Prop := {
  cv_ids : NoDup (case_ids db);
  cv_links : NoDup (link_pairs db);
  cv_history : forall c, c ∈ cd_cases db -> history_of db c;
  cv_known_events : Forall (fun e => ce_case e ∈ case_ids db) (cd_events db);
  cv_known_links : Forall (fun l => ca_case l ∈ case_ids db) (cd_links db);
}.

Lemma case_exists_spec (db : CaseDb) (id : string) :
  case_exists db id = true <-> id ∈ case_ids db.
Proof.
  unfold case_exists, find_case, case_ids. rewrite list_elem_of_fmap. split.
  - destruct (List.find _ _) as [c|] eqn:E; [|done]. intros _.
    apply List.find_some in E as [Hin He%String.eqb_eq]. exists c.
    split; [done | by apply list_elem_of_In].
  - intros (c & -> & Hin). destruct (List.find _ _) eqn:E; [done|].
    eapply List.find_none in E; [|by apply list_elem_of_In]. by rewrite String.eqb_refl in E.
Qed.

Lemma count_append (db : CaseDb) (id : string) (ts seq : Z) (kind : string) (text : option string)
    (c k : string) :
  count_events (append_event db id ts seq kind text) c k =
  (count_events db c k + (if String.eqb id c && String.eqb kind k then 1 else 0))%nat.
Proof.
  unfold count_events. simpl. rewrite List.filter_app, length_app. simpl. by destruct (_ && _).
Qed.

Lemma count_unknown (db : CaseDb) (id k : string) :
  case_inv db -> id ∉ case_ids db -> count_events db id k = 0%nat.
Proof.
  intros [_ _ _ He _] Hid. unfold count_events.
  revert He. generalize (cd_events db). induction 1 as [|e es Hin _ IH]; [done|]. simpl.
  destruct (String.eqb_spec (ce_case e) id) as [<-|]; done.
Qed.

Lemma links_unknown (db : CaseDb) (id : string) :
  case_inv db -> id ∉ case_ids db -> links_of db id = [].
Proof.
  intros [_ _ _ _ Hl] Hid. unfold links_of.
  revert Hl. generalize (cd_links db). induction 1 as [|l ls Hin _ IH]; [done|]. simpl.
  destruct (String.eqb_spec (ca_case l) id) as [<-|]; done.
Qed.

(** The kinds [store.py] writes itself. *)
Definition own_kinds : list string := ["opened"; "closed"; "alert_attached"]%string.

Lemma own_kind_neq (kind k : string) : kind ∉ own_kinds -> k ∈ own_kinds -> String.eqb kind k = false.
Proof. intros H1 H2. apply String.eqb_neq. by intros ->. Qed.

Lemma inv_append (db : CaseDb) (id : string) (ts seq : Z) (kind : string) (text : option string) :
  case_inv db -> id ∈ case_ids db -> kind ∉ own_kinds ->
  case_inv (append_event db id ts seq kind text).
Proof.
  intros [H1 H2 H3 H4 H5] Hid Hk. split; try done.
  - intros c Hc. destruct (H3 c Hc) as (Ha & Hb & Hd & He). unfold history_of.
    rewrite !count_append, !(own_kind_neq kind) by (done || by apply (bool_decide_unpack _)).
    rewrite !andb_false_r, !Nat.add_0_r. done.
  - simpl. apply Forall_app. split; [done|]. by repeat constructor.
Qed.

Lemma inv_attach (db : CaseDb) (id alert : string) (ts seq : Z) :
  case_inv db -> id ∈ case_ids db -> case_inv (attach db id alert ts seq).2.
Proof.
  intros [H1 H2 H3 H4 H5] Hid. unfold attach. destruct (link_exists db id alert) eqn:El; [by split|].
  simpl. split; try done.
  - unfold link_pairs. simpl. rewrite fmap_app. apply NoDup_app. split_and!; [done| |apply NoDup_singleton].
    intros x Hx ->%list_elem_of_singleton. apply list_elem_of_fmap in Hx as (l & Heq & Hin).
    simpl in Heq. injection Heq as H6 H7.
    assert (link_exists db id alert = true); [|congruence].
    apply existsb_exists. exists l. split; [by apply list_elem_of_In|]. by rewrite <- H6, <- H7, !String.eqb_refl.
  - intros c Hc. destruct (H3 c Hc) as (Ha & Hb & Hd & He). unfold history_of.
    rewrite !count_append. unfold links_of. simpl. rewrite List.filter_app, length_app. simpl.
    change (count_events _ ?x ?y) with (count_events db x y).
    fold (links_of db (cs_id c)). rewrite <- He, Ha, Hb.
    destruct (String.eqb_spec id (cs_id c)); simpl; split_and!; done || lia || (destruct (decide _); done || lia).
  - simpl. apply Forall_app. split; [done|]. by repeat constructor.
  - simpl. apply Forall_app. split; [done|]. by repeat constructor.
Qed.

Lemma inv_open (db : CaseDb) (id : string) (now : Z) (fails : bool) (alert : string)
    (title : option string) :
  case_inv db -> case_inv (open_case db id now fails alert title).2.
Proof.
  intros Hinv. unfold open_case. destruct fails; [done|]. simpl.
  destruct (case_exists db id) eqn:Ex; [done|].
  assert (Hid : id ∉ case_ids db) by (intros H%case_exists_spec; congruence).
  cbn [snd]. apply inv_attach.
  2: { unfold case_ids. simpl. rewrite fmap_app. apply elem_of_app. right. left. }
  pose proof (count_unknown db id) as Hc. pose proof (links_unknown db id Hinv Hid) as Hl.
  destruct Hinv as [H1 H2 H3 H4 H5].
  set (row := mkCaseRow id _ _ _ _).
  assert (Hids : case_ids (append_event (mkCaseDb (cd_cases db ++ [row]) (cd_links db) (cd_events db)
            (cd_evidence db) (cd_alerts db)) id now 0 "opened" None) = case_ids db ++ [id])
    by (unfold case_ids; simpl; by rewrite fmap_app).
  split; rewrite ?Hids; try done.
  - apply NoDup_app. split_and!; [done| |apply NoDup_singleton]. by intros x Hx ->%list_elem_of_singleton.
  - intros c [Hin|Hin]%elem_of_app; unfold history_of; rewrite !count_append;
      change (count_events _ ?x ?y) with (count_events db x y);
      change (links_of _ ?x) with (links_of db x).
    + destruct (H3 c Hin) as (-> & -> & Hd & ->).
      destruct (String.eqb_spec id (cs_id c)) as [->|]; simpl.
      * exfalso. apply Hid. unfold case_ids. apply list_elem_of_fmap. by exists c.
      * split_and!; try done; lia.
    + apply list_elem_of_singleton in Hin as ->. simpl. rewrite String.eqb_refl, Hl, !Hc by done.
      simpl. by split_and!.
  - simpl. apply Forall_app. split.
    + eapply Forall_impl; [exact H4|]. intros e He. apply elem_of_app. by left.
    + repeat constructor. apply elem_of_app. right. left.
  - simpl. eapply Forall_impl; [exact H5|]. intros e He. apply elem_of_app. by left.
Qed.

Lemma close_ids (now : Z) (id : string) (cs : list CaseRow) :
  cs_id <$> (close_row now id <$> cs) = cs_id <$> cs.
Proof.
  rewrite <- list_fmap_compose. apply list_fmap_ext. intros _ c _. simpl. unfold close_row.
  by destruct (String.eqb _ _).
Qed.

Lemma inv_close (db : CaseDb) (now : Z) (id : string) : case_inv db -> case_inv (close_case db now id).
Proof.
  intros Hinv. unfold close_case. destruct (find_case db id) as [c0|] eqn:Ef; [|done].
  case_bool_decide as Hs; [done|].
  apply List.find_some in Ef as [Hc0%list_elem_of_In Hid0%String.eqb_eq].
  destruct Hinv as [H1 H2 H3 H4 H5].
  assert (Hids : forall t, case_ids (append_event (mkCaseDb (close_row now id <$> cd_cases db) (cd_links db)
      (cd_events db) (cd_evidence db) (cd_alerts db)) id now 0 "closed" t) = case_ids db)
    by (intros; unfold case_ids; simpl; apply close_ids).
  split; rewrite ?Hids; try done.
  - intros c (c1 & -> & Hin)%list_elem_of_fmap. unfold history_of. rewrite !count_append.
    change (count_events _ ?x ?y) with (count_events db x y).
    change (links_of _ ?x) with (links_of db x).
    destruct (H3 c1 Hin) as (Ha & Hb & Hd & He). unfold close_row.
    destruct (String.eqb_spec (cs_id c1) id) as [Heq|Heq]; simpl.
    + assert (c1 = c0) as ->.
      { apply (NoDup_fmap_eq cs_id (cd_cases db)); try done. congruence. }
      rewrite <- Heq, String.eqb_refl, Ha, Hb, He, decide_False by done. simpl.
      by split_and!.
    + assert (Hne : String.eqb id (cs_id c1) = false) by (apply String.eqb_neq; congruence).
      rewrite Hne, Ha, Hb, He, !Nat.add_0_r. done.
  - simpl. apply Forall_app. split; [done|]. repeat constructor.
    apply list_elem_of_fmap. by exists c0.
Qed.

(** The states of the case tables: the store's operations, other components
    writing alerts and evidence, and timeline entries of their own kinds. *)
Inductive case_reach : CaseDb -> Prop :=
| cr_empty alerts evidence : case_reach (mkCaseDb [] [] [] evidence alerts)
| cr_others db alerts evidence :
    case_reach db ->
    case_reach (mkCaseDb (cd_cases db) (cd_links db) (cd_events db) evidence alerts)
| cr_open db id now fails alert title :
    case_reach db -> case_reach (open_case db id now fails alert title).2
| cr_attach db now id alert : case_reach db -> case_reach (attach_alert db now id alert)
| cr_note db now id text : case_reach db -> case_reach (add_note db now id text)
| cr_timeline db now id kind text :
    case_reach db -> kind ∉ own_kinds -> case_reach (append_timeline db now id kind text)
| cr_close db now id : case_reach db -> case_reach (close_case db now id).

Lemma case_reach_inv (db : CaseDb) : case_reach db -> case_inv db.
Proof.
  induction 1 as [| db a e _ [H1 H2 H3 H4 H5] | | db now id alert _ IH | db now id text _ IH
                 | db now id kind text _ IH Hk |].
  - split; simpl; [constructor|constructor| |done|done]. by intros c ?%not_elem_of_nil.
  - by split.
  - by apply inv_open.
  - unfold attach_alert. destruct (case_exists db id) eqn:E; [|done].
    apply inv_attach; [done | by apply case_exists_spec].
  - unfold add_note. destruct (case_exists db id) eqn:E; [|done].
    apply inv_append; [done | by apply case_exists_spec | by apply (bool_decide_unpack _)].
  - unfold append_timeline. destruct (case_exists db id) eqn:E; [|done].
    apply inv_append; [done | by apply case_exists_spec | done].
  - by apply inv_close.
Qed.

(** The activity log tells the truth about every case: in any reachable
    state a case has exactly one [opened] entry, a [closed] entry (exactly one)
    if and only if its status is closed, which is when it has a closing time,
    as many [alert_attached] entries as links, and the alert count that the
    listing reports is the number of alerts that the case's own view shows;
    no alert is linked twice. *)
Theorem case_log_consistent (db : CaseDb) (c : CaseRow) (n : nat) :
  case_reach db -> (c, n) ∈ list_cases db ->
  count_events db (cs_id c) "opened" = 1%nat /\
  count_events db (cs_id c) "closed" = (if decide (cs_status c = Case_closed) then 1%nat else 0%nat) /\
  (cs_status c = Case_closed <-> is_Some (cs_closed_at c)) /\
  count_events db (cs_id c) "alert_attached" = n /\
  (exists v, get_case db (cs_id c) = Some v /\ cv_case v = c /\ length (cv_alerts v) = n /\
        NoDup (cv_alerts v).*1).
Proof.
  intros [H1 H2 H3 _ _]%case_reach_inv (c0 & Heq0 & Hin)%list_elem_of_fmap. injection Heq0 as <- ->.
  rewrite merge_sort_Permutation in Hin. destruct (H3 c Hin) as (Ha & Hb & Hd & He).
  split_and!; try done.
  assert (Hf : find_case db (cs_id c) = Some c).
  { pose proof (proj2 (case_exists_spec db (cs_id c))) as Hex. unfold case_exists in Hex.
    destruct (find_case db (cs_id c)) as [c'|] eqn:E.
    - apply List.find_some in E as [Hin' He'%String.eqb_eq]. f_equal.
      apply (NoDup_fmap_eq cs_id (cd_cases db)); try done. by apply list_elem_of_In.
    - exfalso. assert (false = true); [|done]. apply Hex. unfold case_ids.
      apply list_elem_of_fmap. by exists c. }
  eexists. unfold get_case. rewrite Hf. split; [reflexivity|]. simpl. split; [done|].
  rewrite length_fmap, merge_sort_Permutation. split; [done|].
  rewrite <- list_fmap_compose.
  unfold links_of. unfold link_pairs in H2. clear -H2. revert H2.
  generalize (cd_links db) as ls. induction ls as [|l ls IH]; intros Hnd; [constructor|]. cbn [List.filter].
  rewrite fmap_cons in Hnd. apply NoDup_cons in Hnd as [Hn Hnd]. specialize (IH Hnd).
  destruct (String.eqb_spec (ca_case l) (cs_id c)) as [Hl|]; [|done]. rewrite fmap_cons.
  apply NoDup_cons. split; [|done]. simpl. intros (l' & Heq & Hin')%list_elem_of_fmap.
  apply Hn. apply list_elem_of_fmap. exists l'. simpl in Heq.
  apply list_elem_of_In, List.filter_In in Hin' as [Hin' Hc'%String.eqb_eq].
  split; [congruence | by apply list_elem_of_In].
Qed.

Module CaseExample.
Definition db0 : CaseDb := mkCaseDb [] [] [] [] [].
Definition db1 : CaseDb := (open_case db0 "c1" 5 false "a1" (Some "suspicious"%string)).2.
Definition db2 : CaseDb := close_case (attach_alert db1 6 "c1" "a2") 9 "c1".
Definition row : CaseRow := mkCaseRow "c1" "suspicious" Case_closed 5 (Some 9).

Lemma db2_reach : case_reach db2.
Proof. apply cr_close, cr_attach, cr_open, cr_empty. Qed.
End CaseExample.

Lemma case_log_consistent_witness :
  count_events CaseExample.db2 "c1" "closed" = 1%nat /\
  count_events CaseExample.db2 "c1" "alert_attached" = 2%nat.
Proof.
  destruct (case_log_consistent CaseExample.db2 CaseExample.row 2 CaseExample.db2_reach)
    as (_ & Hc & _ & Ha & _).
  - vm_compute. left.
  - split; [exact Hc | exact Ha].
Defined.

(** Closing a case that is already closed changes nothing, and yet leaves
    another [case_closed] row in the audit log, because the handler asks only
    whether the case exists. *)
Theorem reclose_is_audited (so : pyval -> string) (params : dict) (now : Z) (s : CaseSrv)
    (case_id : string) (c : CaseRow) :
  required so params "case_id" = Ok case_id ->
  find_case (ch_db s) case_id = Some c -> cs_status c = Case_closed ->
  let '(reply, s') := handle_close_case so params now s in
  reply = Ok tt /\ ch_db s' = ch_db s /\
  ch_audit s' = ch_audit s ++ [("case_closed"%string, "case:" +:+ case_id, [])].
Proof.
  intros Hp Hf Hs. unfold handle_close_case. rewrite Hp. unfold case_exists, close_case, gated.
  rewrite Hf, bool_decide_eq_true_2 by done. done.
Qed.

Lemma reclose_is_audited_witness :
  let '(_, s') := handle_close_case (fun _ => EmptyString) [("case_id"%string, PStr "c1")] 20
                    (mkCaseSrv CaseExample.db2 []) in
  ch_db s' = CaseExample.db2 /\ length (ch_audit s') = 1%nat.
Proof.
  pose proof (reclose_is_audited (fun _ => EmptyString) [("case_id"%string, PStr "c1")] 20
    (mkCaseSrv CaseExample.db2 []) "c1" CaseExample.row eq_refl eq_refl eq_refl) as H.
  destruct (handle_close_case _ _ _ _) as [reply s']. destruct H as (_ & Hd & Ha).
  split; [exact Hd|]. rewrite Ha. reflexivity.
Defined.
