(* ===== verification/QuarantineIpc.v ===== *)
(** * Quarantine at the edge ([inspectord/quarantine/ipc_handlers.py] and its
      methods in [inspectord/__main__.py])

    The handlers over the operations of [Quarantine.v], and the methods they
    are registered as in the IPC server of [Ipc.v]. What surrounds one request
    (clock, fresh ids, what other processes do, whether the evidence collector
    runs) is a record; the text of an operation's error and Python's [repr] are
    arguments. *)

From S2P Require Import Prelude Schemas Json RateLimit Quarantine QuarantineProofs Ipc IpcProofs RuleEval Alerts.

(** ** State and surroundings *)

(** The tables the handlers read beside the quarantine state. *)
Record QWorld := mkQWorld {
  qw_q : QState;
  qw_alerts : list string;   (** [alerts.alert_id] *)
  qw_cases : list string;    (** [cases.case_id] *)
}.
Definition with_q (w : QWorld) (q : QState) : QWorld := mkQWorld q (qw_alerts w) (qw_cases w).

Record Around := mkAround {
  ar_collector : bool;                (** the evidence collector exists *)
  ar_fresh_id : string;
  ar_fresh_ino : Z;
  ar_now : Z;
  ar_pacman : option (Z * string);
  ar_proc : list ProcEntry;
  ar_open_error : bool;
  ar_unlink_error : bool;
  ar_io_error : bool;
  ar_env1 : Fs -> Fs;
  ar_env2 : Fs -> Fs;
  ar_race : Fs -> Fs;
  ar_os_write : string -> string;
  ar_lexists : string -> bool;
}.

Definition QSCHEMA : string := "1.0.0".
Definition TARGET_AUDIT_MAX_CHARS : Z := 512.
Definition MAX_QUARANTINE_BYTES : Z := 256 * 1024 * 1024.
Definition LIST_LIMIT_DEFAULT : Z := 200.

(** [_actor]. *)
Definition actor_of (p : PeerIdentity) : string :=
  "uid:" +:+ str_of_Z (pi_uid p) +:+ ":pid:" +:+ str_of_Z (pi_pid p).
Definition actor (ps : Params) : string :=
  match params_get (PStr PEER_PARAM) ps with
  | Some (PPeer p) => actor_of p
  | _ => "user:local"
  end.

(** [_required_str] and [_optional_str]; the error is the message of a
    [QuarantineRequestError]. *)
Definition required_str (ps : Params) (key : string) : result string string :=
  match params_get (PStr key) ps with
  | Some (PV (PStr v)) =>
      if String.eqb v EmptyString then Err (key +:+ " is required") else Ok v
  | _ => Err (key +:+ " is required")
  end.
Definition optional_str (ps : Params) (key : string) : result string (option string) :=
  match params_get (PStr key) ps with
  | None | Some (PV PNone) => Ok None
  | Some (PV (PStr v)) => Ok (Some v)
  | Some _ => Err (key +:+ " must be a string")
  end.

(** [_audit_refusal]. *)
Definition audit_refusal (w : QWorld) (who verb target : string) : QWorld :=
  with_q w (note (qw_q w)
    (mkNote who "quarantine_refused" (prefix_upto TARGET_AUDIT_MAX_CHARS target)
       (Some (verb, error_kind QRequestError)))).

Definition qstatus_value (s : QStatus) : string :=
  match s with
  | QS_isolating => "isolating" | QS_active => "active" | QS_failed => "failed"
  | QS_restoring => "restoring" | QS_restored => "restored" | QS_deleting => "deleting"
  | QS_deleted => "deleted"
  end.

Section Handlers.
Context (sha256 : string -> string) (realpath : Fs -> string -> string)
        (qpaths : QuarantinePaths) (store_root : string)
        (text : QuarantineError -> string) (py_repr : pyval -> string)
        (isoformat : Z -> string).

(** [_failure], of a request error with its message and of an operation's. *)
Definition failure (kind error : string) : pyval :=
  PDict [("schema_version", PStr QSCHEMA); ("ok", PBool false); ("error", PStr error);
         ("error_kind", PStr kind)]%string.
Definition op_failure (e : QuarantineError) : pyval := failure (error_kind e) (text e).

(** [_check_reference]. *)
Definition check_reference (ids : list string) (value : option string) (what : string)
  : result string unit :=
  match value with
  | None => Ok tt
  | Some v => if bool_decide (v ∈ ids) then Ok tt
              else Err ("no such " +:+ what +:+ ": " +:+ py_repr (PStr v))
  end.

(** The checks of [handle_quarantine_file] before the operation. *)
Definition check_request (w : QWorld) (ps : Params)
  : result string (string * option string * option string * option string) :=
  path ← required_str ps "path";
  if negb (startswith "/" path) then Err ("path must be absolute: " +:+ py_repr (PStr path))
  else
    nt ← optional_str ps "note";
    alert_id ← optional_str ps "alert_id";
    case_id ← optional_str ps "case_id";
    _ ← check_reference (qw_alerts w) alert_id "alert";
    _ ← check_reference (qw_cases w) case_id "case";
    Ok (path, nt, alert_id, case_id).

(** [path or "?"] in the refusal: what had been read of the path. *)
Definition refusal_target (ps : Params) : string :=
  match required_str ps "path" with Ok p => p | Err _ => "?" end.

Definition isolate_in (x : Around) (who path : string) (nt alert_id case_id : option string)
  : IsolateIn :=
  mkIsolateIn path alert_id case_id nt who (ar_pacman x) MAX_QUARANTINE_BYTES
    (ar_open_error x) (ar_fresh_id x) (ar_fresh_ino x) (ar_now x) (ar_unlink_error x) (ar_proc x).

(** [os.path.realpath] raises a [ValueError] on a path with a NUL, which
    [isolate] does not catch; the checks before it still refuse. *)
Definition nul_escapes (path : string) : bool :=
  str_exists (fun c => (code c =? 0)%N) path
  && negb (bool_decide (".."%string ∈ components path))
  && negb (String.eqb (basename path) EmptyString).

Definition isolate_reply (r : IsolateResult) : pyval :=
  PDict [("schema_version", PStr QSCHEMA); ("ok", PBool true);
         ("quarantine_id", PStr (ir_quarantine_id r)); ("sha256", PStr (ir_sha256 r));
         ("pkg_owner", opt_str (ir_pkg_owner r));
         ("running_pids", PList ((fun '(pid, comm) =>
            PDict [("pid"%string, PInt pid); ("comm"%string, PStr comm)]) <$> ir_running_pids r));
         ("warnings", str_list (ir_warnings r))]%string.

Definition handle_quarantine_file (x : Around) (ps : Params) (w : QWorld)
  : result HandlerError pyval * QWorld :=
  let who := actor ps in
  match check_request w ps with
  | Err msg => (Ok (failure (error_kind QRequestError) msg),
                audit_refusal w who "quarantine" (refusal_target ps))
  | Ok (path, nt, alert_id, case_id) =>
      if nul_escapes path then (Err (Unexpected "embedded null byte"), w)
      else match isolate sha256 realpath qpaths store_root
              (isolate_in x who path nt alert_id case_id)
              (ar_env1 x) (ar_env2 x) (ar_race x) (qw_q w) with
      | (Err e, q) => (Ok (op_failure e), with_q w q)
      | (Ok r, q) => (Ok (isolate_reply r), with_q w q)
      end
  end.

(** A listed row: [list_quarantine]'s dict. *)
Definition listed_row (rf : QRow * list string) : pyval :=
  let '(r, flags) := rf in
  let time t := match t with Some u => PStr (isoformat u) | None => PNone end in
  PDict [("quarantine_id", PStr (qr_id r)); ("sha256", PStr (qr_sha256 r));
         ("original_path", PStr (qr_original_path r)); ("file_mode", PInt (qr_mode r));
         ("file_uid", PInt (qr_uid r)); ("file_gid", PInt (qr_gid r));
         ("size_bytes", PInt (qr_size r)); ("pkg_owner", opt_str (qr_pkg_owner r));
         ("note", opt_str (qr_note r)); ("alert_id", opt_str (qr_alert_id r));
         ("case_id", opt_str (qr_case_id r)); ("status", PStr (qstatus_value (qr_status r)));
         ("quarantined_at", time (Some (qr_quarantined_at r)));
         ("restored_at", time (qr_restored_at r)); ("deleted_at", time (qr_deleted_at r));
         ("flags", str_list flags)]%string.

(** The limit asked for: absent or null is the default. *)
Definition asked_limit (ps : Params) : option Z :=
  match params_get (PStr "limit") ps with
  | None | Some (PV PNone) => Some LIST_LIMIT_DEFAULT
  | Some (PV v) => int_of v
  | Some (PPeer _) => None
  end.

Definition handle_list_quarantine (x : Around) (ps : Params) (w : QWorld)
  : result HandlerError pyval * QWorld :=
  match asked_limit ps with
  | None =>
      let shown := match params_get (PStr "limit") ps with
                   | Some (PV v) => py_repr v | _ => EmptyString end in
      (Ok (failure (error_kind QRequestError) ("limit must be a whole number, got " +:+ shown)), w)
  | Some limit =>
      let '(rows, echoed) := list_quarantine (qw_q w) (ar_lexists x) limit in
      (Ok (PDict [("schema_version", PStr QSCHEMA); ("ok", PBool true);
                  ("rows", PList (listed_row <$> rows)); ("limit", PInt echoed)]%string), w)
  end.

Definition restore_reply (r : RestoreResult) : pyval :=
  PDict [("schema_version", PStr QSCHEMA); ("ok", PBool true);
         ("quarantine_id", PStr (rs_quarantine_id r));
         ("original_path", PStr (rs_original_path r)); ("sha256", PStr (rs_sha256 r));
         ("setuid_warning", PBool (rs_setuid_warning r))]%string.

Definition handle_restore_quarantined (x : Around) (ps : Params) (w : QWorld)
  : result HandlerError pyval * QWorld :=
  let who := actor ps in
  match required_str ps "quarantine_id" with
  | Err msg => (Ok (failure (error_kind QRequestError) msg), audit_refusal w who "restore" "?")
  | Ok id =>
      match restore sha256 realpath qpaths (ar_os_write x) (ar_race x)
              (mkRestoreIn id who (ar_io_error x) (ar_fresh_ino x) (ar_now x)) (qw_q w) with
      | (Err e, q) => (Ok (op_failure e), with_q w q)
      | (Ok r, q) => (Ok (restore_reply r), with_q w q)
      end
  end.

Definition delete_reply (r : DeleteResult) : pyval :=
  PDict [("schema_version", PStr QSCHEMA); ("ok", PBool true);
         ("quarantine_id", PStr (dl_quarantine_id r));
         ("original_path", PStr (dl_original_path r));
         ("blob_removed", PBool (dl_blob_removed r))]%string.

Definition handle_delete_quarantined (x : Around) (ps : Params) (w : QWorld)
  : result HandlerError pyval * QWorld :=
  let who := actor ps in
  match required_str ps "quarantine_id" with
  | Err msg => (Ok (failure (error_kind QRequestError) msg), audit_refusal w who "delete" "?")
  | Ok id =>
      match delete_quarantined id who (ar_now x) (qw_q w) with
      | (Err e, q) => (Ok (op_failure e), with_q w q)
      | (Ok r, q) => (Ok (delete_reply r), with_q w q)
      end
  end.

(** ** Registration *)

(** [_capture_lock], evaluated with the handler's arguments: without a
    collector the call fails before the handler runs. *)
Definition with_capture_lock (x : Around)
    (h : Params -> QWorld -> result HandlerError pyval * QWorld) (ps : Params) (w : QWorld)
  : result HandlerError pyval * QWorld :=
  if negb (ar_collector x) then
    (Err (Unexpected "evidence collector is not running; cannot quarantine"), w)
  else h ps w.

(** [_polkit_target_path]. *)
Definition polkit_target_path (ps : Params) : option string :=
  match params_get (PStr "path") ps with Some (PV (PStr p)) => Some p | _ => None end.

(** The two limiters, by number. *)
Definition quarantine_limiter : nat := 0.
Definition restore_delete_limiter : nat := 1.

(** The quarantine methods of [_ipc_methods]. *)
Definition quarantine_methods (x : Around) : list (Method (W := QWorld)) :=
  [ mkMethod "quarantine_file" (with_capture_lock x (handle_quarantine_file x))
      (Some "org.inspectord.quarantine"%string) (Some quarantine_limiter)
      (Some polkit_target_path);
    mkMethod "list_quarantine" (handle_list_quarantine x) None None None;
    mkMethod "restore_quarantined" (handle_restore_quarantined x)
      (Some "org.inspectord.quarantine-restore"%string) (Some restore_delete_limiter) None;
    mkMethod "delete_quarantined" (with_capture_lock x (handle_delete_quarantined x))
      (Some "org.inspectord.quarantine-delete"%string) (Some restore_delete_limiter) None ].

End Handlers.

(** ** Every operation leaves one audit row *)

(** The row an operation [verb] that ended in [r] leaves for [who]. *)
Definition outcome_note {A} (who verb done_ : string) (r : result QuarantineError A)
    (n : AuditNote) : Prop :=
  an_actor n = who /\
  match r with
  | Ok _ => an_action n = done_ /\ an_refused n = None
  | Err e => an_action n = "quarantine_refused"%string /\ an_refused n = Some (verb, error_kind e)
  end.

Lemma timeline_audit (s : QState) (c : option string) (k t : string) :
  q_audit (timeline s c k t) = q_audit s.
Proof. by destruct c. Qed.

Section Audited.
Context (sha256 : string -> string) (realpath : Fs -> string -> string)
        (qpaths : QuarantinePaths) (store_root : string).

Lemma capture_audit (i : IsolateIn) (s : QState) (ino : Z) (st : FileData) :
  q_audit (capture sha256 realpath store_root i s ino st).2 = q_audit s.
Proof. unfold capture. repeat case_match; by simplify_eq/=. Qed.

Lemma unlink_guarded_audit (i : IsolateIn) (race : Fs -> Fs) (s : QState) (d ino : Z) :
  q_audit (unlink_guarded i race s d ino).2 = q_audit s.
Proof. unfold unlink_guarded. repeat case_match; by simplify_eq/=. Qed.

Lemma isolate_core_audit (i : IsolateIn) (e1 e2 race : Fs -> Fs) (s : QState) :
  q_audit (isolate_core sha256 realpath qpaths store_root i e1 e2 race s).2 = q_audit s.
Proof.
  unfold isolate_core. destruct (validate_target _ _ _ _); [done|].
  destruct (open_parent _ _) as [d|]; [|done].
  destruct (open_target _ _ _ _) as [[ino st]|]; [|done].
  pose proof (capture_audit i (with_fs s (e1 (q_fs s))) ino st) as Hc.
  destruct (capture _ _ _ _ _ _ _) as [[sha|] s2]; cbn [snd] in *; [|done].
  pose proof (unlink_guarded_audit i race (with_fs s2 (e2 (q_fs s2))) d ino) as Hu.
  destruct (unlink_guarded _ _ _ _ _) as [[u|] s3]; cbn [snd] in *; by rewrite Hu.
Qed.

Lemma restore_core_audit (os_write : string -> string) (race : Fs -> Fs) (i : RestoreIn) (s : QState) :
  q_audit (restore_core sha256 realpath qpaths os_write race i s).2 = q_audit s.
Proof. unfold restore_core. repeat case_match; by simplify_eq/=. Qed.

Lemma delete_core_audit (id : string) (now : Z) (s : QState) :
  q_audit (delete_core id now s).2 = q_audit s.
Proof. unfold delete_core. repeat case_match; by simplify_eq/=. Qed.

Lemma isolate_audited (i : IsolateIn) (e1 e2 race : Fs -> Fs) (s : QState) :
  let '(r, s') := isolate sha256 realpath qpaths store_root i e1 e2 race s in
  exists n, q_audit s' = q_audit s ++ [n] /\
    outcome_note (ii_actor i) "quarantine" "file_quarantined" r n.
Proof.
  unfold isolate. pose proof (isolate_core_audit i e1 e2 race s) as H.
  destruct (isolate_core _ _ _ _ _ _ _ _ _) as [[r|e] s']; cbn [snd] in H;
    eexists; rewrite ?timeline_audit; cbn; by rewrite H.
Qed.

Lemma restore_audited (os_write : string -> string) (race : Fs -> Fs) (i : RestoreIn) (s : QState) :
  let '(r, s') := restore sha256 realpath qpaths os_write race i s in
  exists n, q_audit s' = q_audit s ++ [n] /\
    outcome_note (ri_actor i) "restore" "quarantine_restored" r n.
Proof.
  unfold restore. pose proof (restore_core_audit os_write race i s) as H.
  destruct (restore_core _ _ _ _ _ _ _) as [[[r c]|e] s']; cbn [snd] in H;
    eexists; rewrite ?timeline_audit; cbn; by rewrite H.
Qed.

Lemma delete_audited (id who : string) (now : Z) (s : QState) :
  let '(r, s') := delete_quarantined id who now s in
  exists n, q_audit s' = q_audit s ++ [n] /\ outcome_note who "delete" "quarantine_deleted" r n.
Proof.
  unfold delete_quarantined. pose proof (delete_core_audit id now s) as H.
  destruct (delete_core _ _ _) as [[[r c]|e] s']; cbn [snd] in H;
    eexists; rewrite ?timeline_audit; cbn; by rewrite H.
Qed.
End Audited.

(** ** What a handler call leaves behind *)

(** The rows a verb may leave. *)
Definition verb_note (verb done_ : string) (n : AuditNote) : Prop :=
  (an_action n = done_ /\ an_refused n = None) \/
  (an_action n = "quarantine_refused"%string /\ exists kind, an_refused n = Some (verb, kind)).

(** One handler call for [who]: nothing happened, or one row of the verb. *)
Definition accounted (who verb done_ : string) (w w' : QWorld) : Prop :=
  w' = w \/
  qw_alerts w' = qw_alerts w /\ qw_cases w' = qw_cases w /\
  exists n, q_audit (qw_q w') = q_audit (qw_q w) ++ [n] /\ an_actor n = who /\ verb_note verb done_ n.

Lemma outcome_verb {A} (who verb done_ : string) (r : result QuarantineError A) (n : AuditNote) :
  outcome_note who verb done_ r n -> an_actor n = who /\ verb_note verb done_ n.
Proof. unfold outcome_note, verb_note. destruct r; naive_solver. Qed.

Lemma accounted_refusal (w : QWorld) (who verb target done_ : string) :
  accounted who verb done_ w (audit_refusal w who verb target).
Proof.
  right. split_and!; [done..|]. eexists. split; [done|]. split; [done|]. right. split; [done|].
  by eexists.
Qed.

Lemma accounted_op {A} (w : QWorld) (q : QState) (who verb done_ : string)
    (r : result QuarantineError A) :
  (exists n, q_audit q = q_audit (qw_q w) ++ [n] /\ outcome_note who verb done_ r n) ->
  accounted who verb done_ w (with_q w q).
Proof.
  intros (n & Hn & [Ha Hv]%outcome_verb). right. split_and!; [done..|]. by exists n.
Qed.

Section Calls.
Context (sha256 : string -> string) (realpath : Fs -> string -> string)
        (qpaths : QuarantinePaths) (store_root : string)
        (text : QuarantineError -> string) (py_repr : pyval -> string)
        (isoformat : Z -> string).

Lemma quarantine_file_accounted (x : Around) (ps : Params) (w : QWorld) :
  accounted (actor ps) "quarantine" "file_quarantined" w
    (handle_quarantine_file sha256 realpath qpaths store_root text py_repr x ps w).2.
Proof.
  unfold handle_quarantine_file.
  destruct (check_request _ _ _) as [[[[path nt] alert_id] case_id]|msg];
    [|apply accounted_refusal].
  destruct (nul_escapes path); [by left|].
  pose proof (isolate_audited sha256 realpath qpaths store_root
    (isolate_in x (actor ps) path nt alert_id case_id) (ar_env1 x) (ar_env2 x) (ar_race x) (qw_q w)) as H.
  destruct (isolate _ _ _ _ _ _ _ _ _) as [[r|e] q]; by eapply accounted_op.
Qed.

Lemma restore_accounted (x : Around) (ps : Params) (w : QWorld) :
  accounted (actor ps) "restore" "quarantine_restored" w
    (handle_restore_quarantined sha256 realpath qpaths text x ps w).2.
Proof.
  unfold handle_restore_quarantined.
  destruct (required_str _ _) as [id|msg]; [|apply accounted_refusal].
  pose proof (restore_audited sha256 realpath qpaths (ar_os_write x) (ar_race x)
    (mkRestoreIn id (actor ps) (ar_io_error x) (ar_fresh_ino x) (ar_now x)) (qw_q w)) as H.
  destruct (restore _ _ _ _ _ _ _) as [[r|e] q]; by eapply accounted_op.
Qed.

Lemma delete_verb_accounted (x : Around) (ps : Params) (w : QWorld) :
  accounted (actor ps) "delete" "quarantine_deleted" w (handle_delete_quarantined text x ps w).2.
Proof.
  unfold handle_delete_quarantined.
  destruct (required_str _ _) as [id|msg]; [|apply accounted_refusal].
  pose proof (delete_audited id (actor ps) (ar_now x) (qw_q w)) as H.
  destruct (delete_quarantined _ _ _ _) as [[r|e] q]; by eapply accounted_op.
Qed.

Lemma list_unchanged (x : Around) (ps : Params) (w : QWorld) :
  (handle_list_quarantine py_repr isoformat x ps w).2 = w.
Proof. unfold handle_list_quarantine. by destruct (asked_limit ps). Qed.

(** The rows the polkit action [action] lets a peer cause. *)
Definition action_note (action : string) (n : AuditNote) : Prop :=
  (action = "org.inspectord.quarantine"%string /\ verb_note "quarantine" "file_quarantined" n) \/
  (action = "org.inspectord.quarantine-restore"%string /\
   verb_note "restore" "quarantine_restored" n) \/
  (action = "org.inspectord.quarantine-delete"%string /\
   verb_note "delete" "quarantine_deleted" n).

(** Row [n] answers the request [rq]: its peer held an authorization for the
    very action, and is named in the row. *)
Definition answers (rq : Request) (n : AuditNote) : Prop :=
  exists p action check target, rq_peer rq = Some p /\ en_authz (rq_env rq) = Some check /\
    authorized (check action p target) = true /\ an_actor n = actor_of p /\ action_note action n.

Lemma with_lock_accounted (x : Around) h (ps : Params) (w : QWorld) (who verb done_ : string) :
  accounted who verb done_ w (h ps w).2 ->
  accounted who verb done_ w (with_capture_lock x h ps w).2.
Proof. unfold with_capture_lock. destruct (negb _); [by left | done]. Qed.

(** The requests in the order they are handled, each with its surroundings. *)
Fixpoint run_quarantine (reqs : list (Around * Request)) (s : Srv (W := QWorld)) : Srv :=
  match reqs with
  | [] => s
  | (x, r) :: rest =>
      run_quarantine rest
        (dispatch (quarantine_methods sha256 realpath qpaths store_root text py_repr isoformat x)
           (rq_env r) (rq_req r) (rq_pid r) (rq_uid r) (rq_peer r) s).2
  end.

Lemma dispatch_accounted (x : Around) (r : Request) (s : Srv (W := QWorld)) :
  let s' := (dispatch (quarantine_methods sha256 realpath qpaths store_root text py_repr isoformat x)
               (rq_env r) (rq_req r) (rq_pid r) (rq_uid r) (rq_peer r) s).2 in
  sv_world s' = sv_world s \/
  exists n, q_audit (qw_q (sv_world s')) = q_audit (qw_q (sv_world s)) ++ [n] /\ answers r n.
Proof.
  cbn zeta.
  destruct (dispatch_runs
    (quarantine_methods sha256 realpath qpaths store_root text py_repr isoformat x)
    (rq_env r) (rq_req r) (rq_pid r) (rq_uid r) (rq_peer r) s)
    as [[_ ?]|(m & ps & _ & Hw & Hm & Hr)]; [by left|]. rewrite Hw. clear Hw.
  assert (Hgo : forall action verb done_,
    m_polkit_action m = Some action -> (forall n, verb_note verb done_ n -> action_note action n) ->
    accounted (actor ps) verb done_ (sv_world s) (m_handler m ps (sv_world s)).2 ->
    (m_handler m ps (sv_world s)).2 = sv_world s \/
    exists n, q_audit (qw_q (m_handler m ps (sv_world s)).2)
              = q_audit (qw_q (sv_world s)) ++ [n] /\ answers r n).
  { intros action verb done_ Ha Hn [?|(_ & _ & n & Hq & Hact & Hv)]; [by left|]. right.
    exists n. split; [done|]. rewrite Ha in Hr. destruct Hr as (p & check & target & Hp & He & Hz & Hg).
    exists p, action, check, target. split_and!; [done..| |by apply Hn].
    rewrite Hact. unfold actor. by rewrite Hg. }
  repeat (apply elem_of_cons in Hm as [->|Hm]); [..|by apply not_elem_of_nil in Hm].
  - eapply Hgo; [done| |apply with_lock_accounted, quarantine_file_accounted]. by left.
  - left. apply list_unchanged.
  - eapply Hgo; [done| |apply restore_accounted]. by right; left.
  - eapply Hgo; [done| |apply with_lock_accounted, delete_verb_accounted]. by right; right.
Qed.

Lemma run_accounted (reqs : list (Around * Request)) (s : Srv (W := QWorld)) :
  let s' := run_quarantine reqs s in
  exists notes, q_audit (qw_q (sv_world s')) = q_audit (qw_q (sv_world s)) ++ notes /\
    Forall (fun n => exists x r, (x, r) ∈ reqs /\ answers r n) notes /\
    (notes = [] -> sv_world s' = sv_world s).
Proof.
  revert s. induction reqs as [|[x r] reqs IH]; intros s; simpl.
  { exists []. by rewrite app_nil_r. }
  destruct (IH (dispatch (quarantine_methods sha256 realpath qpaths store_root text py_repr isoformat x)
    (rq_env r) (rq_req r) (rq_pid r) (rq_uid r) (rq_peer r) s).2) as (notes & Hq & Hf & He).
  assert (Hf' : Forall (fun n => exists y q, (y, q) ∈ (x, r) :: reqs /\ answers q n) notes).
  { eapply Forall_impl; [exact Hf|]. intros n (y & q & Hin & Ha). exists y, q. split; [by right|done]. }
  destruct (dispatch_accounted x r s) as [Hw|(n & Hn & Ha)].
  - exists notes. rewrite Hq, Hw. split_and!; [done..|]. intros Hnil. by rewrite (He Hnil), Hw.
  - exists (n :: notes). rewrite Hq, Hn, <- app_assoc. split_and!; [done| |done].
    constructor; [|done]. exists x, r. split; [by left | done].
Qed.
End Calls.


(** ** The invariant of the rows and the store, through the server *)

Section Served.
Context (sha256 : string -> string) (realpath : Fs -> string -> string)
        (qpaths : QuarantinePaths) (store_root : string)
        (text : QuarantineError -> string) (py_repr : pyval -> string)
        (isoformat : Z -> string).

Lemma handlers_keep_ok (x : Around) m (ps : Params) (w : QWorld) :
  m ∈ quarantine_methods sha256 realpath qpaths store_root text py_repr isoformat x ->
  ar_fresh_id x ∉ row_ids (q_rows (qw_q w)) ->
  q_ok sha256 (qw_q w) -> q_ok sha256 (qw_q (m_handler m ps w).2).
Proof.
  intros Hm Hf Hok.
  assert (Hrefuse : forall who verb target, q_ok sha256 (qw_q (audit_refusal w who verb target))).
  { intros. by apply q_ok_note. }
  repeat (apply elem_of_cons in Hm as [->|Hm]); [..|by apply not_elem_of_nil in Hm]; cbn [m_handler].
  - unfold with_capture_lock, handle_quarantine_file. destruct (negb _); [done|].
    destruct (check_request _ _ _) as [[[[path nt] alert_id] case_id]|msg]; [|apply Hrefuse].
    destruct (nul_escapes path); [done|].
    pose proof (isolate_ok sha256 realpath qpaths store_root
      (isolate_in x (actor ps) path nt alert_id case_id) (ar_env1 x) (ar_env2 x) (ar_race x)
      (qw_q w) Hok Hf) as H.
    by destruct (isolate _ _ _ _ _ _ _ _ _) as [[r|e] q].
  - by rewrite list_unchanged.
  - unfold handle_restore_quarantined. destruct (required_str _ _) as [id|msg]; [|apply Hrefuse].
    pose proof (restore_ok sha256 realpath qpaths (ar_os_write x) (ar_race x)
      (mkRestoreIn id (actor ps) (ar_io_error x) (ar_fresh_ino x) (ar_now x)) (qw_q w) Hok) as H.
    by destruct (restore _ _ _ _ _ _ _) as [[r|e] q].
  - unfold with_capture_lock, handle_delete_quarantined. destruct (negb _); [done|].
    destruct (required_str _ _) as [id|msg]; [|apply Hrefuse].
    pose proof (delete_ok sha256 id (actor ps) (ar_now x) (qw_q w) Hok) as H.
    by destruct (delete_quarantined _ _ _ _) as [[r|e] q].
Qed.

(** Each request's id is new when the request is handled. *)
Fixpoint fresh_run (reqs : list (Around * Request)) (s : Srv (W := QWorld)) : Prop :=
  match reqs with
  | [] => True
  | (x, r) :: rest =>
      ar_fresh_id x ∉ row_ids (q_rows (qw_q (sv_world s))) /\
      fresh_run rest
        (dispatch (quarantine_methods sha256 realpath qpaths store_root text py_repr isoformat x)
           (rq_env r) (rq_req r) (rq_pid r) (rq_uid r) (rq_peer r) s).2
  end.

(** Whatever the clients ask, every row that is not deleted keeps its blob and
    every blob hashes to its name. *)
Theorem served_quarantine_ok (reqs : list (Around * Request)) (s : Srv (W := QWorld)) :
  fresh_run reqs s -> q_ok sha256 (qw_q (sv_world s)) ->
  q_ok sha256 (qw_q (sv_world
    (run_quarantine sha256 realpath qpaths store_root text py_repr isoformat reqs s))).
Proof.
  revert s. induction reqs as [|[x r] reqs IH]; intros s; simpl; [done|]. intros [Hf Hr] Hok.
  apply IH; [done|].
  destruct (dispatch_runs
    (quarantine_methods sha256 realpath qpaths store_root text py_repr isoformat x)
    (rq_env r) (rq_req r) (rq_pid r) (rq_uid r) (rq_peer r) s)
    as [[_ Hw]|(m & ps & _ & Hw & Hm & _)]; rewrite Hw; [done|].
  by eapply handlers_keep_ok.
Qed.

(** A quarantine request for a path with a NUL in it fails with an internal
    error after the peer was authorized, and leaves no audit row: the attempt is
    not recorded, though every refusal is meant to be. *)
Theorem nul_path_unaudited (x : Around) (ps : Params) (w : QWorld) (path : string) nt alert_id case_id :
  ar_collector x = true -> check_request py_repr w ps = Ok (path, nt, alert_id, case_id) ->
  nul_escapes path = true ->
  with_capture_lock x (handle_quarantine_file sha256 realpath qpaths store_root text py_repr x) ps w
  = (Err (Unexpected "embedded null byte"), w).
Proof.
  intros Hc Hr Hn. unfold with_capture_lock, handle_quarantine_file. by rewrite Hc, Hr, Hn.
Qed.
End Served.

(** ** A worked session *)

Module QIpcExample.
Import QExample.
Definition peer : PeerIdentity := mkPeer 42 1000 777.
Definition around (id : string) (ino now : Z) : Around :=
  mkAround true id ino now (Some (0, "coreutils")%Z) [mkProc "77" (Some 4) (Some "evil"%string)]
    false false false Datatypes.id Datatypes.id Datatypes.id Datatypes.id (fun _ => false).
Definition env : Env :=
  mkEnv 0 "ref" (Some (fun action _ _ =>
    mkAuthz (if String.eqb action "org.inspectord.quarantine-delete" then "denied"
             else "authorized") EmptyString)) None.
Definition request (method : string) (params : dict) : Request :=
  mkRequest env (PDict [("jsonrpc", PStr "2.0"); ("schema_version", PStr "1.0.0"); ("id", PInt 1);
                        ("method", PStr method); ("params", PDict params)]%string) 42 1000 (Some peer).
Definition session : list (Around * Request) :=
  [ (around "q1" 50 7, request "quarantine_file" [("path", PStr "/home/evil")]%string);
    (around "q2" 51 8, request "delete_quarantined" [("quarantine_id", PStr "q1")]%string);
    (around "q3" 52 9, request "restore_quarantined" [("quarantine_id", PStr "q1")]%string);
    (around "q4" 53 10, request "quarantine_file" [("path", PStr "home/evil")]%string);
    (around "q5" 54 11, request "quarantine_file"
       [("path", PStr ("/home/ev" +:+ String "000" "il"))]%string) ].
Definition srv0 : Srv (W := QWorld) := mkSrv (mkQWorld s0 [] []) ∅ [] [] [].
Definition served : Srv :=
  run_quarantine sha rp qpaths sroot (fun _ => EmptyString) (fun _ => EmptyString)
    (fun _ => EmptyString) session srv0.
End QIpcExample.

(** The isolation and the restoration happen, the deletion is denied by polkit,
    the relative path is refused and recorded, the NUL leaves nothing. *)
Example session_notes :
  q_audit (qw_q (sv_world QIpcExample.served)) =
  [ mkNote "uid:1000:pid:42" "file_quarantined" "/home/evil" None;
    mkNote "uid:1000:pid:42" "quarantine_restored" "/home/evil" None;
    mkNote "uid:1000:pid:42" "quarantine_refused" "home/evil"
      (Some ("quarantine", "request"))%string ].
Proof. vm_compute. reflexivity. Qed.
