(* ===== verification/Evidence.v ===== *)
(** * Evidence ([inspectord/evidence/store.py], [capture.py], [collector.py])

    The content-addressed store, the bounded reading of an implicated file, and
    the collector that opens a case and preserves evidence when a severe alert
    fires. What the kernel, the clock and the snapshot routines answer is given
    by [CaptureEnv]; [dumps] is [json.dumps] of the metadata. Failures of the
    database are not modelled here. *)

From S2P Require Import Prelude Schemas RuleEval Alerts Quarantine Ipc Cases.

(** ** [ForensicStore.put] *)

Definition put (sha256 : string -> string) (store : gmap string Blob) (data : string) (ino : Z)
  : string * gmap string Blob :=
  let sha := sha256 data in
  (sha, match store !! sha with
        | Some _ => store
        | None => <[sha := mkBlob ino data]> store
        end).

(** ** [capture.py] *)

Definition MAX_FILE_BYTES : Z := 32 * 1024 * 1024.
Definition READ_CHUNK : Z := 1024 * 1024.

Definition path_allowed (realpath : string -> string) (path : string) : bool :=
  is_abs path && negb (bool_decide (".."%string ∈ components path))
  && negb (existsb (fun deny => String.eqb (realpath path) deny
                                || startswith (deny +:+ "/") (realpath path)) DENY_PREFIXES).

(** What one [os.read] returns. *)
Inductive ReadRes := RdBytes (chunk : string) | RdWouldBlock | RdError.

(** The reading loop; [None] is an [OSError]. A list of reads that ends stands
    for end of file. *)
Fixpoint read_loop (reads : list ReadRes) (remaining : Z) : option string :=
  if remaining <=? 0 then Some EmptyString
  else match reads with
  | [] | RdWouldBlock :: _ | RdBytes EmptyString :: _ => Some EmptyString
  | RdError :: _ => None
  | RdBytes chunk :: rest =>
      tail ← read_loop rest (remaining - Z.of_nat (String.length chunk)); Some (chunk +:+ tail)
  end.

(** The kernel returns at most what it was asked for. *)
Fixpoint reads_ok (reads : list ReadRes) (remaining : Z) : Prop :=
  match reads with
  | RdBytes chunk :: rest =>
      (0 < remaining -> Z.of_nat (String.length chunk) <= Z.min remaining READ_CHUNK) /\
      reads_ok rest (remaining - Z.of_nat (String.length chunk))
  | _ => True
  end.

(** The descriptor [os.open] returned: whether it is a regular file, and its reads. *)
Definition read_capture (realpath : string -> string) (open : string -> option (bool * list ReadRes))
    (path : string) (max_bytes : Z) : option string :=
  if negb (path_allowed realpath path) then None
  else match open path with
       | None => None
       | Some (regular, reads) => if regular then read_loop reads max_bytes else None
       end.

Lemma read_loop_bounded (reads : list ReadRes) (remaining : Z) (s : string) :
  0 <= remaining -> reads_ok reads remaining -> read_loop reads remaining = Some s ->
  Z.of_nat (String.length s) <= remaining.
Proof.
  revert remaining s. induction reads as [|r reads IH]; intros remaining s Hr Hok; simpl.
  { destruct (_ <=? _); intros [= <-]; done. }
  destruct (Z.leb_spec remaining 0); [intros [= <-]; simpl; lia|].
  destruct r as [chunk| |]; [|intros [= <-]; done|done].
  destruct chunk as [|c chunk]; [intros [= <-]; done|]. destruct Hok as [Hlen Hok].
  destruct (read_loop reads _) as [tail|] eqn:E; [|done]. intros [= <-].
  specialize (Hlen ltac:(lia)). apply IH in E; [|lia|done].
  change (String c chunk +:+ tail) with (String c (chunk +:+ tail)).
  cbn [String.length] in *. rewrite slength_app. lia.
Qed.

(** ** [collector.py] *)

Definition MAX_FILES : Z := 16.
Definition MAX_TOTAL_BYTES : Z := 128 * 1024 * 1024.

Definition nonempty_str (v : pyval) : list string :=
  match v with PStr EmptyString => [] | PStr s => [s] | _ => [] end.

(** The first occurrence of each path, in order. *)
Fixpoint dedup_strs (l seen : list string) : list string :=
  match l with
  | [] => []
  | p :: l' => if bool_decide (p ∈ seen) then dedup_strs l' seen else p :: dedup_strs l' (p :: seen)
  end.

Definition implicated_paths (a : Alert) (e : Event) : list string :=
  dedup_strs
    (nonempty_str (dict_get "path" (block_or_empty (ev_file e)))
     ++ nonempty_str (dict_get "source_path" (block_or_empty (ev_persistence e)))
     ++ (er_key <$> List.filter
           (fun ent => String.eqb (er_kind ent) "file" && negb (String.eqb (er_key ent) EmptyString))
           (al_entities a))) [].

Definition event_pid (e : Event) : option Z :=
  match dict_get "pid" (block_or_empty (ev_process e)) with PNone => None | v => int_of v end.

(** A snapshot: its JSON bytes, its count and whether it was truncated. *)
Record Snapshot := mkSnap { sn_bytes : string; sn_count : Z; sn_truncated : bool }.

(** What surrounds one capture. [None] for a snapshot is an exception (for the
    process tree also: no such process). *)
Record CaptureEnv := mkCaptureEnv {
  cx_case_id : string;
  cx_now : Z;
  cx_open_fails : bool;
  cx_ino : string -> Z;
  cx_net : option Snapshot;
  cx_bundle : option string;
  cx_tree : Z -> option Snapshot;
  cx_realpath : string -> string;
  cx_open : string -> option (bool * list ReadRes);
  cx_put_fails : string -> bool;
  cx_deadline : string -> bool;     (** past the deadline when this path's turn comes *)
}.

Record EvState := mkEvState {
  es_db : CaseDb;
  es_store : gmap string Blob;
  es_audit : list (string * string * dict);
}.

Section Collector.
Context (sha256 : string -> string) (dumps : dict -> string).

(** [_insert], [ON CONFLICT DO NOTHING]. *)
Definition insert_evidence (db : CaseDb) (row : EvidenceRow) : CaseDb :=
  if existsb (fun r => String.eqb (ce_ev_case r) (ce_ev_case row)
                       && String.eqb (ce_ev_kind r) (ce_ev_kind row)
                       && String.eqb (ce_sha256 r) (ce_sha256 row)
                       && String.eqb (ce_original_path r) (ce_original_path row)) (cd_evidence db)
  then db
  else mkCaseDb (cd_cases db) (cd_links db) (cd_events db) (cd_evidence db ++ [row]) (cd_alerts db).

(** Store the bytes, then record them. *)
Definition keep (env : CaptureEnv) (kind path data : string) (meta : dict) (s : EvState) : EvState :=
  let '(sha, store) := put sha256 (es_store s) data (cx_ino env data) in
  mkEvState (insert_evidence (es_db s)
               (mkEvidence (cx_case_id env) kind sha path (cx_now env) (Some (dumps meta))))
    store (es_audit s).

Definition keep_snapshot (env : CaptureEnv) (kind count_key : string) (extra : dict)
    (snap : option Snapshot) (aid : string) (s : EvState) : bool * EvState :=
  match snap with
  | Some n =>
      if cx_put_fails env (sn_bytes n) then (false, s)
      else (true, keep env kind EmptyString (sn_bytes n)
                    (extra ++ [(count_key, PInt (sn_count n)); ("truncated"%string, PBool (sn_truncated n));
                               ("alert_id"%string, PStr aid)]) s)
  | None => (false, s)
  end.

(** The loop over the implicated files: files, bytes, and whether a bound was hit. *)
Fixpoint capture_files (env : CaptureEnv) (aid : string) (paths : list string) (n total : Z)
    (s : EvState) : Z * Z * bool * EvState :=
  match paths with
  | [] => (n, total, false, s)
  | p :: rest =>
      if (MAX_FILES <=? n) || (MAX_TOTAL_BYTES <=? total) || cx_deadline env p
      then (n, total, true, s)
      else match read_capture (cx_realpath env) (cx_open env) p MAX_FILE_BYTES with
      | None => capture_files env aid rest n total s
      | Some data =>
          if cx_put_fails env data then capture_files env aid rest n total s
          else
            let size := Z.of_nat (String.length data) in
            capture_files env aid rest (n + 1) (total + size)
              (keep env "file" p data
                 [("size"%string, PInt size); ("truncated"%string, PBool (MAX_FILE_BYTES <=? size));
                  ("alert_id"%string, PStr aid)] s)
      end
  end.

Definition summary (n : Z) (net bundle tree partial : bool) (nodes : Z) : string :=
  "captured " +:+ join ", "
    ([str_of_Z n +:+ " file(s)"]
     ++ (if net then ["net snapshot"%string] else [])
     ++ (if bundle then ["event bundle"%string] else [])
     ++ (if tree then ["process tree (" +:+ str_of_Z nodes +:+ " nodes)"] else []))
  +:+ (if partial
       then " (partial " +:+ String "226"%char (String "128"%char (String "148"%char EmptyString))
            +:+ " bounds hit)"
       else EmptyString).

(** Whether the alert already has a case. *)
Definition already_captured (db : CaseDb) (alert_id : string) : bool :=
  existsb (fun l => String.eqb (ca_alert l) alert_id) (cd_links db).

(** [_capture]. *)
Definition capture_evidence (env : CaptureEnv) (a : Alert) (e : Event) (s : EvState) : EvState :=
  let aid := al_alert_id a in
  if already_captured (es_db s) aid then s
  else match open_case (es_db s) (cx_case_id env) (cx_now env) (cx_open_fails env) aid
               (Some (ra_short (al_rendered a))) with
  | (None, db) => mkEvState db (es_store s) (es_audit s)
  | (Some case_id, db) =>
      let s0 := mkEvState db (es_store s)
                  (es_audit s ++ [("case_opened"%string, "case:" +:+ case_id,
                     [("auto"%string, PBool true); ("alert_id"%string, PStr aid)])]) in
      let '(net_ok, s1) := keep_snapshot env "net_state" "socket_count" [] (cx_net env) aid s0 in
      let '(bundle_ok, s2) :=
        match cx_bundle env with
        | Some blob =>
            if cx_put_fails env blob then (false, s1)
            else (true, keep env "event_bundle" EmptyString blob
                          [("event_id"%string, PStr (ev_event_id e)); ("alert_id"%string, PStr aid)] s1)
        | None => (false, s1)
        end in
      let tree := pid ← event_pid e; cx_tree env pid in
      let '(tree_ok, s3) := keep_snapshot env "process_tree" "nodes"
            [("root_pid"%string, match event_pid e with Some p => PInt p | None => PNone end)]
            tree aid s2 in
      let nodes := match tree with Some t => if tree_ok then sn_count t else 0 | None => 0 end in
      let '(n, _, partial, s4) := capture_files env aid (implicated_paths a e) 0 0 s3 in
      mkEvState (append_timeline (es_db s4) (cx_now env) case_id "evidence_captured"
                   (Some (summary n net_ok bundle_ok tree_ok partial nodes)))
        (es_store s4) (es_audit s4)
  end.

(** [capture]: only severe alerts trigger it. *)
Definition collect (env : CaptureEnv) (a : Alert) (e : Event) (s : EvState) : EvState :=
  if bool_decide (al_severity a ∈ [SevHigh; SevCritical]) then capture_evidence env a e s else s.

End Collector.

(** ** What a capture guarantees *)

Section CollectorProofs.
Context (sha256 : string -> string) (dumps : dict -> string).

(** Every blob hashes to its name and every evidence row has its blob. *)
Definition evidence_ok (s : EvState) : Prop :=
  (forall sha b, es_store s !! sha = Some b -> sha256 (b_bytes b) = sha) /\
  (forall r, r ∈ cd_evidence (es_db s) -> is_Some (es_store s !! ce_sha256 r)).

(** What the steps after [open_case] leave alone, and what they may add. *)
Record grows (case_id : string) (s s' : EvState) : Prop := {
  gr_links : cd_links (es_db s') = cd_links (es_db s);
  gr_cases : cd_cases (es_db s') = cd_cases (es_db s);
  gr_store : es_store s ⊆ es_store s';
  gr_rows : exists new, cd_evidence (es_db s') = cd_evidence (es_db s) ++ new /\
            Forall (fun r => ce_ev_case r = case_id) new;
  gr_ok : evidence_ok s -> evidence_ok s';
}.

Lemma grows_refl (case_id : string) (s : EvState) : grows case_id s s.
Proof. split; try done. exists []. by rewrite app_nil_r. Qed.

Lemma grows_trans (case_id : string) (s1 s2 s3 : EvState) :
  grows case_id s1 s2 -> grows case_id s2 s3 -> grows case_id s1 s3.
Proof.
  intros [a1 b1 c1 (n1 & d1 & e1) f1] [a2 b2 c2 (n2 & d2 & e2) f2].
  split; [congruence|congruence|by etrans| |auto].
  exists (n1 ++ n2). rewrite d2, d1, app_assoc. split; [done|]. by apply Forall_app.
Qed.

Lemma put_spec (store : gmap string Blob) (data : string) (ino : Z) :
  let '(sha, store') := put sha256 store data ino in
  sha = sha256 data /\ store ⊆ store' /\ is_Some (store' !! sha) /\
  ((forall k b, store !! k = Some b -> sha256 (b_bytes b) = k) ->
   forall k b, store' !! k = Some b -> sha256 (b_bytes b) = k).
Proof.
  unfold put. destruct (store !! sha256 data) eqn:E.
  - by split_and!.
  - split_and!; [done | by apply insert_subseteq | rewrite lookup_insert_eq; by eexists |].
    intros H k b' [[<- <-]|[_ Hk]]%lookup_insert_Some; [done | by apply H].
Qed.

Lemma keep_grows (env : CaptureEnv) (kind path data : string) (meta : dict) (s : EvState) :
  grows (cx_case_id env) s (keep sha256 dumps env kind path data meta s).
Proof.
  unfold keep. pose proof (put_spec (es_store s) data (cx_ino env data)) as Hp.
  destruct (put _ _ _ _) as [sha store]. destruct Hp as (_ & Hsub & Hin & Hhash).
  unfold insert_evidence. split; simpl; try done; try by destruct (existsb _ _).
  - destruct (existsb _ _); simpl; [exists []; by rewrite app_nil_r|].
    eexists. split; [done|]. by repeat constructor.
  - intros [H1 H2]. split; simpl; [by apply Hhash|].
    assert (Hmono : forall k, is_Some (es_store s !! k) -> is_Some (store !! k)).
    { intros k [b Hb]. exists b. by eapply lookup_weaken. }
    destruct (existsb _ _); simpl; intros r; [by intros ?%H2%Hmono|].
    intros [Hr%H2|Hr]%elem_of_app; [by apply Hmono|].
    by apply list_elem_of_singleton in Hr as ->.
Qed.

Lemma keep_snapshot_grows (env : CaptureEnv) (kind key : string) (extra : dict)
    (snap : option Snapshot) (aid : string) (s : EvState) :
  grows (cx_case_id env) s (keep_snapshot sha256 dumps env kind key extra snap aid s).2.
Proof.
  unfold keep_snapshot. destruct snap as [n|]; [|apply grows_refl].
  destruct (cx_put_fails _ _); [apply grows_refl | apply keep_grows].
Qed.

Lemma capture_files_spec (env : CaptureEnv) (aid : string) (paths : list string) (n total : Z)
    (s : EvState) :
  (forall p reg reads, cx_open env p = Some (reg, reads) -> reads_ok reads MAX_FILE_BYTES) ->
  0 <= n <= MAX_FILES -> 0 <= total < MAX_TOTAL_BYTES + MAX_FILE_BYTES ->
  let '(n', total', _, s') := capture_files sha256 dumps env aid paths n total s in
  0 <= n' <= MAX_FILES /\ 0 <= total' < MAX_TOTAL_BYTES + MAX_FILE_BYTES /\
  grows (cx_case_id env) s s'.
Proof.
  intros Hreads. revert n total s. induction paths as [|p paths IH]; intros n total s Hn Ht.
  { split_and!; try lia. apply grows_refl. }
  cbn [capture_files]. destruct (Z.leb_spec MAX_FILES n); [split_and!; try lia; apply grows_refl|].
  destruct (Z.leb_spec MAX_TOTAL_BYTES total); [split_and!; try lia; apply grows_refl|].
  destruct (cx_deadline env p); [split_and!; try lia; apply grows_refl|].
  cbn [orb]. destruct (read_capture _ _ _ _) as [data|] eqn:Er; [|by apply IH].
  destruct (cx_put_fails env data); [by apply IH|].
  assert (Hlen : Z.of_nat (String.length data) <= MAX_FILE_BYTES).
  { unfold read_capture in Er. destruct (negb _); [done|].
    destruct (cx_open env p) as [[[] reads]|] eqn:Eo; try done.
    eapply read_loop_bounded; [done | by eapply Hreads | exact Er]. }
  set (s1 := keep _ _ _ _ _ _ _ s).
  specialize (IH (n + 1) (total + Z.of_nat (String.length data)) s1 ltac:(lia) ltac:(lia)).
  destruct (capture_files _ _ _ _ _ _ _ _) as [[[n' t'] pt] s']. destruct IH as (Ha & Hb & Hc).
  split_and!; try lia. eapply grows_trans; [apply keep_grows | exact Hc].
Qed.

Lemma append_timeline_grows (id : string) (now : Z) (case_id kind : string) (text : option string)
    (s : EvState) :
  grows id s (mkEvState (append_timeline (es_db s) now case_id kind text) (es_store s) (es_audit s)).
Proof.
  unfold append_timeline. destruct (case_exists _ _); split; simpl; try done;
    exists []; by rewrite app_nil_r.
Qed.

Lemma open_case_spec (db db' : CaseDb) (id : string) (now : Z) (fails : bool) (aid : string)
    (title : option string) (r : string) :
  open_case db id now fails aid title = (Some r, db') ->
  r = id /\ case_exists db id = false /\ already_captured db' aid = true /\
  cd_evidence db' = cd_evidence db /\
  exists row, cd_cases db' = cd_cases db ++ [row] /\ cs_id row = id.
Proof.
  unfold open_case. destruct fails; [done|]. destruct (case_exists db id) eqn:E; [done|].
  cbn [orb]. intros [= -> <-]. unfold attach.
  match goal with |- context [link_exists ?d ?i ?a] => destruct (link_exists d i a) eqn:El end; simpl.
  - split_and!; try done; [|by eexists]. unfold link_exists, already_captured in *. simpl in *.
    apply existsb_exists in El as (l & Hin & [_ Ha]%andb_prop).
    apply existsb_exists. by exists l.
  - split_and!; try done; [|by eexists]. unfold already_captured. simpl.
    rewrite List.existsb_app. simpl. by rewrite String.eqb_refl, orb_true_r.
Qed.
(** After [open_case] a capture only adds. *)
Lemma capture_evidence_grows (env : CaptureEnv) (a : Alert) (e : Event) (s : EvState) :
  (forall p reg reads, cx_open env p = Some (reg, reads) -> reads_ok reads MAX_FILE_BYTES) ->
  cx_open_fails env = false -> case_exists (es_db s) (cx_case_id env) = false ->
  already_captured (es_db s) (al_alert_id a) = false ->
  exists s0, already_captured (es_db s0) (al_alert_id a) = true /\
    cd_evidence (es_db s0) = cd_evidence (es_db s) /\ es_store s0 = es_store s /\
    grows (cx_case_id env) s0 (capture_evidence sha256 dumps env a e s).
Proof.
  intros Hreads Hopen Hfresh Ha. unfold capture_evidence. rewrite Ha.
  destruct (open_case _ _ _ _ _ _) as [[case_id|] db] eqn:Eo.
  2: { unfold open_case in Eo. by rewrite Hopen, Hfresh in Eo. }
  apply open_case_spec in Eo as (-> & _ & Hc & He & _).
  set (s0 := mkEvState db (es_store s) _). exists s0. split_and!; try done.
  match goal with |- context [keep_snapshot ?h ?d ?v ?k ?c ?x ?n ?al s0] =>
    pose proof (keep_snapshot_grows v k c x n al s0) as G1;
    destruct (keep_snapshot h d v k c x n al s0) as [net_ok s1] end.
  match goal with |- context [match cx_bundle env with Some b => @?f b | None => _ end] =>
    assert (G2 : grows (cx_case_id env) s1
      (match cx_bundle env with Some b => f b | None => (false, s1) end).2) end.
  { destruct (cx_bundle env) as [b|]; simpl; [|apply grows_refl].
    destruct (cx_put_fails env b); [apply grows_refl | apply keep_grows]. }
  destruct (match cx_bundle env with Some _ => _ | None => _ end) as [bundle_ok s2].
  match goal with |- context [keep_snapshot ?h ?d ?v ?k ?c ?x ?n ?al s2] =>
    pose proof (keep_snapshot_grows v k c x n al s2) as G3;
    destruct (keep_snapshot h d v k c x n al s2) as [tree_ok s3] end.
  pose proof (capture_files_spec env (al_alert_id a) (implicated_paths a e) 0 0 s3 Hreads) as G4.
  destruct (capture_files _ _ _ _ _ _ _ _) as [[[n total] partial] s4].
  destruct G4 as (_ & _ & G4); [done|done|]. simpl in *.
  do 4 (eapply grows_trans; [eassumption|]). apply append_timeline_grows.
Qed.
End CollectorProofs.

(** Evidence capture. When it opens a case for a severe alert, every
    evidence row still has its blob, stored under its digest; the new rows
    belong to the new case alone; and repeating the capture for the same alert,
    under whatever circumstances, changes nothing. *)
Theorem collect_once (sha256 : string -> string) (dumps : dict -> string) (env env' : CaptureEnv)
    (a : Alert) (e e' : Event) (s : EvState) :
  (forall p reg reads, cx_open env p = Some (reg, reads) -> reads_ok reads MAX_FILE_BYTES) ->
  cx_open_fails env = false -> case_exists (es_db s) (cx_case_id env) = false ->
  evidence_ok sha256 s ->
  let s' := collect sha256 dumps env a e s in
  evidence_ok sha256 s' /\ es_store s ⊆ es_store s' /\
  (exists new, cd_evidence (es_db s') = cd_evidence (es_db s) ++ new /\
          Forall (fun r => ce_ev_case r = cx_case_id env) new) /\
  collect sha256 dumps env' a e' s' = s'.
Proof.
  intros Hreads Hopen Hfresh Hok. unfold collect. cbv zeta. case_bool_decide as Hsev.
  2: { split_and!; try done. exists []. by rewrite app_nil_r. }
  assert (Hagain : forall s1, already_captured (es_db s1) (al_alert_id a) = true ->
            capture_evidence sha256 dumps env' a e' s1 = s1)
    by (intros s1 H; unfold capture_evidence; by rewrite H).
  destruct (already_captured (es_db s) (al_alert_id a)) eqn:Ea.
  { assert (Hs : capture_evidence sha256 dumps env a e s = s)
      by (unfold capture_evidence; by rewrite Ea).
    rewrite Hs. split_and!; try done; [exists []; by rewrite app_nil_r | by apply Hagain]. }
  destruct (capture_evidence_grows sha256 dumps env a e s Hreads Hopen Hfresh Ea)
    as (s0 & Hc & He & Hst & [Hl _ Hsub Hrows Hgok]).
  split_and!.
  - apply Hgok. destruct Hok as [H1 H2]. split; rewrite Hst; [done|by rewrite He].
  - by rewrite <- Hst.
  - by rewrite <- He.
  - apply Hagain. unfold already_captured in *. by rewrite Hl.
Qed.

Module EvidenceExample.
Definition sha (s : string) : string := ("h:" +:+ s)%string.
Definition dumps (_ : dict) : string := "{}".
Definition event : Event :=
  mkEvent "1.0.0" 0 "e1" EK_event [] [] "exec" None SevHigh "m" false None None
    (Some [("pid"%string, PInt 42)]) (Some [("path"%string, PStr "/tmp/x")]) None None None None None
    None None None None None None None None None [] None.
Definition env : CaptureEnv :=
  mkCaptureEnv "c1" 7 false (fun _ => 90) (Some (mkSnap "net" 3 false)) (Some "bundle"%string)
    (fun _ => None) (fun p => p) (fun _ => Some (true, [RdBytes "abc"; RdBytes "de"]))
    (fun _ => false) (fun _ => false).
Definition s0 : EvState := mkEvState (mkCaseDb [] [] [] [] []) ∅ [].
Definition s1 : EvState := collect sha dumps env (AlertExample.alert "a1" "k" 0) event s0.
End EvidenceExample.

Lemma collect_once_witness :
  collect EvidenceExample.sha EvidenceExample.dumps EvidenceExample.env
    (AlertExample.alert "a1" "k" 0) EvidenceExample.event EvidenceExample.s1 = EvidenceExample.s1 /\
  length (cd_evidence (es_db EvidenceExample.s1)) = 3%nat.
Proof.
  destruct (collect_once EvidenceExample.sha EvidenceExample.dumps EvidenceExample.env
    EvidenceExample.env (AlertExample.alert "a1" "k" 0) EvidenceExample.event EvidenceExample.event
    EvidenceExample.s0) as (_ & _ & _ & H).
  - intros p reg reads Hp. injection Hp as _ <-. unfold reads_ok, READ_CHUNK, MAX_FILE_BYTES.
    cbn [String.length]. split; [lia|]. split; [lia|]. exact I.
  - reflexivity.
  - reflexivity.
  - split; [intros sha b Hb; cbn in Hb; by rewrite lookup_empty in Hb | by intros r Hr%not_elem_of_nil].
  - split; [exact H | vm_compute; reflexivity].
Defined.

(** One capture reads at most 16 files and less than 160 MiB of them,
    whatever paths the alert and the event implicate and however large the
    files are. *)
Theorem capture_files_bounded (sha256 : string -> string) (dumps : dict -> string)
    (env : CaptureEnv) (aid : string) (paths : list string) (s : EvState) :
  (forall p reg reads, cx_open env p = Some (reg, reads) -> reads_ok reads MAX_FILE_BYTES) ->
  let '(n, total, _, _) := capture_files sha256 dumps env aid paths 0 0 s in
  0 <= n <= 16 /\ 0 <= total < 160 * 1024 * 1024.
Proof.
  intros Hreads. pose proof (capture_files_spec sha256 dumps env aid paths 0 0 s Hreads) as H.
  destruct (capture_files _ _ _ _ _ _ _ _) as [[[n total] partial] s'].
  destruct H as (Hn & Ht & _); [done|done|]. split; [exact Hn | exact Ht].
Qed.

Lemma capture_files_bounded_witness :
  let '(n, total, _, _) := capture_files EvidenceExample.sha EvidenceExample.dumps
      EvidenceExample.env "a1" ["/tmp/x"; "/etc/shadow"; "/tmp/y"]%string 0 0 EvidenceExample.s0 in
  n <= 16 /\ total < 160 * 1024 * 1024.
Proof.
  pose proof (capture_files_bounded EvidenceExample.sha EvidenceExample.dumps EvidenceExample.env "a1"
    ["/tmp/x"; "/etc/shadow"; "/tmp/y"]%string EvidenceExample.s0) as H.
  destruct (capture_files _ _ _ _ _ _ _ _) as [[[n total] partial] s'].
  destruct H as [Hn Ht].
  - intros p reg reads Hp. injection Hp as _ <-. unfold reads_ok, READ_CHUNK, MAX_FILE_BYTES.
    cbn [String.length]. split; [lia|]. split; [lia|]. exact I.
  - split; [apply Hn | apply Ht].
Defined.
