(* ===== verification/HuntSql.v ===== *)
(** * What a compiled hunt selects ([inspectord/hunt/compiler.py],
      [hunt/execute.py], [storage/events.py])

    The rows of [events_enriched], the meaning of the statements the compiler
    produces. That the SQL selects exactly the events the in-memory evaluator
    accepts is the theorem of [HuntFidelity.v].

    DuckDB is not part of the repository. The functions the statements call
    are the operations of the class [DuckDB]; its laws state their documented
    behaviour on the values an event can hold. *)

From S2P Require Import Prelude Schemas Expr RuleEval HuntCompiler.

(** ** Values a stored event holds *)

(** A finite IEEE-754 double. *)
Definition is_double (q : Q) : Prop :=
  exists m e : Z, Z.abs m < 2 ^ 53 /\ -1074 <= e <= 971 /\
    (if 0 <=? e then (q == inject_Z (m * 2 ^ e))%Q
     else (q * inject_Z (2 ^ (- e)) == inject_Z m)%Q).

(** JSON integers are read as BIGINT or UBIGINT. *)
Definition is_json_int (z : Z) : Prop := - 2 ^ 63 <= z < 2 ^ 64.

(** A value that serializes to JSON and reads back as itself. *)
Fixpoint json_safe (v : pyval) : Prop :=
  match v with
  | PInt z => is_json_int z
  | PFloat q => is_double q
  | PTime _ => False
  | PDict d =>
      (fix all (d : list (string * pyval)) : Prop :=
         match d with [] => True | (_, x) :: d' => json_safe x /\ all d' end) d
  | _ => True
  end.

(** The value at a path of object keys; [None] when a key is missing or a
    parent is not an object. *)
Fixpoint json_walk (v : pyval) (segs : list string) : option pyval :=
  match segs with
  | [] => Some v
  | seg :: rest =>
      match v with
      | PDict d => x ← dict_lookup seg d; json_walk x rest
      | _ => None
      end
  end.

(** ** The database functions *)

Class DuckDB := {
  json_type : pyval -> string -> option string;
  json_extract_string : pyval -> string -> option string;
  regexp_matches : string -> string -> bool;
  try_cast_double : string -> option Q;
  starts_with : string -> string -> bool;
  ends_with : string -> string -> bool;
  str_contains : string -> string -> bool;
}.

Definition ident_segs (segs : list string) : bool := forallb segment_ok segs.

Definition int_token : string := "^-?[0-9]+$".

(** [json_type]'s name for a value. *)
Definition json_type_name (v : pyval) : string :=
  match v with
  | PNone => "NULL" | PBool _ => "BOOLEAN"
  | PInt z => if z <? 2 ^ 63 then "BIGINT" else "UBIGINT"
  | PFloat _ => "DOUBLE" | PStr _ | PTime _ => "VARCHAR"
  | PList _ => "ARRAY" | PDict _ => "OBJECT"
  end.

Class DuckDBLaws (D : DuckDB) : Prop := {
  json_type_law doc segs :
    ident_segs segs = true ->
    json_type doc (json_path segs) = json_type_name <$> json_walk doc segs;
  json_text_str doc segs s :
    ident_segs segs = true -> json_walk doc segs = Some (PStr s) ->
    json_extract_string doc (json_path segs) = Some s;
  json_text_bool doc segs b :
    ident_segs segs = true -> json_walk doc segs = Some (PBool b) ->
    json_extract_string doc (json_path segs) = Some (if b then "true" else "false")%string;
  json_text_int doc segs z :
    ident_segs segs = true -> json_walk doc segs = Some (PInt z) -> is_json_int z ->
    json_extract_string doc (json_path segs) = Some (str_of_Z z);
  int_token_int z : regexp_matches (str_of_Z z) int_token = true;
  json_text_float doc segs q :
    ident_segs segs = true -> json_walk doc segs = Some (PFloat q) -> is_double q ->
    exists t q', json_extract_string doc (json_path segs) = Some t /\
      regexp_matches t int_token = false /\
      try_cast_double t = Some q' /\ (q' == q)%Q;
  starts_with_law s p : starts_with s p = startswith p s;
  ends_with_law s p : ends_with s p = endswith p s;
  contains_law s p : str_contains s p = contains p s;
}.

(** ** Rows *)

(** One row of [events_enriched]. The payload is the JSON document
    [model_dump_json] writes, as a value. *)
Record EventRow := mkRow {
  row_event_id : string;
  row_ts : Z;
  row_kind : string;
  row_module : string;
  row_action : string;
  row_severity : string;
  row_payload : dict;
  row_ingest_seq : Z;
}.

(** The document of an event: every field, the timestamp in ISO form. *)
Definition payload_of (iso : Z -> string) (e : Event) : dict :=
  dict_set "ts" (PStr (iso (ev_ts e))) (event_fields e).

(** [insert_event]; [seq] is the next value of the ingest sequence. *)
Definition row_of_event (iso : Z -> string) (e : Event) (seq : Z) : EventRow :=
  {| row_event_id := ev_event_id e;
     row_ts := ev_ts e;
     row_kind := kind_value (ev_kind e);
     row_module := ev_module e;
     row_action := ev_action e;
     row_severity := severity_value (ev_severity e);
     row_payload := payload_of iso e;
     row_ingest_seq := seq |}.

Record EventTable := mkTable { tbl_rows : list EventRow; tbl_next_seq : Z }.

Definition insert_event (iso : Z -> string) (t : EventTable) (e : Event) : EventTable :=
  {| tbl_rows := tbl_rows t ++ [row_of_event iso e (tbl_next_seq t)];
     tbl_next_seq := tbl_next_seq t + 1 |}.

Definition column (r : EventRow) (c : string) : string :=
  if String.eqb c "kind" then row_kind r
  else if String.eqb c "module" then row_module r
  else if String.eqb c "action" then row_action r
  else row_severity r.

(** ** Three-valued evaluation *)

(** SQL's truth values: [None] is NULL. *)
Definition tv := option bool.
Definition tv_and (a b : tv) : tv :=
  match a, b with
  | Some false, _ | _, Some false => Some false
  | Some true, Some true => Some true
  | _, _ => None
  end.
Definition tv_or (a b : tv) : tv :=
  match a, b with
  | Some true, _ | _, Some true => Some true
  | Some false, Some false => Some false
  | _, _ => None
  end.
Definition tv_not (a : tv) : tv := negb <$> a.
Definition tv_true (a : tv) : bool := match a with Some true => true | _ => false end.

Section Sql.
Context {D : DuckDB}.

Definition eval_text (r : EventRow) (t : sqltext) : option string :=
  match t with
  | TCol c => Some (column r c)
  | TJson segs => json_extract_string (PDict (row_payload r)) (json_path segs)
  end.

Definition eval_type (r : EventRow) (segs : list string) : option string :=
  json_type (PDict (row_payload r)) (json_path segs).

(** Takes the value of the next placeholder. *)
Definition pop (ps : list param) : option param * list param :=
  match ps with [] => (None, []) | p :: ps' => (Some p, ps') end.

Definition text_eq (t : option string) (p : option param) : tv :=
  match t, p with Some s, Some (BStr v) => Some (String.eqb s v) | _, _ => None end.

Definition double_eq (t : option string) (p : option param) : tv :=
  match t with
  | Some s =>
      match try_cast_double s, p with
      | Some q, Some (BDouble z) => Some (Qeq_bool q (inject_Z z))
      | _, _ => None
      end
  | None => None
  end.

Definition call_fun (f : sqlfun) (t : option string) (p : option param) : tv :=
  match t, p with
  | Some s, Some (BStr v) =>
      Some (match f with
            | F_starts_with => starts_with s v
            | F_ends_with => ends_with s v
            | F_contains => str_contains s v
            | F_regexp_matches => regexp_matches s v
            end)
  | _, _ => None
  end.

Definition number_types : list string := ["BIGINT"; "UBIGINT"; "DOUBLE"]%string.

(** The value of a predicate on a row, and the parameters left over:
    placeholders are numbered in the order of the text. *)
Fixpoint eval_pred (p : pred) (r : EventRow) (ps : list param) : tv * list param :=
  match p with
  | QTrue => (Some true, ps)
  | QFalse => (Some false, ps)
  | QTypeEq segs ty => ((fun t => String.eqb t ty) <$> eval_type r segs, ps)
  | QTypeNumber segs => ((fun t => bool_decide (t ∈ number_types)) <$> eval_type r segs, ps)
  | QEqParam t => let '(v, ps') := pop ps in (text_eq (eval_text r t) v, ps')
  | QFloatEq t =>
      let '(v, ps') := pop ps in
      let text := eval_text r t in
      (tv_and (tv_not ((fun s => regexp_matches s int_token) <$> text)) (double_eq text v), ps')
  | QCall f t => let '(v, ps') := pop ps in (call_fun f (eval_text r t) v, ps')
  | QGuard g b =>
      let '(x, ps1) := eval_pred g r ps in
      let '(y, ps2) := eval_pred b r ps1 in
      (tv_and x y, ps2)
  | QOr l =>
      (fix go (l : list pred) (ps : list param) : tv * list param :=
         match l with
         | [] => (Some false, ps)
         | p1 :: l' =>
             let '(x, ps1) := eval_pred p1 r ps in
             let '(y, ps2) := go l' ps1 in
             (tv_or x y, ps2)
         end) l ps
  | QTruth p positive =>
      let '(x, ps') := eval_pred p r ps in
      (Some (if positive then tv_true x else negb (tv_true x)), ps')
  | QNot p => let '(x, ps') := eval_pred p r ps in (tv_not x, ps')
  end.

(** [... AND ...] and [(...) OR (...)]. *)
Fixpoint eval_ands (l : list pred) (r : EventRow) (ps : list param) : tv * list param :=
  match l with
  | [] => (Some true, ps)
  | p :: l' =>
      let '(x, ps1) := eval_pred p r ps in
      let '(y, ps2) := eval_ands l' r ps1 in
      (tv_and x y, ps2)
  end.
Fixpoint eval_ors (gs : list (list pred)) (r : EventRow) (ps : list param) : tv * list param :=
  match gs with
  | [] => (Some false, ps)
  | g :: gs' =>
      let '(x, ps1) := eval_ands g r ps in
      let '(y, ps2) := eval_ors gs' r ps1 in
      (tv_or x y, ps2)
  end.

(** One [ts >= ?]-style clause; absent clauses consume nothing. *)
Definition eval_clause (present : bool) (cmp : Z -> bool) (ps : list param) : tv * list param :=
  if present then
    match pop ps with
    | (Some (BTime v), ps') | (Some (BInt v), ps') => (Some (cmp v), ps')
    | (_, ps') => (None, ps')
    end
  else (Some true, ps).

(** The WHERE clause, and the parameters left for LIMIT. *)
Definition eval_where (q : sql_query) (r : EventRow) (ps : list param) : tv * list param :=
  let '(w, ps1) := eval_ors (q_groups q) r ps in
  let '(s, ps2) := eval_clause (q_since q) (fun v => v <=? row_ts r) ps1 in
  let '(u, ps3) := eval_clause (q_until q) (fun v => row_ts r <=? v) ps2 in
  let '(lo, ps4) := eval_clause (q_ingest q) (fun v => v <? row_ingest_seq r) ps3 in
  let '(hi, ps5) := eval_clause (q_ingest q) (fun v => row_ingest_seq r <=? v) ps4 in
  (tv_and w (tv_and s (tv_and u (tv_and lo hi))), ps5).

Definition selected (q : CompiledQuery) (r : EventRow) : bool :=
  tv_true (eval_where (cq_sql q) r (cq_params q)).1.

(** LIMIT takes the last parameter. *)
Definition sql_limit (q : CompiledQuery) : nat :=
  match last (cq_params q) with Some (BInt n) => Z.to_nat n | _ => O end.

(** [ORDER BY ts DESC, event_id DESC]. *)
Definition newer (a b : EventRow) : Prop :=
  row_ts b < row_ts a \/ (row_ts a = row_ts b /\ String.le (row_event_id b) (row_event_id a)).
#[export] Instance newer_dec a b : Decision (newer a b).
Proof. unfold newer. apply _. Defined.

Definition run_sql (q : CompiledQuery) (t : EventTable) : list EventRow :=
  take (sql_limit q) (merge_sort newer (List.filter (selected q) (tbl_rows t))).

(** ** [run_hunt_query] *)

Record HuntResult := mkResult {
  hr_rows : list EventRow;
  hr_truncated : bool;
  hr_limit : Z;
}.

(** [db_error] says whether the database raises on this call. *)
Definition run_hunt_query (db_error : bool) (t : EventTable) (q : CompiledQuery)
  : result HuntError HuntResult :=
  if db_error then Err HuntExecutionError
  else
    let fetched := run_sql q t in
    Ok {| hr_rows := take (Z.to_nat (cq_limit q)) fetched;
          hr_truncated := cq_limit q <? Z.of_nat (length fetched);
          hr_limit := cq_limit q |}.

End Sql.
