(* ===== verification/Retention.v ===== *)
(** * Retention ([inspectord/retention/engine.py])

    Age-based pruning of events, journal files, alerts and evidence blobs.
    Times are microseconds since the epoch and days are [date.toordinal]
    numbers. The rows that [DELETE ... LIMIT] takes when several qualify are
    the database's choice ([DeleteOrder]). The sweep of [.tmp-*] debris is not
    modelled. *)

From S2P Require Import Prelude Schemas Json Quarantine RuleEval Alerts Cases HuntCompiler HuntSql.

(** ** Dates *)

Definition DAY_US : Z := 86400 * 1000000.
Definition EPOCH_ORDINAL : Z := 719163.
(** [ts.date()] of a UTC timestamp. *)
Definition date_of (ts : Z) : Z := ts / DAY_US + EPOCH_ORDINAL.

Definition is_leap (y : Z) : bool :=
  (y mod 4 =? 0) && (negb (y mod 100 =? 0) || (y mod 400 =? 0)).
Definition days_in_month (y m : Z) : Z :=
  if m =? 2 then (if is_leap y then 29 else 28)
  else if existsb (Z.eqb m) [4; 6; 9; 11] then 30 else 31.
Definition days_before_year (y : Z) : Z :=
  let p := y - 1 in p * 365 + p / 4 - p / 100 + p / 400.
Definition days_before_month (y m : Z) : Z :=
  foldr (fun k acc => days_in_month y k + acc) 0
    (List.filter (fun k => k <? m) [1; 2; 3; 4; 5; 6; 7; 8; 9; 10; 11]).
Definition ymd2ord (y m d : Z) : Z := days_before_year y + days_before_month y m + d.
Definition MAX_ORDINAL : Z := 3652059.

(** Exactly [n] decimal digits. *)
Fixpoint take_digits (n : nat) (acc : Z) (s : string) : option (Z * string) :=
  match n, s with
  | O, _ => Some (acc, s)
  | S n', String c s' => if is_digit c then take_digits n' (10 * acc + digit_val c) s' else None
  | S _, EmptyString => None
  end.

Definition take_char (c : ascii) (s : string) : option string :=
  match s with String c' s' => if Ascii.eqb c c' then Some s' else None | EmptyString => None end.

(** Monday of ISO week 1. *)
Definition isoweek1monday (y : Z) : Z :=
  let first := ymd2ord y 1 1 in
  let wd := (first + 6) mod 7 in
  (first - wd) + (if 3 <? wd then 7 else 0).
Definition iso_week_ok (y w : Z) : bool :=
  (1 <=? w) && ((w <=? 52) || ((w =? 53) &&
     (((ymd2ord y 1 1) mod 7 =? 4) || (((ymd2ord y 1 1) mod 7 =? 3) && is_leap y)))).

(** [date.fromisoformat]: [YYYY-MM-DD], [YYYYMMDD] and the week forms. *)
Definition fromisoformat (s : string) : option Z :=
  if negb (existsb (Nat.eqb (String.length s)) [7; 8; 10])%nat then None
  else
    '(y, r) ← take_digits 4 0 s;
    let sep := startswith "-" r in
    let r := if sep then str_drop 1 r else r in
    ord ←
      (if startswith "W" r then
         '(w, r1) ← take_digits 2 0 (str_drop 1 r);
         '(d, r2) ← (if String.eqb r1 EmptyString then Some (1, EmptyString)
                     else r1' ← (if sep then take_char "-" r1 else Some r1); take_digits 1 0 r1');
         if String.eqb r2 EmptyString && (1 <=? y) && iso_week_ok y w && (1 <=? d) && (d <=? 7)
         then Some (isoweek1monday y + (w - 1) * 7 + d - 1) else None
       else
         '(m, r1) ← take_digits 2 0 r;
         r2 ← (if sep then take_char "-" r1 else Some r1);
         '(d, r3) ← take_digits 2 0 r2;
         if String.eqb r3 EmptyString && (1 <=? y) && (1 <=? m) && (m <=? 12)
            && (1 <=? d) && (d <=? days_in_month y m)
         then Some (ymd2ord y m d) else None);
    if (1 <=? ord) && (ord <=? MAX_ORDINAL) then Some ord else None.

Example iso_1 : fromisoformat "1970-01-01" = Some EPOCH_ORDINAL. Proof. vm_compute. reflexivity. Qed.
Example iso_2 : fromisoformat "20260301" = Some (EPOCH_ORDINAL + 20513). Proof. vm_compute. reflexivity. Qed.
Example iso_3 : fromisoformat "2026-02-29" = None. Proof. vm_compute. reflexivity. Qed.
Example iso_4 : fromisoformat "2026-W01-1" = fromisoformat "2025-12-29". Proof. vm_compute. reflexivity. Qed.

(** ** Events *)

Definition is_anchor (r : EventRow) : bool :=
  String.eqb (row_module r) "supervisor" && String.eqb (row_action r) "audit_head".
(** [ORDER BY ts DESC, event_id DESC]: [b] comes no later than [a]. *)
Definition anchor_le (a b : EventRow) : bool :=
  bool_decide (row_ts a < row_ts b \/
    (row_ts a = row_ts b /\ String.le (row_event_id a) (row_event_id b))).

(** The newest [supervisor]/[audit_head] row. *)
Fixpoint newest (rows : list EventRow) : option EventRow :=
  match rows with
  | [] => None
  | r :: rest =>
      match newest rest with
      | Some b => if is_anchor r && anchor_le b r then Some r else Some b
      | None => if is_anchor r then Some r else None
      end
  end.

Definition eligible (cutoff : Z) (rows : list EventRow) : list EventRow :=
  List.filter (fun r => (row_ts r <? cutoff) &&
     negb (bool_decide (Some (row_event_id r) = row_event_id <$> newest rows))) rows.

(** Which of the qualifying rows a [LIMIT n] without an order takes. *)
Class DeleteOrder := {
  pick : Z -> list EventRow -> list EventRow;
  pick_sublist : forall n l, sublist (pick n l) l;
  pick_length : forall n l, length (pick n l) = Nat.min (Z.to_nat n) (length l);
}.

Definition in_order (n : Z) (l : list EventRow) : list EventRow := take (Z.to_nat n) l.
#[export] Program Instance InOrder : DeleteOrder := {| pick := in_order |}.
Next Obligation. apply sublist_take. Qed.
Next Obligation. apply length_take. Qed.

Definition EVENTS_DELETE_CHUNK : Z := 10000.

Section Events.
Context {D : DeleteOrder}.

(** One DELETE: the number of rows it removed and the table after it. *)
Definition delete_chunk (cutoff : Z) (limit : Z) (rows : list EventRow) : Z * list EventRow :=
  let victims := pick limit (eligible cutoff rows) in
  (Z.of_nat (length victims),
   List.filter (fun r => negb (bool_decide (row_event_id r ∈ row_event_id <$> victims))) rows).

(** The chunk loop. Every round but the last removes at least one row, so one
    more round than there are rows is enough. *)
Fixpoint prune_loop (fuel : nat) (chunk cutoff max_rows deleted : Z) (rows : list EventRow)
  : option (Z * list EventRow) :=
  match fuel with
  | O => None
  | S fuel' =>
      if max_rows <=? deleted then Some (deleted, rows)
      else
        let limit := Z.min chunk (max_rows - deleted) in
        let '(n, rows') := delete_chunk cutoff limit rows in
        if n <? limit then Some (deleted + n, rows')
        else prune_loop fuel' chunk cutoff max_rows (deleted + n) rows'
  end.

Definition prune_events (now days max_rows : Z) (rows : list EventRow)
  : option (Z * list EventRow) :=
  prune_loop (S (length rows)) EVENTS_DELETE_CHUNK (now - days * DAY_US) max_rows 0 rows.
End Events.

(** *** The newest anchor survives *)

Lemma anchor_le_total (a b : EventRow) : anchor_le a b = false -> anchor_le b a = true.
Proof.
  unfold anchor_le. rewrite bool_decide_eq_false, bool_decide_eq_true. intros H.
  destruct (Z.lt_trichotomy (row_ts a) (row_ts b)) as [|[He|]]; [tauto| |tauto].
  right. split; [done|]. destruct (base.total String.le (row_event_id a) (row_event_id b)); tauto.
Qed.
Lemma anchor_le_trans (a b c : EventRow) :
  anchor_le a b = true -> anchor_le b c = true -> anchor_le a c = true.
Proof.
  unfold anchor_le. rewrite !bool_decide_eq_true. intros [H1|[H1 H2]] [H3|[H3 H4]]; try (left; lia).
  right. split; [lia|]. by etrans.
Qed.
Lemma anchor_le_antisym (a b : EventRow) :
  anchor_le a b = true -> anchor_le b a = true -> row_event_id a = row_event_id b.
Proof.
  unfold anchor_le. rewrite !bool_decide_eq_true. intros [H1|[H1 H2]] [H3|[H3 H4]]; try lia.
  by apply (anti_symm String.le).
Qed.
Lemma anchor_le_refl (a : EventRow) : anchor_le a a = true.
Proof. unfold anchor_le. apply bool_decide_eq_true. right. split; [done|]. reflexivity. Qed.

Lemma newest_spec (rows : list EventRow) :
  match newest rows with
  | Some a => a ∈ rows /\ is_anchor a = true /\
              forall b, b ∈ rows -> is_anchor b = true -> anchor_le b a = true
  | None => forall b, b ∈ rows -> is_anchor b = false
  end.
Proof.
  induction rows as [|r rows IH]; simpl; [by intros b ?%not_elem_of_nil|].
  destruct (newest rows) as [a|].
  - destruct IH as (Hin & Ha & Hmax). destruct (is_anchor r && anchor_le a r) eqn:E.
    + apply andb_prop in E as [Er Hle]. split_and!; [left|done|].
      intros b [->|Hb]%elem_of_cons Hbk; [apply anchor_le_refl|].
      eapply anchor_le_trans; [by apply Hmax | done].
    + split_and!; [by right|done|]. intros b [->|Hb]%elem_of_cons Hbk; [|by apply Hmax].
      rewrite Hbk in E. simpl in E. by apply anchor_le_total.
  - destruct (is_anchor r) eqn:Er.
    + split_and!; [left|done|]. intros b [->|Hb]%elem_of_cons Hbk; [apply anchor_le_refl|].
      by rewrite IH in Hbk.
    + intros b [->|Hb]%elem_of_cons; [done | by apply IH].
Qed.

(** *** Counting what a DELETE removes *)

Lemma filter_not_in_length (V L : list EventRow) :
  sublist V L -> NoDup (row_event_id <$> L) ->
  (length (List.filter (fun r => negb (bool_decide (row_event_id r ∈ row_event_id <$> V))) L)
   + length V = length L)%nat.
Proof.
  intros Hs. induction Hs as [|x V L Hs IH|x V L Hs IH]; intros Hnd; [done|..];
    rewrite fmap_cons in Hnd; apply NoDup_cons in Hnd as [Hx Hnd]; cbn [List.filter].
  - rewrite bool_decide_eq_true_2 by (rewrite fmap_cons; left). cbn [negb length].
    rewrite <- (IH Hnd), Nat.add_succ_r. do 2 f_equal.
    apply (f_equal length). apply List.filter_ext_in. intros r Hr%list_elem_of_In.
    f_equal. apply bool_decide_ext. rewrite fmap_cons, elem_of_cons. split; [|by right].
    intros [He|]; [|done]. exfalso. apply Hx. rewrite <- He. by apply list_elem_of_fmap_2.
  - rewrite bool_decide_eq_false_2; [simpl; by rewrite (IH Hnd)|].
    intros (v & He & Hv)%list_elem_of_fmap. apply Hx. rewrite He. apply list_elem_of_fmap_2.
    eapply elem_of_submseteq; [exact Hv | by apply sublist_submseteq].
Qed.

Lemma filter_sublist {A} (p : A -> bool) (l : list A) : sublist (List.filter p l) l.
Proof. induction l as [|x l IH]; simpl; [done|]. destruct (p x); by constructor. Qed.

Lemma NoDup_fmap_sublist {A B} (f : A -> B) (k l : list A) :
  sublist k l -> NoDup (f <$> l) -> NoDup (f <$> k).
Proof.
  intros Hs. induction Hs as [|x k l Hs IH|x k l Hs IH]; [done|..]; rewrite !fmap_cons, NoDup_cons;
    intros [Hx Hnd]; [|by apply IH]. apply NoDup_cons. split; [|by apply IH].
  intros (y & He & Hy)%list_elem_of_fmap. apply Hx. rewrite He. apply list_elem_of_fmap_2.
  eapply elem_of_submseteq; [exact Hy | by apply sublist_submseteq].
Qed.

Lemma filter_comm {A} (p q : A -> bool) (l : list A) :
  List.filter p (List.filter q l) = List.filter q (List.filter p l).
Proof.
  induction l as [|x l IH]; simpl; [done|]. destruct (q x) eqn:Eq, (p x) eqn:Ep; simpl;
    rewrite ?Ep, ?Eq, IH; done.
Qed.

Section ChunkProofs.
Context {D : DeleteOrder}.

Definition kept (V : list EventRow) (rows : list EventRow) : list EventRow :=
  List.filter (fun r => negb (bool_decide (row_event_id r ∈ row_event_id <$> V))) rows.

Lemma newest_kept (cutoff : Z) (V rows : list EventRow) :
  NoDup (row_event_id <$> rows) -> sublist V (eligible cutoff rows) ->
  newest (kept V rows) = newest rows.
Proof.
  intros Hnd Hs. pose proof (newest_spec rows) as H. pose proof (newest_spec (kept V rows)) as H'.
  assert (Hsub : forall b, b ∈ kept V rows -> b ∈ rows).
  { intros b Hb. apply list_elem_of_In, List.filter_In in Hb as [Hb _]. by apply list_elem_of_In. }
  destruct (newest rows) as [a|] eqn:Ea.
  - destruct H as (Hin & Ha & Hmax).
    assert (Hak : a ∈ kept V rows).
    { apply list_elem_of_In, List.filter_In. split; [by apply list_elem_of_In|].
      apply negb_true_iff, bool_decide_eq_false. intros (v & He & Hv)%list_elem_of_fmap.
      assert (Hve : v ∈ eligible cutoff rows)
        by (eapply elem_of_submseteq; [exact Hv | by apply sublist_submseteq]).
      apply list_elem_of_In, List.filter_In in Hve as [_ Hve].
      apply andb_prop in Hve as [_ Hve%negb_true_iff%bool_decide_eq_false]. apply Hve.
      rewrite Ea. simpl. by rewrite He. }
    destruct (newest (kept V rows)) as [a'|].
    + destruct H' as (Hin' & Ha' & Hmax'). f_equal.
      apply (NoDup_fmap_eq row_event_id rows); [done|by apply Hsub|done|].
      apply anchor_le_antisym; [by apply Hmax; [apply Hsub|] | by apply Hmax'].
    + by rewrite H' in Ha.
  - destruct (newest (kept V rows)) as [a'|]; [|done]. destruct H' as (Hin' & Ha' & _).
    rewrite H in Ha'; [done | by apply Hsub].
Qed.

Lemma eligible_kept (cutoff : Z) (V rows : list EventRow) :
  NoDup (row_event_id <$> rows) -> sublist V (eligible cutoff rows) ->
  eligible cutoff (kept V rows) = kept V (eligible cutoff rows).
Proof.
  intros Hnd Hs. unfold eligible. rewrite (newest_kept cutoff V rows) by done. apply filter_comm.
Qed.

Lemma NoDup_eligible (cutoff : Z) (rows : list EventRow) :
  NoDup (row_event_id <$> rows) -> NoDup (row_event_id <$> eligible cutoff rows).
Proof. apply NoDup_fmap_sublist, filter_sublist. Qed.

(** What the loop computes, from any point of it. *)
Lemma prune_loop_spec (fuel : nat) (chunk cutoff max_rows deleted : Z) (rows : list EventRow) :
  NoDup (row_event_id <$> rows) -> 1 <= chunk -> deleted <= max_rows -> (length rows < fuel)%nat ->
  exists n rows', prune_loop fuel chunk cutoff max_rows deleted rows = Some (n, rows') /\
    sublist rows' rows /\ newest rows' = newest rows /\
    n = deleted + Z.min (max_rows - deleted) (Z.of_nat (length (eligible cutoff rows))) /\
    Z.of_nat (length rows') = Z.of_nat (length rows) - (n - deleted) /\
    (forall r, r ∈ rows -> r ∉ rows' -> r ∈ eligible cutoff rows).
Proof.
  revert deleted rows. induction fuel as [|fuel IH]; intros deleted rows Hnd Hchunk Hdel Hfuel; [lia|].
  cbn [prune_loop]. destruct (Z.leb_spec max_rows deleted).
  { exists deleted, rows. split_and!; try done; lia. }
  set (limit := Z.min chunk (max_rows - deleted)). unfold delete_chunk.
  set (V := pick limit (eligible cutoff rows)).
  assert (Hs : sublist V (eligible cutoff rows)) by apply pick_sublist.
  assert (HVlen : length V = Nat.min (Z.to_nat limit) (length (eligible cutoff rows)))
    by apply pick_length.
  change (List.filter _ rows) with (kept V rows).
  assert (Hlen : (length (kept V rows) + length V = length rows)%nat).
  { apply filter_not_in_length; [|done]. etrans; [exact Hs | apply filter_sublist]. }
  assert (Helen : (length (eligible cutoff (kept V rows)) + length V = length (eligible cutoff rows))%nat).
  { rewrite eligible_kept by done. apply filter_not_in_length; [done | by apply NoDup_eligible]. }
  assert (Hrem : forall r, r ∈ rows -> r ∈ kept V rows \/ r ∈ eligible cutoff rows).
  { intros r Hr. destruct (decide (row_event_id r ∈ row_event_id <$> V)) as [Hv|Hv].
    - right. apply list_elem_of_fmap in Hv as (v & He & Hv).
      assert (Hve : v ∈ eligible cutoff rows)
        by (eapply elem_of_submseteq; [exact Hv | by apply sublist_submseteq]).
      rewrite (NoDup_fmap_eq row_event_id rows r v); try done.
      eapply elem_of_submseteq; [exact Hve | apply sublist_submseteq, filter_sublist].
    - left. apply list_elem_of_In, List.filter_In. split; [by apply list_elem_of_In|].
      by apply negb_true_iff, bool_decide_eq_false. }
  pose proof (newest_kept cutoff V rows Hnd Hs) as Hnew.
  destruct (Z.ltb_spec (Z.of_nat (length V)) limit).
  - eexists _, _. split; [reflexivity|]. split_and!; try done; [apply filter_sublist|lia|lia|].
    intros r Hr Hn. by destruct (Hrem r Hr).
  - destruct (IH (deleted + Z.of_nat (length V)) (kept V rows)) as (n & rows' & -> & H1 & H2 & H3 & H4 & H5);
      [eapply NoDup_fmap_sublist; [apply filter_sublist | done] | done | lia | lia |].
    exists n, rows'. split_and!; try done.
    + etrans; [exact H1 | apply filter_sublist].
    + by rewrite H2.
    + lia.
    + lia.
    + intros r Hr Hn. destruct (Hrem r Hr) as [Hk|Hk]; [|done].
      specialize (H5 r Hk Hn). rewrite eligible_kept in H5 by done.
      by apply list_elem_of_In, List.filter_In in H5 as [H5%list_elem_of_In _].
Qed.
End ChunkProofs.

(** C39. Pruning the event table. The run always ends; it deletes
    [min(max_rows, number of old events)] rows, whichever of them the database
    picks, all of them older than the cutoff; every other row stays; and the
    newest [audit_head] row, the anchor of the audit chain, stays however old
    it is. *)
Theorem prune_events_spec {D : DeleteOrder} (now days max_rows : Z) (rows : list EventRow) :
  NoDup (row_event_id <$> rows) -> 0 <= max_rows ->
  exists n rows', prune_events now days max_rows rows = Some (n, rows') /\
    n = Z.min max_rows (Z.of_nat (length (eligible (now - days * DAY_US) rows))) /\
    sublist rows' rows /\ Z.of_nat (length rows') = Z.of_nat (length rows) - n /\
    newest rows' = newest rows /\
    (forall r, r ∈ rows -> r ∉ rows' ->
       row_ts r < now - days * DAY_US /\ Some (row_event_id r) <> row_event_id <$> newest rows).
Proof.
  intros Hnd Hmax. unfold prune_events.
  destruct (prune_loop_spec (S (length rows)) EVENTS_DELETE_CHUNK (now - days * DAY_US) max_rows 0 rows)
    as (n & rows' & -> & H1 & H2 & H3 & H4 & H5); [done|done|lia|lia|].
  exists n, rows'. split_and!; try done; try lia. intros r Hr Hn.
  specialize (H5 r Hr Hn). apply list_elem_of_In, List.filter_In in H5 as [_ H5].
  apply andb_prop in H5 as [Ha%Z.ltb_lt Hb%negb_true_iff%bool_decide_eq_false]. done.
Qed.

Module RetentionExample.
Definition ev (id module action : string) (ts : Z) : EventRow := mkRow id ts "event" module action "info" [] 0.
Definition rows : list EventRow :=
  [ev "e1" "m" "x" 0; ev "e2" "supervisor" "audit_head" 5; ev "e3" "supervisor" "audit_head" 9;
   ev "e4" "m" "x" (40 * DAY_US)].
End RetentionExample.

Lemma prune_events_spec_witness :
  exists n rows', prune_events (D := InOrder) (40 * DAY_US) 30 1000 RetentionExample.rows = Some (n, rows') /\
    n = 2 /\ newest rows' = Some (RetentionExample.ev "e3" "supervisor" "audit_head" 9).
Proof.
  destruct (prune_events_spec (D := InOrder) (40 * DAY_US) 30 1000 RetentionExample.rows)
    as (n & rows' & H1 & H2 & _ & _ & H3 & _).
  - by apply (bool_decide_unpack _).
  - lia.
  - exists n, rows'. split; [exact H1|]. split; [rewrite H2; reflexivity | rewrite H3; reflexivity].
Defined.

(** ** Journal files *)

Definition JOURNAL_SUFFIX : string := ".jsonl.gz".

(** A directory entry: its name, whether [is_file()], and its [st_size]. *)
Record JFile := mkJFile { jf_name : string; jf_is_file : bool; jf_size : Z }.

Definition removesuffix (suffix s : string) : string :=
  if endswith suffix s then str_take (String.length s - String.length suffix) s else s.

Definition name_le (a b : JFile) : Prop := String.le (jf_name a) (jf_name b).
#[export] Instance name_le_dec a b : Decision (name_le a b).
Proof. unfold name_le. apply _. Defined.

(** The date a directory entry stands for, when the pruner looks at it at all. *)
Definition is_journal (f : JFile) : bool := endswith JOURNAL_SUFFIX (jf_name f) && jf_is_file f.
Definition journal_date (f : JFile) : option Z := fromisoformat (removesuffix JOURNAL_SUFFIX (jf_name f)).

(** The dated files, and the ones whose name does not parse. *)
Definition dated_files (files : list JFile) : list (Z * JFile) :=
  omap (fun f => if is_journal f then d ← journal_date f; Some (d, f) else None)
    (merge_sort name_le files).
Definition unparseable_files (files : list JFile) : list JFile :=
  List.filter (fun f => is_journal f && match journal_date f with Some _ => false | None => true end)
    (merge_sort name_le files).

(** [_critical_alert_days]. *)
Definition critical_alert_days (alerts : list AlertRow) : list Z :=
  date_of ∘ ar_ts <$> List.filter (fun a => bool_decide (ar_severity a = SevCritical)) alerts.

Record JournalPruneResult := mkJPR {
  jp_files_deleted : Z;
  jp_skipped_files : list string;
  jp_quota_overage_bytes : Z;
}.

Section JournalPrune.
(** [path.unlink()] raising for a name. *)
Context (unlink_fails : string -> bool).

Definition remove_name (name : string) (files : list JFile) : list JFile :=
  List.filter (fun f => negb (String.eqb (jf_name f) name)) files.

(** The age pass: the files it keeps, the count and the directory; [None] for
    the count is the exception of a failed unlink. *)
Fixpoint age_pass (cutoff : Z) (protected : list Z) (dated : list (Z * JFile)) (n : Z)
    (dir : list JFile) : option (list (Z * JFile) * Z) * list JFile :=
  match dated with
  | [] => (Some ([], n), dir)
  | (d, f) :: rest =>
      if (d <? cutoff) && negb (bool_decide (d ∈ protected)) then
        if unlink_fails (jf_name f) then (None, dir)
        else age_pass cutoff protected rest (n + 1) (remove_name (jf_name f) dir)
      else
        let '(r, dir') := age_pass cutoff protected rest n dir in
        ((fun '(remaining, n') => ((d, f) :: remaining, n')) <$> r, dir')
  end.

Definition dated_le (a b : Z * JFile) : Prop :=
  a.1 < b.1 \/ (a.1 = b.1 /\ String.le (jf_name a.2) (jf_name b.2)).
#[local] Instance dated_le_dec a b : Decision (dated_le a b).
Proof. unfold dated_le. apply _. Defined.

(** The quota pass over the deletable files, oldest first. *)
Fixpoint quota_pass (quota : Z) (deletable : list (Z * JFile)) (usage n : Z) (dir : list JFile)
  : option (Z * Z) * list JFile :=
  match deletable with
  | [] => (Some (usage, n), dir)
  | (_, f) :: rest =>
      if usage <=? quota then (Some (usage, n), dir)
      else if unlink_fails (jf_name f) then (None, dir)
      else quota_pass quota rest (usage - jf_size f) (n + 1) (remove_name (jf_name f) dir)
  end.

Definition sum_sizes (l : list JFile) : Z := foldr (fun f acc => jf_size f + acc) 0 l.

(** [prune_journal_files]. *)
Definition prune_journal_files (alerts : list AlertRow) (now days quota_mb floor_days : Z)
    (dir : list JFile) : option JournalPruneResult * list JFile :=
  let today := date_of now in
  let protected := critical_alert_days alerts ++ [today] in
  let unparseable := unparseable_files dir in
  match age_pass (today - days) protected (dated_files dir) 0 dir with
  | (None, dir1) => (None, dir1)
  | (Some (remaining, n), dir1) =>
      let quota := quota_mb * 2 ^ 20 in
      let usage := sum_sizes remaining.*2 + sum_sizes unparseable in
      let deletable := merge_sort dated_le
            (List.filter (fun df => (df.1 <? today - floor_days)
                                    && negb (bool_decide (df.1 ∈ protected))) remaining) in
      match quota_pass quota deletable usage n dir1 with
      | (None, dir2) => (None, dir2)
      | (Some (usage', n'), dir2) =>
          (Some (mkJPR n' (jf_name <$> unparseable) (Z.max 0 (usage' - quota))), dir2)
      end
  end.
End JournalPrune.

(** ** Alerts *)

(** [prune_alerts]. *)
Definition open_case_alerts (db : CaseDb) : list string :=
  ca_alert <$> List.filter
    (fun l => existsb (fun c => String.eqb (cs_id c) (ca_case l) && bool_decide (cs_status c = Case_open))
                (cd_cases db)) (cd_links db).
Definition prune_alerts (now days : Z) (db : CaseDb) : Z * CaseDb :=
  let doomed a := (ar_last_seen_at a <? now - days * DAY_US)
                  && negb (bool_decide (ar_severity a = SevCritical))
                  && negb (bool_decide (ar_alert_id a ∈ open_case_alerts db)) in
  (Z.of_nat (length (List.filter doomed (cd_alerts db))),
   mkCaseDb (cd_cases db) (cd_links db) (cd_events db) (cd_evidence db)
     (List.filter (fun a => negb (doomed a)) (cd_alerts db))).

(** *** What the journal pruner may delete *)

Lemma elem_of_dated (files : list JFile) (d : Z) (f : JFile) :
  (d, f) ∈ dated_files files <-> f ∈ files /\ is_journal f = true /\ journal_date f = Some d.
Proof.
  unfold dated_files. rewrite list_elem_of_omap. split.
  - intros (g & Hg & He). rewrite merge_sort_Permutation in Hg. destruct (is_journal g) eqn:Ej; [|done].
    destruct (journal_date g) as [d'|] eqn:Ed; simpl in He; [|done]. injection He as <- <-. done.
  - intros (Hf & Hj & Hd). exists f. rewrite merge_sort_Permutation, Hj, Hd. done.
Qed.

Lemma elem_of_remove_name (name : string) (files : list JFile) (f : JFile) :
  f ∈ remove_name name files <-> f ∈ files /\ jf_name f <> name.
Proof.
  unfold remove_name. rewrite !list_elem_of_In, List.filter_In, negb_true_iff, String.eqb_neq. done.
Qed.

Section JournalProofs.
Context (unlink_fails : string -> bool).

Definition expired (cutoff : Z) (protected : list Z) (d : Z) : Prop := d < cutoff /\ d ∉ protected.

Lemma age_pass_spec (cutoff : Z) (protected : list Z) (dated : list (Z * JFile)) (n : Z)
    (dir : list JFile) :
  let '(r, dir') := age_pass unlink_fails cutoff protected dated n dir in
  (forall f, f ∈ dir' -> f ∈ dir) /\
  (forall f, f ∈ dir ->
     (forall d g, (d, g) ∈ dated -> expired cutoff protected d -> jf_name g <> jf_name f) -> f ∈ dir') /\
  (forall remaining n', r = Some (remaining, n') ->
     (forall x, x ∈ remaining -> x ∈ dated) /\
     (forall d f, (d, f) ∈ dated -> (d, f) ∈ remaining \/ f ∉ dir')).
Proof.
  revert n dir. induction dated as [|[d f] dated IH]; intros n dir; simpl.
  { split_and!; try done. intros remaining n' [= <- _]. split; [done|]. by intros d f ?%not_elem_of_nil. }
  assert (Hw : forall f0, (forall d0 g, (d0, g) ∈ (d, f) :: dated -> expired cutoff protected d0 ->
             jf_name g <> jf_name f0) -> forall d0 g, (d0, g) ∈ dated -> expired cutoff protected d0 ->
             jf_name g <> jf_name f0).
  { intros f0 H d0 g Hg. apply H. by right. }
  destruct ((d <? cutoff) && negb (bool_decide (d ∈ protected))) eqn:E.
  - apply andb_prop in E as [Hd%Z.ltb_lt Hp%negb_true_iff%bool_decide_eq_false].
    destruct (unlink_fails (jf_name f)); [done|].
    specialize (IH (n + 1) (remove_name (jf_name f) dir)).
    destruct (age_pass _ _ _ _ _ _) as [r dir']. destruct IH as (H1 & H2 & H3). split_and!.
    + intros g Hg. by apply H1, elem_of_remove_name in Hg as [Hg _].
    + intros g Hg Hex. apply H2; [|by eapply Hw]. apply elem_of_remove_name. split; [done|].
      intros Heq. apply (Hex d f); [left|done|done].
    + intros remaining n' Hr. destruct (H3 remaining n' Hr) as [H4 H5]. split.
      * intros x Hx. right. by apply H4.
      * intros d0 f0 [Heq|Hin]%elem_of_cons; [|by apply H5]. injection Heq as -> ->. right.
        intros Hf%H1%elem_of_remove_name. by destruct Hf.
  - specialize (IH n dir). destruct (age_pass _ _ _ _ _ _) as [r dir'].
    destruct IH as (H1 & H2 & H3). split_and!.
    + done.
    + intros g Hg Hex. apply H2; [done | by eapply Hw].
    + intros remaining n'. destruct r as [[rem m]|]; [|done]. intros [= <- _].
      destruct (H3 rem m eq_refl) as [H4 H5]. split.
      * intros x [->|Hx]%elem_of_cons; [left | right; by apply H4].
      * intros d0 f0 [->|Hin]%elem_of_cons; [left; left|].
        destruct (H5 d0 f0 Hin); [left; by right | by right].
Qed.

Lemma quota_pass_spec (quota : Z) (deletable : list (Z * JFile)) (usage n : Z) (dir : list JFile) :
  let '(r, dir') := quota_pass unlink_fails quota deletable usage n dir in
  (forall f, f ∈ dir' -> f ∈ dir) /\
  (forall f, f ∈ dir -> (forall d g, (d, g) ∈ deletable -> jf_name g <> jf_name f) -> f ∈ dir') /\
  (forall usage' n', r = Some (usage', n') -> usage' <= quota \/
     forall d g, (d, g) ∈ deletable -> g ∉ dir') /\
  (usage <= quota -> dir' = dir).
Proof.
  revert usage n dir. induction deletable as [|[d f] del IH]; intros usage n dir; simpl.
  { split_and!; try done. intros ? ? _. right. by intros d g ?%not_elem_of_nil. }
  destruct (Z.leb_spec usage quota).
  { split_and!; try done. intros ? ? [= <- _]. by left. }
  destruct (unlink_fails (jf_name f)); [split_and!; try done; lia|].
  specialize (IH (usage - jf_size f) (n + 1) (remove_name (jf_name f) dir)).
  destruct (quota_pass _ _ _ _ _ _) as [r dir']. destruct IH as (H1 & H2 & H3 & _).
  split_and!; [| | |lia].
  - intros g Hg. by apply H1, elem_of_remove_name in Hg as [Hg _].
  - intros g Hg Hex. apply H2.
    + apply elem_of_remove_name. split; [done|]. intros Heq. by apply (Hex d f); [left|].
    + intros d0 g0 Hin. apply (Hex d0 g0). by right.
  - intros usage' n' Hr. destruct (H3 usage' n' Hr) as [|H4]; [by left|]. right.
    intros d0 g [Heq|Hin]%elem_of_cons; [|by eapply H4]. injection Heq as -> ->.
    intros Hf%H1%elem_of_remove_name. by destruct Hf.
Qed.
End JournalProofs.

(** A journal file the pruner may delete. *)
Definition prunable (protected : list Z) (today days floor_days : Z) (f : JFile) : Prop :=
  exists d, is_journal f = true /\ journal_date f = Some d /\ (d ∉ protected) /\
    (d < today - days \/ d < today - floor_days).

Lemma prunable_cases (protected : list Z) (today days floor_days : Z) (f : JFile) :
  prunable protected today days floor_days f \/ ~ prunable protected today days floor_days f.
Proof.
  destruct (is_journal f) eqn:Ej; [|right; intros (d & Hj & _); congruence].
  destruct (journal_date f) as [d|] eqn:Ed; [|right; intros (d & _ & Hd & _); congruence].
  destruct (decide ((d ∉ protected) /\ (d < today - days \/ d < today - floor_days))) as [[H1 H2]|Hn].
  - left. by exists d.
  - right. intros (d' & _ & Hd' & H1 & H2). assert (d' = d) as -> by congruence. by apply Hn.
Qed.

(** A file that is not prunable shares its name with no file of the passes. *)
Lemma not_prunable_name (protected : list Z) (today days floor_days d : Z) (dir : list JFile) (f g : JFile) :
  NoDup (jf_name <$> dir) -> f ∈ dir -> ~ prunable protected today days floor_days f ->
  (d, g) ∈ dated_files dir -> d ∉ protected -> d < today - days \/ d < today - floor_days ->
  jf_name g <> jf_name f.
Proof.
  intros Hnd Hf Hs (Hg & Hj & Hd)%elem_of_dated Hp Ho Heq.
  assert (g = f) as -> by by apply (NoDup_fmap_eq jf_name dir).
  apply Hs. by exists d.
Qed.

(** Pruning the journal, whichever unlink fails. Nothing but dated journal
    files is ever deleted; today's file and the file of a day with a critical
    alert are kept whatever the quota; the others are deleted only when they
    are older than the retention age or than the floor; and when the pruner
    reports that the quota is still exceeded, no deletable file older than the
    floor is left. *)
Theorem prune_journal_spec (unlink_fails : string -> bool) (alerts : list AlertRow)
    (now days quota_mb floor_days : Z) (dir : list JFile) :
  NoDup (jf_name <$> dir) ->
  let '(res, dir') := prune_journal_files unlink_fails alerts now days quota_mb floor_days dir in
  let today := date_of now in
  let protected := critical_alert_days alerts ++ [today] in
  (forall f, f ∈ dir' -> f ∈ dir) /\
  (forall f, f ∈ dir -> f ∈ dir' \/
     exists d, is_journal f = true /\ journal_date f = Some d /\ (d ∉ protected) /\
       (d < today - days \/ d < today - floor_days)) /\
  (forall r, res = Some r -> 0 < jp_quota_overage_bytes r ->
     forall f d, f ∈ dir' -> is_journal f = true -> journal_date f = Some d ->
       d < today - floor_days -> d ∈ protected).
Proof.
  intros Hnd. unfold prune_journal_files.
  set (today := date_of now). set (protected := critical_alert_days alerts ++ [today]).
  set (safe := fun f => ~ prunable protected today days floor_days f).
  assert (Hcase : forall f, safe f \/ prunable protected today days floor_days f)
    by (intros f; destruct (prunable_cases protected today days floor_days f); auto).
  assert (Hname : forall f d g, f ∈ dir -> safe f -> (d, g) ∈ dated_files dir ->
            d ∉ protected -> d < today - days \/ d < today - floor_days -> jf_name g <> jf_name f)
    by (intros f d g; by apply not_prunable_name).
  pose proof (age_pass_spec unlink_fails (today - days) protected (dated_files dir) 0 dir) as Ha.
  destruct (age_pass _ _ _ _ _ _) as [[[remaining n]|] dir1]; destruct Ha as (Ha1 & Ha2 & Ha3).
  2: { split_and!; [done| |done]. intros f Hf. destruct (Hcase f) as [Hs|]; [left|by right].
       apply Ha2; [done|]. intros d g Hg [Hd Hp]. by apply (Hname f d g); auto. }
  destruct (Ha3 remaining n eq_refl) as [Hrem1 Hrem2]. clear Ha3.
  set (deletable := merge_sort _ _). set (usage := _ + _).
  assert (Hdel : forall d g, (d, g) ∈ deletable <-> (d, g) ∈ remaining /\ d < today - floor_days /\ d ∉ protected).
  { intros d g. unfold deletable. rewrite merge_sort_Permutation, list_elem_of_In, List.filter_In,
      <- list_elem_of_In, andb_true_iff, Z.ltb_lt, negb_true_iff, bool_decide_eq_false. done. }
  pose proof (quota_pass_spec unlink_fails (quota_mb * 2 ^ 20) deletable usage n dir1) as Hq.
  assert (Hkeep : forall f, f ∈ dir -> safe f -> f ∈ dir1 /\
            forall d g, (d, g) ∈ deletable -> jf_name g <> jf_name f).
  { intros f Hf Hs. split.
    - apply Ha2; [done|]. intros d g Hg [Hd Hp]. by apply (Hname f d g); auto.
    - intros d g (Hg & Hd & Hp)%Hdel. apply (Hname f d g); auto. }
  destruct (quota_pass _ _ _ _ _ _) as [[[usage' n']|] dir2]; destruct Hq as (Hq1 & Hq2 & Hq3 & _).
  - split_and!.
    + intros f Hf. by apply Ha1, Hq1.
    + intros f Hf. destruct (Hcase f) as [Hs|]; [left|by right].
      destruct (Hkeep f Hf Hs). by apply Hq2.
    + intros r [= <-] Hov f d Hf Hj Hd Hfl. destruct (decide (d ∈ protected)) as [|Hp]; [done|].
      exfalso. simpl in Hov. destruct (Hq3 usage' n' eq_refl) as [Hu|Hu]; [lia|].
      destruct (Hrem2 d f) as [Hin|Hout].
      * apply elem_of_dated. split_and!; try done. by apply Ha1, Hq1.
      * by apply (Hu d f); [apply Hdel|].
      * by apply Hout, Hq1.
  - split_and!; [| |done].
    + intros f Hf. by apply Ha1, Hq1.
    + intros f Hf. destruct (Hcase f) as [Hs|]; [left|by right].
      destruct (Hkeep f Hf Hs). by apply Hq2.
Qed.

Lemma prune_journal_spec_witness :
  NoDup (jf_name <$> [mkJFile "2026-01-01.jsonl.gz" true 5; mkJFile "notes.txt" true 1]) /\
  forall f, f ∈ (prune_journal_files (fun _ => false) [] (30000 * DAY_US) 30 10 7
     [mkJFile "2026-01-01.jsonl.gz" true 5; mkJFile "notes.txt" true 1]).2 ->
     f ∈ [mkJFile "2026-01-01.jsonl.gz" true 5; mkJFile "notes.txt" true 1].
Proof.
  assert (Hnd : NoDup (jf_name <$> [mkJFile "2026-01-01.jsonl.gz" true 5; mkJFile "notes.txt" true 1]))
    by by apply (bool_decide_unpack _).
  split; [exact Hnd|].
  pose proof (prune_journal_spec (fun _ => false) [] (30000 * DAY_US) 30 10 7
    [mkJFile "2026-01-01.jsonl.gz" true 5; mkJFile "notes.txt" true 1] Hnd) as H.
  destruct (prune_journal_files _ _ _ _ _ _ _) as [res dir']. exact (proj1 H).
Defined.

(** ** Evidence *)

(** [meta_json NOT LIKE '%"pruned_at"%'], where the underscore of the pattern
    stands for any one character. *)
Definition marker_here (s : string) : bool :=
  match s with
  | String q (String p (String r (String u (String n (String e (String d (String _ (String a
      (String t (String q' _)))))))))) =>
      Ascii.eqb q quote && String.eqb (String p (String r (String u (String n (String e
        (String d EmptyString)))))) "pruned" && Ascii.eqb a "a" && Ascii.eqb t "t" && Ascii.eqb q' quote
  | _ => false
  end.
Fixpoint has_marker (s : string) : bool :=
  marker_here s || match s with String _ s' => has_marker s' | EmptyString => false end.

Definition PROTECTING : list QStatus := [QS_isolating; QS_active; QS_failed; QS_restoring].

Section EvidencePrune.
Context (loads : string -> option pyval) (dumps : dict -> string).

Definition has_younger_row (rows : list EvidenceRow) (sha : string) (cutoff : Z) : bool :=
  existsb (fun r => String.eqb (ce_sha256 r) sha && (cutoff <=? ce_captured_at r)) rows.

Definition sha_le (a b : string) : Prop := String.le a b.
#[local] Instance sha_le_dec a b : Decision (sha_le a b).
Proof. unfold sha_le. apply _. Defined.

(** The candidate shas, in order. *)
Definition candidates (db : CaseDb) (quarantine : list QRow) (cutoff : Z) : list string :=
  merge_sort sha_le (remove_dups (ce_sha256 <$> List.filter
    (fun r => (ce_captured_at r <? cutoff)
              && negb (match ce_meta_json r with Some m => has_marker m | None => false end)
              && negb (existsb (fun q => String.eqb (qr_sha256 q) (ce_sha256 r)
                                         && bool_decide (qr_status q ∈ PROTECTING)) quarantine))
    (cd_evidence db))).

(** Some referencing case is not closed, or has a critical alert. *)
Definition open_reference (db : CaseDb) (sha : string) : bool :=
  existsb (fun r => String.eqb (ce_sha256 r) sha &&
     existsb (fun c => String.eqb (cs_id c) (ce_ev_case r) && negb (bool_decide (cs_status c = Case_closed)))
       (cd_cases db)) (cd_evidence db).
Definition critical_reference (db : CaseDb) (sha : string) : bool :=
  existsb (fun r => String.eqb (ce_sha256 r) sha &&
     existsb (fun l => String.eqb (ca_case l) (ce_ev_case r) &&
        existsb (fun a => String.eqb (ar_alert_id a) (ca_alert l)
                          && bool_decide (ar_severity a = SevCritical)) (cd_alerts db))
       (cd_links db)) (cd_evidence db).

(** [_stamp_tombstones]. *)
Definition stamp (pruned_at : string) (sha : string) (r : EvidenceRow) : EvidenceRow :=
  if String.eqb (ce_sha256 r) sha then
    let meta := match ce_meta_json r with
                | Some (String _ _ as m) => match loads m with Some (PDict d) => d | _ => [] end
                | _ => []
                end in
    mkEvidence (ce_ev_case r) (ce_ev_kind r) (ce_sha256 r) (ce_original_path r) (ce_captured_at r)
      (Some (dumps (dict_set "pruned_by" (PStr "auto:retention")
                      (dict_set "pruned_at" (PStr pruned_at) meta))))
  else r.

Record EvPrune := mkEvPrune {
  ep_rows : list EvidenceRow;
  ep_store : gmap string Blob;
  ep_pruned : list string;
}.

Definition with_evidence (db : CaseDb) (rows : list EvidenceRow) : CaseDb :=
  mkCaseDb (cd_cases db) (cd_links db) (cd_events db) rows (cd_alerts db).

(** The body of the loop for one sha. *)
Definition prune_sha (db : CaseDb) (cutoff : Z) (pruned_at : string) (p : EvPrune) (sha : string)
  : EvPrune :=
  let db := with_evidence db (ep_rows p) in
  if has_younger_row (ep_rows p) sha cutoff || open_reference db sha || critical_reference db sha
  then p
  else
    let rows := stamp pruned_at sha <$> ep_rows p in
    match ep_store p !! sha with
    | Some _ => mkEvPrune rows (delete sha (ep_store p)) (ep_pruned p ++ [sha])
    | None => mkEvPrune rows (ep_store p) (ep_pruned p)
    end.

(** [prune_evidence]. *)
Definition prune_evidence (db : CaseDb) (quarantine : list QRow) (store : gmap string Blob)
    (now days : Z) (pruned_at : string) : EvPrune :=
  let cutoff := now - days * DAY_US in
  foldl (prune_sha db cutoff pruned_at) (mkEvPrune (cd_evidence db) store [])
    (candidates db quarantine cutoff).

(** *** A protected blob is never pruned *)

(** What keeps a blob: a young row, an open or critical case, a quarantine row. *)
Definition protects (db : CaseDb) (quarantine : list QRow) (cutoff : Z) (sha : string) : Prop :=
  (exists r, r ∈ cd_evidence db /\ ce_sha256 r = sha /\
     (cutoff <= ce_captured_at r \/
      (exists c, c ∈ cd_cases db /\ cs_id c = ce_ev_case r /\ cs_status c = Case_open) \/
      (exists l a, l ∈ cd_links db /\ ca_case l = ce_ev_case r /\ a ∈ cd_alerts db /\
         ar_alert_id a = ca_alert l /\ ar_severity a = SevCritical))) \/
  (exists q, q ∈ quarantine /\ qr_sha256 q = sha /\ qr_status q ∈ PROTECTING).

(** Rows that differ at most in their metadata. *)
Definition same_but_meta (r r' : EvidenceRow) : Prop :=
  ce_ev_case r = ce_ev_case r' /\ ce_ev_kind r = ce_ev_kind r' /\ ce_sha256 r = ce_sha256 r' /\
  ce_original_path r = ce_original_path r' /\ ce_captured_at r = ce_captured_at r'.

Lemma stamp_same (pruned_at sha : string) (r : EvidenceRow) : same_but_meta r (stamp pruned_at sha r).
Proof. unfold stamp. by destruct (String.eqb _ _). Qed.

Lemma Forall2_stamp (pruned_at sha : string) (rows0 rows : list EvidenceRow) :
  Forall2 same_but_meta rows0 rows -> Forall2 same_but_meta rows0 (stamp pruned_at sha <$> rows).
Proof.
  induction 1 as [|r r' l l' Hr Hl IH]; [constructor|]. rewrite fmap_cons. constructor; [|done].
  pose proof (stamp_same pruned_at sha r') as H. unfold same_but_meta in *. intuition congruence.
Qed.

(** A row that protects stops the pruning of its sha, whatever was stamped before. *)
Lemma prune_sha_protected (db : CaseDb) (cutoff : Z) (pruned_at sha : string) (p : EvPrune)
    (quarantine : list QRow) :
  Forall2 same_but_meta (cd_evidence db) (ep_rows p) ->
  (exists r, r ∈ cd_evidence db /\ ce_sha256 r = sha /\
     (cutoff <= ce_captured_at r \/
      (exists c, c ∈ cd_cases db /\ cs_id c = ce_ev_case r /\ cs_status c = Case_open) \/
      (exists l a, l ∈ cd_links db /\ ca_case l = ce_ev_case r /\ a ∈ cd_alerts db /\
         ar_alert_id a = ca_alert l /\ ar_severity a = SevCritical))) ->
  prune_sha db cutoff pruned_at p sha = p.
Proof.
  intros Hsame (r & Hr & Hsha & Hwhy).
  apply list_elem_of_lookup in Hr as [i Hi].
  destruct (Forall2_lookup_l _ _ _ _ _ Hsame Hi) as (r' & Hi' & Hc & _ & Hs & _ & Ht).
  assert (Hin : List.In r' (ep_rows p)) by (apply list_elem_of_In; by eapply list_elem_of_lookup_2).
  unfold prune_sha.
  assert (has_younger_row (ep_rows p) sha cutoff || open_reference (with_evidence db (ep_rows p)) sha
          || critical_reference (with_evidence db (ep_rows p)) sha = true) as ->; [|done].
  apply orb_true_iff. rewrite orb_true_iff. destruct Hwhy as [Hy|[(c & Hcin & Hcid & Hco)|(l & a & Hl & Hlc & Ha & Haid & Hsev)]].
  - left. left. apply existsb_exists. exists r'. split; [done|].
    rewrite <- Hs, Hsha, String.eqb_refl. simpl. apply Z.leb_le. lia.
  - left. right. apply existsb_exists. exists r'. split; [done|].
    rewrite <- Hs, Hsha, String.eqb_refl. simpl. apply existsb_exists. exists c.
    split; [by apply list_elem_of_In|]. by rewrite Hcid, Hc, String.eqb_refl, Hco.
  - right. apply existsb_exists. exists r'. split; [done|].
    rewrite <- Hs, Hsha, String.eqb_refl. simpl. apply existsb_exists. exists l.
    split; [by apply list_elem_of_In|]. rewrite Hlc, Hc, String.eqb_refl. simpl.
    apply existsb_exists. exists a. split; [by apply list_elem_of_In|].
    by rewrite Haid, String.eqb_refl, Hsev.
Qed.

Lemma prune_sha_frame (db : CaseDb) (cutoff : Z) (pruned_at sha sha' : string) (p : EvPrune) :
  Forall2 same_but_meta (cd_evidence db) (ep_rows p) ->
  let p' := prune_sha db cutoff pruned_at p sha in
  Forall2 same_but_meta (cd_evidence db) (ep_rows p') /\
  (sha' <> sha -> ep_store p' !! sha' = ep_store p !! sha') /\
  ep_store p' ⊆ ep_store p.
Proof.
  intros H. unfold prune_sha. destruct (_ || _); [done|].
  destruct (ep_store p !! sha); simpl; (split; [by apply Forall2_stamp|]); [|done].
  split; [intros Hn; by rewrite lookup_delete_ne | apply delete_subseteq].
Qed.
End EvidencePrune.

(** C38. A forensic blob is never pruned while something needs it: if any of
    its evidence rows is younger than the retention age, belongs to a case that
    is open, or to a case with a critical alert, or if a quarantine row in
    status isolating, active, failed or restoring refers to it, the blob is
    still in the store after the run; and no evidence row is ever deleted or
    changed in anything but its metadata. *)
Theorem prune_evidence_protects (loads : string -> option pyval) (dumps : dict -> string)
    (db : CaseDb) (quarantine : list QRow) (store : gmap string Blob) (now days : Z)
    (pruned_at sha : string) :
  protects db quarantine (now - days * DAY_US) sha ->
  let p := prune_evidence loads dumps db quarantine store now days pruned_at in
  ep_store p !! sha = store !! sha /\ Forall2 same_but_meta (cd_evidence db) (ep_rows p).
Proof.
  intros Hprot. unfold prune_evidence. cbv zeta. set (cutoff := now - days * DAY_US) in *.
  set (cands := candidates db quarantine cutoff).
  assert (Hcand : (exists q, q ∈ quarantine /\ qr_sha256 q = sha /\ qr_status q ∈ PROTECTING) ->
            sha ∉ cands).
  { intros (q & Hq & Hqs & Hst) Hin. unfold cands, candidates in Hin.
    rewrite merge_sort_Permutation, elem_of_remove_dups in Hin.
    apply list_elem_of_fmap in Hin as (r & -> & Hr).
    apply list_elem_of_In, List.filter_In in Hr as [_ Hr].
    apply andb_prop in Hr as [_ Hr%negb_true_iff].
    assert (existsb (fun q0 => String.eqb (qr_sha256 q0) (ce_sha256 r)
        && bool_decide (qr_status q0 ∈ PROTECTING)) quarantine = true); [|congruence].
    apply existsb_exists. exists q. split; [by apply list_elem_of_In|].
    by rewrite Hqs, String.eqb_refl, bool_decide_eq_true_2. }
  assert (Hgen : forall l p, (forall x, x ∈ l -> x ∈ cands) ->
            Forall2 same_but_meta (cd_evidence db) (ep_rows p) ->
            let p' := foldl (prune_sha loads dumps db cutoff pruned_at) p l in
            ep_store p' !! sha = ep_store p !! sha /\
            Forall2 same_but_meta (cd_evidence db) (ep_rows p')).
  { induction l as [|x l IH]; intros p Hl Hp; [done|]. cbn [foldl].
    destruct (prune_sha_frame loads dumps db cutoff pruned_at x sha p Hp) as (H1 & H2 & _).
    destruct (IH (prune_sha loads dumps db cutoff pruned_at p x)) as [H3 H4]; [|done|].
    { intros y Hy. apply Hl. by right. }
    split; [|done]. rewrite H3. destruct (decide (x = sha)) as [->|]; [|by apply H2].
    destruct Hprot as [Hr|Hq]; [|exfalso; apply (Hcand Hq), Hl; left].
    by rewrite (prune_sha_protected loads dumps db cutoff pruned_at sha p quarantine). }
  destruct (Hgen cands (mkEvPrune (cd_evidence db) store [])) as [H1 H2]; [done| |done].
  simpl. apply Forall2_same_length_lookup. split; [done|].
  intros i r r' Hr Hr'. assert (r = r') as -> by congruence. done.
Qed.

Module EvidencePruneExample.
Definition db : CaseDb :=
  mkCaseDb [mkCaseRow "c1" "t" Case_closed 0 (Some 1); mkCaseRow "c2" "t" Case_open 0 None] [] []
    [mkEvidence "c1" "file" "s1" "/tmp/a" 0 None; mkEvidence "c1" "file" "s2" "/tmp/b" 0 None;
     mkEvidence "c2" "file" "s2" "/tmp/b" 0 None] [].
Definition store : gmap string Blob := {[ "s1"%string := mkBlob 1 "a"; "s2"%string := mkBlob 2 "b" ]}.
Definition loads (_ : string) : option pyval := None.
Definition dumps (_ : dict) : string := "{}".
Definition result : EvPrune :=
  prune_evidence loads dumps db [] store (400 * DAY_US) 365 "2026-01-01".
End EvidencePruneExample.

(** The open case keeps [s2]; [s1] is pruned. *)
Lemma prune_evidence_protects_witness :
  ep_store EvidencePruneExample.result !! "s2"%string = Some (mkBlob 2 "b") /\
  ep_pruned EvidencePruneExample.result = ["s1"%string].
Proof.
  split; [|vm_compute; reflexivity].
  refine (proj1 (prune_evidence_protects EvidencePruneExample.loads EvidencePruneExample.dumps
    EvidencePruneExample.db [] EvidencePruneExample.store (400 * DAY_US) 365 "2026-01-01" "s2" _)).
  left. exists (mkEvidence "c2" "file" "s2" "/tmp/b" 0 None).
  split; [right; right; left|]. split; [reflexivity|]. right. left.
  exists (mkCaseRow "c2" "t" Case_open 0 None). split; [right; left|]. split; reflexivity.
Defined.

(** ** The whole run *)

Record RetentionConfig := mkRetentionConfig {
  rc_events_days : Z;
  rc_events_max_rows_per_run : Z;
  rc_journal_days : Z;
  rc_journal_quota_mb : Z;
  rc_journal_quota_floor_days : Z;
  rc_alerts_days : Z;
  rc_evidence_days : Z;
}.

Record RetentionReport := mkReport {
  rp_events_deleted : Z;
  rp_journal_files_deleted : Z;
  rp_alerts_deleted : Z;
  rp_evidence_blobs_deleted : Z;
  rp_pruned_shas : list string;
  rp_skipped_files : list string;
  rp_errors : list string;
  rp_quota_overage_bytes : Z;
}.

Definition any_deletions (r : RetentionReport) : bool :=
  (0 <? rp_events_deleted r) || (0 <? rp_journal_files_deleted r)
  || (0 <? rp_alerts_deleted r) || (0 <? rp_evidence_blobs_deleted r).

Record RetState := mkRetState {
  rt_events : list EventRow;
  rt_cases : CaseDb;
  rt_quarantine : list QRow;
  rt_store : gmap string Blob;
  rt_journal : list JFile;
}.

(** What fails during the run: a surface that raises before it changes
    anything (with the [repr] of the exception), and the unlinks that raise. *)
Record RetFaults := mkFaults {
  rf_events : option string;
  rf_unlink : string -> bool;
  rf_unlink_repr : string;
  rf_alerts : option string;
  rf_evidence : option string;
  rf_checkpoint : option string;
}.

Section Run.
Context {D : DeleteOrder} (loads : string -> option pyval) (dumps : dict -> string).

(** [run_retention] for an aware [now]. *)
Definition run_retention (cfg : RetentionConfig) (faults : RetFaults) (now : Z) (pruned_at : string)
    (s : RetState) : RetentionReport * RetState :=
  let '(n_events, events, err1) :=
    match rf_events faults, prune_events now (rc_events_days cfg) (rc_events_max_rows_per_run cfg)
                              (rt_events s) with
    | Some e, _ => (0, rt_events s, ["events: " +:+ e])
    | None, Some (n, rows) => (n, rows, [])
    | None, None => (0, rt_events s, [])
    end in
  let '(jres, journal) :=
    prune_journal_files (rf_unlink faults) (cd_alerts (rt_cases s)) now (rc_journal_days cfg)
      (rc_journal_quota_mb cfg) (rc_journal_quota_floor_days cfg) (rt_journal s) in
  let '(n_journal, skipped, overage, err2) :=
    match jres with
    | Some r => (jp_files_deleted r, jp_skipped_files r, jp_quota_overage_bytes r, [])
    | None => (0, [], 0, ["journal: " +:+ rf_unlink_repr faults])
    end in
  let '(n_alerts, cases1, err3) :=
    match rf_alerts faults with
    | Some e => (0, rt_cases s, ["alerts: " +:+ e])
    | None => let '(n, db) := prune_alerts now (rc_alerts_days cfg) (rt_cases s) in (n, db, [])
    end in
  let '(pruned, cases2, store, err4) :=
    match rf_evidence faults with
    | Some e => ([], cases1, rt_store s, ["evidence: " +:+ e])
    | None =>
        let p := prune_evidence loads dumps cases1 (rt_quarantine s) (rt_store s) now
                   (rc_evidence_days cfg) pruned_at in
        (ep_pruned p, with_evidence cases1 (ep_rows p), ep_store p, [])
    end in
  let n_blobs := Z.of_nat (length pruned) in
  let err5 :=
    if negb (n_events =? 0) || negb (n_alerts =? 0) || negb (n_blobs =? 0)
    then match rf_checkpoint faults with Some e => ["checkpoint: " +:+ e] | None => [] end else [] in
  (mkReport n_events n_journal n_alerts n_blobs pruned skipped
     (err1 ++ err2 ++ err3 ++ err4 ++ err5) overage,
   mkRetState events cases2 (rt_quarantine s) store journal).
End Run.

(** A failed unlink hides the deletions that preceded it. With two expired
    journal files of which the second cannot be unlinked, the first is deleted
    and the report counts nothing: [any_deletions] is false, so the run leaves
    no audit row for the file it removed. *)
Theorem failed_unlink_hides_deletion (loads : string -> option pyval) (dumps : dict -> string) :
  let dir := [mkJFile "2020-01-01.jsonl.gz" true 5; mkJFile "2020-01-02.jsonl.gz" true 5] in
  let faults := mkFaults None (fun n => String.eqb n "2020-01-02.jsonl.gz") "PermissionError(13)"
                  None None None in
  let '(report, s') :=
    run_retention (D := InOrder) loads dumps (mkRetentionConfig 30 1000 30 500 7 365 365) faults
      (30000 * DAY_US) "2052-02-20"
      (mkRetState [] (mkCaseDb [] [] [] [] []) [] ∅ dir) in
  rt_journal s' = [mkJFile "2020-01-02.jsonl.gz" true 5] /\
  any_deletions report = false /\ rp_errors report = ["journal: PermissionError(13)"%string].
Proof. vm_compute. split_and!; reflexivity. Qed.
