(* ===== verification/Supervisor.v ===== *)
(** * The supervisor ([inspectord/supervisor.py])

    Three of its state machines: the restart policy of one worker
    ([_monitor_tick], [_handle_dead_worker], [_respawn]), the health of the
    persistence loop ([_drain]), and the daily audit tick ([_audit_tick]) with
    the anchor it reads back ([newest_anchor] of [audit/log.py]). Clock
    readings are integers. Threads, pipes and the command channel are not
    modelled. *)

From S2P Require Import Prelude Schemas Json Journal AuditLog RuleEval Alerts HuntCompiler HuntSql Retention.

(** ** Restarting a worker *)

Record RestartCfg := mkRestartCfg {
  rs_base : Z;
  rs_cap : Z;
  rs_healthy_after : Z;
  rs_max_attempts : Z;
}.

(** [min(base * 2 ** max(0, attempt - 1), cap)]. *)
Definition backoff_delay (cfg : RestartCfg) (attempt : Z) : Z :=
  Z.min (rs_base cfg * 2 ^ Z.max 0 (attempt - 1)) (rs_cap cfg).

(** [_WorkerProc], what the policy reads of it. *)
Record WorkerProc := mkWp {
  wp_started_at : Z;
  wp_restarts : Z;
  wp_restart_at : option Z;
  wp_exhausted : bool;
  wp_died_reported : bool;
}.
Definition fresh_worker (started : Z) : WorkerProc := mkWp started 0 None false false.

Inductive SupEvent :=
| WorkerDied (rc restarts : Z)
| WorkerRestarted (attempt backoff : Z)
| RestartExhausted (attempts : Z).

(** What one monitor tick observes of the worker: the clock, [poll()], and the
    start time of the new process if it comes to a spawn ([None]: it raises). *)
Record Tick := mkTick { tk_now : Z; tk_poll : option Z; tk_spawn : option Z }.

(** [_respawn]. *)
Definition respawn (t : Tick) (attempt delay : Z) (wp : WorkerProc) : WorkerProc * list SupEvent :=
  match tk_spawn t with
  | None => (mkWp (wp_started_at wp) attempt None (wp_exhausted wp) (wp_died_reported wp), [])
  | Some started => (mkWp started attempt None false false, [WorkerRestarted attempt delay])
  end.

(** [_handle_dead_worker]. *)
Definition handle_dead_worker (cfg : RestartCfg) (t : Tick) (rc : Z) (wp : WorkerProc)
  : WorkerProc * list SupEvent :=
  let died := if wp_died_reported wp then [] else [WorkerDied rc (wp_restarts wp)] in
  if rs_max_attempts cfg <=? wp_restarts wp then
    (mkWp (wp_started_at wp) (wp_restarts wp) (wp_restart_at wp) true true,
     died ++ [RestartExhausted (wp_restarts wp)])
  else
    let attempt := wp_restarts wp + 1 in
    let delay := backoff_delay cfg attempt in
    let restart_at := default (tk_now t + delay) (wp_restart_at wp) in
    let wp1 := mkWp (wp_started_at wp) (wp_restarts wp) (Some restart_at) (wp_exhausted wp) true in
    if tk_now t <? restart_at then (wp1, died)
    else let '(wp2, evs) := respawn t attempt delay wp1 in (wp2, died ++ evs).

(** One worker's part of [_monitor_tick]. *)
Definition tick_worker (cfg : RestartCfg) (t : Tick) (wp : WorkerProc) : WorkerProc * list SupEvent :=
  if wp_exhausted wp then (wp, [])
  else match tk_poll t with
  | None =>
      if negb (wp_restarts wp =? 0) && (rs_healthy_after cfg <=? tk_now t - wp_started_at wp)
      then (mkWp (wp_started_at wp) 0 (wp_restart_at wp) (wp_exhausted wp) (wp_died_reported wp), [])
      else (wp, [])
  | Some rc => handle_dead_worker cfg t rc wp
  end.

(** The events of a run, with the clock of their tick. *)
Fixpoint run_ticks (cfg : RestartCfg) (wp : WorkerProc) (ticks : list Tick)
  : WorkerProc * list (Z * SupEvent) :=
  match ticks with
  | [] => (wp, [])
  | t :: rest =>
      let '(wp1, evs) := tick_worker cfg t wp in
      let '(wp2, log) := run_ticks cfg wp1 rest in
      (wp2, (pair (tk_now t) <$> evs) ++ log)
  end.

(** A tick that declares the worker recovered. *)
Definition resets (cfg : RestartCfg) (wp : WorkerProc) (t : Tick) : bool :=
  negb (wp_exhausted wp) && match tk_poll t with None => true | Some _ => false end
  && negb (wp_restarts wp =? 0) && (rs_healthy_after cfg <=? tk_now t - wp_started_at wp).
Fixpoint count_resets (cfg : RestartCfg) (wp : WorkerProc) (ticks : list Tick) : Z :=
  match ticks with
  | [] => 0
  | t :: rest => (if resets cfg wp t then 1 else 0) + count_resets cfg (tick_worker cfg t wp).1 rest
  end.

Definition is_restart (e : Z * SupEvent) : bool :=
  match e.2 with WorkerRestarted _ _ => true | _ => false end.
Definition is_exhausted (e : Z * SupEvent) : bool :=
  match e.2 with RestartExhausted _ => true | _ => false end.
Definition count_log (p : Z * SupEvent -> bool) (l : list (Z * SupEvent)) : Z :=
  Z.of_nat (length (List.filter p l)).

Lemma count_log_app (p : Z * SupEvent -> bool) (a b : list (Z * SupEvent)) :
  count_log p (a ++ b) = count_log p a + count_log p b.
Proof. unfold count_log. rewrite List.filter_app, length_app. lia. Qed.

(** One tick: the counters it moves. *)
Lemma tick_counts (cfg : RestartCfg) (t : Tick) (wp : WorkerProc) :
  0 <= wp_restarts wp <= rs_max_attempts cfg ->
  let '(wp', evs) := tick_worker cfg t wp in
  let log := pair (tk_now t) <$> evs in
  0 <= wp_restarts wp' <= rs_max_attempts cfg /\
  count_log is_restart log + wp_restarts wp
    <= wp_restarts wp' + (if resets cfg wp t then rs_max_attempts cfg else 0) /\
  count_log is_exhausted log + (if wp_exhausted wp then 1 else 0) <= (if wp_exhausted wp' then 1 else 0).
Proof.
  intros Hr. unfold tick_worker, resets. destruct (wp_exhausted wp) eqn:Ex.
  { unfold count_log. simpl. rewrite Ex. lia. }
  destruct (tk_poll t) as [rc|].
  2: { simpl. destruct (_ && _); unfold count_log; simpl; rewrite ?Ex; lia. }
  simpl. unfold handle_dead_worker.
  set (died := if wp_died_reported wp then [] else [WorkerDied rc (wp_restarts wp)]).
  assert (Hd : forall p, (forall z a b, p (z, WorkerDied a b) = false) ->
            count_log p (pair (tk_now t) <$> died) = 0).
  { intros p Hp. unfold died. destruct (wp_died_reported wp); unfold count_log; simpl; rewrite ?Hp; done. }
  destruct (Z.leb_spec (rs_max_attempts cfg) (wp_restarts wp)).
  { rewrite fmap_app, !count_log_app, !Hd by done. unfold count_log. simpl. lia. }
  destruct (Z.ltb_spec (tk_now t) (default (tk_now t + backoff_delay cfg (wp_restarts wp + 1)) (wp_restart_at wp))).
  { cbv zeta. rewrite !Hd by done. simpl. rewrite Ex. lia. }
  unfold respawn. destruct (tk_spawn t) as [st|]; cbv zeta; rewrite ?fmap_app, ?count_log_app, ?Hd by done;
    unfold count_log; simpl; rewrite ?Ex; lia.
Qed.

Lemma run_counts (cfg : RestartCfg) (ticks : list Tick) (wp : WorkerProc) :
  0 <= wp_restarts wp <= rs_max_attempts cfg ->
  let '(wp', log) := run_ticks cfg wp ticks in
  0 <= wp_restarts wp' <= rs_max_attempts cfg /\
  count_log is_restart log + wp_restarts wp
    <= wp_restarts wp' + rs_max_attempts cfg * count_resets cfg wp ticks /\
  count_log is_exhausted log + (if wp_exhausted wp then 1 else 0) <= (if wp_exhausted wp' then 1 else 0).
Proof.
  revert wp. induction ticks as [|t ticks IH]; intros wp Hr; simpl.
  { unfold count_log. simpl. lia. }
  pose proof (tick_counts cfg t wp Hr) as Ht.
  destruct (tick_worker cfg t wp) as [wp1 evs]. destruct Ht as (H1 & H2 & H3).
  specialize (IH wp1 H1). simpl. destruct (run_ticks cfg wp1 ticks) as [wp2 log].
  destruct IH as (H4 & H5 & H6). rewrite !count_log_app.
  destruct (resets cfg wp t); split_and!; nia.
Qed.

(** A pending restart was scheduled when the worker was found dead. *)
Definition scheduled (cfg : RestartCfg) (past : list Tick) (wp : WorkerProc) : Prop :=
  forall r, wp_restart_at wp = Some r -> exists t0, t0 ∈ past /\ is_Some (tk_poll t0) /\
    r = tk_now t0 + backoff_delay cfg (wp_restarts wp + 1).

(** A child that was found dead stays dead: [poll()] keeps returning its code
    until it is replaced. *)
Fixpoint stays_dead (cfg : RestartCfg) (wp : WorkerProc) (ticks : list Tick) : Prop :=
  match ticks with
  | [] => True
  | t :: rest => (wp_died_reported wp = true -> is_Some (tk_poll t)) /\
                 stays_dead cfg (tick_worker cfg t wp).1 rest
  end.

(** What a restart in the log guarantees. *)
Definition restart_due (cfg : RestartCfg) (past : list Tick) (entry : Z * SupEvent) : Prop :=
  forall a d, entry.2 = WorkerRestarted a d ->
  1 <= a <= rs_max_attempts cfg /\ d = backoff_delay cfg a /\
  exists t0, t0 ∈ past /\ is_Some (tk_poll t0) /\ tk_now t0 + d <= entry.1.

Definition restart_ok (cfg : RestartCfg) (past : list Tick) (wp : WorkerProc) : Prop :=
  scheduled cfg past wp /\ 0 <= wp_restarts wp <= rs_max_attempts cfg /\
  (wp_died_reported wp = false -> wp_restart_at wp = None).

Lemma scheduled_more (cfg : RestartCfg) (past : list Tick) (t : Tick) (wp : WorkerProc) :
  scheduled cfg past wp -> scheduled cfg (past ++ [t]) wp.
Proof.
  intros H r Hr. destruct (H r Hr) as (t0 & Hin & Hrest). exists t0. split; [|done].
  apply elem_of_app. by left.
Qed.

Lemma tick_due (cfg : RestartCfg) (past : list Tick) (t : Tick) (wp : WorkerProc) :
  restart_ok cfg past wp -> (wp_died_reported wp = true -> is_Some (tk_poll t)) ->
  let '(wp', evs) := tick_worker cfg t wp in
  restart_ok cfg (past ++ [t]) wp' /\
  Forall (restart_due cfg (past ++ [t])) (pair (tk_now t) <$> evs).
Proof.
  intros (Hsch & Hr & Hal) Hdead. pose proof (scheduled_more cfg past t wp Hsch) as Hsch'.
  unfold tick_worker. destruct (wp_exhausted wp); [by split|].
  destruct (tk_poll t) as [rc|] eqn:Ep.
  2: { destruct (wp_died_reported wp) eqn:Ed; [by destruct Hdead|]. specialize (Hal eq_refl).
       destruct (_ && _); (split; [|constructor]); split_and!; simpl; try lia; try done.
       intros r Hr'. simpl in Hr'. congruence. }
  unfold handle_dead_worker. set (died := if wp_died_reported wp then [] else _).
  assert (Hdied : Forall (restart_due cfg (past ++ [t])) (pair (tk_now t) <$> died)).
  { unfold died. destruct (wp_died_reported wp); [constructor|]. by repeat constructor. }
  destruct (Z.leb_spec (rs_max_attempts cfg) (wp_restarts wp)).
  { split; [split_and!; try done; simpl; lia|]. rewrite fmap_app. apply Forall_app. split; [done|].
    by repeat constructor. }
  set (ra := default _ (wp_restart_at wp)).
  assert (Hra : exists t0, t0 ∈ past ++ [t] /\ is_Some (tk_poll t0) /\
            ra = tk_now t0 + backoff_delay cfg (wp_restarts wp + 1)).
  { unfold ra. destruct (wp_restart_at wp) as [r|] eqn:Er; simpl; [by apply Hsch'|].
    exists t. rewrite Ep. split_and!; try done. apply elem_of_app. right. left. }
  cbv zeta. destruct (Z.ltb_spec (tk_now t) ra).
  { split; [|done]. split_and!; simpl; try lia; try done. intros r Hr'. simpl in Hr'.
    injection Hr' as <-. exact Hra. }
  unfold respawn. destruct (tk_spawn t) as [st|].
  - split; [split_and!; simpl; try lia; done|]. rewrite fmap_app. apply Forall_app. split; [done|].
    apply Forall_cons. split; [|constructor]. intros a d [= <- <-]. split_and!; [lia|lia|done|].
    destruct Hra as (t0 & Hin & Hp & Heq). exists t0. split_and!; try done. simpl. lia.
  - split; [split_and!; simpl; try lia; done|]. by rewrite app_nil_r.
Qed.

Lemma run_due (cfg : RestartCfg) (ticks past : list Tick) (wp : WorkerProc) :
  restart_ok cfg past wp -> stays_dead cfg wp ticks ->
  Forall (restart_due cfg (past ++ ticks)) (run_ticks cfg wp ticks).2.
Proof.
  revert past wp. induction ticks as [|t ticks IH]; intros past wp Hok Hd; simpl; [constructor|].
  destruct Hd as [Hd Hrest]. pose proof (tick_due cfg past t wp Hok Hd) as Ht.
  destruct (tick_worker cfg t wp) as [wp1 evs]. destruct Ht as [Hok1 Hev].
  specialize (IH (past ++ [t]) wp1 Hok1 Hrest). rewrite <- app_assoc in IH.
  destruct (run_ticks cfg wp1 ticks) as [wp2 log]. simpl in *. apply Forall_app. split; [|done].
  eapply Forall_impl; [exact Hev|]. intros e He a d Hed.
  destruct (He a d Hed) as (H1 & H2 & t0 & Hin & Hp & Hle). split_and!; try done; try lia.
  exists t0. split; [|done]. apply elem_of_app in Hin as [Hin|Hin]; apply elem_of_app; [by left|right].
  apply list_elem_of_singleton in Hin as ->. left.
Qed.


Module RestartExample.
Definition cfg : RestartCfg := mkRestartCfg 1 60 60 8.
Definition ticks : list Tick :=
  [mkTick 1 None None; mkTick 2 (Some 1) None; mkTick 3 (Some 1) (Some 3); mkTick 4 (Some 1) None;
   mkTick 5 (Some 1) None; mkTick 6 (Some 1) (Some 6); mkTick 70 None None; mkTick 71 (Some 1) None].
End RestartExample.


(** ** The health of the persistence loop *)

Definition PERSIST_FAILURE_WINDOW : nat := 20.
Definition PERSIST_FAILURE_ALERT_THRESHOLD : Z := 10.
Definition PERSIST_ALERT_COOLDOWN_S : Z := 300.

Record DrainHealth := mkDrain {
  dh_outcomes : list bool;          (** [True] is a failure; newest last *)
  dh_last_alert_at : option Z;
}.
Definition drain_init : DrainHealth := mkDrain [] None.

(** [deque(maxlen=N).append]. *)
Definition push_last (n : nat) (l : list bool) (x : bool) : list bool :=
  drop (length l + 1 - n) (l ++ [x]).
Definition count_true (l : list bool) : Z := Z.of_nat (length (List.filter Datatypes.id l)).

(** One event of [_drain]: whether it failed to persist, and when; the report
    is [(failures, window)]. *)
Definition drain_step (now : Z) (failed : bool) (h : DrainHealth) : DrainHealth * option (Z * Z) :=
  let outcomes := push_last PERSIST_FAILURE_WINDOW (dh_outcomes h) failed in
  if failed then
    let cooled := match dh_last_alert_at h with
                  | None => true
                  | Some t => PERSIST_ALERT_COOLDOWN_S <=? now - t
                  end in
    if (PERSIST_FAILURE_ALERT_THRESHOLD <=? count_true outcomes) && cooled
    then (mkDrain [] (Some now), Some (count_true outcomes, Z.of_nat (length outcomes)))
    else (mkDrain outcomes (dh_last_alert_at h), None)
  else (mkDrain outcomes (dh_last_alert_at h), None).

(** A run: for each report its time, the failures it names, and how many
    events failed since the previous report. *)
Fixpoint run_drain (h : DrainHealth) (since : Z) (evs : list (Z * bool)) : list (Z * Z * Z) :=
  match evs with
  | [] => []
  | (now, failed) :: rest =>
      let since' := since + (if failed then 1 else 0) in
      match drain_step now failed h with
      | (h', Some (n, _)) => (now, n, since') :: run_drain h' 0 rest
      | (h', None) => run_drain h' since' rest
      end
  end.

Lemma count_true_push (l : list bool) (x : bool) :
  count_true (push_last PERSIST_FAILURE_WINDOW l x) <= count_true l + (if x then 1 else 0).
Proof.
  assert (Hd : forall k (m : list bool), count_true (drop k m) <= count_true m).
  { intros k m. unfold count_true. rewrite <- (take_drop k m) at 2. rewrite List.filter_app, length_app. lia. }
  unfold push_last. etrans; [apply Hd|]. unfold count_true. rewrite List.filter_app, length_app.
  destruct x; simpl; lia.
Qed.

Lemma run_drain_spec (evs : list (Z * bool)) (h : DrainHealth) (since last : Z) :
  count_true (dh_outcomes h) <= since ->
  (forall t, dh_last_alert_at h = Some t -> t = last) ->
  let fires := run_drain h since evs in
  Forall (fun f => PERSIST_FAILURE_ALERT_THRESHOLD <= f.1.2 <= f.2) fires /\
  (dh_last_alert_at h = Some last ->
   HdRel (fun (_ b : Z * Z * Z) => last + PERSIST_ALERT_COOLDOWN_S <= b.1.1) (0, 0, 0) fires) /\
  Sorted (fun a b => a.1.1 + PERSIST_ALERT_COOLDOWN_S <= b.1.1) fires.
Proof.
  revert h since last. induction evs as [|[now failed] evs IH]; intros h since last Hc Hl; simpl.
  { split_and!; constructor. }
  pose proof (count_true_push (dh_outcomes h) failed) as Hp. unfold drain_step.
  set (w := push_last _ _ failed) in *. destruct failed.
  2: { destruct (IH (mkDrain w (dh_last_alert_at h)) (since + 0) last) as (H1 & H2 & H3); [simpl; lia|done|].
       by split_and!. }
  destruct ((PERSIST_FAILURE_ALERT_THRESHOLD <=? count_true w) && _) eqn:E.
  2: { destruct (IH (mkDrain w (dh_last_alert_at h)) (since + 1) last) as (H1 & H2 & H3); [simpl; lia|done|].
       by split_and!. }
  apply andb_prop in E as [E1%Z.leb_le E2].
  destruct (IH (mkDrain [] (Some now)) 0 now) as (H1 & H2 & H3);
    [unfold count_true; simpl; lia | by intros t [= ->] |].
  split_and!.
  - constructor; [simpl; lia|done].
  - intros Ha. rewrite Ha in E2. apply Z.leb_le in E2. constructor. simpl. lia.
  - constructor; [done|]. specialize (H2 eq_refl). inversion H2; subst; by constructor.
Qed.

(** Reports of a persistence outage: each one names at least ten failed
    events, all of which failed after the previous report (so a report cannot
    be sustained by the failure to store itself), and two reports are at least
    the cooldown apart, whatever the events and the clock do. *)
Theorem persistence_reports_bounded (evs : list (Z * bool)) :
  let fires := run_drain drain_init 0 evs in
  Forall (fun '(_, named, since) => 10 <= named <= since) fires /\
  Sorted (fun '(t1, _, _) '(t2, _, _) => t1 + 300 <= t2) fires.
Proof.
  destruct (run_drain_spec evs drain_init 0 0) as (H1 & _ & H2); [done|done|]. split.
  - eapply Forall_impl; [exact H1|]. by intros [[t n] s].
  - clear H1. induction H2 as [|a l Hs IH Hd]; constructor; [done|].
    destruct Hd as [|b l Hb]; constructor. by destruct a as [[? ?] ?], b as [[? ?] ?].
Qed.

(** ** The audit tick *)

(** [newest_anchor]. *)
Definition newest_anchor (so : pyval -> string) (events : list EventRow) : option (Z * string) :=
  r ← newest events;
  raw ← (match dict_get "raw" (row_payload r) with
         | PDict d => Some d | v => if truthy v then None else Some [] end);
  seq ← dict_lookup "seq" raw;
  n ← int_of seq;
  h ← dict_lookup "row_hash" raw;
  Some (n, py_str so h).

Inductive AuditTickEvent :=
| AuditChainBroken (v : AuditVerification)
| AuditHead (seq : Z) (row_hash : string).

(** [_audit_tick]: verify against the newest anchor, then anchor the head. *)
Definition audit_tick (sha256 : string -> string) (float_repr : Q -> string) (so : pyval -> string)
    (table : list AuditRow) (events : list EventRow) : list AuditTickEvent :=
  let v := verify_audit_chain sha256 float_repr table (newest_anchor so events) in
  if negb (av_ok v) then [AuditChainBroken v]
  else match head_row table with
       | Some r => [AuditHead (au_seq r) (au_row_hash r)]
       | None => []
       end.

(** The row the event store keeps for an [AuditHead] event. *)
Definition is_head_event (r : EventRow) (n : Z) (h : string) : Prop :=
  row_module r = "supervisor"%string /\ row_action r = "audit_head"%string /\
  dict_get "raw" (row_payload r) = PDict [("seq"%string, PInt n); ("row_hash"%string, PStr h)].

Lemma newest_anchor_reads (so : pyval -> string) (events : list EventRow) (r : EventRow) (n : Z)
    (h : string) :
  newest events = Some r -> is_head_event r n h -> newest_anchor so events = Some (n, h).
Proof. intros Hn (_ & _ & Hraw). unfold newest_anchor. rewrite Hn. simpl. by rewrite Hraw. Qed.

(** A chain is a chain up to any of its rows. *)
Lemma chain_take (sha256 : string -> string) (float_repr : Q -> string) (rows : list AuditRow)
    (k : nat) (h : string) (s : Z) :
  chain sha256 float_repr h s rows -> chain sha256 float_repr h s (take k rows).
Proof.
  revert k h s. induction rows as [|r rows IH]; intros k h s; [by rewrite take_nil|].
  destruct k as [|k]; [done|]. simpl. intros (H1 & H2 & H3 & H4). split_and!; try done. by apply IH.
Qed.

Lemma tick_not_broken (sha256 : string -> string) (float_repr : Q -> string) (so : pyval -> string)
    (table : list AuditRow) (events : list EventRow) :
  (exists v, audit_tick sha256 float_repr so table events = [AuditChainBroken v]) \/
  av_ok (verify_audit_chain sha256 float_repr table (newest_anchor so events)) = true.
Proof. unfold audit_tick. destruct (av_ok _); [by right|]. left. by eexists. Qed.

(** C16. Tampering with the audit log is found by the next tick. Let a tick
    have anchored the head [(n, h)] of the log the daemon wrote. If a later tick
    sees that anchor as the newest [audit_head] event, then either it reports
    the chain broken, or the first [n] rows it reads are the ones that were
    anchored, or the hash covers two different row texts with one digest. In
    particular rows cannot be cut off the end or rewritten unnoticed. *)
Theorem audit_tick_detects (sha256 : string -> string) (float_repr : Q -> string)
    (float_parse : string -> Q) (str_time : Z -> string) (so : pyval -> string)
    (cs : list AuditCall) (events0 events : list EventRow) (B : list AuditRow) (a : EventRow)
    (n : Z) (h : string) :
  let A := (run_calls sha256 float_repr str_time module_init [] cs).2.2 in
  AuditHead n h ∈ audit_tick sha256 float_repr so A events0 ->
  newest events = Some a -> is_head_event a n h ->
  Forall (fun r => dt_ok (au_ts r) = true) A -> Forall (fun r => dt_ok (au_ts r) = true) B ->
  (exists v, audit_tick sha256 float_repr so B events = [AuditChainBroken v]) \/
  take (Z.to_nat n) A = take (Z.to_nat n) (merge_sort seq_le B) \/
  exists x y, x ∈ A /\ y ∈ B /\ text_of float_repr x <> text_of float_repr y /\
    sha256 (text_of float_repr x) = sha256 (text_of float_repr y).
Proof.
  intros A Hhead Hnew Hev HdA HdB.
  destruct (tick_not_broken sha256 float_repr so B events) as [|Hok]; [by left|right].
  rewrite (newest_anchor_reads so events a n h Hnew Hev) in Hok.
  apply verify_ok_chain in Hok as [HB (b & Hfb & Hh)].
  pose proof (run_calls_chain sha256 float_repr str_time cs module_init [] I) as HA.
  unfold A in *. destruct (run_calls sha256 float_repr str_time module_init [] cs) as [os [m rows]].
  destruct HA as (HA & _). cbn [fst snd] in *.
  unfold audit_tick in Hhead. destruct (av_ok _); [|by apply list_elem_of_singleton in Hhead].
  cbn [negb] in Hhead. rewrite (chain_head _ _ _ _ _ HA) in Hhead.
  destruct (last rows) as [r|] eqn:El; [|by apply not_elem_of_nil in Hhead].
  apply list_elem_of_singleton in Hhead. injection Hhead as -> ->.
  pose proof (chain_last_seq _ _ _ _ _ _ HA El) as Hseq. rewrite last_lookup in El.
  destruct (chain_find _ _ _ _ _ HB Hfb) as [Hn Hb].
  assert (Hlen : (0 < length rows)%nat) by (apply lookup_lt_Some in El; lia).
  replace (Nat.pred (length rows)) with (Z.to_nat (au_seq r - 1)) in El by lia.
  replace (Z.to_nat (au_seq r)) with (S (Z.to_nat (au_seq r - 1))) by lia.
  rewrite <- (merge_sort_Permutation seq_le B) in HdB.
  destruct (chain_prefix sha256 float_repr float_parse _ _ _ r b HA HB HdA HdB El Hb (eq_sym Hh))
    as [|(x & y & Hx & Hy & Hc)]; [by left|].
  right. rewrite merge_sort_Permutation in Hy. by exists x, y.
Qed.

Module TickExample.
Definition head_event : EventRow :=
  mkRow "e9" 77 "event" "supervisor" "audit_head" "info"
    [("raw"%string, PDict [("seq"%string, PInt 2); ("row_hash"%string, PStr AuditExample.h2)])] 0.
Definition truncated : list AuditRow := take 1 AuditExample.log2.
Definition so (_ : pyval) : string := EmptyString.
End TickExample.

(** Cutting the last row off is reported. *)
Lemma audit_tick_detects_witness :
  (exists v, audit_tick (fun s => s) (fun _ => EmptyString) TickExample.so TickExample.truncated
          [TickExample.head_event] = [AuditChainBroken v]) \/
  take 2 AuditExample.log2 = take 2 (merge_sort seq_le TickExample.truncated) \/
  exists x y, x ∈ AuditExample.log2 /\ y ∈ TickExample.truncated /\
    text_of (fun _ => EmptyString) x <> text_of (fun _ => EmptyString) y /\
    text_of (fun _ => EmptyString) x = text_of (fun _ => EmptyString) y.
Proof.
  apply (audit_tick_detects (fun s => s) (fun _ => EmptyString) (fun _ => 0%Q) str_of_Z
           TickExample.so AuditExample.calls [] [TickExample.head_event] TickExample.truncated
           TickExample.head_event 2 AuditExample.h2).
  - vm_compute. left.
  - vm_compute. reflexivity.
  - by split.
  - by repeat constructor.
  - by repeat constructor.
Defined.

(** The anchor protects the log only as long as the event table is
    intact: whoever can also remove the [audit_head] events from that table
    can cut any number of rows off the end of the log, and the tick reports
    nothing. The tick reads the anchor back from the database, not from the
    journal. *)
Theorem truncation_with_events_undetected (sha256 : string -> string) (float_repr : Q -> string)
    (str_time : Z -> string) (so : pyval -> string) (cs : list AuditCall) (events : list EventRow)
    (k : nat) (v : AuditVerification) :
  let A := (run_calls sha256 float_repr str_time module_init [] cs).2.2 in
  ~ AuditChainBroken v ∈
    audit_tick sha256 float_repr so (take k A) (List.filter (fun r => negb (is_anchor r)) events).
Proof.
  intros A. pose proof (run_calls_chain sha256 float_repr str_time cs module_init [] I) as HA.
  unfold A. destruct (run_calls sha256 float_repr str_time module_init [] cs) as [os [m rows]].
  destruct HA as (HA & _). cbn [fst snd]. apply (chain_take sha256 float_repr rows k) in HA.
  set (events' := List.filter _ events).
  assert (Hn : newest events' = None).
  { pose proof (newest_spec events') as H. destruct (newest events') as [a|]; [|done].
    destruct H as (Hin & Ha & _). apply list_elem_of_In, List.filter_In in Hin as [_ Hin].
    by rewrite Ha in Hin. }
  unfold audit_tick, newest_anchor. rewrite Hn. simpl. unfold verify_audit_chain.
  rewrite (chain_sorted _ _ _ _ _ HA). apply (walk_None _ _ _ None) in HA. rewrite HA. simpl.
  destruct (head_row _); [by intros ?%list_elem_of_singleton | apply not_elem_of_nil].
Qed.
