(* ===== verification/AuditIpc.v ===== *)
(** * Reading the audit log over IPC ([inspectord/audit/ipc_handlers.py])

    The two read-only handlers over the log of [AuditLog.v] and the anchor of
    [Supervisor.v]. *)

From S2P Require Import Prelude Schemas Json Journal AuditLog Alerts HuntSql Supervisor.

Definition AUDIT_MAX_LIMIT : Z := 500.

(** [datetime.isoformat()]: no fraction when the microseconds are zero. *)
Definition isoformat (t : DateTime) : string :=
  if dt_micro t =? 0 then str_take 19 (canon_ts t) else canon_ts t.

(** The limit a listing uses. *)
Definition audit_limit (params : dict) : Z :=
  let limit := match int_of (default (PInt 100) (dict_lookup "limit" params)) with
               | Some z => z | None => 100 end in
  Z.max 1 (Z.min AUDIT_MAX_LIMIT limit).

Definition listed_audit_row (float_parse : string -> Q) (r : AuditRow) : pyval :=
  PDict [("seq", PInt (au_seq r)); ("ts", PStr (isoformat (au_ts r)));
         ("actor", PStr (au_actor r)); ("action", PStr (au_action r));
         ("target", opt_str (au_target r));
         ("details", default PNone (json_loads float_parse (au_details_json r)))]%string.

(** [ORDER BY seq DESC LIMIT ?]. *)
Definition newest_rows (table : list AuditRow) (limit : Z) : list AuditRow :=
  take (Z.to_nat limit) (rev (merge_sort seq_le table)).

Definition handle_list_audit_log (float_parse : string -> Q) (table : list AuditRow) (params : dict)
  : pyval :=
  PDict [("schema_version", PStr "1.0.0"); ("ok", PBool true);
         ("rows", PList (listed_audit_row float_parse <$> newest_rows table (audit_limit params)))]%string.

(** [_row_brief] and [AuditVerification.as_dict]. *)
Definition row_brief (r : AuditRow) : pyval :=
  PDict [("seq", PInt (au_seq r)); ("ts", PStr (canon_ts (au_ts r)));
         ("action", PStr (au_action r))]%string.
Definition verification_dict (v : AuditVerification) : pyval :=
  let brief o := match o with Some r => row_brief r | None => PNone end in
  PDict [("ok", PBool (av_ok v)); ("rows", PInt (Z.of_nat (av_rows v)));
         ("first_bad_seq", match av_first_bad_seq v with Some z => PInt z | None => PNone end);
         ("reason", opt_str (av_reason v)); ("anchor_checked", PBool (av_anchor_checked v));
         ("last_good", brief (av_last_good v)); ("first_bad", brief (av_first_bad v))]%string.

Definition handle_verify_audit_log (sha256 : string -> string) (float_repr : Q -> string)
    (so : pyval -> string) (table : list AuditRow) (events : list EventRow) : pyval :=
  PDict [("schema_version", PStr "1.0.0"); ("ok", PBool true);
         ("verification", verification_dict
            (verify_audit_chain sha256 float_repr table (newest_anchor so events)))]%string.

(** ** What a listing shows *)

Lemma audit_limit_bounds (params : dict) : 1 <= audit_limit params <= AUDIT_MAX_LIMIT.
Proof. unfold audit_limit, AUDIT_MAX_LIMIT. lia. Qed.

Lemma newest_rows_chain (sha256 : string -> string) (float_repr : Q -> string)
    (rows : list AuditRow) (limit : Z) :
  chain sha256 float_repr ZERO_HASH 1 rows ->
  newest_rows rows limit = take (Z.to_nat limit) (rev rows).
Proof. intros Hc. unfold newest_rows. by rewrite (chain_sorted _ _ _ _ _ Hc). Qed.

(** What an append records is what the next listing shows first: for a log
    built by appends, a successful append with details [d] makes the first
    listed row carry the returned number, the actor, the action and [d] itself,
    and the rows after it are those a listing of one row less showed before. *)
Theorem appended_row_listed (sha256 : string -> string) (float_repr : Q -> string)
    (float_parse : string -> Q) (str_time : Z -> string) (cs : list AuditCall) (c : AuditCall)
    (params : dict) (n : Z) :
  let rows := (run_calls sha256 float_repr str_time module_init [] cs).2.2 in
  let o := call sha256 float_repr str_time module_init rows c in
  ap_seq o = Some n ->
  json_wf float_repr float_parse (default_str str_time (PDict (ac_details c))) ->
  exists r, newest_rows (ap_rows o) (audit_limit params)
            = r :: newest_rows rows (audit_limit params - 1) /\
    au_seq r = n /\ n = Z.of_nat (length rows) + 1 /\
    au_actor r = ac_actor c /\ au_action r = ac_action c /\ au_target r = ac_target c /\
    json_loads float_parse (au_details_json r)
      = Some (sort_keys (default_str str_time (PDict (ac_details c)))).
Proof.
  intros rows o Hn Hw.
  assert (Hc : chain sha256 float_repr ZERO_HASH 1 rows).
  { pose proof (run_calls_chain sha256 float_repr str_time cs module_init [] I) as H.
    unfold rows. destruct (run_calls _ _ _ _ _ cs) as [os [m rs]]. apply H. }
  destruct (call_chain sha256 float_repr str_time module_init rows c Hc) as (Hc' & Hcase).
  fold o in Hc', Hcase.
  destruct Hcase as [(Hs & _ & r & Hr & Ha & Hact & Ht & _)|[Hs _]]; [|by rewrite Hs in Hn].
  exists r. split_and!; [| |congruence|done..|].
  - erewrite newest_rows_chain by exact Hc'. erewrite newest_rows_chain by exact Hc.
    rewrite Hr, rev_unit. pose proof (audit_limit_bounds params).
    by replace (Z.to_nat (audit_limit params)) with (S (Z.to_nat (audit_limit params - 1))) by lia.
  - rewrite Hr in Hc'. rewrite (chain_last_seq _ _ _ _ _ _ Hc' (last_snoc r rows)), length_app.
    rewrite Hs in Hn. injection Hn as <-. simpl. lia.
  - revert Hr Hn. unfold o, call, append_audit.
    destruct (json_dumps float_repr _) as [t|] eqn:Et; [|by destruct (record_failure _ _)].
    destruct (ac_db_error c); [by destruct (record_failure _ _)|]. cbn.
    intros [_ <-]%app_inj_tail _. exact (json_loads_dumps float_repr float_parse _ _ Hw Et).
Qed.

(** The verify handler answers with the chain check against the anchor: it
    reports [ok] exactly when the log verifies, and the rows it counted. *)
Example verify_reports_broken :
  handle_verify_audit_log (fun s => s) (fun _ => EmptyString) (fun _ => EmptyString)
    (drop 1 AuditExample.log2) []
  = PDict [("schema_version", PStr "1.0.0"); ("ok", PBool true);
           ("verification",
            PDict [("ok", PBool false); ("rows", PInt 1); ("first_bad_seq", PInt 2);
                   ("reason", PStr "seq_gap"); ("anchor_checked", PBool false); ("last_good", PNone);
                   ("first_bad", PDict [("seq", PInt 2); ("ts", PStr "2026-08-25T12:00:00.000000");
                                        ("action", PStr "restore")])])]%string.
Proof. vm_compute. reflexivity. Qed.
