(* ===== verification/HuntStore.v ===== *)
(** * Saved hunts and their handlers ([inspectord/hunt/store.py],
      [hunt/ipc_handlers.py])

    The [hunt_query] table (a list of rows), the operations of the store, and
    the handlers at the socket with their shared rate limiter and audit calls.
    Times are microseconds. [re.compile], [datetime.fromisoformat] and SHA-256
    are parameters; the wording of error messages is not modelled, their kind
    is. *)

From S2P Require Import Prelude Schemas Expr RuleEval HuntCompiler HuntSql RateLimit Ipc Alerts.

(** ** Rows *)

Record HuntQuery := mkHunt {
  hq_name : string;
  hq_expression : string;
  hq_description : option string;
  hq_created_at : Z;
  hq_updated_at : Z;
  hq_interval_s : option Z;
  hq_severity : option string;
  hq_watermark : option Z;
  hq_last_run_at : option Z;
  hq_last_status : option string;
}.

Record ScheduledQuery := mkScheduled {
  sq_name : string;
  sq_expression : string;
  sq_interval_s : Z;
  sq_severity : string;
  sq_watermark : option Z;
  sq_last_run_at : option Z;
  sq_last_status : option string;
}.

Record SaveOutcome := mkSaved {
  so_name : string;
  so_expression : string;
  so_created_at : Z;
  so_updated_at : Z;
  so_replaced : bool;
  so_previous : option string;
}.

Definition MAX_NAME_CHARS : Z := 64.
Definition MAX_EXPRESSION_CHARS : Z := 4096.
Definition MAX_DESCRIPTION_CHARS : Z := 512.
Definition SCHEDULE_MIN_INTERVAL_S : Z := 300.
Definition SCHEDULE_SEVERITIES : list string := ["low"; "medium"; "high"]%string.

(** The largest value of the INTEGER column of migration 0013. *)
Definition INT32_MAX : Z := 2 ^ 31 - 1.

(** A rejection, or an exception of the database driver. *)
Inductive StoreError := SHunt (e : HuntError) | SDuckDB.

(** ** Validation *)

Definition slen (s : string) : Z := Z.of_nat (String.length s).

Definition name_start (c : ascii) : bool := is_alpha_ascii c || is_digit c.
Definition name_char (c : ascii) : bool :=
  name_start c || bool_decide (c ∈ ["."; "_"; "-"]%char).

(** [_NAME_RE.match]; [$] also matches before a final newline. *)
Definition name_matches (name : string) : bool :=
  match chomp name with
  | String c r => name_start c && str_forall name_char r && (slen r <=? 63)
  | EmptyString => false
  end.

Definition validate_name (name : string) : result HuntError string :=
  if String.eqb name EmptyString then Err HuntNameError
  else if MAX_NAME_CHARS <? slen name then Err HuntNameError
  else if negb (name_matches name) then Err HuntNameError
  else Ok name.

Definition check_expression_length (expression : string) : result HuntError string :=
  if MAX_EXPRESSION_CHARS <? slen expression then Err HuntBoundsError else Ok expression.

Definition check_description (description : option string) : result HuntError (option string) :=
  match description with
  | Some d => if MAX_DESCRIPTION_CHARS <? slen d then Err HuntBoundsError else Ok description
  | None => Ok None
  end.

(** ** The store *)

Definition find_query (rows : list HuntQuery) (name : string) : option HuntQuery :=
  List.find (fun q => String.eqb (hq_name q) name) rows.

Definition get_query (rows : list HuntQuery) (name : string) : result HuntError (option HuntQuery) :=
  _ ← validate_name name; Ok (find_query rows name).

Definition name_le (a b : HuntQuery) : Prop := String.le (hq_name a) (hq_name b).
#[export] Instance name_le_dec a b : Decision (name_le a b).
Proof. unfold name_le. apply _. Defined.

Definition list_queries (rows : list HuntQuery) : list HuntQuery := merge_sort name_le rows.

(** [UPDATE hunt_query SET ... WHERE name = ?]. *)
Definition update_query (name : string) (f : HuntQuery -> HuntQuery) (rows : list HuntQuery)
  : list HuntQuery :=
  (fun q => if String.eqb (hq_name q) name then f q else q) <$> rows.

Definition new_query (name expression : string) (description : option string) (now : Z) : HuntQuery :=
  mkHunt name expression description now now None None None None None.
Definition replace_expression (expression : string) (description : option string) (now : Z)
    (q : HuntQuery) : HuntQuery :=
  mkHunt (hq_name q) expression description (hq_created_at q) now (hq_interval_s q)
    (hq_severity q) (hq_watermark q) (hq_last_run_at q) (hq_last_status q).

Section Store.
Context (re_compiles : string -> bool).

(** The validations of [save_query], all before the first write. *)
Definition save_checks (name expression : string) (description : option string)
  : result HuntError unit :=
  _ ← validate_name name;
  _ ← check_expression_length expression;
  _ ← check_description description;
  _ ← compile_hunt_query re_compiles expression None None None None;
  Ok tt.

Definition save_query (rows : list HuntQuery) (now : Z) (name expression : string)
    (description : option string) (replace : bool)
  : result HuntError SaveOutcome * list HuntQuery :=
  match save_checks name expression description with
  | Err e => (Err e, rows)
  | Ok _ =>
      match get_query rows name with
      | Err e => (Err e, rows)
      | Ok (Some existing) =>
          if negb replace then (Err (HuntQueryExists (hq_expression existing)), rows)
          else
            (Ok (mkSaved name expression (hq_created_at existing) now true
                   (Some (hq_expression existing))),
             update_query name (replace_expression expression description now) rows)
      | Ok None =>
          (Ok (mkSaved name expression now now false None),
           rows ++ [new_query name expression description now])
      end
  end.
End Store.

Definition delete_query (rows : list HuntQuery) (name : string)
  : result HuntError HuntQuery * list HuntQuery :=
  match get_query rows name with
  | Err e => (Err e, rows)
  | Ok None => (Err HuntQueryNotFound, rows)
  | Ok (Some existing) =>
      (Ok existing, List.filter (fun q => negb (String.eqb (hq_name q) name)) rows)
  end.

(** [_to_scheduled]. *)
Definition to_scheduled (q : HuntQuery) : result HuntError ScheduledQuery :=
  match hq_interval_s q, hq_severity q with
  | Some interval, Some severity =>
      Ok (mkScheduled (hq_name q) (hq_expression q) interval severity (hq_watermark q)
            (hq_last_run_at q) (hq_last_status q))
  | _, _ => Err HuntRequestError
  end.

Definition set_schedule (interval : option Z) (severity : option string) (watermark : option Z)
    (q : HuntQuery) : HuntQuery :=
  mkHunt (hq_name q) (hq_expression q) (hq_description q) (hq_created_at q) (hq_updated_at q)
    interval severity watermark (hq_last_run_at q) (hq_last_status q).

(** [COALESCE(a, b)]. *)
Definition coalesce {A} (a b : option A) : option A := match a with Some _ => a | None => b end.

Definition schedule_query (rows : list HuntQuery) (name : string) (interval_s : Z)
    (severity : string) (max_ingest_seq : Z) : result StoreError ScheduledQuery * list HuntQuery :=
  if interval_s <? SCHEDULE_MIN_INTERVAL_S then (Err (SHunt HuntBoundsError), rows)
  else if negb (bool_decide (severity ∈ SCHEDULE_SEVERITIES)) then (Err (SHunt HuntRequestError), rows)
  else
    match get_query rows name with
    | Err e => (Err (SHunt e), rows)
    | Ok None => (Err (SHunt HuntQueryNotFound), rows)
    | Ok (Some _) =>
        if INT32_MAX <? interval_s then (Err SDuckDB, rows)
        else
          let rows' := update_query name (fun q =>
                         set_schedule (Some interval_s) (Some severity)
                           (coalesce (hq_watermark q) (Some max_ingest_seq)) q) rows in
          match find_query rows' name with
          | Some q => (match to_scheduled q with Ok s => Ok s | Err e => Err (SHunt e) end, rows')
          | None => (Err SDuckDB, rows')
          end
    end.

Definition unschedule_query (rows : list HuntQuery) (name : string)
  : result HuntError ScheduledQuery * list HuntQuery :=
  match get_query rows name with
  | Err e => (Err e, rows)
  | Ok None => (Err HuntQueryNotFound, rows)
  | Ok (Some existing) =>
      match to_scheduled existing with
      | Err e => (Err e, rows)
      | Ok prior =>
          (Ok prior, update_query name (fun q => set_schedule None None (hq_watermark q) q) rows)
      end
  end.

Definition SECOND : Z := 1000000.

(** The WHERE clause of [due_queries]. *)
Definition is_due (now : Z) (q : HuntQuery) : bool :=
  match hq_interval_s q with
  | None => false
  | Some interval =>
      match hq_last_run_at q with
      | None => true
      | Some last => last + interval * SECOND <=? now
      end
  end.

Fixpoint all_scheduled (l : list HuntQuery) : result HuntError (list ScheduledQuery) :=
  match l with
  | [] => Ok []
  | q :: rest => s ← to_scheduled q; ss ← all_scheduled rest; Ok (s :: ss)
  end.
Definition due_queries (rows : list HuntQuery) (now : Z) : result HuntError (list ScheduledQuery) :=
  all_scheduled (merge_sort name_le (List.filter (is_due now) rows)).

Definition stamp_run (watermark : option Z) (status : string) (now : Z) (q : HuntQuery) : HuntQuery :=
  mkHunt (hq_name q) (hq_expression q) (hq_description q) (hq_created_at q) (hq_updated_at q)
    (hq_interval_s q) (hq_severity q) (coalesce watermark (hq_watermark q)) (Some now) (Some status).

(** The WHERE clause of [record_run]. *)
Definition run_hits (name : string) (q : HuntQuery) : bool :=
  String.eqb (hq_name q) name && is_some (hq_interval_s q).
Definition record_run (rows : list HuntQuery) (name : string) (watermark : option Z)
    (status : string) (now : Z) : bool * list HuntQuery :=
  (existsb (run_hits name) rows,
   (fun q => if run_hits name q then stamp_run watermark status now q else q) <$> rows).

(** ** The handlers *)

Definition MUTATION_RATE_LIMIT_PER_MIN : Z := 12.
Definition NAME_AUDIT_MAX_CHARS : nat := 64.
Definition DEFAULT_WINDOW : Z := 7 * 86400 * SECOND.

(** [_ERROR_KINDS]. *)
Definition hunt_error_kind (e : HuntError) : string :=
  match e with
  | HuntSyntaxError _ => "syntax"
  | HuntPathError _ => "path"
  | HuntUnsupportedError _ => "unsupported"
  | HuntBoundsError => "bounds"
  | HuntExecutionError => "execution"
  | HuntNameError => "name"
  | HuntQueryExists _ => "exists"
  | HuntQueryNotFound => "not_found"
  | HuntRequestError => "request"
  | HuntScheduledError => "scheduled"
  end.

(** What a handler answers: its payload, a failure with its [error_kind], or an
    exception that escapes it. *)
Inductive HuntReply (A : Type) :=
| HROk (a : A)
| HRFailed (kind : string)
| HRRaised.
Arguments HROk {A} a.
Arguments HRFailed {A} kind.
Arguments HRRaised {A}.

Definition failure {A} (e : HuntError) : HuntReply A := HRFailed (hunt_error_kind e).
Definition reply_ok {A} (r : HuntReply A) : bool := match r with HROk _ => true | _ => false end.

(** One audit call: action, target, details. *)
Definition AuditCall : Type := string * string * dict.

Record HuntSrv := mkHuntSrv {
  hs_rows : list HuntQuery;
  hs_limiter : option Limiter;
  hs_audit : list AuditCall;
}.
Definition hs_set (s : HuntSrv) (rows : list HuntQuery) (audit : list AuditCall) : HuntSrv :=
  mkHuntSrv rows (hs_limiter s) (hs_audit s ++ audit).

Definition required_str (params : dict) (key : string) : result HuntError string :=
  match dict_get key params with
  | PStr EmptyString => Err HuntRequestError
  | PStr s => Ok s
  | _ => Err HuntRequestError
  end.
Definition optional_str (params : dict) (key : string) : result HuntError (option string) :=
  match dict_get key params with
  | PNone => Ok None
  | PStr s => Ok (Some s)
  | _ => Err HuntRequestError
  end.

Definition opt_int (z : option Z) : pyval := match z with Some z => PInt z | None => PNone end.
Definition is_scheduled (q : option HuntQuery) : bool :=
  match q with Some q => is_some (hq_interval_s q) | None => false end.
(** [params.get("scheduled_ok") is not True], negated. *)
Definition scheduled_ok (params : dict) : bool :=
  match dict_get "scheduled_ok" params with PBool b => b | _ => false end.

(** [COALESCE(MAX(ingest_seq), 0)]. *)
Definition max_ingest (t : EventTable) : option Z :=
  foldr (fun r m => Some (match m with Some m => Z.max (row_ingest_seq r) m | None => row_ingest_seq r end))
    None (tbl_rows t).

Section Handlers.
Context (re_compiles : string -> bool) (sha256 : string -> string)
        (str_other : pyval -> string) (fromisoformat : string -> option Z).

(** [_rate_limited]: the rejection, if any, and the state after it. *)
Definition rate_limited (mono : Z) (params : dict) (s : HuntSrv) : bool * HuntSrv :=
  match hs_limiter s with
  | None => (false, s)
  | Some l =>
      let '((allowed, audit_rejection), l') := check_limit l mono in
      let s1 := mkHuntSrv (hs_rows s) (Some l') (hs_audit s) in
      if allowed then (false, s1)
      else
        let name := str_take NAME_AUDIT_MAX_CHARS
                      (py_str str_other (default (PStr EmptyString) (dict_lookup "name" params))) in
        (true, if audit_rejection
               then hs_set s1 (hs_rows s1)
                      [("hunt_mutation_rate_limited"%string, "hunt:" +:+ name,
                        [("reason", PStr "rate_limited")]%string)]
               else s1)
  end.

(** The frame of the mutating handlers: the limiter first. *)
Definition limited {A} (mono : Z) (params : dict) (s : HuntSrv)
    (body : HuntSrv -> HuntReply A * HuntSrv) : HuntReply A * HuntSrv :=
  let '(rejected, s1) := rate_limited mono params s in
  if rejected then (HRFailed "rate_limited", s1) else body s1.

(** [handle_save_hunt_query]. *)
Definition save_target (params : dict) (s : HuntSrv)
  : result HuntError (string * string * option string * bool * bool) :=
  name ← required_str params "name";
  expression ← required_str params "expression";
  description ← optional_str params "description";
  let replace := truthy (default (PBool false) (dict_lookup "replace" params)) in
  existing ← get_query (hs_rows s) name;
  let was_scheduled := is_scheduled existing in
  if was_scheduled && replace && negb (scheduled_ok params) then Err HuntScheduledError
  else Ok (name, expression, description, replace, was_scheduled).

Definition save_details (o : SaveOutcome) (was_scheduled : bool) : dict :=
  [("replaced", PBool (so_replaced o)); ("was_scheduled", PBool was_scheduled);
   ("old_expression_sha256", opt_str (sha256 <$> so_previous o));
   ("new_expression_sha256", PStr (sha256 (so_expression o)))]%string.

Definition handle_save_hunt_query (now mono : Z) (params : dict) (s : HuntSrv)
  : HuntReply SaveOutcome * HuntSrv :=
  limited mono params s (fun s =>
    match save_target params s with
    | Err e => (failure e, s)
    | Ok (name, expression, description, replace, was_scheduled) =>
        match save_query re_compiles (hs_rows s) now name expression description replace with
        | (Err e, rows) => (failure e, hs_set s rows [])
        | (Ok o, rows) =>
            (HROk o, hs_set s rows [("hunt_query_saved"%string, "hunt:" +:+ so_name o,
                                     save_details o was_scheduled)])
        end
    end).

(** [handle_delete_hunt_query]. *)
Definition handle_delete_hunt_query (mono : Z) (params : dict) (s : HuntSrv)
  : HuntReply (string * string * option string) * HuntSrv :=
  limited mono params s (fun s =>
    match name ← required_str params "name";
          existing ← get_query (hs_rows s) name;
          if is_scheduled existing && negb (scheduled_ok params)
          then Err HuntScheduledError else Ok (name, is_scheduled existing) with
    | Err e => (failure e, s)
    | Ok (name, was_scheduled) =>
        match delete_query (hs_rows s) name with
        | (Err e, rows) => (failure e, hs_set s rows [])
        | (Ok d, rows) =>
            (HROk (hq_name d, hq_expression d, hq_description d),
             hs_set s rows
               [("hunt_query_deleted"%string, "hunt:" +:+ hq_name d,
                 [("expression_sha256", PStr (sha256 (hq_expression d)));
                  ("was_scheduled", PBool was_scheduled);
                  ("schedule_interval_s", opt_int (hq_interval_s d))]%string)])
        end
    end).

(** [handle_schedule_hunt_query]. *)
Definition handle_schedule_hunt_query (mono : Z) (t : EventTable) (params : dict) (s : HuntSrv)
  : HuntReply ScheduledQuery * HuntSrv :=
  limited mono params s (fun s =>
    match name ← required_str params "name";
          interval ← (match int_of (dict_get "interval_s" params) with
                      | Some z => Ok z | None => Err HuntRequestError end);
          severity ← optional_str params "severity";
          existing ← get_query (hs_rows s) name;
          Ok (name, interval,
              match severity with Some EmptyString | None => "medium"%string | Some v => v end,
              match existing with Some q => is_some (hq_watermark q) | None => false end) with
    | Err e => (failure e, s)
    | Ok (name, interval, severity, preserved) =>
        match schedule_query (hs_rows s) name interval severity (default 0 (max_ingest t)) with
        | (Err (SHunt e), rows) => (failure e, hs_set s rows [])
        | (Err SDuckDB, rows) => (HRRaised, hs_set s rows [])
        | (Ok q, rows) =>
            (HROk q, hs_set s rows
               [("hunt_query_scheduled"%string, "hunt:" +:+ sq_name q,
                 [("interval_s", PInt (sq_interval_s q)); ("severity", PStr (sq_severity q));
                  ("watermark_preserved", PBool preserved)]%string)])
        end
    end).

(** [handle_unschedule_hunt_query]. *)
Definition handle_unschedule_hunt_query (mono : Z) (params : dict) (s : HuntSrv)
  : HuntReply ScheduledQuery * HuntSrv :=
  limited mono params s (fun s =>
    match required_str params "name" with
    | Err e => (failure e, s)
    | Ok name =>
        match unschedule_query (hs_rows s) name with
        | (Err e, rows) => (failure e, hs_set s rows [])
        | (Ok q, rows) =>
            (HROk q, hs_set s rows
               [("hunt_query_unscheduled"%string, "hunt:" +:+ sq_name q,
                 [("interval_s", PInt (sq_interval_s q)); ("severity", PStr (sq_severity q))]%string)])
        end
    end).

(** The read-only handlers. *)
Definition handle_list_hunt_queries (s : HuntSrv) : list HuntQuery := list_queries (hs_rows s).
Definition handle_get_hunt_query (params : dict) (s : HuntSrv) : HuntReply (option HuntQuery) :=
  match name ← required_str params "name"; get_query (hs_rows s) name with
  | Err e => failure e
  | Ok q => HROk q
  end.

(** [_timestamp] and [_limit]. *)
Definition timestamp (params : dict) (key : string) : result HuntError (option Z) :=
  raw ← optional_str params key;
  match raw with
  | None => Ok None
  | Some raw => match fromisoformat raw with Some t => Ok (Some t) | None => Err HuntBoundsError end
  end.
Definition limit_param (params : dict) : result HuntError (option Z) :=
  match dict_get "limit" params with
  | PNone => Ok None
  | v => match int_of v with Some z => Ok (Some z) | None => Err HuntBoundsError end
  end.

(** [_data_horizon]: MIN(ts). *)
Definition data_horizon (t : EventTable) : option Z :=
  foldr (fun r m => Some (match m with Some m => Z.min (row_ts r) m | None => row_ts r end))
    None (tbl_rows t).

Record RunReply := mkRunReply {
  rr_name : option string;
  rr_expression : string;
  rr_since : Z;
  rr_until : option Z;
  rr_horizon : option Z;
  rr_result : HuntResult;
}.

(** [handle_run_hunt_query]; [db_error] is a failure of the SELECT. *)
Definition handle_run_hunt_query {D : DuckDB} (now : Z) (db_error : bool) (t : EventTable)
    (params : dict) (s : HuntSrv) : HuntReply RunReply :=
  match
    expression ← optional_str params "expression";
    name ← optional_str params "name";
    if is_some expression && is_some name then Err HuntRequestError
    else
      limit ← limit_param params;
      until ← timestamp params "until";
      since ← timestamp params "since";
      let since := default (now - DEFAULT_WINDOW) since in
      text ← (match name, expression with
              | Some n, _ =>
                  saved ← get_query (hs_rows s) n;
                  match saved with
                  | None => Err HuntQueryNotFound
                  | Some q => Ok (hq_expression q)
                  end
              | None, Some e => Ok e
              | None, None => Err HuntRequestError
              end);
      _ ← check_expression_length text;
      compiled ← compile_hunt_query re_compiles text (Some since) until limit None;
      res ← run_hunt_query db_error t compiled;
      Ok (mkRunReply name text since until (data_horizon t) res)
  with
  | Err e => failure e
  | Ok r => HROk r
  end.
End Handlers.

(** ** What the table always holds *)

Section Invariant.
Context (re_compiles : string -> bool) (sha256 : string -> string) (str_other : pyval -> string).

Record query_ok (q : HuntQuery) : Prop := {
  qo_name : validate_name (hq_name q) = Ok (hq_name q);
  qo_size : slen (hq_expression q) <= MAX_EXPRESSION_CHARS;
  qo_compiles : is_ok (compile_hunt_query re_compiles (hq_expression q) None None None None) = true;
  qo_description : forall d, hq_description q = Some d -> slen d <= MAX_DESCRIPTION_CHARS;
  qo_pair : hq_interval_s q = None <-> hq_severity q = None;
  qo_interval : forall i, hq_interval_s q = Some i -> SCHEDULE_MIN_INTERVAL_S <= i <= INT32_MAX;
  qo_severity : forall v, hq_severity q = Some v -> v ∈ SCHEDULE_SEVERITIES;
  qo_watermark : hq_interval_s q <> None -> hq_watermark q <> None;
  qo_status : hq_last_run_at q = None <-> hq_last_status q = None;
}.

Definition query_names (rows : list HuntQuery) : list string := hq_name <$> rows.
Definition store_ok (rows : list HuntQuery) : Prop :=
  NoDup (query_names rows) /\ Forall query_ok rows.

(** The mutating requests. *)
Inductive hunt_req := RSave (now : Z) | RDelete | RSchedule (t : EventTable) | RUnschedule.

Definition answered {A} (r : HuntReply A * HuntSrv) : bool * HuntSrv := (reply_ok r.1, r.2).

Definition serve_hunt (req : hunt_req) (mono : Z) (params : dict) (s : HuntSrv) : bool * HuntSrv :=
  match req with
  | RSave now => answered (handle_save_hunt_query re_compiles sha256 str_other now mono params s)
  | RDelete => answered (handle_delete_hunt_query sha256 str_other mono params s)
  | RSchedule t => answered (handle_schedule_hunt_query str_other mono t params s)
  | RUnschedule => answered (handle_unschedule_hunt_query str_other mono params s)
  end.

Lemma find_query_Some (rows : list HuntQuery) (name : string) (q : HuntQuery) :
  find_query rows name = Some q -> q ∈ rows /\ hq_name q = name.
Proof.
  intros [Hin He%String.eqb_eq]%List.find_some. split; [by apply list_elem_of_In | done].
Qed.

Lemma find_query_None (rows : list HuntQuery) (name : string) :
  find_query rows name = None -> name ∉ query_names rows.
Proof.
  intros Hf (q & -> & Hq)%list_elem_of_fmap.
  eapply List.find_none in Hf; [|by apply list_elem_of_In]. by rewrite String.eqb_refl in Hf.
Qed.

Lemma find_update (rows : list HuntQuery) (name n : string) (f : HuntQuery -> HuntQuery) :
  (forall q, hq_name (f q) = hq_name q) ->
  find_query (update_query name f rows) n =
  (if String.eqb name n then f <$> find_query rows n else find_query rows n).
Proof.
  intros Hf. unfold find_query, update_query.
  induction rows as [|q rows IH]; simpl; [by destruct (String.eqb name n)|].
  destruct (String.eqb_spec (hq_name q) name) as [Hn|Hn]; rewrite ?Hf;
    destruct (String.eqb_spec (hq_name q) n) as [Hm|Hm]; destruct (String.eqb_spec name n); try done;
    congruence.
Qed.

Lemma find_app (rows : list HuntQuery) (q : HuntQuery) (n : string) :
  find_query (rows ++ [q]) n =
  (match find_query rows n with Some r => Some r
   | None => if String.eqb (hq_name q) n then Some q else None end).
Proof.
  unfold find_query. induction rows as [|r rows IH]; simpl; [done|].
  destruct (String.eqb (hq_name r) n); done.
Qed.

Lemma find_filter (rows : list HuntQuery) (name n : string) :
  name <> n ->
  find_query (List.filter (fun q => negb (String.eqb (hq_name q) name)) rows) n = find_query rows n.
Proof.
  intros Hn. unfold find_query. induction rows as [|q rows IH]; simpl; [done|].
  destruct (String.eqb_spec (hq_name q) name) as [He|He]; simpl.
  - destruct (String.eqb_spec (hq_name q) n); [congruence | done].
  - by destruct (String.eqb (hq_name q) n).
Qed.

Lemma store_ok_update (rows : list HuntQuery) (P : HuntQuery -> bool) (f : HuntQuery -> HuntQuery) :
  (forall q, hq_name (f q) = hq_name q) ->
  (forall q, q ∈ rows -> query_ok q -> P q = true -> query_ok (f q)) ->
  store_ok rows -> store_ok ((fun q => if P q then f q else q) <$> rows).
Proof.
  intros Hn Hf [Hnd Hall]. split.
  - unfold query_names in *. rewrite <- list_fmap_compose.
    erewrite (list_fmap_ext _ hq_name); [done|]. intros i q _. simpl. by destruct (P q).
  - apply Forall_fmap, Forall_forall. intros q Hq. simpl.
    rewrite Forall_forall in Hall. destruct (P q) eqn:E; [by apply Hf; auto | by apply Hall].
Qed.

Lemma get_query_Ok (rows : list HuntQuery) (name : string) (o : option HuntQuery) :
  get_query rows name = Ok o -> validate_name name = Ok name /\ o = find_query rows name.
Proof.
  unfold get_query. destruct (validate_name name) as [v|] eqn:E; [|done]. intros [= <-].
  split; [|done]. unfold validate_name in E |- *. by repeat case_match.
Qed.

Lemma save_checks_Ok (name expression : string) (description : option string) u :
  save_checks re_compiles name expression description = Ok u ->
  validate_name name = Ok name /\ slen expression <= MAX_EXPRESSION_CHARS /\
  is_ok (compile_hunt_query re_compiles expression None None None None) = true /\
  (forall d, description = Some d -> slen d <= MAX_DESCRIPTION_CHARS).
Proof.
  unfold save_checks.
  intros (v & Ev & (w & El & (x & Ed & (c & Ec & _)%bind_Ok)%bind_Ok)%bind_Ok)%bind_Ok.
  split_and!; [| |by rewrite Ec|].
  - unfold validate_name in Ev |- *. by repeat case_match.
  - unfold check_expression_length in El. destruct (Z.ltb_spec MAX_EXPRESSION_CHARS (slen expression)); [done|lia].
  - intros d ->. unfold check_description in Ed. destruct (Z.ltb_spec MAX_DESCRIPTION_CHARS (slen d)); [done|lia].
Qed.

(** *** One lemma per operation: what it did to the table *)

Lemma save_query_spec (rows : list HuntQuery) (now : Z) (name expression : string)
    (description : option string) (replace : bool) :
  match save_query re_compiles rows now name expression description replace with
  | (Err _, rows') => rows' = rows
  | (Ok o, rows') =>
      (exists u, save_checks re_compiles name expression description = Ok u) /\ so_name o = name /\
      ((find_query rows name = None /\ rows' = rows ++ [new_query name expression description now]) \/
       (exists q, find_query rows name = Some q /\ replace = true /\
          rows' = update_query name (replace_expression expression description now) rows))
  end.
Proof.
  unfold save_query. destruct (save_checks _ _ _ _) as [u|] eqn:Ec; [|done].
  destruct (get_query rows name) as [o|] eqn:Eg; [|done].
  apply get_query_Ok in Eg as [_ ->].
  destruct (find_query rows name) as [q|]; [destruct replace; simpl; [|done]|].
  - split_and!; [by eauto|done|]. right. by eauto.
  - split_and!; [by eauto|done|]. by left.
Qed.

Lemma delete_query_spec (rows : list HuntQuery) (name : string) :
  match delete_query rows name with
  | (Err _, rows') => rows' = rows
  | (Ok d, rows') => find_query rows name = Some d /\
      rows' = List.filter (fun q => negb (String.eqb (hq_name q) name)) rows
  end.
Proof.
  unfold delete_query. destruct (get_query rows name) as [o|] eqn:Eg; [|done].
  apply get_query_Ok in Eg as [_ ->]. by destruct (find_query rows name).
Qed.

Lemma schedule_query_spec (rows : list HuntQuery) (name : string) (interval : Z)
    (severity : string) (max : Z) :
  match schedule_query rows name interval severity max with
  | (Err _, rows') => rows' = rows
  | (Ok s, rows') => sq_name s = name /\
      SCHEDULE_MIN_INTERVAL_S <= interval <= INT32_MAX /\ severity ∈ SCHEDULE_SEVERITIES /\
      (exists q, find_query rows name = Some q) /\
      rows' = update_query name (fun q => set_schedule (Some interval) (Some severity)
                (coalesce (hq_watermark q) (Some max)) q) rows
  end.
Proof.
  unfold schedule_query. destruct (Z.ltb_spec interval SCHEDULE_MIN_INTERVAL_S); [done|].
  destruct (bool_decide_reflect (severity ∈ SCHEDULE_SEVERITIES)); [|done]. cbn [negb].
  destruct (get_query rows name) as [o|] eqn:Eg; [|done].
  apply get_query_Ok in Eg as [_ ->]. destruct (find_query rows name) as [q|] eqn:Ef; [|done].
  destruct (Z.ltb_spec INT32_MAX interval); [done|].
  rewrite find_update by done. rewrite String.eqb_refl, Ef. simpl.
  apply find_query_Some in Ef as [_ <-]. split_and!; try done. by exists q.
Qed.

Lemma unschedule_query_spec (rows : list HuntQuery) (name : string) :
  match unschedule_query rows name with
  | (Err _, rows') => rows' = rows
  | (Ok s, rows') => sq_name s = name /\ (exists q, find_query rows name = Some q) /\
      rows' = update_query name (fun q => set_schedule None None (hq_watermark q) q) rows
  end.
Proof.
  unfold unschedule_query. destruct (get_query rows name) as [o|] eqn:Eg; [|done].
  apply get_query_Ok in Eg as [_ ->]. destruct (find_query rows name) as [q|] eqn:Ef; [|done].
  destruct (to_scheduled q) as [s|] eqn:Es; [|done].
  apply find_query_Some in Ef as [_ <-]. split_and!; [|by exists q|done].
  unfold to_scheduled in Es. by destruct (hq_interval_s q), (hq_severity q); simplify_eq/=.
Qed.

(** *** They keep the table well formed *)

Lemma save_query_ok (rows : list HuntQuery) (now : Z) (name expression : string)
    (description : option string) (replace : bool) :
  store_ok rows ->
  store_ok (save_query re_compiles rows now name expression description replace).2.
Proof.
  intros Hok. pose proof (save_query_spec rows now name expression description replace) as H.
  destruct (save_query _ _ _ _ _ _ _) as [[o|] rows']; [|by subst].
  destruct H as ((u & (Hn & Hs & Hc & Hd)%save_checks_Ok) & _ & [[Hf ->] | (q & Hf & _ & ->)]).
  - destruct Hok as [Hnd Hall]. apply find_query_None in Hf. split.
    + unfold query_names. simpl. rewrite fmap_app. apply NoDup_app.
      split_and!; [done| |apply NoDup_singleton]. intros x Hx ->%list_elem_of_singleton. done.
    + apply Forall_app. split; [done|]. apply Forall_singleton. by split.
  - apply store_ok_update; [done| |done].
    intros r _ [H1 H2 H3 H4 H5 H6 H7 H8 H9] _. by split.
Qed.

Lemma delete_query_ok (rows : list HuntQuery) (name : string) :
  store_ok rows -> store_ok (delete_query rows name).2.
Proof.
  intros [Hnd Hall]. pose proof (delete_query_spec rows name) as H.
  destruct (delete_query rows name) as [[d|] rows']; [|by subst]. destruct H as [_ ->]. split; simpl.
  - unfold query_names in *. clear Hall. induction rows as [|q rows IH]; [done|]. simpl in *.
    apply NoDup_cons in Hnd as [Hn Hnd]. destruct (negb _); simpl; [|by apply IH].
    apply NoDup_cons. split; [|by apply IH].
    intros (r & Hr & [Hin _]%list_elem_of_In%List.filter_In)%list_elem_of_fmap.
    apply Hn, list_elem_of_fmap. exists r. split; [done|]. by apply list_elem_of_In.
  - apply Forall_forall. intros q [Hin _]%list_elem_of_In%List.filter_In.
    rewrite Forall_forall in Hall. by apply Hall, list_elem_of_In.
Qed.

Lemma schedule_query_ok (rows : list HuntQuery) (name : string) (interval : Z)
    (severity : string) (max : Z) :
  store_ok rows -> store_ok (schedule_query rows name interval severity max).2.
Proof.
  intros Hok. pose proof (schedule_query_spec rows name interval severity max) as H.
  destruct (schedule_query _ _ _ _ _) as [[s|] rows']; [|by subst].
  destruct H as (_ & Hi & Hs & _ & ->). apply store_ok_update; [done| |done].
  intros q _ [H1 H2 H3 H4 H5 H6 H7 H8 H9] _. split; try done; simpl.
  - by intros i [= <-].
  - by intros v [= <-].
  - intros _. by destruct (hq_watermark q).
Qed.

Lemma unschedule_query_ok (rows : list HuntQuery) (name : string) :
  store_ok rows -> store_ok (unschedule_query rows name).2.
Proof.
  intros Hok. pose proof (unschedule_query_spec rows name) as H.
  destruct (unschedule_query rows name) as [[s|] rows']; [|by subst]. destruct H as (_ & _ & ->).
  apply store_ok_update; [done| |done]. intros q _ [H1 H2 H3 H4 H5 H6 H7 H8 H9] _. by split.
Qed.

Lemma record_run_ok (rows : list HuntQuery) (name : string) (watermark : option Z)
    (status : string) (now : Z) :
  store_ok rows -> store_ok (record_run rows name watermark status now).2.
Proof.
  apply store_ok_update; [done|]. intros q _ [H1 H2 H3 H4 H5 H6 H7 H8 H9] _. split; try done.
  simpl. intros Hi. destruct watermark; [done|]. by apply H8.
Qed.

(** *** The handlers *)

Definition rate_row (a : AuditCall) : Prop := a.1.1 = "hunt_mutation_rate_limited"%string.

(** A standing detection goes on as it was: expression and watermark. *)
Definition kept (q : HuntQuery) (rows : list HuntQuery) : Prop :=
  exists q', find_query rows (hq_name q) = Some q' /\ hq_expression q' = hq_expression q /\
    (forall w, hq_watermark q = Some w -> hq_watermark q' = Some w).

(** What a mutating request did and what it wrote to the audit log. *)
Definition accounted (params : dict) (s s' : HuntSrv) (ok : bool) : Prop :=
  exists new, hs_audit s' = hs_audit s ++ new /\
  if ok then exists action name details, new = [(action, "hunt:" +:+ name, details)] /\
    (forall n, n <> name -> find_query (hs_rows s') n = find_query (hs_rows s) n) /\
    (forall q, find_query (hs_rows s) name = Some q -> is_scheduled (Some q) = true ->
       kept q (hs_rows s') \/
       (scheduled_ok params = true /\ ("was_scheduled"%string, PBool true) ∈ details))
  else hs_rows s' = hs_rows s /\ Forall rate_row new /\ (length new <= 1)%nat.

(** A failed request whose rows and log are those of the state before. *)
Lemma accounted_failed (params : dict) (s s' : HuntSrv) :
  hs_rows s' = hs_rows s -> hs_audit s' = hs_audit s -> accounted params s s' false.
Proof. intros Hr Ha. exists []. rewrite app_nil_r. split_and!; try done. simpl. lia. Qed.

Lemma limited_accounted {A} (mono : Z) (params : dict) (s : HuntSrv)
    (body : HuntSrv -> HuntReply A * HuntSrv) :
  (forall s1, hs_rows s1 = hs_rows s -> hs_audit s1 = hs_audit s ->
     accounted params s (body s1).2 (reply_ok (body s1).1)) ->
  accounted params s (limited str_other mono params s body).2
    (reply_ok (limited str_other mono params s body).1).
Proof.
  intros Hb. unfold limited, rate_limited.
  destruct (hs_limiter s) as [l|]; [|by apply Hb].
  destruct (check_limit l mono) as [[allowed audit] l'].
  destruct allowed; [by apply Hb|]. destruct audit; [|by apply accounted_failed].
  eexists. split; [done|]. split_and!; [done| |simpl; lia]. by apply Forall_singleton.
Qed.

Lemma limited_rows {A} (P : list HuntQuery -> Prop) (mono : Z) (params : dict) (s : HuntSrv)
    (body : HuntSrv -> HuntReply A * HuntSrv) :
  P (hs_rows s) -> (forall s1, P (hs_rows s1) -> P (hs_rows (body s1).2)) ->
  P (hs_rows (limited str_other mono params s body).2).
Proof.
  intros Hs Hb. unfold limited, rate_limited. destruct (hs_limiter s) as [l|]; [|by apply Hb].
  destruct (check_limit l mono) as [[allowed audit] l'].
  destruct allowed; [by apply Hb|]. by destruct audit.
Qed.

Lemma serve_hunt_ok (req : hunt_req) (mono : Z) (params : dict) (s : HuntSrv) :
  store_ok (hs_rows s) -> store_ok (hs_rows (serve_hunt req mono params s).2).
Proof.
  intros Hok. destruct req as [now| |t|]; cbn [serve_hunt answered snd];
    unfold handle_save_hunt_query, handle_delete_hunt_query, handle_schedule_hunt_query,
      handle_unschedule_hunt_query; apply limited_rows; try done; intros s1 H1.
  - destruct (save_target params s1) as [[[[[name expression] description] replace] was]|]; [|done].
    pose proof (save_query_ok (hs_rows s1) now name expression description replace H1) as H2.
    by destruct (save_query _ _ _ _ _ _ _) as [[o|] rows].
  - destruct (_ ≫= _) as [[name was]|]; [|done].
    pose proof (delete_query_ok (hs_rows s1) name H1) as H2.
    by destruct (delete_query _ _) as [[o|] rows].
  - destruct (_ ≫= _) as [[[[name interval] severity] preserved]|]; [|done].
    pose proof (schedule_query_ok (hs_rows s1) name interval severity (default 0 (max_ingest t)) H1) as H2.
    by destruct (schedule_query _ _ _ _ _) as [[o|[e|]] rows].
  - destruct (required_str params "name") as [name|]; [|done].
    pose proof (unschedule_query_ok (hs_rows s1) name H1) as H2.
    by destruct (unschedule_query _ _) as [[o|] rows].
Qed.

Lemma save_target_Ok (params : dict) (s : HuntSrv) name expression description replace was :
  save_target params s = Ok (name, expression, description, replace, was) ->
  was = is_scheduled (find_query (hs_rows s) name) /\
  (was = true -> replace = true -> scheduled_ok params = true).
Proof.
  unfold save_target.
  intros (n & _ & (e & _ & (d & _ & (o & [_ ->]%get_query_Ok & H)%bind_Ok)%bind_Ok)%bind_Ok)%bind_Ok.
  destruct (is_scheduled _) eqn:Es, (truthy _) eqn:Et, (scheduled_ok params) eqn:Eo;
    simpl in H; simplify_eq; by rewrite ?Es.
Qed.

Lemma save_accounted (now : Z) (params : dict) (s : HuntSrv) name expression description replace was :
  save_target params s = Ok (name, expression, description, replace, was) ->
  match save_query re_compiles (hs_rows s) now name expression description replace with
  | (Err _, rows) => rows = hs_rows s
  | (Ok o, rows) => forall audit, accounted params s
      (hs_set s rows [(audit, "hunt:" +:+ so_name o, save_details sha256 o was)]) true
  end.
Proof.
  intros [Hw Ho]%save_target_Ok.
  pose proof (save_query_spec (hs_rows s) now name expression description replace) as H.
  destruct (save_query _ _ _ _ _ _ _) as [[o|] rows]; [|done]. intros action.
  destruct H as (_ & Hn & H). rewrite Hn. eexists. split; [done|]. exists action, name, (save_details sha256 o was).
  split; [done|]. cbn [hs_set hs_rows]. destruct H as [[Hf ->] | (q & Hf & Hr & ->)].
  - split; [|congruence]. intros n Hne. rewrite find_app. simpl.
    destruct (find_query _ n); [done|]. by destruct (String.eqb_spec name n).
  - split.
    + intros n Hne. rewrite find_update by done. by destruct (String.eqb_spec name n).
    + intros q' Hq' Hs. right. rewrite Hq' in Hw. subst was. split; [by apply Ho|].
      unfold save_details. rewrite Hs. right. left.
Qed.

Lemma update_accounted (params : dict) (s : HuntSrv) (name action : string) (details : dict)
    (f : HuntQuery -> HuntQuery) :
  (forall q, hq_name (f q) = hq_name q) -> (forall q, hq_expression (f q) = hq_expression q) ->
  (forall q w, hq_watermark q = Some w -> hq_watermark (f q) = Some w) ->
  accounted params s
    (hs_set s (update_query name f (hs_rows s)) [(action, "hunt:" +:+ name, details)]) true.
Proof.
  intros Hn He Hw. eexists. split; [done|]. exists action, name, details. split; [done|].
  cbn [hs_set hs_rows]. split.
  - intros n Hne. rewrite find_update by done. by destruct (String.eqb_spec name n).
  - intros q Hq _. left. exists (f q). apply find_query_Some in Hq as Hq'. destruct Hq' as [_ <-].
    rewrite find_update, String.eqb_refl, Hq by done. split_and!; [done|done|]. apply Hw.
Qed.

Lemma delete_accounted (params : dict) (s : HuntSrv) (name action : string) (was : bool)
    (pre post : dict) :
  was = is_scheduled (find_query (hs_rows s) name) -> (was = true -> scheduled_ok params = true) ->
  accounted params s
    (hs_set s (List.filter (fun q => negb (String.eqb (hq_name q) name)) (hs_rows s))
       [(action, "hunt:" +:+ name, pre ++ ("was_scheduled"%string, PBool was) :: post)]) true.
Proof.
  intros Hw Ho. eexists. split; [done|]. eexists action, name, _. split; [done|].
  cbn [hs_set hs_rows]. split.
  - intros n Hne. by apply find_filter.
  - intros q Hq Hs. right. rewrite Hq in Hw. rewrite Hs in Hw. subst was. split; [by apply Ho|].
    apply elem_of_app. right. left.
Qed.

(** Every mutating hunt request is accounted for, whatever its parameters:
    a request that is answered with a failure (or raises) leaves the saved
    queries as they were and writes nothing but the one rate-limit row; a
    successful one writes exactly one audit row, changes no other query than
    the one the row names, and a scheduled query keeps its expression and its
    watermark unless the caller passed [scheduled_ok], which the row records. *)
Theorem hunt_mutations_accounted (req : hunt_req) (mono : Z) (params : dict) (s : HuntSrv) :
  let '(ok, s') := serve_hunt req mono params s in accounted params s s' ok.
Proof.
  destruct req as [now| |t|]; cbn [serve_hunt answered];
    unfold handle_save_hunt_query, handle_delete_hunt_query, handle_schedule_hunt_query,
      handle_unschedule_hunt_query; apply limited_accounted; intros [rows1 l1 audit1] H1 H2;
    cbn [hs_rows hs_audit] in H1, H2; subst rows1 audit1.
  - change (hs_rows s) with (hs_rows (mkHuntSrv (hs_rows s) l1 (hs_audit s))).
    destruct (save_target _ _) as [[[[[name expression] description] replace] was]|] eqn:Et;
      [|by apply accounted_failed].
    pose proof (save_accounted now _ _ _ _ _ _ _ Et) as H. cbn [hs_rows] in *.
    destruct (save_query _ _ _ _ _ _ _) as [[o|] rows]; [by apply H|].
    apply accounted_failed; [done|]. apply app_nil_r.
  - destruct (_ ≫= _) as [[name was]|] eqn:Et; [|by apply accounted_failed].
    apply bind_Ok in Et as (n & _ & (o & [_ ->]%get_query_Ok & Et)%bind_Ok). cbn [hs_rows] in *.
    pose proof (delete_query_spec (hs_rows s) name) as H.
    destruct (delete_query _ _) as [[d|] rows]; [|apply accounted_failed; [done|apply app_nil_r]].
    destruct H as [[_ Hn]%find_query_Some ->]. rewrite Hn.
    apply (delete_accounted params s name _ was [_] [_]);
      destruct (is_scheduled _) eqn:Es, (scheduled_ok params) eqn:Eo; simpl in Et; simplify_eq;
      by rewrite ?Es.
  - destruct (_ ≫= _) as [[[[name interval] severity] preserved]|] eqn:Et; [|by apply accounted_failed].
    cbn [hs_rows] in *.
    pose proof (schedule_query_spec (hs_rows s) name interval severity (default 0 (max_ingest t))) as H.
    destruct (schedule_query _ _ _ _ _) as [[o|[e|]] rows];
      [|apply accounted_failed; [done|apply app_nil_r]..].
    destruct H as (-> & _ & _ & _ & ->). apply (update_accounted params s); try done.
    intros q w Hq. simpl. by rewrite Hq.
  - destruct (required_str params "name") as [name|]; [|by apply accounted_failed].
    cbn [hs_rows] in *. pose proof (unschedule_query_spec (hs_rows s) name) as H.
    destruct (unschedule_query _ _) as [[o|] rows]; [|apply accounted_failed; [done|apply app_nil_r]].
    destruct H as (-> & _ & ->). by apply (update_accounted params s).
Qed.

(** The table as requests and completed runs leave it. *)
Inductive hunt_event := HReq (req : hunt_req) (mono : Z) (params : dict)
                      | HRun (name : string) (watermark : option Z) (status : string) (now : Z).
Definition hunt_apply (s : HuntSrv) (ev : hunt_event) : HuntSrv :=
  match ev with
  | HReq req mono params => (serve_hunt req mono params s).2
  | HRun name watermark status now =>
      mkHuntSrv (record_run (hs_rows s) name watermark status now).2 (hs_limiter s) (hs_audit s)
  end.

(** C37. Whatever requests and run stamps arrive, in whatever order, the saved
    queries have distinct valid names, expressions that are within the size
    limit and compile, and a schedule that is complete (interval, severity and
    watermark), within its bounds and of an offered severity. *)
Theorem hunt_store_invariant (limiter : option Limiter) (evs : list hunt_event) :
  store_ok (hs_rows (foldl hunt_apply (mkHuntSrv [] limiter []) evs)).
Proof.
  assert (H0 : store_ok (hs_rows (mkHuntSrv [] limiter []))) by (split; constructor).
  revert H0. generalize (mkHuntSrv [] limiter []).
  induction evs as [|ev evs IH]; intros s Hs; [done|]. simpl. apply IH.
  destruct ev as [req mono params|name watermark status now]; simpl.
  - by apply serve_hunt_ok.
  - by apply (record_run_ok (hs_rows s)).
Qed.

End Invariant.

(** A name may end in a newline: [validate_name] accepts it, because [$]
    matches before a final newline. The comment of the pattern says that it
    excludes whitespace and control characters. *)
Theorem newline_name_accepted :
  validate_name ("a" +:+ String newline EmptyString) = Ok ("a" +:+ String newline EmptyString).
Proof. reflexivity. Qed.
