(* ===== verification/HuntFidelity.v ===== *)
(** * Fidelity of the hunt compiler

    The theorems about [compile_hunt_query] and [run_hunt_query]: the SQL and
    the in-memory evaluator select the same events, the result is the newest
    [limit] of them, and the errors and bounds of the compiler. *)

From Stdlib Require Import DecimalString.
From S2P Require Import Prelude Schemas Expr RuleEval HuntCompiler HuntSql.

(** ** Integers and doubles *)

Lemma float_of_int_exact (k e m : Z) :
  0 <= e <= 971 -> Z.abs m < 2 ^ 53 -> k = m * 2 ^ e -> float_of_int k = Some k.
Proof.
  intros He Hm ->. unfold float_of_int. set (k := m * 2 ^ e).
  destruct (Z.abs k <? 2 ^ 53) eqn:Hk; [done|]. apply Z.ltb_ge in Hk.
  assert (Hlo : 2 ^ Z.log2 (Z.abs k) <= Z.abs k) by (apply Z.log2_spec; lia).
  assert (H53 : 53 <= Z.log2 (Z.abs k)) by (apply Z.log2_le_pow2; lia).
  assert (Hup : Z.abs k < 2 ^ (53 + e)).
  { unfold k. rewrite Z.abs_mul, (Z.abs_eq (2 ^ e)), Z.pow_add_r by lia.
    apply Z.mul_lt_mono_pos_r; lia. }
  assert (Hs : Z.log2 (Z.abs k) - 52 <= e).
  { assert (Hlt : 2 ^ Z.log2 (Z.abs k) < 2 ^ (53 + e)) by lia.
    apply Z.pow_lt_mono_r_iff in Hlt; lia. }
  set (s := Z.log2 (Z.abs k) - 52) in *.
  assert (Hkd : k = (m * 2 ^ (e - s)) * 2 ^ s).
  { unfold k. rewrite <- Z.mul_assoc, <- Z.pow_add_r by lia. do 2 f_equal. lia. }
  assert (Hps : 0 < 2 ^ s) by lia.
  assert (round_half_even k (2 ^ s) * 2 ^ s = k) as ->.
  { unfold round_half_even. rewrite Hkd, Z.div_mul, Z.mod_mul by lia.
    replace (2 * 0 <? 2 ^ s) with true by (symmetry; apply Z.ltb_lt; lia). done. }
  assert (2 ^ (53 + e) <= 2 ^ 1024) by (apply Z.pow_le_mono_r; lia).
  replace (Z.abs k <? 2 ^ 1024) with true by (symmetry; apply Z.ltb_lt; lia). done.
Qed.

(** A double equal to an integer is the double that integer converts to. *)
Lemma is_double_int (q : Q) (k : Z) :
  is_double q -> (q == inject_Z k)%Q -> float_of_int k = Some k.
Proof.
  intros (m & e & Hm & He & Hq) Hk. destruct (0 <=? e) eqn:E.
  - apply Z.leb_le in E. rewrite Hq in Hk. apply (proj1 (inject_Z_injective _ _)) in Hk.
    apply (float_of_int_exact _ e m); [lia | done | done].
  - apply Z.leb_gt in E. rewrite Hk, <- inject_Z_mult in Hq.
    apply (proj1 (inject_Z_injective _ _)) in Hq.
    assert (Hp : 0 < 2 ^ (- e)) by (apply Z.pow_pos_nonneg; lia).
    unfold float_of_int.
    replace (Z.abs k <? 2 ^ 53) with true; [done|].
    symmetry. apply Z.ltb_lt. subst m. rewrite Z.abs_mul, (Z.abs_eq (2 ^ _)) in Hm by lia.
    nia.
Qed.

Lemma lossless_double_None (q : Q) (k : Z) :
  is_double q -> lossless_double k = None -> Qeq_bool q (inject_Z k) = false.
Proof.
  intros Hd Hl. destruct (Qeq_bool q (inject_Z k)) eqn:E; [|done].
  apply Qeq_bool_eq, (is_double_int _ _ Hd) in E.
  unfold lossless_double in Hl. rewrite E, Z.eqb_refl in Hl. done.
Qed.

Lemma lossless_double_Some (k d : Z) : lossless_double k = Some d -> d = k.
Proof.
  unfold lossless_double. destruct (float_of_int k) as [d'|]; [|done].
  destruct (d' =? k) eqn:E; [|done]. intros [= <-]. by apply Z.eqb_eq.
Qed.

(** ** What a predicate says of a row

    [sat r p new b]: on [r], [p] consumes exactly the parameters [new] and is
    true precisely when [b]. *)

Section Fidelity.
Context {D : DuckDB} {L : DuckDBLaws D}.

Definition sat (r : EventRow) (p : pred) (new : list param) (b : bool) : Prop :=
  forall rest, exists x, eval_pred p r (new ++ rest) = (x, rest) /\ tv_true x = b.

(** [sat2]: in addition never NULL. *)
Definition sat2 (r : EventRow) (p : pred) (new : list param) (b : bool) : Prop :=
  forall rest, eval_pred p r (new ++ rest) = (Some b, rest).

Lemma tv_true_and (a b : tv) : tv_true (tv_and a b) = tv_true a && tv_true b.
Proof. by destruct a as [[]|], b as [[]|]. Qed.
Lemma tv_true_or (a b : tv) : tv_true (tv_or a b) = tv_true a || tv_true b.
Proof. by destruct a as [[]|], b as [[]|]. Qed.

Lemma sat_false (r : EventRow) : sat r QFalse [] false.
Proof. intros rest. by exists (Some false). Qed.

Lemma sat_QGuard (r : EventRow) (g b : pred) (new : list param) (bg bb : bool) :
  sat r g [] bg -> sat r b new bb -> sat r (QGuard g b) new (bg && bb).
Proof.
  intros Hg Hb rest. destruct (Hg (new ++ rest)) as (x & Hx & <-).
  destruct (Hb rest) as (y & Hy & <-). exists (tv_and x y).
  cbn [eval_pred]. simpl app in Hx. by rewrite Hx, Hy, tv_true_and.
Qed.

Lemma sat_guarded (r : EventRow) (g b : pred) (new : list param) (bg bb : bool) :
  sat r g [] bg -> sat r b new bb -> sat r (guarded g b) new (bg && bb).
Proof.
  intros Hg Hb. destruct g; try by apply sat_QGuard.
  destruct (Hg []) as (x & [= <-] & <-). exact Hb.
Qed.

Lemma eval_or_cons (p : pred) (l : list pred) (r : EventRow) (ps : list param) :
  eval_pred (QOr (p :: l)) r ps =
  let '(x, ps1) := eval_pred p r ps in
  let '(y, ps2) := eval_pred (QOr l) r ps1 in (tv_or x y, ps2).
Proof. done. Qed.

(** Several predicates, each with its parameters. *)
Inductive sats (r : EventRow) : list pred -> list param -> bool -> Prop :=
| sats_nil : sats r [] [] false
| sats_cons p l new news b bs :
    sat r p new b -> sats r l news bs -> sats r (p :: l) (new ++ news) (b || bs).

Lemma sats_or (r : EventRow) (l : list pred) (new : list param) (b : bool) :
  sats r l new b -> sat r (QOr l) new b.
Proof.
  induction 1 as [|p l new news b bs Hp Hl IH]; intros rest; [by exists (Some false)|].
  rewrite eval_or_cons, <- app_assoc.
  destruct (Hp (news ++ rest)) as (x & -> & <-). destruct (IH rest) as (y & -> & <-).
  exists (tv_or x y). by rewrite tv_true_or.
Qed.

Lemma sats_disjoin (r : EventRow) (l : list pred) (new : list param) (b : bool) :
  sats r l new b -> sat r (disjoin l) new b.
Proof.
  intros H. destruct l as [|p [|p' l]]; [inversion H; subst; apply sat_false | | by apply sats_or].
  inversion H as [|? ? new1 news b1 bs Hp Hl]; subst. inversion Hl; subst.
  by rewrite app_nil_r, orb_false_r.
Qed.

Lemma sats_app (r : EventRow) (l1 l2 : list pred) (n1 n2 : list param) (b1 b2 : bool) :
  sats r l1 n1 b1 -> sats r l2 n2 b2 -> sats r (l1 ++ l2) (n1 ++ n2) (b1 || b2).
Proof.
  induction 1 as [|p l new news b bs Hp Hl IH]; intros H2; [done|].
  rewrite <- app_assoc, <- orb_assoc. simpl. constructor; auto.
Qed.

Lemma sats_one (r : EventRow) (p : pred) (new : list param) (b : bool) :
  sat r p new b -> sats r [p] new b.
Proof.
  intros H. rewrite <- (app_nil_r new), <- (orb_false_r b). by repeat constructor.
Qed.

(** ** Reading an operand *)

(** The column or path [o] of row [r] holds what the evaluator resolves to. *)
Definition reads (r : EventRow) (o : Operand) (v : pyval) : Prop :=
  match o with
  | OpColumn c => v = PStr (column r c)
  | OpJson segs =>
      ident_segs segs = true /\ json_safe v /\
      default PNone (json_walk (PDict (row_payload r)) segs) = v
  | OpMissing => match v with PNone | PDict _ => True | _ => False end
  end.

Definition is_str (v : pyval) : bool := match v with PStr _ => true | _ => false end.
Definition is_num (v : pyval) : bool := match v with PInt _ | PFloat _ => true | _ => false end.
Definition is_bool (v : pyval) : bool := match v with PBool _ => true | _ => false end.

(** The type guards decide the type of the value. *)
Lemma sat_type (r : EventRow) (segs : list string) (v : pyval) (ty : string) :
  reads r (OpJson segs) v -> ty <> "NULL"%string ->
  sat r (QTypeEq segs ty) [] (String.eqb (json_type_name v) ty).
Proof.
  intros (Hs & _ & Hv) Hne rest. eexists; split; [done|]. unfold eval_type.
  rewrite json_type_law by done. destruct (json_walk _ segs) as [w|]; simpl in *; subst.
  - by destruct (String.eqb _ _).
  - symmetry. by apply String.eqb_neq.
Qed.

Lemma sat_number (r : EventRow) (segs : list string) (v : pyval) :
  reads r (OpJson segs) v -> sat r (QTypeNumber segs) [] (is_num v).
Proof.
  intros (Hs & Hok & Hv) rest. eexists; split; [done|]. unfold eval_type.
  rewrite json_type_law by done. destruct (json_walk _ segs) as [w|]; simpl in *; subst; [|done].
  destruct v; simpl; try done. by destruct (z <? 2 ^ 63).
Qed.

Lemma sat_is_string (r : EventRow) (o : Operand) (v : pyval) :
  reads r o v -> sat r (is_string_guard o) [] (is_str v).
Proof.
  destruct o as [c|segs|]; simpl.
  - intros -> rest. by exists (Some true).
  - intros H. assert (Hok : json_safe v) by apply H.
    replace (is_str v) with (String.eqb (json_type_name v) "VARCHAR"); [by apply sat_type|].
    destruct v; simpl in *; try done. by destruct (z <? 2 ^ 63).
  - intros H rest. exists (Some false). by destruct v.
Qed.

Lemma sat_is_boolean (r : EventRow) (segs : list string) (v : pyval) :
  reads r (OpJson segs) v -> sat r (is_boolean_guard (OpJson segs)) [] (is_bool v).
Proof.
  intros H. replace (is_bool v) with (String.eqb (json_type_name v) "BOOLEAN");
    [by apply sat_type|].
  destruct v; simpl in *; try done. by destruct (z <? 2 ^ 63).
Qed.

(** The text of an operand, when the value has one. *)
Lemma text_of_str (r : EventRow) (o : Operand) (s : string) :
  reads r o (PStr s) -> eval_text r (operand_text o) = Some s.
Proof.
  destruct o as [c|segs|]; simpl; [congruence | | done].
  intros (Hs & _ & Hv). destruct (json_walk _ segs) as [w|] eqn:E; simpl in *; subst; [|done].
  by apply json_text_str.
Qed.

Lemma text_of_json (r : EventRow) (segs : list string) (v : pyval) :
  reads r (OpJson segs) v -> v <> PNone -> json_walk (PDict (row_payload r)) segs = Some v.
Proof. intros (_ & _ & Hv) Hn. destruct (json_walk _ segs); simpl in *; congruence. Qed.

(** ** The atoms *)

Lemma sat_eqparam (r : EventRow) (t : sqltext) (value : string) :
  sat r (QEqParam t) [BStr value] (tv_true (text_eq (eval_text r t) (Some (BStr value)))).
Proof. intros rest. by eexists. Qed.

Lemma sat_float (r : EventRow) (t : sqltext) (z : Z) :
  sat r (QFloatEq t) [BDouble z]
    (tv_true (tv_not ((fun s => regexp_matches s int_token) <$> eval_text r t)) &&
     tv_true (double_eq (eval_text r t) (Some (BDouble z)))).
Proof. intros rest. eexists. split; [done|]. by rewrite tv_true_and. Qed.

Lemma tv_true_Some (b : bool) : tv_true (Some b) = b.
Proof. by destruct b. Qed.

Lemma typed_str (r : EventRow) (o : Operand) (v : pyval) (s : string) :
  reads r o v ->
  is_str v && tv_true (text_eq (eval_text r (operand_text o)) (Some (BStr s)))
  = py_eq_lit v (LStr s).
Proof.
  intros H. destruct v; try done. simpl is_str. rewrite (text_of_str _ _ _ H).
  cbn [text_eq]. by rewrite tv_true_Some.
Qed.

Lemma typed_bool (r : EventRow) (segs : list string) (v : pyval) (b : bool) :
  reads r (OpJson segs) v ->
  is_bool v && tv_true (text_eq (eval_text r (TJson segs)) (Some (BStr (bool_text b))))
  = match v with PBool c => Bool.eqb c b | _ => false end.
Proof.
  intros H. destruct v as [|c| | | | | | ]; try done. simpl.
  rewrite (json_text_bool _ _ c); [| apply H | by apply text_of_json].
  simpl. by destruct b, c.
Qed.

(** The numeric part of [v == k]. *)
Definition num_eq (v : pyval) (k : Z) : bool :=
  match v with PInt z => z =? k | PFloat q => Qeq_bool q (inject_Z k) | _ => false end.

Definition numeric_branches (r : EventRow) (segs : list string) (k : Z) : bool :=
  tv_true (text_eq (eval_text r (TJson segs)) (Some (BStr (str_of_Z k)))) ||
  match lossless_double k with
  | Some d =>
      tv_true (tv_not ((fun s => regexp_matches s int_token) <$> eval_text r (TJson segs))) &&
      tv_true (double_eq (eval_text r (TJson segs)) (Some (BDouble d)))
  | None => false
  end.

Lemma typed_int (r : EventRow) (segs : list string) (z k : Z) :
  reads r (OpJson segs) (PInt z) -> numeric_branches r segs k = (z =? k).
Proof.
  intros H. assert (Hw := text_of_json _ _ _ H ltac:(done)).
  destruct H as (Hs & Hok & _). unfold numeric_branches. simpl eval_text.
  rewrite (json_text_int _ _ z Hs Hw Hok). cbn [fmap option_fmap option_map text_eq].
  rewrite int_token_int, tv_true_Some.
  assert (String.eqb (str_of_Z z) (str_of_Z k) = (z =? k)) as ->.
  { destruct (Z.eqb_spec z k) as [->|Hne]; [apply String.eqb_refl|].
    apply String.eqb_neq. by intros ?%str_of_Z_inj. }
  destruct (lossless_double k); by rewrite orb_false_r.
Qed.

Lemma typed_float (r : EventRow) (segs : list string) (q : Q) (k : Z) :
  reads r (OpJson segs) (PFloat q) -> numeric_branches r segs k = Qeq_bool q (inject_Z k).
Proof.
  intros H. assert (Hw := text_of_json _ _ _ H ltac:(done)).
  destruct H as (Hs & Hok & _). unfold numeric_branches. simpl eval_text.
  destruct (json_text_float _ _ q Hs Hw Hok) as (t & q' & -> & Ht & Hc & Hq).
  cbn [fmap option_fmap option_map text_eq double_eq]. rewrite Ht, Hc, tv_true_Some.
  assert (String.eqb t (str_of_Z k) = false) as ->.
  { apply String.eqb_neq. intros ->. rewrite int_token_int in Ht. done. }
  rewrite orb_false_l. destruct (lossless_double k) as [d|] eqn:E.
  - apply lossless_double_Some in E as ->. simpl. rewrite Hq. by destruct (Qeq_bool _ _).
  - symmetry. by apply lossless_double_None.
Qed.

Lemma typed_number (r : EventRow) (segs : list string) (v : pyval) (k : Z) :
  reads r (OpJson segs) v -> is_num v && numeric_branches r segs k = num_eq v k.
Proof.
  intros H. destruct v; try done; simpl is_num.
  - by rewrite (typed_int _ _ _ _ H).
  - by rewrite (typed_float _ _ _ _ H).
Qed.

(** ** The operators

    Each extends the parts (or the binder) by what one comparison needs. *)

Lemma append_typed_sats (r : EventRow) (o : Operand) (g : pred) (parts : list pred)
    (bd new : list param) (value : string) (b bg : bool) :
  is_false g = false -> sat r g [] bg -> sats r parts new b ->
  exists parts' nw, append_typed parts g o bd value = (parts', bd ++ nw) /\
    sats r parts' (new ++ nw)
      (b || (bg && tv_true (text_eq (eval_text r (operand_text o)) (Some (BStr value))))).
Proof.
  intros Hg Hsg Hp. unfold append_typed. rewrite Hg. do 2 eexists. split; [done|].
  apply sats_app; [done|]. apply sats_one, sat_guarded; [done | apply sat_eqparam].
Qed.

Lemma append_numeric_sats (r : EventRow) (segs : list string) (v : pyval) (parts : list pred)
    (bd new : list param) (k : Z) (b : bool) :
  reads r (OpJson segs) v -> sats r parts new b ->
  exists parts' nw, append_numeric parts (OpJson segs) bd k = (parts', bd ++ nw) /\
    sats r parts' (new ++ nw) (b || num_eq v k).
Proof.
  intros Hr Hp. rewrite <- (typed_number _ _ _ _ Hr). unfold append_numeric, numeric_branches.
  simpl is_false. cbv iota.
  assert (Hb : exists nw branches, (match lossless_double k with
      | Some d => ([QEqParam (TJson segs); QFloatEq (TJson segs)],
                   (bd ++ [BStr (str_of_Z k)]) ++ [BDouble d])
      | None => ([QEqParam (TJson segs)], bd ++ [BStr (str_of_Z k)])
      end) = (branches, bd ++ nw) /\ sats r branches nw (numeric_branches r segs k)).
  { unfold numeric_branches. destruct (lossless_double k) as [d|].
    - exists [BStr (str_of_Z k); BDouble d]. eexists. rewrite <- app_assoc. split; [done|].
      apply (sats_app _ [_] [_] [_] [_]); apply sats_one; [apply sat_eqparam | apply sat_float].
    - exists [BStr (str_of_Z k)]. eexists. split; [done|]. rewrite orb_false_r.
      apply sats_one, sat_eqparam. }
  destruct Hb as (nw & branches & Hb & Hs). simpl operand_text. rewrite Hb.
  do 2 eexists. split; [done|]. apply sats_app; [done|].
  apply sats_one, sat_guarded; [by apply sat_number | by apply sats_disjoin].
Qed.

(** [_equals] is Python's [==] against a literal. First the JSON operands. *)
Lemma equals_json_str (r : EventRow) (segs : list string) (v : pyval) (s : string)
    (bd : list param) :
  reads r (OpJson segs) v ->
  exists p nw, equals (OpJson segs) (LStr s) bd = (p, bd ++ nw) /\ sat r p nw (py_eq_lit v (LStr s)).
Proof.
  intros Hr. unfold equals.
  destruct (append_typed_sats r (OpJson segs) (is_string_guard (OpJson segs)) [] bd [] s
              false (is_str v)) as (parts & nw & -> & Hs);
    [done | by apply sat_is_string | constructor|].
  do 2 eexists. split; [done|]. rewrite <- (typed_str r (OpJson segs)) by done.
  by apply sats_disjoin.
Qed.

Lemma equals_json_int (r : EventRow) (segs : list string) (v : pyval) (k : Z)
    (bd : list param) :
  reads r (OpJson segs) v ->
  exists p nw, equals (OpJson segs) (LInt k) bd = (p, bd ++ nw) /\ sat r p nw (py_eq_lit v (LInt k)).
Proof.
  intros Hr. assert (Hb := sat_is_boolean _ _ _ Hr). unfold equals.
  destruct (append_numeric_sats r segs v [] bd [] k false Hr) as (p1 & n1 & -> & Hs1);
    [constructor|].
  destruct ((k =? 0) || (k =? 1)) eqn:Hk.
  - destruct (append_typed_sats r (OpJson segs) (is_boolean_guard (OpJson segs)) p1 (bd ++ n1) n1
                (bool_text (k =? 1)) _ _ eq_refl Hb Hs1) as (p2 & n2 & -> & Hs2).
    exists (disjoin p2), (n1 ++ n2). rewrite app_assoc. split; [done|].
    apply sats_disjoin. simpl operand_text in Hs2. rewrite typed_bool in Hs2 by done.
    replace (py_eq_lit v (LInt k)) with (false || num_eq v k ||
      match v with PBool c => Bool.eqb c (k =? 1) | _ => false end); [done|].
    apply orb_prop in Hk as [->%Z.eqb_eq| ->%Z.eqb_eq]; destruct v as [|[]| | | | | |]; simpl;
      rewrite ?orb_false_r; done.
  - do 2 eexists. split; [done|]. apply sats_disjoin.
    replace (py_eq_lit v (LInt k)) with (false || num_eq v k); [done|].
    apply orb_false_elim in Hk as [H0 H1].
    destruct v as [|[]| | | | | |]; cbn [py_eq_lit bool_Z num_eq orb]; try done;
      symmetry; by rewrite Z.eqb_sym.
Qed.

Lemma equals_json_bool (r : EventRow) (segs : list string) (v : pyval) (b : bool)
    (bd : list param) :
  reads r (OpJson segs) v ->
  exists p nw, equals (OpJson segs) (LBool b) bd = (p, bd ++ nw) /\ sat r p nw (py_eq_lit v (LBool b)).
Proof.
  intros Hr. assert (Hb := sat_is_boolean _ _ _ Hr). unfold equals.
  destruct (append_typed_sats r (OpJson segs) (is_boolean_guard (OpJson segs)) [] bd []
              (bool_text b) false _ eq_refl Hb) as (p1 & n1 & -> & Hs1); [constructor|].
  destruct (append_numeric_sats r segs v p1 (bd ++ n1) n1 (bool_Z b) _ Hr Hs1)
    as (p2 & n2 & -> & Hs2).
  exists (disjoin p2), (n1 ++ n2). rewrite app_assoc. split; [done|].
  apply sats_disjoin. simpl operand_text in Hs2. rewrite typed_bool in Hs2 by done.
  replace (py_eq_lit v (LBool b)) with (false ||
    match v with PBool c => Bool.eqb c b | _ => false end || num_eq v (bool_Z b)); [done|].
  destruct v; simpl; rewrite ?orb_false_r; done.
Qed.

Lemma equals_sat (r : EventRow) (o : Operand) (v : pyval) (l : LiteralValue) (bd : list param) :
  reads r o v ->
  exists p nw, equals o l bd = (p, bd ++ nw) /\ sat r p nw (py_eq_lit v l).
Proof.
  intros Hr. destruct o as [c|segs|].
  - destruct l as [s|z|b]; simpl in Hr; subst v; simpl equals.
    + do 2 eexists. split; [done|]. rewrite <- (typed_str r (OpColumn c)) by done.
      apply sat_eqparam.
    + exists QFalse, []. rewrite app_nil_r. split; [by destruct (_ || _)|]. apply sat_false.
    + exists QFalse, []. rewrite app_nil_r. split; [done|]. apply sat_false.
  - destruct l; [by apply equals_json_str | by apply equals_json_int | by apply equals_json_bool].
  - exists QFalse, []. rewrite app_nil_r. split; [done|].
    replace (py_eq_lit v l) with false by (by destruct v, l). apply sat_false.
Qed.

(** [_in_list] is Python's [in]. *)
Lemma sat_QFalse_inv (r : EventRow) (p : pred) (nw : list param) (b : bool) :
  is_false p = true -> sat r p nw b -> nw = [] /\ b = false.
Proof.
  intros Hp Hs. destruct p; try done. destruct (Hs []) as (x & [= <- Hn] & <-).
  by rewrite app_nil_r in Hn.
Qed.

Lemma equals_all_sats (r : EventRow) (o : Operand) (v : pyval) (ms : list LiteralValue)
    (bd : list param) :
  reads r o v ->
  exists ps nw, equals_all o ms bd = (ps, bd ++ nw) /\ sats r ps nw (existsb (py_eq_lit v) ms).
Proof.
  intros Hr. revert bd. induction ms as [|m ms IH]; intros bd.
  - exists [], []. rewrite app_nil_r. by split; [|constructor].
  - destruct (equals_sat r o v m bd Hr) as (p & n1 & Hp & Hs). simpl. rewrite Hp.
    destruct (IH (bd ++ n1)) as (ps & n2 & -> & Hs2).
    exists (if is_false p then ps else p :: ps), (n1 ++ n2). rewrite app_assoc. split; [done|].
    destruct (is_false p) eqn:E; [|by constructor].
    destruct (sat_QFalse_inv _ _ _ _ E Hs) as [-> ->]. done.
Qed.

(** ** Operands read what the evaluator resolves *)

Lemma walk_dict_json (v : pyval) (segs : list string) :
  walk_dict v segs = default PNone (json_walk v segs).
Proof.
  revert v. induction segs as [|s segs IH]; intros v; [done|].
  destruct v; simpl; try done. unfold dict_get. rewrite IH.
  destruct (dict_lookup s d); simpl; [done|]. by destruct segs.
Qed.

Lemma json_safe_lookup (d : dict) (k : string) (v : pyval) :
  json_safe (PDict d) -> dict_lookup k d = Some v -> json_safe v.
Proof.
  induction d as [|[k' v'] d IH]; simpl; [done|]. intros [H1 H2].
  destruct (String.eqb k k'); [by intros [= <-] | by apply IH].
Qed.

Lemma json_safe_walk (v w : pyval) (segs : list string) :
  json_safe v -> json_walk v segs = Some w -> json_safe w.
Proof.
  revert v. induction segs as [|s segs IH]; intros v Hv; simpl; [by intros [= <-]|].
  destruct v; try done. intros (x & Hx & Hw)%bind_Some.
  eapply IH; [|done]. by eapply json_safe_lookup.
Qed.

Lemma json_safe_default (v : pyval) (segs : list string) :
  json_safe v -> json_safe (default PNone (json_walk v segs)).
Proof.
  intros Hv. destruct (json_walk v segs) eqn:E; simpl; [by eapply json_safe_walk | done].
Qed.

Section Event.
Context (class_attr : string -> pyval)
        (re_search : string -> string -> result PyExc bool)
        (re_compiles : string -> bool)
        (iso : Z -> string) (e : Event) (seq : Z).

(** The attribute a path starts from is a declared field, or the class has no
    attribute of that name. *)
Definition attr_of_path (path : string) : string :=
  match path_segments path with
  | [] => EmptyString
  | head :: rest => if String.eqb head "event" then default EmptyString (hd_error rest) else head
  end.
Definition path_plain (path : string) : Prop :=
  dict_mem (attr_of_path path) (event_fields e) = true \/
  class_attr (attr_of_path path) = PNone.

(** The event's document holds only JSON values. *)
Definition event_safe : Prop := json_safe (PDict (payload_of iso e)).

Abbreviation row := (row_of_event iso e seq).

Lemma payload_attr (a : string) :
  a <> "ts"%string ->
  (dict_mem a (event_fields e) = true \/ class_attr a = PNone) ->
  default PNone (dict_lookup a (payload_of iso e)) = event_attr class_attr e a.
Proof.
  intros Hne Hp. unfold payload_of, event_attr. rewrite dict_lookup_set_ne by done.
  unfold dict_mem in Hp. destruct (dict_lookup a (event_fields e)); simpl; [done|].
  by destruct Hp.
Qed.

Lemma json_walk_payload (a : string) (rest : list string) :
  a <> "ts"%string ->
  (dict_mem a (event_fields e) = true \/ class_attr a = PNone) ->
  default PNone (json_walk (PDict (payload_of iso e)) (a :: rest))
  = walk_dict (event_attr class_attr e a) rest.
Proof.
  intros Hne Hp. rewrite <- (payload_attr a Hne Hp), walk_dict_json.
  cbn [json_walk]. generalize (dict_lookup a (payload_of iso e)) as x.
  intros [x|]; simpl; [done|]. by destruct rest.
Qed.

(** A block that is not a dict resolves to nothing further down. *)
Lemma block_walk (v : pyval) (s : string) (rest : list string) :
  match v with PDict d => walk_dict (PDict d) (s :: rest) | _ => PNone end = walk_dict v (s :: rest).
Proof. by destruct v. Qed.

Lemma find_ident_segs (segs : list string) :
  List.find (fun s => negb (segment_ok s)) segs = None -> ident_segs segs = true.
Proof.
  induction segs as [|s segs IH]; simpl; [done|].
  destruct (segment_ok s); simpl; [by apply IH | done].
Qed.

Lemma operand_reads (path : string) (o : Operand) :
  operand_for path = Ok o -> path_plain path -> event_safe ->
  reads row o (resolve_path class_attr path e).
Proof.
  unfold operand_for, path_plain, attr_of_path, resolve_path.
  destruct (List.find _ _) eqn:Hf; [done|]. apply find_ident_segs in Hf.
  destruct (path_segments path) as [|head [|s rest]]; intros Ho Hp Hsafe; simplify_eq.
  - done.
  - simpl. destruct (String.eqb head "event"); [done|]. by destruct (event_attr _ _ _).
  - destruct (String.eqb_spec head "event") as [->|Hne].
    + destruct (String.eqb_spec s "ts") as [->|Hts]; [done|].
      destruct (bool_decide (rest = []) && bool_decide (s ∈ COLUMN_PATHS)) eqn:Hc; simplify_eq.
      * apply andb_prop in Hc as [->%bool_decide_eq_true Hin%bool_decide_eq_true].
        unfold COLUMN_PATHS in Hin. repeat (apply elem_of_cons in Hin as [->|Hin]; [done|]).
        by apply not_elem_of_nil in Hin.
      * simpl reads. rewrite <- json_walk_payload by done.
        split_and!; [exact Hf | by apply json_safe_default | done].
    + injection Ho as <-. cbn [reads]. rewrite block_walk.
      split_and!; [done | | ].
      * destruct (String.eqb_spec head "ts") as [->|Hts]; [done|].
        rewrite <- json_walk_payload by done. by apply json_safe_default.
      * destruct (String.eqb_spec head "ts") as [->|Hts]; [done|].
        by rewrite json_walk_payload.
Qed.

(** ** Leaves, nodes and groups *)

(** [MATCHES] patterns on which RE2 and Python's engine agree. *)
Definition regex_agrees (l : Leaf) : Prop :=
  leaf_op l = "MATCHES"%string -> forall pat s,
  parse_literal (leaf_rhs l) = LStr pat -> re_search pat s = Ok (regexp_matches s pat).

Definition leaf_portable (l : Leaf) : Prop := path_plain (leaf_path l) /\ regex_agrees l.
Definition node_portable (n : Node) : Prop :=
  match n with NLeaf l => leaf_portable l | NInvalid _ => True end.

Lemma sat_truth (r : EventRow) (p : pred) (nw : list param) (b pos : bool) :
  sat r p nw b -> sat2 r (QTruth p pos) nw (if pos then b else negb b).
Proof. intros H rest. simpl. by destruct (H rest) as (x & -> & <-). Qed.

Lemma sat_call (o : Operand) (v : pyval) (f : sqlfun) (lit : string) (bd : list param)
    (sem : string -> bool) :
  reads row o v ->
  (forall s, call_fun f (Some s) (Some (BStr lit)) = Some (sem s)) ->
  exists p nw, call_guarded o f lit bd = (p, bd ++ nw) /\
    sat row p nw (match v with PStr s => sem s | _ => false end).
Proof.
  intros Hr Hf. unfold call_guarded. destruct (is_false (is_string_guard o)) eqn:E.
  - exists QFalse, []. rewrite app_nil_r. split; [done|]. destruct o; try done.
    simpl in Hr. destruct v; try done; apply sat_false.
  - do 2 eexists. split; [done|].
    replace (match v with PStr s => sem s | _ => false end) with
      (is_str v && tv_true (call_fun f (eval_text row (operand_text o)) (Some (BStr lit)))).
    { apply sat_guarded; [by apply sat_is_string|]. intros rest. by eexists. }
    destruct v; try done. simpl is_str. rewrite (text_of_str _ _ _ Hr), Hf. apply tv_true_Some.
Qed.

(** The string operators, [MATCHES] included. *)
Lemma string_leaf_sat (l : Leaf) (o : Operand) (v : pyval) (f : sqlfun) (lit : string)
    (bd : list param) :
  reads row o v -> regex_agrees l -> parse_literal (leaf_rhs l) = LStr lit ->
  (string_func (leaf_op l) = Some f \/
   (leaf_op l = "MATCHES"%string /\ f = F_regexp_matches)) ->
  exists p nw b, call_guarded o f lit bd = (p, bd ++ nw) /\
    (match v with PStr s => str_op re_search (leaf_op l) s (LStr lit) | _ => Ok false end) = Ok b /\
    sat row p nw b.
Proof.
  intros Hr Hre Hlit Hf.
  assert (Hsem : exists sem, (forall s, call_fun f (Some s) (Some (BStr lit)) = Some (sem s)) /\
            (forall s, str_op re_search (leaf_op l) s (LStr lit) = Ok (sem s))).
  { unfold str_op, string_func in *. destruct Hf as [Hf|[Hop ->]].
    - destruct (String.eqb (leaf_op l) "STARTSWITH"); [injection Hf as <-|].
      { exists (startswith lit). split; intros s; simpl; by rewrite ?starts_with_law. }
      destruct (String.eqb (leaf_op l) "ENDSWITH"); [injection Hf as <-|].
      { exists (endswith lit). split; intros s; simpl; by rewrite ?ends_with_law. }
      destruct (String.eqb (leaf_op l) "CONTAINS"); [injection Hf as <-|done].
      exists (contains lit). split; intros s; simpl; by rewrite ?contains_law.
    - exists (fun s => regexp_matches s lit). split; [done|]. intros s. rewrite Hop. by apply Hre. }
  destruct Hsem as (sem & Hc & Hs).
  destruct (sat_call o v f lit bd sem Hr Hc) as (p & nw & Hp & Hsat).
  exists p, nw, (match v with PStr s => sem s | _ => false end).
  split_and!; [done | by destruct v | done].
Qed.

Lemma op_cases (op : string) :
  op ∈ ["=="; "!="]%string \/ op ∈ ["IN"; "NOT IN"]%string \/
  (exists f, string_func op = Some f) \/ op = "MATCHES"%string \/
  (bool_decide (op ∈ ["=="; "!="]%string) = false /\
   bool_decide (op ∈ ["IN"; "NOT IN"]%string) = false /\
   string_func op = None /\ String.eqb op "MATCHES" = false).
Proof.
  destruct (decide (op ∈ ["=="; "!="]%string)); [by left|].
  destruct (decide (op ∈ ["IN"; "NOT IN"]%string)); [by right; left|].
  destruct (string_func op) as [f|] eqn:Ef; [right; right; left; by exists f|].
  destruct (String.eqb_spec op "MATCHES"); [by do 3 right; left|].
  do 4 right. rewrite !bool_decide_eq_false. split_and!; try done.
Qed.

Lemma compile_leaf_sat (l : Leaf) (bd bd' : list param) (p : pred) :
  event_safe -> leaf_portable l -> compile_leaf re_compiles l bd = Ok (p, bd') ->
  exists nw b, bd' = bd ++ nw /\ eval_leaf class_attr re_search l e = Ok b /\ sat2 row p nw b.
Proof.
  intros Hsafe [Hplain Hre]. unfold compile_leaf, eval_leaf.
  destruct (operand_for (leaf_path l)) as [o|] eqn:Ho; simpl; [|done].
  assert (Hr := operand_reads _ _ Ho Hplain Hsafe).
  set (v := resolve_path class_attr (leaf_path l) e) in *. clearbody v.
  destruct (op_cases (leaf_op l)) as [Hop|[Hop|[(f & Hop)|[Hop|Hop]]]].
  - rewrite bool_decide_eq_true_2 by done.
    destruct (equals_sat row o v (parse_literal (leaf_rhs l)) bd Hr) as (p0 & nw & -> & Hs).
    repeat (apply elem_of_cons in Hop as [->|Hop]); [| |by apply not_elem_of_nil in Hop];
      intros [= <- <-]; exists nw; eexists;
      (split_and!; [done | done | exact (sat_truth _ _ _ _ _ Hs)]).
  - unfold in_list.
    destruct (equals_all_sats row o v (parse_list (leaf_rhs l)) bd Hr) as (ps & nw & -> & Hs).
    apply sats_disjoin in Hs.
    repeat (apply elem_of_cons in Hop as [->|Hop]); [| |by apply not_elem_of_nil in Hop];
      intros [= <- <-]; exists nw; eexists;
      (split_and!; [done | done | exact (sat_truth _ _ _ _ _ Hs)]).
  - assert (Hn : bool_decide (leaf_op l ∈ ["=="; "!="]%string) = false /\
                 bool_decide (leaf_op l ∈ ["IN"; "NOT IN"]%string) = false /\
                 String.eqb (leaf_op l) "==" = false /\ String.eqb (leaf_op l) "!=" = false /\
                 is_str_op (leaf_op l) = true).
    { clear -Hop. unfold string_func in Hop.
      destruct (String.eqb_spec (leaf_op l) "STARTSWITH") as [->|_]; [done|].
      destruct (String.eqb_spec (leaf_op l) "ENDSWITH") as [->|_]; [done|].
      by destruct (String.eqb_spec (leaf_op l) "CONTAINS") as [->|_]. }
    destruct Hn as (-> & -> & -> & -> & ->). rewrite Hop. unfold string_call, string_literal.
    destruct (parse_literal (leaf_rhs l)) as [lit| |] eqn:Hl; simpl; [|done..].
    destruct (string_leaf_sat l o v f lit bd) as (p0 & nw & b & -> & Hb & Hs); auto.
    intros [= <- <-]. exists nw, b. split_and!; [done | done | exact (sat_truth _ _ _ _ true Hs)].
  - rewrite !Hop. simpl. unfold matches, string_literal.
    destruct (parse_literal (leaf_rhs l)) as [lit| |] eqn:Hl; simpl; [|done..].
    destruct (validate_regex re_compiles lit); simpl; [|done].
    destruct (string_leaf_sat l o v F_regexp_matches lit bd) as (p0 & nw & b & -> & Hb & Hs); auto.
    intros [= <- <-]. exists nw, b. rewrite Hop in Hb.
    split_and!; [done | done | exact (sat_truth _ _ _ _ true Hs)].
  - destruct Hop as (-> & -> & -> & ->). done.
Qed.

Lemma compile_node_sat (n : Node) (bd bd' : list param) (p : pred) :
  event_safe -> node_portable n -> compile_node re_compiles n bd = Ok (p, bd') ->
  exists nw b, bd' = bd ++ nw /\ eval_node class_attr re_search n e = Ok b /\ sat2 row p nw b.
Proof.
  intros Hsafe Hp. destruct n as [l|i]; simpl; [|done].
  destruct (compile_leaf re_compiles l bd) as [[p0 bd0]|] eqn:E; simpl; [|done].
  destruct (compile_leaf_sat _ _ _ _ Hsafe Hp E) as (nw & b & -> & Hb & Hs).
  intros [= <- <-]. exists nw. unfold eval_node. rewrite Hb. simpl. eexists.
  split_and!; [done..|]. intros rest. destruct (leaf_negated l); [|apply Hs].
  simpl. by rewrite Hs.
Qed.

Lemma compile_nodes_sat (ns : list Node) (bd bd' : list param) (ps : list pred) :
  event_safe -> Forall node_portable ns -> compile_nodes re_compiles ns bd = Ok (ps, bd') ->
  exists nw b, bd' = bd ++ nw /\
    py_all (fun n => eval_node class_attr re_search n e) ns = Ok b /\
    forall rest, eval_ands ps row (nw ++ rest) = (Some b, rest).
Proof.
  intros Hsafe Hp. revert bd bd' ps.
  induction Hp as [|n ns Hn Hns IH]; intros bd bd' ps; simpl.
  - intros [= <- <-]. exists [], true. by rewrite app_nil_r.
  - destruct (compile_node re_compiles n bd) as [[p b1]|] eqn:E1; simpl; [|done].
    destruct (compile_nodes re_compiles ns b1) as [[ps' b2]|] eqn:E2; simpl; [|done].
    intros [= <- <-].
    destruct (compile_node_sat _ _ _ _ Hsafe Hn E1) as (n1 & x & -> & Hx & Hs1).
    destruct (IH _ _ _ E2) as (n2 & y & -> & Hy & Hs2).
    exists (n1 ++ n2), (x && y). rewrite <- app_assoc. rewrite Hx. simpl.
    split_and!; [done | by destruct x |]. intros rest.
    rewrite <- app_assoc, Hs1, Hs2. by destruct x, y.
Qed.

Lemma compile_groups_sat (gs : list (list Node)) (bd bd' : list param) (qs : list (list pred)) :
  event_safe -> Forall (Forall node_portable) gs ->
  compile_groups re_compiles gs bd = Ok (qs, bd') ->
  exists nw b, bd' = bd ++ nw /\
    py_any (fun g => py_all (fun n => eval_node class_attr re_search n e) g) gs = Ok b /\
    forall rest, eval_ors qs row (nw ++ rest) = (Some b, rest).
Proof.
  intros Hsafe Hp. revert bd bd' qs.
  induction Hp as [|g gs Hg Hgs IH]; intros bd bd' qs; simpl.
  - intros [= <- <-]. exists [], false. by rewrite app_nil_r.
  - destruct (compile_nodes re_compiles g bd) as [[ps b1]|] eqn:E1; simpl; [|done].
    destruct (compile_groups re_compiles gs b1) as [[qs' b2]|] eqn:E2; simpl; [|done].
    intros [= <- <-].
    destruct (compile_nodes_sat _ _ _ _ Hsafe Hg E1) as (n1 & x & -> & Hx & Hs1).
    destruct (IH _ _ _ E2) as (n2 & y & -> & Hy & Hs2).
    assert (Hs1' : forall rest, eval_ands (match ps with [] => [QTrue] | _ => ps end) row
                                  (n1 ++ rest) = (Some x, rest)).
    { intros rest. rewrite <- Hs1. destruct ps; [|done].
      specialize (Hs1 rest). simpl in *. by simplify_eq. }
    exists (n1 ++ n2), (x || y). rewrite <- app_assoc, Hx. simpl.
    split_and!; [done | by destruct x |]. intros rest.
    rewrite <- app_assoc, Hs1', Hs2. by destruct x, y.
Qed.

(** The time and ingest bounds of a query. *)
Definition in_bounds (since until : option Z) (ingest : option (Z * Z)) (ts sq : Z) : bool :=
  match since with Some s => s <=? ts | None => true end &&
  (match until with Some u => ts <=? u | None => true end &&
   match ingest with Some (low, high) => (low <? sq) && (sq <=? high) | None => true end).

Lemma eval_where_params (gs : list (list pred)) (since until : option Z)
    (ingest : option (Z * Z)) (r : EventRow) (nw : list param) (b : bool) (rest : list param) :
  (forall rest, eval_ors gs r (nw ++ rest) = (Some b, rest)) ->
  eval_where (mkSql gs (is_some since) (is_some until) (is_some ingest)) r
    (nw ++ opt_bind since ++ opt_bind until ++ ingest_bind ingest ++ rest)
  = (Some (b && in_bounds since until ingest (row_ts r) (row_ingest_seq r)), rest).
Proof.
  intros H. unfold eval_where. cbn [q_groups q_since q_until q_ingest]. rewrite H.
  unfold in_bounds. destruct b, since as [s|], until as [u|], ingest as [[lo hi]|]; simpl;
    repeat case_match; done.
Qed.

Lemma compile_hunt_query_inv (expr : string) (since until limit : option Z)
    (ingest : option (Z * Z)) (q : CompiledQuery) :
  compile_hunt_query re_compiles expr since until limit ingest = Ok q ->
  exists gs bd, compile_groups re_compiles (groups (parse_expression expr)) [] = Ok (gs, bd) /\
    resolve_limit limit = Ok (cq_limit q) /\
    cq_sql q = mkSql gs (is_some since) (is_some until) (is_some ingest) /\
    cq_params q = bd ++ opt_bind since ++ opt_bind until ++ ingest_bind ingest
                    ++ [BInt (cq_limit q + 1)].
Proof.
  unfold compile_hunt_query. cbv zeta.
  destruct (resolve_limit limit) as [n|]; cbn [mbind result_bind]; [|done].
  destruct (window_inverted since until); [done|].
  destruct (groups (parse_expression expr)) as [|g gs]; [done|].
  destruct (compile_groups re_compiles (g :: gs) []) as [[qs bd]|]; simpl; [|done].
  intros [= <-]. by exists qs, bd.
Qed.

(** The nodes of an expression that both engines read alike. *)
Definition portable (expr : string) : Prop :=
  Forall (Forall node_portable) (groups (parse_expression expr)).

(** The compiled query selects the row of an event exactly when the evaluator
    accepts the event and it lies within the bounds. *)
Lemma selected_iff (expr : string) (since until limit : option Z)
    (ingest : option (Z * Z)) (q : CompiledQuery) :
  compile_hunt_query re_compiles expr since until limit ingest = Ok q ->
  event_safe -> portable expr ->
  exists b, evaluate_expression class_attr re_search expr e = Ok b /\
    selected q row = b && in_bounds since until ingest (ev_ts e) seq /\
    (eval_where (cq_sql q) row (cq_params q)).2 = [BInt (cq_limit q + 1)].
Proof.
  intros (gs & bd & Hc & _ & Hsql & Hps)%compile_hunt_query_inv Hsafe Hp.
  destruct (compile_groups_sat _ _ _ _ Hsafe Hp Hc) as (nw & b & -> & Hb & Hs).
  exists b. unfold selected. rewrite Hsql, Hps. simpl app.
  rewrite (eval_where_params _ _ _ _ _ _ _ _ Hs). simpl. split_and!; [done | | done].
  by destruct (b && _).
Qed.
End Event.

End Fidelity.

(** ** A database that obeys the laws

    It reads paths and numbers back from their text; the text of a float is an
    encoding of its value. *)

Definition path_segs (path : string) : list string :=
  if String.eqb path "$." then [] else split_on "."%char (str_drop 2 path).

Definition float_text (q : Q) : string :=
  String "f"%char (str_of_Z (Z.pos (encode (Qnum q, Qden q)))).

Definition read_float (t : string) : option Q :=
  match t with
  | String "f"%char t' =>
      z ← Z.of_int <$> NilZero.int_of_string t';
      '(n, d) ← decode (A := Z * positive) (Z.to_pos z);
      Some (n # d)
  | _ => None
  end.

Definition scalar_text (v : pyval) : option string :=
  match v with
  | PNone => None
  | PBool b => Some (bool_text b)
  | PInt z => Some (str_of_Z z)
  | PFloat q => Some (float_text q)
  | PStr s => Some s
  | _ => Some EmptyString
  end.

#[export] Instance ReferenceDB : DuckDB := {
  json_type doc path := json_type_name <$> json_walk doc (path_segs path);
  json_extract_string doc path := json_walk doc (path_segs path) ≫= scalar_text;
  regexp_matches s pat :=
    if String.eqb pat int_token then is_some (NilZero.int_of_string s) else contains pat s;
  try_cast_double := read_float;
  starts_with s p := startswith p s;
  ends_with s p := endswith p s;
  str_contains s p := contains p s;
}.

Lemma chomp_forall (p : ascii -> bool) (s : string) :
  p newline = true -> str_forall p (chomp s) = true -> str_forall p s = true.
Proof.
  intros Hn. unfold chomp. destruct (endswith _ s) eqn:E; [|done]. revert E.
  induction s as [|c s IH]; [done|]. destruct s as [|d s].
  - destruct (decide (newline = c)) as [<-|Hne]; intros E _; [simpl; by rewrite Hn|].
    exfalso. cbn [endswith] in E. apply orb_prop in E as [E%String.eqb_eq|E]; [congruence|done].
  - intros E. change (str_init (String c (String d s))) with (String c (str_init (String d s))).
    cbn [str_forall]. intros [-> H]%andb_prop. apply IH; [|done].
    cbn [endswith] in E. by apply orb_prop in E as [E%String.eqb_eq|E].
Qed.

Lemma segment_no_dot (s : string) :
  segment_ok s = true -> str_forall (fun c => negb (Ascii.eqb c "."%char)) s = true.
Proof.
  unfold segment_ok. intros H. apply chomp_forall; [done|].
  assert (Hd : forall c, ident_char c = true -> negb (Ascii.eqb c "."%char) = true).
  { intros c Hc. destruct (Ascii.eqb_spec c "."%char) as [->|]; [|done]. done. }
  destruct (chomp s) as [|c r]; [done|]. apply andb_prop in H as [Hc Hr]. simpl.
  rewrite Hd by (unfold ident_char; by rewrite Hc). simpl.
  induction r as [|d r IH]; [done|]. simpl in *. apply andb_prop in Hr as [Hc' Hr].
  rewrite Hd by done. by apply IH.
Qed.

Lemma path_segs_json_path (segs : list string) :
  ident_segs segs = true -> path_segs (json_path segs) = segs.
Proof.
  intros H. unfold path_segs, json_path. destruct segs as [|s segs]; [done|].
  assert (Hf : Forall (fun w => str_forall (fun c => negb (Ascii.eqb c "."%char)) w = true)
                 (s :: segs)).
  { apply Forall_forall. intros w Hw. apply segment_no_dot.
    exact (proj1 (forallb_forall _ _) H w (proj1 (list_elem_of_In _ _) Hw)). }
  assert (Hs : s <> EmptyString) by (intros ->; discriminate H).
  replace (String.eqb _ _) with false.
  { change (str_drop 2 _) with (join "." (s :: segs)). by apply split_on_join. }
  symmetry. apply String.eqb_neq. change ("$." +:+ ?x) with (String "$" (String "." x)).
  intros [= Hj]. destruct s; [done|]. by destruct segs.
Qed.

Lemma float_text_not_int (q : Q) : is_some (NilZero.int_of_string (float_text q)) = false.
Proof.
  unfold float_text. generalize (str_of_Z (Z.pos (encode (Qnum q, Qden q)))) as t. intros t.
  change (NilZero.int_of_string (String "f" t)) with
    (option_map Decimal.Pos (NilEmpty.uint_of_string (String "f" t))). simpl.
  by destruct (NilEmpty.uint_of_string t).
Qed.

#[export] Instance ReferenceDB_laws : DuckDBLaws ReferenceDB.
Proof.
  split; simpl; intros; rewrite ?path_segs_json_path by done; try done;
    try (by match goal with H : json_walk _ _ = _ |- _ => rewrite H end).
  - unfold is_some. pose proof (string_int_roundtrip z) as H.
    by destruct (NilZero.int_of_string (str_of_Z z)).
  - rewrite H0. simpl. exists (float_text q), q. split_and!; [done | apply float_text_not_int | | done].
    unfold float_text, read_float. rewrite string_int_roundtrip. simpl.
    rewrite decode_encode. simpl. by destruct q.
Qed.

(** ** The result of a hunt *)

#[export] Instance newer_total : Total newer.
Proof.
  intros a b. unfold newer. destruct (Z.lt_trichotomy (row_ts a) (row_ts b)) as [|[|]];
    [auto | | auto].
  destruct (total String.le (row_event_id a) (row_event_id b)); auto.
Qed.

#[export] Instance newer_trans : Transitive newer.
Proof.
  intros a b c [Hab|[Hab Hi]] [Hbc|[Hbc Hj]]; unfold newer; [left; lia | left; lia | left; lia|].
  right. split; [lia|]. by trans (row_event_id b).
Qed.

Lemma resolve_limit_bounds (limit : option Z) (n : Z) :
  resolve_limit limit = Ok n -> 1 <= n <= MAX_LIMIT.
Proof.
  unfold resolve_limit, MAX_LIMIT, DEFAULT_LIMIT. destruct limit as [l|].
  - destruct (l <=? 0) eqn:E; [done|]. intros [= <-]. lia.
  - intros [= <-]. lia.
Qed.

Lemma sql_limit_compiled (rc : string -> bool) (expr : string) (since until limit : option Z)
    (ingest : option (Z * Z)) (q : CompiledQuery) :
  compile_hunt_query rc expr since until limit ingest = Ok q ->
  sql_limit q = S (Z.to_nat (cq_limit q)) /\ 1 <= cq_limit q <= MAX_LIMIT.
Proof.
  intros (gs & bd & _ & Hl & _ & Hps)%compile_hunt_query_inv.
  apply resolve_limit_bounds in Hl. split; [|done].
  unfold sql_limit. rewrite Hps, !app_assoc, last_snoc. lia.
Qed.

Section Results.
Context {D : DuckDB} {L : DuckDBLaws D}.
Context (class_attr : string -> pyval)
        (re_search : string -> string -> result PyExc bool)
        (re_compiles : string -> bool)
        (iso : Z -> string).

(** The stored events of a table, with their ingest numbers. *)
Definition stores (t : EventTable) (stored : list (Event * Z)) : Prop :=
  tbl_rows t = (fun x => row_of_event iso x.1 x.2) <$> stored.

(** The evaluator accepts the event, and it lies within the bounds. *)
Definition accepts (expr : string) (since until : option Z) (ingest : option (Z * Z))
    (x : Event * Z) : bool :=
  match evaluate_expression class_attr re_search expr x.1 with
  | Ok b => b && in_bounds since until ingest (ev_ts x.1) x.2
  | Err _ => false
  end.

(** The event can be stored and the expression reads alike in both engines. *)
Definition comparable (expr : string) (x : Event * Z) : Prop :=
  event_safe iso x.1 /\ portable class_attr re_search x.1 expr.

Lemma filter_selected (expr : string) (since until limit : option Z)
    (ingest : option (Z * Z)) (q : CompiledQuery) (stored : list (Event * Z)) :
  compile_hunt_query re_compiles expr since until limit ingest = Ok q ->
  Forall (comparable expr) stored ->
  List.filter (selected q) ((fun x => row_of_event iso x.1 x.2) <$> stored)
  = (fun x => row_of_event iso x.1 x.2) <$> List.filter (accepts expr since until ingest) stored.
Proof.
  intros Hc Hs. induction Hs as [|[e sq] l [Hsafe Hp] Hl IH]; [done|].
  destruct (selected_iff class_attr re_search re_compiles iso e sq _ _ _ _ _ _ Hc Hsafe Hp)
    as (b & Hb & Hsel & _).
  rewrite fmap_cons. cbn [List.filter fst snd]. rewrite Hsel, IH.
  assert (accepts expr since until ingest (e, sq)
          = b && in_bounds since until ingest (ev_ts e) sq) as ->.
  { unfold accepts. cbn [fst snd]. by rewrite Hb. }
  by destruct (b && _).
Qed.

Lemma hunt_hits (expr : string) (since until limit : option Z)
    (ingest : option (Z * Z)) (q : CompiledQuery) (t : EventTable) (stored : list (Event * Z)) :
  compile_hunt_query re_compiles expr since until limit ingest = Ok q ->
  stores t stored ->
  Forall (comparable expr) stored ->
  exists hits,
    Permutation hits ((fun x => row_of_event iso x.1 x.2) <$>
                        List.filter (accepts expr since until ingest) stored) /\
    StronglySorted newer hits /\
    run_hunt_query false t q =
      Ok (mkResult (take (Z.to_nat (cq_limit q)) hits)
                   (cq_limit q <? Z.of_nat (length hits)) (cq_limit q)).
Proof.
  intros Hc Ht Hs.
  rewrite <- (filter_selected _ _ _ _ _ _ _ Hc Hs), <- Ht.
  destruct (sql_limit_compiled _ _ _ _ _ _ _ Hc) as [Hlim Hpos].
  exists (merge_sort newer (List.filter (selected q) (tbl_rows t))). split_and!.
  - apply merge_sort_Permutation.
  - apply StronglySorted_merge_sort; apply _.
  - unfold run_hunt_query, run_sql. rewrite Hlim. do 2 f_equal.
    + rewrite take_take. f_equal. lia.
    + rewrite length_take. apply Bool.eq_iff_eq_true. rewrite !Z.ltb_lt. lia.
Qed.


End Results.

(** A concrete instance: three stored events, a query with a comparison of a
    missing field, an integer, and a negated string test. *)
Module HuntExample.

Definition blank_event (id action : string) (ts : Z) (proc : option dict) : Event :=
  match build_event ts id
          {| a_module := "m"; a_action := action; a_category := ["c"%string]; a_type := [];
             a_severity := "info"; a_kind := "event";
             a_host := None; a_outcome := None; a_message := None; a_process := proc;
             a_file := None; a_user := None; a_source := None; a_destination := None;
             a_network := None; a_service := None; a_package := None; a_device := None;
             a_persistence := None; a_vulnerability := None; a_hunt := None; a_threat := None;
             a_raw := None; a_labels := None; a_ts := None; a_first_seen := false |} with
  | Some e => e
  | None => mkEvent "" 0 "" EK_event [] [] "" None SevInfo "" false None None None None None
              None None None None None None None None None None None None None [] None
  end.

Definition stored : list (Event * Z) :=
  [(blank_event "a" "exec" 10 (Some [("pid", PInt 7); ("name", PStr "curl")]%string), 1);
   (blank_event "b" "exec" 20 None, 2);
   (blank_event "c" "open" 30 (Some [("pid", PInt 9007199254740993)]%string), 3)].

Definition table : EventTable :=
  mkTable ((fun x => row_of_event str_of_Z x.1 x.2) <$> stored) 4.

Definition expr : string :=
  "process.name != 'curl' AND NOT event.action STARTSWITH 'op' OR process.pid == 7".

Definition query : CompiledQuery :=
  match compile_hunt_query (fun _ => true) expr (Some 5) None (Some 1) None with
  | Ok q => q
  | Err _ => mkCompiled "" (mkSql [] false false false) [] 0 None None None
  end.

End HuntExample.


(** ** Class attributes

    [Event]'s class attribute [model_config], which [getattr] finds and the
    stored document does not hold. *)
Definition event_class_attr (name : string) : pyval :=
  if String.eqb name "model_config"
  then PDict [("extra", PStr "forbid"); ("frozen", PBool false)]%string else PNone.

Definition class_expr : string := "model_config.extra == 'forbid'".

(** The two engines differ on a path that names a class attribute: the
    evaluator accepts every event, the compiled query selects none. *)
Theorem class_attribute_divergence {D : DuckDB} {L : DuckDBLaws D}
    (re_search : string -> string -> result PyExc bool) (re_compiles : string -> bool)
    (iso : Z -> string) (e : Event) (seq : Z) :
  evaluate_expression event_class_attr re_search class_expr e = Ok true /\
  exists q, compile_hunt_query re_compiles class_expr None None None None = Ok q /\
    selected q (row_of_event iso e seq) = false.
Proof.
  split; [done|]. eexists. split; [vm_compute; reflexivity|].
  unfold selected, eval_where. simpl. unfold eval_type. rewrite json_type_law by done. simpl.
  by destruct (json_extract_string _ _); simpl; [destruct (String.eqb _ _)|].
Qed.
