(* ===== verification/HuntInjection.v ===== *)
(** * The text of a compiled hunt ([inspectord/hunt/compiler.py], injection)

    The SQL text is built from fixed templates and validated path segments
    only, and has one placeholder per bound parameter. *)

From S2P Require Import Prelude Schemas Expr RuleEval HuntCompiler HuntSql HuntFidelity.

(** ** Counting placeholders *)

(** The [?] outside single-quoted SQL strings, from the state "inside a
    string" or not, and the state at the end. *)
Fixpoint scan_sql (s : string) (quoted : bool) : nat * bool :=
  match s with
  | EmptyString => (0%nat, quoted)
  | String c s' =>
      if Ascii.eqb c squote then scan_sql s' (negb quoted)
      else let '(n, q) := scan_sql s' quoted in
           (((if negb quoted && Ascii.eqb c "?"%char then 1 else 0) + n)%nat, q)
  end.

(** [s] is a fragment with balanced quotes and [n] placeholders. *)
Definition lexes (s : string) (n : nat) : Prop := scan_sql s false = (n, false).

Lemma scan_app (a b : string) (q : bool) :
  scan_sql (a +:+ b) q =
  let '(n, q1) := scan_sql a q in let '(m, q2) := scan_sql b q1 in ((n + m)%nat, q2).
Proof.
  revert q. induction a as [|c a IH]; intros q; simpl; [by destruct (scan_sql b q)|].
  destruct (Ascii.eqb c squote); [apply IH|]. rewrite IH.
  destruct (scan_sql a q) as [n q1], (scan_sql b q1) as [m q2]. f_equal. lia.
Qed.

Lemma lexes_app (a b : string) (n m : nat) : lexes a n -> lexes b m -> lexes (a +:+ b) (n + m).
Proof. unfold lexes. intros Ha Hb. by rewrite scan_app, Ha, Hb. Qed.

(** Fragments without a placeholder, before and after. *)
Lemma lexes_pre (a b : string) (n : nat) : lexes a 0 -> lexes b n -> lexes (a +:+ b) n.
Proof. apply (lexes_app a b 0 n). Qed.
Lemma lexes_post (a b : string) (n : nat) : lexes a n -> lexes b 0 -> lexes (a +:+ b) n.
Proof. intros Ha Hb. rewrite <- (Nat.add_0_r n). by apply lexes_app. Qed.

(** Characters that neither quote nor mark. *)
Definition inert (c : ascii) : bool := negb (Ascii.eqb c squote) && negb (Ascii.eqb c "?"%char).

Lemma scan_inert (s : string) (q : bool) : str_forall inert s = true -> scan_sql s q = (0%nat, q).
Proof.
  unfold inert. induction s as [|c s IH]; simpl; [done|].
  intros [[Hq Hm]%andb_prop Hs]%andb_prop.
  apply negb_true_iff in Hq as ->, Hm as ->. rewrite IH by done. by rewrite andb_false_r.
Qed.

Definition sum (l : list nat) : nat := foldr Nat.add 0%nat l.
Lemma sum_cons (n : nat) (l : list nat) : sum (n :: l) = (n + sum l)%nat.
Proof. done. Qed.

Lemma lexes_join (sep : string) (l : list string) (ns : list nat) :
  lexes sep 0 -> Forall2 lexes l ns -> lexes (join sep l) (sum ns).
Proof.
  intros Hs. induction 1 as [|x n l ns Hx Hl IH]; [done|]. destruct Hl as [|y m l ns Hy Hl].
  - simpl. by rewrite Nat.add_0_r.
  - change (join sep (x :: y :: l)) with (x +:+ sep +:+ join sep (y :: l)).
    change (sum (n :: m :: ns)) with (n + (0 + sum (m :: ns)))%nat.
    by repeat apply lexes_app.
Qed.

(** The placeholders of a predicate. *)
Fixpoint holes (p : pred) : nat :=
  match p with
  | QTrue | QFalse | QTypeEq _ _ | QTypeNumber _ => 0
  | QEqParam _ | QFloatEq _ | QCall _ _ => 1
  | QGuard g b => holes g + holes b
  | QOr ps => sum (map holes ps)
  | QTruth p _ | QNot p => holes p
  end.

(** Only validated names reach the text. *)
Definition safe_text (t : sqltext) : bool :=
  match t with TCol c => bool_decide (c ∈ COLUMN_PATHS) | TJson segs => ident_segs segs end.
Fixpoint safe (p : pred) : bool :=
  match p with
  | QTrue | QFalse => true
  | QTypeEq segs ty => ident_segs segs && bool_decide (ty ∈ ["VARCHAR"; "BOOLEAN"]%string)
  | QTypeNumber segs => ident_segs segs
  | QEqParam t | QFloatEq t | QCall _ t => safe_text t
  | QGuard g b => safe g && safe b
  | QOr ps => forallb safe ps
  | QTruth p _ | QNot p => safe p
  end.

(** ** The text has exactly the placeholders of the tree *)

Lemma ident_inert (s : string) : segment_ok s = true -> str_forall inert s = true.
Proof.
  intros H. unfold segment_ok in H. apply chomp_forall; [done|].
  assert (Hd : forall c, ident_char c = true -> inert c = true).
  { intros c Hc. unfold inert. destruct (Ascii.eqb_spec c squote) as [->|]; [done|].
    by destruct (Ascii.eqb_spec c "?") as [->|]. }
  destruct (chomp s) as [|c r]; [done|]. apply andb_prop in H as [Hc Hr].
  cbn [str_forall]. rewrite Hd by (unfold ident_char; by rewrite Hc).
  clear Hc. induction r as [|d r IH]; [done|]. cbn [str_forall] in *.
  apply andb_prop in Hr as [Hd' Hr]. rewrite Hd by done. by apply IH.
Qed.

Lemma path_inert (segs : list string) :
  ident_segs segs = true -> str_forall inert (json_path segs) = true.
Proof.
  intros H. unfold json_path. rewrite str_forall_app. apply andb_true_intro. split; [done|].
  induction segs as [|s [|s' segs] IH]; [done| |]; simpl in H; apply andb_prop in H as [Hs H].
  - by apply ident_inert.
  - change (join "." (s :: s' :: segs)) with (s +:+ "." +:+ join "." (s' :: segs)).
    rewrite !str_forall_app, ident_inert, IH by done. done.
Qed.

(** A path inside quotes has no placeholder. *)
Lemma lexes_quoted_path (before after : string) (segs : list string) :
  scan_sql before false = (0%nat, true) -> scan_sql after true = (0%nat, false) ->
  ident_segs segs = true -> lexes (before +:+ json_path segs +:+ after) 0.
Proof.
  intros Hb Ha Hs. unfold lexes.
  rewrite scan_app, Hb, scan_app, (scan_inert (json_path segs)) by by apply path_inert.
  by rewrite Ha.
Qed.

Lemma lexes_text (t : sqltext) : safe_text t = true -> lexes (render_text t) 0.
Proof.
  destruct t as [c|segs]; cbn [render_text safe_text].
  - intros Hc%bool_decide_eq_true. unfold COLUMN_PATHS in Hc.
    repeat (apply elem_of_cons in Hc as [->|Hc]; [done|]). by apply not_elem_of_nil in Hc.
  - by apply lexes_quoted_path.
Qed.

Lemma lexes_type (segs : list string) : ident_segs segs = true -> lexes (type_sql segs) 0.
Proof. by apply lexes_quoted_path. Qed.

(** Induction over predicates, through the list of a disjunction. *)
Section PredInd.
Context (P : pred -> Prop)
  (HTrue : P QTrue) (HFalse : P QFalse)
  (HTy : forall s t, P (QTypeEq s t)) (HNum : forall s, P (QTypeNumber s))
  (HEq : forall t, P (QEqParam t)) (HFl : forall t, P (QFloatEq t))
  (HCall : forall f t, P (QCall f t))
  (HG : forall g b, P g -> P b -> P (QGuard g b))
  (HOr : forall ps, Forall P ps -> P (QOr ps))
  (HT : forall p b, P p -> P (QTruth p b)) (HN : forall p, P p -> P (QNot p)).
Fixpoint pred_ind' (p : pred) : P p :=
  match p with
  | QTrue => HTrue | QFalse => HFalse
  | QTypeEq s t => HTy s t | QTypeNumber s => HNum s
  | QEqParam t => HEq t | QFloatEq t => HFl t | QCall f t => HCall f t
  | QGuard g b => HG g b (pred_ind' g) (pred_ind' b)
  | QOr ps => HOr ps ((fix go l : Forall P l :=
      match l with
      | [] => Forall_nil_2 P
      | x :: l' => Forall_cons_2 P x l' (pred_ind' x) (go l')
      end) ps)
  | QTruth p b => HT p b (pred_ind' p)
  | QNot p => HN p (pred_ind' p)
  end.
End PredInd.

Lemma lexes_render (p : pred) : safe p = true -> lexes (render p) (holes p).
Proof.
  induction p as [| |segs ty|segs|t|t|f t|g b IHg IHb|ps H|p b IHp|p IHp] using pred_ind';
    cbn [safe render holes]; intros Hs; try done.
  - apply andb_prop in Hs as [Hs Ht%bool_decide_eq_true].
    apply lexes_pre; [by apply lexes_type|].
    repeat (apply elem_of_cons in Ht as [->|Ht]; [done|]). by apply not_elem_of_nil in Ht.
  - apply lexes_pre; [by apply lexes_type | done].
  - apply lexes_pre; [by apply lexes_text | done].
  - apply lexes_pre; [done|]. apply lexes_pre; [by apply lexes_text|].
    apply lexes_pre; [done|]. apply lexes_pre; [by apply lexes_text | done].
  - apply lexes_pre; [by destruct f|]. apply lexes_pre; [done|].
    apply lexes_pre; [by apply lexes_text | done].
  - apply andb_prop in Hs as [Hg Hb]. apply lexes_pre; [done|].
    apply lexes_app; [by apply IHg|]. apply lexes_pre; [done|].
    apply lexes_post; [by apply IHb | done].
  - apply lexes_pre; [done|]. apply lexes_post; [|done]. apply lexes_join; [done|].
    clear -H Hs. induction H as [|x l Hx Hl IH]; [constructor|]. simpl in *.
    apply andb_prop in Hs as [Hx' Hl']. constructor; auto.
  - apply lexes_pre; [done|]. apply lexes_post; [by apply IHp|]. by destruct b.
  - apply lexes_pre; [done|]. apply lexes_post; [by apply IHp | done].
Qed.

(** ** The compiler keeps parameters and placeholders in step *)

(** A fragment that is safe and has as many placeholders as it bound. *)
Definition fits (p : pred) (bd bd' : binder) : Prop :=
  safe p = true /\ length bd' = (length bd + holes p)%nat.
Definition fits_all (ps : list pred) (bd bd' : binder) : Prop :=
  forallb safe ps = true /\ length bd' = (length bd + sum (holes <$> ps))%nat.

Definition safe_operand (o : Operand) : bool :=
  match o with
  | OpColumn c => bool_decide (c ∈ COLUMN_PATHS)
  | OpJson segs => ident_segs segs
  | OpMissing => true
  end.

Lemma operand_for_safe (path : string) (o : Operand) :
  operand_for path = Ok o -> safe_operand o = true.
Proof.
  unfold operand_for. destruct (List.find _ _) eqn:Hf; [done|]. apply find_ident_segs in Hf.
  destruct (path_segments path) as [|head [|s rest]]; [by intros [= <-]..|].
  destruct (String.eqb head "event"); [|intros [= <-]; exact Hf].
  destruct (String.eqb s "ts"); [done|].
  destruct (bool_decide (rest = []) && bool_decide (s ∈ COLUMN_PATHS)) eqn:E; intros [= <-].
  - by apply andb_prop in E as [_ ?].
  - simpl in Hf |- *. by apply andb_prop in Hf as [_ ?].
Qed.

Lemma fits_disjoin (ps : list pred) (bd bd' : binder) :
  fits_all ps bd bd' -> fits (disjoin ps) bd bd'.
Proof.
  destruct ps as [|p [|p' ps]]; intros [Hs Hl]; split; simpl in *; try done;
    [by rewrite andb_true_r in Hs | lia].
Qed.

Lemma fits_all_snoc (ps : list pred) (p : pred) (b0 b1 b2 : binder) :
  fits_all ps b0 b1 -> fits p b1 b2 -> fits_all (ps ++ [p]) b0 b2.
Proof.
  intros [Hs Hl] [Hs' Hl']. split.
  - rewrite forallb_app, Hs. simpl. by rewrite Hs'.
  - rewrite fmap_app, Hl', Hl. unfold sum. rewrite foldr_app. simpl. clear.
    induction (holes <$> ps); simpl; lia.
Qed.

Lemma fits_guarded (g b : pred) (b0 b1 : binder) :
  holes g = 0%nat -> safe g = true -> fits b b0 b1 -> fits (guarded g b) b0 b1.
Proof.
  intros Hg Hs [Hb Hl]. destruct g; try done; split; cbn [guarded safe holes] in *;
    rewrite ?Hb, ?Hg; try lia; by rewrite ?Hs.
Qed.

Lemma append_typed_fits (o : Operand) (g : pred) (ps ps' : list pred) (v : string)
    (b0 b1 b2 : binder) :
  safe_text (operand_text o) = true -> holes g = 0%nat -> safe g = true ->
  append_typed ps g o b1 v = (ps', b2) -> fits_all ps b0 b1 -> fits_all ps' b0 b2.
Proof.
  intros Ho Hg Hs. unfold append_typed. destruct (is_false g); intros [= <- <-] Hp; [done|].
  eapply fits_all_snoc; [done|]. apply fits_guarded; [done..|].
  split; [done|]. rewrite length_app. done.
Qed.

Lemma append_numeric_fits (o : Operand) (ps ps' : list pred) (v : Z) (b0 b1 b2 : binder) :
  safe_operand o = true ->
  append_numeric ps o b1 v = (ps', b2) -> fits_all ps b0 b1 -> fits_all ps' b0 b2.
Proof.
  intros Ho. unfold append_numeric.
  destruct o as [c|segs|]; simpl; [by intros [= <- <-]| |by intros [= <- <-]].
  destruct (lossless_double v); intros [= <- <-] Hp; (eapply fits_all_snoc; [done|]);
    split; simpl in *; rewrite ?Ho, ?length_app; simpl; lia || done.
Qed.

Lemma guards_fit (o : Operand) :
  safe_operand o = true ->
  (holes (is_string_guard o) = 0%nat /\ safe (is_string_guard o) = true) /\
  (holes (is_boolean_guard o) = 0%nat /\ safe (is_boolean_guard o) = true).
Proof. destruct o as [c|segs|]; simpl; intros H; split_and!; try done; by rewrite H. Qed.

Lemma operand_text_safe (o : Operand) :
  safe_operand o = true -> o <> OpMissing -> safe_text (operand_text o) = true.
Proof. by destruct o. Qed.

Lemma fits_all_nil (bd : binder) : fits_all [] bd bd.
Proof. split; simpl; [done | lia]. Qed.
Lemma fits_false (bd : binder) : fits QFalse bd bd.
Proof. split; simpl; [done | lia]. Qed.

(** The parts [_equals] collects for an operand that can resolve. *)
Definition equals_parts (o : Operand) (l : LiteralValue) (bd : binder) : list pred * binder :=
  match l with
  | LBool b =>
      let '(p1, b1) := append_typed [] (is_boolean_guard o) o bd (bool_text b) in
      append_numeric p1 o b1 (bool_Z b)
  | LInt z =>
      let '(p1, b1) := append_numeric [] o bd z in
      if (z =? 0) || (z =? 1)
      then append_typed p1 (is_boolean_guard o) o b1 (bool_text (z =? 1))
      else (p1, b1)
  | LStr s => append_typed [] (is_string_guard o) o bd s
  end.

Lemma equals_parts_fits (o : Operand) (l : LiteralValue) (bd bd' : binder) (ps : list pred) :
  safe_operand o = true -> o <> OpMissing ->
  equals_parts o l bd = (ps, bd') -> fits_all ps bd bd'.
Proof.
  intros Ho Hne. destruct (guards_fit o Ho) as [[Hs1 Hs2] [Hb1 Hb2]].
  assert (Ht := operand_text_safe o Ho Hne). assert (Hn := fits_all_nil bd).
  destruct l as [s|z|b]; simpl.
  - intros E. exact (append_typed_fits _ _ _ _ _ _ _ _ Ht Hs1 Hs2 E Hn).
  - destruct (append_numeric [] o bd z) as [p1 b1] eqn:E1.
    assert (H1 := append_numeric_fits _ _ _ _ _ _ _ Ho E1 Hn).
    destruct ((z =? 0) || (z =? 1)); intros E; [|by simplify_eq].
    exact (append_typed_fits _ _ _ _ _ _ _ _ Ht Hb1 Hb2 E H1).
  - destruct (append_typed _ _ _ _ _) as [p1 b1] eqn:E1. intros E.
    assert (H1 := append_typed_fits _ _ _ _ _ _ _ _ Ht Hb1 Hb2 E1 Hn).
    exact (append_numeric_fits _ _ _ _ _ _ _ Ho E H1).
Qed.

Lemma equals_fits (o : Operand) (l : LiteralValue) (bd bd' : binder) (p : pred) :
  safe_operand o = true -> equals o l bd = (p, bd') -> fits p bd bd'.
Proof.
  intros Ho H. destruct (decide (o = OpMissing)) as [->|Hne].
  { injection H as <- <-. apply fits_false. }
  assert (He : equals o l bd = let '(ps, b) := equals_parts o l bd in (disjoin ps, b))
    by by destruct o.
  rewrite He in H. destruct (equals_parts o l bd) as [ps b] eqn:E. injection H as <- <-.
  apply fits_disjoin. by eapply equals_parts_fits.
Qed.

Lemma fits_all_cons (p : pred) (ps : list pred) (b0 b1 b2 : binder) :
  fits p b0 b1 -> fits_all ps b1 b2 -> fits_all (p :: ps) b0 b2.
Proof. intros [Hs Hl] [Hs' Hl']. split; [simpl; by rewrite Hs | rewrite fmap_cons, sum_cons; lia].
Qed.

Lemma equals_all_fits (o : Operand) (ms : list LiteralValue) (bd bd' : binder) (ps : list pred) :
  safe_operand o = true -> equals_all o ms bd = (ps, bd') -> fits_all ps bd bd'.
Proof.
  intros Ho. revert bd bd' ps. induction ms as [|m ms IH]; intros bd bd' ps; simpl.
  { intros [= <- <-]. apply fits_all_nil. }
  destruct (equals o m bd) as [p b1] eqn:E1. destruct (equals_all o ms b1) as [ps' b2] eqn:E2.
  apply equals_fits in E1; [|done]. apply IH in E2. intros [= <- <-].
  destruct (is_false p) eqn:Ef; [|by eapply fits_all_cons].
  destruct p; try done. destruct E1 as [_ Hl], E2 as [Hs Hl2]. split; [done|].
  simpl in Hl. lia.
Qed.

Lemma call_guarded_fits (o : Operand) (f : sqlfun) (lit : string) (bd bd' : binder) (p : pred) :
  safe_operand o = true -> call_guarded o f lit bd = (p, bd') -> fits p bd bd'.
Proof.
  intros Ho. destruct (guards_fit o Ho) as [[Hs1 Hs2] _]. unfold call_guarded.
  destruct (is_false (is_string_guard o)) eqn:E; intros [= <- <-]; [apply fits_false|].
  apply fits_guarded; [done..|]. split; [|by rewrite length_app]. simpl.
  by apply operand_text_safe; [|intros ->].
Qed.

Lemma compile_leaf_fits (rc : string -> bool) (l : Leaf) (bd bd' : binder) (p : pred) :
  compile_leaf rc l bd = Ok (p, bd') -> fits p bd bd'.
Proof.
  unfold compile_leaf. destruct (operand_for (leaf_path l)) as [o|] eqn:Ho; simpl; [|done].
  apply operand_for_safe in Ho.
  destruct (bool_decide _).
  { destruct (equals _ _ _) eqn:E. intros [= <- <-]. by apply equals_fits in E. }
  destruct (bool_decide _).
  { unfold in_list. destruct (equals_all _ _ _) eqn:E. intros [= <- <-].
    apply equals_all_fits in E; [|done]. by apply fits_disjoin in E. }
  destruct (string_func _) as [f|].
  - unfold string_call. destruct (string_literal l) as [lit|]; simpl; [|done].
    destruct (call_guarded _ _ _ _) eqn:E. intros [= <- <-]. by apply call_guarded_fits in E.
  - destruct (String.eqb _ _); [|done]. unfold matches.
    destruct (string_literal l) as [lit|]; simpl; [|done].
    destruct (validate_regex rc lit); simpl; [|done].
    destruct (call_guarded _ _ _ _) eqn:E. intros [= <- <-]. by apply call_guarded_fits in E.
Qed.

Lemma compile_nodes_fits (rc : string -> bool) (ns : list Node) (bd bd' : binder)
    (ps : list pred) :
  compile_nodes rc ns bd = Ok (ps, bd') -> fits_all ps bd bd'.
Proof.
  revert bd bd' ps. induction ns as [|n ns IH]; intros bd bd' ps; simpl.
  { intros [= <- <-]. apply fits_all_nil. }
  destruct n as [l|]; simpl; [|done].
  destruct (compile_leaf rc l bd) as [[p b1]|] eqn:E1; simpl; [|done].
  destruct (compile_nodes rc ns b1) as [[ps' b2]|] eqn:E2; simpl; [|done]. intros [= <- <-].
  apply compile_leaf_fits in E1. apply IH in E2.
  eapply fits_all_cons; [|done]. by destruct (leaf_negated l).
Qed.

Lemma compile_groups_fits (rc : string -> bool) (gs : list (list Node)) (bd bd' : binder)
    (qs : list (list pred)) :
  compile_groups rc gs bd = Ok (qs, bd') ->
  forallb (forallb safe) qs = true /\
  length bd' = (length bd + sum ((fun g => sum (holes <$> g)) <$> qs))%nat.
Proof.
  revert bd bd' qs. induction gs as [|g gs IH]; intros bd bd' qs; simpl.
  { intros [= <- <-]. split; simpl; [done | lia]. }
  destruct (compile_nodes rc g bd) as [[ps b1]|] eqn:E1; simpl; [|done].
  destruct (compile_groups rc gs b1) as [[qs' b2]|] eqn:E2; simpl; [|done]. intros [= <- <-].
  apply compile_nodes_fits in E1 as [Hs1 Hl1]. apply IH in E2 as [Hs2 Hl2].
  destruct ps as [|p ps]; (split; [cbn [forallb] in *; by rewrite ?Hs1, ?Hs2 |]);
    rewrite fmap_cons, sum_cons; simpl in *; lia.
Qed.

Lemma lexes_groups (qs : list (list pred)) :
  forallb (forallb safe) qs = true ->
  lexes (render_groups qs) (sum ((fun g => sum (holes <$> g)) <$> qs)).
Proof.
  intros Hs. apply lexes_join; [done|].
  induction qs as [|g qs IH]; [constructor|]. cbn [forallb] in Hs.
  apply andb_prop in Hs as [Hg Hs]. constructor; [|by apply IH].
  apply lexes_pre; [done|]. apply lexes_post; [|done]. apply lexes_join; [done|].
  clear -Hg. induction g as [|p g IH]; [constructor|]. cbn [forallb] in Hg.
  apply andb_prop in Hg as [Hp Hg]. constructor; [by apply lexes_render | by apply IH].
Qed.

(** C2. No literal reaches the SQL text: every name in the statement of a
    compiled hunt is one of the four columns or a validated identifier path,
    and the text has exactly one placeholder (outside SQL strings, whose
    quotes balance) per bound parameter. *)
Theorem hunt_text_injection_free (rc : string -> bool) (expr : string)
    (since until limit : option Z) (ingest : option (Z * Z)) (q : CompiledQuery) :
  compile_hunt_query rc expr since until limit ingest = Ok q ->
  forallb (forallb safe) (q_groups (cq_sql q)) = true /\
  lexes (render_query (cq_sql q)) (length (cq_params q)).
Proof.
  intros (gs & bd & Hc & _ & Hsql & Hps)%compile_hunt_query_inv.
  apply compile_groups_fits in Hc as [Hs Hl]. rewrite Hsql, Hps. split; [done|].
  assert (Hg := lexes_groups gs Hs). set (n := sum _) in *. set (G := render_groups gs) in *.
  assert (Hc : exists cls ns, render_query (mkSql gs (is_some since) (is_some until) (is_some ingest))
      = "SELECT event_id, ts, kind, module, action, severity, payload_json" +:+ lf +:+
        "FROM events_enriched" +:+ lf +:+ "WHERE " +:+ join " AND " cls +:+ lf +:+
        "ORDER BY ts DESC, event_id DESC" +:+ lf +:+ "LIMIT ?" /\
      Forall2 lexes cls ns /\
      sum ns = (n + length (opt_bind since) + length (opt_bind until)
                  + length (ingest_bind ingest))%nat).
  { eexists _, ([n] ++ (if is_some since then [1] else []) ++ (if is_some until then [1] else [])
                ++ (if is_some ingest then [2] else []))%nat.
    split; [reflexivity|]. cbn [q_groups q_since q_until q_ingest].
    assert (HG : lexes ("(" +:+ G +:+ ")") n)
      by (apply lexes_pre; [done|]; by apply lexes_post).
    split; [|destruct since, until, ingest as [[]|]; simpl; lia].
    destruct since, until, ingest; repeat constructor; done. }
  destruct Hc as (cls & ns & -> & Hcls & Hsum).
  replace (length _) with (sum ns + 1)%nat
    by (rewrite Hsum, !length_app, Hl; simpl; unfold n; lia).
  do 5 (apply lexes_pre; [done|]). apply lexes_app; [by apply lexes_join | done].
Qed.

Lemma hunt_text_injection_free_witness :
  lexes (render_query (cq_sql HuntExample.query)) (length (cq_params HuntExample.query)).
Proof.
  apply (hunt_text_injection_free (fun _ => true) HuntExample.expr (Some 5) None (Some 1) None).
  vm_compute. reflexivity.
Defined.

(** The text of a small query, as the daemon runs it. *)
Example render_example :
  (fun q => render_query (cq_sql q)) <$>
    compile_hunt_query (fun _ => true) "event.action == 'exec' AND NOT user.name CONTAINS '%'"
      None None None None =
  Ok ("SELECT event_id, ts, kind, module, action, severity, payload_json" +:+ lf +:+
      "FROM events_enriched" +:+ lf +:+
      "WHERE ((((action = ?) IS TRUE) AND NOT ((((json_type(payload_json, '$.user.name') = 'VARCHAR' AND contains(json_extract_string(payload_json, '$.user.name'), ?))) IS TRUE))))" +:+ lf +:+
      "ORDER BY ts DESC, event_id DESC" +:+ lf +:+ "LIMIT ?")%string.
Proof. vm_compute. reflexivity. Qed.
