(* ===== verification/HuntScheduler.v ===== *)
(** * Scheduled hunts ([inspectord/hunt/scheduler.py])

    The scheduler thread as a program counter machine over the saved queries
    of [HuntStore.v] and the event table of [HuntSql.v]. One step is one
    access to the database; between two of them the other threads of the
    daemon act: events are inserted, retention deletes events, requests save,
    delete, schedule and unschedule queries, the daemon restarts.

    Clock readings, fresh event ids, the measured duration of a run and
    failures of the database are arguments of the steps. Rows stored before
    migration 0013, which have no ingest number, are not in the table. *)

From S2P Require Import Prelude Schemas Expr RuleEval HuntCompiler HuntSql RateLimit HuntStore HuntFidelity.

Definition SAMPLE_MAX : nat := 20.
Definition FAILURE_BACKOFF_AFTER : Z := 3.
Definition FAILURE_BACKOFF_S : Z := 3600.

(** [MIN(ingest_seq)]. *)
Definition min_ingest (t : EventTable) : option Z :=
  foldr (fun r m => Some (match m with Some m => Z.min (row_ingest_seq r) m | None => row_ingest_seq r end))
    None (tbl_rows t).

(** [_in_backoff]; the streaks are in memory only. *)
Definition in_backoff (streaks : gmap string Z) (q : ScheduledQuery) (now : Z) : bool :=
  if default 0 (streaks !! sq_name q) <? FAILURE_BACKOFF_AFTER then false
  else match sq_last_run_at q with
       | None => false
       | Some last => now <? last + Z.max (sq_interval_s q) FAILURE_BACKOFF_S * SECOND
       end.

(** ** The parts of [_run_one] *)

Definition watermark_of (q : ScheduledQuery) : Z := default 0 (sq_watermark q).

(** The upper end of the window; [None] when nothing was newly ingested. *)
Definition window_upper (t : EventTable) (q : ScheduledQuery) : option Z :=
  match max_ingest t with
  | None => None
  | Some upper => if upper <=? watermark_of q then None else Some upper
  end.

Definition pruned_gap (t : EventTable) (q : ScheduledQuery) : bool :=
  match min_ingest t with Some oldest => watermark_of q + 1 <? oldest | None => false end.

Definition scan_query {D : DuckDB} (re_compiles : string -> bool) (db_error : bool)
    (t : EventTable) (q : ScheduledQuery) (upper : Z) : result HuntError HuntResult :=
  compiled ← compile_hunt_query re_compiles (sq_expression q) (Some 0) None (Some MAX_LIMIT)
               (Some (watermark_of q, upper));
  run_hunt_query db_error t compiled.

(** The keyword arguments of [_match_event] and of the failure event. *)
Definition hunt_args (action type_ : string) (severity : string) (message : option string)
    (ts : Z) (hunt : dict) : EventArgs :=
  {| a_module := "hunt_scheduler"; a_action := action; a_category := ["hunt"%string];
     a_type := [type_]; a_severity := severity; a_kind := "signal";
     a_host := None; a_outcome := None; a_message := message; a_process := None;
     a_file := None; a_user := None; a_source := None; a_destination := None;
     a_network := None; a_service := None; a_package := None; a_device := None;
     a_persistence := None; a_vulnerability := None; a_hunt := Some hunt; a_threat := None;
     a_raw := None; a_labels := None; a_ts := Some ts; a_first_seen := false |}.

Definition match_event (q : ScheduledQuery) (res : HuntResult) (upper : Z) (duration : Q)
    (gap : bool) (now : Z) (id : string) : option Event :=
  let n := str_of_nat (length (hr_rows res)) in
  build_event now id
    (hunt_args "hunt_match" "info" (sq_severity q)
       (Some ("scheduled hunt " +:+ sq_name q +:+ ": " +:+ n +:+ " new match(es)")) now
       [("name", PStr (sq_name q)); ("severity", PStr (sq_severity q));
        ("match_count", PInt (Z.of_nat (length (hr_rows res))));
        ("sample_event_ids", PList ((fun r => PStr (row_event_id r)) <$> take SAMPLE_MAX (hr_rows res)));
        ("window_upper_seq", PInt upper); ("run_duration_s", PFloat duration);
        ("truncated", PBool (hr_truncated res)); ("pruned_gap", PBool gap)]%string).

Definition failure_event (q : ScheduledQuery) (kind : string) (now : Z) (id : string) : option Event :=
  build_event now id
    (hunt_args "hunt_run_failed" "error" (sq_severity q) None now
       [("name", PStr (sq_name q)); ("severity", PStr (sq_severity q));
        ("error_kind", PStr kind)]%string).

Record Sched := mkSched {
  sd_rows : list HuntQuery;
  sd_streaks : gmap string Z;
  sd_emitted : list Event;
}.

(** The end of [_run_one]: the guarded stamp, then the event. The boolean says
    whether the stamp hit. *)
Definition commit_run (s : Sched) (q : ScheduledQuery) (res : HuntResult) (upper : Z)
    (duration : Q) (gap : bool) (now : Z) (id : string) : bool * Sched :=
  let '(hit, rows) := record_run (sd_rows s) (sq_name q) (Some upper) "ok" now in
  if negb hit then (false, mkSched rows (sd_streaks s) (sd_emitted s))
  else
    (true, mkSched rows (delete (sq_name q) (sd_streaks s))
             (sd_emitted s ++
              match hr_rows res with
              | [] => []
              | _ => option_list (match_event q res upper duration gap now id)
              end)).

(** [_record_failure]. *)
Definition record_failure (s : Sched) (q : ScheduledQuery) (kind : string) (now : Z) (id : string)
  : Sched :=
  let transition := negb (startswith "failed" (default EmptyString (sq_last_status q))) in
  let '(hit, rows) := record_run (sd_rows s) (sq_name q) None ("failed:" +:+ kind) now in
  if negb hit then mkSched rows (sd_streaks s) (sd_emitted s)
  else
    mkSched rows
      (<[sq_name q := default 0 (sd_streaks s !! sq_name q) + 1]> (sd_streaks s))
      (sd_emitted s ++ (if transition then option_list (failure_event q kind now id) else [])).

(** ** The scheduler among the other threads *)

(** Where the thread is: idle between ticks, in the loop over the due queries,
    after the reading of MAX, after the reading of MIN, after the SELECT
    (holding the table it ran on), or about to record a failure. *)
Inductive PC :=
| PIdle
| PLoop (now : Z) (queue : list ScheduledQuery)
| PWindow (now : Z) (q : ScheduledQuery) (upper : Z) (queue : list ScheduledQuery)
| PBounded (now : Z) (q : ScheduledQuery) (upper : Z) (gap : bool) (queue : list ScheduledQuery)
| PScanned (now : Z) (q : ScheduledQuery) (upper : Z) (gap : bool) (t : EventTable)
    (res : HuntResult) (queue : list ScheduledQuery)
| PFailed (now : Z) (q : ScheduledQuery) (kind : string) (queue : list ScheduledQuery).

(** The queries a tick has read and not finished. *)
Definition in_flight (pc : PC) : list ScheduledQuery :=
  match pc with
  | PIdle => []
  | PLoop _ qs => qs
  | PWindow _ q _ qs | PBounded _ q _ _ qs | PScanned _ q _ _ _ _ qs | PFailed _ q _ qs => q :: qs
  end.

(** Where an exception that is not a [HuntError] makes [tick] record an
    internal failure of the query at hand. *)
Definition can_raise (pc : PC) : option (Z * ScheduledQuery * list ScheduledQuery) :=
  match pc with
  | PLoop now (q :: qs) | PWindow now q _ qs | PBounded now q _ _ qs
  | PScanned now q _ _ _ _ qs => Some (now, q, qs)
  | _ => None
  end.

(** A completed run, for the record: the incarnation of the saved query it
    belongs to, its window, the table it read and its result. *)
Record Scan := mkScan {
  sc_query : ScheduledQuery;
  sc_gen : nat;
  sc_upper : Z;
  sc_table : EventTable;
  sc_result : HuntResult;
  sc_gap : bool;
  sc_duration : Q;
  sc_now : Z;
  sc_id : string;
}.
Definition sc_lo (sc : Scan) : Z := watermark_of (sc_query sc).

(** The daemon, with three records of its history: the completed runs, how
    often a name was deleted, and the watermark its first schedule gave it. *)
Record Conf := mkConf {
  cf_srv : HuntSrv;
  cf_table : EventTable;
  cf_streaks : gmap string Z;
  cf_emitted : list Event;
  cf_pc : PC;
  cf_log : list Scan;
  cf_gen : string -> nat;
  cf_base : string -> option Z;
}.
Definition cf_rows (c : Conf) : list HuntQuery := hs_rows (cf_srv c).

Definition watermark_in (rows : list HuntQuery) (name : string) : option Z :=
  q ← find_query rows name; hq_watermark q.

Definition set_pc (c : Conf) (pc : PC) : Conf :=
  mkConf (cf_srv c) (cf_table c) (cf_streaks c) (cf_emitted c) pc (cf_log c) (cf_gen c) (cf_base c).
Definition set_table (c : Conf) (t : EventTable) : Conf :=
  mkConf (cf_srv c) t (cf_streaks c) (cf_emitted c) (cf_pc c) (cf_log c) (cf_gen c) (cf_base c).

(** A request changes the rows; the history notes a deletion and a watermark
    that appears. *)
Definition after_request (c : Conf) (srv : HuntSrv) : Conf :=
  mkConf srv (cf_table c) (cf_streaks c) (cf_emitted c) (cf_pc c) (cf_log c)
    (fun n => match find_query (cf_rows c) n, find_query (hs_rows srv) n with
              | Some _, None => S (cf_gen c n) | _, _ => cf_gen c n end)
    (fun n => match watermark_in (cf_rows c) n, watermark_in (hs_rows srv) n with
              | None, w => w | Some _, None => None | Some _, Some _ => cf_base c n end).

(** The scheduler's writes. *)
Definition sched_of (c : Conf) : Sched := mkSched (cf_rows c) (cf_streaks c) (cf_emitted c).
Definition with_sched (c : Conf) (s : Sched) (pc : PC) (log : list Scan) : Conf :=
  mkConf (mkHuntSrv (sd_rows s) (hs_limiter (cf_srv c)) (hs_audit (cf_srv c))) (cf_table c)
    (sd_streaks s) (sd_emitted s) pc log (cf_gen c) (cf_base c).

Section Machine.
Context {D : DuckDB} (re_compiles : string -> bool) (sha256 : string -> string)
        (str_other : pyval -> string) (iso : Z -> string).

Definition start_conf (limiter : option Limiter) : Conf :=
  mkConf (mkHuntSrv [] limiter []) (mkTable [] 1) ∅ [] PIdle [] (fun _ => O) (fun _ => None).

(** The table a scheduling request reads is the current one. *)
Definition request_of (req : hunt_req) (t : EventTable) : hunt_req :=
  match req with RSchedule _ => RSchedule t | _ => req end.

(** With [guarded], no query is deleted while a tick holds it. *)
Inductive sstep (guarded : bool) : Conf -> Conf -> Prop :=
| ss_insert c e : sstep guarded c (set_table c (insert_event iso (cf_table c) e))
| ss_prune c keep :
    sstep guarded c (set_table c (mkTable (List.filter keep (tbl_rows (cf_table c)))
                                    (tbl_next_seq (cf_table c))))
| ss_request c req mono params srv :
    srv = (serve_hunt re_compiles sha256 str_other (request_of req (cf_table c)) mono params (cf_srv c)).2 ->
    (guarded = true -> forall q, q ∈ in_flight (cf_pc c) -> find_query (hs_rows srv) (sq_name q) <> None) ->
    sstep guarded c (after_request c srv)
| ss_restart c :
    sstep guarded c (mkConf (cf_srv c) (cf_table c) ∅ (cf_emitted c) PIdle (cf_log c)
                       (cf_gen c) (cf_base c))
| ss_tick c now qs :
    cf_pc c = PIdle -> due_queries (cf_rows c) now = Ok qs ->
    sstep guarded c (set_pc c (PLoop now qs))
| ss_stop c : sstep guarded c (set_pc c PIdle)
| ss_skip c now q qs :
    cf_pc c = PLoop now (q :: qs) ->
    in_backoff (cf_streaks c) q now = true \/ window_upper (cf_table c) q = None ->
    sstep guarded c (set_pc c (PLoop now qs))
| ss_window c now q qs upper :
    cf_pc c = PLoop now (q :: qs) -> in_backoff (cf_streaks c) q now = false ->
    window_upper (cf_table c) q = Some upper ->
    sstep guarded c (set_pc c (PWindow now q upper qs))
| ss_gap c now q upper qs :
    cf_pc c = PWindow now q upper qs ->
    sstep guarded c (set_pc c (PBounded now q upper (pruned_gap (cf_table c) q) qs))
| ss_scan c now q upper gap qs db_error res :
    cf_pc c = PBounded now q upper gap qs ->
    scan_query re_compiles db_error (cf_table c) q upper = Ok res ->
    sstep guarded c (set_pc c (PScanned now q upper gap (cf_table c) res qs))
| ss_scan_error c now q upper gap qs db_error e :
    cf_pc c = PBounded now q upper gap qs ->
    scan_query re_compiles db_error (cf_table c) q upper = Err e ->
    sstep guarded c (set_pc c (PFailed now q (hunt_error_kind e) qs))
| ss_internal c now q qs :
    can_raise (cf_pc c) = Some (now, q, qs) ->
    sstep guarded c (set_pc c (PFailed now q "internal" qs))
| ss_commit c now q upper gap t res qs duration id s :
    cf_pc c = PScanned now q upper gap t res qs ->
    commit_run (sched_of c) q res upper duration gap now id = (true, s) ->
    sstep guarded c (with_sched c s (PLoop now qs)
      (cf_log c ++ [mkScan q (cf_gen c (sq_name q)) upper t res gap duration now id]))
| ss_discard c now q upper gap t res qs duration id s :
    cf_pc c = PScanned now q upper gap t res qs ->
    commit_run (sched_of c) q res upper duration gap now id = (false, s) ->
    sstep guarded c (with_sched c s (PLoop now qs) (cf_log c))
| ss_failed c now q kind qs id :
    cf_pc c = PFailed now q kind qs ->
    sstep guarded c (with_sched c (record_failure (sched_of c) q kind now id) (PLoop now qs) (cf_log c)).
End Machine.

(** ** How the operations of the store move a watermark *)

Lemma find_query_fmap (f : HuntQuery -> HuntQuery) (rows : list HuntQuery) (n : string) :
  (forall q, hq_name (f q) = hq_name q) -> find_query (f <$> rows) n = f <$> find_query rows n.
Proof.
  intros Hf. unfold find_query. induction rows as [|q rows IH]; simpl; [done|].
  rewrite Hf. by destruct (String.eqb (hq_name q) n).
Qed.

Lemma watermark_record_run (rows : list HuntQuery) (name : string) (wm : option Z)
    (status : string) (now : Z) (n : string) :
  let '(hit, rows') := record_run rows name wm status now in
  (find_query rows' n = None <-> find_query rows n = None) /\
  (n <> name \/ wm = None -> watermark_in rows' n = watermark_in rows n).
Proof.
  unfold record_run, watermark_in. rewrite find_query_fmap by (intros q; by destruct (run_hits name q)).
  destruct (find_query rows n) as [q|] eqn:Ef; simpl; [|done]. split; [done|].
  apply find_query_Some in Ef as [_ <-]. unfold run_hits.
  destruct (String.eqb_spec (hq_name q) name) as [->|]; simpl; [|done].
  intros [H| ->]; [done|]. by destruct (is_some (hq_interval_s q)).
Qed.

Lemma record_run_hit (re_compiles : string -> bool) (rows : list HuntQuery) (name : string) (upper : Z)
    (status : string) (now : Z) (rows' : list HuntQuery) :
  store_ok re_compiles rows -> record_run rows name (Some upper) status now = (true, rows') ->
  watermark_in rows' name = Some upper.
Proof.
  intros [Hnd _] [= He <-]. unfold watermark_in.
  rewrite find_query_fmap by (intros q; by destruct (run_hits name q)).
  apply existsb_exists in He as (q & Hin%list_elem_of_In & Hh).
  assert (find_query rows name = Some q) as ->.
  { destruct (find_query rows name) as [r|] eqn:Ef.
    - apply find_query_Some in Ef as [Hr Hn]. f_equal. apply (NoDup_fmap_eq hq_name rows); try done.
      rewrite Hn. unfold run_hits in Hh. by apply andb_true_iff in Hh as [->%String.eqb_eq _].
    - exfalso. apply find_query_None in Ef. apply Ef. unfold query_names. rewrite list_elem_of_fmap.
      exists q. split; [|done]. unfold run_hits in Hh. by apply andb_true_iff in Hh as [->%String.eqb_eq _]. }
  simpl. by rewrite Hh.
Qed.

(** The three things a request can do to a name. *)
Definition request_effect (t : EventTable) (rows rows' : list HuntQuery) (n : string) : Prop :=
  find_query rows' n = None \/
  (watermark_in rows' n = watermark_in rows n /\ find_query rows' n <> None) \/
  (watermark_in rows n = None /\ watermark_in rows' n = Some (default 0 (max_ingest t)) /\
   find_query rows' n <> None).

Lemma effect_same (t : EventTable) (rows : list HuntQuery) (n : string) : request_effect t rows rows n.
Proof. unfold request_effect. destruct (find_query rows n) eqn:E; [right; left | left]; by split. Qed.

Lemma effect_update (t : EventTable) (rows : list HuntQuery) (name n : string) (f : HuntQuery -> HuntQuery) :
  (forall q, hq_name (f q) = hq_name q) ->
  (forall q, hq_watermark (f q) = hq_watermark q \/
     (hq_watermark q = None /\ hq_watermark (f q) = Some (default 0 (max_ingest t)))) ->
  request_effect t rows (update_query name f rows) n.
Proof.
  intros Hn Hf. unfold request_effect, watermark_in. rewrite find_update by done.
  destruct (String.eqb name n); [|apply effect_same].
  destruct (find_query rows n) as [q|]; simpl; [|by left]. right.
  destruct (Hf q) as [->|[-> ->]]; [by left | by right].
Qed.

Lemma limited_rel {A} (R : list HuntQuery -> Prop) (str_other : pyval -> string) (mono : Z)
    (params : dict) (s : HuntSrv) (body : HuntSrv -> HuntReply A * HuntSrv) :
  R (hs_rows s) -> (forall s1, hs_rows s1 = hs_rows s -> R (hs_rows (body s1).2)) ->
  R (hs_rows (limited str_other mono params s body).2).
Proof.
  intros Hs Hb. unfold limited, rate_limited. destruct (hs_limiter s) as [l|]; [|by apply Hb].
  destruct (check_limit l mono) as [[allowed audit] l'].
  destruct allowed; [by apply Hb|]. by destruct audit.
Qed.

Lemma serve_effect re_compiles sha256 str_other (req : hunt_req) (t : EventTable) (mono : Z)
    (params : dict) (s : HuntSrv) (n : string) :
  request_effect t (hs_rows s)
    (hs_rows (serve_hunt re_compiles sha256 str_other (request_of req t) mono params s).2) n.
Proof.
  destruct req as [now| |t'|]; cbn [serve_hunt answered snd request_of];
    unfold handle_save_hunt_query, handle_delete_hunt_query, handle_schedule_hunt_query,
      handle_unschedule_hunt_query;
    apply (limited_rel (fun rows => request_effect t (hs_rows s) rows n)); try apply effect_same;
    intros [rows1 l1 a1] H1; cbn [hs_rows] in *; subst rows1.
  - destruct (save_target _ _) as [[[[[name expression] description] replace] was]|]; [|apply effect_same].
    pose proof (save_query_spec re_compiles (hs_rows s) now name expression description replace) as H.
    destruct (save_query _ _ _ _ _ _ _) as [[o|] rows]; [|subst; apply effect_same].
    destruct H as (_ & _ & [[Hf ->] | (q & Hf & _ & ->)]); cbn [hs_set hs_rows snd].
    + unfold request_effect, watermark_in. rewrite find_app. simpl.
      destruct (find_query (hs_rows s) n) eqn:E; [by right; left|].
      destruct (String.eqb name n); [by right; left | by left].
    + apply effect_update; [done|]. by left.
  - destruct (_ ≫= _) as [[name was]|]; [|apply effect_same].
    pose proof (delete_query_spec (hs_rows s) name) as H.
    destruct (delete_query _ _) as [[d|] rows]; [|subst; apply effect_same].
    destruct H as [Hf ->]. cbn [hs_set hs_rows snd]. destruct (decide (name = n)) as [->|Hne].
    + left. destruct (find_query (List.filter _ _) n) as [q|] eqn:E; [|done].
      apply find_query_Some in E as [[_ Hq]%list_elem_of_In%List.filter_In <-].
      by rewrite String.eqb_refl in Hq.
    + unfold request_effect, watermark_in. rewrite (find_filter _ name n) by done. apply effect_same.
  - destruct (_ ≫= _) as [[[[name interval] severity] preserved]|]; [|apply effect_same].
    pose proof (schedule_query_spec (hs_rows s) name interval severity (default 0 (max_ingest t))) as H.
    destruct (schedule_query _ _ _ _ _) as [[o|[e|]] rows]; [|subst; apply effect_same..].
    destruct H as (_ & _ & _ & _ & ->). cbn [hs_set hs_rows snd]. apply effect_update; [done|].
    intros q. simpl. destruct (hq_watermark q); [by left | by right].
  - destruct (required_str params "name") as [name|]; [|apply effect_same].
    pose proof (unschedule_query_spec (hs_rows s) name) as H.
    destruct (unschedule_query _ _) as [[o|] rows]; [|subst; apply effect_same].
    destruct H as (_ & _ & ->). cbn [hs_set hs_rows snd]. apply effect_update; [done|]. by left.
Qed.

Lemma all_scheduled_Forall2 (l : list HuntQuery) (qs : list ScheduledQuery) :
  all_scheduled l = Ok qs -> Forall2 (fun q s => to_scheduled q = Ok s) l qs.
Proof.
  revert qs. induction l as [|q l IH]; intros qs; [intros [= <-]; constructor|].
  cbn [all_scheduled]. intros (s & Hs & (ss & Hss & [= <-])%bind_Ok)%bind_Ok.
  constructor; auto.
Qed.

Lemma to_scheduled_Ok (q : HuntQuery) (s : ScheduledQuery) :
  to_scheduled q = Ok s ->
  sq_name s = hq_name q /\ sq_watermark s = hq_watermark q /\ hq_interval_s q <> None /\
  hq_severity q = Some (sq_severity s).
Proof. unfold to_scheduled. by destruct (hq_interval_s q), (hq_severity q); intros [= <-]. Qed.

(** A query a tick holds: its watermark and severity are those of its row. *)
Definition held_ok (rows : list HuntQuery) (q : ScheduledQuery) : Prop :=
  sq_severity q ∈ SCHEDULE_SEVERITIES /\
  exists w, sq_watermark q = Some w /\ watermark_in rows (sq_name q) = Some w.

Lemma due_queries_spec (re_compiles : string -> bool) (rows : list HuntQuery) (now : Z) (qs : list ScheduledQuery) :
  store_ok re_compiles rows -> due_queries rows now = Ok qs ->
  NoDup (sq_name <$> qs) /\ Forall (held_ok rows) qs.
Proof.
  intros [Hnd Hall] Hd%all_scheduled_Forall2.
  assert (Hsub : forall q, q ∈ merge_sort name_le (List.filter (is_due now) rows) -> q ∈ rows).
  { intros q. rewrite merge_sort_Permutation, list_elem_of_In, List.filter_In, <- list_elem_of_In. tauto. }
  split.
  - assert (sq_name <$> qs = hq_name <$> merge_sort name_le (List.filter (is_due now) rows)) as ->.
    { clear Hsub. induction Hd as [|q s l l' Hq _ IH]; [done|].
      apply to_scheduled_Ok in Hq as [Hq _]. rewrite !fmap_cons. by f_equal. }
    rewrite merge_sort_Permutation. unfold query_names in Hnd. clear Hd Hsub Hall.
    induction rows as [|q rows IH]; [constructor|]. simpl in *. apply NoDup_cons in Hnd as [Hn Hnd].
    destruct (is_due now q); [|by apply IH]. simpl. apply NoDup_cons. split; [|by apply IH].
    intros (r & Hr & [Hin _]%list_elem_of_In%List.filter_In)%list_elem_of_fmap.
    apply Hn, list_elem_of_fmap. exists r. split; [done|]. by apply list_elem_of_In.
  - apply Forall_forall. intros s (i & Hi)%list_elem_of_lookup.
    destruct (Forall2_lookup_r _ _ _ _ _ Hd Hi) as (q & Hq & Hs).
    apply list_elem_of_lookup_2, Hsub in Hq as Hin. rewrite Forall_forall in Hall.
    pose proof (Hall q Hin) as Hok. apply to_scheduled_Ok in Hs as (Hn & Hw & Hint & Hsev).
    split; [by apply (qo_severity re_compiles q Hok)|].
    destruct (hq_watermark q) as [w|] eqn:Ew; [|by destruct (qo_watermark re_compiles q Hok)].
    exists w. split; [done|]. unfold watermark_in.
    destruct (find_query rows (sq_name s)) as [r|] eqn:Ef.
    + apply find_query_Some in Ef as [Hr Hrn].
      assert (r = q) as -> by (apply (NoDup_fmap_eq hq_name rows); done || congruence). done.
    + apply find_query_None in Ef. exfalso. apply Ef. rewrite Hn. apply list_elem_of_fmap. by exists q.
Qed.

(** ** The invariant *)

(** Adjacent windows from [b] to [w], none of them empty. *)
Fixpoint chain (b : Z) (l : list (Z * Z)) (w : Z) : Prop :=
  match l with [] => b = w | (lo, hi) :: rest => lo = b /\ lo < hi /\ chain hi rest w end.

Lemma windows_snoc (b : Z) (l : list (Z * Z)) (w w' : Z) :
  chain b l w -> w < w' -> chain b (l ++ [(w, w')]) w'.
Proof.
  revert b. induction l as [|[lo hi] l IH]; intros b; simpl; [by intros -> |].
  intros (-> & Hlt & Hc) Hw. auto.
Qed.

Lemma windows_le (b : Z) (l : list (Z * Z)) (w : Z) : chain b l w -> b <= w.
Proof.
  revert b. induction l as [|[lo hi] l IH]; intros b; simpl; [lia|].
  intros (-> & Hlt & Hc). specialize (IH _ Hc). lia.
Qed.

Definition in_range_of (s : Z) (x : Z * Z) : bool := (x.1 <? s) && (s <=? x.2).

(** Every number after the base and up to the watermark is in one window. *)
Lemma windows_once (b : Z) (l : list (Z * Z)) (w s : Z) :
  chain b l w -> length (List.filter (in_range_of s) l) = if (b <? s) && (s <=? w) then 1%nat else 0%nat.
Proof.
  revert b. induction l as [|[lo hi] l IH]; intros b; simpl.
  - intros ->. destruct (Z.ltb_spec w s), (Z.leb_spec s w); simpl; lia.
  - intros (-> & Hlt & Hc). specialize (IH _ Hc). pose proof (windows_le _ _ _ Hc).
    unfold in_range_of at 1. simpl.
    destruct (Z.ltb_spec b s), (Z.leb_spec s hi), (Z.leb_spec s w), (Z.ltb_spec hi s); simpl in *; lia.
Qed.

Lemma filter_fmap_length {A B} (p : B -> bool) (f : A -> B) (l : list A) :
  length (List.filter p (f <$> l)) = length (List.filter (fun x => p (f x)) l).
Proof.
  induction l as [|x l IH]; [done|]. rewrite fmap_cons. cbn [List.filter].
  destruct (p (f x)); cbn [length]; by rewrite IH.
Qed.

Definition scan_name (sc : Scan) : string := sq_name (sc_query sc).
Definition scans_of (c : Conf) (n : string) : list Scan :=
  List.filter (fun sc => String.eqb (scan_name sc) n && Nat.eqb (sc_gen sc) (cf_gen c n)) (cf_log c).
Definition window_of (sc : Scan) : Z * Z := (sc_lo sc, sc_upper sc).

(** The event a completed run emits. *)
Definition scan_event (sc : Scan) : option Event :=
  match hr_rows (sc_result sc) with
  | [] => None
  | _ => match_event (sc_query sc) (sc_result sc) (sc_upper sc) (sc_duration sc) (sc_gap sc)
           (sc_now sc) (sc_id sc)
  end.
Definition is_match (e : Event) : bool := String.eqb (ev_action e) "hunt_match".

Section Proofs.
Context {D : DuckDB} (re_compiles : string -> bool) (sha256 : string -> string)
        (str_other : pyval -> string) (iso : Z -> string).

Definition scan_faithful (q : ScheduledQuery) (upper : Z) (t : EventTable) (res : HuntResult) : Prop :=
  scan_query re_compiles false t q upper = Ok res.

Definition pc_ok (next : Z) (pc : PC) : Prop :=
  match pc with
  | PWindow _ q upper _ | PBounded _ q upper _ _ => watermark_of q < upper < next
  | PScanned _ q upper _ t res _ => watermark_of q < upper < next /\ scan_faithful q upper t res
  | _ => True
  end.

(** What the tables and the history say of a name. *)
Definition name_ok (c : Conf) (n : string) : Prop :=
  match watermark_in (cf_rows c) n with
  | None => cf_base c n = None /\ scans_of c n = []
  | Some w => w < tbl_next_seq (cf_table c) /\
      exists b, cf_base c n = Some b /\ chain b (window_of <$> scans_of c n) w
  end.

Record sinv (c : Conf) : Prop := {
  si_store : store_ok re_compiles (cf_rows c);
  si_table : 0 < tbl_next_seq (cf_table c) /\
             Forall (fun r => row_ingest_seq r < tbl_next_seq (cf_table c)) (tbl_rows (cf_table c));
  si_distinct : NoDup (sq_name <$> in_flight (cf_pc c));
  si_held : Forall (held_ok (cf_rows c)) (in_flight (cf_pc c));
  si_pc : pc_ok (tbl_next_seq (cf_table c)) (cf_pc c);
  si_names : forall n, name_ok c n;
  si_gen : Forall (fun sc => (sc_gen sc <= cf_gen c (scan_name sc))%nat) (cf_log c);
  si_log : Forall (fun sc => scan_faithful (sc_query sc) (sc_upper sc) (sc_table sc) (sc_result sc) /\
             sq_severity (sc_query sc) ∈ SCHEDULE_SEVERITIES) (cf_log c);
  si_emitted : List.filter is_match (cf_emitted c) = omap scan_event (cf_log c);
}.

Lemma max_ingest_lt (t : EventTable) (m : Z) :
  Forall (fun r => row_ingest_seq r < tbl_next_seq t) (tbl_rows t) ->
  max_ingest t = Some m -> m < tbl_next_seq t.
Proof.
  unfold max_ingest. intros H. revert m. induction H as [|r rows Hr _ IH]; intros m; [done|]. simpl.
  destruct (foldr _ _ rows) as [m'|]; intros [= <-]; [|done]. specialize (IH m' eq_refl). lia.
Qed.

Lemma window_upper_Some (t : EventTable) (q : ScheduledQuery) (upper : Z) :
  Forall (fun r => row_ingest_seq r < tbl_next_seq t) (tbl_rows t) ->
  window_upper t q = Some upper -> watermark_of q < upper < tbl_next_seq t.
Proof.
  unfold window_upper. intros Ht. destruct (max_ingest t) as [m|] eqn:Em; [|done].
  destruct (Z.leb_spec m (watermark_of q)); [done|]. intros [= <-].
  apply max_ingest_lt in Em; [lia | done].
Qed.

Lemma sinv_start (limiter : option Limiter) : sinv (start_conf limiter).
Proof. split; simpl; try done; try (by constructor); split; constructor. Qed.

Lemma sinv_set_pc (c : Conf) (pc : PC) :
  sinv c -> in_flight pc `sublist_of` in_flight (cf_pc c) ->
  pc_ok (tbl_next_seq (cf_table c)) pc -> sinv (set_pc c pc).
Proof.
  intros [H1 H2 H3 H4 H5 H6 H7 H8 H9] Hsub Hpc. split; try done; simpl.
  - eapply sublist_NoDup; [by apply H3|]. by apply fmap_sublist.
  - rewrite Forall_forall in H4 |- *. intros q Hq. by eapply H4, elem_of_sublist.
Qed.

Lemma pc_ok_mono (n n' : Z) (pc : PC) : n <= n' -> pc_ok n pc -> pc_ok n' pc.
Proof. intros Hn. destruct pc; simpl; intros H; try done; try lia. destruct H. split; [lia|done]. Qed.

Lemma sinv_set_table (c : Conf) (t : EventTable) :
  sinv c -> tbl_next_seq (cf_table c) <= tbl_next_seq t ->
  Forall (fun r => row_ingest_seq r < tbl_next_seq t) (tbl_rows t) -> sinv (set_table c t).
Proof.
  intros [H1 H2 H3 H4 H5 H6 H7 H8 H9] Hn Ht. split; try done; simpl.
  - split; [lia|done].
  - by eapply pc_ok_mono.
  - intros n. specialize (H6 n). unfold name_ok in *. simpl.
    change (cf_rows (set_table c t)) with (cf_rows c).
    destruct (watermark_in (cf_rows c) n); [|done]. destruct H6. split; [lia|done].
Qed.

Lemma sinv_insert (c : Conf) (e : Event) :
  sinv c -> sinv (set_table c (insert_event iso (cf_table c) e)).
Proof.
  intros Hs. destruct (si_table c Hs) as [_ Ht]. apply sinv_set_table; simpl; [done|lia|].
  apply Forall_app. split; [eapply Forall_impl; [done|]; simpl; lia|].
  apply Forall_singleton. simpl. lia.
Qed.

Lemma sinv_prune (c : Conf) (keep : EventRow -> bool) :
  sinv c -> sinv (set_table c (mkTable (List.filter keep (tbl_rows (cf_table c)))
                                (tbl_next_seq (cf_table c)))).
Proof.
  intros Hs. destruct (si_table c Hs) as [_ Ht]. apply sinv_set_table; simpl; [done|lia|].
  apply Forall_forall. intros r [Hr _]%list_elem_of_In%List.filter_In.
  rewrite Forall_forall in Ht. by apply Ht, list_elem_of_In.
Qed.

(** No run belongs to an incarnation that is still to come. *)
Lemma scans_future (log : list Scan) (gen : string -> nat) (n : string) :
  Forall (fun sc => (sc_gen sc <= gen (scan_name sc))%nat) log ->
  List.filter (fun sc => String.eqb (scan_name sc) n && Nat.eqb (sc_gen sc) (S (gen n))) log = [].
Proof.
  induction 1 as [|sc log Hsc _ IH]; [done|]. simpl.
  destruct (String.eqb_spec (scan_name sc) n) as [<-|]; [|done]. simpl.
  destruct (Nat.eqb_spec (sc_gen sc) (S (gen (scan_name sc)))); [lia | done].
Qed.

Lemma watermark_in_None (rows : list HuntQuery) (n : string) :
  find_query rows n = None -> watermark_in rows n = None.
Proof. unfold watermark_in. by intros ->. Qed.

Lemma name_ok_request (c : Conf) (srv : HuntSrv) (n : string) :
  sinv c -> request_effect (cf_table c) (cf_rows c) (hs_rows srv) n -> name_ok (after_request c srv) n.
Proof.
  intros Hs He. pose proof (si_names c Hs n) as Hn. unfold name_ok in *.
  change (cf_rows (after_request c srv)) with (hs_rows srv).
  change (cf_table (after_request c srv)) with (cf_table c).
  change (cf_log (after_request c srv)) with (cf_log c).
  unfold scans_of in *. cbn [cf_gen cf_base cf_log after_request].
  destruct He as [Hf | [[Hw Hf] | (Hw & Hw' & Hf)]].
  - rewrite (watermark_in_None _ _ Hf), Hf. split; [by destruct (watermark_in (cf_rows c) n)|].
    destruct (find_query (cf_rows c) n) as [q|] eqn:E; [by apply scans_future, (si_gen c)|].
    rewrite (watermark_in_None _ _ E) in Hn. apply Hn.
  - rewrite Hw. destruct (find_query (hs_rows srv) n) as [q|]; [|done].
    assert (match find_query (cf_rows c) n with Some _ => cf_gen c n | None => cf_gen c n end = cf_gen c n)
      as -> by by destruct (find_query (cf_rows c) n).
    revert Hn. destruct (watermark_in (cf_rows c) n); [done|]. by intros [_ Hn].
  - rewrite Hw, Hw' in *. destruct (find_query (hs_rows srv) n) as [q|]; [|done].
    assert (match find_query (cf_rows c) n with Some _ => cf_gen c n | None => cf_gen c n end = cf_gen c n)
      as -> by by destruct (find_query (cf_rows c) n).
    destruct Hn as [_ ->]. split; [|by exists (default 0 (max_ingest (cf_table c)))].
    destruct (si_table c Hs) as [Hpos Ht]. destruct (max_ingest (cf_table c)) as [m|] eqn:Em; simpl; [|done].
    by apply max_ingest_lt.
Qed.

Lemma sinv_request (c : Conf) (req : hunt_req) (mono : Z) (params : dict) (srv : HuntSrv) :
  sinv c ->
  srv = (serve_hunt re_compiles sha256 str_other (request_of req (cf_table c)) mono params (cf_srv c)).2 ->
  (forall q, q ∈ in_flight (cf_pc c) -> find_query (hs_rows srv) (sq_name q) <> None) ->
  sinv (after_request c srv).
Proof.
  intros Hs Hsrv Hg.
  assert (He : forall n, request_effect (cf_table c) (cf_rows c) (hs_rows srv) n)
    by (intros n; subst srv; apply serve_effect).
  split; try apply Hs.
  - subst srv. apply serve_hunt_ok, Hs.
  - simpl. pose proof (si_held c Hs) as Hh. rewrite !Forall_forall in *. intros q Hq.
    destruct (Hh q Hq) as (Hsev & w & Hw & Hr). split; [done|]. exists w. split; [done|].
    change (cf_rows (after_request c srv)) with (hs_rows srv).
    destruct (He (sq_name q)) as [Hf|[[Hw' _]|(Hw' & _)]]; [by destruct (Hg q Hq)|congruence|congruence].
  - intros n. by apply name_ok_request.
  - simpl. eapply Forall_impl; [by apply (si_gen c)|]. intros sc Hsc. simpl in *.
    repeat case_match; lia.
Qed.

(** *** The scheduler's own writes *)

Lemma held_record_run (rows : list HuntQuery) (name : string) (wm : option Z) (status : string)
    (now : Z) (q : ScheduledQuery) :
  sq_name q <> name \/ wm = None -> held_ok rows q ->
  held_ok (record_run rows name wm status now).2 q.
Proof.
  intros Hn (Hs & w & Hw & Hr). split; [done|]. exists w. split; [done|].
  pose proof (watermark_record_run rows name wm status now (sq_name q)) as H.
  destruct (record_run _ _ _ _ _) as [hit rows']. destruct H as [_ H]. simpl. by rewrite H.
Qed.

(** A stamp that moves no watermark and appends no run. *)
Lemma sinv_stamp (c : Conf) (name : string) (wm : option Z) (status : string) (now : Z)
    (rows : list HuntQuery) (streaks : gmap string Z) (emitted : list Event) (pc : PC) :
  sinv c -> wm = None \/ existsb (run_hits name) (cf_rows c) = false ->
  rows = (record_run (cf_rows c) name wm status now).2 ->
  in_flight pc `sublist_of` in_flight (cf_pc c) -> pc_ok (tbl_next_seq (cf_table c)) pc ->
  List.filter is_match emitted = List.filter is_match (cf_emitted c) ->
  sinv (with_sched c (mkSched rows streaks emitted) pc (cf_log c)).
Proof.
  intros Hs Hwm -> Hsub Hpc Hem.
  assert (Hsame : forall n, watermark_in (record_run (cf_rows c) name wm status now).2 n
                            = watermark_in (cf_rows c) n).
  { intros n. destruct Hwm as [->|Hno].
    - pose proof (watermark_record_run (cf_rows c) name None status now n) as H. simpl in *. by apply H; right.
    - unfold record_run. simpl. f_equal. rewrite <- (list_fmap_id (cf_rows c)) at 2.
      apply list_fmap_ext. intros i q Hq%list_elem_of_lookup_2. simpl.
      destruct (run_hits name q) eqn:E; [|done]. exfalso.
      apply not_true_iff_false in Hno. apply Hno, existsb_exists. exists q.
      split; [by apply list_elem_of_In | done]. }
  destruct (sinv_set_pc c pc Hs Hsub Hpc) as [H1 H2 H3 H4 H5 H6 H7 H8 H9].
  split; try done; simpl in *.
  - by apply record_run_ok.
  - rewrite Forall_forall in *. intros q Hq. destruct (H4 q Hq) as (Hsev & w & Hw & Hr).
    split; [done|]. exists w. split; [done|]. by rewrite <- Hr, <- Hsame.
  - intros n. specialize (H6 n). unfold name_ok in *.
    change (cf_rows _) with (record_run (cf_rows c) name wm status now).2 at 1.
    by rewrite Hsame.
  - by rewrite Hem.
Qed.

Lemma build_event_action (now : Z) (id : string) (a : EventArgs) (e : Event) :
  build_event now id a = Some e -> ev_action e = a_action a.
Proof.
  unfold build_event. destruct (EventKind_of _); [|done]. simpl.
  destruct (match a_outcome a with Some _ => _ | None => _ end); [|done]. simpl.
  destruct (Severity_of _); [|done]. by intros [= <-].
Qed.

Lemma filter_match_None (es : list Event) (o : option Event) :
  (forall e, o = Some e -> is_match e = false) ->
  List.filter is_match (es ++ option_list o) = List.filter is_match es.
Proof.
  intros H. rewrite List.filter_app. destruct o as [e|]; simpl; [|by rewrite app_nil_r].
  rewrite (H e eq_refl). apply app_nil_r.
Qed.

Lemma sinv_failed (c : Conf) now q kind qs id :
  sinv c -> cf_pc c = PFailed now q kind qs ->
  sinv (with_sched c (record_failure (sched_of c) q kind now id) (PLoop now qs) (cf_log c)).
Proof.
  intros Hs Hpc. unfold record_failure. simpl.
  assert (Hq : qs `sublist_of` in_flight (cf_pc c)) by (rewrite Hpc; by constructor).
  destruct (existsb _ _); simpl; eapply sinv_stamp; try done; try (by left).
  case_match; [|by rewrite app_nil_r]. apply filter_match_None.
  intros e He%build_event_action. unfold is_match. by rewrite He.
Qed.

Lemma sinv_discard (c : Conf) now q upper gap t res qs duration id s :
  sinv c -> cf_pc c = PScanned now q upper gap t res qs ->
  commit_run (sched_of c) q res upper duration gap now id = (false, s) ->
  sinv (with_sched c s (PLoop now qs) (cf_log c)).
Proof.
  intros Hs Hpc. unfold commit_run. simpl.
  assert (Hq : qs `sublist_of` in_flight (cf_pc c)) by (rewrite Hpc; by constructor).
  destruct (existsb (run_hits (sq_name q)) (cf_rows c)) eqn:E; simpl; [done|]. intros [= <-].
  eapply (sinv_stamp c (sq_name q) (Some upper) "ok" now); try done. by right.
Qed.

Lemma scans_of_snoc (c c' : Conf) (sc : Scan) (n : string) :
  cf_log c' = cf_log c ++ [sc] -> cf_gen c' = cf_gen c -> sc_gen sc = cf_gen c (scan_name sc) ->
  scans_of c' n = scans_of c n ++ (if String.eqb (scan_name sc) n then [sc] else []).
Proof.
  intros Hl Hg Hsc. unfold scans_of. rewrite Hl, Hg, List.filter_app. f_equal. simpl.
  destruct (String.eqb_spec (scan_name sc) n) as [<-|]; [|done]. simpl. by rewrite Hsc, Nat.eqb_refl.
Qed.

Lemma filter_match_commit (es : list Event) (sc : Scan) :
  List.filter is_match (es ++ match hr_rows (sc_result sc) with
                              | [] => [] | _ => option_list (match_event (sc_query sc) (sc_result sc)
                                   (sc_upper sc) (sc_duration sc) (sc_gap sc) (sc_now sc) (sc_id sc)) end)
  = List.filter is_match es ++ option_list (scan_event sc).
Proof.
  rewrite List.filter_app. f_equal. unfold scan_event.
  destruct (hr_rows (sc_result sc)) as [|r rs]; [done|].
  destruct (match_event _ _ _ _ _ _ _) as [ev|] eqn:Ee; [|done]. simpl.
  apply build_event_action in Ee. unfold is_match. by rewrite Ee.
Qed.

Lemma sinv_commit (c : Conf) now q upper gap t res qs duration id s :
  sinv c -> cf_pc c = PScanned now q upper gap t res qs ->
  commit_run (sched_of c) q res upper duration gap now id = (true, s) ->
  sinv (with_sched c s (PLoop now qs)
          (cf_log c ++ [mkScan q (cf_gen c (sq_name q)) upper t res gap duration now id])).
Proof.
  intros Hs Hpc Hc. set (sc := mkScan _ _ _ _ _ _ _ _ _). unfold commit_run in Hc.
  destruct (record_run (sd_rows (sched_of c)) (sq_name q) (Some upper) "ok" now) as [hit rows] eqn:Er.
  destruct hit; simpl in Hc; [|done]. injection Hc as <-.
  destruct Hs as [H1 H2 H3 H4 H5 H6 H7 H8 H9]. rewrite Hpc in H3, H4, H5. cbn [in_flight] in H3, H4.
  rewrite fmap_cons in H3. apply NoDup_cons in H3 as [Hnq H3]. apply Forall_cons in H4 as [Hheld H4].
  destruct H5 as [Hup Hf]. destruct Hheld as (Hsev & w & Hw & Hin).
  assert (Hrun : rows = (record_run (cf_rows c) (sq_name q) (Some upper) "ok" now).2)
    by (unfold sched_of in Er; simpl sd_rows in Er; by rewrite Er).
  split; cbn [with_sched cf_srv cf_rows hs_rows sd_rows cf_table in_flight cf_pc pc_ok cf_log cf_gen sd_emitted cf_emitted]; try done.
  - rewrite Hrun. by apply record_run_ok.
  - rewrite Hrun. rewrite Forall_forall in *. intros q' Hq'. apply held_record_run; [|by apply H4].
    left. intros Heq. apply Hnq. rewrite <- Heq. apply list_elem_of_fmap. by exists q'.
  - intros n. specialize (H6 n). unfold name_ok in *.
    erewrite (scans_of_snoc c) by done. change (cf_rows (with_sched _ _ _ _)) with rows.
    change (scan_name sc) with (sq_name q). cbn [cf_table cf_base with_sched].
    destruct (String.eqb_spec (sq_name q) n) as [<-|Hne].
    + rewrite (record_run_hit re_compiles _ _ _ _ _ _ H1 Er). rewrite Hin in H6. destruct H6 as [_ (b & Hb & Hch)].
      split; [lia|]. exists b. split; [done|]. rewrite fmap_app. simpl.
      unfold window_of at 2, sc_lo, watermark_of. simpl. unfold watermark_of in Hup. rewrite Hw in *.
      apply windows_snoc; [done | apply Hup].
    + pose proof (watermark_record_run (cf_rows c) (sq_name q) (Some upper) "ok" now n) as Hr.
      change (sd_rows (sched_of c)) with (cf_rows c) in Er. rewrite Er in Hr. destruct Hr as [_ Hr].
      rewrite Hr, app_nil_r by (left; congruence). done.
  - apply Forall_app. split; [done|]. by apply Forall_singleton.
  - apply Forall_app. split; [done|]. by apply Forall_singleton.
  - change (sd_emitted (sched_of c)) with (cf_emitted c).
    etrans; [apply (filter_match_commit (cf_emitted c) sc)|]. by rewrite H9, omap_app.
Qed.

Lemma scan_query_error (db_error : bool) (t : EventTable) (q : ScheduledQuery) (upper : Z) res :
  scan_query re_compiles db_error t q upper = Ok res -> scan_faithful q upper t res.
Proof.
  unfold scan_faithful, scan_query. intros (cq & Hc & Hr)%bind_Ok. rewrite Hc.
  by destruct db_error.
Qed.

Lemma can_raise_flight (pc : PC) now q qs :
  can_raise pc = Some (now, q, qs) -> in_flight pc = q :: qs.
Proof. destruct pc as [|? [|]| | | |]; simpl; by intros [= -> -> ->]. Qed.

Lemma sinv_step (c c' : Conf) :
  sstep re_compiles sha256 str_other iso true c c' -> sinv c -> sinv c'.
Proof.
  intros Hst Hs.
  destruct Hst as [c e|c keep|c req mono params srv Hsrv Hg|c|c now qs Hpc Hd|c|c now q qs Hpc Hw
    |c now q qs upper Hpc _ Hw|c now q upper qs Hpc|c now q upper gap qs dbe res Hpc Hr
    |c now q upper gap qs dbe err Hpc Hr|c now q qs Hpc|c now q upper gap t res qs dur id s Hpc Hc
    |c now q upper gap t res qs dur id s Hpc Hc|c now q kind qs id Hpc].
  - by apply sinv_insert.
  - by apply sinv_prune.
  - eapply sinv_request; [done..|]. by apply Hg.
  - destruct Hs. by split; try (by constructor).
  - destruct (due_queries_spec re_compiles (cf_rows c) now qs) as [Hnd Hh]; [apply Hs|done|].
    destruct Hs. by split.
  - apply sinv_set_pc; [done| |done]. apply sublist_nil_l.
  - apply sinv_set_pc; [done| |done]. rewrite Hpc. by constructor.
  - apply sinv_set_pc; [done| |].
    + by rewrite Hpc.
    + apply window_upper_Some; [apply Hs | done].
  - apply sinv_set_pc; [done|by rewrite Hpc|]. pose proof (si_pc c Hs) as H. by rewrite Hpc in H.
  - apply sinv_set_pc; [done|by rewrite Hpc|]. pose proof (si_pc c Hs) as H. rewrite Hpc in H.
    split; [done|]. by eapply scan_query_error.
  - apply sinv_set_pc; [done|by rewrite Hpc|done].
  - apply sinv_set_pc; [done| |done]. by rewrite (can_raise_flight _ _ _ _ Hpc).
  - by eapply sinv_commit.
  - by eapply sinv_discard.
  - by apply sinv_failed.
Qed.

Lemma sinv_reachable (limiter : option Limiter) (c : Conf) :
  rtc (sstep re_compiles sha256 str_other iso true) (start_conf limiter) c -> sinv c.
Proof.
  intros H. remember (start_conf limiter) as c0 eqn:E0.
  assert (H0 : sinv c0) by (subst; apply sinv_start). clear E0.
  induction H as [|x y z Hxy _ IH]; [done|]. apply IH. by eapply sinv_step.
Qed.

(** *** What a run found *)

Context {L : DuckDBLaws D} (class_attr : string -> pyval)
        (re_search : string -> string -> result PyExc bool).

(** The events of the table a run read that the rule evaluator accepts and
    that lie in its window. *)
Definition window_hits (sc : Scan) (stored : list (Event * Z)) : list (Event * Z) :=
  List.filter (accepts class_attr re_search (sq_expression (sc_query sc)) (Some 0) None
                 (Some (window_of sc))) stored.

Definition scan_complete (sc : Scan) : Prop :=
  forall stored, stores iso (sc_table sc) stored ->
    Forall (comparable class_attr re_search iso (sq_expression (sc_query sc))) stored ->
    let hits := window_hits sc stored in
    hr_truncated (sc_result sc) = (MAX_LIMIT <? Z.of_nat (length hits)) /\
    Z.of_nat (length (hr_rows (sc_result sc))) = Z.min MAX_LIMIT (Z.of_nat (length hits)) /\
    (hr_truncated (sc_result sc) = false ->
     Permutation (hr_rows (sc_result sc)) ((fun x => row_of_event iso x.1 x.2) <$> hits)).

Lemma scan_faithful_complete (sc : Scan) :
  scan_faithful (sc_query sc) (sc_upper sc) (sc_table sc) (sc_result sc) -> scan_complete sc.
Proof.
  intros (cq & Hc & Hr)%bind_Ok stored Ht Hs hits.
  assert (Hlim : cq_limit cq = MAX_LIMIT).
  { apply compile_hunt_query_inv in Hc as (gs & bd & _ & Hl & _). by injection Hl. }
  destruct (hunt_hits class_attr re_search re_compiles iso _ _ _ _ _ _ _ _ Hc Ht Hs)
    as (l & Hp & _ & Hrun).
  rewrite Hr, Hlim in Hrun. injection Hrun as ->. cbn [hr_truncated hr_rows].
  pose proof (Permutation_length Hp) as Hlen. rewrite length_fmap in Hlen. fold (window_of sc) in Hlen.
  change (length l = length hits) in Hlen. rewrite Hlen, length_take, Hlen. split_and!.
  - done.
  - unfold MAX_LIMIT. lia.
  - intros Hn%Z.ltb_ge. rewrite take_ge by lia. exact Hp.
Qed.


End Proofs.

(** ** A run, and a run whose query is replaced under it *)

Module SchedExample.

Definition step := sstep (D := ReferenceDB) (fun _ => true) (fun s => s) (fun _ => EmptyString) str_of_Z.

Definition request (c : Conf) (r : hunt_req) (params : dict) : Conf :=
  after_request c (serve_hunt (fun _ => true) (fun s => s) (fun _ => EmptyString)
                     (request_of r (cf_table c)) 0 params (cf_srv c)).2.

Definition save_params (expression : string) : dict :=
  [("name", PStr "h"); ("expression", PStr expression)]%string.
Definition sched_params : dict := [("name", PStr "h"); ("interval_s", PInt 300)]%string.
Definition delete_params : dict := [("name", PStr "h"); ("scheduled_ok", PBool true)]%string.

Definition c0 : Conf := start_conf None.
Definition c1 := request c0 (RSave 1) (save_params "event.action == 'exec'").
Definition c2 := request c1 (RSchedule (cf_table c1)) sched_params.
Definition c3 := set_table c2 (insert_event str_of_Z (cf_table c2) (HuntExample.blank_event "a" "exec" 10 None)).
Definition q : ScheduledQuery :=
  match due_queries (cf_rows c3) 1000 with
  | Ok (q :: _) => q
  | _ => mkScheduled EmptyString EmptyString 0 EmptyString None None None
  end.
Definition c4 := set_pc c3 (PLoop 1000 [q]).
Definition c5 := set_pc c4 (PWindow 1000 q 1 []).
Definition c6 := set_pc c5 (PBounded 1000 q 1 false []).
Definition res : HuntResult :=
  match scan_query (D := ReferenceDB) (fun _ => true) false (cf_table c6) q 1 with
  | Ok r => r | Err _ => mkResult [] false 0
  end.
Definition c7 := set_pc c6 (PScanned 1000 q 1 false (cf_table c6) res []).
Definition commit (c : Conf) : Conf :=
  with_sched c (commit_run (sched_of c) q res 1 0 false 1000 "m").2 (PLoop 1000 [])
    (cf_log c ++ [mkScan q (cf_gen c (sq_name q)) 1 (cf_table c6) res false 0 1000 "m"]).
Definition c8 := commit c7.

(** The query is deleted and saved anew while its run is in flight. *)
Definition d8 := set_table c7 (insert_event str_of_Z (cf_table c7) (HuntExample.blank_event "b" "open" 20 None)).
Definition d9 := request d8 RDelete delete_params.
Definition d10 := request d9 (RSave 2) (save_params "event.action == 'open'").
Definition d11 := request d10 (RSchedule (cf_table d10)) sched_params.
Definition d12 := commit d11.

Lemma request_step (guarded : bool) (c : Conf) (r : hunt_req) (params : dict) :
  guarded = false \/ cf_pc c = PIdle -> step guarded c (request c r params).
Proof.
  intros Hg. eapply ss_request; [done|]. intros -> q' Hq'. destruct Hg as [|Hg]; [done|].
  rewrite Hg in Hq'. by apply not_elem_of_nil in Hq'.
Qed.

Lemma run_to_scan (guarded : bool) : rtc (step guarded) c0 c7.
Proof.
  apply (rtc_l _ _ c1). { apply request_step. by right. }
  apply (rtc_l _ _ c2). { apply request_step. by right. }
  apply (rtc_l _ _ c3). { apply ss_insert. }
  apply (rtc_l _ _ c4). { apply ss_tick; vm_compute; reflexivity. }
  apply (rtc_l _ _ c5). { by apply (ss_window _ _ _ _ _ c4 1000 q [] 1); vm_compute. }
  apply (rtc_l _ _ c6). { by apply (ss_gap _ _ _ _ _ c5 1000 q 1 []). }
  apply (rtc_l _ _ c7). { by apply (ss_scan _ _ _ _ _ c6 1000 q 1 false [] false res); vm_compute. }
  apply rtc_refl.
Qed.

Lemma commit_hits (c : Conf) :
  cf_pc c = PScanned 1000 q 1 false (cf_table c6) res [] ->
  existsb (run_hits (sq_name q)) (cf_rows c) = true ->
  forall guarded, step guarded c (commit c).
Proof.
  intros Hpc He guarded. eapply (ss_commit _ _ _ _ _ c 1000 q 1 false (cf_table c6) res [] 0%Q "m"); [done|].
  unfold commit_run, record_run. change (sd_rows (sched_of c)) with (cf_rows c). by rewrite He.
Qed.

Lemma run_once (guarded : bool) : rtc (step guarded) c0 c8.
Proof.
  eapply rtc_r; [apply run_to_scan|]. by apply commit_hits; vm_compute.
Qed.

End SchedExample.


(** A run is not discarded when its query is deleted, saved with another
    expression and scheduled anew while it is in flight: the stamp only asks
    whether the name is scheduled now. The new query then has the watermark
    of the old run, which is below the one it was scheduled with, and a match
    of the old expression is reported under its name. *)
Theorem recreated_hunt_inherits_run :
  exists c, rtc (SchedExample.step false) (start_conf None) c /\
    (exists r, find_query (cf_rows c) "h" = Some r /\
       hq_expression r = "event.action == 'open'"%string /\ hq_watermark r = Some 1) /\
    cf_base c "h" = Some 2 /\
    (fun e => ev_action e) <$> cf_emitted c = ["hunt_match"%string] /\
    (fun sc => sq_expression (sc_query sc)) <$> cf_log c = ["event.action == 'exec'"%string].
Proof.
  exists SchedExample.d12. split; [|split_and!; [eexists|..]; vm_compute; done].
  etrans; [apply SchedExample.run_to_scan|]. unfold SchedExample.step.
  apply (rtc_l _ _ SchedExample.d8). { apply ss_insert. }
  apply (rtc_l _ _ SchedExample.d9). { apply SchedExample.request_step. by left. }
  apply (rtc_l _ _ SchedExample.d10). { apply SchedExample.request_step. by left. }
  apply (rtc_l _ _ SchedExample.d11). { apply SchedExample.request_step. by left. }
  apply rtc_once. by apply SchedExample.commit_hits; vm_compute.
Qed.
