(* ===== verification/Vuln.v ===== *)
(** * Vulnerabilities ([inspectord/vuln/advisories.py], [vuln/matching.py],
      [workers/vuln_scanner/worker.py], the vulnerability part of
      [state/projector.py], [vuln/ipc_handlers.py])

    The advisory dump is parsed under caps, matched against the installed
    packages, emitted as events by the worker and materialized by the
    projector; the panel lists the rows and acknowledges them.

    The file system, [pacman -Q], the vercmp binary, clocks and event ids are
    arguments. [json.loads] of the dump, [datetime.isoformat] and
    [fromisoformat], and the binding of a value to a VARCHAR column are
    parameters. Events go from the worker to the projector as values; their
    transport is not modelled. *)

From S2P Require Import Prelude Schemas RuleEval HuntSql Alerts.

(** ** [advisories.py] *)

Definition MAX_FILE_BYTES : Z := 64 * 1024 * 1024.
Definition MAX_ADVISORIES : Z := 50000.
Definition MAX_ITEMS_PER_AVG : Z := 64.
Definition MAX_STRING_LEN : Z := 256.

Record Advisory := mkAdvisory {
  ad_avg_id : string;
  ad_packages : list string;
  ad_status : string;
  ad_severity : string;
  ad_fixed : option string;
  ad_affected : option string;
  ad_issues : list string;
}.

Record ParsedAdvisories := mkParsed {
  pa_advisories : list Advisory;
  pa_skipped : list string;
  pa_warnings : Z;
}.

(** [ch >= " " and ch != "\x7f"]. *)
Definition printable (c : ascii) : bool := (32 <=? code c)%N && negb (code c =? 127)%N.
Fixpoint str_filter (p : ascii -> bool) (s : string) : string :=
  match s with
  | EmptyString => EmptyString
  | String c s' => if p c then String c (str_filter p s') else str_filter p s'
  end.

Definition clean (value : string) : string :=
  prefix_upto MAX_STRING_LEN (str_filter printable (prefix_upto (4 * MAX_STRING_LEN) value)).

(** [_clean_optional]; the outer [None] is [_INVALID]. *)
Definition clean_optional (v : pyval) : option (option string) :=
  match v with PNone => Some None | PStr s => Some (Some (clean s)) | _ => None end.

Definition clean_item (v : pyval) : option string :=
  match v with
  | PStr s => let c := clean s in if String.eqb c EmptyString then None else Some c
  | _ => None
  end.
Definition clean_str_list (v : pyval) : option (list string) :=
  match v with
  | PList (x :: l) =>
      if MAX_ITEMS_PER_AVG <? Z.of_nat (length (x :: l)) then None else mapM clean_item (x :: l)
  | _ => None
  end.

(** [_AVG_ID_RE.match]; a cleaned id has no newline for [$] to skip. *)
Definition avg_id_ok (s : string) : bool :=
  startswith "AVG-" s &&
  match str_drop 4 s with EmptyString => false | digits => str_forall is_digit digits end.

Inductive ParsedOne := POAdvisory (a : Advisory) | POSkip (avg_id : string) | PONone.

Definition parse_body (avg_id : string) (e : dict) : option Advisory :=
  packages ← clean_str_list (dict_get "packages" e);
  issues ← clean_str_list (dict_get "issues" e);
  status ← as_str (dict_get "status" e);
  severity ← as_str (dict_get "severity" e);
  fixed ← clean_optional (dict_get "fixed" e);
  affected ← clean_optional (dict_get "affected" e);
  Some (mkAdvisory avg_id packages (clean status) (clean severity) fixed affected issues).

(** [_parse_one]. *)
Definition parse_one (entry : pyval) : ParsedOne :=
  match entry with
  | PDict e =>
      match dict_get "name" e with
      | PStr raw =>
          let avg_id := clean raw in
          if negb (avg_id_ok avg_id) then PONone
          else match parse_body avg_id e with Some a => POAdvisory a | None => POSkip avg_id end
      | _ => PONone
      end
  | _ => PONone
  end.

Fixpoint parse_entries (doc : list pyval) : ParsedAdvisories :=
  match doc with
  | [] => mkParsed [] [] 0
  | e :: rest =>
      let p := parse_entries rest in
      match parse_one e with
      | POAdvisory a => mkParsed (a :: pa_advisories p) (pa_skipped p) (pa_warnings p)
      | POSkip id => mkParsed (pa_advisories p) (id :: pa_skipped p) (pa_warnings p + 1)
      | PONone => mkParsed (pa_advisories p) (pa_skipped p) (pa_warnings p + 1)
      end
  end.

(** [parse_advisories]; the error is the reason of [AdvisoryLoadError]. *)
Definition parse_advisories (loads : string -> option pyval) (data : string)
  : result string ParsedAdvisories :=
  match loads data with
  | Some (PList []) => Err "advisories_empty"%string
  | Some (PList doc) =>
      if MAX_ADVISORIES <? Z.of_nat (length doc) then Err "parse_failed"%string
      else Ok (parse_entries doc)
  | _ => Err "parse_failed"%string
  end.

(** [load_advisories]: the size [stat] reports and the whole content, [None]
    when the call raises an [OSError]. *)
Definition load_advisories (loads : string -> option pyval) (size : option Z)
    (content : option string) (max_bytes : Z) : result string ParsedAdvisories :=
  match size with
  | None => Err "advisories_missing"%string
  | Some size =>
      if max_bytes <? size then Err "file_too_large"%string
      else
        match content with
        | None => Err "advisories_missing"%string
        | Some content =>
            let data := prefix_upto (max_bytes + 1) content in
            if max_bytes <? Z.of_nat (String.length data) then Err "file_too_large"%string
            else parse_advisories loads data
        end
  end.

(** ** [matching.py] *)

Definition KNOWN_STATUSES : list string :=
  ["Not affected"; "Vulnerable"; "Fixed"; "Testing"; "Unknown"]%string.

(** What running the vercmp binary gives: its output, or no run at all. *)
Inductive VercmpRun := VOutput (stdout : string) | VNoRun.

Definition VercmpCache : Type := gmap (string * string) Z.

(** [vercmp]; [None] is [VercmpUnavailableError]. *)
Definition vercmp (run : string -> string -> VercmpRun) (cache : VercmpCache) (a b : string)
  : option Z * VercmpCache :=
  match cache !! (a, b) with
  | Some r => (Some r, cache)
  | None =>
      match run a b with
      | VNoRun => (None, cache)
      | VOutput out =>
          match py_int (strip out) with
          | None => (None, cache)
          | Some r => (Some r, <[(a, b) := r]> cache)
          end
      end
  end.

(** [parse_installed]. *)
Definition install_line (acc : gmap string string * Z) (line : string) : gmap string string * Z :=
  if String.eqb (strip line) EmptyString then acc
  else match split_ws line with
       | [name; version] => (<[name := version]> acc.1, acc.2)
       | _ => (acc.1, acc.2 + 1)
       end.
Definition parse_installed (output : string) : gmap string string * Z :=
  foldl install_line (∅, 0) (splitlines output).

Record VulnMatch := mkMatch {
  vm_avg_id : string;
  vm_cve_id : string;
  vm_package : string;
  vm_installed : string;
  vm_fixed : option string;
  vm_severity : string;
  vm_status : string;
  vm_in_testing : bool;
  vm_url : string;
}.

(** [_is_vulnerable]. *)
Definition is_vulnerable (run : string -> string -> VercmpRun) (cache : VercmpCache)
    (a : Advisory) (version : string) : option bool * VercmpCache :=
  match ad_fixed a with
  | Some fixed => let '(r, cache') := vercmp run cache version fixed in ((fun z => z <? 0) <$> r, cache')
  | None => (Some (bool_decide (ad_status a ∈ ["Vulnerable"; "Unknown"]%string)), cache)
  end.

Definition match_of_cve (a : Advisory) (package version cve : string) : VulnMatch :=
  mkMatch (ad_avg_id a) cve package version (ad_fixed a) (ad_severity a) (ad_status a)
    (String.eqb (ad_status a) "Testing")
    ("https://security.archlinux.org/" +:+ ad_avg_id a).

(** The loop over the packages of an advisory. *)
Fixpoint match_packages (run : string -> string -> VercmpRun) (installed : gmap string string)
    (a : Advisory) (packages : list string) (cache : VercmpCache)
  : option (list VulnMatch) * VercmpCache :=
  match packages with
  | [] => (Some [], cache)
  | p :: rest =>
      match installed !! p with
      | None => match_packages run installed a rest cache
      | Some version =>
          match is_vulnerable run cache a version with
          | (None, cache') => (None, cache')
          | (Some hit, cache') =>
              let '(ms, cache'') := match_packages run installed a rest cache' in
              ((fun ms => (if hit then match_of_cve a p version <$> ad_issues a else []) ++ ms) <$> ms,
               cache'')
          end
      end
  end.

Record MatchResult := mkMatchResult {
  mr_matches : list VulnMatch;
  mr_skipped : list string;
  mr_warnings : Z;
}.

(** [match_advisories]; [None] is the exception of [vercmp]. *)
Fixpoint match_advisories (run : string -> string -> VercmpRun) (installed : gmap string string)
    (advisories : list Advisory) (cache : VercmpCache) : option MatchResult * VercmpCache :=
  match advisories with
  | [] => (Some (mkMatchResult [] [] 0), cache)
  | a :: rest =>
      if String.eqb (ad_status a) "Not affected" then match_advisories run installed rest cache
      else if negb (bool_decide (ad_status a ∈ KNOWN_STATUSES)) then
        let '(r, cache') := match_advisories run installed rest cache in
        ((fun r => mkMatchResult (mr_matches r) (ad_avg_id a :: mr_skipped r) (mr_warnings r + 1)) <$> r,
         cache')
      else
        match match_packages run installed a (ad_packages a) cache with
        | (None, cache') => (None, cache')
        | (Some ms, cache') =>
            let '(r, cache'') := match_advisories run installed rest cache' in
            ((fun r => mkMatchResult (ms ++ mr_matches r) (mr_skipped r) (mr_warnings r)) <$> r, cache'')
        end
  end.

(** ** The worker *)

Definition FILE_TRIGGER_MIN_INTERVAL_S : Z := 300.
Definition MAX_SKIPPED_AVG_IDS : Z := 500.

Definition VulnKey : Type := string * string * string.
Definition match_key (m : VulnMatch) : VulnKey := (vm_avg_id m, vm_cve_id m, vm_package m).

Record VulnWorker := mkVW {
  vw_cache : VercmpCache;
  vw_prev_keys : option (gset VulnKey);
  vw_next_due : option Z;
  vw_pending_file : bool;
  vw_last_file_scan : option Z;
  vw_advisory_stat : option (Z * Z);
  vw_pacman_mtime : option Z;
  vw_observed : bool;
  vw_lock_reported : bool;
  vw_rescan : bool;
}.
Definition vuln_worker_init : VulnWorker :=
  mkVW ∅ None None false None None None false false false.

(** [handle_command]: the status it answers. *)
Definition handle_command (w : VulnWorker) (command : string) : string * VulnWorker :=
  if negb (String.eqb command "rescan") then ("rejected"%string, w)
  else ("accepted"%string,
        mkVW (vw_cache w) (vw_prev_keys w) (vw_next_due w) (vw_pending_file w) (vw_last_file_scan w)
          (vw_advisory_stat w) (vw_pacman_mtime w) (vw_observed w) (vw_lock_reported w) true).

(** [_observe_files], with the two stats it reads. *)
Definition observe_files (w : VulnWorker) (advisory : option (Z * Z)) (pacman : option Z) : VulnWorker :=
  let changed := vw_observed w &&
    (negb (bool_decide (advisory = vw_advisory_stat w)) || negb (bool_decide (pacman = vw_pacman_mtime w))) in
  mkVW (vw_cache w) (vw_prev_keys w) (vw_next_due w) (changed || vw_pending_file w)
    (vw_last_file_scan w) advisory pacman true (vw_lock_reported w) (vw_rescan w).

Definition scan_due (w : VulnWorker) (now : Z) : bool :=
  if vw_rescan w then true
  else if match vw_next_due w with None => true | Some due => due <=? now end then true
  else if vw_pending_file w then
    match vw_last_file_scan w with
    | None => true
    | Some last => FILE_TRIGGER_MIN_INTERVAL_S <=? now - last
    end
  else false.

(** What a tick of the worker finds: the monotonic clock, the stats, the lock,
    and, should it scan, the wall clock at the start, the file and its mtime,
    the output of [pacman -Q] and its exit code, the vercmp binary, and for the
    i-th event its timestamp and id. *)
Record Poll := mkPoll {
  po_now : Z;
  po_advisory : option (Z * Z);
  po_pacman : option Z;
  po_locked : bool;
  po_started : Z;
  po_size : option Z;
  po_content : option string;
  po_exit_code : Z;
  po_output : string;
  po_vercmp : string -> string -> VercmpRun;
  po_clock : nat -> Z;
  po_fresh : nat -> string;
  po_mtime : option Z;
  po_duration_ms : Z;
}.

Definition opt_time (f : Z -> string) (z : option Z) : pyval :=
  match z with Some z => PStr (f z) | None => PNone end.

Section Worker.
Context (loads : string -> option pyval) (iso : Z -> string) (host : string)
        (interval max_bytes : Z).

Definition vuln_args (action type_ severity kind : string) (outcome : option string)
    (message : string) (vulnerability raw : option dict) (first_seen : bool) : EventArgs :=
  {| a_module := "vuln_scanner"; a_action := action; a_category := ["package"%string];
     a_type := [type_]; a_severity := severity; a_kind := kind;
     a_host := Some [("name"%string, PStr host)]; a_outcome := outcome; a_message := Some message;
     a_process := None; a_file := None; a_user := None; a_source := None; a_destination := None;
     a_network := None; a_service := None; a_package := None; a_device := None;
     a_persistence := None; a_vulnerability := vulnerability; a_hunt := None; a_threat := None;
     a_raw := raw; a_labels := Some ["vuln"%string]; a_ts := None; a_first_seen := first_seen |}.

(** The [vulnerability] block of a match. *)
Definition vuln_block (m : VulnMatch) (new : bool) : dict :=
  [("avg_id", PStr (vm_avg_id m)); ("cve_id", PStr (vm_cve_id m)); ("package", PStr (vm_package m));
   ("installed_version", PStr (vm_installed m)); ("fixed_version", opt_str (vm_fixed m));
   ("severity", PStr (vm_severity m)); ("status", PStr (vm_status m));
   ("fix_in_testing", PBool (vm_in_testing m)); ("new", PBool new);
   ("advisory_url", PStr (vm_url m))]%string.

Definition found_event (p : Poll) (i : nat) (m : VulnMatch) (new first : bool) : option Event :=
  build_event (po_clock p i) (po_fresh p i)
    (vuln_args "vulnerability_found" "info" "low" "state" None
       (vm_package m +:+ " " +:+ vm_installed m +:+ " affected by " +:+ vm_cve_id m +:+
        " (" +:+ vm_avg_id m +:+ ", " +:+ vm_severity m +:+ ")")
       (Some (vuln_block m new)) None first).

Definition failed_event (p : Poll) (reason : string) : option Event :=
  build_event (po_clock p 0) (po_fresh p 0)
    (vuln_args "vuln_scan_failed" "end" "info" "event" (Some "failure"%string)
       ("vulnerability scan failed: " +:+ reason) None (Some [("reason"%string, PStr reason)]) false).

Definition completed_event (p : Poll) (i : nat) (raw : dict) (matched : nat) : option Event :=
  build_event (po_clock p i) (po_fresh p i)
    (vuln_args "vuln_scan_completed" "end" "info" "event" (Some "success"%string)
       ("vulnerability scan completed: " +:+ str_of_nat matched +:+ " matched") None (Some raw) false).

(** The events of the matches, numbered from [i]. *)
Fixpoint found_events (p : Poll) (i : nat) (ms : list VulnMatch) (new_keys : gset VulnKey) (first : bool)
  : list (option Event) :=
  match ms with
  | [] => []
  | m :: rest =>
      found_event p i m (bool_decide (match_key m ∈ new_keys)) first
      :: found_events p (S i) rest new_keys first
  end.

(** What a scan found before it emits anything. *)
Record ScanFacts := mkFacts {
  sf_parsed : ParsedAdvisories;
  sf_result : MatchResult;
  sf_skipped : list string;
  sf_warnings : Z;
}.

(** [_scan] up to the emission; the error is the reason of [_ScanFailure]. *)
Definition scan_facts (p : Poll) (cache : VercmpCache) : result string ScanFacts * VercmpCache :=
  match load_advisories loads (po_size p) (po_content p) max_bytes with
  | Err reason => (Err reason, cache)
  | Ok parsed =>
      if negb (po_exit_code p =? 0) then (Err "pacman_failed"%string, cache)
      else
        let '(installed, bad) := parse_installed (po_output p) in
        match match_advisories (po_vercmp p) installed (pa_advisories parsed) cache with
        | (None, cache') => (Err "vercmp_missing"%string, cache')
        | (Some r, cache') =>
            let skipped := pa_skipped parsed ++ mr_skipped r in
            if MAX_SKIPPED_AVG_IDS <? Z.of_nat (length skipped) then (Err "parse_failed"%string, cache')
            else (Ok (mkFacts parsed r skipped (pa_warnings parsed + mr_warnings r + bad)), cache')
        end
  end.

Definition completed_raw (p : Poll) (f : ScanFacts) (new : nat) : dict :=
  [("scan_started_at", PStr (iso (po_started p)));
   ("advisories", PInt (Z.of_nat (length (pa_advisories (sf_parsed f)))));
   ("matched", PInt (Z.of_nat (length (mr_matches (sf_result f)))));
   ("new", PInt (Z.of_nat new)); ("warnings", PInt (sf_warnings f));
   ("skipped_avg_ids", PList (PStr <$> sf_skipped f));
   ("advisory_mtime", opt_time iso (po_mtime p));
   ("duration_ms", PInt (po_duration_ms p))]%string.

(** The emission of [_scan]: every match, then the summary. *)
Definition scan_events (p : Poll) (f : ScanFacts) (prev : option (gset VulnKey)) : list (option Event) :=
  let ms := mr_matches (sf_result f) in
  let keys : gset VulnKey := list_to_set (match_key <$> ms) in
  let new_keys := match prev with None => ∅ | Some prev => keys ∖ prev end in
  found_events p 0 ms new_keys (match prev with None => true | Some _ => false end)
  ++ [completed_event p (length ms) (completed_raw p f (size new_keys)) (length ms)].

(** [_run_scan]. *)
Definition run_scan (w : VulnWorker) (p : Poll) : list (option Event) * VulnWorker :=
  let '(facts, cache) := scan_facts p (vw_cache w) in
  let w' prev := mkVW cache prev (Some (po_now p + interval)) false
                   (if vw_pending_file w then Some (po_now p) else vw_last_file_scan w)
                   (vw_advisory_stat w) (vw_pacman_mtime w) (vw_observed w) false false in
  match facts with
  | Err reason => ([failed_event p reason], w' (vw_prev_keys w))
  | Ok f => (scan_events p f (vw_prev_keys w),
             w' (Some (list_to_set (match_key <$> mr_matches (sf_result f)))))
  end.

Definition set_lock_reported (w : VulnWorker) : VulnWorker :=
  mkVW (vw_cache w) (vw_prev_keys w) (vw_next_due w) (vw_pending_file w) (vw_last_file_scan w)
    (vw_advisory_stat w) (vw_pacman_mtime w) (vw_observed w) true (vw_rescan w).

(** [step]. *)
Definition step (w : VulnWorker) (p : Poll) : list (option Event) * VulnWorker :=
  let w1 := observe_files w (po_advisory p) (po_pacman p) in
  if negb (scan_due w1 (po_now p)) then ([], w1)
  else if po_locked p then
    if vw_lock_reported w1 then ([], w1)
    else ([failed_event p "pacman_db_locked"], set_lock_reported w1)
  else run_scan w1 p.
End Worker.

(** ** The projector *)

Record VulnRow := mkVuln {
  vr_avg_id : string;
  vr_cve_id : string;
  vr_package : string;
  vr_installed : option string;
  vr_fixed : option string;
  vr_severity : option string;
  vr_status : option string;
  vr_in_testing : bool;
  vr_first_seen_at : Z;
  vr_last_seen : Z;
  vr_last_event_id : string;
  vr_resolved_at : option Z;
  vr_acked_at : option Z;
  vr_acked_note : option string;
}.
Definition row_key (r : VulnRow) : VulnKey := (vr_avg_id r, vr_cve_id r, vr_package r).

Section Projector.
Context (fromiso : string -> option Z) (varchar : pyval -> option string).

(** [_project_vulnerability_found]: the row of the INSERT, and the UPDATE of
    its ON CONFLICT clause. *)
Definition inserted_row (e : Event) (v : dict) (avg cve pkg : string) : VulnRow :=
  mkVuln avg cve pkg (varchar (dict_get "installed_version" v)) (varchar (dict_get "fixed_version" v))
    (varchar (dict_get "severity" v)) (varchar (dict_get "status" v))
    (truthy (dict_get "fix_in_testing" v)) (ev_ts e) (ev_ts e) (ev_event_id e) None None None.
Definition upserted_row (excluded r : VulnRow) : VulnRow :=
  mkVuln (vr_avg_id r) (vr_cve_id r) (vr_package r) (vr_installed excluded) (vr_fixed excluded)
    (vr_severity excluded) (vr_status excluded) (vr_in_testing excluded) (vr_first_seen_at r)
    (vr_last_seen excluded) (vr_last_event_id excluded) None (vr_acked_at r) (vr_acked_note r).
Definition upsert (row : VulnRow) (rows : list VulnRow) : list VulnRow :=
  if existsb (fun r => bool_decide (row_key r = row_key row)) rows
  then (fun r => if bool_decide (row_key r = row_key row) then upserted_row row r else r) <$> rows
  else rows ++ [row].

Definition project_found (e : Event) (rows : list VulnRow) : list VulnRow :=
  let v := block_or_empty (ev_vulnerability e) in
  let avg := dict_get "avg_id" v in
  let cve := dict_get "cve_id" v in
  let pkg := dict_get "package" v in
  if negb (truthy avg) || negb (truthy cve) || negb (truthy pkg) then rows
  else match varchar avg, varchar cve, varchar pkg with
       | Some avg, Some cve, Some pkg => upsert (inserted_row e v avg cve pkg) rows
       | _, _, _ => rows
       end.

(** [_project_vulnerability_sweep]; [None] is the exception of a value that
    cannot be iterated. *)
Definition sweep_row (now started : Z) (skipped : list string) (r : VulnRow) : VulnRow :=
  if negb (bool_decide (is_Some (vr_resolved_at r))) && (vr_last_seen r <? started)
     && negb (bool_decide (vr_avg_id r ∈ skipped))
  then mkVuln (vr_avg_id r) (vr_cve_id r) (vr_package r) (vr_installed r) (vr_fixed r)
         (vr_severity r) (vr_status r) (vr_in_testing r) (vr_first_seen_at r) (vr_last_seen r)
         (vr_last_event_id r) (Some now) (vr_acked_at r) (vr_acked_note r)
  else r.
Definition project_sweep (e : Event) (rows : list VulnRow) : option (list VulnRow) :=
  let raw := block_or_empty (ev_raw e) in
  match dict_get "scan_started_at" raw with
  | PStr s =>
      match fromiso s with
      | None => Some rows
      | Some started =>
          let ids := dict_get "skipped_avg_ids" raw in
          match (if truthy ids then py_list ids else Ok []) with
          | Err _ => None
          | Ok l => Some (sweep_row (ev_ts e) started (omap as_str l) <$> rows)
          end
      end
  | _ => Some rows
  end.

(** [_project_vulnerability], reached from [project] for the worker's events;
    a raising projection changes nothing. *)
Definition project_vulnerability (rows : list VulnRow) (e : Event) : list VulnRow :=
  if negb (String.eqb (ev_module e) "vuln_scanner") then rows
  else if String.eqb (ev_action e) "vulnerability_found" then project_found e rows
  else if String.eqb (ev_action e) "vuln_scan_completed" then default rows (project_sweep e rows)
  else rows.
End Projector.

(** ** The handlers *)

Definition DEFAULT_VULN_LIMIT : Z := 100.
Definition MAX_VULN_LIMIT : Z := 500.

(** [_last_scan]: the newest completed or failed scan among the stored events,
    with its failure reason or its counters. *)
Definition COUNT_KEYS : list string := ["advisories"; "matched"; "new"; "warnings"]%string.
Definition is_scan_summary (r : EventRow) : bool :=
  String.eqb (row_module r) "vuln_scanner" &&
  bool_decide (row_action r ∈ ["vuln_scan_completed"; "vuln_scan_failed"]%string).
Definition last_scan (t : EventTable) : option (string * Z * dict) :=
  match merge_sort newer (List.filter is_scan_summary (tbl_rows t)) with
  | [] => None
  | r :: _ =>
      let raw := match dict_get "raw" (row_payload r) with PDict d => d | _ => [] end in
      Some (row_action r, row_ts r,
            if String.eqb (row_action r) "vuln_scan_failed"
            then [("reason"%string, dict_get "reason" raw)]
            else [("advisory_mtime"%string, dict_get "advisory_mtime" raw);
                  ("counts"%string, PDict ((fun k => (k, dict_get k raw)) <$> COUNT_KEYS))])
  end.

Definition newest_first (a b : VulnRow) : Prop := vr_first_seen_at b <= vr_first_seen_at a.
#[export] Instance newest_first_dec a b : Decision (newest_first a b).
Proof. unfold newest_first. apply _. Defined.

Section VulnHandlers.
Context (str_other : pyval -> string).

(** The rows of [handle_list_vulnerabilities]. *)
Definition handle_list_vulnerabilities (params : dict) (rows : list VulnRow) : list VulnRow :=
  let limit := default DEFAULT_VULN_LIMIT
                 (int_of (default (PInt DEFAULT_VULN_LIMIT) (dict_lookup "limit" params))) in
  let limit := Z.max 1 (Z.min MAX_VULN_LIMIT limit) in
  let severity := dict_get "severity" params in
  let include_acked := truthy (default (PBool true) (dict_lookup "include_acked" params)) in
  let include_resolved := truthy (default (PBool false) (dict_lookup "include_resolved" params)) in
  take (Z.to_nat limit) (merge_sort newest_first (List.filter (fun r =>
    (negb (truthy severity) || bool_decide (vr_severity r = Some (py_str str_other severity))) &&
    (include_acked || negb (bool_decide (is_Some (vr_acked_at r)))) &&
    (include_resolved || negb (bool_decide (is_Some (vr_resolved_at r))))) rows)).

Definition str_param (params : dict) (key : string) : string :=
  py_str str_other (default (PStr EmptyString) (dict_lookup key params)).

Definition ack_row (key : VulnKey) (now : Z) (note : option string) (r : VulnRow) : VulnRow :=
  if bool_decide (row_key r = key)
  then mkVuln (vr_avg_id r) (vr_cve_id r) (vr_package r) (vr_installed r) (vr_fixed r)
         (vr_severity r) (vr_status r) (vr_in_testing r) (vr_first_seen_at r) (vr_last_seen r)
         (vr_last_event_id r) (vr_resolved_at r) (Some now) note
  else r.

(** [handle_ack_vulnerability]: whether it was found, and the audit rows. *)
Definition handle_ack_vulnerability (now : Z) (params : dict) (rows : list VulnRow)
  : bool * list VulnRow * list (string * string * dict) :=
  let key := (str_param params "avg_id", str_param params "cve_id", str_param params "package") in
  let raw_note := dict_get "note" params in
  let note := if truthy raw_note then Some (py_str str_other raw_note) else None in
  match List.find (fun r => bool_decide (row_key r = key)) rows with
  | None => (false, rows, [])
  | Some r =>
      (true, ack_row key now note <$> rows,
       match vr_acked_at r with
       | Some _ => []
       | None => [("vulnerability_acked"%string,
                   "vuln:" +:+ key.1.1 +:+ "/" +:+ key.1.2 +:+ "/" +:+ key.2,
                   match note with Some n => if String.eqb n EmptyString then [] else [("note"%string, PStr n)]
                                 | None => [] end)]
       end)
  end.
End VulnHandlers.

(** ** Matching, with the cache taken away *)

Section Matching.
Context (run : string -> string -> VercmpRun) (installed : gmap string string).

(** What the binary says, asked afresh. *)
Definition pure_cmp (a b : string) : option Z :=
  match run a b with VOutput out => py_int (strip out) | VNoRun => None end.

Definition cache_ok (cache : VercmpCache) : Prop :=
  forall a b r, cache !! (a, b) = Some r -> pure_cmp a b = Some r.

(** The version is affected by the advisory. *)
Definition affected_version (a : Advisory) (version : string) : Prop :=
  match ad_fixed a with
  | Some fixed => exists z, pure_cmp version fixed = Some z /\ z < 0
  | None => ad_status a ∈ ["Vulnerable"; "Unknown"]%string
  end.

(** The matches an advisory should give. *)
Definition advisory_match (a : Advisory) (m : VulnMatch) : Prop :=
  exists p version cve, p ∈ ad_packages a /\ installed !! p = Some version /\
    affected_version a version /\ cve ∈ ad_issues a /\ m = match_of_cve a p version cve.

Lemma vercmp_pure (cache : VercmpCache) (a b : string) :
  cache_ok cache -> (vercmp run cache a b).1 = pure_cmp a b /\ cache_ok (vercmp run cache a b).2.
Proof.
  intros Hc. unfold vercmp. destruct (cache !! (a, b)) as [r|] eqn:E.
  { simpl. by rewrite (Hc _ _ _ E). }
  destruct (run a b) as [out|] eqn:Er; [|simpl; unfold pure_cmp; by rewrite Er].
  destruct (py_int (strip out)) as [r|] eqn:Ei; simpl; (split; [unfold pure_cmp; by rewrite Er|]); [|done].
  intros x y z [[[= <- <-] <-]|[Hne Hl]]%lookup_insert_Some; [unfold pure_cmp; by rewrite Er | by apply Hc].
Qed.

Lemma is_vulnerable_spec (cache : VercmpCache) (a : Advisory) (version : string) hit cache' :
  cache_ok cache -> is_vulnerable run cache a version = (Some hit, cache') ->
  (hit = true <-> affected_version a version) /\ cache_ok cache'.
Proof.
  intros Hc. unfold is_vulnerable, affected_version. destruct (ad_fixed a) as [fixed|].
  - destruct (vercmp_pure cache version fixed Hc) as [H1 H2].
    destruct (vercmp run cache version fixed) as [r c']. simpl in *. subst r.
    destruct (pure_cmp version fixed) as [z|]; simpl; intros [= <- <-]. split; [|done].
    rewrite Z.ltb_lt. split; [by exists z|]. by intros (z' & [= <-] & Hz).
  - intros [= <- <-]. by rewrite bool_decide_eq_true.
Qed.

Lemma match_packages_spec (a : Advisory) (packages : list string) (cache : VercmpCache) ms cache' :
  cache_ok cache -> match_packages run installed a packages cache = (Some ms, cache') ->
  (forall m, m ∈ ms <-> exists p version cve, p ∈ packages /\ installed !! p = Some version /\
     affected_version a version /\ cve ∈ ad_issues a /\ m = match_of_cve a p version cve) /\
  cache_ok cache'.
Proof.
  revert cache ms. induction packages as [|p rest IH]; intros cache ms Hc; cbn [match_packages].
  { intros [= <- <-]. split; [|done]. intros m. split; [by intros ?%not_elem_of_nil|].
    by intros (p & v & c & ?%not_elem_of_nil & _). }
  destruct (installed !! p) as [version|] eqn:Ei.
  - destruct (is_vulnerable run cache a version) as [[hit|] c1] eqn:Ev; [|done].
    destruct (is_vulnerable_spec _ _ _ _ _ Hc Ev) as [Hhit Hc1].
    destruct (match_packages run installed a rest c1) as [[ms'|] c2] eqn:Er; [|done].
    intros [= <- <-]. destruct (IH _ _ Hc1 Er) as [Hm Hc2]. split; [|done].
    intros m. rewrite elem_of_app, Hm. split.
    + intros [H|(p' & v & c & Hp & Hrest)].
      * destruct hit; [|by apply not_elem_of_nil in H].
        apply list_elem_of_fmap in H as (cve & -> & Hcve). exists p, version, cve.
        split_and!; [left|done|by apply Hhit|done|done].
      * exists p', v, c. split; [by right | done].
    + intros (p' & v & c & [->|Hp]%elem_of_cons & Hi & Ha & Hcve & ->).
      * left. assert (v = version) as -> by congruence. rewrite (proj2 Hhit Ha).
        apply list_elem_of_fmap. by exists c.
      * right. by exists p', v, c.
  - intros H. destruct (IH _ _ Hc H) as [Hm Hc2]. split; [|done]. intros m. rewrite Hm. split.
    + intros (p' & v & c & Hp & Hrest). exists p', v, c. split; [by right | done].
    + intros (p' & v & c & [->|Hp]%elem_of_cons & Hi & Hrest); [congruence | by exists p', v, c].
Qed.

(** Matching finds exactly what the advisories say, whatever the cache of
    comparisons holds: a match for each installed package of a known and open
    advisory whose version is below the fixed one (or that has no fix and is
    vulnerable or undetermined) and each of its CVEs, and nothing else; the
    advisories it refuses to judge are exactly those with an unknown status. *)
Theorem match_advisories_spec (advisories : list Advisory) (cache : VercmpCache) r cache' :
  cache_ok cache -> match_advisories run installed advisories cache = (Some r, cache') ->
  (forall m, m ∈ mr_matches r <-> exists a, a ∈ advisories /\ ad_status a ∈ KNOWN_STATUSES /\
     ad_status a <> "Not affected"%string /\ advisory_match a m) /\
  (forall id, id ∈ mr_skipped r <-> exists a, a ∈ advisories /\ (ad_status a ∉ KNOWN_STATUSES) /\
     id = ad_avg_id a) /\
  cache_ok cache'.
Proof.
  revert cache r. induction advisories as [|a rest IH]; intros cache r Hc; cbn [match_advisories].
  { intros [= <- <-]. split_and!; [..|done]; intros x; by rewrite exists_nil, elem_of_nil. }
  destruct (String.eqb_spec (ad_status a) "Not affected") as [Hna|Hna].
  { intros H. destruct (IH _ _ Hc H) as (Hm & Hs & Hc').
    assert (ad_status a ∈ KNOWN_STATUSES) by (rewrite Hna; left).
    split_and!; [..|done]; intros x; rewrite exists_cons, ?Hm, ?Hs; tauto. }
  destruct (bool_decide_reflect (ad_status a ∈ KNOWN_STATUSES)) as [Hk|Hk]; cbn [negb].
  - destruct (match_packages run installed a (ad_packages a) cache) as [[ms|] c1] eqn:Ep; [|done].
    destruct (match_packages_spec _ _ _ _ _ Hc Ep) as [Hms Hc1].
    destruct (match_advisories run installed rest c1) as [[r'|] c2] eqn:Er; [|done].
    intros [= <- <-]. destruct (IH _ _ Hc1 Er) as (Hm & Hs & Hc'). cbn [mr_matches mr_skipped].
    split_and!; [..|done]; intros x; rewrite exists_cons, ?elem_of_app, ?Hms, ?Hm, ?Hs;
      [unfold advisory_match at 1|]; tauto.
  - destruct (match_advisories run installed rest cache) as [[r'|] c2] eqn:Er; [|done].
    intros [= <- <-]. destruct (IH _ _ Hc Er) as (Hm & Hs & Hc'). cbn [mr_matches mr_skipped].
    split_and!; [..|done]; intros x; rewrite exists_cons, ?elem_of_cons, ?Hm, ?Hs; tauto.
Qed.
End Matching.

(** ** Parsed advisories have usable keys *)

Definition adv_ok (a : Advisory) : Prop :=
  ad_avg_id a <> EmptyString /\ Forall (fun p => p <> EmptyString) (ad_packages a) /\
  Forall (fun c => c <> EmptyString) (ad_issues a).

Lemma clean_items_nonempty (l : list pyval) (out : list string) :
  mapM clean_item l = Some out -> Forall (fun s => s <> EmptyString) out.
Proof.
  intros H%mapM_Some. induction H as [|v s l out Hv _ IH]; constructor; [|done].
  unfold clean_item in Hv. destruct v; try done.
  destruct (String.eqb_spec (clean s0) EmptyString); by simplify_eq.
Qed.

Lemma clean_str_list_nonempty (v : pyval) (out : list string) :
  clean_str_list v = Some out -> Forall (fun s => s <> EmptyString) out.
Proof.
  unfold clean_str_list. destruct v as [| | | | | |l|]; try done. destruct l as [|x l]; [done|].
  destruct (_ <? _); [done|]. apply clean_items_nonempty.
Qed.

Lemma parse_one_ok (e : pyval) (a : Advisory) : parse_one e = POAdvisory a -> adv_ok a.
Proof.
  unfold parse_one. destruct e as [| | | | | | |d]; try done.
  destruct (dict_get "name" d) as [| | | |raw| | |]; try done.
  destruct (avg_id_ok (clean raw)) eqn:Ea; cbn [negb]; [|done].
  destruct (parse_body (clean raw) d) as [a'|] eqn:Eb; [|done]. intros [= ->].
  unfold parse_body in Eb.
  apply bind_Some in Eb as (ps & Hps & Eb). apply bind_Some in Eb as (iss & His & Eb).
  repeat (apply bind_Some in Eb as (? & _ & Eb)). injection Eb as <-. split_and!; cbn [ad_avg_id ad_packages ad_issues].
  - intros Hn. by rewrite Hn in Ea.
  - by eapply clean_str_list_nonempty.
  - by eapply clean_str_list_nonempty.
Qed.

Lemma parse_entries_ok (doc : list pyval) : Forall adv_ok (pa_advisories (parse_entries doc)).
Proof.
  induction doc as [|e doc IH]; [constructor|]. simpl.
  destruct (parse_one e) as [a|id|] eqn:E; simpl; try done.
  constructor; [by eapply parse_one_ok | done].
Qed.

(** No advisory with a valid id is lost in parsing: each entry of an
    accepted dump whose id is valid is parsed or reported as skipped, under
    the same id, so that the sweep spares its rows; and a parsed advisory has
    no empty id, package or CVE. *)
Theorem parse_advisories_keeps_ids (loads : string -> option pyval) (data : string)
    (parsed : ParsedAdvisories) :
  parse_advisories loads data = Ok parsed ->
  exists doc, loads data = Some (PList doc) /\ doc <> [] /\ Forall adv_ok (pa_advisories parsed) /\
    forall e raw, PDict e ∈ doc -> dict_get "name" e = PStr raw -> avg_id_ok (clean raw) = true ->
      (exists a, a ∈ pa_advisories parsed /\ ad_avg_id a = clean raw) \/ clean raw ∈ pa_skipped parsed.
Proof.
  unfold parse_advisories. destruct (loads data) as [[| | | | | |l|]|] eqn:El; try done.
  destruct l as [|x l]; [done|]. destruct (_ <? _); [done|]. intros [= Hp].
  change (parse_entries (x :: l) = parsed) in Hp. subst parsed.
  exists (x :: l). split_and!; [done|done|apply parse_entries_ok|].
  generalize (x :: l) as doc. clear. induction doc as [|d doc IH]; intros e raw Hin Hn Ha.
  { by apply not_elem_of_nil in Hin. }
  apply elem_of_cons in Hin as [<-|Hin].
  - cbn [parse_entries]. unfold parse_one. rewrite Hn, Ha. cbn [negb].
    destruct (parse_body (clean raw) e) as [a|] eqn:Eb; cbn [pa_advisories pa_skipped]; [left|right; left].
    exists a. split; [left|]. unfold parse_body in Eb.
    repeat (apply bind_Some in Eb as (? & _ & Eb)). by injection Eb as <-.
  - cbn [parse_entries]. destruct (IH e raw Hin Hn Ha) as [(a & Ha' & He)|Hs]; [left; exists a|right];
      destruct (parse_one d); cbn [pa_advisories pa_skipped]; rewrite ?elem_of_cons; auto.
Qed.

(** The keys of the matches of a scan are not empty. *)
Definition key_ok (k : VulnKey) : Prop := k.1.1 <> EmptyString /\ k.1.2 <> EmptyString /\ k.2 <> EmptyString.

Lemma match_packages_keys run installed (a : Advisory) (packages : list string) cache ms cache' :
  adv_ok a -> Forall (fun p => p <> EmptyString) packages ->
  match_packages run installed a packages cache = (Some ms, cache') ->
  Forall (fun m => key_ok (match_key m)) ms.
Proof.
  intros (Hid & _ & Hcve) Hp. revert cache ms. induction Hp as [|p rest Hp _ IH]; intros cache ms; cbn [match_packages].
  { intros [= <- _]. constructor. }
  destruct (installed !! p) as [version|]; [|apply IH].
  destruct (is_vulnerable run cache a version) as [[hit|] c1]; [|done].
  destruct (match_packages run installed a rest c1) as [[ms'|] c2] eqn:Er; [|done].
  intros [= <- <-]. apply Forall_app. split; [|by eapply IH].
  destruct hit; [|constructor]. apply Forall_fmap. eapply Forall_impl; [exact Hcve|]. by intros c Hc.
Qed.

Lemma match_advisories_keys run installed (advisories : list Advisory) cache r cache' :
  Forall adv_ok advisories ->
  match_advisories run installed advisories cache = (Some r, cache') ->
  Forall (fun m => key_ok (match_key m)) (mr_matches r).
Proof.
  intros H. revert cache r. induction H as [|a rest Ha _ IH]; intros cache r; cbn [match_advisories].
  { intros [= <- _]. constructor. }
  destruct (String.eqb _ _); [apply IH|]. destruct (bool_decide _); cbn [negb].
  - destruct (match_packages _ _ _ _ _) as [[ms|] c1] eqn:Ep; [|done].
    destruct (match_advisories run installed rest c1) as [[r'|] c2] eqn:Er; [|done].
    intros [= <- <-]. apply Forall_app. split; [|by eapply IH].
    eapply match_packages_keys; [done| |exact Ep]. apply Ha.
  - destruct (match_advisories run installed rest cache) as [[r'|] c2] eqn:Er; [|done].
    intros [= <- <-]. exact (IH _ _ Er).
Qed.

Lemma scan_facts_keys loads max_bytes (p : Poll) (cache : VercmpCache) f cache' :
  scan_facts loads max_bytes p cache = (Ok f, cache') ->
  Forall (fun m => key_ok (match_key m)) (mr_matches (sf_result f)).
Proof.
  unfold scan_facts.
  destruct (load_advisories _ _ _ _) as [parsed|] eqn:El; [|done].
  destruct (negb _); [done|]. destruct (parse_installed _) as [installed bad].
  destruct (match_advisories _ _ _ _) as [[r|] c1] eqn:Em; [|done].
  destruct (_ <? _); [done|]. intros [= <- _]. simpl. eapply match_advisories_keys; [|exact Em].
  unfold load_advisories in El. destruct (po_size p); [|done]. destruct (_ <? _); [done|].
  destruct (po_content p); [|done]. destruct (_ <? _); [done|].
  unfold parse_advisories in El. destruct (loads _) as [[| | | | | |l|]|]; try done.
  destruct l as [|x l]; [done|]. destruct (_ <? _); [done|]. injection El as Hp.
  change (parse_entries (x :: l) = parsed) in Hp. subst parsed. apply parse_entries_ok.
Qed.

(** ** Reconciliation of the table with a scan *)

Definition row_keys (rows : list VulnRow) : list VulnKey := row_key <$> rows.
Definition unresolved (rows : list VulnRow) (k : VulnKey) : Prop :=
  exists r, r ∈ rows /\ row_key r = k /\ vr_resolved_at r = None.

(** What a row never loses. *)
Definition same_history (r r' : VulnRow) : Prop :=
  row_key r' = row_key r /\ vr_first_seen_at r' = vr_first_seen_at r /\
  vr_acked_at r' = vr_acked_at r /\ vr_acked_note r' = vr_acked_note r.

Lemma upsert_spec (row : VulnRow) (rows : list VulnRow) :
  NoDup (row_keys rows) ->
  NoDup (row_keys (upsert row rows)) /\
  (forall r', r' ∈ upsert row rows ->
     (r' ∈ rows /\ row_key r' <> row_key row) \/
     (row_key r' = row_key row /\ vr_resolved_at r' = vr_resolved_at row \/
      row_key r' = row_key row /\ vr_resolved_at r' = None) /\ vr_last_seen r' = vr_last_seen row) /\
  (forall r, r ∈ rows -> exists r', r' ∈ upsert row rows /\ same_history r r' /\
     (row_key r <> row_key row -> r' = r)) /\
  (exists r', r' ∈ upsert row rows /\ row_key r' = row_key row).
Proof.
  intros Hnd. unfold upsert. destruct (existsb _ rows) eqn:E.
  - apply existsb_exists in E as (r0 & Hr0%list_elem_of_In & Hk0%bool_decide_eq_true). split_and!.
    + unfold row_keys in *. rewrite <- list_fmap_compose.
      erewrite (list_fmap_ext _ row_key); [done|]. intros i r _. simpl. by destruct (bool_decide _).
    + intros r' (r & -> & Hr)%list_elem_of_fmap.
      destruct (bool_decide_reflect (row_key r = row_key row)) as [Hk|Hk]; [right | by left].
      split; [|done]. right. by split.
    + intros r Hr. eexists. split; [apply list_elem_of_fmap; exists r; split; [reflexivity|exact Hr]|].
      by destruct (bool_decide_reflect (row_key r = row_key row)).
    + exists (upserted_row row r0). split; [|done]. apply list_elem_of_fmap. exists r0.
      by rewrite bool_decide_eq_true_2.
  - assert (Hnew : forall r, r ∈ rows -> row_key r <> row_key row).
    { intros r Hr Hk. apply not_true_iff_false in E. apply E, existsb_exists. exists r.
      split; [by apply list_elem_of_In | by apply bool_decide_eq_true]. }
    split_and!.
    + unfold row_keys in *. rewrite fmap_app. apply NoDup_app. split_and!; [done| |apply NoDup_singleton].
      intros k (r & -> & Hr)%list_elem_of_fmap Hk%list_elem_of_singleton. by apply (Hnew r).
    + intros r' [Hr| ->%list_elem_of_singleton]%elem_of_app; [left | right]; [by auto|].
      split; [by left | done].
    + intros r Hr. exists r. split_and!; [apply elem_of_app; by left|done..].
    + exists row. split; [|done]. apply elem_of_app. right. by apply list_elem_of_singleton.
Qed.

Section Reconcile.
Context (fromiso : string -> option Z) (varchar : pyval -> option string) (iso : Z -> string)
        (host : string) (started : Z).
Hypothesis varchar_str : forall s, varchar (PStr s) = Some s.
Hypothesis iso_roundtrip : forall t, fromiso (iso t) = Some t.

Let project := project_vulnerability fromiso varchar.

(** The table while the matches with keys [ks] have been projected. *)
Record reconciling (rows0 : list VulnRow) (ks : list VulnKey) (rows : list VulnRow) : Prop := {
  rc_nodup : NoDup (row_keys rows);
  rc_fresh : forall r, r ∈ rows -> row_key r ∈ ks -> vr_resolved_at r = None /\ started <= vr_last_seen r;
  rc_old : forall r, r ∈ rows -> row_key r ∉ ks -> r ∈ rows0;
  rc_kept : forall r, r ∈ rows0 -> exists r', r' ∈ rows /\ same_history r r' /\ (row_key r ∉ ks -> r' = r);
  rc_done : forall k, k ∈ ks -> exists r, r ∈ rows /\ row_key r = k;
}.

Lemma same_history_trans (a b c : VulnRow) : same_history a b -> same_history b c -> same_history a c.
Proof. unfold same_history. intros (? & ? & ? & ?) (? & ? & ? & ?). split_and!; congruence. Qed.

Lemma reconciling_upsert (rows0 rows : list VulnRow) (ks : list VulnKey) (row : VulnRow) :
  reconciling rows0 ks rows -> vr_resolved_at row = None -> started <= vr_last_seen row ->
  reconciling rows0 (ks ++ [row_key row]) (upsert row rows).
Proof.
  intros [H1 H2 H3 H4 H5] Hres Hls. destruct (upsert_spec row rows H1) as (U1 & U2 & U3 & U4). split.
  - done.
  - intros r Hr Hk. destruct (U2 r Hr) as [[Hin Hne]|[Hkr Hl]].
    + apply H2; [done|]. by apply elem_of_app in Hk as [|?%list_elem_of_singleton].
    + rewrite Hl. split; [|done]. destruct Hkr as [[_ ->]|[_ ->]]; done.
  - intros r Hr Hk. rewrite elem_of_app, list_elem_of_singleton in Hk.
    destruct (U2 r Hr) as [[Hin Hne]|[Hkr _]]; [apply H3; tauto|].
    exfalso. destruct Hkr as [[? _]|[? _]]; tauto.
  - intros r Hr. destruct (H4 r Hr) as (r1 & Hr1 & Hh1 & He1). destruct (U3 r1 Hr1) as (r2 & Hr2 & Hh2 & He2).
    exists r2. split_and!; [done|by eapply same_history_trans|].
    rewrite elem_of_app, list_elem_of_singleton. intros Hk.
    destruct Hh1 as [Hk1 _]. rewrite He2 by (rewrite Hk1; tauto). apply He1. tauto.
  - intros k [Hk|Hk%list_elem_of_singleton]%elem_of_app; [|by subst k].
    destruct (H5 k Hk) as (r & Hr & <-). destruct (U3 r Hr) as (r' & Hr' & [Hk' _] & _). by exists r'.
Qed.

Lemma project_found_event (p : Poll) (i : nat) (m : VulnMatch) (new first : bool) :
  key_ok (match_key m) -> started <= po_clock p i ->
  exists e row, found_event host p i m new first = Some e /\ row_key row = match_key m /\
    vr_resolved_at row = None /\ started <= vr_last_seen row /\
    forall rows, project rows e = upsert row rows.
Proof.
  intros (H1 & H2 & H3) Hc. eexists.
  exists (inserted_row varchar
           (default (mkEvent "" 0 "" EK_event [] [] "" None SevInfo "" false None None None None None
              None None None None None None None None None None None None None [] None)
              (found_event host p i m new first))
           (vuln_block m new) (vm_avg_id m) (vm_cve_id m) (vm_package m)).
  split_and!; [reflexivity|reflexivity|reflexivity|exact Hc|].
  intros rows. unfold project, project_vulnerability, project_found. simpl in *.
  destruct (String.eqb_spec (vm_avg_id m) EmptyString); [done|].
  destruct (String.eqb_spec (vm_cve_id m) EmptyString); [done|].
  destruct (String.eqb_spec (vm_package m) EmptyString); [done|].
  change (dict_get "avg_id" (vuln_block m new)) with (PStr (vm_avg_id m)).
  change (dict_get "cve_id" (vuln_block m new)) with (PStr (vm_cve_id m)).
  change (dict_get "package" (vuln_block m new)) with (PStr (vm_package m)).
  by rewrite !varchar_str.
Qed.

Lemma project_found_events (p : Poll) (ms : list VulnMatch) (new_keys : gset VulnKey) (first : bool)
    (i : nat) (rows0 rows : list VulnRow) (ks : list VulnKey) :
  Forall (fun m => key_ok (match_key m)) ms -> (forall i, started <= po_clock p i) ->
  reconciling rows0 ks rows ->
  reconciling rows0 (ks ++ (match_key <$> ms))
    (foldl project rows (omap Datatypes.id (found_events host p i ms new_keys first))).
Proof.
  intros Hms Hc. revert i rows ks. induction Hms as [|m ms Hm _ IH]; intros i rows ks Hr.
  { by rewrite app_nil_r. }
  destruct (project_found_event p i m (bool_decide (match_key m ∈ new_keys)) first Hm (Hc i))
    as (e & row & He & Hk & Hres & Hls & Hp).
  cbn [found_events omap list_omap]. rewrite He. cbn [Datatypes.id foldl]. rewrite Hp, fmap_cons, <- Hk.
  change (row_key row :: (match_key <$> ms)) with ([row_key row] ++ (match_key <$> ms)).
  rewrite app_assoc. apply IH. by apply reconciling_upsert.
Qed.

Lemma found_events_length (p : Poll) (ms : list VulnMatch) (new_keys : gset VulnKey) (first : bool) (i : nat) :
  length (omap Datatypes.id (found_events host p i ms new_keys first)) = length ms.
Proof. revert i. induction ms as [|m ms IH]; intros i; [done|]. cbn. f_equal. apply IH. Qed.

Lemma sweep_spec (now : Z) (skipped : list string) (r : VulnRow) :
  same_history r (sweep_row now started skipped r) /\
  (vr_resolved_at (sweep_row now started skipped r) = None <->
   vr_resolved_at r = None /\ (started <= vr_last_seen r \/ vr_avg_id r ∈ skipped)).
Proof.
  unfold sweep_row. destruct (bool_decide_reflect (is_Some (vr_resolved_at r))) as [[t Ht]|Hn]; simpl.
  { split; [done|]. rewrite Ht. by split; [|intros []]. }
  assert (vr_resolved_at r = None) as Hres by (destruct (vr_resolved_at r); [by destruct Hn|done]).
  destruct (Z.ltb_spec (vr_last_seen r) started); simpl;
    [destruct (bool_decide_reflect (vr_avg_id r ∈ skipped)); simpl|]; split; try done;
    rewrite ?Hres; split; try done; try tauto; intros [_ [?|?]]; [lia|done].
Qed.

Lemma omap_as_str (l : list string) : omap as_str (PStr <$> l) = l.
Proof. induction l as [|s l IH]; [done|]. cbn. f_equal. exact IH. Qed.

Lemma project_completed_event (p : Poll) (i : nat) (f : ScanFacts) (new n : nat) (rows : list VulnRow) :
  po_started p = started ->
  exists e, completed_event host p i (completed_raw iso p f new) n = Some e /\
    project rows e = sweep_row (po_clock p i) started (sf_skipped f) <$> rows.
Proof.
  intros Hs. eexists. split; [reflexivity|].
  unfold project, project_vulnerability, project_sweep. cbn -[sweep_row completed_raw dict_get].
  change (dict_get "scan_started_at" (completed_raw iso p f new)) with (PStr (iso (po_started p))).
  change (dict_get "skipped_avg_ids" (completed_raw iso p f new)) with (PList (PStr <$> sf_skipped f)).
  cbn [truthy py_list]. rewrite iso_roundtrip, Hs.
  destruct (sf_skipped f) as [|s l]; [done|]. rewrite bool_decide_eq_false_2 by done. cbn [negb default].
  by rewrite omap_as_str.
Qed.

Lemma reconciling_start (rows : list VulnRow) : NoDup (row_keys rows) -> reconciling rows [] rows.
Proof.
  intros H. split; [done|..].
  - by intros r _ ?%not_elem_of_nil.
  - by intros r Hr _.
  - intros r Hr. by exists r.
  - by intros k ?%not_elem_of_nil.
Qed.

(** The sweep closes what was not projected and not skipped. *)
Lemma sweep_reconciles (rows0 rows : list VulnRow) (ks : list VulnKey) (now : Z) (skipped : list string) :
  reconciling rows0 ks rows -> Forall (fun r => vr_last_seen r < started) rows0 ->
  let rows' := sweep_row now started skipped <$> rows in
  NoDup (row_keys rows') /\
  (forall k, unresolved rows' k <-> k ∈ ks \/ (unresolved rows0 k /\ k.1.1 ∈ skipped)) /\
  (forall r, r ∈ rows0 -> exists r', r' ∈ rows' /\ same_history r r').
Proof.
  intros [H1 H2 H3 H4 H5] Hold rows'. rewrite Forall_forall in Hold.
  set (sw := sweep_row now started skipped) in *.
  assert (Hkey : forall r, row_key (sw r) = row_key r) by (intros r; apply (sweep_spec now skipped r)).
  split_and!.
  - unfold row_keys, rows' in *. rewrite <- list_fmap_compose.
    erewrite (list_fmap_ext _ row_key); [done|]. intros i r _. apply Hkey.
  - intros k. split.
    + intros (r' & (r & -> & Hr)%list_elem_of_fmap & Hk & Hres).
      apply (sweep_spec now skipped r) in Hres as [Hres Hwhy]. rewrite Hkey in Hk. subst k.
      destruct (decide (row_key r ∈ ks)) as [|Hn]; [by left|]. right.
      pose proof (H3 r Hr Hn) as Hr0. pose proof (Hold r Hr0). split; [by exists r|].
      destruct Hwhy as [|Hsk]; [lia | exact Hsk].
    + intros [Hk|[(r & Hr & <- & Hres) Hsk]].
      * destruct (H5 k Hk) as (r & Hr & <-). destruct (H2 r Hr Hk) as [Hres Hls].
        exists (sw r). split_and!; [by apply list_elem_of_fmap_2|done|].
        apply (sweep_spec now skipped r). by auto.
      * destruct (H4 r Hr) as (r' & Hr' & Hh & He). exists (sw r').
        split_and!; [by apply list_elem_of_fmap_2|rewrite Hkey; apply Hh|].
        apply (sweep_spec now skipped r'). destruct (decide (row_key r ∈ ks)) as [Hk|Hn].
        -- destruct Hh as [Hk' _]. rewrite <- Hk' in Hk. destruct (H2 r' Hr' Hk). auto.
        -- rewrite (He Hn). auto.
  - intros r Hr. destruct (H4 r Hr) as (r' & Hr' & Hh & _). exists (sw r').
    split; [by apply list_elem_of_fmap_2|]. eapply same_history_trans; [exact Hh|].
    apply (sweep_spec now skipped r').
Qed.
End Reconcile.

(** C35. A successful scan reconciles the table with the match set. When the
    clock does not go back, projecting the events of a scan makes the open
    rows exactly those of its matches and, unchanged, the open rows of the
    advisories it could not judge; everything else is resolved. No row is
    deleted, none loses its first sighting or its acknowledgement, and keys
    stay unique. *)
Theorem vuln_scan_reconciles (fromiso : string -> option Z) (varchar : pyval -> option string)
    (iso : Z -> string) (loads : string -> option pyval) (host : string) (max_bytes : Z)
    (p : Poll) (cache cache' : VercmpCache) (prev : option (gset VulnKey)) (f : ScanFacts)
    (rows : list VulnRow) :
  (forall s, varchar (PStr s) = Some s) -> (forall t, fromiso (iso t) = Some t) ->
  scan_facts loads max_bytes p cache = (Ok f, cache') ->
  NoDup (row_keys rows) ->
  Forall (fun r => vr_last_seen r < po_started p) rows ->
  (forall i, po_started p <= po_clock p i) ->
  let events := omap Datatypes.id (scan_events iso host p f prev) in
  let rows' := foldl (project_vulnerability fromiso varchar) rows events in
  length events = S (length (mr_matches (sf_result f))) /\
  NoDup (row_keys rows') /\
  (forall k, unresolved rows' k <->
     k ∈ match_key <$> mr_matches (sf_result f) \/ (unresolved rows k /\ k.1.1 ∈ sf_skipped f)) /\
  (forall r, r ∈ rows -> exists r', r' ∈ rows' /\ same_history r r').
Proof.
  intros Hv Hi Hf Hnd Hold Hc events rows'.
  set (new_keys := match prev with None => (∅ : gset VulnKey)
                   | Some prev => list_to_set (match_key <$> mr_matches (sf_result f)) ∖ prev end).
  set (fe := found_events host p 0 (mr_matches (sf_result f)) new_keys
               (match prev with None => true | Some _ => false end)).
  pose proof (project_found_events fromiso varchar host (po_started p) Hv p (mr_matches (sf_result f))
    new_keys (match prev with None => true | Some _ => false end) 0 rows rows []
    (scan_facts_keys _ _ _ _ _ _ Hf) Hc (reconciling_start _ _ Hnd)) as Hr. fold fe in Hr.
  destruct (project_completed_event fromiso varchar iso host (po_started p) Hi p
    (length (mr_matches (sf_result f))) f (size new_keys) (length (mr_matches (sf_result f)))
    (foldl (project_vulnerability fromiso varchar) rows (omap Datatypes.id fe)) eq_refl) as (e & He & Hp).
  assert (Hev : events = omap Datatypes.id fe ++ [e]).
  { unfold events, scan_events. cbv zeta. fold new_keys. by rewrite omap_app, He. }
  split.
  - rewrite Hev, length_app. cbn. rewrite Nat.add_1_r. f_equal. apply found_events_length.
  - unfold rows'. rewrite Hev, foldl_app. cbn [foldl]. rewrite Hp. by apply sweep_reconciles.
Qed.


(** ** A due scan waits for the lock and is then run *)

Section Trigger.
Context (loads : string -> option pyval) (iso : Z -> string) (host : string) (interval max_bytes : Z).

Let step := step loads iso host interval max_bytes.

(** The events of a run of polls, and the worker after it. *)
Fixpoint run_polls (w : VulnWorker) (ps : list Poll) : list (option Event) * VulnWorker :=
  match ps with
  | [] => ([], w)
  | p :: rest =>
      let '(es, w1) := step w p in
      let '(es', w2) := run_polls w1 rest in (es ++ es', w2)
  end.

Lemma scan_due_observed (w : VulnWorker) (now now' : Z) advisory pacman :
  now <= now' -> scan_due w now = true -> scan_due (observe_files w advisory pacman) now' = true.
Proof.
  unfold scan_due, observe_files. cbn. intros Hle. destruct (vw_rescan w); [done|].
  destruct (vw_next_due w) as [due|]; [|done].
  destruct (Z.leb_spec due now), (Z.leb_spec due now'); try done; [lia|].
  destruct (vw_pending_file w); [|done]. rewrite orb_true_r.
  destruct (vw_last_file_scan w) as [last|]; [|done]. rewrite !Z.leb_le. lia.
Qed.

Lemma scan_due_reported (w : VulnWorker) (now : Z) : scan_due (set_lock_reported w) now = scan_due w now.
Proof. done. Qed.

Lemma locked_polls (w : VulnWorker) (now : Z) (ps : list Poll) :
  scan_due w now = true -> Forall (fun p => now <= po_now p /\ po_locked p = true) ps ->
  let '(es, w') := run_polls w ps in
  scan_due w' now = true /\ (length es <= (if vw_lock_reported w then 0 else 1))%nat /\
  vw_prev_keys w' = vw_prev_keys w.
Proof.
  intros Hd Hps. revert w Hd. induction Hps as [|p ps [Hle Hlock] _ IH]; intros w Hd; cbn [run_polls].
  { split_and!; [done| |done]. simpl. lia. }
  unfold step, Vuln.step.
  rewrite (scan_due_observed w now (po_now p)), Hlock by done. cbn [negb].
  assert (Hd' : scan_due (observe_files w (po_advisory p) (po_pacman p)) now = true)
    by by eapply scan_due_observed.
  change (vw_lock_reported (observe_files w _ _)) with (vw_lock_reported w).
  destruct (vw_lock_reported w) eqn:Er.
  - specialize (IH _ Hd'). change (vw_lock_reported (observe_files w _ _)) with (vw_lock_reported w) in IH.
    rewrite Er in IH. destruct (run_polls _ ps) as [es w2]. exact IH.
  - rewrite <- scan_due_reported in Hd'. specialize (IH _ Hd'). cbn [set_lock_reported vw_lock_reported] in IH.
    destruct (run_polls _ ps) as [es w2]. destruct IH as (H1 & H2 & H3).
    split_and!; [done| |done]. cbn. lia.
Qed.

(** A due scan is never lost to the package manager's lock: however many
    polls find the database locked, they report it at most once altogether and
    keep what is known; and the first poll that finds it free runs the scan,
    which consumes the request and schedules the next one. *)
Theorem vuln_trigger_served (w : VulnWorker) (now : Z) (ps : list Poll) (p : Poll) :
  scan_due w now = true ->
  Forall (fun p => now <= po_now p /\ po_locked p = true) ps ->
  now <= po_now p -> po_locked p = false ->
  let '(es, w') := run_polls w ps in
  let '(es', w'') := step w' p in
  (length es <= 1)%nat /\ vw_prev_keys w' = vw_prev_keys w /\
  es' <> [] /\ vw_rescan w'' = false /\ vw_pending_file w'' = false /\
  vw_next_due w'' = Some (po_now p + interval).
Proof.
  intros Hd Hps Hle Hl. pose proof (locked_polls w now ps Hd Hps) as H.
  destruct (run_polls w ps) as [es w']. destruct H as (Hd' & Hlen & Hk).
  unfold step, Vuln.step. rewrite (scan_due_observed w' now (po_now p)), Hl by done. cbn [negb].
  unfold run_scan. destruct (scan_facts _ _ _ _) as [[f|reason] cache]; split_and!; try done;
    try (destruct (vw_lock_reported w); lia).
  unfold scan_events. by destruct (found_events _ _ _ _ _ _).
Qed.
End Trigger.

(** ** A concrete scan *)

Module VulnExample.

Definition dump : pyval :=
  PList [PDict [("name", PStr "AVG-1"); ("packages", PList [PStr "curl"]); ("issues", PList [PStr "CVE-1"]);
                ("status", PStr "Vulnerable"); ("severity", PStr "High"); ("fixed", PStr "8.1")];
         PDict [("name", PStr "AVG-2"); ("packages", PList [])]]%string.
Definition loads (_ : string) : option pyval := Some dump.
Definition fromiso (s : string) : option Z := Z.of_int <$> DecimalString.NilZero.int_of_string s.
Definition varchar (v : pyval) : option string := match v with PStr s => Some s | _ => None end.
Definition poll : Poll :=
  mkPoll 100 None None false 50 (Some 1) (Some "x"%string) 0 "curl 8.0" (fun _ _ => VOutput "-1")
    (fun i => 60 + Z.of_nat i) (fun _ => "id"%string) None 0.
Definition row (avg cve : string) : VulnRow :=
  mkVuln avg cve "curl" None None None None false 1 1 "e" None (Some 7) None.
Definition table : list VulnRow := [row "AVG-1" "CVE-0"; row "AVG-2" "CVE-2"].
Definition facts : ScanFacts :=
  match (scan_facts loads 10 poll ∅).1 with
  | Ok f => f | Err _ => mkFacts (mkParsed [] [] 0) (mkMatchResult [] [] 0) [] 0
  end.
Definition run (_ _ : string) : VercmpRun := VOutput "-1".
Definition installed : gmap string string := {["curl"%string := "8.0"%string]}.
Definition advisory : Advisory :=
  mkAdvisory "AVG-1" ["curl"%string] "Vulnerable" "High" (Some "8.1"%string) None ["CVE-1"%string].
Definition matched : option MatchResult * VercmpCache := match_advisories run installed [advisory] ∅.
Definition found : MatchResult := default (mkMatchResult [] [] 0) matched.1.
Definition parsed : ParsedAdvisories :=
  match parse_advisories loads "x" with Ok p => p | Err _ => mkParsed [] [] 0 end.
End VulnExample.

Lemma vuln_scan_reconciles_witness :
  exists cache', scan_facts VulnExample.loads 10 VulnExample.poll ∅ = (Ok VulnExample.facts, cache') /\
  let rows' := foldl (project_vulnerability VulnExample.fromiso VulnExample.varchar) VulnExample.table
                 (omap Datatypes.id (scan_events str_of_Z "h" VulnExample.poll VulnExample.facts None)) in
  unresolved rows' ("AVG-1", "CVE-1", "curl")%string /\
  unresolved rows' ("AVG-2", "CVE-2", "curl")%string /\
  ~ unresolved rows' ("AVG-1", "CVE-0", "curl")%string.
Proof.
  exists (scan_facts VulnExample.loads 10 VulnExample.poll ∅).2. split; [vm_compute; reflexivity|].
  destruct (vuln_scan_reconciles VulnExample.fromiso VulnExample.varchar str_of_Z VulnExample.loads "h" 10
    VulnExample.poll ∅ (scan_facts VulnExample.loads 10 VulnExample.poll ∅).2 None VulnExample.facts
    VulnExample.table) as (_ & _ & H & _).
  - done.
  - apply string_int_roundtrip.
  - vm_compute. reflexivity.
  - by apply (bool_decide_unpack _).
  - repeat constructor.
  - intros i. cbn. lia.
  - split_and!.
    + apply H. left. vm_compute. left.
    + apply H. right. split; [|vm_compute; left]. exists (VulnExample.row "AVG-2" "CVE-2").
      split_and!; [right; left|done|done].
    + intros [Hk|[_ Hk]]%H; vm_compute in Hk.
      * by apply list_elem_of_singleton in Hk.
      * by apply list_elem_of_singleton in Hk.
Defined.

Lemma match_advisories_spec_witness :
  cache_ok VulnExample.run ∅ /\ VulnExample.matched.1 = Some VulnExample.found /\
  VulnExample.found <> mkMatchResult [] [] 0 /\ cache_ok VulnExample.run VulnExample.matched.2.
Proof.
  assert (Hc : cache_ok VulnExample.run ∅) by (intros a b r H; discriminate H).
  split; [exact Hc|]. split; [vm_compute; reflexivity|]. split; [vm_compute; discriminate|].
  apply (match_advisories_spec VulnExample.run VulnExample.installed [VulnExample.advisory] ∅
    VulnExample.found VulnExample.matched.2 Hc). vm_compute. reflexivity.
Defined.

Lemma parse_advisories_keeps_ids_witness :
  parse_advisories VulnExample.loads "x" = Ok VulnExample.parsed /\
  pa_skipped VulnExample.parsed = ["AVG-2"%string] /\
  exists doc, VulnExample.loads "x" = Some (PList doc).
Proof.
  assert (H : parse_advisories VulnExample.loads "x" = Ok VulnExample.parsed) by (vm_compute; reflexivity).
  split; [exact H|]. split; [vm_compute; reflexivity|].
  destruct (parse_advisories_keeps_ids VulnExample.loads "x" VulnExample.parsed H) as (doc & Hd & _).
  by exists doc.
Defined.

Lemma vuln_trigger_served_witness :
  scan_due vuln_worker_init 100 = true /\
  (step VulnExample.loads str_of_Z "h" 60 10 vuln_worker_init VulnExample.poll).1 <> [].
Proof.
  split; [reflexivity|].
  pose proof (vuln_trigger_served VulnExample.loads str_of_Z "h" 60 10 vuln_worker_init 100 []
    VulnExample.poll eq_refl (Forall_nil_2 _) (Z.le_refl 100) eq_refl) as H. cbn [run_polls] in H.
  destruct (step _ _ _ _ _ _ _) as [es w']. apply H.
Defined.
