(* ===== verification/Projector.v ===== *)
(** * The state projector ([inspectord/state/projector.py], [state/baseline.py],
      [state/reconcile.py])

    [project] materializes the event stream into tables of current state, one
    per kind of entity. Cells hold the values of the event; [col] is the text
    under which the database stores a value of a key column, and values a
    column cannot hold are not modelled (the statement raises and the row
    stays as it was, as it does for [None] below). *)

From S2P Require Import Prelude Schemas Tables RuleEval Alerts Vuln.

(** ** Rows *)

Record ConnRow := mkConn {
  cn_key : string;
  cn_pid : pyval; cn_comm : pyval; cn_saddr : pyval; cn_sport : pyval;
  cn_daddr : pyval; cn_dport : pyval; cn_proto : pyval;
  cn_family : string;
  cn_first : Z; cn_last : Z;
  cn_event : string;
}.
Record ListenerRow := mkListener {
  ls_key : string * string * string;
  ls_addr : pyval; ls_port : pyval; ls_proto : pyval;
  ls_family : string;
  ls_first : Z; ls_last : Z;
  ls_gen : Z;
}.
Record ServiceRow := mkService {
  sr_unit : string;
  sr_active : pyval; sr_sub : pyval; sr_load : pyval;
  sr_first : Z; sr_last : Z;
  sr_event : string;
}.
Record FileRow := mkFileRow {
  fr_path : string;
  fr_change : string;
  fr_first : Z; fr_last : Z;
  fr_event : string;
}.
Record PersistRow := mkPersist {
  pr_key : string;
  pr_kind : pyval; pr_name : pyval; pr_source_path : pyval; pr_details : pyval;
  pr_first : Z; pr_last : Z;
  pr_event : string;
}.
Inductive ProcStatus := Proc_running | Proc_exited.
#[export] Instance ProcStatus_eq_dec : EqDecision ProcStatus.
Proof. solve_decision. Defined.
Record ProcRow := mkProc {
  pc_key : string * string;
  pc_ppid : pyval; pc_comm : pyval; pc_exe_path : pyval; pc_exe_sha256 : pyval;
  pc_uid : pyval; pc_cmdline : pyval;
  pc_status : ProcStatus;
  pc_exit_code : pyval;
  pc_first : Z; pc_last : Z;
  pc_event : string;
}.
Inductive DevStatus := Dev_present | Dev_removed.
#[export] Instance DevStatus_eq_dec : EqDecision DevStatus.
Proof. solve_decision. Defined.
Record DevRow := mkDev {
  dv_key : string;
  dv_vendor : pyval; dv_product : pyval; dv_serial : pyval; dv_subsystem : pyval; dv_devnode : pyval;
  dv_status : DevStatus;
  dv_first : Z; dv_last : Z;
  dv_event : string;
}.
Inductive RunStatus := Run_running | Run_success | Run_failure | Run_skipped.
#[export] Instance RunStatus_eq_dec : EqDecision RunStatus.
Proof. solve_decision. Defined.
Record ScanRow := mkScanRow {
  sn_run_id : string;
  sn_scanner : string;
  sn_status : RunStatus;
  sn_reason : pyval; sn_exit_code : pyval; sn_duration : pyval; sn_finding_count : pyval;
  sn_dropped : pyval;
  sn_truncated : bool; sn_output_truncated : bool;
  sn_excerpt : pyval;
  sn_started_at : Z;
  sn_completed_at : option Z;
  sn_event : string;
}.

(** ** The statements *)

(** [event.module in (...)]. *)
Definition from (modules : list string) (e : Event) : bool := existsb (String.eqb (ev_module e)) modules.

(** [":" in addr]; [None] is a [TypeError]. *)
Definition has_colon (v : pyval) : option bool :=
  match v with
  | PStr s => Some (contains ":" s)
  | PList l => Some (existsb (fun x => match x with PStr s => String.eqb s ":" | _ => false end) l)
  | PDict d => Some (dict_mem ":" d)
  | _ => None
  end.
Definition family (addr : pyval) : option string :=
  (fun b : bool => if b then "ipv6"%string else "ipv4"%string) <$> has_colon addr.

Definition is_none (v : pyval) : bool := match v with PNone => true | _ => false end.
(** [v or w]. *)
Definition py_or (v w : pyval) : pyval := if truthy v then v else w.
(** [(v or {}).get(key)]; [None] is an [AttributeError]. *)
Definition nested_get (v : pyval) (k : string) : option pyval :=
  match py_or v (PDict []) with PDict d => Some (dict_get k d) | _ => None end.
(** [COALESCE(excluded.c, t.c)]. *)
Definition coalesce_val (a b : pyval) : pyval := if is_none a then b else a.

(** [s.removeprefix(p)]. *)
Definition removeprefix (p s : string) : string :=
  if startswith p s then str_drop (String.length p) s else s.

Section Project.
Context (str_other : pyval -> string) (col : pyval -> string).

Let text (v : pyval) : string := py_str str_other v.

(** *** Tables whose row is the newest event, first seen when it appeared *)

(** The update leaves [pid], which the key contains. *)
Definition conn_upd (new old : ConnRow) : ConnRow :=
  mkConn (cn_key old) (cn_pid old) (cn_comm new) (cn_saddr new) (cn_sport new) (cn_daddr new)
    (cn_dport new) (cn_proto new) (cn_family new) (cn_first old) (cn_last new) (cn_event new).
Definition conn_pid (e : Event) : pyval := dict_get "pid" (block_or_empty (ev_process e)).
Definition conn_daddr (e : Event) : pyval := dict_get "ip" (block_or_empty (ev_destination e)).
Definition conn_row (e : Event) (fam : string) : ConnRow :=
  let process := block_or_empty (ev_process e) in
  let source := block_or_empty (ev_source e) in
  let proto := dict_get "transport" (block_or_empty (ev_network e)) in
  let dport := dict_get "port" (block_or_empty (ev_destination e)) in
  let conn_key := text (conn_pid e) +:+ ":" +:+ text (conn_daddr e) +:+ ":" +:+ text dport +:+ ":"
                    +:+ text proto in
  mkConn conn_key (conn_pid e) (dict_get "name" process) (dict_get "ip" source) (dict_get "port" source)
    (conn_daddr e) dport proto fam (ev_ts e) (ev_ts e) (ev_event_id e).
Definition project_connection (e : Event) (rows : list ConnRow) : option (list ConnRow) :=
  if is_none (conn_pid e) || is_none (conn_daddr e) then Some rows
  else fam ← family (conn_daddr e); Some (upsert_with cn_key conn_upd (conn_row e fam) rows).

Definition listener_upd (new old : ListenerRow) : ListenerRow :=
  mkListener (ls_key old) (ls_addr old) (ls_port old) (ls_proto old) (ls_family new) (ls_first old)
    (ls_last new) (ls_gen new).
Definition listen_addr (e : Event) : pyval := dict_get "ip" (block_or_empty (ev_source e)).
Definition listen_port (e : Event) : pyval := dict_get "port" (block_or_empty (ev_source e)).
Definition listen_proto (e : Event) : pyval := dict_get "transport" (block_or_empty (ev_network e)).
Definition listen_key (e : Event) : string * string * string :=
  (col (listen_addr e), col (listen_port e), col (listen_proto e)).
Definition listener_row (e : Event) (fam : string) : ListenerRow :=
  mkListener (listen_key e) (listen_addr e) (listen_port e) (listen_proto e) fam (ev_ts e) (ev_ts e)
    (Z.quot (ev_ts e) 1000000).
Definition project_listener (e : Event) (rows : list ListenerRow) : option (list ListenerRow) :=
  if is_none (listen_addr e) || is_none (listen_port e) || is_none (listen_proto e) then Some rows
  else if String.eqb (ev_action e) "listener_removed" then Some (delete_key ls_key (listen_key e) rows)
  else fam ← family (listen_addr e); Some (upsert_with ls_key listener_upd (listener_row e fam) rows).

Definition service_first (t : Z) (r : ServiceRow) : ServiceRow :=
  mkService (sr_unit r) (sr_active r) (sr_sub r) (sr_load r) t (sr_last r) (sr_event r).
Definition service_upd (new old : ServiceRow) : ServiceRow :=
  mkService (sr_unit old) (sr_active new) (sr_sub new) (sr_load new) (sr_first old) (sr_last new) (sr_event new).
Definition service_row (e : Event) (unit : pyval) : ServiceRow :=
  let raw := block_or_empty (ev_raw e) in
  mkService (col unit) (dict_get "active" raw) (dict_get "sub" raw) (dict_get "load" raw)
    (ev_ts e) (ev_ts e) (ev_event_id e).
Definition project_service (e : Event) (rows : list ServiceRow) : list ServiceRow :=
  let unit := dict_get "name" (block_or_empty (ev_service e)) in
  if negb (truthy unit) then rows
  else if String.eqb (ev_action e) "service_removed" then delete_key sr_unit (col unit) rows
  else upsert_with sr_unit service_upd (service_row e unit) rows.

Definition file_first (t : Z) (r : FileRow) : FileRow :=
  mkFileRow (fr_path r) (fr_change r) t (fr_last r) (fr_event r).
Definition file_upd (new old : FileRow) : FileRow :=
  mkFileRow (fr_path old) (fr_change new) (fr_first old) (fr_last new) (fr_event new).
Definition file_row (e : Event) (path : pyval) : FileRow :=
  mkFileRow (col path) (removeprefix "file_" (ev_action e)) (ev_ts e) (ev_ts e) (ev_event_id e).
Definition project_file (e : Event) (rows : list FileRow) : list FileRow :=
  let path := dict_get "path" (block_or_empty (ev_file e)) in
  if is_none path then rows else upsert_with fr_path file_upd (file_row e path) rows.

Definition persist_first (t : Z) (r : PersistRow) : PersistRow :=
  mkPersist (pr_key r) (pr_kind r) (pr_name r) (pr_source_path r) (pr_details r) t (pr_last r) (pr_event r).
Definition persist_upd (new old : PersistRow) : PersistRow :=
  mkPersist (pr_key old) (pr_kind new) (pr_name new) (pr_source_path new) (pr_details new)
    (pr_first old) (pr_last new) (pr_event new).
Definition persist_row (e : Event) (key : pyval) : PersistRow :=
  let p := block_or_empty (ev_persistence e) in
  mkPersist (col key) (dict_get "kind" p) (dict_get "name" p) (dict_get "source_path" p)
    (dict_get "details" p) (ev_ts e) (ev_ts e) (ev_event_id e).
Definition project_persistence (e : Event) (rows : list PersistRow) : list PersistRow :=
  let key := dict_get "key" (block_or_empty (ev_persistence e)) in
  if negb (truthy key) then rows
  else if String.eqb (ev_action e) "persistence_removed" then delete_key pr_key (col key) rows
  else upsert_with pr_key persist_upd (persist_row e key) rows.

(** *** Processes *)

(** [_parse_uid]. *)
Definition parse_uid (user : option dict) : pyval :=
  match dict_get "id" (block_or_empty user) with
  | PStr s => if negb (String.eqb s EmptyString) && str_forall is_digit s
              then match py_int s with Some z => PInt z | None => PNone end else PNone
  | PInt z => PInt z
  | PBool b => PBool b
  | _ => PNone
  end.

Definition exit_upd (new old : ProcRow) : ProcRow :=
  mkProc (pc_key old) (pc_ppid old) (pc_comm old) (pc_exe_path old) (pc_exe_sha256 old) (pc_uid old)
    (pc_cmdline old) Proc_exited (pc_exit_code new) (pc_first old) (pc_last new) (pc_event new).
Definition start_upd (new old : ProcRow) : ProcRow :=
  mkProc (pc_key old) (pc_ppid new) (pc_comm new) (coalesce_val (pc_exe_path new) (pc_exe_path old))
    (coalesce_val (pc_exe_sha256 new) (pc_exe_sha256 old)) (pc_uid new) (pc_cmdline new) Proc_running
    (pc_exit_code old) (pc_first old) (pc_last new) (pc_event new).

Definition project_process (boot_id : string) (e : Event) (rows : list ProcRow) : option (list ProcRow) :=
  let process := block_or_empty (ev_process e) in
  let pid := dict_get "pid" process in
  if is_none pid then Some rows
  else
    let k := (col pid, boot_id) in
    let comm := dict_get "name" process in
    if String.eqb (ev_action e) "process_exit" then
      Some (upsert_with pc_key exit_upd
              (mkProc k PNone comm PNone PNone PNone PNone Proc_exited (dict_get "exit_code" process)
                 (ev_ts e) (ev_ts e) (ev_event_id e)) rows)
    else
      ppid ← nested_get (dict_get "parent" process) "pid";
      sha ← nested_get (dict_get "hash" process) "sha256";
      Some (upsert_with pc_key start_upd
              (mkProc k ppid comm (dict_get "executable" process) sha (parse_uid (ev_user e))
                 (dict_get "command_line" process) Proc_running PNone (ev_ts e) (ev_ts e) (ev_event_id e)) rows).

(** *** Devices *)

(** [_device_key]. *)
Definition device_key (e : Event) : pyval :=
  let device := block_or_empty (ev_device e) in
  let raw := block_or_empty (ev_raw e) in
  let vendor := dict_get "vendor" device in
  let product := dict_get "product" device in
  let serial := dict_get "serial" device in
  let part v := text (py_or v (PStr EmptyString)) in
  if truthy vendor || truthy product || truthy serial
  then PStr (part vendor +:+ ":" +:+ part product +:+ ":" +:+ part serial)
  else py_or (dict_get "DEVPATH" raw) (py_or (dict_get "name" device) PNone).

Definition dev_removed (e : Event) (r : DevRow) : DevRow :=
  mkDev (dv_key r) (dv_vendor r) (dv_product r) (dv_serial r) (dv_subsystem r) (dv_devnode r)
    Dev_removed (dv_first r) (ev_ts e) (ev_event_id e).
Definition dev_upd (new old : DevRow) : DevRow :=
  mkDev (dv_key old) (dv_vendor new) (dv_product new) (dv_serial new) (dv_subsystem new) (dv_devnode new)
    (dv_status new) (dv_first old) (dv_last new) (dv_event new).
Definition project_device (e : Event) (rows : list DevRow) : list DevRow :=
  let k := device_key e in
  if negb (truthy k) then rows
  else if String.eqb (ev_action e) "device_removed" then update_key dv_key (col k) (dev_removed e) rows
  else
    let device := block_or_empty (ev_device e) in
    let raw := block_or_empty (ev_raw e) in
    upsert_with dv_key dev_upd
      (mkDev (col k) (dict_get "vendor" device) (dict_get "product" device) (dict_get "serial" device)
         (dict_get "SUBSYSTEM" raw) (dict_get "DEVNAME" raw) Dev_present (ev_ts e) (ev_ts e) (ev_event_id e)) rows.

(** *** Scanner runs *)

Definition started_upd (new old : ScanRow) : ScanRow :=
  mkScanRow (sn_run_id old) (sn_scanner new) (sn_status old) (sn_reason old) (sn_exit_code old)
    (sn_duration old) (sn_finding_count old) (sn_dropped old) (sn_truncated old)
    (sn_output_truncated old) (sn_excerpt old) (sn_started_at new) (sn_completed_at old) (sn_event new).
Definition completed_upd (new old : ScanRow) : ScanRow :=
  mkScanRow (sn_run_id old) (sn_scanner new) (sn_status new) (sn_reason new) (sn_exit_code new)
    (sn_duration new) (sn_finding_count new) (sn_dropped new) (sn_truncated new)
    (sn_output_truncated new) (sn_excerpt new) (sn_started_at old) (sn_completed_at new) (sn_event new).

(** [timedelta(seconds=float(duration_s))] for a number, in microseconds. *)
Definition duration_us (v : pyval) : option Z :=
  match v with
  | PInt z => Some (z * 1000000)
  | PBool b => Some (bool_Z b * 1000000)
  | PFloat q => Some (timedelta_us q)
  | _ => None
  end.

Definition project_scan_started (e : Event) (raw : dict) (scanner : string) (rows : list ScanRow) : list ScanRow :=
  let run_id := dict_get "run_id" raw in
  if negb (truthy run_id) then rows
  else upsert_with sn_run_id started_upd
         (mkScanRow (text run_id) scanner Run_running PNone PNone PNone PNone PNone false false PNone
            (ev_ts e) None (ev_event_id e)) rows.

Definition project_scan_completed (e : Event) (raw : dict) (scanner : string) (rows : list ScanRow) : list ScanRow :=
  let run_id := dict_get "run_id" raw in
  if negb (truthy run_id) then rows
  else
    let duration := dict_get "duration_s" raw in
    let status := match dict_get "scan_outcome" raw with
                  | PStr s => if String.eqb s "failure" then Run_failure else Run_success
                  | _ => Run_success end in
    let started_at := match duration_us duration with Some d => ev_ts e - d | None => ev_ts e end in
    upsert_with sn_run_id completed_upd
      (mkScanRow (text run_id) scanner status (dict_get "reason" raw) (dict_get "exit_code" raw) duration
         (dict_get "finding_count" raw) (dict_get "findings_dropped" raw)
         (truthy (dict_get "truncated" raw)) (truthy (dict_get "output_truncated" raw))
         (dict_get "output_excerpt" raw) started_at (Some (ev_ts e)) (ev_event_id e)) rows.

Definition project_scan_skipped (e : Event) (raw : dict) (scanner : string) (rows : list ScanRow) : list ScanRow :=
  insert_new sn_run_id
    (mkScanRow ("skip:" +:+ ev_event_id e) scanner Run_skipped (dict_get "reason" raw) PNone PNone PNone
       PNone false false PNone (ev_ts e) (Some (ev_ts e)) (ev_event_id e)) rows.

Definition project_scan_run (e : Event) (rows : list ScanRow) : list ScanRow :=
  let raw := block_or_empty (ev_raw e) in
  let scanner := dict_get "scanner" raw in
  if negb (truthy scanner) then rows
  else if String.eqb (ev_action e) "scan_started" then project_scan_started e raw (text scanner) rows
  else if String.eqb (ev_action e) "scan_completed" then project_scan_completed e raw (text scanner) rows
  else if String.eqb (ev_action e) "scan_skipped" then project_scan_skipped e raw (text scanner) rows
  else rows.

(** ** [project] *)

Record StateDb := mkStateDb {
  st_conns : list ConnRow;
  st_listeners : list ListenerRow;
  st_services : list ServiceRow;
  st_files : list FileRow;
  st_persist : list PersistRow;
  st_procs : list ProcRow;
  st_devs : list DevRow;
  st_scans : list ScanRow;
  st_vulns : list VulnRow;
}.
Definition empty_db : StateDb := mkStateDb [] [] [] [] [] [] [] [] [].

Context (fromiso : string -> option Z) (varchar : pyval -> option string).

Definition project (boot_id : option string) (db : StateDb) (e : Event) : StateDb :=
  let '(mkStateDb conns listeners services files persist procs devs scans vulns) := db in
  if from ["services_monitor"%string] e then
    mkStateDb conns listeners (project_service e services) files persist procs devs scans vulns
  else if from ["udev_monitor"%string] e then
    mkStateDb conns listeners services files persist procs (project_device e devs) scans vulns
  else if from ["process_collector"; "process_collector_exit"]%string e && negb (bool_decide (boot_id = None)) then
    mkStateDb conns listeners services files persist
      (default procs (project_process (default EmptyString boot_id) e procs)) devs scans vulns
  else if from ["outbound_connection_tracker"; "outbound_connection_tracker6"]%string e then
    mkStateDb (default conns (project_connection e conns)) listeners services files persist procs devs scans vulns
  else if from ["listening_socket_snapshotter"%string] e then
    mkStateDb conns (default listeners (project_listener e listeners)) services files persist procs devs scans vulns
  else if from ["fim_watcher"%string] e then
    mkStateDb conns listeners services (project_file e files) persist procs devs scans vulns
  else if from ["persistence_snapshotter"%string] e then
    mkStateDb conns listeners services files (project_persistence e persist) procs devs scans vulns
  else if from ["scanner_runner"%string] e then
    mkStateDb conns listeners services files persist procs devs (project_scan_run e scans) vulns
  else if from ["vuln_scanner"%string] e then
    mkStateDb conns listeners services files persist procs devs scans
      (project_vulnerability fromiso varchar vulns e)
  else db.
End Project.

(** ** [reconcile.py] *)

(** [UPDATE process_state SET status='exited' WHERE boot_id <> ? AND status='running']. *)
Definition reconcile_processes (boot_id : string) (rows : list ProcRow) : list ProcRow :=
  (fun r => if negb (String.eqb (pc_key r).2 boot_id) && bool_decide (pc_status r = Proc_running)
            then mkProc (pc_key r) (pc_ppid r) (pc_comm r) (pc_exe_path r) (pc_exe_sha256 r) (pc_uid r)
                   (pc_cmdline r) Proc_exited (pc_exit_code r) (pc_first r) (pc_last r) (pc_event r)
            else r) <$> rows.

(** ** The statement an event runs on each table *)

Section Ops.
Context (str_other : pyval -> string) (col : pyval -> string).

Let text (v : pyval) : string := py_str str_other v.

Definition unit_of (e : Event) : pyval := dict_get "name" (block_or_empty (ev_service e)).
Definition service_op (e : Event) : table_op :=
  if negb (from ["services_monitor"%string] e) || negb (truthy (unit_of e)) then TSkip
  else if String.eqb (ev_action e) "service_removed" then TDrop (col (unit_of e))
  else TUpsert (service_row col e (unit_of e)) (service_upd (service_row col e (unit_of e))).
(** A service as its oldest and newest event since it was removed say. *)
Definition service_of (oldest newest : Event) : ServiceRow :=
  service_first (ev_ts oldest) (service_row col newest (unit_of newest)).

Definition path_of (e : Event) : pyval := dict_get "path" (block_or_empty (ev_file e)).
Definition file_op (e : Event) : table_op :=
  if negb (from ["fim_watcher"%string] e) || is_none (path_of e) then TSkip
  else TUpsert (file_row col e (path_of e)) (file_upd (file_row col e (path_of e))) : @table_op string FileRow.
Definition file_of (oldest newest : Event) : FileRow :=
  file_first (ev_ts oldest) (file_row col newest (path_of newest)).

Definition pkey_of (e : Event) : pyval := dict_get "key" (block_or_empty (ev_persistence e)).
Definition persist_op (e : Event) : table_op :=
  if negb (from ["persistence_snapshotter"%string] e) || negb (truthy (pkey_of e)) then TSkip
  else if String.eqb (ev_action e) "persistence_removed" then TDrop (col (pkey_of e))
  else TUpsert (persist_row col e (pkey_of e)) (persist_upd (persist_row col e (pkey_of e))).
Definition persist_of (oldest newest : Event) : PersistRow :=
  persist_first (ev_ts oldest) (persist_row col newest (pkey_of newest)).

Definition conn_op (e : Event) : @table_op string ConnRow :=
  if negb (from ["outbound_connection_tracker"; "outbound_connection_tracker6"]%string e)
     || is_none (conn_pid e) || is_none (conn_daddr e) then TSkip
  else match family (conn_daddr e) with
       | None => TSkip
       | Some fam => TUpsert (conn_row str_other e fam) (conn_upd (conn_row str_other e fam))
       end.
Definition conn_of (oldest newest : Event) : ConnRow :=
  let r := conn_row str_other newest (default EmptyString (family (conn_daddr newest))) in
  mkConn (cn_key r) (conn_pid oldest) (cn_comm r) (cn_saddr r) (cn_sport r) (cn_daddr r) (cn_dport r)
    (cn_proto r) (cn_family r) (ev_ts oldest) (cn_last r) (cn_event r).

Definition listener_op (e : Event) : @table_op (string * string * string) ListenerRow :=
  if negb (from ["listening_socket_snapshotter"%string] e)
     || is_none (listen_addr e) || is_none (listen_port e) || is_none (listen_proto e) then TSkip
  else if String.eqb (ev_action e) "listener_removed" then TDrop (listen_key col e)
  else match family (listen_addr e) with
       | None => TSkip
       | Some fam => TUpsert (listener_row col e fam) (listener_upd (listener_row col e fam))
       end.
Definition listener_of (oldest newest : Event) : ListenerRow :=
  let r := listener_row col newest (default EmptyString (family (listen_addr newest))) in
  mkListener (ls_key r) (listen_addr oldest) (listen_port oldest) (listen_proto oldest) (ls_family r)
    (ev_ts oldest) (ls_last r) (ls_gen r).
End Ops.

(** ** The tables reflect the history of events *)

(** Decides which module an event comes from. *)
Ltac by_module e :=
  let m := fresh "m" in
  unfold Projector.project, from; cbn [existsb]; generalize (ev_module e); intros m;
  repeat match goal with
         | |- context [String.eqb m ?s] => destruct (String.eqb_spec m s) as [->|?]; cbn
         end; try reflexivity;
  try match goal with |- context [bool_decide (?b = None)] => destruct (bool_decide (b = None)); reflexivity end.

Section History.
Context (str_other : pyval -> string) (col : pyval -> string) (fromiso : string -> option Z)
        (varchar : pyval -> option string) (boot_id : option string).

Let project := project str_other col fromiso varchar boot_id.

Lemma project_services (db : StateDb) (e : Event) :
  st_services (project db e) = run_op sr_unit (st_services db) (service_op col e).
Proof.
  destruct db. unfold service_op. unfold project; by_module e. unfold project_service. fold (unit_of e).
  by destruct (truthy (unit_of e)), (String.eqb (ev_action e) "service_removed").
Qed.

Lemma project_files (db : StateDb) (e : Event) :
  st_files (project db e) = run_op fr_path (st_files db) (file_op col e).
Proof.
  destruct db. unfold file_op. unfold project; by_module e. unfold project_file. fold (path_of e). by destruct (is_none (path_of e)).
Qed.

Lemma project_persist (db : StateDb) (e : Event) :
  st_persist (project db e) = run_op pr_key (st_persist db) (persist_op col e).
Proof.
  destruct db. unfold persist_op. unfold project; by_module e. unfold project_persistence. fold (pkey_of e).
  by destruct (truthy (pkey_of e)), (String.eqb (ev_action e) "persistence_removed").
Qed.

Lemma project_conns (db : StateDb) (e : Event) :
  st_conns (project db e) = run_op cn_key (st_conns db) (conn_op str_other e).
Proof.
  destruct db. unfold conn_op. unfold project; by_module e; unfold project_connection;
    destruct (is_none (conn_pid e)), (is_none (conn_daddr e)), (family (conn_daddr e)); reflexivity.
Qed.

Lemma project_listeners (db : StateDb) (e : Event) :
  st_listeners (project db e) = run_op ls_key (st_listeners db) (listener_op col e).
Proof.
  destruct db. unfold listener_op. unfold project; by_module e. unfold project_listener.
  destruct (is_none (listen_addr e)), (is_none (listen_port e)), (is_none (listen_proto e)),
    (String.eqb (ev_action e) "listener_removed"), (family (listen_addr e)); reflexivity.
Qed.

(** A table all of whose changes are the statements of the events. *)
Lemma project_rows {K R} `{Countable K} (table : StateDb -> list R) (key : R -> K)
    (op_of : Event -> table_op) (db : StateDb) (events : list Event) :
  (forall db e, table (project db e) = run_op key (table db) (op_of e)) ->
  table (foldl project db events) = foldl (run_op key) (table db) (op_of <$> events).
Proof.
  intros Hp. revert db. induction events as [|e events IH]; intros db; [done|]. cbn. by rewrite IH, Hp.
Qed.

(** Such a table holds what [entity] says of each key. *)
Definition reflects {K R} `{Countable K} (key : R -> K) (op_of : Event -> table_op) (row : Event -> Event -> R)
    (events : list Event) (rows : list R) : Prop :=
  NoDup (keys key rows) /\ forall k, to_map key rows !! k = entity key op_of row k events.

Lemma project_table {K R} `{Countable K} (table : StateDb -> list R) (key : R -> K)
    (op_of : Event -> table_op) (row : Event -> Event -> R) `{!ClosedTable key op_of row} (events : list Event) :
  table empty_db = [] ->
  (forall db e, table (project db e) = run_op key (table db) (op_of e)) ->
  reflects key op_of row events (table (foldl project empty_db events)).
Proof. intros H0 Hp. rewrite (project_rows _ _ _ _ _ Hp), H0. by apply closed_table. Qed.
End History.

(** ** Closed forms *)

(** Splits an event's statement into its cases. *)
Ltac by_op :=
  repeat match goal with
         | H : context [match ?x with _ => _ end] |- _ =>
             lazymatch x with context [match _ with _ => _ end] => fail | _ => destruct x eqn:? end
         | |- context [match ?x with _ => _ end] =>
             lazymatch x with context [match _ with _ => _ end] => fail | _ => destruct x eqn:? end
         end; try done; simplify_eq/=; try (intros; done).

Section Closed.
Context (str_other : pyval -> string) (col : pyval -> string).

(** The obligations of [ClosedTable], the statements of an event unfolded by [unf]. *)
Ltac closed_table_solve unf :=
  split;
  [ intros e; unf tt; by_op
  | intros e r upd; unf tt; intros Ho; by_op; by repeat match goal with H : family _ = _ |- _ => rewrite H end
  | unfold about, has_key; intros k o n e r upd; unf tt; intros Ha Ho Hk; by_op;
    apply bool_decide_eq_true in Ha, Hk; cbn in *;
    repeat match goal with H : family _ = _ |- _ => rewrite H in *; clear H end; cbn in *; congruence
  | intros e k f; unf tt; by_op ].

#[export] Instance services_closed : ClosedTable sr_unit (service_op col) (service_of col).
Proof.
  closed_table_solve ltac:(fun _ => unfold service_op, service_of, service_first, service_row, service_upd).
Qed.
#[export] Instance files_closed : ClosedTable fr_path (file_op col) (file_of col).
Proof. closed_table_solve ltac:(fun _ => unfold file_op, file_of, file_first, file_row, file_upd). Qed.
#[export] Instance persist_closed : ClosedTable pr_key (persist_op col) (persist_of col).
Proof.
  closed_table_solve ltac:(fun _ => unfold persist_op, persist_of, persist_first, persist_row, persist_upd).
Qed.
#[export] Instance conns_closed : ClosedTable cn_key (conn_op str_other) (conn_of str_other).
Proof. closed_table_solve ltac:(fun _ => unfold conn_op, conn_of, conn_row, conn_upd). Qed.
#[export] Instance listeners_closed : ClosedTable ls_key (listener_op col) (listener_of col).
Proof. closed_table_solve ltac:(fun _ => unfold listener_op, listener_of, listener_row, listener_upd). Qed.
End Closed.

Lemma state_tables_hold (str_other col : pyval -> string) (fromiso : string -> option Z)
    (varchar : pyval -> option string) (boot_id : option string) (events : list Event) :
  let db := foldl (project str_other col fromiso varchar boot_id) empty_db events in
  reflects sr_unit (service_op col) (service_of col) events (st_services db) /\
  reflects pr_key (persist_op col) (persist_of col) events (st_persist db).
Proof.
  split; apply project_table; try done; try apply _; intros; [apply project_services | apply project_persist].
Qed.

(** C34. The state tables refine the event stream: whatever events arrived, in
    the service, persistence, file, connection and listener tables no key
    occurs twice, and the row of a key is exactly the entity of the stream:
    absent when no event concerns the key since it was last removed,
    otherwise the newest such event's facts, first seen when the oldest such
    event happened. Events of other modules and events about other keys never
    change it, and an event whose statement cannot run leaves every row as it was. *)
Theorem state_tables_reflect_history (str_other col : pyval -> string) (fromiso : string -> option Z)
    (varchar : pyval -> option string) (boot_id : option string) (events : list Event) :
  let db := foldl (project str_other col fromiso varchar boot_id) empty_db events in
  reflects sr_unit (service_op col) (service_of col) events (st_services db) /\
  reflects pr_key (persist_op col) (persist_of col) events (st_persist db) /\
  reflects fr_path (file_op col) (file_of col) events (st_files db) /\
  reflects cn_key (conn_op str_other) (conn_of str_other) events (st_conns db) /\
  reflects ls_key (listener_op col) (listener_of col) events (st_listeners db).
Proof.
  destruct (state_tables_hold str_other col fromiso varchar boot_id events) as [Hs Hp].
  split; [exact Hs|]. split; [exact Hp|].
  split_and!; apply project_table; try done; try apply _; intros.
  - apply project_files.
  - apply project_conns.
  - apply project_listeners.
Qed.

(** ** Processes across restarts *)

(** The daemon starts under a boot id, or an event arrives under it. *)
Inductive proc_step :=
| PStart (boot_id : string)
| PEvent (boot_id : string) (e : Event).

Section Processes.
Context (str_other : pyval -> string) (col : pyval -> string) (fromiso : string -> option Z)
        (varchar : pyval -> option string).

Definition with_procs (rows : list ProcRow) (db : StateDb) : StateDb :=
  mkStateDb (st_conns db) (st_listeners db) (st_services db) (st_files db) (st_persist db) rows
    (st_devs db) (st_scans db) (st_vulns db).
Definition proc_run (db : StateDb) (s : proc_step) : StateDb :=
  match s with
  | PStart b => with_procs (reconcile_processes b (st_procs db)) db
  | PEvent b e => project str_other col fromiso varchar (Some b) db e
  end.

Definition pid_of (e : Event) : pyval := dict_get "pid" (block_or_empty (ev_process e)).
Definition proc_field (f : string) (e : Event) : pyval := dict_get f (block_or_empty (ev_process e)).
Definition is_exit (e : Event) : bool := String.eqb (ev_action e) "process_exit".
Definition ppid_of (e : Event) : option pyval := nested_get (proc_field "parent" e) "pid".
Definition sha_of (e : Event) : option pyval := nested_get (proc_field "hash" e) "sha256".

(** The statement runs on the row of this process. *)
Definition concerns (k : string * string) (b : string) (e : Event) : bool :=
  from ["process_collector"; "process_collector_exit"]%string e && negb (is_none (pid_of e)) &&
  bool_decide (k = (col (pid_of e), b)) &&
  (is_exit e || (bool_decide (is_Some (ppid_of e)) && bool_decide (is_Some (sha_of e)))).

Definition proc_events (k : string * string) (trace : list proc_step) : list Event :=
  omap (fun s => match s with PEvent b e => if concerns k b e then Some e else None | PStart _ => None end) trace.

(** The newest value that is known. *)
Definition newest_known (f : Event -> pyval) (es : list Event) : pyval :=
  foldl (fun v e => coalesce_val (f e) v) PNone es.
Definition newest_of (f : Event -> pyval) (v : pyval) (es : list Event) : pyval :=
  match last es with Some e => f e | None => v end.

(** The newest step that decides the status: an event of the process, or a
    start under another boot. *)
Definition alive (k : string * string) (trace : list proc_step) : bool :=
  foldl (fun a s => match s with
                    | PStart b => a && String.eqb k.2 b
                    | PEvent b e => if concerns k b e then negb (is_exit e) else a
                    end) false trace.

(** The row of a process, from its events alone. *)
Definition proc_spec (k : string * string) (trace : list proc_step) : option ProcRow :=
  let es := proc_events k trace in
  let starts := List.filter (fun e => negb (is_exit e)) es in
  let exits := List.filter is_exit es in
  oldest ← head es; newest ← last es;
  Some (mkProc k (newest_of (fun e => default PNone (ppid_of e)) PNone starts)
          (newest_of (proc_field "name") (proc_field "name" oldest) starts)
          (newest_known (proc_field "executable") starts)
          (newest_known (fun e => default PNone (sha_of e)) starts)
          (newest_of (fun e => parse_uid (ev_user e)) PNone starts)
          (newest_of (proc_field "command_line") PNone starts)
          (if alive k trace then Proc_running else Proc_exited)
          (newest_of (proc_field "exit_code") PNone exits)
          (ev_ts oldest) (ev_ts newest) (ev_event_id newest)).

Lemma project_procs (b : string) (db : StateDb) (e : Event) :
  st_procs (project str_other col fromiso varchar (Some b) db e) =
  if from ["process_collector"; "process_collector_exit"]%string e
  then default (st_procs db) (project_process col b e (st_procs db)) else st_procs db.
Proof.
  destruct db. by_module e.
Qed.

Lemma to_map_reconcile (b : string) (rows : list ProcRow) (k : string * string) :
  keys pc_key (reconcile_processes b rows) = keys pc_key rows /\
  to_map pc_key (reconcile_processes b rows) !! k =
    (fun r => if String.eqb k.2 b then r
              else mkProc (pc_key r) (pc_ppid r) (pc_comm r) (pc_exe_path r) (pc_exe_sha256 r) (pc_uid r)
                     (pc_cmdline r) Proc_exited (pc_exit_code r) (pc_first r) (pc_last r) (pc_event r))
      <$> to_map pc_key rows !! k.
Proof.
  induction rows as [|r rows [IH1 IH2]]; [done|]. unfold reconcile_processes, keys in *.
  rewrite !fmap_cons, !to_map_cons. split.
  - f_equal; [|done]. by destruct (_ && _).
  - assert (forall x y, lookup k (<[pc_key x := y]> (to_map pc_key rows)) =
      if decide (pc_key x = k) then Some y else to_map pc_key rows !! k) as Hl.
    { intros x y. destruct (decide _) as [<-|]; [by rewrite lookup_insert_eq | by rewrite lookup_insert_ne]. }
    set (r' := if _ && _ then _ else _). assert (pc_key r' = pc_key r) as Hk by (unfold r'; by destruct (_ && _)).
    rewrite Hk. destruct (decide (pc_key r = k)) as [<-|Hne].
    + rewrite !lookup_insert_eq. cbn [fmap option_fmap option_map]. f_equal. unfold r'.
      destruct (String.eqb (pc_key r).2 b); [done|]. cbn. destruct r as [? ? ? ? ? ? ? []]; done.
    + rewrite !lookup_insert_ne by done. apply IH2.
Qed.

(** The row an event alone gives, and what it makes of the row before. *)
Definition proc_new (k : string * string) (e : Event) : ProcRow :=
  if is_exit e
  then mkProc k PNone (proc_field "name" e) PNone PNone PNone PNone Proc_exited (proc_field "exit_code" e)
         (ev_ts e) (ev_ts e) (ev_event_id e)
  else mkProc k (default PNone (ppid_of e)) (proc_field "name" e) (proc_field "executable" e)
         (default PNone (sha_of e)) (parse_uid (ev_user e)) (proc_field "command_line" e) Proc_running PNone
         (ev_ts e) (ev_ts e) (ev_event_id e).
Definition proc_next (k : string * string) (e : Event) (o : option ProcRow) : ProcRow :=
  match o with
  | Some r => (if is_exit e then exit_upd else start_upd) (proc_new k e) r
  | None => proc_new k e
  end.

Lemma project_process_upsert (b : string) (e : Event) (rows : list ProcRow) :
  let k := (col (pid_of e), b) in
  (if from ["process_collector"; "process_collector_exit"]%string e
   then default rows (project_process col b e rows) else rows) =
  if concerns k b e
  then upsert_with pc_key (if is_exit e then exit_upd else start_upd) (proc_new k e) rows else rows.
Proof.
  unfold concerns, project_process. fold (pid_of e). destruct (from _ e); [|done].
  destruct (is_none (pid_of e)); [done|]. rewrite bool_decide_eq_true_2 by done. cbn [andb negb].
  unfold proc_new. fold (is_exit e). destruct (is_exit e); [done|]. cbn [orb].
  fold (proc_field "parent" e) (proc_field "hash" e). fold (ppid_of e) (sha_of e).
  destruct (ppid_of e), (sha_of e); done.
Qed.

Lemma concerns_key (k : string * string) (b : string) (e : Event) :
  concerns k b e = true -> k = (col (pid_of e), b).
Proof. unfold concerns. rewrite !andb_true_iff. intros [[_ Hk%bool_decide_eq_true] _]. done. Qed.

Lemma project_process_key (b : string) (e : Event) (db : StateDb) (k : string * string) :
  NoDup (keys pc_key (st_procs db)) ->
  let rows' := st_procs (project str_other col fromiso varchar (Some b) db e) in
  NoDup (keys pc_key rows') /\
  to_map pc_key rows' !! k =
    if concerns k b e then Some (proc_next k e (to_map pc_key (st_procs db) !! k))
    else to_map pc_key (st_procs db) !! k.
Proof.
  intros Hnd. cbv zeta. rewrite project_procs, project_process_upsert.
  set (k0 := (col (pid_of e), b)). assert (pc_key (proc_new k0 e) = k0) as Hk0 by (unfold proc_new; by destruct (is_exit e)).
  destruct (concerns k0 b e) eqn:Ec.
  - destruct (to_map_upsert pc_key (if is_exit e then exit_upd else start_upd) (proc_new k0 e) _ Hnd) as [H1 H2].
    { intros r Hr. rewrite <- Hr. by destruct (is_exit e). }
    split; [done|]. rewrite H2, Hk0. destruct (decide (k0 = k)) as [<-|Hne].
    + by rewrite lookup_insert_eq, Ec.
    + rewrite lookup_insert_ne by done. destruct (concerns k b e) eqn:Ek; [|done].
      apply concerns_key in Ek. by destruct Hne.
  - split; [done|]. destruct (concerns k b e) eqn:Ek; [|done]. pose proof (concerns_key _ _ _ Ek) as Hk. fold k0 in Hk. congruence.
Qed.

Lemma proc_spec_start (k : string * string) (b : string) (trace : list proc_step) :
  proc_spec k (trace ++ [PStart b]) =
  (fun r => if String.eqb k.2 b then r
            else mkProc (pc_key r) (pc_ppid r) (pc_comm r) (pc_exe_path r) (pc_exe_sha256 r) (pc_uid r)
                   (pc_cmdline r) Proc_exited (pc_exit_code r) (pc_first r) (pc_last r) (pc_event r))
    <$> proc_spec k trace.
Proof.
  unfold proc_spec, proc_events, alive. rewrite omap_app, foldl_app. cbn [omap list_omap foldl]. rewrite app_nil_r.
  destruct (head _); [|done]. cbn. destruct (last _); [|done]. cbn.
  by destruct (foldl _ _ _), (String.eqb k.2 b).
Qed.

Lemma coalesce_none (v : pyval) : coalesce_val v PNone = v.
Proof. by destruct v. Qed.

Lemma proc_spec_event (k : string * string) (b : string) (e : Event) (trace : list proc_step) :
  proc_spec k (trace ++ [PEvent b e]) =
  if concerns k b e then Some (proc_next k e (proc_spec k trace)) else proc_spec k trace.
Proof.
  unfold proc_spec, proc_events, alive. rewrite omap_app, foldl_app. cbn [omap list_omap foldl].
  destruct (concerns k b e) eqn:Ec; [|by rewrite app_nil_r]. set (es := omap _ trace).
  rewrite last_snoc, !List.filter_app. cbn [List.filter]. unfold newest_of, newest_known, proc_next, proc_new.
  destruct es as [|o es'] eqn:Ees.
  - cbn. destruct (is_exit e); cbn; [done|]. by rewrite !coalesce_none.
  - destruct (last (o :: es')) as [n|] eqn:El; [|by apply last_None in El].
    cbn [head app mbind option_bind]. f_equal.
    destruct (is_exit e) eqn:Ex; cbn [negb]; rewrite ?app_nil_r, ?last_snoc, ?foldl_app; reflexivity.
Qed.

Lemma process_rows (trace : list proc_step) :
  let rows := st_procs (foldl proc_run empty_db trace) in
  NoDup (keys pc_key rows) /\ forall k, to_map pc_key rows !! k = proc_spec k trace.
Proof.
  induction trace as [|s trace [IH1 IH2]] using rev_ind; [split; [constructor|done]|].
  rewrite foldl_app. cbn [foldl]. set (db := foldl proc_run empty_db trace) in *.
  destruct s as [b|b e]; cbn [proc_run].
  - unfold with_procs. cbn [st_procs]. split.
    + by rewrite (proj1 (to_map_reconcile b (st_procs db) (EmptyString, b))).
    + intros k. rewrite (proj2 (to_map_reconcile b (st_procs db) k)), IH2. symmetry. apply proc_spec_start.
  - split; [by apply (project_process_key b e db (EmptyString, b))|].
    intros k. destruct (project_process_key b e db k IH1) as [_ ->]. by rewrite IH2, proc_spec_event.
Qed.

Lemma alive_other_boot (k : string * string) (b : string) (pre : list proc_step) (events : list Event) :
  k.2 <> b -> alive k (pre ++ PStart b :: (PEvent b <$> events)) = false.
Proof.
  intros Hk. unfold alive. rewrite foldl_app. cbn [foldl].
  apply String.eqb_neq in Hk as Hk'. rewrite Hk', andb_false_r.
  induction events as [|e events IH]; [done|]. cbn [fmap list_fmap foldl].
  destruct (concerns k b e) eqn:Ec; [|done]. apply concerns_key in Ec. by subst k.
Qed.

(** The process table across restarts: whatever events arrived and however
    often the daemon restarted, under the same boot or another, the table has
    one row per process of a boot, its oldest and newest event give the first
    and last time it was seen, its newest start gives its facts (an unknown
    executable or hash keeps the newest known one), its newest exit the exit code, and it is
    running exactly when its newest event is a start that no start of the daemon
    under another boot follows. So after a restart only processes of the
    current boot are running. *)
Theorem process_table_reflects_history (trace : list proc_step) (b : string) (events : list Event) :
  (let rows := st_procs (foldl proc_run empty_db trace) in
   NoDup (keys pc_key rows) /\ forall k, to_map pc_key rows !! k = proc_spec k trace) /\
  Forall (fun r => pc_status r = Proc_running -> (pc_key r).2 = b)
    (st_procs (foldl proc_run empty_db (trace ++ PStart b :: (PEvent b <$> events)))).
Proof.
  split; [apply process_rows|]. apply Forall_forall. intros r Hr Hrun.
  destruct (process_rows (trace ++ PStart b :: (PEvent b <$> events))) as [Hnd Hl].
  specialize (Hl (pc_key r)). rewrite (proj2 (to_map_lookup pc_key _ (pc_key r) r Hnd)) in Hl by done.
  destruct (decide ((pc_key r).2 = b)) as [|Hne]; [done|]. exfalso.
  unfold proc_spec in Hl. rewrite (alive_other_boot _ _ _ _ Hne) in Hl.
  destruct (head _); [|done]. destruct (last _); [|done]. cbn in Hl. simplify_eq. rewrite Hl in Hrun. done.
Qed.
End Processes.

(** ** Devices *)

Section Devices.
Context (str_other : pyval -> string) (col : pyval -> string) (fromiso : string -> option Z)
        (varchar : pyval -> option string) (boot_id : option string).

Definition is_removal (e : Event) : bool := String.eqb (ev_action e) "device_removed".
Definition dev_row (e : Event) : DevRow :=
  let device := block_or_empty (ev_device e) in
  let raw := block_or_empty (ev_raw e) in
  mkDev (col (device_key str_other e)) (dict_get "vendor" device) (dict_get "product" device)
    (dict_get "serial" device) (dict_get "SUBSYSTEM" raw) (dict_get "DEVNAME" raw) Dev_present
    (ev_ts e) (ev_ts e) (ev_event_id e).
Definition dev_op (e : Event) : @table_op string DevRow :=
  if negb (from ["udev_monitor"%string] e) || negb (truthy (device_key str_other e)) then TSkip
  else if is_removal e then TTouch (col (device_key str_other e)) (dev_removed e)
  else TUpsert (dev_row e) (dev_upd (dev_row e)).

(** The events of a device since it first appeared. *)
Fixpoint since_present (es : list Event) : list Event :=
  match es with
  | [] => []
  | e :: es' => if is_removal e then since_present es' else e :: es'
  end.
Definition dev_events (k : string) (es : list Event) : list Event :=
  since_present (List.filter (about dv_key dev_op k) es).

(** Described by its newest appearance, present unless its newest event is a removal. *)
Definition dev_spec (k : string) (es : list Event) : option DevRow :=
  let h := dev_events k es in
  oldest ← head h; newest ← last h; shown ← last (List.filter (fun e => negb (is_removal e)) h);
  let r := dev_row shown in
  Some (mkDev k (dv_vendor r) (dv_product r) (dv_serial r) (dv_subsystem r) (dv_devnode r)
          (if is_removal newest then Dev_removed else Dev_present)
          (ev_ts oldest) (ev_ts newest) (ev_event_id newest)).

Lemma project_devs (db : StateDb) (e : Event) :
  st_devs (project str_other col fromiso varchar boot_id db e) = run_op dv_key (st_devs db) (dev_op e).
Proof.
  destruct db. unfold dev_op. by_module e.
  unfold project_device. fold (is_removal e). by destruct (truthy (device_key str_other e)), (is_removal e).
Qed.

Lemma since_present_snoc (es : list Event) (e : Event) :
  since_present (es ++ [e]) =
  match since_present es with [] => if is_removal e then [] else [e] | h => h ++ [e] end.
Proof. induction es as [|x es IH]; cbn; [by destruct (is_removal e)|]. by destruct (is_removal x). Qed.

Lemma since_present_shown (es : list Event) :
  since_present es <> [] -> last (List.filter (fun e => negb (is_removal e)) (since_present es)) <> None.
Proof.
  induction es as [|x es IH]; cbn; [done|]. destruct (is_removal x) eqn:E; [done|]. cbn. rewrite E. cbn.
  intros _ Hl. by apply last_None in Hl.
Qed.

Lemma dev_op_cases (k : string) (e : Event) (o : option DevRow) :
  key_step dv_key k o (dev_op e) =
  if about dv_key dev_op k e
  then if is_removal e then dev_removed e <$> o
       else Some (match o with Some r => dev_upd (dev_row e) r | None => dev_row e end)
  else o.
Proof.
  unfold about, dev_op. destruct (_ || _); [done|]. destruct (is_removal e); done.
Qed.

Lemma about_dev_row (k : string) (e : Event) :
  about dv_key dev_op k e = true -> dv_key (dev_row e) = k.
Proof.
  unfold about, dev_op, has_key. destruct (_ || _); [done|].
  destruct (is_removal e); by intros ?%bool_decide_eq_true.
Qed.

Lemma key_steps_dev (k : string) (es : list Event) :
  foldl (key_step dv_key k) None (dev_op <$> es) = dev_spec k es.
Proof.
  unfold dev_spec, dev_events. induction es as [|e es IH] using rev_ind; [done|].
  rewrite fmap_app, foldl_app, List.filter_app. cbn [foldl fmap list_fmap List.filter]. rewrite dev_op_cases, IH.
  destruct (about dv_key dev_op k e) eqn:Ea; [|by rewrite app_nil_r]. rewrite since_present_snoc.
  pose proof (since_present_shown (List.filter (about dv_key dev_op k) es)) as Hs. apply about_dev_row in Ea.
  destruct (since_present _) as [|o h] eqn:Eh.
  - cbn. destruct (is_removal e) eqn:Er; [done|]. cbn. rewrite Er. cbn. unfold dev_row at 1. cbn.
    by rewrite <- Ea.
  - specialize (Hs ltac:(done)). rewrite List.filter_app, last_snoc.
    set (F := List.filter _ (o :: h)) in *. clearbody F. cbn [head app List.filter mbind option_bind].
    destruct (last (o :: h)) as [n|] eqn:El; [|by apply last_None in El]. cbn [mbind option_bind].
    destruct (is_removal e) eqn:Er; cbn [negb]; rewrite ?app_nil_r, ?last_snoc; by destruct (last F).
Qed.

(** The device table refines the event stream: one row per device, from its
    first appearance on; described by its newest appearance, seen between its
    first appearance and its newest event, and present exactly when its newest
    event is not a removal. A removal never deletes a row, and the removal of
    a device that never appeared leaves none. *)
Theorem device_table_reflects_history (events : list Event) :
  let rows := st_devs (foldl (project str_other col fromiso varchar boot_id) empty_db events) in
  NoDup (keys dv_key rows) /\ forall k, to_map dv_key rows !! k = dev_spec k events.
Proof.
  cbv zeta. rewrite (project_rows _ _ _ _ _ st_devs dv_key dev_op _ _ project_devs). cbn [st_devs empty_db].
  destruct (run_ops_keys dv_key (dev_op <$> events)) as [H1 H2].
  { apply Forall_fmap, Forall_forall. intros e _. unfold op_ok, dev_op; cbn. by_op. }
  split; [done|]. intros k. by rewrite H2, key_steps_dev.
Qed.
End Devices.

(** ** Scanner runs *)

Section Scans.
Context (str_other : pyval -> string) (col : pyval -> string) (fromiso : string -> option Z)
        (varchar : pyval -> option string) (boot_id : option string).

Let text (v : pyval) : string := py_str str_other v.

Inductive ScanAct := Act_started | Act_completed | Act_skipped.
#[export] Instance ScanAct_eq_dec : EqDecision ScanAct.
Proof. solve_decision. Defined.

Definition raw_field (f : string) (e : Event) : pyval := dict_get f (block_or_empty (ev_raw e)).

(** What a lifecycle event says, and of which run; [None] leaves the table. *)
Definition scan_act (e : Event) : option (ScanAct * string) :=
  if negb (from ["scanner_runner"%string] e) || negb (truthy (raw_field "scanner" e)) then None
  else if String.eqb (ev_action e) "scan_started" then
    if truthy (raw_field "run_id" e) then Some (Act_started, text (raw_field "run_id" e)) else None
  else if String.eqb (ev_action e) "scan_completed" then
    if truthy (raw_field "run_id" e) then Some (Act_completed, text (raw_field "run_id" e)) else None
  else if String.eqb (ev_action e) "scan_skipped" then Some (Act_skipped, "skip:" +:+ ev_event_id e)
  else None.

Definition verdict (e : Event) : RunStatus :=
  match raw_field "scan_outcome" e with
  | PStr s => if String.eqb s "failure" then Run_failure else Run_success
  | _ => Run_success
  end.
(** The start time a completion alone implies. *)
Definition implied_start (e : Event) : Z :=
  match duration_us (raw_field "duration_s" e) with Some d => ev_ts e - d | None => ev_ts e end.

(** The row of a run, from its first event, its newest start, its newest
    completion and its newest event other than a skip. *)
Definition scan_build (k : string) (first : ScanAct * Event) (started completed : option Event) (newest : Event) : ScanRow :=
  let done (f : string) := match completed with Some c => raw_field f c | None => PNone end in
  let flag (f : string) := match completed with Some c => truthy (raw_field f c) | None => false end in
  let skipped := bool_decide (first.1 = Act_skipped) in
  mkScanRow k (text (raw_field "scanner" newest))
    (match completed with Some c => verdict c | None => if skipped then Run_skipped else Run_running end)
    (match completed with Some c => raw_field "reason" c | None => if skipped then raw_field "reason" first.2 else PNone end)
    (done "exit_code") (done "duration_s") (done "finding_count") (done "findings_dropped")
    (flag "truncated") (flag "output_truncated") (done "output_excerpt")
    (match started with
     | Some s => ev_ts s
     | None => match first.1 with Act_completed => implied_start first.2 | _ => ev_ts first.2 end
     end)
    (match completed with Some c => Some (ev_ts c) | None => if skipped then Some (ev_ts first.2) else None end)
    (ev_event_id newest).

(** The events of a run. *)
Definition scan_events (k : string) (es : list Event) : list (ScanAct * Event) :=
  omap (fun e => '(a, k') ← scan_act e; if String.eqb k' k then Some (a, e) else None) es.
Definition newest_act (a : ScanAct) (h : list (ScanAct * Event)) : option Event :=
  snd <$> last (List.filter (fun x => bool_decide (x.1 = a)) h).
Definition scan_spec (k : string) (es : list Event) : option ScanRow :=
  let h := scan_events k es in
  first ← head h;
  Some (scan_build k first (newest_act Act_started h) (newest_act Act_completed h)
          (match last (List.filter (fun x => negb (bool_decide (x.1 = Act_skipped))) h) with
           | Some x => x.2 | None => first.2 end)).

Definition scan_new (k : string) (a : ScanAct) (e : Event) : ScanRow :=
  scan_build k (a, e) (if bool_decide (a = Act_started) then Some e else None)
    (if bool_decide (a = Act_completed) then Some e else None) e.
Definition scan_op (e : Event) : @table_op string ScanRow :=
  match scan_act e with
  | None => TSkip
  | Some (a, k) =>
      let r := scan_new k a e in
      TUpsert r (match a with Act_started => started_upd r | Act_completed => completed_upd r | Act_skipped => fun old => old end)
  end.

Lemma insert_new_upsert {K R} `{Countable K} (key : R -> K) (row : R) (rows : list R) :
  insert_new key row rows = upsert_with key (fun _ old => old) row rows.
Proof.
  unfold insert_new, upsert_with. destruct (existsb _ rows); [|done]. symmetry. rewrite <- (list_fmap_id rows) at 2.
  apply list_fmap_ext. intros i r _. by destruct (has_key _ _ r).
Qed.

Lemma project_scans (db : StateDb) (e : Event) :
  st_scans (project str_other col fromiso varchar boot_id db e) = run_op sn_run_id (st_scans db) (scan_op e).
Proof.
  destruct db. unfold scan_op, scan_act. by_module e. unfold project_scan_run.
  fold (raw_field "scanner" e). destruct (truthy (raw_field "scanner" e)); [|done]. cbn [negb].
  destruct (String.eqb (ev_action e) "scan_started").
  { unfold project_scan_started. fold (raw_field "run_id" e). by destruct (truthy (raw_field "run_id" e)). }
  destruct (String.eqb (ev_action e) "scan_completed").
  { unfold project_scan_completed. fold (raw_field "run_id" e). by destruct (truthy (raw_field "run_id" e)). }
  destruct (String.eqb (ev_action e) "scan_skipped"); [|done].
  unfold project_scan_skipped. by rewrite insert_new_upsert.
Qed.

Lemma scan_events_snoc (k : string) (es : list Event) (e : Event) :
  scan_events k (es ++ [e]) =
  scan_events k es ++ match scan_act e with
                      | Some (a, k') => if String.eqb k' k then [(a, e)] else []
                      | None => []
                      end.
Proof.
  unfold scan_events. rewrite omap_app. f_equal. cbn. destruct (scan_act e) as [[a k']|]; [|done].
  cbn. by destruct (String.eqb k' k).
Qed.

(** One more event of a run that has a row. *)
Lemma scan_build_next (k : string) (a : ScanAct) (e : Event) (first : ScanAct * Event) (s c : option Event) (n : Event) :
  (match a with Act_started => started_upd (scan_new k a e) | Act_completed => completed_upd (scan_new k a e)
              | Act_skipped => fun old => old end) (scan_build k first s c n) =
  scan_build k first (if bool_decide (a = Act_started) then Some e else s)
    (if bool_decide (a = Act_completed) then Some e else c)
    (if bool_decide (a = Act_skipped) then n else e).
Proof. by destruct a, first as [[] ?], s, c. Qed.

Lemma newest_act_snoc (a a' : ScanAct) (h : list (ScanAct * Event)) (e : Event) :
  newest_act a (h ++ [(a', e)]) = if bool_decide (a' = a) then Some e else newest_act a h.
Proof.
  unfold newest_act. rewrite List.filter_app. cbn [List.filter fst].
  destruct (bool_decide (a' = a)); [by rewrite last_snoc | by rewrite app_nil_r].
Qed.

Lemma key_steps_scan (k : string) (es : list Event) :
  foldl (key_step sn_run_id k) None (scan_op <$> es) = scan_spec k es.
Proof.
  unfold scan_spec. induction es as [|e es IH] using rev_ind; [done|].
  rewrite fmap_app, foldl_app, scan_events_snoc, IH. cbn [foldl fmap list_fmap]. unfold scan_op.
  destruct (scan_act e) as [[a k']|]; cbn [key_step]; [|by rewrite app_nil_r].
  unfold has_key. change (sn_run_id (scan_new k' a e)) with k'.
  destruct (String.eqb_spec k' k) as [->|Hk]; [rewrite bool_decide_eq_true_2 by done | rewrite bool_decide_eq_false_2, app_nil_r by done; done].
  rewrite !newest_act_snoc, List.filter_app. cbn [List.filter fst].
  destruct (scan_events k es) as [|first h]; [by destruct a|]. set (L := List.filter _ (first :: h)). cbn [head app mbind option_bind].
  rewrite scan_build_next. do 2 f_equal.
  destruct (bool_decide (a = Act_skipped)); cbn [negb]; [by rewrite app_nil_r | by rewrite last_snoc].
Qed.

Lemma scan_rows (events : list Event) :
  let rows := st_scans (foldl (project str_other col fromiso varchar boot_id) empty_db events) in
  NoDup (keys sn_run_id rows) /\ forall k, to_map sn_run_id rows !! k = scan_spec k events.
Proof.
  cbv zeta. rewrite (project_rows _ _ _ _ _ st_scans sn_run_id scan_op _ _ project_scans). cbn [st_scans empty_db].
  destruct (run_ops_keys sn_run_id (scan_op <$> events)) as [H1 H2].
  { apply Forall_fmap, Forall_forall. intros e _. unfold op_ok, scan_op; cbn.
    destruct (scan_act e) as [[[] k]|]; done. }
  split; [done|]. intros k. by rewrite H2, key_steps_scan.
Qed.

(** What the row of a run says of its events. *)
Lemma scan_spec_status (k : string) (events : list Event) (r : ScanRow) :
  scan_spec k events = Some r ->
  (sn_status r = Run_running <->
     newest_act Act_completed (scan_events k events) = None /\
     exists s, head (scan_events k events) = Some (Act_started, s)) /\
  (sn_completed_at r = None <-> sn_status r = Run_running).
Proof.
  unfold scan_spec. set (h := scan_events k events). destruct (head h) as [first|] eqn:Eh; [|done]. intros [= <-].
  cbn [scan_build sn_status sn_completed_at]. destruct (newest_act Act_completed h) as [c|] eqn:Ec.
  { assert (verdict c <> Run_running) by (unfold verdict; by_op). by split; split; [|intros []| |]. }
  destruct first as [[] s]; cbn; split; split; try done; try (by intros [_ [? ?]]); [by eauto|].
  unfold newest_act in Ec. destruct h as [|x h']; [done|]. cbn in Eh. simplify_eq. cbn in Ec.
  by rewrite fmap_None, last_None in Ec.
Qed.

(** The scan runs refine the lifecycle events in whatever order they arrive:
    one row per run, its verdict, counts and completion time those of its
    newest completion, its start time that of its newest start (derived from
    the duration when no start arrived), and running, without a completion
    time, exactly when it was started and no completion arrived, so a late start
    never reopens a finished run. *)
Theorem scan_runs_reflect_history (events : list Event) :
  let rows := st_scans (foldl (project str_other col fromiso varchar boot_id) empty_db events) in
  NoDup (keys sn_run_id rows) /\
  forall k,
    to_map sn_run_id rows !! k = scan_spec k events /\
    forall r, to_map sn_run_id rows !! k = Some r ->
      (sn_status r = Run_running <->
         newest_act Act_completed (scan_events k events) = None /\
         exists s, head (scan_events k events) = Some (Act_started, s)) /\
      (sn_completed_at r = None <-> sn_status r = Run_running).
Proof.
  destruct (scan_rows events) as [H1 H2]. split; [done|]. intros k. split; [done|]. intros r. rewrite H2.
  apply scan_spec_status.
Qed.
End Scans.
