(* ===== verification/Panels.v ===== *)
(** * Baselines and the state panels ([inspectord/state/baseline.py],
      [inspectord/state/ipc_handlers.py])

    A baseline is a copy of the keys and attributes of the services or the
    persistence entries; the panels list a state table and compare it with its
    baseline. The attributes a baseline row holds are written as the object
    their JSON encodes. [None] as a result is an exception the server answers
    with an error; rows that an ORDER BY does not separate keep the order of
    the table. *)

From S2P Require Import Prelude Schemas Tables Json RuleEval Alerts HuntSql Projector.

(** ** [baseline.py] *)

Inductive BaselineKind := Base_service | Base_persistence.
#[export] Instance BaselineKind_eq_dec : EqDecision BaselineKind.
Proof. solve_decision. Defined.
Definition kind_text (k : BaselineKind) : string :=
  match k with Base_service => "service" | Base_persistence => "persistence" end.
(** [_SUPPORTED]. *)
Definition SUPPORTED : list BaselineKind := [Base_persistence; Base_service].
Definition kind_of (s : string) : option BaselineKind := enum_of kind_text SUPPORTED s.

Record BaselineRow := mkBaseline {
  bl_kind : BaselineKind;
  bl_key : string;
  bl_attrs : dict;
  bl_captured_at : Z;
}.

Definition of_kind (k : BaselineKind) (r : BaselineRow) : bool := bool_decide (bl_kind r = k).

Definition persist_entry (now : Z) (r : PersistRow) : BaselineRow :=
  mkBaseline Base_persistence (pr_key r)
    [("kind", pr_kind r); ("name", pr_name r); ("source_path", pr_source_path r); ("details", pr_details r)]%string now.
Definition svc_key (unit : string) : string := "svc:" +:+ unit.
Definition service_entry (now : Z) (r : ServiceRow) : BaselineRow :=
  mkBaseline Base_service (svc_key (sr_unit r))
    [("active_state", sr_active r); ("sub_state", sr_sub r); ("load_state", sr_load r)]%string now.

(** [capture_baseline]: the entries written, replacing those of the kind. *)
Definition capture_baseline (now : Z) (kind : string) (db : StateDb) (base : list BaselineRow)
  : result string (nat * list BaselineRow) :=
  match kind_of kind with
  | None => Err ("unsupported baseline kind; expected one of " +:+ join ", " (kind_text <$> SUPPORTED))
  | Some k =>
      let entries := match k with
                     | Base_persistence => persist_entry now <$> st_persist db
                     | Base_service => service_entry now <$> st_services db
                     end in
      Ok (length entries, List.filter (fun r => negb (of_kind k r)) base ++ entries)
  end.

(** [handle_capture_baseline], with the audit rows it appends. *)
Definition handle_capture_baseline (str_other : pyval -> string) (now : Z) (params : dict) (db : StateDb)
    (base : list BaselineRow) : result string nat * list BaselineRow * list (string * string * dict) :=
  let kind := py_str str_other (default (PStr "service") (dict_lookup "kind" params)) in
  match capture_baseline now kind db base with
  | Err e => (Err e, base, [])
  | Ok (n, base') =>
      (Ok n, base', [("baseline_captured"%string, "baseline:" +:+ kind, [("entries"%string, PInt (Z.of_nat n))])])
  end.

(** [{k: json.loads(a) for k, a in brows}]. *)
Definition baseline_of (k : BaselineKind) (base : list BaselineRow) : dict :=
  (fun r => (bl_key r, PDict (bl_attrs r))) <$> List.filter (of_kind k) base.

(** ** The diff *)

Inductive DiffStatus := Diff_new | Diff_re_enabled | Diff_unchanged | Diff_removed.
#[export] Instance DiffStatus_eq_dec : EqDecision DiffStatus.
Proof. solve_decision. Defined.

(** [v in _INACTIVE]. *)
Definition INACTIVE (v : pyval) : bool :=
  match v with
  | PNone => true
  | PStr s => String.eqb s "inactive" || String.eqb s "failed"
  | _ => false
  end.
Definition is_active (v : pyval) : bool := match v with PStr s => String.eqb s "active" | _ => false end.

(** [_diff_status]; a baseline value is always an object. *)
Definition diff_status (key : string) (current_active : pyval) (baseline : dict) : DiffStatus :=
  match dict_lookup key baseline with
  | None => Diff_new
  | Some attrs =>
      let base_active := match attrs with PDict d => dict_get "active_state" d | _ => PNone end in
      if INACTIVE base_active && is_active current_active then Diff_re_enabled else Diff_unchanged
  end.

(** [sorted(baseline)], the keys not seen in the listing. *)
Definition removed_keys (baseline : dict) (current_keys : list string) : list string :=
  List.filter (fun k => negb (existsb (String.eqb k) current_keys)) (merge_sort String.le (baseline.*1)).

(** ** The listings *)

(** [int(params.get(name, default))], which the database refuses when negative. *)
Definition int_param (params : dict) (name : string) (dflt : Z) : option Z :=
  int_of (default (PInt dflt) (dict_lookup name params)).
Definition limit_rows {A} (limit : Z) (rows : list A) : option (list A) :=
  if limit <? 0 then None else Some (take (Z.to_nat limit) rows).
Definition want_diff (params : dict) : bool := truthy (default (PBool false) (dict_lookup "diff" params)).

Definition by_unit (a b : ServiceRow) : Prop := String.le (sr_unit a) (sr_unit b).
#[export] Instance by_unit_dec a b : Decision (by_unit a b).
Proof. unfold by_unit. apply _. Defined.

Record ServiceItem := mkServiceItem {
  si_unit : string;
  si_active : pyval; si_sub : pyval; si_load : pyval;
  si_first : option Z; si_last : option Z;
  si_diff : option DiffStatus;
}.
Definition service_item (diff : option dict) (r : ServiceRow) : ServiceItem :=
  mkServiceItem (sr_unit r) (sr_active r) (sr_sub r) (sr_load r) (Some (sr_first r)) (Some (sr_last r))
    (diff_status (svc_key (sr_unit r)) (sr_active r) <$> diff).
Definition removed_service (key : string) : ServiceItem :=
  mkServiceItem (removeprefix "svc:" key) PNone PNone PNone None None (Some Diff_removed).

Definition handle_list_services (params : dict) (db : StateDb) (base : list BaselineRow) : option (list ServiceItem) :=
  limit ← int_param params "limit" 200;
  rows ← limit_rows limit (merge_sort by_unit (st_services db));
  let diff := if want_diff params then Some (baseline_of Base_service base) else None in
  let current_keys := (fun r => svc_key (sr_unit r)) <$> rows in
  Some ((service_item diff <$> rows) ++
        match diff with
        | Some baseline => removed_service <$> removed_keys baseline current_keys
        | None => []
        end).

(** [ORDER BY kind, name]; [col] is the text a column stores. *)
Definition by_kind_name (col : pyval -> string) (a b : PersistRow) : Prop :=
  col (pr_kind a) <> col (pr_kind b) /\ String.le (col (pr_kind a)) (col (pr_kind b)) \/
  col (pr_kind a) = col (pr_kind b) /\ String.le (col (pr_name a)) (col (pr_name b)).
#[export] Instance by_kind_name_dec col a b : Decision (by_kind_name col a b).
Proof. unfold by_kind_name. apply _. Defined.

Record PersistItem := mkPersistItem {
  pi_key : string;
  pi_kind : pyval; pi_name : pyval; pi_source_path : pyval; pi_details : pyval;
  pi_first : option Z; pi_last : option Z;
  pi_diff : option DiffStatus;
}.
Definition persist_item (diff : option dict) (r : PersistRow) : PersistItem :=
  mkPersistItem (pr_key r) (pr_kind r) (pr_name r) (pr_source_path r) (pr_details r)
    (Some (pr_first r)) (Some (pr_last r))
    ((fun baseline => if dict_mem (pr_key r) baseline then Diff_unchanged else Diff_new) <$> diff).
Definition removed_persist (key : string) : PersistItem :=
  mkPersistItem key PNone PNone PNone PNone None None (Some Diff_removed).

Definition handle_list_persistence (col : pyval -> string) (params : dict) (db : StateDb) (base : list BaselineRow)
  : option (list PersistItem) :=
  limit ← int_param params "limit" 200;
  rows ← limit_rows limit (merge_sort (by_kind_name col) (st_persist db));
  let diff := if want_diff params then Some (baseline_of Base_persistence base) else None in
  Some ((persist_item diff <$> rows) ++
        match diff with
        | Some baseline => removed_persist <$> removed_keys baseline (pr_key <$> rows)
        | None => []
        end).

(** [WHERE status = ?] when a status is asked for. *)
Definition status_matches (col : pyval -> string) (params : dict) (status : string) : bool :=
  let want := dict_get "status" params in is_none want || String.eqb status (col want).
Definition dev_status_text (s : DevStatus) : string := match s with Dev_present => "present" | Dev_removed => "removed" end.
Definition proc_status_text (s : ProcStatus) : string := match s with Proc_running => "running" | Proc_exited => "exited" end.

Definition by_dev_key (a b : DevRow) : Prop := String.le (dv_key a) (dv_key b).
#[export] Instance by_dev_key_dec a b : Decision (by_dev_key a b).
Proof. unfold by_dev_key. apply _. Defined.
Definition handle_list_devices (col : pyval -> string) (params : dict) (db : StateDb) : option (list DevRow) :=
  limit ← int_param params "limit" 200;
  limit_rows limit (merge_sort by_dev_key
    (List.filter (fun r => status_matches col params (dev_status_text (dv_status r))) (st_devs db))).

(** [ORDER BY last_seen DESC]. *)
Definition newest_seen {A} (last_seen : A -> Z) (a b : A) : Prop := last_seen b <= last_seen a.
#[export] Instance newest_seen_dec {A} (f : A -> Z) a b : Decision (newest_seen f a b).
Proof. unfold newest_seen. apply _. Defined.

(** The boot id is read afresh; [None] when it cannot be. *)
Definition handle_list_processes (col : pyval -> string) (boot_id : option string) (params : dict) (db : StateDb)
  : option (list ProcRow * option string) :=
  limit ← int_param params "limit" 200;
  rows ← limit_rows limit (merge_sort (newest_seen pc_last)
    (List.filter (fun r => status_matches col params (proc_status_text (pc_status r))) (st_procs db)));
  Some (rows, boot_id).

(** Each connection with whether it was seen within [active_within_s]; times
    are microseconds. *)
Definition handle_list_connections (boot_id : option string) (now : Z) (params : dict) (db : StateDb)
  : option (list (ConnRow * bool) * option string) :=
  active_within_s ← int_param params "active_within_s" 300;
  limit ← int_param params "limit" 200;
  rows ← limit_rows limit (merge_sort (newest_seen cn_last) (st_conns db));
  let seen (r : ConnRow) := (r, (now - cn_last r <=? active_within_s * 1000000)) in
  Some (List.map seen rows, boot_id).

(** [ORDER BY addr, port]: the port column is numeric. *)
Definition port_num (v : pyval) : Z := default 0 (int_of v).
Definition by_addr_port (col : pyval -> string) (a b : ListenerRow) : Prop :=
  col (ls_addr a) <> col (ls_addr b) /\ String.le (col (ls_addr a)) (col (ls_addr b)) \/
  col (ls_addr a) = col (ls_addr b) /\ port_num (ls_port a) <= port_num (ls_port b).
#[export] Instance by_addr_port_dec col a b : Decision (by_addr_port col a b).
Proof. unfold by_addr_port. apply _. Defined.
Definition handle_list_listeners (col : pyval -> string) (params : dict) (db : StateDb) : option (list ListenerRow) :=
  limit ← int_param params "limit" 200;
  limit_rows limit (merge_sort (by_addr_port col) (st_listeners db)).

Definition handle_list_file_changes (params : dict) (db : StateDb) : option (list FileRow) :=
  limit ← int_param params "limit" 200;
  limit_rows limit (merge_sort (newest_seen fr_last) (st_files db)).

(** ** Scanner runs *)

Definition INCOMPLETE_AFTER_S : Z := 7200.
Definition FINDINGS_SCAN_LIMIT : Z := 1000.

Inductive RunState := State_of (s : RunStatus) | Interrupted.
#[export] Instance RunState_eq_dec : EqDecision RunState.
Proof. solve_decision. Defined.

(** [a] comes before [b] in [ORDER BY started_at DESC, run_id DESC]. *)
Definition run_before (a b : ScanRow) : bool :=
  (sn_started_at b <? sn_started_at a) ||
  ((sn_started_at a =? sn_started_at b) && negb (String.eqb (sn_run_id a) (sn_run_id b)) &&
   bool_decide (String.le (sn_run_id b) (sn_run_id a))).
(** [QUALIFY ROW_NUMBER() OVER (PARTITION BY scanner ...) = 1]. *)
Definition latest_runs (rows : list ScanRow) : list ScanRow :=
  List.filter (fun r => negb (existsb (fun r' => String.eqb (sn_scanner r') (sn_scanner r) && run_before r' r) rows)) rows.

Definition by_scanner (a b : ScanRow) : Prop := String.le (sn_scanner a) (sn_scanner b).
#[export] Instance by_scanner_dec a b : Decision (by_scanner a b).
Proof. unfold by_scanner. apply _. Defined.

(** [float(v)]; [float_of_str] reads a string. *)
Definition float_of (float_of_str : string -> option Q) (v : pyval) : option Q :=
  match v with
  | PInt z => Some (inject_Z z)
  | PBool b => Some (inject_Z (bool_Z b))
  | PFloat q => Some q
  | PStr s => float_of_str s
  | _ => None
  end.

Definition run_state (now : Z) (incomplete_after_s : Q) (r : ScanRow) : RunState :=
  if bool_decide (sn_status r = Run_running) then
    if negb (Qle_bool (inject_Z (now - sn_started_at r)) (incomplete_after_s * inject_Z 1000000))
    then Interrupted else State_of Run_running
  else State_of (sn_status r).

Definition handle_list_scan_runs (float_of_str : string -> option Q) (now : Z) (params : dict) (db : StateDb)
  : option (list (ScanRow * RunState)) :=
  limit ← int_param params "limit" 50;
  after ← float_of float_of_str (default (PInt INCOMPLETE_AFTER_S) (dict_lookup "incomplete_after_s" params));
  let incomplete_after_s := if Qle_bool after 0 then 0%Q else after in
  rows ← limit_rows limit (merge_sort by_scanner (latest_runs (st_scans db)));
  Some (List.map (fun r => (r, run_state now incomplete_after_s r)) rows).

(** ** Scanner findings *)

Record Finding := mkFinding {
  fi_event_id : string;
  fi_ts : Z;
  fi_scanner : pyval; fi_run_id : pyval; fi_path : pyval;
  fi_indicator_type : pyval; fi_indicator_value : pyval; fi_severity : pyval; fi_message : pyval;
}.

(** [{str(r) for r in raw_run_ids}]; a value that cannot be iterated raises. *)
Fixpoint chars_of (s : string) : list string :=
  match s with EmptyString => [] | String c s' => String c EmptyString :: chars_of s' end.
Definition run_id_set (str_other : pyval -> string) (v : pyval) : option (option (list string)) :=
  match v with
  | PNone => Some None
  | PList l => Some (Some (py_str str_other <$> l))
  | PStr s => Some (Some (chars_of s))
  | PDict d => Some (Some (d.*1))
  | _ => None
  end.
(** [run_id in run_ids], the members being strings; an unhashable value raises. *)
Definition in_run_ids (run_id : pyval) (run_ids : list string) : option bool :=
  match run_id with
  | PStr s => Some (existsb (String.eqb s) run_ids)
  | PList _ | PDict _ => None
  | _ => Some false
  end.

(** One row of the query: [Some None] when it is passed over. *)
Definition finding_of (run_ids : option (list string)) (r : EventRow) : option (option Finding) :=
  match py_or (dict_get "raw" (row_payload r)) (PDict []) with
  | PDict raw =>
      let run_id := dict_get "run_id" raw in
      keep ← match run_ids with None => Some true | Some ids => in_run_ids run_id ids end;
      if negb keep then Some None
      else
        indicator0 ← nested_get (dict_get "threat" (row_payload r)) "indicator";
        path ← nested_get (dict_get "file" (row_payload r)) "path";
        match py_or indicator0 (PDict []) with
        | PDict indicator =>
            Some (Some (mkFinding (row_event_id r) (row_ts r) (dict_get "scanner" raw) run_id path
                          (dict_get "type" indicator) (dict_get "value" indicator)
                          (dict_get "severity" indicator) (dict_get "message" (row_payload r))))
        | _ => None
        end
  | _ => None
  end.

(** The loop; [n] findings are collected already. *)
Fixpoint collect_findings (run_ids : option (list string)) (limit n : Z) (rows : list EventRow) : option (list Finding) :=
  match rows with
  | [] => Some []
  | r :: rows' =>
      if limit <=? n then Some []
      else
        f ← finding_of run_ids r;
        match f with
        | None => collect_findings run_ids limit n rows'
        | Some x => rest ← collect_findings run_ids limit (n + 1) rows'; Some (x :: rest)
        end
  end.

Definition is_finding (r : EventRow) : bool :=
  String.eqb (row_module r) "scanner_runner" && String.eqb (row_action r) "scan_finding".
Definition handle_list_scan_findings (str_other : pyval -> string) (params : dict) (t : EventTable)
  : option (list Finding) :=
  limit ← int_param params "limit" 50;
  scan_limit ← int_param params "scan_limit" FINDINGS_SCAN_LIMIT;
  run_ids ← run_id_set str_other (dict_get "run_ids" params);
  rows ← limit_rows scan_limit (merge_sort newer (List.filter is_finding (tbl_rows t)));
  collect_findings run_ids limit 0 rows.

(** ** Listing a keyed table *)

Section Listing.
Context {R : Type} (key : R -> string).

Lemma to_map_perm (rows rows' : list R) :
  NoDup (keys key rows) -> rows' ≡ₚ rows -> NoDup (keys key rows') /\ to_map key rows' = to_map key rows.
Proof.
  intros Hnd Hp. assert (NoDup (keys key rows')) as Hnd' by (unfold keys in *; by rewrite Hp). split; [done|].
  apply map_eq. intros k. apply option_eq. intros r. rewrite !to_map_lookup by done. by rewrite Hp.
Qed.

(** What a listing says of one key. *)
Definition said_of {A} (k : string) (name : A -> string) (items : list A) : list A :=
  List.filter (fun i => String.eqb (name i) k) items.

Lemma said_of_app {A} (k : string) (name : A -> string) (a b : list A) :
  said_of k name (a ++ b) = said_of k name a ++ said_of k name b.
Proof. apply List.filter_app. Qed.

Lemma said_of_none {A} (k : string) (name : A -> string) (items : list A) :
  k ∉ name <$> items -> said_of k name items = [].
Proof.
  unfold said_of. induction items as [|i items IH]; [done|]. rewrite fmap_cons, not_elem_of_cons. intros [Hi Hr].
  cbn. apply not_eq_sym, String.eqb_neq in Hi. rewrite Hi. by apply IH.
Qed.

Lemma said_of_map {A} (k : string) (name : A -> string) (item : R -> A) (rows : list R) :
  (forall r, name (item r) = key r) -> NoDup (keys key rows) ->
  said_of k name (item <$> rows) = match to_map key rows !! k with Some r => [item r] | None => [] end.
Proof.
  intros Hn. induction rows as [|r rows IH]; [done|]. unfold keys in *. rewrite fmap_cons, NoDup_cons. intros [Hr Hnd].
  rewrite to_map_cons. cbn [fmap list_fmap said_of List.filter]. rewrite Hn.
  destruct (String.eqb_spec (key r) k) as [<-|Hk].
  - rewrite lookup_insert_eq. f_equal. apply said_of_none. rewrite <- list_fmap_compose.
    intros (x & Hx & Hin)%list_elem_of_fmap. apply Hr, list_elem_of_fmap. exists x. cbn in Hx. by rewrite Hn in Hx.
  - rewrite lookup_insert_ne by done. by apply IH.
Qed.

(** A key of the table as a key of its baseline. *)
Context (bkey : string -> string) `{!Inj (=) (=) bkey} (entry : R -> pyval).

Lemma dict_lookup_rows (rows : list R) (k : string) :
  dict_lookup (bkey k) ((fun r => (bkey (key r), entry r)) <$> rows) = entry <$> to_map key rows !! k.
Proof.
  induction rows as [|r rows IH]; [done|]. rewrite to_map_cons. cbn.
  destruct (String.eqb_spec (bkey (key r)) (bkey k)) as [->%(inj bkey)|Hk].
  - by rewrite String.eqb_refl, lookup_insert_eq.
  - rewrite lookup_insert_ne by congruence.
    assert (String.eqb (bkey k) (bkey (key r)) = false) as E by (apply String.eqb_neq; congruence).
    by rewrite ?E.
Qed.

Lemma to_map_is_Some (rows : list R) (k : string) : is_Some (to_map key rows !! k) <-> k ∈ keys key rows.
Proof. rewrite <- not_eq_None_Some, to_map_None. destruct (decide (k ∈ keys key rows)); naive_solver. Qed.

(** One item per key. *)
Lemma said_of_keys {A} (k : string) (name : A -> string) (item : string -> A) (l : list string) :
  (forall b, name (item (bkey b)) = b) -> NoDup l -> Forall (fun x => exists b, x = bkey b) l ->
  said_of k name (item <$> l) = if bool_decide (bkey k ∈ l) then [item (bkey k)] else [].
Proof.
  intros Hn Hnd Hb. induction l as [|x l IH]; [by rewrite bool_decide_eq_false_2 by apply not_elem_of_nil|].
  apply NoDup_cons in Hnd as [Hx Hnd]. apply Forall_cons in Hb as [[b ->] Hb]. specialize (IH Hnd Hb).
  unfold said_of in *. cbn [fmap list_fmap List.filter]. rewrite Hn, IH. destruct (String.eqb_spec b k) as [->|Hk].
  - rewrite (bool_decide_eq_true_2 (_ ∈ _ :: _)) by left. by rewrite bool_decide_eq_false_2.
  - apply f_equal with (f := fun c : bool => if c then _ else _), bool_decide_ext. rewrite elem_of_cons.
    split; [by right | intros [H%(inj bkey)|]; congruence].
Qed.

(** The keys of the baseline a listing lacks, each once. *)
Lemma removed_keys_spec {A} (k : string) (name : A -> string) (item : string -> A) (base cur : list R) :
  (forall b, name (item (bkey b)) = b) -> NoDup (keys key base) ->
  said_of k name (item <$> removed_keys ((fun r => (bkey (key r), entry r)) <$> base) (bkey <$> keys key cur)) =
  match to_map key base !! k, to_map key cur !! k with Some _, None => [item (bkey k)] | _, _ => [] end.
Proof.
  intros Hn Hnd. set (base' := fmap _ base).
  assert (base'.*1 = bkey <$> keys key base) as Hb by (unfold base', keys; by rewrite <- !list_fmap_compose).
  assert (forall x, x ∈ removed_keys base' (bkey <$> keys key cur) <-> x ∈ base'.*1 /\ x ∉ bkey <$> keys key cur) as Hin.
  { intros x. unfold removed_keys. rewrite list_elem_of_In, List.filter_In, <- list_elem_of_In, merge_sort_Permutation.
    rewrite negb_true_iff, <- not_true_iff_false, existsb_exists. apply and_iff_compat_l, not_iff_compat.
    setoid_rewrite <- list_elem_of_In. split; [by intros (y & Hy & ->%String.eqb_eq) | intros Hx; exists x; by rewrite String.eqb_refl]. }
  rewrite said_of_keys; [|done| |].
  - assert (forall b, bkey b ∈ bkey <$> keys key cur <-> b ∈ keys key cur) as Hc.
    { intros b. apply list_elem_of_fmap_inj; apply _. }
    assert (bkey k ∈ bkey <$> keys key base <-> k ∈ keys key base) as Hk by (apply list_elem_of_fmap_inj; apply _).
    rewrite (bool_decide_ext _ (is_Some (to_map key base !! k) /\ ~ is_Some (to_map key cur !! k))).
    + clear. destruct (to_map key base !! k), (to_map key cur !! k); case_bool_decide as H; try done.
      * by destruct H as [_ []]; eauto.
      * destruct H. split; [by eauto | by intros [? ?]].
      * by destruct H as [[? ?] _].
      * by destruct H as [[? ?] _].
    + by rewrite Hin, Hb, Hc, Hk, !to_map_is_Some.
  - unfold removed_keys. apply NoDup_ListNoDup, List.NoDup_filter, NoDup_ListNoDup. rewrite merge_sort_Permutation, Hb.
    by apply NoDup_fmap.
  - apply Forall_forall. intros x [Hx _]%Hin. rewrite Hb in Hx. apply list_elem_of_fmap in Hx as (b & -> & _). by exists b.
Qed.
End Listing.

#[export] Instance svc_key_inj : Inj (=) (=) svc_key.
Proof. intros a b [= H]. done. Qed.

Lemma limit_rows_all {A} (limit : Z) (rows : list A) :
  Z.of_nat (length rows) <= limit -> limit_rows limit rows = Some rows.
Proof.
  intros H. unfold limit_rows. destruct (Z.ltb_spec limit 0); [lia|]. by rewrite take_ge by lia.
Qed.

(** The baseline a capture leaves for its kind. *)
Lemma baseline_of_app (k : BaselineKind) (base entries : list BaselineRow) :
  Forall (fun r => bl_kind r = k) entries ->
  baseline_of k (List.filter (fun r => negb (of_kind k r)) base ++ entries) =
  (fun r => (bl_key r, PDict (bl_attrs r))) <$> entries.
Proof.
  intros He. unfold baseline_of. f_equal. rewrite List.filter_app.
  assert (List.filter (of_kind k) entries = entries) as ->.
  { induction He as [|r l Hr _ IH]; [done|]. cbn. unfold of_kind at 1. by rewrite bool_decide_eq_true_2, IH. }
  assert (List.filter (of_kind k) (List.filter (fun r => negb (of_kind k r)) base) = []) as ->; [|done].
  induction base as [|r base IH]; [done|]. cbn. destruct (of_kind k r) eqn:E; cbn; [done|]. by rewrite E.
Qed.

Lemma captured_services (now : Z) (db : StateDb) (base : list BaselineRow) :
  exists base', capture_baseline now "service" db base = Ok (length (st_services db), base') /\
    baseline_of Base_service base' =
      (fun r => (svc_key (sr_unit r), PDict (bl_attrs (service_entry now r)))) <$> st_services db.
Proof.
  eexists. split; [unfold capture_baseline; cbn; by rewrite length_fmap|].
  rewrite baseline_of_app; [by rewrite <- list_fmap_compose|].
  apply Forall_fmap, Forall_forall. by intros r _.
Qed.

Lemma captured_persist (now : Z) (db : StateDb) (base : list BaselineRow) :
  exists base', capture_baseline now "persistence" db base = Ok (length (st_persist db), base') /\
    baseline_of Base_persistence base' =
      (fun r => (Datatypes.id (pr_key r), PDict (bl_attrs (persist_entry now r)))) <$> st_persist db.
Proof.
  eexists. split; [unfold capture_baseline; cbn; by rewrite length_fmap|].
  rewrite baseline_of_app; [by rewrite <- list_fmap_compose|].
  apply Forall_fmap, Forall_forall. by intros r _.
Qed.

(** What the panel has to say of a unit that had and has these rows. *)
Definition service_change (u : string) (before now : option ServiceRow) : list ServiceItem :=
  match now, before with
  | Some r, None => [mkServiceItem u (sr_active r) (sr_sub r) (sr_load r) (Some (sr_first r)) (Some (sr_last r)) (Some Diff_new)]
  | Some r, Some b =>
      [mkServiceItem u (sr_active r) (sr_sub r) (sr_load r) (Some (sr_first r)) (Some (sr_last r))
         (Some (if INACTIVE (sr_active b) && is_active (sr_active r) then Diff_re_enabled else Diff_unchanged))]
  | None, Some _ => [removed_service (svc_key u)]
  | None, None => []
  end.
Definition persist_change (k : string) (before now : option PersistRow) : list PersistItem :=
  match now, before with
  | Some r, _ =>
      [mkPersistItem k (pr_kind r) (pr_name r) (pr_source_path r) (pr_details r) (Some (pr_first r)) (Some (pr_last r))
         (Some (match before with Some _ => Diff_unchanged | None => Diff_new end))]
  | None, Some _ => [removed_persist k]
  | None, None => []
  end.

Lemma list_services_said (params : dict) (limit now : Z) (db0 db : StateDb) (base : list BaselineRow) (u : string) :
  int_param params "limit" 200 = Some limit -> Z.of_nat (length (st_services db)) <= limit -> want_diff params = true ->
  NoDup (keys sr_unit (st_services db0)) -> NoDup (keys sr_unit (st_services db)) ->
  baseline_of Base_service base =
    (fun r => (svc_key (sr_unit r), PDict (bl_attrs (service_entry now r)))) <$> st_services db0 ->
  exists items, handle_list_services params db base = Some items /\
    said_of u si_unit items =
      service_change u (to_map sr_unit (st_services db0) !! u) (to_map sr_unit (st_services db) !! u).
Proof.
  intros Hl Hn Hd H0 H1 Hb. set (rows := merge_sort by_unit (st_services db)).
  assert (rows ≡ₚ st_services db) as Hp by apply merge_sort_Permutation.
  destruct (to_map_perm sr_unit _ _ H1 Hp) as [Hr Hm]. eexists. split.
  { unfold handle_list_services. rewrite Hl, Hd. cbn [mbind option_bind]. fold rows.
    rewrite limit_rows_all by by rewrite Hp. done. }
  rewrite said_of_app, Hb. rewrite (said_of_map sr_unit) by done. rewrite Hm.
  replace ((fun r => svc_key (sr_unit r)) <$> rows) with (svc_key <$> keys sr_unit rows) by (unfold keys; by rewrite <- list_fmap_compose).
  rewrite (removed_keys_spec sr_unit svc_key (fun r => PDict (bl_attrs (service_entry now r)))) by done. rewrite Hm.
  destruct (to_map sr_unit (st_services db) !! u) as [r|] eqn:Er; [|by destruct (to_map sr_unit (st_services db0) !! u)].
  apply to_map_lookup in Er as [_ Hu]; [|done]. unfold service_item, diff_status. cbn [fmap option_fmap option_map].
  rewrite Hu, (dict_lookup_rows sr_unit svc_key (fun r => PDict (bl_attrs (service_entry now r)))).
  by destruct (to_map sr_unit (st_services db0) !! u).
Qed.

Lemma list_persist_said (col : pyval -> string) (params : dict) (limit now : Z) (db0 db : StateDb) (base : list BaselineRow) (k : string) :
  int_param params "limit" 200 = Some limit -> Z.of_nat (length (st_persist db)) <= limit -> want_diff params = true ->
  NoDup (keys pr_key (st_persist db0)) -> NoDup (keys pr_key (st_persist db)) ->
  baseline_of Base_persistence base =
    (fun r => (Datatypes.id (pr_key r), PDict (bl_attrs (persist_entry now r)))) <$> st_persist db0 ->
  exists items, handle_list_persistence col params db base = Some items /\
    said_of k pi_key items =
      persist_change k (to_map pr_key (st_persist db0) !! k) (to_map pr_key (st_persist db) !! k).
Proof.
  intros Hl Hn Hd H0 H1 Hb. set (rows := merge_sort (by_kind_name col) (st_persist db)).
  assert (rows ≡ₚ st_persist db) as Hp by apply merge_sort_Permutation.
  destruct (to_map_perm pr_key _ _ H1 Hp) as [Hr Hm]. eexists. split.
  { unfold handle_list_persistence. rewrite Hl, Hd. cbn [mbind option_bind]. fold rows.
    rewrite limit_rows_all by by rewrite Hp. done. }
  rewrite said_of_app, Hb. rewrite (said_of_map pr_key) by done. rewrite Hm.
  replace (pr_key <$> rows) with (Datatypes.id <$> keys pr_key rows) by apply list_fmap_id.
  rewrite (removed_keys_spec pr_key Datatypes.id (fun r => PDict (bl_attrs (persist_entry now r)))) by done. rewrite Hm.
  destruct (to_map pr_key (st_persist db) !! k) as [r|] eqn:Er; [|by destruct (to_map pr_key (st_persist db0) !! k)].
  apply to_map_lookup in Er as [_ Hu]; [|done]. unfold persist_item, dict_mem. cbn [fmap option_fmap option_map].
  change (pr_key r) with (Datatypes.id (pr_key r)) at 2.
  rewrite Hu, (dict_lookup_rows pr_key Datatypes.id (fun r => PDict (bl_attrs (persist_entry now r)))).
  by destruct (to_map pr_key (st_persist db0) !! k).
Qed.

(** The diff of the service and persistence panels is the difference of two
    histories: after a baseline was captured and further events arrived, a
    listing that is not cut short says exactly one thing of each unit or entry
    that exists now or did then: new when only now, removed when only then,
    re-enabled when a service that was not running is active, unchanged otherwise. *)
Theorem panel_diff_reflects_histories (str_other col : pyval -> string) (fromiso : string -> option Z)
    (varchar : pyval -> option string) (boot_id : option string) (events0 events1 : list Event)
    (params : dict) (limit now : Z) (base : list BaselineRow) :
  let run := foldl (project str_other col fromiso varchar boot_id) empty_db in
  let db0 := run events0 in
  let db := run (events0 ++ events1) in
  int_param params "limit" 200 = Some limit -> want_diff params = true ->
  Z.of_nat (length (st_services db)) <= limit -> Z.of_nat (length (st_persist db)) <= limit ->
  (exists base' items, capture_baseline now "service" db0 base = Ok (length (st_services db0), base') /\
    handle_list_services params db base' = Some items /\
    forall u, said_of u si_unit items =
      service_change u (entity sr_unit (service_op col) (service_of col) u events0)
                       (entity sr_unit (service_op col) (service_of col) u (events0 ++ events1))) /\
  (exists base' items, capture_baseline now "persistence" db0 base = Ok (length (st_persist db0), base') /\
    handle_list_persistence col params db base' = Some items /\
    forall k, said_of k pi_key items =
      persist_change k (entity pr_key (persist_op col) (persist_of col) k events0)
                       (entity pr_key (persist_op col) (persist_of col) k (events0 ++ events1))).
Proof.
  intros run db0 db Hl Hd Hs Hp.
  destruct (state_tables_hold str_other col fromiso varchar boot_id events0) as [[Hs0 Ms0] [Hp0 Mp0]].
  destruct (state_tables_hold str_other col fromiso varchar boot_id (events0 ++ events1)) as [[Hs1 Ms1] [Hp1 Mp1]].
  split.
  - destruct (captured_services now db0 base) as (base' & Hc & Hb). exists base'.
    destruct (list_services_said params limit now db0 db base' EmptyString) as (items & Hi & _); try done.
    exists items. split_and!; [done..|]. intros u. rewrite <- Ms0, <- Ms1.
    destruct (list_services_said params limit now db0 db base' u) as (items' & Hi' & Hu); try done.
    rewrite Hi in Hi'. injection Hi' as ->. exact Hu.
  - destruct (captured_persist now db0 base) as (base' & Hc & Hb). exists base'.
    destruct (list_persist_said col params limit now db0 db base' EmptyString) as (items & Hi & _); try done.
    exists items. split_and!; [done..|]. intros k. rewrite <- Mp0, <- Mp1.
    destruct (list_persist_said col params limit now db0 db base' k) as (items' & Hi' & Hu); try done.
    rewrite Hi in Hi'. injection Hi' as ->. exact Hu.
Qed.

Lemma cut_service_removed (params : dict) (limit now : Z) (db : StateDb) (base : list BaselineRow) (r : ServiceRow) :
  int_param params "limit" 200 = Some limit -> 0 <= limit -> want_diff params = true ->
  NoDup (keys sr_unit (st_services db)) ->
  baseline_of Base_service base =
    (fun r => (svc_key (sr_unit r), PDict (bl_attrs (service_entry now r)))) <$> st_services db ->
  r ∈ drop (Z.to_nat limit) (merge_sort by_unit (st_services db)) ->
  exists items, handle_list_services params db base = Some items /\ removed_service (svc_key (sr_unit r)) ∈ items.
Proof.
  intros Hl H0 Hd Hnd Hb Hr. set (rows := merge_sort by_unit (st_services db)) in *.
  assert (rows ≡ₚ st_services db) as Hp by apply merge_sort_Permutation.
  eexists. split.
  { unfold handle_list_services, limit_rows. rewrite Hl, Hd. cbn [mbind option_bind]. fold rows.
    destruct (Z.ltb_spec limit 0); [lia|]. reflexivity. }
  apply elem_of_app. right. rewrite Hb. apply list_elem_of_fmap_2. unfold removed_keys.
  rewrite list_elem_of_In, List.filter_In, <- list_elem_of_In, merge_sort_Permutation. split.
  - rewrite <- list_fmap_compose. apply (list_elem_of_fmap_2 (fun r => svc_key (sr_unit r))). rewrite <- Hp.
    by eapply (subseteq_drop (Z.to_nat limit) rows).
  - rewrite negb_true_iff, <- not_true_iff_false, existsb_exists. intros (k & Hk & He%String.eqb_eq).
    apply list_elem_of_In, list_elem_of_fmap in Hk as (x & -> & Hx). apply (inj svc_key) in He.
    assert (NoDup (keys sr_unit rows)) as Hn by (unfold keys; by rewrite Hp).
    rewrite <- (take_drop (Z.to_nat limit) rows) in Hn. unfold keys in Hn. rewrite fmap_app in Hn.
    apply NoDup_app in Hn as (_ & Hn & _). apply (Hn (sr_unit x)); [by apply list_elem_of_fmap_2|].
    rewrite <- He. by apply list_elem_of_fmap_2.
Qed.

(** A listing cut short by its limit (200 by default) reports services that
    did not change as removed: right after a baseline is captured, every
    service past the limit is in the diff as removed while its row is still there. *)
Theorem cut_listing_reports_removed (str_other col : pyval -> string) (fromiso : string -> option Z)
    (varchar : pyval -> option string) (boot_id : option string) (events : list Event)
    (params : dict) (limit now : Z) (base : list BaselineRow) (r : ServiceRow) :
  let db := foldl (project str_other col fromiso varchar boot_id) empty_db events in
  int_param params "limit" 200 = Some limit -> 0 <= limit -> want_diff params = true ->
  r ∈ drop (Z.to_nat limit) (merge_sort by_unit (st_services db)) ->
  r ∈ st_services db /\
  exists base' items, capture_baseline now "service" db base = Ok (length (st_services db), base') /\
    handle_list_services params db base' = Some items /\ removed_service (svc_key (sr_unit r)) ∈ items.
Proof.
  intros db Hl H0 Hd Hr. destruct (state_tables_hold str_other col fromiso varchar boot_id events) as [[Hnd _] _].
  split.
  { rewrite <- (merge_sort_Permutation by_unit (st_services db)).
    by eapply (subseteq_drop (Z.to_nat limit) (merge_sort by_unit (st_services db))). }
  destruct (captured_services now db base) as (base' & Hc & Hb).
  destruct (cut_service_removed params limit now db base' r) as (items & Hi & Hin); try done. by exists base', items.
Qed.

(** ** The scanner panel *)

Lemma latest_runs_one (rows : list ScanRow) (a b : ScanRow) :
  NoDup (keys sn_run_id rows) -> a ∈ latest_runs rows -> b ∈ latest_runs rows -> sn_scanner a = sn_scanner b -> a = b.
Proof.
  intros Hnd Ha Hb Hs. unfold latest_runs in Ha, Hb.
  rewrite list_elem_of_In, List.filter_In, <- list_elem_of_In, negb_true_iff, <- not_true_iff_false, existsb_exists in Ha, Hb.
  destruct Ha as [Ha Na], Hb as [Hb Nb]. destruct (decide (sn_run_id a = sn_run_id b)) as [He|Hne].
  { by eapply (NoDup_fmap_eq sn_run_id rows). }
  assert (run_before a b = true \/ run_before b a = true) as [H|H].
  { unfold run_before. destruct (Z.lt_trichotomy (sn_started_at a) (sn_started_at b)) as [Hlt|[Heq|Hgt]].
    - right. by rewrite (proj2 (Z.ltb_lt _ _) Hlt).
    - rewrite Heq, Z.eqb_refl. apply String.eqb_neq in Hne as E1. rewrite E1.
      assert (String.eqb (sn_run_id b) (sn_run_id a) = false) as E2 by (apply String.eqb_neq; congruence). rewrite E2.
      destruct (base.total String.le (sn_run_id a) (sn_run_id b)) as [Hle|Hle]; [right|left];
        rewrite (bool_decide_eq_true_2 _ Hle); apply orb_true_r.
    - left. by rewrite (proj2 (Z.ltb_lt _ _) Hgt). }
  - destruct Nb. exists a. by rewrite <- list_elem_of_In, Hs, String.eqb_refl.
  - destruct Na. exists b. by rewrite <- list_elem_of_In, Hs, String.eqb_refl.
Qed.

Lemma run_before_irrefl (a : ScanRow) : run_before a a = false.
Proof. unfold run_before. by rewrite Z.ltb_irrefl, Z.eqb_refl, String.eqb_refl. Qed.

Lemma run_before_spec (a b : ScanRow) :
  run_before a b = true <->
  sn_started_at b < sn_started_at a \/
  sn_started_at a = sn_started_at b /\ sn_run_id a <> sn_run_id b /\ String.le (sn_run_id b) (sn_run_id a).
Proof.
  unfold run_before. rewrite orb_true_iff, !andb_true_iff, Z.ltb_lt, Z.eqb_eq, negb_true_iff, String.eqb_neq, bool_decide_eq_true.
  tauto.
Qed.

Lemma run_before_trans (a b c : ScanRow) : run_before a b = true -> run_before b c = true -> run_before a c = true.
Proof.
  rewrite !run_before_spec. intros [H1|(H1 & N1 & L1)] [H2|(H2 & N2 & L2)]; [left; lia..|].
  right. split; [congruence|]. split; [|by etrans]. intros E. rewrite E in L1. destruct N2. by apply (anti_symm String.le).
Qed.

Lemma latest_runs_some (rows : list ScanRow) (r : ScanRow) :
  r ∈ rows -> exists m, m ∈ latest_runs rows /\ sn_scanner m = sn_scanner r.
Proof.
  intros Hr.
  assert (forall l : list ScanRow, l <> [] -> exists m, m ∈ l /\ forall x, x ∈ l -> run_before x m = false) as Hmax.
  { induction l as [|a l IH]; [done|]. intros _. destruct l as [|b l].
    { exists a. split; [left|]. intros x ->%list_elem_of_singleton. apply run_before_irrefl. }
    destruct IH as (m & Hm & Hx); [done|]. destruct (run_before a m) eqn:E.
    - exists a. split; [left|]. intros x [->|Hin]%elem_of_cons; [apply run_before_irrefl|].
      destruct (run_before x a) eqn:Ex; [|done]. rewrite <- (Hx x Hin). symmetry. by eapply run_before_trans.
    - exists m. split; [by right|]. intros x [->|Hin]%elem_of_cons; [done|]. by apply Hx. }
  destruct (Hmax (List.filter (fun x => String.eqb (sn_scanner x) (sn_scanner r)) rows)) as (m & Hm & Hx).
  { intros E. assert (r ∈ (@nil ScanRow)) as []%not_elem_of_nil. rewrite <- E.
    apply list_elem_of_In, List.filter_In. by rewrite <- list_elem_of_In, String.eqb_refl. }
  apply list_elem_of_In, List.filter_In in Hm as [Hm Hs%String.eqb_eq]. exists m. split; [|done].
  unfold latest_runs. apply list_elem_of_In, List.filter_In. split; [done|].
  rewrite negb_true_iff, <- not_true_iff_false, existsb_exists. intros (x & Hin & [Hsx Hb]%andb_true_iff).
  rewrite (Hx x) in Hb; [done|]. apply list_elem_of_In, List.filter_In. by rewrite <- Hs.
Qed.

Lemma latest_runs_subset (rows : list ScanRow) (r : ScanRow) : r ∈ latest_runs rows -> r ∈ rows.
Proof. by intros [Hr%list_elem_of_In _]%list_elem_of_In%List.filter_In. Qed.

Lemma latest_runs_scanners (rows : list ScanRow) :
  NoDup (keys sn_run_id rows) -> NoDup (sn_scanner <$> merge_sort by_scanner (latest_runs rows)).
Proof.
  intros Hnd. rewrite merge_sort_Permutation. apply NoDup_fmap_2_strong.
  - intros a b Ha Hb. by apply latest_runs_one with rows.
  - apply NoDup_ListNoDup, List.NoDup_filter, NoDup_ListNoDup. by eapply NoDup_fmap_1.
Qed.

(** What a shown state says of the events of the run. *)
Definition state_justified (now : Z) (bound : Q) (h : list (ScanAct * Event)) (r : ScanRow) (st : RunState) : Prop :=
  match st with
  | State_of Run_success => verdict <$> newest_act Act_completed h = Some Run_success
  | State_of Run_failure => verdict <$> newest_act Act_completed h = Some Run_failure
  | State_of Run_skipped => newest_act Act_completed h = None /\ exists e, head h = Some (Act_skipped, e)
  | State_of Run_running =>
      newest_act Act_completed h = None /\ (inject_Z (now - sn_started_at r) <= bound * inject_Z 1000000)%Q
  | Interrupted =>
      newest_act Act_completed h = None /\ (bound * inject_Z 1000000 < inject_Z (now - sn_started_at r))%Q
  end.

Lemma run_state_justified (str_other : pyval -> string) (now : Z) (bound : Q) (events : list Event) (r : ScanRow) :
  scan_spec str_other (sn_run_id r) events = Some r ->
  state_justified now bound (scan_events str_other (sn_run_id r) events) r (run_state now bound r).
Proof.
  unfold scan_spec. set (h := scan_events str_other (sn_run_id r) events). clearbody h.
  destruct (head h) as [[a e]|] eqn:Eh; [|done]. cbn [mbind option_bind]. intros [= Hr].
  apply (f_equal sn_status) in Hr. cbn [scan_build sn_status] in Hr. unfold run_state.
  destruct (newest_act Act_completed h) as [c|] eqn:Ec.
  - unfold verdict in Hr. rewrite <- Hr. unfold state_justified. rewrite Ec. cbn [fmap option_fmap option_map].
    unfold verdict. destruct (raw_field "scan_outcome" c); try done. by destruct (String.eqb _ "failure").
  - rewrite <- Hr. cbn [fst]. destruct (bool_decide_reflect (a = Act_skipped)) as [->|Ha].
    + cbn. split; [done|]. by exists e.
    + cbn [bool_decide decide]. rewrite bool_decide_eq_true_2 by done.
      destruct (Qle_bool _ _) eqn:Eq; cbn [negb]; unfold state_justified; (split; [done|]).
      * by apply Qle_bool_iff.
      * apply Qnot_le_lt. intros Hle%Qle_bool_iff. congruence.
Qed.

(** The scanner panel tells the truth about every scanner: a listing that is not
    cut short shows exactly one run, the latest, of each scanner that has a run
    at all; it shows success or failure only with the verdict of a completion
    that arrived, running or interrupted only for a run that was started and
    whose completion has not arrived, interrupted exactly when that started
    longer ago than the bound, and skipped only for a skip. *)
Theorem scan_panel_states (str_other col : pyval -> string) (fromiso : string -> option Z)
    (varchar : pyval -> option string) (boot_id : option string) (float_of_str : string -> option Q)
    (events : list Event) (params : dict) (limit now : Z) (after : Q) :
  let db := foldl (project str_other col fromiso varchar boot_id) empty_db events in
  let bound := if Qle_bool after 0 then 0%Q else after in
  int_param params "limit" 50 = Some limit -> Z.of_nat (length (st_scans db)) <= limit ->
  float_of float_of_str (default (PInt INCOMPLETE_AFTER_S) (dict_lookup "incomplete_after_s" params)) = Some after ->
  exists items, handle_list_scan_runs float_of_str now params db = Some items /\
    NoDup ((fun x => sn_scanner x.1) <$> items) /\
    (forall r, r ∈ st_scans db -> exists x, x ∈ items /\ sn_scanner x.1 = sn_scanner r) /\
    Forall (fun x => state_justified now bound (scan_events str_other (sn_run_id x.1) events) x.1 x.2) items.
Proof.
  intros db bound Hl Hn Ha. destruct (scan_rows str_other col fromiso varchar boot_id events) as [Hnd Hm].
  fold db in Hnd, Hm. set (rows := merge_sort by_scanner (latest_runs (st_scans db))).
  assert (rows ≡ₚ latest_runs (st_scans db)) as Hp by apply merge_sort_Permutation.
  exists ((fun r => (r, run_state now bound r)) <$> rows). split_and!.
  - unfold handle_list_scan_runs. rewrite Hl, Ha. cbn [mbind option_bind]. fold rows. rewrite limit_rows_all; [done|].
    rewrite Hp. unfold latest_runs. pose proof (List.filter_length_le (fun r => negb (existsb (fun r' =>
      String.eqb (sn_scanner r') (sn_scanner r) && run_before r' r) (st_scans db))) (st_scans db)). lia.
  - rewrite <- list_fmap_compose. by apply latest_runs_scanners.
  - intros r Hr. destruct (latest_runs_some _ _ Hr) as (m & Hin & Hs). exists (m, run_state now bound m).
    split; [|done]. apply (list_elem_of_fmap_2 (fun r => (r, run_state now bound r))). by rewrite Hp.
  - apply Forall_fmap, Forall_forall. intros r Hr. rewrite Hp in Hr. apply latest_runs_subset in Hr.
    apply run_state_justified. rewrite <- Hm. by apply to_map_lookup.
Qed.

(** A bound of zero or less, clamped to zero, shows every run in flight as interrupted. *)
Lemma zero_bound_interrupts (now : Z) (r : ScanRow) :
  sn_status r = Run_running -> sn_started_at r < now -> run_state now 0 r = Interrupted.
Proof.
  intros Hs Ht. unfold run_state. rewrite bool_decide_eq_true_2 by done.
  destruct (Qle_bool _ _) eqn:E; [|done]. apply Qle_bool_iff in E. unfold Qle in E. cbn in E. lia.
Qed.

(** ** The findings panel *)

Definition wanted (run_ids : option (list string)) (r : EventRow) : option Finding :=
  match finding_of run_ids r with Some f => f | None => None end.

Lemma collect_findings_spec (run_ids : option (list string)) (limit n : Z) (rows : list EventRow) :
  Forall (fun r => is_Some (finding_of run_ids r)) rows ->
  collect_findings run_ids limit n rows = Some (take (Z.to_nat (limit - n)) (omap (wanted run_ids) rows)).
Proof.
  intros Hr. revert n. induction Hr as [|r rows [f Hf] _ IH]; intros n; [by destruct (Z.to_nat _)|].
  cbn [collect_findings omap list_omap]. destruct (Z.leb_spec limit n).
  { replace (Z.to_nat (limit - n)) with O by lia. done. }
  unfold wanted at 1. rewrite Hf. cbn [mbind option_bind]. destruct f as [x|]; [|apply IH].
  rewrite IH. cbn [mbind option_bind]. replace (Z.to_nat (limit - n)) with (S (Z.to_nat (limit - (n + 1)))) by lia. done.
Qed.

Lemma wanted_run (ids : list string) (r : EventRow) (f : Finding) :
  wanted (Some ids) r = Some f -> exists s, fi_run_id f = PStr s /\ s ∈ ids.
Proof.
  unfold wanted, finding_of. destruct (py_or (dict_get "raw" _) _); try done.
  match goal with |- context [in_run_ids ?v ids] => destruct v eqn:Er; try done end.
  cbn [in_run_ids mbind option_bind]. destruct (existsb (String.eqb s) ids) eqn:E; [|done]. cbn [negb].
  destruct (nested_get _ "indicator") as [i|]; [|done]. cbn. destruct (nested_get _ "path"); [|done]. cbn.
  destruct (py_or i _); try done. intros [= <-]. cbn. exists s. split; [done|].
  apply existsb_exists in E as (y & Hy & ->%String.eqb_eq). by apply list_elem_of_In.
Qed.

(** The findings panel lists the newest findings: among the newest
    [scan_limit] finding events, the first [limit] of the requested runs,
    newest first, and never one of another run. *)
Theorem scan_findings_listed (str_other : pyval -> string) (params : dict) (t : EventTable) (limit scan_limit : Z)
    (run_ids : option (list string)) :
  let rows := take (Z.to_nat scan_limit) (merge_sort newer (List.filter is_finding (tbl_rows t))) in
  int_param params "limit" 50 = Some limit -> int_param params "scan_limit" FINDINGS_SCAN_LIMIT = Some scan_limit ->
  0 <= scan_limit -> run_id_set str_other (dict_get "run_ids" params) = Some run_ids ->
  Forall (fun r => is_Some (finding_of run_ids r)) rows ->
  exists out, handle_list_scan_findings str_other params t = Some out /\
    out = take (Z.to_nat limit) (omap (wanted run_ids) rows) /\
    forall ids, run_ids = Some ids -> Forall (fun f => exists s, fi_run_id f = PStr s /\ s ∈ ids) out.
Proof.
  intros rows Hl Hs H0 Hi Hf. eexists. split; [|split; [reflexivity|]].
  - unfold handle_list_scan_findings. rewrite Hl, Hs. cbn [mbind option_bind]. rewrite Hi. cbn [mbind option_bind].
    unfold limit_rows. destruct (Z.ltb_spec scan_limit 0); [lia|]. cbn [mbind option_bind]. fold rows.
    rewrite collect_findings_spec by done. by rewrite Z.sub_0_r.
  - intros ids ->. apply Forall_take, Forall_forall. intros f (r & _ & Hr)%list_elem_of_omap. by eapply wanted_run.
Qed.

Module PanelExample.

Definition service (action : string) (ts : Z) (unit active : string) : Event :=
  mkEvent "1.0.0" ts "e" EK_event [] [] action None SevInfo "services_monitor" false None None None None None
    None None (Some [("name"%string, PStr unit)]) None None None None None None None None None
    (Some [("active"%string, PStr active)]) [] None.
Definition scan (action : string) (ts : Z) (run : string) : Event :=
  mkEvent "1.0.0" ts "e" EK_event [] [] action None SevInfo "scanner_runner" false None None None None None
    None None None None None None None None None None None None
    (Some [("scanner", PStr "aide"); ("run_id", PStr run)]%string) [] None.
Definition col (v : pyval) : string := py_str (fun _ => EmptyString) v.
Definition fromiso (_ : string) : option Z := None.
Definition varchar (_ : pyval) : option string := None.
Definition run : list Event -> StateDb :=
  foldl (project (fun _ => EmptyString) col fromiso varchar None) empty_db.
Definition before : list Event :=
  [service "service_added" 1 "a" "inactive"; service "service_added" 2 "b" "active"].
Definition after : list Event :=
  [service "service_changed" 3 "a" "active"; service "service_removed" 4 "b" "active"].
Definition params : dict := [("diff", PBool true)]%string.
Definition short : dict := [("limit", PInt 1); ("diff", PBool true)]%string.
Definition scans : list Event := [scan "scan_completed" 5 "r1"; scan "scan_started" 6 "r2"].
Definition finding : EventRow :=
  mkRow "f1" 7 "event" "scanner_runner" "scan_finding" "low" [("raw", PDict [("run_id", PStr "r1")])]%string 1.
Definition table : EventTable := mkTable [finding] 2.
End PanelExample.

Lemma panel_diff_reflects_histories_witness :
  let db0 := PanelExample.run PanelExample.before in
  let db := PanelExample.run (PanelExample.before ++ PanelExample.after) in
  exists base' items, capture_baseline 9 "service" db0 [] = Ok (2%nat, base') /\
    handle_list_services PanelExample.params db base' = Some items /\
    (fun i => (si_unit i, si_diff i)) <$> said_of "a" si_unit items = [("a"%string, Some Diff_re_enabled)] /\
    said_of "b" si_unit items = [removed_service "svc:b"].
Proof.
  intros db0 db.
  destruct (panel_diff_reflects_histories (fun _ => EmptyString) PanelExample.col PanelExample.fromiso
    PanelExample.varchar None PanelExample.before PanelExample.after PanelExample.params 200 9 [] eq_refl eq_refl)
    as [(base' & items & H1 & H2 & H3) _].
  - vm_compute. discriminate.
  - vm_compute. discriminate.
  - exists base', items. split; [exact H1|]. split; [exact H2|]. split; rewrite H3; vm_compute; reflexivity.
Defined.

Lemma cut_listing_reports_removed_witness :
  let db := PanelExample.run PanelExample.before in
  exists base' items, capture_baseline 9 "service" db [] = Ok (2%nat, base') /\
    handle_list_services PanelExample.short db base' = Some items /\ removed_service "svc:b" ∈ items /\
    "b"%string ∈ sr_unit <$> st_services db.
Proof.
  intros db. set (r := List.nth 1 (st_services db) (mkService EmptyString PNone PNone PNone 0 0 EmptyString)).
  destruct (cut_listing_reports_removed (fun _ => EmptyString) PanelExample.col PanelExample.fromiso
    PanelExample.varchar None PanelExample.before PanelExample.short 1 9 [] r eq_refl ltac:(lia) eq_refl)
    as [Hr (base' & items & H1 & H2 & H3)].
  - vm_compute. left.
  - exists base', items. split; [exact H1|]. split; [exact H2|]. split; [exact H3|].
    change "b"%string with (sr_unit r). apply list_elem_of_fmap_2. exact Hr.
Defined.

Lemma scan_panel_states_witness :
  exists items,
    handle_list_scan_runs (fun _ => None) 100 [] (PanelExample.run PanelExample.scans) = Some items /\
    (fun x => (sn_run_id x.1, x.2)) <$> items = [("r2"%string, State_of Run_running)] /\
    Forall (fun x => state_justified 100 (inject_Z 7200)
      (scan_events (fun _ => EmptyString) (sn_run_id x.1) PanelExample.scans) x.1 x.2) items.
Proof.
  destruct (scan_panel_states (fun _ => EmptyString) PanelExample.col PanelExample.fromiso PanelExample.varchar None
    (fun _ => None) PanelExample.scans [] 50 100 (inject_Z 7200) eq_refl) as (items & H1 & _ & _ & H2).
  - vm_compute. discriminate.
  - reflexivity.
  - exists items. split; [exact H1|]. split; [|exact H2].
    assert (E : handle_list_scan_runs (fun _ => None) 100 [] (PanelExample.run PanelExample.scans) = Some items) by exact H1.
    vm_compute in E. injection E as <-. vm_compute. reflexivity.
Defined.

Lemma scan_findings_listed_witness :
  exists out, handle_list_scan_findings (fun _ => EmptyString) [("run_ids"%string, PList [PStr "r1"])] PanelExample.table = Some out /\
    fi_event_id <$> out = ["f1"%string].
Proof.
  destruct (scan_findings_listed (fun _ => EmptyString) [("run_ids"%string, PList [PStr "r1"])] PanelExample.table
    50 1000 (Some ["r1"%string]) eq_refl eq_refl ltac:(lia) eq_refl) as (out & H1 & H2 & _).
  - vm_compute. repeat constructor. eexists. reflexivity.
  - exists out. split; [exact H1|]. rewrite H2. vm_compute. reflexivity.
Defined.
