(* ===== verification/ScannerRunner.v ===== *)
(** * The scanner runner ([workers/scanner_runner/runner.py], [scanners/base.py])

    The worker that runs on-disk scanners one at a time: [step] is a tick that
    finishes the run in flight if its thread is done and starts at most one due
    scanner; [handle_command] queues a run. Monotonic times are rationals.
    What a tick finds (the clock, the job's result, the binaries, the files the
    adapters look at, whether an event could be written and a thread started)
    is its [Tick]. *)

From S2P Require Import Prelude Schemas Tables RuleEval HuntCompiler Alerts Vuln Projector Panels.

(** ** [scanners/base.py] *)

Inductive ScanOutcome := SO_clean | SO_findings | SO_failure.
#[export] Instance ScanOutcome_eq_dec : EqDecision ScanOutcome.
Proof. solve_decision. Defined.
Definition outcome_text (o : ScanOutcome) : string :=
  match o with SO_clean => "clean" | SO_findings => "findings" | SO_failure => "failure" end.

Record ScanFinding := mkScanFinding {
  fd_indicator_type : string;
  fd_indicator_value : string;
  fd_raw_line : string;
  fd_category : string;
  fd_path : option string;
  fd_hashes : option dict;
  fd_severity : option string;
  fd_message : option string;
}.

(** [_CONTROL_RE], on Latin-1 text. *)
Definition is_control (c : ascii) : bool :=
  in_range 0 8 c || in_range 10 31 c || in_range 127 159 c.
Definition sanitize_text (text : string) : string := str_filter (fun c => negb (is_control c)) text.

(** [ScannerAdapter]: [World] is what an adapter reads of the file system;
    [None] is an exception. *)
Record ScannerAdapter (World : Type) := mkAdapter {
  ad_name : string;
  ad_binary : string;
  ad_argv : World -> dict -> option (list string);
  ad_preflight : World -> dict -> option (option string);
  ad_interpret_outcome : Z -> string -> string -> option ScanOutcome;
  ad_parse : string -> string -> option (list ScanFinding);
}.
Arguments mkAdapter {World}.
Arguments ad_name {World}.
Arguments ad_binary {World}.
Arguments ad_argv {World}.
Arguments ad_preflight {World}.
Arguments ad_interpret_outcome {World}.
Arguments ad_parse {World}.

(** ** Constants and results *)

Definition DEFAULT_TICK_S : Q := inject_Z 60.
Definition DEFAULT_STARTUP_DELAY_S : Q := inject_Z 120.
Definition DEFAULT_MAX_FINDINGS_PER_RUN : Z := 500.
Definition DEFAULT_MAX_OUTPUT_BYTES : Z := 8 * 1024 * 1024.
Definition MAX_FAILURE_OUTPUT_CHARS : nat := 400.
Definition DEFAULT_RETRY_BACKOFF_S : Q := inject_Z 60.
Definition DEFAULT_SCAN_INTERVAL_S : Q := inject_Z 86400.
Definition DEFAULT_TIMEOUT_S : Q := inject_Z 3600.

Record ScanResult := mkScanResult {
  rs_exit_code : option Z;
  rs_stdout : string;
  rs_stderr : string;
  rs_timed_out : bool;
  rs_cancelled : bool;
  rs_error : option string;
  rs_unreported : bool;
  rs_output_dropped_bytes : Z;
}.

Definition UNREPORTED : ScanResult :=
  mkScanResult None EmptyString EmptyString false false
    (Some "the scan thread did not report before the shutdown grace expired"%string) true 0.

(** [_SHUTDOWN_REASONS]. *)
Definition SHUTDOWN_REASONS : list string := ["shutdown"; "teardown_timeout"]%string.

Definition pre_exit_failure_reason (r : ScanResult) : option string :=
  if rs_unreported r then Some "teardown_timeout"%string
  else if bool_decide (is_Some (rs_error r)) then Some "spawn_error"%string
  else if rs_timed_out r then Some "timeout"%string
  else if rs_cancelled r then Some "shutdown"%string
  else None.

(** [_failure_excerpt]. *)
Definition excerpt_of (text : string) : string :=
  join " " (List.filter (fun p => negb (String.eqb p EmptyString))
              ((fun l => strip (sanitize_text l)) <$> split_on newline text)).
Definition clip_excerpt (e : string) : string :=
  if (MAX_FAILURE_OUTPUT_CHARS <? String.length e)%nat
  then str_take MAX_FAILURE_OUTPUT_CHARS e +:+ " [truncated]" else e.
Definition failure_excerpt (r : ScanResult) : option string :=
  match List.filter (fun e => negb (String.eqb e EmptyString)) [excerpt_of (rs_stderr r); excerpt_of (rs_stdout r)] with
  | [] => None
  | e :: _ => Some (clip_excerpt e)
  end.

(** [_prune]. *)
Definition prune (d : dict) : dict := List.filter (fun kv => negb (is_none kv.2)) d.

(** [round(q, 3)]: to the nearest thousandth, halves to even. *)
Definition round3 (q : Q) : Q := Qmake (round_half_even (Qnum q * 1000) (Z.pos (Qden q))) 1000.

(** ** The worker *)

Record ActiveRun (World : Type) := mkRun {
  ru_scanner : string;
  ru_adapter : ScannerAdapter World;
  ru_run_id : string;
  ru_started_at : Q;
  ru_argv : list string;
  ru_timeout : Q;
  ru_max_output : Z;
  ru_scheduled : bool;
}.
Arguments mkRun {World}.
Arguments ru_scanner {World}.
Arguments ru_adapter {World}.
Arguments ru_run_id {World}.
Arguments ru_started_at {World}.
Arguments ru_argv {World}.
Arguments ru_scheduled {World}.

Record Runner (World : Type) := mkRunner {
  rn_active : option (ActiveRun World);
  rn_next_due : gmap string Q;
  rn_retried : gmap string bool;
  rn_notified : gset string;
  rn_scheduled : bool;
  rn_run_next : gset string;
  rn_failed : bool;  (* [_last_error] is set *)
}.
Arguments mkRunner {World}.
Arguments rn_active {World}.
Arguments rn_next_due {World}.
Arguments rn_retried {World}.
Arguments rn_notified {World}.
Arguments rn_scheduled {World}.
Arguments rn_run_next {World}.
Arguments rn_failed {World}.

Definition runner_init {World} : Runner World := mkRunner None ∅ ∅ ∅ false ∅ false.

(** What a tick finds; the [n]th event it tries to emit is stamped
    [tk_clock n] and [tk_ids n], and is written when [tk_emit n]. *)
Record Tick (World : Type) := mkTick {
  tk_now : Q;
  tk_job : option ScanResult;
  tk_which : string -> bool;
  tk_world : World;
  tk_run_id : string;
  tk_thread : bool;
  tk_clock : nat -> Z;
  tk_ids : nat -> string;
  tk_emit : nat -> bool;
}.
Arguments mkTick {World}.
Arguments tk_now {World}.
Arguments tk_job {World}.
Arguments tk_which {World}.
Arguments tk_world {World}.
Arguments tk_run_id {World}.
Arguments tk_thread {World}.
Arguments tk_clock {World}.
Arguments tk_ids {World}.
Arguments tk_emit {World}.

(** *** Effects: the state, the events written so far, the attempts made; a
    result of [None] is an exception, which keeps the effects before it. *)
Record Ctx (World : Type) := mkCtx { cx_runner : Runner World; cx_log : list Event; cx_tries : nat }.
Arguments mkCtx {World}.
Arguments cx_runner {World}.
Arguments cx_log {World}.
Arguments cx_tries {World}.

Definition Act (World A : Type) : Type := Ctx World -> Ctx World * option A.

Section Monad.
Context {World : Type}.

Definition ret {A} (a : A) : Act World A := fun c => (c, Some a).
Definition bind {A B} (m : Act World A) (k : A -> Act World B) : Act World B :=
  fun c => let '(c', r) := m c in match r with Some a => k a c' | None => (c', None) end.
Definition raise {A} : Act World A := fun c => (c, None).
Definition get : Act World (Runner World) := fun c => (c, Some (cx_runner c)).
Definition modify (f : Runner World -> Runner World) : Act World unit :=
  fun c => (mkCtx (f (cx_runner c)) (cx_log c) (cx_tries c), Some tt).

Definition set_failed (r : Runner World) : Runner World :=
  mkRunner (rn_active r) (rn_next_due r) (rn_retried r) (rn_notified r) (rn_scheduled r) (rn_run_next r) true.
Definition set_active (a : option (ActiveRun World)) (r : Runner World) : Runner World :=
  mkRunner a (rn_next_due r) (rn_retried r) (rn_notified r) (rn_scheduled r) (rn_run_next r) (rn_failed r).
Definition set_due (name : string) (t : Q) (r : Runner World) : Runner World :=
  mkRunner (rn_active r) (<[name := t]> (rn_next_due r)) (rn_retried r) (rn_notified r ∖ {[name]}) (rn_scheduled r)
    (rn_run_next r) (rn_failed r).
Definition set_retried (name : string) (b : bool) (r : Runner World) : Runner World :=
  mkRunner (rn_active r) (rn_next_due r) (<[name := b]> (rn_retried r)) (rn_notified r) (rn_scheduled r)
    (rn_run_next r) (rn_failed r).
Definition set_notified (name : string) (r : Runner World) : Runner World :=
  mkRunner (rn_active r) (rn_next_due r) (rn_retried r) ({[name]} ∪ rn_notified r) (rn_scheduled r)
    (rn_run_next r) (rn_failed r).
Definition drop_trigger (name : string) (r : Runner World) : Runner World :=
  mkRunner (rn_active r) (rn_next_due r) (rn_retried r) (rn_notified r) (rn_scheduled r)
    (rn_run_next r ∖ {[name]}) (rn_failed r).
Definition add_trigger (name : string) (r : Runner World) : Runner World :=
  mkRunner (rn_active r) (rn_next_due r) (rn_retried r) (rn_notified r) (rn_scheduled r)
    ({[name]} ∪ rn_run_next r) (rn_failed r).

(** [_guard]. *)
Definition guard (m : Act World unit) : Act World unit :=
  fun c => let '(c', r) := m c in
           match r with
           | Some _ => (c', Some tt)
           | None => (mkCtx (set_failed (cx_runner c')) (cx_log c') (cx_tries c'), Some tt)
           end.

Fixpoint each {A} (f : A -> Act World unit) (l : list A) : Act World unit :=
  match l with [] => ret tt | x :: l' => bind (f x) (fun _ => each f l') end.
End Monad.

Declare Scope act_scope.
Delimit Scope act_scope with act.
Notation "x '<~' m ';;' k" := (bind m (fun x => k)) (at level 90, m at level 80, right associativity) : act_scope.
Notation "m ';;;' k" := (bind m (fun _ => k)) (at level 90, right associativity) : act_scope.

Section Worker.
Context {World : Type} (float_of_str : string -> option Q) (str_other : pyval -> string)
        (config : dict) (host_name : string) (adapters : list (ScannerAdapter World)).

Open Scope act_scope.

(** *** Configuration *)

Definition as_float (v : pyval) (dflt : Q) : Q := default dflt (float_of float_of_str v).
Definition step_interval_s : Q := as_float (dict_get "interval_s" config) DEFAULT_TICK_S.
Definition scanner_config (name : string) : dict :=
  match dict_get "scanners" config with
  | PDict scanners => match dict_get name scanners with PDict entry => entry | _ => [] end
  | _ => []
  end.
Definition enabled (name : string) : bool :=
  truthy (default (PBool false) (dict_lookup "enabled" (scanner_config name))).
Definition interval_s (name : string) : Q := as_float (dict_get "interval_s" (scanner_config name)) DEFAULT_SCAN_INTERVAL_S.
Definition timeout_s (name : string) : Q := as_float (dict_get "timeout_s" (scanner_config name)) DEFAULT_TIMEOUT_S.
Definition max_findings : Z :=
  match int_of (default (PInt DEFAULT_MAX_FINDINGS_PER_RUN) (dict_lookup "max_findings_per_run" config)) with
  | Some n => Z.max 0 n
  | None => DEFAULT_MAX_FINDINGS_PER_RUN
  end.
Definition max_output_bytes : Z :=
  match int_of (default (PInt DEFAULT_MAX_OUTPUT_BYTES) (dict_lookup "max_output_bytes" config)) with
  | Some n => Z.max 0 n
  | None => DEFAULT_MAX_OUTPUT_BYTES
  end.
Definition retry_backoff_s : Q := as_float (dict_get "retry_backoff_s" config) DEFAULT_RETRY_BACKOFF_S.
Definition startup_delay_s : Q := as_float (dict_get "startup_delay_s" config) DEFAULT_STARTUP_DELAY_S.

Definition adapter_named (name : string) : option (ScannerAdapter World) :=
  List.find (fun a => String.eqb (ad_name a) name) adapters.

(** *** Events *)

Definition scan_args (scanner action type_ category severity message : string) (outcome : option string)
    (file threat : option dict) (raw : dict) : EventArgs :=
  {| a_module := "scanner_runner"; a_action := action; a_category := [category];
     a_type := [type_]; a_severity := severity; a_kind := "event";
     a_host := Some [("name"%string, PStr host_name)]; a_outcome := outcome; a_message := Some message;
     a_process := None; a_file := file; a_user := None; a_source := None; a_destination := None;
     a_network := None; a_service := None; a_package := None; a_device := None;
     a_persistence := None; a_vulnerability := None; a_hunt := None; a_threat := threat;
     a_raw := Some raw; a_labels := Some ["scanner"%string; "scanner:" +:+ scanner]; a_ts := None;
     a_first_seen := false |}.

Definition emit (t : Tick World) (a : EventArgs) : Act World unit := fun c =>
  let n := cx_tries c in
  match build_event (tk_clock t n) (tk_ids t n) a with
  | Some e => if tk_emit t n then (mkCtx (cx_runner c) (cx_log c ++ [e]) (S n), Some tt)
              else (mkCtx (cx_runner c) (cx_log c) (S n), None)
  | None => (mkCtx (cx_runner c) (cx_log c) (S n), None)
  end.

Definition emit_started (t : Tick World) (scanner run_id : string) (argv : list string) : Act World unit :=
  emit t (scan_args scanner "scan_started" "start" "process" "info" (scanner +:+ " scan started") None None None
    [("scanner", PStr scanner); ("run_id", PStr run_id); ("argv", str_list argv)]%string).

Definition completed_raw (run : ActiveRun World) (outcome : ScanOutcome) (reason : option string) (result : ScanResult)
    (duration_s : Q) (finding_count findings_dropped : Z) : dict :=
  let failed := bool_decide (outcome = SO_failure) in
  prune [("scanner", PStr (ru_scanner run)); ("run_id", PStr (ru_run_id run));
         ("scan_outcome", PStr (outcome_text outcome)); ("reason", opt_str reason);
         ("exit_code", match rs_exit_code result with Some z => PInt z | None => PNone end);
         ("error", opt_str (rs_error result)); ("duration_s", PFloat (round3 duration_s));
         ("finding_count", PInt finding_count); ("findings_dropped", PInt findings_dropped);
         ("truncated", PBool (0 <? findings_dropped)%Z);
         ("output_dropped_bytes", PInt (rs_output_dropped_bytes result));
         ("output_truncated", PBool (0 <? rs_output_dropped_bytes result)%Z);
         ("output_excerpt", if failed then opt_str (failure_excerpt result) else PNone)]%string.
Definition emit_completed (t : Tick World) (run : ActiveRun World) (outcome : ScanOutcome) (reason : option string)
    (result : ScanResult) (duration_s : Q) (finding_count findings_dropped : Z) : Act World unit :=
  let failed := bool_decide (outcome = SO_failure) in
  let message := ru_scanner run +:+ " scan " +:+ outcome_text outcome in
  let message := match reason with Some r => message +:+ " (" +:+ r +:+ ")" | None => message end in
  emit t (scan_args (ru_scanner run) "scan_completed" "end" "process" "info" message
    (Some (if failed then "failure" else "success")%string) None None
    (completed_raw run outcome reason result duration_s finding_count findings_dropped)).

Definition emit_skipped (t : Tick World) (scanner reason : string) : Act World unit :=
  match adapter_named scanner with
  | None => raise
  | Some a =>
      emit t (scan_args scanner "scan_skipped" "info" "process" "info" (scanner +:+ " scan skipped: " +:+ reason)
        None None None [("scanner", PStr scanner); ("reason", PStr reason); ("binary", PStr (ad_binary a))]%string)
  end.

Definition emit_finding (t : Tick World) (run : ActiveRun World) (f : ScanFinding) : Act World unit :=
  let indicator := [("type", PStr (fd_indicator_type f)); ("value", PStr (fd_indicator_value f));
                    ("source", PStr (ru_scanner run))]%string ++
                   match fd_severity f with Some s => [("severity"%string, PStr s)] | None => [] end in
  let file_block := match fd_path f with
                    | Some p => Some (("path"%string, PStr p) ::
                        match fd_hashes f with Some (h :: hs) => [("hash"%string, PDict (h :: hs))] | _ => [] end)
                    | None => None
                    end in
  let category := if String.eqb (fd_category f) EmptyString then "file"%string else fd_category f in
  emit t {| a_module := "scanner_runner"; a_action := "scan_finding"; a_category := [category];
     a_type := ["info"%string]; a_severity := "low"; a_kind := "event";
     a_host := Some [("name"%string, PStr host_name)]; a_outcome := None; a_message := fd_message f;
     a_process := None; a_file := file_block; a_user := None; a_source := None; a_destination := None;
     a_network := None; a_service := None; a_package := None; a_device := None;
     a_persistence := None; a_vulnerability := None; a_hunt := None; a_threat := Some [("indicator"%string, PDict indicator)];
     a_raw := Some [("scanner", PStr (ru_scanner run)); ("run_id", PStr (ru_run_id run)); ("line", PStr (fd_raw_line f))]%string;
     a_labels := Some ["scanner"%string; "scanner:" +:+ ru_scanner run]; a_ts := None; a_first_seen := false |}.

(** *** Scheduling *)

Definition consume_slot (name : string) (now : Q) : Act World unit := modify (set_due name (now + interval_s name)%Q).

Definition skip_slot (t : Tick World) (name reason : string) (consume : bool) : Act World unit :=
  emit_skipped t name reason;;;
  modify (set_retried name false);;;
  if consume then consume_slot name (tk_now t) else ret tt.

Definition notify_in_flight (t : Tick World) (name : string) : Act World unit :=
  s <~ get;;
  if bool_decide (name ∈ rn_notified s) then ret tt
  else modify (set_notified name);;; emit_skipped t name "run_in_flight".

(** [_ensure_scheduled]. *)
Definition ensure_scheduled (t : Tick World) : Act World unit :=
  modify (fun s =>
    if rn_scheduled s then s
    else mkRunner (rn_active s)
           (foldl (fun m a => <[ad_name a := (tk_now t + startup_delay_s)%Q]> m) (rn_next_due s) adapters)
           (rn_retried s) (rn_notified s) true (rn_run_next s) (rn_failed s)).

Definition start_run (t : Tick World) (name : string) (scheduled : bool) : Act World unit :=
  modify (drop_trigger name);;;
  match adapter_named name with
  | None => raise
  | Some a =>
      if negb (tk_which t (ad_binary a)) then skip_slot t name "binary_not_found" scheduled
      else
        match default (Some "preflight_error"%string) (ad_preflight a (tk_world t) (scanner_config name)) with
        | Some reason => skip_slot t name reason scheduled
        | None =>
            match ad_argv a (tk_world t) (scanner_config name) with
            | None => skip_slot t name "argv_error" scheduled
            | Some argv =>
                (if scheduled then consume_slot name (tk_now t) else ret tt);;;
                emit_started t name (tk_run_id t) argv;;;
                if tk_thread t
                then modify (set_active (Some (mkRun name a (tk_run_id t) (tk_now t) argv (timeout_s name)
                                                 max_output_bytes scheduled)))
                else raise
            end
        end
  end.

(** *** Completing a run *)

Definition classify (run : ActiveRun World) (result : ScanResult) : ScanOutcome * option string :=
  match pre_exit_failure_reason result, rs_exit_code result with
  | Some reason, _ => (SO_failure, Some reason)
  | None, None => (SO_failure, Some "no_exit_status"%string)
  | None, Some code =>
      match ad_interpret_outcome (ru_adapter run) code (rs_stdout result) (rs_stderr result) with
      | None => (SO_failure, Some "exit_interpretation_error"%string)
      | Some SO_failure => (SO_failure, Some "scanner_error"%string)
      | Some o => (o, None)
      end
  end.

Definition reschedule (name : string) (outcome : ScanOutcome) (reason : option string) (now : Q) : Act World unit :=
  s <~ get;;
  let retryable := bool_decide (outcome = SO_failure) &&
                   negb (match reason with Some r => existsb (String.eqb r) SHUTDOWN_REASONS | None => false end) in
  if retryable && negb (default false (rn_retried s !! name))
  then modify (set_retried name true);;; modify (set_due name (now + retry_backoff_s)%Q)
  else modify (set_retried name false);;; consume_slot name now.

(** The verdict of a run and its findings. *)
Definition judge (run : ActiveRun World) (result : ScanResult) : ScanOutcome * option string * list ScanFinding :=
  let '(outcome, reason) := classify run result in
  if bool_decide (outcome = SO_failure) then (outcome, reason, [])
  else match ad_parse (ru_adapter run) (rs_stdout result) (rs_stderr result) with
       | Some findings => (outcome, reason, findings)
       | None => (SO_failure, Some "parse_error"%string, [])
       end.

Definition finish_run (t : Tick World) (run : ActiveRun World) (reported : option ScanResult) (now : Q) : Act World unit :=
  let result := default UNREPORTED reported in
  let '(outcome, reason, findings) := judge run result in
  let emitted := take (Z.to_nat max_findings) findings in
  let dropped := Z.of_nat (length findings) - Z.of_nat (length emitted) in
  let duration := (now - ru_started_at run)%Q in
  guard (each (emit_finding t run) emitted);;;
  guard (emit_completed t run outcome reason result (if Qle_bool duration 0 then 0 else duration)%Q
           (Z.of_nat (length emitted)) dropped);;;
  if ru_scheduled run then guard (reschedule (ru_scanner run) outcome reason now) else ret tt.

(** *** [step], [teardown], [handle_command] *)

Definition tick_scanner (t : Tick World) (name : string) : Act World unit :=
  if negb (enabled name) then ret tt
  else
    s <~ get;;
    let triggered := bool_decide (name ∈ rn_run_next s) in
    let scheduled_due := Qle_bool (default 0%Q (rn_next_due s !! name)) (tk_now t) in
    if negb triggered && negb scheduled_due then ret tt
    else match rn_active s with
         | Some _ => if scheduled_due then notify_in_flight t name else ret tt
         | None => start_run t name scheduled_due
         end.

Definition scanner_names : list string := merge_sort String.le (ad_name <$> adapters).

Definition finish_done (t : Tick World) : Act World unit :=
  s <~ get;;
  match rn_active s, tk_job t with
  | Some run, Some result => modify (set_active None);;; finish_run t run (Some result) (tk_now t)
  | _, _ => ret tt
  end.
Definition step : Tick World -> Act World unit := fun t =>
  ensure_scheduled t;;; finish_done t;;; each (tick_scanner t) scanner_names.

(** The base class's loop runs a step and notes its exception. *)
Definition run_step (r : Runner World) (t : Tick World) : Runner World * list Event :=
  let '(c, _) := guard (step t) (mkCtx r [] 0) in (cx_runner c, cx_log c).

(** [tk_job t] is what the job reported by the end of the shutdown grace. *)
Definition teardown (r : Runner World) (t : Tick World) : Runner World * list Event :=
  match rn_active r with
  | None => (r, [])
  | Some run =>
      let '(c, _) := finish_run t run (tk_job t) (tk_now t) (mkCtx (set_active None r) [] 0) in
      (cx_runner c, cx_log c)
  end.

Definition handle_command (command : string) (args : dict) (r : Runner World) : string * string * Runner World :=
  if negb (String.eqb command "run_scanner") then ("rejected"%string, "unknown command: " +:+ command, r)
  else
    let name := py_str str_other (default (PStr EmptyString) (dict_lookup "name" args)) in
    match adapter_named name with
    | None => ("rejected", "unknown_scanner", r)%string
    | Some _ =>
        if negb (enabled name) then ("rejected", "scanner_disabled", r)%string
        else ("accepted"%string,
              match rn_active r with
              | Some _ => "queued behind current run" | None => "run scheduled for the next tick" end%string,
              add_trigger name r)
    end.
End Worker.
