(* ===== verification/ScannerProofs.v ===== *)
(** * The scanner runner: its theorems

    Rules for reasoning about the worker's actions, also when they raise; the
    worker as a single-flight machine whose lifecycle events the state table
    follows; its slots against triggers; that a due scanner is never silent;
    and what a completion says. *)

From S2P Require Import Prelude Schemas Tables RuleEval Alerts Projector ScannerRunner.

(** ** Reasoning about actions *)

Section Triples.
Context {World : Type}.

(** From a state where [P] holds the action returns, to one where [Q] holds. *)
Definition triple (P : Ctx World -> Prop) (m : Act World unit) (Q : Ctx World -> Prop) : Prop :=
  forall c, P c -> exists c', m c = (c', Some tt) /\ Q c'.

Lemma triple_ret (P : Ctx World -> Prop) : triple P (ret tt) P.
Proof. intros c Hc. by exists c. Qed.

Lemma triple_bind (P Q R : Ctx World -> Prop) (m : Act World unit) (k : unit -> Act World unit) :
  triple P m Q -> triple Q (k tt) R -> triple P (bind m k) R.
Proof.
  intros Hm Hk c Hc. destruct (Hm c Hc) as (c1 & E1 & H1). destruct (Hk c1 H1) as (c2 & E2 & H2).
  exists c2. unfold bind. by rewrite E1.
Qed.

Lemma triple_get (P Q : Ctx World -> Prop) (k : Runner World -> Act World unit) :
  (forall c, P c -> exists c', k (cx_runner c) c = (c', Some tt) /\ Q c') -> triple P (bind get k) Q.
Proof. intros H c Hc. destruct (H c Hc) as (c' & E & Hq). by exists c'. Qed.

Lemma triple_modify (P Q : Ctx World -> Prop) (f : Runner World -> Runner World) :
  (forall c, P c -> Q (mkCtx (f (cx_runner c)) (cx_log c) (cx_tries c))) -> triple P (modify f) Q.
Proof. intros H c Hc. eexists. split; [reflexivity|]. by apply H. Qed.

Lemma triple_guard (P Q : Ctx World -> Prop) (m : Act World unit) : triple P m Q -> triple P (guard m) Q.
Proof. intros H c Hc. destruct (H c Hc) as (c' & E & Hq). exists c'. unfold guard. by rewrite E. Qed.

Lemma triple_conseq (P P' Q Q' : Ctx World -> Prop) (m : Act World unit) :
  triple P' m Q' -> (forall c, P c -> P' c) -> (forall c, Q' c -> Q c) -> triple P m Q.
Proof. intros H HP HQ c Hc. destruct (H c (HP c Hc)) as (c' & E & Hq). exists c'. split; [done|]. by apply HQ. Qed.

Lemma triple_each {A} (P : Ctx World -> Prop) (f : A -> Act World unit) (l : list A) :
  (forall x, x ∈ l -> triple P (f x) P) -> triple P (each f l) P.
Proof.
  intros Hf. induction l as [|x l IH]; [apply triple_ret|]. cbn [each]. apply triple_bind with P.
  - apply Hf. left.
  - apply IH. intros y Hy. apply Hf. by right.
Qed.
End Triples.

(** An action that leaves a part of the state as it was, whether or not it raises. *)
Section Keeps.
Context {World X : Type} (part : Runner World -> X).

Definition keeps {A} (m : Act World A) : Prop := forall c, part (cx_runner (m c).1) = part (cx_runner c).

Lemma keeps_ret {A} (a : A) : keeps (ret a).
Proof. done. Qed.
Lemma keeps_bind {A B} (m : Act World A) (k : A -> Act World B) : keeps m -> (forall a, keeps (k a)) -> keeps (bind m k).
Proof.
  intros Hm Hk c. specialize (Hm c). unfold bind. destruct (m c) as [c' [a|]]; [|done]. rewrite <- Hm. apply Hk.
Qed.
Lemma keeps_get : keeps get.
Proof. done. Qed.
Lemma keeps_modify (f : Runner World -> Runner World) : (forall r, part (f r) = part r) -> keeps (modify f).
Proof. intros Hf c. apply Hf. Qed.
Lemma keeps_guard (m : Act World unit) : (forall r, part (set_failed r) = part r) -> keeps m -> keeps (guard m).
Proof.
  intros Hf Hm c. specialize (Hm c). unfold guard. destruct (m c) as [c' [a|]]; [done|]. cbn in *. by rewrite Hf.
Qed.
Lemma keeps_each {A} (f : A -> Act World unit) (l : list A) : (forall x, x ∈ l -> keeps (f x)) -> keeps (each f l).
Proof.
  intros Hf. induction l as [|x l IH]; [apply keeps_ret|]. cbn [each]. apply keeps_bind; [apply Hf; left|].
  intros _. apply IH. intros y Hy. apply Hf. by right.
Qed.
Lemma keeps_emit (t : Tick World) (a : EventArgs) : keeps (emit t a).
Proof. intros c. unfold emit. destruct (build_event _ _ a); [|done]. by destruct (tk_emit t _). Qed.
Lemma keeps_emit_skipped host adapters (t : Tick World) (name reason : string) : keeps (emit_skipped host adapters t name reason).
Proof. unfold emit_skipped. destruct (adapter_named adapters name); [apply keeps_emit | done]. Qed.

Lemma keeps_reschedule float_of_str config (name : string) outcome reason now :
  (forall b r, part (set_retried name b r) = part r) -> (forall q r, part (set_due name q r) = part r) ->
  keeps (reschedule float_of_str config name outcome reason now).
Proof.
  intros H1 H2. apply keeps_bind; [apply keeps_get|]. intros s. unfold consume_slot.
  destruct (_ && _); (apply keeps_bind; [by apply keeps_modify | intros _; by apply keeps_modify]).
Qed.

Lemma keeps_finish_run float_of_str config host (t : Tick World) (run : ActiveRun World) reported now :
  (forall r, part (set_failed r) = part r) ->
  (ru_scheduled run = true -> forall b r, part (set_retried (ru_scanner run) b r) = part r) ->
  (ru_scheduled run = true -> forall q r, part (set_due (ru_scanner run) q r) = part r) ->
  keeps (finish_run float_of_str config host t run reported now).
Proof.
  intros H0 H1 H2. unfold finish_run. destruct (judge run _) as [[outcome reason] findings].
  apply keeps_bind; [apply keeps_guard; [done|]; apply keeps_each; intros f _; apply keeps_emit|]. intros _.
  apply keeps_bind; [apply keeps_guard; [done|]; apply keeps_emit|]. intros _.
  destruct (ru_scheduled run); [|apply keeps_ret]. apply keeps_guard; [done|]. apply keeps_reschedule; auto.
Qed.
End Keeps.

(** ** One run at a time, each reported *)

(** The lifecycle events a single-flight machine emits, with the ids it used
    and the run in flight: every run is completed before the next one starts. *)
Inductive flights : list string -> option string -> list (ScanAct * string) -> Prop :=
| flights_nil : flights [] None []
| flights_start used k l : flights used None l -> k ∉ used -> flights (used ++ [k]) (Some k) (l ++ [(Act_started, k)])
| flights_done used k l : flights used (Some k) l -> flights used None (l ++ [(Act_completed, k)])
| flights_skip used o k l : flights used o l -> flights used o (l ++ [(Act_skipped, k)]).

Section Lifecycle.
Context {World : Type} (float_of_str : string -> option Q) (str_other : pyval -> string)
        (config : dict) (host_name : string) (adapters : list (ScannerAdapter World)).

(** Events are written and threads start. *)
Definition reliable (t : Tick World) : Prop := tk_thread t = true /\ (forall n, tk_emit t n = true) /\ tk_run_id t <> EmptyString.

Definition lifecycle (log : list Event) : list (ScanAct * string) := omap (scan_act str_other) log.

Definition active_id (r : Runner World) : option string := ru_run_id <$> rn_active r.

Lemma lifecycle_snoc (log : list Event) (e : Event) :
  lifecycle (log ++ [e]) = lifecycle log ++ match scan_act str_other e with Some x => [x] | None => [] end.
Proof. unfold lifecycle. rewrite omap_app. cbn. by destruct (scan_act str_other e). Qed.

Lemma emit_spec (t : Tick World) (a : EventArgs) (c : Ctx World) (e : Event) :
  reliable t -> build_event (tk_clock t (cx_tries c)) (tk_ids t (cx_tries c)) a = Some e ->
  emit t a c = (mkCtx (cx_runner c) (cx_log c ++ [e]) (S (cx_tries c)), Some tt).
Proof. intros (_ & He & _) Hb. unfold emit. by rewrite Hb, He. Qed.

Variable prefix : list (ScanAct * string).
(** The run in flight, the worker's [_active], and what is known of the ids used. *)
Definition at_flight (U : list string -> Prop) (run : option string) (active : option (ActiveRun World)) (c : Ctx World) : Prop :=
  rn_active (cx_runner c) = active /\ exists used, U used /\ flights used run (prefix ++ lifecycle (cx_log c)).
Definition named (run : ActiveRun World) : Prop := ru_scanner run <> EmptyString /\ ru_run_id run <> EmptyString.
Definition steady (U : option (ActiveRun World) -> list string -> Prop) (c : Ctx World) : Prop :=
  at_flight (U (rn_active (cx_runner c))) (active_id (cx_runner c)) (rn_active (cx_runner c)) c /\
  forall run, rn_active (cx_runner c) = Some run -> named run.

(** What an event adds to the lifecycle. *)
Definition acts_of (e : Event) : list (ScanAct * string) :=
  match scan_act str_other e with Some y => [y] | None => [] end.

Lemma triple_emit (t : Tick World) (a : EventArgs) (U U' : list string -> Prop) run run' active :
  reliable t ->
  (forall n l used, U used -> flights used run l ->
     exists e used', build_event (tk_clock t n) (tk_ids t n) a = Some e /\ U' used' /\ flights used' run' (l ++ acts_of e)) ->
  triple (at_flight U run active) (emit t a) (at_flight U' run' active).
Proof.
  intros Hr Ha c (H1 & used & Hu & H2). destruct (Ha (cx_tries c) _ _ Hu H2) as (e & used' & Hb & Hu' & Hx).
  rewrite (emit_spec t a c e Hr Hb). eexists. split; [reflexivity|]. split; [done|]. exists used'. split; [done|].
  cbn [cx_log]. rewrite lifecycle_snoc, app_assoc. exact Hx.
Qed.

Lemma nonempty_truthy (s : string) : s <> EmptyString -> truthy (PStr s) = true.
Proof. intros H. cbn. apply negb_true_iff. by apply String.eqb_neq. Qed.

Lemma emit_started_flight (t : Tick World) (scanner run_id : string) (argv : list string) (U U' : list string -> Prop) active :
  reliable t -> scanner <> EmptyString -> run_id <> EmptyString -> (forall used, U used -> (run_id ∉ used) /\ U' (used ++ [run_id])) ->
  triple (at_flight U None active) (emit_started host_name t scanner run_id argv) (at_flight U' (Some run_id) active).
Proof.
  intros Hr Hs Hk HU. apply triple_emit; [done|]. intros n l used Hu Hl. destruct (HU used Hu).
  eexists _, (used ++ [run_id]). split; [reflexivity|]. split; [done|].
  unfold acts_of, scan_act, raw_field. cbn -[truthy]. rewrite !nonempty_truthy by done. cbn. by constructor.
Qed.

Lemma emit_skipped_flight (t : Tick World) (scanner reason : string) U run active :
  reliable t -> scanner <> EmptyString -> is_Some (adapter_named adapters scanner) ->
  triple (at_flight U run active) (emit_skipped host_name adapters t scanner reason) (at_flight U run active).
Proof.
  intros Hr Hs [a Ha]. unfold emit_skipped. rewrite Ha. apply triple_emit; [done|]. intros n l used Hu Hl.
  eexists _, used. split; [reflexivity|]. split; [done|]. unfold acts_of, scan_act, raw_field. cbn -[truthy].
  rewrite !nonempty_truthy by done. cbn. by constructor.
Qed.

Lemma emit_finding_flight (t : Tick World) (run : ActiveRun World) (f : ScanFinding) U o active :
  reliable t -> triple (at_flight U o active) (emit_finding host_name t run f) (at_flight U o active).
Proof.
  intros Hr. apply triple_emit; [done|]. intros n l used Hu Hl. eexists _, used. split; [reflexivity|]. split; [done|].
  unfold acts_of, scan_act. cbn -[truthy]. destruct (truthy _); cbn; by rewrite app_nil_r.
Qed.

Lemma completed_raw_fields (run : ActiveRun World) outcome reason result d n m :
  dict_get "scanner" (completed_raw run outcome reason result d n m) = PStr (ru_scanner run) /\
  dict_get "run_id" (completed_raw run outcome reason result d n m) = PStr (ru_run_id run) /\
  dict_get "scan_outcome" (completed_raw run outcome reason result d n m) = PStr (outcome_text outcome).
Proof. done. Qed.

Lemma emit_completed_flight (t : Tick World) (run : ActiveRun World) outcome reason result d n m U active :
  reliable t -> ru_scanner run <> EmptyString -> ru_run_id run <> EmptyString ->
  triple (at_flight U (Some (ru_run_id run)) active) (emit_completed host_name t run outcome reason result d n m) (at_flight U None active).
Proof.
  intros Hr Hs Hk. unfold emit_completed. destruct (completed_raw_fields run outcome reason result d n m) as (F1 & F2 & _).
  set (raw := completed_raw _ _ _ _ _ _ _) in *. clearbody raw. apply triple_emit; [done|]. intros i l used Hu Hl.
  destruct (bool_decide (outcome = SO_failure)); (eexists _, used; split; [reflexivity|]; split; [done|]);
    unfold acts_of, scan_act, raw_field; cbn -[truthy dict_get]; rewrite F1, F2, !nonempty_truthy by done; cbn; by constructor.
Qed.

(** Names are not empty, as those of the shipped adapters. *)
Hypothesis names_ok : Forall (fun a => ad_name a <> EmptyString) adapters.

Lemma adapter_named_in (name : string) : name ∈ ad_name <$> adapters -> is_Some (adapter_named adapters name) /\ name <> EmptyString.
Proof.
  intros (a & -> & Ha)%list_elem_of_fmap. split.
  - unfold adapter_named. destruct (List.find _ adapters) as [x|] eqn:E; [by eexists|].
    apply list_elem_of_In in Ha. pose proof (List.find_none _ _ E _ Ha) as Hf. cbn in Hf. by rewrite String.eqb_refl in Hf.
  - by apply (proj1 (Forall_forall _ _) names_ok).
Qed.

Lemma modify_flight (f : Runner World -> Runner World) U run active :
  (forall r, rn_active (f r) = rn_active r) -> triple (at_flight U run active) (modify f) (at_flight U run active).
Proof. intros Hf. apply triple_modify. intros c [H1 H2]. split; [|done]. cbn [cx_runner]. by rewrite Hf. Qed.

Lemma skip_slot_flight (t : Tick World) (name reason : string) (consume : bool) U run active :
  reliable t -> name ∈ ad_name <$> adapters ->
  triple (at_flight U run active) (skip_slot float_of_str config host_name adapters t name reason consume) (at_flight U run active).
Proof.
  intros Hr [Ha Hn]%adapter_named_in. unfold skip_slot. eapply triple_bind; [by apply emit_skipped_flight|].
  eapply triple_bind; [by apply modify_flight|]. destruct consume; [by apply modify_flight | apply triple_ret].
Qed.

Lemma notify_flight (t : Tick World) (name : string) U run active :
  reliable t -> name ∈ ad_name <$> adapters ->
  triple (at_flight U run active) (notify_in_flight host_name adapters t name) (at_flight U run active).
Proof.
  intros Hr [Ha Hn]%adapter_named_in. apply triple_get. intros c Hc. destruct (bool_decide _).
  - by apply triple_ret.
  - eapply (triple_bind _ (at_flight U run active)); [by apply modify_flight | by apply emit_skipped_flight | done].
Qed.

(** The ids used before this tick, and by the end of it. *)
Variable seen : string -> Prop.
Definition used_before (used : list string) : Prop := Forall seen used.
Definition used_by (t : Tick World) (used : list string) : Prop := Forall (fun k => seen k \/ k = tk_run_id t) used.
(** A run is started in this tick only if none is in flight. *)
Definition used_in (t : Tick World) (active : option (ActiveRun World)) : list string -> Prop :=
  match active with None => used_before | Some _ => used_by t end.

Lemma used_before_by (t : Tick World) (used : list string) : used_before used -> used_by t used.
Proof. intros H. eapply Forall_impl; [exact H|]. tauto. Qed.

Lemma start_run_flight (t : Tick World) (name : string) (scheduled : bool) :
  reliable t -> ~ seen (tk_run_id t) -> name ∈ ad_name <$> adapters ->
  triple (at_flight used_before None None) (start_run float_of_str config host_name adapters t name scheduled) (steady (used_in t)).
Proof.
  intros Hr Hfresh Hn. destruct (adapter_named_in _ Hn) as [[a Ha] Hne]. unfold start_run.
  eapply triple_bind; [by apply modify_flight|]. rewrite Ha.
  assert (forall reason, triple (at_flight used_before None None)
    (skip_slot float_of_str config host_name adapters t name reason scheduled) (steady (used_in t))) as Hskip.
  { intros reason. eapply triple_conseq; [by apply skip_slot_flight|done|]. intros c [H1 H2].
    unfold steady, active_id. rewrite H1. by split. }
  destruct (tk_which t (ad_binary a)); [|apply Hskip]. cbn [negb].
  destruct (default _ (ad_preflight a _ _)); [apply Hskip|]. destruct (ad_argv a _ _) as [argv|]; [|apply Hskip].
  eapply (triple_bind _ (at_flight used_before None None)).
  { destruct scheduled; [by apply modify_flight | apply triple_ret]. }
  pose proof Hr as (Ht & He & Hk). eapply triple_bind; [apply emit_started_flight with (U' := used_by t); try done|].
  { intros used Hu. split.
    - intros Hin. apply Hfresh. unfold used_before in Hu. rewrite Forall_forall in Hu. by apply Hu.
    - apply Forall_app. split; [by apply used_before_by|]. constructor; [by right|done]. }
  rewrite Ht. apply triple_modify. intros c [H1 H2]. split; [done|]. by intros run [= <-].
Qed.

Lemma tick_scanner_flight (t : Tick World) (name : string) :
  reliable t -> ~ seen (tk_run_id t) -> name ∈ ad_name <$> adapters ->
  triple (steady (used_in t)) (tick_scanner float_of_str config host_name adapters t name) (steady (used_in t)).
Proof.
  intros Hr Hfresh Hn. unfold tick_scanner. destruct (enabled config name); [|apply triple_ret].
  apply triple_get. intros c Hc. cbn [negb]. destruct (negb _ && negb _); [by apply triple_ret|].
  destruct (rn_active (cx_runner c)) as [run|] eqn:Ea.
  - destruct (Qle_bool _ _); [|by apply triple_ret].
    destruct (notify_flight t name _ _ _ Hr Hn c (proj1 Hc)) as (c' & E & [H1 H2]).
    exists c'. split; [done|]. unfold steady, active_id in *. rewrite H1. split; [done|]. apply Hc.
  - apply start_run_flight; [done..|]. destruct Hc as [Hc _]. unfold active_id in Hc. by rewrite Ea in Hc.
Qed.

Lemma finish_run_flight (t : Tick World) (run : ActiveRun World) reported now U :
  reliable t -> named run ->
  triple (at_flight U (Some (ru_run_id run)) None)
    (finish_run float_of_str config host_name t run reported now) (at_flight U None None).
Proof.
  intros Hr [Hs Hk]. unfold finish_run. destruct (judge run _) as [[outcome reason] findings].
  eapply triple_bind.
  { apply triple_guard, triple_each. intros f _. by apply emit_finding_flight. }
  eapply triple_bind; [by apply triple_guard, emit_completed_flight|].
  destruct (ru_scheduled run); [|apply triple_ret]. apply triple_guard. unfold reschedule. apply triple_get. intros c Hc.
  destruct (_ && _); (eapply (triple_bind _ (at_flight U None None)); [by apply modify_flight | by apply modify_flight | done]).
Qed.

Lemma finish_done_flight (t : Tick World) (U : list string -> Prop) :
  reliable t -> triple (steady (fun _ => U)) (finish_done float_of_str config host_name t) (steady (fun _ => U)).
Proof.
  intros Hr. unfold finish_done. apply triple_get. intros c Hc.
  destruct (rn_active (cx_runner c)) as [run|] eqn:Ea; [|by exists c].
  destruct (tk_job t) as [result|]; [|by exists c]. destruct Hc as [[H1 H2] Hn].
  destruct (triple_bind (fun c' => c' = c) (at_flight U (Some (ru_run_id run)) None) (at_flight U None None) (modify (set_active None))
    (fun _ => finish_run float_of_str config host_name t run (Some result) (tk_now t))) with (c := c) as (c' & E & Hf); try done.
  - apply triple_modify. intros c' ->. split; [done|]. cbn [cx_log]. unfold active_id in H2. by rewrite Ea in H2.
  - apply finish_run_flight; [done|]. by apply Hn.
  - exists c'. split; [done|]. destruct Hf as [F1 F2]. unfold steady, active_id. by rewrite F1.
Qed.

Lemma step_flight (t : Tick World) :
  reliable t -> ~ seen (tk_run_id t) ->
  triple (steady (fun _ => used_before)) (step float_of_str config host_name adapters t) (steady (fun _ => used_by t)).
Proof.
  intros Hr Hfresh. unfold step. apply (triple_bind _ (steady (fun _ => used_before))).
  { apply triple_modify. intros c [H1 H2]. unfold steady, at_flight, active_id in *. cbn [cx_runner cx_log].
    destruct (rn_scheduled (cx_runner c)); (split; [split; [done|apply H1] | exact H2]). }
  eapply triple_bind; [by apply finish_done_flight|]. apply triple_conseq with (steady (used_in t)) (steady (used_in t)).
  - apply triple_each. intros name Hname. unfold scanner_names in Hname. rewrite merge_sort_Permutation in Hname.
    by apply tick_scanner_flight.
  - intros c ((H1 & used & Hu & Hf) & Hn). split; [|done]. split; [done|]. exists used. split; [|done].
    unfold used_in. destruct (rn_active _); [by apply used_before_by | done].
  - intros c ((H1 & used & Hu & Hf) & Hn). split; [|done]. split; [done|]. exists used. split; [|done].
    unfold used_in in Hu. destruct (rn_active _); [done | by apply used_before_by].
Qed.
End Lifecycle.

(** ** The worker among its inputs *)

Inductive Input (World : Type) :=
| InTick (t : Tick World)
| InCommand (command : string) (args : dict)
| InStop (t : Tick World).
Arguments InTick {World}.
Arguments InCommand {World}.
Arguments InStop {World}.

Section Inputs.
Context {World : Type} (float_of_str : string -> option Q) (str_other : pyval -> string)
        (config : dict) (host_name : string) (adapters : list (ScannerAdapter World)).

Definition run_input (r : Runner World) (i : Input World) : Runner World * list Event :=
  match i with
  | InTick t => run_step float_of_str config host_name adapters r t
  | InCommand command args => ((handle_command str_other config adapters command args r).2, [])
  | InStop t => teardown float_of_str config host_name r t
  end.
Definition run_inputs (is_ : list (Input World)) : Runner World * list Event :=
  foldl (fun acc i => let '(r', es) := run_input acc.1 i in (r', acc.2 ++ es)) (runner_init, []) is_.

Definition input_tick (i : Input World) : option (Tick World) :=
  match i with InTick t | InStop t => Some t | InCommand _ _ => None end.
Definition start_ids (is_ : list (Input World)) : list string :=
  omap (fun i => match i with InTick t => Some (tk_run_id t) | _ => None end) is_.

Definition reliable_input (i : Input World) : Prop :=
  match input_tick i with Some t => reliable t | None => True end.

Hypothesis names_ok : Forall (fun a => ad_name a <> EmptyString) adapters.

Lemma run_inputs_snoc (is_ : list (Input World)) (i : Input World) :
  run_inputs (is_ ++ [i]) =
  let '(r, log) := run_inputs is_ in let '(r', es) := run_input r i in (r', log ++ es).
Proof.
  unfold run_inputs. rewrite foldl_app. cbn [foldl]. by destruct (foldl _ _ is_) as [r log].
Qed.

Lemma lifecycle_app (a b : list Event) : lifecycle str_other (a ++ b) = lifecycle str_other a ++ lifecycle str_other b.
Proof. apply omap_app. Qed.

(** The worker's state between inputs. *)
Definition flying (ids : list string) (r : Runner World) (log : list Event) : Prop :=
  (exists used, Forall (fun k => k ∈ ids) used /\ flights used (active_id r) (lifecycle str_other log)) /\
  forall run, rn_active r = Some run -> named run.

Lemma handle_command_active (command : string) (args : dict) (r : Runner World) :
  rn_active (handle_command str_other config adapters command args r).2 = rn_active r.
Proof.
  unfold handle_command. destruct (negb _); [done|]. destruct (adapter_named _ _); [|done]. by destruct (negb _).
Qed.

Lemma run_input_flying (ids : list string) (r : Runner World) (log : list Event) (i : Input World) :
  reliable_input i -> Forall (fun k => k ∉ ids) (start_ids [i]) -> flying ids r log ->
  let '(r', es) := run_input r i in flying (ids ++ start_ids [i]) r' (log ++ es).
Proof.
  intros Hr Hfresh [(used & Hu & Hf) Hn]. destruct i as [t|command args|t]; cbn [run_input].
  - unfold run_step. cbn in Hfresh. apply Forall_cons in Hfresh as [Hfresh _].
    destruct (triple_guard _ _ _ (step_flight float_of_str str_other config host_name adapters (lifecycle str_other log)
      names_ok (fun k => k ∈ ids) t Hr Hfresh) (mkCtx r [] 0)) as (c' & E & Hs).
    { split; [|done]. split; [done|]. exists used. split; [done|]. cbn. by rewrite app_nil_r. }
    rewrite E. destruct Hs as ((_ & used' & Hu' & Hf') & Hn'). split; [|done]. exists used'. rewrite lifecycle_app.
    split; [|done]. eapply Forall_impl; [exact Hu'|]. cbn. intros k. rewrite elem_of_app, list_elem_of_singleton. tauto.
  - cbn [start_ids omap list_omap]. rewrite !app_nil_r. unfold flying, active_id. rewrite handle_command_active. eauto.
  - cbn [start_ids omap list_omap]. rewrite app_nil_r. unfold teardown.
    destruct (rn_active r) as [run|] eqn:Ea; [|rewrite app_nil_r; split; [eauto|by rewrite Ea]].
    destruct (finish_run_flight float_of_str str_other config host_name (lifecycle str_other log) t run (tk_job t) (tk_now t)
      (Forall (fun k => k ∈ ids)) Hr (Hn run eq_refl) (mkCtx (set_active None r) [] 0)) as (c' & E & H1 & Hf').
    { split; [done|]. exists used. split; [done|]. cbn. rewrite app_nil_r. unfold active_id in Hf. by rewrite Ea in Hf. }
    rewrite E. unfold flying, active_id. rewrite H1. split; [|done]. rewrite lifecycle_app. exact Hf'.
Qed.

Lemma runner_flies (is_ : list (Input World)) :
  Forall reliable_input is_ -> NoDup (start_ids is_) ->
  let '(r, log) := run_inputs is_ in flying (start_ids is_) r log.
Proof.
  induction is_ as [|i is_ IH] using rev_ind; intros Hr Hnd.
  - split; [exists []; split; constructor | done].
  - apply Forall_app in Hr as [Hr Hi]. apply Forall_cons in Hi as [Hi _].
    unfold start_ids in *. rewrite omap_app in Hnd. fold (start_ids is_) (start_ids [i]) in *.
    apply NoDup_app in Hnd as (Hnd & Hd & _). specialize (IH Hr Hnd). rewrite run_inputs_snoc.
    destruct (run_inputs is_) as [r log]. pose proof (run_input_flying (start_ids is_) r log i Hi) as Hs.
    destruct (run_input r i) as [r' es]. rewrite omap_app. apply Hs; [|done].
    apply Forall_forall. intros k Hk Hin. by apply (Hd k).
Qed.

(** ** What the panel shows of it *)

Lemma flights_acts (used : list string) (o : option string) l :
  flights used o l ->
  (forall k, (Act_started, k) ∈ l <-> k ∈ used) /\
  (forall k, (Act_completed, k) ∈ l <-> k ∈ used /\ o <> Some k) /\
  (forall k, o = Some k -> k ∈ used).
Proof.
  induction 1 as [|used k l H (I1 & I2 & I3) Hk|used k l H (I1 & I2 & I3)|used o k l H (I1 & I2 & I3)].
  - split_and!; intros k; rewrite ?elem_of_nil; [done|naive_solver|done].
  - split_and!; intros k'; rewrite ?elem_of_app, ?list_elem_of_singleton, ?I1, ?I2; [naive_solver| |naive_solver].
    split; [|naive_solver]. intros [[Hin _]|[=]]. split; [by left|]. by intros [= ->].
  - split_and!; intros k'; rewrite ?elem_of_app, ?list_elem_of_singleton, ?I1, ?I2; [naive_solver| |naive_solver].
    split; [intros [[Hin _]|[= ->]]; [done|]; split; [by apply I3|done]|].
    intros [Hin _]. destruct (decide (k' = k)) as [->|]; [by right|]. left. split; [done|congruence].
  - split_and!; intros k'; rewrite ?elem_of_app, ?list_elem_of_singleton, ?I1, ?I2; naive_solver.
Qed.

Lemma scan_events_acts (k : string) (a : ScanAct) (log : list Event) :
  (a, k) ∈ lifecycle str_other log <-> exists e, (a, e) ∈ scan_events str_other k log.
Proof.
  unfold lifecycle, scan_events. setoid_rewrite list_elem_of_omap. split.
  - intros (e & Hin & He). exists e, e. split; [done|]. rewrite He. cbn. by rewrite String.eqb_refl.
  - intros (e & e' & Hin & He). exists e'. split; [done|]. destruct (scan_act str_other e') as [[a' k']|]; [|done].
    cbn in He. destruct (String.eqb_spec k' k); [|done]. by simplify_eq.
Qed.

Lemma newest_act_None (a : ScanAct) (h : list (ScanAct * Event)) :
  newest_act a h = None <-> forall e, (a, e) ∉ h.
Proof.
  unfold newest_act. rewrite fmap_None, last_None. split.
  - intros Hf e Hin. assert ((a, e) ∈ List.filter (fun x => bool_decide (x.1 = a)) h) as Hx.
    { apply list_elem_of_In, List.filter_In. by rewrite <- list_elem_of_In, bool_decide_eq_true. }
    rewrite Hf in Hx. by apply elem_of_nil in Hx.
  - intros Hn. destruct (List.filter _ h) as [|[a' e] l] eqn:E; [done|].
    assert (List.In (a', e) (List.filter (fun x => bool_decide (x.1 = a)) h)) as [Hin Ha%bool_decide_eq_true]%List.filter_In
      by (rewrite E; by left). cbn in Ha. subst a'. destruct (Hn e). by apply list_elem_of_In.
Qed.

Lemma skip_act_key (k : string) (e : Event) (log : list Event) :
  (Act_skipped, e) ∈ scan_events str_other k log -> startswith "skip:" k = true.
Proof.
  intros Hin. assert ((Act_skipped, k) ∈ lifecycle str_other log) as (e' & _ & He)%list_elem_of_omap
    by (apply scan_events_acts; by exists e).
  revert He. unfold scan_act.
  repeat match goal with |- context [if ?b then _ else _] => destruct b; try done end. intros [= <-]. done.
Qed.

(** A run shown as running was started and not completed. *)
Lemma running_row (col : pyval -> string) (fromiso : string -> option Z) (varchar : pyval -> option string)
    (boot_id : option string) (log : list Event) (k : string) :
  (exists row, row ∈ st_scans (foldl (project str_other col fromiso varchar boot_id) empty_db log) /\
     sn_run_id row = k /\ sn_status row = Run_running) <->
  ((Act_completed, k) ∉ lifecycle str_other log) /\ exists s, head (scan_events str_other k log) = Some (Act_started, s).
Proof.
  destruct (scan_rows str_other col fromiso varchar boot_id log) as [Hnd Hm].
  rewrite scan_events_acts. split.
  - intros (row & Hrow & <- & Hs). specialize (Hm (sn_run_id row)).
    rewrite (proj2 (to_map_lookup sn_run_id _ (sn_run_id row) row Hnd)) in Hm by done. symmetry in Hm.
    apply scan_spec_status in Hm as [Hm _]. apply Hm in Hs as [Hc Hh]. rewrite newest_act_None in Hc. split; [|done].
    intros [e He]. by apply (Hc e).
  - intros [Hc Hh]. assert (exists row, scan_spec str_other k log = Some row) as [row Hrow].
    { unfold scan_spec. destruct Hh as [s ->]. by eexists. }
    specialize (Hm k). rewrite Hrow in Hm. apply to_map_lookup in Hm as [Hin Hk]; [|done]. exists row. split_and!; [done..|].
    apply (proj1 (scan_spec_status _ _ _ _ Hrow)). split; [|done]. apply newest_act_None. intros e He. apply Hc. by exists e.
Qed.

(** The first event of a run that was not completed is its start. *)
Lemma started_head (k : string) (log : list Event) :
  startswith "skip:" k = false -> (Act_started, k) ∈ lifecycle str_other log ->
  (Act_completed, k) ∉ lifecycle str_other log -> exists s, head (scan_events str_other k log) = Some (Act_started, s).
Proof.
  intros Hk Hs Hc. apply scan_events_acts in Hs as [e He]. rewrite scan_events_acts in Hc.
  destruct (scan_events str_other k log) as [|[[] s] h] eqn:E; [by apply elem_of_nil in He|by exists s| |].
  - destruct Hc. exists s. left.
  - assert (startswith "skip:" k = true); [|congruence]. apply (skip_act_key k s log). rewrite E. left.
Qed.

Lemma teardown_idle (r : Runner World) (t : Tick World) :
  rn_active (teardown float_of_str config host_name r t).1 = None.
Proof.
  unfold teardown. destruct (rn_active r) as [run|] eqn:Ea; [|done].
  pose proof (keeps_finish_run rn_active float_of_str config host_name t run (tk_job t) (tk_now t)) as Hk.
  specialize (Hk ltac:(done) ltac:(done) ltac:(done) (mkCtx (set_active None r) [] 0)).
  destruct (finish_run _ _ _ t run _ _ _) as [c o]. exact Hk.
Qed.

(** C17. The scanner panel follows the worker: as long as its events are written
    and run ids are fresh, at every moment the run in flight is the one run the
    state table has as running (so there is at most one), every run that was
    started is completed before the next one starts, whatever commands arrive,
    and after the worker is stopped no run is left running. *)
Theorem panel_follows_runner (col : pyval -> string) (fromiso : string -> option Z) (varchar : pyval -> option string)
    (boot_id : option string) (is_ : list (Input World)) :
  Forall reliable_input is_ -> NoDup (start_ids is_) ->
  Forall (fun k => startswith "skip:" k = false) (start_ids is_) ->
  let '(r, log) := run_inputs is_ in
  let rows := st_scans (foldl (project str_other col fromiso varchar boot_id) empty_db log) in
  (exists used, flights used (active_id r) (lifecycle str_other log)) /\
  (forall k, active_id r = Some k <-> exists row, row ∈ rows /\ sn_run_id row = k /\ sn_status row = Run_running) /\
  (forall t, last is_ = Some (InStop t) -> Forall (fun row => sn_status row <> Run_running) rows).
Proof.
  intros Hr Hnd Hskip. pose proof (runner_flies is_ Hr Hnd) as Hfly. destruct (run_inputs is_) as [r log] eqn:Erun.
  intros rows. destruct Hfly as [(used & Hu & Hf) _].
  destruct (flights_acts _ _ _ Hf) as (F1 & F2 & F3).
  assert (forall k, active_id r = Some k <-> exists row, row ∈ rows /\ sn_run_id row = k /\ sn_status row = Run_running) as Hact.
  { intros k. unfold rows. rewrite (running_row col fromiso varchar boot_id log k), F2.
    assert (k ∈ used -> startswith "skip:" k = false) as Hk.
    { intros Hin. rewrite Forall_forall in Hu, Hskip. by apply Hskip, Hu. }
    split.
    - intros Ho. split; [by intros [_ []]|]. apply started_head; [by apply Hk, F3 | by apply F1, F3 |].
      rewrite F2. by intros [_ []].
    - intros [Hc [s Hs]]. destruct (decide (active_id r = Some k)) as [|Hne]; [done|]. destruct Hc. split; [|done].
      apply F1, scan_events_acts. exists s.
      destruct (scan_events str_other k log); [done|]. cbn in Hs. simplify_eq. left. }
  split_and!; [by exists used | done |].
  intros t Hlast. apply Forall_forall. intros row Hrow Hrun.
  assert (active_id r = Some (sn_run_id row)) as Ha by (apply Hact; by exists row).
  apply last_Some in Hlast as [is' ->]. rewrite run_inputs_snoc in Erun. destruct (run_inputs is') as [r0 log0].
  pose proof (teardown_idle r0 t) as Ht. cbn [run_input] in Erun. destruct (teardown _ _ _ r0 t) as [r1 es]. simplify_eq.
  unfold active_id in Ha. cbn in Ht. by rewrite Ht in Ha.
Qed.
End Inputs.

(** ** Triggers and the schedule *)

Section Preserves.
Context {World : Type} (P : Runner World -> Prop).

(** The action leads from states where [P] holds to such states, also when it raises. *)
Definition preserves {A} (m : Act World A) : Prop := forall c, P (cx_runner c) -> P (cx_runner (m c).1).

Lemma preserves_ret {A} (a : A) : preserves (ret a).
Proof. by intros c. Qed.
Lemma preserves_raise {A} : preserves (@raise World A).
Proof. by intros c. Qed.
Lemma preserves_bind {A B} (m : Act World A) (k : A -> Act World B) :
  preserves m -> (forall a, preserves (k a)) -> preserves (bind m k).
Proof.
  intros Hm Hk c Hc. specialize (Hm c Hc). unfold bind. destruct (m c) as [c' [a|]]; [|done]. by apply Hk.
Qed.
Lemma preserves_get {A} (k : Runner World -> Act World A) :
  (forall c, P (cx_runner c) -> P (cx_runner (k (cx_runner c) c).1)) -> preserves (bind get k).
Proof. intros H c Hc. by apply H. Qed.
Lemma preserves_modify (f : Runner World -> Runner World) : (forall r, P r -> P (f r)) -> preserves (modify f).
Proof. intros Hf c. apply Hf. Qed.
Lemma preserves_guard (m : Act World unit) : (forall r, P r -> P (set_failed r)) -> preserves m -> preserves (guard m).
Proof.
  intros Hf Hm c Hc. specialize (Hm c Hc). unfold guard. destruct (m c) as [c' [a|]]; [done|]. by apply Hf.
Qed.
Lemma preserves_each {A} (f : A -> Act World unit) (l : list A) : (forall x, preserves (f x)) -> preserves (each f l).
Proof. intros Hf. induction l as [|x l IH]; [apply preserves_ret|]. by apply preserves_bind. Qed.
Lemma preserves_emit (t : Tick World) (a : EventArgs) : preserves (emit t a).
Proof. intros c Hc. unfold emit. destruct (build_event _ _ a); [|done]. by destruct (tk_emit t _). Qed.
Lemma preserves_emit_skipped host adapters (t : Tick World) (name reason : string) :
  preserves (emit_skipped host adapters t name reason).
Proof. unfold emit_skipped. destruct (adapter_named adapters name); [apply preserves_emit | apply preserves_raise]. Qed.
End Preserves.

Section Cadence.
Context {World : Type} (float_of_str : string -> option Q) (str_other : pyval -> string)
        (config : dict) (host_name : string) (adapters : list (ScannerAdapter World)).
Variables (n : string) (due : Q).

(** The scanner's slot stands, and no run in flight claimed it. *)
Definition slot_stands (r : Runner World) : Prop :=
  rn_scheduled r = true /\ rn_next_due r !! n = Some due /\
  forall run, rn_active r = Some run -> ru_scanner run = n -> ru_scheduled run = false.

Ltac slot := intros ? (? & ? & ?); split_and!; cbn; try done; try (by rewrite lookup_insert_ne).

Lemma skip_slot_stands (t : Tick World) (name reason : string) (consume : bool) :
  (name <> n \/ consume = false) ->
  preserves slot_stands (skip_slot float_of_str config host_name adapters t name reason consume).
Proof.
  intros Hc. apply preserves_bind; [apply preserves_emit_skipped|]. intros _.
  apply preserves_bind; [apply preserves_modify; slot|]. intros _. destruct consume; [|apply preserves_ret].
  destruct Hc as [Hn|]; [|done]. apply preserves_modify. slot.
Qed.

Lemma start_run_stands (t : Tick World) (name : string) (scheduled : bool) :
  (name <> n \/ scheduled = false) ->
  preserves slot_stands (start_run float_of_str config host_name adapters t name scheduled).
Proof.
  intros Hc. unfold start_run. apply preserves_bind; [apply preserves_modify; slot|]. intros _.
  destruct (adapter_named adapters name) as [a|]; [|apply preserves_raise].
  destruct (negb _); [by apply skip_slot_stands|]. destruct (default _ _); [by apply skip_slot_stands|].
  destruct (ad_argv a _ _) as [argv|]; [|by apply skip_slot_stands].
  apply preserves_bind.
  { destruct scheduled; [|apply preserves_ret]. destruct Hc as [Hn|]; [|done]. apply preserves_modify. slot. }
  intros _. apply preserves_bind; [apply preserves_emit|]. intros _. destruct (tk_thread t); [|apply preserves_raise].
  apply preserves_modify. slot. intros run [= <-]. cbn. by destruct Hc.
Qed.

Lemma finish_run_stands (t : Tick World) (run : ActiveRun World) reported now :
  (ru_scanner run <> n \/ ru_scheduled run = false) ->
  preserves slot_stands (finish_run float_of_str config host_name t run reported now).
Proof.
  intros Hc. unfold finish_run. destruct (judge run _) as [[outcome reason] findings].
  apply preserves_bind; [apply preserves_guard; [slot|]; apply preserves_each; intros f; apply preserves_emit|]. intros _.
  apply preserves_bind; [apply preserves_guard; [slot|]; apply preserves_emit|]. intros _.
  destruct (ru_scheduled run); [|apply preserves_ret]. destruct Hc as [Hn|]; [|done].
  apply preserves_guard; [slot|]. unfold reschedule. apply preserves_get. intros c Hc.
  destruct (_ && _); (apply preserves_bind; [apply preserves_modify; slot|intros _; apply preserves_modify; slot|done]).
Qed.

Lemma tick_stands (t : Tick World) (name : string) :
  Qle_bool due (tk_now t) = false ->
  preserves slot_stands (tick_scanner float_of_str config host_name adapters t name).
Proof.
  intros Hd. unfold tick_scanner. destruct (enabled config name); [|apply preserves_ret]. apply preserves_get. intros c Hc.
  cbn [negb]. destruct (negb _ && negb _); [done|]. destruct (rn_active (cx_runner c)).
  - destruct (Qle_bool (default _ _) _); [|exact Hc]. unfold notify_in_flight. revert c Hc.
    apply preserves_get. intros c Hc. destruct (bool_decide _); [exact Hc|].
    apply preserves_bind; [apply preserves_modify; slot | intros _; apply preserves_emit_skipped | done].
  - destruct (decide (name = n)) as [->|Hn]; [|by apply start_run_stands; [left|]].
    destruct Hc as (H1 & H2 & H3). rewrite H2. change (default 0%Q (Some due)) with due. rewrite Hd. apply start_run_stands; [by right|done].
Qed.

Lemma step_stands (t : Tick World) :
  Qle_bool due (tk_now t) = false -> preserves slot_stands (step float_of_str config host_name adapters t).
Proof.
  intros Hd. unfold step. apply preserves_bind.
  { apply preserves_modify. intros r Hr. pose proof Hr as (-> & _). exact Hr. }
  intros _. apply preserves_bind.
  - unfold finish_done. apply preserves_get. intros c Hc. destruct (rn_active (cx_runner c)) as [run|] eqn:Ea; [|done].
    destruct (tk_job t) as [result|]; [|done].
    apply preserves_bind; [apply preserves_modify; slot | intros _ | done]. apply finish_run_stands.
    destruct (decide (ru_scanner run = n)) as [E|]; [|by left]. right. by apply (proj2 (proj2 Hc)).
  - intros _. apply preserves_each. intros name. by apply tick_stands.
Qed.

Definition before_due (i : Input World) : Prop :=
  match input_tick i with Some t => Qle_bool due (tk_now t) = false | None => True end.

(** A trigger never postpones a scheduled scan: once a scanner's slot is set
    and no run in flight claimed it, the slot stays exactly where it is through
    any number of commands, ticks, triggered runs, skips and failures that
    happen before it, whichever events could be written. *)
Theorem triggers_keep_cadence (r : Runner World) (is_ : list (Input World)) :
  slot_stands r -> Forall before_due is_ ->
  slot_stands (foldl (fun r i => (run_input float_of_str str_other config host_name adapters r i).1) r is_).
Proof.
  intros Hr Hb. revert r Hr. induction Hb as [|i is_ Hi _ IH]; intros r Hr; [done|]. cbn [foldl]. apply IH.
  destruct i as [t|command args|t]; cbn [run_input fst].
  - unfold run_step. pose proof (preserves_guard slot_stands _ ltac:(slot) (step_stands t Hi) (mkCtx r [] 0) Hr) as H.
    by destruct (guard _ _).
  - unfold handle_command. destruct (negb _); [done|]. destruct (adapter_named _ _); [|done]. destruct (negb _); [done|].
    revert r Hr. slot.
  - unfold teardown. destruct (rn_active r) as [run|] eqn:Ea; [|done].
    assert (ru_scanner run <> n \/ ru_scheduled run = false) as Hrun.
    { destruct (decide (ru_scanner run = n)) as [E|]; [|by left]. right. by apply (proj2 (proj2 Hr)). }
    pose proof (finish_run_stands t run (tk_job t) (tk_now t) Hrun (mkCtx (set_active None r) [] 0)) as H.
    destruct (finish_run _ _ _ _ _ _ _ _). apply H. clear -Hr. revert r Hr. slot.
Qed.
End Cadence.

(** ** A due scanner is never silent *)

Section Silent.
Context {World : Type} (float_of_str : string -> option Q) (config : dict) (host_name : string)
        (adapters : list (ScannerAdapter World)) (t : Tick World).
Hypothesis names_ok : Forall (fun a => ad_name a <> EmptyString) adapters.
Hypothesis Hrel : reliable t.

(** What more events, and changes to a scanner's own entries, leave true. *)
Record stable_under (name : string) (K : Ctx World -> Prop) : Prop := {
  st_emit : forall c e, K c -> K (mkCtx (cx_runner c) (cx_log c ++ [e]) (S (cx_tries c)));
  st_due : forall c q, K c -> K (mkCtx (set_due name q (cx_runner c)) (cx_log c) (cx_tries c));
  st_retried : forall c b, K c -> K (mkCtx (set_retried name b (cx_runner c)) (cx_log c) (cx_tries c));
  st_notified : forall c, K c -> K (mkCtx (set_notified name (cx_runner c)) (cx_log c) (cx_tries c));
  st_trigger : forall c, K c -> K (mkCtx (drop_trigger name (cx_runner c)) (cx_log c) (cx_tries c));
  st_active : forall c a, K c -> K (mkCtx (set_active a (cx_runner c)) (cx_log c) (cx_tries c));
}.

Lemma stable_emit (name : string) (K : Ctx World -> Prop) (a : EventArgs) :
  stable_under name K -> (forall n, is_Some (build_event (tk_clock t n) (tk_ids t n) a)) -> triple K (emit t a) K.
Proof.
  intros HK Ha c Hc. destruct (Ha (cx_tries c)) as [e He]. rewrite (emit_spec t a c e Hrel He). eexists.
  split; [reflexivity|]. by apply (st_emit name K HK).
Qed.

Lemma stable_skipped (name other reason : string) (K : Ctx World -> Prop) :
  stable_under name K -> is_Some (adapter_named adapters other) -> triple K (emit_skipped host_name adapters t other reason) K.
Proof. intros HK [a Ha]. unfold emit_skipped. rewrite Ha. eapply stable_emit; [done|]. by eexists. Qed.

Lemma stable_skip_slot (name reason : string) (consume : bool) (K : Ctx World -> Prop) :
  stable_under name K -> is_Some (adapter_named adapters name) ->
  triple K (skip_slot float_of_str config host_name adapters t name reason consume) K.
Proof.
  intros HK Ha. eapply triple_bind; [by eapply stable_skipped|]. eapply triple_bind; [apply triple_modify; intros c0; by apply (st_retried name K HK)|].
  destruct consume; [|apply triple_ret]. apply triple_modify. intros c. by apply (st_due name K HK).
Qed.

Lemma stable_start (name : string) (scheduled : bool) (K : Ctx World -> Prop) :
  stable_under name K -> is_Some (adapter_named adapters name) ->
  triple K (start_run float_of_str config host_name adapters t name scheduled) K.
Proof.
  intros HK Ha. unfold start_run. eapply (triple_bind _ K); [apply triple_modify; intros c0; by apply (st_trigger name K HK)|].
  pose proof Ha as [a Ea]. rewrite Ea. destruct (negb _); [by apply stable_skip_slot|].
  destruct (default _ _); [by apply stable_skip_slot|]. destruct (ad_argv a _ _) as [argv|]; [|by apply stable_skip_slot].
  eapply (triple_bind _ K).
  { destruct scheduled; [apply triple_modify; intros c; by apply (st_due name K HK) | apply triple_ret]. }
  eapply triple_bind; [by eapply stable_emit|]. rewrite (proj1 Hrel). apply triple_modify. intros c. by apply (st_active name K HK).
Qed.

Lemma stable_notify (name : string) (K : Ctx World -> Prop) :
  stable_under name K -> is_Some (adapter_named adapters name) -> triple K (notify_in_flight host_name adapters t name) K.
Proof.
  intros HK Ha. unfold notify_in_flight. apply triple_get. intros c Hc. destruct (bool_decide _); [by exists c|].
  eapply (triple_bind _ K); [apply triple_modify; intros c'; by apply st_notified | by eapply stable_skipped | done].
Qed.

Lemma stable_tick (name : string) (K : Ctx World -> Prop) :
  stable_under name K -> name ∈ ad_name <$> adapters ->
  triple K (tick_scanner float_of_str config host_name adapters t name) K.
Proof.
  intros HK Hn. destruct (adapter_named_in adapters names_ok name Hn) as [Ha _].
  unfold tick_scanner. destruct (enabled config name); [|apply triple_ret]. apply triple_get. intros c Hc. cbn [negb].
  destruct (negb _ && negb _); [by exists c|]. destruct (rn_active (cx_runner c)); [|by apply stable_start].
  destruct (Qle_bool _ _); [by apply stable_notify | by exists c].
Qed.

Lemma stable_finish (run : ActiveRun World) reported now (K : Ctx World -> Prop) (name : string) :
  stable_under name K -> (ru_scheduled run = true -> stable_under (ru_scanner run) K) ->
  triple K (finish_run float_of_str config host_name t run reported now) K.
Proof.
  intros HK Hs. unfold finish_run. destruct (judge run _) as [[outcome reason] findings].
  eapply (triple_bind _ K).
  { apply triple_guard, triple_each. intros f _. by eapply stable_emit. }
  eapply (triple_bind _ K).
  { apply triple_guard. eapply stable_emit; [done|]. intros n. by destruct (bool_decide _); eexists. }
  destruct (ru_scheduled run); [|apply triple_ret]. specialize (Hs eq_refl). apply triple_guard. unfold reschedule.
  apply triple_get. intros c Hc. destruct (_ && _);
    (eapply (triple_bind _ K); [apply triple_modify; intros c0; by apply (st_retried _ K Hs)
                               | apply triple_modify; intros c0; by apply (st_due _ K Hs) | done]).
Qed.

(** An event that says what became of a scanner's due run. *)
Definition says (name : string) (e : Event) : Prop :=
  raw_field "scanner" e = PStr name /\ (ev_action e = "scan_started"%string \/ ev_action e = "scan_skipped"%string).

(** The scanner is due, and was or was not told of a run in flight. *)
Definition still_due (name : string) (told : bool) (c : Ctx World) : Prop :=
  Qle_bool (default 0%Q (rn_next_due (cx_runner c) !! name)) (tk_now t) = true /\
  bool_decide (name ∈ rn_notified (cx_runner c)) = told.
Definition answered (name : string) (told : bool) (c : Ctx World) : Prop :=
  told = true \/ exists e, e ∈ cx_log c /\ says name e.

Lemma answered_stable (name other : string) (told : bool) : stable_under other (answered name told).
Proof.
  split; intros c; try done. intros e [H|(x & Hx & Hs)]; [by left|]. right. exists x. split; [|done].
  apply elem_of_app. by left.
Qed.

Lemma still_due_stable (name other : string) (told : bool) : other <> name -> stable_under other (still_due name told).
Proof.
  intros Hne. split; intros c; try done; unfold still_due; cbn.
  - intros q [H1 H2]. rewrite lookup_insert_ne by done. split; [done|]. rewrite <- H2. apply bool_decide_ext.
    rewrite elem_of_difference, elem_of_singleton. naive_solver.
  - intros [H1 H2]. split; [done|]. rewrite <- H2. apply bool_decide_ext. rewrite elem_of_union, elem_of_singleton. naive_solver.
Qed.

(** An emission answers. *)
Lemma emit_answers (name : string) (told : bool) (a : EventArgs) (K : Ctx World -> Prop) :
  (forall n, exists e, build_event (tk_clock t n) (tk_ids t n) a = Some e /\ says name e) ->
  triple K (emit t a) (answered name told).
Proof.
  intros Ha c Hc. destruct (Ha (cx_tries c)) as (e & He & Hs). rewrite (emit_spec t a c e Hrel He).
  eexists. split; [reflexivity|]. right. exists e. split; [|done]. apply elem_of_app. right. by apply list_elem_of_singleton.
Qed.

Lemma skipped_answers (name reason : string) (told : bool) (K : Ctx World -> Prop) :
  is_Some (adapter_named adapters name) -> triple K (emit_skipped host_name adapters t name reason) (answered name told).
Proof.
  intros [a Ha]. unfold emit_skipped. rewrite Ha. apply emit_answers. intros n. eexists. split; [reflexivity|].
  split; [done|by right].
Qed.

Lemma skip_slot_answers (name reason : string) (consume told : bool) (K : Ctx World -> Prop) :
  is_Some (adapter_named adapters name) ->
  triple K (skip_slot float_of_str config host_name adapters t name reason consume) (answered name told).
Proof.
  intros Ha. eapply (triple_bind _ (answered name told)); [by apply skipped_answers|].
  eapply (triple_bind _ (answered name told)); [apply triple_modify; by intros c|].
  destruct consume; [|apply triple_ret]. apply triple_modify. by intros c.
Qed.

Lemma start_answers (name : string) (scheduled told : bool) (K : Ctx World -> Prop) :
  is_Some (adapter_named adapters name) ->
  triple K (start_run float_of_str config host_name adapters t name scheduled) (answered name told).
Proof.
  intros Ha. unfold start_run. eapply (triple_bind _ (fun _ => True)); [by apply triple_modify|].
  pose proof Ha as [a Ea]. rewrite Ea. destruct (negb _); [by apply skip_slot_answers|].
  destruct (default _ _); [by apply skip_slot_answers|]. destruct (ad_argv a _ _) as [argv|]; [|by apply skip_slot_answers].
  eapply (triple_bind _ (fun _ => True)); [destruct scheduled; [by apply triple_modify | apply triple_ret]|].
  eapply (triple_bind _ (answered name told)).
  { apply emit_answers. intros n. eexists. split; [reflexivity|]. split; [done|by left]. }
  rewrite (proj1 Hrel). apply triple_modify. by intros c.
Qed.

Lemma tick_answers (name : string) (told : bool) :
  enabled config name = true -> name ∈ ad_name <$> adapters ->
  triple (still_due name told) (tick_scanner float_of_str config host_name adapters t name) (answered name told).
Proof.
  intros He Hn. destruct (adapter_named_in adapters names_ok name Hn) as [Ha _]. unfold tick_scanner. rewrite He.
  apply triple_get. intros c [H1 H2]. cbn [negb]. rewrite H1, andb_false_r.
  destruct (rn_active (cx_runner c)); [|by apply (start_answers name true told (fun _ => True))].
  unfold notify_in_flight, bind at 1, get. rewrite H2. destruct told; [exists c; split; [done|by left]|].
  eapply (triple_bind (fun _ => True) (fun _ => True)); [by apply triple_modify | by apply skipped_answers | done].
Qed.

Lemma triple_each_app {A} (f : A -> Act World unit) (P R : Ctx World -> Prop) (l1 l2 : list A) (x : A) Q :
  (forall y, y ∈ l1 -> triple P (f y) P) -> triple P (f x) Q -> (forall y, y ∈ l2 -> triple Q (f y) Q) ->
  (forall c, Q c -> R c) -> triple P (each f (l1 ++ x :: l2)) R.
Proof.
  intros H1 Hx H2 HR. induction l1 as [|y l1 IH]; cbn [app each].
  - eapply triple_bind; [exact Hx|]. eapply triple_conseq; [by apply triple_each | done | done].
  - eapply triple_bind; [apply H1; left|]. apply IH. intros z Hz. apply H1. by right.
Qed.

(** A due scanner is never silent: in a tick in which an enabled scanner's
    slot is due (unless the tick only now completes the run that claimed it),
    the worker emits an event that says the scan started or why it was skipped,
    or it has already said so for this slot. *)
Theorem due_scanner_not_silent (r : Runner World) (name : string) :
  rn_scheduled r = true -> name ∈ ad_name <$> adapters -> enabled config name = true ->
  Qle_bool (default 0%Q (rn_next_due r !! name)) (tk_now t) = true ->
  (forall run, rn_active r = Some run -> ru_scheduled run = true -> ru_scanner run <> name) ->
  let '(r', events) := run_step float_of_str config host_name adapters r t in
  (name ∈ rn_notified r) \/ exists e, e ∈ events /\ says name e.
Proof.
  intros Hs Hn He Hd Hrun. set (told := bool_decide (name ∈ rn_notified r)).
  assert (triple (fun c => c = mkCtx r [] 0) (guard (step float_of_str config host_name adapters t)) (answered name told)) as Ht.
  { apply triple_guard. unfold step. eapply (triple_bind _ (fun c => c = mkCtx r [] 0)).
    { apply triple_modify. intros c ->. cbn. by rewrite Hs. }
    eapply (triple_bind _ (still_due name told)).
    - unfold finish_done. apply triple_get. intros c ->. cbn [cx_runner].
      destruct (rn_active r) as [run|] eqn:Ea; [|by exists (mkCtx r [] 0)].
      destruct (tk_job t) as [result|]; [|by exists (mkCtx r [] 0)].
      assert (exists other, other <> name) as [other Ho].
      { destruct (decide (name = EmptyString)) as [->|]; [by exists "x"%string | by exists EmptyString]. }
      eapply (triple_bind (still_due name told) (still_due name told)); [| |done].
      + apply triple_modify. by intros c.
      + apply (stable_finish run _ _ _ other); [by apply still_due_stable|]. intros Hsch.
        apply still_due_stable. by apply Hrun.
    - assert (name ∈ scanner_names adapters) as (l1 & l2 & E & Hl)%list_elem_of_split_l.
      { unfold scanner_names. by rewrite merge_sort_Permutation. }
      assert (forall y, y ∈ scanner_names adapters -> y ∈ ad_name <$> adapters) as Hin.
      { intros y. unfold scanner_names. by rewrite merge_sort_Permutation. }
      rewrite E in Hin |- *. eapply (triple_each_app _ _ _ _ _ _ (answered name told)); [| | |done].
      + intros y Hy. apply stable_tick; [apply still_due_stable; by intros -> | apply Hin; apply elem_of_app; by left].
      + by apply tick_answers.
      + intros y Hy. apply stable_tick; [apply answered_stable | apply Hin; apply elem_of_app; right; by right]. }
  unfold run_step. destruct (Ht _ eq_refl) as (c & E & Ha). rewrite E.
  destruct Ha as [Hb|He']; [left; by apply bool_decide_eq_true in Hb | by right].
Qed.

(** ** What a completion says *)

(** [fs] were written after [log0]. *)
Definition wrote (log0 : list Event) (n : nat) (c : Ctx World) : Prop :=
  exists fs, cx_log c = log0 ++ fs /\ length fs = n /\ Forall (fun e => ev_action e = "scan_finding"%string) fs.

Lemma each_finding_wrote (run : ActiveRun World) (log0 : list Event) (l : list ScanFinding) (n : nat) :
  triple (wrote log0 n) (each (emit_finding host_name t run) l) (wrote log0 (n + length l)).
Proof.
  revert n. induction l as [|f l IH]; intros n; cbn [each length].
  - rewrite Nat.add_0_r. apply triple_ret.
  - eapply (triple_bind _ (wrote log0 (S n))); [|replace (n + S (length l))%nat with (S n + length l)%nat by lia; apply IH].
    intros c (fs & Hl & Hn & Hf). unfold emit_finding. eexists. erewrite emit_spec; [|done|reflexivity].
    split; [reflexivity|]. eexists. cbn [cx_log]. rewrite Hl, <- app_assoc. split; [reflexivity|]. rewrite length_app. cbn.
    split; [lia|]. apply Forall_app. split; [done|]. by constructor.
Qed.

Lemma completed_raw_counts (run : ActiveRun World) outcome reason result d n m :
  dict_get "finding_count" (completed_raw run outcome reason result d n m) = PInt n /\
  dict_get "findings_dropped" (completed_raw run outcome reason result d n m) = PInt m.
Proof. unfold completed_raw, prune. by destruct reason, (rs_exit_code result), (rs_error result). Qed.

Lemma finish_run_wrote (run : ActiveRun World) (reported : option ScanResult) (now : Q) (c : Ctx World) :
  let '(outcome, reason, findings) := judge run (default UNREPORTED reported) in
  let shown := length (take (Z.to_nat (max_findings config)) findings) in
  exists c' fs e, finish_run float_of_str config host_name t run reported now c = (c', Some tt) /\
    cx_log c' = cx_log c ++ fs ++ [e] /\ length fs = shown /\ Forall (fun e => ev_action e = "scan_finding"%string) fs /\
    ev_action e = "scan_completed"%string /\ raw_field "scan_outcome" e = PStr (outcome_text outcome) /\
    raw_field "finding_count" e = PInt (Z.of_nat shown) /\
    raw_field "findings_dropped" e = PInt (Z.of_nat (length findings) - Z.of_nat shown).
Proof.
  unfold finish_run. destruct (judge run _) as [[outcome reason] findings]. cbv zeta.
  set (emitted := take _ findings).
  destruct (triple_guard _ _ _ (each_finding_wrote run (cx_log c) emitted 0) c) as (c1 & E1 & fs & Hl & Hn & Hf).
  { exists []. by rewrite app_nil_r. }
  unfold bind at 1. rewrite E1. unfold bind at 1, guard at 1, emit_completed.
  destruct (bool_decide (outcome = SO_failure)); (erewrite emit_spec; [|done|reflexivity]); cbn [fst snd];
    (match goal with |- context [mkCtx _ (_ ++ [?e]) _] => set (ev := e) end);
    (set (c2 := mkCtx _ _ _);
     assert (exists c3, (if ru_scheduled run then guard (reschedule float_of_str config (ru_scanner run) outcome reason now) else ret tt) c2
               = (c3, Some tt) /\ cx_log c3 = cx_log c2) as (c3 & E3 & Hl3);
     [ destruct (ru_scheduled run); [|by exists c2]; unfold guard, reschedule, bind, get, modify, consume_slot;
       destruct (_ && _); eexists; split; reflexivity
     | exists c3, fs, ev; rewrite E3; split; [done|]; rewrite Hl3; cbn [c2 cx_log]; rewrite Hl, <- app_assoc;
       destruct (completed_raw_counts run outcome reason (default UNREPORTED reported)
         (if Qle_bool (now - ru_started_at run) 0 then 0 else now - ru_started_at run)%Q (Z.of_nat (length emitted))
         (Z.of_nat (length findings) - Z.of_nat (length emitted))) as [R1 R2]; by split_and! ]).
Qed.

Lemma judge_spec (run : ActiveRun World) (result : ScanResult) :
  let '(outcome, reason, findings) := judge run result in
  match outcome with
  | SO_failure => is_Some reason /\ findings = []
  | _ =>
      reason = None /\ pre_exit_failure_reason result = None /\
      (exists code, rs_exit_code result = Some code /\
         ad_interpret_outcome (ru_adapter run) code (rs_stdout result) (rs_stderr result) = Some outcome) /\
      ad_parse (ru_adapter run) (rs_stdout result) (rs_stderr result) = Some findings
  end.
Proof.
  unfold judge, classify. destruct (pre_exit_failure_reason result) as [reason|]; [by split; [eexists|]|].
  destruct (rs_exit_code result) as [code|]; [|by split; [eexists|]].
  destruct (ad_interpret_outcome _ code _ _) as [[]|] eqn:Ei; [| | |by split; [eexists|]]; cbn.
  - destruct (ad_parse _ _ _) as [fs|]; cbn; [split_and!; eauto | by split; [eexists|]].
  - destruct (ad_parse _ _ _) as [fs|]; cbn; [split_and!; eauto | by split; [eexists|]].
  - by split; [eexists|].
Qed.

(** A completion is trustworthy. A run is reported clean or with findings
    only if its process was started, was neither killed nor timed out, its
    exit status and output mean so to its adapter and the output could be
    parsed; any other end is a failure with a reason and no findings. The
    worker emits the first [max_findings] findings and then exactly one
    completion, which counts them and those dropped. *)
Theorem completion_trustworthy (run : ActiveRun World) (reported : option ScanResult) (now : Q) (c : Ctx World) :
  let result := default UNREPORTED reported in
  let '(outcome, reason, findings) := judge run result in
  (outcome <> SO_failure ->
     rs_unreported result = false /\ rs_error result = None /\ rs_timed_out result = false /\
     rs_cancelled result = false /\
     (exists code, rs_exit_code result = Some code /\
        ad_interpret_outcome (ru_adapter run) code (rs_stdout result) (rs_stderr result) = Some outcome) /\
     ad_parse (ru_adapter run) (rs_stdout result) (rs_stderr result) = Some findings) /\
  (outcome = SO_failure -> is_Some reason /\ findings = []) /\
  let shown := length (take (Z.to_nat (max_findings config)) findings) in
  exists c' fs e, finish_run float_of_str config host_name t run reported now c = (c', Some tt) /\
    cx_log c' = cx_log c ++ fs ++ [e] /\ length fs = shown /\ Forall (fun e => ev_action e = "scan_finding"%string) fs /\
    ev_action e = "scan_completed"%string /\ raw_field "scan_outcome" e = PStr (outcome_text outcome) /\
    raw_field "finding_count" e = PInt (Z.of_nat shown) /\
    raw_field "findings_dropped" e = PInt (Z.of_nat (length findings) - Z.of_nat shown).
Proof.
  intros result. pose proof (finish_run_wrote run reported now c) as Hw. pose proof (judge_spec run result) as Hj.
  fold result in Hw. destruct (judge run result) as [[outcome reason] findings].
  split; [|split; [|exact Hw]].
  - intros Ho. assert (pre_exit_failure_reason result = None /\ (exists code, rs_exit_code result = Some code /\
      ad_interpret_outcome (ru_adapter run) code (rs_stdout result) (rs_stderr result) = Some outcome) /\
      ad_parse (ru_adapter run) (rs_stdout result) (rs_stderr result) = Some findings) as (Hp & Hc & Hq)
      by (destruct outcome; [apply Hj..|done]).
    unfold pre_exit_failure_reason in Hp. destruct (rs_unreported result); [done|].
    destruct (rs_error result); [done|]. cbn in Hp. destruct (rs_timed_out result); [done|].
    by destruct (rs_cancelled result).
  - intros ->. apply Hj.
Qed.
End Silent.

Module RunnerExample.

Definition aide : ScannerAdapter unit :=
  mkAdapter "aide" "aide" (fun _ _ => Some ["aide"; "--check"]%string) (fun _ _ => Some None)
    (fun code _ _ => Some (if code =? 0 then SO_clean else SO_findings))
    (fun out _ => Some (if String.eqb out EmptyString then []
                        else [mkScanFinding "aide_change" "changed" out "file" (Some "/etc/x"%string) None None None])).
Definition config : dict :=
  [("scanners", PDict [("aide", PDict [("enabled", PBool true)])]); ("startup_delay_s", PInt 0)]%string.
Definition result : ScanResult := mkScanResult (Some 4) "f" EmptyString false false None false 0.
Definition tick (now : Z) (job : option ScanResult) (id : string) : Tick unit :=
  mkTick (inject_Z now) job (fun _ => true) tt id true (fun _ => now) (fun n => str_of_nat n) (fun _ => true).
Definition inputs : list (Input unit) :=
  [InTick (tick 1 None "r1"); InTick (tick 2 (Some result) "r2"); InCommand "run_scanner" [("name"%string, PStr "aide")];
   InTick (tick 3 None "r3")].
Definition no_float (_ : string) : option Q := None.
Definition no_str (_ : pyval) : string := EmptyString.
Definition col (v : pyval) : string := py_str no_str v.
Definition no_time (_ : string) : option Z := None.
Definition no_col (_ : pyval) : option string := None.
Definition idle : Runner unit := mkRunner None {["aide"%string := inject_Z 5]} ∅ ∅ true ∅ false.
Definition run1 : ActiveRun unit := mkRun "aide" aide "r1" 0 [] 0 0 true.
End RunnerExample.

Lemma panel_follows_runner_witness :
  let '(r, log) := run_inputs RunnerExample.no_float RunnerExample.no_str RunnerExample.config "h" [RunnerExample.aide] RunnerExample.inputs in
  let rows := st_scans (foldl (project RunnerExample.no_str RunnerExample.col RunnerExample.no_time RunnerExample.no_col None) empty_db log) in
  active_id r = Some "r3"%string /\
  (exists row, row ∈ rows /\ sn_run_id row = "r3"%string /\ sn_status row = Run_running).
Proof.
  pose proof (panel_follows_runner RunnerExample.no_float RunnerExample.no_str RunnerExample.config "h" [RunnerExample.aide]
    ltac:(repeat constructor; discriminate) RunnerExample.col RunnerExample.no_time RunnerExample.no_col None RunnerExample.inputs) as H.
  assert (E : active_id (run_inputs RunnerExample.no_float RunnerExample.no_str RunnerExample.config "h" [RunnerExample.aide]
    RunnerExample.inputs).1 = Some "r3"%string) by (vm_compute; reflexivity).
  destruct (run_inputs _ _ _ _ _ _) as [r log]. split; [exact E|]. apply H.
  - repeat constructor; discriminate.
  - by apply (bool_decide_unpack _).
  - repeat constructor.
  - exact E.
Defined.

Lemma triggers_keep_cadence_witness :
  let r := foldl (fun r i => (run_input RunnerExample.no_float RunnerExample.no_str RunnerExample.config "h" [RunnerExample.aide] r i).1)
             RunnerExample.idle [InCommand "run_scanner" [("name"%string, PStr "aide")]; InTick (RunnerExample.tick 3 None "r3")] in
  active_id r = Some "r3"%string /\ rn_next_due r !! "aide"%string = Some (inject_Z 5).
Proof.
  intros r. split; [vm_compute; reflexivity|].
  destruct (triggers_keep_cadence RunnerExample.no_float RunnerExample.no_str RunnerExample.config "h" [RunnerExample.aide]
    "aide" (inject_Z 5) RunnerExample.idle
    [InCommand "run_scanner" [("name"%string, PStr "aide")]; InTick (RunnerExample.tick 3 None "r3")]) as (_ & H & _).
  - split; [reflexivity|]. split; [reflexivity|]. discriminate.
  - repeat constructor.
  - exact H.
Defined.

Lemma due_scanner_not_silent_witness :
  let '(r', events) := run_step RunnerExample.no_float RunnerExample.config "h" [RunnerExample.aide] RunnerExample.idle
                         (RunnerExample.tick 9 None "r9") in
  exists e, e ∈ events /\ says "aide" e.
Proof.
  pose proof (due_scanner_not_silent RunnerExample.no_float RunnerExample.config "h" [RunnerExample.aide] (RunnerExample.tick 9 None "r9")
    ltac:(repeat constructor; discriminate) ltac:(repeat constructor; discriminate) RunnerExample.idle "aide"
    eq_refl ltac:(left) eq_refl eq_refl ltac:(discriminate)) as H.
  destruct (run_step _ _ _ _ _ _) as [r' events]. destruct H as [H|H]; [|exact H].
  exfalso. revert H. apply not_elem_of_empty.
Defined.

Lemma completion_trustworthy_witness :
  exists c' fs e, finish_run RunnerExample.no_float RunnerExample.config "h" (RunnerExample.tick 9 None "r9") RunnerExample.run1
      (Some RunnerExample.result) 9 (mkCtx RunnerExample.idle [] 0) = (c', Some tt) /\
    cx_log c' = fs ++ [e] /\ length fs = 1%nat /\ raw_field "scan_outcome" e = PStr "findings".
Proof.
  destruct (completion_trustworthy RunnerExample.no_float RunnerExample.config "h" (RunnerExample.tick 9 None "r9")
    ltac:(repeat constructor; discriminate) RunnerExample.run1 (Some RunnerExample.result) 9 (mkCtx RunnerExample.idle [] 0))
    as (_ & _ & c' & fs & e & H1 & H2 & H3 & _ & _ & H4 & _).
  exists c', fs, e. by split_and!.
Defined.
