(* ===== verification/ScanJob.v ===== *)
(** * One scan: its output, its process group, its threads
      ([workers/scanner_runner/runner.py])

    The bounded sink each reader thread fills, the signals of a kill, the
    result a job reports, and the job thread running against a shutdown that
    cancels it, as a step relation over their interleavings. A sink holds bytes;
    [decode] is the UTF-8 decoding of them. *)

From S2P Require Import Prelude Schemas ScannerRunner.

(** ** [_BoundedSink] *)

Record BoundedSink := mkSink {
  sk_limit : Z;
  sk_chunks : list string;
  sk_kept : Z;
  sk_dropped : Z;
}.
Definition str_len (s : string) : Z := Z.of_nat (String.length s).

Definition sink_init (limit : Z) : BoundedSink := mkSink (Z.max 0 limit) [] 0 0.

(** [write], of the encoded chunk. *)
Definition sink_write (s : BoundedSink) (data : string) : BoundedSink :=
  let room := sk_limit s - sk_kept s in
  if 0 <? room
  then let keep := str_take (Z.to_nat room) data in
       mkSink (sk_limit s) (sk_chunks s ++ [keep]) (sk_kept s + str_len keep)
         (sk_dropped s + str_len (str_drop (String.length keep) data))
  else mkSink (sk_limit s) (sk_chunks s) (sk_kept s) (sk_dropped s + str_len data).

Definition concat_str (l : list string) : string := foldr String.append EmptyString l.
Definition sink_snapshot (decode : string -> string) (s : BoundedSink) : string * Z :=
  (decode (concat_str (sk_chunks s)), sk_dropped s).

(** [_drain_into]: every chunk up to end of file; a read error ends it. *)
Fixpoint drain_into (reads : list (option string)) (s : BoundedSink) : BoundedSink :=
  match reads with
  | [] | None :: _ => s
  | Some chunk :: rest => if String.eqb chunk EmptyString then s else drain_into rest (sink_write s chunk)
  end.

(** ** Killing a process group *)

Inductive Signal := SIGTERM | SIGKILL.
#[export] Instance Signal_eq_dec : EqDecision Signal.
Proof. solve_decision. Defined.

(** To the group when its id is known and the kernel accepts the signal,
    otherwise to the child. *)
Inductive Target := ToGroup (pgid : Z) | ToChild.
Definition signal_process_group (pgid_of : option Z) (killpg_ok : bool) (sig : Signal) : Target * Signal :=
  match pgid_of with
  | Some pgid => if killpg_ok then (ToGroup pgid, sig) else (ToChild, sig)
  | None => (ToChild, sig)
  end.

(** The signals sent; [exits_on_term] is what the first wait says. *)
Definition kill_process_group (pgid_of : option Z) (killpg_ok exits_on_term : bool) : list (Target * Signal) :=
  signal_process_group pgid_of killpg_ok SIGTERM ::
  (if exits_on_term then [] else [signal_process_group pgid_of killpg_ok SIGKILL]).

(** ** What a job reports *)

(** [_await_exit]: the readers' ends and the exit, measured from the start. *)
Definition joined (deadline : Q) (at_ : option Q) : bool :=
  match at_ with Some x => Qle_bool x deadline | None => false end.
Definition await_exit (timeout_s : Q) (reader_ends : list (option Q)) (exit_at : option Q) : bool :=
  negb (forallb (joined timeout_s) reader_ends && joined timeout_s exit_at).

(** What the job thread met on its way. *)
Inductive JobEnd :=
| JobSpawnFailed (error : string)
| JobCancelledEarly (returncode : option Z)
| JobAwaitFailed (returncode : option Z) (error : string)
| JobEnded (returncode : option Z) (out err : BoundedSink) (timed_out cancelled : bool).

(** [_run]'s result. *)
Definition job_result (decode : string -> string) (j : JobEnd) : ScanResult :=
  match j with
  | JobSpawnFailed error => mkScanResult None EmptyString EmptyString false false (Some error) false 0
  | JobCancelledEarly rc => mkScanResult rc EmptyString EmptyString false true None false 0
  | JobAwaitFailed rc error => mkScanResult rc EmptyString EmptyString false false (Some error) false 0
  | JobEnded rc out err timed_out cancelled =>
      let '(stdout, dropped_out) := sink_snapshot decode out in
      let '(stderr, dropped_err) := sink_snapshot decode err in
      mkScanResult rc stdout stderr timed_out cancelled None false (dropped_out + dropped_err)
  end.

(** ** The job thread and a shutdown *)

Inductive JobPc := JSpawn | JRegister | JAwait | JKillTerm | JKillWait | JKillSent | JDone.
(** The thread of [cancel]; the flag is whether it holds the process. *)
Inductive CancelPc := CStart | CTerm (proc : bool) | CJoin (proc : bool) | CKill (proc : bool) | CJoinLast | CEnd.

Record JobState := mkJob {
  jb_pc : JobPc;
  jb_cancel : CancelPc;
  jb_cancelled : bool;   (* [_cancelled] *)
  jb_proc : bool;        (* [_proc] is set *)
  jb_spawned : bool;
  jb_alive : bool;
  jb_term : bool;        (* SIGTERM was sent to the group *)
  jb_kill : bool;        (* SIGKILL was sent to the group *)
}.
Definition job_start : JobState := mkJob JSpawn CStart false false false false false false.

Definition set_pc (pc : JobPc) (s : JobState) : JobState :=
  mkJob pc (jb_cancel s) (jb_cancelled s) (jb_proc s) (jb_spawned s) (jb_alive s) (jb_term s) (jb_kill s).
Definition set_cancel (pc : CancelPc) (s : JobState) : JobState :=
  mkJob (jb_pc s) pc (jb_cancelled s) (jb_proc s) (jb_spawned s) (jb_alive s) (jb_term s) (jb_kill s).
Definition send (sig : Signal) (s : JobState) : JobState :=
  mkJob (jb_pc s) (jb_cancel s) (jb_cancelled s) (jb_proc s) (jb_spawned s) (jb_alive s)
    (match sig with SIGTERM => true | SIGKILL => jb_term s end)
    (match sig with SIGKILL => true | SIGTERM => jb_kill s end).

(** A step of the job thread ([_run], [_await_exit], [kill_process_group]). *)
Inductive job_step : JobState -> JobState -> Prop :=
| js_spawn s : jb_pc s = JSpawn ->
    job_step s (mkJob JRegister (jb_cancel s) (jb_cancelled s) (jb_proc s) true true (jb_term s) (jb_kill s))
| js_spawn_failed s : jb_pc s = JSpawn -> job_step s (set_pc JDone s)
| js_register s : jb_pc s = JRegister ->
    job_step s (mkJob (if jb_cancelled s then JKillTerm else JAwait) (jb_cancel s) (jb_cancelled s) true
                  (jb_spawned s) (jb_alive s) (jb_term s) (jb_kill s))
| js_exited s : jb_pc s = JAwait -> jb_alive s = false -> job_step s (set_pc JDone s)
| js_timeout s : jb_pc s = JAwait -> job_step s (set_pc JKillTerm s)
| js_term s : jb_pc s = JKillTerm -> job_step s (set_pc JKillWait (send SIGTERM s))
| js_gone s : jb_pc s = JKillWait -> jb_alive s = false -> job_step s (set_pc JDone s)
| js_kill s : jb_pc s = JKillWait -> job_step s (set_pc JKillSent (send SIGKILL s))
| js_killed s : jb_pc s = JKillSent -> job_step s (set_pc JDone s).

(** A step of [cancel]: set the flag and read the process under the lock,
    signal, join for the grace, read the process again if it was not there,
    kill, join. *)
Inductive cancel_step : JobState -> JobState -> Prop :=
| cs_lock s : jb_cancel s = CStart ->
    cancel_step s (mkJob (jb_pc s) (CTerm (jb_proc s)) true (jb_proc s) (jb_spawned s) (jb_alive s) (jb_term s) (jb_kill s))
| cs_term s p : jb_cancel s = CTerm p -> cancel_step s (set_cancel (CJoin p) (if p then send SIGTERM s else s))
| cs_joined s p : jb_cancel s = CJoin p -> jb_pc s = JDone -> cancel_step s (set_cancel CEnd s)
| cs_late s p : jb_cancel s = CJoin p -> jb_pc s <> JDone -> cancel_step s (set_cancel (CKill (p || jb_proc s)) s)
| cs_kill s p : jb_cancel s = CKill p -> cancel_step s (set_cancel CJoinLast (if p then send SIGKILL s else s))
| cs_end s : jb_cancel s = CJoinLast -> cancel_step s (set_cancel CEnd s).

(** The process exits, by itself or by a signal. *)
Inductive proc_exit : JobState -> JobState -> Prop :=
| pe_exit s : jb_alive s = true ->
    proc_exit s (mkJob (jb_pc s) (jb_cancel s) (jb_cancelled s) (jb_proc s) (jb_spawned s) false (jb_term s) (jb_kill s)).

Definition jobs_step (s s' : JobState) : Prop := job_step s s' \/ cancel_step s s' \/ proc_exit s s'.
Definition job_reachable : JobState -> Prop := rtc jobs_step job_start.

(** ** The sink keeps a prefix and counts the rest *)

Lemma concat_str_snoc (l : list string) (s : string) : concat_str (l ++ [s]) = concat_str l +:+ s.
Proof. induction l as [|x l IH]; cbn; [by rewrite sapp_nil_r|]. unfold concat_str in IH. by rewrite IH, sapp_assoc. Qed.

Lemma sink_writes (limit : Z) (chunks : list string) :
  let s := foldl sink_write (sink_init limit) chunks in
  let all := concat_str chunks in
  sk_limit s = Z.max 0 limit /\ concat_str (sk_chunks s) = str_take (Z.to_nat limit) all /\
  sk_kept s = str_len (concat_str (sk_chunks s)) /\ sk_dropped s = str_len all - sk_kept s.
Proof.
  induction chunks as [|c chunks IH] using rev_ind.
  { cbn. split_and!; try done. by destruct (Z.to_nat limit). }
  cbv zeta in *. rewrite foldl_app, concat_str_snoc. cbn [foldl]. set (s := foldl sink_write (sink_init limit) chunks) in *.
  destruct IH as (H1 & H2 & H3 & H4). set (all := concat_str chunks) in *.
  assert (str_len (all +:+ c) = str_len all + str_len c) as Hl by (unfold str_len; rewrite slength_app; lia).
  assert (sk_kept s = Z.min (Z.max 0 limit) (str_len all)) as Hk.
  { rewrite H3, H2. unfold str_len. rewrite str_take_length. lia. }
  unfold sink_write. destruct (Z.ltb_spec 0 (sk_limit s - sk_kept s)) as [Hr|Hr]; cbn [sk_limit sk_chunks sk_kept sk_dropped].
  - set (keep := str_take _ c). rewrite concat_str_snoc, H2, str_take_app.
    assert (str_take (Z.to_nat limit) all = all) as Ha by (apply str_take_all; unfold str_len in *; lia).
    assert (Z.to_nat limit - String.length all = Z.to_nat (sk_limit s - sk_kept s))%nat as Hn by (unfold str_len in *; lia).
    rewrite Ha, Hn. fold keep. split_and!; [done|done| |].
    + rewrite H3, H2, Ha. unfold str_len. rewrite slength_app. lia.
    + rewrite H4, Hl. pose proof (str_take_drop (String.length keep) c) as Hc.
      assert (str_take (String.length keep) c = keep) as Hkk.
      { unfold keep. rewrite str_take_length. clear. revert c. generalize (Z.to_nat (sk_limit s - sk_kept s)).
        intros n. induction n as [|n IH]; intros [|x c]; cbn; [done..|]. by rewrite IH. }
      rewrite Hkk in Hc. apply (f_equal str_len) in Hc. unfold str_len in *. rewrite slength_app in Hc. lia.
  - split_and!; [done| |done|rewrite H4, Hl; lia].
    rewrite H2, str_take_app. assert (Z.to_nat limit - String.length all = 0)%nat as -> by (unfold str_len in *; lia).
    by rewrite sapp_nil_r.
Qed.

(** A scan's output is captured as a prefix under the byte ceiling and what is
    discarded is counted: of everything a reader read, the sink keeps exactly
    the first [limit] bytes and the result's dropped count is the rest, so
    output is reported as whole exactly when nothing was cut. *)
Theorem sink_keeps_prefix (limit : Z) (chunks : list string) (tail : list (option string)) :
  Forall (fun c => c <> EmptyString) chunks -> (tail = [] \/ exists rest, tail = None :: rest) ->
  let s := drain_into ((Some <$> chunks) ++ tail) (sink_init limit) in
  let all := concat_str chunks in
  concat_str (sk_chunks s) = str_take (Z.to_nat limit) all /\
  sk_dropped s = str_len all - str_len (concat_str (sk_chunks s)) /\
  str_len (concat_str (sk_chunks s)) <= Z.max 0 limit /\
  (sk_dropped s = 0 <-> concat_str (sk_chunks s) = all).
Proof.
  intros Hc Ht s all.
  assert (s = foldl sink_write (sink_init limit) chunks) as ->.
  { unfold s. generalize (sink_init limit). clear all s. induction Hc as [|c chunks Hc _ IH]; intros s0; cbn.
    - destruct Ht as [->|[rest ->]]; done.
    - apply String.eqb_neq in Hc. rewrite Hc. apply IH. }
  destruct (sink_writes limit chunks) as (H1 & H2 & H3 & H4). fold all in H2, H4. split_and!; [done|lia| |].
  - rewrite H2. unfold str_len. rewrite str_take_length. lia.
  - rewrite H4, H3, H2. unfold str_len. rewrite str_take_length. split.
    + intros H. apply str_take_all. lia.
    + intros H. apply (f_equal String.length) in H. rewrite str_take_length in H. lia.
Qed.

(** ** No scan survives a shutdown unseen *)

(** The process is dead, or SIGKILL is on its way. *)
Definition doomed (s : JobState) : bool := negb (jb_alive s) || jb_kill s.

#[export] Instance JobPc_eq_dec : EqDecision JobPc.
Proof. solve_decision. Defined.
#[export] Instance CancelPc_eq_dec : EqDecision CancelPc.
Proof. solve_decision. Defined.
#[export] Instance JobState_eq_dec : EqDecision JobState.
Proof. solve_decision. Defined.

Definition pc_is (pc : JobPc) (s : JobState) : bool := bool_decide (jb_pc s = pc).

(** The states the two threads can reach: a job that waits although it was
    cancelled is one the canceller holds, and has signalled once it is past
    that step; a job that is done has a doomed process. *)
Definition job_ok (s : JobState) : bool :=
  (jb_spawned s || negb (jb_alive s)) &&
  (negb (pc_is JSpawn s) || negb (jb_spawned s)) &&
  (pc_is JSpawn s || pc_is JDone s || jb_spawned s) &&
  eqb (jb_proc s) (negb (pc_is JSpawn s) && negb (pc_is JRegister s) && jb_spawned s) &&
  eqb (bool_decide (jb_cancel s = CStart)) (negb (jb_cancelled s)) &&
  (negb (pc_is JDone s) || doomed s) &&
  (negb (pc_is JKillSent s) || jb_kill s) &&
  (negb (pc_is JKillWait s) || jb_term s) &&
  (negb (pc_is JAwait s) ||
   match jb_cancel s with
   | CStart => true
   | CTerm p | CKill p => p
   | CJoin p => p && jb_term s
   | CJoinLast | CEnd => jb_kill s
   end).

(** Every successor of a state. *)
Definition succs (s : JobState) : list JobState :=
  (match jb_pc s with
   | JSpawn => [mkJob JRegister (jb_cancel s) (jb_cancelled s) (jb_proc s) true true (jb_term s) (jb_kill s); set_pc JDone s]
   | JRegister => [mkJob (if jb_cancelled s then JKillTerm else JAwait) (jb_cancel s) (jb_cancelled s) true
                     (jb_spawned s) (jb_alive s) (jb_term s) (jb_kill s)]
   | JAwait => (if jb_alive s then [] else [set_pc JDone s]) ++ [set_pc JKillTerm s]
   | JKillTerm => [set_pc JKillWait (send SIGTERM s)]
   | JKillWait => (if jb_alive s then [] else [set_pc JDone s]) ++ [set_pc JKillSent (send SIGKILL s)]
   | JKillSent => [set_pc JDone s]
   | JDone => []
   end) ++
  (match jb_cancel s with
   | CStart => [mkJob (jb_pc s) (CTerm (jb_proc s)) true (jb_proc s) (jb_spawned s) (jb_alive s) (jb_term s) (jb_kill s)]
   | CTerm p => [set_cancel (CJoin p) (if p then send SIGTERM s else s)]
   | CJoin p => if pc_is JDone s then [set_cancel CEnd s] else [set_cancel (CKill (p || jb_proc s)) s]
   | CKill p => [set_cancel CJoinLast (if p then send SIGKILL s else s)]
   | CJoinLast => [set_cancel CEnd s]
   | CEnd => []
   end) ++
  (if jb_alive s
   then [mkJob (jb_pc s) (jb_cancel s) (jb_cancelled s) (jb_proc s) (jb_spawned s) false (jb_term s) (jb_kill s)] else []).

Lemma succs_complete (s s' : JobState) : jobs_step s s' -> s' ∈ succs s.
Proof.
  unfold succs. rewrite !elem_of_app. intros [H|[H|H]]; [left|right; left|right; right]; inversion H; subst; clear H;
    repeat match goal with H : _ = _ |- _ => rewrite H end; unfold pc_is;
    rewrite ?bool_decide_eq_true_2, ?bool_decide_eq_false_2 by done; set_solver.
Qed.

(** All states there are. *)
Definition bools : list bool := [false; true].
Definition all_states : list JobState :=
  pc ← [JSpawn; JRegister; JAwait; JKillTerm; JKillWait; JKillSent; JDone];
  c ← [CStart; CTerm false; CTerm true; CJoin false; CJoin true; CKill false; CKill true; CJoinLast; CEnd];
  b1 ← bools; b2 ← bools; b3 ← bools; b4 ← bools; b5 ← bools; b6 ← bools;
  [mkJob pc c b1 b2 b3 b4 b5 b6].

Lemma all_states_complete (s : JobState) : s ∈ all_states.
Proof.
  destruct s as [pc c b1 b2 b3 b4 b5 b6]. unfold all_states.
  assert (forall b, b ∈ bools) as Hb by (intros []; unfold bools; set_solver).
  apply list_elem_of_bind. exists pc. split; [|destruct pc; set_solver].
  apply list_elem_of_bind. exists c. split; [|destruct c as [|[]|[]|[]| |]; set_solver].
  apply list_elem_of_bind. exists b1. split; [|apply Hb]. apply list_elem_of_bind. exists b2. split; [|apply Hb].
  apply list_elem_of_bind. exists b3. split; [|apply Hb]. apply list_elem_of_bind. exists b4. split; [|apply Hb].
  apply list_elem_of_bind. exists b5. split; [|apply Hb]. apply list_elem_of_bind. exists b6. split; [|apply Hb].
  by apply list_elem_of_singleton.
Qed.

(** Checked over the whole state space. *)
Lemma job_ok_checked : forallb (fun s => negb (job_ok s) || forallb job_ok (succs s)) all_states = true.
Proof. vm_compute. reflexivity. Qed.

Lemma reachable_ok (s : JobState) : job_reachable s -> job_ok s = true.
Proof.
  unfold job_reachable. intros Hr. assert (forall s0, job_ok s0 = true -> rtc jobs_step s0 s -> job_ok s = true) as H; [|by apply (H job_start)].
  clear Hr. intros s0 H0 Hr. induction Hr as [s0|s0 s1 s2 Hstep _ IH]; [done|]. apply IH. clear IH.
  pose proof job_ok_checked as Hc. rewrite forallb_forall in Hc.
  specialize (Hc s0 (proj1 (list_elem_of_In _ _) (all_states_complete s0))). rewrite H0 in Hc. cbn in Hc.
  rewrite forallb_forall in Hc. apply Hc, list_elem_of_In. by apply succs_complete.
Qed.

(** The most steps the job thread has left. *)
Definition job_rank (s : JobState) : nat :=
  match jb_pc s with
  | JSpawn => 6 | JRegister => 5 | JAwait => 4 | JKillTerm => 3 | JKillWait => 2 | JKillSent => 1 | JDone => 0
  end.

(** C33. No scan outlives its worker unattended: in every interleaving of the job
    thread with a shutdown, whenever the scan ends or the process exits, a job
    that is done leaves a process that is dead or was sent SIGKILL; when the
    shutdown has finished, a job still waiting for its scan has a process that
    was sent SIGKILL, and a job that spawned it after the shutdown looked goes
    on to kill it itself rather than wait; and the job thread can always take a
    step until it is done, at most six in all. *)
Theorem shutdown_reaps_scan (s : JobState) :
  job_reachable s ->
  (jb_pc s = JDone -> doomed s = true) /\
  (jb_cancel s = CEnd -> jb_pc s = JAwait -> jb_kill s = true) /\
  (jb_cancelled s = true -> jb_pc s = JRegister -> forall s', job_step s s' -> jb_pc s' = JKillTerm) /\
  (jb_pc s <> JDone -> exists s', job_step s s') /\
  (forall s', job_step s s' -> (job_rank s' < job_rank s)%nat).
Proof.
  intros Hr%reachable_ok. unfold job_ok, pc_is in Hr. split_and!.
  - intros Hp. rewrite Hp in Hr. repeat (apply andb_true_iff in Hr as [Hr ?]). done.
  - intros Hc Hp. rewrite Hp, Hc in Hr. by apply andb_true_iff in Hr as [_ Hr].
  - intros Hc Hp s' Hs. inversion Hs; subst; try congruence. cbn. by rewrite Hc.
  - intros Hp. destruct (jb_pc s) eqn:E; [by eexists; apply js_spawn|by eexists; apply js_register|
      by eexists; apply js_timeout|by eexists; apply js_term|by eexists; apply js_kill|by eexists; apply js_killed|done].
  - intros s' Hs. unfold job_rank. inversion Hs as [? E|? E|? E|? E|? E|? E|? E|? E|? E]; subst; cbn; rewrite E; try lia.
    destruct (jb_cancelled s); lia.
Qed.

Lemma sink_keeps_prefix_witness :
  let s := drain_into [Some "ab"%string; Some "cd"%string; None] (sink_init 3) in
  concat_str (sk_chunks s) = "abc"%string /\ sk_dropped s = 1.
Proof.
  destruct (sink_keeps_prefix 3 ["ab"; "cd"]%string [None]) as (H1 & H2 & _).
  - repeat constructor; discriminate.
  - right. by exists [].
  - cbn in *. by split.
Defined.

Lemma shutdown_reaps_scan_witness :
  let s := mkJob JAwait CEnd true true true true true true in job_reachable s /\ doomed s = true /\ jb_kill s = true.
Proof.
  intros s. assert (Hr : job_reachable s).
  { apply (rtc_l _ _ (mkJob JRegister CStart false false true true false false)); [left; by apply (js_spawn job_start)|].
    eapply rtc_l; [left; apply js_register; reflexivity|]. cbn.
    eapply rtc_l; [right; left; apply cs_lock; reflexivity|]. cbn.
    eapply rtc_l; [right; left; apply cs_term; reflexivity|]. cbn.
    eapply rtc_l; [right; left; apply cs_late; [reflexivity|discriminate]|]. cbn.
    eapply rtc_l; [right; left; apply cs_kill; reflexivity|]. cbn.
    eapply rtc_l; [right; left; apply cs_end; reflexivity|]. apply rtc_refl. }
  split; [exact Hr|]. split; [reflexivity|]. exact (proj1 (proj2 (shutdown_reaps_scan s Hr)) eq_refl eq_refl).
Defined.
