(* ===== verification/WorkerContract.v ===== *)
(** * The worker's side of the command channel ([inspectord/workers/contract.py])

    The reader thread cuts the worker's standard input into lines, drops what
    is too long or malformed, asks [handle_command] and answers with a
    [command_result] event. The clock is in seconds; [float_repr] prints and
    [float_parse] reads floats, [py_type] and [py_repr] are Python's
    [type(v).__name__] and [repr]; the handler is the subclass's method, [Err]
    when it raises. *)

From S2P Require Import Prelude Schemas Json RateLimit RuleEval.

Definition COMMAND_LINE_MAX_BYTES : nat := (64 * 1024)%nat.
Definition COMMAND_ARGS_MAX_BYTES : Z := 4096.
Definition REJECTED_EMIT_MAX_PER_WINDOW : Z := 30.
Definition REJECTED_EMIT_WINDOW_S : Z := 60.

(** ** Reading lines *)

(** [stream.readline(n)]: up to [n] characters, at most through a newline;
    what it returns and what is left. *)
Fixpoint readline (n : nat) (s : string) : string * string :=
  match n, s with
  | O, _ => (EmptyString, s)
  | _, EmptyString => (EmptyString, EmptyString)
  | S n', String c s' =>
      if Ascii.eqb c newline then (String c EmptyString, s')
      else let '(l, rest) := readline n' s' in (String c l, rest)
  end.

Definition ends_newline (s : string) : bool := endswith (String newline EmptyString) s.

(** [_drain_overlong]; every read takes at least one character. *)
Fixpoint drain_overlong (fuel : nat) (n : nat) (s : string) : string :=
  match fuel with
  | O => s
  | S fuel' =>
      let '(chunk, rest) := readline n s in
      if String.eqb chunk EmptyString || ends_newline chunk then rest else drain_overlong fuel' n rest
  end.

(** The lines [_command_reader] hands on, [n] being the line cap; the fuel is
    the length of the stream, which every iteration shortens. *)
Fixpoint command_reader (fuel : nat) (n : nat) (s : string) : list string :=
  match fuel with
  | O => []
  | S fuel' =>
      let '(line, rest) := readline (S n) s in
      if String.eqb line EmptyString then []
      else if (n <? String.length line)%nat then
        command_reader fuel' n (if ends_newline line then rest else drain_overlong (String.length rest) n rest)
      else line :: command_reader fuel' n rest
  end.

(** ** One line *)

(** [COMMAND_NAME_RE.fullmatch]. *)
Definition command_name_ok (s : string) : bool :=
  (1 <=? String.length s)%nat && (String.length s <=? 64)%nat &&
  str_forall (fun c => is_lower_ascii c || Ascii.eqb c "_"%char) s.

Section Contract.
Context (float_repr : Q -> string) (float_parse : string -> Q) (str_other : pyval -> string) (py_type : pyval -> string)
        (py_repr : pyval -> string) (worker : string)
        (handle_command : string -> dict -> result string pyval).

(** [_command_validation_error]; [Err] is the exception of [json.dumps]. *)
Definition command_validation_error (command args : pyval) : result unit (option string) :=
  match command with
  | PStr name =>
      if negb (command_name_ok name) then Ok (Some "invalid command name"%string)
      else match args with
           | PDict d =>
               match json_text float_repr (PDict d) with
               | None => Err tt
               | Some text =>
                   if COMMAND_ARGS_MAX_BYTES <? Z.of_nat (String.length text)
                   then Ok (Some ("args over " +:+ str_of_Z COMMAND_ARGS_MAX_BYTES +:+ " bytes")) else Ok None
               end
           | _ => Ok (Some "args must be an object"%string)
           end
  | _ => Ok (Some "invalid command name"%string)
  end.

(** [_coerce_command_result]. *)
Definition coerce_command_result (v : pyval) : string * pyval :=
  match v with
  | PDict d =>
      match dict_get "status" d with
      | PStr s =>
          if String.eqb s "accepted" || String.eqb s "rejected"
          then (s, default (PStr EmptyString) (dict_lookup "detail" d))
          else ("rejected"%string, default (PStr ("handler returned invalid status: " +:+ py_repr (PStr s))) (dict_lookup "detail" d))
      | other => ("rejected"%string, default (PStr ("handler returned invalid status: " +:+ py_repr other)) (dict_lookup "detail" d))
      end
  | other => ("rejected"%string, PStr ("handler returned " +:+ py_type other +:+ ", expected dict"))
  end.

(** The reader's state: stamps of recent rejections; whether the loop was woken;
    the events written. *)
Record ReaderState := mkReader {
  rd_rejected : list Z;
  rd_wake : bool;
  rd_out : list Event;
}.
Definition reader_init : ReaderState := mkReader [] false [].

(** [_rejected_emit_allowed]. *)
Definition rejected_emit_allowed (now : Z) (stamps : list Z) : bool * list Z :=
  let stamps := expire REJECTED_EMIT_WINDOW_S now stamps in
  if REJECTED_EMIT_MAX_PER_WINDOW <=? Z.of_nat (length stamps) then (false, stamps) else (true, stamps ++ [now]).

Definition result_args (request_id status detail : string) : EventArgs :=
  {| a_module := worker; a_action := "command_result"; a_category := ["process"%string];
     a_type := ["info"%string]; a_severity := "info"; a_kind := "state";
     a_host := None; a_outcome := None; a_message := Some ("command result: " +:+ status);
     a_process := None; a_file := None; a_user := None; a_source := None; a_destination := None;
     a_network := None; a_service := None; a_package := None; a_device := None;
     a_persistence := None; a_vulnerability := None; a_hunt := None; a_threat := None;
     a_raw := Some [("request_id", PStr request_id); ("status", PStr status); ("detail", PStr detail)]%string;
     a_labels := None; a_ts := None; a_first_seen := false |}.

(** [_emit_command_result]; [ts] and [fresh] stamp the event. *)
Definition emit_command_result (now ts : Z) (fresh request_id status : string) (detail : pyval) (r : ReaderState) : ReaderState :=
  let status := if String.eqb status "accepted" || String.eqb status "rejected" then status else "rejected"%string in
  let '(ok, stamps) := if String.eqb status "rejected" then rejected_emit_allowed now (rd_rejected r) else (true, rd_rejected r) in
  if ok
  then match build_event ts fresh (result_args request_id status (py_str str_other detail)) with
       | Some e => mkReader stamps (rd_wake r) (rd_out r ++ [e])
       | None => mkReader stamps (rd_wake r) (rd_out r)
       end
  else mkReader stamps (rd_wake r) (rd_out r).

(** What a read found on the clock. *)
Record Stamp := mkStamp { sp_now : Z; sp_ts : Z; sp_fresh : string }.

(** [_handle_command_line], with [_command_reader]'s guard around it. *)
Definition handle_command_line (st : Stamp) (line : string) (r : ReaderState) : ReaderState :=
  match json_loads float_parse line with
  | Some (PDict payload) =>
      match dict_get "request_id" payload with
      | PStr request_id =>
          let emit := emit_command_result (sp_now st) (sp_ts st) (sp_fresh st) request_id in
          let command := dict_get "command" payload in
          let command := if truthy command then command else PStr EmptyString in
          let args := dict_get "args" payload in
          let args := if truthy args then args else PDict [] in
          match command_validation_error command args, command, args with
          | Err _, _, _ => r
          | Ok (Some error), _, _ => emit "rejected"%string (PStr error) r
          | Ok None, PStr name, PDict d =>
              match handle_command name d with
              | Err exc => emit "rejected"%string (PStr ("handler error: " +:+ exc)) r
              | Ok result =>
                  let '(status, detail) := coerce_command_result result in
                  emit status detail
                    (if String.eqb status "accepted" then mkReader (rd_rejected r) true (rd_out r) else r)
              end
          | Ok None, _, _ => r
          end
      | _ => r
      end
  | _ => r
  end.

(** The whole stream: each line with what its handling finds on the clock. *)
Definition run_reader (stamps : nat -> Stamp) (stream : string) : ReaderState :=
  foldl (fun r x => handle_command_line (stamps x.1) x.2 r) reader_init
    (imap pair (command_reader (S (String.length stream)) COMMAND_LINE_MAX_BYTES stream)).
End Contract.

(** ** The lines of a stream *)

(** A stream cut after each newline. *)
Fixpoint cut_lines (s : string) : list string :=
  match s with
  | EmptyString => []
  | String c s' =>
      if Ascii.eqb c newline then String c EmptyString :: cut_lines s'
      else match cut_lines s' with
           | [] => [String c EmptyString]
           | l :: ls => String c l :: ls
           end
  end.
Definition glue (ls : list string) : string := foldr String.append EmptyString ls.

Lemma cut_lines_nil (s : string) : cut_lines s = [] -> s = EmptyString.
Proof. destruct s as [|c s]; [done|]. cbn. destruct (Ascii.eqb c newline); [done|]. by destruct (cut_lines s). Qed.

Lemma cut_lines_cons (s l : string) (ls : list string) :
  cut_lines s = l :: ls -> s = l +:+ glue ls /\ cut_lines (glue ls) = ls /\ l <> EmptyString.
Proof.
  revert l ls. induction s as [|c s IH]; intros l ls; [done|]. cbn.
  destruct (Ascii.eqb c newline) eqn:Ec.
  - intros [= <- <-]. destruct (cut_lines s) as [|l' ls'] eqn:E.
    + apply cut_lines_nil in E as ->. done.
    + destruct (IH l' ls' eq_refl) as (H1 & H2 & H3). cbn [glue foldr]. change (foldr String.append EmptyString ls') with (glue ls').
      rewrite <- H1, E. done.
  - destruct (cut_lines s) as [|l' ls'] eqn:E.
    + intros [= <- <-]. apply cut_lines_nil in E as ->. done.
    + intros [= <- <-]. destruct (IH l' ls' eq_refl) as (H1 & H2 & _). cbn. by rewrite <- H1.
Qed.

(** A bounded read stops within the first line. *)
Lemma readline_first (k : nat) (s l : string) (ls : list string) :
  cut_lines s = l :: ls ->
  readline k s = (str_take k l, str_drop k l +:+ glue ls) /\
  (k < String.length l -> ends_newline (str_take k l) = false)%nat /\
  (k < String.length l -> cut_lines (str_drop k l +:+ glue ls) = str_drop k l :: ls)%nat.
Proof.
  revert k l ls. induction s as [|c s IH]; intros k l ls; [done|]. cbn [cut_lines].
  destruct (Ascii.eqb c newline) eqn:Ec.
  - intros [= <- <-]. assert (glue (cut_lines s) = s) as Hg.
    { destruct (cut_lines s) as [|l' ls'] eqn:E; [by apply cut_lines_nil in E|].
      destruct (cut_lines_cons _ _ _ E) as (-> & _). done. }
    destruct k as [|k]; cbn; rewrite Ec, ?Hg.
    + split; [done|]. split; [done|]. done.
    + destruct k; cbn; (split; [done|]; split; intros; lia).
  - destruct (cut_lines s) as [|l' ls'] eqn:E.
    + intros [= <- <-]. apply cut_lines_nil in E as ->. destruct k as [|k]; cbn; rewrite Ec; [done|].
      destruct k; cbn; (split; [done|]; split; intros; lia).
    + intros [= <- <-]. destruct (cut_lines_cons _ _ _ E) as (Hs & Hls & Hne).
      destruct k as [|k].
      * cbn. rewrite Ec. split; [by rewrite <- Hs|]. split; [done|]. intros _. by rewrite <- Hs, E.
      * destruct (IH k l' ls' eq_refl) as (H1 & H2 & H3). cbn [readline str_take str_drop String.length].
        rewrite Ec, H1. split; [done|]. split; [|intros; apply H3; lia].
        intros Hk. specialize (H2 ltac:(lia)). unfold ends_newline in *. cbn [endswith]. rewrite H2, orb_false_r.
        apply String.eqb_neq. intros [= Hc _]. by rewrite <- Hc in Ec.
Qed.

(** Only the last line can lack its newline. *)
Lemma unterminated_last (s l l' : string) (ls : list string) :
  cut_lines s = l :: l' :: ls -> ends_newline l = false -> False.
Proof.
  revert l l' ls. induction s as [|c s IH]; intros l l' ls; [done|]. cbn. destruct (Ascii.eqb c newline) eqn:Ec.
  - intros [= <- _]. apply Ascii.eqb_eq in Ec as ->. done.
  - destruct (cut_lines s) as [|x xs] eqn:E; [done|]. intros [= <- ->]. unfold ends_newline. cbn [endswith].
    intros [_ H]%orb_false_iff. by apply (IH x l' ls).
Qed.

Lemma drain_overlong_line (fuel n : nat) (s l : string) (ls : list string) :
  (0 < n)%nat -> (String.length s <= fuel)%nat -> cut_lines s = l :: ls -> drain_overlong fuel n s = glue ls.
Proof.
  intros Hn. revert s l. induction fuel as [|fuel IH]; intros s l Hf Hs.
  { destruct s; [done|]. cbn in Hf. lia. }
  destruct (readline_first n s l ls Hs) as (H1 & H2 & H3). destruct (cut_lines_cons _ _ _ Hs) as (Hsl & Hls & Hne).
  cbn [drain_overlong]. rewrite H1. destruct (Nat.lt_ge_cases n (String.length l)) as [Hlt|Hge].
  - rewrite H2 by done. assert (String.eqb (str_take n l) EmptyString = false) as ->.
    { apply String.eqb_neq. intros E. apply (f_equal String.length) in E. rewrite str_take_length in E. change (String.length EmptyString) with 0%nat in E. lia. }
    cbn [orb]. apply (IH _ (str_drop n l)); [|by apply H3].
    pose proof (f_equal String.length (str_take_drop n l)) as Hl. rewrite slength_app, str_take_length in Hl.
    rewrite Hsl, slength_app in Hf. rewrite slength_app. lia.
  - rewrite (str_take_all n l) by lia.
    rewrite str_drop_all by lia.
    cbn. destruct (ends_newline l) eqn:E; [by rewrite orb_true_r|].
    destruct (String.eqb l EmptyString); [done|]. cbn [orb].
    destruct ls as [|l' ls]; [by destruct fuel, n|]. exfalso. exact (unterminated_last s l l' ls Hs E).
Qed.

(** The reader loses no command and invents none: it hands on exactly the
    lines of the stream that are within the cap, in order. An over-long line is
    dropped whole, however it is cut into reads, and the line after it is
    intact. *)
Theorem command_reader_lines (n : nat) (s : string) :
  (0 < n)%nat ->
  command_reader (S (String.length s)) n s = List.filter (fun l => (String.length l <=? n)%nat) (cut_lines s).
Proof.
  intros Hn. assert (forall fuel s, (String.length s < fuel)%nat ->
    command_reader fuel n s = List.filter (fun l => (String.length l <=? n)%nat) (cut_lines s)) as H; [|apply H; apply Nat.lt_succ_diag_r].
  clear s. intros fuel. induction fuel as [|fuel IH]; intros s Hf; [lia|]. cbn [command_reader].
  destruct (cut_lines s) as [|l ls] eqn:Hs.
  { apply cut_lines_nil in Hs as ->. done. }
  destruct (readline_first (S n) s l ls Hs) as (H1 & H2 & H3). destruct (cut_lines_cons _ _ _ Hs) as (Hsl & Hls & Hne).
  assert (String.length s = String.length l + String.length (glue ls))%nat as Hlen by (rewrite Hsl; apply slength_app).
  assert (0 < String.length l)%nat as Hpos by (destruct l; [done|cbn; lia]).
  rewrite H1. assert (String.eqb (str_take (S n) l) EmptyString = false) as ->.
  { apply String.eqb_neq. intros E. apply (f_equal String.length) in E. rewrite str_take_length in E. change (String.length EmptyString) with 0%nat in E. lia. }
  cbn [List.filter]. rewrite str_take_length. destruct (Nat.leb_spec (String.length l) n) as [Hle|Hgt].
  - destruct (Nat.ltb_spec n (Nat.min (S n) (String.length l))); [lia|]. rewrite str_take_all by lia. f_equal.
    rewrite str_drop_all by lia.
    cbn. rewrite IH by lia. by rewrite Hls.
  - destruct (Nat.ltb_spec n (Nat.min (S n) (String.length l))); [|lia].
    assert ((if ends_newline (str_take (S n) l) then str_drop (S n) l +:+ glue ls
             else drain_overlong (String.length (str_drop (S n) l +:+ glue ls)) n (str_drop (S n) l +:+ glue ls)) = glue ls) as ->.
    { destruct (Nat.lt_ge_cases (S n) (String.length l)) as [Hlt|Hge].
      - rewrite H2 by done. apply (drain_overlong_line _ _ _ (str_drop (S n) l)); [done|done|by apply H3].
      - rewrite str_drop_all by lia.
        rewrite str_take_all by lia. cbn [String.append]. destruct (ends_newline l) eqn:E; [done|].
        destruct ls as [|l' ls]; [done|]. exfalso. exact (unterminated_last s l l' ls Hs E). }
    rewrite IH by lia. by rewrite Hls.
Qed.

(** ** Every command is answered *)

Section Answers.
Context (float_repr : Q -> string) (float_parse : string -> Q) (str_other : pyval -> string) (py_type : pyval -> string)
        (py_repr : pyval -> string) (worker : string)
        (handle_command : string -> dict -> result string pyval).

Let handle := handle_command_line float_repr float_parse str_other py_type py_repr worker handle_command.

(** The event answers this request with this status. *)
Definition answers (request_id status : string) (e : Event) : Prop :=
  ev_module e = worker /\ ev_action e = "command_result"%string /\
  dict_get "request_id" (block_or_empty (ev_raw e)) = PStr request_id /\
  dict_get "status" (block_or_empty (ev_raw e)) = PStr status.

Definition flooded (now : Z) (r : ReaderState) : Prop :=
  REJECTED_EMIT_MAX_PER_WINDOW <= Z.of_nat (length (expire REJECTED_EMIT_WINDOW_S now (rd_rejected r))).

Lemma emit_accepted (st : Stamp) (request_id : string) (detail : pyval) (r : ReaderState) :
  exists e, rd_out (emit_command_result str_other worker (sp_now st) (sp_ts st) (sp_fresh st) request_id "accepted" detail r)
              = rd_out r ++ [e] /\ answers request_id "accepted" e.
Proof. eexists. by split. Qed.

Lemma emit_rejected (st : Stamp) (request_id : string) (detail : pyval) (r : ReaderState) :
  let r' := emit_command_result str_other worker (sp_now st) (sp_ts st) (sp_fresh st) request_id "rejected" detail r in
  rd_wake r' = rd_wake r /\
  ((exists e, rd_out r' = rd_out r ++ [e] /\ answers request_id "rejected" e) \/
   (rd_out r' = rd_out r /\ flooded (sp_now st) r)).
Proof.
  cbv zeta. unfold emit_command_result, rejected_emit_allowed, flooded. cbn [String.eqb Ascii.eqb orb].
  change (String.eqb "rejected" "accepted" || String.eqb "rejected" "rejected") with true. cbn [orb].
  change (String.eqb "rejected" "rejected") with true. cbv iota.
  destruct (Z.leb_spec REJECTED_EMIT_MAX_PER_WINDOW (Z.of_nat (length (expire REJECTED_EMIT_WINDOW_S (sp_now st) (rd_rejected r))))).
  - split; [done|]. by right.
  - split; [done|]. left. eexists. by split.
Qed.

Lemma coerce_status (v : pyval) :
  (coerce_command_result py_type py_repr v).1 = "rejected"%string \/
  ((coerce_command_result py_type py_repr v).1 = "accepted"%string /\
   exists d, v = PDict d /\ dict_get "status" d = PStr "accepted").
Proof.
  destruct v as [| | | | | | |d]; try by left. cbn [coerce_command_result].
  destruct (dict_get "status" d) as [| | | |s| | |] eqn:E; try by left.
  destruct (String.eqb_spec s "accepted") as [->|]; [right; split; [done|]; by exists d|].
  destruct (String.eqb_spec s "rejected") as [->|]; by left.
Qed.

(** A command line that carries a request id is answered with exactly one
    result for that id: accepted, and the loop woken, only if the name and
    arguments are within the caps and the handler said so; otherwise rejected,
    without waking the loop, unless as many rejections as the bound allows
    went out within the window. A line without a request id changes nothing. *)
Theorem command_line_answered (st : Stamp) (line : string) (r : ReaderState) :
  let r' := handle st line r in
  match json_loads float_parse line with
  | Some (PDict payload) =>
      match dict_get "request_id" payload with
      | PStr request_id =>
          (r' = r /\ json_text float_repr (dict_get "args" payload) = None) \/
          (exists e name args d, rd_out r' = rd_out r ++ [e] /\ answers request_id "accepted" e /\ rd_wake r' = true /\
             dict_get "command" payload = PStr name /\ command_name_ok name = true /\
             handle_command name args = Ok (PDict d) /\ dict_get "status" d = PStr "accepted") \/
          (rd_wake r' = rd_wake r /\
           ((exists e, rd_out r' = rd_out r ++ [e] /\ answers request_id "rejected" e) \/
            (rd_out r' = rd_out r /\ flooded (sp_now st) r)))
      | _ => r' = r
      end
  | _ => r' = r
  end.
Proof.
  cbv zeta. unfold handle, handle_command_line. destruct (json_loads float_parse line) as [[]|]; try done.
  destruct (dict_get "request_id" _) as [| | | |request_id| | |]; try done.
  set (command := dict_get "command" d). set (args := dict_get "args" d).
  destruct (if truthy command then command else PStr EmptyString) as [| | | |name| | |] eqn:Ec;
    try (right; right; apply (emit_rejected st request_id)).
  cbn [command_validation_error]. destruct (command_name_ok name) eqn:En; cbn [negb];
    [|right; right; apply (emit_rejected st request_id)].
  destruct (if truthy args then args else PDict []) as [| | | | | | |a] eqn:Ea;
    try (right; right; apply (emit_rejected st request_id)).
  destruct (json_text float_repr (PDict a)) as [text|] eqn:Ej.
  - destruct (_ <? _); [right; right; apply (emit_rejected st request_id)|].
    destruct (handle_command name a) as [v|exc] eqn:Eh; [|right; right; apply (emit_rejected st request_id)].
    pose proof (coerce_status v) as Hs. destruct (coerce_command_result py_type py_repr v) as [status detail]. cbn [fst] in Hs.
    destruct Hs as [->|[-> (dd & -> & Hd)]]; [right; right; apply (emit_rejected st request_id)|].
    right. left. destruct (emit_accepted st request_id detail (mkReader (rd_rejected r) true (rd_out r))) as (e & He & Ha).
    exists e, name, a, dd. split; [exact He|]. split; [done|]. split; [done|]. split; [|done].
    destruct (truthy command) eqn:Et; [done|]. by injection Ec as <-.
  - left. split; [done|]. destruct (truthy args) eqn:Et; [by rewrite Ea|]. injection Ea as <-. done.
Qed.
End Answers.

Lemma command_reader_lines_witness :
  command_reader 7 2 (String "a" (String newline "bbbb")) = [String "a" (String newline EmptyString)].
Proof. exact (command_reader_lines 2 (String "a" (String newline "bbbb")) (Nat.lt_0_succ 1)). Defined.
