(* ===== verification/CommandChannel.v ===== *)
(** * The supervisor's side of the command channel ([inspectord/supervisor.py])

    [send_worker_command] runs on a thread of its own for each request, next to
    the readers of the workers' pipes, the monitor that fails a dead worker's
    requests, and [stop]. The model is a step relation over their
    interleavings; a step is a region of the code under one lock or one atomic
    action, so that an entry taken out of a pending map is fulfilled by a later
    step and the steps of other threads fall in between. A request is named by its [uuid4]; a pending command is an object
    named by its request. An incarnation is one worker process, with its own
    pipe and its own pending map. *)

From S2P Require Import Prelude Schemas Json RuleEval WorkerContract.

Definition MAX_INFLIGHT_COMMANDS_PER_WORKER : nat := 32.

(** What a send returns. *)
Inductive Reply :=
| Accepted (detail : string)
| Rejected (detail : string)
| Timeout
| Died
| Unavailable (detail : string).
#[export] Instance Reply_eq_dec : EqDecision Reply.
Proof. solve_decision. Defined.

(** ** [_PendingCommand] *)

Record PendingCommand := mkPending { pd_set : bool; pd_result : Reply }.
Definition pending_init : PendingCommand := mkPending false Timeout.
Definition fulfill (r : Reply) (p : PendingCommand) : PendingCommand := if pd_set p then p else mkPending true r.

(** ** The state *)

(** Where the thread of a request is; past the lookup it holds an incarnation. *)
Inductive SendPc := SStart | SFound | SRegistered | SChecked | SWaiting | SDone (r : Reply).
Record Sender := mkSender { sd_worker : string; sd_inc : nat; sd_pc : SendPc }.

Record Chan := mkChan {
  ch_stop : bool;
  ch_procs : list nat;                       (* [_procs] *)
  ch_name : gmap nat string;                 (* the worker each incarnation runs *)
  ch_pending : gmap nat (gset string);       (* [wp.pending] *)
  ch_entry : gmap string PendingCommand;
  ch_held : list (string * Reply);           (* entries taken, still to be fulfilled *)
  ch_send : gmap string Sender;
  ch_swept : gset nat;                       (* incarnations [stop] has failed *)
  ch_written : list (nat * string);          (* requests written, and to whom *)
  ch_read : list (nat * Event);              (* events read, and off whose pipe *)
}.
Definition chan_init : Chan := mkChan false [] ∅ ∅ ∅ [] ∅ ∅ [] [].

Definition pending_of (c : Chan) (i : nat) : gset string := default ∅ (ch_pending c !! i).

Definition set_sender (rid : string) (s : Sender) (c : Chan) : Chan :=
  mkChan (ch_stop c) (ch_procs c) (ch_name c) (ch_pending c) (ch_entry c) (ch_held c) (<[rid := s]> (ch_send c))
    (ch_swept c) (ch_written c) (ch_read c).
Definition set_pending (i : nat) (p : gset string) (c : Chan) : Chan :=
  mkChan (ch_stop c) (ch_procs c) (ch_name c) (<[i := p]> (ch_pending c)) (ch_entry c) (ch_held c) (ch_send c)
    (ch_swept c) (ch_written c) (ch_read c).
Definition set_entries (es : gmap string PendingCommand) (c : Chan) : Chan :=
  mkChan (ch_stop c) (ch_procs c) (ch_name c) (ch_pending c) es (ch_held c) (ch_send c) (ch_swept c) (ch_written c)
    (ch_read c).
Definition set_held (hs : list (string * Reply)) (c : Chan) : Chan :=
  mkChan (ch_stop c) (ch_procs c) (ch_name c) (ch_pending c) (ch_entry c) hs (ch_send c) (ch_swept c) (ch_written c)
    (ch_read c).
Definition log_written (i : nat) (rid : string) (c : Chan) : Chan :=
  mkChan (ch_stop c) (ch_procs c) (ch_name c) (ch_pending c) (ch_entry c) (ch_held c) (ch_send c) (ch_swept c)
    (ch_written c ++ [(i, rid)]) (ch_read c).
Definition log_read (i : nat) (e : Event) (c : Chan) : Chan :=
  mkChan (ch_stop c) (ch_procs c) (ch_name c) (ch_pending c) (ch_entry c) (ch_held c) (ch_send c) (ch_swept c)
    (ch_written c) (ch_read c ++ [(i, e)]).

Definition at_pc (s : Sender) (pc : SendPc) : Sender := mkSender (sd_worker s) (sd_inc s) pc.

(** [finally: wp.pending.pop(request_id, None)], then the return. *)
Definition finish (rid : string) (s : Sender) (r : Reply) (c : Chan) : Chan :=
  set_sender rid (at_pc s (SDone r)) (set_pending (sd_inc s) (pending_of c (sd_inc s) ∖ {[rid]}) c).

(** ** [send_worker_command], one region at a time *)

Definition find_proc (c : Chan) (worker : string) : option nat :=
  List.find (fun i => bool_decide (ch_name c !! i = Some worker)) (ch_procs c).

(** The next region of request [rid]. The write is logged whether it succeeds
    or not, since bytes may have reached the pipe before it failed; the wait
    may end at any time, by its event or by its timeout. *)
Definition send_step (rid : string) (s : Sender) (written_ok : bool) (c : Chan) : Chan :=
  match sd_pc s with
  | SStart =>
      if ch_stop c then set_sender rid (at_pc s (SDone (Unavailable "shutting_down"))) c
      else match find_proc c (sd_worker s) with
           | None => set_sender rid (at_pc s (SDone (Unavailable ("no such worker: " +:+ sd_worker s)))) c
           | Some i => set_sender rid (mkSender (sd_worker s) i SFound) c
           end
  | SFound =>
      if (MAX_INFLIGHT_COMMANDS_PER_WORKER <=? size (pending_of c (sd_inc s)))%nat
      then set_sender rid (at_pc s (SDone (Unavailable "too many in-flight commands"))) c
      else set_sender rid (at_pc s SRegistered)
             (set_pending (sd_inc s) ({[rid]} ∪ pending_of c (sd_inc s))
                (set_entries (<[rid := pending_init]> (ch_entry c)) c))
  | SRegistered =>
      if ch_stop c then finish rid s (Unavailable "shutting_down") c
      else set_sender rid (at_pc s SChecked) c
  | SChecked =>
      let c := log_written (sd_inc s) rid (set_sender rid (at_pc s SWaiting) c) in
      if written_ok then c else finish rid (at_pc s SWaiting) (Unavailable "worker stdin unwritable") c
  | SWaiting => finish rid s (pd_result (default pending_init (ch_entry c !! rid))) c
  | SDone _ => c
  end.

(** ** The others *)

(** [_fail_pending]: the entries are taken under the lock and fulfilled after. *)
Definition fail_pending (i : nat) (r : Reply) (c : Chan) : Chan :=
  set_pending i ∅ (set_held (((fun rid => (rid, r)) <$> elements (pending_of c i)) ++ ch_held c) c).

(** The reply a worker's [command_result] stands for. *)
Definition result_reply (str_other : pyval -> string) (e : Event) : option (string * Reply) :=
  if negb (String.eqb (ev_action e) "command_result") then None
  else match ev_raw e with
       | None => None
       | Some raw =>
           match dict_get "request_id" raw with
           | PStr rid =>
               let detail := py_str str_other (default (PStr EmptyString) (dict_lookup "detail" raw)) in
               Some (rid, match dict_get "status" raw with
                          | PStr s => if String.eqb s "accepted" then Accepted detail else Rejected detail
                          | _ => Rejected detail
                          end)
           | _ => None
           end
       end.

(** [_fulfill_command_result] of an event read off the pipe of incarnation [i],
    up to the lookup in its pending map. *)
Definition fulfill_command_result (str_other : pyval -> string) (i : nat) (e : Event) (c : Chan) : Chan :=
  let c := log_read i e c in
  match result_reply str_other e with
  | None => c
  | Some (rid, r) => if bool_decide (rid ∈ pending_of c i) then set_held ((rid, r) :: ch_held c) c else c
  end.

(** [entry.fulfill] of an entry taken before. *)
Definition fulfill_held (rid : string) (r : Reply) (rest : list (string * Reply)) (c : Chan) : Chan :=
  set_held rest (set_entries (alter (fulfill r) rid (ch_entry c)) c).

(** [_start_worker_proc], into the list [procs]. *)
Definition spawn (i : nat) (worker : string) (procs : list nat) (c : Chan) : Chan :=
  mkChan (ch_stop c) procs (<[i := worker]> (ch_name c)) (<[i := ∅]> (ch_pending c)) (ch_entry c) (ch_held c)
    (ch_send c) (ch_swept c) (ch_written c) (ch_read c).

(** [stop]: the event, then the sweep of one incarnation. *)
Definition set_stop (c : Chan) : Chan :=
  mkChan true (ch_procs c) (ch_name c) (ch_pending c) (ch_entry c) (ch_held c) (ch_send c) (ch_swept c)
    (ch_written c) (ch_read c).
Definition mark_swept (i : nat) (c : Chan) : Chan :=
  mkChan (ch_stop c) (ch_procs c) (ch_name c) (ch_pending c) (ch_entry c) (ch_held c) (ch_send c)
    ({[i]} ∪ ch_swept c) (ch_written c) (ch_read c).
Definition sweep (i : nat) (c : Chan) : Chan := mark_swept i (fail_pending i (Unavailable "shutting_down") c).

Section Steps.
Context (str_other : pyval -> string).

(** One action of one thread. A request id is fresh ([uuid4]); a spawn names a
    new process and keeps the others or replaces the dead one. *)
Inductive chan_step : Chan -> Chan -> Prop :=
| cs_request c rid worker : ch_send c !! rid = None ->
    chan_step c (set_sender rid (mkSender worker 0 SStart) c)
| cs_send c rid s ok : ch_send c !! rid = Some s -> chan_step c (send_step rid s ok c)
| cs_result c i e : chan_step c (fulfill_command_result str_other i e c)
| cs_fulfill c rid r hs : ch_held c ≡ₚ (rid, r) :: hs -> chan_step c (fulfill_held rid r hs c)
| cs_died c i : chan_step c (fail_pending i Died c)
| cs_spawn c i worker procs : ch_name c !! i = None -> (forall j, j ∈ procs -> j = i \/ j ∈ ch_procs c) ->
    chan_step c (spawn i worker procs c)
| cs_stop c : chan_step c (set_stop c)
| cs_sweep c i : ch_stop c = true -> chan_step c (sweep i c).

Definition chan_reachable : Chan -> Prop := rtc chan_step chan_init.

(** ** Invariant *)

Definition is_answer (r : Reply) : bool := match r with Accepted _ | Rejected _ => true | _ => false end.
Definition inflight (pc : SendPc) : bool := match pc with SRegistered | SChecked | SWaiting => true | _ => false end.
Definition committed (pc : SendPc) : bool := match pc with SChecked | SWaiting => true | _ => false end.
Definition is_done (pc : SendPc) : bool := match pc with SDone _ => true | _ => false end.
Definition sent (pc : SendPc) : bool := match pc with SWaiting | SDone _ => true | _ => false end.

(** The pipe of incarnation [i] gave the reply [r] to request [rid]. *)
Definition answered (c : Chan) (i : nat) (rid : string) (r : Reply) : Prop :=
  exists e, (i, e) ∈ ch_read c /\ result_reply str_other e = Some (rid, r).

(** Someone is about to fulfill request [rid]. *)
Definition taken (c : Chan) (rid : string) : Prop := exists r, (rid, r) ∈ ch_held c.

Definition entry_ok (c : Chan) (rid : string) (i : nat) : Prop :=
  exists p, ch_entry c !! rid = Some p /\
    (pd_set p = false -> ((rid ∈ pending_of c i) \/ taken c rid) /\ pd_result p = Timeout) /\
    (is_answer (pd_result p) = true -> answered c i rid (pd_result p)).
Definition entry_set (c : Chan) (rid : string) : Prop := exists p, ch_entry c !! rid = Some p /\ pd_set p = true.

Definition req_ok (c : Chan) (rid : string) (s : Sender) : Prop :=
  (inflight (sd_pc s) = true \/ sd_pc s = SFound -> ch_name c !! sd_inc s = Some (sd_worker s)) /\
  (inflight (sd_pc s) = true -> entry_ok c rid (sd_inc s)) /\
  (committed (sd_pc s) = true -> sd_inc s ∈ ch_swept c -> entry_set c rid \/ taken c rid) /\
  (sd_pc s = SWaiting -> (sd_inc s, rid) ∈ ch_written c) /\
  (forall r, sd_pc s = SDone r -> is_answer r = true ->
     ch_name c !! sd_inc s = Some (sd_worker s) /\ ((sd_inc s, rid) ∈ ch_written c) /\ answered c (sd_inc s) rid r).

Record chan_inv (c : Chan) : Prop := {
  ci_req : forall rid s, ch_send c !! rid = Some s -> req_ok c rid s;
  ci_pending : forall i rid, rid ∈ pending_of c i ->
    exists s, ch_send c !! rid = Some s /\ sd_inc s = i /\ inflight (sd_pc s) = true;
  ci_held : forall rid r, (rid, r) ∈ ch_held c ->
    exists s, ch_send c !! rid = Some s /\ inflight (sd_pc s) || is_done (sd_pc s) = true /\
      (is_answer r = true -> answered c (sd_inc s) rid r);
  ci_written : forall i rid, (i, rid) ∈ ch_written c ->
    exists s, ch_send c !! rid = Some s /\ sd_inc s = i /\ sent (sd_pc s) = true;
  ci_once : NoDup (ch_written c).*2;
  ci_size : forall i, (size (pending_of c i) <= MAX_INFLIGHT_COMMANDS_PER_WORKER)%nat;
  ci_procs : forall i, i ∈ ch_procs c -> is_Some (ch_name c !! i);
  ci_swept : forall i, i ∈ ch_swept c -> ch_stop c = true;
}.

(** A request whose own data only grew. *)
Lemma req_ok_frame (c c' : Chan) (rid : string) (s : Sender) :
  (forall i n, ch_name c !! i = Some n -> ch_name c' !! i = Some n) ->
  ch_written c ⊆ ch_written c' -> ch_read c ⊆ ch_read c' ->
  (entry_ok c rid (sd_inc s) -> entry_ok c' rid (sd_inc s)) ->
  (entry_ok c rid (sd_inc s) -> (sd_inc s ∈ ch_swept c -> entry_set c rid \/ taken c rid) ->
     sd_inc s ∈ ch_swept c' -> entry_set c' rid \/ taken c' rid) ->
  req_ok c rid s -> req_ok c' rid s.
Proof.
  intros Hn Hw Ha He Hs (R1 & R2 & R3 & R4 & R5). split_and!.
  - intros H. by apply Hn, R1.
  - intros H. by apply He, R2.
  - intros H. apply Hs; [apply R2 | by apply R3]. by destruct (sd_pc s).
  - intros H. by apply Hw, R4.
  - intros r H1 H2. destruct (R5 r H1 H2) as (A & B & e & C & D). split_and!; [by apply Hn | by apply Hw |].
    exists e. split; [by apply Ha | done].
Qed.

Lemma pending_set (i j : nat) (p : gset string) (c : Chan) :
  pending_of (set_pending i p c) j = if bool_decide (i = j) then p else pending_of c j.
Proof.
  unfold pending_of, set_pending. cbn. case_bool_decide as H; [subst; by rewrite lookup_insert_eq | by rewrite lookup_insert_ne].
Qed.

(** An entry whose map may have lost it only to a fulfiller. *)
Lemma entry_ok_frame (c c' : Chan) (rid : string) (i : nat) :
  ch_entry c' !! rid = ch_entry c !! rid -> ch_read c ⊆ ch_read c' -> (taken c rid -> taken c' rid) ->
  (rid ∈ pending_of c i -> (rid ∈ pending_of c' i) \/ taken c' rid) ->
  entry_ok c rid i -> entry_ok c' rid i.
Proof.
  intros He Hr Ht Hp (e & Hl & H1 & H2). exists e. rewrite He. split; [done|]. split.
  - intros Hs. destruct (H1 Hs) as [[?|?] ?]; split; auto.
  - intros Ha. destruct (H2 Ha) as (ev & ? & ?). exists ev. auto.
Qed.

Lemma entry_set_frame (c c' : Chan) (rid : string) :
  ch_entry c' !! rid = ch_entry c !! rid -> entry_set c rid -> entry_set c' rid.
Proof. unfold entry_set. by intros ->. Qed.

(** A sender moves on within its incarnation, or before it has one. *)
Lemma inv_sender_moves (c : Chan) (rid : string) (s s' : Sender) :
  chan_inv c -> ch_send c !! rid = Some s -> sent (sd_pc s) = false ->
  (inflight (sd_pc s) = true -> sd_inc s' = sd_inc s /\ inflight (sd_pc s') = true) ->
  req_ok c rid s' -> chan_inv (set_sender rid s' c).
Proof.
  intros [I1 I2 I3 I4 I5 I6 I7 I8] Hs Hns Hfl Hok. split; cbn; try done.
  - intros rid' s''. rewrite lookup_insert_Some. intros [[<- <-]|[Hne Hs']]; [exact Hok | exact (I1 _ _ Hs')].
  - intros i rid' Hin. destruct (I2 i rid' Hin) as (s0 & Hs0 & Hi & Hf). destruct (decide (rid' = rid)) as [->|Hne].
    + simplify_eq. destruct (Hfl Hf) as [E F]. exists s'. by rewrite lookup_insert_eq.
    + exists s0. by rewrite lookup_insert_ne.
  - intros rid' r Hin. destruct (I3 rid' r Hin) as (s0 & Hs0 & Hf & Ha). destruct (decide (rid' = rid)) as [->|Hne].
    + simplify_eq. assert (inflight (sd_pc s) = true) as Hi by (by destruct (sd_pc s)).
      destruct (Hfl Hi) as [E F]. exists s'. rewrite lookup_insert_eq, E, F. done.
    + exists s0. by rewrite lookup_insert_ne.
  - intros i rid' Hin. destruct (I4 i rid' Hin) as (s0 & Hs0 & Hi & Hf). destruct (decide (rid' = rid)) as [->|Hne].
    + simplify_eq. congruence.
    + exists s0. by rewrite lookup_insert_ne.
Qed.

Lemma step_request (c : Chan) (rid worker : string) :
  ch_send c !! rid = None -> chan_inv c -> chan_inv (set_sender rid (mkSender worker 0 SStart) c).
Proof.
  intros Hf [I1 I2 I3 I4 I5 I6 I7 I8].
  assert (forall rid' s', ch_send c !! rid' = Some s' -> <[rid := mkSender worker 0 SStart]> (ch_send c) !! rid' = Some s') as Hk.
  { intros rid' s' H. rewrite lookup_insert_ne; [done | congruence]. }
  split; cbn; try done.
  - intros rid' s'. rewrite lookup_insert_Some. intros [[<- <-]|[Hne Hs]]; [|exact (I1 _ _ Hs)].
    split_and!; cbn; try done. by intros [].
  - intros i rid' Hin. destruct (I2 i rid' Hin) as (s & Hs & H). exists s. auto.
  - intros rid' r Hin. destruct (I3 rid' r Hin) as (s & Hs & H). exists s. auto.
  - intros i rid' Hin. destruct (I4 i rid' Hin) as (s & Hs & H). exists s. auto.
Qed.

(** A sender leaves: its entry is dropped and its reply returned. *)
Lemma inv_finish (c : Chan) (rid : string) (s : Sender) (r : Reply) :
  chan_inv c -> ch_send c !! rid = Some s -> inflight (sd_pc s) = true ->
  (is_answer r = true -> ((sd_inc s, rid) ∈ ch_written c) /\ answered c (sd_inc s) rid r) ->
  chan_inv (finish rid s r c).
Proof.
  intros [I1 I2 I3 I4 I5 I6 I7 I8] Hs Hfl Hr. split; cbn; try done.
  - intros rid' s'. rewrite lookup_insert_Some. intros [[<- <-]|[Hne Hs']].
    + destruct (I1 rid s Hs) as (R1 & _). split_and!; cbn; try done; [by intros []|].
      intros r' [= <-] Ha. destruct (Hr Ha) as [Hw Han]. split_and!; [apply R1; by left | done..].
    + refine (req_ok_frame c _ rid' s' _ _ _ _ _ (I1 _ _ Hs')); [done.. | | by intros _ H].
      apply entry_ok_frame; [done..|]. intros Hin. left. unfold finish.
      change (rid' ∈ pending_of (set_pending (sd_inc s) (pending_of c (sd_inc s) ∖ {[rid]}) c) (sd_inc s')).
      rewrite pending_set. case_bool_decide as E; [|done]. rewrite E. set_solver.
  - intros i rid'. change (pending_of _ i) with (pending_of (set_pending (sd_inc s) (pending_of c (sd_inc s) ∖ {[rid]}) c) i).
    rewrite pending_set. intros Hin.
    assert (rid' ∈ pending_of c i /\ (rid' = rid -> sd_inc s <> i)) as [Hp Hn].
    { case_bool_decide as E; [|done]. subst i. set_solver. }
    destruct (I2 i rid' Hp) as (s0 & Hs0 & Hi & Hf). exists s0. rewrite lookup_insert_ne; [done|].
    intros <-. rewrite Hs in Hs0. injection Hs0 as <-. by apply Hn.
  - intros rid' r' Hin. destruct (I3 rid' r' Hin) as (s0 & Hs0 & Hf & Ha). destruct (decide (rid' = rid)) as [->|Hne].
    + simplify_eq. exists (at_pc s (SDone r)). by rewrite lookup_insert_eq.
    + exists s0. by rewrite lookup_insert_ne.
  - intros i rid' Hin. destruct (I4 i rid' Hin) as (s0 & Hs0 & Hi & Hf). destruct (decide (rid' = rid)) as [->|Hne].
    + simplify_eq. exists (at_pc s (SDone r)). by rewrite lookup_insert_eq.
    + exists s0. by rewrite lookup_insert_ne.
  - intros i. change (pending_of _ i) with (pending_of (set_pending (sd_inc s) (pending_of c (sd_inc s) ∖ {[rid]}) c) i).
    rewrite pending_set. case_bool_decide as E; [|apply I6]. subst i.
    transitivity (size (pending_of c (sd_inc s))); [|apply I6]. apply subseteq_size. set_solver.
Qed.

(** A sender registers its entry. *)
Lemma inv_register (c : Chan) (rid : string) (s : Sender) :
  chan_inv c -> ch_send c !! rid = Some s -> sd_pc s = SFound ->
  (size (pending_of c (sd_inc s)) < MAX_INFLIGHT_COMMANDS_PER_WORKER)%nat ->
  chan_inv (set_sender rid (at_pc s SRegistered)
              (set_pending (sd_inc s) ({[rid]} ∪ pending_of c (sd_inc s))
                 (set_entries (<[rid := pending_init]> (ch_entry c)) c))).
Proof.
  intros [I1 I2 I3 I4 I5 I6 I7 I8] Hs Hpc Hsz.
  set (c' := set_sender _ _ _).
  assert (forall i, pending_of c' i = if bool_decide (sd_inc s = i) then {[rid]} ∪ pending_of c (sd_inc s) else pending_of c i) as Hp
    by exact (fun i => pending_set _ _ _ _).
  assert (forall rid' s', ch_send c !! rid' = Some s' -> sd_pc s' <> SFound -> ch_send c' !! rid' = Some s') as Hk.
  { intros rid' s' H Hn. cbn. rewrite lookup_insert_ne; [done|]. intros <-. congruence. }
  split.
  - intros rid' s'. cbn. rewrite lookup_insert_Some. intros [[<- <-]|[Hne Hs']].
    + destruct (I1 rid s Hs) as (R1 & _). split_and!; cbn; try done; [intros _; apply R1; by right|].
      intros _. exists pending_init. cbn. rewrite lookup_insert_eq. split_and!; try done. intros _. split; [|done]. left.
      rewrite Hp, bool_decide_eq_true_2 by done. set_solver.
    + refine (req_ok_frame c _ rid' s' _ _ _ _ _ (I1 _ _ Hs')); [done.. | |].
      * apply entry_ok_frame; [cbn; by rewrite lookup_insert_ne | done.. |]. intros Hin. left. rewrite Hp.
        case_bool_decide as E; [rewrite E; set_solver | done].
      * intros _ H Hsw. destruct (H Hsw) as [H'|H']; [left|by right]. revert H'. apply entry_set_frame. cbn. by rewrite lookup_insert_ne.
  - intros i rid'. rewrite Hp. intros Hin. destruct (decide (rid' = rid)) as [->|Hne].
    + exists (at_pc s SRegistered). cbn. rewrite lookup_insert_eq. split_and!; [done| |done].
      case_bool_decide as E; [done|]. destruct (I2 i rid Hin) as (s0 & Hs0 & Hi & Hf). rewrite Hs in Hs0.
      injection Hs0 as <-. by rewrite Hpc in Hf.
    + destruct (I2 i rid') as (s0 & Hs0 & Hi & Hf); [case_bool_decide as E; [subst i; set_solver | done]|].
      exists s0. split; [|done]. apply Hk; [done|]. intros E. by rewrite E in Hf.
  - intros rid' r Hin. destruct (I3 rid' r Hin) as (s0 & Hs0 & Hf & Ha). exists s0. split; [|done].
    apply Hk; [done|]. intros E. by rewrite E in Hf.
  - intros i rid' Hin. destruct (I4 i rid' Hin) as (s0 & Hs0 & Hi & Hf). exists s0. split; [|done].
    apply Hk; [done|]. intros E. by rewrite E in Hf.
  - done.
  - intros i. rewrite Hp. case_bool_decide; [|apply I6]. rewrite size_union_alt, size_singleton.
    transitivity (1 + size (pending_of c (sd_inc s)))%nat; [|lia]. apply Nat.add_le_mono_l, subseteq_size. set_solver.
  - done.
  - done.
Qed.

(** A sender writes its request. *)
Lemma inv_write (c : Chan) (rid : string) (s : Sender) :
  chan_inv c -> ch_send c !! rid = Some s -> sd_pc s = SChecked ->
  chan_inv (log_written (sd_inc s) rid (set_sender rid (at_pc s SWaiting) c)).
Proof.
  intros HI Hs Hpc. pose proof HI as [I1 I2 I3 I4 I5 I6 I7 I8].
  assert (rid ∉ (ch_written c).*2) as Hnw.
  { intros ([i rid'] & E & Hin)%list_elem_of_fmap. cbn in E. subst rid'.
    destruct (I4 i rid Hin) as (s0 & Hs0 & _ & Hf). rewrite Hs in Hs0. injection Hs0 as <-. by rewrite Hpc in Hf. }
  assert (ch_written c ⊆ ch_written c ++ [(sd_inc s, rid)]) as Hsub by (intros x Hx; apply elem_of_app; by left).
  assert (forall rid' s', ch_send c !! rid' = Some s' -> rid' <> rid -> <[rid := at_pc s SWaiting]> (ch_send c) !! rid' = Some s') as Hk.
  { intros rid' s' H Hn. by rewrite lookup_insert_ne. }
  assert (forall rid' s' x, req_ok c rid' s' -> x = log_written (sd_inc s) rid (set_sender rid (at_pc s SWaiting) c) -> req_ok x rid' s') as Hfr.
  { intros rid' s' x H ->. revert H. apply req_ok_frame; [done | exact Hsub | done | | by intros _ H].
    by apply entry_ok_frame; [.. | intros ?; left]. }
  split; try exact I6; try exact I7; try exact I8.
  - intros rid' s'. cbn. rewrite lookup_insert_Some. intros [[<- <-]|[Hne Hs']].
    + destruct (Hfr rid s _ (I1 _ _ Hs) eq_refl) as (R1 & R2 & R3 & R4 & R5). rewrite Hpc in R1, R2, R3.
      split_and!; cbn; [| exact R2 | exact R3 | | done].
      * intros _. apply R1. by left.
      * intros _. apply elem_of_app. right. by apply list_elem_of_singleton.
    + exact (Hfr rid' s' _ (I1 _ _ Hs') eq_refl).
  - intros i rid' Hin. destruct (I2 i rid' Hin) as (s0 & Hs0 & Hi & Hf). cbn. destruct (decide (rid' = rid)) as [->|Hne].
    + exists (at_pc s SWaiting). rewrite lookup_insert_eq. simplify_eq. done.
    + exists s0. auto.
  - intros rid' r Hin. destruct (I3 rid' r Hin) as (s0 & Hs0 & Hf & Ha). cbn. destruct (decide (rid' = rid)) as [->|Hne].
    + exists (at_pc s SWaiting). rewrite lookup_insert_eq. simplify_eq. done.
    + exists s0. auto.
  - intros i rid'. cbn. rewrite elem_of_app, list_elem_of_singleton. intros [Hin|[= -> ->]].
    + destruct (I4 i rid' Hin) as (s0 & Hs0 & Hi & Hf). exists s0. split; [|done]. apply Hk; [done|].
      intros ->. rewrite Hs in Hs0. injection Hs0 as <-. by rewrite Hpc in Hf.
    + exists (at_pc s SWaiting). by rewrite lookup_insert_eq.
  - cbn. rewrite fmap_app. apply NoDup_app. split_and!; [done | | apply NoDup_singleton].
    intros x Hx ->%list_elem_of_singleton. done.
Qed.

Lemma find_proc_named (c : Chan) (worker : string) (i : nat) :
  find_proc c worker = Some i -> ch_name c !! i = Some worker.
Proof. intros [_ H]%List.find_some. by apply bool_decide_eq_true in H. Qed.

Lemma inv_send_step (c : Chan) (rid : string) (s : Sender) (ok : bool) :
  chan_inv c -> ch_send c !! rid = Some s -> chan_inv (send_step rid s ok c).
Proof.
  intros HI Hs. pose proof (ci_req c HI rid s Hs) as Hok. unfold send_step. destruct (sd_pc s) as [ | | | | |r] eqn:Hpc.
  - assert (forall r, is_answer r = false -> req_ok c rid (at_pc s (SDone r))) as Hd.
    { intros r Hr. split_and!; cbn; try done; [by intros []|]. intros r' [= <-] H. by rewrite Hr in H. }
    destruct (ch_stop c); [|destruct (find_proc c (sd_worker s)) as [i|] eqn:Hfp];
      apply (inv_sender_moves c rid s); rewrite ?Hpc; try done; try (by apply Hd).
    split_and!; cbn; try done. intros _. by apply find_proc_named.
  - destruct (Nat.leb_spec MAX_INFLIGHT_COMMANDS_PER_WORKER (size (pending_of c (sd_inc s)))) as [Hle|Hlt].
    + apply (inv_sender_moves c rid s); rewrite ?Hpc; try done. split_and!; cbn; try done; [by intros []|]. by intros r' [= <-].
    + by apply inv_register.
  - destruct (ch_stop c) eqn:Hst; [apply inv_finish; by rewrite ?Hpc|].
    apply (inv_sender_moves c rid s); rewrite ?Hpc; try done. destruct Hok as (R1 & R2 & _). rewrite Hpc in R1, R2.
    split_and!; cbn; try done; [intros _; apply R1; by left|].
    intros _ Hsw. apply (ci_swept c HI) in Hsw. congruence.
  - pose proof (inv_write c rid s HI Hs Hpc) as HI'. destruct ok; [done|].
    apply inv_finish; [done | cbn; by rewrite lookup_insert_eq | done..].
  - apply inv_finish; [done..| by rewrite Hpc |]. destruct Hok as (R1 & R2 & _ & R4 & _). rewrite Hpc in R2.
    destruct (R2 eq_refl) as (p & Hp & _ & Ha). rewrite Hp. cbn. intros H. split; [by apply R4 | by apply Ha].
  - done.
Qed.

(** The other threads: no sender moves, and a request keeps its guarantees. *)
Lemma inv_others (c c' : Chan) :
  chan_inv c -> ch_send c' = ch_send c -> ch_written c' = ch_written c ->
  (forall i, pending_of c' i ⊆ pending_of c i) -> ch_read c ⊆ ch_read c' ->
  (forall rid r, (rid, r) ∈ ch_held c' -> ((rid, r) ∈ ch_held c) \/
     exists i, (rid ∈ pending_of c i) /\ (is_answer r = true -> answered c' i rid r)) ->
  (forall rid s, ch_send c !! rid = Some s -> req_ok c rid s -> req_ok c' rid s) ->
  (forall i, i ∈ ch_procs c' -> is_Some (ch_name c' !! i)) ->
  (forall i, i ∈ ch_swept c' -> ch_stop c' = true) ->
  chan_inv c'.
Proof.
  intros [I1 I2 I3 I4 I5 I6 I7 I8] Es Ew Hp Hr Hh Hreq Hpr Hsw. split; rewrite ?Es, ?Ew; try done.
  - intros rid s Hs. apply Hreq; [done | by apply I1].
  - intros i rid Hin. apply I2. by apply Hp.
  - intros rid r Hin. destruct (Hh rid r Hin) as [Hin'|(i & Hin' & Ha)].
    + destruct (I3 rid r Hin') as (s & Hs & Hf & Ha). exists s. split_and!; [done..|]. intros H.
      destruct (Ha H) as (e & He & Hre). exists e. split; [by apply Hr | done].
    + destruct (I2 i rid Hin') as (s & Hs & <- & Hf). exists s. by rewrite Hf.
  - intros i. etrans; [apply subseteq_size, Hp | apply I6].
Qed.

Lemma inv_result (c : Chan) (i : nat) (e : Event) : chan_inv c -> chan_inv (fulfill_command_result str_other i e c).
Proof.
  intros HI. pose proof HI as [I1 I2 I3 I4 I5 I6 I7 I8]. unfold fulfill_command_result.
  assert (ch_read c ⊆ ch_read c ++ [(i, e)]) as Hsub by (intros x Hx; apply elem_of_app; by left).
  assert (forall hs, ch_held c ⊆ hs -> forall rid s, req_ok c rid s -> req_ok (set_held hs (log_read i e c)) rid s) as Hfr.
  { intros hs Hhs rid s. assert (taken c rid -> taken (set_held hs (log_read i e c)) rid) as Ht
      by (intros (r & Hr); exists r; by apply Hhs).
    apply req_ok_frame; [done | done | exact Hsub | | intros _ H Hsw; destruct (H Hsw); auto].
    apply entry_ok_frame; [done | exact Hsub | exact Ht | intros ?; by left]. }
  assert (forall hs, ch_held c ⊆ hs ->
     (forall rid r, (rid, r) ∈ hs -> ((rid, r) ∈ ch_held c) \/
        (rid ∈ pending_of c i /\ result_reply str_other e = Some (rid, r))) -> chan_inv (set_held hs (log_read i e c))) as Hall.
  { intros hs Hhs Hnew. apply (inv_others c); try done.
    - intros rid r Hin. destruct (Hnew rid r Hin) as [?|[Hp Hre]]; [by left|]. right. exists i. split; [done|].
      intros _. exists e. split; [|done]. apply elem_of_app. right. by apply list_elem_of_singleton.
    - intros rid s _. by apply Hfr. }
  destruct (result_reply str_other e) as [[rid r]|] eqn:Hre.
  - case_bool_decide as Hin.
    + apply (Hall ((rid, r) :: ch_held c)); [intros x Hx; by right|]. intros rid' r'. rewrite elem_of_cons.
      intros [[= -> ->]|?]; [right | left]; done.
    + apply (Hall (ch_held c)); [done | by left].
  - apply (Hall (ch_held c)); [done | by left].
Qed.

Lemma inv_fulfill (c : Chan) (rid : string) (r : Reply) (hs : list (string * Reply)) :
  chan_inv c -> ch_held c ≡ₚ (rid, r) :: hs -> chan_inv (fulfill_held rid r hs c).
Proof.
  intros HI Hperm. pose proof HI as [I1 I2 I3 I4 I5 I6 I7 I8].
  assert (forall x, x ∈ ch_held c <-> x = (rid, r) \/ x ∈ hs) as Hh by (intros x; rewrite Hperm; apply elem_of_cons).
  apply (inv_others c); try done.
  - intros rid' r' Hin. left. apply Hh. by right.
  - intros rid' s Hs. destruct (decide (rid' = rid)) as [->|Hne].
    + assert (forall p, ch_entry c !! rid = Some p -> entry_set (fulfill_held rid r hs c) rid) as Hset.
      { intros p Hp. exists (fulfill r p). cbn. rewrite lookup_alter_eq, Hp. split; [done|]. unfold fulfill. by destruct (pd_set p) eqn:?. }
      apply req_ok_frame; [done..| | by intros (p & Hp & _) _ _; left; apply (Hset p)].
      intros (p & Hp & H1 & H2). exists (fulfill r p). cbn. rewrite lookup_alter_eq, Hp. split; [done|].
      unfold fulfill. destruct (pd_set p) eqn:Hps; [split; [congruence | done]|]. split; [done|]. cbn. intros Ha.
      destruct (I3 rid r) as (s0 & Hs0 & _ & Han); [apply Hh; by left|]. rewrite Hs in Hs0. injection Hs0 as <-. by apply Han.
    + assert (ch_entry (fulfill_held rid r hs c) !! rid' = ch_entry c !! rid') as Ee by (cbn; by rewrite lookup_alter_ne).
      assert (taken c rid' -> taken (fulfill_held rid r hs c) rid') as Ht.
      { intros (r' & [[= -> ->]|Hin]%Hh); [done | by exists r']. }
      apply req_ok_frame; [done..| |].
      * apply entry_ok_frame; [done..|]. by left.
      * intros _ H Hsw. destruct (H Hsw) as [H'|H']; [left; revert H'; by apply entry_set_frame | right; auto].
Qed.

Lemma inv_fail (c : Chan) (i : nat) (r : Reply) : is_answer r = false -> chan_inv c -> chan_inv (fail_pending i r c).
Proof.
  intros Hr HI. pose proof HI as [I1 I2 I3 I4 I5 I6 I7 I8].
  assert (forall j, pending_of (fail_pending i r c) j = if bool_decide (i = j) then ∅ else pending_of c j) as Hp
    by exact (fun j => pending_set _ _ _ _).
  assert (forall rid, taken c rid -> taken (fail_pending i r c) rid) as Ht.
  { intros rid (r' & Hin). exists r'. cbn. apply elem_of_app. by right. }
  apply (inv_others c); try done.
  - intros j. rewrite Hp. case_bool_decide; set_solver.
  - intros rid r'. cbn. rewrite elem_of_app. intros [(x & [= -> ->] & Hx)%list_elem_of_fmap|?]; [|by left].
    right. exists i. split; [by apply elem_of_elements | congruence].
  - intros rid s Hs. apply req_ok_frame; [done..| | intros _ H Hsw; destruct (H Hsw); auto].
    apply entry_ok_frame; [done | done | apply Ht |]. intros Hin. rewrite Hp. case_bool_decide as E; [right | by left].
    exists r. cbn. apply elem_of_app. left. apply list_elem_of_fmap. exists rid. rewrite elem_of_elements, E. done.
Qed.

(** An unfulfilled entry that is in no map has a fulfiller. *)
Lemma inv_mark_swept (c : Chan) (i : nat) :
  ch_stop c = true -> pending_of c i = ∅ -> chan_inv c -> chan_inv (mark_swept i c).
Proof.
  intros Hst Hp HI. apply (inv_others c); try done; [by left | | exact (ci_procs c HI)].
  intros rid s Hs. apply req_ok_frame; [done..|].
  intros (p & Hl & H1 & _) H. cbn. rewrite elem_of_union, elem_of_singleton. intros [E|Hsw]; [|by apply H].
  destruct (pd_set p) eqn:Hps; [left; by exists p|]. right. destruct (H1 eq_refl) as [[Hin|?] _]; [|done].
  rewrite E, Hp in Hin. set_solver.
Qed.

Lemma inv_spawn (c : Chan) (i : nat) (worker : string) (procs : list nat) :
  ch_name c !! i = None -> (forall j, j ∈ procs -> j = i \/ j ∈ ch_procs c) -> chan_inv c -> chan_inv (spawn i worker procs c).
Proof.
  intros Hn Hpr HI. pose proof HI as [I1 I2 I3 I4 I5 I6 I7 I8].
  assert (pending_of c i = ∅) as He.
  { apply set_eq. intros rid. split; [|set_solver]. intros Hin. destruct (I2 i rid Hin) as (s & Hs & Hi & Hf).
    destruct (I1 rid s Hs) as (R1 & _). rewrite Hi, Hn in R1. discriminate R1. by left. }
  assert (forall j, pending_of (spawn i worker procs c) j = pending_of c j) as Hp.
  { intros j. change (pending_of (spawn i worker procs c) j) with (pending_of (set_pending i ∅ c) j). rewrite pending_set.
    case_bool_decide as E; [by rewrite <- E|done]. }
  apply (inv_others c); try done.
  - intros j. by rewrite Hp.
  - by left.
  - intros rid s Hs. apply req_ok_frame; [|done..| |by intros _ H].
    + intros j n Hj. cbn. rewrite lookup_insert_ne; [done | congruence].
    + apply entry_ok_frame; [done..|]. rewrite Hp. by left.
  - intros j Hj. cbn. destruct (decide (i = j)) as [->|Hne]; [rewrite lookup_insert_eq; by eexists|].
    rewrite lookup_insert_ne by done. apply I7. destruct (Hpr j Hj); congruence.
Qed.

Lemma inv_step (c c' : Chan) : chan_step c c' -> chan_inv c -> chan_inv c'.
Proof.
  destruct 1 as [c rid w Hf|c rid s ok Hs|c i e|c rid r hs Hh|c i|c i w procs Hn Hp|c|c i Hst]; intros HI.
  - by apply step_request.
  - by apply inv_send_step.
  - by apply inv_result.
  - by apply inv_fulfill.
  - by apply inv_fail.
  - by apply inv_spawn.
  - apply (inv_others c); try done; [by left | exact (ci_procs c HI)].
  - apply inv_mark_swept; [done | | by apply inv_fail].
    unfold fail_pending. by rewrite pending_set, bool_decide_eq_true_2.
Qed.

Lemma inv_reachable (c : Chan) : chan_reachable c -> chan_inv c.
Proof.
  apply (rtc_ind_r chan_inv); [|intros x y _ Hs HI; exact (inv_step x y Hs HI)].
  assert (forall i, pending_of chan_init i = ∅) as Hp by (intros i; unfold pending_of; cbn; by rewrite lookup_empty).
  split.
  - intros rid s. cbn. by rewrite lookup_empty.
  - intros i rid. rewrite Hp. set_solver.
  - intros rid r H. by apply elem_of_nil in H.
  - intros i rid H. by apply elem_of_nil in H.
  - constructor.
  - intros i. rewrite Hp, size_empty. lia.
  - intros i H. by apply elem_of_nil in H.
  - intros i. cbn. set_solver.
Qed.

(** C32. An answer reaches only its own request: whatever the threads
    interleave and whatever the workers write, a send that returns accepted or
    rejected returns a [command_result] for its own request id, read off the
    pipe of the very process its request was written to, and that process runs
    the worker it named. *)
Theorem reply_from_own_worker (c : Chan) (rid : string) (s : Sender) (r : Reply) :
  chan_reachable c -> ch_send c !! rid = Some s -> sd_pc s = SDone r -> is_answer r = true ->
  ch_name c !! sd_inc s = Some (sd_worker s) /\ ((sd_inc s, rid) ∈ ch_written c) /\
  exists e, ((sd_inc s, e) ∈ ch_read c) /\ result_reply str_other e = Some (rid, r).
Proof.
  intros Hr Hs Hpc Ha. destruct (ci_req c (inv_reachable c Hr) rid s Hs) as (_ & _ & _ & _ & H). by apply H.
Qed.

(** At most once, and bounded: no request is written twice, and no worker
    process ever has more than 32 requests pending, however many threads send. *)
Theorem commands_bounded_once (c : Chan) :
  chan_reachable c ->
  NoDup (ch_written c).*2 /\
  forall i, (size (pending_of c i) <= MAX_INFLIGHT_COMMANDS_PER_WORKER)%nat.
Proof. intros Hr. pose proof (inv_reachable c Hr) as HI. split; [by apply ci_once | by apply ci_size]. Qed.

(** Shutdown strands nobody: once [stop] has swept a process and carried
    out the fulfillments it took, every send still waiting on that process has
    its event set, so its wait returns at once; a send that registers after
    the sweep never starts to wait. *)
Theorem sweep_strands_nobody (c : Chan) (rid : string) (s : Sender) :
  chan_reachable c -> ch_send c !! rid = Some s -> sd_inc s ∈ ch_swept c ->
  ~ taken c rid -> committed (sd_pc s) = true ->
  exists p, ch_entry c !! rid = Some p /\ pd_set p = true.
Proof.
  intros Hr Hs Hsw Hnt Hc. destruct (ci_req c (inv_reachable c Hr) rid s Hs) as (_ & _ & H & _).
  by destruct (H Hc Hsw).
Qed.
End Steps.

(** ** Both ends *)

(** The line a request is written as. *)
Definition command_line (float_repr : Q -> string) (command : string) (args : dict) (request_id : string) : option string :=
  text ← json_text float_repr (PDict [("command", PStr command); ("args", PDict args); ("request_id", PStr request_id)]%string);
  Some (text +:+ String newline EmptyString).

Section BothEnds.
Context (float_repr : Q -> string) (float_parse : string -> Q) (str_other : pyval -> string) (py_type : pyval -> string)
        (py_repr : pyval -> string) (worker : string)
        (handle_command : string -> dict -> result string pyval).

Lemma command_line_loads (command request_id line : string) (args : dict) :
  json_wf float_repr float_parse (PDict args) -> command_line float_repr command args request_id = Some line ->
  json_loads float_parse line = Some (PDict [("command", PStr command); ("args", PDict args); ("request_id", PStr request_id)]%string).
Proof.
  intros Hw. unfold command_line. destruct (json_text float_repr _) as [text|] eqn:Et; [|done]. intros [= <-].
  assert (json_wf float_repr float_parse (PDict [("command", PStr command); ("args", PDict args); ("request_id", PStr request_id)]%string)) as Hw'.
  { split; [|done]. by apply (bool_decide_unpack _). }
  destruct (json_text_reads _ _ _ _ Hw' Et) as [Hst Hr]. unfold json_loads. rewrite skip_ws_starts by done.
  rewrite Hr; [done| |done]. unfold json_fuel. rewrite slength_app. cbn [String.length]. lia.
Qed.

(** A command makes the whole trip: a request with a name the contract
    allows and arguments within the cap, written as the supervisor writes it
    and read as the worker reads it, reaches the handler with the name and the
    arguments it was sent with; when the handler accepts, the loop is woken
    and the event the worker writes stands, for the supervisor, for an
    acceptance of that very request with the handler's detail. *)
Theorem command_round_trip (st : Stamp) (command request_id line text : string) (args d : dict) (r : ReaderState) :
  json_wf float_repr float_parse (PDict args) ->
  command_name_ok command = true ->
  json_text float_repr (PDict args) = Some text -> Z.of_nat (String.length text) <= COMMAND_ARGS_MAX_BYTES ->
  command_line float_repr command args request_id = Some line ->
  handle_command command args = Ok (PDict d) -> dict_get "status" d = PStr "accepted" ->
  let r' := handle_command_line float_repr float_parse str_other py_type py_repr worker handle_command st line r in
  rd_wake r' = true /\
  exists e, rd_out r' = rd_out r ++ [e] /\
    result_reply str_other e
    = Some (request_id, Accepted (py_str str_other (default (PStr EmptyString) (dict_lookup "detail" d)))).
Proof.
  intros Hw Hn Ht Hlen Hl Hh Hs. cbv zeta. unfold handle_command_line. rewrite (command_line_loads _ _ _ _ Hw Hl).
  change (dict_get "request_id" _) with (PStr request_id). change (dict_get "command" _) with (PStr command).
  change (dict_get "args" _) with (PDict args). cbv iota beta zeta.
  assert ((if truthy (PStr command) then PStr command else PStr EmptyString) = PStr command) as -> by (by destruct command).
  assert ((if truthy (PDict args) then PDict args else PDict []) = PDict args) as -> by (by destruct args).
  cbn [command_validation_error]. rewrite Hn, Ht. cbn [negb].
  rewrite (proj2 (Z.ltb_ge _ _) Hlen), Hh. cbn [coerce_command_result]. rewrite Hs. cbn. split; [done|]. by eexists.
Qed.
End BothEnds.

(** ** Runs: a command answered, and one caught by shutdown *)

Definition no_repr (v : pyval) : string := EmptyString.
Definition demo_sender (pc : SendPc) : Sender := mkSender "scanner_runner" 7 pc.
Definition demo_waiting : Chan :=
  send_step "r1" (demo_sender SChecked) true
    (send_step "r1" (demo_sender SRegistered) true
      (send_step "r1" (demo_sender SFound) true
        (send_step "r1" (mkSender "scanner_runner" 0 SStart) true
          (set_sender "r1" (mkSender "scanner_runner" 0 SStart)
            (spawn 7 "scanner_runner" [7%nat] chan_init))))).
Definition demo_result : Event :=
  default (mkEvent "" 0 "" EK_event [] [] "" None SevInfo "" false None None None None None None None None None None None
             None None None None None None None [] None)
    (build_event 0 "e1" (result_args "scanner_runner" "r1" "accepted" "queued")).
Definition demo_answered : Chan :=
  send_step "r1" (demo_sender SWaiting) true
    (fulfill_held "r1" (Accepted "queued") [] (fulfill_command_result no_repr 7 demo_result demo_waiting)).
Definition demo_stopped : Chan :=
  fulfill_held "r1" (Unavailable "shutting_down") [] (sweep 7 (set_stop demo_waiting)).

Lemma demo_waiting_reachable : chan_reachable no_repr demo_waiting.
Proof.
  unfold chan_reachable, demo_waiting.
  repeat (eapply rtc_r; [|apply cs_send; vm_compute; reflexivity]).
  eapply rtc_r; [|apply cs_request; vm_compute; reflexivity].
  eapply rtc_r; [apply rtc_refl|]. apply cs_spawn; [vm_compute; reflexivity|]. intros j ->%list_elem_of_singleton. by left.
Qed.

Lemma demo_answered_reachable : chan_reachable no_repr demo_answered.
Proof.
  eapply rtc_r; [|apply cs_send; vm_compute; reflexivity].
  eapply rtc_r; [|apply cs_fulfill; vm_compute; reflexivity].
  eapply rtc_r; [apply demo_waiting_reachable|]. apply cs_result.
Qed.

Lemma demo_stopped_reachable : chan_reachable no_repr demo_stopped.
Proof.
  eapply rtc_r; [|apply cs_fulfill; vm_compute; reflexivity].
  eapply rtc_r; [|apply cs_sweep; reflexivity].
  eapply rtc_r; [apply demo_waiting_reachable|]. apply cs_stop.
Qed.

Lemma reply_from_own_worker_witness :
  exists e, ((7%nat, e) ∈ ch_read demo_answered) /\ result_reply no_repr e = Some ("r1"%string, Accepted "queued").
Proof.
  destruct (reply_from_own_worker no_repr demo_answered "r1" (demo_sender (SDone (Accepted "queued"))) (Accepted "queued"))
    as (_ & _ & e & H); [apply demo_answered_reachable | vm_compute; reflexivity | reflexivity | reflexivity |].
  exists e. exact H.
Defined.

Lemma commands_bounded_once_witness :
  ch_written demo_answered = [(7%nat, "r1"%string)] /\ NoDup (ch_written demo_answered).*2.
Proof.
  split; [vm_compute; reflexivity|]. apply (commands_bounded_once no_repr demo_answered). apply demo_answered_reachable.
Defined.

Lemma sweep_strands_nobody_witness :
  exists p, ch_entry demo_stopped !! "r1"%string = Some p /\ pd_set p = true.
Proof.
  apply (sweep_strands_nobody no_repr demo_stopped "r1" (demo_sender SWaiting));
    [apply demo_stopped_reachable | vm_compute; reflexivity | | intros (r & H); apply elem_of_nil in H; exact H | reflexivity].
  apply (bool_decide_unpack _). vm_compute. exact I.
Defined.

Lemma command_round_trip_witness :
  exists e, result_reply no_repr e = Some ("r1"%string, Accepted "queued").
Proof.
  destruct (command_round_trip (fun _ => EmptyString) (fun _ => 0%Q) no_repr (fun _ => EmptyString) (fun _ => EmptyString)
              "scanner_runner"
              (fun _ _ => Ok (PDict [("status", PStr "accepted"); ("detail", PStr "queued")]%string))
              (mkStamp 0 0 "e1") "scan_now" "r1"
              (default EmptyString (command_line (fun _ => EmptyString) "scan_now" [("scanner", PStr "yara")]%string "r1"))
              (default EmptyString (json_text (fun _ => EmptyString) (PDict [("scanner", PStr "yara")]%string)))
              [("scanner", PStr "yara")]%string
              [("status", PStr "accepted"); ("detail", PStr "queued")]%string reader_init) as (_ & e & _ & H).
  - split; [|done]. apply (bool_decide_unpack _). exact I.
  - vm_compute. reflexivity.
  - vm_compute. reflexivity.
  - vm_compute. discriminate.
  - vm_compute. reflexivity.
  - reflexivity.
  - reflexivity.
  - exists e. exact H.
Defined.
