(* ===== verification/Adapters.v ===== *)
(** * The scanner adapters ([workers/scanner_runner/scanners/])

    AIDE, rkhunter and YARA as instances of the runner's [ScannerAdapter]: the
    command line, the preflight check, the verdict of a run and the parser of
    its report. The regular expressions are written out as recognizers. An
    adapter reads the file system through [ScanWorld]; its other methods are
    functions of their arguments and never raise. *)

From S2P Require Import Prelude Schemas RuleEval Vuln Projector ScannerRunner.

(** What the adapters ask of the file system: [None] is an [OSError] or a
    [ValueError]. [sw_read] is the decoded text of a file with its line ends
    translated; [sw_rglob] lists the paths below a directory, each with whether
    it is a regular file. *)
Record ScanWorld := mkScanWorld {
  sw_is_file : string -> option bool;
  sw_is_dir : string -> option bool;
  sw_exists : string -> option bool;
  sw_read : string -> option string;
  sw_rglob : string -> option (list (string * bool));
}.

(** [[ \t]] *)
Definition is_blank (c : ascii) : bool := Ascii.eqb c " "%char || (code c =? 9)%N.
Fixpoint skip_blank (s : string) : string :=
  match s with
  | String c s' => if is_blank c then skip_blank s' else s
  | EmptyString => EmptyString
  end.
(** The text before a final run of blanks. *)
Fixpoint trim_blank (s : string) : string :=
  match s with
  | EmptyString => EmptyString
  | String c s' =>
      match trim_blank s' with
      | EmptyString => if is_blank c then EmptyString else String c EmptyString
      | r => String c r
      end
  end.
Fixpoint last_char (c : ascii) (s : string) : ascii :=
  match s with EmptyString => c | String d s' => last_char d s' end.

(** [text if len(text) <= limit else text[:limit]] *)
Definition clip (text : string) (limit : nat) : string :=
  if (String.length text <=? limit)%nat then text else str_take limit text.

(** [config.get(key) or default], as a string. *)
Definition config_str (str_other : pyval -> string) (key dflt : string) (config : dict) : string :=
  let v := dict_get key config in py_str str_other (if truthy v then v else PStr dflt).

Definition lines (s : string) : list string := split_on newline s.

(** ** AIDE *)

Module Aide.
Definition DEFAULT_CONFIG_PATH : string := "/var/lib/inspectord/aide/aide.conf".
Definition MAX_CONFIG_BYTES : Z := 1024 * 1024.

(** [_SECTION_HEADERS] *)
Definition section_header (lowered : string) : option string :=
  if String.eqb lowered "added entries:" || String.eqb lowered "added files:" then Some "added"%string
  else if String.eqb lowered "removed entries:" || String.eqb lowered "removed files:" then Some "removed"%string
  else if String.eqb lowered "changed entries:" || String.eqb lowered "changed files:" then Some "changed"%string
  else None.

(** [_HEADING_RE] *)
Definition heading_char (c : ascii) : bool :=
  is_alpha_ascii c || is_digit c || existsb (Ascii.eqb c) [" "; "("; ")"; "_"; "."; ","; "'"; "034"; "-"]%char.
Fixpoint heading_tail (s : string) : bool :=
  match s with
  | EmptyString => false
  | String c s' =>
      if Ascii.eqb c ":"%char then String.eqb s' EmptyString else heading_char c && heading_tail s'
  end.
Definition is_heading (s : string) : bool :=
  match s with String c s' => is_alpha_ascii c && heading_tail s' | EmptyString => false end.

(** [[ \t]+(?P<path>/.*\S)[ \t]*$] *)
Definition path_after (s : string) : option string :=
  match s with
  | String c s' =>
      if is_blank c
      then match skip_blank s' with
           | String "/"%char r =>
               match trim_blank r with
               | EmptyString => None
               | String d r' => if py_space (last_char d r') then None else Some (String "/" (String d r'))
               end
           | _ => None
           end
      else None
  | EmptyString => None
  end.

(** [[^:]*:], up to and with the colon. *)
Fixpoint after_colon (s : string) : option string :=
  match s with
  | EmptyString => None
  | String c s' => if Ascii.eqb c ":"%char then Some s' else after_colon s'
  end.

(** The path of [_ENTRY_RE]. *)
Definition entry_match (s : string) : option string :=
  match s with
  | String c s' => if py_space c then None else rest ← after_colon s'; path_after rest
  | EmptyString => None
  end.

(** The change and path of [_LEGACY_RE]; the alternatives are distinct words. *)
Definition legacy_match (s : string) : option (string * string) :=
  change ← List.find (fun w => startswith (w +:+ ":") (str_lower s)) ["added"; "removed"; "changed"]%string;
  path ← path_after (str_drop (S (String.length change)) s);
  Some (change, path).

Definition aide_finding (change path raw_line : string) : ScanFinding :=
  mkScanFinding "aide_change" change raw_line "file" (Some path) None None (Some ("AIDE: " +:+ change +:+ " " +:+ path)).

(** One line of the report, in the section that is open. *)
Definition parse_line (section : option string) (raw_line : string) : option string * list ScanFinding :=
  let stripped := strip (sanitize_text raw_line) in
  if String.eqb stripped EmptyString then (section, [])
  else match section_header (str_lower stripped) with
       | Some header => (Some header, [])
       | None =>
           if is_heading stripped then (None, [])
           else match legacy_match stripped with
                | Some (change, path) => (section, [aide_finding change path stripped])
                | None =>
                    match section with
                    | None => (None, [])
                    | Some change =>
                        match entry_match stripped with
                        | None => (section, [])
                        | Some path => (section, [aide_finding change path stripped])
                        end
                    end
                end
       end.
Fixpoint parse_lines (section : option string) (ls : list string) : list ScanFinding :=
  match ls with
  | [] => []
  | l :: ls' => let '(section', fs) := parse_line section l in fs ++ parse_lines section' ls'
  end.
Definition aide_parse (stdout stderr : string) : list ScanFinding := parse_lines None (lines stdout).

Definition aide_interpret_outcome (code : Z) (stdout stderr : string) : ScanOutcome :=
  if code =? 0 then SO_clean else if (1 <=? code) && (code <=? 7) then SO_findings else SO_failure.

Definition aide_argv (str_other : pyval -> string) (config : dict) : list string :=
  ["aide"; "--config"; config_str str_other "config_path" DEFAULT_CONFIG_PATH config; "--check"]%string.

(** [_DATABASE_IN_RE]: the url of a line. *)
Definition database_url (line : string) : option string :=
  let s := skip_blank line in
  if startswith "database" s
  then let s := str_drop 8 s in
       let s := if startswith "_in" s then str_drop 3 s else s in
       match skip_blank s with
       | String "="%char s' =>
           match skip_blank s' with
           | String c r => if py_space c then None else Some (trim_blank (String c r))
           | EmptyString => None
           end
       | _ => None
       end
  else None.

Fixpoint first_database (ls : list string) : option string :=
  match ls with
  | [] => None
  | line :: ls' =>
      if startswith "#" (lstrip line) then first_database ls'
      else match database_url line with
           | None => first_database ls'
           | Some url =>
               if contains "@@" url then None
               else let path := if startswith "file:" url then str_drop 5 url else url in
                    if startswith "/" path then Some path else None
           end
  end.
Definition database_in (w : ScanWorld) (config_path : string) : option string :=
  text ← sw_read w config_path; first_database (lines (prefix_upto MAX_CONFIG_BYTES text)).

Definition aide_preflight (str_other : pyval -> string) (w : ScanWorld) (config : dict) : option string :=
  let config_path := config_str str_other "config_path" DEFAULT_CONFIG_PATH config in
  if negb (default false (sw_is_file w config_path)) then Some "config_missing"%string
  else match database_in w config_path with
       | None => None
       | Some database => if negb (default false (sw_exists w database)) then Some "database_missing"%string else None
       end.

Definition aide_adapter (str_other : pyval -> string) : ScannerAdapter ScanWorld :=
  mkAdapter "aide" "aide" (fun _ config => Some (aide_argv str_other config)) (fun w config => Some (aide_preflight str_other w config))
    (fun code out err => Some (aide_interpret_outcome code out err)) (fun out err => Some (aide_parse out err)).
End Aide.

(** Caps the rkhunter and YARA adapters share. *)
Definition MAX_VALUE_LEN : nat := 256.
Definition MAX_MESSAGE_LEN : nat := 4096.
Definition MAX_RAW_LEN : nat := 4096.

(** ** rkhunter *)

Module Rkhunter.
Definition BASE_FLAGS : list string :=
  ["--check"; "--skip-keypress"; "--nocolors"; "--report-warnings-only"; "--no-mail-on-warning"]%string.

Definition is_warning (line : string) : bool := startswith "Warning:" line.

(** The text of [_WARNING_RE]. *)
Definition warning_text (header : string) : string :=
  match str_drop 8 header with
  | String c s => if is_blank c then s else String c s
  | EmptyString => EmptyString
  end.

(** [[ \t]*\[[ \t]*Warning[ \t]*\]$] *)
Definition warning_mark (s : string) : bool :=
  match skip_blank s with
  | String "["%char s1 =>
      let s2 := skip_blank s1 in
      startswith "Warning" s2 && String.eqb (skip_blank (str_drop 7 s2)) "]"
  | _ => false
  end.
(** The shortest [check] of [_CHECK_RE]. *)
Fixpoint check_name (s : string) : option string :=
  if warning_mark s then Some EmptyString
  else match s with
       | EmptyString => None
       | String c s' => name ← check_name s'; Some (String c name)
       end.

(** The text up to the next quote. *)
Fixpoint upto_quote (s : string) : option string :=
  match s with
  | EmptyString => None
  | String c s' => if Ascii.eqb c "'"%char then Some EmptyString else r ← upto_quote s'; Some (String c r)
  end.
(** [_QUOTED_PATH_RE.search] *)
Fixpoint quoted_path (s : string) : option string :=
  match s with
  | EmptyString => None
  | String c s' =>
      let here := if Ascii.eqb c "'"%char && startswith "/" s' then upto_quote s' else None in
      match here with Some p => Some p | None => quoted_path s' end
  end.

(** [_warning_blocks]: the open block is the last one of [blocks], if [open]. *)
Definition add_detail (d : string) (blocks : list (string * list string)) : list (string * list string) :=
  match last blocks with
  | Some (h, ds) => take (length blocks - 1) blocks ++ [(h, ds ++ [d])]
  | None => blocks
  end.
Definition indented (line : string) : bool := match line with String c _ => py_space c | EmptyString => false end.
Definition block_step (st : list (string * list string) * bool) (raw_line : string) : list (string * list string) * bool :=
  let '(blocks, open) := st in
  let line := sanitize_text raw_line in
  if is_warning line then (blocks ++ [(line, [])], true)
  else if String.eqb (strip line) EmptyString then (blocks, open)
  else if open && indented line then (add_detail (strip line) blocks, open)
  else (blocks, false).
Definition warning_blocks (stdout : string) : list (string * list string) := (foldl block_step ([], false) (lines stdout)).1.

Definition nonempty (s : string) : bool := negb (String.eqb s EmptyString).

Definition rkhunter_finding (block : string * list string) : ScanFinding :=
  let '(header, details) := block in
  let text := strip (warning_text header) in
  let named := match check_name text with Some c => strip c | None => text end in
  let value := if nonempty named then named else "rkhunter warning"%string in
  let path := quoted_path text in
  let message := clip (join " " (List.filter nonempty (text :: details))) MAX_MESSAGE_LEN in
  mkScanFinding "rkhunter_test" (clip value MAX_VALUE_LEN) (clip header MAX_RAW_LEN)
    (match path with Some _ => "file"%string | None => "process"%string end) path None None
    (if nonempty message then Some message else None).

Definition rkhunter_parse (stdout stderr : string) : list ScanFinding := rkhunter_finding <$> warning_blocks stdout.

Definition rkhunter_interpret_outcome (code : Z) (stdout stderr : string) : ScanOutcome :=
  match warning_blocks stdout with
  | _ :: _ => SO_findings
  | [] => if code =? 0 then SO_clean else SO_failure
  end.

(** [_joined] *)
Definition joined (str_other : pyval -> string) (v : pyval) : string :=
  match v with
  | PNone => EmptyString
  | PStr s => strip s
  | PList items => join "," (List.filter nonempty ((fun i => strip (py_str str_other i)) <$> items))
  | v => strip (py_str str_other v)
  end.
Definition rkhunter_argv (str_other : pyval -> string) (config : dict) : list string :=
  "rkhunter"%string :: BASE_FLAGS ++
  ('(key, flag) ← [("enable", "--enable"); ("disable", "--disable")]%string;
   let value := joined str_other (dict_get key config) in
   if nonempty value then [flag; value] else []) ++
  ('(key, flag) ← [("configfile", "--configfile"); ("logfile", "--logfile")]%string;
   let path := dict_get key config in
   if truthy path then [flag; py_str str_other path] else []).

Definition rkhunter_preflight (config : dict) : option string := None.

Definition rkhunter_adapter (str_other : pyval -> string) : ScannerAdapter ScanWorld :=
  mkAdapter "rkhunter" "rkhunter" (fun _ config => Some (rkhunter_argv str_other config)) (fun _ config => Some (rkhunter_preflight config))
    (fun code out err => Some (rkhunter_interpret_outcome code out err)) (fun out err => Some (rkhunter_parse out err)).
End Rkhunter.

(** ** YARA *)

Module Yara.
Definition DEFAULT_RULES_DIR : string := "/var/lib/inspectord/yara".
Definition DEFAULT_TARGET : string := "/home".
Definition RULE_SUFFIXES : list string := [".yar"; ".yara"]%string.
Definition MAX_SEVERITY_LEN : nat := 64.
Definition quote : ascii := "034"%char.
Definition backslash : ascii := "092"%char.

(** [_RULE_NAME_RE] *)
Definition rule_name (s : string) : bool :=
  match s with String c s' => ident_start c && str_forall ident_char s' | EmptyString => false end.

(** [_split_meta] past the opening bracket: the meta block and the tail. *)
Fixpoint scan_meta (escaped quoted : bool) (s : string) : option (string * string) :=
  match s with
  | EmptyString => None
  | String c s' =>
      let next (e q : bool) := '(m, t) ← scan_meta e q s'; Some (String c m, t) in
      if escaped then next false quoted
      else if Ascii.eqb c backslash then next true quoted
      else if Ascii.eqb c quote then next false (negb quoted)
      else if Ascii.eqb c "]"%char && negb quoted then Some (EmptyString, s')
      else next false quoted
  end.
Definition split_meta (rest : string) : option (string * string) :=
  '(meta, tail) ← scan_meta false false (str_drop 1 rest); Some (meta, removeprefix " " tail).

(** [_split_top_level] before the stripping: the pieces between top-level commas. *)
Fixpoint pieces (escaped quoted : bool) (s : string) : list string :=
  match s with
  | EmptyString => [EmptyString]
  | String c s' =>
      let next (e q : bool) := match pieces e q s' with [] => [] | p :: ps => String c p :: ps end in
      if escaped then next false quoted
      else if Ascii.eqb c backslash then next true quoted
      else if Ascii.eqb c quote then next false (negb quoted)
      else if Ascii.eqb c ","%char && negb quoted then EmptyString :: pieces false quoted s'
      else next false quoted
  end.
Definition split_top_level (meta : string) : list string :=
  List.filter Rkhunter.nonempty (strip <$> pieces false false meta).

(** [s.replace("\x", "y")] for a backslash and one more character. *)
Fixpoint replace_escape (x y : ascii) (s : string) : string :=
  match s with
  | String c s' =>
      match s' with
      | String d s'' =>
          if Ascii.eqb c backslash && Ascii.eqb d x then String y (replace_escape x y s'') else String c (replace_escape x y s')
      | EmptyString => s
      end
  | EmptyString => EmptyString
  end.

(** A quoted value without its quotes and escapes, any other as it is. *)
Definition meta_value (value : string) : string :=
  if (2 <=? String.length value)%nat && startswith (String quote EmptyString) value && endswith (String quote EmptyString) value
  then replace_escape backslash backslash (replace_escape quote quote (str_inner value)) else value.

Fixpoint severity_of (items : list string) : option string :=
  match items with
  | [] => None
  | item :: items' =>
      match str_partition "="%char item with
      | (key, Some value) =>
          if String.eqb (strip key) "severity"
          then let v := clip (meta_value (strip value)) MAX_SEVERITY_LEN in
               if Rkhunter.nonempty v then Some v else None
          else severity_of items'
      | (_, None) => severity_of items'
      end
  end.
Definition meta_severity (meta : string) : option string := severity_of (split_top_level meta).

Definition yara_finding (line rule path : string) (severity : option string) : ScanFinding :=
  mkScanFinding "yara_rule" (clip rule MAX_VALUE_LEN) (clip line MAX_RAW_LEN) "file" (Some path) None severity
    (Some (clip ("YARA: " +:+ rule +:+ " matched " +:+ path) MAX_MESSAGE_LEN)).

(** [_match_line] *)
Definition match_line (line : string) : option ScanFinding :=
  if String.eqb line EmptyString || Rkhunter.indented line then None
  else match str_partition " "%char line with
       | (rule, Some rest) =>
           if negb (rule_name rule) || String.eqb rest EmptyString then None
           else let tail := if startswith "[" rest
                            then '(meta, remainder) ← split_meta rest; Some (meta_severity meta, remainder)
                            else Some (None, rest) in
                '(severity, path) ← tail;
                if startswith "/" path then Some (yara_finding line rule path severity) else None
       | (_, None) => None
       end.

Definition yara_parse (stdout stderr : string) : list ScanFinding :=
  omap (fun raw_line => match_line (sanitize_text raw_line)) (lines stdout).

Definition yara_interpret_outcome (code : Z) (stdout stderr : string) : ScanOutcome :=
  match yara_parse stdout "" with
  | _ :: _ => SO_findings
  | [] => if code =? 0 then SO_clean else SO_failure
  end.

(** [Path.suffix] of a path, lower-cased: from the last dot of its last part,
    unless that dot is the first or last character. *)
Fixpoint last_part (s : string) (cur : string) : string :=
  match s with
  | EmptyString => cur
  | String c s' => if Ascii.eqb c "/"%char then last_part s' EmptyString else last_part s' (cur +:+ String c EmptyString)
  end.
Fixpoint from_last_dot (s : string) : option string :=
  match s with
  | EmptyString => None
  | String c s' =>
      match from_last_dot s' with
      | Some r => Some r
      | None => if Ascii.eqb c "."%char && Rkhunter.nonempty s' then Some s else None
      end
  end.
Definition suffix (path : string) : string :=
  let name := last_part path EmptyString in
  match name with
  | EmptyString => EmptyString
  | String _ rest => if endswith "." name then EmptyString else default EmptyString (from_last_dot rest)
  end.

Definition part_le (a b : list string) : Prop :=
  (fix go (a b : list string) : Prop :=
     match a, b with
     | [], _ => True
     | _ :: _, [] => False
     | x :: a', y :: b' => if String.eqb x y then go a' b' else String.le x y
     end) a b.
#[export] Instance part_le_dec : RelDecision part_le.
Proof.
  intros a. induction a as [|x a IH]; intros [|y b]; cbn; try apply _. destruct (String.eqb x y); [apply IH | apply _].
Defined.
(** [Path.__lt__]: paths compare part by part. *)
Definition path_le (p q : string) : Prop := part_le (split_on "/"%char p) (split_on "/"%char q).
#[export] Instance path_le_dec : RelDecision path_le.
Proof. intros p q. apply part_le_dec. Defined.
(** [_rule_files] *)
Definition rule_files (w : ScanWorld) (directory : string) : list string :=
  match sw_rglob w directory with
  | None => []
  | Some paths =>
      merge_sort path_le
        (fst <$> List.filter (fun x => existsb (String.eqb (str_lower (suffix x.1))) RULE_SUFFIXES && x.2) paths)
  end.

Definition rules_dir (str_other : pyval -> string) : dict -> string := config_str str_other "rules_dir" DEFAULT_RULES_DIR.
Definition target (str_other : pyval -> string) : dict -> string := config_str str_other "target" DEFAULT_TARGET.

Definition yara_argv (str_other : pyval -> string) (w : ScanWorld) (config : dict) : list string :=
  ["yara"; "-r"; "-m"; "-w"]%string ++ rule_files w (rules_dir str_other config) ++ [target str_other config].

Definition yara_preflight (str_other : pyval -> string) (w : ScanWorld) (config : dict) : option string :=
  let directory := rules_dir str_other config in
  if negb (default false (sw_is_dir w directory)) then Some "rules_missing"%string
  else match rule_files w directory with
       | [] => Some "rules_empty"%string
       | _ :: _ => if negb (default false (sw_exists w (target str_other config))) then Some "target_missing"%string else None
       end.

Definition yara_adapter (str_other : pyval -> string) : ScannerAdapter ScanWorld :=
  mkAdapter "yara" "yara" (fun w config => Some (yara_argv str_other w config)) (fun w config => Some (yara_preflight str_other w config))
    (fun code out err => Some (yara_interpret_outcome code out err)) (fun out err => Some (yara_parse out err)).
End Yara.

(** [default_adapters] *)
Definition default_adapters (str_other : pyval -> string) : list (ScannerAdapter ScanWorld) :=
  [Aide.aide_adapter str_other; Rkhunter.rkhunter_adapter str_other; Yara.yara_adapter str_other].
