(* ===== verification/AdapterProofs.v ===== *)
(** * What the scanner adapters guarantee

    Scanner output is untrusted: file names are in it. The theorems of this
    file say what an adapter makes of it: findings without control characters,
    every line the scanners are documented to print read back exactly whatever
    the names in it are, and what a name with a line break can do. *)

From S2P Require Import Prelude Schemas Json RuleEval Vuln Projector ScannerRunner ScannerProofs Adapters.

(** ** Characters of a part *)

Create HintDb chars discriminated.

Section Chars.
Context (p : ascii -> bool).

Lemma forall_cons (c : ascii) (s : string) : str_forall p (String c s) = true <-> p c = true /\ str_forall p s = true.
Proof. apply andb_true_iff. Qed.
Lemma forall_app2 (a b : string) : str_forall p a = true -> str_forall p b = true -> str_forall p (a +:+ b) = true.
Proof. intros Ha Hb. by rewrite str_forall_app, Ha, Hb. Qed.
Lemma forall_lstrip (s : string) : str_forall p s = true -> str_forall p (lstrip s) = true.
Proof. induction s as [|c s IH]; [done|]. intros [Hc Hs]%forall_cons. cbn [lstrip]. destruct (py_space c); [auto|]. by apply forall_cons. Qed.
Lemma forall_rstrip (s : string) : str_forall p s = true -> str_forall p (rstrip s) = true.
Proof.
  induction s as [|c s IH]; [done|]. intros [Hc Hs]%forall_cons. specialize (IH Hs). cbn [rstrip].
  destruct (rstrip s) as [|d r]; [|by apply forall_cons]. destruct (py_space c); [done|]. by apply forall_cons.
Qed.
Lemma forall_strip (s : string) : str_forall p s = true -> str_forall p (strip s) = true.
Proof. intros H. by apply forall_rstrip, forall_lstrip. Qed.
Lemma forall_drop (n : nat) (s : string) : str_forall p s = true -> str_forall p (str_drop n s) = true.
Proof. revert s. induction n as [|n IH]; intros [|c s]; try done. intros [_ Hs]%forall_cons. by apply IH. Qed.
Lemma forall_take (n : nat) (s : string) : str_forall p s = true -> str_forall p (str_take n s) = true.
Proof. revert s. induction n as [|n IH]; intros [|c s]; try done. intros [Hc Hs]%forall_cons. apply forall_cons. auto. Qed.
Lemma forall_clip (n : nat) (s : string) : str_forall p s = true -> str_forall p (clip s n) = true.
Proof. intros H. unfold clip. destruct (_ <=? _)%nat; [done | by apply forall_take]. Qed.
Lemma forall_skip_blank (s : string) : str_forall p s = true -> str_forall p (skip_blank s) = true.
Proof. induction s as [|c s IH]; [done|]. intros [Hc Hs]%forall_cons. cbn [skip_blank]. destruct (is_blank c); [auto|]. by apply forall_cons. Qed.
Lemma forall_trim_blank (s : string) : str_forall p s = true -> str_forall p (trim_blank s) = true.
Proof.
  induction s as [|c s IH]; [done|]. intros [Hc Hs]%forall_cons. specialize (IH Hs). cbn [trim_blank].
  destruct (trim_blank s) as [|d r]; [|by apply forall_cons]. destruct (is_blank c); [done|]. by apply forall_cons.
Qed.
Lemma forall_init (s : string) : str_forall p s = true -> str_forall p (str_init s) = true.
Proof.
  induction s as [|c s IH]; [done|]. intros [Hc Hs]%forall_cons. cbn. destruct s; [done|]. apply forall_cons. auto.
Qed.
Lemma forall_inner (s : string) : str_forall p s = true -> str_forall p (str_inner s) = true.
Proof. intros H. by apply forall_init, forall_drop. Qed.
Lemma forall_removeprefix (q s : string) : str_forall p s = true -> str_forall p (removeprefix q s) = true.
Proof. intros H. unfold removeprefix. destruct (startswith q s); [by apply forall_drop | done]. Qed.
Lemma forall_join (sep : string) (l : list string) :
  str_forall p sep = true -> Forall (fun s => str_forall p s = true) l -> str_forall p (join sep l) = true.
Proof.
  intros Hsep. induction l as [|x [|y l] IH]; intros [Hx Hl]%Forall_cons_1 || done.
  - done.
  - change (join sep (x :: y :: l)) with (x +:+ sep +:+ join sep (y :: l)). auto using forall_app2.
Qed.
End Chars.
#[export] Hint Resolve forall_app2 forall_strip forall_drop forall_take forall_clip forall_skip_blank forall_trim_blank
  forall_inner forall_removeprefix forall_join : chars.

Definition clean (s : string) : bool := str_forall (fun c => negb (is_control c)) s.

Lemma sanitize_clean (s : string) : clean (sanitize_text s) = true.
Proof.
  induction s as [|c s IH]; [done|]. unfold sanitize_text. cbn [str_filter]. destruct (negb (is_control c)) eqn:E; [|done].
  apply forall_cons. by rewrite E.
Qed.
Lemma sanitize_app (a b : string) : sanitize_text (a +:+ b) = sanitize_text a +:+ sanitize_text b.
Proof. induction a as [|c a IH]; [done|]. unfold sanitize_text in *. cbn. destruct (negb _); [|done]. cbn. by rewrite IH. Qed.
Lemma sanitize_id (s : string) : clean s = true -> sanitize_text s = s.
Proof. induction s as [|c s IH]; [done|]. intros [Hc Hs]%forall_cons. unfold sanitize_text in *. cbn. rewrite Hc. by rewrite IH. Qed.

(** ** Findings carry no control characters *)

Definition finding_clean (f : ScanFinding) : Prop :=
  clean (fd_indicator_value f) = true /\ clean (fd_raw_line f) = true /\
  clean (default EmptyString (fd_path f)) = true /\ clean (default EmptyString (fd_severity f)) = true /\
  clean (default EmptyString (fd_message f)) = true.

Lemma path_after_clean (s path : string) : clean s = true -> Aide.path_after s = Some path -> clean path = true.
Proof.
  destruct s as [|c s]; [done|]. intros [_ Hs]%forall_cons. cbn [Aide.path_after]. destruct (is_blank c); [|done].
  pose proof (forall_skip_blank _ _ Hs) as Hk. destruct (skip_blank s) as [|d r]; [done|]. apply forall_cons in Hk as [Hd Hr].
  apply forall_trim_blank in Hr. destruct d as [[] [] [] [] [] [] [] []]; try done.
  destruct (trim_blank r) as [|e r']; [done|]. destruct (py_space _); [done|]. intros [= <-]. by apply forall_cons.
Qed.

Lemma after_colon_clean (s r : string) : clean s = true -> Aide.after_colon s = Some r -> clean r = true.
Proof.
  induction s as [|c s IH]; [done|]. intros [_ Hs]%forall_cons. cbn. destruct (Ascii.eqb c ":"); [by intros [= <-]|]. auto.
Qed.

Lemma aide_finding_clean (change path raw : string) :
  clean change = true -> clean path = true -> clean raw = true -> finding_clean (Aide.aide_finding change path raw).
Proof. intros Hc Hp Hr. split_and!; try done. by apply (forall_app2 _ change (String " " path)). Qed.

Lemma section_header_clean (l h : string) : Aide.section_header l = Some h -> clean h = true.
Proof. unfold Aide.section_header. repeat (destruct (_ || _); [by intros [= <-]|]). done. Qed.

Lemma aide_line_clean (section : option string) (raw : string) :
  clean (default EmptyString section) = true ->
  clean (default EmptyString (Aide.parse_line section raw).1) = true /\
  Forall finding_clean (Aide.parse_line section raw).2.
Proof.
  intros Hsec. unfold Aide.parse_line. pose proof (forall_strip _ _ (sanitize_clean raw)) as Hs.
  change (clean (strip (sanitize_text raw)) = true) in Hs. set (l := strip (sanitize_text raw)) in *.
  destruct (String.eqb l EmptyString); [done|].
  destruct (Aide.section_header (str_lower l)) as [h|] eqn:Eh; [split; [by apply (section_header_clean _ _ Eh)|done]|].
  destruct (Aide.is_heading l); [done|].
  destruct (Aide.legacy_match l) as [[change path]|] eqn:El.
  - split; [done|]. apply Forall_singleton. unfold Aide.legacy_match in El.
    destruct (List.find _ _) as [w|] eqn:Ef; [|done]. cbn [mbind option_bind] in El.
    destruct (Aide.path_after _) as [q|] eqn:Ep; [|done]. cbn in El. injection El as <- <-.
    apply aide_finding_clean; [|eapply path_after_clean; [|exact Ep]; by apply forall_drop | done].
    apply List.find_some in Ef as [[<-|[<-|[<-|[]]]] _]; done.
  - destruct section as [change|]; [|done]. destruct (Aide.entry_match l) as [path|] eqn:Ee; [|done].
    split; [done|]. apply Forall_singleton, aide_finding_clean; [done| |done].
    unfold Aide.entry_match in Ee. destruct l as [|c l']; [done|]. apply forall_cons in Hs as [_ Hs].
    destruct (py_space c); [done|]. destruct (Aide.after_colon l') as [r|] eqn:Ec; [|done]. cbn in Ee.
    eapply path_after_clean; [eapply after_colon_clean|]; done.
Qed.

Lemma aide_findings_clean (section : option string) (ls : list string) :
  clean (default EmptyString section) = true -> Forall finding_clean (Aide.parse_lines section ls).
Proof.
  revert section. induction ls as [|l ls IH]; intros section Hs; [done|]. cbn [Aide.parse_lines].
  pose proof (aide_line_clean section l Hs) as [H1 H2]. destruct (Aide.parse_line section l) as [s' fs].
  apply Forall_app. split; [done | by apply IH].
Qed.

Definition block_clean (b : string * list string) : Prop := clean b.1 = true /\ Forall (fun d => clean d = true) b.2.

Lemma add_detail_clean (d : string) (bs : list (string * list string)) :
  clean d = true -> Forall block_clean bs -> Forall block_clean (Rkhunter.add_detail d bs).
Proof.
  intros Hd Hbs. unfold Rkhunter.add_detail. destruct (last bs) as [[h ds]|] eqn:E; [|done].
  apply last_Some in E as (bs' & ->). pose proof Hbs as [_ [[H2 H3] _]%Forall_cons_1]%Forall_app.
  apply Forall_app. split; [by apply Forall_take|]. apply Forall_singleton. split; [done|]. cbn.
  apply Forall_app. split; [done | by apply Forall_singleton].
Qed.

Lemma block_step_clean (st : list (string * list string) * bool) (raw : string) :
  Forall block_clean st.1 -> Forall block_clean (Rkhunter.block_step st raw).1.
Proof.
  destruct st as [bs open]. cbn [fst]. intros H. unfold Rkhunter.block_step. pose proof (sanitize_clean raw) as Hl.
  destruct (Rkhunter.is_warning _); [cbn; apply Forall_app; split; [done|]; apply Forall_singleton; by split|].
  destruct (String.eqb _ _); [done|]. destruct (open && _); [|done]. cbn. apply add_detail_clean; [by apply forall_strip | done].
Qed.

Lemma warning_blocks_clean (stdout : string) : Forall block_clean (Rkhunter.warning_blocks stdout).
Proof.
  unfold Rkhunter.warning_blocks. assert (Forall block_clean (fst (@nil (string * list string), false))) as H by done.
  revert H. generalize (@nil (string * list string), false). induction (lines stdout) as [|l ls IH]; intros st H; [done|].
  cbn. apply IH. by apply block_step_clean.
Qed.

Lemma check_name_clean (s n : string) : clean s = true -> Rkhunter.check_name s = Some n -> clean n = true.
Proof.
  revert n. induction s as [|c s IH]; intros n Hs; cbn [Rkhunter.check_name].
  - destruct (Rkhunter.warning_mark _); [by intros [= <-] | done].
  - apply forall_cons in Hs as [Hc Hs]. destruct (Rkhunter.warning_mark _); [by intros [= <-]|].
    destruct (Rkhunter.check_name s) as [m|]; [|done]. cbn. intros [= <-]. apply forall_cons. auto.
Qed.
Lemma upto_quote_clean (s q : string) : clean s = true -> Rkhunter.upto_quote s = Some q -> clean q = true.
Proof.
  revert q. induction s as [|c s IH]; intros q Hs; [done|]. apply forall_cons in Hs as [Hc Hs]. cbn [Rkhunter.upto_quote].
  destruct (Ascii.eqb c "'"); [by intros [= <-]|]. destruct (Rkhunter.upto_quote s) as [m|]; [|done]. cbn. intros [= <-].
  apply forall_cons. auto.
Qed.
Lemma quoted_path_clean (s q : string) : clean s = true -> Rkhunter.quoted_path s = Some q -> clean q = true.
Proof.
  induction s as [|c s IH]; [done|]. intros [Hc Hs]%forall_cons. cbn [Rkhunter.quoted_path].
  destruct (Ascii.eqb c "'" && startswith "/" s); [|auto].
  destruct (Rkhunter.upto_quote s) as [m|] eqn:E; [|auto]. intros [= <-]. by apply (upto_quote_clean s).
Qed.

Lemma rkhunter_finding_clean (b : string * list string) : block_clean b -> finding_clean (Rkhunter.rkhunter_finding b).
Proof.
  destruct b as [h ds]. intros [Hh Hds]. cbn in Hh, Hds. unfold Rkhunter.rkhunter_finding.
  assert (clean (strip (Rkhunter.warning_text h)) = true) as Ht.
  { apply forall_strip. unfold Rkhunter.warning_text. pose proof (forall_drop _ 8 _ Hh) as H. destruct (str_drop 8 h); [done|].
    destruct (is_blank _); [exact (proj2 (proj1 (forall_cons _ _ _) H)) | exact H]. }
  set (text := strip _) in *. split_and!; cbn [fd_indicator_value fd_raw_line fd_path fd_severity fd_message].
  - apply forall_clip. destruct (Rkhunter.check_name text) as [c|] eqn:Ec; [|by destruct (Rkhunter.nonempty text)].
    pose proof (forall_strip _ _ (check_name_clean _ _ Ht Ec)). by destruct (Rkhunter.nonempty (strip c)).
  - by apply forall_clip.
  - destruct (Rkhunter.quoted_path text) as [q|] eqn:Eq; [|done]. exact (quoted_path_clean _ _ Ht Eq).
  - done.
  - destruct (Rkhunter.nonempty _); [|done]. apply forall_clip, forall_join; [done|].
    assert (Forall (fun d => clean d = true) (text :: ds)) as Hall by (by constructor).
    revert Hall. generalize (text :: ds). intros l. rewrite !Forall_forall. intros H x Hx. apply H.
    apply list_elem_of_In in Hx. apply List.filter_In in Hx as [Hx _]. by apply list_elem_of_In.
Qed.

Lemma partition_spec (sep : ascii) (s a : string) (b : option string) :
  str_partition sep s = (a, b) ->
  str_forall (fun c => negb (Ascii.eqb c sep)) a = true /\
  s = match b with Some r => a +:+ String sep r | None => a end.
Proof.
  revert a b. induction s as [|c s IH]; intros a b; cbn [str_partition]; [by intros [= <- <-]|].
  destruct (Ascii.eqb_spec c sep) as [->|Hne]; [by intros [= <- <-]|].
  destruct (str_partition sep s) as [a' b'] eqn:E. intros [= <- <-]. destruct (IH _ _ eq_refl) as [H1 H2]. split.
  - apply forall_cons. split; [|done]. by destruct (Ascii.eqb_spec c sep).
  - rewrite H2. by destruct b'.
Qed.

Lemma partition_clean (sep : ascii) (s a : string) (b : option string) :
  clean s = true -> str_partition sep s = (a, b) -> clean a = true /\ clean (default EmptyString b) = true.
Proof.
  intros Hs [_ ->]%partition_spec. destruct b as [r|]; [|done]. cbn. unfold clean in Hs. rewrite str_forall_app in Hs.
  apply andb_prop in Hs as [Ha [_ Hr]%forall_cons]. done.
Qed.

(** What a meta block and a tail are made of. *)
Lemma scan_meta_spec (e q : bool) (s m t : string) : Yara.scan_meta e q s = Some (m, t) -> s = m +:+ String "]" t.
Proof.
  revert e q m t. induction s as [|c s IH]; intros e q m t; [done|]. cbn [Yara.scan_meta].
  assert (forall e' q', ('(m', t') ← Yara.scan_meta e' q' s; Some (String c m', t')) = Some (m, t) -> String c s = m +:+ String "]" t) as Hn.
  { intros e' q' H. destruct (Yara.scan_meta e' q' s) as [[m' t']|] eqn:E; [|done]. cbn in H. injection H as <- <-.
    cbn. f_equal. exact (IH _ _ _ _ E). }
  destruct e; [apply Hn|]. destruct (Ascii.eqb c Yara.backslash); [apply Hn|]. destruct (Ascii.eqb c Yara.quote); [apply Hn|].
  destruct (Ascii.eqb_spec c "]"); [|apply Hn]. destruct q; [apply Hn|]. subst c. by intros [= <- <-].
Qed.

Lemma pieces_clean (e q : bool) (s : string) : clean s = true -> Forall (fun x => clean x = true) (Yara.pieces e q s).
Proof.
  revert e q. induction s as [|c s IH]; intros e q Hs; [by apply Forall_singleton|]. apply forall_cons in Hs as [Hc Hs].
  cbn [Yara.pieces].
  assert (forall e' q', Forall (fun x => clean x = true) (match Yara.pieces e' q' s with [] => [] | p :: ps => String c p :: ps end)) as Hn.
  { intros e' q'. specialize (IH e' q' Hs). destruct (Yara.pieces e' q' s) as [|p ps]; [done|].
    apply Forall_cons_1 in IH as [Hp Hps]. constructor; [|done]. by apply forall_cons. }
  destruct e; [apply Hn|]. destruct (Ascii.eqb c Yara.backslash); [apply Hn|]. destruct (Ascii.eqb c Yara.quote); [apply Hn|].
  destruct (_ && _); [|apply Hn]. constructor; [done | by apply IH].
Qed.

Lemma replace_escape_clean (x y : ascii) (s : string) :
  negb (is_control y) = true -> clean s = true -> clean (Yara.replace_escape x y s) = true.
Proof.
  intros Hy. remember (String.length s) as n eqn:Hn. assert (String.length s <= n)%nat as Hl by lia. clear Hn.
  revert s Hl. induction n as [|n IH]; intros s Hl Hs; [by destruct s; [|cbn in Hl; lia]|].
  destruct s as [|c [|d s]]; [done..|]. pose proof Hs as [Hc [Hd Hs']%forall_cons]%forall_cons. cbn in Hl.
  cbn [Yara.replace_escape]. destruct (_ && _); apply forall_cons; split; [done | apply IH; [lia|done] | done |].
  apply (IH (String d s)); [cbn; lia|]. by apply forall_cons.
Qed.

Lemma severity_of_clean (items : list string) (v : string) :
  Forall (fun x => clean x = true) items -> Yara.severity_of items = Some v -> clean v = true.
Proof.
  induction items as [|i items IH]; [done|]. intros [Hi Hits]%Forall_cons_1. cbn [Yara.severity_of].
  destruct (str_partition "=" i) as [key [value|]] eqn:Ep; [|auto]. destruct (String.eqb _ _); [|auto].
  apply (partition_clean _ _ _ _ Hi) in Ep as [_ Hv]. cbn in Hv. apply forall_strip in Hv. set (w := strip value) in *.
  assert (clean (Yara.meta_value w) = true) as Hm.
  { unfold Yara.meta_value. destruct (_ && _); [|done]. apply replace_escape_clean; [done|]. apply replace_escape_clean; [done|].
    by apply forall_inner. }
  destruct (Rkhunter.nonempty _); [|done]. intros [= <-]. by apply forall_clip.
Qed.

Lemma match_line_clean (line : string) (f : ScanFinding) : clean line = true -> Yara.match_line line = Some f -> finding_clean f.
Proof.
  intros Hl. unfold Yara.match_line. destruct (_ || _); [done|].
  destruct (str_partition " " line) as [rule [rest|]] eqn:Ep; [|done].
  apply (partition_clean _ _ _ _ Hl) in Ep as [Hr Hrest]. cbn in Hrest. destruct (_ || _); [done|].
  assert (forall sev path, clean path = true -> clean (default EmptyString sev) = true ->
            (if startswith "/" path then Some (Yara.yara_finding line rule path sev) else None) = Some f -> finding_clean f) as Hok.
  { intros sev path Hp Hs. destruct (startswith "/" path); [|done]. intros [= <-]. split_and!; cbn; [by apply forall_clip..|done|done|].
    apply forall_clip. by apply (forall_app2 _ rule (" matched " +:+ path)). }
  destruct (startswith "[" rest); [|by apply (Hok None rest)].
  unfold Yara.split_meta. destruct (Yara.scan_meta _ _ _) as [[meta tail]|] eqn:Es; [|done]. cbn [mbind option_bind].
  apply scan_meta_spec in Es. pose proof (forall_drop _ 1 _ Hrest) as Hd. rewrite Es, str_forall_app in Hd.
  apply andb_prop in Hd as [Hm [_ Ht]%forall_cons]. apply Hok; [by apply forall_removeprefix|].
  unfold Yara.meta_severity. destruct (Yara.severity_of _) as [v|] eqn:Ev; [|done]. refine (severity_of_clean _ _ _ Ev).
  apply Forall_forall. intros x Hx%list_elem_of_In. apply List.filter_In in Hx as [Hx _].
  apply list_elem_of_In, list_elem_of_fmap in Hx as (y & -> & Hy). apply forall_strip.
  pose proof (pieces_clean false false meta Hm) as Hp. rewrite Forall_forall in Hp. exact (Hp y Hy).
Qed.

(** Whatever a scanner prints, no field of a finding a shipped adapter
    makes of it holds a control character other than a tab, so an event never
    carries a terminal escape or a line break of the scanned host's choosing. *)
Theorem findings_control_free (str_other : pyval -> string) (a : ScannerAdapter ScanWorld) (stdout stderr : string)
    (fs : list ScanFinding) (f : ScanFinding) :
  a ∈ default_adapters str_other -> ad_parse a stdout stderr = Some fs -> f ∈ fs ->
  clean (fd_indicator_value f) = true /\ clean (fd_raw_line f) = true /\
  clean (default EmptyString (fd_path f)) = true /\ clean (default EmptyString (fd_severity f)) = true /\
  clean (default EmptyString (fd_message f)) = true.
Proof.
  unfold default_adapters. rewrite !elem_of_cons, elem_of_nil. intros Ha Hp Hf. change (finding_clean f).
  revert f Hf. apply Forall_forall. destruct Ha as [->|[->|[->|[]]]]; injection Hp as <-.
  - by apply aide_findings_clean.
  - apply Forall_fmap. eapply Forall_impl; [apply warning_blocks_clean|]. intros b Hb. by apply rkhunter_finding_clean.
  - apply Forall_forall. intros f (raw & _ & Hm)%list_elem_of_omap. exact (match_line_clean _ _ (sanitize_clean raw) Hm).
Qed.

(** ** Verdicts *)

Lemma rkhunter_outcome (code : Z) (out err : string) :
  Rkhunter.rkhunter_interpret_outcome code out err
  = match Rkhunter.rkhunter_parse out err with _ :: _ => SO_findings | [] => if code =? 0 then SO_clean else SO_failure end.
Proof. unfold Rkhunter.rkhunter_interpret_outcome, Rkhunter.rkhunter_parse. by destruct (Rkhunter.warning_blocks out). Qed.

(** The verdict of a run of a shipped scanner: clean needs exit status
    zero, and for rkhunter and YARA that nothing was found; with findings means
    that something was found, or AIDE's difference bits; and a failure of a run
    that exited hides nothing: the status was not zero, for AIDE no difference
    status, and rkhunter's and YARA's output holds no finding. *)
Theorem shipped_verdicts (str_other : pyval -> string) (run : ActiveRun ScanWorld) (result : ScanResult) (code : Z) :
  ru_adapter run ∈ default_adapters str_other ->
  pre_exit_failure_reason result = None -> rs_exit_code result = Some code ->
  exists found, ad_parse (ru_adapter run) (rs_stdout result) (rs_stderr result) = Some found /\
  match judge run result with
  | (SO_clean, _, fs) => code = 0 /\ fs = found /\ (ad_name (ru_adapter run) <> "aide"%string -> found = [])
  | (SO_findings, _, fs) => fs = found /\ if String.eqb (ad_name (ru_adapter run)) "aide" then 1 <= code <= 7 else found <> []
  | (SO_failure, reason, fs) =>
      fs = [] /\ reason = Some "scanner_error"%string /\ code <> 0 /\
      if String.eqb (ad_name (ru_adapter run)) "aide" then ~ (1 <= code <= 7) else found = []
  end.
Proof.
  unfold default_adapters. rewrite !elem_of_cons, elem_of_nil. intros Ha Hp Hc.
  unfold judge, classify. rewrite Hp, Hc. destruct Ha as [->|[->|[->|[]]]]; (eexists; split; [reflexivity|]);
    cbn [ad_interpret_outcome Aide.aide_adapter Rkhunter.rkhunter_adapter Yara.yara_adapter ad_parse ad_name].
  - unfold Aide.aide_interpret_outcome. destruct (Z.eqb_spec code 0) as [->|Hz]; [done|].
    destruct (Z.leb_spec 1 code), (Z.leb_spec code 7); cbn; split_and!; try done; lia.
  - rewrite rkhunter_outcome. destruct (Rkhunter.rkhunter_parse _ _) as [|f fs] eqn:E; [|done].
    destruct (Z.eqb_spec code 0); done.
  - unfold Yara.yara_interpret_outcome.
    change (Yara.yara_parse (rs_stdout result) (rs_stderr result)) with (Yara.yara_parse (rs_stdout result) "").
    destruct (Yara.yara_parse (rs_stdout result) "") as [|f fs] eqn:E; [|done].
    destruct (Z.eqb_spec code 0); done.
Qed.

(** ** A match line of YARA reads back *)

(** The meta values YARA prints. *)
Inductive MetaValue := MStr (s : string) | MInt (z : Z).

Fixpoint escape (s : string) : string :=
  match s with
  | EmptyString => EmptyString
  | String c s' =>
      if Ascii.eqb c Yara.quote || Ascii.eqb c Yara.backslash then String Yara.backslash (String c (escape s')) else String c (escape s')
  end.
Definition quoted_text (v : string) : string := String Yara.quote (escape v +:+ String Yara.quote EmptyString).
Definition meta_item (i : string * MetaValue) : string :=
  match i.2 with
  | MStr v => i.1 +:+ String "=" (quoted_text v)
  | MInt z => i.1 +:+ " =" +:+ str_of_Z z
  end.
Definition meta_block (items : list (string * MetaValue)) : string := join "," (meta_item <$> items).
Definition match_text (rule : string) (items : option (list (string * MetaValue))) (path : string) : string :=
  rule +:+ " " +:+ match items with Some is_ => "[" +:+ meta_block is_ +:+ "] " | None => EmptyString end +:+ path.

(** The severity a rule declares. *)
Definition value_text (v : MetaValue) : string := match v with MStr s => s | MInt z => str_of_Z z end.
Definition declared_severity (items : list (string * MetaValue)) : option string :=
  match List.find (fun i => String.eqb i.1 "severity") items with
  | Some (_, v) => let t := clip (value_text v) Yara.MAX_SEVERITY_LEN in if Rkhunter.nonempty t then Some t else None
  | None => None
  end.

(** Unescaping: the first pass leaves only doubled backslashes. *)
Fixpoint double_backslash (s : string) : string :=
  match s with
  | EmptyString => EmptyString
  | String c s' => if Ascii.eqb c Yara.backslash then String c (String c (double_backslash s')) else String c (double_backslash s')
  end.

Lemma replace_other (x y c : ascii) (s : string) :
  Ascii.eqb c Yara.backslash = false -> Yara.replace_escape x y (String c s) = String c (Yara.replace_escape x y s).
Proof. intros H. cbn [Yara.replace_escape]. rewrite H. by destruct s. Qed.
Lemma replace_backslash (x y : ascii) (s : string) :
  (forall s', s <> String x s') ->
  Yara.replace_escape x y (String Yara.backslash s) = String Yara.backslash (Yara.replace_escape x y s).
Proof.
  intros H. cbn [Yara.replace_escape]. destruct s as [|d s]; [done|]. rewrite Ascii.eqb_refl.
  destruct (Ascii.eqb_spec d x) as [->|]; [by destruct (H s)|done].
Qed.
Lemma replace_hit (x y : ascii) (s : string) :
  Yara.replace_escape x y (String Yara.backslash (String x s)) = String y (Yara.replace_escape x y s).
Proof. cbn [Yara.replace_escape]. by rewrite !Ascii.eqb_refl. Qed.
Lemma escape_no_quote (v s' : string) : escape v <> String Yara.quote s'.
Proof.
  destruct v as [|c v]; cbn; [done|]. destruct (Ascii.eqb_spec c Yara.quote); [done|]. cbn.
  by destruct (Ascii.eqb_spec c Yara.backslash); congruence.
Qed.

Lemma replace_quote_escape (v : string) : Yara.replace_escape Yara.quote Yara.quote (escape v) = double_backslash v.
Proof.
  induction v as [|c v IH]; [done|]. cbn [escape double_backslash].
  destruct (Ascii.eqb_spec c Yara.quote) as [->|Hq]; [cbn [orb]; by rewrite replace_hit, IH|]. cbn [orb].
  destruct (Ascii.eqb_spec c Yara.backslash) as [->|Hb].
  - rewrite replace_backslash by done. rewrite replace_backslash by apply escape_no_quote. by rewrite IH.
  - rewrite replace_other, IH; [done|]. by apply Ascii.eqb_neq.
Qed.
Lemma replace_backslash_double (v : string) : Yara.replace_escape Yara.backslash Yara.backslash (double_backslash v) = v.
Proof.
  induction v as [|c v IH]; [done|]. cbn [double_backslash]. destruct (Ascii.eqb_spec c Yara.backslash) as [->|Hb].
  - by rewrite replace_hit, IH.
  - rewrite replace_other, IH; [done|]. by apply Ascii.eqb_neq.
Qed.

Lemma endswith_last (c : ascii) (s : string) : endswith (String c EmptyString) (s +:+ String c EmptyString) = true.
Proof. induction s as [|d s IH]; cbn [endswith String.append]; [by rewrite String.eqb_refl|]. rewrite IH. apply orb_true_r. Qed.
Lemma init_last (c : ascii) (s : string) : str_init (s +:+ String c EmptyString) = s.
Proof.
  induction s as [|d s IH]; [done|]. cbn [String.append str_init]. rewrite IH. by destruct s.
Qed.

Lemma quoted_reads (v : string) : Yara.meta_value (quoted_text v) = v.
Proof.
  unfold Yara.meta_value, quoted_text.
  assert ((2 <=? String.length (String Yara.quote (escape v +:+ String Yara.quote EmptyString)))%nat = true) as ->.
  { apply Nat.leb_le. cbn [String.length]. rewrite slength_app. cbn. lia. }
  assert (startswith (String Yara.quote EmptyString) (String Yara.quote (escape v +:+ String Yara.quote EmptyString)) = true) as -> by done.
  assert (endswith (String Yara.quote EmptyString) (String Yara.quote (escape v +:+ String Yara.quote EmptyString)) = true) as ->
    by exact (endswith_last Yara.quote (String Yara.quote (escape v))).
  cbn [andb]. unfold str_inner. cbn [str_drop]. rewrite init_last. by rewrite replace_quote_escape, replace_backslash_double.
Qed.

(** *** Quotes and brackets *)

(** A text that leaves the scanners where they were: it runs from state [q]
    (quoted or not) to state [q'] without [stop] outside quotes. *)
Fixpoint walk (stop : ascii) (e q : bool) (s : string) : option (bool * bool) :=
  match s with
  | EmptyString => Some (e, q)
  | String c s' =>
      if e then walk stop false q s'
      else if Ascii.eqb c Yara.backslash then walk stop true q s'
      else if Ascii.eqb c Yara.quote then walk stop false (negb q) s'
      else if Ascii.eqb c stop && negb q then None
      else walk stop false q s'
  end.

Lemma walk_app (stop : ascii) (e q : bool) (a b : string) :
  walk stop e q (a +:+ b) = '(e', q') ← walk stop e q a; walk stop e' q' b.
Proof.
  revert e q. induction a as [|c a IH]; intros e q; [done|]. cbn [String.append walk].
  destruct e; [apply IH|]. destruct (Ascii.eqb c Yara.backslash); [apply IH|]. destruct (Ascii.eqb c Yara.quote); [apply IH|].
  destruct (_ && _); [done|apply IH].
Qed.

Lemma scan_meta_walk (e q : bool) (s tail : string) :
  walk "]" e q s = Some (false, false) -> Yara.scan_meta e q (s +:+ String "]" tail) = Some (s, tail).
Proof.
  revert e q. induction s as [|c s IH]; intros e q; [cbn; by intros [= -> ->]|]. cbn [walk String.append Yara.scan_meta].
  destruct e; [intros H; by rewrite IH|]. destruct (Ascii.eqb c Yara.backslash); [intros H; by rewrite IH|].
  destruct (Ascii.eqb c Yara.quote); [intros H; by rewrite IH|]. destruct (_ && _); [done|]. intros H. by rewrite IH.
Qed.

Lemma pieces_walk (e q : bool) (s rest : string) :
  walk "," e q s = Some (false, false) -> Yara.pieces e q (s +:+ String "," rest) = s :: Yara.pieces false false rest.
Proof.
  revert e q. induction s as [|c s IH]; intros e q; [cbn; by intros [= -> ->]|]. cbn [walk String.append Yara.pieces].
  destruct e; [intros H; by rewrite IH|]. destruct (Ascii.eqb c Yara.backslash); [intros H; by rewrite IH|].
  destruct (Ascii.eqb c Yara.quote); [intros H; by rewrite IH|]. destruct (_ && _); [done|]. intros H. by rewrite IH.
Qed.
Lemma pieces_walk_last (e q : bool) (s : string) : walk "," e q s = Some (false, false) -> Yara.pieces e q s = [s].
Proof.
  revert e q. induction s as [|c s IH]; intros e q; [done|]. cbn [walk Yara.pieces].
  destruct e; [intros H; by rewrite (IH _ _ H)|]. destruct (Ascii.eqb c Yara.backslash); [intros H; by rewrite (IH _ _ H)|].
  destruct (Ascii.eqb c Yara.quote); [intros H; by rewrite (IH _ _ H)|]. destruct (_ && _); [done|]. intros H. by rewrite (IH _ _ H).
Qed.

(** Characters that neither scanner reacts to. *)
Definition plain (c : ascii) : bool :=
  negb (existsb (Ascii.eqb c) [Yara.backslash; Yara.quote; "]"; ","]%char).
Lemma walk_plain (stop : ascii) (q : bool) (s : string) :
  stop ∈ ["]"; ","]%char -> str_forall plain s = true -> walk stop false q s = Some (false, q).
Proof.
  intros Hs. induction s as [|c s IH]; [done|]. intros [Hc Hf]%forall_cons. cbn [walk]. unfold plain in Hc. cbn in Hc.
  apply negb_true_iff in Hc. rewrite !orb_false_iff in Hc. destruct Hc as (-> & -> & H1 & H2 & _).
  assert (Ascii.eqb c stop = false) as ->; [|cbn; by apply IH].
  rewrite !elem_of_cons, elem_of_nil in Hs. by destruct Hs as [->|[->|[]]].
Qed.
Lemma walk_escape (stop : ascii) (v : string) : walk stop false true (escape v) = Some (false, true).
Proof.
  induction v as [|c v IH]; [done|]. cbn [escape]. destruct (Ascii.eqb_spec c Yara.quote) as [->|Hq]; [done|]. cbn [orb].
  destruct (Ascii.eqb_spec c Yara.backslash) as [->|Hb]; [done|]. cbn [walk].
  rewrite (proj2 (Ascii.eqb_neq _ _) Hb), (proj2 (Ascii.eqb_neq _ _) Hq), andb_false_r. done.
Qed.
Lemma walk_quoted (stop : ascii) (v : string) : stop ∈ ["]"; ","]%char -> walk stop false false (quoted_text v) = Some (false, false).
Proof.
  intros Hs. unfold quoted_text. change (walk stop false true (escape v +:+ String Yara.quote EmptyString) = Some (false, false)).
  rewrite walk_app, walk_escape. done.
Qed.

(** *** Items *)

Lemma last_char_app (c d : ascii) (a b : string) : last_char c (a +:+ String d b) = last_char d b.
Proof. revert c. induction a as [|x a IH]; intros c; [done|]. cbn. apply IH. Qed.
Lemma rstrip_id (c : ascii) (s : string) : py_space (last_char c s) = false -> rstrip (String c s) = String c s.
Proof.
  revert c. induction s as [|d s IH]; intros c H; [cbn in *; by rewrite H|]. cbn in H.
  change (rstrip (String c (String d s))) with
    (match rstrip (String d s) with EmptyString => if py_space c then EmptyString else String c EmptyString | r => String c r end).
  by rewrite IH.
Qed.
Lemma strip_id (c : ascii) (s : string) :
  py_space c = false -> py_space (last_char c s) = false -> strip (String c s) = String c s.
Proof. intros H1 H2. unfold strip. cbn [lstrip]. rewrite H1. by apply rstrip_id. Qed.

(** Identifier and number characters are plain, not blank, no sign of equality
    and no control characters. *)
Definition token_char (c : ascii) : bool := plain c && negb (py_space c) && negb (Ascii.eqb c "=") && negb (is_control c).
Lemma ident_token (c : ascii) : ident_char c = true -> token_char c = true.
Proof. destruct c as [[] [] [] [] [] [] [] []]; vm_compute; congruence. Qed.
Lemma num_token (c : ascii) : num_char c = true -> token_char c = true.
Proof. destruct c as [[] [] [] [] [] [] [] []]; vm_compute; congruence. Qed.

Lemma token_last (c : ascii) (s : string) : str_forall token_char (String c s) = true -> py_space (last_char c s) = false.
Proof.
  revert c. induction s as [|d s IH]; intros c [Hc Hs]%forall_cons; [|by apply IH].
  unfold token_char in Hc. rewrite !andb_true_iff in Hc. destruct Hc as [[[_ H] _] _]. by apply negb_true_iff in H.
Qed.
Lemma token_strip (s : string) : str_forall token_char s = true -> strip s = s.
Proof.
  destruct s as [|c s]; [done|]. intros H. apply strip_id; [|by apply token_last].
  apply forall_cons in H as [Hc _]. unfold token_char in Hc. rewrite !andb_true_iff in Hc. destruct Hc as [[[_ H] _] _].
  by apply negb_true_iff in H.
Qed.
Lemma token_weaken (q : ascii -> bool) (s : string) :
  (forall c, token_char c = true -> q c = true) -> str_forall token_char s = true -> str_forall q s = true.
Proof. apply str_forall_impl. Qed.
Lemma rule_name_token (s : string) : Yara.rule_name s = true -> str_forall token_char s = true /\ s <> EmptyString.
Proof.
  destruct s as [|c s]; [done|]. cbn [Yara.rule_name]. intros [Hc Hs]%andb_prop. split; [|done]. apply forall_cons.
  split; [apply ident_token; unfold ident_char; by rewrite Hc | eapply str_forall_impl; [|done]; apply ident_token].
Qed.
Lemma int_token (z : Z) : str_forall token_char (str_of_Z z) = true /\ str_of_Z z <> EmptyString.
Proof.
  destruct (int_text_shape z) as (H & _ & c & s & E & _). split; [|by rewrite E]. eapply str_forall_impl; [|done]. apply num_token.
Qed.

Lemma token_no_eq (s : string) : str_forall token_char s = true -> str_forall (fun c => negb (Ascii.eqb c "=")) s = true.
Proof. apply token_weaken. intros c. unfold token_char. rewrite !andb_true_iff. by intros [[_ ?] _]. Qed.
Lemma token_no_space (s : string) : str_forall token_char s = true -> str_forall (fun c => negb (Ascii.eqb c " ")) s = true.
Proof. apply token_weaken. intros c. unfold token_char. destruct (Ascii.eqb_spec c " ") as [->|]; done. Qed.
Lemma token_clean (s : string) : str_forall token_char s = true -> clean s = true.
Proof. apply token_weaken. intros c. unfold token_char. rewrite !andb_true_iff. by intros [_ ?]. Qed.
Lemma token_plain (s : string) : str_forall token_char s = true -> str_forall plain s = true.
Proof. apply token_weaken. intros c. unfold token_char. rewrite !andb_true_iff. by intros [[[? _] _] _]. Qed.

Definition item_ok (i : string * MetaValue) : Prop := Yara.rule_name i.1 = true /\ match i.2 with MStr v => clean v = true | MInt _ => True end.

Lemma item_walk (stop : ascii) (i : string * MetaValue) :
  stop ∈ ["]"; ","]%char -> item_ok i -> walk stop false false (meta_item i) = Some (false, false).
Proof.
  intros Hs [[Hk _]%rule_name_token _]. destruct i as [k [v|z]]; unfold meta_item; cbn [fst snd] in *; rewrite walk_app,
    (walk_plain stop false k Hs (token_plain _ Hk)); cbn [mbind option_bind].
  - refine (eq_trans (walk_app stop false false "=" (quoted_text v)) _). rewrite (walk_plain stop false "=" Hs eq_refl).
    by apply walk_quoted.
  - apply (walk_plain stop false (" =" +:+ str_of_Z z) Hs). apply (token_plain (str_of_Z z)), int_token.
Qed.

Lemma item_strip (i : string * MetaValue) : item_ok i -> strip (meta_item i) = meta_item i /\ meta_item i <> EmptyString.
Proof.
  intros [[Hk Hne]%rule_name_token _]. destruct i as [[|c k] v]; [done|]. cbn [fst] in *. clear Hne.
  assert (exists t, meta_item (String c k, v) = String c t /\ py_space (last_char c t) = false) as (t & -> & Ht).
  { destruct v as [v|z]; unfold meta_item; cbn [fst snd].
    - exists (k +:+ String "=" (quoted_text v)). split; [done|]. rewrite last_char_app. unfold quoted_text. cbn [last_char].
      by rewrite last_char_app.
    - exists (k +:+ " =" +:+ str_of_Z z). split; [done|]. destruct (int_token z) as [Hz Hnz].
      destruct (str_of_Z z) as [|d r]; [done|]. refine (eq_trans (f_equal py_space (last_char_app c " " k (String "=" (String d r)))) _).
      cbn [last_char]. by apply token_last. }
  split; [|done]. apply strip_id; [|done]. apply forall_cons in Hk as [Hc _]. unfold token_char in Hc.
  rewrite !andb_true_iff in Hc. destruct Hc as [[[_ H] _] _]. by apply negb_true_iff in H.
Qed.

Lemma pieces_block (items : list (string * MetaValue)) :
  items <> [] -> Forall item_ok items -> Yara.pieces false false (meta_block items) = meta_item <$> items.
Proof.
  intros Hne. induction items as [|i [|j items] IH]; [done| |]; intros [Hi Hits]%Forall_cons_1.
  - apply pieces_walk_last. apply item_walk; [set_solver | done].
  - change (meta_block (i :: j :: items)) with (meta_item i +:+ String "," (meta_block (j :: items))).
    rewrite pieces_walk by (apply item_walk; [set_solver | done]). by rewrite IH.
Qed.
Lemma split_block (items : list (string * MetaValue)) :
  Forall item_ok items -> Yara.split_top_level (meta_block items) = meta_item <$> items.
Proof.
  intros H. unfold Yara.split_top_level. destruct (decide (items = [])) as [->|Hne]; [done|]. rewrite pieces_block by done.
  clear Hne. induction H as [|i items Hi _ IH]; [done|]. destruct (item_strip i Hi) as [E1 E2]. cbn. rewrite E1.
  unfold Rkhunter.nonempty at 1. rewrite (proj2 (String.eqb_neq _ _) E2). cbn. by rewrite IH.
Qed.
Lemma meta_block_walk (items : list (string * MetaValue)) :
  Forall item_ok items -> walk "]" false false (meta_block items) = Some (false, false).
Proof.
  induction items as [|i [|j items] IH]; [done| |]; intros [Hi Hits]%Forall_cons_1.
  - apply item_walk; [set_solver | done].
  - change (meta_block (i :: j :: items)) with (meta_item i +:+ String "," (meta_block (j :: items))).
    rewrite walk_app, item_walk by (done || set_solver). cbn [mbind option_bind].
    change (walk "]" false false (String "," (meta_block (j :: items)))) with (walk "]" false false (meta_block (j :: items))).
    by apply IH.
Qed.

Lemma severity_reads (items : list (string * MetaValue)) :
  Forall item_ok items -> Yara.severity_of (meta_item <$> items) = declared_severity items.
Proof.
  induction 1 as [|[k v] items [[Hk _]%rule_name_token Hv] _ IH]; [done|]. cbn [fst snd] in *.
  unfold declared_severity. cbn [List.find fst fmap list_fmap Yara.severity_of].
  destruct v as [v|z]; unfold meta_item; cbn [fst snd].
  - rewrite partition_reads by (by apply token_no_eq). rewrite (token_strip k Hk). destruct (String.eqb k "severity"); [|exact IH].
    assert (strip (quoted_text v) = quoted_text v) as -> by (apply strip_id; [done | by rewrite last_char_app]).
    by rewrite quoted_reads.
  - assert (k +:+ " =" +:+ str_of_Z z = (k +:+ " ") +:+ String "=" (str_of_Z z)) as -> by (by rewrite sapp_assoc).
    rewrite partition_reads by (apply forall_app2; [by apply token_no_eq | done]).
    rewrite strip_app_ws by done. rewrite (token_strip k Hk). destruct (String.eqb k "severity"); [|exact IH].
    destruct (int_token z) as [Hz Hnz]. rewrite (token_strip _ Hz).
    assert (Yara.meta_value (str_of_Z z) = str_of_Z z) as E; [|by rewrite E].
    unfold Yara.meta_value. destruct (str_of_Z z) as [|d r]; [done|]. apply forall_cons in Hz as [Hd _].
    assert (startswith (String Yara.quote EmptyString) (String d r) = false) as ->; [|by rewrite andb_false_r].
    cbn [startswith]. destruct (Ascii.eqb_spec Yara.quote d) as [<-|]; [by vm_compute in Hd | done].
Qed.

(** *** Lines *)

(** Text as a program prints it, each line ended by a newline. *)
Definition unlines (ls : list string) : string := foldr (fun l s => l +:+ String newline s) EmptyString ls.
Definition one_line (s : string) : bool := str_forall (fun c => negb (Ascii.eqb c newline)) s.

Lemma lines_unlines (ls : list string) : Forall (fun l => one_line l = true) ls -> lines (unlines ls) = ls ++ [EmptyString].
Proof.
  induction 1 as [|l ls Hl _ IH]; [done|]. unfold lines in *. cbn [unlines foldr]. rewrite split_on_app by done.
  cbn [app]. f_equal. exact IH.
Qed.

Lemma clean_one_line (s : string) : clean s = true -> one_line s = true.
Proof. apply str_forall_impl. intros c. destruct (Ascii.eqb_spec c newline) as [->|]; done. Qed.

Record YaraMatch := mkYaraMatch { ym_rule : string; ym_meta : option (list (string * MetaValue)); ym_path : string }.
Definition match_ok (m : YaraMatch) : Prop :=
  Yara.rule_name (ym_rule m) = true /\ Forall item_ok (default [] (ym_meta m)) /\
  startswith "/" (ym_path m) = true /\ one_line (ym_path m) = true.
Definition print_match (m : YaraMatch) : string := match_text (ym_rule m) (ym_meta m) (ym_path m).

Lemma meta_block_clean (items : list (string * MetaValue)) : Forall item_ok items -> clean (meta_block items) = true.
Proof.
  intros H. apply forall_join; [done|]. apply Forall_fmap. eapply Forall_impl; [exact H|].
  intros [k [v|z]] [[Hk _]%rule_name_token Hv]; unfold meta_item; cbn [fst snd compose] in *.
  - apply forall_app2; [by apply token_clean|]. apply (forall_app2 _ (String "=" (String Yara.quote EmptyString))); [done|].
    apply forall_app2; [|done]. clear -Hv. induction v as [|c v IH]; [done|]. apply forall_cons in Hv as [Hc Hv]. cbn [escape].
    destruct (_ || _); repeat (apply forall_cons; split; [done|]); by apply IH.
  - apply forall_app2; [by apply token_clean|]. apply (forall_app2 _ " ="); [done|]. apply token_clean, int_token.
Qed.

Lemma sanitize_match (m : YaraMatch) :
  match_ok m -> sanitize_text (print_match m) = match_text (ym_rule m) (ym_meta m) (sanitize_text (ym_path m)).
Proof.
  intros ([Hr _]%rule_name_token & Hm & _ & _). unfold print_match, match_text. rewrite !sanitize_app.
  rewrite (sanitize_id (ym_rule m)) by (by apply token_clean). do 2 f_equal.
  destruct (ym_meta m) as [items|]; [|done]. cbn in Hm. f_equal. rewrite !sanitize_app.
  by rewrite (sanitize_id (meta_block items)) by (by apply meta_block_clean).
Qed.

Lemma sanitize_slash (p : string) : startswith "/" p = true -> startswith "/" (sanitize_text p) = true.
Proof. intros [r ->]%startswith_spec. rewrite sanitize_app. apply startswith_app. Qed.

Lemma match_line_reads (rule path : string) (meta : option (list (string * MetaValue))) :
  Yara.rule_name rule = true -> Forall item_ok (default [] meta) -> startswith "/" path = true ->
  Yara.match_line (match_text rule meta path)
  = Some (Yara.yara_finding (match_text rule meta path) rule path (m ← meta; declared_severity m)).
Proof.
  intros Hn Hm Hp. pose proof Hn as [Ht _]%rule_name_token. unfold Yara.match_line.
  assert (String.eqb (match_text rule meta path) EmptyString || Rkhunter.indented (match_text rule meta path) = false) as ->.
  { destruct rule as [|c rule]; [done|]. cbn. apply forall_cons in Ht as [Hc _]. unfold token_char in Hc.
    rewrite !andb_true_iff in Hc. destruct Hc as [[[_ H] _] _]. by apply negb_true_iff in H. }
  set (rest := match meta with Some is_ => "[" +:+ meta_block is_ +:+ "] " | None => EmptyString end +:+ path).
  change (match_text rule meta path) with (rule +:+ String " " rest) at 1.
  rewrite partition_reads by (by apply token_no_space). rewrite Hn. cbn [negb orb]. pose proof Hp as [r ->]%startswith_spec.
  destruct meta as [items|]; [|done].
  assert (rest = String "[" (meta_block items +:+ String "]" (String " " ("/" +:+ r)))) as E.
  { subst rest. change ("[" +:+ ?a) with (String "[" a). cbn [String.append]. by rewrite sapp_assoc. }
  clearbody rest. subst rest. cbn [String.eqb startswith Ascii.eqb Bool.eqb andb].
  unfold Yara.split_meta. cbn [str_drop]. rewrite scan_meta_walk by (by apply meta_block_walk). cbn [mbind option_bind].
  unfold Yara.meta_severity. rewrite split_block, severity_reads by done. done.
Qed.

(** A YARA report reads back: whatever the rules, their meta strings (with
    quotes, commas, brackets and backslashes in them) and the matched paths,
    as long as no path holds a newline, each match line gives exactly one
    finding, in order, with its rule, its whole path less control characters,
    and the severity the rule declares. *)
Theorem yara_report_roundtrip (ms : list YaraMatch) (stderr : string) :
  Forall match_ok ms ->
  Yara.yara_parse (unlines (print_match <$> ms)) stderr
  = (fun m => let path := sanitize_text (ym_path m) in
              Yara.yara_finding (match_text (ym_rule m) (ym_meta m) path) (ym_rule m) path
                (items ← ym_meta m; declared_severity items)) <$> ms.
Proof.
  intros H. unfold Yara.yara_parse. rewrite lines_unlines.
  2:{ apply Forall_fmap. eapply Forall_impl; [exact H|]. intros m ([Hr _]%rule_name_token & Hm & _ & Hp). cbn.
      unfold print_match, match_text. apply forall_app2; [by apply clean_one_line, token_clean|]. apply (forall_app2 _ " "); [done|].
      apply forall_app2; [|done]. destruct (ym_meta m) as [items|]; [|done]. apply (forall_app2 _ "["); [done|].
      apply forall_app2; [|done]. by apply clean_one_line, meta_block_clean. }
  rewrite omap_app. cbn. rewrite app_nil_r. induction H as [|m ms Hm _ IH]; [done|]. cbn.
  rewrite sanitize_match by done. destruct Hm as (Hr & Hi & Hp & _). rewrite match_line_reads by (done || by apply sanitize_slash).
  by rewrite IH.
Qed.

(** ** A report of AIDE reads back *)

Inductive AideChange := AddedEntries | RemovedEntries | ChangedEntries.
Definition change_text (k : AideChange) : string :=
  match k with AddedEntries => "added" | RemovedEntries => "removed" | ChangedEntries => "changed" end.
Definition change_header (k : AideChange) : string :=
  match k with AddedEntries => "Added entries:" | RemovedEntries => "Removed entries:" | ChangedEntries => "Changed entries:" end.
Definition dashes : string := "---------------------------------------------------".

Record AideEntry := mkAideEntry { ae_attrs : string; ae_path : string }.
Record AideSection := mkAideSection { as_kind : AideChange; as_entries : list AideEntry }.

Definition print_entry (e : AideEntry) : string := ae_attrs e +:+ ": " +:+ ae_path e.
Definition print_section (s : AideSection) : list string :=
  [dashes; change_header (as_kind s); dashes; EmptyString] ++ (print_entry <$> as_entries s) ++ [EmptyString].

(** Attributes have no colon and are none of the words of the inline form; a
    path is absolute, not the root directory and does not end in white space. *)
Definition entry_ok_line (e : AideEntry) : Prop :=
  clean (ae_attrs e) = true /\ str_forall (fun c => negb (Ascii.eqb c ":")) (ae_attrs e) = true /\
  (exists c s, ae_attrs e = String c s /\ py_space c = false) /\
  (str_lower (ae_attrs e) ∉ ["added"; "removed"; "changed"]%string) /\
  one_line (ae_path e) = true /\
  exists d r, sanitize_text (ae_path e) = String "/" (String d r) /\ py_space (last_char d r) = false.

(** A line that is neither a section header nor an entry of the inline form. *)
Definition quiet_line (l : string) : Prop :=
  one_line l = true /\
  Aide.section_header (str_lower (strip (sanitize_text l))) = None /\ Aide.legacy_match (strip (sanitize_text l)) = None.

Definition section_after (s : option string) (ls : list string) : option string :=
  foldl (fun s l => (Aide.parse_line s l).1) s ls.
Lemma parse_lines_app (s : option string) (a b : list string) :
  Aide.parse_lines s (a ++ b) = Aide.parse_lines s a ++ Aide.parse_lines (section_after s a) b.
Proof.
  revert s. induction a as [|l a IH]; intros s; [done|]. cbn [app Aide.parse_lines section_after foldl].
  destruct (Aide.parse_line s l) as [s' fs]. rewrite IH. by rewrite app_assoc.
Qed.

Lemma lower_keeps (x : ascii) (s : string) :
  x ∈ [":"; "/"]%char ->
  str_forall (fun c => negb (Ascii.eqb c x)) (str_lower s) = str_forall (fun c => negb (Ascii.eqb c x)) s.
Proof.
  intros Hx. induction s as [|c s IH]; [done|]. cbn [str_lower str_forall]. rewrite IH. f_equal. f_equal.
  rewrite !elem_of_cons, elem_of_nil in Hx. destruct Hx as [->|[->|[]]]; destruct c as [[] [] [] [] [] [] [] []]; reflexivity.
Qed.
Lemma lower_app (a b : string) : str_lower (a +:+ b) = str_lower a +:+ str_lower b.
Proof. induction a as [|c a IH]; [done|]. cbn. by rewrite IH. Qed.

Lemma header_no_slash (s : string) :
  str_forall (fun c => negb (Ascii.eqb c "/")) s = false -> Aide.section_header s = None.
Proof.
  intros H. unfold Aide.section_header.
  repeat match goal with |- context [String.eqb s ?t] => destruct (String.eqb_spec s t); [subst s; discriminate H|] end. done.
Qed.
Lemma heading_tail_colon (a t : string) :
  str_forall (fun c => negb (Ascii.eqb c ":")) a = true -> t <> EmptyString -> Aide.heading_tail (a +:+ String ":" t) = false.
Proof.
  intros Ha Ht. induction a as [|c a IH].
  - cbn. by apply String.eqb_neq.
  - apply forall_cons in Ha as [Hc Ha]. cbn [String.append Aide.heading_tail]. apply negb_true_iff in Hc as ->.
    rewrite (IH Ha). apply andb_false_r.
Qed.
Lemma startswith_colon (w a t : string) :
  str_forall (fun c => negb (Ascii.eqb c ":")) w = true -> str_forall (fun c => negb (Ascii.eqb c ":")) a = true ->
  startswith (w +:+ ":") (a +:+ String ":" t) = true -> a = w.
Proof.
  revert a. induction w as [|c w IH]; intros [|d a] Hw Ha; cbn [String.append startswith].
  - done.
  - apply forall_cons in Ha as [Hd _]. apply negb_true_iff in Hd. intros [H _]%andb_prop. apply Ascii.eqb_eq in H as <-.
    by rewrite Ascii.eqb_refl in Hd.
  - apply forall_cons in Hw as [Hc _]. apply negb_true_iff in Hc. intros [H _]%andb_prop. apply Ascii.eqb_eq in H as ->.
    by rewrite Ascii.eqb_refl in Hc.
  - apply forall_cons in Hw as [_ Hw]. apply forall_cons in Ha as [_ Ha]. intros [H%Ascii.eqb_eq Hs]%andb_prop. subst d.
    f_equal. by apply IH.
Qed.
Lemma trim_blank_id (c : ascii) (s : string) : py_space (last_char c s) = false -> trim_blank (String c s) = String c s.
Proof.
  assert (forall x, py_space x = false -> is_blank x = false) as Hb
    by (intros x; destruct x as [[] [] [] [] [] [] [] []]; vm_compute; congruence).
  revert c. induction s as [|d s IH]; intros c H; [cbn in *; by rewrite (Hb _ H)|]. cbn in H.
  change (trim_blank (String c (String d s))) with
    (match trim_blank (String d s) with EmptyString => if is_blank c then EmptyString else String c EmptyString | r => String c r end).
  by rewrite IH.
Qed.
Lemma after_colon_reads (a t : string) :
  str_forall (fun c => negb (Ascii.eqb c ":")) a = true -> Aide.after_colon (a +:+ String ":" t) = Some t.
Proof.
  induction a as [|c a IH]; [done|]. intros [Hc Ha]%forall_cons. cbn [String.append Aide.after_colon].
  apply negb_true_iff in Hc as ->. by apply IH.
Qed.

Lemma entry_reads (k : AideChange) (e : AideEntry) :
  entry_ok_line e ->
  Aide.parse_line (Some (change_text k)) (print_entry e)
  = (Some (change_text k),
     [Aide.aide_finding (change_text k) (sanitize_text (ae_path e)) (ae_attrs e +:+ ": " +:+ sanitize_text (ae_path e))]).
Proof.
  destruct e as [attrs path]. intros (Hc & Hcol & (c & a & Ea & Hsp) & Hlow & Hone & d & r & Ep & Hlast).
  cbn [ae_attrs ae_path] in *. subst attrs. unfold Aide.parse_line, print_entry. cbn [ae_attrs ae_path].
  set (line := String c a +:+ ": " +:+ String "/" (String d r)).
  assert (sanitize_text (String c a +:+ ": " +:+ path) = line) as ->.
  { rewrite (sanitize_app (String c a)), (sanitize_app ": "), (sanitize_id (String c a)) by done. by rewrite Ep. }
  rewrite Ep. change (String c a +:+ ": " +:+ String "/" (String d r)) with line.
  assert (strip line = line) as ->.
  { apply strip_id; [done|]. change (py_space (last_char c (a +:+ String ":" (String " " (String "/" (String d r))))) = false).
    by rewrite last_char_app. }
  assert (String.eqb line EmptyString = false) as -> by done.
  assert (str_forall (fun x => negb (Ascii.eqb x "/")) line = false) as Hslash.
  { unfold line. rewrite !str_forall_app. change (str_forall _ (String "/" (String d r))) with false. by rewrite !andb_false_r. }
  rewrite header_no_slash by (rewrite lower_keeps; [done | set_solver]).
  assert (Aide.is_heading line = false) as ->.
  { apply forall_cons in Hcol as [_ Ha]. change (is_alpha_ascii c && Aide.heading_tail (a +:+ String ":" (String " " (String "/" (String d r)))) = false).
    rewrite heading_tail_colon by done. apply andb_false_r. }
  assert (Aide.legacy_match line = None) as ->.
  { unfold Aide.legacy_match. destruct (List.find _ _) as [w|] eqn:Ef; [|done]. exfalso. apply List.find_some in Ef as [Hin Hw].
    apply Hlow. unfold line in Hw. rewrite !lower_app in Hw. apply list_elem_of_In.
    assert (str_lower (String c a) = w) as ->; [|done]. eapply (startswith_colon w _ (str_lower (" " +:+ String "/" (String d r)))); [| |exact Hw].
    - by destruct Hin as [<-|[<-|[<-|[]]]].
    - rewrite lower_keeps; [done | set_solver]. }
  assert (Aide.entry_match line = Some (String "/" (String d r))) as ->; [|done].
  change (Aide.entry_match line) with (if py_space c then None else
    rest ← Aide.after_colon (a +:+ String ":" (String " " (String "/" (String d r)))); Aide.path_after rest).
  rewrite Hsp. apply forall_cons in Hcol as [_ Ha]. rewrite after_colon_reads by done. cbn [mbind option_bind].
  change (Aide.path_after (String " " (String "/" (String d r)))) with
    (match trim_blank (String d r) with
     | EmptyString => None
     | String x y => if py_space (last_char x y) then None else Some (String "/" (String x y)) end).
  rewrite trim_blank_id by done. by rewrite Hlast.
Qed.

Lemma quiet_reads (l : string) : quiet_line l -> Aide.parse_line None l = (None, []).
Proof.
  intros (_ & H1 & H2). unfold Aide.parse_line. destruct (String.eqb _ _); [done|]. rewrite H1. destruct (Aide.is_heading _); [done|].
  by rewrite H2.
Qed.
Lemma quiet_lines (ls : list string) :
  Forall quiet_line ls -> Aide.parse_lines None ls = [] /\ section_after None ls = None.
Proof.
  induction 1 as [|l ls Hl _ [IH1 IH2]]; [done|]. cbn [Aide.parse_lines section_after foldl]. by rewrite (quiet_reads l Hl).
Qed.

Definition section_findings (s : AideSection) : list ScanFinding :=
  (fun e => Aide.aide_finding (change_text (as_kind s)) (sanitize_text (ae_path e))
              (ae_attrs e +:+ ": " +:+ sanitize_text (ae_path e))) <$> as_entries s.

Lemma entries_read (k : AideChange) (es : list AideEntry) :
  Forall entry_ok_line es ->
  Aide.parse_lines (Some (change_text k)) (print_entry <$> es) = section_findings (mkAideSection k es) /\
  section_after (Some (change_text k)) (print_entry <$> es) = Some (change_text k).
Proof.
  induction 1 as [|e es He _ [IH1 IH2]]; [done|]. cbn [fmap list_fmap Aide.parse_lines section_after foldl].
  rewrite (entry_reads k e He). cbn [fst]. by rewrite IH1.
Qed.

Lemma blank_reads (s : option string) : Aide.parse_line s EmptyString = (s, []).
Proof. done. Qed.
Lemma section_reads (start : option string) (s : AideSection) :
  Forall entry_ok_line (as_entries s) ->
  Aide.parse_lines start (print_section s) = section_findings s /\
  section_after start (print_section s) = Some (change_text (as_kind s)).
Proof.
  intros H. destruct s as [k es]. cbn [as_entries as_kind] in *. unfold print_section. cbn [as_entries as_kind].
  assert (Aide.parse_lines start [dashes; change_header k; dashes; EmptyString] = [] /\
          section_after start [dashes; change_header k; dashes; EmptyString] = Some (change_text k)) as [E1 E2]
    by (destruct k, start; vm_compute; done).
  destruct (entries_read k es H) as [F1 F2]. rewrite parse_lines_app, E1, E2, parse_lines_app, F1, F2. split.
  - cbn. by rewrite app_nil_r.
  - unfold section_after in *. rewrite !foldl_app, E2, F2. done.
Qed.
Lemma sections_read (ss : list AideSection) (start : option string) :
  Forall (fun s => Forall entry_ok_line (as_entries s)) ss ->
  Aide.parse_lines start (ss ≫= print_section) = ss ≫= section_findings.
Proof.
  intros H. revert start. induction H as [|s ss Hs _ IH]; intros start; [done|]. cbn [mbind list_bind].
  destruct (section_reads start s Hs) as [E1 E2]. rewrite parse_lines_app, E1, E2. by rewrite IH.
Qed.

(** An AIDE report reads back: any preamble, the sections of added,
    removed and changed entries in any order and number, and the block of
    details after them give exactly one finding per entry of a section, in
    order, with the change of its section and its whole path less control
    characters. A path may hold anything but a newline: no other line break, no
    colon, no text that looks like a header makes an entry disappear, change
    its kind or appear. *)
Theorem aide_report_roundtrip (pre details : list string) (ss : list AideSection) (stderr : string) :
  Forall quiet_line pre -> Forall quiet_line details ->
  Forall (fun s => Forall entry_ok_line (as_entries s)) ss ->
  Aide.aide_parse (unlines (pre ++ (ss ≫= print_section) ++ ["Detailed information about changes:"%string] ++ details)) stderr
  = ss ≫= section_findings.
Proof.
  intros Hpre Hdet Hss. unfold Aide.aide_parse. rewrite lines_unlines.
  2:{ rewrite !Forall_app. split_and!; [eapply Forall_impl; [exact Hpre|]; by intros l [] | | by apply Forall_singleton |
        eapply Forall_impl; [exact Hdet|]; by intros l []].
      apply Forall_bind. eapply Forall_impl; [exact Hss|]. intros s Hs. unfold print_section.
      apply Forall_app. split; [by destruct (as_kind s); repeat constructor|]. apply Forall_app. split; [|by apply Forall_singleton].
      apply Forall_fmap. eapply Forall_impl; [exact Hs|]. intros e (Hc & _ & _ & _ & Hp & _). unfold print_entry, compose.
      apply forall_app2; [by apply clean_one_line|]. by apply (forall_app2 _ ": "). }
  destruct (quiet_lines pre Hpre) as [P1 P2]. destruct (quiet_lines details Hdet) as [D1 D2].
  rewrite <- !app_assoc, parse_lines_app, P1, P2, parse_lines_app, sections_read by done. cbn [app].
  rewrite <- (app_nil_r (ss ≫= section_findings)) at 2. f_equal.
  set (s := section_after None (ss ≫= print_section)). cbn [Aide.parse_lines].
  change (Aide.parse_line s "Detailed information about changes:") with (@None string, @nil ScanFinding). cbn [app].
  rewrite parse_lines_app, D1, D2. done.
Qed.

(** ** What a line break in a name can do *)

Lemma sapp_cons (c : ascii) (a b : string) : String c a +:+ b = String c (a +:+ b).
Proof. done. Qed.
Lemma sapp_inj_r (a b c : string) : a +:+ c = b +:+ c -> a = b.
Proof.
  intros H. assert (String.length a = String.length b) as Hl.
  { apply (f_equal String.length) in H. rewrite !slength_app in H. lia. }
  revert b H Hl. induction a as [|x a IH]; intros [|y b] H Hl; try done. cbn in H, Hl. injection H as -> H. injection Hl as Hl.
  f_equal. by apply IH.
Qed.

Lemma scan_meta_tail (e q : bool) (s m t t' : string) :
  Yara.scan_meta e q s = Some (m, t) -> Yara.scan_meta e q (m +:+ String "]" t') = Some (m, t').
Proof.
  revert e q m t. induction s as [|c s IH]; intros e q m t; [done|]. cbn [Yara.scan_meta].
  assert (forall e' q', ('(m', t0) ← Yara.scan_meta e' q' s; Some (String c m', t0)) = Some (m, t) ->
            exists m', m = String c m' /\ Yara.scan_meta e' q' (m' +:+ String "]" t') = Some (m', t')) as Hn.
  { intros e' q' H. destruct (Yara.scan_meta e' q' s) as [[m' t0]|] eqn:E; [|done]. cbn in H. injection H as <- <-.
    exists m'. split; [done|]. by eapply IH. }
  destruct e; [intros H; apply Hn in H as (m' & -> & E); cbn [String.append Yara.scan_meta]; by rewrite E|].
  destruct (Ascii.eqb c Yara.backslash) eqn:Eb;
    [intros H; apply Hn in H as (m' & -> & E); cbn [String.append Yara.scan_meta]; by rewrite Eb, E|].
  destruct (Ascii.eqb c Yara.quote) eqn:Eq;
    [intros H; apply Hn in H as (m' & -> & E); cbn [String.append Yara.scan_meta]; by rewrite Eb, Eq, E|].
  destruct (Ascii.eqb c "]" && negb q) eqn:Ec.
  - intros [= <- <-]. apply andb_prop in Ec as [_ ->%negb_true_iff]. done.
  - intros H; apply Hn in H as (m' & -> & E); cbn [String.append Yara.scan_meta]. by rewrite Eb, Eq, Ec, E.
Qed.

(** A match line cut within its path is still a match, of the same rule with
    the same severity. *)
Lemma match_line_cut (a b p : string) (f : ScanFinding) :
  Yara.match_line (a +:+ b) = Some f -> fd_path f = Some (p +:+ b) -> startswith "/" p = true ->
  exists f', Yara.match_line a = Some f' /\ fd_indicator_value f' = fd_indicator_value f /\
    fd_severity f' = fd_severity f /\ fd_path f' = Some p.
Proof.
  unfold Yara.match_line at 1. destruct (_ || _) eqn:Ei; [done|].
  destruct (str_partition " " (a +:+ b)) as [rule [rest|]] eqn:Epart; [|done].
  apply partition_spec in Epart as [Hsp E]. destruct (negb (Yara.rule_name rule) || String.eqb rest EmptyString) eqn:En; [done|].
  apply orb_false_iff in En as [En _]. intros H Hpath Hp.
  assert (forall rest' tail, a = rule +:+ String " " rest' -> rest' <> EmptyString ->
            (if startswith "[" rest' then '(meta, remainder) ← Yara.split_meta rest'; Some (Yara.meta_severity meta, remainder)
             else Some (None, rest')) = Some tail -> tail.2 = p -> tail.1 = fd_severity f -> fd_indicator_value f = clip rule MAX_VALUE_LEN ->
            exists f', Yara.match_line a = Some f' /\ fd_indicator_value f' = fd_indicator_value f /\
              fd_severity f' = fd_severity f /\ fd_path f' = Some p) as Hdone.
  { intros rest' [sev q] -> Hne Ht Hq Hs Hv. cbn [fst snd] in *. subst q sev. unfold Yara.match_line.
    assert (String.eqb (rule +:+ String " " rest') EmptyString || Rkhunter.indented (rule +:+ String " " rest') = false) as ->.
    { destruct rule as [|c rule]; [done|]. rewrite !sapp_assoc in Ei. exact Ei. }
    rewrite partition_reads by done. rewrite En, (proj2 (String.eqb_neq _ _) Hne). cbn [orb]. rewrite Ht. cbn [mbind option_bind].
    rewrite Hp. eexists. split_and!; [done | by rewrite Hv | done | done]. }
  pose proof Hp as [r Er]%startswith_spec. destruct (startswith "[" rest) eqn:Eb; cbn [mbind option_bind] in H.
  - unfold Yara.split_meta in H. destruct (Yara.scan_meta false false (str_drop 1 rest)) as [[meta tail]|] eqn:Es; [|done].
    cbn [mbind option_bind] in H. destruct (startswith "/" (removeprefix " " tail)); [|done]. injection H as <-.
    cbn [fd_path Yara.yara_finding] in Hpath. injection Hpath as Hpath. pose proof (scan_meta_spec _ _ _ _ _ Es) as Em.
    apply startswith_spec in Eb as [rr ->]. cbn [String.append str_drop] in Em, Es. subst rr.
    assert (exists sp, tail = sp +:+ p +:+ b /\ removeprefix " " (sp +:+ p) = p) as (sp & -> & Hsp').
    { unfold removeprefix in Hpath. destruct (startswith " " tail) eqn:Et.
      - apply startswith_spec in Et as [tt ->]. exists " "%string. cbn [String.length str_drop String.append] in Hpath. by rewrite <- Hpath.
      - exists EmptyString. split; [done|]. by rewrite Er. }
    apply (Hdone (String "[" (meta +:+ String "]" (sp +:+ p))) (Yara.meta_severity meta, p)); [|done| |done|done|done].
    + apply (sapp_inj_r _ _ b). rewrite E. by repeat first [rewrite sapp_assoc | rewrite sapp_cons].
    + cbn [startswith Ascii.eqb Bool.eqb andb]. unfold Yara.split_meta. cbn [str_drop].
      rewrite (scan_meta_tail _ _ _ _ _ (sp +:+ p) Es). cbn [mbind option_bind]. by rewrite Hsp'.
  - destruct (startswith "/" rest); [|done]. injection H as <-. cbn [fd_path Yara.yara_finding] in Hpath. injection Hpath as ->.
    apply (Hdone p (None, p)); [| by rewrite Er | by rewrite Er |done|done|done].
    apply (sapp_inj_r _ _ b). rewrite E, !sapp_assoc. done.
Qed.

Lemma yara_parse_lines (ls : list string) (stderr : string) :
  Forall (fun l => one_line l = true) ls ->
  Yara.yara_parse (unlines ls) stderr = omap (fun l => Yara.match_line (sanitize_text l)) ls.
Proof. intros H. unfold Yara.yara_parse. rewrite lines_unlines by done. rewrite omap_app. apply app_nil_r. Qed.

(** A newline in a matched path, should YARA ever print one raw, hides no
    match: breaking a match line within its path leaves every other finding as
    it was and the broken one with its rule and severity and a prefix of its
    path; at most one finding is added. *)
Theorem yara_break_bounded (before after : list string) (l t p : string) (f : ScanFinding) (stderr : string) :
  Forall (fun x => one_line x = true) (before ++ [l; t] ++ after) ->
  Yara.match_line (sanitize_text (l +:+ t)) = Some f ->
  fd_path f = Some (p +:+ sanitize_text t) -> startswith "/" p = true ->
  exists fs gs f' extra,
    Yara.yara_parse (unlines (before ++ [l +:+ t] ++ after)) stderr = fs ++ [f] ++ gs /\
    Yara.yara_parse (unlines (before ++ [l; t] ++ after)) stderr = fs ++ [f'] ++ extra ++ gs /\
    (length extra <= 1)%nat /\
    fd_indicator_value f' = fd_indicator_value f /\ fd_severity f' = fd_severity f /\ fd_path f' = Some p.
Proof.
  intros Hall Hm Hp Hs. rewrite sanitize_app in Hm. destruct (match_line_cut _ _ _ _ Hm Hp Hs) as (f' & Hm' & Hv & Hsev & Hp').
  pose proof Hall as [Hb [[Hl [Ht _]%Forall_cons_1]%Forall_cons_1 Ha]%Forall_app]%Forall_app.
  exists (omap (fun x => Yara.match_line (sanitize_text x)) before), (omap (fun x => Yara.match_line (sanitize_text x)) after), f',
    (omap (fun x => Yara.match_line (sanitize_text x)) [t]).
  rewrite !yara_parse_lines, !omap_app; [|done|].
  2:{ apply Forall_app. split; [done|]. apply Forall_app. split; [|done]. apply Forall_singleton. by apply forall_app2. }
  cbn [omap list_omap app]. rewrite sanitize_app, Hm, Hm'. split_and!; try done; destruct (Yara.match_line (sanitize_text t)); done || (cbn; lia).
Qed.

(** The blocks of rkhunter are its warning lines. *)
Lemma add_detail_headers (d : string) (bs : list (string * list string)) : (Rkhunter.add_detail d bs).*1 = bs.*1.
Proof.
  unfold Rkhunter.add_detail. destruct (last bs) as [[h ds]|] eqn:E; [|done]. apply last_Some in E as (bs' & ->).
  rewrite length_app. cbn. rewrite Nat.add_sub, take_app_length. by rewrite !fmap_app.
Qed.
Lemma block_step_headers (ls : list string) (st : list (string * list string) * bool) :
  ((foldl Rkhunter.block_step st ls).1).*1 = st.1.*1 ++ List.filter Rkhunter.is_warning (sanitize_text <$> ls).
Proof.
  revert st. induction ls as [|l ls IH]; intros [bs open]; [cbn; by rewrite app_nil_r|].
  cbn [foldl fmap list_fmap List.filter]. rewrite IH. unfold Rkhunter.block_step.
  destruct (Rkhunter.is_warning (sanitize_text l)); cbn [fst]; [by rewrite fmap_app, <- app_assoc|].
  destruct (String.eqb _ _); [done|]. destruct (open && _); [|done]. cbn [fst]. by rewrite add_detail_headers.
Qed.
Lemma rkhunter_lines (out err : string) :
  fd_raw_line <$> Rkhunter.rkhunter_parse out err
  = (fun h => clip h MAX_RAW_LEN) <$> List.filter Rkhunter.is_warning (sanitize_text <$> lines out).
Proof.
  unfold Rkhunter.rkhunter_parse.
  assert ((Rkhunter.warning_blocks out).*1 = List.filter Rkhunter.is_warning (sanitize_text <$> lines out)) as <-
    by exact (block_step_headers (lines out) ([], false)).
  rewrite <- !list_fmap_compose. apply list_fmap_ext. by intros _ [h ds] _.
Qed.

(** A newline in a name rkhunter reports hides no warning: the findings are
    exactly the lines that open with the warning word; breaking such a line
    after that word leaves every other warning as it was and the broken one
    with the text up to the break, and adds at most one. *)
Theorem rkhunter_break_bounded (before after : list string) (l t stderr : string) :
  Forall (fun x => one_line x = true) (before ++ [l; t] ++ after) ->
  Rkhunter.is_warning (sanitize_text l) = true ->
  exists fs gs extra,
    fd_raw_line <$> Rkhunter.rkhunter_parse (unlines (before ++ [l +:+ t] ++ after)) stderr
    = fs ++ [clip (sanitize_text (l +:+ t)) MAX_RAW_LEN] ++ gs /\
    fd_raw_line <$> Rkhunter.rkhunter_parse (unlines (before ++ [l; t] ++ after)) stderr
    = fs ++ [clip (sanitize_text l) MAX_RAW_LEN] ++ extra ++ gs /\
    (length extra <= 1)%nat.
Proof.
  intros Hall Hw.
  pose proof Hall as [Hb [[Hl [Ht _]%Forall_cons_1]%Forall_cons_1 Ha]%Forall_app]%Forall_app.
  set (keep := fun ls => (fun h => clip h MAX_RAW_LEN) <$> List.filter Rkhunter.is_warning (sanitize_text <$> ls)).
  exists (keep before), (keep (after ++ [EmptyString])), (keep [t]). rewrite !rkhunter_lines, !lines_unlines; [|done|].
  2:{ apply Forall_app. split; [done|]. apply Forall_app. split; [|done]. apply Forall_singleton. by apply forall_app2. }
  assert (Rkhunter.is_warning (sanitize_text (l +:+ t)) = true) as Hw'.
  { rewrite sanitize_app. apply startswith_spec in Hw as [r ->]. unfold Rkhunter.is_warning. rewrite sapp_assoc. apply startswith_app. }
  assert (forall a b, keep (a ++ b) = keep a ++ keep b) as Hk.
  { intros a b. unfold keep. by rewrite fmap_app, List.filter_app, fmap_app. }
  rewrite <- !app_assoc. change ((fun h => clip h MAX_RAW_LEN) <$> List.filter Rkhunter.is_warning (sanitize_text <$> ?x)) with (keep x).
  rewrite !Hk. split_and!.
  - assert (keep [l +:+ t] = [clip (sanitize_text (l +:+ t)) MAX_RAW_LEN]) as ->; [|done].
    unfold keep. cbn [fmap list_fmap List.filter]. by rewrite Hw'.
  - assert (keep [l; t] = clip (sanitize_text l) MAX_RAW_LEN :: keep [t]) as ->; [|done].
    unfold keep. cbn [fmap list_fmap List.filter]. by rewrite Hw.
  - unfold keep. cbn [fmap list_fmap List.filter]. destruct (Rkhunter.is_warning (sanitize_text t)); [|apply Nat.le_0_l].
    apply Nat.le_refl.
Qed.

(** ** Limits *)

(** The caps spare the path: a quoted path of any length goes into the event
    whole, though the value, the line and the message of the same finding are
    clipped. *)
Fixpoint repeat_char (n : nat) (c : ascii) (s : string) : string := match n with O => s | S n' => String c (repeat_char n' c s) end.
Lemma upto_quote_repeat (n : nat) : Rkhunter.upto_quote (repeat_char n "a" "'") = Some (repeat_char n "a" EmptyString).
Proof. induction n as [|n IH]; [done|]. cbn [repeat_char Rkhunter.upto_quote]. by rewrite IH. Qed.
Lemma repeat_length (n : nat) (s : string) : String.length (repeat_char n "a" s) = (n + String.length s)%nat.
Proof. induction n as [|n IH]; [done|]. cbn. by rewrite IH. Qed.
Lemma repeat_forall (p : ascii -> bool) (n : nat) (s : string) :
  p "a"%char = true -> str_forall p s = true -> str_forall p (repeat_char n "a" s) = true.
Proof. intros Ha Hs. induction n as [|n IH]; [done|]. cbn. by rewrite Ha. Qed.
Lemma repeat_last (n : nat) (c : ascii) : last_char c (repeat_char n "a" "'") = "'"%char.
Proof. revert c. induction n as [|n IH]; intros c; [done|]. apply IH. Qed.

(** A warning that quotes a path of any length gives a finding with that
    whole path, however long, although every other field of the finding is
    within its cap. *)
Theorem rkhunter_path_unbounded (n : nat) :
  exists f, Rkhunter.rkhunter_parse ("Warning: '/" +:+ repeat_char n "a" "'") "" = [f] /\
    fd_path f = Some ("/" +:+ repeat_char n "a" EmptyString) /\
    String.length (default EmptyString (fd_path f)) = S n /\
    (String.length (fd_indicator_value f) <= MAX_VALUE_LEN)%nat /\
    (String.length (fd_raw_line f) <= MAX_RAW_LEN)%nat /\
    (String.length (default EmptyString (fd_message f)) <= MAX_MESSAGE_LEN)%nat.
Proof.
  set (q := String "'" (String "/" (repeat_char n "a" "'"))).
  assert (Rkhunter.warning_blocks ("Warning: '/" +:+ repeat_char n "a" "'") = [("Warning: " +:+ q, [])]) as E.
  { unfold Rkhunter.warning_blocks, lines. rewrite split_on_single by (by apply repeat_forall).
    unfold Rkhunter.block_step. cbn [foldl]. rewrite sanitize_id by (by apply repeat_forall). done. }
  assert (strip (Rkhunter.warning_text ("Warning: " +:+ q)) = q) as Et.
  { change (strip q = q). apply strip_id; [done|]. change (py_space (last_char "/" (repeat_char n "a" "'")) = false). by rewrite repeat_last. }
  assert (Rkhunter.quoted_path q = Some ("/" +:+ repeat_char n "a" EmptyString)) as Eq.
  { subst q. cbn [Rkhunter.quoted_path Ascii.eqb Bool.eqb startswith andb Rkhunter.upto_quote]. by rewrite upto_quote_repeat. }
  assert (forall s k, (String.length (clip s k) <= k)%nat) as Hclip.
  { intros s k. unfold clip. destruct (Nat.leb_spec (String.length s) k); [done|]. rewrite str_take_length. lia. }
  unfold Rkhunter.rkhunter_parse. rewrite E. eexists. split; [reflexivity|]. cbn [Rkhunter.rkhunter_finding]. rewrite Et, Eq.
  cbn [fd_path fd_indicator_value fd_raw_line fd_message default].
  split_and!; [done | | apply Hclip | apply Hclip |].
  - cbn. rewrite repeat_length. cbn. lia.
  - destruct (Rkhunter.nonempty _); [apply Hclip | cbn; lia].
Qed.

(** A change of the root directory itself is dropped: the entry pattern
    wants a character after the slash, so the entry AIDE prints for the path
    [/] gives no finding, in a section or in the inline form, whatever the
    attributes are. *)
Theorem aide_root_entry_dropped (section : option string) (c : ascii) (attrs : string) :
  str_forall (fun c => negb (Ascii.eqb c ":")) (String c attrs) = true -> clean (String c attrs) = true ->
  py_space c = false ->
  Aide.parse_line section (String c attrs +:+ ": /") = (section, []).
Proof.
  intros Hcol Hcl Hsp. unfold Aide.parse_line. set (line := String c attrs +:+ ": /").
  assert (strip (sanitize_text line) = line) as ->.
  { unfold line. rewrite sanitize_app, (sanitize_id (String c attrs)) by done. apply strip_id; [done|].
    change (py_space (last_char c (attrs +:+ String ":" (String " " (String "/" EmptyString)))) = false). by rewrite last_char_app. }
  assert (String.eqb line EmptyString = false) as -> by done.
  rewrite header_no_slash.
  2:{ rewrite lower_keeps by set_solver. unfold line. rewrite !str_forall_app. apply andb_false_r. }
  assert (Aide.is_heading line = false) as ->.
  { apply forall_cons in Hcol as [_ Ha]. change (is_alpha_ascii c && Aide.heading_tail (attrs +:+ String ":" " /") = false).
    rewrite heading_tail_colon by done. apply andb_false_r. }
  assert (Aide.entry_match line = None) as ->.
  { change (Aide.entry_match line) with (if py_space c then None else rest ← Aide.after_colon (attrs +:+ String ":" " /"); Aide.path_after rest).
    rewrite Hsp. apply forall_cons in Hcol as [_ Ha]. by rewrite after_colon_reads. }
  assert (Aide.legacy_match line = None) as ->; [|by destruct section].
  unfold Aide.legacy_match. destruct (List.find _ _) as [w|] eqn:Ef; [|done]. apply List.find_some in Ef as [Hin Hw].
  unfold line in Hw. rewrite lower_app in Hw. cbn [mbind option_bind].
  assert (str_lower (String c attrs) = w) as E.
  { eapply (startswith_colon w _ (str_lower " /")); [| |exact Hw]; [by destruct Hin as [<-|[<-|[<-|[]]]]|].
    rewrite lower_keeps; [done | set_solver]. }
  assert (String.length (String c attrs) = String.length w) as El.
  { rewrite <- E. clear. generalize (String c attrs). intros s. induction s as [|x s IH]; [done|]. cbn. by rewrite <- IH. }
  rewrite <- El. change (S (String.length (String c attrs))) with (1 + String.length (String c attrs))%nat.
  assert (str_drop (1 + String.length (String c attrs)) line = " /"%string) as ->; [|done].
  unfold line. clear. generalize (String c attrs). intros s. induction s as [|x s IH]; [done|]. exact IH.
Qed.

(** ** Witnesses *)

Module AdapterExample.
Definition no_repr (v : pyval) : string := EmptyString.
(** A path with a carriage return and a bracket in it. *)
Definition odd_path : string := "/home/a]b" +:+ String "013" " c.txt".
Definition odd_match : YaraMatch :=
  mkYaraMatch "Demo_Rule" (Some [("description"%string, MStr ("a, ]" +:+ String "034" "c")); ("severity"%string, MStr "high"); ("score"%string, MInt 42)]) odd_path.
Definition odd_entry : AideEntry := mkAideEntry "f++++++++++++++++" odd_path.
Definition report : list AideSection := [mkAideSection AddedEntries [odd_entry]; mkAideSection ChangedEntries [mkAideEntry "f   ...    .C... " "/etc/passwd"]].
Definition run : ActiveRun ScanWorld := mkRun "rkhunter" (Rkhunter.rkhunter_adapter no_repr) "r1" 0 ["rkhunter"%string] 60 1000 true.
Definition result : ScanResult := mkScanResult (Some 1) "Warning: hidden file" EmptyString false false None false 0.
End AdapterExample.

Import AdapterExample.

Lemma findings_control_free_witness :
  exists f, Rkhunter.rkhunter_parse ("Warning: x" +:+ String "027" "y") "" = [f] /\ clean (fd_raw_line f) = true.
Proof.
  eexists. split; [reflexivity|].
  apply (findings_control_free no_repr (Rkhunter.rkhunter_adapter no_repr) ("Warning: x" +:+ String "027" "y") EmptyString _ _
           ltac:(right; left) eq_refl ltac:(left)).
Defined.

Lemma shipped_verdicts_witness :
  exists found, Rkhunter.rkhunter_parse "Warning: hidden file" "" = found /\ found <> [].
Proof.
  destruct (shipped_verdicts no_repr run result 1 ltac:(right; left) eq_refl eq_refl) as (found & Hf & _ & H).
  exists found. split; [by injection Hf|]. exact H.
Defined.

Lemma odd_match_ok : match_ok odd_match.
Proof. split_and!; [vm_compute; reflexivity | repeat constructor | reflexivity | reflexivity]. Qed.

Lemma yara_report_roundtrip_witness :
  exists f, Yara.yara_parse (unlines [print_match odd_match]) "" = [f] /\ fd_severity f = Some "high"%string /\
    fd_path f = Some "/home/a]b c.txt"%string.
Proof.
  eexists. split; [exact (yara_report_roundtrip [odd_match] "" ltac:(constructor; [apply odd_match_ok | constructor]))|].
  split; reflexivity.
Defined.

Lemma report_ok : Forall (fun s => Forall entry_ok_line (as_entries s)) report.
Proof.
  repeat constructor; cbn [ae_attrs ae_path]; try reflexivity; try (eexists _, _; split; reflexivity);
    apply (bool_decide_unpack _); vm_compute; exact I.
Qed.

Lemma aide_report_roundtrip_witness :
  Forall quiet_line ["Summary:"%string; "  Total number of entries: 42"%string] /\
  fd_indicator_value <$> Aide.aide_parse (unlines (["Summary:"%string; "  Total number of entries: 42"%string] ++ (report ≫= print_section) ++
      ["Detailed information about changes:"%string] ++ [])) ""
  = ["added"; "changed"]%string.
Proof.
  assert (Forall quiet_line ["Summary:"%string; "  Total number of entries: 42"%string]) as Hq by (repeat constructor).
  split; [exact Hq|]. rewrite (aide_report_roundtrip _ [] report "" Hq ltac:(constructor) report_ok). reflexivity.
Defined.

Lemma yara_break_bounded_witness :
  exists fs gs f' extra,
    Yara.yara_parse (unlines ([] ++ ["Demo_Rule /tmp/x"; "Evil_Rule /etc/shadow"]%string ++ [])) "" = fs ++ [f'] ++ extra ++ gs /\
    fd_path f' = Some "/tmp/x"%string.
Proof.
  destruct (yara_break_bounded [] [] "Demo_Rule /tmp/x" "Evil_Rule /etc/shadow" "/tmp/x"
              (Yara.yara_finding "Demo_Rule /tmp/xEvil_Rule /etc/shadow" "Demo_Rule" "/tmp/xEvil_Rule /etc/shadow" None) ""
              ltac:(repeat constructor) ltac:(vm_compute; reflexivity) ltac:(vm_compute; reflexivity) eq_refl) as (fs & gs & f' & extra & _ & H & _ & _ & _ & Hp).
  exists fs, gs, f', extra. split; [exact H | exact Hp].
Defined.

Lemma rkhunter_break_bounded_witness :
  exists fs gs extra,
    fd_raw_line <$> Rkhunter.rkhunter_parse (unlines ([] ++ ["Warning: x"; "Warning: FAKE"]%string ++ [])) ""
    = fs ++ [clip (sanitize_text "Warning: x") MAX_RAW_LEN] ++ extra ++ gs /\ (length extra <= 1)%nat.
Proof.
  destruct (rkhunter_break_bounded [] [] "Warning: x" "Warning: FAKE" "" ltac:(repeat constructor) eq_refl)
    as (fs & gs & extra & _ & H & Hl).
  exists fs, gs, extra. split; [exact H | exact Hl].
Defined.

Lemma aide_root_entry_dropped_witness :
  Aide.parse_line (Some "changed"%string) "d   ...    .C... : /" = (Some "changed"%string, []).
Proof. exact (aide_root_entry_dropped (Some "changed"%string) "d" "   ...    .C... " eq_refl eq_refl eq_refl). Defined.
