(* ===== verification/Enrichment.v ===== *)
(** * Enrichment and first sightings ([inspectord/enrichment/], [anomaly/first_sighting.py])

    What the supervisor does to an event before the rules see it: [enrich]
    adds what [/proc], the file system and the user database say, and the
    first-sighting tracker marks the event that names an entity for the first
    time. What the reads return is an argument. An exception an enricher does
    not catch is a value of [EnrichExc]. *)

From S2P Require Import Prelude Schemas RuleEval Alerts Vuln.

(** The errors a read may raise, as the code tells them apart. *)
Inductive ReadErr := PermissionError | FileNotFoundError | OtherOSError.
Inductive EnrichExc := EE_os (e : ReadErr) | EE_type | EE_value | EE_attribute.

(** ** [ev.model_copy(update={...})] *)

Definition set_process (d : dict) (e : Event) : Event :=
  mkEvent (ev_schema_version e) (ev_ts e) (ev_event_id e) (ev_kind e) (ev_category e) (ev_type e) (ev_action e)
    (ev_outcome e) (ev_severity e) (ev_module e) (ev_first_seen e) (ev_host e) (ev_user e) (Some d) (ev_file e)
    (ev_source e) (ev_destination e) (ev_network e) (ev_service e) (ev_package e) (ev_device e) (ev_persistence e)
    (ev_vulnerability e) (ev_hunt e) (ev_rule e) (ev_threat e) (ev_baseline e) (ev_evidence e) (ev_raw e) (ev_labels e)
    (ev_message e).
Definition set_file (d : dict) (e : Event) : Event :=
  mkEvent (ev_schema_version e) (ev_ts e) (ev_event_id e) (ev_kind e) (ev_category e) (ev_type e) (ev_action e)
    (ev_outcome e) (ev_severity e) (ev_module e) (ev_first_seen e) (ev_host e) (ev_user e) (ev_process e) (Some d)
    (ev_source e) (ev_destination e) (ev_network e) (ev_service e) (ev_package e) (ev_device e) (ev_persistence e)
    (ev_vulnerability e) (ev_hunt e) (ev_rule e) (ev_threat e) (ev_baseline e) (ev_evidence e) (ev_raw e) (ev_labels e)
    (ev_message e).
Definition set_user (d : dict) (e : Event) : Event :=
  mkEvent (ev_schema_version e) (ev_ts e) (ev_event_id e) (ev_kind e) (ev_category e) (ev_type e) (ev_action e)
    (ev_outcome e) (ev_severity e) (ev_module e) (ev_first_seen e) (ev_host e) (Some d) (ev_process e) (ev_file e)
    (ev_source e) (ev_destination e) (ev_network e) (ev_service e) (ev_package e) (ev_device e) (ev_persistence e)
    (ev_vulnerability e) (ev_hunt e) (ev_rule e) (ev_threat e) (ev_baseline e) (ev_evidence e) (ev_raw e) (ev_labels e)
    (ev_message e).
Definition set_baseline (d : dict) (e : Event) : Event :=
  mkEvent (ev_schema_version e) (ev_ts e) (ev_event_id e) (ev_kind e) (ev_category e) (ev_type e) (ev_action e)
    (ev_outcome e) (ev_severity e) (ev_module e) (ev_first_seen e) (ev_host e) (ev_user e) (ev_process e) (ev_file e)
    (ev_source e) (ev_destination e) (ev_network e) (ev_service e) (ev_package e) (ev_device e) (ev_persistence e)
    (ev_vulnerability e) (ev_hunt e) (ev_rule e) (ev_threat e) (Some d) (ev_evidence e) (ev_raw e) (ev_labels e)
    (ev_message e).

(** [dict(v)] of a JSON value: a mapping, an iterable of pairs with string
    keys, or nothing to iterate over. *)
Definition dict_pair (v : pyval) : option (string * pyval) :=
  match v with
  | PList [PStr k; x] => Some (k, x)
  | PStr (String a (String b EmptyString)) => Some (String a EmptyString, PStr (String b EmptyString))
  | _ => None
  end.
Fixpoint dict_pairs (l : list pyval) (acc : dict) : option dict :=
  match l with
  | [] => Some acc
  | x :: l' => '(k, v) ← dict_pair x; dict_pairs l' (dict_set k v acc)
  end.
Definition py_dict (v : pyval) : result EnrichExc dict :=
  match v with
  | PDict d => Ok d
  | PStr EmptyString => Ok []
  | PStr _ => Err EE_value
  | PList l => match dict_pairs l [] with Some d => Ok d | None => Err EE_type end
  | _ => Err EE_type
  end.

(** ** [process.py] *)

(** What [/proc] and the executables say while one event is enriched. *)
Record ProcFs := mkProcFs {
  pf_base : Z -> bool;                            (* [/proc/<pid>] exists *)
  pf_exe : Z -> result ReadErr string;            (* [/proc/<pid>/exe], resolved *)
  pf_exists : string -> result ReadErr bool;
  pf_mtime : string -> result ReadErr Z;
  pf_bytes : string -> result ReadErr string;
  pf_cmdline : Z -> result ReadErr string;
  pf_stat : Z -> result ReadErr string;
  pf_comm : Z -> result ReadErr string;
}.

Record PidData := mkPidData {
  pd_exe : option string;
  pd_exe_sha256 : option string;
  pd_cmdline : option string;
  pd_ppid : option Z;
  pd_parent_comm : option string;
}.

(** Digests by path and modification time. *)
Abbreviation HashCache := (gmap (string * Z) string).

Section Process.
Context (sha256 : string -> string) (decode : string -> string).

(** [except (PermissionError, FileNotFoundError): pass]. *)
Definition swallow {A} (dflt : A) (r : result ReadErr A) : result EnrichExc A :=
  match r with
  | Ok a => Ok a
  | Err PermissionError | Err FileNotFoundError => Ok dflt
  | Err e => Err (EE_os e)
  end.

(** The executable and its digest, cached by path and modification time. What
    was found before a read raised stays in [out]. *)
Definition exe_part (fs : ProcFs) (pid : Z) (cache : HashCache)
  : option string * option string * HashCache * option ReadErr :=
  match pf_exe fs pid with
  | Err e => (None, None, cache, Some e)
  | Ok exe =>
      match pf_exists fs exe with
      | Err e => (None, None, cache, Some e)
      | Ok false => (None, None, cache, None)
      | Ok true =>
          match pf_mtime fs exe with
          | Err e => (Some exe, None, cache, Some e)
          | Ok mtime =>
              match cache !! (exe, mtime) with
              | Some digest => (Some exe, Some digest, cache, None)
              | None =>
                  match pf_bytes fs exe with
                  | Err e => (Some exe, None, cache, Some e)
                  | Ok bytes => (Some exe, Some (sha256 bytes), <[(exe, mtime) := sha256 bytes]> cache, None)
                  end
              end
          end
      end
  end.

Fixpoint map_string (f : ascii -> ascii) (s : string) : string :=
  match s with EmptyString => EmptyString | String c s' => String (f c) (map_string f s') end.
Definition cmdline_text (raw : string) : option string :=
  let t := strip (decode (map_string (fun c => if (code c =? 0)%N then " "%char else c) raw)) in
  if String.eqb t EmptyString then None else Some t.

(** The text after the last closing parenthesis, when that is not the first
    character. *)
Fixpoint after_last_paren (s : string) : option string :=
  match s with
  | EmptyString => None
  | String c s' =>
      match after_last_paren s' with
      | Some r => Some r
      | None => if Ascii.eqb c ")"%char then Some s' else None
      end
  end.
(** The parent's pid in [/proc/<pid>/stat]; a [ValueError] is swallowed. *)
Definition stat_ppid (text : string) : option Z :=
  match text with
  | EmptyString => None
  | String _ rest =>
      match after_last_paren rest with
      | None => None
      | Some t => match split_ws (strip t) with
                  | _ :: field :: _ => py_int field
                  | _ => None
                  end
      end
  end.

(** [read_pid] *)
Definition read_pid (fs : ProcFs) (pid : Z) (cache : HashCache) : result EnrichExc (option PidData) * HashCache :=
  if negb (pf_base fs pid) then (Ok None, cache)
  else
    let '(exe, digest, cache, err) := exe_part fs pid cache in
    (match swallow tt (match err with Some e => Err e | None => Ok tt end) with
     | Err e => Err e
     | Ok _ =>
         cmdline ← swallow None (cmdline_text <$> pf_cmdline fs pid);
         ppid ← swallow None (stat_ppid <$> pf_stat fs pid);
         comm ← (match ppid with
                 | Some p => if p =? 0 then Ok None
                             else swallow None ((fun t => let c := strip t in if String.eqb c EmptyString then None else Some c)
                                                  <$> pf_comm fs p)
                 | None => Ok None
                 end);
         Ok (match exe, digest, cmdline, ppid with
             | None, None, None, None => None
             | _, _, _, _ => Some (mkPidData exe digest cmdline ppid comm)
             end)
     end, cache).

(** [new_process] from the data read. *)
Definition merge_process (proc : dict) (data : PidData) : result EnrichExc dict :=
  let p := match pd_exe data with
           | Some exe => if dict_mem "executable" proc then proc else dict_set "executable" (PStr exe) proc
           | None => proc
           end in
  p ← match pd_exe_sha256 data with
      | Some digest =>
          block ← py_dict (default (PDict []) (dict_lookup "hash" p));
          Ok (dict_set "hash" (PDict (dict_set "sha256" (PStr digest) block)) p)
      | None => Ok p
      end;
  let p := match pd_cmdline data with
           | Some c => if dict_mem "command_line" p then p else dict_set "command_line" (PStr c) p
           | None => p
           end in
  Ok (match pd_ppid data with
      | Some ppid =>
          dict_set "parent" (PDict (("pid"%string, PInt ppid) ::
            match pd_parent_comm data with Some c => [("name"%string, PStr c)] | None => [] end)) p
      | None => p
      end).

Definition enrich_process (fs : ProcFs) (cache : HashCache) (e : Event) : result EnrichExc Event * HashCache :=
  match ev_process e with
  | Some (x :: proc') =>
      let proc := x :: proc' in
      match dict_lookup "pid" proc with
      | None | Some PNone => (Ok e, cache)
      | Some v =>
          match int_of v with
          | None => (Ok e, cache)
          | Some pid =>
              let '(r, cache) := read_pid fs pid cache in
              (data ← r;
               match data with
               | None => Ok e
               | Some d => p ← merge_process proc d; Ok (set_process p e)
               end, cache)
          end
      end
  | _ => (Ok e, cache)
  end.
End Process.

(** ** [file.py] *)

Record FileStat := mkFileStat { st_size : Z; st_mtime : Z; st_mode : Z; st_uid : Z; st_ino : Z }.
Record FileFs := mkFileFs {
  ff_exists : string -> result ReadErr bool;     (* exists and is a regular file *)
  ff_stat : string -> result ReadErr FileStat;
  ff_restat : string -> result ReadErr FileStat; (* the second [stat], in [_sha256] *)
  ff_bytes : string -> result ReadErr string;
}.

Abbreviation FileCache := (gmap (string * Z * Z * Z) string).

(** [oct(n)] of a natural number. *)
Fixpoint oct_digits (fuel : nat) (n : Z) (acc : string) : string :=
  match fuel with
  | O => acc
  | S f => let acc := String (ascii_of_N (Z.to_N (48 + n mod 8))) acc in
           if n / 8 =? 0 then acc else oct_digits f (n / 8) acc
  end.
Definition oct (n : Z) : string := "0o" +:+ oct_digits 22 n EmptyString.

Section File.
Context (sha256 : string -> string) (mtime_value : Z -> pyval).

Definition S_ISUID : Z := 2048.
Definition S_ISGID : Z := 1024.

Definition file_sha256 (fs : FileFs) (path : string) (cache : FileCache) : result ReadErr string * FileCache :=
  match ff_restat fs path with
  | Err e => (Err e, cache)
  | Ok st =>
      let key := (path, st_ino st, st_mtime st, st_size st) in
      match cache !! key with
      | Some digest => (Ok digest, cache)
      | None => match ff_bytes fs path with
                | Err e => (Err e, cache)
                | Ok bytes => (Ok (sha256 bytes), <[key := sha256 bytes]> cache)
                end
      end
  end.

Definition stat_fields (st : FileStat) (f : dict) : dict :=
  dict_set "setgid" (PBool (negb (Z.land (st_mode st) S_ISGID =? 0)))
    (dict_set "setuid" (PBool (negb (Z.land (st_mode st) S_ISUID =? 0)))
      (dict_set "owner" (PInt (st_uid st))
        (dict_set "mode" (PStr (oct (Z.land (st_mode st) 4095)))
          (dict_set "mtime" (mtime_value (st_mtime st))
            (dict_set "size" (PInt (st_size st)) f))))).

Definition enrich_file (fs : FileFs) (cache : FileCache) (e : Event) : result EnrichExc Event * FileCache :=
  match ev_file e with
  | Some (x :: f') =>
      let f := x :: f' in
      match dict_get "path" f with
      | PStr path =>
          match ff_exists fs path with
          | Err err => (Err (EE_os err), cache)
          | Ok false => (Ok e, cache)
          | Ok true =>
              match ff_stat fs path with
              | Err _ => (Ok e, cache)
              | Ok st =>
                  let new_file := stat_fields st f in
                  let '(r, cache) := file_sha256 fs path cache in
                  (match r with
                   | Err _ => Ok (set_file new_file e)
                   | Ok digest =>
                       block ← py_dict (default (PDict []) (dict_lookup "hash" new_file));
                       Ok (set_file (dict_set "hash" (PDict (dict_set "sha256" (PStr digest) block)) new_file) e)
                   end, cache)
              end
          end
      | _ => (Ok e, cache)
      end
  | _ => (Ok e, cache)
  end.
End File.

(** ** [user.py] *)

(** [getpwuid]: [None] is a [KeyError]. *)
Definition enrich_user (getpwuid : Z -> option string) (e : Event) : Event :=
  match ev_user e with
  | Some (x :: u') =>
      let u := x :: u' in
      match dict_get "id" u with
      | PNone => e
      | v => match int_of v with
             | None => e
             | Some uid =>
                 match getpwuid uid with
                 | None => e
                 | Some name => set_user (if dict_mem "name" u then u else dict_set "name" (PStr name) u) e
                 end
             end
      end
  | _ => e
  end.

(** ** [enrich] *)

(** What the three enrichers meet, and what they keep between events. *)
Record EnrichEnv := mkEnrichEnv { ee_proc : ProcFs; ee_file : FileFs; ee_getpwuid : Z -> option string }.
Record EnrichState := mkEnrichState { es_exe_hashes : HashCache; es_file_hashes : FileCache }.

Section Enrich.
Context (sha256 : string -> string) (decode : string -> string) (mtime_value : Z -> pyval).

Definition enrich (env : EnrichEnv) (s : EnrichState) (e : Event) : result EnrichExc Event * EnrichState :=
  match enrich_process sha256 decode (ee_proc env) (es_exe_hashes s) e with
  | (Err x, c) => (Err x, mkEnrichState c (es_file_hashes s))
  | (Ok e1, c) =>
      match enrich_file sha256 mtime_value (ee_file env) (es_file_hashes s) e1 with
      | (Err x, f) => (Err x, mkEnrichState c f)
      | (Ok e2, f) => (Ok (enrich_user (ee_getpwuid env) e2), mkEnrichState c f)
      end
  end.
End Enrich.

(** ** [first_sighting.py] *)

(** Category, kind and key of an entity. *)
Definition SightingKey : Type := string * string * string.

Section Sighting.
Context (str_other : pyval -> string).

(** [(v or {}).get(k)]: an [AttributeError] when [v] is true and no mapping. *)
Definition sub_get (v : pyval) (k : string) : result EnrichExc pyval :=
  if truthy v then match v with PDict d => Ok (dict_get k d) | _ => Err EE_attribute end else Ok PNone.

Definition process_start_key (e : Event) : result EnrichExc (list SightingKey) :=
  let proc := block_or_empty (ev_process e) in
  digest ← sub_get (dict_get "hash" proc) "sha256";
  let ident := if truthy digest then digest else dict_get "executable" proc in
  Ok (if truthy ident then [("process", "binary", py_str str_other ident)]%string else []).

Definition outbound_connection_key (e : Event) : list SightingKey :=
  let name := dict_get "name" (block_or_empty (ev_process e)) in
  let dst := block_or_empty (ev_destination e) in
  let ip := dict_get "ip" dst in
  let port := dict_get "port" dst in
  if truthy name && truthy ip && negb (match port with PNone => true | _ => false end)
  then [("network", "proc_dest", py_str str_other name +:+ "->" +:+ py_str str_other ip +:+ ":" +:+ py_str str_other port)]%string
  else [].

Definition ssh_login_key (e : Event) : list SightingKey :=
  let ip := dict_get "ip" (block_or_empty (ev_source e)) in
  if truthy ip then [("authentication", "login_ip", py_str str_other ip)]%string else [].

Definition kmod_key (e : Event) : list SightingKey :=
  let name := dict_get "module_name" (block_or_empty (ev_raw e)) in
  if truthy name then [("driver", "kmod", py_str str_other name)]%string else [].

Definition suid_key (e : Event) : list SightingKey :=
  let f := block_or_empty (ev_file e) in
  match dict_get "setuid" f with
  | PBool true => if truthy (dict_get "path" f) then [("file", "suid", py_str str_other (dict_get "path" f))]%string else []
  | _ => []
  end.

Definition sighting_keys (e : Event) : result EnrichExc (list SightingKey) :=
  let a := ev_action e in
  if String.eqb a "process_start" then process_start_key e
  else if String.eqb a "outbound_connection" then Ok (outbound_connection_key e)
  else if String.eqb a "ssh_login_succeeded" then Ok (ssh_login_key e)
  else if String.eqb a "kmod_loaded" then Ok (kmod_key e)
  else if String.eqb (ev_module e) "fim_watcher" && (String.eqb a "file_created" || String.eqb a "file_attributes_changed")
       then Ok (suid_key e)
  else Ok [].

(** A row of [first_seen]: key, time, event. *)
Definition SightingRow : Type := SightingKey * Z * string.

Record Tracker := mkTracker { ft_seen : gset SightingKey; ft_pending : list SightingRow }.
Definition tracker_init : Tracker := mkTracker ∅ [].

(** [load]: the rows of [first_seen]. *)
Definition load (rows : list SightingRow) (t : Tracker) : Tracker :=
  mkTracker (list_to_set (rows.*1.*1)) (ft_pending t).

(** The loop over the keys, under the lock. *)
Fixpoint note_keys (e : Event) (keys : list SightingKey) (t : Tracker) (fresh : bool) : Tracker * bool :=
  match keys with
  | [] => (t, fresh)
  | k :: keys' =>
      if bool_decide (k ∈ ft_seen t) then note_keys e keys' t fresh
      else note_keys e keys' (mkTracker ({[k]} ∪ ft_seen t) (ft_pending t ++ [(k, ev_ts e, ev_event_id e)])) true
  end.

(** [observe]: the event is mutated in place. *)
Definition observe (e : Event) (t : Tracker) : result EnrichExc Event * Tracker :=
  match sighting_keys e with
  | Err x => (Err x, t)
  | Ok keys =>
      let '(t', fresh) := note_keys e keys t false in
      (Ok (if fresh then set_baseline (dict_set "first_sighting" (PBool true) (block_or_empty (ev_baseline e))) e else e), t')
  end.

(** [flush]: the queue is taken whole; [ok k] is whether the [k]-th insertion
    succeeds, and the first failure loses the rest. *)
Definition insert_or_ignore (r : SightingRow) (rows : list SightingRow) : list SightingRow :=
  if bool_decide (r.1.1 ∈ rows.*1.*1) then rows else rows ++ [r].
Fixpoint flush_rows (ok : nat -> bool) (k : nat) (pending rows : list SightingRow) : list SightingRow :=
  match pending with
  | [] => rows
  | r :: pending' => if ok k then flush_rows ok (S k) pending' (insert_or_ignore r rows) else rows
  end.
Definition flush (ok : nat -> bool) (t : Tracker) (rows : list SightingRow) : Tracker * list SightingRow :=
  (mkTracker (ft_seen t) [], flush_rows ok 0 (ft_pending t) rows).
End Sighting.

(** ** What enrichment leaves alone *)

Section Preserved.

(** [d'] says what [d] says, outside the keys of [ks]. *)
Definition keeps_keys (ks : list string) (d d' : dict) : Prop :=
  forall k v, k ∉ ks -> dict_lookup k d = Some v -> dict_lookup k d' = Some v.

Lemma keeps_refl (ks : list string) (d : dict) : keeps_keys ks d d.
Proof. by intros k v. Qed.
Lemma keeps_trans (ks : list string) (a b c : dict) : keeps_keys ks a b -> keeps_keys ks b c -> keeps_keys ks a c.
Proof. intros H1 H2 k v Hk Ha. by apply H2, H1. Qed.
Lemma keeps_set (ks : list string) (k : string) (v : pyval) (d : dict) : k ∈ ks -> keeps_keys ks d (dict_set k v d).
Proof. intros Hk k' v' Hk' H. rewrite dict_lookup_set_ne; [done|]. by intros <-. Qed.
Lemma keeps_new (ks : list string) (k : string) (v : pyval) (d : dict) : dict_mem k d = false -> keeps_keys ks d (dict_set k v d).
Proof.
  intros Hm k' v' Hk' H. rewrite dict_lookup_set_ne; [done|]. intros <-. unfold dict_mem in Hm. by rewrite H in Hm.
Qed.
End Preserved.

(** The digests of a block other than [sha256]. *)
Definition keeps_hash (d d' : dict) : Prop :=
  forall block, dict_lookup "hash" d = Some (PDict block) ->
  exists block', dict_lookup "hash" d' = Some (PDict block') /\ keeps_keys ["sha256"%string] block block'.

Lemma keeps_hash_other (k : string) (v : pyval) (d : dict) : k <> "hash"%string -> keeps_hash d (dict_set k v d).
Proof. intros Hk block Hb. exists block. split; [by rewrite dict_lookup_set_ne | apply keeps_refl]. Qed.
Lemma keeps_hash_trans (a b c : dict) : keeps_hash a b -> keeps_hash b c -> keeps_hash a c.
Proof.
  intros H1 H2 block Ha. destruct (H1 block Ha) as (b1 & Hb1 & K1). destruct (H2 b1 Hb1) as (b2 & Hb2 & K2).
  exists b2. split; [done|]. by eapply keeps_trans.
Qed.
Lemma keeps_hash_refl (d : dict) : keeps_hash d d.
Proof. intros block H. exists block. split; [done | apply keeps_refl]. Qed.
Lemma keeps_hash_digest (digest : string) (d block : dict) :
  py_dict (default (PDict []) (dict_lookup "hash" d)) = Ok block ->
  keeps_hash d (dict_set "hash" (PDict (dict_set "sha256" (PStr digest) block)) d).
Proof.
  intros Hp b Hb. rewrite Hb in Hp. cbn in Hp. injection Hp as <-. eexists. split; [apply dict_lookup_set_eq|].
  apply keeps_set. set_solver.
Qed.

Lemma merge_process_keeps (proc p : dict) (data : PidData) :
  merge_process proc data = Ok p -> keeps_keys ["hash"; "parent"]%string proc p /\ keeps_hash proc p.
Proof.
  unfold merge_process. set (p1 := match pd_exe data with Some exe => _ | None => proc end).
  assert (keeps_keys ["hash"; "parent"]%string proc p1 /\ keeps_hash proc p1) as [H1 G1].
  { subst p1. destruct (pd_exe data) as [exe|]; [|by split; [apply keeps_refl | apply keeps_hash_refl]].
    destruct (dict_mem "executable" proc) eqn:E; [by split; [apply keeps_refl | apply keeps_hash_refl]|].
    split; [by apply keeps_new | by apply keeps_hash_other]. }
  clearbody p1. destruct (match pd_exe_sha256 data with Some _ => _ | None => _ end) as [p2|x] eqn:E2; [|done].
  assert (keeps_keys ["hash"; "parent"]%string proc p2 /\ keeps_hash proc p2) as [H2 G2].
  { destruct (pd_exe_sha256 data) as [digest|]; [|by injection E2 as <-].
    destruct (py_dict _) as [block|] eqn:Eb; [|done]. injection E2 as <-. split.
    - eapply keeps_trans; [exact H1|]. apply keeps_set. set_solver.
    - eapply keeps_hash_trans; [exact G1|]. by apply keeps_hash_digest. }
  clear E2. cbn [mbind result_bind].
  set (p3 := match pd_cmdline data with Some c => _ | None => p2 end).
  assert (keeps_keys ["hash"; "parent"]%string proc p3 /\ keeps_hash proc p3) as [H3 G3].
  { subst p3. destruct (pd_cmdline data) as [c|]; [|done]. destruct (dict_mem "command_line" p2) eqn:E; [done|]. split.
    - eapply keeps_trans; [exact H2|]. by apply keeps_new.
    - eapply keeps_hash_trans; [exact G2|]. by apply keeps_hash_other. }
  intros [= <-]. destruct (pd_ppid data); [|done]. split.
  - eapply keeps_trans; [exact H3|]. apply keeps_set. set_solver.
  - eapply keeps_hash_trans; [exact G3|]. by apply keeps_hash_other.
Qed.

(** The block of an event after enrichment: absent blocks stay absent. *)
Definition block_keeps (ks : list string) (b b' : option dict) : Prop :=
  match b with
  | None => b' = None
  | Some d => exists d', b' = Some d' /\ keeps_keys ks d d'
  end.
Lemma block_keeps_refl (ks : list string) (b : option dict) : block_keeps ks b b.
Proof. destruct b; [|done]. eexists. split; [done | apply keeps_refl]. Qed.

(** Everything but the three blocks. *)
Definition same_event (e e' : Event) : Prop :=
  exists p f u b, e' = mkEvent (ev_schema_version e) (ev_ts e) (ev_event_id e) (ev_kind e) (ev_category e) (ev_type e) (ev_action e)
    (ev_outcome e) (ev_severity e) (ev_module e) (ev_first_seen e) (ev_host e) u p f
    (ev_source e) (ev_destination e) (ev_network e) (ev_service e) (ev_package e) (ev_device e) (ev_persistence e)
    (ev_vulnerability e) (ev_hunt e) (ev_rule e) (ev_threat e) b (ev_evidence e) (ev_raw e) (ev_labels e)
    (ev_message e).
Lemma same_event_refl (e : Event) : same_event e e.
Proof. exists (ev_process e), (ev_file e), (ev_user e), (ev_baseline e). by destruct e. Qed.

Section EnrichFacts.
Context (sha256 : string -> string) (decode : string -> string) (mtime_value : Z -> pyval).

Definition FILE_KEYS : list string := ["size"; "mtime"; "mode"; "owner"; "setuid"; "setgid"; "hash"]%string.

Lemma enrich_process_keeps (fs : ProcFs) (c c' : HashCache) (e e' : Event) :
  enrich_process sha256 decode fs c e = (Ok e', c') ->
  e' = e \/ exists d d', ev_process e = Some d /\ e' = set_process d' e /\ keeps_keys ["hash"; "parent"]%string d d' /\ keeps_hash d d'.
Proof.
  unfold enrich_process. destruct (ev_process e) as [[|x proc]|] eqn:Ep; try (intros [= <- <-]; by left).
  destruct (dict_lookup "pid" (x :: proc)) as [v|]; [|intros [= <- <-]; by left].
  assert (match int_of v with
          | None => (Ok e, c)
          | Some pid => let '(r, cache) := read_pid sha256 decode fs pid c in
              (data ← r; match data with None => Ok e | Some d => p ← merge_process (x :: proc) d; Ok (set_process p e) end, cache)
          end = (Ok e', c') ->
          e' = e \/ exists d d', Some (x :: proc) = Some d /\ e' = set_process d' e /\ keeps_keys ["hash"; "parent"]%string d d' /\ keeps_hash d d') as Hgo.
  { destruct (int_of v) as [pid|]; [|intros [= <- <-]; by left]. destruct (read_pid _ _ _ _ _) as [[data|] cc]; [|done].
    cbn [mbind result_bind]. destruct data as [d|]; [|intros [= <- <-]; by left].
    destruct (merge_process (x :: proc) d) as [p|] eqn:Em; [|done]. cbn. intros [= <- <-]. right.
    exists (x :: proc), p. apply merge_process_keeps in Em as [H1 H2]. done. }
  destruct v; [intros [= <- <-]; by left | exact Hgo..].
Qed.

Lemma enrich_file_keeps (fs : FileFs) (c c' : FileCache) (e e' : Event) :
  enrich_file sha256 mtime_value fs c e = (Ok e', c') ->
  e' = e \/ exists d d', ev_file e = Some d /\ e' = set_file d' e /\ keeps_keys FILE_KEYS d d' /\ keeps_hash d d'.
Proof using Type.
  clear decode.
  unfold enrich_file. destruct (ev_file e) as [[|x f]|] eqn:Ef; try (intros [= <- <-]; by left).
  destruct (dict_get "path" (x :: f)) as [| | | |path| | |]; try (intros [= <- <-]; by left).
  destruct (ff_exists fs path) as [[]|]; [|intros [= <- <-]; by left|done].
  destruct (ff_stat fs path) as [st|]; [|intros [= <- <-]; by left].
  assert (keeps_keys FILE_KEYS (x :: f) (stat_fields mtime_value st (x :: f)) /\ keeps_hash (x :: f) (stat_fields mtime_value st (x :: f))) as [H1 G1].
  { unfold stat_fields. split.
    - do 6 (eapply keeps_trans; [|apply keeps_set; unfold FILE_KEYS; set_solver]). apply keeps_refl.
    - do 6 (eapply keeps_hash_trans; [|apply keeps_hash_other; discriminate]). apply keeps_hash_refl. }
  destruct (file_sha256 _ _ _ _) as [[digest|] cc].
  - destruct (py_dict _) as [block|] eqn:Eb; [|done]. cbn [mbind result_bind].
    set (d' := dict_set "hash" _ _). intros [= <- <-]. right. exists (x :: f), d'. split_and!; [done | done | |].
    + eapply keeps_trans; [exact H1|]. apply keeps_set. unfold FILE_KEYS. set_solver.
    + eapply keeps_hash_trans; [exact G1|]. by apply keeps_hash_digest.
  - set (d' := stat_fields _ _ _) in *. intros [= <- <-]. right. by exists (x :: f), d'.
Qed.

Lemma enrich_user_keeps (getpwuid : Z -> option string) (e : Event) :
  enrich_user getpwuid e = e \/
  exists d d', ev_user e = Some d /\ enrich_user getpwuid e = set_user d' e /\ keeps_keys [] d d'.
Proof.
  unfold enrich_user. destruct (ev_user e) as [[|x u]|]; try by left.
  destruct (dict_get "id" (x :: u)) as [| | | | | | |]; [by left|..].
  all: destruct (int_of _) as [uid|]; [|by left]; destruct (getpwuid uid) as [name|]; [|by left]; right; eexists _, _;
    split_and!; [done | done |]; destruct (dict_mem "name" (x :: u)) eqn:E; [apply keeps_refl | by apply keeps_new].
Qed.

(** Enrichment only adds: when it returns, the event is the same but for
    its process, file and user blocks; a block the worker did not send is not
    made up; and of what the worker sent nothing is lost or changed except the
    parent, the digest and the file's attributes, which are read anew, digests
    of other kinds staying. *)
Theorem enrichment_preserves_report (env : EnrichEnv) (s s' : EnrichState) (e e' : Event) :
  enrich sha256 decode mtime_value env s e = (Ok e', s') ->
  same_event e e' /\ ev_baseline e' = ev_baseline e /\
  block_keeps ["hash"; "parent"]%string (ev_process e) (ev_process e') /\
  block_keeps FILE_KEYS (ev_file e) (ev_file e') /\ block_keeps [] (ev_user e) (ev_user e') /\
  keeps_hash (block_or_empty (ev_process e)) (block_or_empty (ev_process e')) /\
  keeps_hash (block_or_empty (ev_file e)) (block_or_empty (ev_file e')).
Proof.
  unfold enrich. destruct (enrich_process _ _ _ _ e) as [[e1|] c1] eqn:E1; [|done].
  destruct (enrich_file _ _ _ _ e1) as [[e2|] c2] eqn:E2; [|done]. intros [= <- <-].
  apply enrich_process_keeps in E1. apply enrich_file_keeps in E2. pose proof (enrich_user_keeps (ee_getpwuid env) e2) as E3.
  pose proof (same_event_refl e) as Hr. pose proof block_keeps_refl as Hb. pose proof keeps_hash_refl as Hh.
  destruct e. destruct E1 as [->|(p & p' & Hp & -> & K1 & G1)]; destruct E2 as [->|(f & f' & Hf & -> & K2 & G2)];
    destruct E3 as [->|(u & u' & Hu & -> & K3)]; cbn in *; simplify_eq;
    (split; [by eexists _, _, _, _ | split_and!; eauto]); (eexists; split; [reflexivity | eassumption]).
Qed.

(** *** The digest of an executable *)

(** The cached digests are those of the files as they were: the bytes of a
    file are determined by its path and modification time. *)
Definition cache_ok (content : string -> Z -> string) (cache : HashCache) : Prop :=
  forall exe mtime digest, cache !! (exe, mtime) = Some digest -> digest = sha256 (content exe mtime).
Definition stamped_by_mtime (content : string -> Z -> string) (fs : ProcFs) : Prop :=
  forall exe mtime bytes, pf_mtime fs exe = Ok mtime -> pf_bytes fs exe = Ok bytes -> bytes = content exe mtime.

Lemma exe_hash_sound (content : string -> Z -> string) (fs : ProcFs) (pid : Z) (cache : HashCache) :
  cache_ok content cache -> stamped_by_mtime content fs ->
  let '(exe, digest, cache', _) := exe_part sha256 fs pid cache in
  cache_ok content cache' /\
  forall d, digest = Some d -> exists path mtime, exe = Some path /\ pf_mtime fs path = Ok mtime /\ d = sha256 (content path mtime).
Proof.
  intros Hc Hs. unfold exe_part. destruct (pf_exe fs pid) as [exe|]; [|done]. destruct (pf_exists fs exe) as [[]|]; try done.
  destruct (pf_mtime fs exe) as [mtime|] eqn:Em; [|done]. destruct (cache !! (exe, mtime)) as [d0|] eqn:El.
  - split; [done|]. intros d [= <-]. exists exe, mtime. split_and!; [done..|]. by apply Hc.
  - destruct (pf_bytes fs exe) as [bytes|] eqn:Eb; [|done]. split.
    + intros x y d. rewrite lookup_insert_Some. intros [[[= <- <-] <-]|[_ H]]; [|by apply Hc]. f_equal. by apply Hs.
    + intros d [= <-]. exists exe, mtime. split_and!; [done..|]. f_equal. by apply Hs.
Qed.
End EnrichFacts.

(** The digest can be stale: once an executable was hashed, replacing its
    bytes and setting its modification time back gives every later event of a
    process running it the digest of the old bytes. *)
Theorem exe_hash_stale (sha256 decode : string -> string) (fs fs' : ProcFs) (pid mtime : Z) (exe old new_bytes : string) :
  pf_exe fs pid = Ok exe -> pf_exists fs exe = Ok true -> pf_mtime fs exe = Ok mtime -> pf_bytes fs exe = Ok old ->
  pf_exe fs' pid = Ok exe -> pf_exists fs' exe = Ok true -> pf_mtime fs' exe = Ok mtime -> pf_bytes fs' exe = Ok new_bytes ->
  let cache := (exe_part sha256 fs pid ∅).1.2 in
  (exe_part sha256 fs' pid cache).1.1 = (Some exe, Some (sha256 old)).
Proof.
  intros H1 H2 H3 H4 H1' H2' H3' H4'. unfold exe_part. rewrite H1, H2, H3, lookup_empty, H4. cbn [fst snd].
  by rewrite H1', H2', H3', lookup_insert_eq.
Qed.

(** ** First sightings are the first *)

Section Sightings.
Context (str_other : pyval -> string).

Definition keys_of (e : Event) : list SightingKey :=
  match sighting_keys str_other e with Ok ks => ks | Err _ => [] end.
Definition stamped (e : Event) : Event :=
  set_baseline (dict_set "first_sighting" (PBool true) (block_or_empty (ev_baseline e))) e.

(** The tracker over a sequence of events. *)
Fixpoint observe_all (es : list Event) (t : Tracker) : list (result EnrichExc Event) * Tracker :=
  match es with
  | [] => ([], t)
  | e :: es' => let '(r, t1) := observe str_other e t in
                let '(rs, t2) := observe_all es' t1 in (r :: rs, t2)
  end.

(** The rows that name each key of a list once, with the event it came from. *)
Definition rows_for (e : Event) (ks : list SightingKey) : list SightingRow := (fun k => (k, ev_ts e, ev_event_id e)) <$> ks.

Lemma note_keys_spec (e : Event) (ks : list SightingKey) (t : Tracker) (fresh : bool) :
  NoDup ks ->
  let new := List.filter (fun k => bool_decide (k ∉ ft_seen t)) ks in
  note_keys e ks t fresh
  = (mkTracker (list_to_set ks ∪ ft_seen t) (ft_pending t ++ rows_for e new), fresh || negb (bool_decide (new = []))).
Proof.
  intros Hnd. revert t fresh. induction Hnd as [|k ks Hk _ IH]; intros t fresh; cbn [note_keys List.filter].
  - destruct t as [seen pending]. cbn. rewrite app_nil_r, orb_false_r. do 2 f_equal. apply leibniz_equiv. set_solver.
  - case_bool_decide as Hs.
    + rewrite bool_decide_eq_false_2 by (intros H; by apply H). rewrite IH. cbn. do 2 f_equal. apply leibniz_equiv. set_solver.
    + rewrite bool_decide_eq_true_2 by done. rewrite IH. cbn [ft_seen ft_pending].
      assert (List.filter (fun k0 => bool_decide (k0 ∉ {[k]} ∪ ft_seen t)) ks = List.filter (fun k0 => bool_decide (k0 ∉ ft_seen t)) ks) as ->.
      { clear IH Hs. apply List.filter_ext_in. intros x Hx%list_elem_of_In. apply bool_decide_ext. set_solver. }
      f_equal; [|cbn; by rewrite orb_true_r]. f_equal; [apply leibniz_equiv; set_solver|]. by rewrite <- app_assoc.
Qed.

(** An event names at most one entity. *)
Lemma keys_at_most_one (e : Event) (ks : list SightingKey) : sighting_keys str_other e = Ok ks -> (length ks <= 1)%nat.
Proof.
  unfold sighting_keys, process_start_key, outbound_connection_key, ssh_login_key, kmod_key, suid_key.
  repeat match goal with
  | |- (if ?b then _ else _) = _ -> _ => destruct b
  | |- (_ ← ?m; _) = _ -> _ => destruct m; cbn [mbind result_bind]; [|done]
  | |- match ?v with PNone => _ | _ => _ end = _ -> _ => destruct v
  end; try (intros [= <-]; repeat case_match; cbn; lia).
Qed.

Lemma observe_all_snoc (es : list Event) (e : Event) (t : Tracker) :
  observe_all (es ++ [e]) t
  = let '(rs, t1) := observe_all es t in let '(r, t2) := observe str_other e t1 in (rs ++ [r], t2).
Proof.
  revert t. induction es as [|x es IH]; intros t; cbn [app observe_all]; [by destruct (observe str_other e t)|].
  destruct (observe str_other x t) as [r t1]. rewrite IH. destruct (observe_all es t1) as [rs t2].
  by destruct (observe str_other e t2).
Qed.

(** [k] is named for the first time by the [i]-th event. *)
Definition first_at (known : list SightingKey) (es : list Event) (k : SightingKey) (i : nat) (e : Event) : Prop :=
  es !! i = Some e /\ (k ∈ keys_of e) /\ (k ∉ known) /\ (k ∉ (take i es ≫= keys_of)).

Lemma first_at_snoc (known : list SightingKey) (es : list Event) (x : Event) (k : SightingKey) (i : nat) (e : Event) :
  first_at known (es ++ [x]) k i e <->
  first_at known es k i e \/ (i = length es /\ e = x /\ (k ∈ keys_of x) /\ (k ∉ known) /\ k ∉ (es ≫= keys_of)).
Proof.
  unfold first_at. rewrite lookup_app. destruct (es !! i) as [y|] eqn:E.
  - pose proof (lookup_lt_Some _ _ _ E) as Hl. rewrite take_app_le by lia. split; [by left|]. intros [?|[-> _]]; [done|lia].
  - apply lookup_ge_None in E. split.
    + intros (H & ? & ? & Ht). destruct (i - length es)%nat eqn:Ei; [|done]. assert (i = length es) as -> by lia. injection H as ->.
      right. rewrite take_app_length in Ht. done.
    + intros [(H & _)|(-> & -> & ? & ? & ?)]; [done|]. rewrite Nat.sub_diag, take_app_length. done.
Qed.

Record sightings_ok (rows : list SightingRow) (es : list Event) (rs : list (result EnrichExc Event)) (t : Tracker) : Prop := {
  so_len : length rs = length es;
  so_err : forall i e x, es !! i = Some e -> sighting_keys str_other e = Err x -> rs !! i = Some (Err x);
  so_stamp : forall i e ks, es !! i = Some e -> sighting_keys str_other e = Ok ks ->
    ((exists k, first_at (rows.*1.*1) es k i e) -> rs !! i = Some (Ok (stamped e))) /\
    (~ (exists k, first_at (rows.*1.*1) es k i e) -> rs !! i = Some (Ok e));
  so_seen : forall k, k ∈ ft_seen t <-> (k ∈ rows.*1.*1) \/ (k ∈ es ≫= keys_of);
  so_rows : forall k ts id, (k, ts, id) ∈ ft_pending t <->
    exists i e, first_at (rows.*1.*1) es k i e /\ ts = ev_ts e /\ id = ev_event_id e;
  so_once : NoDup ((ft_pending t).*1.*1);
}.

Lemma keys_of_nodup (e : Event) : NoDup (keys_of e).
Proof.
  unfold keys_of. destruct (sighting_keys str_other e) as [ks|] eqn:H; [|constructor]. apply keys_at_most_one in H.
  destruct ks as [|k [|k' ks]]; cbn in H; [constructor | apply NoDup_singleton | lia].
Qed.

Lemma observe_spec (e : Event) (t : Tracker) :
  let new := List.filter (fun k => bool_decide (k ∉ ft_seen t)) (keys_of e) in
  observe str_other e t
  = (match sighting_keys str_other e with Err x => Err x | Ok _ => Ok (if bool_decide (new = []) then e else stamped e) end,
     mkTracker (list_to_set (keys_of e) ∪ ft_seen t) (ft_pending t ++ rows_for e new)).
Proof.
  pose proof (keys_of_nodup e) as Hnd. unfold observe, keys_of in *. destruct (sighting_keys str_other e) as [ks|x].
  - rewrite note_keys_spec by done. cbn. by case_bool_decide.
  - cbn. destruct t as [seen pending]. cbn. rewrite app_nil_r. do 2 f_equal. apply leibniz_equiv. set_solver.
Qed.

Lemma new_keys (rows : list SightingRow) (es : list Event) (e : Event) (t : Tracker) (k : SightingKey) :
  (forall k, k ∈ ft_seen t <-> (k ∈ rows.*1.*1) \/ (k ∈ es ≫= keys_of)) ->
  k ∈ List.filter (fun k => bool_decide (k ∉ ft_seen t)) (keys_of e) <->
  (k ∈ keys_of e) /\ (k ∉ rows.*1.*1) /\ k ∉ (es ≫= keys_of).
Proof.
  intros Hs. rewrite list_elem_of_In, List.filter_In, <- list_elem_of_In, bool_decide_eq_true, Hs. tauto.
Qed.

Lemma sightings_snoc (rows : list SightingRow) (es : list Event) (rs : list (result EnrichExc Event)) (t : Tracker) (e : Event) :
  sightings_ok rows es rs t ->
  let '(r, t') := observe str_other e t in sightings_ok rows (es ++ [e]) (rs ++ [r]) t'.
Proof.
  intros [O1 O2 O3 O4 O5 O6]. rewrite observe_spec. cbv zeta.
  set (new := List.filter (fun k => bool_decide (k ∉ ft_seen t)) (keys_of e)).
  assert (forall k, k ∈ new <-> (k ∈ keys_of e) /\ (k ∉ rows.*1.*1) /\ k ∉ (es ≫= keys_of)) as Hnew by (intros k; by apply new_keys).
  assert (NoDup new) as Hnd by (apply NoDup_ListNoDup, List.NoDup_filter, NoDup_ListNoDup, keys_of_nodup).
  clearbody new.
  assert (forall i y, (exists k, first_at rows.*1.*1 (es ++ [e]) k i y) <->
            (exists k, first_at rows.*1.*1 es k i y) \/ (i = length es /\ y = e /\ new <> [])) as Hex.
  { intros i y. setoid_rewrite first_at_snoc. split.
    - intros (k & [H|(-> & -> & H)]); [left; eauto|]. right. split_and!; [done..|]. intros E. apply Hnew in H. rewrite E in H. set_solver.
    - intros [[k H]|(-> & -> & H)]; [eauto|]. assert (exists k, k ∈ new) as [k Hk] by (destruct new as [|k new']; [done|]; exists k; left).
      exists k. right. split; [done|]. split; [done|]. by apply Hnew. }
  split.
  - rewrite !length_app. cbn. lia.
  - intros i y x [[Hl Hi]|[-> <-]]%lookup_snoc_Some Hk; [rewrite lookup_app_l by lia; by apply (O2 i y)|].
    rewrite lookup_app_r, <- O1, Nat.sub_diag by lia. by rewrite Hk.
  - intros i y ks Hi Hk. rewrite Hex. apply lookup_snoc_Some in Hi as [[Hl Hi]|[-> <-]].
    + rewrite lookup_app_l by lia. destruct (O3 i y ks Hi Hk) as [A B]. split; [intros [H|(-> & _)]; [by apply A | lia]|].
      intros H. apply B. intros H'. apply H. by left.
    + rewrite lookup_app_r, <- O1, Nat.sub_diag by lia. rewrite Hk. cbn [lookup list_lookup].
      assert (~ exists k, first_at rows.*1.*1 es k (length rs) e) as Hno.
      { intros (k & H & _). apply lookup_lt_Some in H. lia. }
      split; [intros [H|(_ & _ & H)]; [done|] | intros H]; case_bool_decide as E; try done. exfalso. apply H. right. by rewrite O1.
  - intros k. cbn. rewrite bind_app. cbn. rewrite app_nil_r, elem_of_union, elem_of_list_to_set, O4, elem_of_app. tauto.
  - intros k ts id. cbn. setoid_rewrite first_at_snoc. rewrite elem_of_app, O5. unfold rows_for. rewrite list_elem_of_fmap. split.
    + intros [(i & y & H & ? & ?)|(k' & [= <- -> ->] & H%Hnew)]; [by eauto 7|]. exists (length es), e. split; [|done]. by right.
    + intros (i & y & [H|(-> & -> & H)] & -> & ->); [left; eauto 7|]. right. exists k. split; [done|]. by apply Hnew.
  - cbn. rewrite !fmap_app. apply NoDup_app. split_and!; [done | |].
    + intros k Hk Hin. unfold rows_for in Hin. rewrite <- !list_fmap_compose in Hin. apply list_elem_of_fmap in Hin as (k' & -> & (Hke & Hr & He)%Hnew).
      cbn in Hk. apply list_elem_of_fmap in Hk as ([k'' ts] & Hk1 & Hk2). apply list_elem_of_fmap in Hk2 as ([[k3 ts3] id3] & Hk3 & Hk4).
      cbn in Hk1, Hk3. subst k''. injection Hk3 as -> ->. apply O5 in Hk4 as (i & y & (Hi & Hky & _) & _).
      apply He. apply list_elem_of_bind. exists y. split; [done|]. by eapply list_elem_of_lookup_2.
    + unfold rows_for. rewrite <- !list_fmap_compose. cbn. by rewrite list_fmap_id.
Qed.

Lemma sightings_run (rows : list SightingRow) (es : list Event) :
  let '(rs, t) := observe_all es (load rows tracker_init) in sightings_ok rows es rs t.
Proof.
  induction es as [|e es IH] using rev_ind.
  - cbn. split; cbn; try done; [|by intros k ts id; split; [intros H%elem_of_nil | intros (i & e & (H & _) & _)] | constructor].
    intros k. rewrite elem_of_list_to_set, elem_of_nil. tauto.
  - rewrite observe_all_snoc. destruct (observe_all es _) as [rs t]. pose proof (sightings_snoc rows es rs t e IH) as H.
    by destruct (observe str_other e t).
Qed.

(** Flushing the queue. *)
Lemma flush_rows_keys (pending rows : list SightingRow) (n : nat) (k : SightingKey) :
  k ∈ (flush_rows (fun _ => true) n pending rows).*1.*1 <-> (k ∈ rows.*1.*1) \/ (k ∈ pending.*1.*1).
Proof.
  revert n rows. induction pending as [|r pending IH]; intros n rows; cbn [flush_rows].
  - cbn. rewrite elem_of_nil. tauto.
  - rewrite IH. unfold insert_or_ignore. case_bool_decide as E; cbn; rewrite ?fmap_app, ?elem_of_app, ?elem_of_cons.
    + split; [tauto|]. intros [?|[->|?]]; tauto.
    + cbn. rewrite elem_of_cons, elem_of_nil. tauto.
Qed.

(** C10. First sightings are the first: with the tracker loaded from the stored
    rows, an event is stamped exactly when it names an entity that neither a
    stored row nor an earlier event named; the queue holds one row per new
    entity, naming the event that first showed it; and once the queue is
    flushed, a tracker loaded after a restart knows exactly what this one
    knows. *)
Theorem first_sightings_exact (rows : list SightingRow) (es : list Event) :
  let '(rs, t) := observe_all es (load rows tracker_init) in
  (forall i e ks, es !! i = Some e -> sighting_keys str_other e = Ok ks ->
     ((exists k, first_at rows.*1.*1 es k i e) -> rs !! i = Some (Ok (stamped e))) /\
     (~ (exists k, first_at rows.*1.*1 es k i e) -> rs !! i = Some (Ok e))) /\
  NoDup (ft_pending t).*1.*1 /\
  (forall k ts id, (k, ts, id) ∈ ft_pending t <->
     exists i e, first_at rows.*1.*1 es k i e /\ ts = ev_ts e /\ id = ev_event_id e) /\
  ft_seen (load (flush (fun _ => true) t rows).2 tracker_init) = ft_seen t.
Proof.
  pose proof (sightings_run rows es) as H. destruct (observe_all es _) as [rs t]. destruct H as [O1 O2 O3 O4 O5 O6].
  split_and!; [exact O3 | exact O6 | exact O5 |]. apply leibniz_equiv. intros k. cbn.
  rewrite elem_of_list_to_set, flush_rows_keys, O4. split; [|intros [?|He]; [by left|]].
  - intros [?|Hp]; [by left|]. apply list_elem_of_fmap in Hp as ([k' ts] & -> & Hp). apply list_elem_of_fmap in Hp as ([[k3 ts3] id3] & Hk3 & Hp).
    injection Hk3 as -> ->. apply O5 in Hp as (i & e & (Hi & Hk & _) & _). right. apply list_elem_of_bind. exists e. split; [done|].
    by eapply list_elem_of_lookup_2.
  - destruct (decide (k ∈ rows.*1.*1)) as [?|Hr]; [by left|]. right.
    assert (exists i e, first_at rows.*1.*1 es k i e) as (i & e & Hf).
    { clear -He Hr. induction es as [|x es IH] using rev_ind; [cbn in He; set_solver|].
      destruct (decide (k ∈ es ≫= keys_of)) as [Hin|Hout].
      - destruct (IH Hin) as (i & e & H). exists i, e. apply first_at_snoc. by left.
      - exists (length es), x. apply first_at_snoc. right. rewrite bind_app in He. cbn in He. rewrite app_nil_r in He. set_solver. }
    apply list_elem_of_fmap. exists (k, ev_ts e). split; [done|]. apply list_elem_of_fmap. exists (k, ev_ts e, ev_event_id e).
    split; [done|]. apply O5. by exists i, e.
Qed.
End Sightings.

(** ** Witnesses *)

Module EnrichExample.
Definition fs (bytes : string) : ProcFs :=
  mkProcFs (fun _ => true) (fun _ => Ok "/bin/x"%string) (fun _ => Ok true) (fun _ => Ok 7) (fun _ => Ok bytes)
    (fun _ => Ok "x -v"%string) (fun _ => Ok "42 (x) S 1 42"%string) (fun _ => Ok "init"%string).
Definition file_fs : FileFs := mkFileFs (fun _ => Ok false) (fun _ => Err OtherOSError) (fun _ => Err OtherOSError) (fun _ => Err OtherOSError).
Definition event : Event :=
  mkEvent "1.0.0" 5 "e1" EK_event [] [] "exec" None SevInfo "m" false None None (Some [("pid"%string, PInt 42); ("name"%string, PStr "x")]) None
    None None None None None None None None None None None None None None [] None.
End EnrichExample.

Lemma enrichment_preserves_report_witness :
  exists e', (enrich (fun s => s) (fun s => s) PInt (mkEnrichEnv (EnrichExample.fs "old") EnrichExample.file_fs (fun _ => None))
               (mkEnrichState ∅ ∅) EnrichExample.event).1 = Ok e' /\ block_keeps ["hash"; "parent"]%string (ev_process EnrichExample.event) (ev_process e').
Proof.
  eexists. split; [vm_compute; reflexivity|].
  eapply (enrichment_preserves_report (fun s => s) (fun s => s) PInt (mkEnrichEnv (EnrichExample.fs "old") EnrichExample.file_fs (fun _ => None))
            (mkEnrichState ∅ ∅)). vm_compute. reflexivity.
Defined.

Lemma exe_hash_stale_witness :
  (exe_part (fun s => s) (EnrichExample.fs "new") 42 (exe_part (fun s => s) (EnrichExample.fs "old") 42 ∅).1.2).1.1
  = (Some "/bin/x"%string, Some "old"%string).
Proof.
  exact (exe_hash_stale (fun s => s) (fun s => s) (EnrichExample.fs "old") (EnrichExample.fs "new") 42 7 "/bin/x" "old" "new"
           eq_refl eq_refl eq_refl eq_refl eq_refl eq_refl eq_refl eq_refl).
Defined.
