(* ===== verification/EventPath.v ===== *)
(** * The path of an event ([supervisor.py]: [_dispatch], [_run_alert_path], [_persist], [_drain])

    The composition of the components: an event is enriched, checked for a
    first sighting, run through the rules, its alerts captured and announced,
    and published; the storage thread takes what the router kept for it and
    writes the journal, the event table and the state tables. Dispatches and
    steps of the storage thread interleave. What each external call finds,
    and every failure, is an argument. *)

From S2P Require Import Prelude Schemas Json Journal Router RuleEval Alerts Evidence HuntCompiler HuntSql Supervisor Vuln Projector Enrichment.

(** ** State *)

(** What an alert causes, in order. *)
Inductive Effect := Captured (a : Alert) | Notified (listener : nat) (a : Alert).

(** The dispatching side. [hb_published] lists what was handed to the router. *)
Record Hub := mkHub {
  hb_subs : list Subscription;
  hb_enrich : EnrichState;
  hb_tracker : option Tracker;
  hb_engine : RuleEngine;
  hb_evidence : option EvState;
  hb_listeners : nat;
  hb_effects : list Effect;
  hb_published : list Event;
}.

(** What one dispatch meets; [de_crash] is the state the rule engine is left in
    by an exception other than its own (a database conflict). *)
Record DispatchEnv := mkDispatchEnv {
  de_enrich : EnrichEnv;
  de_fresh : nat -> string;
  de_capture : Alert -> CaptureEnv;
  de_crash : option RuleEngine;
}.

(** What became of an event the storage thread took. *)
Inductive Outcome := Lost | JournalOnly | Unprojected | Recorded.
#[export] Instance Outcome_eq_dec : EqDecision Outcome.
Proof. solve_decision. Defined.

(** The storing side. [so_handled] lists what was taken off the queue, which is
    also what the live listeners saw, with its outcome and day. *)
Record Store := mkStore {
  so_journal : JournalState;
  so_table : EventTable;
  so_state : StateDb;
  so_health : DrainHealth;
  so_handled : list (Event * Outcome * Z);
}.

(** What one step of the storage thread meets. *)
Record DrainEnv := mkDrainEnv {
  dr_today : Z;
  dr_now : Z;
  dr_journal_fails : bool;
  dr_insert_fails : bool;
  dr_project_fails : bool;
  dr_error : string;          (* [repr] of the exception, if any *)
  dr_ts : Z;
  dr_event_id : string;       (* of a report *)
  dr_dispatch : DispatchEnv;  (* for a report *)
}.

Section Path.
Context (class_attr : string -> pyval) (re_search : string -> string -> result PyExc bool) (str_other : pyval -> string)
        (col : pyval -> string)
        (sha256 : string -> string) (dumps : dict -> string) (decode : string -> string) (mtime_value : Z -> pyval)
        (float_repr : Q -> string) (iso : Z -> string) (fromiso : string -> option Z) (varchar : pyval -> option string)
        (boot_id : option string).

(** ** [_dispatch] *)

(** The listeners of one alert, each called whatever the others do. *)
Definition announce (listeners : nat) (a : Alert) : list Effect := Captured a :: ((fun i => Notified i a) <$> seq 0 listeners).

(** [_run_alert_path]; [false] is an exception. *)
Definition run_alert_path (env : DispatchEnv) (e : Event) (h : Hub) : Hub * bool :=
  let with_engine eng ev fx := mkHub (hb_subs h) (hb_enrich h) (hb_tracker h) eng ev (hb_listeners h) fx (hb_published h) in
  match de_crash env with
  | Some eng => (with_engine eng (hb_evidence h) (hb_effects h), false)
  | None =>
      match process class_attr re_search str_other (hb_engine h) e (de_fresh env) with
      | (eng, Err _) => (with_engine eng (hb_evidence h) (hb_effects h), false)
      | (eng, Ok alerts) =>
          (with_engine eng
             (match hb_evidence h with
              | Some s => Some (foldl (fun s a => collect sha256 dumps (de_capture env a) a e s) s alerts)
              | None => None
              end)
             (hb_effects h ++ (alerts ≫= announce (hb_listeners h))), true)
      end
  end.

(** The first [try]: the event as it stands when it ends or fails. *)
Definition prepare (env : DispatchEnv) (e : Event) (h : Hub) : Event * Hub :=
  let '(r, en) := enrich sha256 decode mtime_value (de_enrich env) (hb_enrich h) e in
  let with_tracker t := mkHub (hb_subs h) en t (hb_engine h) (hb_evidence h) (hb_listeners h) (hb_effects h) (hb_published h) in
  match r with
  | Err _ => (e, with_tracker (hb_tracker h))
  | Ok e1 =>
      match hb_tracker h with
      | None => let '(h', _) := run_alert_path env e1 (with_tracker None) in (e1, h')
      | Some t =>
          match observe str_other e1 t with
          | (Err _, t') => (e1, with_tracker (Some t'))
          | (Ok e2, t') => let '(h', _) := run_alert_path env e2 (with_tracker (Some t')) in (e2, h')
          end
      end
  end.

Definition dispatch (env : DispatchEnv) (e : Event) (h : Hub) : Hub :=
  let '(e', h') := prepare env e h in
  mkHub (publish (hb_subs h') e').1 (hb_enrich h') (hb_tracker h') (hb_engine h') (hb_evidence h') (hb_listeners h')
    (hb_effects h') (hb_published h' ++ [e']).

(** ** [_persist] and [_drain] *)

Definition id_stored (e : Event) (t : EventTable) : bool :=
  existsb (fun r => String.eqb (row_event_id r) (ev_event_id e)) (tbl_rows t).

Definition persist_event (env : DrainEnv) (e : Event) (s : Store) : Outcome * Store :=
  let done o j t st := (o, mkStore j t st (so_health s) (so_handled s ++ [(e, o, dr_today env)])) in
  if dr_journal_fails env then done Lost (so_journal s) (so_table s) (so_state s)
  else match Journal.append sha256 float_repr (so_journal s) (dr_today env) (payload_of iso e) with
       | (Err _, j) => done Lost j (so_table s) (so_state s)
       | (Ok _, j) =>
           if dr_insert_fails env || id_stored e (so_table s) then done JournalOnly j (so_table s) (so_state s)
           else let t := insert_event iso (so_table s) e in
                if dr_project_fails env then done Unprojected j t (so_state s)
                else done Recorded j t (project str_other col fromiso varchar boot_id (so_state s) e)
       end.

(** [_persistence_outage_detail] *)
Definition outage_detail (o : Outcome) : string :=
  match o with
  | Lost => "neither the journal nor the database is recording events"
  | _ => "the database is not recording events (the journal still has them)"
  end.
Definition stage (o : Outcome) : string := match o with Lost => "journal" | _ => "database" end.

(** [_report_persistence_down] *)
Definition outage_args (failures window : Z) (o : Outcome) (error : string) : EventArgs :=
  {| a_module := "supervisor"; a_action := "persistence_failing"; a_category := ["process"%string]; a_type := ["error"%string];
     a_severity := "high"; a_kind := "event"; a_host := None; a_outcome := None;
     a_message := Some ("failed to persist " +:+ str_of_Z failures +:+ " of the last " +:+ str_of_Z window +:+ " events; "
                          +:+ outage_detail o);
     a_process := None; a_file := None; a_user := None; a_source := None; a_destination := None; a_network := None;
     a_service := None; a_package := None; a_device := None; a_persistence := None; a_vulnerability := None;
     a_hunt := None; a_threat := None;
     a_raw := Some [("failures", PInt failures); ("window", PInt window); ("stage", PStr (stage o)); ("error", PStr error)]%string;
     a_labels := None; a_ts := None; a_first_seen := false |}.

(** [sub.get_nowait] of the subscription of the storage thread. *)
Fixpoint take_store (subs : list Subscription) : option (Event * list Subscription) :=
  match subs with
  | [] => None
  | s :: rest =>
      if String.eqb (sub_name s) "store" then '(e, s') ← get_nowait s; Some (e, s' :: rest)
      else '(e, rest') ← take_store rest; Some (e, s :: rest')
  end.
Definition set_subs (subs : list Subscription) (h : Hub) : Hub :=
  mkHub subs (hb_enrich h) (hb_tracker h) (hb_engine h) (hb_evidence h) (hb_listeners h) (hb_effects h) (hb_published h).

(** One round of [_drain]. *)
Definition drain (env : DrainEnv) (h : Hub) (s : Store) : Hub * Store :=
  match take_store (hb_subs h) with
  | None => (h, s)
  | Some (e, subs) =>
      let h := set_subs subs h in
      let '(o, s) := persist_event env e s in
      let '(health, report) := drain_step (dr_now env) (negb (bool_decide (o = Recorded))) (so_health s) in
      let s := mkStore (so_journal s) (so_table s) (so_state s) health (so_handled s) in
      match report with
      | None => (h, s)
      | Some (failures, window) =>
          match build_event (dr_ts env) (dr_event_id env) (outage_args failures window o (dr_error env)) with
          | Some ev => (dispatch (dr_dispatch env) ev h, s)
          | None => (h, s)
          end
      end
  end.

(** ** Runs *)

Inductive PathOp := PDispatch (env : DispatchEnv) (e : Event) | PDrain (env : DrainEnv).
Definition path_step (x : Hub * Store) (op : PathOp) : Hub * Store :=
  match op with
  | PDispatch env e => (dispatch env e x.1, x.2)
  | PDrain env => drain env x.1 x.2
  end.
Definition run_path (h : Hub) (s : Store) (ops : list PathOp) : Hub * Store := foldl path_step (h, s) ops.

(** ** Dispatch publishes, whatever fails *)

Lemma same_event_trans (a b c : Event) : same_event a b -> same_event b c -> same_event a c.
Proof. intros (p & f & u & x & ->) (p' & f' & u' & x' & ->). by exists p', f', u', x'. Qed.

Lemma same_set_process (d : dict) (e : Event) : same_event e (set_process d e).
Proof. by exists (Some d), (ev_file e), (ev_user e), (ev_baseline e). Qed.
Lemma same_set_file (d : dict) (e : Event) : same_event e (set_file d e).
Proof. by exists (ev_process e), (Some d), (ev_user e), (ev_baseline e). Qed.
Lemma same_set_user (d : dict) (e : Event) : same_event e (set_user d e).
Proof. by exists (ev_process e), (ev_file e), (Some d), (ev_baseline e). Qed.
Lemma same_set_baseline (d : dict) (e : Event) : same_event e (set_baseline d e).
Proof. by exists (ev_process e), (ev_file e), (ev_user e), (Some d). Qed.

Lemma enrich_same (env : EnrichEnv) (s s' : EnrichState) (e e' : Event) :
  enrich sha256 decode mtime_value env s e = (Ok e', s') -> same_event e e'.
Proof.
  unfold enrich. destruct (enrich_process _ _ _ _ e) as [[e1|] c1] eqn:E1; [|done].
  destruct (enrich_file _ _ _ _ e1) as [[e2|] c2] eqn:E2; [|done]. intros [= <- <-].
  apply enrich_process_keeps in E1. apply enrich_file_keeps in E2. pose proof (enrich_user_keeps (ee_getpwuid env) e2) as E3.
  assert (same_event e e1) as S1 by (destruct E1 as [->|(d & p' & _ & -> & _)]; [apply same_event_refl | apply same_set_process]).
  assert (same_event e1 e2) as S2 by (destruct E2 as [->|(d & p' & _ & -> & _)]; [apply same_event_refl | apply same_set_file]).
  eapply same_event_trans; [exact S1|]. eapply same_event_trans; [exact S2|].
  destruct E3 as [->|(d & p' & _ & -> & _)]; [apply same_event_refl | apply same_set_user].
Qed.

Lemma observe_same (e e' : Event) (t t' : Tracker) : observe str_other e t = (Ok e', t') -> same_event e e'.
Proof.
  unfold observe. destruct (sighting_keys str_other e) as [ks|]; [|done]. destruct (note_keys e ks t false) as [t1 []];
    intros [= <- <-]; [apply same_set_baseline | apply same_event_refl].
Qed.

(** What the alert path does not touch. *)
Definition same_bus (h h' : Hub) : Prop :=
  hb_subs h' = hb_subs h /\ hb_published h' = hb_published h /\ hb_listeners h' = hb_listeners h.

Lemma alert_path_bus (env : DispatchEnv) (e : Event) (h : Hub) :
  same_bus h (run_alert_path env e h).1.
Proof. unfold run_alert_path. destruct (de_crash env); [done|]. by destruct (process _ _ _ _ _ _) as [eng []]. Qed.

Lemma prepare_spec (env : DispatchEnv) (e : Event) (h : Hub) :
  let '(e', h') := prepare env e h in
  same_event e e' /\ same_bus h h'.
Proof.
  unfold prepare. destruct (enrich _ _ _ _ _ _) as [[e1|x] en] eqn:Ee; [|by split; [apply same_event_refl|]].
  apply enrich_same in Ee. destruct (hb_tracker h) as [t|].
  - destruct (observe str_other e1 t) as [[e2|x] t'] eqn:Eo; [|done]. apply observe_same in Eo.
    pose proof (alert_path_bus env e2 (mkHub (hb_subs h) en (Some t') (hb_engine h) (hb_evidence h) (hb_listeners h) (hb_effects h) (hb_published h))) as Hb.
    destruct (run_alert_path env e2 _) as [h' b]. split; [by eapply same_event_trans | exact Hb].
  - pose proof (alert_path_bus env e1 (mkHub (hb_subs h) en None (hb_engine h) (hb_evidence h) (hb_listeners h) (hb_effects h) (hb_published h))) as Hb.
    destruct (run_alert_path env e1 _) as [h' b]. by split.
Qed.

Lemma dispatch_spec (env : DispatchEnv) (e : Event) (h : Hub) :
  exists e', same_event e e' /\ hb_published (dispatch env e h) = hb_published h ++ [e'] /\
    hb_subs (dispatch env e h) = (publish (hb_subs h) e').1.
Proof.
  unfold dispatch. pose proof (prepare_spec env e h) as H. destruct (prepare env e h) as [e' h'].
  destruct H as [Hs (H1 & H2 & _)]. exists e'. cbn. rewrite H1, H2. done.
Qed.

(** ** The storage thread *)

Definition stored (o : Outcome) : bool := match o with Unprojected | Recorded => true | _ => false end.
Definition events_with (p : Outcome -> bool) (l : list (Event * Outcome * Z)) : list Event :=
  (fun x => x.1.1) <$> List.filter (fun x => p x.1.2) l.
Lemma events_with_snoc (p : Outcome -> bool) (l : list (Event * Outcome * Z)) (e : Event) (o : Outcome) (d : Z) :
  events_with p (l ++ [(e, o, d)]) = events_with p l ++ (if p o then [e] else []).
Proof. unfold events_with. rewrite List.filter_app, fmap_app. cbn. by destruct (p o). Qed.

Record store_ok (t0 : EventTable) (st0 : StateDb) (s : Store) : Prop := {
  sk_table : so_table s = foldl (insert_event iso) t0 (events_with stored (so_handled s));
  sk_state : so_state s = foldl (project str_other col fromiso varchar boot_id) st0
                            (events_with (fun o => bool_decide (o = Recorded)) (so_handled s));
}.

Lemma persist_ok (env : DrainEnv) (e : Event) (s : Store) (t0 : EventTable) (st0 : StateDb) :
  store_ok t0 st0 s ->
  let '(o, s') := persist_event env e s in
  store_ok t0 st0 s' /\ so_handled s' = so_handled s ++ [(e, o, dr_today env)] /\ so_health s' = so_health s /\
  (stored o = true -> id_stored e (so_table s) = false).
Proof.
  intros [H1 H2]. unfold persist_event.
  assert (forall o j t st, t = (if stored o then insert_event iso (so_table s) e else so_table s) ->
            st = (if bool_decide (o = Recorded) then project str_other col fromiso varchar boot_id (so_state s) e else so_state s) ->
            (stored o = true -> id_stored e (so_table s) = false) ->
            store_ok t0 st0 (mkStore j t st (so_health s) (so_handled s ++ [(e, o, dr_today env)])) /\
            so_handled s ++ [(e, o, dr_today env)] = so_handled s ++ [(e, o, dr_today env)] /\ so_health s = so_health s /\
            (stored o = true -> id_stored e (so_table s) = false)) as Hgo.
  { intros o j t st -> -> Hid. split_and!; [|done..|exact Hid]. split; cbn [so_table so_state so_handled]; rewrite events_with_snoc.
    - rewrite foldl_app, <- H1. by destruct (stored o).
    - rewrite foldl_app, <- H2. by destruct (bool_decide (o = Recorded)). }
  destruct (dr_journal_fails env); [by apply Hgo|].
  destruct (Journal.append _ _ _ _ _) as [[u|x] j]; [|by apply Hgo].
  destruct (dr_insert_fails env || id_stored e (so_table s)) eqn:Ei; [by apply Hgo|]. apply orb_false_iff in Ei as [_ Ei].
  destruct (dr_project_fails env); by apply Hgo.
Qed.

(** ** The queue in between *)

(** The bus and the storage thread against the history of a subscription. *)
Record bus_ok (h : Hub) (s : Store) (hist : History) : Prop := {
  bk_hist : hist_ok hist;
  bk_subs : hb_subs h = [h_sub hist];
  bk_name : sub_name (h_sub hist) = "store"%string;
  bk_all : sub_filter_fn (h_sub hist) = None;
  bk_handled : h_delivered hist = (fun x => x.1.1) <$> so_handled s;
  bk_published : sublist (h_accepted hist) (hb_published h);
  bk_refused : Z.of_nat (length (hb_published h)) = Z.of_nat (length (h_accepted hist)) + h_refused hist;
}.

Lemma step_name (hist : History) (op : sub_op) :
  sub_name (h_sub (Router.step hist op)) = sub_name (h_sub hist) /\
  sub_filter_fn (h_sub (Router.step hist op)) = sub_filter_fn (h_sub hist).
Proof.
  destruct op as [e|]; cbn.
  - unfold offer, try_drop_oldest_non_critical. destruct (wants _ _); cbn; [|done]. destruct (_ <? _); [done|].
    destruct (sub_drop_policy _); [done|]. by destruct (drop_first_non_critical _).
  - unfold get_nowait. by destruct (sub_q _).
Qed.

Lemma bus_dispatch (env : DispatchEnv) (e : Event) (h : Hub) (s : Store) (hist : History) :
  bus_ok h s hist -> exists hist', bus_ok (dispatch env e h) s hist'.
Proof.
  intros [B1 B2 B3 B4 B5 B6 B7]. destruct (dispatch_spec env e h) as (e' & _ & Hp & Hs).
  exists (Router.step hist (OpPublish e')). destruct (step_name hist (OpPublish e')) as [N1 N2].
  assert (hb_subs (dispatch env e h) = [h_sub (Router.step hist (OpPublish e'))] /\
          h_delivered (Router.step hist (OpPublish e')) = h_delivered hist /\
          ((h_accepted (Router.step hist (OpPublish e')) = h_accepted hist ++ [e'] /\ h_refused (Router.step hist (OpPublish e')) = h_refused hist) \/
           (h_accepted (Router.step hist (OpPublish e')) = h_accepted hist /\ h_refused (Router.step hist (OpPublish e')) = h_refused hist + 1)))
    as (S1 & S2 & S3).
  { rewrite Hs, B2. cbn. destruct (offer (h_sub hist) e') eqn:Eo; cbn; [|by split_and!; [..|left]|by split_and!; [..|right]].
    exfalso. unfold offer, wants in Eo. rewrite B4 in Eo. cbn in Eo. destruct (_ <? _); [done|].
    destruct (sub_drop_policy _); [done|]. by destruct (try_drop_oldest_non_critical _). }
  split; [by apply step_ok | done | congruence | congruence | congruence | |]; rewrite Hp.
  - destruct S3 as [[-> _]|[-> _]]; [by apply sublist_app | by apply sublist_inserts_r].
  - rewrite length_app. destruct S3 as [[-> ->]|[-> ->]]; rewrite ?length_app; cbn [length]; lia.
Qed.

Lemma bus_drain (env : DrainEnv) (h : Hub) (s : Store) (hist : History) :
  bus_ok h s hist -> exists hist', let '(h', s') := drain env h s in bus_ok h' s' hist'.
Proof.
  intros [B1 B2 B3 B4 B5 B6 B7]. unfold drain. rewrite B2. cbn [take_store]. rewrite B3. cbn [String.eqb Ascii.eqb Bool.eqb].
  pose proof (step_ok hist OpGet B1) as K1. destruct (step_name hist OpGet) as [N1 N2]. cbn [Router.step] in K1, N1, N2.
  destruct (get_nowait (h_sub hist)) as [[e sub]|]; cbn [mbind option_bind]; [|by exists hist].
  pose proof (fun t0 st0 => persist_ok env e s t0 st0) as Hp.
  assert (exists o s1, persist_event env e s = (o, s1) /\ so_handled s1 = so_handled s ++ [(e, o, dr_today env)]) as (o & s1 & Ep & Hh).
  { unfold persist_event. destruct (dr_journal_fails env); [by eexists _, _|]. destruct (Journal.append _ _ _ _ _) as [[u|x] j]; [|by eexists _, _].
    destruct (_ || _); [by eexists _, _|]. destruct (dr_project_fails env); by eexists _, _. }
  rewrite Ep. destruct (drain_step _ _ _) as [health report].
  assert (bus_ok (set_subs [sub] h) (mkStore (so_journal s1) (so_table s1) (so_state s1) health (so_handled s1))
            (mkHistory sub (h_accepted hist) (h_delivered hist ++ [e]) (h_refused hist))) as Hb.
  { split; cbn in *; [exact K1 | done | congruence | congruence | | exact B6 | exact B7]. rewrite Hh, fmap_app, B5. done. }
  destruct report as [[failures window]|]; [|by eexists].
  destruct (build_event _ _ _) as [ev|]; [|by eexists]. destruct (bus_dispatch (dr_dispatch env) ev _ _ _ Hb) as [hist' H]. by exists hist'.
Qed.

Lemma drain_store (env : DrainEnv) (h : Hub) (s : Store) (t0 : EventTable) (st0 : StateDb) :
  store_ok t0 st0 s -> store_ok t0 st0 (drain env h s).2.
Proof.
  intros H. unfold drain. destruct (take_store _) as [[e subs]|]; [|done]. pose proof (persist_ok env e s t0 st0 H) as Hp.
  destruct (persist_event env e s) as [o s1]. destruct Hp as [[H1 H2] _]. destruct (drain_step _ _ _) as [health report].
  assert (store_ok t0 st0 (mkStore (so_journal s1) (so_table s1) (so_state s1) health (so_handled s1))) as Hs by (by split).
  destruct report as [[f w]|]; [|done]. by destruct (build_event _ _ _).
Qed.

(** ** Ids and the journal *)

Definition row_ids (t : EventTable) : list string := row_event_id <$> tbl_rows t.

Lemma id_stored_spec (e : Event) (t : EventTable) : id_stored e t = false <-> ev_event_id e ∉ row_ids t.
Proof.
  unfold id_stored, row_ids. rewrite list_elem_of_fmap. split.
  - intros H (r & E & Hin). apply not_true_iff_false in H. apply H. apply existsb_exists. exists r.
    split; [by apply list_elem_of_In | by apply String.eqb_eq].
  - intros H. apply not_true_iff_false. rewrite existsb_exists. intros (r & Hin%list_elem_of_In & E%String.eqb_eq). apply H. by exists r.
Qed.

Lemma persist_ids (env : DrainEnv) (e : Event) (s : Store) :
  NoDup (row_ids (so_table s)) -> NoDup (row_ids (so_table (persist_event env e s).2)).
Proof.
  intros H. unfold persist_event. destruct (dr_journal_fails env); [done|]. destruct (Journal.append _ _ _ _ _) as [[u|x] j]; [|done].
  destruct (dr_insert_fails env || id_stored e (so_table s)) eqn:Ei; [done|]. apply orb_false_iff in Ei as [_ Ei%id_stored_spec].
  assert (NoDup (row_ids (insert_event iso (so_table s) e))) as Hn.
  { unfold row_ids, insert_event. cbn. rewrite fmap_app. apply NoDup_app. split_and!; [done | | apply NoDup_singleton].
    intros x Hx ->%list_elem_of_singleton. by apply Ei. }
  by destruct (dr_project_fails env).
Qed.

Lemma persist_journal (float_parse : string -> Q) (env : DrainEnv) (e : Event) (s : Store) :
  payload_wf float_repr float_parse (payload_of iso e) ->
  journal_ok sha256 float_parse (so_journal s) -> j_closed (so_journal s) = false ->
  let s' := (persist_event env e s).2 in
  journal_ok sha256 float_parse (so_journal s') /\ j_closed (so_journal s') = false.
Proof.
  intros Hw Hok Hc. cbv zeta. unfold persist_event. destruct (dr_journal_fails env); [done|].
  pose proof (journal_step_ok sha256 float_repr float_parse (so_journal s) (JAppend (dr_today env) (payload_of iso e)) Hw Hok Hc) as H.
  cbn [journal_step] in H. destruct (Journal.append _ _ _ _ _) as [[u|x] j]; [|done].
  destruct (_ || _); [done|]. by destruct (dr_project_fails env).
Qed.

(** What a round of the storage thread does to the store. *)
Lemma drain_cases (env : DrainEnv) (h : Hub) (s : Store) :
  (drain env h s).2 = s \/
  exists e o s1 health, persist_event env e s = (o, s1) /\ so_handled s1 = so_handled s ++ [(e, o, dr_today env)] /\
    (drain env h s).2 = mkStore (so_journal s1) (so_table s1) (so_state s1) health (so_handled s1).
Proof.
  unfold drain. destruct (take_store _) as [[e subs]|]; [|by left]. right.
  assert (exists o s1, persist_event env e s = (o, s1) /\ so_handled s1 = so_handled s ++ [(e, o, dr_today env)]) as (o & s1 & Ep & Hh).
  { unfold persist_event. destruct (dr_journal_fails env); [by eexists _, _|]. destruct (Journal.append _ _ _ _ _) as [[u|x] j]; [|by eexists _, _].
    destruct (_ || _); [by eexists _, _|]. destruct (dr_project_fails env); by eexists _, _. }
  rewrite Ep. destruct (drain_step _ _ _) as [health report]. exists e, o, s1, health. split_and!; [done | done |].
  destruct report as [[f w]|]; [|done]. by destruct (build_event _ _ _).
Qed.

Lemma sublist_map {A B} (f : A -> B) (l k : list A) : sublist l k -> sublist (f <$> l) (f <$> k).
Proof. induction 1; cbn; by constructor. Qed.

(** The ids dispatched by a script, and those published. *)
Definition dispatched (ops : list PathOp) : list string :=
  ops ≫= (fun op => match op with PDispatch _ e => [ev_event_id e] | PDrain _ => [] end).

Lemma drain_published (env : DrainEnv) (h : Hub) (s : Store) :
  sublist (hb_published h) (hb_published (drain env h s).1).
Proof.
  unfold drain. destruct (take_store _) as [[e subs]|]; [|done]. destruct (persist_event env e s) as [o s1].
  destruct (drain_step _ _ _) as [health [[f w]|]]; [|done]. destruct (build_event _ _ _) as [ev|]; [|done].
  destruct (dispatch_spec (dr_dispatch env) ev (set_subs subs h)) as (e' & _ & Hp & _). cbn [fst]. rewrite Hp.
  by apply sublist_inserts_r.
Qed.

Record path_ok (s0 : Store) (ops : list PathOp) (h : Hub) (s : Store) : Prop := {
  po_bus : exists hist, bus_ok h s hist;
  po_store : store_ok (so_table s0) (so_state s0) s;
  po_ids : NoDup (row_ids (so_table s));
  po_sent : sublist (dispatched ops) (ev_event_id <$> hb_published h);
}.

Lemma path_run (h0 : Hub) (s0 : Store) (ops : list PathOp) :
  path_ok s0 [] h0 s0 -> let '(h, s) := run_path h0 s0 ops in path_ok s0 ops h s.
Proof.
  intros H0. induction ops as [|op ops IH] using rev_ind; [done|]. unfold run_path in *. rewrite foldl_app.
  destruct (foldl path_step (h0, s0) ops) as [h s]. destruct IH as [[hist Hb] Hs Hi Hd]. cbn [foldl path_step].
  destruct op as [env e|env]; cbn [path_step fst snd].
  - split; [by eapply bus_dispatch | done | done |]. destruct (dispatch_spec env e h) as (e' & (p & f & u & b & ->) & Hp & _).
    rewrite Hp, fmap_app. unfold dispatched. rewrite bind_app. cbn. by apply sublist_app.
  - pose proof (drain_store env h s _ _ Hs) as Hst. pose proof (drain_published env h s) as Hpub.
    pose proof (bus_drain env h s hist Hb) as [hist' Hb'].
    assert (NoDup (row_ids (so_table (drain env h s).2))) as Hids.
    { destruct (drain_cases env h s) as [->|(e & o & s1 & health & Ep & _ & ->)]; [done|]. cbn.
      pose proof (persist_ids env e s Hi) as H. by rewrite Ep in H. }
    destruct (drain env h s) as [h' s']. split; [by exists hist' | done | done |].
    unfold dispatched. rewrite bind_app. cbn. rewrite app_nil_r. etrans; [exact Hd|]. by apply sublist_map.
Qed.


(** The journal the storage thread writes verifies: whatever interleaves
    and fails, on whatever days, every file passes [verify_chain], when the
    events taken are JSON. *)
Theorem stored_journal_verifies (float_parse : string -> Q) (h0 : Hub) (s0 : Store) (ops : list PathOp) :
  so_journal s0 = journal_init ∅ -> so_handled s0 = [] ->
  let s := (run_path h0 s0 ops).2 in
  Forall (fun x => payload_wf float_repr float_parse (payload_of iso x.1.1)) (so_handled s) ->
  forall day lines, j_dir (so_journal s) !! day = Some lines -> verify_chain sha256 float_parse lines = Some true.
Proof.
  intros Hj Hh. cbv zeta.
  assert (Forall (fun x => payload_wf float_repr float_parse (payload_of iso x.1.1)) (so_handled (run_path h0 s0 ops).2) ->
          journal_ok sha256 float_parse (so_journal (run_path h0 s0 ops).2) /\ j_closed (so_journal (run_path h0 s0 ops).2) = false) as H.
  2:{ intros Hw day lines Hl. destruct (H Hw) as [(Hv & _ & _) _]. by destruct (Hv day lines Hl). }
  induction ops as [|op ops IH] using rev_ind.
  - intros _. cbn. rewrite Hj. split; [|done]. by split_and!.
  - unfold run_path in *. rewrite foldl_app. destruct (foldl path_step (h0, s0) ops) as [h s]. cbn [foldl path_step].
    destruct op as [env e|env]; cbn [path_step fst snd] in *; [exact IH|].
    destruct (drain_cases env h s) as [->|(e & o & s1 & health & Ep & Hs1 & ->)]; [exact IH|]. cbn [so_handled so_journal].
    rewrite Hs1. intros [Hw [Hwe _]%Forall_cons_1]%Forall_app. destruct (IH Hw) as [Hok Hc].
    pose proof (persist_journal float_parse env e s Hwe Hok Hc) as H. by rewrite Ep in H.
Qed.

(** ** Evidence first, announcement second *)

Definition announced (l : list Effect) : Prop :=
  forall n i a, l !! n = Some (Notified i a) -> exists m, (m < n)%nat /\ l !! m = Some (Captured a).

Lemma announced_app (l k : list Effect) : announced l -> announced k -> announced (l ++ k).
Proof.
  intros Hl Hk n i a. rewrite lookup_app_Some. intros [H|[Hle H]].
  - destruct (Hl n i a H) as (m & Hm & E). exists m. split; [done|]. by apply lookup_app_l_Some.
  - destruct (Hk _ i a H) as (m & Hm & E). exists (length l + m)%nat. split; [lia|]. by rewrite lookup_app_r, Nat.add_comm, Nat.add_sub by lia.
Qed.
Lemma announce_ok (k : nat) (a : Alert) : announced (announce k a).
Proof.
  intros n i b H. destruct n as [|n]; [done|]. exists 0%nat. split; [lia|]. cbn in *. apply list_lookup_fmap_Some in H as (j & [= _ <-] & _).
  done.
Qed.
Lemma announces_ok (k : nat) (l : list Alert) : announced (l ≫= announce k).
Proof.
  induction l as [|a l IH]; [by intros [|n] i b H|]. cbn. apply (announced_app (announce k a)); [apply announce_ok | exact IH].
Qed.

Lemma dispatch_announced (env : DispatchEnv) (e : Event) (h : Hub) : announced (hb_effects h) -> announced (hb_effects (dispatch env e h)).
Proof.
  intros H.
  assert (forall e1 h1, hb_effects h1 = hb_effects h -> announced (hb_effects (run_alert_path env e1 h1).1)) as Hrun.
  { intros e1 h1 E. unfold run_alert_path. destruct (de_crash env); [cbn; by rewrite E|].
    destruct (process _ _ _ _ _ _) as [eng [alerts|x]]; cbn; rewrite E; [|done]. apply announced_app; [done | apply announces_ok]. }
  unfold dispatch, prepare. destruct (enrich _ _ _ _ _ _) as [[e1|x] en]; [|done]. destruct (hb_tracker h) as [t|].
  - destruct (observe str_other e1 t) as [[e2|x] t']; [|done]. pose proof (Hrun e2 (mkHub (hb_subs h) en (Some t') (hb_engine h) (hb_evidence h) (hb_listeners h) (hb_effects h) (hb_published h)) eq_refl) as Hr.
    destruct (run_alert_path env e2 _) as [h' b]. exact Hr.
  - pose proof (Hrun e1 (mkHub (hb_subs h) en None (hb_engine h) (hb_evidence h) (hb_listeners h) (hb_effects h) (hb_published h)) eq_refl) as Hr.
    destruct (run_alert_path env e1 _) as [h' b]. exact Hr.
Qed.

(** Evidence is captured before anybody is told: in every run, whichever
    listener is called for an alert, its evidence was captured first. *)
Theorem evidence_before_notification (h0 : Hub) (s0 : Store) (ops : list PathOp) (n i : nat) (a : Alert) :
  hb_effects h0 = [] ->
  hb_effects (run_path h0 s0 ops).1 !! n = Some (Notified i a) ->
  exists m, (m < n)%nat /\ hb_effects (run_path h0 s0 ops).1 !! m = Some (Captured a).
Proof.
  intros H0. assert (announced (hb_effects (run_path h0 s0 ops).1)) as H; [|by apply H].
  induction ops as [|op ops IH] using rev_ind; [cbn; rewrite H0; by intros [|k] j b Hk|].
  unfold run_path in *. rewrite foldl_app. destruct (foldl path_step (h0, s0) ops) as [h s]. cbn [foldl path_step] in *.
  destruct op as [env e|env]; cbn [path_step fst snd] in *; [by apply dispatch_announced|].
  unfold drain. destruct (take_store _) as [[e subs]|]; [|done]. destruct (persist_event env e s) as [o s1].
  destruct (drain_step _ _ _) as [health [[f w]|]]; [|done]. destruct (build_event _ _ _) as [ev|]; [|done]. by apply dispatch_announced.
Qed.

(** ** Where it falls short *)

Lemma drop_none_critical (q : list Event) : forallb critical q = true -> drop_first_non_critical q = None.
Proof. induction q as [|e q IH]; [done|]. cbn. intros [-> H]%andb_prop. by rewrite IH. Qed.

(** A saturated subscription starves the ones after it: once the queue of
    the first subscription (the anomaly detector's, when it is enabled) is full
    of critical events, a dispatched event it wants reaches no later
    subscription, so the storage thread never sees it. *)
Theorem saturated_bus_starves_store (env : DispatchEnv) (e : Event) (h : Hub) (full : Subscription) (rest : list Subscription) :
  hb_subs h = full :: rest -> sub_queue_size full <= Z.of_nat (length (sub_q full)) -> forallb critical (sub_q full) = true ->
  (forall e', same_event e e' -> wants full e' = true) ->
  hb_subs (dispatch env e h) = bump_blocked full :: rest.
Proof.
  intros Hs Hfull Hcrit Hw. destruct (dispatch_spec env e h) as (e' & He & _ & ->). rewrite Hs. cbn [publish].
  unfold offer. rewrite (Hw e' He). cbn [negb]. rewrite (proj2 (Z.ltb_ge _ _) Hfull).
  unfold try_drop_oldest_non_critical. rewrite (drop_none_critical _ Hcrit). by destruct (sub_drop_policy full).
Qed.

(** An event of a process that is just exiting passes the rules by: when
    [/proc/<pid>] is still there but a read under it fails with [ESRCH], the
    enricher raises, and the event is published without the rules, the
    first-sighting tracker or the evidence collector having seen it. *)
Theorem exiting_process_skips_rules (env : DispatchEnv) (e : Event) (h : Hub) (proc : dict) (v : pyval) (pid : Z) :
  ev_process e = Some proc -> dict_lookup "pid" proc = Some v -> int_of v = Some pid ->
  pf_base (ee_proc (de_enrich env)) pid = true ->
  pf_exe (ee_proc (de_enrich env)) pid = Err FileNotFoundError ->
  pf_cmdline (ee_proc (de_enrich env)) pid = Err OtherOSError ->
  hb_published (dispatch env e h) = hb_published h ++ [e] /\
  hb_engine (dispatch env e h) = hb_engine h /\ hb_effects (dispatch env e h) = hb_effects h /\
  hb_tracker (dispatch env e h) = hb_tracker h /\ hb_evidence (dispatch env e h) = hb_evidence h.
Proof.
  intros Hp Hl Hv Hb He Hc.
  assert (enrich sha256 decode mtime_value (de_enrich env) (hb_enrich h) e = (Err (EE_os OtherOSError), hb_enrich h)) as Hen.
  { unfold enrich, enrich_process. rewrite Hp. destruct proc as [|x proc]; [done|]. rewrite Hl.
    assert (read_pid sha256 decode (ee_proc (de_enrich env)) pid (es_exe_hashes (hb_enrich h)) = (Err (EE_os OtherOSError), es_exe_hashes (hb_enrich h))) as Hr.
    { unfold read_pid, exe_part. rewrite Hb, He, Hc. done. }
    destruct v; try discriminate Hv; rewrite Hv, Hr; by destruct (hb_enrich h). }
  unfold dispatch, prepare. rewrite Hen. done.
Qed.
End Path.

(** ** Witnesses: one event that alerts, taken and stored *)

Module PathExample.
Definition text (v : pyval) : string := EmptyString.
Definition sha (s : string) : string := "h:" +:+ s.
Definition absent {A} : result ReadErr A := Err FileNotFoundError.
Definition proc_fs (exiting : bool) : ProcFs :=
  mkProcFs (fun _ => exiting) (fun _ => absent) (fun _ => absent) (fun _ => absent) (fun _ => absent)
    (fun _ => if exiting then Err OtherOSError else absent) (fun _ => absent) (fun _ => absent).
Definition file_fs : FileFs := mkFileFs (fun _ => Ok false) (fun _ => absent) (fun _ => absent) (fun _ => absent).
Definition enrich_env (exiting : bool) : EnrichEnv := mkEnrichEnv (proc_fs exiting) file_fs (fun _ => None).
Definition the_match : RuleEval.Match :=
  RuleEval.mkMatch "r" "high" "process" "k" "process" "p" "short" "detail" "rule" "why" [] [] [] None.
Definition engine : RuleEngine :=
  mkEngine (mkRegistry [] [mkPyRule "r" (fun _ => Ok [the_match])]) [] 300000000 [] [].
Definition event (id : string) (sev : Severity) : Event :=
  mkEvent "1.0.0" 5 id EK_event [] [] "exec" None sev "m" false None None (Some [("pid"%string, PInt 42)]) None
    None None None None None None None None None None None None None None [] None.
Definition sub (q : list Event) : Subscription := mkSub "store" 4096 DP_drop_oldest_non_critical None q 0 0.
Definition hub (subs : list Subscription) : Hub :=
  mkHub subs (mkEnrichState ∅ ∅) (Some tracker_init) engine (Some (mkEvState (Cases.mkCaseDb [] [] [] [] []) ∅ [])) 1 [] [].
Definition store : Store := mkStore (journal_init ∅) (mkTable [] 1) empty_db (mkDrain [] None) [].
Definition env (exiting : bool) : DispatchEnv :=
  mkDispatchEnv (enrich_env exiting) (fun _ => "a1"%string)
    (fun _ => mkCaptureEnv "c1" 7 false (fun _ => 90) None None (fun _ => None) (fun p => p) (fun _ => None) (fun _ => false) (fun _ => false))
    None.
Definition drain_env : DrainEnv := mkDrainEnv 1 10 false false false "" 5 "s1" (env false).
Definition ops : list PathOp := [PDispatch (env false) (event "e1" SevCritical); PDrain drain_env; PDrain drain_env].
Definition final : Hub * Store :=
  run_path (fun _ => PNone) (fun _ _ => Ok false) text text sha (fun _ => EmptyString) (fun s => s) PInt (fun _ => EmptyString)
    (fun _ => EmptyString) (fun _ => None) (fun _ => None) None (hub [sub []]) store ops.
End PathExample.
Import PathExample.


Lemma stored_journal_verifies_witness :
  forall day lines, j_dir (so_journal final.2) !! day = Some lines -> verify_chain sha (fun _ => 0%Q) lines = Some true.
Proof.
  apply (stored_journal_verifies (fun _ => PNone) (fun _ _ => Ok false) text text sha (fun _ => EmptyString) (fun s => s) PInt
    (fun _ => EmptyString) (fun _ => EmptyString) (fun _ => None) (fun _ => None) None (fun _ => 0%Q) (hub [sub []]) store ops
    eq_refl eq_refl).
  assert (so_handled (run_path (fun _ => PNone) (fun _ _ => Ok false) text text sha (fun _ => EmptyString) (fun s => s) PInt
    (fun _ => EmptyString) (fun _ => EmptyString) (fun _ => None) (fun _ => None) None (hub [sub []]) store ops).2
    = [(event "e1" SevCritical, Recorded, 1)]) as -> by (vm_compute; reflexivity).
  constructor; [|constructor]. cbn. split; [apply (bool_decide_unpack _); vm_compute; exact I|].
  repeat constructor. apply not_elem_of_nil.
Defined.

Lemma evidence_before_notification_witness :
  exists a m, (m < 1)%nat /\ hb_effects final.1 !! m = Some (Captured a).
Proof.
  assert (exists a, hb_effects final.1 !! 1%nat = Some (Notified 0 a)) as (a & Ha) by (eexists; vm_compute; reflexivity).
  destruct (evidence_before_notification (fun _ => PNone) (fun _ _ => Ok false) text text sha (fun _ => EmptyString) (fun s => s) PInt
    (fun _ => EmptyString) (fun _ => EmptyString) (fun _ => None) (fun _ => None) None (hub [sub []]) store ops 1 0 a eq_refl Ha)
    as (m & Hm & H).
  exists a, m. split; [exact Hm | exact H].
Defined.

(** The anomaly detector's subscription, at a size of one to keep it short. *)
Definition anomaly_full : Subscription :=
  mkSub "anomaly" 1 DP_drop_oldest_non_critical (Some (fun e => negb (String.eqb (ev_module e) "anomaly_detector")))
    [event "e0" SevCritical] 0 0.

Lemma saturated_bus_starves_store_witness :
  hb_subs (dispatch (fun _ => PNone) (fun _ _ => Ok false) text sha (fun _ => EmptyString) (fun s => s) PInt (env false)
             (event "e2" SevHigh) (hub [anomaly_full; sub []]))
  = [bump_blocked anomaly_full; sub []].
Proof.
  apply (saturated_bus_starves_store (fun _ => PNone) (fun _ _ => Ok false) text sha (fun _ => EmptyString) (fun s => s) PInt
           (env false) (event "e2" SevHigh) (hub [anomaly_full; sub []]) anomaly_full [sub []]).
  - reflexivity.
  - vm_compute. discriminate.
  - reflexivity.
  - intros e' (p & f & u & b & ->). reflexivity.
Defined.

Lemma exiting_process_skips_rules_witness :
  hb_effects (dispatch (fun _ => PNone) (fun _ _ => Ok false) text sha (fun _ => EmptyString) (fun s => s) PInt (env true)
                (event "e1" SevCritical) (hub [sub []])) = [].
Proof.
  destruct (exiting_process_skips_rules (fun _ => PNone) (fun _ _ => Ok false) text sha (fun _ => EmptyString) (fun s => s) PInt
    (env true) (event "e1" SevCritical) (hub [sub []]) [("pid"%string, PInt 42)] (PInt 42) 42
    eq_refl eq_refl eq_refl eq_refl eq_refl eq_refl) as (_ & _ & H & _).
  exact H.
Defined.
