(* ===== verification/Float64.v ===== *)
(** * Python floats

    Python's [float] is IEEE 754 binary64, here the [spec_float] of the
    Standard Library at precision 53 and maximal exponent 1024, so that every
    operation below rounds as the interpreter does and evaluates. The file has
    the conversions, comparisons and the built-in [sum] of CPython 3.12, and
    the state and exception monad of the code that computes with them. The C
    library's [pow], which [** 2] calls and which IEEE 754 does not fix, is a
    parameter of the files that use it. *)

From S2P Require Import Prelude.
From Stdlib Require Import SpecFloat.
Local Open Scope Z_scope.

(** ** Exceptions *)

(** [DbError] is what a database call or a callback raises. *)
Inductive PyErr := TypeError | ValueError | KeyError | IndexError | OverflowError | ZeroDivisionError | DbError.
#[export] Instance PyErr_eq_dec : EqDecision PyErr.
Proof. solve_decision. Defined.

(** ** Stateful code that may raise

    [ST S A] runs on a state and returns or raises; what it wrote before it
    raised stays written. *)

Definition ST (S A : Type) : Type := S -> result PyErr A * S.

Section Monad.
Context {S : Type}.
Definition st_ret {A} (a : A) : ST S A := fun s => (Ok a, s).
Definition st_bind {A B} (m : ST S A) (f : A -> ST S B) : ST S B :=
  fun s => match m s with (Ok a, s') => f a s' | (Err e, s') => (Err e, s') end.
Definition st_raise {A} (e : PyErr) : ST S A := fun s => (Err e, s).
Definition st_lift {A} (r : result PyErr A) : ST S A := fun s => (r, s).
Definition st_get : ST S S := fun s => (Ok s, s).
Definition st_modify (f : S -> S) : ST S unit := fun s => (Ok tt, f s).

(** [for x in l: out.extend(body(x))]. *)
Fixpoint st_collect {A B} (body : A -> ST S (list B)) (l : list A) : ST S (list B) :=
  match l with
  | [] => st_ret []
  | x :: l' => st_bind (body x) (fun a => st_bind (st_collect body l') (fun b => st_ret (a ++ b)))
  end.
End Monad.

(** The same without a state. *)
Fixpoint r_collect {A B} (body : A -> result PyErr (list B)) (l : list A) : result PyErr (list B) :=
  match l with
  | [] => Ok []
  | x :: l' => a ← body x; b ← r_collect body l'; Ok (a ++ b)
  end.

Declare Scope st_scope.
Delimit Scope st_scope with st.
Notation "'let!' x := m 'in' k" := (st_bind m (fun x => k))
  (at level 10, x pattern, m at level 100, k at level 200) : st_scope.
Notation "'do!' m ; k" := (st_bind m (fun _ => k))
  (at level 10, m at level 100, k at level 200) : st_scope.

(** ** Numbers *)

Definition float64 : Type := spec_float.
#[export] Instance float64_eq_dec : EqDecision float64.
Proof. unfold float64. solve_decision. Defined.

Definition prec : Z := 53.
Definition emax : Z := 1024.

Definition fzero : float64 := S754_zero false.
Definition finf : float64 := S754_infinity false.
Definition fneg_inf : float64 := S754_infinity true.

Definition fadd (x y : float64) : float64 := SFadd prec emax x y.
Definition fsub (x y : float64) : float64 := SFsub prec emax x y.
Definition fmul (x y : float64) : float64 := SFmul prec emax x y.
Definition fabs (x : float64) : float64 := SFabs x.
Definition flt (x y : float64) : bool := SFltb x y.
Definition fle (x y : float64) : bool := SFleb x y.

Definition is_zero (x : float64) : bool := match x with S754_zero _ => true | _ => false end.
Definition is_finite (x : float64) : bool := match x with S754_zero _ | S754_finite _ _ _ => true | _ => false end.

(** [x / y]. *)
Definition fdiv (x y : float64) : result PyErr float64 :=
  if is_zero y then Err ZeroDivisionError else Ok (SFdiv prec emax x y).

(** [math.sqrt]. *)
Definition math_sqrt (x : float64) : result PyErr float64 :=
  match x with
  | S754_finite true _ _ | S754_infinity true => Err ValueError
  | _ => Ok (SFsqrt prec emax x)
  end.

(** [float(n)] of an [int]. *)
Definition float_of_int (n : Z) : result PyErr float64 :=
  match binary_normalize prec emax n 0 false with
  | S754_infinity _ => Err OverflowError
  | f => Ok f
  end.

(** [n / d] of two [int]s, which Python rounds once. *)
Definition int_truediv (n d : Z) : result PyErr float64 :=
  match n, d with
  | _, 0 => Err ZeroDivisionError
  | 0, _ => Ok fzero
  | _, _ =>
      match SFdiv prec emax (S754_finite (n <? 0) (Z.to_pos (Z.abs n)) 0) (S754_finite (d <? 0) (Z.to_pos (Z.abs d)) 0) with
      | S754_infinity _ => Err OverflowError
      | f => Ok f
      end
  end.

(** [int(x)], towards zero. *)
Definition int_of_float (x : float64) : result PyErr Z :=
  match x with
  | S754_zero _ => Ok 0
  | S754_finite s m e => Ok ((if s then -1 else 1) * Z.shiftl (Z.pos m) e)
  | S754_infinity _ => Err OverflowError
  | S754_nan => Err ValueError
  end.

(** A literal [n / d], rounded once. *)
Definition float_lit (n d : Z) : float64 := match int_truediv n d with Ok f => f | Err _ => S754_nan end.

(** ** [sum] of floats

    CPython adds the first item to the integer 0 and then keeps a compensation
    beside the running sum, added at the end when it is finite. *)

Definition sum_step (acc : float64 * float64) (x : float64) : float64 * float64 :=
  let '(s, c) := acc in
  let t := fadd s x in
  (t, fadd c (if fle (fabs x) (fabs s) then fadd (fsub s t) x else fadd (fsub x t) s)).

Definition py_sum (l : list float64) : float64 :=
  match l with
  | [] => fzero
  | x :: l' =>
      let '(s, c) := foldl sum_step (fadd fzero x, fzero) l' in
      if negb (is_zero c) && is_finite c then fadd s c else s
  end.

(** [sum(l) / len(l)]: of an empty list, [0 / 0]. *)
Definition py_mean (l : list float64) : result PyErr float64 :=
  match l with
  | [] => Err ZeroDivisionError
  | _ => n ← float_of_int (Z.of_nat (length l)); fdiv (py_sum l) n
  end.

(** [min(l, key=...)] keeps the first of equal keys. *)
Fixpoint min_by {A} (lt : A -> A -> bool) (l : list A) (best : A) : A :=
  match l with
  | [] => best
  | x :: l' => min_by lt l' (if lt x best then x else best)
  end.

(** A concrete [x ** 2], correctly rounded: a finite base that overflows
    raises. *)
Definition square (x : float64) : result PyErr float64 :=
  match fmul x x with
  | S754_infinity _ => if is_finite x then Err OverflowError else Ok finf
  | y => Ok y
  end.
Lemma square_no_div (x : float64) : square x <> Err ZeroDivisionError.
Proof. unfold square. by destruct (fmul x x), (is_finite x). Qed.

(** ** Ring buffers: [deque(maxlen=n)] *)

Definition lastn {A} (n : nat) (l : list A) : list A := drop (length l - n) l.
Definition ring_append {A} (n : nat) (ring : list A) (x : A) : list A := lastn n (ring ++ [x]).

Lemma lastn_length {A} (n : nat) (l : list A) : length (lastn n l) = Nat.min n (length l).
Proof. unfold lastn. rewrite length_drop. lia. Qed.
Lemma lastn_all {A} (n : nat) (l : list A) : (length l <= n)%nat -> lastn n l = l.
Proof. intros. unfold lastn. by replace (length l - n)%nat with 0%nat by lia. Qed.
Lemma lastn_snoc {A} (n : nat) (l : list A) (x : A) : ring_append n (lastn n l) x = lastn n (l ++ [x]).
Proof.
  unfold ring_append. unfold lastn at 1. rewrite length_app, lastn_length. simpl. unfold lastn.
  rewrite length_app. simpl. destruct (decide (length l <= n)%nat).
  - replace (length l - n)%nat with 0%nat by lia. rewrite drop_0. f_equal. lia.
  - destruct (decide (n = 0%nat)) as [->|].
    + rewrite !drop_ge; [done|rewrite length_app; simpl; lia|rewrite length_app, length_drop; simpl; lia].
    + replace (length l + 1 - n)%nat with (S (length l - n)) by lia.
      replace (Nat.min n (length l) + 1 - n)%nat with 1%nat by lia.
      rewrite drop_app_le by (rewrite length_drop; lia). rewrite drop_drop.
      rewrite drop_app_le by lia. do 2 f_equal. lia.
Qed.

Lemma filter_ext_in {A} (P Q : A -> Prop) `{!forall x, Decision (P x)} `{!forall x, Decision (Q x)} (l : list A) :
  (forall x, x ∈ l -> P x <-> Q x) -> filter P l = filter Q l.
Proof.
  induction l as [|x l IH]; [done|]. intros Heq. rewrite !filter_cons, IH by set_solver.
  destruct (Heq x ltac:(by left)). by repeat case_decide; try tauto.
Qed.
Lemma filter_all_in {A} (P : A -> Prop) `{!forall x, Decision (P x)} (l : list A) : (forall x, x ∈ l -> P x) -> filter P l = l.
Proof. induction l as [|x l IH]; [done|]. intros Hall. rewrite filter_cons, decide_True, IH by set_solver. done. Qed.

(** ** Dictionaries whose order is observed

    Pairs in insertion order; assigning to a present key keeps its place. *)

Section Odict.
Context {K V : Type} `{EqDecision K}.
Fixpoint od_get (k : K) (d : list (K * V)) : option V :=
  match d with
  | [] => None
  | (k', v) :: d' => if decide (k = k') then Some v else od_get k d'
  end.
Fixpoint od_set (k : K) (v : V) (d : list (K * V)) : list (K * V) :=
  match d with
  | [] => [(k, v)]
  | (k', v') :: d' => if decide (k = k') then (k', v) :: d' else (k', v') :: od_set k v d'
  end.
Definition od_del (k : K) (d : list (K * V)) : list (K * V) := filter (fun p => p.1 <> k) d.
Definition od_mem (k : K) (d : list (K * V)) : bool := bool_decide (k ∈ d.*1).

Lemma od_mem_true (k : K) (d : list (K * V)) : od_mem k d = true <-> k ∈ d.*1.
Proof. apply bool_decide_eq_true. Qed.
Lemma od_mem_false (k : K) (d : list (K * V)) : od_mem k d = false <-> k ∉ d.*1.
Proof. apply bool_decide_eq_false. Qed.
Lemma od_get_None (k : K) (d : list (K * V)) : od_get k d = None <-> k ∉ d.*1.
Proof.
  induction d as [|[k' v] d IH]; simpl; [set_solver|]. case_decide; [set_solver|]. rewrite IH. set_solver.
Qed.
Lemma od_get_Some_mem (k : K) (v : V) (d : list (K * V)) : od_get k d = Some v -> k ∈ d.*1.
Proof. intros H. destruct (decide (k ∈ d.*1)) as [|Hn%od_get_None]; [done|congruence]. Qed.
Lemma od_get_elem (k : K) (v : V) (d : list (K * V)) : NoDup d.*1 -> od_get k d = Some v <-> (k, v) ∈ d.
Proof.
  induction d as [|[k' v'] d IH]; simpl; [set_solver|]. intros [Hk' Hnd]%NoDup_cons.
  case_decide as Hk; [subst k'|].
  - rewrite elem_of_cons. split; [intros [= ->]; by left|]. intros [[= ->]|Hin]; [done|].
    exfalso. apply Hk'. by apply (list_elem_of_fmap_2 fst _ _) in Hin.
  - rewrite (IH Hnd), elem_of_cons. naive_solver.
Qed.
Lemma od_get_set (k k' : K) (v : V) (d : list (K * V)) :
  od_get k' (od_set k v d) = if decide (k' = k) then Some v else od_get k' d.
Proof. 
  induction d as [|[k1 v1] d IH]; simpl; [done|]. destruct (decide (k = k1)) as [->|Hne]; simpl; [by case_decide|].
  rewrite IH. destruct (decide (k' = k1)) as [->|]; [by rewrite decide_False|done].
Qed.
Lemma od_set_keys (k : K) (v : V) (d : list (K * V)) :
  (od_set k v d).*1 = if decide (k ∈ d.*1) then d.*1 else d.*1 ++ [k].
Proof.
  induction d as [|[k1 v1] d IH]; [done|]. csimpl.
  destruct (decide (k = k1)) as [->|Hne]; csimpl; [by rewrite decide_True by set_solver|]. rewrite IH.
  destruct (decide (k ∈ d.*1)); [rewrite decide_True by set_solver|rewrite decide_False by set_solver]; done.
Qed.
Lemma od_set_nodup (k : K) (v : V) (d : list (K * V)) : NoDup d.*1 -> NoDup (od_set k v d).*1.
Proof. intros H. rewrite od_set_keys. case_decide; [done|].
  apply NoDup_app; repeat split; [done|set_solver|apply NoDup_singleton].
Qed.
Lemma od_del_keys (k k' : K) (d : list (K * V)) : k' ∈ (od_del k d).*1 <-> k' ∈ d.*1 /\ k' <> k.
Proof.
  unfold od_del. induction d as [|[k1 v1] d IH]; [set_solver|]. rewrite filter_cons. case_decide; simpl in *; set_solver.
Qed.
Lemma od_del_nodup (k : K) (d : list (K * V)) : NoDup d.*1 -> NoDup (od_del k d).*1.
Proof.
  unfold od_del. induction d as [|[k1 v1] d IH]; [done|]. simpl. intros [Hk Hnd]%NoDup_cons.
  rewrite filter_cons. case_decide; [|by auto]. simpl. apply NoDup_cons. split; [|by auto].
  intros Hin. apply Hk. by apply (od_del_keys k) in Hin as [? _].
Qed.
Lemma od_get_del (k k' : K) (d : list (K * V)) :
  od_get k' (od_del k d) = if decide (k' = k) then None else od_get k' d.
Proof.
  unfold od_del. induction d as [|[k1 v1] d IH]; [by case_decide|]. rewrite filter_cons. simpl.
  destruct (decide (k1 <> k)) as [Hne|Heq]; simpl; rewrite IH; repeat (case_decide; simplify_eq/=; try done).
Qed.
Lemma od_set_id (k : K) (v : V) (d : list (K * V)) : od_get k d = Some v -> od_set k v d = d.
Proof.
  induction d as [|[k1 v1] d IH]; simpl; [done|]. destruct (decide (k = k1)) as [->|]; [by intros [= ->]|].
  intros Hget. by rewrite IH.
Qed.
Lemma od_set_set (k : K) (v v' : V) (d : list (K * V)) : od_set k v (od_set k v' d) = od_set k v d.
Proof.
  induction d as [|[k1 v1] d IH]; simpl; [by rewrite decide_True|].
  destruct (decide (k = k1)) as [->|]; simpl; [by rewrite decide_True|rewrite decide_False by done; by rewrite IH].
Qed.
Lemma od_get_app (k : K) (d1 d2 : list (K * V)) : k ∉ d1.*1 -> od_get k (d1 ++ d2) = od_get k d2.
Proof. induction d1 as [|[k1 v1] d1 IH]; [done|]. csimpl. intros Hk. rewrite decide_False by set_solver. apply IH. set_solver. Qed.
Lemma od_set_app (k : K) (v : V) (d1 d2 : list (K * V)) : k ∉ d1.*1 -> od_set k v (d1 ++ d2) = d1 ++ od_set k v d2.
Proof.
  induction d1 as [|[k1 v1] d1 IH]; [done|]. csimpl. intros Hk. rewrite decide_False by set_solver. rewrite IH by set_solver. done.
Qed.
End Odict.

(** *** Dictionaries under a map of their values *)

Section OdictMap.
Context {K V W : Type} `{EqDecision K} (f : V -> W).
Definition od_map (d : list (K * V)) : list (K * W) := prod_map id f <$> d.
Lemma od_map_keys (d : list (K * V)) : (od_map d).*1 = d.*1.
Proof. unfold od_map. rewrite <- list_fmap_compose. by apply list_fmap_ext. Qed.
Lemma od_map_get (k : K) (d : list (K * V)) : od_get k (od_map d) = f <$> od_get k d.
Proof. induction d as [|[k1 v1] d IH]; [done|]. csimpl. by case_decide. Qed.
Lemma od_map_set (k : K) (v : V) (d : list (K * V)) : od_set k (f v) (od_map d) = od_map (od_set k v d).
Proof.
  induction d as [|[k1 v1] d IH]; [done|]. csimpl. destruct (decide (k = k1)); [done|]. csimpl. by rewrite IH.
Qed.
Lemma od_map_del (k : K) (d : list (K * V)) : od_del k (od_map d) = od_map (od_del k d).
Proof.
  unfold od_del, od_map. induction d as [|[k1 v1] d IH]; [done|]. csimpl. rewrite !filter_cons. csimpl.
  destruct (decide (k1 <> k)); csimpl; by rewrite IH.
Qed.
Lemma od_map_mem (k : K) (d : list (K * V)) : od_mem k (od_map d) = od_mem k d.
Proof. unfold od_mem. by rewrite od_map_keys. Qed.
End OdictMap.
