(* ===== verification/AnomalyStats.v ===== *)
(** * Windowed statistics and the metric engine ([anomaly/stats.py], [anomaly/metrics.py])

    Per tracked entity and metric, three rings of bucketed minute values and
    the z-score test against them; the engine that sorts samples into minute
    buckets, closes them and bounds how many entities it follows; the samples
    an event contributes; and the rows a checkpoint writes and a restart
    reads. Checkpoint blobs are texts of an abstract type with [json.dumps]
    and [json.loads] between them and [jval]; [sq] is [x ** 2], which calls
    the C library. *)

From S2P Require Import Prelude Schemas RuleEval Float64.

Local Open Scope Z_scope.

(** ** [AnomalyConfig] ([config.py]) *)

Record AnomalyConfig := mkAnomalyConfig {
  ac_enabled : bool;
  ac_tick_s : float64;
  ac_z_threshold : float64;
  ac_min_samples : Z;
  ac_checkpoint_interval_s : float64;
  ac_max_entities_per_metric : Z;
  ac_beacon_min_events : Z;
  ac_beacon_min_interval_s : float64;
  ac_beacon_max_interval_s : float64;
  ac_beacon_max_cv : float64;
  ac_resource_tick_s : float64;
  ac_sustained_factor : float64;
  ac_sustained_ticks : Z;
}.
Definition anomaly_defaults : AnomalyConfig :=
  mkAnomalyConfig true (float_lit 60 1) (float_lit 3 1) 50 (float_lit 300 1) 512
    12 (float_lit 5 1) (float_lit 3600 1) (float_lit 1 10) (float_lit 30 1) (float_lit 5 1) 6.

(** ** JSON documents *)

Inductive jval :=
| JNull | JBool (b : bool) | JInt (z : Z) | JFloat (f : float64) | JStr (s : string)
| JList (l : list jval) | JDict (d : list (string * jval)).

Class JsonText (T : Type) := {
  json_dump : jval -> T;
  json_load : T -> option jval;
}.

Definition jget (k : string) (d : list (string * jval)) : option jval := od_get k d.

Fixpoint string_items (s : string) : list jval :=
  match s with EmptyString => [] | String c s' => JStr (String c EmptyString) :: string_items s' end.

Section Coerce.
Context (float_parse : string -> option float64).

(** [float(v)] and [int(v)] of what [json.loads] returned. *)
Definition jfloat (v : jval) : result PyErr float64 :=
  match v with
  | JFloat f => Ok f
  | JInt z => float_of_int z
  | JBool b => Ok (if b then float_lit 1 1 else fzero)
  | JStr s => match float_parse s with Some f => Ok f | None => Err ValueError end
  | _ => Err TypeError
  end.
Definition jint (v : jval) : result PyErr Z :=
  match v with
  | JInt z => Ok z
  | JFloat f => int_of_float f
  | JBool b => Ok (if b then 1 else 0)
  | JStr s => match py_int s with Some z => Ok z | None => Err ValueError end
  | _ => Err TypeError
  end.

(** [v[key]], [for x in v] and [v[i]]. *)
Definition jsub (v : jval) (key : string) : result PyErr jval :=
  match v with
  | JDict d => match jget key d with Some x => Ok x | None => Err KeyError end
  | _ => Err TypeError
  end.
Definition jiter (v : jval) : result PyErr (list jval) :=
  match v with
  | JList l => Ok l
  | JDict d => Ok (JStr <$> d.*1)
  | JStr s => Ok (string_items s)
  | _ => Err TypeError
  end.
Definition jindex (v : jval) (i : nat) : result PyErr jval :=
  match v with
  | JList l => match l !! i with Some x => Ok x | None => Err IndexError end
  | JStr s => match string_items s !! i with Some x => Ok x | None => Err IndexError end
  | JDict _ => Err KeyError
  | _ => Err TypeError
  end.
Fixpoint jfloats (l : list jval) : result PyErr (list float64) :=
  match l with
  | [] => Ok []
  | v :: l' => f ← jfloat v; fs ← jfloats l'; Ok (f :: fs)
  end.
End Coerce.

(** ** Windows *)

Inductive Window := W1h | W24h | W7d.
#[export] Instance Window_eq_dec : EqDecision Window.
Proof. solve_decision. Defined.

Definition window_name (w : Window) : string := match w with W1h => "1h" | W24h => "24h" | W7d => "7d" end.
Definition capacity (w : Window) : nat := match w with W1h => 60 | W24h => 288 | W7d => 672 end.
Definition width (w : Window) : Z := match w with W1h => 1 | W24h => 5 | W7d => 15 end.
Definition WINDOWS : list Window := [W1h; W24h; W7d].
Definition window_of (name : string) : option Window :=
  List.find (fun w => String.eqb (window_name w) name) WINDOWS.

Definition MIN_STDDEV : float64 := float_lit 1 1000000000.

Record WindowDeviation := mkDeviation {
  wd_window : Window; wd_observed : float64; wd_mean : float64; wd_stddev : float64; wd_z : float64;
}.

(** The rings, and the open bucket of the two wider windows: its total and
    its minutes. *)
Record WindowedStats := mkWS {
  ws_1h : list float64; ws_24h : list float64; ws_7d : list float64;
  acc_24h : float64 * Z; acc_7d : float64 * Z;
}.
Definition ws_init : WindowedStats := mkWS [] [] [] (fzero, 0) (fzero, 0).

Definition ring (ws : WindowedStats) (w : Window) : list float64 :=
  match w with W1h => ws_1h ws | W24h => ws_24h ws | W7d => ws_7d ws end.
Definition set_ring (w : Window) (r : list float64) (ws : WindowedStats) : WindowedStats :=
  match w with
  | W1h => mkWS r (ws_24h ws) (ws_7d ws) (acc_24h ws) (acc_7d ws)
  | W24h => mkWS (ws_1h ws) r (ws_7d ws) (acc_24h ws) (acc_7d ws)
  | W7d => mkWS (ws_1h ws) (ws_24h ws) r (acc_24h ws) (acc_7d ws)
  end.
Definition accum (ws : WindowedStats) (w : Window) : option (float64 * Z) :=
  match w with W1h => None | W24h => Some (acc_24h ws) | W7d => Some (acc_7d ws) end.
Definition set_accum (w : Window) (a : float64 * Z) (ws : WindowedStats) : WindowedStats :=
  match w with
  | W1h => ws
  | W24h => mkWS (ws_1h ws) (ws_24h ws) (ws_7d ws) a (acc_7d ws)
  | W7d => mkWS (ws_1h ws) (ws_24h ws) (ws_7d ws) (acc_24h ws) a
  end.

Section Stats.
Context (sq : float64 -> result PyErr float64).

(** [sum((x - mean) ** 2 for x in ring) / len(ring)]. *)
Fixpoint sq_devs (mean : float64) (l : list float64) : result PyErr (list float64) :=
  match l with
  | [] => Ok []
  | x :: l' => y ← sq (fsub x mean); ys ← sq_devs mean l'; Ok (y :: ys)
  end.
Definition variance (mean : float64) (l : list float64) : result PyErr float64 :=
  ys ← sq_devs mean l; py_mean ys.

Definition evaluate (r : list float64) (value : float64) (min_samples : Z) (z_threshold : float64) (w : Window)
  : result PyErr (option WindowDeviation) :=
  if Z.of_nat (length r) <? min_samples then Ok None
  else
    mean ← py_mean r;
    var ← variance mean r;
    stddev ← math_sqrt var;
    if flt stddev MIN_STDDEV then Ok None
    else
      z ← fdiv (fsub value mean) stddev;
      if flt (fabs z) z_threshold then Ok None
      else Ok (Some (mkDeviation w value mean stddev z)).

(** Evaluate the closing bucket against its ring, then append it. *)
Definition close_bucket (min_samples : Z) (z_threshold : float64) (w : Window) (value : float64)
  : ST WindowedStats (list WindowDeviation) :=
  (let! ws := st_get in
   let! dev := st_lift (evaluate (ring ws w) value min_samples z_threshold w) in
   do! st_modify (set_ring w (ring_append (capacity w) (ring ws w) value));
   st_ret (option_list dev))%st.

Definition push_wide (min_samples : Z) (z_threshold : float64) (value : float64) (w : Window)
  : ST WindowedStats (list WindowDeviation) :=
  (let! ws := st_get in
   let '(total, minutes) := default (fzero, 0) (accum ws w) in
   let total' := fadd total value in
   let minutes' := minutes + 1 in
   if width w <=? minutes' then
     let! devs := close_bucket min_samples z_threshold w total' in
     do! st_modify (set_accum w (fzero, 0)); st_ret devs
   else do! st_modify (set_accum w (total', minutes')); st_ret [])%st.

Definition push_minute (min_samples : Z) (z_threshold : float64) (value : float64)
  : ST WindowedStats (list WindowDeviation) :=
  (let! d1 := close_bucket min_samples z_threshold W1h value in
   let! d2 := st_collect (push_wide min_samples z_threshold value) [W24h; W7d] in
   st_ret (d1 ++ d2))%st.
End Stats.

(** *** Checkpoint blobs of a window *)

Section Blobs.
Context {T : Type} `{JsonText T} (float_parse : string -> option float64).

Definition serialize_window (ws : WindowedStats) (w : Window) : T :=
  json_dump (JDict (("ring"%string, JList (JFloat <$> ring ws w))
    :: match accum ws w with
       | Some (total, minutes) => [("accum"%string, JList [JFloat total; JInt minutes])]
       | None => []
       end)).

(** What the [try] block computes. *)
Definition parse_window (w : Window) (doc : jval) : result PyErr (list float64 * option (float64 * Z)) :=
  raw_ring ← jsub doc "ring";
  items ← jiter raw_ring;
  r ← jfloats float_parse items;
  match w with
  | W1h => Ok (r, None)
  | _ =>
      let raw := match doc with JDict d => default (JList [JFloat fzero; JInt 0]) (jget "accum" d) | _ => JNull end in
      a0 ← jindex raw 0; total ← jfloat float_parse a0;
      a1 ← jindex raw 1; minutes ← jint a1;
      Ok (r, Some (total, minutes))
  end.

(** [except (KeyError, TypeError, ValueError, IndexError)]: an
    [OverflowError] is none of them. *)
Definition caught (e : PyErr) : bool :=
  match e with KeyError | TypeError | ValueError | IndexError => true | _ => false end.

Definition load_window (name : string) (blob : T) : ST WindowedStats bool :=
  match window_of name with
  | None => st_ret false
  | Some w =>
      match json_load blob with
      | None => st_ret false
      | Some doc =>
          match parse_window w doc with
          | Err e => if caught e then st_ret false else st_raise e
          | Ok (r, a) =>
              (do! st_modify (set_ring w (lastn (capacity w) r));
               do! st_modify (match a with Some a => set_accum w a | None => id end);
               st_ret true)%st
          end
      end
  end.
End Blobs.

(** ** Samples *)

(** [{"process": {"name": "curl"}}]. *)
Abbreviation Entity := (list (string * list (string * jval))).

Record MetricSample := mkSample {
  ms_metric_kind : string; ms_entity_key : string; ms_entity : Entity; ms_value : float64;
}.

Record SignalData := mkSignal {
  sg_metric_kind : string; sg_entity_key : string; sg_entity : Entity; sg_window : Window;
  sg_observed : float64; sg_mean : float64; sg_stddev : float64; sg_z : float64;
}.

Definition MAX_CATCHUP_MINUTES : Z := 180.

(** [ts.timestamp()] of a time in microseconds since the epoch. *)
Definition timestamp (us : Z) : result PyErr float64 := int_truediv us 1000000.
Definition minute_of (us : Z) : result PyErr Z :=
  t ← timestamp us; s ← int_of_float t; Ok (s / 60).

(** ** [MetricEngine] *)

Abbreviation Key := (string * string)%type.

Record MetricEngine := mkEngine {
  en_stats : list (Key * WindowedStats);
  en_entities : gmap Key Entity;
  en_last_active : gmap Key Z;
  en_buckets : gmap (Z * Key) float64;
  en_last_closed : option Z;
  en_evicted : list Key;
}.
Definition engine_init : MetricEngine := mkEngine [] ∅ ∅ ∅ None [].

Definition set_stats (d : list (Key * WindowedStats)) (e : MetricEngine) : MetricEngine :=
  mkEngine d (en_entities e) (en_last_active e) (en_buckets e) (en_last_closed e) (en_evicted e).
Definition set_entities (m : gmap Key Entity) (e : MetricEngine) : MetricEngine :=
  mkEngine (en_stats e) m (en_last_active e) (en_buckets e) (en_last_closed e) (en_evicted e).
Definition set_buckets (m : gmap (Z * Key) float64) (e : MetricEngine) : MetricEngine :=
  mkEngine (en_stats e) (en_entities e) (en_last_active e) m (en_last_closed e) (en_evicted e).
Definition set_last_closed (m : Z) (e : MetricEngine) : MetricEngine :=
  mkEngine (en_stats e) (en_entities e) (en_last_active e) (en_buckets e) (Some m) (en_evicted e).

(** The least recently active entity of a metric, the oldest entry of equals. *)
Definition tracked (metric : string) (e : MetricEngine) : list Key :=
  List.filter (fun k => String.eqb k.1 metric) (en_stats e).*1.
Definition active (e : MetricEngine) (k : Key) : Z := default (-1) (en_last_active e !! k).
Definition victim (e : MetricEngine) (ks : list Key) : option Key :=
  match ks with
  | [] => None
  | k :: ks' => Some (min_by (fun a b => active e a <? active e b) ks' k)
  end.

Definition evict (v : Key) (e : MetricEngine) : MetricEngine :=
  mkEngine (od_del v (en_stats e)) (delete v (en_entities e)) (delete v (en_last_active e))
    (filter (fun p => p.1.2 <> v) (en_buckets e)) (en_last_closed e) (en_evicted e ++ [v]).

Definition install (key : Key) (entity : Entity) (e : MetricEngine) : MetricEngine :=
  mkEngine (od_set key ws_init (en_stats e)) (<[key := entity]> (en_entities e))
    (<[key := active e key]> (en_last_active e)) (en_buckets e) (en_last_closed e) (en_evicted e).

Section Engine.
Context (cfg : AnomalyConfig).

Definition admit_key (key : Key) (entity : Entity) : ST MetricEngine unit :=
  (let! e := st_get in
   let ks := tracked key.1 e in
   do! (if ac_max_entities_per_metric cfg <=? Z.of_nat (length ks) then
          match victim e ks with
          | Some v => st_modify (evict v)
          | None => st_raise ValueError
          end
        else st_ret tt);
   st_modify (install key entity))%st.

Definition ingest (sample : MetricSample) (ts : Z) : ST MetricEngine unit :=
  let key : Key := (ms_metric_kind sample, ms_entity_key sample) in
  (let! e := st_get in
   do! (if od_mem key (en_stats e) then
          match en_entities e !! key with
          | None => st_raise KeyError
          | Some [] => st_modify (set_entities (<[key := ms_entity sample]> (en_entities e)))
          | Some _ => st_ret tt
          end
        else admit_key key (ms_entity sample));
   let! minute := st_lift (minute_of ts) in
   st_modify (fun e =>
     let minute := match en_last_closed e with
                   | Some m => if minute <=? m then m + 1 else minute
                   | None => minute
                   end in
     mkEngine (en_stats e) (en_entities e) (<[key := minute]> (en_last_active e))
       (<[(minute, key) := fadd (default fzero (en_buckets e !! (minute, key))) (ms_value sample)]> (en_buckets e))
       (en_last_closed e) (en_evicted e)))%st.

Context (sq : float64 -> result PyErr float64).

(** The body of the inner loop of [tick]: pop the bucket of the minute, push
    it into the entity's rings, render the breaches. *)
Definition signal (key : Key) (entity : Entity) (d : WindowDeviation) : SignalData :=
  mkSignal key.1 key.2 entity (wd_window d) (wd_observed d) (wd_mean d) (wd_stddev d) (wd_z d).
Definition close_key (minute : Z) (key : Key) : ST MetricEngine (list SignalData) := fun e =>
  match od_get key (en_stats e) with
  | None => (Err KeyError, e)
  | Some ws =>
      let value := default fzero (en_buckets e !! (minute, key)) in
      let e1 := set_buckets (delete (minute, key) (en_buckets e)) e in
      let '(r, ws') := push_minute sq (ac_min_samples cfg) (ac_z_threshold cfg) value ws in
      let e2 := set_stats (od_set key ws' (en_stats e1)) e1 in
      match r with
      | Err x => (Err x, e2)
      | Ok [] => (Ok [], e2)
      | Ok devs =>
          match en_entities e2 !! key with
          | None => (Err KeyError, e2)
          | Some entity =>
              (Ok (signal key entity <$> devs), e2)
          end
      end
  end.

Definition close_minute (minute : Z) : ST MetricEngine (list SignalData) :=
  (let! e := st_get in
   let! out := st_collect (close_key minute) (en_stats e).*1 in
   do! st_modify (set_last_closed minute);
   st_ret out)%st.

Definition min_open (e : MetricEngine) (dflt : Z) : Z :=
  match (map_to_list (en_buckets e)).*1.*1 with
  | [] => dflt
  | m :: ms => foldr Z.min m ms
  end.

Definition tick (now : Z) : ST MetricEngine (list SignalData) :=
  (let! current := st_lift (minute_of now) in
   do! st_modify (fun e => match en_last_closed e with
                           | None => set_last_closed (min_open e current - 1) e
                           | Some _ => e
                           end);
   let! e := st_get in
   let start := default 0 (en_last_closed e) + 1 in
   let! start := (if MAX_CATCHUP_MINUTES <? current - start then
                    do! st_modify (fun e => set_last_closed (current - 1)
                      (set_buckets (filter (fun p => current <= p.1.1) (en_buckets e)) e));
                    st_ret current
                  else st_ret start) in
   st_collect close_minute (seqZ start (current - start)))%st.

Definition drain_evicted : ST MetricEngine (list Key) := fun e =>
  (Ok (en_evicted e),
   mkEngine (en_stats e) (en_entities e) (en_last_active e) (en_buckets e) (en_last_closed e) []).
End Engine.

(** *** Checkpoint rows *)

Section Rows.
Context {T : Type} `{JsonText T} (float_parse : string -> option float64) (cfg : AnomalyConfig).

(** A row of [metric_baseline]: metric, entity, window and blob. *)
Definition BaselineRow : Type := string * string * string * T.

Definition entity_doc (entity : Entity) : jval := JDict ((fun p => (p.1, JDict p.2)) <$> entity).
Definition doc_entity (doc : jval) : option Entity :=
  match doc with
  | JDict d => mapM (fun p => match p.2 with JDict x => Some (p.1, x) | _ => None end) d
  | _ => None
  end.

Definition entity_rows (e : MetricEngine) (key : Key) : list BaselineRow :=
  match en_entities e !! key with
  | Some (x :: entity) => [(key.1, key.2, "entity"%string, json_dump (entity_doc (x :: entity)))]
  | _ => []
  end.
Definition key_rows (e : MetricEngine) (p : Key * WindowedStats) : list BaselineRow :=
  ((fun w => (p.1.1, p.1.2, window_name w, serialize_window p.2 w)) <$> WINDOWS) ++ entity_rows e p.1.
Definition engine_rows (e : MetricEngine) : list BaselineRow := en_stats e ≫= key_rows e.

Definition load_entity_row (key : Key) (blob : T) : ST MetricEngine bool :=
  match json_load blob ≫= doc_entity with
  | None => st_ret false
  | Some entity =>
      (let! e := st_get in
       do! (if od_mem key (en_stats e) then st_modify (set_entities (<[key := entity]> (en_entities e)))
            else admit_key cfg key entity);
       st_ret true)%st
  end.

Definition forget (key : Key) (e : MetricEngine) : MetricEngine :=
  mkEngine (od_del key (en_stats e)) (delete key (en_entities e)) (delete key (en_last_active e))
    (en_buckets e) (en_last_closed e) (en_evicted e).

Definition load_row (metric entity window : string) (blob : T) : ST MetricEngine bool :=
  let key : Key := (metric, entity) in
  if String.eqb window "entity" then load_entity_row key blob
  else
    (let! e := st_get in
     let created := negb (od_mem key (en_stats e)) in
     do! (if created then admit_key cfg key [] else st_ret tt);
     fun e =>
       match od_get key (en_stats e) with
       | None => (Err KeyError, e)
       | Some ws =>
           match load_window float_parse window blob ws with
           | (Ok true, ws') => (Ok true, set_stats (od_set key ws' (en_stats e)) e)
           | (Ok false, ws') =>
               (Ok false, let e' := set_stats (od_set key ws' (en_stats e)) e in
                          if created then forget key e' else e')
           | (Err x, ws') => (Err x, set_stats (od_set key ws' (en_stats e)) e)
           end
       end)%st.
End Rows.
Arguments BaselineRow : clear implicits.

(** ** [extract_samples] ([anomaly/metrics.py]) *)

Definition FIM_WRITE_ACTIONS : list string := ["file_created"; "file_modified"; "file_attributes_changed"]%string.

(** [posixpath.dirname]. *)
Fixpoint upto_last_slash (s : string) : string :=
  match s with
  | EmptyString => EmptyString
  | String c s' =>
      match upto_last_slash s' with
      | EmptyString => if Ascii.eqb c "/"%char then String c EmptyString else EmptyString
      | r => String c r
      end
  end.
Definition dirname (p : string) : string :=
  let head := upto_last_slash p in
  if str_forall (Ascii.eqb "/"%char) head then head else rstrip_slash head.

Section Extract.
Context (str_other : pyval -> string).

Definition one : float64 := float_lit 1 1.
Definition named (block name : string) : Entity := [(block, [("name"%string, JStr name)])].

(** [float(raw_bytes)] when it is a number. *)
Definition number (v : pyval) : option (result PyErr float64) :=
  match v with
  | PBool b => Some (Ok (if b then one else fzero))
  | PInt z => Some (float_of_int z)
  | PFloat q => Some (int_truediv (Qnum q) (Z.pos (Qden q)))
  | _ => None
  end.

Definition connection_samples (ev : Event) (proc : string) : result PyErr (list MetricSample) :=
  let conn := mkSample "new_conn_per_min" proc (named "process" proc) one in
  match number (dict_get "bytes" (block_or_empty (ev_network ev))) with
  | None => Ok [conn]
  | Some r => v ← r; Ok [conn; mkSample "egress_bytes_per_min" proc (named "process" proc) v]
  end.

Definition user_samples (ev : Event) : list MetricSample :=
  let user := dict_get "name" (block_or_empty (ev_user ev)) in
  let sample kind := mkSample kind (py_str str_other user) (named "user" (py_str str_other user)) one in
  (if String.eqb (ev_action ev) "ssh_login_succeeded" && truthy user then [sample "logins_per_min"%string] else []) ++
  (if String.eqb (ev_action ev) "sudo_invoked" && truthy user then [sample "sudo_per_min"%string] else []).

Definition file_samples (ev : Event) : list MetricSample :=
  let path := dict_get "path" (block_or_empty (ev_file ev)) in
  if String.eqb (ev_module ev) "fim_watcher" && bool_decide (ev_action ev ∈ FIM_WRITE_ACTIONS) && truthy path then
    let parent := dirname (py_str str_other path) in
    if String.eqb parent EmptyString then []
    else [mkSample "file_writes_per_min" parent [("file", [("path", JStr parent)])]%string one]
  else [].

Definition extract_samples (ev : Event) : result PyErr (list MetricSample) :=
  if String.eqb (ev_module ev) "anomaly_detector" then Ok []
  else
    let proc := dict_get "name" (block_or_empty (ev_process ev)) in
    let name := py_str str_other proc in
    conns ← (if String.eqb (ev_action ev) "outbound_connection" && truthy proc then connection_samples ev name else Ok []);
    Ok ((match ev_category ev with
         | c :: _ => if truthy proc then [mkSample "events_per_min" (name +:+ ":" +:+ c) (named "process" name) one] else []
         | [] => []
         end) ++ conns ++ user_samples ev ++ file_samples ev).
End Extract.
