(* ===== verification/AnomalyProofs.v ===== *)
(** * What the metric engine computes

    The rings of [AnomalyStats] are compared with the whole history of minute
    values they stand for, and the engine with a specification that keeps that
    history and the list of samples. *)

From S2P Require Import Prelude Schemas RuleEval Float64 AnomalyStats.

(** ** Windows against the history *)

Definition total (l : list float64) : float64 := foldl fadd fzero l.

(** The totals of the complete groups of [n] minutes, and the minutes after
    the last complete group. *)
Definition groups (n : nat) (vs : list float64) : list float64 :=
  (fun i => total (take n (drop (i * n) vs))) <$> seq 0 (length vs / n).
Definition open_group (n : nat) (vs : list float64) : list float64 := drop (length vs / n * n) vs.

Definition window_values (w : Window) (vs : list float64) : list float64 :=
  match w with W1h => vs | W24h => groups 5 vs | W7d => groups 15 vs end.

(** The statistics after the minutes [vs]. *)
Definition ws_of (vs : list float64) : WindowedStats :=
  mkWS (lastn (capacity W1h) (window_values W1h vs)) (lastn (capacity W24h) (window_values W24h vs))
    (lastn (capacity W7d) (window_values W7d vs))
    (total (open_group 5 vs), Z.of_nat (length (open_group 5 vs)))
    (total (open_group 15 vs), Z.of_nat (length (open_group 15 vs))).

Lemma total_snoc (l : list float64) (v : float64) : total (l ++ [v]) = fadd (total l) v.
Proof. unfold total. by rewrite foldl_snoc. Qed.

Lemma open_group_length (n : nat) (vs : list float64) : (0 < n)%nat -> length (open_group n vs) = (length vs mod n)%nat.
Proof.
  intros. unfold open_group. rewrite length_drop. pose proof (Nat.div_mod (length vs) n ltac:(lia)). lia.
Qed.

Lemma group_step (n L : nat) : (0 < n)%nat ->
  (S (L mod n) < n /\ (L + 1) / n = L / n)%nat \/ (S (L mod n) = n /\ (L + 1) / n = S (L / n) /\ L + 1 = S (L / n) * n)%nat.
Proof.
  intros Hn. pose proof (Nat.div_mod L n ltac:(lia)) as HL. pose proof (Nat.mod_upper_bound L n ltac:(lia)).
  destruct (decide (S (L mod n) = n)) as [Heq|Hne]; [right|left]; (split; [lia|]).
  - assert (L + 1 = S (L / n) * n)%nat as HS by nia. split; [|done]. rewrite HS. apply Nat.div_mul. lia.
  - symmetry. apply (Nat.div_unique (L + 1) n (L / n) (S (L mod n))); lia.
Qed.

Lemma groups_old (n : nat) (vs : list float64) (v : float64) : (0 < n)%nat ->
  ((fun i => total (take n (drop (i * n) (vs ++ [v])))) <$> seq 0 (length vs / n)) = groups n vs.
Proof.
  intros Hn. unfold groups. apply list_fmap_ext. intros k i Hi%lookup_seq. destruct Hi as [-> Hi]. simpl.
  pose proof (Nat.div_mod (length vs) n ltac:(lia)). f_equal.
  assert (k * n + n <= length vs)%nat by nia.
  rewrite drop_app_le by lia. apply take_app_le. rewrite length_drop. lia.
Qed.

Lemma groups_snoc (n : nat) (vs : list float64) (v : float64) : (0 < n)%nat ->
  if decide (S (length (open_group n vs)) = n)
  then groups n (vs ++ [v]) = groups n vs ++ [total (open_group n vs ++ [v])] /\ open_group n (vs ++ [v]) = []
  else groups n (vs ++ [v]) = groups n vs /\ open_group n (vs ++ [v]) = open_group n vs ++ [v].
Proof.
  intros Hn. rewrite (open_group_length n vs Hn).
  destruct (group_step n (length vs) Hn) as [[Hlt Hd]|(Heq & Hd & HL)].
  - rewrite decide_False by lia. unfold open_group. unfold groups at 1. rewrite length_app. simpl. rewrite Hd.
    split; [by apply groups_old|].
    apply drop_app_le. pose proof (Nat.div_mod (length vs) n ltac:(lia)). lia.
  - rewrite decide_True by done. unfold groups at 1, open_group at 2. rewrite length_app. simpl. rewrite Hd.
    split; [|apply drop_ge; rewrite length_app; simpl; lia].
    rewrite seq_S, fmap_app, groups_old by done. f_equal. simpl. do 2 f_equal.
    pose proof (Nat.div_mod (length vs) n ltac:(lia)). rewrite drop_app_le by lia. fold (open_group n vs).
    apply take_ge. rewrite length_app, open_group_length by done. simpl. lia.
Qed.

Section Push.
Context (sq : float64 -> result PyErr float64) (min_samples : Z) (z_threshold : float64).

(** The bucket a minute value closes in a window, if it closes one. *)
Definition closing (w : Window) (vs : list float64) (v : float64) : option float64 :=
  match w with
  | W1h => Some v
  | W24h => if decide (S (length (open_group 5 vs)) = 5%nat) then Some (total (open_group 5 vs ++ [v])) else None
  | W7d => if decide (S (length (open_group 15 vs)) = 15%nat) then Some (total (open_group 15 vs ++ [v])) else None
  end.

(** The breaches of the minute value [v] after the minutes [vs]: each bucket
    it closes, judged against the buckets that closed before. *)
Definition window_devs (vs : list float64) (v : float64) (w : Window) : result PyErr (list WindowDeviation) :=
  match closing w vs v with
  | None => Ok []
  | Some x => option_list <$> evaluate sq (lastn (capacity w) (window_values w vs)) x min_samples z_threshold w
  end.
Definition minute_devs (vs : list float64) (v : float64) : result PyErr (list WindowDeviation) :=
  r_collect (window_devs vs v) WINDOWS.

Lemma close_bucket_eq (w : Window) (v : float64) (ws : WindowedStats) :
  close_bucket sq min_samples z_threshold w v ws =
  match evaluate sq (ring ws w) v min_samples z_threshold w with
  | Ok dev => (Ok (option_list dev), set_ring w (ring_append (capacity w) (ring ws w) v) ws)
  | Err e => (Err e, ws)
  end.
Proof. unfold close_bucket, st_bind, st_get, st_lift, st_modify, st_ret. by destruct (evaluate _ _ _ _ _ _). Qed.

Lemma push_wide_eq (w : Window) (v : float64) (ws : WindowedStats) (t : float64) (m : Z) :
  accum ws w = Some (t, m) ->
  push_wide sq min_samples z_threshold v w ws =
  if width w <=? m + 1 then
    match evaluate sq (ring ws w) (fadd t v) min_samples z_threshold w with
    | Ok dev => (Ok (option_list dev), set_accum w (fzero, 0) (set_ring w (ring_append (capacity w) (ring ws w) (fadd t v)) ws))
    | Err e => (Err e, ws)
    end
  else (Ok [], set_accum w (fadd t v, m + 1) ws).
Proof.
  intros Ha. unfold push_wide, st_bind, st_get, st_modify, st_ret. rewrite Ha. simpl.
  destruct (width w <=? m + 1); [|done]. rewrite close_bucket_eq. by destruct (evaluate _ _ _ _ _ _).
Qed.

(** The wide windows: their ring and their open bucket. *)
Definition group_size (w : Window) : nat := match w with W1h => 1 | W24h => 5 | W7d => 15 end.
Definition wide_ok (w : Window) (vs : list float64) (ws : WindowedStats) : Prop :=
  ring ws w = lastn (capacity w) (groups (group_size w) vs)
  /\ accum ws w = Some (total (open_group (group_size w) vs), Z.of_nat (length (open_group (group_size w) vs))).

Lemma push_wide_spec (w : Window) (vs : list float64) (v : float64) (ws : WindowedStats) :
  w <> W1h -> wide_ok w vs ws ->
  exists ws', push_wide sq min_samples z_threshold v w ws = (window_devs vs v w, ws')
    /\ (is_ok (window_devs vs v w) = true -> wide_ok w (vs ++ [v]) ws' /\ ws_1h ws' = ws_1h ws
        /\ forall w', w' <> w -> ring ws' w' = ring ws w' /\ accum ws' w' = accum ws w').
Proof.
  intros Hw [Hr Ha]. rewrite (push_wide_eq w v ws _ _ Ha).
  pose proof (groups_snoc (group_size w) vs v ltac:(destruct w; simpl; lia)) as Hg.
  assert (width w = Z.of_nat (group_size w)) as Hwd by by destruct w.
  assert (closing w vs v = if decide (S (length (open_group (group_size w) vs)) = group_size w)
     then Some (total (open_group (group_size w) vs ++ [v])) else None) as Hcl by by destruct w.
  unfold window_devs. rewrite Hcl.
  assert (window_values w vs = groups (group_size w) vs) as Hwv by by destruct w.
  pose proof (open_group_length (group_size w) vs ltac:(destruct w; simpl; lia)) as Hlen.
  pose proof (Nat.mod_upper_bound (length vs) (group_size w) ltac:(destruct w; simpl; lia)).
  destruct (decide (S (length (open_group (group_size w) vs)) = group_size w)) as [Heq|Hne]; destruct Hg as [Hg1 Hg2].
  - rewrite (proj2 (Z.leb_le _ _)) by lia. rewrite Hwv, Hr, total_snoc.
    destruct (evaluate _ _ _ _ _ _) as [dev|e]; [|eexists; split; [reflexivity|discriminate]].
    eexists. split; [done|]. intros _. unfold wide_ok. rewrite Hg1, Hg2, <- lastn_snoc, total_snoc.
    split_and!; [by destruct w|by destruct w|by destruct w|]. intros w' Hw'. by destruct w, w'.
  - rewrite (proj2 (Z.leb_gt _ _)) by lia. eexists. split; [done|]. intros _. unfold wide_ok. rewrite Hg1, Hg2, total_snoc, length_app.
    simpl. rewrite Nat2Z.inj_add. split_and!; [by destruct w|by destruct w|by destruct w|].
    intros w' Hw'. by destruct w, w'.
Qed.

Lemma ws_of_ok (vs : list float64) (ws : WindowedStats) :
  ws = ws_of vs <-> ws_1h ws = lastn 60 vs /\ wide_ok W24h vs ws /\ wide_ok W7d vs ws.
Proof.
  unfold ws_of, wide_ok. destruct ws as [a b c d e]. simpl. split; [by intros [= -> -> -> -> ->]|].
  intros (-> & [-> [= ->]] & [-> [= ->]]). done.
Qed.

Lemma push_minute_spec (vs : list float64) (v : float64) :
  exists ws', push_minute sq min_samples z_threshold v (ws_of vs) = (minute_devs vs v, ws')
    /\ (is_ok (minute_devs vs v) = true -> ws' = ws_of (vs ++ [v])).
Proof.
  assert (window_devs vs v W1h = option_list <$> evaluate sq (lastn 60 vs) v min_samples z_threshold W1h) as Hw1 by done.
  unfold push_minute, minute_devs, WINDOWS, st_bind at 1. rewrite close_bucket_eq. simpl. rewrite Hw1. clear Hw1.
  destruct (evaluate _ _ _ _ _ _) as [dev|e]; simpl; [|eexists; split; [reflexivity|discriminate]].
  set (ws1 := mkWS _ _ _ _ _).
  assert (wide_ok W24h vs ws1) as H24 by done. assert (wide_ok W7d vs ws1) as H7 by done.
  unfold st_bind, st_ret.
  destruct (push_wide_spec W24h vs v ws1 ltac:(done) H24) as (ws2 & -> & H2).
  destruct (window_devs vs v W24h) as [d2|e]; simpl; [|eexists; split; [reflexivity|discriminate]].
  destruct (H2 eq_refl) as (Ho2 & Hs2 & Hf2). destruct (Hf2 W7d ltac:(done)) as [Hr7 Ha7].
  assert (wide_ok W7d vs ws2) as H7' by (unfold wide_ok; by rewrite Hr7, Ha7).
  destruct (push_wide_spec W7d vs v ws2 ltac:(done) H7') as (ws3 & -> & H3).
  destruct (window_devs vs v W7d) as [d3|e]; simpl; [|eexists; split; [reflexivity|discriminate]].
  destruct (H3 eq_refl) as (Ho3 & Hs3 & Hf3). destruct (Hf3 W24h ltac:(done)) as [Hr24 Ha24].
  eexists. split; [done|]. intros _. apply ws_of_ok. split_and!; [|unfold wide_ok; by rewrite Hr24, Ha24|done].
  rewrite Hs3, Hs2. unfold ws1. simpl. apply lastn_snoc.
Qed.
End Push.

(** ** The engine against a specification that forgets nothing *)

Abbreviation BucketKey := (Z * Key)%type.

(** The samples of a bucket, and the buckets of a list of samples. *)
Definition values_at (b : BucketKey) (log : list (BucketKey * float64)) : list float64 :=
  (filter (fun p => p.1 = b) log).*2.
Definition buckets_of (log : list (BucketKey * float64)) : gmap BucketKey float64 :=
  foldl (fun m p => <[p.1 := fadd (default fzero (m !! p.1)) p.2]> m) ∅ log.

Lemma values_at_app (b : BucketKey) (l1 l2 : list (BucketKey * float64)) :
  values_at b (l1 ++ l2) = values_at b l1 ++ values_at b l2.
Proof. unfold values_at. by rewrite filter_app, fmap_app. Qed.
(** A condition on the bucket alone. *)
Definition of_bucket (P : BucketKey * float64 -> Prop) : Prop := forall b v v', P (b, v) -> P (b, v').
Ltac bucket_cond := unfold of_bucket; simpl; tauto.
Lemma values_at_filter (P : BucketKey * float64 -> Prop) `{!forall p, Decision (P p)} (b : BucketKey)
    (log : list (BucketKey * float64)) :
  of_bucket P -> values_at b (filter P log) = if decide (P (b, fzero)) then values_at b log else [].
Proof.
  intros HP. unfold values_at. induction log as [|[b' v] log IH]; [by case_decide|]. rewrite !filter_cons. simpl.
  destruct (decide (P (b', v))) as [Hp|Hp]; rewrite ?filter_cons; simpl;
    destruct (decide (b' = b)) as [->|]; csimpl; rewrite IH; try done.
  - destruct (decide (P (b, fzero))) as [|Hn]; [done|]. exfalso. eapply Hn, HP, Hp.
  - destruct (decide (P (b, fzero))) as [Hy|]; [|done]. exfalso. eapply Hp, HP, Hy.
Qed.
Lemma values_at_nonempty (b : BucketKey) (log : list (BucketKey * float64)) : values_at b log <> [] <-> b ∈ log.*1.
Proof.
  unfold values_at. induction log as [|[b' v] log IH]; [set_solver|]. rewrite filter_cons. csimpl.
  destruct (decide (b' = b)) as [->|]; csimpl; [set_solver|]. rewrite IH. set_solver.
Qed.
Lemma buckets_lookup (b : BucketKey) (log : list (BucketKey * float64)) :
  buckets_of log !! b = match values_at b log with [] => None | vs => Some (total vs) end.
Proof.
  unfold buckets_of. induction log as [|[b' v] log IH] using rev_ind; [done|].
  rewrite foldl_snoc, values_at_app. unfold values_at at 2. rewrite filter_cons. simpl.
  destruct (decide (b' = b)) as [->|Hne]; csimpl.
  - rewrite lookup_insert_eq, IH. destruct (values_at b log) as [|x l] eqn:Hv; [done|].
    cbn [default from_option app]. rewrite app_comm_cons, total_snoc. done.
  - rewrite lookup_insert_ne by done. rewrite IH, app_nil_r. done.
Qed.
Lemma buckets_default (b : BucketKey) (log : list (BucketKey * float64)) :
  default fzero (buckets_of log !! b) = total (values_at b log).
Proof. rewrite buckets_lookup. by destruct (values_at b log). Qed.
Lemma buckets_filter (P : BucketKey * float64 -> Prop) (D1 D2 : forall p, Decision (P p)) (log : list (BucketKey * float64)) :
  of_bucket P -> @filter _ _ _ P D1 (buckets_of log) = buckets_of (@filter _ _ _ P D2 log).
Proof.
  intros HP. apply map_eq. intros b. rewrite (buckets_lookup b (filter _ log)), values_at_filter by done.
  destruct (decide (P (b, fzero))) as [Hp|Hp].
  - rewrite <- buckets_lookup. destruct (buckets_of log !! b) as [v|] eqn:Hb.
    + apply map_lookup_filter_Some. split; [done|eapply HP, Hp].
    + apply map_lookup_filter_None. by left.
  - apply map_lookup_filter_None. right. intros v _ H. eapply Hp, HP, H.
Qed.
Lemma buckets_delete (b : BucketKey) (log : list (BucketKey * float64)) :
  delete b (buckets_of log) = buckets_of (filter (fun p => p.1 <> b) log).
Proof.
  rewrite <- (buckets_filter (fun p => p.1 <> b) _ _ log) by bucket_cond.
  apply map_eq. intros b'. destruct (decide (b' = b)) as [->|Hne].
  - rewrite lookup_delete_eq. symmetry. apply map_lookup_filter_None. right. naive_solver.
  - rewrite lookup_delete_ne by done. destruct (buckets_of log !! b') as [v|] eqn:Hb; symmetry.
    + by apply map_lookup_filter_Some.
    + apply map_lookup_filter_None. by left.
Qed.

Definition min_of (l : list Z) (dflt : Z) : Z := match l with [] => dflt | m :: ms => foldr Z.min m ms end.
Lemma min_of_spec (l : list Z) (dflt : Z) : l <> [] -> min_of l dflt ∈ l /\ forall x, x ∈ l -> min_of l dflt <= x.
Proof.
  destruct l as [|m ms]; [done|]. intros _. simpl. induction ms as [|y ms [IH1 IH2]]; simpl.
  - split; [by left|]. intros x ->%list_elem_of_singleton. lia.
  - split.
    + destruct (Z.min_spec y (foldr Z.min m ms)) as [[_ ->]|[_ ->]]; set_solver.
    + intros x [->|[->|Hx]%elem_of_cons]%elem_of_cons; [|lia|]; [specialize (IH2 m ltac:(by left)); lia|].
      specialize (IH2 x ltac:(by right)). lia.
Qed.
Lemma min_of_ext (l l' : list Z) (dflt : Z) : (forall x, x ∈ l <-> x ∈ l') -> min_of l dflt = min_of l' dflt.
Proof.
  intros H. destruct (decide (l = [])) as [->|Hne].
  - destruct l' as [|y l']; [done|]. exfalso. apply (not_elem_of_nil y), H. by left.
  - assert (l' <> []) as Hne'. { intros ->. destruct l as [|y l]; [done|]. apply (not_elem_of_nil y), H. by left. }
    destruct (min_of_spec l dflt Hne) as [H1 H2]. destruct (min_of_spec l' dflt Hne') as [H3 H4].
    specialize (H4 _ (proj1 (H _) H1)). specialize (H2 _ (proj2 (H _) H3)). lia.
Qed.

Record SpecEngine := mkSpec {
  sp_hist : list (Key * list float64);
  sp_entities : gmap Key Entity;
  sp_last_active : gmap Key Z;
  sp_log : list (BucketKey * float64);
  sp_last_closed : option Z;
  sp_evicted : list Key;
}.
Definition spec_init : SpecEngine := mkSpec [] ∅ ∅ [] None [].
Definition abs (s : SpecEngine) : MetricEngine :=
  mkEngine (od_map ws_of (sp_hist s)) (sp_entities s) (sp_last_active s) (buckets_of (sp_log s))
    (sp_last_closed s) (sp_evicted s).

Definition s_evict (v : Key) (s : SpecEngine) : SpecEngine :=
  mkSpec (od_del v (sp_hist s)) (delete v (sp_entities s)) (delete v (sp_last_active s))
    (filter (fun p => p.1.2 <> v) (sp_log s)) (sp_last_closed s) (sp_evicted s ++ [v]).
Definition s_install (key : Key) (entity : Entity) (s : SpecEngine) : SpecEngine :=
  mkSpec (od_set key [] (sp_hist s)) (<[key := entity]> (sp_entities s))
    (<[key := active (abs s) key]> (sp_last_active s)) (sp_log s) (sp_last_closed s) (sp_evicted s).
Definition s_set_entity (key : Key) (entity : Entity) (s : SpecEngine) : SpecEngine :=
  mkSpec (sp_hist s) (<[key := entity]> (sp_entities s)) (sp_last_active s) (sp_log s) (sp_last_closed s) (sp_evicted s).

(** The minute a sample counts for: its own, or the oldest open one. *)
Definition landing (closed : option Z) (minute : Z) : Z :=
  match closed with Some m => if minute <=? m then m + 1 else minute | None => minute end.
Definition s_record (key : Key) (v : float64) (minute : Z) (s : SpecEngine) : SpecEngine :=
  let m := landing (sp_last_closed s) minute in
  mkSpec (sp_hist s) (sp_entities s) (<[key := m]> (sp_last_active s)) (sp_log s ++ [((m, key), v)])
    (sp_last_closed s) (sp_evicted s).

(** Close a minute: every history grows by the total of its samples. *)
Definition minute_total (s : SpecEngine) (m : Z) (k : Key) : float64 := total (values_at (m, k) (sp_log s)).
Definition s_close (m : Z) (s : SpecEngine) : SpecEngine :=
  mkSpec ((fun p => (p.1, p.2 ++ [minute_total s m p.1])) <$> sp_hist s) (sp_entities s) (sp_last_active s)
    (filter (fun p => p.1.1 <> m) (sp_log s)) (Some m) (sp_evicted s).
Definition s_start (m : Z) (s : SpecEngine) : SpecEngine :=
  mkSpec (sp_hist s) (sp_entities s) (sp_last_active s) (sp_log s) (Some (m - 1)) (sp_evicted s).
Definition s_skip (current : Z) (s : SpecEngine) : SpecEngine :=
  mkSpec (sp_hist s) (sp_entities s) (sp_last_active s) (filter (fun p => current <= p.1.1) (sp_log s))
    (Some (current - 1)) (sp_evicted s).
Definition s_oldest (s : SpecEngine) (dflt : Z) : Z :=
  match (sp_log s).*1.*1 with [] => dflt | m :: ms => foldr Z.min m ms end.

Lemma od_del_filter_keys {V} (v : Key) (d : list (Key * V)) : (od_del v d).*1 = filter (fun k => k <> v) d.*1.
Proof.
  unfold od_del. induction d as [|[k x] d IH]; [done|]. csimpl. rewrite !filter_cons. simpl.
  destruct (decide (k <> v)); csimpl; by rewrite IH.
Qed.
Lemma filter_delete_length (p : Key -> bool) (v : Key) (l : list Key) :
  (length (List.filter p (filter (fun k => k <> v) l)) <= length (List.filter p l))%nat
  /\ (v ∈ l -> p v = true -> length (List.filter p (filter (fun k => k <> v) l)) < length (List.filter p l))%nat.
Proof.
  induction l as [|k l [IH1 IH2]]; [simpl; split; [lia|set_solver]|]. rewrite filter_cons. simpl.
  destruct (decide (k <> v)) as [Hne|Heq]; simpl.
  - destruct (p k); simpl; (split; [lia|]); intros Hv Hp; assert (v ∈ l) as Hin by set_solver; specialize (IH2 Hin Hp); lia.
  - apply dec_stable in Heq. subst k. destruct (p v) eqn:Hp; simpl; (split; [lia|]); [lia|congruence].
Qed.

Lemma filter_snoc_length (p : Key -> bool) (l : list Key) (k : Key) (n : nat) :
  (length (List.filter p l) <= n)%nat -> (p k = true -> length (List.filter p l) < n)%nat ->
  (length (List.filter p (l ++ [k])) <= n)%nat.
Proof. intros H1 H2. rewrite List.filter_app, length_app. simpl. destruct (p k); simpl; [specialize (H2 eq_refl)|]; lia. Qed.

Lemma min_by_elem {A} (lt : A -> A -> bool) (l : list A) (x : A) : min_by lt l x ∈ x :: l.
Proof.
  revert x. induction l as [|y l IH]; intros x; simpl; [by left|].
  specialize (IH (if lt y x then y else x)). destruct (lt y x); set_solver.
Qed.
Lemma victim_elem (e : MetricEngine) (ks : list Key) (v : Key) : victim e ks = Some v -> v ∈ ks.
Proof. destruct ks as [|k ks]; [done|]. intros [= <-]. apply min_by_elem. Qed.

Section SpecRun.
Context (cfg : AnomalyConfig) (sq : float64 -> result PyErr float64).

Definition s_admit (key : Key) (entity : Entity) : ST SpecEngine unit := fun s =>
  let ks := tracked key.1 (abs s) in
  if ac_max_entities_per_metric cfg <=? Z.of_nat (length ks) then
    match victim (abs s) ks with
    | Some v => (Ok tt, s_install key entity (s_evict v s))
    | None => (Err ValueError, s)
    end
  else (Ok tt, s_install key entity s).

Definition s_ingest (sample : MetricSample) (ts : Z) : ST SpecEngine unit :=
  let key : Key := (ms_metric_kind sample, ms_entity_key sample) in
  (do! (fun s => if od_mem key (sp_hist s) then
                   (Ok tt, match sp_entities s !! key with Some [] => s_set_entity key (ms_entity sample) s | _ => s end)
                 else s_admit key (ms_entity sample) s);
   let! minute := st_lift (minute_of ts) in
   st_modify (s_record key (ms_value sample) minute))%st.

(** The signals of a minute: of each followed entity, what its total of the
    minute breaches, judged against its history. *)
Definition key_signals (s : SpecEngine) (m : Z) (p : Key * list float64) : result PyErr (list SignalData) :=
  match minute_devs sq (ac_min_samples cfg) (ac_z_threshold cfg) p.2 (minute_total s m p.1) with
  | Ok devs => Ok (signal p.1 (default [] (sp_entities s !! p.1)) <$> devs)
  | Err e => Err e
  end.
Definition s_minute (m : Z) : ST SpecEngine (list SignalData) := fun s =>
  (r_collect (key_signals s m) (sp_hist s), s_close m s).

Definition s_tick (now : Z) : ST SpecEngine (list SignalData) :=
  (let! current := st_lift (minute_of now) in
   do! st_modify (fun s => match sp_last_closed s with None => s_start (s_oldest s current) s | Some _ => s end);
   let! s := st_get in
   let start := default 0 (sp_last_closed s) + 1 in
   let! start := (if MAX_CATCHUP_MINUTES <? current - start then
                    do! st_modify (s_skip current); st_ret current
                  else st_ret start) in
   st_collect s_minute (seqZ start (current - start)))%st.

(** *** The invariant *)

Record spec_inv (s : SpecEngine) : Prop := {
  si_nodup : NoDup (sp_hist s).*1;
  si_entities : forall k, k ∈ (sp_hist s).*1 -> is_Some (sp_entities s !! k);
  si_log : forall p, p ∈ sp_log s -> p.1.2 ∈ (sp_hist s).*1 /\ forall m, sp_last_closed s = Some m -> m < p.1.1;
  si_cap : forall metric, (length (tracked metric (abs s)) <= Z.to_nat (ac_max_entities_per_metric cfg))%nat;
}.

Lemma spec_inv_init : spec_inv spec_init.
Proof. split; simpl; [constructor|set_solver|set_solver|]. intros metric. unfold tracked. simpl. lia. Qed.

Lemma tracked_abs (metric : string) (s : SpecEngine) :
  tracked metric (abs s) = List.filter (fun k => String.eqb k.1 metric) (sp_hist s).*1.
Proof. unfold tracked. simpl. by rewrite od_map_keys. Qed.

(** [m] computes what [n] does, on the state that abstracts to its own. *)
Definition sim {A} (m : ST MetricEngine A) (n : ST SpecEngine A) (s : SpecEngine) : Prop :=
  exists e, m (abs s) = ((n s).1, e) /\ (is_ok (n s).1 = true -> e = abs (n s).2 /\ spec_inv (n s).2).

Lemma sim_bind {A B} (m : ST MetricEngine A) (n : ST SpecEngine A) (f : A -> ST MetricEngine B) (g : A -> ST SpecEngine B)
    (s : SpecEngine) :
  sim m n s -> (forall a s', n s = (Ok a, s') -> spec_inv s' -> sim (f a) (g a) s') ->
  sim (st_bind m f) (st_bind n g) s.
Proof.
  unfold sim, st_bind. intros (e & -> & Hok) Hf. destruct (n s) as [[a|x] s']; simpl in *; [|by exists e].
  destruct (Hok eq_refl) as [-> Hinv]. by apply Hf.
Qed.
Lemma sim_ret {A} (a : A) (s : SpecEngine) : spec_inv s -> sim (st_ret a) (st_ret a) s.
Proof. intros. by exists (abs s). Qed.
Lemma sim_modify (f : MetricEngine -> MetricEngine) (g : SpecEngine -> SpecEngine) (s : SpecEngine) :
  f (abs s) = abs (g s) -> spec_inv (g s) -> sim (st_modify f) (st_modify g) s.
Proof. intros Hf Hg. unfold sim, st_modify. simpl. exists (f (abs s)). split; [done|]. by rewrite Hf. Qed.
Lemma sim_get {B} (f : MetricEngine -> ST MetricEngine B) (g : SpecEngine -> ST SpecEngine B) (s : SpecEngine) :
  sim (f (abs s)) (g s) s -> sim (st_bind st_get f) (st_bind st_get g) s.
Proof. done. Qed.
Lemma sim_lift {A} (r : result PyErr A) (s : SpecEngine) : spec_inv s -> sim (st_lift r) (st_lift r) s.
Proof. intros. by exists (abs s). Qed.

Lemma abs_evict (v : Key) (s : SpecEngine) : evict v (abs s) = abs (s_evict v s).
Proof.
  unfold evict, abs, s_evict. simpl. f_equal; [by rewrite od_map_del|].
  apply buckets_filter. bucket_cond.
Qed.
Lemma abs_install (key : Key) (entity : Entity) (s : SpecEngine) : install key entity (abs s) = abs (s_install key entity s).
Proof.
  unfold install, abs, s_install. simpl. f_equal.
  replace ws_init with (ws_of []) by done. apply od_map_set.
Qed.

Lemma inv_evict (v : Key) (s : SpecEngine) : spec_inv s -> spec_inv (s_evict v s).
Proof.
  intros [Hnd He Hl Hc]. split; simpl.
  - by apply od_del_nodup.
  - intros k [Hk Hne]%od_del_keys. rewrite lookup_delete_ne by done. by apply He.
  - intros p [Hne Hp]%list_elem_of_filter. destruct (Hl p Hp) as [Hk Hm]. split; [by apply od_del_keys|done].
  - intros metric. specialize (Hc metric). rewrite tracked_abs in *. simpl. rewrite od_del_filter_keys.
    etrans; [apply filter_delete_length|done].
Qed.
Lemma inv_install (key : Key) (entity : Entity) (s : SpecEngine) :
  spec_inv s -> key ∉ (sp_hist s).*1 ->
  (length (tracked key.1 (abs s)) < Z.to_nat (ac_max_entities_per_metric cfg))%nat ->
  spec_inv (s_install key entity s).
Proof.
  intros [Hnd He Hl Hc] Hk Hlt. split; simpl.
  - by apply od_set_nodup.
  - intros k. rewrite od_set_keys, decide_False by done. intros [Hin| ->%list_elem_of_singleton]%elem_of_app.
    + destruct (decide (k = key)) as [->|]; [done|]. rewrite lookup_insert_ne by done. by apply He.
    + by rewrite lookup_insert_eq.
  - intros p Hp. destruct (Hl p Hp) as [Hin Hm]. split; [|done]. rewrite od_set_keys, decide_False by done. set_solver.
  - intros metric. specialize (Hc metric). rewrite tracked_abs in *. simpl. rewrite od_set_keys, decide_False by done.
    apply filter_snoc_length; [exact Hc|]. intros Hm%String.eqb_eq. rewrite <- Hm. exact Hlt.
Qed.

Lemma sim_admit (key : Key) (entity : Entity) (s : SpecEngine) :
  spec_inv s -> key ∉ (sp_hist s).*1 -> sim (admit_key cfg key entity) (s_admit key entity) s.
Proof.
  intros Hinv Hk. unfold sim, admit_key, s_admit, st_bind, st_get.
  destruct (Z.leb_spec (ac_max_entities_per_metric cfg) (Z.of_nat (length (tracked key.1 (abs s))))) as [Hfull|Hroom].
  - destruct (victim (abs s) (tracked key.1 (abs s))) as [v|] eqn:Hv; [|by eexists].
    unfold st_modify. rewrite abs_evict, abs_install. eexists. split; [done|]. intros _. split; [done|].
    apply victim_elem in Hv. rewrite tracked_abs in Hv.
    apply list_elem_of_In, List.filter_In in Hv as [Hv Hm]. apply list_elem_of_In in Hv.
    apply inv_install; [by apply inv_evict| |].
    + simpl. rewrite od_del_keys. naive_solver.
    + pose proof (si_cap s Hinv key.1) as Hc. rewrite tracked_abs in *. simpl. rewrite od_del_filter_keys.
      eapply Nat.lt_le_trans; [by apply (proj2 (filter_delete_length _ v _))|exact Hc].
  - unfold st_ret, st_modify. rewrite abs_install. eexists. split; [done|]. intros _. split; [done|].
    apply inv_install; [done|done|lia].
Qed.

Lemma inv_set_entity (key : Key) (entity : Entity) (s : SpecEngine) : spec_inv s -> spec_inv (s_set_entity key entity s).
Proof.
  intros [Hnd He Hl Hc]. split; simpl; [done| |done|done]. intros k Hk.
  destruct (decide (k = key)) as [->|]; [by rewrite lookup_insert_eq|rewrite lookup_insert_ne by done; by apply He].
Qed.
Lemma inv_record (key : Key) (v : float64) (minute : Z) (s : SpecEngine) :
  spec_inv s -> key ∈ (sp_hist s).*1 -> spec_inv (s_record key v minute s).
Proof.
  intros [Hnd He Hl Hc] Hk. split; simpl; [done|done| |done].
  intros p [Hp| ->%list_elem_of_singleton]%elem_of_app; [by apply Hl|]. simpl. split; [done|].
  intros m Hm. unfold landing. rewrite Hm. destruct (Z.leb_spec minute m); lia.
Qed.

Lemma abs_record (key : Key) (v : float64) (minute : Z) (s : SpecEngine) :
  mkEngine (en_stats (abs s)) (en_entities (abs s)) (<[key := landing (sp_last_closed s) minute]> (en_last_active (abs s)))
    (<[(landing (sp_last_closed s) minute, key) :=
        fadd (default fzero (en_buckets (abs s) !! (landing (sp_last_closed s) minute, key))) v]> (en_buckets (abs s)))
    (en_last_closed (abs s)) (en_evicted (abs s)) = abs (s_record key v minute s).
Proof. unfold abs, s_record. simpl. f_equal. unfold buckets_of. by rewrite foldl_snoc. Qed.

Lemma sim_ingest (sample : MetricSample) (ts : Z) (s : SpecEngine) :
  spec_inv s -> sim (ingest cfg sample ts) (s_ingest sample ts) s.
Proof.
  intros Hinv. unfold ingest, s_ingest. set (key := (ms_metric_kind sample, ms_entity_key sample) : Key).
  unfold sim, st_bind at 1, st_get.
  eapply (sim_bind _ _ (fun _ => _) (fun _ => _)).
  - unfold sim. simpl. rewrite od_map_mem. destruct (od_mem key (sp_hist s)) eqn:Hmem.
    + apply od_mem_true in Hmem. destruct (si_entities s Hinv _ Hmem) as [[|x l] Hx]; rewrite Hx; simpl.
      * eexists. split; [done|]. intros _. split; [done|]. by apply inv_set_entity.
      * eexists. split; [done|]. done.
    + apply sim_admit; [done|by apply od_mem_false].
  - intros [] s1 Hs1 Hinv1.
    assert (key ∈ (sp_hist s1).*1) as Hk.
    { destruct (od_mem key (sp_hist s)) eqn:Hmem; [apply od_mem_true in Hmem; by destruct (sp_entities s !! key) as [[]|]; simplify_eq|].
      unfold s_admit in Hs1. apply od_mem_false in Hmem.
      destruct (_ <=? _); [destruct (victim _ _) as [v|]|]; simplify_eq/=; rewrite od_set_keys; case_decide; set_solver. }
    apply sim_bind; [by apply sim_lift|]. intros minute s2 [= _ <-] _.
    apply sim_modify; [apply abs_record|by apply inv_record].
Qed.

(** *** Closing a minute, entity by entity *)

Definition closed_hist (s : SpecEngine) (m : Z) (d : list (Key * list float64)) : list (Key * list float64) :=
  (fun p => (p.1, p.2 ++ [minute_total s m p.1])) <$> d.
Definition s_part (m : Z) (pre post : list (Key * list float64)) (s : SpecEngine) : SpecEngine :=
  mkSpec (closed_hist s m pre ++ post) (sp_entities s) (sp_last_active s)
    (filter (fun p => ~ (p.1.1 = m /\ p.1.2 ∈ pre.*1)) (sp_log s)) (sp_last_closed s) (sp_evicted s).

Lemma closed_hist_keys (s : SpecEngine) (m : Z) (d : list (Key * list float64)) : (closed_hist s m d).*1 = d.*1.
Proof. unfold closed_hist. rewrite <- list_fmap_compose. by apply list_fmap_ext. Qed.

Lemma part_lookup (s : SpecEngine) (m : Z) (pre post : list (Key * list float64)) (k : Key) :
  k ∉ pre.*1 -> default fzero (en_buckets (abs (s_part m pre post s)) !! (m, k)) = minute_total s m k.
Proof.
  intros Hk. simpl. rewrite buckets_default. unfold minute_total. f_equal.
  rewrite values_at_filter by bucket_cond. rewrite decide_True; [done|]. simpl. tauto.
Qed.

Lemma close_key_step (s : SpecEngine) (m : Z) (pre post : list (Key * list float64)) (k : Key) (vs : list float64) :
  spec_inv s -> sp_hist s = pre ++ (k, vs) :: post ->
  exists e, close_key cfg sq m k (abs (s_part m pre ((k, vs) :: post) s)) = (key_signals s m (k, vs), e)
    /\ (is_ok (key_signals s m (k, vs)) = true -> e = abs (s_part m (pre ++ [(k, vs)]) post s)).
Proof.
  intros Hinv Hh. pose proof (si_nodup s Hinv) as Hnd. rewrite Hh, fmap_app in Hnd. csimpl in Hnd.
  apply NoDup_app in Hnd as (_ & Hdis & _).
  assert (k ∉ pre.*1) as Hk by (intros Hin; apply (Hdis k Hin); by left).
  assert (is_Some (sp_entities s !! k)) as [entity Hent].
  { apply (si_entities s Hinv). rewrite Hh, fmap_app. csimpl. set_solver. }
  unfold close_key, key_signals. rewrite part_lookup by done. cbn [abs en_stats s_part sp_hist].
  rewrite od_map_get, od_get_app by (by rewrite closed_hist_keys). simpl. rewrite decide_True by done.
  cbn [fmap option_fmap option_map fst snd]. simpl default.
  destruct (push_minute_spec sq (ac_min_samples cfg) (ac_z_threshold cfg) vs (minute_total s m k)) as (ws' & -> & Hws).
  rewrite Hent. simpl default.
  destruct (minute_devs sq (ac_min_samples cfg) (ac_z_threshold cfg) vs (minute_total s m k)) as [devs|x];
    [|eexists; split; [reflexivity|discriminate]].
  specialize (Hws eq_refl). subst ws'.
  match goal with |- exists e, match devs with [] => (Ok [], ?st) | _ => _ end = _ /\ _ => exists st end.
  split; [by destruct devs|]. intros _. unfold abs, s_part, set_stats, set_buckets. simpl. f_equal.
  - rewrite od_map_set, od_set_app by (by rewrite closed_hist_keys). simpl. rewrite decide_True by done.
    unfold closed_hist. rewrite fmap_app, <- app_assoc. done.
  - rewrite buckets_delete, list_filter_filter. f_equal. apply list_filter_iff. intros [[m' k'] x]. simpl.
    rewrite fmap_app, elem_of_app. csimpl. rewrite list_elem_of_singleton. split; [|naive_solver].
    intros [H1 H2] [-> [H3|H3]]; [tauto|congruence].
Qed.

Lemma close_keys (s : SpecEngine) (m : Z) (post pre : list (Key * list float64)) :
  spec_inv s -> sp_hist s = pre ++ post ->
  exists e, st_collect (close_key cfg sq m) post.*1 (abs (s_part m pre post s)) = (r_collect (key_signals s m) post, e)
    /\ (is_ok (r_collect (key_signals s m) post) = true -> e = abs (s_part m (pre ++ post) [] s)).
Proof.
  intros Hinv. revert pre. induction post as [|[k vs] post IH]; intros pre Hh; csimpl.
  - eexists. split; [done|]. intros _. by rewrite app_nil_r.
  - unfold st_bind, st_ret. destruct (close_key_step s m pre post k vs Hinv Hh) as (e & -> & He).
    destruct (key_signals s m (k, vs)) as [out|x]; simpl; [|eexists; split; [done|discriminate]].
    rewrite (He eq_refl). destruct (IH (pre ++ [(k, vs)])) as (e' & -> & He'); [by rewrite <- app_assoc|].
    destruct (r_collect (key_signals s m) post) as [rest|x]; simpl; [|eexists; split; [done|discriminate]].
    eexists. split; [done|]. intros _. rewrite (He' eq_refl), <- app_assoc. done.
Qed.

Lemma abs_close (s : SpecEngine) (m : Z) :
  spec_inv s -> set_last_closed m (abs (s_part m (sp_hist s) [] s)) = abs (s_close m s).
Proof.
  intros Hinv. unfold set_last_closed, abs, s_part, s_close. simpl. f_equal; [by rewrite app_nil_r|].
  f_equal. apply filter_ext_in. intros p Hp.
  destruct (si_log s Hinv p Hp) as [Hk _]. tauto.
Qed.

Lemma inv_minute (s : SpecEngine) (m : Z) :
  spec_inv s -> sp_last_closed s = Some (m - 1) -> spec_inv (s_close m s).
Proof.
  intros [Hnd He Hl Hc] Hm. split; simpl.
  - fold (closed_hist s m (sp_hist s)). by rewrite closed_hist_keys.
  - fold (closed_hist s m (sp_hist s)). by rewrite closed_hist_keys.
  - fold (closed_hist s m (sp_hist s)). rewrite closed_hist_keys. intros p [Hne Hp]%list_elem_of_filter.
    destruct (Hl p Hp) as [Hk Hlt]. split; [done|]. intros m' [= <-]. specialize (Hlt _ Hm). lia.
  - intros metric. specialize (Hc metric). rewrite tracked_abs in *. simpl.
    fold (closed_hist s m (sp_hist s)). by rewrite closed_hist_keys.
Qed.

Lemma sim_minute (m : Z) (s : SpecEngine) :
  spec_inv s -> sp_last_closed s = Some (m - 1) -> sim (close_minute cfg sq m) (s_minute m) s.
Proof.
  intros Hinv Hm. unfold sim, close_minute, s_minute, st_bind at 1, st_get. cbn [fst snd].
  assert (abs s = abs (s_part m [] (sp_hist s) s)) as Hs.
  { unfold abs, s_part. simpl. f_equal. f_equal. symmetry. apply filter_all_in. intros. set_solver. }
  destruct (close_keys s m (sp_hist s) [] Hinv eq_refl) as (e & Hrun & He).
  replace (en_stats (abs s)).*1 with (sp_hist s).*1 by (simpl; by rewrite od_map_keys).
  unfold st_bind, st_modify, st_ret. rewrite Hs, Hrun.
  destruct (r_collect (key_signals s m) (sp_hist s)) as [out|x]; [|eexists; split; [done|discriminate]].
  rewrite (He eq_refl). simpl app. eexists. split; [done|]. intros _. split; [by apply abs_close|by apply inv_minute].
Qed.

(** *** The tick *)

Lemma min_open_abs (s : SpecEngine) (dflt : Z) : min_open (abs s) dflt = s_oldest s dflt.
Proof.
  assert (forall b, b ∈ (map_to_list (en_buckets (abs s))).*1 <-> b ∈ (sp_log s).*1) as Hb.
  { intros b. rewrite <- (values_at_nonempty b (sp_log s)), list_elem_of_fmap. split.
    - intros ([b' v] & -> & Hin%elem_of_map_to_list). simpl in *. rewrite buckets_lookup in Hin.
      by destruct (values_at b' (sp_log s)).
    - intros Hne. destruct (en_buckets (abs s) !! b) as [v|] eqn:Hv.
      + exists (b, v). split; [done|]. by apply elem_of_map_to_list.
      + simpl in Hv. rewrite buckets_lookup in Hv. by destruct (values_at b (sp_log s)). }
  unfold min_open, s_oldest. fold (min_of (map_to_list (en_buckets (abs s))).*1.*1 dflt) (min_of (sp_log s).*1.*1 dflt).
  apply min_of_ext. intros m. revert Hb. generalize (map_to_list (en_buckets (abs s))).*1 (sp_log s).*1.
  intros l1 l2 Hb. rewrite !list_elem_of_fmap. by setoid_rewrite Hb.
Qed.

Lemma inv_start (s : SpecEngine) (current : Z) :
  spec_inv s -> sp_last_closed s = None -> spec_inv (s_start (s_oldest s current) s).
Proof.
  intros [Hnd He Hl Hc] Hn. split; simpl; [done|done| |done]. intros p Hp.
  destruct (Hl p Hp) as [Hk _]. split; [done|]. intros m [= <-].
  assert (p.1.1 ∈ (sp_log s).*1.*1) as Hin.
  { apply list_elem_of_fmap. exists p.1. split; [done|]. apply list_elem_of_fmap. by exists p. }
  unfold s_oldest. fold (min_of (sp_log s).*1.*1 current).
  pose proof (proj2 (min_of_spec (sp_log s).*1.*1 current ltac:(by intros Hnil; rewrite Hnil in Hin; apply not_elem_of_nil in Hin)) _ Hin).
  lia.
Qed.
Lemma inv_skip (s : SpecEngine) (current : Z) : spec_inv s -> spec_inv (s_skip current s).
Proof.
  intros [Hnd He Hl Hc]. split; simpl; [done|done| |done]. intros p [Hle Hp]%list_elem_of_filter.
  destruct (Hl p Hp) as [Hk _]. split; [done|]. intros m [= <-]. lia.
Qed.

Lemma sim_minutes (n : nat) (start : Z) (s : SpecEngine) :
  spec_inv s -> sp_last_closed s = Some (start - 1) ->
  sim (st_collect (close_minute cfg sq) (seqZ start (Z.of_nat n))) (st_collect s_minute (seqZ start (Z.of_nat n))) s.
Proof.
  revert start s. induction n as [|n IH]; intros start s Hinv Hc; [by apply sim_ret|].
  rewrite seqZ_cons by lia. replace (Z.pred (Z.of_nat (S n))) with (Z.of_nat n) by lia. simpl.
  apply sim_bind; [by apply sim_minute|]. intros out s1 Hs1 Hinv1.
  apply sim_bind; [|intros rest s2 _ Hinv2; by apply sim_ret]. apply IH; [done|].
  unfold s_minute in Hs1. injection Hs1 as _ <-. simpl. f_equal. lia.
Qed.

Lemma sim_tick (now : Z) (s : SpecEngine) : spec_inv s -> sim (tick cfg sq now) (s_tick now) s.
Proof.
  intros Hinv. unfold tick, s_tick. apply sim_bind; [by apply sim_lift|]. intros current s0 [= _ <-] _.
  apply sim_bind.
  { destruct (sp_last_closed s) as [m|] eqn:Hm; apply sim_modify; simpl; rewrite ?Hm; try done.
    - rewrite min_open_abs. done.
    - by apply inv_start. }
  intros [] s1 [= <-] Hinv1. set (s1 := match sp_last_closed s with Some _ => s | None => _ end) in *.
  assert (exists m, sp_last_closed s1 = Some m) as [m Hm].
  { unfold s1. destruct (sp_last_closed s) eqn:Hs; [by eexists|]. simpl. by eexists. }
  apply sim_get. cbn [abs en_last_closed]. rewrite Hm. cbn [default from_option]. apply sim_bind.
  - destruct (_ <? _); [|by apply sim_ret]. apply sim_bind; [|intros [] s2 _ Hinv2; by apply sim_ret].
    apply sim_modify; [|by apply inv_skip]. unfold set_last_closed, set_buckets, abs, s_skip. simpl. f_equal.
    apply buckets_filter. bucket_cond.
  - intros start s2 Hs2 Hinv2.
    assert (sp_last_closed s2 = Some (start - 1)) as Hc2.
    { destruct (_ <? _) in Hs2; unfold st_bind, st_modify, st_ret in Hs2; injection Hs2 as <- <-; [done|]. rewrite Hm. f_equal. lia. }
    destruct (decide (current - start <= 0)) as [Hle|Hgt].
    + rewrite seqZ_nil by lia. by apply sim_ret.
    + rewrite <- (Z2Nat.id (current - start)) by lia. by apply sim_minutes.
Qed.
End SpecRun.

(** ** Runs of the engine *)

Inductive EngineOp := OpIngest (sample : MetricSample) (ts : Z) | OpTick (now : Z).

Section Runs.
Context (cfg : AnomalyConfig) (sq : float64 -> result PyErr float64).

Definition engine_op (op : EngineOp) : ST MetricEngine (list SignalData) :=
  match op with
  | OpIngest sample ts => (do! ingest cfg sample ts; st_ret [])%st
  | OpTick now => tick cfg sq now
  end.
Definition spec_op (op : EngineOp) : ST SpecEngine (list SignalData) :=
  match op with
  | OpIngest sample ts => (do! s_ingest cfg sample ts; st_ret [])%st
  | OpTick now => s_tick cfg sq now
  end.

Lemma sim_op (op : EngineOp) (s : SpecEngine) : spec_inv cfg s -> sim cfg (engine_op op) (spec_op op) s.
Proof.
  intros Hinv. destruct op as [sample ts|now]; [|by apply sim_tick].
  apply sim_bind; [by apply sim_ingest|]. intros [] s' _ Hinv'. by apply sim_ret.
Qed.
Lemma sim_ops (ops : list EngineOp) (s : SpecEngine) :
  spec_inv cfg s -> sim cfg (st_collect engine_op ops) (st_collect spec_op ops) s.
Proof.
  revert s. induction ops as [|op ops IH]; intros s Hinv; [by apply sim_ret|]. simpl.
  apply sim_bind; [by apply sim_op|]. intros a s1 _ Hinv1.
  apply sim_bind; [by apply IH|]. intros b s2 _ Hinv2. by apply sim_ret.
Qed.
End Runs.

(** C11. The metric engine refines a specification that forgets nothing.
    Whatever samples and ticks come, the signals (or the first exception) are
    those of the specification, which keeps every sample and every minute
    total: each closed bucket of an entity is judged only against the buckets
    that closed before it. As long as nothing raises, the rings, accumulators
    and open buckets are what the full history says, no entity is followed
    twice, an open bucket belongs to a followed entity and an open minute, and
    the entities of a metric never exceed the bound. *)
Theorem engine_refines_history (cfg : AnomalyConfig) (sq : float64 -> result PyErr float64) (ops : list EngineOp) :
  let '(out, s) := st_collect (spec_op cfg sq) ops spec_init in
  exists e, st_collect (engine_op cfg sq) ops engine_init = (out, e)
    /\ (is_ok out = true ->
        e = abs s
        /\ (forall k ws, od_get k (en_stats e) = Some ws -> exists vs, od_get k (sp_hist s) = Some vs /\ ws = ws_of vs)
        /\ (forall m k, default fzero (en_buckets e !! (m, k)) = total (values_at (m, k) (sp_log s)))
        /\ (forall m k v, en_buckets e !! (m, k) = Some v ->
              k ∈ (en_stats e).*1 /\ forall m', en_last_closed e = Some m' -> m' < m)
        /\ NoDup (en_stats e).*1
        /\ forall metric, (length (tracked metric e) <= Z.to_nat (ac_max_entities_per_metric cfg))%nat).
Proof.
  pose proof (sim_ops cfg sq ops spec_init (spec_inv_init cfg)) as (e & Hrun & Hok).
  destruct (st_collect (spec_op cfg sq) ops spec_init) as [out s]. simpl in *. exists e.
  split; [exact Hrun|]. intros Ho. destruct (Hok Ho) as [-> Hinv]. split_and!; [done| | | | |apply Hinv].
  - intros k ws. simpl. rewrite od_map_get. intros (vs & Hvs & ->)%fmap_Some_1. by exists vs.
  - intros m k. apply buckets_default.
  - intros m k v. simpl. rewrite buckets_lookup. intros Hv.
    assert (values_at (m, k) (sp_log s) <> []) as Hne by (intros Hnil; by rewrite Hnil in Hv).
    apply values_at_nonempty, list_elem_of_fmap in Hne as ([b y] & Hb & Hp).
    simpl in Hb. subst b. rewrite od_map_keys. exact (si_log cfg s Hinv _ Hp).
  - simpl. rewrite od_map_keys. apply Hinv.
Qed.
