(* ===== verification/AnomalyTrackers.v ===== *)
(** * Beacons and resource baselines ([anomaly/beacon.py], [anomaly/entity_baseline.py])

    The tracker of inter-arrival times per process and destination, and the
    sampler of the processor time and memory of services. What [/proc] and the
    cgroup files hold is an argument. *)

From S2P Require Import Prelude Schemas RuleEval Vuln Enrichment Float64 AnomalyStats.

(** ** [BeaconTracker] *)

Definition RING_SIZE : nat := 32.

Record BeaconHit := mkHit {
  bh_process_name : string; bh_dst_ip : string; bh_dst_port : Z; bh_entity_key : string;
  bh_count : Z; bh_mean_interval_s : float64; bh_stddev_interval_s : float64; bh_cv : float64;
}.

Record KeyState := mkKeyState { ks_last_ts : option float64; ks_intervals : list float64 }.

(** The f-string of [_entity_key]. *)
Definition entity_key (process_name dst_ip : string) (dst_port : Z) : string :=
  process_name +:+ "->" +:+ dst_ip +:+ ":" +:+ str_of_Z dst_port.

Record BeaconTracker := mkBeacon {
  bt_keys : list (string * KeyState);
  bt_last_seen : gmap string float64;
}.
Definition beacon_init : BeaconTracker := mkBeacon [] ∅.

Definition last_seen (b : BeaconTracker) (k : string) : float64 := default fneg_inf (bt_last_seen b !! k).
Definition oldest_key (b : BeaconTracker) : option string :=
  match (bt_keys b).*1 with
  | [] => None
  | k :: ks => Some (min_by (fun x y => flt (last_seen b x) (last_seen b y)) ks k)
  end.

Section Beacon.
Context (cfg : AnomalyConfig) (sq : float64 -> result PyErr float64).

Definition beacon_admit (key : string) : ST BeaconTracker unit := fun b =>
  if od_mem key (bt_keys b) then (Ok tt, b)
  else
    let add b := mkBeacon (od_set key (mkKeyState None []) (bt_keys b)) (bt_last_seen b) in
    if ac_max_entities_per_metric cfg <=? Z.of_nat (length (bt_keys b)) then
      match oldest_key b with
      | None => (Err ValueError, b)
      | Some v => (Ok tt, add (mkBeacon (od_del v (bt_keys b)) (delete v (bt_last_seen b))))
      end
    else (Ok tt, add b).

Definition beacon_evaluate (intervals : list float64) (process_name dst_ip : string) (dst_port : Z) (key : string)
  : result PyErr (option BeaconHit) :=
  let n := Z.of_nat (length intervals) in
  if n <? ac_beacon_min_events cfg then Ok None
  else
    mean ← py_mean intervals;
    if fle mean fzero then Ok None
    else if negb (fle (ac_beacon_min_interval_s cfg) mean && fle mean (ac_beacon_max_interval_s cfg)) then Ok None
    else
      var ← variance sq mean intervals;
      stddev ← math_sqrt var;
      cv ← fdiv stddev mean;
      if fle (ac_beacon_max_cv cfg) cv then Ok None
      else Ok (Some (mkHit process_name dst_ip dst_port key n mean stddev cv)).

(** Record an observation at [epoch] of a tracked key. *)
Definition touch (epoch : float64) (st : KeyState) : KeyState :=
  mkKeyState (Some epoch)
    (match ks_last_ts st with
     | Some last => ring_append RING_SIZE (ks_intervals st) (fsub epoch last)
     | None => ks_intervals st
     end).

Definition beacon_observe (process_name dst_ip : string) (dst_port : Z) (ts : Z) : ST BeaconTracker (option BeaconHit) :=
  let key := entity_key process_name dst_ip dst_port in
  (do! beacon_admit key;
   let! epoch := st_lift (timestamp ts) in
   fun b =>
     match od_get key (bt_keys b) with
     | None => (Err KeyError, b)
     | Some st =>
         let st' := touch epoch st in
         (beacon_evaluate (ks_intervals st') process_name dst_ip dst_port key,
          mkBeacon (od_set key st' (bt_keys b)) (<[key := epoch]> (bt_last_seen b)))
     end)%st.
End Beacon.

Section BeaconRows.
Context {T : Type} `{JsonText T} (float_parse : string -> option float64) (cfg : AnomalyConfig).

Definition beacon_doc (st : KeyState) : jval :=
  JDict [("last_ts"%string, match ks_last_ts st with Some t => JFloat t | None => JNull end);
         ("intervals"%string, JList (JFloat <$> ks_intervals st))].
Definition beacon_rows (b : BeaconTracker) : list (BaselineRow T) :=
  (fun p => ("beacon", p.1, "beacon", json_dump (beacon_doc p.2))%string) <$> bt_keys b.

Definition parse_beacon (doc : jval) : result PyErr (option float64 * list float64) :=
  raw_last ← jsub doc "last_ts";
  last_ts ← (match raw_last with JNull => Ok None | v => t ← jfloat float_parse v; Ok (Some t) end);
  raw ← jsub doc "intervals";
  items ← jiter raw;
  intervals ← jfloats float_parse items;
  Ok (last_ts, intervals).

(** [except (KeyError, TypeError, ValueError)]. *)
Definition beacon_caught (e : PyErr) : bool :=
  match e with KeyError | TypeError | ValueError => true | _ => false end.

Definition beacon_load_row (key : string) (blob : T) : ST BeaconTracker bool :=
  match json_load blob with
  | None => st_ret false
  | Some doc =>
      match parse_beacon doc with
      | Err e => if beacon_caught e then st_ret false else st_raise e
      | Ok (last_ts, intervals) =>
          (do! beacon_admit cfg key;
           fun b => (Ok true,
                     mkBeacon (od_set key (mkKeyState None (lastn RING_SIZE intervals)) (bt_keys b))
                       (<[key := default fneg_inf last_ts]> (bt_last_seen b))))%st
      end
  end.
End BeaconRows.

(** ** [ResourceSampler] *)

Inductive Metric := CpuPct | RssBytes.
#[export] Instance Metric_eq_dec : EqDecision Metric.
Proof. solve_decision. Defined.
Definition METRICS : list Metric := [CpuPct; RssBytes].
Definition metric_name (m : Metric) : string := match m with CpuPct => "cpu_pct" | RssBytes => "rss_bytes" end.
Definition metric_of (name : string) : option Metric := List.find (fun m => String.eqb (metric_name m) name) METRICS.

Record ResourceSignal := mkResourceSignal {
  rs_entity_key : string; rs_unit : option string; rs_metric : Metric;
  rs_observed : float64; rs_mean : float64; rs_factor : float64; rs_is_self : bool;
}.

(** [_cpu_ticks], [None] for the [IndexError] or [ValueError] its caller
    catches. *)
Definition cpu_ticks (stat_text : string) : option Z :=
  rest ← after_last_paren stat_text;
  let fields := split_ws rest in
  u ← fields !! 11%nat; utime ← py_int u;
  s ← fields !! 12%nat; stime ← py_int s;
  Some (utime + stime).

Fixpoint rss_of_lines (lines : list string) : option Z :=
  match lines with
  | [] => None
  | line :: rest =>
      if startswith "VmRSS:" line then
        (kb ← split_ws line !! 1%nat; n ← py_int kb; Some (n * 1024))
      else rss_of_lines rest
  end.
Definition rss_bytes (status_text : string) : option Z := rss_of_lines (splitlines status_text).

(** Per metric, the baseline and the streak. *)
Record Baseline := mkBaseline { bl_stats : WindowedStats; bl_streak : Z }.
Definition baseline_init : Baseline := mkBaseline ws_init 0.

Record EntityState := mkEntityState {
  es_pid : option Z; es_prev_ticks : option Z; es_prev_t : option float64;
  es_cpu : Baseline; es_rss : Baseline;
}.
Definition entity_state_init : EntityState := mkEntityState None None None baseline_init baseline_init.
Definition baseline (m : Metric) (st : EntityState) : Baseline := match m with CpuPct => es_cpu st | RssBytes => es_rss st end.
Definition set_baseline (m : Metric) (b : Baseline) (st : EntityState) : EntityState :=
  match m with
  | CpuPct => mkEntityState (es_pid st) (es_prev_ticks st) (es_prev_t st) b (es_rss st)
  | RssBytes => mkEntityState (es_pid st) (es_prev_ticks st) (es_prev_t st) (es_cpu st) b
  end.

Definition ResourceSampler : Type := list (string * EntityState).

(** What the sampler reads: [cgroup.procs] of a unit, [stat] and [status] of
    a process; [None] is an [OSError]. *)
Record ProcWorld := mkProcWorld {
  pw_cgroup_procs : string -> option string;
  pw_stat : Z -> option string;
  pw_status : Z -> option string;
}.

Definition is_digits (s : string) : bool := negb (String.eqb s EmptyString) && str_forall is_digit s.
Fixpoint first_pid (lines : list string) : option Z :=
  match lines with
  | [] => None
  | raw :: rest => let line := strip raw in if is_digits line then py_int line else first_pid rest
  end.
Definition main_pid_of (pw : ProcWorld) (unit : string) : option Z :=
  text ← pw_cgroup_procs pw unit; first_pid (splitlines text).

(** [l[:n]]. *)
Definition py_slice_to {A} (n : Z) (l : list A) : list A :=
  if n <? 0 then take (length l - Z.to_nat (- n)) l else take (Z.to_nat n) l.

Section Sampler.
Context (cfg : AnomalyConfig) (sq : float64 -> result PyErr float64).

Definition breach (ring : list float64) (value : float64) : result PyErr (option float64) :=
  if Z.of_nat (length ring) <? ac_min_samples cfg then Ok None
  else
    mean ← py_mean ring;
    Ok (if flt fzero mean && flt (fmul (ac_sustained_factor cfg) mean) value then Some mean else None).

(** The streak after a sample, and the signal at the sample that completes
    it. A ring that is too short leaves the streak alone. *)
Definition judge_sample (ring : list float64) (streak : Z) (key : string) (unit : option string) (m : Metric) (value : float64)
  : result PyErr (option ResourceSignal * Z) :=
  if Z.of_nat (length ring) <? ac_min_samples cfg then Ok (None, streak)
  else
    b ← breach ring value;
    match b with
    | None => Ok (None, 0)
    | Some mean =>
        let streak' := streak + 1 in
        if streak' =? ac_sustained_ticks cfg then
          factor ← fdiv value mean;
          Ok (Some (mkResourceSignal key unit m value mean factor (String.eqb key "self")), streak')
        else Ok (None, streak')
    end.

(** [0 < streak < sustained_ticks]: the baseline is frozen. *)
Definition frozen (streak : Z) : bool := (0 <? streak) && (streak <? ac_sustained_ticks cfg).

Definition observe_sample (key : string) (unit : option string) (m : Metric) (value : float64)
  : ST Baseline (option ResourceSignal) := fun b =>
  match judge_sample (ring (bl_stats b) W1h) (bl_streak b) key unit m value with
  | Err e => (Err e, b)
  | Ok (fired, streak) =>
      if frozen streak then (Ok fired, mkBaseline (bl_stats b) streak)
      else
        let '(r, ws) := push_minute sq (ac_min_samples cfg) finf value (bl_stats b) in
        (match r with Ok _ => Ok fired | Err e => Err e end, mkBaseline ws streak)
  end.

Definition observe_entity (key : string) (unit : option string) (sample : Metric * float64) : ST EntityState (list ResourceSignal) :=
  fun st =>
    let '(r, b) := observe_sample key unit sample.1 sample.2 (baseline sample.1 st) in
    (option_list <$> r, set_baseline sample.1 b st).

Definition rss_sample (status_text : string) : result PyErr (list (Metric * float64)) :=
  match rss_bytes status_text with
  | None => Ok []
  | Some n => v ← float_of_int n; Ok [(RssBytes, v)]
  end.

Context (clk_tck : Z).

(** The processor share since the anchor, when the anchor is of the same
    process. *)
Definition cpu_sample (st : EntityState) (pid ticks : Z) (now : float64) : result PyErr (list (Metric * float64)) :=
  match es_pid st, es_prev_ticks st, es_prev_t st with
  | Some pid', Some prev_ticks, Some prev_t =>
      if (pid =? pid') && flt prev_t now then
        a ← int_truediv (ticks - prev_ticks) clk_tck;
        b ← fdiv a (fsub now prev_t);
        let cpu_pct := fmul b (float_lit 100 1) in
        Ok (if fle fzero cpu_pct then [(CpuPct, cpu_pct)] else [])
      else Ok []
  | _, _, _ => Ok []
  end.

Definition sample_state (pw : ProcWorld) (key : string) (unit : option string) (pid : Z) (now : float64)
  : ST EntityState (list ResourceSignal) :=
  match pw_stat pw pid, pw_status pw pid with
  | Some stat_text, Some status_text =>
      (let! rss := st_lift (rss_sample status_text) in
       let! cpu := (match cpu_ticks stat_text with
                    | None => st_ret []
                    | Some ticks =>
                        let! st := st_get in
                        let! cpu := st_lift (cpu_sample st pid ticks now) in
                        do! st_modify (fun st => mkEntityState (Some pid) (Some ticks) (Some now) (es_cpu st) (es_rss st));
                        st_ret cpu
                    end) in
       st_collect (observe_entity key unit) (rss ++ cpu))%st
  | _, _ => (do! st_modify (fun st => mkEntityState None None (es_prev_t st) (es_cpu st) (es_rss st)); st_ret [])%st
  end.

Definition sample_one (pw : ProcWorld) (now : float64) (target : string * option string * Z) : ST ResourceSampler (list ResourceSignal) :=
  fun s =>
    let '(key, unit, pid) := target in
    let '(r, st) := sample_state pw key unit pid now (default entity_state_init (od_get key s)) in
    (r, od_set key st s).

Definition targets (pw : ProcWorld) (self_pid : Z) (units : list string) : list (string * option string * Z) :=
  ("self"%string, None, self_pid)
  :: omap (fun u => pid ← main_pid_of pw u; Some ("svc:" +:+ u, Some u, pid))%string
       (py_slice_to (ac_max_entities_per_metric cfg) units).

Definition sample (pw : ProcWorld) (self_pid : Z) (units : list string) (now : float64) : ST ResourceSampler (list ResourceSignal) :=
  st_collect (sample_one pw now) (targets pw self_pid units).
End Sampler.

Section SamplerRows.
Context {T : Type} `{JsonText T} (float_parse : string -> option float64).

Definition sampler_rows (s : ResourceSampler) : list (BaselineRow T) :=
  p ← s; m ← METRICS;
  match ring (bl_stats (baseline m p.2)) W1h with
  | [] => []
  | _ => [("resource." +:+ metric_name m, p.1, "1h", serialize_window (bl_stats (baseline m p.2)) W1h)]%string
  end.

Definition sampler_load_row (metric_kind entity_key window_name : string) (blob : T) : ST ResourceSampler bool := fun s =>
  if negb (startswith "resource." metric_kind) || negb (String.eqb window_name "1h") then (Ok false, s)
  else
    match metric_of (str_drop (String.length "resource.") metric_kind) with
    | None => (Ok false, s)
    | Some m =>
        let st := default entity_state_init (od_get entity_key s) in
        match load_window float_parse "1h" blob (bl_stats (baseline m st)) with
        | (Ok true, ws) => (Ok true, od_set entity_key (set_baseline m (mkBaseline ws (bl_streak (baseline m st))) st) s)
        | (Ok false, _) => (Ok false, s)
        | (Err e, _) => (Err e, s)
        end
    end.
End SamplerRows.
