(* ===== verification/TrackerProofs.v ===== *)
(** * What the beacon tracker and the resource sampler decide *)

From S2P Require Import Prelude Schemas RuleEval Vuln Enrichment Float64 AnomalyStats AnomalyTrackers.

(** ** Beacons *)

Record Observation := mkObs { ob_process : string; ob_ip : string; ob_port : Z; ob_ts : Z }.
Definition ob_key (o : Observation) : string := entity_key (ob_process o) (ob_ip o) (ob_port o).

(** The seconds between consecutive arrivals. *)
Definition gaps (ts : list float64) : list float64 := zip_with (fun a b => fsub b a) ts (tail ts).

(** The arrival times of a key. *)
Definition arrivals (key : string) (obs : list Observation) : list float64 :=
  omap (fun o => if String.eqb (ob_key o) key then match timestamp (ob_ts o) with Ok t => Some t | Err _ => None end else None) obs.

Lemma gaps_snoc (ts : list float64) (x t : float64) : gaps (ts ++ [x] ++ [t]) = gaps (ts ++ [x]) ++ [fsub t x].
Proof.
  unfold gaps. induction ts as [|a ts IH]; [done|]. simpl in *. destruct ts as [|b ts]; [done|]. simpl in *. by f_equal.
Qed.

Definition key_state (ts : list float64) : KeyState := mkKeyState (last ts) (lastn RING_SIZE (gaps ts)).
Lemma touch_key_state (ts : list float64) (t : float64) : touch t (key_state ts) = key_state (ts ++ [t]).
Proof.
  unfold touch, key_state. rewrite last_snoc. f_equal. simpl.
  destruct ts as [|x ts _] using rev_ind; [done|]. rewrite last_snoc, <- app_assoc, gaps_snoc, lastn_snoc. done.
Qed.

Section BeaconRun.
Context (cfg : AnomalyConfig) (sq : float64 -> result PyErr float64).

Fixpoint observe_list (obs : list Observation) (b : BeaconTracker) : list (result PyErr (option BeaconHit)) * BeaconTracker :=
  match obs with
  | [] => ([], b)
  | o :: obs' =>
      let '(r, b1) := beacon_observe cfg sq (ob_process o) (ob_ip o) (ob_port o) (ob_ts o) b in
      let '(rs, b2) := observe_list obs' b1 in (r :: rs, b2)
  end.

(** What the tracker holds after [past]. *)
Record tracks (past : list Observation) (b : BeaconTracker) : Prop := {
  tk_nodup : NoDup (bt_keys b).*1;
  tk_keys : forall k, k ∈ (bt_keys b).*1 <-> k ∈ ob_key <$> past;
  tk_state : forall k st, od_get k (bt_keys b) = Some st -> st = key_state (arrivals k past);
}.

Lemma arrivals_app (k : string) (l1 l2 : list Observation) : arrivals k (l1 ++ l2) = arrivals k l1 ++ arrivals k l2.
Proof. unfold arrivals. by rewrite omap_app. Qed.

Definition fits (obs : list Observation) : Prop :=
  Z.of_nat (length (remove_dups (ob_key <$> obs))) <= ac_max_entities_per_metric cfg.

Lemma tracks_admit (past : list Observation) (o : Observation) (rest : list Observation) (b : BeaconTracker) :
  tracks past b -> fits (past ++ o :: rest) ->
  exists b1, beacon_admit cfg (ob_key o) b = (Ok tt, b1) /\ NoDup (bt_keys b1).*1 /\ bt_last_seen b1 = bt_last_seen b
    /\ (forall k, k ∈ (bt_keys b1).*1 <-> k = ob_key o \/ k ∈ ob_key <$> past)
    /\ (forall k st, od_get k (bt_keys b1) = Some st -> st = key_state (arrivals k past)).
Proof.
  intros [Hnd Hk Hst] Hfit. unfold beacon_admit. destruct (od_mem (ob_key o) (bt_keys b)) eqn:Hm.
  - apply od_mem_true in Hm. exists b. split_and!; [done|done|done| |done]. intros k. rewrite Hk. apply Hk in Hm. set_solver.
  - apply od_mem_false in Hm.
    assert (Z.of_nat (length (bt_keys b)) < ac_max_entities_per_metric cfg) as Hlt.
    { eapply Z.lt_le_trans; [|exact Hfit]. apply inj_lt. rewrite <- (length_fmap fst).
      change (S (length (bt_keys b).*1) <= length (remove_dups (ob_key <$> past ++ o :: rest)))%nat.
      change (S (length (bt_keys b).*1)) with (length (ob_key o :: (bt_keys b).*1)).
      apply submseteq_length, NoDup_submseteq; [by apply NoDup_cons|]. intros k. rewrite elem_of_remove_dups.
      rewrite fmap_app, fmap_cons, elem_of_app, !elem_of_cons, Hk. tauto. }
    rewrite (proj2 (Z.leb_gt _ _)) by done. eexists. split; [done|]. simpl. split_and!.
    + by apply od_set_nodup.
    + done.
    + intros k. rewrite od_set_keys, decide_False by done. rewrite elem_of_app, list_elem_of_singleton, Hk. tauto.
    + intros k st. rewrite od_get_set. case_decide as Hkk; [|apply Hst]. subst k. intros [= <-].
      assert (arrivals (ob_key o) past = []) as ->; [|done].
      rewrite Hk in Hm. unfold arrivals. revert Hm. clear. induction past as [|p past IH]; [done|]. csimpl. intros Hm.
      destruct (String.eqb_spec (ob_key p) (ob_key o)) as [He|]; [set_solver|]. apply IH. set_solver.
Qed.

Lemma tracks_step (past : list Observation) (o : Observation) (rest : list Observation) (b : BeaconTracker) (t : float64) :
  tracks past b -> fits (past ++ o :: rest) -> timestamp (ob_ts o) = Ok t ->
  exists b', beacon_observe cfg sq (ob_process o) (ob_ip o) (ob_port o) (ob_ts o) b =
      (beacon_evaluate cfg sq (lastn RING_SIZE (gaps (arrivals (ob_key o) (past ++ [o])))) (ob_process o) (ob_ip o) (ob_port o) (ob_key o), b')
    /\ tracks (past ++ [o]) b'.
Proof.
  intros Ht Hfit Hts. destruct (tracks_admit past o rest b Ht Hfit) as (b1 & Ha & Hnd1 & _ & Hk1 & Hst1).
  unfold beacon_observe, st_bind, st_lift. fold (ob_key o). rewrite Ha, Hts.
  assert (arrivals (ob_key o) [o] = [t]) as Hone by (unfold arrivals; csimpl; by rewrite String.eqb_refl, Hts).
  destruct (od_get (ob_key o) (bt_keys b1)) as [st|] eqn:Hst.
  2:{ exfalso. apply od_get_None in Hst. apply Hst, Hk1. by left. }
  apply Hst1 in Hst as ->. rewrite touch_key_state, <- Hone, <- arrivals_app. eexists. split; [done|].
  split; simpl.
  - by apply od_set_nodup.
  - intros k. rewrite od_set_keys. rewrite fmap_app, elem_of_app. csimpl. rewrite list_elem_of_singleton.
    specialize (Hk1 k). case_decide; rewrite ?elem_of_app, ?list_elem_of_singleton; tauto.
  - intros k st'. rewrite od_get_set. case_decide as Hkk; [subst k; by intros [= <-]|]. intros Hst%Hst1.
    rewrite Hst, arrivals_app. unfold arrivals at 3. csimpl.
    destruct (String.eqb_spec (ob_key o) k); [congruence|]. by rewrite app_nil_r.
Qed.

Lemma observe_list_spec (obs past : list Observation) (b : BeaconTracker) :
  tracks past b -> fits (past ++ obs) -> Forall (fun o => is_ok (timestamp (ob_ts o)) = true) obs ->
  forall i o, obs !! i = Some o ->
  (observe_list obs b).1 !! i = Some (beacon_evaluate cfg sq (lastn RING_SIZE (gaps (arrivals (ob_key o) (past ++ take (S i) obs))))
    (ob_process o) (ob_ip o) (ob_port o) (ob_key o)).
Proof.
  revert past b. induction obs as [|o obs IH]; intros past b Ht Hfit Hts; [done|].
  apply Forall_cons in Hts as [Ho Hts]. destruct (timestamp (ob_ts o)) as [t|] eqn:Hto; [|done].
  destruct (tracks_step past o obs b t Ht Hfit Hto) as (b' & Hrun & Ht'). simpl. rewrite Hrun.
  destruct (observe_list obs b') as [rs b2] eqn:Hrest. intros [|i] o'; simpl; [by intros [= <-]|]. intros Hi.
  specialize (IH (past ++ [o]) b' Ht'). rewrite <- app_assoc in IH. specialize (IH Hfit Hts i o' Hi).
  rewrite Hrest in IH. simpl in IH. rewrite IH. by rewrite <- app_assoc.
Qed.
End BeaconRun.

(** ** Divisions *)

Lemma float_count_nonzero (n : nat) : (0 < n <= 672)%nat ->
  match float_of_int (Z.of_nat n) with Ok f => is_zero f = false | Err e => False end.
Proof.
  intros Hn.
  assert (forallb (fun k => match float_of_int (Z.of_nat k) with Ok f => negb (is_zero f) | Err _ => false end) (seq 1 672) = true)
    as Hall by (vm_compute; reflexivity).
  rewrite forallb_forall in Hall. specialize (Hall n ltac:(apply in_seq; lia)).
  destruct (float_of_int (Z.of_nat n)); [|done]. by apply negb_true_iff.
Qed.

Lemma py_mean_safe (l : list float64) : (0 < length l <= 672)%nat -> exists m, py_mean l = Ok m.
Proof.
  intros Hl. pose proof (float_count_nonzero (length l) Hl) as Hf. unfold py_mean.
  destruct l as [|x l]; [simpl in Hl; lia|]. destruct (float_of_int _) as [n|]; [|done]. simpl. unfold fdiv. rewrite Hf. by eexists.
Qed.

Section Divisions.
Context (cfg : AnomalyConfig) (sq : float64 -> result PyErr float64).
Context (sq_no_div : forall x, sq x <> Err ZeroDivisionError).

Lemma sq_devs_length (mean : float64) (l ys : list float64) : sq_devs sq mean l = Ok ys -> length ys = length l.
Proof.
  revert ys. induction l as [|x l IH]; intros ys; simpl; [by intros [= <-]|]. intros (y & _ & H)%bind_Ok.
  apply bind_Ok in H as (ys' & H' & [= <-]). simpl. by rewrite (IH ys' H').
Qed.
Lemma variance_no_div (mean : float64) (l : list float64) : (0 < length l <= 672)%nat -> variance sq mean l <> Err ZeroDivisionError.
Proof.
  intros Hl. unfold variance. destruct (sq_devs sq mean l) as [ys|e] eqn:He; simpl.
  - destruct (py_mean_safe ys) as [m ->]; [by rewrite (sq_devs_length mean l ys He)|done].
  - intros [= ->]. revert He. clear Hl. induction l as [|x l IH]; simpl; [done|].
    specialize (sq_no_div (fsub x mean)). destruct (sq (fsub x mean)) as [y|e]; simpl; [|congruence].
    destruct (sq_devs sq mean l) as [ys|e]; simpl; [done|]. intros [= ->]. by apply IH.
Qed.
Lemma sqrt_no_div (x : float64) : math_sqrt x <> Err ZeroDivisionError.
Proof. by destruct x as [| [] | | []]. Qed.

Lemma beacon_evaluate_no_div (intervals : list float64) (name ip : string) (port : Z) (key : string) :
  1 <= ac_beacon_min_events cfg -> (length intervals <= RING_SIZE)%nat ->
  beacon_evaluate cfg sq intervals name ip port key <> Err ZeroDivisionError.
Proof.
  intros Hmin Hlen. unfold RING_SIZE in Hlen. unfold beacon_evaluate.
  destruct (Z.ltb_spec (Z.of_nat (length intervals)) (ac_beacon_min_events cfg)); [done|].
  assert (0 < length intervals <= 672)%nat as Hl by lia.
  destruct (py_mean_safe intervals Hl) as [mean ->]. simpl.
  destruct (fle mean fzero) eqn:Hm; [done|]. destruct (negb _); [done|].
  pose proof (variance_no_div mean intervals Hl) as Hv. destruct (variance sq mean intervals) as [var|e]; simpl; [|congruence].
  pose proof (sqrt_no_div var) as Hs. destruct (math_sqrt var) as [sd|e]; simpl; [|congruence].
  unfold fdiv. destruct (is_zero mean) eqn:Hz; [destruct mean; try done; vm_compute in Hm; discriminate|].
  cbn [mbind result_bind]. by case_match.
Qed.

Lemma evaluate_no_div (r : list float64) (v : float64) (min_samples : Z) (zt : float64) (w : Window) :
  1 <= min_samples -> (length r <= capacity w)%nat -> evaluate sq r v min_samples zt w <> Err ZeroDivisionError.
Proof.
  intros Hmin Hlen. unfold evaluate. destruct (Z.ltb_spec (Z.of_nat (length r)) min_samples); [done|].
  assert (0 < length r <= 672)%nat as Hl by (destruct w; simpl in Hlen; lia).
  destruct (py_mean_safe r Hl) as [mean ->]. simpl.
  pose proof (variance_no_div mean r Hl) as Hv. destruct (variance sq mean r) as [var|e]; simpl; [|congruence].
  pose proof (sqrt_no_div var) as Hs. destruct (math_sqrt var) as [sd|e]; simpl; [|congruence].
  destruct (flt sd MIN_STDDEV) eqn:Hsd; [done|]. unfold fdiv.
  destruct (is_zero sd) eqn:Hz; [destruct sd; try done; vm_compute in Hsd; discriminate|].
  cbn [mbind result_bind]. by case_match.
Qed.
End Divisions.

(** ** The sustained rule *)

Section Sustained.
Context (cfg : AnomalyConfig) (sq : float64 -> result PyErr float64).
Context (key : string) (unit : option string) (m : Metric).

(** Samples of one metric of one entity, in order; [None] when one raised. *)
Fixpoint observe_run (vs : list float64) (b : Baseline) : option (list (option ResourceSignal) * Baseline) :=
  match vs with
  | [] => Some ([], b)
  | v :: vs' =>
      match observe_sample cfg sq key unit m v b with
      | (Ok s, b1) => '(ss, b2) ← observe_run vs' b1; Some (s :: ss, b2)
      | (Err _, _) => None
      end
  end.

Definition breaches (r : list float64) (mean v : float64) : Prop :=
  ac_min_samples cfg <= Z.of_nat (length r) /\ py_mean r = Ok mean
  /\ flt fzero mean = true /\ flt (fmul (ac_sustained_factor cfg) mean) v = true.

Lemma breach_spec (r : list float64) (v mean : float64) :
  breaches r mean v <-> ac_min_samples cfg <= Z.of_nat (length r) /\ breach cfg r v = Ok (Some mean).
Proof.
  unfold breaches, breach. destruct (Z.ltb_spec (Z.of_nat (length r)) (ac_min_samples cfg)); [split; intros [? _]; lia|].
  destruct (py_mean r) as [mean'|e]; simpl; [|split; [intros (_ & ? & _)|intros [_ ?]]; discriminate].
  destruct (flt fzero mean') eqn:H1, (flt (fmul (ac_sustained_factor cfg) mean') v) eqn:H2; simpl.
  - split; [by intros (? & [= <-] & _)|]. by intros [? [= <-]].
  - split; [intros (_ & [= <-] & _ & ?); congruence|by intros [_ ?]].
  - split; [intros (_ & [= <-] & ? & _); congruence|by intros [_ ?]].
  - split; [intros (_ & [= <-] & ? & _); congruence|by intros [_ ?]].
Qed.

(** While a streak grows, its samples breach the ring as it is. *)
Definition streak_ok (hist : list float64) (b : Baseline) : Prop :=
  0 <= bl_streak b <= Z.of_nat (length hist)
  /\ (0 < bl_streak b < ac_sustained_ticks cfg ->
      exists mean, forall v, v ∈ lastn (Z.to_nat (bl_streak b)) hist -> breaches (ring (bl_stats b) W1h) mean v).

Lemma lastn_S_snoc {A} (n : nat) (l : list A) (x : A) : lastn (S n) (l ++ [x]) = lastn n l ++ [x].
Proof. unfold lastn. rewrite length_app. simpl. replace (length l + 1 - S n)%nat with (length l - n)%nat by lia. apply drop_app_le. lia. Qed.

Lemma streak_step (hist : list float64) (b b' : Baseline) (v : float64) (fired : option ResourceSignal) :
  streak_ok hist b -> observe_sample cfg sq key unit m v b = (Ok fired, b') ->
  streak_ok (hist ++ [v]) b'
  /\ match fired with
     | None => True
     | Some sig => exists mean, bl_streak b' = ac_sustained_ticks cfg
         /\ bl_streak b' <= Z.of_nat (length (hist ++ [v]))
         /\ rs_observed sig = v /\ rs_mean sig = mean
         /\ forall x, x ∈ lastn (Z.to_nat (bl_streak b')) (hist ++ [v]) -> breaches (ring (bl_stats b) W1h) mean x
     end.
Proof.
  intros [[Hs0 Hsl] Hfr]. unfold observe_sample, judge_sample. set (R := ring (bl_stats b) W1h) in *.
  assert (forall st' ws', frozen cfg st' = false -> 0 <= st' <= Z.of_nat (length (hist ++ [v])) ->
            streak_ok (hist ++ [v]) (mkBaseline ws' st')) as Hfree.
  { intros st' ws' Hf Hb. split; [done|]. intros Hr. simpl in *. unfold frozen in Hf.
    apply andb_false_iff in Hf as [Hf%Z.ltb_ge|Hf%Z.ltb_ge]; lia. }
  destruct (Z.ltb_spec (Z.of_nat (length R)) (ac_min_samples cfg)) as [Hshort|Hlong].
  - destruct (frozen cfg (bl_streak b)) eqn:Hf.
    + exfalso. unfold frozen in Hf. apply andb_true_iff in Hf as [H1%Z.ltb_lt H2%Z.ltb_lt].
      destruct (Hfr (conj H1 H2)) as [mean Hm]. destruct hist as [|x h _] using rev_ind; [simpl in Hsl; lia|].
      destruct (Hm x) as [Hl _]; [|lia]. destruct (Z.to_nat (bl_streak b)) eqn:Hn; [lia|]. rewrite lastn_S_snoc. set_solver.
    + destruct (push_minute _ _ _ _ _) as [[d|e] ws]; intros [= <- <-]. split; [|done]. apply Hfree; [done|]. rewrite length_app. lia.
  - destruct (breach cfg R v) as [[mean|]|e] eqn:Hbr; simpl; [| |done].
    2:{ destruct (push_minute _ _ _ _ _) as [[d|e] ws]; intros [= <- <-]. split; [|done]. apply Hfree; [done|]. rewrite length_app. lia. }
    assert (breaches R mean v) as Hbv by (apply breach_spec; done).
    assert (bl_streak b + 1 <= ac_sustained_ticks cfg ->
      forall x, x ∈ lastn (Z.to_nat (bl_streak b + 1)) (hist ++ [v]) -> breaches R mean x) as Hall.
    { intros Hle x. replace (Z.to_nat (bl_streak b + 1)) with (S (Z.to_nat (bl_streak b))) by lia. rewrite lastn_S_snoc.
      intros [Hx| ->%list_elem_of_singleton]%elem_of_app; [|done].
      destruct (decide (bl_streak b = 0)) as [H0|Hn0].
      - rewrite H0 in Hx. unfold lastn in Hx. rewrite drop_ge in Hx by (simpl; lia). by apply not_elem_of_nil in Hx.
      - destruct (Hfr ltac:(lia)) as [mean' Hm]. destruct (Hm x Hx) as (Hl & Hmean & Hrest).
        destruct Hbv as (_ & Hmean' & _). rewrite Hmean in Hmean'. injection Hmean' as <-. done. }
    destruct (Z.eqb_spec (bl_streak b + 1) (ac_sustained_ticks cfg)) as [Hfire|Hnf].
    + destruct (fdiv v mean) as [factor|e]; simpl; [|done].
      assert (frozen cfg (bl_streak b + 1) = false) as Hf by (unfold frozen; apply andb_false_iff; right; apply Z.ltb_ge; lia).
      rewrite Hf. destruct (push_minute _ _ _ _ _) as [[d|e] ws]; intros [= <- <-].
      split; [apply Hfree; [done|rewrite length_app; simpl; lia]|].
      exists mean. simpl. split_and!; [done|rewrite length_app; simpl; lia|done|done|apply Hall; lia].
    + destruct (frozen cfg (bl_streak b + 1)) eqn:Hf.
      * intros [= <- <-]. split; [|done]. split; simpl; [rewrite length_app; simpl; lia|]. intros Hr. exists mean. apply Hall. lia.
      * destruct (push_minute _ _ _ _ _) as [[d|e] ws]; intros [= <- <-]. split; [|done].
        apply Hfree; [done|]. rewrite length_app. simpl. lia.
Qed.

Lemma observe_run_streak (vs hist : list float64) (b b' : Baseline) (ss : list (option ResourceSignal)) :
  streak_ok hist b -> observe_run vs b = Some (ss, b') -> streak_ok (hist ++ vs) b'.
Proof.
  revert hist b ss. induction vs as [|v vs IH]; intros hist b ss Hok; simpl.
  - intros [= <- <-]. by rewrite app_nil_r.
  - destruct (observe_sample _ _ _ _ _ _ _) as [[s|e] b1] eqn:Hs; [|done].
    intros ([ss' b2] & Hrun & [= <- <-])%bind_Some.
    destruct (streak_step hist b b1 v s Hok Hs) as [Hok1 _]. change (hist ++ v :: vs) with (hist ++ [v] ++ vs). rewrite app_assoc. by eapply IH.
Qed.

Lemma observe_breach (b : Baseline) (v mean : float64) :
  breaches (ring (bl_stats b) W1h) mean v -> 0 <= bl_streak b ->
  (bl_streak b + 1 < ac_sustained_ticks cfg ->
     observe_sample cfg sq key unit m v b = (Ok None, mkBaseline (bl_stats b) (bl_streak b + 1)))
  /\ (bl_streak b + 1 = ac_sustained_ticks cfg ->
      exists factor, observe_sample cfg sq key unit m v b =
        (let '(r, ws) := push_minute sq (ac_min_samples cfg) finf v (bl_stats b) in
         (match r with
          | Ok _ => Ok (Some (mkResourceSignal key unit m v mean factor (String.eqb key "self")))
          | Err e => Err e
          end, mkBaseline ws (bl_streak b + 1)))).
Proof.
  intros Hb H0. unfold observe_sample, judge_sample. pose proof (proj1 (breach_spec _ _ _) Hb) as [Hlong ->].
  rewrite (proj2 (Z.ltb_ge _ _)) by done. cbn [mbind result_bind]. split; intros Hn.
  - rewrite (proj2 (Z.eqb_neq _ _)) by lia. unfold frozen.
    by rewrite (proj2 (Z.ltb_lt 0 (bl_streak b + 1))), (proj2 (Z.ltb_lt (bl_streak b + 1) _)) by lia.
  - rewrite (proj2 (Z.eqb_eq _ _)) by done. destruct Hb as (_ & _ & Hpos & _).
    unfold fdiv. destruct (is_zero mean) eqn:Hz; [by destruct mean|]. cbn [mbind result_bind].
    unfold frozen. rewrite (proj2 (Z.ltb_ge (bl_streak b + 1) _)), andb_false_r by lia. by eexists.
Qed.

Lemma fired_streak (v : float64) (b b' : Baseline) (sig : ResourceSignal) :
  observe_sample cfg sq key unit m v b = (Ok (Some sig), b') ->
  bl_streak b' = bl_streak b + 1 /\ bl_streak b < ac_sustained_ticks cfg.
Proof.
  unfold observe_sample, judge_sample. destruct (_ <? _).
  - destruct (frozen cfg (bl_streak b)); [done|]. by destruct (push_minute _ _ _ _ _) as [[]].
  - destruct (breach _ _ _) as [[mean|]|]; simpl; [| |done].
    2:{ by destruct (push_minute _ _ _ _ _) as [[]]. }
    destruct (Z.eqb_spec (bl_streak b + 1) (ac_sustained_ticks cfg)) as [He|].
    + destruct (fdiv v mean); simpl; [|done]. destruct (frozen _ _); [|destruct (push_minute _ _ _ _ _) as [[]]];
        intros [= <- <-]; simpl; lia.
    + destruct (frozen _ _); [done|]. by destruct (push_minute _ _ _ _ _) as [[]].
Qed.

Lemma observe_run_app (vs ws : list float64) (b : Baseline) :
  observe_run (vs ++ ws) b = '(ss, b1) ← observe_run vs b; '(ss', b2) ← observe_run ws b1; Some (ss ++ ss', b2).
Proof.
  revert b. induction vs as [|v vs IH]; intros b; simpl.
  - by destruct (observe_run ws b) as [[ss' b2]|].
  - destruct (observe_sample _ _ _ _ _ _ _) as [[s|e] b1]; [|done]. rewrite IH.
    destruct (observe_run vs b1) as [[ss b2]|]; [|done]. simpl. by destruct (observe_run ws b2) as [[ss' b3]|].
Qed.

Lemma observe_run_growing (vs : list float64) (b : Baseline) (mean : float64) :
  (forall x, x ∈ vs -> breaches (ring (bl_stats b) W1h) mean x) -> 0 <= bl_streak b ->
  bl_streak b + Z.of_nat (length vs) < ac_sustained_ticks cfg ->
  observe_run vs b = Some (replicate (length vs) None, mkBaseline (bl_stats b) (bl_streak b + Z.of_nat (length vs))).
Proof.
  revert b. induction vs as [|v vs IH]; intros b Hb H0 Hn.
  - simpl. rewrite Z.add_0_r. by destruct b.
  - cbn [length] in Hn. simpl observe_run.
    rewrite (proj1 (observe_breach b v mean (Hb v ltac:(by left)) H0)) by lia.
    rewrite (IH (mkBaseline (bl_stats b) (bl_streak b + 1))); simpl; [|intros x Hx; apply Hb; by right|lia|lia].
    do 3 f_equal. lia.
Qed.
End Sustained.

(** The beacon tracker decides exactly on arrival times. While the
    observed keys fit its bound, whatever their order, the result of each
    observation is the periodicity test applied to the last 32 gaps between
    the arrivals of its own key so far; with a positive minimal count that
    test never divides by zero. *)
Theorem beacon_hits_exact (cfg : AnomalyConfig) (sq : float64 -> result PyErr float64) (obs : list Observation)
    (i : nat) (o : Observation) :
  (forall x, sq x <> Err ZeroDivisionError) -> 1 <= ac_beacon_min_events cfg ->
  fits cfg obs -> Forall (fun o => is_ok (timestamp (ob_ts o)) = true) obs -> obs !! i = Some o ->
  let intervals := lastn RING_SIZE (gaps (arrivals (ob_key o) (take (S i) obs))) in
  (observe_list cfg sq obs beacon_init).1 !! i
    = Some (beacon_evaluate cfg sq intervals (ob_process o) (ob_ip o) (ob_port o) (ob_key o))
  /\ beacon_evaluate cfg sq intervals (ob_process o) (ob_ip o) (ob_port o) (ob_key o) <> Err ZeroDivisionError.
Proof.
  intros Hsq Hmin Hfit Hts Hi intervals. split.
  - apply (observe_list_spec cfg sq obs [] beacon_init); [|done|done|done].
    split; simpl; [constructor|intros k; set_solver|done].
  - apply beacon_evaluate_no_div; [done|done|]. unfold intervals. rewrite lastn_length. lia.
Qed.

(** The sustained rule of the resource sampler, over any samples of a
    metric from a fresh baseline. A signal means that the last
    [sustained_ticks] samples, this one included, all exceeded the factor
    times the mean of one and the same ring, the one the signal reports.
    Conversely, once the streak is over, that many samples above the ring as
    it then is raise a signal at the last of them and not before; and a streak
    that has already signalled does not again. *)
Theorem sustained_rule (cfg : AnomalyConfig) (sq : float64 -> result PyErr float64) (key : string) (unit : option string)
    (m : Metric) (hist : list float64) (ss : list (option ResourceSignal)) (b : Baseline) (v : float64) :
  observe_run cfg sq key unit m hist baseline_init = Some (ss, b) ->
  (forall sig b', observe_sample cfg sq key unit m v b = (Ok (Some sig), b') ->
     1 <= ac_sustained_ticks cfg <= Z.of_nat (length (hist ++ [v]))
     /\ bl_streak b < ac_sustained_ticks cfg
     /\ rs_observed sig = v
     /\ forall x, x ∈ lastn (Z.to_nat (ac_sustained_ticks cfg)) (hist ++ [v]) ->
          breaches cfg (ring (bl_stats b) W1h) (rs_mean sig) x)
  /\ (forall vs mean, bl_streak b = 0 -> Z.of_nat (length (vs ++ [v])) = ac_sustained_ticks cfg ->
        (forall x, x ∈ vs ++ [v] -> breaches cfg (ring (bl_stats b) W1h) mean x) ->
        is_ok (push_minute sq (ac_min_samples cfg) finf v (bl_stats b)).1 = true ->
        exists sig b', observe_run cfg sq key unit m (vs ++ [v]) b = Some (replicate (length vs) None ++ [Some sig], b')
          /\ rs_observed sig = v /\ rs_mean sig = mean).
Proof.
  intros Hrun.
  assert (streak_ok cfg hist b) as Hok.
  { apply (observe_run_streak cfg sq key unit m hist [] baseline_init b ss); [|done]. split; simpl; [lia|lia]. }
  split.
  - intros sig b' Hs. destruct (streak_step cfg sq key unit m hist b b' v (Some sig) Hok Hs) as [_ (mean & Hst & Hle & Ho & <- & Hall)].
    rewrite Hst in *.
    destruct (fired_streak cfg sq key unit m v b b' sig Hs) as [Hinc Hlt].
    destruct Hok as [[H0 _] _]. split_and!; [lia|done|lia|done|done].
  - intros vs mean H0 Hn Hall Hpush. rewrite length_app in Hn. simpl in Hn. rewrite observe_run_app.
    rewrite (observe_run_growing cfg sq key unit m vs b mean); [|intros x Hx; apply Hall; set_solver|lia|lia].
    set (b1 := mkBaseline _ _).
    destruct (proj2 (observe_breach cfg sq key unit m b1 v mean (Hall v ltac:(set_solver)) ltac:(simpl; lia)) ltac:(simpl; lia))
      as [factor Hlast].
    cbn [mbind option_bind observe_run]. rewrite Hlast. simpl.
    destruct (push_minute _ _ _ _ _) as [[d|e] ws]; [|done]. simpl. by eexists _, _.
Qed.

Module TrackerExample.
Definition cfg : AnomalyConfig :=
  mkAnomalyConfig true (float_lit 60 1) (float_lit 3 1) 2 (float_lit 300 1) 4
    2 (float_lit 5 1) (float_lit 3600 1) (float_lit 1 10) (float_lit 30 1) (float_lit 2 1) 2.
Definition obs : list Observation :=
  (fun t => mkObs "curl" "10.0.0.9" 443 (t * 1000000)) <$> [1000; 1060; 1120; 1180].
Definition hit : BeaconHit :=
  mkHit "curl" "10.0.0.9" 443 "curl->10.0.0.9:443" 3 (float_lit 60 1) fzero fzero.
Definition calm : list float64 := [float_lit 10 1; float_lit 11 1; float_lit 10 1].
Definition calm_mean : float64 := match py_mean calm with Ok mean => mean | Err _ => fzero end.
End TrackerExample.

Lemma beacon_hits_exact_witness :
  (observe_list TrackerExample.cfg square TrackerExample.obs beacon_init).1 !! 3%nat = Some (Ok (Some TrackerExample.hit)).
Proof.
  destruct (beacon_hits_exact TrackerExample.cfg square TrackerExample.obs 3
    (mkObs "curl" "10.0.0.9" 443 1180000000) square_no_div) as [-> _].
  - vm_compute. discriminate.
  - vm_compute. discriminate.
  - repeat constructor.
  - reflexivity.
  - vm_compute. reflexivity.
Defined.

Lemma sustained_rule_witness :
  exists b sig b',
    observe_run TrackerExample.cfg square "svc:a" (Some "a"%string) RssBytes TrackerExample.calm baseline_init
      = Some ([None; None; None], b)
    /\ observe_run TrackerExample.cfg square "svc:a" (Some "a"%string) RssBytes ([float_lit 90 1] ++ [float_lit 95 1]) b
      = Some ([None] ++ [Some sig], b')
    /\ rs_observed sig = float_lit 95 1.
Proof.
  destruct (observe_run TrackerExample.cfg square "svc:a" (Some "a"%string) RssBytes TrackerExample.calm baseline_init)
    as [[ss b]|] eqn:Hrun; [|vm_compute in Hrun; discriminate].
  pose proof (sustained_rule TrackerExample.cfg square "svc:a" (Some "a"%string) RssBytes TrackerExample.calm ss b
    (float_lit 95 1) Hrun) as [_ Hfires].
  vm_compute in Hrun. injection Hrun as <- <-.
  destruct (Hfires [float_lit 90 1] TrackerExample.calm_mean) as (sig & b' & H1 & H2 & _).
  - reflexivity.
  - reflexivity.
  - intros x [->|[->|[]%not_elem_of_nil]%elem_of_cons]%elem_of_cons; (split; [vm_compute; discriminate|]);
      split_and!; vm_compute; reflexivity.
  - vm_compute. reflexivity.
  - eexists _, sig, b'. split; [reflexivity|]. split; [exact H1|exact H2].
Defined.
