(* ===== verification/AnomalyDetector.v ===== *)
(** * The anomaly detector thread ([anomaly/detector.py])

    The events a breach is reported as, the checkpoint table with its loading
    and rewriting, and the two periodic jobs of the thread. The texts of
    formatted numbers, [round] and the place of a float in an event are
    parameters: no decision depends on them. The em dash of two messages is
    outside the modelled characters and written as a hyphen. *)

From S2P Require Import Prelude Schemas RuleEval Vuln Enrichment Float64 AnomalyStats AnomalyTrackers.

(** ** Signal events *)

Definition bucket_label (w : Window) : string :=
  match w with W1h => "per minute" | W24h => "per 5 min" | W7d => "per 15 min" end.

Definition RESOURCE_CHECKPOINT_MAX_AGE_S : Z := 86400.

Section Events.
Context (py_float : float64 -> pyval) (fmt : string -> float64 -> string) (round : float64 -> Z -> float64).

Fixpoint py_of_json (v : jval) : pyval :=
  match v with
  | JNull => PNone
  | JBool b => PBool b
  | JInt z => PInt z
  | JFloat f => py_float f
  | JStr s => PStr s
  | JList l => PList (py_of_json <$> l)
  | JDict d => PDict ((fun p => (p.1, py_of_json p.2)) <$> d)
  end.

(** [data.entity.get(block)]. *)
Definition entity_block (entity : Entity) (block : string) : option dict :=
  match od_get block entity with
  | Some d => Some ((fun p => (p.1, py_of_json p.2)) <$> d)
  | None => None
  end.

(** The arguments all three kinds of event share. *)
Definition signal_args (action message : string) (now : Z) (process user file destination service : option dict) : EventArgs :=
  {| a_module := "anomaly_detector"; a_action := action; a_category := ["anomaly"%string]; a_type := ["info"%string];
     a_severity := "info"; a_kind := "signal"; a_host := None; a_outcome := None; a_message := Some message;
     a_process := process; a_file := file; a_user := user; a_source := None; a_destination := destination;
     a_network := None; a_service := service; a_package := None; a_device := None; a_persistence := None;
     a_vulnerability := None; a_hunt := None; a_threat := None; a_raw := None; a_labels := None;
     a_ts := Some now; a_first_seen := false |}.

(** [build_event] and then [ev.baseline = ...]. *)
Definition with_baseline (event_id : string) (args : EventArgs) (now : Z) (b : dict) : option Event :=
  Enrichment.set_baseline b <$> build_event now event_id args.

Definition signal_event (data : SignalData) (now : Z) (event_id : string) : option Event :=
  let w := sg_window data in
  let message := (sg_metric_kind data +:+ " for " +:+ sg_entity_key data +:+ " deviates from baseline: observed "
    +:+ fmt "g" (sg_observed data) +:+ " vs mean " +:+ fmt "g" (sg_mean data) +:+ " (" +:+ bucket_label w
    +:+ ", z=" +:+ fmt ".1f" (sg_z data) +:+ ", " +:+ window_name w +:+ " window)")%string in
  with_baseline event_id
    (signal_args "metric_anomaly" message now (entity_block (sg_entity data) "process") (entity_block (sg_entity data) "user")
       (entity_block (sg_entity data) "file") None None) now
    [("metric_kind", PStr (sg_metric_kind data)); ("entity_key", PStr (sg_entity_key data));
     ("window", PStr (window_name w)); ("bucket_label", PStr (bucket_label w));
     ("observed", py_float (sg_observed data)); ("mean", py_float (sg_mean data));
     ("stddev", py_float (sg_stddev data)); ("deviation", py_float (round (sg_z data) 2))]%string.

Definition beacon_event (hit : BeaconHit) (now : Z) (event_id : string) : option Event :=
  let message := (bh_process_name hit +:+ " connects to " +:+ bh_dst_ip hit +:+ ":" +:+ str_of_Z (bh_dst_port hit)
    +:+ " every ~" +:+ fmt ".0f" (bh_mean_interval_s hit) +:+ "s (cv=" +:+ fmt ".3f" (bh_cv hit)
    +:+ ", n=" +:+ str_of_Z (bh_count hit) +:+ ") - low-variance periodic egress")%string in
  with_baseline event_id
    (signal_args "beacon_signature" message now (Some [("name", PStr (bh_process_name hit))]%string) None None
       (Some [("ip", PStr (bh_dst_ip hit)); ("port", PInt (bh_dst_port hit))]%string) None) now
    [("metric_kind", PStr "beacon"); ("entity_key", PStr (bh_entity_key hit)); ("count", PInt (bh_count hit));
     ("interval_mean_s", py_float (round (bh_mean_interval_s hit) 1));
     ("interval_stddev_s", py_float (round (bh_stddev_interval_s hit) 2)); ("cv", py_float (round (bh_cv hit) 3))]%string.

Definition mib : float64 := float_lit 1048576 1.
Definition in_mib (x : float64) : float64 := match fdiv x mib with Ok y => y | Err _ => x end.

(** [if unit]: an empty name counts as none. *)
Definition named_unit (unit : option string) : option string :=
  match unit with Some EmptyString | None => None | Some u => Some u end.

Definition resource_event (sig : ResourceSignal) (now : Z) (event_id : string) : option Event :=
  let action := if rs_is_self sig then "monitor_health_anomaly"%string else "resource_deviation"%string in
  let subject := if rs_is_self sig then "inspectord"%string else default (rs_entity_key sig) (named_unit (rs_unit sig)) in
  let detail := match rs_metric sig with
    | CpuPct => ("CPU " +:+ fmt ".1f" (rs_observed sig) +:+ "% vs baseline " +:+ fmt ".1f" (rs_mean sig) +:+ "%")%string
    | RssBytes => ("RSS " +:+ fmt ".0f" (in_mib (rs_observed sig)) +:+ " MiB vs baseline "
                   +:+ fmt ".0f" (in_mib (rs_mean sig)) +:+ " MiB")%string
    end in
  let message := (subject +:+ ": sustained resource deviation - " +:+ detail +:+ " (" +:+ fmt ".1f" (rs_factor sig)
    +:+ "x baseline)")%string in
  with_baseline event_id
    (signal_args action message now (if rs_is_self sig then Some [("name", PStr "inspectord")]%string else None) None None None
       ((fun u => [("name", PStr u)]%string) <$> named_unit (rs_unit sig))) now
    [("metric_kind", PStr (metric_name (rs_metric sig))); ("entity_key", PStr (rs_entity_key sig));
     ("observed", py_float (round (rs_observed sig) 2)); ("mean", py_float (round (rs_mean sig) 2));
     ("deviation", py_float (round (rs_factor sig) 2))]%string.
End Events.

(** ** The detector

    A row of [metric_baseline] with the second it was written; the tables, the
    router subscription and the clock are part of the state. [dt_emitted] is
    what was handed to [emit]. *)

Record Detector {T : Type} := mkDetector {
  dt_engine : MetricEngine;
  dt_beacon : BeaconTracker;
  dt_sampler : ResourceSampler;
  dt_tracker : Tracker;
  dt_last_checkpoint : float64;
  dt_queue : list Event;
  dt_table : list (BaselineRow T * Z);
  dt_first_seen : list SightingRow;
  dt_emitted : list Event;
}.
Arguments Detector : clear implicits.

Section DetectorOps.
Context {T : Type} `{JsonText T} (float_parse : string -> option float64) (cfg : AnomalyConfig).

Definition detector_init (mono : float64) (tracker : Tracker) (table : list (BaselineRow T * Z)) (first_seen : list SightingRow)
  : Detector T :=
  mkDetector T engine_init beacon_init [] tracker mono [] table first_seen [].

Definition set_table (t : list (BaselineRow T * Z)) (d : Detector T) : Detector T :=
  mkDetector T (dt_engine d) (dt_beacon d) (dt_sampler d) (dt_tracker d) (dt_last_checkpoint d) (dt_queue d) t
    (dt_first_seen d) (dt_emitted d).

(** Run a component on its part of the state. *)
Definition on_engine {A} (m : ST MetricEngine A) : ST (Detector T) A := fun d =>
  let '(r, e) := m (dt_engine d) in
  (r, mkDetector T e (dt_beacon d) (dt_sampler d) (dt_tracker d) (dt_last_checkpoint d) (dt_queue d) (dt_table d)
        (dt_first_seen d) (dt_emitted d)).
Definition on_beacon {A} (m : ST BeaconTracker A) : ST (Detector T) A := fun d =>
  let '(r, b) := m (dt_beacon d) in
  (r, mkDetector T (dt_engine d) b (dt_sampler d) (dt_tracker d) (dt_last_checkpoint d) (dt_queue d) (dt_table d)
        (dt_first_seen d) (dt_emitted d)).
Definition on_sampler {A} (m : ST ResourceSampler A) : ST (Detector T) A := fun d =>
  let '(r, s) := m (dt_sampler d) in
  (r, mkDetector T (dt_engine d) (dt_beacon d) s (dt_tracker d) (dt_last_checkpoint d) (dt_queue d) (dt_table d)
        (dt_first_seen d) (dt_emitted d)).

(** *** Checkpoints *)

Definition row_key (r : BaselineRow T) : string * string * string := r.1.

(** [_delete_checkpoint_row]; a failure is logged. *)
Definition delete_checkpoint_row (ok : bool) (r : BaselineRow T) (d : Detector T) : Detector T :=
  if ok then set_table (filter (fun x => row_key x.1 <> row_key r) (dt_table d)) d else d.

(** The body of the loop of [load_checkpoints]; 1 when the row was loaded. *)
Definition load_checkpoint (now_s : Z) (delete_ok : bool) (x : BaselineRow T * Z) : ST (Detector T) Z :=
  let '(metric_kind, entity_key, window_name, blob) := x.1 in
  let drop := (do! st_modify (delete_checkpoint_row delete_ok x.1); st_ret 0)%st in
  if startswith "resource." metric_kind && (RESOURCE_CHECKPOINT_MAX_AGE_S <? now_s - x.2) then drop
  else
    (let! ok := (if startswith "resource." metric_kind then
                   on_sampler (sampler_load_row float_parse metric_kind entity_key window_name blob)
                 else if String.eqb window_name "beacon" then on_beacon (beacon_load_row float_parse cfg entity_key blob)
                 else on_engine (load_row float_parse cfg metric_kind entity_key window_name blob)) in
     if ok then st_ret 1 else drop)%st.

Fixpoint load_all (now_s : Z) (delete_ok : bool) (rows : list (BaselineRow T * Z)) : ST (Detector T) Z :=
  match rows with
  | [] => st_ret 0
  | x :: rows' =>
      (let! n := load_checkpoint now_s delete_ok x in let! m := load_all now_s delete_ok rows' in st_ret (n + m))%st
  end.

(** [rows] is what the query returned, in whatever order; [None] when it
    raised. *)
Definition load_checkpoints (now_s : Z) (delete_ok : bool) (rows : option (list (BaselineRow T * Z))) : ST (Detector T) Z :=
  match rows with
  | None => st_ret 0
  | Some rows => load_all now_s delete_ok rows
  end.

Definition checkpoint_rows (d : Detector T) : list (BaselineRow T) :=
  engine_rows (dt_engine d) ++ beacon_rows (dt_beacon d) ++ sampler_rows (dt_sampler d).

(** The transaction replaces the table, or leaves it: when the database fails
    or two rows share the primary key. *)
Definition checkpoint (db_ok : bool) (now_s : Z) (mono : float64) : ST (Detector T) unit :=
  (let! d := st_get in
   let rows := checkpoint_rows d in
   do! on_engine drain_evicted;
   if db_ok && bool_decide (NoDup (row_key <$> rows)) then
     st_modify (fun d =>
       mkDetector T (dt_engine d) (dt_beacon d) (dt_sampler d) (dt_tracker d) mono (dt_queue d)
         ((fun r => (r, now_s)) <$> rows) (dt_first_seen d) (dt_emitted d))
   else st_raise DbError)%st.

(** *** The thread *)

Context (sq : float64 -> result PyErr float64) (str_other : pyval -> string) (clk_tck : Z).
Context (py_float : float64 -> pyval) (fmt : string -> float64 -> string) (round : float64 -> Z -> float64).

(** [emit], which may raise; [None] when the detector has none. The ids of
    the events are fresh. *)
Context (emit : option (Event -> bool)) (fresh_id : nat -> string).

Definition hand_over (render : string -> option Event) : ST (Detector T) unit := fun d =>
  match emit with
  | None => (Ok tt, d)
  | Some accepts =>
      match render (fresh_id (length (dt_emitted d))) with
      | None => (Err ValueError, d)
      | Some ev =>
          let d' := mkDetector T (dt_engine d) (dt_beacon d) (dt_sampler d) (dt_tracker d) (dt_last_checkpoint d) (dt_queue d)
            (dt_table d) (dt_first_seen d) (dt_emitted d ++ [ev]) in
          (if accepts ev then Ok tt else Err DbError, d')
      end
  end.

Fixpoint hand_over_all {A} (render : A -> string -> option Event) (l : list A) : ST (Detector T) unit :=
  match l with
  | [] => st_ret tt
  | x :: l' => (do! hand_over (render x); hand_over_all render l')%st
  end.

(** [_sample_resources]; [units] is [None] when the query raised, and what
    the sampling raises is logged. *)
Definition sample_resources (pw : ProcWorld) (self_pid : Z) (units : option (list string)) (mono : float64) (now : Z)
    (d : Detector T) : Detector T :=
  ((let! signals := on_sampler (sample cfg sq clk_tck pw self_pid (default [] units) mono) in
    hand_over_all (fun sig => resource_event py_float fmt round sig now) signals)%st d).2.

Definition observe_beacon (ev : Event) : ST BeaconTracker (option BeaconHit) :=
  let name := dict_get "name" (block_or_empty (ev_process ev)) in
  let ip := dict_get "ip" (block_or_empty (ev_destination ev)) in
  let port := dict_get "port" (block_or_empty (ev_destination ev)) in
  if negb (String.eqb (ev_action ev) "outbound_connection") then st_ret None
  else if negb (truthy name) || negb (truthy ip) then st_ret None
  else
    match port with
    | PInt p => beacon_observe cfg sq (py_str str_other name) (py_str str_other ip) p (ev_ts ev)
    | PBool b => beacon_observe cfg sq (py_str str_other name) (py_str str_other ip) (if b then 1 else 0) (ev_ts ev)
    | _ => st_ret None
    end.

(** One event of the subscription; the hits are kept per key, the last one
    wins. *)
Definition absorb (ev : Event) : ST (Detector T) (option BeaconHit) :=
  (let! samples := st_lift (extract_samples str_other ev) in
   do! on_engine (st_collect (fun s => (do! ingest cfg s (ev_ts ev); st_ret (@nil unit))%st) samples);
   on_beacon (observe_beacon ev))%st.

Definition pop_event (d : Detector T) : Detector T :=
  mkDetector T (dt_engine d) (dt_beacon d) (dt_sampler d) (dt_tracker d) (dt_last_checkpoint d) (tail (dt_queue d)) (dt_table d)
    (dt_first_seen d) (dt_emitted d).
Fixpoint drain (n : nat) (hits : list (string * BeaconHit)) : ST (Detector T) (list (string * BeaconHit)) :=
  match n with
  | O => st_ret hits
  | S n' => fun d =>
      match dt_queue d with
      | [] => (Ok hits, d)
      | ev :: _ =>
          (do! st_modify pop_event;
           let! hit := absorb ev in
           drain n' (match hit with Some h => od_set (bh_entity_key h) h hits | None => hits end))%st d
      end
  end.

(** [self._tracker.flush(self._db)], its exception logged. *)
Definition flush_tracker (ok : nat -> bool) (d : Detector T) : Detector T :=
  let '(t, rows) := flush ok (dt_tracker d) (dt_first_seen d) in
  mkDetector T (dt_engine d) (dt_beacon d) (dt_sampler d) t (dt_last_checkpoint d) (dt_queue d) (dt_table d) rows (dt_emitted d).

(** What a tick reads of the world. *)
Record TickIn := mkTickIn {
  ti_flush_ok : nat -> bool; ti_db_ok : bool; ti_now : Z; ti_now_s : Z; ti_mono : float64;
}.

Definition tick_body (i : TickIn) : ST (Detector T) unit :=
  (let! d := st_get in
   let! hits := drain (length (dt_queue d)) [] in
   let! signals := on_engine (tick cfg sq (ti_now i)) in
   do! hand_over_all (fun data => signal_event py_float fmt round data (ti_now i)) signals;
   do! hand_over_all (fun hit => beacon_event py_float fmt round hit (ti_now i)) hits.*2;
   let! d := st_get in
   if fle (ac_checkpoint_interval_s cfg) (fsub (ti_mono i) (dt_last_checkpoint d))
   then checkpoint (ti_db_ok i) (ti_now_s i) (ti_mono i) else st_ret tt)%st.

(** [_tick]: the exceptions of the body are logged. *)
Definition detector_tick (i : TickIn) (d : Detector T) : Detector T :=
  (tick_body i (flush_tracker (ti_flush_ok i) d)).2.

(** [stop], after the join: the final flush and checkpoint, unless the thread
    is still alive. *)
Definition stop (alive : bool) (i : TickIn) (d : Detector T) : Detector T :=
  if alive then d else (checkpoint (ti_db_ok i) (ti_now_s i) (ti_mono i) (flush_tracker (ti_flush_ok i) d)).2.

(** [_run]: one wake-up at [mono] against the two deadlines: what is due, and
    the next deadlines. *)
Definition wake (next_tick next_res mono : float64) : bool * bool * float64 * float64 :=
  let res := fle next_res mono in
  let main := fle next_tick mono in
  (res, main, if main then fadd mono (ac_tick_s cfg) else next_tick, if res then fadd mono (ac_resource_tick_s cfg) else next_res).
End DetectorOps.
