(* ===== verification/CheckpointProofs.v ===== *)
(** * Checkpoints survive a restart

    What [load_checkpoints] makes of the table [checkpoint] wrote, and what it
    does on a row it cannot read. *)

From S2P Require Import Prelude Schemas RuleEval Vuln Enrichment Float64 AnomalyStats AnomalyProofs AnomalyTrackers AnomalyDetector.

Abbreviation RowKey := (string * string * string)%type.

(** ** Windows *)

Section Restore.
Context {T : Type} `{JsonText T} (float_parse : string -> option float64).
Context (json_roundtrip : forall v, json_load (json_dump v : T) = Some v).

Lemma jfloats_map (l : list float64) : jfloats float_parse (JFloat <$> l) = Ok l.
Proof. induction l as [|x l IH]; [done|]. csimpl. by rewrite IH. Qed.

(** [ws0] with the window [w] of [ws]. *)
Definition restore (w : Window) (ws ws0 : WindowedStats) : WindowedStats :=
  match accum ws w with Some a => set_accum w a | None => id end (set_ring w (ring ws w) ws0).

Definition fits_rings (ws : WindowedStats) : Prop := forall w, (length (ring ws w) <= capacity w)%nat.

Lemma load_serialized (w : Window) (ws ws0 : WindowedStats) :
  (length (ring ws w) <= capacity w)%nat ->
  load_window float_parse (window_name w) (serialize_window ws w : T) ws0 = (Ok true, restore w ws ws0).
Proof.
  intros Hlen. unfold load_window, serialize_window.
  assert (window_of (window_name w) = Some w) as -> by by destruct w.
  rewrite json_roundtrip. unfold parse_window. simpl.
  destruct w; simpl; [|destruct (acc_24h ws) as [t n] eqn:Ha|destruct (acc_7d ws) as [t n] eqn:Ha];
    rewrite jfloats_map; simpl; unfold restore; simpl; rewrite ?Ha, lastn_all by exact Hlen; done.
Qed.

(** ** The engine *)

Record engine_ok (cfg : AnomalyConfig) (e : MetricEngine) : Prop := {
  eo_nodup : NoDup (en_stats e).*1;
  eo_entities : forall k, is_Some (en_entities e !! k) <-> k ∈ (en_stats e).*1;
  eo_rings : forall k ws, od_get k (en_stats e) = Some ws -> fits_rings ws;
  eo_cap : forall metric, Z.of_nat (length (tracked metric e)) <= ac_max_entities_per_metric cfg;
  eo_kinds : forall k, k ∈ (en_stats e).*1 -> startswith "resource." k.1 = false /\ k.1 <> "beacon"%string;
}.

(** The part of [ws] whose rows have been read. *)
Definition seen_ring (seen : list RowKey) (k : Key) (ws : WindowedStats) (w : Window) : list float64 :=
  if decide ((k, window_name w) ∈ seen) then ring ws w else [].
Definition seen_accum (seen : list RowKey) (k : Key) (a : float64 * Z) (w : Window) : float64 * Z :=
  if decide ((k, window_name w) ∈ seen) then a else (fzero, 0).
Definition part (seen : list RowKey) (k : Key) (ws : WindowedStats) : WindowedStats :=
  mkWS (seen_ring seen k ws W1h) (seen_ring seen k ws W24h) (seen_ring seen k ws W7d)
    (seen_accum seen k (acc_24h ws) W24h) (seen_accum seen k (acc_7d ws) W7d).
Definition part_entity (seen : list RowKey) (k : Key) (e : MetricEngine) : Entity :=
  if decide ((k, "entity"%string) ∈ seen) then default [] (en_entities e !! k) else [].

Record engine_restored (e : MetricEngine) (seen : list RowKey) (e1 : MetricEngine) : Prop := {
  er_nodup : NoDup (en_stats e1).*1;
  er_stats : forall k, od_get k (en_stats e1) = if decide (k ∈ seen.*1) then part seen k <$> od_get k (en_stats e) else None;
  er_entities : forall k, en_entities e1 !! k =
    match od_get k (en_stats e1) with Some _ => Some (part_entity seen k e) | None => None end;
  er_evicted : en_evicted e1 = [];
}.

Lemma part_nil (seen : list RowKey) (k : Key) (ws : WindowedStats) : k ∉ seen.*1 -> part seen k ws = ws_init.
Proof.
  intros Hk. assert (forall n, (k, n) ∉ seen) as Hn by (intros n Hin; apply Hk, list_elem_of_fmap; by exists (k, n)).
  unfold part, seen_ring, seen_accum. by rewrite !decide_False by apply Hn.
Qed.
Lemma part_cons_ne (seen : list RowKey) (x : RowKey) (k : Key) (ws : WindowedStats) : x.1 <> k -> part (x :: seen) k ws = part seen k ws.
Proof.
  intros Hne. assert (forall n, (k, n) ∈ x :: seen <-> (k, n) ∈ seen) as Hiff.
  { intros n. rewrite elem_of_cons. split; [intros [<-|?]; [done|done]|by right]. }
  unfold part, seen_ring, seen_accum. f_equal; by apply decide_ext.
Qed.
Lemma part_cons_window (seen : list RowKey) (k : Key) (ws : WindowedStats) (w : Window) :
  part ((k, window_name w) :: seen) k ws = restore w ws (part seen k ws).
Proof.
  unfold part, restore, seen_ring, seen_accum.
  destruct w; simpl; f_equal;
    first [rewrite decide_True by (by left); done
          |apply decide_ext; rewrite elem_of_cons; split; [intros [?|?]; [discriminate|done]|by right]].
Qed.
Lemma part_cons_entity (seen : list RowKey) (k : Key) (ws : WindowedStats) : part ((k, "entity"%string) :: seen) k ws = part seen k ws.
Proof.
  assert (forall w, (k, window_name w) ∈ (k, "entity"%string) :: seen <-> (k, window_name w) ∈ seen) as Hiff.
  { intros w. rewrite elem_of_cons. split; [intros [Heq|?]; [|done]|by right]. exfalso. by destruct w. }
  unfold part, seen_ring, seen_accum. f_equal; by apply decide_ext.
Qed.
Lemma part_entity_cons (seen : list RowKey) (x : RowKey) (k : Key) (e : MetricEngine) :
  x <> (k, "entity"%string) -> part_entity (x :: seen) k e = part_entity seen k e.
Proof. intros Hne. unfold part_entity. apply decide_ext. rewrite elem_of_cons. naive_solver. Qed.

(** Following a key of the checkpoint never evicts. *)
Lemma restored_keys (e e1 : MetricEngine) (seen : list RowKey) (k : Key) :
  engine_restored e seen e1 -> k ∈ (en_stats e1).*1 -> k ∈ (en_stats e).*1 /\ k ∈ seen.*1.
Proof.
  intros Hr Hk. destruct (od_get k (en_stats e1)) as [ws|] eqn:Hg; [|by apply od_get_None in Hg].
  rewrite (er_stats _ _ _ Hr) in Hg. case_decide; [|done]. split; [|done].
  destruct (od_get k (en_stats e)) as [ws'|] eqn:Hg'; [|done]. by eapply od_get_Some_mem.
Qed.
Lemma restored_room (cfg : AnomalyConfig) (e e1 : MetricEngine) (seen : list RowKey) (k : Key) :
  engine_ok cfg e -> engine_restored e seen e1 -> k ∈ (en_stats e).*1 -> k ∉ (en_stats e1).*1 ->
  Z.of_nat (length (tracked k.1 e1)) < ac_max_entities_per_metric cfg.
Proof.
  intros Ho Hr Hk Hn. eapply Z.lt_le_trans; [|apply (eo_cap cfg e Ho k.1)]. apply inj_lt. unfold lt.
  change (S (length (tracked k.1 e1))) with (length (k :: tracked k.1 e1)).
  assert (forall x e', x ∈ tracked k.1 e' <-> x ∈ (en_stats e').*1 /\ x.1 = k.1) as Htr.
  { intros x e'. unfold tracked. rewrite !list_elem_of_In, List.filter_In, String.eqb_eq. done. }
  apply submseteq_length, NoDup_submseteq.
  - apply NoDup_cons. split; [rewrite Htr; tauto|]. apply NoDup_ListNoDup, List.NoDup_filter, NoDup_ListNoDup, Hr.
  - intros x [->|Hx]%elem_of_cons; apply Htr; [done|]. apply Htr in Hx as [Hx1 Hx2].
    split; [|done]. by apply (restored_keys _ _ _ _ Hr Hx1).
Qed.

Section EngineSteps.
Context (cfg : AnomalyConfig) (e : MetricEngine) (Hok : engine_ok cfg e).

(** Room for a key of the checkpoint is made without an eviction. *)
Lemma admit_restored (e1 : MetricEngine) (seen : list RowKey) (k : Key) (entity : Entity) :
  engine_restored e seen e1 -> k ∈ (en_stats e).*1 -> k ∉ (en_stats e1).*1 ->
  admit_key cfg k entity e1 = (Ok tt, install k entity e1).
Proof.
  intros Hr Hk Hn. unfold admit_key, st_bind, st_get.
  rewrite (proj2 (Z.leb_gt _ _)) by by eapply restored_room. done.
Qed.

(** Setting the statistics and the entity of a key of the checkpoint to what
    one more row says. *)
Lemma restored_step (e1 e2 : MetricEngine) (seen : list RowKey) (k : Key) (ws : WindowedStats) (name : string) :
  engine_restored e seen e1 -> od_get k (en_stats e) = Some ws ->
  en_stats e2 = od_set k (part ((k, name) :: seen) k ws) (en_stats e1) ->
  en_entities e2 = <[k := part_entity ((k, name) :: seen) k e]> (en_entities e1) ->
  en_evicted e2 = [] ->
  engine_restored e ((k, name) :: seen) e2.
Proof.
  intros [Hnd Hst Hen Hev] Hws H2 H3 H4. split; [rewrite H2; by apply od_set_nodup| | |done].
  - intros k'. rewrite H2, od_get_set. csimpl. destruct (decide (k' = k)) as [->|Hne].
    + rewrite decide_True by by left. by rewrite Hws.
    + rewrite Hst. destruct (decide (k' ∈ seen.*1)).
      * rewrite decide_True by by right. destruct (od_get k' (en_stats e)); [|done]. simpl. f_equal. symmetry. by apply part_cons_ne.
      * rewrite decide_False; [done|]. intros [?|?]%elem_of_cons; done.
  - intros k'. rewrite H2, od_get_set, H3. destruct (decide (k' = k)) as [->|Hne]; [by rewrite lookup_insert_eq|].
    rewrite lookup_insert_ne by done. rewrite Hen. destruct (od_get k' (en_stats e1)); [|done]. f_equal. symmetry.
    apply part_entity_cons. congruence.
Qed.

Lemma restored_entity_new (e1 : MetricEngine) (seen : list RowKey) (k : Key) :
  engine_restored e seen e1 -> k ∈ (en_stats e).*1 -> k ∉ (en_stats e1).*1 -> k ∉ seen.*1.
Proof.
  intros Hr Hk Hn Hin. apply od_get_None in Hn. rewrite (er_stats _ _ _ Hr), decide_True in Hn by done.
  destruct (od_get k (en_stats e)) eqn:Hg; [done|]. by apply od_get_None in Hg.
Qed.

Lemma load_window_row (e1 : MetricEngine) (seen : list RowKey) (k : Key) (ws : WindowedStats) (w : Window) :
  engine_restored e seen e1 -> od_get k (en_stats e) = Some ws ->
  exists e2, load_row float_parse cfg k.1 k.2 (window_name w) (serialize_window ws w : T) e1 = (Ok true, e2)
    /\ engine_restored e ((k, window_name w) :: seen) e2.
Proof.
  intros Hr Hws. pose proof (od_get_Some_mem _ _ _ Hws) as Hk. unfold load_row.
  assert (String.eqb (window_name w) "entity" = false) as -> by by destruct w.
  replace (k.1, k.2) with k by by destruct k.
  pose proof (load_serialized w ws (part seen k ws) (eo_rings cfg e Hok k ws Hws w)) as Hload.
  assert (part_entity ((k, window_name w) :: seen) k e = part_entity seen k e) as Hent
    by (apply part_entity_cons; by destruct w).
  unfold st_bind at 1, st_get. destruct (od_mem k (en_stats e1)) eqn:Hm; simpl.
  - unfold st_bind, st_ret. apply od_mem_true in Hm.
    assert (od_get k (en_stats e1) = Some (part seen k ws)) as Hg.
    { rewrite (er_stats _ _ _ Hr), decide_True, Hws by by eapply restored_keys. done. }
    rewrite Hg, Hload. eexists. split; [done|]. apply (restored_step e1 _ seen k ws); simpl; [done|done| | |apply Hr].
    + by rewrite part_cons_window.
    + rewrite insert_id; [done|]. rewrite (er_entities _ _ _ Hr), Hg. by rewrite Hent.
  - apply od_mem_false in Hm. unfold st_bind. rewrite (admit_restored e1 seen k [] Hr Hk Hm).
    pose proof (restored_entity_new e1 seen k Hr Hk Hm) as Hnew.
    simpl. rewrite od_get_set, decide_True by done. rewrite (part_nil seen k ws Hnew) in Hload. rewrite Hload.
    eexists. split; [done|]. apply (restored_step e1 _ seen k ws); simpl; [done|done| | |apply Hr].
    + rewrite part_cons_window, (part_nil seen k ws Hnew). apply od_set_set.
    + rewrite Hent. unfold part_entity. rewrite decide_False; [done|].
      intros Hin. apply Hnew, list_elem_of_fmap. by exists (k, "entity"%string).
Qed.

Lemma doc_entity_doc (entity : Entity) : doc_entity (entity_doc entity) = Some entity.
Proof.
  unfold doc_entity, entity_doc. apply mapM_Some, Forall2_fmap_l, Forall_Forall2_diag, Forall_forall. by intros [b d] _.
Qed.

Lemma load_entity_row_step (e1 : MetricEngine) (seen : list RowKey) (k : Key) (entity : Entity) :
  engine_restored e seen e1 -> en_entities e !! k = Some entity ->
  exists e2, load_row float_parse cfg k.1 k.2 "entity" (json_dump (entity_doc entity) : T) e1 = (Ok true, e2)
    /\ engine_restored e ((k, "entity"%string) :: seen) e2.
Proof.
  intros Hr Hent.
  assert (k ∈ (en_stats e).*1) as Hk by (apply (eo_entities cfg e Hok); by eexists).
  destruct (od_get k (en_stats e)) as [ws|] eqn:Hws; [|by apply od_get_None in Hws].
  assert (part_entity ((k, "entity"%string) :: seen) k e = entity) as Hpe.
  { unfold part_entity. rewrite decide_True by by left. by rewrite Hent. }
  unfold load_row. rewrite String.eqb_refl. replace (k.1, k.2) with k by by destruct k.
  unfold load_entity_row. rewrite json_roundtrip. cbn [mbind option_bind]. rewrite doc_entity_doc.
  unfold st_bind, st_get, st_modify, st_ret. simpl. destruct (od_mem k (en_stats e1)) eqn:Hm.
  - apply od_mem_true in Hm. eexists. split; [reflexivity|].
    apply (restored_step e1 _ seen k ws); simpl; [done|done| |by rewrite Hpe|apply Hr].
    rewrite part_cons_entity, od_set_id; [done|].
    rewrite (er_stats _ _ _ Hr), decide_True, Hws by by eapply restored_keys. done.
  - apply od_mem_false in Hm. rewrite (admit_restored e1 seen k entity Hr Hk Hm). eexists. split; [reflexivity|].
    apply (restored_step e1 _ seen k ws); simpl; [done|done| |by rewrite Hpe|apply Hr].
    by rewrite part_cons_entity, part_nil by (by eapply restored_entity_new).
Qed.

(** A row of the engine, whatever was read before. *)
Lemma load_engine_row (e1 : MetricEngine) (seen : list RowKey) (r : BaselineRow T) :
  engine_restored e seen e1 -> r ∈ engine_rows e ->
  exists e2, load_row float_parse cfg r.1.1.1 r.1.1.2 r.1.2 r.2 e1 = (Ok true, e2) /\ engine_restored e (r.1 :: seen) e2.
Proof.
  intros Hr. unfold engine_rows. rewrite list_elem_of_bind. intros ([k ws] & Hin & Hp).
  apply od_get_elem in Hp; [|apply Hok]. unfold key_rows in Hin. apply elem_of_app in Hin as [Hin|Hin].
  - apply list_elem_of_fmap in Hin as (w & -> & _). simpl. destruct k as [a b]. by apply load_window_row.
  - unfold entity_rows in Hin. simpl in Hin. destruct (en_entities e !! k) as [[|x entity]|] eqn:He; [by apply not_elem_of_nil in Hin| |by apply not_elem_of_nil in Hin].
    apply list_elem_of_singleton in Hin as ->. simpl. destruct k as [a b]. by apply load_entity_row_step.
Qed.
End EngineSteps.

(** ** The beacon tracker *)

Record beacon_ok (cfg : AnomalyConfig) (b : BeaconTracker) : Prop := {
  bo_nodup : NoDup (bt_keys b).*1;
  bo_cap : Z.of_nat (length (bt_keys b)) <= ac_max_entities_per_metric cfg;
  bo_rings : forall k st, od_get k (bt_keys b) = Some st -> (length (ks_intervals st) <= RING_SIZE)%nat;
}.

(** The gaps come back; the time of the last arrival deliberately does not. *)
Definition reloaded (st : KeyState) : KeyState := mkKeyState None (ks_intervals st).
Definition beacon_key (k : string) : RowKey := ("beacon", k, "beacon")%string.
Record beacon_restored (b : BeaconTracker) (seen : list RowKey) (b1 : BeaconTracker) : Prop := {
  br_nodup : NoDup (bt_keys b1).*1;
  br_keys : forall k, od_get k (bt_keys b1) = if decide (beacon_key k ∈ seen) then reloaded <$> od_get k (bt_keys b) else None;
}.

Lemma beacon_doc_parse (st : KeyState) : parse_beacon float_parse (beacon_doc st) = Ok (ks_last_ts st, ks_intervals st).
Proof. unfold parse_beacon, beacon_doc. destruct (ks_last_ts st); simpl; by rewrite jfloats_map. Qed.

Lemma load_beacon_row (cfg : AnomalyConfig) (b b1 : BeaconTracker) (seen : list RowKey) (k : string) (st : KeyState) :
  beacon_ok cfg b -> beacon_restored b seen b1 -> od_get k (bt_keys b) = Some st -> beacon_key k ∉ seen ->
  exists b2, beacon_load_row float_parse cfg k (json_dump (beacon_doc st) : T) b1 = (Ok true, b2)
    /\ beacon_restored b (beacon_key k :: seen) b2.
Proof.
  intros Ho [Hnd Hkeys] Hst Hns. unfold beacon_load_row. rewrite json_roundtrip, beacon_doc_parse.
  assert (k ∉ (bt_keys b1).*1) as Hn by (apply od_get_None; by rewrite Hkeys, decide_False).
  assert (Z.of_nat (length (bt_keys b1)) < ac_max_entities_per_metric cfg) as Hlt.
  { eapply Z.lt_le_trans; [|apply (bo_cap cfg b Ho)]. apply inj_lt. rewrite <- !(length_fmap fst). unfold lt.
    change (S (length (bt_keys b1).*1)) with (length (k :: (bt_keys b1).*1)).
    apply submseteq_length, NoDup_submseteq; [by apply NoDup_cons|].
    intros x [->|Hx]%elem_of_cons; [by eapply od_get_Some_mem|].
    destruct (od_get x (bt_keys b1)) as [st'|] eqn:Hg; [|by apply od_get_None in Hg]. rewrite Hkeys in Hg.
    case_decide; [|done]. destruct (od_get x (bt_keys b)) eqn:Hg'; [|done]. by eapply od_get_Some_mem. }
  unfold st_bind, beacon_admit. rewrite (proj2 (od_mem_false _ _) Hn), (proj2 (Z.leb_gt _ _)) by done.
  eexists. split; [reflexivity|]. split; simpl; [by do 2 apply od_set_nodup|].
  intros k'. rewrite !od_get_set, Hkeys. destruct (decide (k' = k)) as [->|Hne].
  - rewrite decide_True by by left. rewrite Hst. simpl. by rewrite lastn_all by (by apply (bo_rings cfg b Ho k)).
  - apply decide_ext. rewrite elem_of_cons. unfold beacon_key. split; [by right|]. intros [[= ?]|?]; [done|done].
Qed.

(** ** The resource sampler *)

Definition ring_1h (m : Metric) (st : EntityState) : list float64 := ring (bl_stats (baseline m st)) W1h.
Record sampler_ok (s : ResourceSampler) : Prop := {
  so_nodup : NoDup s.*1;
  so_rings : forall k st m, od_get k s = Some st -> (length (ring_1h m st) <= capacity W1h)%nat;
}.
Definition sampler_key (m : Metric) (k : string) : RowKey := ("resource." +:+ metric_name m, k, "1h")%string.
Definition rings_of (s : ResourceSampler) (k : string) (m : Metric) : list float64 :=
  match od_get k s with Some st => ring_1h m st | None => [] end.
(** Read rings are back, and nothing has a streak. *)
Record sampler_restored (s : ResourceSampler) (seen : list RowKey) (s1 : ResourceSampler) : Prop := {
  sr_nodup : NoDup s1.*1;
  sr_rings : forall k m, rings_of s1 k m = if decide (sampler_key m k ∈ seen) then rings_of s k m else [];
  sr_streaks : forall k st m, od_get k s1 = Some st -> bl_streak (baseline m st) = 0;
}.

Lemma metric_of_name (m : Metric) : metric_of (str_drop (String.length "resource.") ("resource." +:+ metric_name m)) = Some m.
Proof. by destruct m. Qed.

Lemma load_sampler_row (s s1 : ResourceSampler) (seen : list RowKey) (k : string) (st : EntityState) (m : Metric) :
  sampler_ok s -> sampler_restored s seen s1 -> od_get k s = Some st ->
  exists s2, sampler_load_row float_parse ("resource." +:+ metric_name m) k "1h" (serialize_window (bl_stats (baseline m st)) W1h : T) s1
      = (Ok true, s2)
    /\ sampler_restored s (sampler_key m k :: seen) s2.
Proof.
  intros Ho [Hnd Hrings Hstreaks] Hst. unfold sampler_load_row.
  rewrite startswith_app, String.eqb_refl, metric_of_name. cbn [negb orb].
  set (st1 := default entity_state_init (od_get k s1)).
  pose proof (load_serialized W1h (bl_stats (baseline m st)) (bl_stats (baseline m st1)) (so_rings s Ho k st m Hst)) as Hl.
  change (window_name W1h) with "1h"%string in Hl. rewrite Hl. eexists. split; [done|].
  assert (forall m', ring_1h m' st1 = rings_of s1 k m') as Hold.
  { intros m'. unfold rings_of, st1. destruct (od_get k s1); [done|]. by destruct m'. }
  split; [by apply od_set_nodup| |].
  - intros k' m'. unfold rings_of at 1. rewrite od_get_set. destruct (decide (k' = k)) as [->|Hne].
    + destruct (decide (m' = m)) as [->|Hm].
      * rewrite decide_True by by left. unfold rings_of. rewrite Hst. by destruct m.
      * replace (ring_1h m' _) with (ring_1h m' st1) by (by destruct m, m'). rewrite Hold, Hrings. apply decide_ext.
        rewrite elem_of_cons. split; [by right|]. intros [Heq|?]; [|done]. exfalso. by destruct m, m'.
    + fold (rings_of s1 k' m'). rewrite Hrings. apply decide_ext. rewrite elem_of_cons. split; [by right|].
      intros [Heq|?]; [|done]. exfalso. by injection Heq.
  - intros k' st' m'. rewrite od_get_set. destruct (decide (k' = k)) as [->|Hne]; [|apply Hstreaks]. intros [= <-].
    assert (bl_streak (baseline m' st1) = 0) as H0.
    { unfold st1. destruct (od_get k s1) eqn:Hg; [by eapply Hstreaks|by destruct m']. }
    assert (bl_streak (baseline m st1) = 0) as H1.
    { unfold st1. destruct (od_get k s1) eqn:Hg; [by eapply Hstreaks|by destruct m]. }
    by destruct m, m'.
Qed.

(** ** The rows of the table *)

Lemma NoDup_bind_tag {A B C} (tag : A -> C) (tag' : B -> C) (f : A -> list B) (l : list A) :
  NoDup (tag <$> l) -> (forall x, NoDup (f x)) -> (forall x y, y ∈ f x -> tag' y = tag x) -> NoDup (l ≫= f).
Proof.
  intros Hnd Hf Ht. induction l as [|x l IH]; [constructor|]. csimpl in *. apply NoDup_cons in Hnd as [Hx Hnd].
  apply NoDup_app. split_and!; [done| |by apply IH]. intros y Hy (x' & Hx' & Hin)%list_elem_of_bind.
  apply Hx. apply list_elem_of_fmap. exists x'. split; [|done]. by rewrite <- (Ht x y Hy), (Ht x' y Hx').
Qed.
Lemma fmap_bind {A B C} (g : B -> C) (f : A -> list B) (l : list A) : g <$> (l ≫= f) = l ≫= (fun x => g <$> f x).
Proof. induction l as [|x l IH]; [done|]. csimpl. by rewrite fmap_app, IH. Qed.

Section Table.
Context (cfg : AnomalyConfig).

Lemma engine_rows_tag (e : MetricEngine) (p : Key * WindowedStats) (y : RowKey) :
  y ∈ row_key <$> key_rows e p -> y.1 = p.1 /\ y.2 <> "beacon"%string.
Proof.
  unfold key_rows, entity_rows. rewrite fmap_app, elem_of_app. destruct p as [[a b] ws]. simpl. intros [Hy|Hy].
  - rewrite !elem_of_cons in Hy. by destruct Hy as [->|[->|[->|?%not_elem_of_nil]]].
  - destruct (en_entities e !! (a, b)) as [[|x l]|]; simpl in Hy; try by apply not_elem_of_nil in Hy.
    by apply list_elem_of_singleton in Hy as ->.
Qed.
Lemma engine_rows_nodup (e : MetricEngine) : engine_ok cfg e -> NoDup (row_key <$> engine_rows e : list RowKey).
Proof.
  intros Ho. unfold engine_rows. rewrite fmap_bind.
  apply (NoDup_bind_tag fst fst); [apply Ho| |intros p y Hy; by apply engine_rows_tag in Hy as [? _]].
  intros [[a b] ws]. unfold key_rows, entity_rows. simpl.
  destruct (en_entities e !! (a, b)) as [[|x l]|]; apply (NoDup_fmap_1 snd); simpl; by apply (bool_decide_unpack _).
Qed.

Lemma beacon_rows_keys (b : BeaconTracker) : (row_key <$> beacon_rows b : list RowKey) = beacon_key <$> (bt_keys b).*1.
Proof. unfold beacon_rows. rewrite <- !list_fmap_compose. by apply list_fmap_ext. Qed.
Lemma beacon_rows_nodup (b : BeaconTracker) : beacon_ok cfg b -> NoDup (row_key <$> beacon_rows b : list RowKey).
Proof.
  intros Ho. rewrite beacon_rows_keys. apply NoDup_fmap_2; [|apply Ho]. unfold beacon_key. by intros x y [= ->].
Qed.

(** The rows of the sampler. *)
Definition entity_sampler_rows (p : string * EntityState) : list (BaselineRow T) :=
  m ← METRICS;
  match ring_1h m p.2 with
  | [] => []
  | _ => [(sampler_key m p.1, serialize_window (bl_stats (baseline m p.2)) W1h)]
  end.
Lemma sampler_rows_bind (s : ResourceSampler) : sampler_rows s = s ≫= entity_sampler_rows.
Proof. done. Qed.
Lemma sampler_rows_elem (s : ResourceSampler) (r : BaselineRow T) : sampler_ok s ->
  r ∈ sampler_rows s <-> exists k st m, od_get k s = Some st /\ ring_1h m st <> []
    /\ r = (sampler_key m k, serialize_window (bl_stats (baseline m st)) W1h).
Proof.
  intros Ho. rewrite sampler_rows_bind, list_elem_of_bind. split.
  - intros ([k st] & Hr & Hp). apply od_get_elem in Hp; [|apply Ho]. unfold entity_sampler_rows in Hr.
    apply list_elem_of_bind in Hr as (m & Hr & _). simpl in Hr. exists k, st, m.
    destruct (ring_1h m st); [by apply not_elem_of_nil in Hr|]. by apply list_elem_of_singleton in Hr.
  - intros (k & st & m & Hst & Hne & ->). exists (k, st). split; [|apply od_get_elem; [apply Ho|done]].
    unfold entity_sampler_rows. apply list_elem_of_bind. exists m. simpl. split; [|unfold METRICS; rewrite !elem_of_cons; destruct m; auto].
    destruct (ring_1h m st); [done|]. by apply list_elem_of_singleton.
Qed.
Lemma sampler_rows_nodup (s : ResourceSampler) : sampler_ok s -> NoDup (row_key <$> sampler_rows s : list RowKey).
Proof.
  intros Ho. rewrite sampler_rows_bind, fmap_bind.
  apply (NoDup_bind_tag fst (fun y : RowKey => y.1.2)); [apply Ho| |].
  - intros [k st]. unfold entity_sampler_rows. simpl.
    destruct (ring_1h CpuPct st), (ring_1h RssBytes st); apply (NoDup_fmap_1 (fun y : RowKey => y.1.1)); simpl;
      by apply (bool_decide_unpack _).
  - intros [k st] y. unfold entity_sampler_rows. simpl.
    destruct (ring_1h CpuPct st), (ring_1h RssBytes st); simpl; rewrite ?elem_of_cons; intros Hy;
      repeat destruct Hy as [->|Hy]; try done; by apply not_elem_of_nil in Hy.
Qed.

Record detector_ok (d : Detector T) : Prop := {
  do_engine : engine_ok cfg (dt_engine d);
  do_beacon : beacon_ok cfg (dt_beacon d);
  do_sampler : sampler_ok (dt_sampler d);
}.
Record restored (d : Detector T) (seen : list RowKey) (d1 : Detector T) : Prop := {
  rd_engine : engine_restored (dt_engine d) seen (dt_engine d1);
  rd_beacon : beacon_restored (dt_beacon d) seen (dt_beacon d1);
  rd_sampler : sampler_restored (dt_sampler d) seen (dt_sampler d1);
}.

(** The three kinds of rows have nothing in common. *)
Lemma engine_row_key (e : MetricEngine) (r : BaselineRow T) : engine_ok cfg e -> r ∈ engine_rows e ->
  r.1.1 ∈ (en_stats e).*1 /\ startswith "resource." r.1.1.1 = false /\ r.1.1.1 <> "beacon"%string /\ r.1.2 <> "beacon"%string.
Proof.
  intros Ho (p & Hr & Hp)%list_elem_of_bind.
  assert (r.1 ∈ row_key <$> key_rows e p) as [Hk Hw]%engine_rows_tag by (apply list_elem_of_fmap; by exists r).
  assert (r.1.1 ∈ (en_stats e).*1) as Hin by (rewrite Hk; apply list_elem_of_fmap; by exists p).
  destruct (eo_kinds cfg e Ho _ Hin). done.
Qed.
Lemma checkpoint_keys_unique (d : Detector T) : detector_ok d -> NoDup (row_key <$> checkpoint_rows d).
Proof.
  intros [He Hb Hs]. unfold checkpoint_rows. rewrite !fmap_app. apply NoDup_app. split_and!; [by apply engine_rows_nodup| |].
  - intros y (r & -> & Hr)%list_elem_of_fmap. destruct (engine_row_key _ r He Hr) as (_ & Hk1 & Hk2 & _).
    rewrite elem_of_app. intros [Hin|Hin].
    + rewrite beacon_rows_keys in Hin. apply list_elem_of_fmap in Hin as (k & Heq & _). apply Hk2.
      change (r.1.1.1) with ((row_key r).1.1). by rewrite Heq.
    + apply list_elem_of_fmap in Hin as (r' & Heq & (k & st & m & _ & _ & ->)%sampler_rows_elem); [|done].
      change (r.1.1.1) with ((row_key r).1.1) in Hk1. by rewrite Heq in Hk1.
  - apply NoDup_app. split_and!; [by apply beacon_rows_nodup| |by apply sampler_rows_nodup].
    intros y Hy (r' & -> & (k & st & m & _ & _ & ->)%sampler_rows_elem)%list_elem_of_fmap; [|done].
    rewrite beacon_rows_keys in Hy. by apply list_elem_of_fmap in Hy as (k' & [=] & _).
Qed.

(** Reading a row of another component changes nothing. *)
Lemma engine_frame (e e1 : MetricEngine) (seen : list RowKey) (x : RowKey) :
  engine_restored e seen e1 -> x.1 ∉ (en_stats e).*1 -> engine_restored e (x :: seen) e1.
Proof.
  intros [Hnd Hst Hen Hev] Hx. split; [done| | |done].
  - intros k. rewrite Hst. csimpl. destruct (decide (k = x.1)) as [->|Hne].
    + rewrite (proj2 (od_get_None x.1 (en_stats e)) Hx). by repeat case_decide.
    + destruct (decide (k ∈ seen.*1)).
      * rewrite decide_True by by right. destruct (od_get k (en_stats e)); [|done]. simpl. f_equal. symmetry. by apply part_cons_ne.
      * rewrite decide_False; [done|]. by intros [?|?]%elem_of_cons.
  - intros k. rewrite Hen. destruct (od_get k (en_stats e1)) as [ws|] eqn:Hg; [|done]. f_equal. symmetry.
    apply part_entity_cons. intros ->. simpl in Hx. rewrite Hst, (proj2 (od_get_None k (en_stats e)) Hx) in Hg. by case_decide.
Qed.
Lemma beacon_frame (b b1 : BeaconTracker) (seen : list RowKey) (x : RowKey) :
  beacon_restored b seen b1 -> x.1.1 <> "beacon"%string -> beacon_restored b (x :: seen) b1.
Proof.
  intros [Hnd Hk] Hx. split; [done|]. intros k. rewrite Hk. apply decide_ext. rewrite elem_of_cons.
  split; [by right|]. intros [<-|?]; [|done]. by simpl in Hx.
Qed.
Lemma sampler_frame (s s1 : ResourceSampler) (seen : list RowKey) (x : RowKey) :
  sampler_restored s seen s1 -> startswith "resource." x.1.1 = false -> sampler_restored s (x :: seen) s1.
Proof.
  intros [Hnd Hr Hs] Hx. split; [done| |done]. intros k m. rewrite Hr. apply decide_ext. rewrite elem_of_cons.
  split; [by right|]. intros [<-|?]; [|done]. by simpl in Hx.
Qed.

Lemma load_checkpoint_step (d d1 : Detector T) (seen : list RowKey) (r : BaselineRow T) (t now_s : Z) (delete_ok : bool) :
  detector_ok d -> restored d seen d1 -> r ∈ checkpoint_rows d -> r.1 ∉ seen ->
  now_s - t <= RESOURCE_CHECKPOINT_MAX_AGE_S ->
  exists d2, load_checkpoint float_parse cfg now_s delete_ok (r, t) d1 = (Ok 1, d2)
    /\ restored d (r.1 :: seen) d2 /\ dt_table d2 = dt_table d1.
Proof.
  intros Hok [Re Rb Rs] Hr Hns Hage. pose proof Hok as [He Hb Hs]. unfold load_checkpoint.
  apply (proj2 (Z.ltb_ge _ _)) in Hage. unfold checkpoint_rows in Hr. rewrite !elem_of_app in Hr.
  destruct Hr as [Hr|[Hr|Hr]].
  - destruct (engine_row_key _ r He Hr) as (Hk & Hres & Hb1 & Hb2).
    destruct (load_engine_row cfg (dt_engine d) He (dt_engine d1) seen r Re Hr) as (e2 & Hload & He2).
    destruct r as [[[kind key] window] blob]. cbn [fst snd] in *. rewrite Hage, andb_false_r, Hres.
    rewrite (proj2 (String.eqb_neq window "beacon") Hb2). unfold st_bind, on_engine. rewrite Hload.
    eexists. split; [done|]. split; [|done]. split; simpl; [done|by apply beacon_frame|by apply sampler_frame].
  - unfold beacon_rows in Hr. apply list_elem_of_fmap in Hr as ([k st] & -> & Hst). cbn [fst snd] in *.
    apply od_get_elem in Hst; [|apply Hb].
    destruct (load_beacon_row cfg (dt_beacon d) (dt_beacon d1) seen k st Hb Rb Hst Hns) as (b2 & Hload & Hb2).
    rewrite Hage, andb_false_r. simpl. unfold st_bind, on_beacon. rewrite Hload. eexists. split; [done|]. split; [|done].
    split; simpl; [|done|by apply sampler_frame]. apply engine_frame; [done|]. intros Hin. by destruct (eo_kinds cfg _ He _ Hin).
  - apply sampler_rows_elem in Hr as (k & st & m & Hst & _ & ->); [|done].
    destruct (load_sampler_row (dt_sampler d) (dt_sampler d1) seen k st m Hs Rs Hst) as (s2 & Hload & Hs2).
    unfold sampler_key. cbn [fst snd]. rewrite Hage, startswith_app, andb_false_r. unfold st_bind, on_sampler. rewrite Hload.
    eexists. split; [done|]. split; [|done]. split; simpl; [|by apply beacon_frame|done].
    apply engine_frame; [done|]. intros Hin. destruct (eo_kinds cfg _ He _ Hin) as [Hf _]. simpl in Hf. by destruct m.
Qed.

Lemma load_all_rows (d d1 : Detector T) (seen : list RowKey) (rows : list (BaselineRow T * Z)) (now_s : Z) (delete_ok : bool) :
  detector_ok d -> restored d seen d1 ->
  (forall x, x ∈ rows -> x.1 ∈ checkpoint_rows d /\ now_s - x.2 <= RESOURCE_CHECKPOINT_MAX_AGE_S) ->
  NoDup (row_key <$> rows.*1) -> (forall x, x ∈ rows -> row_key x.1 ∉ seen) ->
  exists d2 seen', load_all float_parse cfg now_s delete_ok rows d1 = (Ok (Z.of_nat (length rows)), d2)
    /\ restored d seen' d2 /\ dt_table d2 = dt_table d1 /\ (forall y, y ∈ seen' <-> y ∈ seen \/ y ∈ row_key <$> rows.*1).
Proof.
  intros Hok. revert d1 seen. induction rows as [|[r t] rows IH]; intros d1 seen Hres Hin Hnd Hfresh.
  - exists d1, seen. split_and!; [done|done|done|]. intros y. csimpl. set_solver.
  - csimpl in Hnd. apply NoDup_cons in Hnd as [Hr Hnd]. destruct (Hin (r, t) ltac:(by left)) as [Hrow Hage].
    destruct (load_checkpoint_step d d1 seen r t now_s delete_ok Hok Hres Hrow (Hfresh (r, t) ltac:(by left)) Hage)
      as (d2 & Hload & Hres2 & Htab).
    destruct (IH d2 (r.1 :: seen) Hres2) as (d3 & seen' & Hall & Hres3 & Htab3 & Hseen).
    { intros x Hx. apply Hin. by right. }
    { done. }
    { intros x Hx. rewrite not_elem_of_cons. split; [|apply Hfresh; by right]. intros Heq. apply Hr.
      change (row_key r) with (r.1). rewrite <- Heq. apply list_elem_of_fmap. exists x.1. split; [done|].
      apply list_elem_of_fmap. by exists x. }
    exists d3, seen'. split_and!; [|done|congruence|].
    + cbn [load_all]. unfold st_bind, st_ret. rewrite Hload, Hall. do 2 f_equal. simpl. lia.
    + intros y. rewrite Hseen. csimpl. rewrite !elem_of_cons. unfold row_key at 2. tauto.
Qed.
End Table.
End Restore.
