(* ===== verification/DetectorProofs.v ===== *)
(** * Invariants of the detector and the restart

    Every state the detector reaches, exceptions included, satisfies the
    conditions under which a checkpoint restores it. *)

From S2P Require Import Prelude Schemas RuleEval Vuln Enrichment Float64 AnomalyStats AnomalyProofs AnomalyTrackers AnomalyDetector CheckpointProofs.

(** ** Code that st_safe an invariant, even when it raises *)

Definition st_safe {S A} (I : S -> Prop) (m : ST S A) : Prop := forall s, I s -> I (m s).2.

Section Preserve.
Context {S : Type} (I : S -> Prop).
Lemma st_safe_ret {A} (a : A) : st_safe I (st_ret a).
Proof. by intros s. Qed.
Lemma st_safe_raise {A} (e : PyErr) : st_safe I (st_raise e : ST S A).
Proof. by intros s. Qed.
Lemma st_safe_lift {A} (r : result PyErr A) : st_safe I (st_lift r).
Proof. by intros s. Qed.
Lemma st_safe_get : st_safe I st_get.
Proof. by intros s. Qed.
Lemma st_safe_modify (f : S -> S) : (forall s, I s -> I (f s)) -> st_safe I (st_modify f).
Proof. intros Hf s Hs. by apply Hf. Qed.
Lemma bind_at {A B} (m : ST S A) (f : A -> ST S B) (s : S) :
  I (m s).2 -> (forall a, st_safe I (f a)) -> I (st_bind m f s).2.
Proof. unfold st_bind. intros Hm Hf. destruct (m s) as [[a|e] s']; [by apply Hf|done]. Qed.
Lemma st_safe_bind {A B} (m : ST S A) (f : A -> ST S B) :
  st_safe I m -> (forall a, st_safe I (f a)) -> st_safe I (st_bind m f).
Proof. intros Hm Hf s Hs. apply bind_at; [by apply Hm|done]. Qed.
Lemma st_safe_collect {A B} (f : A -> ST S (list B)) (l : list A) :
  (forall x, x ∈ l -> st_safe I (f x)) -> st_safe I (st_collect f l).
Proof.
  induction l as [|x l IH]; intros Hf; simpl; [apply st_safe_ret|].
  apply st_safe_bind; [apply Hf; by left|]. intros a.
  apply st_safe_bind; [apply IH; intros y Hy; apply Hf; by right|]. intros b. apply st_safe_ret.
Qed.
(** After reading the state, the rest may rely on what it read. *)
Lemma st_safe_get_bind {B} (f : S -> ST S B) : (forall s, I s -> I (f s s).2) -> st_safe I (st_bind st_get f).
Proof. intros Hf s Hs. by apply Hf. Qed.
End Preserve.

Create HintDb st_safe discriminated.
#[export] Hint Resolve st_safe_ret st_safe_raise st_safe_lift st_safe_get : st_safe.
#[export] Hint Resolve st_safe_bind st_safe_collect : st_safe.

(** ** The engine *)

Section Engine.
Context (cfg : AnomalyConfig) (sq : float64 -> result PyErr float64).
Context (Hmax : 0 <= ac_max_entities_per_metric cfg).

Lemma set_ring_fits (w : Window) (r : list float64) (ws : WindowedStats) :
  fits_rings ws -> (length r <= capacity w)%nat -> fits_rings (set_ring w r ws).
Proof. intros Hf Hr w'. specialize (Hf w'). by destruct w, w'. Qed.
Lemma set_accum_fits (w : Window) (a : float64 * Z) (ws : WindowedStats) : fits_rings ws -> fits_rings (set_accum w a ws).
Proof. intros Hf w'. specialize (Hf w'). by destruct w, w'. Qed.

Lemma close_bucket_fits (ms : Z) (zt : float64) (w : Window) (v : float64) : st_safe fits_rings (close_bucket sq ms zt w v).
Proof.
  intros ws Hf. rewrite close_bucket_eq. destruct (evaluate _ _ _ _ _ _); [|done]. simpl. apply set_ring_fits; [done|].
  unfold ring_append. rewrite lastn_length. lia.
Qed.
Lemma push_wide_fits (ms : Z) (zt : float64) (v : float64) (w : Window) : st_safe fits_rings (push_wide sq ms zt v w).
Proof.
  intros ws Hf. unfold push_wide, st_bind at 1, st_get. destruct (default _ _) as [t m]. destruct (_ <=? _).
  - revert ws Hf. apply st_safe_bind; [apply close_bucket_fits|]. intros devs.
    apply st_safe_bind; [|auto with st_safe]. apply st_safe_modify. intros ws. apply set_accum_fits.
  - by apply set_accum_fits.
Qed.
Lemma push_minute_fits (ms : Z) (zt : float64) (v : float64) : st_safe fits_rings (push_minute sq ms zt v).
Proof.
  apply st_safe_bind; [apply close_bucket_fits|]. intros d1.
  apply st_safe_bind; [|auto with st_safe]. apply st_safe_collect. intros w _. apply push_wide_fits.
Qed.

Definition kind_ok (kind : string) : Prop := startswith "resource." kind = false /\ kind <> "beacon"%string.

Lemma evict_ok (v : Key) (e : MetricEngine) : engine_ok cfg e -> engine_ok cfg (evict v e).
Proof.
  intros [Hnd He Hr Hc Hk]. split; simpl.
  - by apply od_del_nodup.
  - intros k. rewrite od_del_keys, <- He. destruct (decide (k = v)) as [->|Hne].
    + rewrite lookup_delete_eq. split; [by intros [? ?]|tauto].
    + rewrite lookup_delete_ne by done. tauto.
  - intros k ws. rewrite od_get_del. case_decide; [done|]. apply Hr.
  - intros metric. etrans; [|apply (Hc metric)]. apply inj_le. unfold tracked. simpl. rewrite od_del_filter_keys.
    apply filter_delete_length.
  - intros k [Hin _]%od_del_keys. by apply Hk.
Qed.
Lemma evict_room (v : Key) (e : MetricEngine) (metric : string) : v ∈ (en_stats e).*1 -> v.1 = metric ->
  Z.of_nat (length (tracked metric (evict v e))) < Z.of_nat (length (tracked metric e)).
Proof.
  intros Hv Hm. apply inj_lt. unfold tracked. simpl. rewrite od_del_filter_keys.
  apply filter_delete_length; [done|]. by apply String.eqb_eq.
Qed.
Lemma install_ok (key : Key) (entity : Entity) (e : MetricEngine) :
  engine_ok cfg e -> key ∉ (en_stats e).*1 -> kind_ok key.1 ->
  Z.of_nat (length (tracked key.1 e)) < ac_max_entities_per_metric cfg -> engine_ok cfg (install key entity e).
Proof.
  intros [Hnd He Hr Hc Hk] Hn Hkind Hlt. split; simpl.
  - by apply od_set_nodup.
  - intros k. rewrite od_set_keys, decide_False by done. rewrite elem_of_app, list_elem_of_singleton, <- He.
    destruct (decide (k = key)) as [->|Hne]; [rewrite lookup_insert_eq; split; [tauto|by eexists]|].
    rewrite lookup_insert_ne by done. tauto.
  - intros k ws. rewrite od_get_set. case_decide; [|apply Hr]. intros [= <-]. intros w. destruct w; simpl; lia.
  - intros metric. unfold tracked. simpl. rewrite od_set_keys, decide_False by done.
    assert (length (List.filter (fun k : Key => String.eqb k.1 metric) ((en_stats e).*1 ++ [key]))
            <= Z.to_nat (ac_max_entities_per_metric cfg))%nat as Hle.
    { apply filter_snoc_length.
      - specialize (Hc metric). unfold tracked in Hc. lia.
      - intros <-%String.eqb_eq. unfold tracked in Hlt. lia. }
    lia.
  - intros k. rewrite od_set_keys, decide_False by done. intros [Hin| ->%list_elem_of_singleton]%elem_of_app; [by apply Hk|done].
Qed.

Lemma admit_ok (key : Key) (entity : Entity) (e : MetricEngine) :
  engine_ok cfg e -> key ∉ (en_stats e).*1 -> kind_ok key.1 -> engine_ok cfg (admit_key cfg key entity e).2.
Proof.
  intros Ho Hn Hk. unfold admit_key, st_bind, st_get.
  destruct (Z.leb_spec (ac_max_entities_per_metric cfg) (Z.of_nat (length (tracked key.1 e)))) as [Hfull|Hroom].
  - destruct (victim e (tracked key.1 e)) as [v|] eqn:Hv; [|done]. apply victim_elem in Hv.
    unfold tracked in Hv. apply list_elem_of_In, List.filter_In in Hv as [Hv Hm%String.eqb_eq]. apply list_elem_of_In in Hv.
    simpl. apply install_ok; [by apply evict_ok| |done|].
    + simpl. rewrite od_del_keys. tauto.
    + eapply Z.lt_le_trans; [by apply (evict_room v e key.1)|apply (eo_cap cfg e Ho)].
  - simpl. by apply install_ok.
Qed.

(** Changing the value of a followed key, or what does not matter here. *)
Lemma engine_ok_same (e e' : MetricEngine) :
  engine_ok cfg e -> (en_stats e').*1 = (en_stats e).*1 ->
  (forall k, is_Some (en_entities e' !! k) <-> is_Some (en_entities e !! k)) ->
  (forall k ws, od_get k (en_stats e') = Some ws -> fits_rings ws) -> engine_ok cfg e'.
Proof.
  intros [Hnd He Hr Hc Hk] Hkeys Hent Hrings. split; rewrite ?Hkeys; try done.
  - intros k. by rewrite Hent.
  - intros metric. unfold tracked. rewrite Hkeys. apply Hc.
Qed.

Lemma ingest_ok (sample : MetricSample) (ts : Z) : kind_ok (ms_metric_kind sample) -> st_safe (engine_ok cfg) (ingest cfg sample ts).
Proof.
  intros Hk. unfold ingest. set (key := (ms_metric_kind sample, ms_entity_key sample)). intros e Ho.
  unfold st_bind at 1, st_get.
  apply bind_at.
  - destruct (od_mem key (en_stats e)) eqn:Hmem; [|apply admit_ok; [done|by apply od_mem_false|done]].
    apply od_mem_true in Hmem. destruct (en_entities e !! key) as [[|x l]|] eqn:Hent; [|done|done]. simpl.
    apply (engine_ok_same e); [done|done| |apply Ho]. intros k. simpl.
    destruct (decide (k = key)) as [->|]; [rewrite lookup_insert_eq, Hent; split; by eexists|by rewrite lookup_insert_ne].
  - intros []. apply st_safe_bind; [auto with st_safe|]. intros minute. apply st_safe_modify. intros e0 Ho0.
    apply (engine_ok_same e0); [done|done|done|apply Ho0].
Qed.

Lemma close_key_ok (minute : Z) (key : Key) : st_safe (engine_ok cfg) (close_key cfg sq minute key).
Proof.
  intros e Ho. unfold close_key. destruct (od_get key (en_stats e)) as [ws|] eqn:Hws; [|done].
  pose proof (push_minute_fits (ac_min_samples cfg) (ac_z_threshold cfg) (default fzero (en_buckets e !! (minute, key))) ws
    (eo_rings cfg e Ho key ws Hws)) as Hfit.
  destruct (push_minute _ _ _ _ _) as [r ws']. simpl in Hfit.
  match goal with |- engine_ok cfg (match r with Ok _ => _ | Err _ => (_, ?st) end).2 => assert (engine_ok cfg st) as Hst end.
  { apply (engine_ok_same e); [done| |done|].
    - simpl. rewrite od_set_keys, decide_True by by eapply od_get_Some_mem. done.
    - simpl. intros k x. rewrite od_get_set. case_decide; [by intros [= <-]|apply Ho]. }
  destruct r as [[|d devs]|]; [done| |done]. by destruct (en_entities _ !! key).
Qed.

Lemma tick_ok (now : Z) : st_safe (engine_ok cfg) (tick cfg sq now).
Proof.
  assert (forall f : MetricEngine -> MetricEngine,
    (forall e, en_stats (f e) = en_stats e /\ en_entities (f e) = en_entities e) -> forall e, engine_ok cfg e -> engine_ok cfg (f e)) as Hsame.
  { intros f Hf e Ho. destruct (Hf e) as [H1 H2]. apply (engine_ok_same e); [done|by rewrite H1|by rewrite H2|rewrite H1; apply Ho]. }
  unfold tick. apply st_safe_bind; [auto with st_safe|]. intros current.
  apply st_safe_bind; [apply st_safe_modify, Hsame; intros e; by destruct (en_last_closed e)|]. intros [].
  apply st_safe_bind; [auto with st_safe|]. intros e0. apply st_safe_bind.
  { destruct (_ <? _); [|auto with st_safe]. apply st_safe_bind; [|auto with st_safe]. by apply st_safe_modify, Hsame. }
  intros start. apply st_safe_collect. intros minute _. unfold close_minute.
  apply st_safe_bind; [auto with st_safe|]. intros e. apply st_safe_bind.
  { apply st_safe_collect. intros key _. apply close_key_ok. }
  intros out. apply st_safe_bind; [|auto with st_safe]. by apply st_safe_modify, Hsame.
Qed.
End Engine.

(** ** Loading any row of an acceptable kind *)

Section Loading.
Context {T : Type} `{JsonText T} (float_parse : string -> option float64) (cfg : AnomalyConfig).
Context (Hmax : 0 <= ac_max_entities_per_metric cfg).

Lemma load_window_fits (name : string) (blob : T) : st_safe fits_rings (load_window float_parse name blob).
Proof.
  intros ws Hf. unfold load_window. destruct (window_of name) as [w|]; [|done]. destruct (json_load blob) as [doc|]; [|done].
  destruct (parse_window float_parse w doc) as [[r a]|e]; [|by destruct (caught e)].
  assert (fits_rings (set_ring w (lastn (capacity w) r) ws)) as Hr by (apply set_ring_fits; [done|rewrite lastn_length; lia]).
  unfold st_bind, st_modify, st_ret. simpl. destruct a; [by apply set_accum_fits|done].
Qed.

Lemma set_stats_ok (e : MetricEngine) (key : Key) (ws : WindowedStats) :
  engine_ok cfg e -> key ∈ (en_stats e).*1 -> fits_rings ws -> engine_ok cfg (set_stats (od_set key ws (en_stats e)) e).
Proof.
  intros Ho Hk Hf. apply (engine_ok_same cfg e); [done| |done|].
  - simpl. by rewrite od_set_keys, decide_True.
  - simpl. intros k x. rewrite od_get_set. case_decide; [by intros [= <-]|apply Ho].
Qed.
Lemma forget_ok (key : Key) (e : MetricEngine) : engine_ok cfg e -> engine_ok cfg (forget key e).
Proof. intros Ho%(evict_ok cfg key). destruct Ho as [H1 H2 H3 H4 H5]. by split. Qed.

Lemma load_row_ok (metric entity window : string) (blob : T) :
  kind_ok metric -> st_safe (engine_ok cfg) (load_row float_parse cfg metric entity window blob).
Proof.
  intros Hk. unfold load_row. set (key := (metric, entity)). destruct (String.eqb window "entity").
  - unfold load_entity_row. destruct (json_load blob ≫= doc_entity) as [ent|]; [|auto with st_safe].
    apply st_safe_get_bind. intros e Ho. apply bind_at; [|auto with st_safe].
    destruct (od_mem key (en_stats e)) eqn:Hm; [|apply admit_ok; try done; by apply od_mem_false].
    apply od_mem_true in Hm. apply (engine_ok_same cfg e); [done|done| |apply Ho]. simpl. intros k.
    destruct (decide (k = key)) as [->|]; [|by rewrite lookup_insert_ne].
    rewrite lookup_insert_eq. split; [|by eexists]. intros _. by apply (eo_entities cfg e Ho).
  - apply st_safe_get_bind. intros e Ho. apply bind_at.
    + destruct (od_mem key (en_stats e)) eqn:Hm; simpl; [done|]. apply admit_ok; try done; by apply od_mem_false.
    + intros [] e1 Ho1. destruct (od_get key (en_stats e1)) as [ws|] eqn:Hws; [|done].
      pose proof (load_window_fits window blob ws (eo_rings cfg e1 Ho1 key ws Hws)) as Hf.
      pose proof (od_get_Some_mem _ _ _ Hws) as Hin.
      destruct (load_window float_parse window blob ws) as [[[]|x] ws']; simpl in *; try by apply set_stats_ok.
      destruct (negb _); [apply forget_ok|]; by apply set_stats_ok.
Qed.

(** ** The trackers *)

Lemma beacon_admit_ok (key : string) : st_safe (beacon_ok cfg) (beacon_admit cfg key).
Proof.
  intros b [Hnd Hc Hr]. unfold beacon_admit. destruct (od_mem key (bt_keys b)) eqn:Hm; [done|]. apply od_mem_false in Hm.
  assert (forall b', NoDup (bt_keys b').*1 -> key ∉ (bt_keys b').*1 -> Z.of_nat (length (bt_keys b')) < ac_max_entities_per_metric cfg ->
    (forall k st, od_get k (bt_keys b') = Some st -> (length (ks_intervals st) <= RING_SIZE)%nat) ->
    beacon_ok cfg (mkBeacon (od_set key (mkKeyState None []) (bt_keys b')) (bt_last_seen b'))) as Hadd.
  { intros b' H1 H2 H3 H4. split; simpl; [by apply od_set_nodup| |].
    - rewrite <- (length_fmap fst), od_set_keys, decide_False by done. rewrite length_app, length_fmap. simpl. lia.
    - intros k st. rewrite od_get_set. case_decide; [intros [= <-]; simpl; lia|apply H4]. }
  destruct (Z.leb_spec (ac_max_entities_per_metric cfg) (Z.of_nat (length (bt_keys b)))) as [Hfull|Hroom].
  - destruct (oldest_key b) as [v|] eqn:Hv; [|done].
    assert (v ∈ (bt_keys b).*1) as Hin.
    { unfold oldest_key in Hv. destruct (bt_keys b).*1 as [|k ks]; [done|]. injection Hv as <-. apply min_by_elem. }
    refine (Hadd (mkBeacon (od_del v (bt_keys b)) (delete v (bt_last_seen b))) _ _ _ _); simpl.
    + by apply od_del_nodup.
    + rewrite od_del_keys. tauto.
    + eapply Z.lt_le_trans; [|exact Hc]. apply inj_lt. rewrite <- !(length_fmap fst). unfold lt.
      change (S (length (od_del v (bt_keys b)).*1)) with (length (v :: (od_del v (bt_keys b)).*1)).
      apply submseteq_length, NoDup_submseteq.
      * apply NoDup_cons. split; [rewrite od_del_keys; tauto|by apply od_del_nodup].
      * intros x [->|Hx]%elem_of_cons; [done|]. by apply od_del_keys in Hx as [? _].
    + intros k st. rewrite od_get_del. case_decide; [done|]. apply Hr.
  - by apply Hadd.
Qed.

Lemma beacon_set_ok (b : BeaconTracker) (key : string) (st : KeyState) (m : gmap string float64) :
  beacon_ok cfg b -> key ∈ (bt_keys b).*1 -> (length (ks_intervals st) <= RING_SIZE)%nat ->
  beacon_ok cfg (mkBeacon (od_set key st (bt_keys b)) m).
Proof.
  intros [Hnd Hc Hr] Hk Hl. split; simpl; [by apply od_set_nodup| |].
  - rewrite <- (length_fmap fst), od_set_keys, decide_True, length_fmap by done. done.
  - intros k st'. rewrite od_get_set. case_decide; [by intros [= <-]|apply Hr].
Qed.

Lemma beacon_admit_mem (key : string) (b b1 : BeaconTracker) (u : unit) :
  beacon_admit cfg key b = (Ok u, b1) -> key ∈ (bt_keys b1).*1.
Proof.
  unfold beacon_admit. destruct (od_mem key (bt_keys b)) eqn:Hm; [intros [= _ <-]; by apply od_mem_true|].
  destruct (_ <=? _); [destruct (oldest_key b) as [v|]; [|done]|]; intros [= _ <-]; simpl; rewrite od_set_keys; case_decide; set_solver.
Qed.

Lemma beacon_load_ok (key : string) (blob : T) : st_safe (beacon_ok cfg) (beacon_load_row float_parse cfg key blob).
Proof.
  unfold beacon_load_row. destruct (json_load blob) as [doc|]; [|auto with st_safe].
  destruct (parse_beacon float_parse doc) as [[l r]|e]; [|destruct (beacon_caught e); auto with st_safe].
  intros b Ho. pose proof (beacon_admit_ok key b Ho) as Ho1. unfold st_bind.
  destruct (beacon_admit cfg key b) as [[u|e] b1] eqn:Ha; [|done]. simpl in *.
  apply beacon_set_ok; [done|by eapply beacon_admit_mem|]. simpl. rewrite lastn_length. lia.
Qed.

Lemma baseline_set (m m' : Metric) (b : Baseline) (st : EntityState) :
  baseline m' (set_baseline m b st) = if decide (m' = m) then b else baseline m' st.
Proof. by destruct m, m'. Qed.

Definition state_ok (st : EntityState) : Prop := forall m, fits_rings (bl_stats (baseline m st)).
Definition sampler_inv (s : ResourceSampler) : Prop := NoDup s.*1 /\ forall k st, od_get k s = Some st -> state_ok st.
Lemma sampler_inv_ok (s : ResourceSampler) : sampler_inv s -> sampler_ok s.
Proof. intros [Hnd Hs]. split; [done|]. intros k st m Hst. apply (Hs k st Hst m W1h). Qed.
Lemma state_init_ok : state_ok entity_state_init.
Proof. intros m w. destruct m, w; simpl; lia. Qed.
Lemma sampler_set_inv (s : ResourceSampler) (k : string) (st : EntityState) : sampler_inv s -> state_ok st -> sampler_inv (od_set k st s).
Proof.
  intros [Hnd Hs] Hst. split; [by apply od_set_nodup|]. intros k' st'. rewrite od_get_set. case_decide; [by intros [= <-]|apply Hs].
Qed.
Lemma sampler_get_ok (s : ResourceSampler) (k : string) : sampler_inv s -> state_ok (default entity_state_init (od_get k s)).
Proof. intros [_ Hs]. destruct (od_get k s) eqn:Hg; [by eapply Hs|apply state_init_ok]. Qed.

Lemma sampler_load_inv (kind key window : string) (blob : T) : st_safe sampler_inv (sampler_load_row float_parse kind key window blob).
Proof.
  intros s Hs. unfold sampler_load_row. destruct (_ || _); [done|]. destruct (metric_of _) as [m|]; [|done].
  set (st := default entity_state_init (od_get key s)). pose proof (sampler_get_ok s key Hs : state_ok st) as Hst.
  pose proof (load_window_fits "1h" blob _ (Hst m)) as Hf.
  destruct (load_window float_parse "1h" blob _) as [[[]|x] ws]; [|done|done]. simpl in *.
  apply sampler_set_inv; [done|]. intros m'. rewrite baseline_set. case_decide; [done|apply Hst].
Qed.

Context (sq : float64 -> result PyErr float64) (clk_tck : Z).

Lemma beacon_observe_ok (name ip : string) (port ts : Z) : st_safe (beacon_ok cfg) (beacon_observe cfg sq name ip port ts).
Proof.
  unfold beacon_observe. apply st_safe_bind; [apply beacon_admit_ok|]. intros [].
  apply st_safe_bind; [auto with st_safe|]. intros epoch b Ho.
  destruct (od_get (entity_key name ip port) (bt_keys b)) as [st|] eqn:Hst; [|done]. simpl.
  apply beacon_set_ok; [done|by eapply od_get_Some_mem|]. unfold touch. simpl.
  destruct (ks_last_ts st); [unfold ring_append; rewrite lastn_length; lia|by apply (bo_rings cfg b Ho _ _ Hst)].
Qed.

Lemma observe_entity_ok (key : string) (unit : option string) (x : Metric * float64) :
  st_safe state_ok (observe_entity cfg sq key unit x).
Proof.
  intros st Hst. unfold observe_entity, observe_sample. destruct x as [m v]. simpl.
  assert (forall ws n, fits_rings ws -> state_ok (set_baseline m (mkBaseline ws n) st)) as Hset.
  { intros ws n Hf m'. rewrite baseline_set. case_decide; [done|apply Hst]. }
  destruct (judge_sample _ _ _ _ _ _ _) as [[fired n]|e]; simpl.
  - destruct (frozen cfg n); [by apply Hset|].
    pose proof (push_minute_fits sq (ac_min_samples cfg) finf v _ (Hst m)) as Hf.
    destruct (push_minute _ _ _ _ _) as [r ws]. by apply Hset.
  - intros m'. rewrite baseline_set. case_decide as Hm; [subst m'|]; apply Hst.
Qed.
Lemma sample_inv (pw : ProcWorld) (pid : Z) (units : list string) (now : float64) :
  st_safe sampler_inv (sample cfg sq clk_tck pw pid units now).
Proof.
  apply st_safe_collect. intros [[key unit] p] _ s Hs. unfold sample_one.
  assert (st_safe state_ok (sample_state cfg sq clk_tck pw key unit p now)) as Hst.
  { assert (forall a b c, st_safe state_ok (st_modify (fun st => mkEntityState a b (c st) (es_cpu st) (es_rss st)))) as Hanchor.
    { intros a b c. apply st_safe_modify. intros st Hst m. specialize (Hst m). by destruct m. }
    unfold sample_state. destruct (pw_stat pw p); [|apply st_safe_bind; [apply (Hanchor None None es_prev_t)|auto with st_safe]].
    destruct (pw_status pw p); [|apply st_safe_bind; [apply (Hanchor None None es_prev_t)|auto with st_safe]].
    apply st_safe_bind; [auto with st_safe|]. intros rss. apply st_safe_bind.
    - destruct (cpu_ticks _) as [ticks|]; [|auto with st_safe].
      apply st_safe_bind; [auto with st_safe|]. intros st. apply st_safe_bind; [auto with st_safe|]. intros cpu.
      apply st_safe_bind; [apply (Hanchor (Some p) (Some ticks) (fun _ => Some now))|auto with st_safe].
    - intros cpu. apply st_safe_collect. intros x _. apply observe_entity_ok. }
  specialize (Hst _ (sampler_get_ok s key Hs)). destruct (sample_state _ _ _ _ _ _ _ _ _) as [r st]. by apply sampler_set_inv.
Qed.
End Loading.

(** ** The detector *)

Lemma extract_kinds (str_other : pyval -> string) (ev : Event) (l : list MetricSample) (s : MetricSample) :
  extract_samples str_other ev = Ok l -> s ∈ l -> kind_ok (ms_metric_kind s).
Proof.
  unfold extract_samples. destruct (String.eqb (ev_module ev) "anomaly_detector"); [intros [= <-] ?%not_elem_of_nil; done|].
  intros (conns & Hc & [= <-])%bind_Ok. rewrite !elem_of_app. intros [Hs|[Hs|[Hs|Hs]]].
  - destruct (ev_category ev); [by apply not_elem_of_nil in Hs|]. destruct (truthy _); [|by apply not_elem_of_nil in Hs].
    by apply list_elem_of_singleton in Hs as ->.
  - destruct (_ && _); [|injection Hc as <-; by apply not_elem_of_nil in Hs]. unfold connection_samples in Hc.
    destruct (number _) as [r|].
    + apply bind_Ok in Hc as (v & _ & [= <-]). rewrite !elem_of_cons in Hs. by destruct Hs as [->|[->|?%not_elem_of_nil]].
    + injection Hc as <-. by apply list_elem_of_singleton in Hs as ->.
  - unfold user_samples in Hs. rewrite elem_of_app in Hs.
    destruct Hs as [Hs|Hs]; (destruct (_ && _) in Hs; [by apply list_elem_of_singleton in Hs as ->|by apply not_elem_of_nil in Hs]).
  - unfold file_samples in Hs. destruct (_ && _) in Hs; [|by apply not_elem_of_nil in Hs].
    destruct (String.eqb (dirname _) _) in Hs; [by apply not_elem_of_nil in Hs|]. by apply list_elem_of_singleton in Hs as ->.
Qed.

Section Steps.
Context {T : Type} `{JsonText T} (float_parse : string -> option float64) (cfg : AnomalyConfig).
Context (Hmax : 0 <= ac_max_entities_per_metric cfg).
Context (sq : float64 -> result PyErr float64) (str_other : pyval -> string) (clk_tck : Z).
Context (py_float : float64 -> pyval) (fmt : string -> float64 -> string) (round : float64 -> Z -> float64).
Context (emit : option (Event -> bool)) (fresh_id : nat -> string).

(** A row that can be loaded into the component it came from. *)
Definition row_ok (r : BaselineRow T) : Prop :=
  startswith "resource." r.1.1.1 = true \/ r.1.2 = "beacon"%string \/ kind_ok r.1.1.1.

Record detector_inv (d : Detector T) : Prop := {
  di_engine : engine_ok cfg (dt_engine d);
  di_beacon : beacon_ok cfg (dt_beacon d);
  di_sampler : sampler_inv (dt_sampler d);
  di_table : forall x, x ∈ dt_table d -> row_ok x.1;
}.

Lemma detector_inv_init (mono : float64) (t : Tracker) (table : list (BaselineRow T * Z)) (fs : list SightingRow) :
  (forall x, x ∈ table -> row_ok x.1) -> detector_inv (detector_init mono t table fs).
Proof.
  intros Ht. split; simpl; [| | |done].
  - split; simpl; [constructor|intros k; rewrite lookup_empty; split; [by intros [? ?]|by intros ?%not_elem_of_nil]|done
      |intros metric; unfold tracked; simpl; lia|by intros k ?%not_elem_of_nil].
  - split; simpl; [constructor|lia|done].
  - split; [constructor|done].
Qed.

Lemma on_engine_inv {A} (m : ST MetricEngine A) : st_safe (engine_ok cfg) m -> st_safe detector_inv (on_engine m : ST (Detector T) A).
Proof. intros Hm d [H1 H2 H3 H4]. unfold on_engine. specialize (Hm _ H1). by destruct (m (dt_engine d)). Qed.
Lemma on_beacon_inv {A} (m : ST BeaconTracker A) : st_safe (beacon_ok cfg) m -> st_safe detector_inv (on_beacon m : ST (Detector T) A).
Proof. intros Hm d [H1 H2 H3 H4]. unfold on_beacon. specialize (Hm _ H2). by destruct (m (dt_beacon d)). Qed.
Lemma on_sampler_inv {A} (m : ST ResourceSampler A) : st_safe sampler_inv m -> st_safe detector_inv (on_sampler m : ST (Detector T) A).
Proof. intros Hm d [H1 H2 H3 H4]. unfold on_sampler. specialize (Hm _ H3). by destruct (m (dt_sampler d)). Qed.

Lemma inv_detector_ok (d : Detector T) : detector_inv d -> detector_ok cfg d.
Proof. intros [H1 H2 H3 _]. split; [done|done|by apply sampler_inv_ok]. Qed.

Lemma checkpoint_rows_ok (d : Detector T) (r : BaselineRow T) : detector_inv d -> r ∈ checkpoint_rows d -> row_ok r.
Proof.
  intros Hd Hr. pose proof (inv_detector_ok d Hd) as [He Hb Hs]. unfold checkpoint_rows in Hr.
  rewrite !elem_of_app in Hr. destruct Hr as [Hr|[Hr|Hr]].
  - destruct (engine_row_key cfg _ r He Hr) as (_ & H1 & H2 & _). right. by right.
  - unfold beacon_rows in Hr. apply list_elem_of_fmap in Hr as (p & -> & _). right. by left.
  - apply sampler_rows_elem in Hr as (k & st & m & _ & _ & ->); [|done]. left. unfold sampler_key. simpl. by destruct m.
Qed.

Lemma delete_row_inv (ok : bool) (r : BaselineRow T) (d : Detector T) : detector_inv d -> detector_inv (delete_checkpoint_row ok r d).
Proof.
  intros [H1 H2 H3 H4]. unfold delete_checkpoint_row. destruct ok; [|done]. split; simpl; [done|done|done|].
  intros x [_ Hx]%list_elem_of_filter. by apply H4.
Qed.

Lemma load_checkpoint_inv (now_s : Z) (ok : bool) (x : BaselineRow T * Z) :
  row_ok x.1 -> st_safe detector_inv (load_checkpoint float_parse cfg now_s ok x).
Proof.
  intros Hx. destruct x as [[[[kind key] window] blob] t]. unfold row_ok in Hx. cbn [fst snd] in Hx. unfold load_checkpoint. cbn [fst snd].
  assert (st_safe detector_inv (do! st_modify (delete_checkpoint_row ok (kind, key, window, blob)); st_ret 0)%st) as Hdrop.
  { apply st_safe_bind; [|auto with st_safe]. apply st_safe_modify. intros d. apply delete_row_inv. }
  destruct (_ && _); [done|]. apply st_safe_bind; [|intros []; [auto with st_safe|done]].
  destruct (startswith "resource." kind) eqn:Hres; [apply on_sampler_inv, sampler_load_inv|].
  destruct (String.eqb_spec window "beacon") as [|Hw]; [apply on_beacon_inv; by apply beacon_load_ok|].
  apply on_engine_inv, load_row_ok; try done. destruct Hx as [?|[?|?]]; [done|done|done].
Qed.
Lemma load_all_inv (now_s : Z) (ok : bool) (rows : list (BaselineRow T * Z)) :
  (forall x, x ∈ rows -> row_ok x.1) -> st_safe detector_inv (load_all float_parse cfg now_s ok rows).
Proof.
  induction rows as [|x rows IH]; intros Hr; simpl; [auto with st_safe|].
  apply st_safe_bind; [apply load_checkpoint_inv, Hr; by left|]. intros n.
  apply st_safe_bind; [apply IH; intros y Hy; apply Hr; by right|auto with st_safe].
Qed.

Lemma checkpoint_inv (db_ok : bool) (now_s : Z) (mono : float64) : st_safe detector_inv (checkpoint db_ok now_s mono : ST (Detector T) unit).
Proof.
  unfold checkpoint. apply st_safe_get_bind. intros d Hd. apply bind_at.
  - destruct Hd as [H1 H2 H3 H4]. split; simpl; [|done|done|done]. destruct H1. by split.
  - intros _ d1 [H1 H2 H3 H4]. destruct (_ && _); [|by split]. split; simpl; [done|done|done|].
    intros x (r & -> & Hr)%list_elem_of_fmap. by apply (checkpoint_rows_ok d).
Qed.

Lemma hand_over_inv {A} (render : A -> string -> option Event) (l : list A) :
  st_safe detector_inv (hand_over_all emit fresh_id render l : ST (Detector T) unit).
Proof.
  induction l as [|x l IH]; simpl; [auto with st_safe|]. apply st_safe_bind; [|by intros _].
  intros d [H1 H2 H3 H4]. unfold hand_over. destruct emit as [accepts|]; [|done]. by destruct (render x _).
Qed.

Lemma absorb_inv (ev : Event) : st_safe detector_inv (absorb cfg sq str_other ev : ST (Detector T) (option BeaconHit)).
Proof.
  unfold absorb. intros d Hd. unfold st_bind at 1, st_lift. destruct (extract_samples str_other ev) as [l|e] eqn:Hx; [|done].
  apply bind_at.
  - apply on_engine_inv; [|done]. apply st_safe_collect. intros s Hs.
    apply st_safe_bind; [|auto with st_safe]. apply ingest_ok; try done. by eapply extract_kinds.
  - intros _. apply on_beacon_inv. unfold observe_beacon. destruct (negb _); [auto with st_safe|].
    destruct (_ || _); [auto with st_safe|]. destruct (dict_get "port" _); auto using beacon_observe_ok with st_safe.
Qed.
Lemma drain_inv (n : nat) (hits : list (string * BeaconHit)) :
  st_safe detector_inv (drain cfg sq str_other n hits : ST (Detector T) (list (string * BeaconHit))).
Proof.
  revert hits. induction n as [|n IH]; intros hits; simpl; [auto with st_safe|]. intros d Hd.
  destruct (dt_queue d) as [|ev q]; [done|]. apply bind_at; [destruct Hd; by split|]. intros _.
  apply st_safe_bind; [apply absorb_inv|]. intros hit. apply IH.
Qed.
Lemma flush_tracker_inv (ok : nat -> bool) (d : Detector T) : detector_inv d -> detector_inv (flush_tracker ok d).
Proof. intros [H1 H2 H3 H4]. unfold flush_tracker. destruct (flush _ _ _). by split. Qed.

Lemma detector_tick_inv (i : TickIn) (d : Detector T) :
  detector_inv d -> detector_inv (detector_tick cfg sq str_other py_float fmt round emit fresh_id i d).
Proof.
  intros Hd%(flush_tracker_inv (ti_flush_ok i)). unfold detector_tick. revert Hd. generalize (flush_tracker (ti_flush_ok i) d).
  intros d0 Hd0. revert d0 Hd0. unfold tick_body.
  apply st_safe_bind; [auto with st_safe|]. intros d0. apply st_safe_bind; [apply drain_inv|]. intros hits.
  apply st_safe_bind; [by apply on_engine_inv, tick_ok|]. intros signals.
  apply st_safe_bind; [apply hand_over_inv|]. intros _. apply st_safe_bind; [apply hand_over_inv|]. intros _.
  apply st_safe_bind; [auto with st_safe|]. intros d1. destruct (fle _ _); [apply checkpoint_inv|auto with st_safe].
Qed.
Lemma sample_resources_inv (pw : ProcWorld) (pid : Z) (units : option (list string)) (mono : float64) (now : Z) (d : Detector T) :
  detector_inv d -> detector_inv (sample_resources cfg sq clk_tck py_float fmt round emit fresh_id pw pid units mono now d).
Proof.
  intros Hd. unfold sample_resources. revert d Hd. apply st_safe_bind; [apply on_sampler_inv, sample_inv|].
  intros signals. apply hand_over_inv.
Qed.
Lemma stop_inv (alive : bool) (i : TickIn) (d : Detector T) : detector_inv d -> detector_inv (stop alive i d).
Proof. intros Hd. unfold stop. destruct alive; [done|]. by apply checkpoint_inv, flush_tracker_inv. Qed.
End Steps.

(** ** Runs with restarts *)

Section Runs.
Context {T : Type} `{JsonText T} (float_parse : string -> option float64) (cfg : AnomalyConfig).
Context (sq : float64 -> result PyErr float64) (str_other : pyval -> string) (clk_tck : Z).
Context (py_float : float64 -> pyval) (fmt : string -> float64 -> string) (round : float64 -> Z -> float64).
Context (emit : option (Event -> bool)) (fresh_id : nat -> string).

Definition enqueue (ev : Event) (d : Detector T) : Detector T :=
  mkDetector T (dt_engine d) (dt_beacon d) (dt_sampler d) (dt_tracker d) (dt_last_checkpoint d) (dt_queue d ++ [ev]) (dt_table d)
    (dt_first_seen d) (dt_emitted d).

(** What may happen to the detector: the router hands it an event, either
    periodic job runs, it stops, or the daemon starts again on the table it
    left, whose rows come in any order. *)
Inductive dstep : Detector T -> Detector T -> Prop :=
| step_event d ev : dstep d (enqueue ev d)
| step_tick d i : dstep d (detector_tick cfg sq str_other py_float fmt round emit fresh_id i d)
| step_sample d pw pid units mono now :
    dstep d (sample_resources cfg sq clk_tck py_float fmt round emit fresh_id pw pid units mono now d)
| step_stop d alive i : dstep d (stop alive i d)
| step_restart d mono tracker now_s ok rows :
    rows ≡ₚ dt_table d ->
    dstep d (load_checkpoints float_parse cfg now_s ok (Some rows) (detector_init mono tracker (dt_table d) (dt_first_seen d))).2.

Lemma dstep_inv (d d' : Detector T) :
  0 <= ac_max_entities_per_metric cfg -> detector_inv cfg d -> dstep d d' -> detector_inv cfg d'.
Proof.
  intros Hmax Hd Hstep. destruct Hstep.
  - destruct Hd. by split.
  - by apply detector_tick_inv.
  - by apply sample_resources_inv.
  - by apply stop_inv.
  - apply load_all_inv; [done| |apply detector_inv_init; [done|apply Hd]].
    intros x Hx. apply (di_table cfg d Hd). by rewrite <- H0.
Qed.
Lemma reach_inv (d0 d : Detector T) :
  0 <= ac_max_entities_per_metric cfg -> detector_inv cfg d0 -> rtc dstep d0 d -> detector_inv cfg d.
Proof. intros Hmax Hd0 Hr. induction Hr; [done|]. apply IHHr. by eapply dstep_inv. Qed.

(** A complete set of rows gives everything back. *)
Lemma part_full (seen : list RowKey) (k : Key) (ws : WindowedStats) :
  (forall w, (k, window_name w) ∈ seen) -> part seen k ws = ws.
Proof.
  intros Hall. unfold part, seen_ring, seen_accum. rewrite !decide_True by apply Hall. by destruct ws.
Qed.

Definition same_baselines (d d1 : Detector T) : Prop :=
  (forall k, od_get k (en_stats (dt_engine d1)) = od_get k (en_stats (dt_engine d)))
  /\ (forall k, en_entities (dt_engine d1) !! k = en_entities (dt_engine d) !! k)
  /\ (forall k, od_get k (bt_keys (dt_beacon d1)) = reloaded <$> od_get k (bt_keys (dt_beacon d)))
  /\ (forall k m, rings_of (dt_sampler d1) k m = rings_of (dt_sampler d) k m).

Lemma engine_row_in (d : Detector T) (k : Key) (ws : WindowedStats) (w : Window) :
  NoDup (en_stats (dt_engine d)).*1 -> od_get k (en_stats (dt_engine d)) = Some ws ->
  (k, window_name w) ∈ row_key <$> checkpoint_rows d.
Proof.
  intros Hnd Hws. unfold checkpoint_rows. rewrite fmap_app, elem_of_app. left.
  apply list_elem_of_fmap. exists (k.1, k.2, window_name w, serialize_window ws w). split; [by destruct k|].
  apply list_elem_of_bind. exists (k, ws). split; [|by apply od_get_elem]. unfold key_rows. apply elem_of_app. left.
  apply list_elem_of_fmap. exists w. split; [done|]. unfold WINDOWS. rewrite !elem_of_cons. destruct w; auto.
Qed.
Lemma entity_row_in (d : Detector T) (k : Key) (x : string * list (string * jval)) (l : Entity) :
  NoDup (en_stats (dt_engine d)).*1 -> k ∈ (en_stats (dt_engine d)).*1 -> en_entities (dt_engine d) !! k = Some (x :: l) ->
  (k, "entity"%string) ∈ row_key <$> checkpoint_rows d.
Proof.
  intros Hnd Hk Hent. destruct (od_get k (en_stats (dt_engine d))) as [ws|] eqn:Hws; [|by apply od_get_None in Hws].
  unfold checkpoint_rows. rewrite fmap_app, elem_of_app. left.
  apply list_elem_of_fmap. exists (k.1, k.2, "entity"%string, json_dump (entity_doc (x :: l))). split; [by destruct k|].
  apply list_elem_of_bind. exists (k, ws). split; [|by apply od_get_elem]. unfold key_rows. apply elem_of_app. right.
  unfold entity_rows. simpl. rewrite Hent. by apply list_elem_of_singleton.
Qed.

Lemma restored_all (d d1 : Detector T) (seen : list RowKey) :
  detector_ok cfg d -> restored d seen d1 -> (forall y, y ∈ seen <-> y ∈ row_key <$> checkpoint_rows d) -> same_baselines d d1.
Proof.
  intros [He Hb Hs] [Re Rb Rs] Hall.
  assert (forall k, od_get k (en_stats (dt_engine d1)) = od_get k (en_stats (dt_engine d))) as Hstats.
  { intros k. rewrite (er_stats _ _ _ Re). destruct (od_get k (en_stats (dt_engine d))) as [ws|] eqn:Hws; [|by case_decide].
    assert (forall w, (k, window_name w) ∈ seen) as Hw by (intros w; apply Hall; eapply engine_row_in; [apply He|done]).
    rewrite decide_True; [simpl; by rewrite part_full|]. apply list_elem_of_fmap. by exists (k, window_name W1h). }
  split_and!; [done| | |].
  - intros k. rewrite (er_entities _ _ _ Re), Hstats.
    destruct (od_get k (en_stats (dt_engine d))) as [ws|] eqn:Hws.
    + pose proof (od_get_Some_mem _ _ _ Hws) as Hk. destruct (proj2 (eo_entities cfg _ He k) Hk) as [[|x l] Hent]; rewrite Hent.
      * unfold part_entity. rewrite Hent. by case_decide.
      * unfold part_entity. rewrite Hent, decide_True; [done|]. apply Hall. eapply entity_row_in; [apply He|done|done].
    + symmetry. apply eq_None_not_Some. rewrite (eo_entities cfg _ He). by apply od_get_None.
  - intros k. rewrite (br_keys _ _ _ Rb). destruct (od_get k (bt_keys (dt_beacon d))) as [st|] eqn:Hst; [|by case_decide].
    rewrite decide_True; [done|]. apply Hall. unfold checkpoint_rows. rewrite !fmap_app, !elem_of_app, beacon_rows_keys.
    right. left. apply list_elem_of_fmap. exists k. split; [done|]. by eapply od_get_Some_mem.
  - intros k m. rewrite (sr_rings _ _ _ Rs). case_decide as Hin; [done|]. unfold rings_of.
    destruct (od_get k (dt_sampler d)) as [st|] eqn:Hst; [|done]. destruct (ring_1h m st) eqn:Hr; [done|]. exfalso. apply Hin, Hall.
    unfold checkpoint_rows. rewrite !fmap_app, !elem_of_app. right. right. apply list_elem_of_fmap.
    exists (sampler_key m k, serialize_window (bl_stats (baseline m st)) W1h). split; [done|].
    apply sampler_rows_elem; [done|]. exists k, st, m. split_and!; [done|by rewrite Hr|done].
Qed.
End Runs.

(** C12. A restart gives the baselines back. Whatever events, ticks, failures
    of the database and earlier restarts the detector has seen, a checkpoint
    the database accepts has no two rows with the same primary key and
    replaces the whole table; a daemon that starts within a day on that table,
    reading its rows in any order, loads every one of them, deletes none, and
    has for each entity the same three windows, accumulators and rendering
    context, for each beacon key the same gaps, and for each service the same
    resource rings. *)
Theorem checkpoint_restores {T : Type} `{JsonText T} (float_parse : string -> option float64) (cfg : AnomalyConfig)
    (sq : float64 -> result PyErr float64) (str_other : pyval -> string) (clk_tck : Z) (py_float : float64 -> pyval)
    (fmt : string -> float64 -> string) (round : float64 -> Z -> float64) (emit : option (Event -> bool))
    (fresh_id : nat -> string) (mono0 : float64) (tracker0 : Tracker) (d : Detector T) (now_s : Z) (mono : float64) :
  (forall v, json_load (json_dump v : T) = Some v) ->
  0 <= ac_max_entities_per_metric cfg ->
  rtc (dstep float_parse cfg sq str_other clk_tck py_float fmt round emit fresh_id) (detector_init mono0 tracker0 [] []) d ->
  exists d', checkpoint true now_s mono d = (Ok tt, d')
    /\ dt_table d' = ((fun r => (r, now_s)) <$> checkpoint_rows d)
    /\ forall rows now_s' ok mono' tracker fs, rows ≡ₚ dt_table d' -> now_s' - now_s <= RESOURCE_CHECKPOINT_MAX_AGE_S ->
       exists d1, load_checkpoints float_parse cfg now_s' ok (Some rows) (detector_init mono' tracker (dt_table d') fs)
            = (Ok (Z.of_nat (length rows)), d1)
         /\ dt_table d1 = dt_table d' /\ same_baselines d d1.
Proof.
  intros Hjson Hmax Hreach.
  assert (detector_inv cfg d) as Hinv.
  { eapply reach_inv; [exact Hmax| |exact Hreach]. apply detector_inv_init; [done|]. by intros x ?%not_elem_of_nil. }
  pose proof (inv_detector_ok cfg d Hinv) as Hok.
  unfold checkpoint, st_bind, st_get, on_engine. simpl.
  rewrite bool_decide_eq_true_2 by (by apply (checkpoint_keys_unique cfg)). eexists. split; [reflexivity|]. split; [done|].
  simpl. intros rows now_s' ok mono' tracker fs Hperm Hage.
  assert (row_key <$> rows.*1 ≡ₚ row_key <$> checkpoint_rows d) as Hkeys.
  { assert (((fun r => (r, now_s)) <$> checkpoint_rows d).*1 = checkpoint_rows d) as Hfst
      by (rewrite <- list_fmap_compose; apply list_fmap_id).
    by rewrite Hperm, Hfst. }
  destruct (load_all_rows float_parse Hjson cfg d
    (detector_init mono' tracker ((fun r => (r, now_s)) <$> checkpoint_rows d) fs) [] rows now_s' ok Hok)
    as (d2 & seen & Hload & Hres & Htab & Hseen).
  - split; (split; simpl; [constructor|..]); try done; intros; try (by case_decide); by rewrite lookup_empty.
  - intros x Hx. rewrite Hperm in Hx. apply list_elem_of_fmap in Hx as (r & -> & Hr). done.
  - rewrite Hkeys. by apply (checkpoint_keys_unique cfg).
  - intros x _. apply not_elem_of_nil.
  - exists d2. split; [exact Hload|]. split; [exact Htab|]. apply (restored_all cfg d d2 seen Hok Hres).
    intros y. rewrite Hseen, Hkeys. split; [by intros [?%not_elem_of_nil|?]|by right].
Qed.

(** The detector's own signals contribute no sample and no beacon: there is no
    feedback. *)
Theorem own_signals_ignored (cfg : AnomalyConfig) (sq : float64 -> result PyErr float64) (str_other : pyval -> string)
    (py_float : float64 -> pyval) (fmt : string -> float64 -> string) (round : float64 -> Z -> float64)
    (data : SignalData) (hit : BeaconHit) (sig : ResourceSignal) (now : Z) (event_id : string) (ev : Event) (b : BeaconTracker) :
  signal_event py_float fmt round data now event_id = Some ev \/ beacon_event py_float fmt round hit now event_id = Some ev
  \/ resource_event py_float fmt round sig now event_id = Some ev ->
  extract_samples str_other ev = Ok [] /\ observe_beacon cfg sq str_other ev b = (Ok None, b).
Proof.
  intros [H|[H|H]]; unfold signal_event, beacon_event, resource_event, with_baseline in H;
    apply fmap_Some_1 in H as (ev0 & Hev & ->); injection Hev as <-; split; try done.
  unfold observe_beacon. simpl. by destruct (rs_is_self sig).
Qed.

(** A row whose ring holds an integer no float can hold is not treated as
    corrupt: the conversion raises [OverflowError], which the loader does not
    catch, so [load_checkpoints] raises and the row stays in the table for the
    next start. *)
Theorem overflow_row_fails_startup {T : Type} `{JsonText T} (float_parse : string -> option float64) (cfg : AnomalyConfig)
    (now_s t z : Z) (ok : bool) (mono : float64) (tracker : Tracker) (fs : list SightingRow) (kind key : string) (blob : T)
    (rest : list (BaselineRow T * Z)) :
  startswith "resource." kind = false -> 1 <= ac_max_entities_per_metric cfg ->
  json_load blob = Some (JDict [("ring"%string, JList [JInt z])]) -> float_of_int z = Err OverflowError ->
  let table := (kind, key, "1h"%string, blob, t) :: rest in
  exists d, load_checkpoints float_parse cfg now_s ok (Some table) (detector_init mono tracker table fs) = (Err OverflowError, d)
    /\ dt_table d = table.
Proof.
  intros Hk Hmax Hblob Hz table. unfold load_checkpoints, table. simpl load_all. unfold st_bind at 1, load_checkpoint. cbn [fst snd].
  rewrite Hk. simpl. unfold load_row. simpl. unfold st_bind, on_engine, st_get. simpl.
  unfold admit_key, st_bind, st_get, tracked. simpl. rewrite (proj2 (Z.leb_gt _ _)) by lia. simpl.
  rewrite decide_True by done. unfold load_window. simpl. rewrite Hblob. unfold parse_window. simpl. rewrite Hz. simpl.
  by eexists.
Qed.

(** Texts that are their own documents. *)
#[export] Instance plain_text : JsonText jval := {| json_dump := id; json_load := Some |}.

Module DetectorExample.
Definition login : Event :=
  default (mkEvent "" 0 "" EK_event [] [] "" None SevInfo "" false None None None None None None None None None None None None
             None None None None None None [] None)
    (build_event 0 "e1"
       {| a_module := "auth"; a_action := "ssh_login_succeeded"; a_category := ["authentication"%string]; a_type := ["info"%string];
          a_severity := "info"; a_kind := "event"; a_host := None; a_outcome := None; a_message := None; a_process := None;
          a_file := None; a_user := Some [("name", PStr "root")]%string; a_source := None; a_destination := None; a_network := None;
          a_service := None; a_package := None; a_device := None; a_persistence := None; a_vulnerability := None; a_hunt := None;
          a_threat := None; a_raw := None; a_labels := None; a_ts := Some 90000000; a_first_seen := false |}).
Definition no_floats (s : string) : option float64 := None.
Definition text (s : string) (x : float64) : string := EmptyString.
Definition start : Detector jval := detector_init fzero tracker_init [] [].
Definition at_180s : TickIn := mkTickIn (fun _ => true) true 180000000 180 (float_lit 180 1).
Definition after_tick : Detector jval :=
  detector_tick anomaly_defaults square (fun _ => EmptyString) (fun _ => PNone) text (fun x _ => x) None str_of_nat at_180s
    (enqueue login start).
End DetectorExample.

Lemma checkpoint_restores_witness :
  exists d', checkpoint true 200 (float_lit 200 1) DetectorExample.after_tick = (Ok tt, d')
    /\ length (dt_table d') = 4%nat
    /\ exists d1, load_checkpoints DetectorExample.no_floats anomaly_defaults 300 true (Some (rev (dt_table d')))
           (detector_init fzero tracker_init (dt_table d') []) = (Ok 4, d1)
       /\ od_get ("logins_per_min", "root")%string (en_stats (dt_engine d1))
          = Some (mkWS [float_lit 1 1; fzero] [] [] (float_lit 1 1, 2) (float_lit 1 1, 2)).
Proof.
  destruct (checkpoint_restores DetectorExample.no_floats anomaly_defaults square (fun _ => EmptyString) 100 (fun _ => PNone)
    DetectorExample.text (fun x _ => x) None str_of_nat fzero tracker_init DetectorExample.after_tick 200 (float_lit 200 1))
    as (d' & Hc & Ht & Hload).
  - done.
  - vm_compute. discriminate.
  - eapply rtc_l; [apply step_event|]. apply rtc_once. apply step_tick.
  - exists d'. split; [exact Hc|]. assert (length (dt_table d') = 4%nat) as Hl by (rewrite Ht; vm_compute; reflexivity).
    split; [exact Hl|].
    destruct (Hload (rev (dt_table d')) 300 true fzero tracker_init []) as (d1 & Hrun & _ & Hsame & _).
    + symmetry. apply Permutation_rev.
    + vm_compute. discriminate.
    + exists d1. rewrite Hrun. rewrite length_rev, Hl. split; [reflexivity|]. rewrite Hsame. vm_compute. reflexivity.
Defined.
