(* ===== verification/Regex.v ===== *)
(** * Regular expressions ([re.Pattern.search] and [match])

    The part of Python's [re] the parsers and the scrubbing rules use: literals,
    characters of a class, their greedy and lazy repetition, optional parts,
    alternatives, named groups and the end of the text, matched by backtracking
    in the order of the engine. The matcher hands what is left of the text to a
    continuation, so it is structural in the pattern. *)

From S2P Require Import Prelude.

Inductive re :=
| RLit (w : string)
| RPlus (p : ascii -> bool)
| RStar (p : ascii -> bool)
| RSeq (a b : re)
| RAlt (a b : re)
| ROpt (a : re)
| RGroup (name : string) (a : re)
| REol
| RChar (p : ascii -> bool)
| RLazy (p : ascii -> bool)   (** [*?] of a class *)
| REnd.                       (** [\Z] *)

Declare Scope re_scope.
Delimit Scope re_scope with re.
Infix "+++" := RSeq (at level 60, right associativity) : re_scope.

(** The groups matched so far, the last one first. *)
Abbreviation Groups := (list (string * string)).

(** What is left after [lit], if the text starts with it. *)
Fixpoint eat (w s : string) : option string :=
  match w, s with
  | EmptyString, _ => Some s
  | String c w', String d s' => if Ascii.eqb c d then eat w' s' else None
  | String _ _, EmptyString => None
  end.

(** Greedy repetition: longest first, giving characters back one by one. *)
Fixpoint reps {A} (p : ascii -> bool) (s : string) (k : string -> option A) : option A :=
  match s with
  | EmptyString => k s
  | String c s' =>
      if p c then match reps p s' k with Some x => Some x | None => k s end else k s
  end.

(** Lazy repetition: shortest first. *)
Fixpoint reps_lazy {A} (p : ascii -> bool) (s : string) (k : string -> option A) : option A :=
  match k s with
  | Some x => Some x
  | None => match s with
            | EmptyString => None
            | String c s' => if p c then reps_lazy p s' k else None
            end
  end.

(** The text between two positions of [s]. *)
Definition consumed (s s' : string) : string := str_take (String.length s - String.length s') s.

Fixpoint matcher {A} (r : re) (s : string) (g : Groups) (k : string -> Groups -> option A)
  : option A :=
  match r with
  | RLit w => match eat w s with Some s' => k s' g | None => None end
  | RPlus p =>
      match s with
      | String c s' => if p c then reps p s' (fun s2 => k s2 g) else None
      | EmptyString => None
      end
  | RStar p => reps p s (fun s2 => k s2 g)
  | RSeq a b => matcher a s g (fun s2 g2 => matcher b s2 g2 k)
  | RAlt a b => match matcher a s g k with Some x => Some x | None => matcher b s g k end
  | ROpt a => match matcher a s g k with Some x => Some x | None => k s g end
  | RGroup name a => matcher a s g (fun s2 g2 => k s2 ((name, consumed s s2) :: g2))
  | REol => if String.eqb s EmptyString || String.eqb s (String newline EmptyString)
            then k s g else None
  | RChar p =>
      match s with
      | String c s' => if p c then k s' g else None
      | EmptyString => None
      end
  | RLazy p => reps_lazy p s (fun s2 => k s2 g)
  | REnd => match s with EmptyString => k s g | String _ _ => None end
  end.

(** [Pattern.match] and [Pattern.search]. *)
Definition re_match (r : re) (s : string) : option Groups := matcher r s [] (fun _ g => Some g).
Fixpoint re_search (r : re) (s : string) : option Groups :=
  match re_match r s with
  | Some g => Some g
  | None => match s with EmptyString => None | String _ s' => re_search r s' end
  end.

(** [m.group(name)]; the last binding of a name wins. *)
Fixpoint group (name : string) (g : Groups) : string :=
  match g with
  | [] => EmptyString
  | (n, t) :: g' => if String.eqb n name then t else group name g'
  end.

(** ** What it means to match *)

(** [r] matches a prefix of the text, leaving the rest, and binds groups. *)
Inductive Match : re -> string -> Groups -> string -> Groups -> Prop :=
| MLit w s g : Match (RLit w) (w +:+ s) g s g
| MPlus (p : ascii -> bool) w s g :
    w <> EmptyString -> str_forall p w = true -> Match (RPlus p) (w +:+ s) g s g
| MStar (p : ascii -> bool) w s g : str_forall p w = true -> Match (RStar p) (w +:+ s) g s g
| MSeq a b s1 g1 s2 g2 s3 g3 :
    Match a s1 g1 s2 g2 -> Match b s2 g2 s3 g3 -> Match (RSeq a b) s1 g1 s3 g3
| MAltL a b s1 g1 s2 g2 : Match a s1 g1 s2 g2 -> Match (RAlt a b) s1 g1 s2 g2
| MAltR a b s1 g1 s2 g2 : Match b s1 g1 s2 g2 -> Match (RAlt a b) s1 g1 s2 g2
| MOpt a s1 g1 s2 g2 : Match a s1 g1 s2 g2 -> Match (ROpt a) s1 g1 s2 g2
| MSkip a s g : Match (ROpt a) s g s g
| MGroup name a w s g g2 :
    Match a (w +:+ s) g s g2 -> Match (RGroup name a) (w +:+ s) g s ((name, w) :: g2)
| MEol s g : s = EmptyString \/ s = String newline EmptyString -> Match REol s g s g
| MChar (p : ascii -> bool) c s g : p c = true -> Match (RChar p) (String c s) g s g
| MLazy (p : ascii -> bool) w s g : str_forall p w = true -> Match (RLazy p) (w +:+ s) g s g
| MEnd g : Match REnd EmptyString g EmptyString g.

Lemma eat_spec (w s s' : string) : eat w s = Some s' <-> s = w +:+ s'.
Proof.
  revert s. induction w as [|c w IH]; intros s; cbn.
  - split; [by intros [= ->] | by intros ->].
  - destruct s as [|d s]; [done|]. destruct (Ascii.eqb_spec c d) as [->|Hne].
    + rewrite IH. split; [by intros -> | by intros [= ->]].
    + split; [done|]. by intros [= ? ?].
Qed.

Lemma consumed_app (w s : string) : consumed (w +:+ s) s = w.
Proof.
  unfold consumed. rewrite slength_app.
  replace (String.length w + String.length s - String.length s)%nat with (String.length w) by lia.
  rewrite str_take_app, str_take_all by lia. rewrite Nat.sub_diag. by destruct s; rewrite sapp_nil_r.
Qed.

Lemma reps_sound {A} (p : ascii -> bool) (s : string) (k : string -> option A) (x : A) :
  reps p s k = Some x -> exists w s', s = w +:+ s' /\ str_forall p w = true /\ k s' = Some x.
Proof.
  induction s as [|c s IH]; cbn; [by exists EmptyString, EmptyString|].
  destruct (p c) eqn:Hp; [|by exists EmptyString, (String c s)].
  destruct (reps p s k) as [y|].
  - intros [= ->]. destruct IH as (w & s' & -> & Hw & Hk); [done|].
    exists (String c w), s'. cbn. by rewrite Hp.
  - intros Hk. by exists EmptyString, (String c s).
Qed.

Lemma reps_complete {A} (p : ascii -> bool) (w s' : string) (k : string -> option A) :
  str_forall p w = true -> is_Some (k s') -> is_Some (reps p (w +:+ s') k).
Proof.
  intros Hw Hk. induction w as [|c w IH]; cbn.
  - destruct s' as [|c s']; cbn; [done|]. destruct (p c); [|done]. by destruct (reps p s' k).
  - cbn in Hw. apply andb_prop in Hw as [-> Hw]. destruct (IH Hw) as [x ->]. done.
Qed.

Lemma reps_lazy_sound {A} (p : ascii -> bool) (s : string) (k : string -> option A) (x : A) :
  reps_lazy p s k = Some x -> exists w s', s = w +:+ s' /\ str_forall p w = true /\ k s' = Some x.
Proof.
  induction s as [|c s IH]; cbn; (destruct (k _) eqn:Hk; [intros [= ->]; by exists EmptyString; eexists|]); [done|].
  destruct (p c) eqn:Hp; [|done]. intros (w & s' & -> & Hw & Hk')%IH. exists (String c w), s'. cbn. by rewrite Hp.
Qed.

Lemma reps_lazy_complete {A} (p : ascii -> bool) (w s' : string) (k : string -> option A) :
  str_forall p w = true -> is_Some (k s') -> is_Some (reps_lazy p (w +:+ s') k).
Proof.
  intros Hw Hk. induction w as [|c w IH]; cbn.
  - destruct Hk as [x Hx]. destruct s'; cbn; rewrite Hx; by exists x.
  - cbn in Hw. apply andb_prop in Hw as [-> Hw]. destruct (k (String c (w +:+ s'))) as [x|]; [by exists x | by apply IH].
Qed.

Lemma Match_suffix (r : re) (s : string) (g : Groups) (s' : string) (g' : Groups) :
  Match r s g s' g' -> exists w, s = w +:+ s'.
Proof.
  induction 1 as [| | |? ? ? ? ? ? ? ? _ [w ->] _ [w' ->]| | | | | | |p c s g _| |];
    try (by eexists); try done; try (by exists EmptyString).
  - exists (w +:+ w'). by rewrite sapp_assoc.
  - by exists (String c EmptyString).
Qed.

Lemma matcher_sound {A} (r : re) (s : string) (g : Groups) (k : string -> Groups -> option A) (x : A) :
  matcher r s g k = Some x -> exists s' g', Match r s g s' g' /\ k s' g' = Some x.
Proof.
  revert s g k. induction r as [w|p|p|a IHa b IHb|a IHa b IHb|a IHa|name a IHa| |p|p|]; intros s g k; cbn.
  - destruct (eat w s) as [s'|] eqn:E; [|done]. apply eat_spec in E as ->. intros Hk.
    exists s', g. split; [constructor | done].
  - destruct s as [|c s]; [done|]. destruct (p c) eqn:Hp; [|done].
    intros (w & s' & -> & Hw & Hk)%reps_sound. exists s', g. split; [|done].
    apply (MPlus p (String c w)); [done|]. cbn. by rewrite Hp.
  - intros (w & s' & -> & Hw & Hk)%reps_sound. exists s', g. split; [by constructor | done].
  - intros (s2 & g2 & Ha & (s3 & g3 & Hb & Hk)%IHb)%IHa. exists s3, g3. split; [by econstructor | done].
  - destruct (matcher a s g k) as [y|] eqn:E.
    + intros [= ->]. apply IHa in E as (s2 & g2 & Ha & Hk). exists s2, g2. split; [by constructor|done].
    + intros (s2 & g2 & Hb & Hk)%IHb. exists s2, g2. split; [by apply MAltR | done].
  - destruct (matcher a s g k) as [y|] eqn:E.
    + intros [= ->]. apply IHa in E as (s2 & g2 & Ha & Hk). exists s2, g2. split; [by constructor|done].
    + intros Hk. exists s, g. split; [by constructor | done].
  - intros (s2 & g2 & Ha & Hk)%IHa. exists s2, ((name, consumed s s2) :: g2). split; [|done].
    destruct (Match_suffix _ _ _ _ _ Ha) as [w ->]. rewrite consumed_app. by constructor.
  - destruct (String.eqb_spec s EmptyString) as [->|]; cbn.
    { intros Hk. exists EmptyString, g. split; [constructor; by left | done]. }
    destruct (String.eqb_spec s (String newline EmptyString)) as [->|]; [|done].
    intros Hk. exists (String newline EmptyString), g. split; [constructor; by right | done].
  - destruct s as [|c s]; [done|]. destruct (p c) eqn:Hp; [|done]. intros Hk.
    exists s, g. split; [by constructor | done].
  - intros (w & s' & -> & Hw & Hk)%reps_lazy_sound. exists s', g. split; [by constructor | done].
  - destruct s; [|done]. intros Hk. exists EmptyString, g. split; [constructor | done].
Qed.

Lemma matcher_complete {A} (r : re) (s : string) (g : Groups) (s' : string) (g' : Groups)
    (k : string -> Groups -> option A) :
  Match r s g s' g' -> is_Some (k s' g') -> is_Some (matcher r s g k).
Proof.
  intros HM. revert k.
  induction HM as [w s g|p w s g Hne Hw|p w s g Hw|a b s1 g1 s2 g2 s3 g3 _ IHa _ IHb
    |a b s1 g1 s2 g2 _ IHa|a b s1 g1 s2 g2 _ IHb|a s1 g1 s2 g2 _ IHa|a s g|name a w s g g2 _ IHa
    |s g Hs|p c s g Hp|p w s g Hw|g]; intros k Hk; cbn.
  - by rewrite (proj2 (eat_spec w _ s) eq_refl).
  - destruct w as [|c w]; [done|]. cbn in *. apply andb_prop in Hw as [-> Hw].
    by apply reps_complete.
  - by apply reps_complete.
  - apply IHa, IHb, Hk.
  - destruct (IHa k Hk) as [x ->]. done.
  - destruct (matcher a s1 g1 k); [done | by apply IHb].
  - destruct (IHa k Hk) as [x ->]. done.
  - by destruct (matcher a s g k).
  - apply IHa. by rewrite consumed_app.
  - destruct Hs as [->| ->]; exact Hk.
  - by rewrite Hp.
  - by apply reps_lazy_complete.
  - done.
Qed.

(** [re_match] decides whether some prefix of the text matches, and what it
    binds is bound by a match. *)
Lemma re_match_Some (r : re) (s : string) (g : Groups) :
  re_match r s = Some g -> exists s', Match r s [] s' g.
Proof. intros (s' & g' & HM & [= ->])%matcher_sound. by exists s'. Qed.

Lemma re_match_None (r : re) (s : string) :
  re_match r s = None <-> forall s' g, ~ Match r s [] s' g.
Proof.
  split.
  - intros Hn s' g HM. destruct (matcher_complete r s [] s' g (fun _ g => Some g) HM) as [x Hx];
      [by eexists|]. unfold re_match in Hn. congruence.
  - intros Hno. destruct (re_match r s) as [g|] eqn:E; [|done].
    apply re_match_Some in E as [s' HM]. by destruct (Hno s' g).
Qed.

(** [re_search] finds the leftmost matching position, or there is none. *)
Lemma re_search_Some (r : re) (s : string) (g : Groups) :
  re_search r s = Some g ->
  exists pre here, s = pre +:+ here /\ re_match r here = Some g /\
    forall a c b, pre = a +:+ String c b -> re_match r (String c b +:+ here) = None.
Proof.
  induction s as [|c s IH]; cbn [re_search]; destruct (re_match r _) as [g'|] eqn:E.
  - intros [= ->]. exists EmptyString, EmptyString. split_and!; [done..|]. by intros [].
  - done.
  - intros [= ->]. exists EmptyString, (String c s). split_and!; [done..|]. by intros [].
  - intros Hs. destruct (IH Hs) as (pre & here & -> & Hm & Hno). exists (String c pre), here.
    split_and!; [done..|]. intros [|d a] c' b Heq; cbn in Heq; injection Heq as -> ->; [done|].
    by eapply Hno.
Qed.

Lemma re_search_None (r : re) (s : string) :
  re_search r s = None <-> forall a b, s = a +:+ b -> re_match r b = None.
Proof.
  split.
  - induction s as [|c s IH]; cbn [re_search]; destruct (re_match r _) eqn:E; try done; intros Hs [|d a] b;
      cbn; [by intros <-|done|by intros <-|]. intros [= -> ->]. by eapply IH.
  - induction s as [|c s IH]; intros Hno; cbn [re_search].
    + by rewrite (Hno EmptyString EmptyString eq_refl).
    + rewrite (Hno EmptyString (String c s) eq_refl). apply IH. intros a b ->. by apply (Hno (String c a)).
Qed.

(** ** Running a pattern over known text *)

(** The text does not start with a character of the class. *)
Definition stops (p : ascii -> bool) (s : string) : bool :=
  match s with EmptyString => true | String c _ => negb (p c) end.

Lemma eat_app (w s : string) : eat w (w +:+ s) = Some s.
Proof. by apply eat_spec. Qed.

Lemma reps_greedy {A} (p : ascii -> bool) (w s : string) (k : string -> option A) (x : A) :
  str_forall p w = true -> stops p s = true -> k s = Some x -> reps p (w +:+ s) k = Some x.
Proof.
  intros Hw Hs Hk. induction w as [|c w IH]; cbn.
  - destruct s as [|c s]; cbn in *; [done|]. by apply negb_true_iff in Hs as ->.
  - cbn in Hw. apply andb_prop in Hw as [-> Hw]. by rewrite IH.
Qed.

Section Run.
Context {A : Type}.
Implicit Types (k : string -> Groups -> option A) (x : A).

Lemma run_lit (w s : string) g k : matcher (RLit w) (w +:+ s) g k = k s g.
Proof. cbn. by rewrite eat_app. Qed.

Lemma run_seq (a b : re) (s : string) g k :
  matcher (RSeq a b) s g k = matcher a s g (fun s2 g2 => matcher b s2 g2 k).
Proof. done. Qed.

Lemma run_plus (p : ascii -> bool) (w s : string) g k x :
  w <> EmptyString -> str_forall p w = true -> stops p s = true -> k s g = Some x ->
  matcher (RPlus p) (w +:+ s) g k = Some x.
Proof.
  intros Hne Hw Hs Hk. destruct w as [|c w]; [done|]. cbn in *. apply andb_prop in Hw as [-> Hw].
  by apply reps_greedy.
Qed.

Lemma run_star (p : ascii -> bool) (w s : string) g k x :
  str_forall p w = true -> stops p s = true -> k s g = Some x ->
  matcher (RStar p) (w +:+ s) g k = Some x.
Proof. intros. cbn. by apply reps_greedy. Qed.

(** A group around a repetition binds exactly the repeated text. *)
Lemma run_group_plus (name : string) (p : ascii -> bool) (w s : string) g k x :
  w <> EmptyString -> str_forall p w = true -> stops p s = true ->
  k s ((name, w) :: g) = Some x ->
  matcher (RGroup name (RPlus p)) (w +:+ s) g k = Some x.
Proof.
  intros Hne Hw Hs Hk.
  change (matcher (RPlus p) (w +:+ s) g
    (fun s2 g2 => k s2 ((name, consumed (w +:+ s) s2) :: g2)) = Some x).
  apply run_plus; [done..|]. by rewrite consumed_app.
Qed.

Lemma run_opt_skip (a : re) (s : string) g k x :
  matcher a s g k = None -> k s g = Some x -> matcher (ROpt a) s g k = Some x.
Proof. intros H Hk. cbn. by rewrite H. Qed.
Lemma run_opt_take (a : re) (s : string) g k x :
  matcher a s g k = Some x -> matcher (ROpt a) s g k = Some x.
Proof. intros H. cbn. by rewrite H. Qed.

Lemma run_alt_left (a b : re) (s : string) g k x :
  matcher a s g k = Some x -> matcher (RAlt a b) s g k = Some x.
Proof. intros H. cbn. by rewrite H. Qed.
Lemma run_alt_right (a b : re) (s : string) g k x :
  matcher a s g k = None -> matcher b s g k = Some x -> matcher (RAlt a b) s g k = Some x.
Proof. intros H Hk. cbn. by rewrite H. Qed.
End Run.

(** *** Positions where a pattern cannot start *)

(** [w] starts at no position of [pre] in the text [pre +:+ s]. *)
Fixpoint clear_of (w pre s : string) : bool :=
  match pre with
  | EmptyString => true
  | String c pre' => match eat w (String c pre' +:+ s) with None => clear_of w pre' s | Some _ => false end
  end.

Lemma re_match_lit_none (w : string) (r : re) (s : string) :
  eat w s = None -> re_match (RSeq (RLit w) r) s = None.
Proof. intros H. unfold re_match. cbn. by rewrite H. Qed.

Lemma re_search_skip (w : string) (r : re) (pre s : string) :
  clear_of w pre s = true -> re_search (RSeq (RLit w) r) (pre +:+ s) = re_search (RSeq (RLit w) r) s.
Proof.
  induction pre as [|c pre IH]; [done|]. cbn [clear_of].
  destruct (eat w (String c pre +:+ s)) eqn:E; [done|]. intros H.
  change (String c pre +:+ s) with (String c (pre +:+ s)) in *. cbn [re_search].
  rewrite re_match_lit_none by exact E. by apply IH.
Qed.

Lemma re_search_clear (w : string) (r : re) (pre : string) :
  w <> EmptyString -> clear_of w pre EmptyString = true -> re_search (RSeq (RLit w) r) pre = None.
Proof.
  intros Hw Hc. rewrite <- (sapp_nil_r pre), re_search_skip by done. cbn.
  unfold re_match. cbn. by destruct w.
Qed.

Lemma re_search_here (r : re) (s : string) (g : Groups) :
  re_match r s = Some g -> re_search r s = Some g.
Proof. intros H. destruct s; cbn [re_search]; by rewrite H. Qed.

(** [w] occurs in [pre +:+ body] at the start of [body] only. *)
Definition only_at (w pre body : string) : bool :=
  clear_of w pre body && match body with EmptyString => true | String _ b => clear_of w b EmptyString end.

Lemma re_search_only (w : string) (r : re) (pre body : string) (g : option Groups) :
  w <> EmptyString -> only_at w pre body = true -> re_match (RSeq (RLit w) r) body = g ->
  re_search (RSeq (RLit w) r) (pre +:+ body) = g.
Proof.
  unfold only_at. intros Hw [Hp Hb]%andb_prop Hm. rewrite re_search_skip by done.
  destruct body as [|c b]; cbn [re_search]; rewrite Hm; destruct g; try done.
  by apply re_search_clear.
Qed.

(** A repetition fails when what follows can start neither where it stops nor
    at a character of its class. *)
Lemma reps_fails {A} (p : ascii -> bool) (w s : string) (k : string -> option A) :
  str_forall p w = true -> stops p s = true -> k s = None ->
  (forall c b, p c = true -> k (String c b) = None) -> reps p (w +:+ s) k = None.
Proof.
  intros Hw Hs Hk Hc. induction w as [|c w IH]; cbn.
  - destruct s as [|c s]; cbn in *; [done|]. by apply negb_true_iff in Hs as ->.
  - cbn in Hw. apply andb_prop in Hw as [Hp Hw]. rewrite Hp, IH by done. by apply Hc.
Qed.

Lemma run_plus_none {A} (p : ascii -> bool) (w s : string) g (k : string -> Groups -> option A) :
  str_forall p w = true -> stops p s = true -> k s g = None ->
  (forall c b, p c = true -> k (String c b) g = None) -> matcher (RPlus p) (w +:+ s) g k = None.
Proof.
  intros Hw Hs Hk Hc. destruct w as [|c w]; cbn in *.
  - destruct s as [|c s]; [done|]. cbn in Hs. by apply negb_true_iff in Hs as ->.
  - apply andb_prop in Hw as [-> Hw]. by apply reps_fails.
Qed.

Lemma run_group_plus_none {A} (name : string) (p : ascii -> bool) (w s : string) g
    (k : string -> Groups -> option A) :
  str_forall p w = true -> stops p s = true -> (forall t, k s ((name, t) :: g) = None) ->
  (forall c b t, p c = true -> k (String c b) ((name, t) :: g) = None) ->
  matcher (RGroup name (RPlus p)) (w +:+ s) g k = None.
Proof.
  intros Hw Hs Hk Hc.
  change (matcher (RPlus p) (w +:+ s) g
    (fun s2 g2 => k s2 ((name, consumed (w +:+ s) s2) :: g2)) = None).
  apply run_plus_none; auto.
Qed.

(** A literal does not start at a character its first one differs from. *)
Lemma run_lit_none {A} (d : ascii) (w : string) (c : ascii) (b : string) g
    (k : string -> Groups -> option A) :
  Ascii.eqb d c = false -> matcher (RLit (String d w)) (String c b) g k = None.
Proof. intros H. cbn. by rewrite H. Qed.

(** ** What a match binds *)

(** [P] holds of every text a group of [r] can bind. *)
Fixpoint groups_typed (P : string -> string -> Prop) (r : re) : Prop :=
  match r with
  | RGroup n a =>
      (forall w s g g2, Match a (w +:+ s) g s g2 -> P n w) /\ groups_typed P a
  | RSeq a b | RAlt a b => groups_typed P a /\ groups_typed P b
  | ROpt a => groups_typed P a
  | _ => True
  end.

Lemma Match_typed (P : string -> string -> Prop) (r : re) s g s' g' :
  Match r s g s' g' -> groups_typed P r -> Forall (fun b => P b.1 b.2) g ->
  Forall (fun b => P b.1 b.2) g'.
Proof.
  induction 1 as [| | |a b s1 g1 s2 g2 s3 g3 _ IHa _ IHb|a b s1 g1 s2 g2 _ IHa|a b s1 g1 s2 g2 _ IHb
    | | |name a w s g g2 HM IHa| | | |]; cbn; intros Ht Hg; try tauto.
  destruct Ht as [Hw Ht]. constructor; [by eapply Hw | by apply IHa].
Qed.

(** [r] binds [name] whenever it matches. *)
Fixpoint binds (name : string) (r : re) : bool :=
  match r with
  | RGroup n a => String.eqb n name || binds name a
  | RSeq a b => binds name a || binds name b
  | RAlt a b => binds name a && binds name b
  | _ => false
  end.

Lemma Match_extends (r : re) s g s' g' : Match r s g s' g' -> exists new, g' = new ++ g.
Proof.
  induction 1 as [| | |? ? ? ? ? ? ? ? Ha [n1 E1] Hb [n2 E2]| | | | |name a w s g g2 Ha [n E]| | | |];
    try (by exists []); try done.
  - exists (n2 ++ n1). by rewrite E2, E1, app_assoc.
  - exists ((name, w) :: n). by rewrite E.
Qed.

Lemma Match_binds (name : string) (r : re) s g s' g' :
  Match r s g s' g' -> binds name r = true -> exists w, (name, w) ∈ g'.
Proof.
  induction 1 as [| | |a b s1 g1 s2 g2 s3 g3 _ IHa Hb IHb|a b s1 g1 s2 g2 _ IHa|a b s1 g1 s2 g2 _ IHb
    | | |n a w s g g2 HM IHa| | | |]; cbn; try done.
  - intros [Ha|Hb']%orb_prop; [|by apply IHb]. destruct (IHa Ha) as [w Hw].
    apply Match_extends in Hb as [new ->]. exists w. apply elem_of_app. by right.
  - intros [Ha _]%andb_prop. by apply IHa.
  - intros [_ Hb]%andb_prop. by apply IHb.
  - intros [->%String.eqb_eq|Ha]%orb_prop; [exists w; by left|].
    destruct (IHa Ha) as [w' ?]. exists w'. by right.
Qed.

Lemma group_elem (name : string) (g : Groups) (w : string) :
  (name, w) ∈ g -> (name, group name g) ∈ g.
Proof.
  induction g as [|[n t] g IH]; [by intros ?%not_elem_of_nil|].
  cbn. destruct (String.eqb_spec n name) as [->|Hne]; [left|].
  intros [[= ? ?]|?]%elem_of_cons; [congruence|]. right. by apply IH.
Qed.

Lemma search_group (P : string -> string -> Prop) (name : string) (r : re) (s : string) (g : Groups) :
  re_search r s = Some g -> groups_typed P r -> binds name r = true -> P name (group name g).
Proof.
  intros (pre & here & _ & (s' & HM)%re_match_Some & _)%re_search_Some Ht Hb.
  destruct (Match_binds name r _ _ _ _ HM Hb) as [w Hw%group_elem].
  pose proof (Match_typed P r _ _ _ _ HM Ht (Forall_nil_2 _)) as HF.
  rewrite Forall_forall in HF. exact (HF _ Hw).
Qed.

Lemma match_group (P : string -> string -> Prop) (name : string) (r : re) (s : string) (g : Groups) :
  re_match r s = Some g -> groups_typed P r -> binds name r = true -> P name (group name g).
Proof. intros H%re_search_here. exact (search_group P name r s g H). Qed.

(** A bound text is part of the text searched. *)
Lemma Match_lengths (n : nat) (r : re) s g s' g' :
  Match r s g s' g' -> (String.length s <= n)%nat ->
  Forall (fun b => (String.length b.2 <= n)%nat) g -> Forall (fun b => (String.length b.2 <= n)%nat) g'.
Proof.
  induction 1 as [| | |a b s1 g1 s2 g2 s3 g3 Ha IHa _ IHb| | | | |name a w s g g2 HM IHa| | | |]; cbn; intros Hn Hg;
    try tauto.
  - apply IHb; [|tauto]. apply Match_suffix in Ha as [w ->]. rewrite slength_app in Hn. lia.
  - constructor; [|tauto]. cbn. rewrite slength_app in Hn. lia.
Qed.

Lemma search_length (name : string) (r : re) (s : string) (g : Groups) :
  re_search r s = Some g -> (String.length (group name g) <= String.length s)%nat.
Proof.
  intros (pre & here & -> & (s' & HM)%re_match_Some & _)%re_search_Some.
  pose proof (Match_lengths (String.length (pre +:+ here)) r _ _ _ _ HM
    ltac:(rewrite slength_app; lia) (Forall_nil_2 _)) as HF.
  rewrite Forall_forall in HF.
  assert (Hg : group name g = EmptyString \/ (name, group name g) ∈ g).
  { clear. induction g as [|[n t] g IH]; cbn; [by left|].
    destruct (String.eqb_spec n name) as [->|]; [right; by left|].
    destruct IH as [?|?]; [by left | right; by right]. }
  destruct Hg as [->|Hg]; [cbn; lia|]. exact (HF _ Hg).
Qed.

Lemma sapp_cancel_r (a b s : string) : a +:+ s = b +:+ s -> a = b.
Proof. intros H%(f_equal (fun x => consumed x s)). by rewrite !consumed_app in H. Qed.

Lemma Match_plus (p : ascii -> bool) (w s : string) g g2 :
  Match (RPlus p) (w +:+ s) g s g2 -> w <> EmptyString /\ str_forall p w = true.
Proof. inversion 1; subst. by match goal with H : _ = _ |- _ => apply sapp_cancel_r in H as <- end. Qed.

Lemma Match_lit (v w s : string) g g2 : Match (RLit v) (w +:+ s) g s g2 -> w = v.
Proof. inversion 1; subst. by match goal with H : _ = _ |- _ => apply sapp_cancel_r in H as <- end. Qed.

Lemma Match_alt (a b : re) s g s' g2 :
  Match (RAlt a b) s g s' g2 -> Match a s g s' g2 \/ Match b s g s' g2.
Proof. inversion 1; subst; tauto. Qed.
