(* ===== verification/Parsers.v ===== *)
(** * Log parsers ([inspectord/parsers/auth_log.py], [journald.py], [pacman.py])

    Each parser turns one line or journal entry into an event, drops it
    ([Ok None]) or raises. The wall clock and the fresh event id of
    [build_event] are arguments, as is [datetime.fromisoformat]; the patterns
    are those of the source over the matcher of [Regex.v]. *)

From S2P Require Import Prelude Schemas RuleEval Alerts Float64 Regex.
From Stdlib Require Import SpecFloat.
Local Open Scope Z_scope.

(** ** Patterns *)

Definition non_space (c : ascii) : bool := negb (py_space c).
Definition not_newline (c : ascii) : bool := negb (Ascii.eqb c newline).

Section Patterns.
Local Open Scope re_scope.
Local Notation "'sp'" := (RPlus py_space).
Local Notation "'spaces'" := (RStar py_space).
Local Notation word := (RPlus non_space).

(** [user ... from ip port n], the end of both sshd patterns. *)
Definition from_port : re :=
  RGroup "user" word +++ sp +++ RLit "from" +++ sp +++ RGroup "ip" word +++ sp +++ RLit "port"
  +++ sp +++ RGroup "port" (RPlus is_digit).

(** [_SSH_ACCEPTED_RE] *)
Definition SSH_ACCEPTED_RE : re :=
  RLit "sshd[" +++ RGroup "pid" (RPlus is_digit) +++ RLit "]:" +++ sp +++ RLit "Accepted" +++ sp
  +++ word +++ sp +++ RLit "for" +++ sp +++ from_port.

(** [_SSH_FAILED_RE] *)
Definition SSH_FAILED_RE : re :=
  RLit "sshd[" +++ RGroup "pid" (RPlus is_digit) +++ RLit "]:" +++ sp +++ RLit "Failed" +++ sp
  +++ RLit "password" +++ sp +++ RLit "for" +++ sp
  +++ ROpt (RLit "invalid" +++ sp +++ RLit "user" +++ sp) +++ from_port.

(** [_SUDO_RE] *)
Definition SUDO_RE : re :=
  RLit "sudo:" +++ spaces +++ RGroup "user" word +++ spaces +++ RLit ":" +++ sp +++ RLit "TTY="
  +++ word +++ spaces +++ RLit ";" +++ sp +++ RLit "PWD=" +++ word +++ spaces +++ RLit ";" +++ sp
  +++ RLit "USER=" +++ RGroup "target" word +++ spaces +++ RLit ";" +++ sp +++ RLit "COMMAND="
  +++ RGroup "cmd" (RPlus not_newline) +++ REol.

Definition not_char (d c : ascii) : bool := negb (Ascii.eqb c d).

(** [_LINE_RE] of [pacman.py]; [match] anchors it at the start. *)
Definition LINE_RE : re :=
  RLit "[" +++ RGroup "ts" (RPlus (not_char "]")) +++ RLit "]" +++ sp
  +++ RLit "[" +++ RGroup "src" (RPlus is_upper_ascii) +++ RLit "]" +++ sp
  +++ RGroup "verb" (RAlt (RLit "installed") (RAlt (RLit "removed")
                       (RAlt (RLit "upgraded") (RLit "reinstalled")))) +++ sp
  +++ RGroup "name" word +++ sp +++ RLit "(" +++ RGroup "vers" (RPlus (not_char ")")) +++ RLit ")"
  +++ spaces +++ REol.
End Patterns.

(** [line.rstrip("\n")]. *)
Fixpoint rstrip_newlines (s : string) : string :=
  match s with
  | EmptyString => EmptyString
  | String c s' =>
      match rstrip_newlines s' with
      | EmptyString => if Ascii.eqb c newline then EmptyString else String c EmptyString
      | r => String c r
      end
  end.

(** [{"source_file": source, "line": line, "fields": fields}]. *)
Definition raw_line (source line : string) (fields : dict) : dict :=
  [("source_file", PStr source); ("line", PStr line); ("fields", PDict fields)]%string.

(** [int(text)] of a matched group. *)
Definition int_group (text : string) : result PyErr Z :=
  match py_int text with Some z => Ok z | None => Err ValueError end.

Section Parse.
Context (now : Z) (event_id : string).

(** The event of constants [build_event] accepts. *)
Definition event_of (a : EventArgs) : result PyErr (option Event) :=
  match build_event now event_id a with Some e => Ok (Some e) | None => Err ValueError end.

(** ** [auth_log.py] *)

Definition ssh_args (action : string) (type_ severity outcome message : string) (g : Groups)
    (pid port : Z) (source line : string) : EventArgs :=
  let a := event_args "log_tailer" action ["authentication"]%string [type_] severity in
  {| a_module := a_module a; a_action := a_action a; a_category := a_category a; a_type := a_type a;
     a_severity := a_severity a; a_kind := a_kind a; a_host := None; a_outcome := Some outcome;
     a_message := Some (message +:+ group "user" g +:+ " from " +:+ group "ip" g);
     a_process := Some [("name", PStr "sshd"); ("pid", PInt pid)]%string;
     a_file := None; a_user := Some [("name", PStr (group "user" g))]%string;
     a_source := Some [("ip", PStr (group "ip" g)); ("port", PInt port)]%string;
     a_destination := None; a_network := None; a_service := None; a_package := None;
     a_device := None; a_persistence := None; a_vulnerability := None; a_hunt := None;
     a_threat := None; a_raw := Some (raw_line source line []); a_labels := None; a_ts := None;
     a_first_seen := false |}.

Definition ssh_event (action type_ severity outcome message : string) (g : Groups)
    (source line : string) : result PyErr (option Event) :=
  pid ← int_group (group "pid" g);
  port ← int_group (group "port" g);
  event_of (ssh_args action type_ severity outcome message g pid port source line).

Definition sudo_args (g : Groups) (source line : string) : EventArgs :=
  let a := event_args "log_tailer" "sudo_invoked" ["iam"]%string ["start"]%string "info" in
  {| a_module := a_module a; a_action := a_action a; a_category := a_category a; a_type := a_type a;
     a_severity := a_severity a; a_kind := a_kind a; a_host := None;
     a_outcome := Some "success"%string;
     a_message := Some ("sudo: " +:+ group "user" g +:+ " ran '" +:+ group "cmd" g +:+ "' as "
                        +:+ group "target" g);
     a_process := Some [("name", PStr "sudo"); ("command_line", PStr (group "cmd" g))]%string;
     a_file := None;
     a_user := Some [("name", PStr (group "user" g));
                     ("effective", PDict [("name"%string, PStr (group "target" g))])]%string;
     a_source := None; a_destination := None; a_network := None; a_service := None;
     a_package := None; a_device := None; a_persistence := None; a_vulnerability := None;
     a_hunt := None; a_threat := None; a_raw := Some (raw_line source line []); a_labels := None;
     a_ts := None; a_first_seen := false |}.

Definition parse_auth_log_line (line source : string) : result PyErr (option Event) :=
  let line := rstrip_newlines line in
  if String.eqb line EmptyString then Ok None
  else match re_search SSH_ACCEPTED_RE line with
  | Some g => ssh_event "ssh_login_succeeded" "start" "info" "success" "sshd accepted login for "
                g source line
  | None =>
      match re_search SSH_FAILED_RE line with
      | Some g => ssh_event "ssh_login_failed" "end" "medium" "failure" "sshd failed login for "
                    g source line
      | None =>
          match re_search SUDO_RE line with
          | Some g => event_of (sudo_args g source line)
          | None => Ok None
          end
      end
  end.

(** ** [pacman.py] *)

(** [VERB_TO_TYPE[verb]]; the pattern admits no other verb. *)
Definition VERB_TO_TYPE (verb : string) : option (list string) :=
  if String.eqb verb "installed" then Some ["installation"]%string
  else if String.eqb verb "removed" then Some ["deletion"]%string
  else if String.eqb verb "upgraded" || String.eqb verb "reinstalled" then Some ["change"]%string
  else None.

(** [s.partition("->")], without the separator. *)
Fixpoint partition_arrow (s : string) : option (string * string) :=
  match eat "->" s with
  | Some rest => Some (EmptyString, rest)
  | None =>
      match s with
      | EmptyString => None
      | String c s' => '(a, b) ← partition_arrow s'; Some (String c a, b)
      end
  end.

Definition package_block (verb name vers : string) : dict :=
  match (if String.eqb verb "upgraded" then partition_arrow vers else None) with
  | Some (prev, new) =>
      [("name", PStr name); ("version", PStr (strip new)); ("previous_version", PStr (strip prev));
       ("action", PStr "upgraded")]%string
  | None => [("name", PStr name); ("version", PStr (strip vers)); ("action", PStr verb)]%string
  end.

Definition package_args (verb name vers : string) (type_ : list string) (ts : Z)
    (source line : string) : EventArgs :=
  let a := event_args "log_tailer" ("package_" +:+ verb) ["package"]%string type_ "info" in
  {| a_module := a_module a; a_action := a_action a; a_category := a_category a; a_type := a_type a;
     a_severity := a_severity a; a_kind := a_kind a; a_host := None; a_outcome := None;
     a_message := Some (verb +:+ " " +:+ name +:+ " " +:+ vers);
     a_process := None; a_file := None; a_user := None; a_source := None; a_destination := None;
     a_network := None; a_service := None; a_package := Some (package_block verb name vers);
     a_device := None; a_persistence := None; a_vulnerability := None; a_hunt := None;
     a_threat := None; a_raw := Some (raw_line source line []); a_labels := None;
     a_ts := Some ts; a_first_seen := false |}.

Definition parse_pacman_line (fromisoformat : string -> option Z) (line source : string)
  : result PyErr (option Event) :=
  let line := rstrip_newlines line in
  if String.eqb line EmptyString then Ok None
  else match re_match LINE_RE line with
  | None => Ok None
  | Some g =>
      if negb (String.eqb (group "src" g) "ALPM") then Ok None
      else match fromisoformat (group "ts" g) with
      | None => Ok None
      | Some ts =>
          match VERB_TO_TYPE (group "verb" g) with
          | None => Err KeyError
          | Some type_ =>
              event_of (package_args (group "verb" g) (group "name" g) (group "vers" g) type_ ts
                          source line)
          end
      end
  end.

(** ** [journald.py] *)

Definition PRIORITY_SEVERITY (p : Z) : option string :=
  if (0 <=? p) && (p <=? 3) then Some "high"%string
  else if p =? 4 then Some "medium"%string
  else if p =? 5 then Some "low"%string
  else if (6 <=? p) && (p <=? 7) then Some "info"%string
  else None.

Context (str_other : pyval -> string).

Definition severity_from_priority (value : pyval) : string :=
  match (match value with PNone => Some 6 | v => py_int (py_str str_other v) end) with
  | None => "info"
  | Some p => default "info"%string (PRIORITY_SEVERITY p)
  end.

(** The nearest integer of a float, ties to even. *)
Definition round_half_even (x : float64) : Z :=
  match x with
  | S754_finite s m e =>
      let v := if 0 <=? e then Z.shiftl (Z.pos m) e
               else
                 let d := 2 ^ (- e) in
                 let q := Z.pos m / d in
                 let r := 2 * (Z.pos m mod d) in
                 if r <? d then q else if d <? r then q + 1 else if Z.even q then q else q + 1 in
      if s then - v else v
  | _ => 0
  end.

(** [datetime.fromtimestamp(x, UTC)] in microseconds: the fraction is scaled
    and rounded on its own; years outside 1..9999 are refused. *)
Definition fromtimestamp (x : float64) : result PyErr Z :=
  whole ← int_of_float x;
  if negb ((- 2 ^ 63 <=? whole) && (whole <? 2 ^ 63)) then Err OverflowError
  else
    wf ← float_of_int whole;
    million ← float_of_int 1000000;
    let us := round_half_even (fmul (fsub x wf) million) in
    let '(sec, us) := if 1000000 <=? us then (whole + 1, us - 1000000)
                      else if us <? 0 then (whole - 1, us + 1000000) else (whole, us) in
    if (-62135596800 <=? sec) && (sec <? 253402300800) then Ok (sec * 1000000 + us)
    else Err ValueError.

Definition ts_from_realtime (value : pyval) : result PyErr (option Z) :=
  match value with
  | PNone => Ok None
  | v =>
      match py_int (py_str str_other v) with
      | None => Ok None
      | Some micros =>
          x ← int_truediv micros 1000000;
          t ← fromtimestamp x;
          Ok (Some t)
      end
  end.

(** [process] of an entry. *)
Definition journal_process (entry : dict) : option dict :=
  let comm := as_str (dict_get "_COMM" entry) in
  let exe := as_str (dict_get "_EXE" entry) in
  let pid := dict_get "_PID" entry in
  let has_pid := match pid with PNone => false | _ => true end in
  if (match comm with Some _ => true | None => false end) || has_pid
     || (match exe with Some _ => true | None => false end)
  then Some ((match comm with Some c => [("name"%string, PStr c)] | None => [] end)
             ++ (if has_pid then match int_of pid with Some z => [("pid"%string, PInt z)] | None => [] end
                 else [])
             ++ (match exe with Some x => [("executable"%string, PStr x)] | None => [] end))
  else None.

Definition journal_user (entry : dict) : option dict :=
  match dict_get "_UID" entry with
  | PNone => None
  | v => z ← int_of v; Some [("id"%string, PInt z)]
  end.

Definition service_name (unit_ : string) : string :=
  if endswith ".service" unit_ then str_take (String.length unit_ - 8) unit_ else unit_.

Definition parse_journald_entry (v : pyval) (source : string) : result PyErr (option Event) :=
  match v with
  | PDict entry =>
      match dict_get "MESSAGE" entry with
      | PStr message =>
          if String.eqb message EmptyString then Ok None
          else
            ts ← ts_from_realtime (dict_get "__REALTIME_TIMESTAMP" entry);
            let a := event_args "log_tailer" "journal_message" ["host"]%string ["info"]%string
                       (severity_from_priority (dict_get "PRIORITY" entry)) in
            event_of
              {| a_module := a_module a; a_action := a_action a; a_category := a_category a;
                 a_type := a_type a; a_severity := a_severity a; a_kind := a_kind a;
                 a_host := match dict_get "_HOSTNAME" entry with
                           | PStr h => Some [("hostname", PStr h);
                                             ("os", PDict [("family"%string, PStr "linux")])]%string
                           | _ => None end;
                 a_outcome := None; a_message := Some message; a_process := journal_process entry;
                 a_file := None; a_user := journal_user entry; a_source := None;
                 a_destination := None; a_network := None;
                 a_service := match dict_get "_SYSTEMD_UNIT" entry with
                              | PStr u => Some [("name", PStr (service_name u));
                                                ("unit", PStr u)]%string
                              | _ => None end;
                 a_package := None; a_device := None; a_persistence := None;
                 a_vulnerability := None; a_hunt := None; a_threat := None;
                 a_raw := Some (raw_line source message entry); a_labels := None; a_ts := ts;
                 a_first_seen := false |}
      | _ => Ok None
      end
  | _ => Ok None
  end.

End Parse.

(** ** Examples of the repository's fixtures *)

Example accepted_example :
  (match parse_auth_log_line 0 "id" "May 24 14:23:10 host sshd[1234]: Accepted publickey for eli from 1.2.3.4 port 51234 ssh2" "/var/log/auth.log" with
   | Ok (Some e) => Some (ev_action e, ev_user e, ev_source e)
   | _ => None end)
  = Some ("ssh_login_succeeded"%string, Some [("name"%string, PStr "eli")],
          Some [("ip", PStr "1.2.3.4"); ("port", PInt 51234)]%string).
Proof. vm_compute. reflexivity. Qed.

Example sudo_example :
  (match parse_auth_log_line 0 "id" "May 24 14:25:00 host sudo:      eli : TTY=pts/0 ; PWD=/home/eli ; USER=root ; COMMAND=/usr/bin/pacman -S audit" "f" with
   | Ok (Some e) => Some (ev_action e, ev_process e)
   | _ => None end)
  = Some ("sudo_invoked"%string,
          Some [("name", PStr "sudo"); ("command_line", PStr "/usr/bin/pacman -S audit")]%string).
Proof. vm_compute. reflexivity. Qed.

Example upgraded_example :
  (match parse_pacman_line 0 "id" (fun _ => Some 7) "[2026-05-24T14:23:12+0000] [ALPM] upgraded suricata (6.0.0-1 -> 7.0.0-1)" "f" with
   | Ok (Some e) => Some (ev_action e, ev_ts e, ev_package e)
   | _ => None end)
  = Some ("package_upgraded"%string, 7,
          Some [("name", PStr "suricata"); ("version", PStr "7.0.0-1");
                ("previous_version", PStr "6.0.0-1"); ("action", PStr "upgraded")]%string).
Proof. vm_compute. reflexivity. Qed.

Example realtime_exact :
  ts_from_realtime (fun _ => EmptyString) (PStr "1779632590123457") = Ok (Some 1779632590123457).
Proof. vm_compute. reflexivity. Qed.
