(* ===== verification/ParserProofs.v ===== *)
(** * What the log parsers recognize

    Lines in the form their programs write them are read back field by field;
    what else an attacker can make the parsers say. *)

From S2P Require Import Prelude Schemas Json RuleEval Alerts Float64 Regex Parsers.
Local Open Scope Z_scope.

(** ** Decimal text *)

Definition dec_step (acc : Z) (c : ascii) : Z := 10 * acc + digit_val c.
Fixpoint dec_from (acc : Z) (s : string) : Z :=
  match s with EmptyString => acc | String c s' => dec_from (dec_step acc c) s' end.
(** The number a digit string denotes. *)
Definition dec (s : string) : Z := dec_from 0 s.

(** A digit string [int] reads. *)
Definition numeral (s : string) : bool :=
  negb (String.eqb s EmptyString) && str_forall is_digit s
  && (Z.of_nat (String.length s) <=? int_max_str_digits).

Lemma digit_not_space (c : ascii) : is_digit c = true -> py_space c = false.
Proof.
  unfold is_digit, py_space, in_range. intros [H1%N.leb_le H2%N.leb_le]%andb_prop.
  rewrite !orb_false_iff, !andb_false_iff, !N.leb_gt, !N.eqb_neq. lia.
Qed.

Lemma int_digits_dec (s : string) (acc n : Z) (us : bool) :
  s <> EmptyString -> str_forall is_digit s = true ->
  int_digits s acc n us = Some (dec_from acc s, n + Z.of_nat (String.length s)).
Proof.
  intros Hne Hd. revert acc n us. induction s as [|c s IH]; [done|]; intros acc n us.
  cbn [str_forall] in Hd. apply andb_prop in Hd as [Hc Hd]. cbn [int_digits dec_from String.length].
  rewrite Hc. destruct s as [|d s]; [cbn; do 2 f_equal; lia|].
  rewrite IH by done. do 2 f_equal. lia.
Qed.

Lemma strip_no_space (s : string) : str_forall (fun c => negb (py_space c)) s = true -> strip s = s.
Proof.
  intros Hs. unfold strip.
  assert (lstrip s = s) as ->.
  { destruct s as [|c s]; [done|]. cbn in *. apply andb_prop in Hs as [Hc%negb_true_iff _]. by rewrite Hc. }
  induction s as [|c s IH]; [done|]. cbn in *. apply andb_prop in Hs as [Hc%negb_true_iff Hs].
  rewrite IH by done. destruct s; [by rewrite Hc | done].
Qed.

Lemma py_int_numeral (s : string) : numeral s = true -> py_int s = Some (dec s).
Proof.
  unfold numeral. intros [[Hne Hd]%andb_prop Hl]%andb_prop.
  apply negb_true_iff, String.eqb_neq in Hne. unfold py_int.
  rewrite strip_no_space.
  2:{ eapply str_forall_impl; [|exact Hd]. intros c Hc. by rewrite digit_not_space. }
  assert (Hu : int_unsigned s = Some (dec s)).
  { unfold int_unsigned. rewrite int_digits_dec by done. by rewrite Z.add_0_l, Hl. }
  destruct s as [|c s]; [done|]. cbn in Hd. apply andb_prop in Hd as [Hc _].
  destruct c as [[] [] [] [] [] [] [] []]; try exact Hu; discriminate Hc.
Qed.

(** ** The sshd patterns *)

Lemma stops_word (w s : string) : is_word w = true -> stops py_space (w +:+ s) = true.
Proof.
  unfold is_word. intros [Hne Hw]%andb_prop. destruct w as [|c w]; [done|].
  cbn in *. by apply andb_prop in Hw as [-> _].
Qed.
Lemma stops_numeral (w s : string) : numeral w = true -> stops py_space (w +:+ s) = true.
Proof.
  unfold numeral. intros [[Hne Hw]%andb_prop _]%andb_prop. destruct w as [|c w]; [done|].
  cbn in *. apply andb_prop in Hw as [Hc _]. by rewrite digit_not_space.
Qed.
Lemma word_ne (w : string) : is_word w = true -> w <> EmptyString.
Proof. unfold is_word. by intros [?%negb_true_iff%String.eqb_neq _]%andb_prop. Qed.
Lemma word_all (w : string) : is_word w = true -> str_forall non_space w = true.
Proof. unfold is_word. by intros [_ ?]%andb_prop. Qed.
Lemma numeral_ne (w : string) : numeral w = true -> w <> EmptyString.
Proof. unfold numeral. by intros [[?%negb_true_iff%String.eqb_neq _]%andb_prop _]%andb_prop. Qed.
Lemma numeral_all (w : string) : numeral w = true -> str_forall is_digit w = true.
Proof. unfold numeral. by intros [[_ ?]%andb_prop _]%andb_prop. Qed.

Create HintDb rerun.
#[export] Hint Resolve stops_word stops_numeral word_ne word_all numeral_ne numeral_all : rerun.
#[export] Hint Extern 1 (stops _ _ = true) => reflexivity : rerun.
#[export] Hint Extern 1 (str_forall _ _ = true) => reflexivity : rerun.
#[export] Hint Extern 1 (_ <> _) => discriminate : rerun.

(** One atom of the pattern over the text in front of it. *)
Ltac re_step :=
  first
    [ rewrite run_seq
    | rewrite run_lit
    | apply run_group_plus; [solve [auto with rerun]..|]
    | apply run_plus; [solve [auto with rerun]..|]
    | apply run_star; [solve [auto with rerun]..|] ];
  cbv beta.
Ltac re_run := repeat re_step.

(** The part after the user both patterns share. *)
Definition from_text (user ip port t : string) : string :=
  user +:+ " " +:+ "from" +:+ " " +:+ ip +:+ " " +:+ "port" +:+ " " +:+ port +:+ t.

Lemma run_from_port {A} (user ip port t : string) (g : Groups) (k : string -> Groups -> option A) (x : A) :
  is_word user = true -> is_word ip = true -> numeral port = true -> stops is_digit t = true ->
  k t (("port", port) :: ("ip", ip) :: ("user", user) :: g)%string = Some x ->
  matcher from_port (from_text user ip port t) g k = Some x.
Proof. intros Hu Hi Hp Ht Hk. unfold from_port, from_text. re_run. exact Hk. Qed.

Definition ssh_groups (pid user ip port : string) : Groups :=
  [("port", port); ("ip", ip); ("user", user); ("pid", pid)]%string.

Definition accepted_text (pid meth user ip port t : string) : string :=
  "sshd[" +:+ pid +:+ "]:" +:+ " " +:+ "Accepted" +:+ " " +:+ meth +:+ " " +:+ "for" +:+ " "
  +:+ from_text user ip port t.

Lemma accepted_matches (pid meth user ip port t : string) :
  numeral pid = true -> is_word meth = true -> is_word user = true -> is_word ip = true ->
  numeral port = true -> stops is_digit t = true ->
  re_match SSH_ACCEPTED_RE (accepted_text pid meth user ip port t)
  = Some (ssh_groups pid user ip port).
Proof.
  intros. unfold re_match, SSH_ACCEPTED_RE, accepted_text. re_run.
  apply run_plus; [auto with rerun..|by apply stops_word|]. by apply run_from_port.
Qed.

(** The text of a failed login, with [mid] the optional words before the user. *)
Definition failed_text (pid mid user ip port t : string) : string :=
  "sshd[" +:+ pid +:+ "]:" +:+ " " +:+ "Failed" +:+ " " +:+ "password" +:+ " " +:+ "for" +:+ " "
  +:+ mid +:+ from_text user ip port t.

Lemma class_not (p : ascii -> bool) (d c : ascii) : p d = false -> p c = true -> Ascii.eqb d c = false.
Proof. intros Hd Hc. apply Ascii.eqb_neq. intros ->. congruence. Qed.

(** A literal cannot start inside the class before it. *)
Ltac lit_stops := intros; rewrite run_seq; apply run_lit_none; eapply class_not; [|eassumption]; reflexivity.

Lemma failed_not_accepted (pid mid user ip port t : string) :
  numeral pid = true -> re_match SSH_ACCEPTED_RE (failed_text pid mid user ip port t) = None.
Proof.
  intros Hp. unfold re_match, SSH_ACCEPTED_RE, failed_text. do 3 re_step.
  apply run_group_plus_none; [by apply numeral_all | done | | lit_stops].
  intros g. do 3 re_step. apply run_plus_none; [done..|lit_stops].
Qed.

Lemma eat_app_none (w user : string) (s : string) (d : ascii) :
  eat w (user +:+ String d s) = None \/
  (exists u, user = w +:+ u) \/ exists a b, w = a +:+ String d b /\ user = a.
Proof.
  revert user. induction w as [|c w IH]; intros user; [right; left; by exists user|].
  destruct user as [|e user]; cbn.
  - destruct (Ascii.eqb_spec c d) as [->|]; [|by left]. right; right. by exists EmptyString, w.
  - destruct (Ascii.eqb_spec c e) as [->|]; [|by left].
    destruct (IH user) as [?|[[u ->]|(a & b & -> & ->)]]; [by left|right; left; by exists u|].
    right; right. by exists (String e a), b.
Qed.

(** The optional [invalid user] is not found where the text goes on with a user
    and [from]. *)
Lemma invalid_skipped {A} (user s : string) (g : Groups) (k : string -> Groups -> option A) :
  is_word user = true ->
  matcher (RSeq (RLit "invalid") (RSeq (RPlus py_space) (RSeq (RLit "user") (RPlus py_space))))
    (user +:+ " " +:+ "from" +:+ s) g k = None.
Proof.
  intros Hu. change (user +:+ " " +:+ "from" +:+ s) with (user +:+ String " " ("from" +:+ s)).
  rewrite run_seq. cbn [matcher].
  destruct (eat_app_none "invalid" user ("from" +:+ s) " ") as [->|[[u ->]|(a & b & Hb & ->)]]; [done|..].
  - rewrite sapp_assoc, eat_app. destruct u as [|c u]; [reflexivity|]. cbn.
    apply word_all in Hu. rewrite str_forall_app in Hu. apply andb_prop in Hu as [_ Hu]. cbn in Hu.
    apply andb_prop in Hu as [Hc%negb_true_iff _]. by rewrite Hc.
  - exfalso. clear -Hb. do 7 (destruct a as [|? a]; [discriminate Hb | cbn in Hb; injection Hb as _ Hb]).
    by destruct a.
Qed.

Lemma failed_matches (pid mid user ip port t : string) :
  numeral pid = true -> mid = EmptyString \/ mid = "invalid user "%string ->
  is_word user = true -> is_word ip = true -> numeral port = true -> stops is_digit t = true ->
  re_match SSH_FAILED_RE (failed_text pid mid user ip port t) = Some (ssh_groups pid user ip port).
Proof.
  intros Hp Hm Hu Hi Hpt Ht. unfold re_match, SSH_FAILED_RE, failed_text.
  assert (Hst : stops py_space (mid +:+ from_text user ip port t) = true).
  { destruct Hm as [->| ->]; [exact (stops_word user _ Hu) | done]. }
  re_run. destruct Hm as [->| ->].
  - apply run_opt_skip; [by apply invalid_skipped | by apply run_from_port].
  - apply run_opt_take.
    change ("invalid user " +:+ from_text user ip port t)
      with ("invalid" +:+ " " +:+ "user" +:+ " " +:+ from_text user ip port t).
    re_run. apply run_plus; [done..|by apply stops_word|]. by apply run_from_port.
Qed.

(** ** What a line becomes *)

Lemma rstrip_newlines_keeps (s w : string) :
  w <> EmptyString -> str_forall not_newline w = true -> rstrip_newlines (s +:+ w) = s +:+ w.
Proof.
  intros Hne Hw.
  assert (H : rstrip_newlines w = w).
  { clear Hne. induction w as [|c w IH]; [done|]. cbn in *. apply andb_prop in Hw as [Hc Hw].
    rewrite IH by done. destruct w; [|done]. by apply negb_true_iff in Hc as ->. }
  induction s as [|c s IH]; cbn; [done|]. rewrite IH. by destruct (s +:+ w) eqn:E; [destruct s, w|].
Qed.

Lemma digit_not_newline (c : ascii) : is_digit c = true -> not_newline c = true.
Proof. intros H. unfold not_newline. destruct (Ascii.eqb_spec c newline) as [->|]; [discriminate H | done]. Qed.

Lemma line_kept (a port t : string) :
  numeral port = true -> str_forall not_newline t = true ->
  rstrip_newlines (a +:+ port +:+ t) = a +:+ port +:+ t.
Proof.
  intros Hp Ht. apply rstrip_newlines_keeps.
  - apply numeral_ne in Hp. by destruct port.
  - rewrite str_forall_app, Ht, andb_true_r. eapply str_forall_impl; [|by apply numeral_all].
    apply digit_not_newline.
Qed.

(** The event says who logged in from where, and how it ended. *)
Definition reports_login (e : Event) (action : string) (outcome : Outcome)
    (pid user ip port : string) : Prop :=
  ev_module e = "log_tailer"%string /\ ev_action e = action /\ ev_outcome e = Some outcome /\
  ev_user e = Some [("name"%string, PStr user)] /\
  ev_source e = Some [("ip", PStr ip); ("port", PInt (dec port))]%string /\
  ev_process e = Some [("name", PStr "sshd"); ("pid", PInt (dec pid))]%string.

Lemma nonempty_line (a b : string) (c : ascii) : String.eqb (a +:+ String c b) EmptyString = false.
Proof. apply String.eqb_neq. by destruct a. Qed.

(** The two sshd lines are read back: whatever precedes it, a line with
    [sshd]'s record of an accepted login becomes the event of that login with
    its user, address, port and process id, and one with its record of a failed
    password, for a known or an [invalid user], becomes the failure event,
    provided the text that opens a record stands nowhere before it in the line
    and, for a failed login, nowhere after its start. *)
Theorem sshd_lines_parsed (now : Z) (event_id source h pid user ip port t : string) :
  numeral pid = true -> is_word user = true -> is_word ip = true -> numeral port = true ->
  stops is_digit t = true -> str_forall not_newline t = true ->
  (forall meth, is_word meth = true ->
     clear_of "sshd[" h (accepted_text pid meth user ip port t) = true ->
     exists e, parse_auth_log_line now event_id (h +:+ accepted_text pid meth user ip port t) source
               = Ok (Some e) /\
       reports_login e "ssh_login_succeeded" OutSuccess pid user ip port) /\
  (forall mid, mid = EmptyString \/ mid = "invalid user "%string ->
     only_at "sshd[" h (failed_text pid mid user ip port t) = true ->
     exists e, parse_auth_log_line now event_id (h +:+ failed_text pid mid user ip port t) source
               = Ok (Some e) /\
       reports_login e "ssh_login_failed" OutFailure pid user ip port).
Proof.
  intros Hp Hu Hi Hpt Ht Hnl. split.
  - intros meth Hm Hc. unfold parse_auth_log_line.
    assert (Hk : rstrip_newlines (h +:+ accepted_text pid meth user ip port t)
                 = h +:+ accepted_text pid meth user ip port t).
    { unfold accepted_text, from_text. rewrite <- !sapp_assoc, sapp_assoc. by apply line_kept. }
    assert (Hne : String.eqb (h +:+ accepted_text pid meth user ip port t) EmptyString = false)
      by exact (nonempty_line h _ "s").
    rewrite Hk, Hne.
    assert (Hs : re_search SSH_ACCEPTED_RE (h +:+ accepted_text pid meth user ip port t)
                 = Some (ssh_groups pid user ip port)).
    { etransitivity; [exact (re_search_skip "sshd[" _ h _ Hc)|]. by apply re_search_here, accepted_matches. }
    rewrite Hs.
    unfold ssh_event, int_group, ssh_groups. cbn [group String.eqb Ascii.eqb Bool.eqb].
    rewrite !py_int_numeral by done. eexists. split; [reflexivity|]. done.
  - intros mid Hm Ho. unfold parse_auth_log_line.
    assert (Hk : rstrip_newlines (h +:+ failed_text pid mid user ip port t)
                 = h +:+ failed_text pid mid user ip port t).
    { unfold failed_text, from_text. rewrite <- !sapp_assoc, sapp_assoc. by apply line_kept. }
    assert (Hne : String.eqb (h +:+ failed_text pid mid user ip port t) EmptyString = false)
      by exact (nonempty_line h _ "s").
    rewrite Hk, Hne.
    assert (Ha : re_search SSH_ACCEPTED_RE (h +:+ failed_text pid mid user ip port t) = None)
      by by apply (re_search_only "sshd["), failed_not_accepted.
    assert (Hf : re_search SSH_FAILED_RE (h +:+ failed_text pid mid user ip port t)
                 = Some (ssh_groups pid user ip port))
      by by apply (re_search_only "sshd["), failed_matches.
    rewrite Ha, Hf.
    unfold ssh_event, int_group, ssh_groups. cbn [group String.eqb Ascii.eqb Bool.eqb].
    rewrite !py_int_numeral by done. eexists. split; [reflexivity|]. done.
Qed.

Lemma sshd_lines_parsed_witness :
  exists e, parse_auth_log_line 0 "id"
      ("May 24 14:23:10 host " +:+ failed_text "1234" "invalid user " "admin" "1.2.3.5" "51234" " ssh2")
      "/var/log/auth.log" = Ok (Some e) /\
    reports_login e "ssh_login_failed" OutFailure "1234" "admin" "1.2.3.5" "51234".
Proof.
  refine (proj2 (sshd_lines_parsed 0 "id" "/var/log/auth.log" "May 24 14:23:10 host " "1234" "admin"
    "1.2.3.5" "51234" " ssh2" _ _ _ _ _ _) "invalid user "%string _ _).
  all: try (vm_compute; reflexivity). by right.
Defined.

(** ** Raising *)

Definition auth_typed (n w : string) : Prop :=
  (n = "pid" \/ n = "port")%string -> w <> EmptyString /\ str_forall is_digit w = true.

Ltac solve_typed :=
  cbn; split_and!; try exact I; intros w s g g2 HM;
  (intros [Hn|Hn]; (discriminate Hn || exact (Match_plus _ _ _ _ _ HM))).

Lemma accepted_typed : groups_typed auth_typed SSH_ACCEPTED_RE.
Proof. solve_typed. Qed.
Lemma failed_typed : groups_typed auth_typed SSH_FAILED_RE.
Proof. solve_typed. Qed.

Lemma build_ok (now : Z) (event_id : string) (a : EventArgs) :
  a_kind a = "event"%string ->
  (a_outcome a = None \/ a_outcome a = Some "success" \/ a_outcome a = Some "failure")%string ->
  is_Some (Severity_of (a_severity a)) ->
  exists e, event_of now event_id a = Ok (Some e).
Proof.
  intros Hk Ho [sv Hs]. unfold event_of, build_event. rewrite Hk, Hs.
  destruct Ho as [->|[->| ->]]; cbn; by eexists.
Qed.

Lemma int_group_search (r : re) (name line : string) (g : Groups) :
  re_search r line = Some g -> groups_typed auth_typed r -> binds name r = true ->
  (name = "pid" \/ name = "port")%string -> (Z.of_nat (String.length line) <= int_max_str_digits) ->
  exists z, int_group (group name g) = Ok z.
Proof.
  intros Hs Ht Hb Hn Hl. destruct (search_group _ name r line g Hs Ht Hb Hn) as [Hne Hd].
  pose proof (search_length name r line g Hs) as Hlen. unfold int_group.
  rewrite py_int_numeral; [by eexists|]. unfold numeral.
  rewrite Hd, (proj2 (String.eqb_neq _ _) Hne). cbn. apply Z.leb_le. lia.
Qed.

Lemma ssh_event_ok (now : Z) (event_id : string) (r : re) (line : string) (g : Groups)
    (action type_ severity outcome message source : string) :
  re_search r line = Some g -> groups_typed auth_typed r ->
  binds "pid" r = true -> binds "port" r = true ->
  Z.of_nat (String.length line) <= int_max_str_digits ->
  (outcome = "success" \/ outcome = "failure")%string -> is_Some (Severity_of severity) ->
  exists e, ssh_event now event_id action type_ severity outcome message g source line = Ok (Some e).
Proof.
  intros Hs Ht Hp Hq Hl Ho Hv. unfold ssh_event.
  destruct (int_group_search r "pid" line g Hs Ht Hp (or_introl eq_refl) Hl) as [pid ->].
  destruct (int_group_search r "port" line g Hs Ht Hq (or_intror eq_refl) Hl) as [port ->].
  cbn. apply build_ok; [done| |done]. right. destruct Ho as [->| ->]; [by left | by right].
Qed.

Lemma rstrip_newlines_length (s : string) : (String.length (rstrip_newlines s) <= String.length s)%nat.
Proof.
  induction s as [|c s IH]; cbn; [lia|]. destruct (rstrip_newlines s) eqn:E; cbn in *; [|lia].
  destruct (Ascii.eqb c newline); cbn; lia.
Qed.

Definition verb_typed (n w : string) : Prop :=
  n = "verb"%string -> is_Some (VERB_TO_TYPE w).

Lemma line_typed : groups_typed verb_typed LINE_RE.
Proof.
  cbn. split_and!; try exact I; intros w s g g2 HM Hn; try discriminate Hn.
  repeat apply Match_alt in HM as [HM|HM]; apply Match_lit in HM as ->; by eexists.
Qed.

Lemma severity_valid (str_other : pyval -> string) (v : pyval) :
  is_Some (Severity_of (severity_from_priority str_other v)).
Proof.
  unfold severity_from_priority. destruct (match v with PNone => _ | _ => _ end) as [p|]; [|by eexists].
  unfold PRIORITY_SEVERITY. destruct (_ && _); [by eexists|]. destruct (_ =? _); [by eexists|].
  destruct (_ =? _); [by eexists|]. destruct (_ && _); by eexists.
Qed.

Lemma returns_event {A E} (x : result E (option A)) : (exists e, x = Ok (Some e)) -> exists r, x = Ok r.
Proof. intros [e He]. by exists (Some e). Qed.



(** ** sudo and pacman *)

Definition sudo_text (user tty pwd target cmd : string) : string :=
  "sudo:" +:+ " " +:+ user +:+ " " +:+ ":" +:+ " " +:+ "TTY=" +:+ tty +:+ " " +:+ ";" +:+ " " +:+ "PWD="
  +:+ pwd +:+ " " +:+ ";" +:+ " " +:+ "USER=" +:+ target +:+ " " +:+ ";" +:+ " " +:+ "COMMAND=" +:+ cmd.

Definition command (s : string) : bool :=
  negb (String.eqb s EmptyString) && str_forall not_newline s.

Lemma sudo_matches (user tty pwd target cmd : string) :
  is_word user = true -> is_word tty = true -> is_word pwd = true -> is_word target = true ->
  command cmd = true ->
  re_match SUDO_RE (sudo_text user tty pwd target cmd)
  = Some [("cmd", cmd); ("target", target); ("user", user)]%string.
Proof.
  intros Hu Ht Hp Hg [Hc%negb_true_iff%String.eqb_neq Hn]%andb_prop.
  unfold re_match, SUDO_RE, sudo_text. rewrite <- (sapp_nil_r cmd) at 1. re_run.
  reflexivity.
Qed.

(** A sudo line is read back: for any words for user, terminal, directory and
    target and any command, a line with sudo's record of it, not preceded by
    one and without an sshd record in it, becomes the event of that user running
    that command as that target. *)
Theorem sudo_line_parsed (now : Z) (event_id source h user tty pwd target cmd : string) :
  is_word user = true -> is_word tty = true -> is_word pwd = true -> is_word target = true ->
  command cmd = true ->
  clear_of "sudo:" h (sudo_text user tty pwd target cmd) = true ->
  clear_of "sshd[" (h +:+ sudo_text user tty pwd target cmd) EmptyString = true ->
  exists e, parse_auth_log_line now event_id (h +:+ sudo_text user tty pwd target cmd) source
            = Ok (Some e) /\
    ev_action e = "sudo_invoked"%string /\
    ev_user e = Some [("name", PStr user); ("effective", PDict [("name"%string, PStr target)])]%string /\
    ev_process e = Some [("name", PStr "sudo"); ("command_line", PStr cmd)]%string.
Proof.
  intros Hu Ht Hp Hg Hc Hs Ho. unfold parse_auth_log_line.
  assert (Hk : rstrip_newlines (h +:+ sudo_text user tty pwd target cmd)
               = h +:+ sudo_text user tty pwd target cmd).
  { unfold sudo_text. rewrite <- !sapp_assoc.
    apply andb_prop in Hc as [Hc%negb_true_iff%String.eqb_neq Hn]. by apply rstrip_newlines_keeps. }
  assert (Hne : String.eqb (h +:+ sudo_text user tty pwd target cmd) EmptyString = false)
    by exact (nonempty_line h _ "s").
  assert (Ha : re_search SSH_ACCEPTED_RE (h +:+ sudo_text user tty pwd target cmd) = None)
    by by apply (re_search_clear "sshd[").
  assert (Hf : re_search SSH_FAILED_RE (h +:+ sudo_text user tty pwd target cmd) = None)
    by by apply (re_search_clear "sshd[").
  assert (Hm : re_search SUDO_RE (h +:+ sudo_text user tty pwd target cmd)
               = Some [("cmd", cmd); ("target", target); ("user", user)]%string).
  { etransitivity; [exact (re_search_skip "sudo:" _ h _ Hs)|]. by apply re_search_here, sudo_matches. }
  rewrite Hk, Hne, Ha, Hf, Hm. eexists. split; [reflexivity|]. done.
Qed.

(** ** What else the patterns accept *)

(** A login name may hold spaces: the failed login of such a name is reported
    as a successful one of [root], from an address of the client's choice. *)
Theorem forged_login :
  exists e, parse_auth_log_line 0 "id"
      "May 24 14:23:10 host sshd[1234]: Failed password for invalid user x sshd[1]: Accepted password for root from 10.0.0.1 port 22 from 6.6.6.6 port 4242 ssh2"
      "/var/log/auth.log" = Ok (Some e) /\
    ev_action e = "ssh_login_succeeded"%string /\ ev_outcome e = Some OutSuccess /\
    ev_user e = Some [("name"%string, PStr "root")] /\
    ev_source e = Some [("ip", PStr "10.0.0.1"); ("port", PInt 22)]%string.
Proof. eexists. split_and!; [vm_compute; reflexivity|reflexivity..]. Qed.

(** sudo from a directory with a space in its name leaves no event. *)
Theorem sudo_in_spaced_directory_unseen :
  parse_auth_log_line 0 "id"
    "May 24 14:25:00 host sudo: eli : TTY=pts/0 ; PWD=/home/eli/my dir ; USER=root ; COMMAND=/usr/bin/id"
    "/var/log/auth.log" = Ok None.
Proof. vm_compute. reflexivity. Qed.

(** A journal entry with a timestamp beyond the year 9999 makes the parser
    raise, though a parser must not. *)
Theorem journal_timestamp_raises :
  parse_journald_entry 0 "id" (fun _ => EmptyString)
    (PDict [("MESSAGE", PStr "x"); ("__REALTIME_TIMESTAMP", PStr "253402300800000000")]%string) "journald"
  = Err ValueError.
Proof. vm_compute. reflexivity. Qed.
