(* ===== verification/LogTailer.v ===== *)
(** * Following logs ([inspectord/sources/file_tail.py], [sources/journal_source.py],
      [workers/log_tailer/__main__.py])

    A file is followed through an open handle that a rename does not close; the
    files are an explicit state that other processes change between polls. The
    text of a file is what decoding and newline translation make of its bytes.
    Journal entries arrive through a pipe whose reads block. *)

From S2P Require Import Prelude Schemas Json Float64 Parsers.
Local Open Scope Z_scope.

(** ** Files under a path *)

(** The inode the path names, and the text of each inode, kept while a handle
    holds it. *)
Record Files := mkFiles { fl_name : option Z; fl_text : gmap Z string }.

(** An open text handle: its inode and how much of the text it has read. *)
Record Handle := mkHandle { hd_ino : Z; hd_pos : nat }.

Record TailingFileSource := mkTail {
  tl_from_start : bool;
  tl_fh : option Handle;
  tl_inode : option Z;
  tl_buffer : string;
}.
Definition new_tail (from_start : bool) : TailingFileSource := mkTail from_start None None EmptyString.

Definition text_of (f : Files) (ino : Z) : string := default EmptyString (fl_text f !! ino).

(** [_reopen_if_needed]. *)
Definition reopen_if_needed (initial : bool) (f : Files) (t : TailingFileSource) : TailingFileSource :=
  match fl_name f with
  | None =>
      match tl_fh t with
      | Some _ => mkTail (tl_from_start t) None None (tl_buffer t)
      | None => t
      end
  | Some ino =>
      if bool_decide (tl_inode t = Some ino) && match tl_fh t with Some _ => true | None => false end
      then t
      else
        let pos := if initial && negb (tl_from_start t) then String.length (text_of f ino) else O in
        mkTail (tl_from_start t) (Some (mkHandle ino pos)) (Some ino) (tl_buffer t)
  end.

Definition open_tail (f : Files) (t : TailingFileSource) : TailingFileSource := reopen_if_needed true f t.
Definition close_tail (t : TailingFileSource) : TailingFileSource :=
  mkTail (tl_from_start t) None None EmptyString.

(** The text up to and including the first newline, or all of it. *)
Fixpoint line_of (s : string) : string :=
  match s with
  | EmptyString => EmptyString
  | String c s' => if Ascii.eqb c newline then String c EmptyString else String c (line_of s')
  end.

(** [fh.readline()]: the line and the handle after it. *)
Definition readline (f : Files) (h : Handle) : string * Handle :=
  let chunk := line_of (str_drop (hd_pos h) (text_of f (hd_ino h))) in
  (chunk, mkHandle (hd_ino h) (hd_pos h + String.length chunk)).

Definition nl : string := String newline EmptyString.

(** One round of the loop of [read_one]. *)
Definition poll (f : Files) (t : TailingFileSource) : option string * TailingFileSource :=
  let t := reopen_if_needed false f t in
  match tl_fh t with
  | None => (None, t)
  | Some h =>
      let '(chunk, h') := readline f h in
      let buffer := tl_buffer t +:+ chunk in
      if negb (String.eqb chunk EmptyString) && endswith nl buffer then
        (Some (str_init buffer), mkTail (tl_from_start t) (Some h') (tl_inode t) EmptyString)
      else (None, mkTail (tl_from_start t) (Some h') (tl_inode t) buffer)
  end.

(** [read_one]: the states the files are in at the polls the timeout allows. *)
Fixpoint read_one (polls : list Files) (t : TailingFileSource) : option string * TailingFileSource :=
  match polls with
  | [] => (None, t)
  | f :: rest =>
      match poll f t with
      | (Some line, t') => (Some line, t')
      | (None, t') => read_one rest t'
      end
  end.

(** Calls one after the other: the lines returned. *)
Fixpoint read_all (calls : list (list Files)) (t : TailingFileSource)
  : list string * TailingFileSource :=
  match calls with
  | [] => ([], t)
  | polls :: rest =>
      let '(o, t1) := read_one polls t in
      let '(lines, t2) := read_all rest t1 in
      (match o with Some l => l :: lines | None => lines end, t2)
  end.

(** ** The journal *)

(** What the pipe delivers next: a line, or the end of the stream with whether
    the process has exited. Nothing left means the writer is idle. *)
Inductive PipeItem := PipeLine (text : string) | PipeEof (exited : bool).

Inductive JRead :=
| JEntry (d : dict)
| JNone
| JBlocked.   (** [readline] does not return *)

(** [JournalSource.read_one]; [rounds] is how often the clock lets the loop go
    round. *)
Fixpoint journal_read (loads : string -> option pyval) (rounds : nat) (pipe : list PipeItem)
  : JRead * list PipeItem :=
  match rounds with
  | O => (JNone, pipe)
  | S n =>
      match pipe with
      | [] => (JBlocked, pipe)
      | PipeEof exited :: rest => if exited then (JNone, pipe) else journal_read loads n rest
      | PipeLine text :: rest =>
          match loads text with
          | Some (PDict d) => (JEntry d, rest)
          | _ => journal_read loads n rest
          end
      end
  end.

(** ** The worker *)

Record LogTailer := mkTailer {
  lt_pipe : list PipeItem;
  lt_pacman : TailingFileSource;
  lt_auth : TailingFileSource;
  lt_emitted : list Event;
}.

Inductive StepEnd := StepDone | StepRaised (e : PyErr) | StepBlocked.

(** What surrounds one step. *)
Record StepIn := mkStepIn {
  si_now : Z;
  si_id : string;
  si_rounds : nat;
  si_pacman : list Files;
  si_auth : list Files;
}.

Section Worker.
Context (loads : string -> option pyval) (str_other : pyval -> string)
        (fromisoformat : string -> option Z) (pacman_path auth_path : string).

Definition emit (w : LogTailer) (o : option Event) : LogTailer :=
  match o with
  | None => w
  | Some e => mkTailer (lt_pipe w) (lt_pacman w) (lt_auth w) (lt_emitted w ++ [e])
  end.

(** [_emit(parse(...))] of what a read returned. *)
Definition emit_parsed {A} (parse : A -> result PyErr (option Event)) (o : option A) (w : LogTailer)
  : result PyErr unit * LogTailer :=
  match o with
  | None => (Ok tt, w)
  | Some x => match parse x with Ok e => (Ok tt, emit w e) | Err err => (Err err, w) end
  end.

(** [step]: the journal, then the two files. *)
Definition step (i : StepIn) (w : LogTailer) : StepEnd * LogTailer :=
  let '(jr, pipe) := journal_read loads (si_rounds i) (lt_pipe w) in
  let w1 := mkTailer pipe (lt_pacman w) (lt_auth w) (lt_emitted w) in
  match jr with
  | JBlocked => (StepBlocked, w1)
  | _ =>
      let entry := match jr with JEntry d => Some (PDict d) | _ => None end in
      match emit_parsed (fun d => parse_journald_entry (si_now i) (si_id i) str_other d "journald") entry w1 with
      | (Err e, w2) => (StepRaised e, w2)
      | (Ok _, w2) =>
          let '(pl, pt) := read_one (si_pacman i) (lt_pacman w2) in
          let w3 := mkTailer (lt_pipe w2) pt (lt_auth w2) (lt_emitted w2) in
          match emit_parsed (fun l => parse_pacman_line (si_now i) (si_id i) fromisoformat l pacman_path) pl w3 with
          | (Err e, w4) => (StepRaised e, w4)
          | (Ok _, w4) =>
              let '(al, at_) := read_one (si_auth i) (lt_auth w4) in
              let w5 := mkTailer (lt_pipe w4) (lt_pacman w4) at_ (lt_emitted w4) in
              match emit_parsed (fun l => parse_auth_log_line (si_now i) (si_id i) l auth_path) al w5 with
              | (Err e, w6) => (StepRaised e, w6)
              | (Ok _, w6) => (StepDone, w6)
              end
          end
      end
  end.
End Worker.

(** ** Following one file *)

Definition no_newline (s : string) : bool := str_forall not_newline s.

(** The source reads inode [i] and has read [pos] characters of it. *)
Definition at_file (t : TailingFileSource) (i : Z) (pos : nat) : Prop :=
  tl_fh t = Some (mkHandle i pos) /\ tl_inode t = Some i.

(** What has been written but not returned: the buffer and the unread text. *)
Definition pending (t : TailingFileSource) (i : Z) (pos : nat) (f : Files) : string :=
  tl_buffer t +:+ str_drop pos (text_of f i).

(** From [f] on, the path keeps naming [i], to which text is only appended. *)
Fixpoint appended (i : Z) (f : Files) (later : list Files) : Prop :=
  match later with
  | [] => True
  | f' :: rest =>
      fl_name f' = Some i /\ (exists x, text_of f' i = text_of f i +:+ x) /\ appended i f' rest
  end.

Definition unlines (lines : list string) : string := foldr (fun l acc => l +:+ nl +:+ acc) EmptyString lines.
Definition returned (o : option string) : list string := match o with Some l => [l] | None => [] end.

Lemma line_of_spec (s : string) :
  (exists w r, s = w +:+ nl +:+ r /\ no_newline w = true /\ line_of s = w +:+ nl) \/
  (no_newline s = true /\ line_of s = s).
Proof.
  induction s as [|c s IH]; [by right|]. cbn [line_of]. destruct (Ascii.eqb_spec c newline) as [->|Hc].
  - left. by exists EmptyString, s.
  - assert (Hn : not_newline c = true) by (unfold not_newline; by apply Ascii.eqb_neq in Hc as ->).
    destruct IH as [(w & r & -> & Hw & ->)|[Hs ->]].
    + left. exists (String c w), r. split_and!; [done| |done]. unfold no_newline in *. cbn. by rewrite Hn.
    + right. split; [|done]. unfold no_newline in *. cbn. by rewrite Hn.
Qed.

Lemma endswith_nl (s : string) : endswith nl (s +:+ nl) = true.
Proof.
  induction s as [|c s IH]; [reflexivity|].
  change (String c s +:+ nl) with (String c (s +:+ nl)). cbn [endswith]. rewrite IH. apply orb_true_r.
Qed.

Lemma endswith_nl_no (s : string) : no_newline s = true -> endswith nl s = false.
Proof.
  induction s as [|c s IH]; [reflexivity|]. unfold no_newline, not_newline in *. cbn [str_forall].
  intros [Hc%negb_true_iff Hs]%andb_prop. cbn [endswith]. rewrite IH by done. rewrite orb_false_r.
  apply String.eqb_neq. unfold nl. intros [= <- _]. by rewrite Ascii.eqb_refl in Hc.
Qed.

Lemma str_init_snoc (s : string) (c : ascii) : str_init (s +:+ String c EmptyString) = s.
Proof.
  induction s as [|d s IH]; [done|]. cbn. by destruct (s +:+ _) eqn:E; [destruct s|rewrite IH].
Qed.

Lemma str_drop_grow (n : nat) (a b : string) :
  (n <= String.length a)%nat -> str_drop n (a +:+ b) = str_drop n a +:+ b.
Proof.
  revert a. induction n as [|n IH]; intros [|c a] Hn; cbn in *; [done..|lia|]. apply IH. lia.
Qed.

Lemma str_drop_drop (n m : nat) (s : string) : str_drop n (str_drop m s) = str_drop (m + n) s.
Proof. revert s. induction m as [|m IH]; intros s; [done|]. destruct s as [|c s]; cbn; [by destruct n|]. apply IH. Qed.

Lemma str_drop_length (n : nat) (s : string) : String.length (str_drop n s) = (String.length s - n)%nat.
Proof. revert s. induction n as [|n IH]; intros [|c s]; cbn; [done..|]. apply IH. Qed.

Lemma pending_grow (t : TailingFileSource) (i : Z) (pos : nat) (f f' : Files) (x : string) :
  (pos <= String.length (text_of f i))%nat -> text_of f' i = text_of f i +:+ x ->
  pending t i pos f' = pending t i pos f +:+ x.
Proof. intros Hp Hx. unfold pending. by rewrite Hx, str_drop_grow, sapp_assoc by done. Qed.

Lemma no_newline_app (a b : string) : no_newline (a +:+ b) = no_newline a && no_newline b.
Proof. apply str_forall_app. Qed.

(** One poll: the next complete line if there is one, else everything is in the
    buffer. *)
Lemma poll_spec (t : TailingFileSource) (i : Z) (pos : nat) (f : Files) :
  at_file t i pos -> fl_name f = Some i -> (pos <= String.length (text_of f i))%nat ->
  no_newline (tl_buffer t) = true ->
  exists pos', let '(o, t') := poll f t in
    at_file t' i pos' /\ (pos' <= String.length (text_of f i))%nat /\
    pending t i pos f = unlines (returned o) +:+ pending t' i pos' f /\
    no_newline (tl_buffer t') = true /\ Forall (fun l => no_newline l = true) (returned o) /\
    (o = None -> no_newline (pending t' i pos' f) = true).
Proof.
  intros [Hh Hi] Hn Hp Hb. unfold poll, reopen_if_needed. rewrite Hn, Hi, Hh.
  rewrite bool_decide_eq_true_2 by done. cbn [andb]. rewrite Hh. unfold readline. cbn [hd_ino hd_pos].
  pose proof (str_drop_length pos (text_of f i)) as Hlen. unfold pending.
  destruct (line_of_spec (str_drop pos (text_of f i))) as [(w & r & Hs & Hw & ->)|[Hs ->]].
  - exists (pos + String.length (w +:+ nl))%nat.
    rewrite Hs in Hlen. rewrite !slength_app in Hlen. cbn in Hlen.
    replace (String.eqb (w +:+ nl) EmptyString) with false by by destruct w.
    rewrite <- sapp_assoc, endswith_nl. cbn [negb andb tl_buffer returned unlines foldr].
    split_and!; [done|rewrite slength_app; cbn; lia| |done| |done].
    + unfold nl. rewrite str_init_snoc. rewrite <- str_drop_drop, Hs, <- (sapp_assoc w), str_drop_app.
      by rewrite !sapp_assoc.
    + constructor; [|done]. unfold nl. rewrite str_init_snoc, no_newline_app. by rewrite Hb, Hw.
  - exists (pos + String.length (str_drop pos (text_of f i)))%nat.
    rewrite endswith_nl_no by by rewrite no_newline_app, Hb. rewrite andb_false_r.
    cbn [returned unlines foldr tl_buffer].
    rewrite (str_drop_all (pos + _)) by lia.
    split_and!; [done|lia|by rewrite sapp_nil_r| |done|]; rewrite ?sapp_nil_r, ?no_newline_app, ?Hb; done.
Qed.

Definition final (f : Files) (later : list Files) : Files := default f (last later).

Lemma final_cons (f f' : Files) (later : list Files) : final f (f' :: later) = final f' later.
Proof. unfold final. rewrite last_cons. by destruct (last later). Qed.

Lemma final_app (f : Files) (a b : list Files) : final f (a ++ b) = final (final f a) b.
Proof.
  revert f. induction a as [|x a IH]; intros f; [done|]. cbn [app]. by rewrite !final_cons.
Qed.

Lemma appended_final (i : Z) (f : Files) (later : list Files) :
  appended i f later -> exists x, text_of (final f later) i = text_of f i +:+ x.
Proof.
  revert f. induction later as [|f' later IH]; intros f; [exists EmptyString; by rewrite sapp_nil_r|].
  intros (_ & [x Hx] & Ha). rewrite final_cons. destruct (IH _ Ha) as [y Hy]. exists (x +:+ y).
  by rewrite Hy, Hx, sapp_assoc.
Qed.

Lemma appended_app (i : Z) (f : Files) (a b : list Files) :
  appended i f (a ++ b) -> appended i f a /\ appended i (final f a) b.
Proof.
  revert f. induction a as [|x a IH]; intros f; [done|]. cbn [app appended]. rewrite final_cons.
  intros (H1 & H2 & H3). apply IH in H3. tauto.
Qed.

Lemma unlines_app (a b : list string) : unlines (a ++ b) = unlines a +:+ unlines b.
Proof.
  induction a as [|l a IH]; [done|].
  change (unlines ((l :: a) ++ b)) with (l +:+ nl +:+ unlines (a ++ b)).
  change (unlines (l :: a)) with (l +:+ nl +:+ unlines a). by rewrite IH, !sapp_assoc.
Qed.

(** What a reading call or a sequence of them, over files that ended as [f'],
    did: the text between is the lines it returned and what is still pending. *)
Definition reads (i : Z) (pos : nat) (t : TailingFileSource) (f f' : Files) (lines : list string)
    (t' : TailingFileSource) (pos' : nat) : Prop :=
  at_file t' i pos' /\ (pos' <= String.length (text_of f' i))%nat /\
  (exists x, text_of f' i = text_of f i +:+ x /\
     pending t i pos f +:+ x = unlines lines +:+ pending t' i pos' f') /\
  no_newline (tl_buffer t') = true /\ Forall (fun l => no_newline l = true) lines.

Lemma reads_trans (i : Z) pos t f f1 lines1 t1 pos1 f2 lines2 t2 pos2 :
  reads i pos t f f1 lines1 t1 pos1 -> reads i pos1 t1 f1 f2 lines2 t2 pos2 ->
  reads i pos t f f2 (lines1 ++ lines2) t2 pos2.
Proof.
  intros (_ & _ & (x & Hx & Hp) & _ & Hl) (Ha & Hn & (y & Hy & Hq) & Hb & Hm).
  split_and!; [done..| |done|by apply Forall_app]. exists (x +:+ y).
  split; [by rewrite Hy, Hx, sapp_assoc|].
  by rewrite <- sapp_assoc, Hp, unlines_app, !sapp_assoc, Hq.
Qed.

Lemma reads_wait (i : Z) pos t f f' :
  at_file t i pos -> (pos <= String.length (text_of f i))%nat -> no_newline (tl_buffer t) = true ->
  (exists x, text_of f' i = text_of f i +:+ x) -> reads i pos t f f' [] t pos.
Proof.
  intros Ha Hp Hb [x Hx]. split_and!; [done|rewrite Hx, slength_app; lia| |done|done].
  exists x. split; [done|]. by rewrite (pending_grow _ _ _ _ _ _ Hp Hx).
Qed.

Lemma read_one_spec (i : Z) (polls : list Files) (t : TailingFileSource) (pos : nat) (f0 : Files) :
  at_file t i pos -> (pos <= String.length (text_of f0 i))%nat -> no_newline (tl_buffer t) = true ->
  appended i f0 polls ->
  exists pos', let '(o, t') := read_one polls t in
    reads i pos t f0 (final f0 polls) (returned o) t' pos' /\
    (o = None -> polls <> [] -> no_newline (pending t' i pos' (final f0 polls)) = true).
Proof.
  revert t pos f0. induction polls as [|f rest IH]; intros t pos f0 Ha Hp Hb Hg.
  { exists pos. split; [|done]. apply reads_wait; try done. exists EmptyString. by rewrite sapp_nil_r. }
  destruct Hg as (Hn & Hx & Hg). cbn [read_one]. rewrite final_cons.
  pose proof (reads_wait i pos t f0 f Ha Hp Hb Hx) as Hw.
  assert (Hp' : (pos <= String.length (text_of f i))%nat) by apply Hw.
  destruct (poll_spec t i pos f Ha Hn Hp' Hb) as [pos1 H].
  destruct (poll f t) as [o t1]. destruct H as (Ha1 & Hp1 & Hpend & Hb1 & Hl & Hnone).
  assert (Hr : reads i pos t f f (returned o) t1 pos1).
  { split_and!; [done..| |done|done]. exists EmptyString. by rewrite !sapp_nil_r. }
  destruct o as [l|].
  - exists pos1. split; [|done].
    pose proof (reads_trans _ _ _ _ _ _ _ _ _ _ _ _ Hw Hr) as H1.
    apply (reads_trans _ _ _ _ _ _ _ _ _ _ _ _ H1), (reads_wait i pos1 t1 f); try done.
    by apply appended_final.
  - destruct (IH t1 pos1 f Ha1 Hp1 Hb1 Hg) as [pos2 H2]. exists pos2.
    destruct (read_one rest t1) as [o2 t2] eqn:E2. destruct H2 as [Hr2 Hn2]. split.
    + apply (reads_trans _ _ _ _ _ _ _ _ _ _ _ _ Hw).
      exact (reads_trans _ _ _ _ _ _ _ _ _ _ _ _ Hr Hr2).
    + intros Ho _. destruct rest as [|f2 rest]; [|by apply Hn2].
      cbn in E2. injection E2 as <- <-.
      destruct Hr2 as ([Hf2 _] & _). destruct Ha1 as [Hf1 _]. rewrite Hf1 in Hf2.
      injection Hf2 as <-. by apply Hnone.
Qed.

Lemma read_all_spec (i : Z) (calls : list (list Files)) (t : TailingFileSource) (pos : nat) (f0 : Files) :
  at_file t i pos -> (pos <= String.length (text_of f0 i))%nat -> no_newline (tl_buffer t) = true ->
  appended i f0 (concat calls) ->
  exists pos', let '(lines, t') := read_all calls t in
    reads i pos t f0 (final f0 (concat calls)) lines t' pos'.
Proof.
  revert t pos f0. induction calls as [|polls rest IH]; intros t pos f0 Ha Hp Hb Hg.
  { exists pos. apply reads_wait; try done. exists EmptyString. by rewrite sapp_nil_r. }
  cbn [concat read_all] in *. apply appended_app in Hg as [Hg1 Hg2]. rewrite final_app.
  destruct (read_one_spec i polls t pos f0 Ha Hp Hb Hg1) as [pos1 H1].
  destruct (read_one polls t) as [o t1]. destruct H1 as [H1 _].
  pose proof H1 as (Ha1 & Hp1 & _ & Hb1 & _).
  destruct (IH t1 pos1 (final f0 polls) Ha1 Hp1 Hb1 Hg2) as [pos2 H2].
  destruct (read_all rest t1) as [lines t2]. exists pos2.
  replace (match o with Some l => l :: lines | None => lines end) with (returned o ++ lines)
    by by destruct o.
  exact (reads_trans _ _ _ _ _ _ _ _ _ _ _ _ H1 H2).
Qed.


Module TailExample.
Definition file (ino : Z) (text : string) : Files := mkFiles (Some ino) {[ ino := text ]}.
Definition old : string := ("boot" +:+ nl)%string.
(** A line written in two pieces, then two lines at once. *)
Definition calls : list (list Files) :=
  [[file 4 (old +:+ "fir")]; [file 4 (old +:+ "fir"); file 4 (old +:+ "first" +:+ nl)];
   [file 4 (old +:+ "first" +:+ nl +:+ "second" +:+ nl +:+ "third")];
   [file 4 (old +:+ "first" +:+ nl +:+ "second" +:+ nl +:+ "third")]].
Definition opened : TailingFileSource := open_tail (file 4 old) (new_tail false).
(** The log is renamed away with text in it and a new file takes its name. *)
Definition rotated (left_ : string) (fresh : string) : Files :=
  mkFiles (Some 5) {[ 4 := left_; 5 := fresh ]}.
End TailExample.
Import TailExample.

Example tail_example : (read_all calls opened).1 = ["first"; "second"]%string.
Proof. vm_compute. reflexivity. Qed.


(** ** Rotation *)

(** A line the old file ends in the middle of is glued to the first line of the
    new file: the reader returns a line that no file holds. *)
Theorem rotation_glues_lines :
  (read_all [[file 4 (old +:+ "sshd[7]: Failed pass")];
             [rotated (old +:+ "sshd[7]: Failed pass") ("cron[9]: started" +:+ nl)]] opened).1
  = ["sshd[7]: Failed passcron[9]: started"]%string.
Proof. vm_compute. reflexivity. Qed.

(** Lines written to the old file before the rename but not read yet are never
    returned. *)
Theorem rotation_loses_backlog :
  (read_all [[file 4 (old +:+ "one" +:+ nl +:+ "two" +:+ nl)];
             [rotated (old +:+ "one" +:+ nl +:+ "two" +:+ nl) ("three" +:+ nl)]] opened).1
  = ["one"; "three"]%string.
Proof. vm_compute. reflexivity. Qed.

(** ** A quiet journal *)

(** With nothing to read from the journal a step blocks in its first read: no
    timeout ends it, and neither file is looked at, whatever they hold. *)
Theorem idle_journal_blocks_step (loads : string -> option pyval) (str_other : pyval -> string)
    (fromisoformat : string -> option Z) (pacman_path auth_path : string) (i : StepIn)
    (w : LogTailer) :
  lt_pipe w = [] -> (0 < si_rounds i)%nat ->
  step loads str_other fromisoformat pacman_path auth_path i w = (StepBlocked, w).
Proof.
  intros Hp Hr. unfold step. destruct w as [pipe pm au em]. cbn in Hp. subst pipe.
  destruct (si_rounds i); [lia|]. reflexivity.
Qed.
