(* ===== verification/Base64.v ===== *)
(** * Base 64 (the standard library's [base64])

    What [base64.b64encode] writes, and the strict reader of
    [base64.b64decode(s, validate=True)]; bytes are the characters of a
    [string]. *)

From S2P Require Import Prelude.
Local Open Scope Z_scope.

(** ** [base64.b64decode(s, validate=True)] *)

Definition b64_value (c : ascii) : option Z :=
  let n := Z.of_N (code c) in
  if is_upper_ascii c then Some (n - 65)
  else if is_lower_ascii c then Some (n - 71)
  else if is_digit c then Some (n + 4)
  else if n =? 43 then Some 62
  else if n =? 47 then Some 63
  else None.

Definition byte (z : Z) : ascii := ascii_of_N (Z.to_N (z mod 256)).

(** The strict loop of [binascii.a2b_base64]: position in the quad, the bits
    left over, pad characters seen in this quad, whether padding has begun. *)
Fixpoint a2b (s : string) (quad left pads : Z) (started : bool) : option string :=
  match s with
  | EmptyString => if quad =? 0 then Some EmptyString else None
  | String c s' =>
      if Ascii.eqb c "=" then
        if 2 <=? quad then
          if 4 <=? quad + (pads + 1) then
            match s' with EmptyString => Some EmptyString | _ => None end
          else a2b s' quad left (pads + 1) true
        else a2b s' quad left pads true
      else
        match b64_value c with
        | None => None
        | Some v =>
            if started then None
            else if quad =? 0 then a2b s' 1 v 0 started
            else if quad =? 1 then String (byte (left * 4 + v / 16)) <$> a2b s' 2 (v mod 16) 0 started
            else if quad =? 2 then String (byte (left * 16 + v / 4)) <$> a2b s' 3 (v mod 4) 0 started
            else String (byte (left * 64 + v)) <$> a2b s' 0 0 0 started
        end
  end.
Definition b64decode (s : string) : option string :=
  match s with
  | String "=" _ => None
  | _ => a2b s 0 0 0 false
  end.

(** ** [base64.b64encode] *)

Definition b64_char (v : Z) : ascii :=
  ascii_of_N (Z.to_N (if v <? 26 then v + 65 else if v <? 52 then v + 71
                      else if v <? 62 then v - 4 else if v =? 62 then 43 else 47)).

Definition byte_val (c : ascii) : Z := Z.of_N (code c).

(** Three bytes at a time, the last group padded. *)
Fixpoint b64encode (s : string) : string :=
  match s with
  | EmptyString => EmptyString
  | String a EmptyString =>
      String (b64_char (byte_val a / 4)) (String (b64_char (byte_val a mod 4 * 16)) "==")
  | String a (String b EmptyString) =>
      String (b64_char (byte_val a / 4))
        (String (b64_char (byte_val a mod 4 * 16 + byte_val b / 16))
           (String (b64_char (byte_val b mod 16 * 4)) "="))
  | String a (String b (String c rest)) =>
      String (b64_char (byte_val a / 4))
        (String (b64_char (byte_val a mod 4 * 16 + byte_val b / 16))
           (String (b64_char (byte_val b mod 16 * 4 + byte_val c / 64))
              (String (b64_char (byte_val c mod 64)) (b64encode rest))))
  end.

(** ** Reading back *)

Lemma b64_char_reads (v : Z) :
  0 <= v < 64 -> b64_value (b64_char v) = Some v /\ Ascii.eqb (b64_char v) "=" = false.
Proof.
  intros Hv. assert (H : forallb (fun n =>
      bool_decide (b64_value (b64_char (Z.of_nat n)) = Some (Z.of_nat n))
      && negb (Ascii.eqb (b64_char (Z.of_nat n)) "=")) (seq 0 64) = true) by by vm_compute.
  rewrite forallb_forall in H. specialize (H (Z.to_nat v)).
  rewrite Z2Nat.id in H by lia. destruct (proj1 (andb_true_iff _ _) (H ltac:(apply in_seq; lia))) as [H1 H2].
  split; [by apply bool_decide_eq_true in H1 | by apply negb_true_iff in H2].
Qed.

Lemma byte_val_bound (c : ascii) : 0 <= byte_val c < 256.
Proof. unfold byte_val, code. pose proof (N_ascii_bounded c). lia. Qed.

Lemma byte_of_val (c : ascii) (z : Z) : z = byte_val c -> byte z = c.
Proof.
  intros ->. unfold byte. rewrite Z.mod_small by apply byte_val_bound.
  unfold byte_val, code. by rewrite N2Z.id, ascii_N_embedding.
Qed.

Lemma b64_step (v : Z) (s : string) (quad left pads : Z) :
  0 <= v < 64 ->
  a2b (String (b64_char v) s) quad left pads false =
  if quad =? 0 then a2b s 1 v 0 false
  else if quad =? 1 then String (byte (left * 4 + v / 16)) <$> a2b s 2 (v mod 16) 0 false
  else if quad =? 2 then String (byte (left * 16 + v / 4)) <$> a2b s 3 (v mod 4) 0 false
  else String (byte (left * 64 + v)) <$> a2b s 0 0 0 false.
Proof. intros Hv. destruct (b64_char_reads v Hv) as [H1 H2]. cbn [a2b]. by rewrite H2, H1. Qed.

Ltac b64_bytes :=
  repeat match goal with |- context [byte_val ?c] =>
    lazymatch goal with H : 0 <= byte_val c < 256 |- _ => fail | _ => pose proof (byte_val_bound c) end end;
  Z.to_euclidean_division_equations; lia.

Lemma a2b_encode (n : nat) (s : string) :
  (String.length s < n)%nat -> a2b (b64encode s) 0 0 0 false = Some s.
Proof.
  revert s. induction n as [|n IH]; intros s Hn; [lia|].
  destruct s as [|a [|b [|c s]]]; [done|..]; cbn [b64encode];
    rewrite !b64_step by b64_bytes; cbn [Z.eqb Pos.eqb].
  - cbn [a2b Ascii.eqb Bool.eqb]. cbn. rewrite (byte_of_val a) by b64_bytes. done.
  - cbn. rewrite (byte_of_val a), (byte_of_val b) by b64_bytes. done.
  - rewrite IH by (cbn [String.length] in Hn; lia). cbn [fmap option_fmap option_map].
    rewrite (byte_of_val a), (byte_of_val b), (byte_of_val c) by b64_bytes. done.
Qed.

(** Reading what was written gives the bytes back. *)
Lemma b64_round_trip (s : string) : b64decode (b64encode s) = Some s.
Proof.
  assert (H : b64decode (b64encode s) = a2b (b64encode s) 0 0 0 false); [|by rewrite H, (a2b_encode (S (String.length s))) by lia].
  destruct s as [|a s]; [done|].
  assert (Hs : exists t, b64encode (String a s) = String (b64_char (byte_val a / 4)) t).
  { destruct s as [|b [|c s]]; by eexists. }
  destruct Hs as [t ->]. destruct (b64_char_reads (byte_val a / 4)) as [_ He]; [b64_bytes|].
  unfold b64decode. destruct (b64_char _) as [[] [] [] [] [] [] [] []]; try done.
Qed.
