(* ===== verification/PersistenceSource.v ===== *)
(** * The persistence inventory ([inspectord/workers/persistence_snapshotter/source.py])

    Four enumerators read cron tables, timer links, autostart entries and
    authorized keys off a host given by what reading and listing return.
    SHA-256 over the texts and key blobs it is applied to, and the character
    U+2026 that marks a cut, are arguments. *)

From S2P Require Import Prelude Float64 Base64.
Local Open Scope Z_scope.

Definition CRON : string := "cron".
Definition TIMER : string := "timer".
Definition AUTOSTART : string := "autostart".
Definition AUTHKEY : string := "authorized_key".

Definition DETAILS_MAX : nat := 256.

Definition SSH_KEYTYPES : list string :=
  ["ssh-rsa"; "ssh-ed25519"; "ssh-dss"; "ecdsa-sha2-nistp256"; "ecdsa-sha2-nistp384";
   "ecdsa-sha2-nistp521"; "sk-ssh-ed25519@openssh.com"; "sk-ecdsa-sha2-nistp256@openssh.com"]%string.

Record Roots := mkRoots {
  ro_etc_crontab : string;
  ro_cron_d_dir : string;
  ro_run_parts_dirs : list string;
  ro_user_crontab : string;
  ro_timer_wants : list (string * string);
  ro_autostart_dirs : list string;
  ro_authorized_keys : string;
}.

(** [default_roots] for a home directory and the USER variable. *)
Definition default_roots (home : string) (user : option string) : Roots :=
  {| ro_etc_crontab := "/etc/crontab";
     ro_cron_d_dir := "/etc/cron.d";
     ro_run_parts_dirs := ["/etc/cron.hourly"; "/etc/cron.daily"; "/etc/cron.weekly"; "/etc/cron.monthly"]%string;
     ro_user_crontab := "/var/spool/cron/" +:+ default "root"%string user;
     ro_timer_wants :=
       [("system", "/etc/systemd/system/timers.target.wants");
        ("system", "/usr/lib/systemd/system/timers.target.wants");
        ("user", home +:+ "/.config/systemd/user/timers.target.wants");
        ("user", "/etc/systemd/user/timers.target.wants")]%string;
     ro_autostart_dirs := [home +:+ "/.config/autostart"; "/etc/xdg/autostart"]%string;
     ro_authorized_keys := home +:+ "/.ssh/authorized_keys" |}.

(** What the host answers: the text of a file, the names in a directory with
    whether each is a file, the target of a link; [None] is an [OSError]. *)
Record Host := mkHost {
  ho_read : string -> option string;
  ho_list : string -> option (list (string * bool));
  ho_realpath : string -> option string;
}.

Record Attrs := mkAttrs {
  at_kind : string;
  at_name : string;
  at_source_path : string;
  at_details : string;
  at_key : string;
}.

Abbreviation Entries := (list (string * Attrs)).

(** ** Text *)

(** [str.isidentifier] on Latin-1 text. *)
Definition latin_letter (c : ascii) : bool :=
  (code c =? 170)%N || (code c =? 181)%N || (code c =? 186)%N || in_range 192 214 c
  || in_range 216 246 c || in_range 248 255 c.
Definition isidentifier (s : string) : bool :=
  match s with
  | EmptyString => false
  | String c s' =>
      (ident_start c || latin_letter c)
      && str_forall (fun d => ident_char d || latin_letter d || (code d =? 183)%N) s'
  end.

(** The text before the first [sep], all of it without one. *)
Fixpoint before (sep : ascii) (s : string) : string :=
  match s with
  | EmptyString => EmptyString
  | String c s' => if Ascii.eqb c sep then EmptyString else String c (before sep s')
  end.

(** The first word of a text without leading space, and the rest. *)
Fixpoint span_word (s : string) : string * string :=
  match s with
  | EmptyString => (EmptyString, EmptyString)
  | String c s' =>
      if py_space c then (EmptyString, s) else let '(w, r) := span_word s' in (String c w, r)
  end.

(** [s.split(None, n)]. *)
Fixpoint split_max (n : nat) (s : string) : list string :=
  match lstrip s with
  | EmptyString => []
  | t =>
      match n with
      | O => [t]
      | S n' => let '(w, r) := span_word t in w :: split_max n' r
      end
  end.

(** ** Key blobs *)

(** [struct.unpack(">I", blob[:4])]. *)
Definition be32 (blob : string) : option Z :=
  match blob with
  | String a (String b (String c (String d _))) =>
      Some (((Z.of_N (code a) * 256 + Z.of_N (code b)) * 256 + Z.of_N (code c)) * 256 + Z.of_N (code d))
  | _ => None
  end.

Section Source.
Context (sha256_hex : string -> string) (fingerprint : string -> string) (ellipsis : string).

(** [_bound_details]. *)
Definition bound_details (text : string) : string :=
  if (String.length text <=? DETAILS_MAX)%nat then text else str_take DETAILS_MAX text +:+ ellipsis.

(** ** Cron *)

(** [_parse_cron_line]. *)
Definition parse_cron_line (line : string) (has_user_field : bool) : option (string * string) :=
  let stripped := strip line in
  match stripped with
  | EmptyString => None
  | String "#" _ => None
  | _ =>
      let first_token := default EmptyString (head (split_max 1 stripped)) in
      if str_exists (Ascii.eqb "=") first_token && isidentifier (before "=" first_token) then None
      else if startswith "@" stripped then
        let n_fields := if has_user_field then 3%nat else 2%nat in
        let parts := split_max (n_fields - 1) stripped in
        if (length parts <? n_fields)%nat then None
        else Some (default EmptyString (head parts), default EmptyString (last parts))
      else
        let n_lead := if has_user_field then 6%nat else 5%nat in
        let parts := split_max n_lead stripped in
        match parts !! n_lead with
        | None => None
        | Some command => Some (join " " (take 5 parts), command)
        end
  end.

(** [_cron_key]. *)
Definition cron_key (path schedule command : string) : string :=
  "persist:cron:" +:+ path +:+ ":" +:+ str_take 12 (sha256_hex (schedule +:+ " " +:+ command)).

(** One line of a crontab, and [_parse_crontab]: the entries and whether it
    could be read. *)
Definition crontab_line (path : string) (has_user_field : bool) (entries : Entries) (raw : string) : Entries :=
  match parse_cron_line raw has_user_field with
  | None => entries
  | Some (schedule, command) =>
      let key := cron_key path schedule command in
      od_set key (mkAttrs CRON command path (bound_details (strip raw)) key) entries
  end.
Definition parse_crontab (h : Host) (path : string) (has_user_field : bool) (entries : Entries)
  : Entries * bool :=
  match ho_read h path with
  | None => (entries, false)
  | Some text => (foldl (crontab_line path has_user_field) entries (splitlines text), true)
  end.

(** [sorted(p for p in dir.iterdir() if ...)], as names. *)
Definition name_le (a b : string) : Prop := String.le a b.
#[local] Instance name_le_dec a b : Decision (name_le a b).
Proof. unfold name_le. apply _. Defined.
Definition sorted_names (names : list string) : list string := merge_sort name_le names.
Definition files_in (h : Host) (dir : string) : option (list string) :=
  names ← ho_list h dir; Some (sorted_names ((List.filter snd names).*1)).
Definition names_ending (h : Host) (dir suffix : string) : option (list string) :=
  names ← ho_list h dir; Some (sorted_names (List.filter (endswith suffix) names.*1)).
Definition child (dir name : string) : string := dir +:+ "/" +:+ name.

Definition run_parts_entry (rp_dir : string) (entries : Entries) (name : string) : Entries :=
  let key := "persist:cron:" +:+ child rp_dir name in
  od_set key (mkAttrs CRON name (child rp_dir name) (bound_details ("run-parts " +:+ rp_dir)) key) entries.
Definition run_parts (h : Host) (acc : Entries * bool) (rp_dir : string) : Entries * bool :=
  match files_in h rp_dir with
  | None => acc
  | Some scripts => (foldl (run_parts_entry rp_dir) acc.1 scripts, true)
  end.

(** [_enum_cron]. *)
Definition enum_cron (h : Host) (r : Roots) : Entries * bool :=
  let '(e1, r1) := parse_crontab h (ro_etc_crontab r) true [] in
  let listed := files_in h (ro_cron_d_dir r) in
  let r2 := match listed with Some _ => true | None => false end in
  let e2 := foldl (fun e name => (parse_crontab h (child (ro_cron_d_dir r) name) true e).1) e1
              (default [] listed) in
  let '(e3, r3) := parse_crontab h (ro_user_crontab r) false e2 in
  foldl (run_parts h) (e3, r1 || r2 || r3) (ro_run_parts_dirs r).

(** ** Timers *)

Definition schedule_line (ln : string) : bool :=
  startswith "OnCalendar=" (strip ln) || startswith "OnBootSec=" (strip ln).

Definition timer_entry (h : Host) (scope wants_dir : string) (entries : Entries) (unit_ : string) : Entries :=
  if endswith "@.timer" unit_ then entries
  else match ho_realpath h (child wants_dir unit_) with
  | None => entries
  | Some target =>
      if String.eqb target "/dev/null" then entries
      else
        let text := default EmptyString (ho_read h target) in
        let details := join " " (strip <$> List.filter schedule_line (splitlines text)) in
        let key := "persist:timer:" +:+ scope +:+ ":" +:+ unit_ in
        od_set key (mkAttrs TIMER unit_ target (bound_details details) key) entries
  end.
Definition timer_dir (h : Host) (acc : Entries * bool) (sd : string * string) : Entries * bool :=
  match names_ending h sd.2 ".timer" with
  | None => acc
  | Some links => (foldl (timer_entry h sd.1 sd.2) acc.1 links, true)
  end.

(** [_enum_timers]. *)
Definition enum_timers (h : Host) (r : Roots) : Entries * bool :=
  foldl (timer_dir h) ([], false) (ro_timer_wants r).

(** ** Autostart *)

Definition desktop_line (acc : option string * option string) (raw : string)
  : option string * option string :=
  let ln := strip raw in
  let '(name, exec_val) := acc in
  match name with
  | None =>
      if startswith "Name=" ln then (Some (str_drop 5 ln), exec_val)
      else match exec_val with
           | None => if startswith "Exec=" ln then (None, Some (str_drop 5 ln)) else acc
           | Some _ => acc
           end
  | Some _ =>
      match exec_val with
      | None => if startswith "Exec=" ln then (name, Some (str_drop 5 ln)) else acc
      | Some _ => acc
      end
  end.

Definition desktop_entry (h : Host) (dir : string) (entries : Entries) (file : string) : Entries :=
  let path := child dir file in
  match ho_read h path with
  | None => entries
  | Some text =>
      match foldl desktop_line (None, None) (splitlines text) with
      | (_, None) => entries
      | (name, Some exec_val) =>
          let key := "persist:autostart:" +:+ path in
          let shown := match name with Some n => if String.eqb n EmptyString then file else n | None => file end in
          od_set key (mkAttrs AUTOSTART shown path (bound_details exec_val) key) entries
      end
  end.
Definition autostart_dir (h : Host) (acc : Entries * bool) (dir : string) : Entries * bool :=
  match names_ending h dir ".desktop" with
  | None => acc
  | Some files => (foldl (desktop_entry h dir) acc.1 files, true)
  end.

(** [_enum_autostart]. *)
Definition enum_autostart (h : Host) (r : Roots) : Entries * bool :=
  foldl (autostart_dir h) ([], false) (ro_autostart_dirs r).

(** ** Authorized keys *)

(** The tokens from the first key type on. *)
Fixpoint from_keytype (tokens : list string) : option (string * list string) :=
  match tokens with
  | [] => None
  | t :: rest => if bool_decide (t ∈ SSH_KEYTYPES) then Some (t, rest) else from_keytype rest
  end.

(** [_parse_authorized_key_line]; the source path is filled in by the caller. *)
Definition parse_authorized_key_line (source line : string) : option Attrs :=
  let stripped := strip line in
  match stripped with
  | EmptyString => None
  | String "#" _ => None
  | _ =>
      '(keytype, rest) ← from_keytype (split_ws stripped);
      match rest with
      | [] => None
      | b64field :: comment =>
          blob ← b64decode b64field;
          type_len ← be32 blob;
          if negb (String.eqb (prefix_upto type_len (str_drop 4 blob)) keytype) then None
          else
            let fp := fingerprint blob in
            let name := match join " " comment with EmptyString => fp | c => c end in
            let key := "persist:authkey:" +:+ keytype +:+ ":" +:+ fp in
            Some (mkAttrs AUTHKEY name source (bound_details (keytype +:+ " " +:+ fp)) key)
      end
  end.

Definition authkey_line (source : string) (entries : Entries) (raw : string) : Entries :=
  match parse_authorized_key_line source raw with
  | None => entries
  | Some a => od_set (at_key a) a entries
  end.

(** [_enum_authorized_keys]. *)
Definition enum_authorized_keys (h : Host) (r : Roots) : Entries * bool :=
  match ho_read h (ro_authorized_keys r) with
  | None => ([], false)
  | Some text => (foldl (authkey_line (ro_authorized_keys r)) [] (splitlines text), true)
  end.

(** ** [snapshot] *)

Definition merge_entry (merged : Entries) (e : string * Attrs) : Entries :=
  let '(key, a) := e in
  od_set key (mkAttrs (at_kind a) (at_name a) (at_source_path a) (bound_details (at_details a)) key) merged.

Definition snapshot (h : Host) (r : Roots) : Entries * list string :=
  foldl (fun acc '(kind, enumerator) =>
      let '(entries, readable) := enumerator h r in
      (foldl merge_entry acc.1 entries, if readable : bool then acc.2 else acc.2 ++ [kind]))
    ([], [])
    [(CRON, enum_cron); (TIMER, enum_timers); (AUTOSTART, enum_autostart);
     (AUTHKEY, enum_authorized_keys)].
End Source.
