(* ===== verification/PersistenceWorker.v ===== *)
(** * The persistence snapshotter ([inspectord/workers/persistence_snapshotter])

    The worker that polls the inventory of [PersistenceSource.v], compares
    successive snapshots and emits an event per entry that came or went. The
    order in which Python walks a difference of key sets, and the clock and
    fresh id of each event, are arguments of a poll. *)

From S2P Require Import Prelude Schemas Tables Float64 Alerts Projector PersistenceSource.
Local Open Scope Z_scope.

Record Snapshotter := mkSnapshotter {
  sn_prev : Entries;
  sn_seeded : bool;
}.
Definition new_snapshotter : Snapshotter := mkSnapshotter [] false.

(** What surrounds one step: what [snapshot_fn] returns, the order of a set and
    the time and id of the event about a key. *)
Record Poll := mkPoll {
  po_current : Entries;
  po_failed : list string;
  po_order : list string -> list string;
  po_stamp : string -> Z * string;
}.

(** [_emit]. *)
Definition emit_args (host_name action : string) (a : Attrs) (first_seen : bool) : EventArgs :=
  let sev := if String.eqb (at_kind a) AUTHKEY then "medium"%string else "low"%string in
  let b := event_args "persistence_snapshotter" action ["host"]%string
             (if String.eqb action "persistence_added" then ["start"]%string else ["end"]%string) sev in
  {| a_module := a_module b; a_action := a_action b; a_category := a_category b; a_type := a_type b;
     a_severity := a_severity b; a_kind := a_kind b;
     a_host := Some [("name"%string, PStr host_name)]; a_outcome := None;
     a_message := Some (action +:+ " " +:+ at_kind a +:+ " " +:+ at_name a);
     a_process := None; a_file := None; a_user := None; a_source := None; a_destination := None;
     a_network := None; a_service := None; a_package := None; a_device := None;
     a_persistence := Some [("kind", PStr (at_kind a)); ("name", PStr (at_name a));
                            ("source_path", PStr (at_source_path a)); ("details", PStr (at_details a));
                            ("key", PStr (at_key a))]%string;
     a_vulnerability := None; a_hunt := None; a_threat := None;
     a_raw := Some [("source"%string, PStr (at_source_path a))];
     a_labels := Some ["persistence"%string; "persist:" +:+ at_kind a]; a_ts := None;
     a_first_seen := first_seen |}.
Definition emit (host_name action : string) (first_seen : bool) (stamp : string -> Z * string) (a : Attrs)
  : option Event :=
  build_event (stamp (at_key a)).1 (stamp (at_key a)).2 (emit_args host_name action a first_seen).

(** Entries of a kind that could not be read are carried over. *)
Definition carry (failed : list string) (effective : Entries) (e : string * Attrs) : Entries :=
  let '(key, a) := e in
  if bool_decide (at_kind a ∈ failed) && negb (od_mem key effective) then od_set key a effective
  else effective.

(** [step]. *)
Definition step (host_name : string) (p : Poll) (w : Snapshotter) : list Event * Snapshotter :=
  let baseline := negb (sn_seeded w) in
  let effective := foldl (carry (po_failed p)) (po_current p) (sn_prev w) in
  let added := po_order p (List.filter (fun k => negb (od_mem k (sn_prev w))) effective.*1) in
  let removed := po_order p (List.filter (fun k => negb (od_mem k effective)) (sn_prev w).*1) in
  (omap (fun k => a ← od_get k effective; emit host_name "persistence_added" baseline (po_stamp p) a) added
   ++ omap (fun k => a ← od_get k (sn_prev w); emit host_name "persistence_removed" false (po_stamp p) a) removed,
   mkSnapshotter effective true).

Fixpoint run_polls (host_name : string) (polls : list Poll) (w : Snapshotter) : list Event * Snapshotter :=
  match polls with
  | [] => ([], w)
  | p :: rest =>
      let '(es, w1) := step host_name p w in
      let '(es', w2) := run_polls host_name rest w1 in (es ++ es', w2)
  end.

(** ** One key across the polls *)

(** What is known of a key: its attributes when it was reported, those of the
    last snapshot that had it, and the time and id of the report. *)
Definition Tracked : Type := Attrs * Attrs * (Z * string).

Definition track (k : string) (st : option Tracked) (p : Poll) : option Tracked :=
  match od_get k (po_current p), st with
  | Some a, Some (a0, _, stamp) => Some (a0, a, stamp)
  | Some a, None => Some (a, a, po_stamp p k)
  | None, Some (_, a, _) => if bool_decide (at_kind a ∈ po_failed p) then st else None
  | None, None => None
  end.

(** The table row of a tracked key. *)
Definition row_of (k : string) (t : Tracked) : PersistRow :=
  let '(a0, _, (ts, id)) := t in
  mkPersist k (PStr (at_kind a0)) (PStr (at_name a0)) (PStr (at_source_path a0)) (PStr (at_details a0)) ts ts id.

(** A poll as [snapshot] makes them. *)
Record poll_ok (p : Poll) : Prop := {
  pk_nodup : NoDup (po_current p).*1;
  pk_key : forall k a, od_get k (po_current p) = Some a -> at_key a = k /\ k <> EmptyString;
  pk_order : forall l, po_order p l ≡ₚ l;
}.

Lemma od_set_new (k : string) (a : Attrs) (d : Entries) : k ∉ d.*1 -> od_set k a d = d ++ [(k, a)].
Proof.
  induction d as [|[k' a'] d IH]; simpl; [done|]. intros [Hne Hn]%not_elem_of_cons.
  case_decide as Hk; [done|]. by rewrite IH.
Qed.

Lemma od_get_snoc (k k' : string) (a : Attrs) (d : Entries) :
  od_get k (d ++ [(k', a)]) = match od_get k d with Some b => Some b | None => if decide (k = k') then Some a else None end.
Proof. induction d as [|[k2 a2] d IH]; simpl; [done|]. by destruct (decide (k = k2)). Qed.

Lemma carry_nodup (failed : list string) (prev cur : Entries) :
  NoDup cur.*1 -> NoDup (foldl (carry failed) cur prev).*1.
Proof.
  revert cur. induction prev as [|[k a] prev IH]; intros cur Hc; [done|]. cbn [foldl]. apply IH.
  cbn [carry]. destruct (bool_decide (at_kind a ∈ failed)); [|done].
  destruct (od_mem k cur) eqn:Em; [done|]. apply od_mem_false in Em. cbn [negb andb].
  rewrite od_set_new, fmap_app by done. apply NoDup_app. split_and!; [done| |apply NoDup_singleton].
  intros x Hx Hx'. apply list_elem_of_singleton in Hx' as ->. done.
Qed.

Lemma carry_get (failed : list string) (prev cur : Entries) (k : string) :
  NoDup prev.*1 ->
  od_get k (foldl (carry failed) cur prev) =
  match od_get k cur with
  | Some a => Some a
  | None => match od_get k prev with
            | Some a => if bool_decide (at_kind a ∈ failed) then Some a else None
            | None => None
            end
  end.
Proof.
  revert cur. induction prev as [|[k' a'] prev IH]; intros cur Hnd; cbn [foldl od_get].
  { by destruct (od_get k cur). }
  rewrite fmap_cons in Hnd. apply NoDup_cons in Hnd as [Hk' Hnd]. rewrite IH by done. clear IH. cbn [carry].
  destruct (bool_decide (at_kind a' ∈ failed)) eqn:Ef; cbn [andb].
  - destruct (od_mem k' cur) eqn:Em; cbn [negb].
    + destruct (decide (k = k')) as [<-|Hk]; [|done]. apply od_mem_true in Em.
      destruct (od_get k cur) eqn:Eg; [done|]. by apply od_get_None in Eg.
    + apply od_mem_false in Em. rewrite od_set_new, od_get_snoc by done.
      destruct (decide (k = k')) as [<-|Hk]; [|by destruct (od_get k cur)].
      destruct (od_get k cur) eqn:Eg; [done|]. by rewrite Ef.
  - destruct (decide (k = k')) as [<-|Hk]; [|done]. destruct (od_get k cur) eqn:Eg; [done|].
    cbn [fst] in Hk'. apply od_get_None in Hk'. by rewrite Hk', Ef.
Qed.

(** ** The events and the table *)

Section Table.
Context (host_name : string) (col : pyval -> string).
Hypothesis col_str : forall s, col (PStr s) = s.

Definition added_event (fs : bool) (stamp : string -> Z * string) (d : Entries) (k : string) : option Event :=
  a ← od_get k d; emit host_name "persistence_added" fs stamp a.
Definition removed_event (stamp : string -> Z * string) (d : Entries) (k : string) : option Event :=
  a ← od_get k d; emit host_name "persistence_removed" false stamp a.

Lemma added_op (fs : bool) (stamp : string -> Z * string) (d : Entries) (k : string) (a : Attrs) :
  od_get k d = Some a -> at_key a = k -> k <> EmptyString ->
  exists e, added_event fs stamp d k = Some e /\
    persist_op col e = TUpsert (row_of k (a, a, stamp k)) (persist_upd (row_of k (a, a, stamp k))).
Proof.
  intros Hg <- Hne. unfold added_event. rewrite Hg. cbn [mbind option_bind]. unfold emit, emit_args.
  destruct (stamp (at_key a)) as [ts id].
  destruct (String.eqb (at_kind a) AUTHKEY); eexists; (split; [reflexivity|]);
    unfold persist_op, pkey_of, persist_row; cbn; rewrite col_str;
    (destruct (at_key a) as [|c s]; [done|]); reflexivity.
Qed.

Lemma removed_op (stamp : string -> Z * string) (d : Entries) (k : string) (a : Attrs) :
  od_get k d = Some a -> at_key a = k -> k <> EmptyString ->
  exists e, removed_event stamp d k = Some e /\ persist_op col e = TDrop k.
Proof.
  intros Hg <- Hne. unfold removed_event. rewrite Hg. cbn [mbind option_bind]. unfold emit, emit_args.
  destruct (stamp (at_key a)) as [ts id].
  destruct (String.eqb (at_kind a) AUTHKEY); eexists; (split; [reflexivity|]);
    unfold persist_op, pkey_of; cbn; rewrite col_str;
    (destruct (at_key a) as [|c s]; [done|]); reflexivity.
Qed.

Definition keyed (d : Entries) : Prop := forall k a, od_get k d = Some a -> at_key a = k /\ k <> EmptyString.

Lemma od_get_mem (k : string) (d : Entries) : k ∈ d.*1 -> exists a, od_get k d = Some a.
Proof. intros Hk. destruct (od_get k d) eqn:E; [by eexists|]. by apply od_get_None in E. Qed.

(** Adding keys, seen from [k]. *)
Lemma adds_step (fs : bool) (stamp : string -> Z * string) (d : Entries) (ks : list string) (k : string)
    (o : option PersistRow) :
  keyed d -> NoDup ks -> (forall x, x ∈ ks -> x ∈ d.*1) -> (k ∈ ks -> o = None) ->
  foldl (key_step pr_key k) o (persist_op col <$> omap (added_event fs stamp d) ks) =
  if decide (k ∈ ks) then (fun a => row_of k (a, a, stamp k)) <$> od_get k d else o.
Proof.
  intros Hd. revert o. induction ks as [|x ks IH]; intros o Hnd Hin Ho; [by rewrite decide_False by apply not_elem_of_nil|].
  apply NoDup_cons in Hnd as [Hx Hnd].
  destruct (od_get_mem x d (Hin x ltac:(left))) as [a Ha]. destruct (Hd x a Ha) as [Hk Hne].
  destruct (added_op fs stamp d x a Ha Hk Hne) as (e & He & Hop).
  cbn [omap list_omap]. change (list_omap _ _ (added_event fs stamp d) ks) with (omap (added_event fs stamp d) ks).
  rewrite He. cbn [fmap list_fmap foldl]. rewrite Hop. cbn [key_step].
  assert (Hkey : has_key pr_key k (row_of x (a, a, stamp x)) = bool_decide (x = k)).
  { unfold has_key, row_of. by destruct (stamp x). }
  rewrite Hkey. destruct (bool_decide_reflect (x = k)) as [<-|Hxk].
  - rewrite (Ho ltac:(left)), decide_True by left. rewrite IH; [|done|intros y Hy; apply Hin; by right|done].
    by rewrite decide_False, Ha by done.
  - rewrite IH; [|done|intros y Hy; apply Hin; by right|intros Hy; apply Ho; by right].
    destruct (decide (k ∈ ks)) as [Hy|Hy]; [by rewrite decide_True by by right|].
    rewrite decide_False; [done|]. by intros [->|?]%elem_of_cons.
Qed.

(** Removing keys, seen from [k]. *)
Lemma removes_step (stamp : string -> Z * string) (d : Entries) (ks : list string) (k : string)
    (o : option PersistRow) :
  keyed d -> (forall x, x ∈ ks -> x ∈ d.*1) ->
  foldl (key_step pr_key k) o (persist_op col <$> omap (removed_event stamp d) ks) =
  if decide (k ∈ ks) then None else o.
Proof.
  intros Hd. revert o. induction ks as [|x ks IH]; intros o Hin; [by rewrite decide_False by apply not_elem_of_nil|].
  destruct (od_get_mem x d (Hin x ltac:(left))) as [a Ha]. destruct (Hd x a Ha) as [Hk Hne].
  destruct (removed_op stamp d x a Ha Hk Hne) as (e & He & Hop).
  cbn [omap list_omap]. change (list_omap _ _ (removed_event stamp d) ks) with (omap (removed_event stamp d) ks).
  rewrite He. cbn [fmap list_fmap foldl]. rewrite Hop. cbn [key_step].
  rewrite IH by (intros y Hy; apply Hin; by right).
  destruct (bool_decide_reflect (x = k)) as [<-|Hxk].
  - rewrite (decide_True (P := x ∈ x :: ks)) by left. by destruct (decide (x ∈ ks)).
  - destruct (decide (k ∈ ks)) as [Hy|Hy]; [by rewrite decide_True by by right|].
    rewrite decide_False; [done|]. by intros [->|?]%elem_of_cons.
Qed.

Definition latest (t : Tracked) : Attrs := t.1.2.

Lemma effective_keyed (failed : list string) (prev cur : Entries) :
  NoDup prev.*1 -> keyed prev -> keyed cur -> keyed (foldl (carry failed) cur prev).
Proof.
  intros Hnd Hp Hc k a. rewrite carry_get by done. destruct (od_get k cur) eqn:Ec.
  - intros [= <-]. by apply Hc.
  - destruct (od_get k prev) eqn:Ep; [|done]. destruct (bool_decide _); [|done]. intros [= <-]. by apply Hp.
Qed.

(** One step, seen from one key. *)
Lemma step_key (p : Poll) (w : Snapshotter) (k : string) (st : option Tracked) :
  poll_ok p -> NoDup (sn_prev w).*1 -> keyed (sn_prev w) -> od_get k (sn_prev w) = latest <$> st ->
  let '(es, w') := step host_name p w in
  NoDup (sn_prev w').*1 /\ keyed (sn_prev w') /\ sn_seeded w' = true /\
  od_get k (sn_prev w') = latest <$> track k st p /\
  foldl (key_step pr_key k) (row_of k <$> st) (persist_op col <$> es) = row_of k <$> track k st p.
Proof.
  intros [Hcn Hck Hord] Hnd Hkd Hst. unfold step.
  set (eff := foldl (carry (po_failed p)) (po_current p) (sn_prev w)). cbn [sn_prev sn_seeded].
  assert (Hen : NoDup eff.*1) by by apply carry_nodup.
  assert (Hek : keyed eff) by by apply effective_keyed.
  assert (Hget : od_get k eff = latest <$> track k st p).
  { unfold eff. rewrite carry_get, Hst by done. unfold track.
    destruct (od_get k (po_current p)), st as [[[a0 a1] stamp]|]; try done. cbn. by case_bool_decide. }
  split_and!; [done..|]. rewrite fmap_app, foldl_app.
  rewrite (adds_step (negb (sn_seeded w)) (po_stamp p) eff); [|done|..].
  - rewrite (removes_step (po_stamp p) (sn_prev w)); [|done|].
    2:{ intros x. rewrite Hord, list_elem_of_In, filter_In, <- list_elem_of_In. tauto. }
    assert (Hadd : k ∈ po_order p (List.filter (fun x => negb (od_mem x (sn_prev w))) eff.*1) <->
                   k ∈ eff.*1 /\ od_mem k (sn_prev w) = false).
    { rewrite Hord, list_elem_of_In, filter_In, <- list_elem_of_In, negb_true_iff. done. }
    assert (Hrem : k ∈ po_order p (List.filter (fun x => negb (od_mem x eff)) (sn_prev w).*1) <->
                   k ∈ (sn_prev w).*1 /\ od_mem k eff = false).
    { rewrite Hord, list_elem_of_In, filter_In, <- list_elem_of_In, negb_true_iff. done. }
    rewrite od_mem_false in Hadd, Hrem. rewrite <- od_get_None in Hadd, Hrem.
    destruct (decide (k ∈ po_order p _)) as [[Hin Hout]%Hrem|Hr].
    { rewrite Hget in Hout. by destruct (track k st p). }
    destruct (decide (k ∈ po_order p _)) as [[Hin Hout]%Hadd|Ha].
    + rewrite Hget. rewrite Hst in Hout. destruct st; [done|]. unfold track.
      by destruct (od_get k (po_current p)).
    + destruct (track k st p) as [t'|] eqn:Et.
      * assert (Hm : k ∈ eff.*1) by (eapply od_get_Some_mem; by rewrite Hget).
        destruct st as [[[a0 a1] stamp]|]; [|exfalso; apply Ha, Hadd; by rewrite Hst].
        unfold track in Et. destruct (od_get k (po_current p)); [by injection Et as <-|].
        case_bool_decide; [by injection Et as <- | done].
      * destruct st as [t|]; [|done]. exfalso. apply Hr, Hrem. rewrite Hget. split; [|done].
        eapply od_get_Some_mem. by rewrite Hst.
  - rewrite Hord. apply NoDup_ListNoDup, List.NoDup_filter, NoDup_ListNoDup, Hen.
  - intros x. rewrite Hord, list_elem_of_In, filter_In, <- list_elem_of_In. tauto.
  - rewrite Hord, list_elem_of_In, filter_In, negb_true_iff, od_mem_false, <- od_get_None, Hst.
    intros [_ Hn]. by destruct st.
Qed.

Lemma run_key (polls : list Poll) (w : Snapshotter) (k : string) (st : option Tracked) :
  Forall poll_ok polls -> NoDup (sn_prev w).*1 -> keyed (sn_prev w) ->
  od_get k (sn_prev w) = latest <$> st ->
  let '(es, w') := run_polls host_name polls w in
  od_get k (sn_prev w') = latest <$> foldl (track k) st polls /\
  foldl (key_step pr_key k) (row_of k <$> st) (persist_op col <$> es)
  = row_of k <$> foldl (track k) st polls.
Proof.
  revert w st. induction polls as [|p polls IH]; intros w st Hok Hnd Hkd Hst; [done|].
  apply Forall_cons in Hok as [Hp Hok]. cbn [run_polls foldl].
  pose proof (step_key p w k st Hp Hnd Hkd Hst) as H1.
  destruct (step host_name p w) as [es w1]. destruct H1 as (Hnd1 & Hkd1 & _ & Hst1 & Ht1).
  specialize (IH w1 _ Hok Hnd1 Hkd1 Hst1). destruct (run_polls host_name polls w1) as [es' w2].
  destruct IH as [H2 H3]. split; [done|]. by rewrite fmap_app, foldl_app, Ht1.
Qed.
End Table.
