(* ===== verification/PersistenceProofs.v ===== *)
(** * Properties of the persistence snapshotter

    What the inventory of a host contains, and that the table the daemon keeps
    of it follows the polls of the worker. *)

From S2P Require Import Prelude Schemas Tables Float64 Alerts Projector PersistenceSource PersistenceWorker.
Local Open Scope Z_scope.

(** ** What a snapshot holds *)

(** The text every key of a kind starts with. *)
Definition kind_prefix (kind : string) : string :=
  if String.eqb kind AUTHKEY then "persist:authkey:" else "persist:" +:+ kind +:+ ":".

Record entry_ok (k : string) (a : Attrs) : Prop := {
  eo_key : at_key a = k;
  eo_kind : at_kind a ∈ [CRON; TIMER; AUTOSTART; AUTHKEY];
  eo_prefix : startswith (kind_prefix (at_kind a)) k = true;
}.

Definition entries_ok (kind : string) (d : Entries) : Prop :=
  NoDup d.*1 /\ forall k a, od_get k d = Some a -> entry_ok k a /\ at_kind a = kind.

Lemma entries_ok_nil (kind : string) : entries_ok kind [].
Proof. split; [constructor | done]. Qed.

Lemma entries_ok_set (kind : string) (d : Entries) (k : string) (a : Attrs) :
  entry_ok k a -> at_kind a = kind -> entries_ok kind d -> entries_ok kind (od_set k a d).
Proof.
  intros Ha Hk [Hn Hd]. split; [by apply od_set_nodup|]. intros k' a'. rewrite od_get_set.
  case_decide as He; [by intros [= <-]; subst|]. apply Hd.
Qed.

Lemma foldl_inv {A B} (P : A -> Prop) (f : A -> B -> A) (l : list B) (a : A) :
  P a -> (forall a b, P a -> P (f a b)) -> P (foldl f a l).
Proof. intros Ha Hf. revert a Ha. induction l as [|b l IH]; intros a Ha; [done|]. cbn. auto. Qed.

Section Snapshot.
Context (sha256_hex : string -> string) (fingerprint : string -> string) (ellipsis : string).

Ltac solve_entry := split; cbn; [done | set_solver | apply startswith_app || reflexivity].

Lemma entry_cron (k name source details rest : string) :
  k = "persist:cron:" +:+ rest -> entry_ok k (mkAttrs CRON name source details k).
Proof. intros ->. solve_entry. Qed.

Lemma crontab_ok (h : Host) (path : string) (u : bool) (d : Entries) :
  entries_ok CRON d -> entries_ok CRON (parse_crontab sha256_hex ellipsis h path u d).1.
Proof.
  intros Hd. unfold parse_crontab. destruct (ho_read h path) as [text|]; [|done]. cbn [fst].
  apply foldl_inv; [done|]. intros e raw He. unfold crontab_line.
  destruct (parse_cron_line raw u) as [[schedule command]|]; [|done].
  apply entries_ok_set; [by eapply entry_cron | done | done].
Qed.

Lemma cron_ok (h : Host) (r : Roots) : entries_ok CRON (enum_cron sha256_hex ellipsis h r).1.
Proof.
  unfold enum_cron.
  pose proof (crontab_ok h (ro_etc_crontab r) true [] (entries_ok_nil CRON)) as H1.
  destruct (parse_crontab _ _ h (ro_etc_crontab r) true []) as [e1 r1]. cbn [fst] in H1.
  assert (H2 : entries_ok CRON
    (foldl (fun e name => (parse_crontab sha256_hex ellipsis h (child (ro_cron_d_dir r) name) true e).1) e1
       (default [] (files_in h (ro_cron_d_dir r))))).
  { apply foldl_inv; [done|]. intros. by apply crontab_ok. }
  pose proof (crontab_ok h (ro_user_crontab r) false _ H2) as H3.
  destruct (parse_crontab _ _ h (ro_user_crontab r) false _) as [e3 r3]. cbn [fst] in H3.
  apply (foldl_inv (fun acc => entries_ok CRON acc.1)); [done|].
  intros acc dir Ha. unfold run_parts. destruct (files_in h dir) as [scripts|]; [|done]. cbn [fst].
  apply foldl_inv; [done|]. intros e name He. unfold run_parts_entry.
  apply entries_ok_set; [by eapply entry_cron | done | done].
Qed.

Lemma timers_ok (h : Host) (r : Roots) : entries_ok TIMER (enum_timers ellipsis h r).1.
Proof.
  unfold enum_timers. apply (foldl_inv (fun acc => entries_ok TIMER acc.1)); [apply entries_ok_nil|].
  intros acc sd Ha. unfold timer_dir. destruct (names_ending _ _ _) as [links|]; [|done]. cbn [fst].
  apply foldl_inv; [done|]. intros e u He. unfold timer_entry.
  destruct (endswith _ u); [done|]. destruct (ho_realpath _ _) as [target|]; [|done].
  destruct (String.eqb target _); [done|]. apply entries_ok_set; [solve_entry | done | done].
Qed.

Lemma autostart_ok (h : Host) (r : Roots) : entries_ok AUTOSTART (enum_autostart ellipsis h r).1.
Proof.
  unfold enum_autostart. apply (foldl_inv (fun acc => entries_ok AUTOSTART acc.1)); [apply entries_ok_nil|].
  intros acc dir Ha. unfold autostart_dir. destruct (names_ending _ _ _) as [files|]; [|done]. cbn [fst].
  apply foldl_inv; [done|]. intros e f He. unfold desktop_entry.
  destruct (ho_read _ _) as [text|]; [|done]. destruct (foldl desktop_line _ _) as [name [exec_val|]]; [|done].
  apply entries_ok_set; [solve_entry | done | done].
Qed.

Lemma authkey_attrs (source line : string) (a : Attrs) :
  parse_authorized_key_line fingerprint ellipsis source line = Some a ->
  entry_ok (at_key a) a /\ at_kind a = AUTHKEY.
Proof.
  unfold parse_authorized_key_line. destruct (strip line) as [|c s]; [done|].
  intros H. assert (Ha : exists rest, at_key a = "persist:authkey:" +:+ rest /\ at_kind a = AUTHKEY).
  { revert H.
    match goal with |- (match ?c with _ => _ end) = _ -> _ => destruct c as [[] [] [] [] [] [] [] []] end;
      try done; intros H; apply bind_Some in H as ([kt rest] & _ & H); destruct rest as [|b64 comment]; try done;
      apply bind_Some in H as (blob & _ & H); apply bind_Some in H as (n & _ & H);
      destruct (negb _) in H; try done; injection H as <-; by eexists. }
  destruct Ha as (rest & Hk & Hkd). split; [|done]. split; [done| |].
  - rewrite Hkd. set_solver.
  - rewrite Hkd, Hk. reflexivity.
Qed.

Lemma authkeys_ok (h : Host) (r : Roots) : entries_ok AUTHKEY (enum_authorized_keys fingerprint ellipsis h r).1.
Proof.
  unfold enum_authorized_keys. destruct (ho_read _ _) as [text|]; [|apply entries_ok_nil]. cbn [fst].
  apply foldl_inv; [apply entries_ok_nil|]. intros e raw He. unfold authkey_line.
  destruct (parse_authorized_key_line _ _ _ raw) as [a|] eqn:E; [|done].
  destruct (authkey_attrs _ _ _ E) as [Ha Hk]. by apply entries_ok_set.
Qed.

(** The merged inventory: keys unique, each naming its entry and its kind, and
    details cut to their bound. *)
Definition inventory_ok (d : Entries) : Prop :=
  NoDup d.*1 /\ forall k a, od_get k d = Some a -> entry_ok k a /\ at_details a = bound_details ellipsis (at_details a).
Hypothesis one_char : String.length ellipsis = 1%nat.

Lemma bound_details_length (t : string) : (String.length (bound_details ellipsis t) <= S DETAILS_MAX)%nat.
Proof.
  unfold bound_details. destruct (Nat.leb_spec (String.length t) DETAILS_MAX); [unfold DETAILS_MAX in *; lia|].
  rewrite slength_app, str_take_length, one_char. unfold DETAILS_MAX in *. lia.
Qed.

Lemma bound_details_again (t : string) :
  bound_details ellipsis (bound_details ellipsis t) = bound_details ellipsis t.
Proof.
  unfold bound_details at 2 3. destruct (Nat.leb_spec (String.length t) DETAILS_MAX) as [Hl|Hl].
  { unfold bound_details. by rewrite (proj2 (Nat.leb_le _ _) Hl). }
  assert (Hlen : String.length (str_take DETAILS_MAX t) = DETAILS_MAX) by (rewrite str_take_length; lia).
  unfold bound_details. rewrite (proj2 (Nat.leb_gt _ _)) by (rewrite slength_app, Hlen, one_char; lia).
  rewrite str_take_app, Hlen, Nat.sub_diag, str_take_all by lia.
  change (str_take 0 ellipsis) with EmptyString. by rewrite sapp_nil_r.
Qed.

Lemma merge_ok (kind : string) (entries merged : Entries) :
  entries_ok kind entries -> inventory_ok merged ->
  inventory_ok (foldl (merge_entry ellipsis) merged entries).
Proof.
  intros [Hn He]. assert (Hf : Forall (fun e => entry_ok e.1 e.2) entries).
  { apply Forall_forall. intros [k a] Hin%(od_get_elem k a entries Hn). by apply He. }
  clear Hn He. revert merged. induction Hf as [|[k a] entries [Hk Hkd Hp] _ IH]; intros merged Hm; [done|].
  cbn [foldl]. apply IH. destruct Hm as [Hn Hd]. cbn [merge_entry fst snd] in *. split; [by apply od_set_nodup|].
  intros k' a'. rewrite od_get_set. case_decide as Heq; [|apply Hd]. subst k'. intros [= <-].
  split; [split; cbn; done|]. cbn. by rewrite bound_details_again.
Qed.

Lemma snapshot_ok (h : Host) (r : Roots) :
  inventory_ok (snapshot sha256_hex fingerprint ellipsis h r).1.
Proof.
  assert (Hnil : inventory_ok []) by (split; [constructor | done]).
  unfold snapshot. cbn [foldl].
  pose proof (cron_ok h r) as H1. destruct (enum_cron _ _ h r) as [e1 r1].
  pose proof (timers_ok h r) as H2. destruct (enum_timers _ h r) as [e2 r2].
  pose proof (autostart_ok h r) as H3. destruct (enum_autostart _ h r) as [e3 r3].
  pose proof (authkeys_ok h r) as H4. destruct (enum_authorized_keys _ _ h r) as [e4 r4].
  cbn [fst] in *. eauto using merge_ok.
Qed.
End Snapshot.

(** ** The table follows the host *)

(** A poll of a host: its state, the order of a set and the stamps. *)
Record HostPoll := mkHostPoll {
  hp_host : Host;
  hp_order : list string -> list string;
  hp_stamp : string -> Z * string;
}.
Definition poll_of (sha256_hex fingerprint : string -> string) (ellipsis : string) (r : Roots) (p : HostPoll) : Poll :=
  let '(current, failed) := snapshot sha256_hex fingerprint ellipsis (hp_host p) r in
  mkPoll current failed (hp_order p) (hp_stamp p).

Lemma poll_of_ok (sha256_hex fingerprint : string -> string) (ellipsis : string) (r : Roots) (p : HostPoll) :
  String.length ellipsis = 1%nat -> (forall l, hp_order p l ≡ₚ l) ->
  poll_ok (poll_of sha256_hex fingerprint ellipsis r p).
Proof.
  intros He Ho. pose proof (snapshot_ok sha256_hex fingerprint ellipsis He (hp_host p) r) as [Hn Hd].
  unfold poll_of. destruct (snapshot _ _ _ _ _) as [cur failed]. cbn [fst] in *. split; cbn; [done| |done].
  intros k a Ha. destruct (Hd k a Ha) as [[Hk Hkd Hp] _]. split; [done|]. intros ->.
  revert Hp. rewrite !elem_of_cons in Hkd. by destruct Hkd as [->|[->|[->|[->|?%not_elem_of_nil]]]].
Qed.

(** C18. The persistence table follows the host: whatever the host looks like at
    each poll and in whatever order events of a poll are written, the projected
    table has exactly one row per key that is in the inventory, where an entry is
    in the inventory when the last snapshot has it or its kind could not be read
    and it was there before; the row holds the facts and the time of the poll
    that first reported the entry since it last disappeared, and the worker
    remembers the attributes it last saw. *)
Theorem persistence_table_follows (sha256_hex fingerprint : string -> string) (ellipsis : string)
    (str_other col : pyval -> string) (fromiso : string -> option Z) (varchar : pyval -> option string)
    (boot_id : option string) (host_name : string) (r : Roots) (polls : list HostPoll) :
  String.length ellipsis = 1%nat -> (forall s, col (PStr s) = s) ->
  Forall (fun p => forall l, hp_order p l ≡ₚ l) polls ->
  let ps := poll_of sha256_hex fingerprint ellipsis r <$> polls in
  let '(events, w) := run_polls host_name ps new_snapshotter in
  let table := st_persist (foldl (project str_other col fromiso varchar boot_id) empty_db events) in
  NoDup (keys pr_key table) /\
  forall k, to_map pr_key table !! k = row_of k <$> foldl (track k) None ps /\
            od_get k (sn_prev w) = latest <$> foldl (track k) None ps.
Proof.
  intros He Hcol Hord ps.
  assert (Hps : Forall poll_ok ps).
  { unfold ps. apply Forall_fmap. eapply Forall_impl; [exact Hord|]. intros p Hp. by apply poll_of_ok. }
  destruct (run_polls host_name ps new_snapshotter) as [events w] eqn:Er. cbn zeta.
  destruct (state_tables_hold str_other col fromiso varchar boot_id events) as [_ [Hnd Hmap]].
  split; [done|]. intros k. rewrite Hmap.
  pose proof (run_key host_name col Hcol ps new_snapshotter k None Hps) as H.
  rewrite Er in H. destruct H as [H1 H2]; [constructor|done|done|].
  split; [|done]. rewrite <- H2. symmetry. apply (key_steps_entity pr_key (persist_op col) (persist_of col)).
  - intros e x upd. apply (ct_new (ClosedTable := persist_closed col)).
  - intros. eapply (ct_next (ClosedTable := persist_closed col)); done.
  - apply (ct_no_touch (ClosedTable := persist_closed col)).
Qed.

Module PersistExample.
Definition roots : Roots := default_roots "/home/u" (Some "u"%string).
Definition dot : string := ".".
(** A host given by its files; nothing else can be read, and only autostart
    directories with files in them can be listed. *)
Definition host (files : list (string * string)) : Host :=
  mkHost (fun p => (fun kv => kv.2) <$> List.find (fun kv => String.eqb kv.1 p) files)
    (fun d => if String.eqb d "/home/u/.config/autostart" then Some [("evil.desktop"%string, true)] else None)
    (fun p => Some p).
Definition evil : string * string :=
  ("/home/u/.config/autostart/evil.desktop", "[Desktop Entry]" +:+ String newline "Exec=/tmp/x")%string.
Definition crontab (line : string) : string * string := ("/etc/crontab"%string, line).
Definition poll (h : Host) (t : Z) : HostPoll := mkHostPoll h (fun l => l) (fun k => (t, k)).
Definition id (s : string) : string := s.
Definition col (v : pyval) : string := match v with PStr s => s | _ => EmptyString end.
Definition polls : list HostPoll :=
  [poll (host [evil; crontab "0 1 * * * root /bin/a"]) 1; poll (host [evil]) 2;
   poll (host [crontab "5 23 1 1 * root /bin/b"]) 3].
Definition actions (es : list Event) : list (string * string * bool) :=
  (fun e => (ev_action e, default EmptyString (as_str (dict_get "name" (block_or_empty (ev_persistence e)))), ev_first_seen e)) <$> es.
Definition run (ps : list HostPoll) : list Event * Snapshotter :=
  run_polls "h" (poll_of id id dot roots <$> ps) new_snapshotter.
End PersistExample.

Lemma persistence_table_follows_witness :
  let ps := poll_of PersistExample.id PersistExample.id PersistExample.dot PersistExample.roots <$> PersistExample.polls in
  let '(events, _) := run_polls "h" ps new_snapshotter in
  forall k, to_map pr_key
      (st_persist (foldl (project (fun _ => EmptyString) PersistExample.col (fun _ => None) (fun _ => None) None)
                     empty_db events)) !! k
    = row_of k <$> foldl (track k) None ps.
Proof.
  pose proof (persistence_table_follows PersistExample.id PersistExample.id PersistExample.dot
    (fun _ => EmptyString) PersistExample.col (fun _ => None) (fun _ => None) None "h" PersistExample.roots
    PersistExample.polls eq_refl (fun s => eq_refl)) as H.
  cbn zeta in *. destruct (run_polls "h" _ new_snapshotter) as [events w].
  intros k. apply H. repeat constructor; intros l; reflexivity.
Defined.

(** The entries of the first poll are marked as already there. The crontab
    that cannot be read at the second poll is carried over. At the third the
    autostart directory lists a file that cannot be read, so its entry goes, while
    the changed crontab line is one entry removed and one added. *)
Example polls_example :
  PersistExample.actions (PersistExample.run PersistExample.polls).1
  = [("persistence_added", "/bin/a", true); ("persistence_added", "evil.desktop", true);
     ("persistence_added", "/bin/b", false); ("persistence_removed", "evil.desktop", false);
     ("persistence_removed", "/bin/a", false)]%string.
Proof. vm_compute. reflexivity. Qed.

(** ** What the snapshotter misses *)

Module PersistMisses.
Import PersistExample.

(** A blob that carries its key type, in base 64. *)
Definition ed25519_key : string := "AAAAC3NzaC1lZDI1NTE5AAAA".
Definition plain_key : string := ("ssh-ed25519 " +:+ ed25519_key +:+ " mallory")%string.
Definition option_key : string :=
  ("command=" +:+ String "034" "echo ssh-rsa x" +:+ String "034" " " +:+ plain_key)%string.

Definition parsed_name (line : string) : option string :=
  at_name <$> parse_authorized_key_line id dot "/home/u/.ssh/authorized_keys" line.

(** A host whose cron.d lists one file; [open_dir] says whether the directory
    can be listed and [open_file] whether the file can be read. *)
Definition cron_host (open_dir open_file : bool) : Host :=
  mkHost (fun p => if String.eqb p "/etc/crontab" then Some EmptyString
                   else if open_file && String.eqb p "/etc/cron.d/job" then Some "0 1 * * * root /bin/a"%string
                   else None)
    (fun d => if open_dir && String.eqb d "/etc/cron.d" then Some [("job"%string, true)] else None)
    (fun p => Some p).
Definition seen (hs : list Host) : list (string * string * bool) :=
  actions (run ((fun h => poll h 1) <$> hs)).1.

Definition rows (es : list Event) : list pyval :=
  pr_name <$> st_persist (foldl (project (fun _ => EmptyString) col (fun _ => None) (fun _ => None) None) empty_db es).
End PersistMisses.
Import PersistExample PersistMisses.

(** A key whose options hold a word that is the name of a key type is not in
    the inventory, though the same key without the option is. *)
Theorem option_hides_authorized_key :
  parsed_name plain_key = Some "mallory"%string /\ parsed_name option_key = None.
Proof. vm_compute. done. Qed.

(** What could not be read at the first poll and can at the second is
    reported as new, whenever it was put there. *)
Theorem late_kind_reported_as_new :
  seen [host [evil]; host [evil; crontab "0 1 * * * root /bin/a"]]
  = [("persistence_added", "evil.desktop", true); ("persistence_added", "/bin/a", false)]%string.
Proof. vm_compute. done. Qed.

(** A cron.d directory that cannot be listed for one poll, or a file in it
    that cannot be read, is reported as the removal of its entries and then as
    their being added, as long as another cron source can be read. *)
Theorem transient_cron_failure_reported :
  let flap := [("persistence_added", "/bin/a", true); ("persistence_removed", "/bin/a", false);
               ("persistence_added", "/bin/a", false)]%string in
  seen [cron_host true true; cron_host false true; cron_host true true] = flap /\
  seen [cron_host true true; cron_host true false; cron_host true true] = flap.
Proof. vm_compute. done. Qed.

(** An entry that goes while the worker is down stays in the table: the
    restarted worker starts from an empty inventory and reports no removal. *)
Theorem removal_across_restart_lost :
  let before := (run [poll (cron_host true true) 1]).1 in
  let after := (run [poll (cron_host false false) 2; poll (cron_host false false) 3]).1 in
  after = [] /\ rows (before ++ after) = [PStr "/bin/a"].
Proof. vm_compute. done. Qed.
