(* ===== verification/CaseExport.v ===== *)
(** * Case export ([inspectord/cases/export.py], [cases/ipc_handlers.py])

    The whole-case archive, the reader of single blobs and the handlers that
    serve them, with the two read-only handlers of the case panel. What the
    kernel returns for a blob is an argument, as is the archive writer below
    the level of its members ([zipfile] with zlib), the text of a stored alert
    payload and [datetime.isoformat]. *)

From S2P Require Import Prelude Schemas Json RuleEval Alerts Quarantine Ipc Cases Evidence Base64.

Definition MAX_EXPORT_BYTES : Z := 64 * 1024 * 1024.

Inductive ExportError :=
| CaseNotFound | EvidenceNotFound | ExportTooLarge
| ExportRaises (exception : string).   (** anything the handlers do not catch *)

(** [_SHA_RE.match]: [$] also matches before a final newline. *)
Definition hex_lower (c : ascii) : bool := is_digit c || in_range 97 102 c.
Definition SHA_RE (s : string) : bool :=
  (String.length (str_take 64 s) =? 64)%nat && str_forall hex_lower (str_take 64 s)
  && (String.eqb (str_drop 64 s) EmptyString || String.eqb (str_drop 64 s) (String newline EmptyString)).

(** [str.encode("utf-8")]. *)
Fixpoint utf8 (s : string) : string :=
  match s with
  | EmptyString => EmptyString
  | String c s' =>
      if (code c <? 128)%N then String c (utf8 s')
      else String (byte (192 + byte_val c / 64)) (String (byte (128 + byte_val c mod 64)) (utf8 s'))
  end.

(** ** Reading a blob *)

(** The loop of [_read_blob] over what [os.read] returns. *)
Fixpoint read_all (reads : list ReadRes) : option string :=
  match reads with
  | [] | RdBytes EmptyString :: _ => Some EmptyString
  | RdBytes chunk :: rest => tail ← read_all rest; Some (chunk +:+ tail)
  | RdWouldBlock :: _ | RdError :: _ => None
  end.

(** [_read_blob]: [open] is what opening the path of a digest gives, whether it
    is a regular file and its reads. *)
Definition read_blob (open : string -> option (bool * list ReadRes)) (sha : string) : option string :=
  match open sha with
  | None => None
  | Some (regular, reads) => if regular then read_all reads else None
  end.

(** ** Archive members *)

Definition Member : Type := string * string.

(** The name [ZipInfo] keeps: up to the first NUL. *)
Fixpoint zip_name (s : string) : string :=
  match s with
  | EmptyString => EmptyString
  | String c s' => if Ascii.eqb c "000" then EmptyString else String c (zip_name s')
  end.

(** [zf.writestr]: the length of a name is a 16-bit field of its header. *)
Definition name_fits (name : string) : bool := (String.length (utf8 (zip_name name)) <=? Z.to_nat 65535)%nat.
Definition writestr (name data : string) (zf : list Member) : result ExportError (list Member) :=
  if name_fits name then Ok (zf ++ [(zip_name name, data)]) else Err (ExportRaises "struct.error").

Section Exporting.
Context (float_repr : Q -> string) (float_parse : string -> Q)
        (isoformat : Z -> string) (alert_json : Alert -> string)
        (zip : Z -> list Member -> string) (str_other : pyval -> string).

(** ** The case as a value, times in ISO form ([get_case] with [_isoify]) *)

Definition case_status (s : CaseStatus) : string :=
  match s with Case_open => "open" | Case_closed => "closed" end.
Definition iso (t : option Z) : pyval := match t with Some u => PStr (isoformat u) | None => PNone end.

Definition alert_value (a : string * option AlertRow) : pyval :=
  let field {A} (f : AlertRow -> A) (g : A -> pyval) := match a.2 with Some r => g (f r) | None => PNone end in
  PDict [("alert_id", PStr a.1); ("rule_id", field ar_rule_id PStr);
         ("severity", field ar_severity (fun s => PStr (severity_value s)));
         ("status", field ar_status (fun s => PStr (status_value s)));
         ("rendered_short", field ar_rendered (fun r => PStr (ra_short r)));
         ("ts", iso (ar_ts <$> a.2))]%string.
Definition timeline_value (t : CaseEvent) : pyval :=
  PDict [("ts", iso (Some (ce_ts t))); ("seq", PInt (ce_seq t)); ("kind", PStr (ce_kind t));
         ("text", opt_str (ce_text t))]%string.
Definition meta_value (m : option string) : option pyval :=
  match m with
  | None | Some EmptyString => Some (PDict [])
  | Some text => json_loads float_parse text
  end.
Definition evidence_value (e : EvidenceRow) : option pyval :=
  meta ← meta_value (ce_meta_json e);
  Some (PDict [("kind", PStr (ce_ev_kind e)); ("sha256", PStr (ce_sha256 e));
               ("original_path", PStr (ce_original_path e)); ("captured_at", iso (Some (ce_captured_at e)));
               ("meta", meta)]%string).

(** [None] is the error of [json.loads] on stored metadata. *)
Definition case_value (v : CaseView) : option pyval :=
  evidence ← mapM evidence_value (cv_evidence v);
  let c := cv_case v in
  Some (PDict [("case_id", PStr (cs_id c)); ("title", PStr (cs_title c));
               ("status", PStr (case_status (cs_status c))); ("opened_at", iso (Some (cs_opened_at c)));
               ("closed_at", iso (cs_closed_at c)); ("alerts", PList (alert_value <$> cv_alerts v));
               ("timeline", PList (timeline_value <$> cv_timeline v)); ("evidence", PList evidence)]%string).

(** ** [_build_narrative] *)

Definition or_none {A} (l : list A) (line : A -> string) : list string :=
  match l with [] => ["- (none)"%string] | _ => line <$> l end.

Definition alert_line (a : string * option AlertRow) : string :=
  let shown f := match a.2 with Some r => f r | None => "None"%string end in
  "- [" +:+ shown (fun r => severity_value (ar_severity r)) +:+ "] " +:+ shown ar_rule_id
  +:+ " (" +:+ a.1 +:+ "): " +:+ match a.2 with Some r => ra_short (ar_rendered r) | None => EmptyString end.
Definition timeline_line (t : CaseEvent) : string :=
  "- " +:+ isoformat (ce_ts t) +:+ " " +:+ ce_kind t +:+ ": " +:+ default EmptyString (ce_text t).
Definition evidence_line (e : EvidenceRow) : string :=
  rstrip ("- " +:+ ce_ev_kind e +:+ " " +:+ ce_sha256 e +:+ " " +:+ ce_original_path e).

(** The two notes, as they are encoded: [§] is C2 A7 and the dash E2 80 94. *)
Definition note_artifacts : string :=
  "v1 export ships 4 of the 6 artifacts in parent spec " +:+ String "194" (String "167" EmptyString) +:+
  "13.4: the timeline embedded in case.json stands in for audit.log (plain, not-yet-tamper-evident), and event bundles are included as evidence/<sha> blobs (kind=event_bundle), not top-level events/*.jsonl.".
Definition note_environment : string :=
  "process_tree evidence contains redacted-but-structured environment data: secret values are replaced with <redacted>, but variable NAMES are kept "
  +:+ String "226" (String "128" (String "148" EmptyString)) +:+
  " sharing this ZIP discloses which services/credentials exist on the captured host.".

Definition narrative_lines (v : CaseView) (skipped : list (string * string)) : list string :=
  let c := cv_case v in
  (utf8 <$>
    (["# Case " +:+ cs_id c +:+ ": " +:+ (if String.eqb (cs_title c) EmptyString then "(untitled)" else cs_title c);
      EmptyString; "Status: " +:+ case_status (cs_status c); "Opened: " +:+ isoformat (cs_opened_at c);
      "Closed: " +:+ match cs_closed_at c with Some t => isoformat t | None => "-" end; EmptyString; "## Alerts"]%string
     ++ or_none (cv_alerts v) alert_line ++ [EmptyString; "## Timeline"]%string
     ++ or_none (cv_timeline v) timeline_line ++ [EmptyString; "## Evidence"]%string
     ++ or_none (cv_evidence v) evidence_line ++ [EmptyString; "## Notes"]%string))
  ++ [note_artifacts; note_environment]
  ++ match skipped with
     | [] => []
     | _ => utf8 <$> ([EmptyString; "## Missing evidence"]%string
              ++ ((fun sr => "- " +:+ sr.1 +:+ ": " +:+ sr.2) <$> skipped))
     end.
Definition build_narrative (v : CaseView) (skipped : list (string * string)) : string :=
  join (String newline EmptyString) (narrative_lines v skipped) +:+ String newline EmptyString.

(** ** [build_case_zip] *)

(** [_alert_record]. *)
Definition pruned_record (alert_id : string) : string :=
  "{" +:+ json_string "alert_id" +:+ ": " +:+ json_string alert_id +:+ ", " +:+ json_string "note"
  +:+ ": " +:+ json_string "alert record pruned" +:+ "}".
Definition alert_record (db : CaseDb) (alert_id : string) : string :=
  match alert_json ∘ ar_payload <$> find_alert alert_id (cd_alerts db) with
  | None | Some EmptyString => pruned_record alert_id
  | Some payload => utf8 payload
  end.

Definition alert_member (alert_id : string) : string := "alerts/" +:+ alert_id +:+ ".json".
Fixpoint export_alerts (db : CaseDb) (alerts seen : list string) (zf : list Member)
  : result ExportError (list Member) :=
  match alerts with
  | [] => Ok zf
  | aid :: rest =>
      if bool_decide (aid ∈ seen) then export_alerts db rest seen zf
      else
        zf' ← writestr (alert_member aid) (alert_record db aid) zf;
        export_alerts db rest (aid :: seen) zf'
  end.

(** The variables of the evidence loop. *)
Record Packing := mkPacking {
  pk_skipped : list (string * string);
  pk_total : Z;
  pk_written : list string;
  pk_zip : list Member;
}.

Section Blobs.
Context (open : string -> option (bool * list ReadRes)).

Definition skip (p : Packing) (sha reason : string) : Packing :=
  mkPacking (pk_skipped p ++ [(sha, reason)]) (pk_total p) (pk_written p) (pk_zip p).
Definition pack_evidence (sha : string) (p : Packing) : result ExportError Packing :=
  if bool_decide (sha ∈ pk_written p) then Ok p
  else if negb (SHA_RE sha) then Ok (skip p sha "invalid sha")
  else match read_blob open sha with
       | None => Ok (skip p sha "missing on disk")
       | Some blob =>
           let total := pk_total p + Z.of_nat (String.length blob) in
           if MAX_EXPORT_BYTES <? total then Err ExportTooLarge
           else
             zf ← writestr ("evidence/" +:+ sha) blob (pk_zip p);
             Ok (mkPacking (pk_skipped p) total (sha :: pk_written p) zf)
       end.
Fixpoint pack_all (shas : list string) (p : Packing) : result ExportError Packing :=
  match shas with
  | [] => Ok p
  | sha :: rest => p' ← pack_evidence sha p; pack_all rest p'
  end.

Definition build_case_zip (db : CaseDb) (case_id : string) : result ExportError (list Member) :=
  match get_case db case_id with
  | None => Err CaseNotFound
  | Some v =>
      match json_pretty float_repr 0 <$> case_value v with
      | None => Err (ExportRaises "JSONDecodeError")
      | Some None => Err (ExportRaises "TypeError")
      | Some (Some text) =>
          zf0 ← writestr "case.json" (utf8 text) [];
          zf1 ← export_alerts db (fst <$> cv_alerts v) [] zf0;
          p ← pack_all (ce_sha256 <$> cv_evidence v) (mkPacking [] 0 [] zf1);
          writestr "narrative.md" (build_narrative v (pk_skipped p)) (pk_zip p)
      end
  end.

(** ** [read_evidence_blob] *)

(** [_basename]. *)
Definition export_basename (path : string) : string := path_basename (rstrip_slash path).

Definition path_le (a b : EvidenceRow) : Prop := String.le (ce_original_path a) (ce_original_path b).
#[export] Instance path_le_dec a b : Decision (path_le a b).
Proof. unfold path_le. apply _. Defined.

(** The first row of [ORDER BY original_path]. *)
Definition evidence_row (db : CaseDb) (case_id sha : string) : option EvidenceRow :=
  head (merge_sort path_le
    (List.filter (fun e => String.eqb (ce_ev_case e) case_id && String.eqb (ce_sha256 e) sha) (cd_evidence db))).

Definition JSON_KINDS : list string := ["net_state"; "event_bundle"; "process_tree"]%string.
Definition read_evidence_blob (db : CaseDb) (case_id sha : string)
  : result ExportError (string * string * string) :=
  if negb (SHA_RE sha) then Err EvidenceNotFound
  else match evidence_row db case_id sha with
  | None => Err EvidenceNotFound
  | Some e =>
      match read_blob open sha with
      | None => Err EvidenceNotFound
      | Some blob =>
          if MAX_EXPORT_BYTES <? Z.of_nat (String.length blob) then Err ExportTooLarge
          else if bool_decide (ce_ev_kind e ∈ JSON_KINDS)
          then Ok (blob, str_take 12 sha +:+ "-" +:+ ce_ev_kind e +:+ ".json", "application/json"%string)
          else
            let filename := match export_basename (ce_original_path e) with
                            | EmptyString => str_take 12 sha +:+ ".bin"
                            | name => name
                            end in
            Ok (blob, filename, "application/octet-stream"%string)
      end
  end.

(** ** The handlers *)

Definition refused (error : string) : pyval :=
  PDict [("schema_version", PStr "1.0.0"); ("ok", PBool false); ("error", PStr error)]%string.
(** What the [except] clauses make of an error. *)
Definition export_failure (e : ExportError) : result HandlerError pyval :=
  match e with
  | CaseNotFound | EvidenceNotFound => Ok (refused "not found")
  | ExportTooLarge => Ok (refused "too_large")
  | ExportRaises exc => Err (Unexpected exc)
  end.

(** [handle_export_case_zip]; [now] stamps the members and the timeline row. *)
Definition handle_export_case_zip (params : dict) (now : Z) (s : CaseSrv)
  : result HandlerError pyval * CaseSrv :=
  match required str_other params "case_id" with
  | Err e => (Err e, s)
  | Ok case_id =>
      match build_case_zip (ch_db s) case_id with
      | Err e => (export_failure e, s)
      | Ok members =>
          let data := zip now members in
          (Ok (PDict [("schema_version", PStr "1.0.0"); ("ok", PBool true);
                      ("filename", PStr ("case-" +:+ str_take 8 case_id +:+ ".zip"));
                      ("content_b64", PStr (b64encode data))]%string),
           audited s (append_timeline (ch_db s) now case_id "exported" (Some "case exported as ZIP"%string))
             "case_exported" case_id [("bytes"%string, PInt (Z.of_nat (String.length data)))])
      end
  end.

(** [handle_download_evidence]. *)
Definition handle_download_evidence (params : dict) (now : Z) (s : CaseSrv)
  : result HandlerError pyval * CaseSrv :=
  match required str_other params "case_id", required str_other params "sha" with
  | Err e, _ | _, Err e => (Err e, s)
  | Ok case_id, Ok sha =>
      match read_evidence_blob (ch_db s) case_id sha with
      | Err e => (export_failure e, s)
      | Ok (data, filename, media_type) =>
          (Ok (PDict [("schema_version", PStr "1.0.0"); ("ok", PBool true); ("filename", PStr filename);
                      ("media_type", PStr media_type); ("content_b64", PStr (b64encode data))]%string),
           audited s (append_timeline (ch_db s) now case_id "evidence_downloaded"
                        (Some ("downloaded " +:+ str_take 12 sha)))
             "evidence_downloaded" case_id [("sha256"%string, PStr sha)])
      end
  end.
End Blobs.

(** [handle_list_cases] and [handle_get_case]. *)
Definition listed_case (cn : CaseRow * nat) : pyval :=
  let '(c, n) := cn in
  PDict [("case_id", PStr (cs_id c)); ("title", PStr (cs_title c));
         ("status", PStr (case_status (cs_status c))); ("opened_at", iso (Some (cs_opened_at c)));
         ("closed_at", iso (cs_closed_at c)); ("alert_count", PInt (Z.of_nat n))]%string.
Definition handle_list_cases (db : CaseDb) : pyval :=
  PDict [("schema_version", PStr "1.0.0"); ("cases", PList (listed_case <$> list_cases db))]%string.
Definition handle_get_case (params : dict) (db : CaseDb) : result HandlerError pyval :=
  match required str_other params "case_id" with
  | Err e => Err e
  | Ok case_id =>
      match get_case db case_id with
      | None => Ok (PDict [("schema_version", PStr "1.0.0"); ("case", PNone)]%string)
      | Some v =>
          match case_value v with
          | None => Err (Unexpected "JSONDecodeError")
          | Some value => Ok (PDict [("schema_version", PStr "1.0.0"); ("case", value)]%string)
          end
      end
  end.
End Exporting.
