(* ===== verification/CaseExportProofs.v ===== *)
(** * Properties of case export

    What an archive holds, that it reads back, and which blobs a download can
    reach. *)

From S2P Require Import Prelude Schemas Json RuleEval Alerts Quarantine Ipc Cases Evidence Base64 CaseExport.
Local Open Scope Z_scope.

(** ** Text encoding *)

(** [bytes.decode("utf-8")] on two-byte sequences. *)
Fixpoint utf8_decode (s : string) : option string :=
  match s with
  | EmptyString => Some EmptyString
  | String a s' =>
      if (code a <? 128)%N then String a <$> utf8_decode s'
      else match s' with
           | String b s'' =>
               if ((byte_val a =? 194) || (byte_val a =? 195)) && (128 <=? byte_val b) && (byte_val b <? 192)
               then String (byte ((byte_val a - 192) * 64 + (byte_val b - 128))) <$> utf8_decode s''
               else None
           | EmptyString => None
           end
  end.

Lemma byte_val_byte (z : Z) : 0 <= z < 256 -> byte_val (byte z) = z.
Proof.
  intros Hz. unfold byte_val, byte, code. rewrite Z.mod_small by done.
  rewrite N_ascii_embedding by lia. lia.
Qed.

Lemma utf8_round_trip (s : string) : utf8_decode (utf8 s) = Some s.
Proof.
  induction s as [|c s IH]; [done|]. cbn [utf8]. destruct (code c <? 128)%N eqn:Ec; cbn [utf8_decode].
  { by rewrite Ec, IH. }
  pose proof (byte_val_bound c) as Hc. assert (H128 : 128 <= byte_val c).
  { apply N.ltb_ge in Ec. unfold byte_val. lia. }
  assert (Hb : byte_val (byte (192 + byte_val c / 64)) = 192 + byte_val c / 64)
    by (apply byte_val_byte; Z.to_euclidean_division_equations; lia).
  assert (Hge : (code (byte (192 + byte_val c / 64)) <? 128)%N = false).
  { apply N.ltb_ge. unfold byte_val in Hb at 1. Z.to_euclidean_division_equations; lia. }
  rewrite Hge, Hb, (byte_val_byte (128 + _)), IH by (Z.to_euclidean_division_equations; lia).
  replace (_ && _ && _)%bool with true; [|symmetry; Z.to_euclidean_division_equations; lia].
  cbn [fmap option_fmap option_map]. f_equal. f_equal.
  apply byte_of_val. Z.to_euclidean_division_equations; lia.
Qed.

(** ** Member names *)

Lemma utf8_length (s : string) : (String.length (utf8 s) <= 2 * String.length s)%nat.
Proof. induction s as [|c s IH]; [done|]. cbn [utf8]. destruct (code c <? 128)%N; cbn [String.length]; lia. Qed.

Lemma zip_name_length (s : string) : (String.length (zip_name s) <= String.length s)%nat.
Proof. induction s as [|c s IH]; [done|]. cbn [zip_name]. destruct (Ascii.eqb c "000"); cbn [String.length]; lia. Qed.

Lemma zip_name_id (s : string) : str_forall (fun c => negb (Ascii.eqb c "000")) s = true -> zip_name s = s.
Proof.
  induction s as [|c s IH]; [done|]. cbn [str_forall zip_name]. intros [Hc Hs]%andb_prop.
  apply negb_true_iff in Hc. by rewrite Hc, IH.
Qed.

Lemma name_fits_short (s : string) : (String.length s <= 100)%nat -> name_fits s = true.
Proof.
  intros Hs. unfold name_fits. apply Nat.leb_le. pose proof (utf8_length (zip_name s)).
  pose proof (zip_name_length s). lia.
Qed.

Lemma writestr_short (name data : string) (zf : list Member) :
  zip_name name = name -> (String.length name <= 100)%nat -> writestr name data zf = Ok (zf ++ [(name, data)]).
Proof. intros Hz Hl. unfold writestr. by rewrite name_fits_short, Hz. Qed.

Lemma sha_member (sha blob : string) (zf : list Member) :
  SHA_RE sha = true -> writestr ("evidence/" +:+ sha) blob zf = Ok (zf ++ [("evidence/" +:+ sha, blob)]).
Proof.
  unfold SHA_RE. intros [[Hl Hh]%andb_prop Hr]%andb_prop. apply Nat.eqb_eq in Hl.
  assert (Hr' : str_drop 64 sha = EmptyString \/ str_drop 64 sha = String newline EmptyString).
  { apply orb_prop in Hr as [H|H]; apply String.eqb_eq in H; auto. }
  assert (Hlen : (String.length sha <= 65)%nat).
  { rewrite <- (str_take_drop 64 sha), slength_app, Hl. by destruct Hr' as [-> | ->]; simpl; lia. }
  unfold writestr. rewrite name_fits_short, zip_name_id; [done| |rewrite slength_app; simpl; lia].
  rewrite str_forall_app. cbn [str_forall]. simpl. rewrite <- (str_take_drop 64 sha), str_forall_app.
  apply andb_true_intro. split; [|by destruct Hr' as [-> | ->]].
  eapply str_forall_impl; [|exact Hh]. intros c Hc. by destruct c as [[] [] [] [] [] [] [] []].
Qed.

(** ** The loops *)

Lemma omap_step {A B} (f : A -> option B) (x : A) (l : list A) :
  omap f (x :: l) = match f x with Some y => y :: omap f l | None => omap f l end.
Proof. done. Qed.

Section Loops.
Context (alert_json : Alert -> string) (open : string -> option (bool * list ReadRes)).

Definition alert_members (db : CaseDb) (ids : list string) : list Member :=
  (fun aid => (zip_name (alert_member aid), alert_record alert_json db aid)) <$> ids.

Lemma export_alerts_spec (db : CaseDb) (ids seen : list string) (zf : list Member) :
  export_alerts alert_json db ids seen zf =
  if forallb (name_fits ∘ alert_member) (dedup_strs ids seen)
  then Ok (zf ++ alert_members db (dedup_strs ids seen)) else Err (ExportRaises "struct.error").
Proof.
  revert seen zf. induction ids as [|aid ids IH]; intros seen zf; cbn [export_alerts dedup_strs].
  { by rewrite app_nil_r. }
  destruct (bool_decide (aid ∈ seen)); [apply IH|]. unfold writestr. cbn [forallb compose].
  destruct (name_fits (alert_member aid)); [|done]. cbn [mbind result_bind andb]. rewrite IH.
  destruct (forallb _ _); [|done]. by rewrite <- app_assoc.
Qed.

(** What can be exported of a digest, and why the rest cannot. *)
Definition exportable (sha : string) : option (string * string) :=
  if SHA_RE sha then (fun data => (sha, data)) <$> read_blob open sha else None.
Definition lacking (sha : string) : option (string * string) :=
  if negb (SHA_RE sha) then Some (sha, "invalid sha"%string)
  else match read_blob open sha with
       | None => Some (sha, "missing on disk"%string)
       | Some _ => None
       end.
Definition sizes (l : list (string * string)) : Z := foldr (fun sd n => Z.of_nat (String.length sd.2) + n) 0 l.
Definition evidence_members (l : list (string * string)) : list Member :=
  (fun sd => ("evidence/" +:+ sd.1, sd.2)) <$> l.

Lemma sizes_nonneg (l : list (string * string)) : 0 <= sizes l.
Proof. unfold sizes. induction l as [|sd l IH]; cbn [foldr]; lia. Qed.

(** Which unreadable digests were seen does not matter. *)
Lemma exportable_dedup (l seen seen' : list string) :
  (forall x, is_Some (exportable x) -> x ∈ seen <-> x ∈ seen') ->
  omap exportable (dedup_strs l seen) = omap exportable (dedup_strs l seen').
Proof.
  revert seen seen'. induction l as [|x l IH]; intros seen seen' H; [done|]. cbn [dedup_strs].
  destruct (exportable x) as [sd|] eqn:Ex.
  - assert (Hx : x ∈ seen <-> x ∈ seen') by (apply H; rewrite Ex; by eexists).
    rewrite (bool_decide_ext _ _ Hx). case_bool_decide; [by apply IH|]. cbn. rewrite Ex. f_equal.
    apply IH. intros y Hy. by rewrite !elem_of_cons, (H y Hy).
  - assert (Hskip : forall s, omap exportable (if bool_decide (x ∈ s) then dedup_strs l s else x :: dedup_strs l (x :: s))
                       = omap exportable (dedup_strs l s)).
    { intros s. case_bool_decide; [done|]. cbn. rewrite Ex. apply IH. intros y Hy.
      rewrite elem_of_cons. split; [|tauto]. intros [->|]; [|done]. rewrite Ex in Hy. by destruct Hy. }
    rewrite !Hskip. by apply IH.
Qed.

Lemma exportable_lacking (sha : string) :
  match exportable sha with Some _ => lacking sha = None | None => exists r, lacking sha = Some (sha, r) end.
Proof.
  unfold exportable, lacking. destruct (SHA_RE sha); [|by eexists]. destruct (read_blob open sha); [done|by eexists].
Qed.

(** One turn of the loop on a digest that was not written yet. *)
Lemma pack_evidence_spec (sha : string) (p : Packing) :
  sha ∉ pk_written p ->
  pack_evidence open sha p =
  match exportable sha with
  | None => Ok (skip p sha (default (sha, EmptyString) (lacking sha)).2)
  | Some (_, blob) =>
      let total := pk_total p + Z.of_nat (String.length blob) in
      if MAX_EXPORT_BYTES <? total then Err ExportTooLarge
      else Ok (mkPacking (pk_skipped p) total (sha :: pk_written p) (pk_zip p ++ [("evidence/" +:+ sha, blob)]))
  end.
Proof.
  intros Hin. unfold pack_evidence, exportable, lacking. rewrite bool_decide_false by done.
  destruct (SHA_RE sha) eqn:Es; [|done]. cbn [negb]. destruct (read_blob open sha) as [blob|]; [|done].
  cbn [fmap option_fmap option_map]. cbn zeta. by rewrite sha_member.
Qed.

Lemma pack_all_spec (shas : list string) (p : Packing) :
  Forall (fun x => is_Some (exportable x)) (pk_written p) -> pk_total p <= MAX_EXPORT_BYTES ->
  let new := omap exportable (dedup_strs shas (pk_written p)) in
  match pack_all open shas p with
  | Err e => e = ExportTooLarge /\ MAX_EXPORT_BYTES < pk_total p + sizes new
  | Ok p' => pk_total p + sizes new <= MAX_EXPORT_BYTES /\
             pk_skipped p' = pk_skipped p ++ omap lacking shas /\
             pk_zip p' = pk_zip p ++ evidence_members new
  end.
Proof.
  revert p. induction shas as [|sha shas IH]; intros p Hp Ht; cbn zeta.
  { cbn. rewrite !app_nil_r. split_and!; [lia|done..]. }
  cbn [pack_all dedup_strs]. pose proof (exportable_lacking sha) as Hl.
  destruct (bool_decide_reflect (sha ∈ pk_written p)) as [Hin|Hin].
  { unfold pack_evidence. rewrite bool_decide_true by done. cbn [mbind result_bind].
    specialize (IH p Hp Ht). destruct (pack_all _ _ _); [|done].
    rewrite Forall_forall in Hp. destruct (Hp sha Hin) as [sd Hsd]. rewrite Hsd in Hl.
    rewrite omap_step, Hl. done. }
  rewrite pack_evidence_spec, !omap_step by done.
  destruct (exportable sha) as [[sha' blob]|] eqn:Ex.
  - assert (sha' = sha) as ->.
    { unfold exportable in Ex. destruct (SHA_RE sha); [|done]. destruct (read_blob open sha); [|done]. by injection Ex. }
    rewrite Hl. cbn zeta. set (new := omap exportable (dedup_strs shas (sha :: pk_written p))) in *.
    change (sizes (_ :: new)) with (Z.of_nat (String.length blob) + sizes new).
    pose proof (sizes_nonneg new).
    destruct (Z.ltb_spec MAX_EXPORT_BYTES (pk_total p + Z.of_nat (String.length blob))); [split; [done|lia]|].
    cbn [mbind result_bind]. set (p' := mkPacking _ _ _ _). specialize (IH p').
    destruct (pack_all _ _ _) as [p2|e]; (destruct IH as (H1 & H2); [by constructor; [rewrite Ex|]|done|]);
      cbn [pk_written pk_total pk_skipped pk_zip p'] in *; fold new in H1, H2.
    + destruct H2 as [H2 H3]. split_and!; [lia|done|]. by rewrite H3, <- app_assoc.
    + split; [done|lia].
  - destruct Hl as [r Hr]. rewrite Hr. cbn [default from_option mbind result_bind].
    rewrite (exportable_dedup shas (sha :: pk_written p) (pk_written p)).
    2:{ intros y Hy. rewrite elem_of_cons. split; [|tauto]. intros [->|]; [|done]. rewrite Ex in Hy. by destruct Hy. }
    specialize (IH (skip p sha r) Hp Ht). cbn [pk_written pk_total pk_skipped pk_zip skip] in IH.
    cbn [id snd]. destruct (pack_all _ _ _); [|done]. destruct IH as (H1 & H2 & H3). split_and!; [done| |done].
    by rewrite H2, <- app_assoc.
Qed.
End Loops.

(** ** The archive *)

Section Archive.
Context (float_repr : Q -> string) (float_parse : string -> Q) (isoformat : Z -> string).

Definition metas_ok (v : CaseView) : Prop :=
  Forall (fun e => exists m, meta_value float_parse (ce_meta_json e) = Some m /\ json_wf float_repr float_parse m)
    (cv_evidence v).

Ltac keys_distinct := apply (bool_decide_unpack _); vm_compute; exact I.

Lemma iso_wf (t : option Z) : json_wf float_repr float_parse (iso isoformat t).
Proof. by destruct t. Qed.

Lemma alert_value_wf (a : string * option AlertRow) : json_wf float_repr float_parse (alert_value isoformat a).
Proof. unfold alert_value. apply json_wf_dict. split; [keys_distinct|]. destruct a.2; by repeat constructor. Qed.

Lemma timeline_value_wf (t : CaseEvent) : json_wf float_repr float_parse (timeline_value isoformat t).
Proof. unfold timeline_value. apply json_wf_dict. split; [keys_distinct|]. destruct (ce_text t); by repeat constructor. Qed.

Lemma evidence_values (es : list EvidenceRow) :
  Forall (fun e => exists m, meta_value float_parse (ce_meta_json e) = Some m /\ json_wf float_repr float_parse m) es ->
  exists l, mapM (evidence_value float_parse isoformat) es = Some l /\ Forall (json_wf float_repr float_parse) l.
Proof.
  induction 1 as [|e es (m & Hm & Hw) _ (l & Hl & Hwl)]; [by exists []|].
  assert (He : is_Some (evidence_value float_parse isoformat e)) by (unfold evidence_value; rewrite Hm; by eexists).
  destruct He as [x Hx]. exists (x :: l). split; [cbn; by rewrite Hx; cbn; rewrite Hl|].
  unfold evidence_value in Hx. rewrite Hm in Hx. injection Hx as <-.
  constructor; [|done]. apply json_wf_dict. split; [keys_distinct|]. by repeat constructor.
Qed.

Lemma case_value_wf (v : CaseView) :
  metas_ok v -> exists value, case_value float_parse isoformat v = Some value /\ json_wf float_repr float_parse value.
Proof.
  intros (l & Hl & Hw)%evidence_values. unfold case_value. rewrite Hl. eexists. split; [done|].
  apply json_wf_dict. split; [keys_distinct|].
  repeat (apply Forall_cons; split; [try done|]); [..|constructor].
  - apply iso_wf.
  - apply json_wf_list, Forall_fmap, Forall_true. intros a. apply alert_value_wf.
  - apply json_wf_list, Forall_fmap, Forall_true. intros t. apply timeline_value_wf.
  - by apply json_wf_list.
Qed.

(** The text of the case reads back as the case. *)
Lemma case_text (v : CaseView) :
  metas_ok v ->
  exists text, json_pretty float_repr 0 <$> case_value float_parse isoformat v = Some (Some text) /\
    json_loads float_parse text = case_value float_parse isoformat v.
Proof.
  intros (value & -> & Hw)%case_value_wf. destruct (json_wf_pretty _ _ value 0 Hw) as [text Ht].
  exists text. cbn. rewrite Ht. split; [done|]. by eapply reads_as_loads, json_pretty_reads.
Qed.
End Archive.

(** A member as it can be stored: its name as [ZipInfo] leaves it, not too long. *)
Definition member_ok (m : Member) : Prop := zip_name m.1 = m.1 /\ name_fits m.1 = true.

Lemma zip_name_idem (s : string) : zip_name (zip_name s) = zip_name s.
Proof. induction s as [|c s IH]; [done|]. cbn [zip_name]. destruct (Ascii.eqb c "000") eqn:E; [done|]. cbn [zip_name]. by rewrite E, IH. Qed.

Lemma writestr_ok (name data : string) (zf zf' : list Member) :
  writestr name data zf = Ok zf' -> Forall member_ok zf -> Forall member_ok zf'.
Proof.
  unfold writestr. destruct (name_fits name) eqn:E; [|done]. intros [= <-] H. apply Forall_app. split; [done|].
  constructor; [|done]. split; cbn [fst]; [apply zip_name_idem|]. unfold name_fits in *. by rewrite zip_name_idem.
Qed.

Section Contents.
Context (float_repr : Q -> string) (float_parse : string -> Q) (isoformat : Z -> string)
        (alert_json : Alert -> string) (open : string -> option (bool * list ReadRes)).

(** What an archive of a case should hold, [text] being the case itself. *)
Definition case_alerts (v : CaseView) : list string := dedup_strs (fst <$> cv_alerts v) [].
Definition case_blobs (v : CaseView) : list (string * string) :=
  omap (exportable open) (dedup_strs (ce_sha256 <$> cv_evidence v) []).
Definition case_members (db : CaseDb) (v : CaseView) (text : string) : list Member :=
  [("case.json"%string, utf8 text)] ++ alert_members alert_json db (case_alerts v)
  ++ evidence_members (case_blobs v)
  ++ [("narrative.md"%string, build_narrative isoformat v (omap (lacking open) (ce_sha256 <$> cv_evidence v)))].

Lemma case_members_ok (db : CaseDb) (v : CaseView) (text : string) :
  forallb (name_fits ∘ alert_member) (case_alerts v) = true -> Forall member_ok (case_members db v text).
Proof.
  intros Ha. rewrite forallb_forall in Ha. unfold case_members. rewrite !Forall_app, !Forall_singleton. split_and!.
  - split; [done|]. apply name_fits_short. cbn. lia.
  - apply Forall_fmap, Forall_forall. intros aid Hin. apply list_elem_of_In, Ha in Hin.
    split; cbn [fst compose] in *; [apply zip_name_idem|]. unfold name_fits in *. by rewrite zip_name_idem.
  - apply Forall_fmap, Forall_forall. intros [sha d] Hin. unfold case_blobs in Hin. unfold compose, member_ok. cbn [fst].
    apply list_elem_of_omap in Hin as (x & _ & Hx). unfold exportable in Hx.
    destruct (SHA_RE x) eqn:Es; [|done]. destruct (read_blob open x); [|done]. injection Hx as <- <-.
    pose proof (sha_member x EmptyString [] Es) as Hw. unfold writestr in Hw.
    destruct (name_fits ("evidence/" +:+ x)) eqn:Ef; [|done]. split; [|done].
    by apply (f_equal (fun r => match r with Ok (m :: _) => m.1 | _ => EmptyString end)) in Hw.
  - split; [done|]. apply name_fits_short. cbn. lia.
Qed.

Lemma build_case_zip_spec (db : CaseDb) (case_id : string) (v : CaseView) (text : string) :
  get_case db case_id = Some v ->
  json_pretty float_repr 0 <$> case_value float_parse isoformat v = Some (Some text) ->
  build_case_zip float_repr float_parse isoformat alert_json open db case_id =
  if negb (forallb (name_fits ∘ alert_member) (case_alerts v)) then Err (ExportRaises "struct.error")
  else if MAX_EXPORT_BYTES <? sizes (case_blobs v) then Err ExportTooLarge
  else Ok (case_members db v text).
Proof.
  intros Hv Ht. unfold build_case_zip. rewrite Hv, Ht.
  rewrite writestr_short by (done || cbn; lia).
  cbn [mbind result_bind]. rewrite export_alerts_spec. fold (case_alerts v).
  destruct (forallb _ _); cbn [negb mbind result_bind]; [|done].
  match goal with |- context [mkPacking [] 0 [] ?z] => set (zf := z) end.
  pose proof (pack_all_spec open (ce_sha256 <$> cv_evidence v) (mkPacking [] 0 [] zf)) as H.
  cbn [pk_written pk_total pk_skipped pk_zip] in H. fold (case_blobs v) in H.
  destruct (pack_all _ _ _) as [p|e]; destruct H as (H1 & H2); try (done || by constructor).
  - destruct H2 as [H2 H3]. destruct (Z.ltb_spec MAX_EXPORT_BYTES (sizes (case_blobs v))); [lia|].
    cbn [mbind result_bind]. rewrite H2, H3, writestr_short by (done || cbn; lia).
    unfold case_members, zf. by rewrite <- !app_assoc.
  - subst e. cbn [mbind result_bind]. destruct (Z.ltb_spec MAX_EXPORT_BYTES (sizes (case_blobs v))); [done|lia].
Qed.
End Contents.

(** C28. Exporting a case answers "not found" exactly for an unknown case, and
    otherwise, unless an attached alert id is too long for a member name or the
    distinct readable blobs together exceed the cap, an archive from which the
    client decodes exactly these members: the case, which reads back as its
    stored value; the record of each attached alert, once; the bytes of every
    distinct evidence digest that is well formed and readable, once; and a
    narrative that lists every evidence row whose blob is left out, with the
    reason. A refused export changes nothing; a successful one adds one timeline
    row to the case and one audit row with the size of what was sent. *)
Theorem case_export_exact (float_repr : Q -> string) (float_parse : string -> Q) (isoformat : Z -> string)
    (alert_json : Alert -> string) (zip : Z -> list Member -> string) (unzip : string -> option (list Member))
    (str_other : pyval -> string) (open : string -> option (bool * list ReadRes))
    (params : dict) (now : Z) (s : CaseSrv) (case_id : string) :
  (forall t ms, Forall member_ok ms -> unzip (zip t ms) = Some ms) ->
  required str_other params "case_id" = Ok case_id ->
  let handle := handle_export_case_zip float_repr float_parse isoformat alert_json zip str_other open params now s in
  match get_case (ch_db s) case_id with
  | None => handle = (Ok (refused "not found"), s)
  | Some v =>
      metas_ok float_repr float_parse v ->
      if negb (forallb (name_fits ∘ alert_member) (case_alerts v)) then handle = (Err (Unexpected "struct.error"), s)
      else if MAX_EXPORT_BYTES <? sizes (case_blobs open v) then handle = (Ok (refused "too_large"), s)
      else exists content data text,
        handle =
          (Ok (PDict [("schema_version", PStr "1.0.0"); ("ok", PBool true);
                      ("filename", PStr ("case-" +:+ str_take 8 case_id +:+ ".zip"));
                      ("content_b64", PStr content)]%string),
           audited s (append_timeline (ch_db s) now case_id "exported" (Some "case exported as ZIP"%string))
             "case_exported" case_id [("bytes"%string, PInt (Z.of_nat (String.length data)))]) /\
        b64decode content = Some data /\
        unzip data = Some (case_members isoformat alert_json open (ch_db s) v text) /\
        utf8_decode (utf8 text) = Some text /\
        json_loads float_parse text = case_value float_parse isoformat v
  end.
Proof.
  intros Hzip Hid. cbn zeta. unfold handle_export_case_zip. rewrite Hid.
  destruct (get_case (ch_db s) case_id) as [v|] eqn:Ev; [|unfold build_case_zip; by rewrite Ev].
  intros Hm. destruct (case_text float_repr float_parse isoformat v Hm) as (text & Ht & Hr).
  rewrite (build_case_zip_spec _ _ _ _ _ _ _ v text) by done.
  destruct (forallb _ _) eqn:Ef; cbn [negb]; [|done]. destruct (_ <? _); [done|].
  eexists _, _, text. split; [reflexivity|].
  rewrite b64_round_trip. split; [done|]. rewrite Hzip by by apply case_members_ok.
  split_and!; [done|apply utf8_round_trip|done].
Qed.

(** ** Single blobs *)

(** What is read under a digest is what the store holds there. *)
Definition serves (open : string -> option (bool * list ReadRes)) (store : gmap string Blob) : Prop :=
  forall sha data, read_blob open sha = Some data -> b_bytes <$> store !! sha = Some data.

Lemma evidence_row_spec (db : CaseDb) (case_id sha : string) :
  match evidence_row db case_id sha with
  | Some e => e ∈ cd_evidence db /\ ce_ev_case e = case_id /\ ce_sha256 e = sha
  | None => forall e, e ∈ cd_evidence db -> ce_ev_case e = case_id -> ce_sha256 e <> sha
  end.
Proof.
  unfold evidence_row. set (rows := List.filter _ _).
  assert (Hin : forall e, e ∈ rows <-> e ∈ cd_evidence db /\ ce_ev_case e = case_id /\ ce_sha256 e = sha).
  { intros e. unfold rows. rewrite !list_elem_of_In, filter_In, andb_true_iff, !String.eqb_eq. done. }
  destruct (merge_sort path_le rows) as [|e es] eqn:Em; cbn [head].
  - intros e He Hc Hs. assert (H : e ∈ rows) by by apply Hin.
    rewrite <- (merge_sort_Permutation path_le rows), Em in H. by apply not_elem_of_nil in H.
  - apply Hin. rewrite <- (merge_sort_Permutation path_le rows), Em. left.
Qed.

(** A download reaches only evidence of the case it names: when it
    succeeds, the case has an evidence row with the digest asked for, the client
    decodes exactly the bytes the store holds under it, which hash to it and are
    within the cap, and the request leaves one timeline row (if the case exists)
    and one audit row naming the digest. Conversely every well-formed digest in
    an evidence row of the case whose blob can be read and is within the cap is
    served. Any other request changes nothing. *)
Theorem evidence_download_confined (sha256 : string -> string) (str_other : pyval -> string)
    (open : string -> option (bool * list ReadRes)) (store : gmap string Blob)
    (params : dict) (now : Z) (s : CaseSrv) (case_id sha : string) :
  serves open store -> (forall h b, store !! h = Some b -> sha256 (b_bytes b) = h) ->
  required str_other params "case_id" = Ok case_id -> required str_other params "sha" = Ok sha ->
  let '(reply, s') := handle_download_evidence str_other open params now s in
  let has_row := exists e, e ∈ cd_evidence (ch_db s) /\ ce_ev_case e = case_id /\ ce_sha256 e = sha in
  (exists content filename media_type data,
     reply = Ok (PDict [("schema_version", PStr "1.0.0"); ("ok", PBool true); ("filename", PStr filename);
                        ("media_type", PStr media_type); ("content_b64", PStr content)]%string) /\
     b64decode content = Some data /\ has_row /\ SHA_RE sha = true /\
     b_bytes <$> store !! sha = Some data /\ sha256 data = sha /\
     Z.of_nat (String.length data) <= MAX_EXPORT_BYTES /\
     s' = audited s (append_timeline (ch_db s) now case_id "evidence_downloaded"
                       (Some ("downloaded " +:+ str_take 12 sha)))
            "evidence_downloaded" case_id [("sha256"%string, PStr sha)]) \/
  (s' = s /\
   ((reply = Ok (refused "not found") /\ ~ (SHA_RE sha = true /\ has_row /\ is_Some (read_blob open sha))) \/
    (reply = Ok (refused "too_large") /\
     exists data, read_blob open sha = Some data /\ MAX_EXPORT_BYTES < Z.of_nat (String.length data)))).
Proof.
  intros Hserves Hsha Hc Hs. unfold handle_download_evidence. rewrite Hc, Hs.
  pose proof (evidence_row_spec (ch_db s) case_id sha) as Hrow. unfold read_evidence_blob.
  destruct (SHA_RE sha); cbn [negb]; [|right; split; [done|left; split; [done|by intros (? & _)]]].
  destruct (evidence_row (ch_db s) case_id sha) as [e|].
  2:{ right. split; [done|]. left. split; [done|]. intros (_ & (e & He & H1 & H2) & _). by apply (Hrow e He H1). }
  destruct (read_blob open sha) as [data|] eqn:Er.
  2:{ right. split; [done|]. left. split; [done|]. by intros (_ & _ & [? ?]). }
  destruct (Z.ltb_spec MAX_EXPORT_BYTES (Z.of_nat (String.length data))).
  { right. split; [done|]. right. split; [done|]. by exists data. }
  pose proof (Hserves sha data Er) as Hst. assert (Hd : sha256 data = sha).
  { apply fmap_Some in Hst as (b & Hb & ->). by apply Hsha. }
  destruct (bool_decide _); left; eexists _, _, _, data; (split; [reflexivity|]);
    rewrite b64_round_trip; split_and!; try done; by exists e.
Qed.

Module ExportExample.
Definition digest : string := "0123456789abcdef0123456789abcdef0123456789abcdef0123456789abcdef".
Definition missing : string := "f123456789abcdef0123456789abcdef0123456789abcdef0123456789abcdef".
Definition db0 : CaseDb := mkCaseDb [] [] [] [] [row_of_alert (AlertExample.alert "a1" "k" 0)].
Definition db1 : CaseDb :=
  let db := attach_alert (open_case db0 "c1" 5 false "a1" (Some "odd"%string)).2 6 "c1" "gone" in
  mkCaseDb (cd_cases db) (cd_links db) (cd_events db)
    [mkEvidence "c1" "file" digest "/tmp/x" 7 None;
     mkEvidence "c1" "net_state" missing EmptyString 8 (Some ("{" +:+ json_string "truncated" +:+ ":true}"))] (cd_alerts db).
Definition srv : CaseSrv := mkCaseSrv db1 [].
Definition no_float (_ : Q) : string := EmptyString.
Definition zero (_ : string) : Q := 0%Q.
Definition so (_ : pyval) : string := EmptyString.
Definition payload (a : Alert) : string := "{" +:+ json_string "alert_id" +:+ ":" +:+ json_string (al_alert_id a) +:+ "}".
Definition open (sha : string) : option (bool * list ReadRes) :=
  if String.eqb sha digest then Some (true, [RdBytes "two "; RdBytes "reads"]) else None.
Definition store : gmap string Blob := {[digest := mkBlob 1 "two reads"]}.
Definition sha256 (_ : string) : string := digest.

(** An archive writer and reader that keep the members. *)
Definition member_value (m : Member) : pyval := PList [PStr m.1; PStr m.2].
Definition zip (_ : Z) (ms : list Member) : string :=
  default EmptyString (json_text no_float (PList (member_value <$> ms))).
Definition value_member (v : pyval) : option Member :=
  match v with PList [PStr n; PStr d] => Some (n, d) | _ => None end.
Definition unzip (data : string) : option (list Member) :=
  match json_loads zero data with Some (PList l) => mapM value_member l | _ => None end.

Lemma unzip_zip (t : Z) (ms : list Member) : unzip (zip t ms) = Some ms.
Proof.
  assert (Hw : json_wf no_float zero (PList (member_value <$> ms))).
  { apply json_wf_list, Forall_fmap, Forall_true. done. }
  unfold zip, unzip. destruct (json_wf_text _ _ _ Hw) as [x Hx]. rewrite Hx. cbn [default from_option id].
  rewrite (reads_as_loads zero x _ (json_text_reads _ _ _ _ Hw Hx)). clear.
  induction ms as [|[n d] ms IH]; [done|]. cbn. by rewrite IH.
Qed.

Definition export (db : CaseDb) : result ExportError (list Member) :=
  build_case_zip no_float zero str_of_Z payload open db "c1".
End ExportExample.

Lemma case_export_exact_witness :
  exists v content data text,
    get_case ExportExample.db1 "c1" = Some v /\ length (case_blobs ExportExample.open v) = 1%nat /\
    (handle_export_case_zip ExportExample.no_float ExportExample.zero str_of_Z ExportExample.payload
       ExportExample.zip ExportExample.so ExportExample.open [("case_id"%string, PStr "c1")] 9 ExportExample.srv).1
    = Ok (PDict [("schema_version", PStr "1.0.0"); ("ok", PBool true); ("filename", PStr "case-c1.zip");
                 ("content_b64", PStr content)]%string) /\
    b64decode content = Some data /\
    ExportExample.unzip data
    = Some (case_members str_of_Z ExportExample.payload ExportExample.open ExportExample.db1 v text).
Proof.
  pose proof (case_export_exact ExportExample.no_float ExportExample.zero str_of_Z ExportExample.payload
    ExportExample.zip ExportExample.unzip ExportExample.so ExportExample.open [("case_id"%string, PStr "c1")] 9
    ExportExample.srv "c1" (fun t ms _ => ExportExample.unzip_zip t ms) eq_refl) as H.
  cbn zeta in H. cbn [ch_db ExportExample.srv] in H.
  destruct (get_case ExportExample.db1 "c1") as [v|] eqn:Ev; [|vm_compute in Ev; discriminate Ev].
  assert (Hv : case_blobs ExportExample.open v = [(ExportExample.digest, "two reads"%string)] /\
               case_alerts v = ["a1"; "gone"]%string /\ metas_ok ExportExample.no_float ExportExample.zero v).
  { vm_compute in Ev. injection Ev as <-. split_and!; [by vm_compute..|].
    constructor; [|constructor; [|constructor]]; eexists; (split; [by vm_compute|]); simpl; split_and!; try done;
      repeat constructor; by apply not_elem_of_nil. }
  destruct Hv as (Hb & Ha & Hm). specialize (H Hm). rewrite Ha, Hb in H.
  replace (forallb _ _) with true in H by by vm_compute. cbn [negb] in H.
  replace (_ <? _) with false in H by by vm_compute.
  destruct H as (content & data & text & -> & H1 & H2 & _). exists v, content, data, text. by rewrite Hb.
Defined.

Lemma evidence_download_confined_witness :
  exists s', handle_download_evidence ExportExample.so ExportExample.open
      [("case_id"%string, PStr "c1"); ("sha"%string, PStr ExportExample.digest)] 9 ExportExample.srv
    = (Ok (PDict [("schema_version", PStr "1.0.0"); ("ok", PBool true); ("filename", PStr "x");
                  ("media_type", PStr "application/octet-stream"); ("content_b64", PStr "dHdvIHJlYWRz")]%string), s') /\
    length (ch_audit s') = 1%nat.
Proof.
  pose proof (evidence_download_confined ExportExample.sha256 ExportExample.so ExportExample.open ExportExample.store
    [("case_id"%string, PStr "c1"); ("sha"%string, PStr ExportExample.digest)] 9 ExportExample.srv "c1"
    ExportExample.digest) as H.
  destruct (handle_download_evidence _ _ _ _ _) as [reply s'] eqn:E.
  destruct H as [(content & fn & mt & data & -> & _ & _ & _ & _ & _ & _ & Hs)|[-> H]].
  - intros sha data. unfold read_blob, ExportExample.open. destruct (String.eqb_spec sha ExportExample.digest); [|done].
    subst. by intros [= <-].
  - intros h b. unfold ExportExample.store. by intros [<- _]%lookup_singleton_Some.
  - done.
  - done.
  - exists s'. split; [|by rewrite Hs]. clear Hs. vm_compute in E. by injection E as <- <- <- <-.
  - vm_compute in E. discriminate E.
Defined.

(** ** Where the export falls short *)

(** An attached alert id is any text: it names a member outside the
    directory of alert records, and outside the archive's own. *)
Theorem alert_id_leaves_archive :
  let attached := handle_attach_alert ExportExample.so
        [("case_id", PStr "c1"); ("alert_id", PStr "../../.config/autostart/x")]%string 9 ExportExample.srv in
  attached.1 = Ok tt /\
  exists members, ExportExample.export (ch_db attached.2) = Ok members /\
    "alerts/../../.config/autostart/x.json"%string ∈ members.*1.
Proof.
  split; [done|]. destruct (ExportExample.export _) as [ms|] eqn:E; [|vm_compute in E; discriminate E].
  exists ms. split; [done|]. apply (bool_decide_unpack _).
  enough (H : bool_decide ("alerts/../../.config/autostart/x.json"%string
    ∈ (match ExportExample.export (ch_db (handle_attach_alert ExportExample.so
        [("case_id", PStr "c1"); ("alert_id", PStr "../../.config/autostart/x")]%string 9 ExportExample.srv).2) with
       Ok l => l | Err _ => [] end).*1) = true) by (rewrite E in H; by rewrite H).
  by vm_compute.
Qed.

(** The cap counts evidence only: a case without evidence is exported
    however large the records of its alerts are. *)
Theorem cap_ignores_alert_records (text : string) :
  text <> EmptyString ->
  exists members, build_case_zip ExportExample.no_float ExportExample.zero str_of_Z (fun _ => text)
      ExportExample.open (open_case ExportExample.db0 "c1" 5 false "a1" (Some "odd"%string)).2 "c1" = Ok members /\
    ("alerts/a1.json"%string, utf8 text) ∈ members.
Proof.
  intros Ht. set (db := (open_case _ _ _ _ _ _).2).
  destruct (get_case db "c1") as [v|] eqn:Ev; [|vm_compute in Ev; discriminate Ev].
  assert (Hv : cv_evidence v = [] /\ case_alerts v = ["a1"]%string).
  { vm_compute in Ev. injection Ev as <-. by vm_compute. }
  destruct Hv as [He Ha].
  destruct (case_text ExportExample.no_float ExportExample.zero str_of_Z v) as (t & Hp & _).
  { unfold metas_ok. rewrite He. constructor. }
  rewrite (build_case_zip_spec _ _ _ _ _ _ _ v t) by done. unfold case_blobs. rewrite He, Ha.
  replace (forallb _ _) with true by by vm_compute.
  eexists. split; [done|]. unfold case_members. rewrite Ha. cbn [alert_members fmap list_fmap app].
  assert (Hr : alert_record (fun _ => text) db "a1" = utf8 text) by (by destruct text).
  rewrite Hr. right. left.
Qed.

(** An alert id of more than 65523 bytes can be attached, and from then on
    the case cannot be exported. *)
Theorem long_alert_id_blocks_export :
  let long := spaces (Z.to_nat 65524) in
  let attached := handle_attach_alert ExportExample.so [("case_id"%string, PStr "c1"); ("alert_id"%string, PStr long)]
                    9 ExportExample.srv in
  attached.1 = Ok tt /\ ExportExample.export (ch_db attached.2) = Err (ExportRaises "struct.error").
Proof. vm_compute. done. Qed.
