(* ===== verification/RegexSub.v ===== *)
(** * Substitution ([re.Pattern.sub])

    Leftmost, non-overlapping replacement over the matcher of [Regex.v]. Where a
    pattern begins with [^] or [\b] this is a condition on the position; the
    patterns that are used match no empty text, so what [sub] does at empty
    matches is left out. *)

From S2P Require Import Prelude Regex.

(** Where a match may begin. *)
Inductive Start := Anywhere | AtStart | AtWord.
Record Pattern := mkPattern { pt_start : Start; pt_body : re }.

(** [\w] on the modelled range. *)
Definition py_word (c : ascii) : bool :=
  ident_char c || existsb (fun n => (code c =? n)%N) [170; 178; 179; 181; 185; 186; 188; 189; 190]%N
  || in_range 192 214 c || in_range 216 246 c || in_range 248 255 c.

(** [\b] between two characters. *)
Definition word_at (o : option ascii) : bool := match o with Some c => py_word c | None => false end.
Definition str_head (s : string) : option ascii := match s with String c _ => Some c | EmptyString => None end.
Definition may_start (st : Start) (prev : option ascii) (s : string) : bool :=
  match st with
  | Anywhere => true
  | AtStart => match prev with None => true | Some _ => false end
  | AtWord => xorb (word_at prev) (word_at (str_head s))
  end.

(** The length of the match at the front of [s], with its groups. *)
Definition match_here (r : re) (s : string) : option (nat * Groups) :=
  matcher r s [] (fun s' g => Some ((String.length s - String.length s')%nat, g)).

(** [prev] is the character before [s]; the next [skip] characters belong to a
    match that was already replaced. *)
Fixpoint sub_from (p : Pattern) (repl : Groups -> string) (prev : option ascii) (skip : nat) (s : string) : string :=
  match s with
  | EmptyString => EmptyString
  | String c s' =>
      match skip with
      | S n => sub_from p repl (Some c) n s'
      | O =>
          match (if may_start (pt_start p) prev s then match_here (pt_body p) s else None) with
          | Some (S n, g) => repl g +:+ sub_from p repl (Some c) n s'
          | _ => String c (sub_from p repl (Some c) 0 s')
          end
      end
  end.
Definition re_sub (p : Pattern) (repl : Groups -> string) (s : string) : string := sub_from p repl None 0 s.

(** [r{n}] for [n > 0], and [(?i)] of a literal. *)
Fixpoint rep (n : nat) (r : re) : re := match n with O => RLit EmptyString | S O => r | S n' => RSeq r (rep n' r) end.
Definition same_letter (c d : ascii) : bool := Ascii.eqb (lower_char c) (lower_char d).
Fixpoint ci_lit (w : string) : re :=
  match w with
  | EmptyString => RLit EmptyString
  | String c w' => RSeq (RChar (same_letter c)) (ci_lit w')
  end.

(** ** Patterns that look at their own characters only *)

(** Every character a match of [r] consumes satisfies [P], and [r] does not ask
    for the end of the text. *)
Fixpoint chars_in (P : ascii -> bool) (r : re) : Prop :=
  match r with
  | RLit w => str_forall P w = true
  | RPlus p | RStar p | RChar p | RLazy p => forall c, p c = true -> P c = true
  | RSeq a b | RAlt a b => chars_in P a /\ chars_in P b
  | ROpt a | RGroup _ a => chars_in P a
  | REol | REnd => False
  end.

Lemma forall_weaken (p q : ascii -> bool) (s : string) :
  (forall c, p c = true -> q c = true) -> str_forall p s = true -> str_forall q s = true.
Proof.
  intros H. induction s as [|c s IH]; [done|]. cbn. intros [Hc Hs]%andb_prop. by rewrite H, IH.
Qed.

Lemma Match_chars (P : ascii -> bool) (r : re) s g s' g' :
  Match r s g s' g' -> chars_in P r -> exists w, s = w +:+ s' /\ str_forall P w = true.
Proof.
  induction 1 as [w s g|p w s g Hne Hw|p w s g Hw|a b s1 g1 s2 g2 s3 g3 _ IHa _ IHb
    |a b s1 g1 s2 g2 _ IHa|a b s1 g1 s2 g2 _ IHb|a s1 g1 s2 g2 _ IHa|a s g|name a w s g g2 _ IHa
    |s g Hs|p c s g Hp|p w s g Hw|g]; cbn [chars_in]; intros Hr; try tauto.
  - by exists w.
  - exists w. split; [done|]. by eapply forall_weaken.
  - exists w. split; [done|]. by eapply forall_weaken.
  - destruct Hr as [Ha Hb]. destruct (IHa Ha) as (w & -> & Hw), (IHb Hb) as (w' & -> & Hw').
    exists (w +:+ w'). by rewrite sapp_assoc, str_forall_app, Hw, Hw'.
  - by exists EmptyString.
  - exists (String c EmptyString). cbn. by rewrite (Hr c Hp).
  - exists w. split; [done|]. by eapply forall_weaken.
Qed.

(** Such a pattern matches the same characters in front of any other text. *)
Lemma Match_move (P : ascii -> bool) (r : re) s g s' g' :
  Match r s g s' g' -> chars_in P r -> forall w t, s = w +:+ s' -> Match r (w +:+ t) g t g'.
Proof.
  induction 1 as [v s g|p v s g Hne Hw|p v s g Hw|a b s1 g1 s2 g2 s3 g3 Ha IHa Hb IHb
    |a b s1 g1 s2 g2 _ IHa|a b s1 g1 s2 g2 _ IHb|a s1 g1 s2 g2 _ IHa|a s g|name a v s g g2 _ IHa
    |s g Hs|p c s g Hp|p v s g Hw|g]; cbn [chars_in]; intros Hr w t Heq; try tauto.
  - apply sapp_cancel_r in Heq as <-. constructor.
  - apply sapp_cancel_r in Heq as <-. by constructor.
  - apply sapp_cancel_r in Heq as <-. by constructor.
  - destruct Hr as [Hra Hrb]. destruct (Match_suffix _ _ _ _ _ Ha) as [w1 ->], (Match_suffix _ _ _ _ _ Hb) as [w2 ->].
    rewrite <- sapp_assoc in Heq. apply sapp_cancel_r in Heq as <-. rewrite sapp_assoc.
    econstructor; [by apply IHa | by apply IHb].
  - constructor. by apply IHa; [tauto|].
  - apply MAltR. by apply IHb; [tauto|].
  - apply MOpt. by apply IHa.
  - change s with (EmptyString +:+ s) in Heq at 1. apply sapp_cancel_r in Heq as <-. apply MSkip.
  - apply sapp_cancel_r in Heq as <-. constructor. by apply IHa.
  - change (String c s) with (String c EmptyString +:+ s) in Heq. apply sapp_cancel_r in Heq as <-. by constructor.
  - apply sapp_cancel_r in Heq as <-. by constructor.
Qed.

(** Patterns that consume something. *)
Fixpoint consumes (r : re) : bool :=
  match r with
  | RLit w => negb (String.eqb w EmptyString)
  | RPlus _ | RChar _ => true
  | RSeq a b => consumes a || consumes b
  | RAlt a b => consumes a && consumes b
  | RGroup _ a => consumes a
  | _ => false
  end.

Lemma sapp_empty (a b : string) : a +:+ b = EmptyString -> a = EmptyString /\ b = EmptyString.
Proof. destruct a; cbn; [by intros -> | done]. Qed.

Lemma Match_consumes (r : re) s g s' g' :
  Match r s g s' g' -> consumes r = true -> forall w, s = w +:+ s' -> w <> EmptyString.
Proof.
  induction 1 as [v s g|p v s g Hne Hw| |a b s1 g1 s2 g2 s3 g3 Ha IHa Hb IHb
    |a b s1 g1 s2 g2 _ IHa|a b s1 g1 s2 g2 _ IHb| | |name a v s g g2 _ IHa| |p c s g Hp| |];
    cbn [consumes]; intros Hr u Heq; try done.
  - apply sapp_cancel_r in Heq as <-. intros ->. done.
  - by apply sapp_cancel_r in Heq as <-.
  - destruct (Match_suffix _ _ _ _ _ Ha) as [w1 ->], (Match_suffix _ _ _ _ _ Hb) as [w2 ->].
    rewrite <- sapp_assoc in Heq. apply sapp_cancel_r in Heq as <-. intros [-> ->]%sapp_empty.
    apply orb_prop in Hr as [Hr|Hr]; [by apply (IHa Hr EmptyString) | by apply (IHb Hr EmptyString)].
  - apply andb_prop in Hr as [Hr _]. by apply IHa.
  - apply andb_prop in Hr as [_ Hr]. by apply IHb.
  - by apply IHa.
  - change (String c s) with (String c EmptyString +:+ s) in Heq. by apply sapp_cancel_r in Heq as <-.
Qed.

Lemma match_here_none (r : re) (s : string) :
  match_here r s = None <-> forall s' g, ~ Match r s [] s' g.
Proof.
  unfold match_here. split.
  - intros Hn s' g HM. destruct (matcher_complete r s [] s' g
      (fun s' g => Some ((String.length s - String.length s')%nat, g)) HM) as [x Hx]; [by eexists|]. congruence.
  - intros Hno. destruct (matcher r s [] _) as [x|] eqn:E; [|done].
    apply matcher_sound in E as (s' & g & HM & _). by destruct (Hno s' g).
Qed.

Lemma match_here_some (r : re) (s : string) (n : nat) (g : Groups) :
  match_here r s = Some (n, g) -> exists w s', s = w +:+ s' /\ n = String.length w /\ Match r s [] s' g.
Proof.
  intros (s' & g' & HM & [= <- <-])%matcher_sound. destruct (Match_suffix _ _ _ _ _ HM) as [w ->].
  exists w, s'. split_and!; [done| |done]. rewrite slength_app. lia.
Qed.

(** ** Replacing by a fixed text in angle brackets *)

Section Replace.
Context (inner : string).
Let mark : string := String "<" (inner +:+ ">").
Definition no_bracket (c : ascii) : bool := negb (Ascii.eqb c "<" || Ascii.eqb c ">").

Lemma app_prefix_plain (d : ascii) (x w b t : string) :
  str_forall (fun c => negb (Ascii.eqb c d)) w = true -> w +:+ b = x +:+ String d t ->
  exists y, x = w +:+ y /\ b = y +:+ String d t.
Proof.
  revert x. induction w as [|c w IH]; intros x Hw Heq; [by exists x|]. cbn in Hw.
  apply andb_prop in Hw as [Hc Hw]. destruct x as [|c' x]; cbn in Heq; injection Heq as -> Heq.
  - by rewrite Ascii.eqb_refl in Hc.
  - destruct (IH x Hw Heq) as (y & -> & ->). by exists y.
Qed.

Lemma no_bracket_not (d : ascii) (w : string) :
  no_bracket d = false -> str_forall no_bracket w = true -> str_forall (fun c => negb (Ascii.eqb c d)) w = true.
Proof.
  intros Hd. apply forall_weaken. intros c Hc. destruct (Ascii.eqb_spec c d) as [->|]; [congruence|done].
Qed.

(** A bracket-free text at the front of the result is at the front of the input. *)
Lemma sub_prefix (p : Pattern) (prev : option ascii) (s w b : string) :
  str_forall no_bracket w = true -> sub_from p (fun _ => mark) prev 0 s = w +:+ b -> exists b', s = w +:+ b'.
Proof.
  revert prev w. induction s as [|c s IH]; intros prev w Hw; cbn [sub_from].
  { intros Heq. symmetry in Heq. apply sapp_empty in Heq as [-> _]. by exists EmptyString. }
  destruct (if may_start _ _ _ then _ else _) as [[[|n] g]|].
  2:{ destruct w as [|d w]; [by exists (String c s)|]. unfold mark. cbn. intros [= <- _]. done. }
  all: destruct w as [|d w]; [by exists (String c s)|]; cbn; intros [= <- Heq]; cbn in Hw;
    apply andb_prop in Hw as [_ Hw]; destruct (IH _ _ Hw Heq) as [b' ->]; by exists b'.
Qed.

Lemma split_at_mark (d : ascii) (w : string) :
  w <> EmptyString -> str_forall (fun c => negb (Ascii.eqb c d)) w = true ->
  forall x t a b, x +:+ String d t = a +:+ w +:+ b ->
  (exists a' b', x = a' +:+ w +:+ b') \/ (exists a', t = a' +:+ w +:+ b).
Proof.
  intros Hne Hw. induction x as [|e x IH]; intros t a b Heq.
  - destruct a as [|e a]; cbn in Heq.
    + destruct w as [|e w]; [done|]. cbn in *. injection Heq as <- _. by rewrite Ascii.eqb_refl in Hw.
    + injection Heq as _ ->. right. by exists a.
  - destruct a as [|e' a]; cbn [String.append] in Heq.
    + symmetry in Heq. change (String e (x +:+ String d t)) with (String e x +:+ String d t) in Heq.
      destruct (app_prefix_plain d (String e x) w b t Hw Heq) as (y & Hy & _). left. by exists EmptyString, y.
    + injection Heq as <- Heq. destruct (IH t a b Heq) as [(a' & b' & ->)|[a' Ha]]; [left; by exists (String e a'), b'|].
      right. by exists a'.
Qed.

(** The pattern finds nothing to replace at the front of [s]. *)
Definition passes (p : Pattern) (prev : option ascii) (s : string) : Prop :=
  match (if may_start (pt_start p) prev s then match_here (pt_body p) s else None) with
  | Some (S _, _) => False
  | _ => True
  end.

(** A bracket-free text in the result is part of the mark, or was in the input at
    a position that was passed over. *)
Lemma sub_factor (p : Pattern) (w : string) :
  w <> EmptyString -> str_forall no_bracket w = true ->
  forall s prev skip a b, sub_from p (fun _ => mark) prev skip s = a +:+ w +:+ b ->
  (exists a' b', inner = a' +:+ w +:+ b') \/
  (exists x y prev', s = x +:+ w +:+ y /\ passes p prev' (w +:+ y)).
Proof.
  intros Hne Hw. assert (Hlt := no_bracket_not "<" w eq_refl Hw). assert (Hgt := no_bracket_not ">" w eq_refl Hw).
  assert (Hstep : forall c s, (exists a' b', inner = a' +:+ w +:+ b') \/
      (exists x y prev', s = x +:+ w +:+ y /\ passes p prev' (w +:+ y)) ->
      (exists a' b', inner = a' +:+ w +:+ b') \/
      (exists x y prev', String c s = x +:+ w +:+ y /\ passes p prev' (w +:+ y))).
  { intros c s [H|(x & y & prev' & -> & H)]; [by left|]. right. by exists (String c x), y, prev'. }
  induction s as [|c s IH]; intros prev skip a b; cbn [sub_from].
  { intros Heq. symmetry in Heq. apply sapp_empty in Heq as [_ [-> _]%sapp_empty]. done. }
  destruct skip as [|n]; [|intros Heq; eapply Hstep, IH, Heq; done].
  destruct (if may_start _ _ _ then _ else _) as [[[|n] g]|] eqn:Em.
  2:{ intros Heq. unfold mark in Heq. cbn [String.append] in Heq. rewrite sapp_assoc in Heq.
      destruct a as [|d a]; cbn [String.append] in Heq.
      { destruct w as [|d w]; [done|]. cbn in Heq, Hlt. injection Heq as <- _. done. }
      injection Heq as <- Heq.
      destruct (split_at_mark ">" w Hne Hgt _ _ _ _ Heq) as [H|[a' Ha]]; [by left|].
      eapply Hstep, IH, Ha; done. }
  all: destruct a as [|d a]; cbn; [|intros [= <- Heq]; eapply Hstep, IH, Heq; done].
  all: intros Heq; right; destruct (sub_prefix p prev (String c s) w b Hw) as [y Hy];
    [by cbn [sub_from]; rewrite Em|]; exists EmptyString, y, prev; split; [done|]; unfold passes; by rewrite <- Hy, Em.
Qed.

Lemma re_search_clear_iff (r : re) (s : string) :
  re_search r s = None <-> forall a w b g, s = a +:+ w +:+ b -> ~ Match r (w +:+ b) [] b g.
Proof.
  rewrite re_search_None. split.
  - intros H a w b g -> HM. eapply re_match_None; [|exact HM]. by eapply H.
  - intros H a b ->. apply re_match_None. intros s' g HM. destruct (Match_suffix _ _ _ _ _ HM) as [w ->].
    by apply (H a w s' g).
Qed.

(** A pattern that matches only bracket-free text and nothing of the mark: its
    own replacement leaves none of it, and no other replacement brings it back. *)
Lemma sub_search (p : Pattern) (r : re) (s : string) :
  chars_in no_bracket r -> consumes r = true -> re_search r inner = None ->
  (re_search r s = None \/ p = mkPattern Anywhere r) ->
  re_search r (re_sub p (fun _ => mark) s) = None.
Proof.
  intros Hr Hc Hin Hp. apply re_search_clear_iff. intros a w b g Heq HM.
  assert (Hne : w <> EmptyString) by by eapply Match_consumes.
  assert (Hw : str_forall no_bracket w = true).
  { destruct (Match_chars no_bracket _ _ _ _ _ HM Hr) as (w' & Hw' & H). by apply sapp_cancel_r in Hw' as ->. }
  assert (Hany : forall t, Match r (w +:+ t) [] t g) by (intros t; by eapply Match_move).
  destruct (sub_factor p w Hne Hw s None 0 a b Heq) as [(a' & b' & ->)|(x & y & prev & -> & Hpass)].
  { rewrite re_search_clear_iff in Hin. by apply (Hin a' w b' g). }
  destruct Hp as [Hs| ->].
  - rewrite re_search_clear_iff in Hs. by apply (Hs x w y g).
  - unfold passes in Hpass. cbn [pt_start pt_body may_start] in Hpass. destruct (match_here r (w +:+ y)) as [[n g']|] eqn:E.
    + apply match_here_some in E as (u & s' & Hu & -> & HM'). destruct u; [|done].
      by apply (Match_consumes _ _ _ _ _ HM' Hc EmptyString).
    + rewrite match_here_none in E. by apply (E y g).
Qed.
End Replace.

(** ** Substitution on known text *)

Lemma Match_seq_inv (a b : re) s g s' g' :
  Match (RSeq a b) s g s' g' -> exists s2 g2, Match a s g s2 g2 /\ Match b s2 g2 s' g'.
Proof. inversion 1; subst; eauto. Qed.
Lemma Match_group_inv (n : string) (a : re) s g s' g' :
  Match (RGroup n a) s g s' g' -> exists g2, Match a s g s' g2.
Proof. inversion 1; subst; eauto. Qed.

(** A text without a character of [Q] before [d], and one without [d] before a
    character of [Q], do not agree. *)
Lemma crossing (Q : ascii -> bool) (d e : ascii) (x v w t : string) :
  str_forall (fun c => negb (Q c)) x = true -> Q d = false -> Q e = true ->
  str_forall (fun c => negb (Ascii.eqb c d)) w = true -> x +:+ String d v <> w +:+ String e t.
Proof.
  intros Hx Hd He. revert w. induction x as [|c x IH]; intros w Hw Heq; destruct w as [|c' w]; cbn in *;
    injection Heq as -> Heq.
  - congruence.
  - by rewrite Ascii.eqb_refl in Hw.
  - by rewrite He in Hx.
  - apply andb_prop in Hx as [_ Hx], Hw as [_ Hw]. by apply (IH Hx w).
Qed.

(** A prefix at no position of which the pattern matches is kept. *)
Lemma sub_passes (p : Pattern) (repl : Groups -> string) (d : ascii) (v : string) :
  forall pre prev, (forall x y, pre = y +:+ x -> match_here (pt_body p) (x +:+ String d v) = None) ->
  exists v', sub_from p repl prev 0 (pre +:+ String d v) = pre +:+ String d v'.
Proof.
  assert (Hnone : forall c s prev, match_here (pt_body p) (String c s) = None ->
      sub_from p repl prev 0 (String c s) = String c (sub_from p repl (Some c) 0 s)).
  { intros c s prev H. cbn [sub_from]. rewrite H. by destruct (may_start _ _ _). }
  induction pre as [|c pre IH]; intros prev H; cbn [String.append].
  - rewrite Hnone by exact (H EmptyString EmptyString eq_refl). by eexists.
  - rewrite Hnone by exact (H (String c pre) EmptyString eq_refl).
    destruct (IH (Some c)) as [v' ->]; [|by exists v']. intros x y ->. by apply (H x (String c y)).
Qed.

Lemma sub_skip_all (p : Pattern) (repl : Groups -> string) (s : string) :
  forall prev skip, (String.length s <= skip)%nat -> sub_from p repl prev skip s = EmptyString.
Proof.
  induction s as [|c s IH]; intros prev skip H; [done|]. destruct skip as [|n]; cbn in H; [lia|]. apply IH. lia.
Qed.

(** A match of the whole text. *)
Lemma sub_whole (p : Pattern) (repl : Groups -> string) (c : ascii) (s : string) (g : Groups) :
  may_start (pt_start p) None (String c s) = true ->
  match_here (pt_body p) (String c s) = Some (String.length (String c s), g) -> re_sub p repl (String c s) = repl g.
Proof.
  intros Hs Hm. unfold re_sub. cbn [sub_from]. rewrite Hs, Hm. cbn [String.length].
  by rewrite sub_skip_all, sapp_nil_r by lia.
Qed.

(** A pattern anchored at the start that does not match there. *)
Lemma sub_anchored_none (body : re) (repl : Groups -> string) (s : string) :
  match_here body s = None -> re_sub (mkPattern AtStart body) repl s = s.
Proof.
  assert (Hrest : forall s c, sub_from (mkPattern AtStart body) repl (Some c) 0 s = s).
  { clear. induction s as [|d s IH]; intros c; [done|]. cbn. by rewrite IH. }
  intros H. unfold re_sub. destruct s as [|c s]; [done|]. cbn [sub_from pt_start pt_body may_start].
  by rewrite H, Hrest.
Qed.

Lemma run_ci {A} (w s : string) g (k : string -> Groups -> option A) : matcher (ci_lit w) (w +:+ s) g k = k s g.
Proof.
  revert s g. induction w as [|c w IH]; intros s g; [done|]. cbn. unfold same_letter at 1.
  by rewrite Ascii.eqb_refl, IH.
Qed.
