(* ===== verification/ProcTree.v ===== *)
(** * Process trees ([inspectord/evidence/proctree.py])

    The ancestry of a process read off [/proc], with secrets scrubbed from
    command lines and environments. What the reads return is a record of
    answers, with the text of an [OSError] on failure; the UTF-8 decoder, the
    clock and SHA-256 are arguments. *)

From S2P Require Import Prelude Schemas Alerts Evidence Regex RegexSub.

Definition MAX_DEPTH : nat := 32.
Definition MAX_ENV_BYTES : nat := Z.to_nat (64 * 1024).
Definition MAX_CMDLINE_BYTES : nat := Z.to_nat (64 * 1024).
Definition REDACTED : string := "<redacted>".
Definition REDACTED_EMPTY : string := "<redacted:empty>".

Definition SECRET_NAME_SUBSTRINGS : list string :=
  ["TOKEN"; "SECRET"; "PASS"; "_PWD"; "API_KEY"; "APIKEY"; "PRIVATE"; "CREDENTIAL"; "AUTH"; "SESSION";
   "COOKIE"; "DSN"; "ACCESS_KEY"; "CONNECTION_STRING"; "BEARER"; "WEBHOOK"]%string.
Definition EXEMPT_NAMES : list string :=
  ["SSH_AUTH_SOCK"; "XAUTHORITY"; "DBUS_SESSION_BUS_ADDRESS"; "XDG_SESSION_ID"; "XDG_SESSION_TYPE";
   "XDG_SESSION_CLASS"; "XDG_SESSION_DESKTOP"; "SESSION_MANAGER"]%string.

(** ** Patterns *)

Definition any_char (c : ascii) : bool := true.
Definition alnum (c : ascii) : bool := is_alpha_ascii c || is_digit c.
Definition one_of (l : list ascii) (c : ascii) : bool := existsb (Ascii.eqb c) l.
Definition pt_char (d c : ascii) : bool := negb (Ascii.eqb c d).

Section Patterns.
Local Open Scope re_scope.

Definition URL_CRED_RE : Pattern :=
  mkPattern Anywhere
    (RGroup "1" (RChar is_alpha_ascii +++ RStar (fun c => alnum c || one_of ["+"; "."; "-"]%char c) +++ RLit "://"
                 +++ RPlus (fun c => negb (py_space c || one_of ["/"; ":"; "@"]%char c)))
     +++ RLit ":" +++ RGroup "2" (RPlus (fun c => negb (py_space c || Ascii.eqb c "/"))) +++ RLit "@").

Definition upper_digit (c : ascii) : bool := is_digit c || is_upper_ascii c.
Definition alnum_u (c : ascii) : bool := alnum c || Ascii.eqb c "_".
Definition alnum_ud (c : ascii) : bool := alnum c || one_of ["_"; "-"]%char c.
Definition alnum_d (c : ascii) : bool := alnum c || Ascii.eqb c "-".

Definition AWS_RE : re := RLit "AKIA" +++ rep 16 (RChar upper_digit).
Definition GITHUB_RE : re :=
  RAlt (RLit "ghp_") (RAlt (RLit "gho_") (RAlt (RLit "ghs_") (RLit "github_pat_"))) +++ RPlus alnum_u.
Definition GITLAB_RE : re := RLit "glpat-" +++ RPlus alnum_ud.
Definition ANTHROPIC_RE : re := RLit "sk-ant-" +++ RPlus alnum_ud.
Definition STRIPE_RE : re := RAlt (RLit "sk_live_") (RLit "rk_live_") +++ RPlus alnum.
Definition SLACK_RE : re := RLit "xox" +++ RChar (one_of ["b"; "p"; "c"; "a"]%char) +++ RLit "-" +++ RPlus alnum_d.
Definition GOOGLE_RE : re := RLit "AIza" +++ rep 35 (RChar alnum_ud).
Definition key_words : re := RStar (fun c => is_upper_ascii c || Ascii.eqb c " ").
Definition PEM_RE : re :=
  RLit "-----BEGIN" +++ key_words +++ RLit "PRIVATE KEY-----" +++ RLazy any_char
  +++ RAlt (RLit "-----END" +++ key_words +++ RLit "PRIVATE KEY-----") REnd.
Definition JWT_RE : re :=
  RLit "eyJ" +++ RStar alnum_ud +++ RLit "." +++ RPlus alnum_ud +++ RLit "." +++ RPlus alnum_ud.

(** The token formats, and [_SECRET_VALUE_PATTERNS]. *)
Definition TOKEN_RES : list re := [AWS_RE; GITHUB_RE; GITLAB_RE; ANTHROPIC_RE; STRIPE_RE; SLACK_RE; GOOGLE_RE].
Definition SECRET_VALUE_PATTERNS : list Pattern :=
  (mkPattern Anywhere <$> TOKEN_RES) ++ [mkPattern Anywhere PEM_RE; mkPattern AtWord JWT_RE].

Definition AUTH_HEADER_RE : Pattern :=
  mkPattern Anywhere
    (RGroup "1" (ci_lit "authorization" +++ RStar py_space +++ RLit ":" +++ RStar py_space) +++ RPlus any_char +++ REol).
Definition BEARER_RE : Pattern :=
  mkPattern AtWord (RGroup "1" (ci_lit "bearer" +++ RPlus py_space) +++ RPlus (fun c => negb (py_space c))).
Definition PASSWORD_FLAG_RE : Pattern :=
  mkPattern AtStart (RGroup "1" (ci_lit "--password=") +++ RStar any_char +++ REol).
Definition USER_FLAG_RE : Pattern :=
  mkPattern AtStart (RGroup "1" (RLit "--user=" +++ RStar (pt_char ":") +++ RLit ":") +++ RPlus any_char +++ REol).
Definition ENV_ASSIGN_RE : re :=
  RGroup "1" (RChar ident_start +++ RStar ident_char) +++ RLit "=" +++ RGroup "2" (RStar any_char) +++ REol.
End Patterns.

(** ** The scrubbing rules *)

(** [str.upper] on the modelled range; the two letters whose capitals lie
    outside it are kept. *)
Fixpoint str_upper (s : string) : string :=
  match s with
  | EmptyString => EmptyString
  | String c s' =>
      if (code c =? 223)%N then String "S" (String "S" (str_upper s'))
      else if is_lower_ascii c || (in_range 224 254 c && negb (code c =? 247)%N)
      then String (ascii_of_N (code c - 32)) (str_upper s') else String c (str_upper s')
  end.

Definition name_is_secret (name : string) : bool :=
  existsb (fun w => contains w (str_upper name)) SECRET_NAME_SUBSTRINGS.

Definition group_then (tail : string) (g : Groups) : string := group "1" g +:+ tail.

(** [scrub_value]. *)
Definition scrub_value (value : string) : string :=
  foldl (fun v p => re_sub p (fun _ => REDACTED) v)
    (re_sub URL_CRED_RE (group_then (":" +:+ REDACTED +:+ "@")) value) SECRET_VALUE_PATTERNS.

(** [scrub_env_value]. *)
Definition scrub_env_value (name value : string) : string * bool :=
  let kept := (scrub_value value, negb (String.eqb (scrub_value value) value)) in
  if bool_decide (name ∈ EXEMPT_NAMES) then kept
  else if name_is_secret name
  then ((if String.eqb value EmptyString then REDACTED_EMPTY else REDACTED), true)
  else kept.

(** [_scrub_cmdline_arg]. *)
Definition scrub_cmdline_arg (arg : string) : string :=
  let s1 := re_sub AUTH_HEADER_RE (group_then REDACTED) arg in
  let s2 := re_sub BEARER_RE (group_then REDACTED) s1 in
  let s3 := re_sub PASSWORD_FLAG_RE (group_then REDACTED) s2 in
  let scrubbed := re_sub USER_FLAG_RE (group_then REDACTED) s3 in
  match re_match ENV_ASSIGN_RE scrubbed with
  | Some g =>
      let name := group "1" g in
      if negb (bool_decide (name ∈ EXEMPT_NAMES)) && name_is_secret name
      then name +:+ "=" +:+ REDACTED else scrub_value scrubbed
  | None => scrub_value scrubbed
  end.

Definition GLUED_P_TOOLS : list string := ["mysql"; "mysqldump"; "mysqladmin"; "mariadb"; "mariadb-dump"]%string.

(** [redact_next]. *)
Inductive RedactNext := RNWhole | RNColon.

Definition scrub_step (argv0 : string) (st : list string * option RedactNext) (arg : string)
  : list string * option RedactNext :=
  let '(out, redact_next) := st in
  match redact_next with
  | Some RNWhole =>
      if String.eqb arg "Bearer" then (out ++ [arg], Some RNWhole) else (out ++ [REDACTED], None)
  | Some RNColon =>
      match str_partition ":" arg with
      | (user, Some _) => (out ++ [user +:+ ":" +:+ REDACTED], None)
      | (_, None) => (out ++ [scrub_cmdline_arg arg], None)
      end
  | None =>
      if String.eqb arg "-u" || String.eqb arg "--user" then (out ++ [arg], Some RNColon)
      else if (String.eqb argv0 "sshpass" && String.eqb arg "-p") || String.eqb arg "--password"
      then (out ++ [arg], Some RNWhole)
      else if bool_decide (argv0 ∈ GLUED_P_TOOLS) && startswith "-p" arg && (2 <? String.length arg)%nat
      then (out ++ ["-p" +:+ REDACTED], None)
      else if String.eqb (rstrip (str_lower arg)) "authorization:" then (out ++ [arg], Some RNWhole)
      else (out ++ [scrub_cmdline_arg arg], None)
  end.

(** [shlex.quote] and [shlex.join]. *)
Definition shell_safe (c : ascii) : bool :=
  ident_char c || one_of ["@"; "%"; "+"; "="; ":"; ","; "."; "/"; "-"]%char c.
Fixpoint quote_body (s : string) : string :=
  match s with
  | EmptyString => EmptyString
  | String c s' =>
      if Ascii.eqb c "'" then "'" +:+ String "034" "'" +:+ String "034" "'" +:+ quote_body s'
      else String c (quote_body s')
  end.
Definition shell_quote (s : string) : string :=
  if String.eqb s EmptyString then "''"
  else if str_forall shell_safe s then s
  else "'" +:+ quote_body s +:+ "'".
Definition shell_join (args : list string) : string := join " " (shell_quote <$> args).

(** [scrub_cmdline]. *)
Definition scrub_args (argv : list string) : list string :=
  let argv0 := match argv with a :: _ => path_basename a | [] => EmptyString end in
  (foldl (scrub_step argv0) ([], None) argv).1.
Definition scrub_cmdline (argv : list string) : string := shell_join (scrub_args argv).

(** ** Reading a process *)

(** What the files of a process give, [Err] being the text of an [OSError]. *)
Record Proc := mkProc {
  pc_stat : Z -> option string;
  pc_link : Z -> string -> result string string;
  pc_exe : Z -> result string (list (result string string));   (** opening, then reads *)
  pc_cmdline : Z -> result string string;
  pc_status : Z -> result string string;
  pc_environ : Z -> result string string;
}.

(** [text.find(c)] and [text.rfind(c)], as positions. *)
Fixpoint find_char (c : ascii) (s : string) : option nat :=
  match s with
  | EmptyString => None
  | String d s' => if Ascii.eqb d c then Some O else S <$> find_char c s'
  end.
Fixpoint rfind_char (c : ascii) (s : string) : option nat :=
  match s with
  | EmptyString => None
  | String d s' => match rfind_char c s' with
                   | Some n => Some (S n)
                   | None => if Ascii.eqb d c then Some O else None
                   end
  end.

Section Walk.
Context (decode : string -> string) (sha256_hex : string -> string) (proc : Proc).

(** [_read_stat]. *)
Definition read_stat (pid : Z) : option (string * Z) :=
  raw ← pc_stat proc pid;
  let text := decode raw in
  open_paren ← find_char "(" text;
  close_paren ← rfind_char ")" text;
  if (close_paren <? open_paren)%nat then None
  else match split_ws (str_drop (S close_paren) text) with
       | _ :: f1 :: _ =>
           ppid ← py_int f1;
           Some (str_take (close_paren - S open_paren) (str_drop (S open_paren) text), ppid)
       | _ => None
       end.

(** A node under construction, with its errors. *)
Definition Node : Type := dict * list string.
Definition set_field (key : string) (v : pyval) (n : Node) : Node := (dict_set key v n.1, n.2).
Definition add_error (e : string) (n : Node) : Node := (n.1, n.2 ++ [e]).

Definition read_link (pid : Z) (name : string) (n : Node) : Node :=
  match pc_link proc pid name with
  | Ok target => set_field name (PStr target) n
  | Err exc => add_error (name +:+ ": " +:+ exc) n
  end.

(** The loop of [_read_exe_sha]: what was read, or the error entry. *)
Fixpoint exe_loop (reads : list (result string string)) (total : Z) (acc : string) : result string string :=
  match reads with
  | [] | Ok EmptyString :: _ => Ok acc
  | Err exc :: _ => Err ("exe_sha256: " +:+ exc)
  | Ok chunk :: rest =>
      let total := total + Z.of_nat (String.length chunk) in
      if MAX_FILE_BYTES <? total
      then Err ("exe_sha256: exceeds " +:+ str_of_Z MAX_FILE_BYTES +:+ " byte cap, omitted")
      else exe_loop rest total (acc +:+ chunk)
  end.
Definition read_exe_sha (pid : Z) (n : Node) : Node :=
  match pc_exe proc pid with
  | Err exc => add_error ("exe_sha256: " +:+ exc) n
  | Ok reads =>
      match exe_loop reads 0 EmptyString with
      | Ok content => set_field "exe_sha256" (PStr (sha256_hex content)) n
      | Err e => add_error e n
      end
  end.

(** The arguments of [/proc/<pid>/cmdline]. *)
Definition split_argv (data : string) : list string :=
  let parts := split_on "000" data in
  match last parts with
  | Some EmptyString => removelast parts
  | _ => parts
  end.
Definition read_cmdline (pid : Z) (n : Node) : Node :=
  match pc_cmdline proc pid with
  | Err exc => add_error ("cmdline: " +:+ exc) n
  | Ok content =>
      set_field "cmdline" (PStr (scrub_cmdline (decode <$> split_argv (str_take MAX_CMDLINE_BYTES content)))) n
  end.

(** The first [Uid:] line decides; a malformed one may leave [uid] set. *)
Fixpoint uid_lines (lines : list string) (n : Node) : Node :=
  match lines with
  | [] => add_error "status: Uid line missing or malformed" n
  | line :: rest =>
      if negb (startswith "Uid:" line) then uid_lines rest n
      else
        let failed := add_error "status: Uid line missing or malformed" in
        match split_ws line with
        | _ :: u :: more =>
            match py_int u with
            | None => failed n
            | Some uid =>
                let n := set_field "uid" (PInt uid) n in
                match more with
                | e :: _ => match py_int e with Some euid => set_field "euid" (PInt euid) n | None => failed n end
                | [] => failed n
                end
            end
        | _ => failed n
        end
  end.
Definition read_uids (pid : Z) (n : Node) : Node :=
  match pc_status proc pid with
  | Err exc => add_error ("status: " +:+ exc) n
  | Ok content => uid_lines (splitlines (decode content)) n
  end.

(** [_parse_environ]: the pairs, and the number of malformed fragments. *)
Definition parse_fragment (acc : list (string * string) * Z) (frag : string) : list (string * string) * Z :=
  let '(pairs, malformed) := acc in
  if String.eqb frag EmptyString then acc
  else match str_partition "=" (decode frag) with
       | (name, Some value) => if String.eqb name EmptyString then (pairs, malformed + 1) else (pairs ++ [(name, value)], malformed)
       | (_, None) => (pairs, malformed + 1)
       end.
Definition parse_environ (data : string) : list (string * string) * Z :=
  foldl parse_fragment ([], 0) (split_on "000" data).

(** The loop that scrubs the pairs. *)
Definition scrub_pair (acc : dict * Z) (nv : string * string) : dict * Z :=
  let '(scrubbed, was_redacted) := scrub_env_value nv.1 nv.2 in
  (dict_set nv.1 (PStr scrubbed) acc.1, acc.2 + if was_redacted then 1 else 0).

(** What is left of a cut read: up to the last NUL. *)
Definition whole_fragments (data : string) : string :=
  match rfind_char "000" data with Some i => str_take (S i) data | None => EmptyString end.

(** [_read_environ]. *)
Definition environ_fields (content : string) (n : Node) : Node :=
  let data := str_take (S MAX_ENV_BYTES) content in
  let truncated := (MAX_ENV_BYTES <? String.length data)%nat in
  let n := set_field "env_truncated" (PBool truncated)
             (set_field "env_bytes" (PInt (Z.of_nat (String.length data))) n) in
  if String.eqb data EmptyString then set_field "env_redacted" (PInt 0) (set_field "env" (PDict []) n)
  else
    let parse_data := if truncated && negb (endswith (String "000" EmptyString) data) then whole_fragments data else data in
    let '(pairs, malformed) := parse_environ parse_data in
    let n := if 0 <? malformed then add_error ("environ: " +:+ str_of_Z malformed +:+ " malformed fragment(s) skipped") n else n in
    match pairs with
    | [] => add_error "environ: no parseable entries, env omitted" n
    | _ =>
        let '(env, redacted) := foldl scrub_pair ([], 0) pairs in
        set_field "env_redacted" (PInt redacted) (set_field "env" (PDict env) n)
    end.
Definition read_environ (pid : Z) (n : Node) : Node :=
  match pc_environ proc pid with
  | Err exc => add_error ("environ: " +:+ exc) n
  | Ok content => environ_fields content n
  end.

(** [_capture_node]. *)
Definition capture_node (pid : Z) (comm : string) (ppid : Z) : pyval :=
  let n0 : Node := ([("pid", PInt pid); ("ppid", PInt ppid); ("comm", PStr comm)]%string, []) in
  let n := read_environ pid (read_uids pid (read_cmdline pid
             (read_link pid "cwd" (read_exe_sha pid (read_link pid "exe" n0))))) in
  PDict (dict_set "errors" (PList (PStr <$> n.2)) n.1).

(** The walk: the nodes, and whether it was cut. *)
Fixpoint walk (fuel : nat) (current : Z) (parsed : string * Z) : list pyval * bool :=
  match fuel with
  | O => ([], true)
  | S f =>
      let '(comm, ppid) := parsed in
      let node := capture_node current comm ppid in
      if (current =? 1) || (ppid =? 0) then ([node], false)
      else match read_stat ppid with
           | None => ([node], true)
           | Some parsed' => let '(nodes, cut) := walk f ppid parsed' in (node :: nodes, cut)
           end
  end.

(** [capture_process_tree]; [captured_at] is the formatted clock. *)
Definition capture_process_tree (captured_at : string) (pid : Z) : option pyval :=
  parsed ← read_stat pid;
  let '(nodes, truncated) := walk MAX_DEPTH pid parsed in
  Some (PDict [("captured_at", PStr captured_at); ("root_pid", PInt pid);
               ("truncated", PBool truncated); ("nodes", PList nodes)]%string).
End Walk.
