(* ===== verification/Numerals.v ===== *)
(** * Decimal numerals

    [int] reads back the text [str] writes for a natural number: shared by the
    components that put numbers into keys. *)

From S2P Require Import Prelude.
From Stdlib Require Import Decimal DecimalString DecimalFacts DecimalPos DecimalZ.

(** [s.isascii() and s.isdigit()]. *)
Definition ascii_digits (s : string) : bool := negb (String.eqb s EmptyString) && str_forall is_digit s.

Ltac read_digit := match goal with |- context [is_digit ?c] => change (is_digit c) with true end; cbv iota.

Lemma int_digits_pos (u : uint) (p : positive) (n : Z) :
  int_digits (NilEmpty.string_of_uint u) (Zpos p) n false =
  Some (Zpos (Pos.of_uint_acc u p), n + Z.of_nat (nb_digits u)).
Proof.
  revert p n. induction u; intros p n; cbn [NilEmpty.string_of_uint int_digits Pos.of_uint_acc nb_digits];
    [f_equal; f_equal; lia|..];
    (read_digit;
     match goal with |- int_digits _ ?a _ _ = Some (Zpos (Pos.of_uint_acc _ ?q), _) =>
       replace a with (Zpos q) by (match goal with |- context [digit_val ?c] =>
                                     let d := eval vm_compute in (digit_val c) in change (digit_val c) with d end; lia) end;
     rewrite IHu; f_equal; f_equal; lia).
Qed.

Lemma int_digits_uint (u : uint) (n : Z) :
  int_digits (NilEmpty.string_of_uint u) 0 n false = Some (Z.of_uint u, n + Z.of_nat (nb_digits u)).
Proof.
  revert n. induction u; intros n; cbn [NilEmpty.string_of_uint int_digits nb_digits];
    [f_equal; f_equal; lia|..]; read_digit.
  1: { change (10 * 0 + digit_val "0") with 0. rewrite IHu. f_equal. f_equal. lia. }
  all: match goal with |- int_digits _ ?a _ _ = _ => let b := eval vm_compute in a in change a with b end;
    rewrite int_digits_pos; unfold Z.of_uint; cbn [Pos.of_uint]; simpl Z.of_N; f_equal; f_equal; lia.
Qed.

(** Doubling a number adds at most one digit. *)
Lemma nb_digits_double (u : uint) :
  (nb_digits (Little.double u) <= S (nb_digits u))%nat /\ (nb_digits (Little.succ_double u) <= S (nb_digits u))%nat.
Proof.
  induction u as [|u IH|u IH|u IH|u IH|u IH|u IH|u IH|u IH|u IH|u IH]; simpl; try destruct IH; split; lia.
Qed.

Lemma nb_digits_revapp (u v : uint) : nb_digits (revapp u v) = (nb_digits u + nb_digits v)%nat.
Proof. revert v. induction u; intros v; simpl; rewrite ?IHu; simpl; lia. Qed.

Lemma nb_digits_pos (p : positive) : (nb_digits (Pos.to_uint p) <= S (Pos.size_nat p))%nat.
Proof.
  unfold Pos.to_uint, rev. rewrite nb_digits_revapp. simpl. rewrite Nat.add_0_r.
  induction p as [p IH|p IH|]; cbn [Pos.to_little_uint Pos.size_nat]; [..|simpl; lia];
    pose proof (nb_digits_double (Pos.to_little_uint p)) as [? ?]; lia.
Qed.

Lemma size_nat_bound (p : positive) (k : nat) : Zpos p < 2 ^ Z.of_nat k -> (Pos.size_nat p <= k)%nat.
Proof.
  revert k. induction p as [p IH|p IH|]; intros [|k] H; cbn [Pos.size_nat]; try (simpl in H; lia);
    rewrite Nat2Z.inj_succ, Z.pow_succ_r in H by lia; specialize (IH k); lia.
Qed.

(** The text of a natural number, as a numeral without leading zeros. *)
Lemma str_of_nonneg (z : Z) :
  0 <= z -> exists u, str_of_Z z = NilEmpty.string_of_uint u /\ u <> Nil /\ Z.of_uint u = z /\
    (nb_digits u <= S (match z with Zpos p => Pos.size_nat p | _ => 0 end))%nat.
Proof.
  intros Hz. destruct z as [|p|p]; [| |lia].
  - exists (D0 Nil). split_and!; [done..|simpl; lia].
  - exists (Pos.to_uint p). pose proof (Unsigned.to_uint_nonnil p) as Hn.
    split_and!; [| done | | apply nb_digits_pos].
    + unfold str_of_Z. simpl. by destruct (Pos.to_uint p).
    + exact (DecimalZ.of_to (Zpos p)).
Qed.

Lemma str_of_nonneg_digits (z : Z) : 0 <= z -> ascii_digits (str_of_Z z) = true.
Proof.
  intros (u & -> & Hu & _)%str_of_nonneg. unfold ascii_digits.
  assert (str_forall is_digit (NilEmpty.string_of_uint u) = true) as -> by (clear; by induction u).
  by destruct u.
Qed.

(** [int(str(z)) == z] for [0 <= z < 2^4000], well inside the limit on the
    number of digits. *)
Lemma int_unsigned_str (z : Z) : 0 <= z < 2 ^ 4000 -> int_unsigned (str_of_Z z) = Some z.
Proof.
  intros [Hz Hb]. destruct (str_of_nonneg z Hz) as (u & -> & Hu & Hv & Hn). unfold int_unsigned.
  assert (int_digits (NilEmpty.string_of_uint u) 0 0 true = int_digits (NilEmpty.string_of_uint u) 0 0 false)
    as -> by (by destruct u).
  rewrite int_digits_uint, Hv.
  assert (nb_digits u <= 4001)%nat as Hd.
  { destruct z as [|p|p]; [lia| |lia]. pose proof (size_nat_bound p 4000 Hb). lia. }
  cbv iota beta. rewrite (proj2 (Z.leb_le _ _)); [done|]. change int_max_str_digits with 4300. lia.
Qed.

(** The same for the values of an INTEGER column. *)
Lemma int_column_reads (z : Z) : 0 <= z < 2 ^ 31 -> int_unsigned (str_of_Z z) = Some z.
Proof. intros Hz. apply int_unsigned_str. split; [lia|]. transitivity (2 ^ 31); [lia|by apply Z.pow_lt_mono_r]. Qed.

Lemma str_of_Z_length (z : Z) (k : nat) : 0 <= z < 2 ^ Z.of_nat k -> (String.length (str_of_Z z) <= S k)%nat.
Proof.
  intros [Hz Hk]. destruct (str_of_nonneg z Hz) as (u & -> & _ & _ & Hn).
  assert (String.length (NilEmpty.string_of_uint u) = nb_digits u) as -> by (clear; induction u; simpl; congruence).
  destruct z as [|p|p]; [lia| |lia]. pose proof (size_nat_bound p k Hk). lia.
Qed.

(** A decimal numeral holds no character that is no digit. *)
Lemma digits_without (s : string) (c : ascii) :
  is_digit c = false -> ascii_digits s = true -> str_forall (fun d => negb (Ascii.eqb d c)) s = true.
Proof.
  intros Hc [_ H]%andb_prop. induction s as [|d s IH]; [done|]. simpl in *. apply andb_prop in H as [Hd H].
  rewrite IH by done. destruct (Ascii.eqb_spec d c) as [->|]; [congruence|done].
Qed.
