(* ===== verification/IpAddrProofs.v ===== *)
(** * The text of an address is read back as that address *)

From S2P Require Import Prelude Numerals IpAddr.

(** Linear arithmetic with [/] and [mod] by constants. *)
Ltac divlia := Z.to_euclidean_division_equations; lia.

(** ** Hexadecimal digits *)

Lemma hex_digit_ok (d : Z) :
  0 <= d < 16 -> hex_val (hex_digit d) = Some d /\ Ascii.eqb (hex_digit d) ":" = false /\
    Ascii.eqb (hex_digit d) "." = false /\ (hex_digit d = "0"%char -> d = 0).
Proof.
  intros Hd. assert (d = 0 \/ d = 1 \/ d = 2 \/ d = 3 \/ d = 4 \/ d = 5 \/ d = 6 \/ d = 7 \/ d = 8 \/ d = 9 \/ d = 10 \/
    d = 11 \/ d = 12 \/ d = 13 \/ d = 14 \/ d = 15) as H by lia.
  repeat destruct H as [->|H]; try (by vm_compute). by subst.
Qed.

Lemma hex16_ok (z : Z) :
  0 <= z < 2 ^ 16 -> parse_hextet (hex16 z) = Some z /\ is_empty (hex16 z) = false /\
    str_forall (fun c => negb (Ascii.eqb c ":")) (hex16 z) = true /\
    str_forall (fun c => negb (Ascii.eqb c ".")) (hex16 z) = true /\ (hex16 z = "0"%string -> z = 0).
Proof.
  intros Hz. unfold hex16.
  pose proof (hex_digit_ok (z / 4096) ltac:(divlia)) as (V3 & C3 & P3 & _).
  pose proof (hex_digit_ok (z / 256 mod 16) ltac:(divlia)) as (V2 & C2 & P2 & _).
  pose proof (hex_digit_ok (z / 16 mod 16) ltac:(divlia)) as (V1 & C1 & P1 & _).
  pose proof (hex_digit_ok (z mod 16) ltac:(divlia)) as (V0 & C0 & P0 & Z0).
  case_match eqn:E1; [|case_match eqn:E2; [|case_match eqn:E3]];
    rewrite ?Z.ltb_lt, ?Z.ltb_ge in *; unfold parse_hextet, is_empty; cbn [String.eqb String.length orb Nat.ltb Nat.leb];
    cbn [hex_digits str_forall]; rewrite ?V0, ?V1, ?V2, ?V3; cbn [mbind option_bind]; rewrite ?C0, ?C1, ?C2, ?C3, ?P0, ?P1, ?P2, ?P3;
    (split_and!; [f_equal; divlia | done..|]).
  { intros [= H]. apply Z0 in H. divlia. }
  all: intros [=].
Qed.

(** ** The gap *)

(** What follows depends only on which hextets are zero. *)
Section Natural.
Context {A B : Type} (f : A -> B).

Lemma compress_fmap (zA : A -> bool) (zB : B -> bool) (e : A) (l : list A) :
  (forall x, zB (f x) = zA x) ->
  compress_hextets zB (f e) (f <$> l) = f <$> compress_hextets zA e l.
Proof.
  intros Hz. unfold compress_hextets. rewrite <- list_fmap_compose.
  rewrite (list_fmap_ext (zB ∘ f) zA l) by (intros; apply Hz). rewrite length_fmap.
  repeat case_match; rewrite ?fmap_app, ?fmap_cons, ?fmap_app, ?fmap_take, ?fmap_drop, ?fmap_app; done.
Qed.

Context (eA : A -> bool) (eB : B -> bool) (He : forall x, eB (f x) = eA x).

Lemma find_skip_fmap (l : list A) (i : nat) (skip : option nat) :
  find_skip eB (f <$> l) i skip = find_skip eA l i skip.
Proof.
  revert i skip. induction l as [|x [|y l] IH]; intros i skip; [done..|].
  change (find_skip eB (f <$> x :: y :: l) i skip) with
    (if eB (f x) then match skip with Some _ => None | None => find_skip eB (f <$> y :: l) (S i) (Some i) end
     else find_skip eB (f <$> y :: l) (S i) skip).
  rewrite He, !IH. change (find_skip eA (x :: y :: l) i skip) with
    (if eA x then match skip with Some _ => None | None => find_skip eA (y :: l) (S i) (Some i) end
     else find_skip eA (y :: l) (S i) skip). by destruct (eA x), skip.
Qed.

Lemma split_parts_fmap (l : list A) :
  split_parts eB (f <$> l) =
  match split_parts eA l with Some (hi, gap, lo) => Some (f <$> hi, gap, f <$> lo) | None => None end.
Proof.
  unfold split_parts. rewrite <- fmap_drop, find_skip_fmap.
  assert (first_empty eB (f <$> l) = first_empty eA l) as -> by (destruct l; [done|apply He]).
  assert (last_empty eB (f <$> l) = last_empty eA l) as ->.
  { unfold last_empty. rewrite fmap_last. destruct (last l); [apply He|done]. }
  rewrite length_fmap. destruct (find_skip eA (drop 1 l) 1 None) as [[i|]|]; simpl; [| |done];
    repeat case_match; simpl; rewrite ?fmap_take, ?fmap_drop; done.
Qed.
End Natural.

(** Eight hextets by their positions; [None] stands for the empty text. *)
Definition positions : list (option nat) := Some <$> seq 0 8.
Definition zero_at (zs : list bool) (x : option nat) : bool := match x with Some i => nth i zs false | None => false end.
Definition no_position (x : option nat) : bool := match x with None => true | Some _ => false end.

(** The shape of the parts for one pattern of zeros: a prefix, a gap of zeros
    and a suffix that make up the eight hextets. *)
Definition shape_ok (zs : list bool) : bool :=
  let l := compress_hextets (zero_at zs) None positions in
  (3 <=? length l)%nat && (length l <=? 9)%nat &&
  match split_parts no_position l with
  | Some (hi, gap, lo) =>
      let n := length hi in
      let m := (n + gap)%nat in
      bool_decide (hi = Some <$> seq 0 n) && bool_decide (lo = Some <$> seq m (8 - m)) && (m <=? 8)%nat &&
      forallb (fun i => nth i zs false) (seq n gap)
  | None => false
  end.

Fixpoint patterns (n : nat) : list (list bool) :=
  match n with O => [[]] | S n => mjoin ((fun p => [true :: p; false :: p]) <$> patterns n) end.

Lemma patterns_all (zs : list bool) : zs ∈ patterns (length zs).
Proof.
  induction zs as [|z zs IH]; [by apply list_elem_of_singleton|]. simpl. apply list_elem_of_join.
  exists [true :: zs; false :: zs]. split; [destruct z; set_solver|]. by apply list_elem_of_fmap; eauto.
Qed.

Lemma all_shapes : forallb shape_ok (patterns 8) = true.
Proof. vm_compute. reflexivity. Qed.

Lemma compress_elem {A} (zero : A -> bool) (e : A) (l : list A) (x : A) :
  x ∈ compress_hextets zero e l -> x ∈ l \/ x = e.
Proof.
  unfold compress_hextets. set (st := runs _ _ _). destruct (1 <? best_len st)%nat; [|by left].
  set (l1 := if (best_start st + best_len st =? length l)%nat then l ++ [e] else l). assert (H1 : forall y, y ∈ l1 -> y ∈ l \/ y = e).
  { unfold l1. intros y. case_match; [|by left]. rewrite elem_of_app, list_elem_of_singleton. tauto. }
  assert (H2 : forall y, y ∈ take (best_start st) l1 ++ [e] ++ drop (best_start st + best_len st) l1 -> y ∈ l \/ y = e).
  { intros y. rewrite !elem_of_app, list_elem_of_singleton.
    intros [H|[H|H]]; [by eapply H1, subseteq_take|by right|by eapply H1, subseteq_drop]. }
  case_match; [|apply H2]. rewrite elem_of_cons. intros [->|Hx]; [by right|by apply H2].
Qed.

(** The parts of a compressed address, for texts with a given pattern. *)
Lemma compressed_parts (texts : list string) :
  length texts = 8%nat -> Forall (fun t => is_empty t = false) texts ->
  let l := compress_hextets (fun t => String.eqb t "0") EmptyString texts in
  (3 <= length l <= 9)%nat /\ (forall t, t ∈ l -> t ∈ texts \/ t = EmptyString) /\
  exists n m, (n <= m <= 8)%nat /\ split_parts is_empty l = Some (take n texts, (m - n)%nat, drop m texts) /\
    forall i, (n <= i < m)%nat -> texts !! i = Some "0"%string.
Proof.
  intros Hl Hne. set (f := fun x : option nat => match x with Some i => nth i texts "1"%string | None => EmptyString end).
  set (zs := (fun t => String.eqb t "0") <$> texts).
  assert (Hzl : length zs = 8%nat) by (unfold zs; by rewrite length_fmap).
  assert (Ht : texts = f <$> positions) by (do 9 (destruct texts as [|? texts]; try done)).
  assert (Hz : forall x, String.eqb (f x) "0" = zero_at zs x).
  { intros [i|]; [|done]. unfold f, zero_at, zs.
    change false with ((fun t => String.eqb t "0") "1"%string). symmetry. apply (List.map_nth (fun t => String.eqb t "0")). }
  assert (He : forall x, is_empty (f x) = no_position x).
  { intros [i|]; [|done]. simpl. destruct (nth_in_or_default i texts "1"%string) as [Hin| ->]; [|done].
    rewrite Forall_forall in Hne. by apply Hne, list_elem_of_In. }
  assert (Hs : shape_ok zs = true).
  { pose proof all_shapes as H. rewrite forallb_forall in H. apply H, list_elem_of_In. rewrite <- Hzl. apply patterns_all. }
  unfold shape_ok in Hs. rewrite !andb_true_iff in Hs. destruct Hs as [[H3%Nat.leb_le H9%Nat.leb_le] Hsp].
  intros l. assert (El : l = f <$> compress_hextets (zero_at zs) None positions).
  { unfold l. rewrite Ht at 1. by apply (compress_fmap f (zero_at zs) _ None). }
  split; [rewrite El, length_fmap; lia|]. split; [intros t; apply compress_elem|].
  rewrite El, (split_parts_fmap f no_position is_empty He).
  destruct (split_parts no_position _) as [[[hi gap] lo]|]; [|done].
  rewrite !andb_true_iff in Hsp. destruct Hsp as [[[Hhi%bool_decide_eq_true Hlo%bool_decide_eq_true] Hm%Nat.leb_le] Hg].
  set (n := length hi) in *. exists n, (n + gap)%nat. split; [lia|]. split.
  - replace (n + gap - n)%nat with gap by lia. rewrite Hhi, Hlo, Ht. unfold positions.
    rewrite <- fmap_take, <- fmap_drop, <- fmap_take, <- fmap_drop. rewrite take_seq, drop_seq.
    replace (n `min` 8)%nat with n by lia. done.
  - intros i Hi. rewrite forallb_forall in Hg. specialize (Hg i ltac:(apply in_seq; lia)).
    destruct (lookup_lt_is_Some_2 texts i ltac:(lia)) as [t Hti]. rewrite Hti.
    rewrite <- (nth_lookup_Some _ _ "1"%string _ Hti). f_equal. apply String.eqb_eq.
    exact (eq_trans (Hz (Some i)) Hg).
Qed.

(** ** IPv6 *)

Definition from_hextets (hs : list Z) (acc : Z) : Z := foldl (fun a h => a * 2 ^ 16 + h) acc hs.

Lemma read_hex16 (hs : list Z) (acc : Z) :
  Forall (fun h => 0 <= h < 2 ^ 16) hs -> read_hextets (hex16 <$> hs) acc = Some (from_hextets hs acc).
Proof.
  revert acc. induction hs as [|h hs IH]; intros acc Hf; [done|]. inversion Hf as [|? ? Hh Hf']; subst.
  csimpl. destruct (hex16_ok h Hh) as (-> & _). simpl. by rewrite IH.
Qed.

Lemma from_hextets_zeros (k : nat) (acc : Z) : from_hextets (replicate k 0) acc = acc * 2 ^ (16 * Z.of_nat k).
Proof.
  revert acc. induction k as [|k IH]; intros acc; [simpl; lia|].
  change (from_hextets (replicate (S k) 0) acc) with (from_hextets (replicate k 0) (acc * 2 ^ 16 + 0)).
  rewrite IH, Nat2Z.inj_succ. replace (16 * Z.succ (Z.of_nat k)) with (16 + 16 * Z.of_nat k) by lia.
  rewrite Z.pow_add_r by lia. lia.
Qed.

Lemma hextets_range (z : Z) : 0 <= z < 2 ^ 128 -> Forall (fun h => 0 <= h < 2 ^ 16) (hextets z).
Proof. intros Hz. unfold hextets. repeat constructor; divlia. Qed.

Lemma from_hextets_split (hs : list Z) (n m : nat) :
  (n <= m)%nat -> (forall i, (n <= i < m)%nat -> hs !! i = Some 0) ->
  from_hextets (drop m hs) (from_hextets (take n hs) 0 * 2 ^ (16 * Z.of_nat (m - n))) = from_hextets hs 0.
Proof.
  intros Hnm Hz. rewrite <- from_hextets_zeros. unfold from_hextets. rewrite <- !foldl_app. f_equal.
  rewrite <- (take_drop m hs) at 3. rewrite app_assoc. f_equal.
  rewrite <- (take_drop n (take m hs)), take_take. replace (n `min` m)%nat with n by lia. f_equal.
  apply list_eq. intros i. destruct (decide (i < m - n)%nat).
  - rewrite lookup_replicate_2 by done. rewrite lookup_drop, lookup_take_lt by lia. symmetry. apply Hz. lia.
  - rewrite lookup_ge_None_2 by (rewrite length_replicate; lia).
    symmetry. apply lookup_ge_None_2. rewrite length_drop, length_take. lia.
Qed.

Lemma from_hextets_value (z : Z) : 0 <= z < 2 ^ 128 -> from_hextets (hextets z) 0 = z.
Proof. intros Hz. unfold from_hextets, hextets. cbn [foldl]. divlia. Qed.

Lemma contains_char_false (c : ascii) (s : string) :
  str_forall (fun d => negb (Ascii.eqb d c)) s = true -> contains (String c EmptyString) s = false.
Proof.
  induction s as [|d s IH]; [done|]. cbn [str_forall]. intros [Hd%negb_true_iff Hs]%andb_prop.
  cbn [contains startswith]. rewrite IH by done. rewrite Ascii.eqb_sym, Hd. done.
Qed.

(** The text of an IPv6 address is read back as that address. *)
Lemma ipv6_reads (z : Z) : 0 <= z < 2 ^ 128 -> ipv6_parse (ipv6_str z) = Some z.
Proof.
  intros Hz. pose proof (hextets_range z Hz) as Hr. set (texts := hex16 <$> hextets z).
  assert (Hx : forall t, t ∈ texts -> exists h, t = hex16 h /\ 0 <= h < 2 ^ 16).
  { intros t (h & -> & Hh)%list_elem_of_fmap. rewrite Forall_forall in Hr. eauto. }
  destruct (compressed_parts texts) as (Hlen & Hel & n & m & Hnm & Hsp & Hzero).
  { done. } { apply Forall_forall. intros t (h & -> & Hh)%Hx. by apply hex16_ok. }
  set (l := compress_hextets _ _ _) in *.
  assert (Hparts : split_on ":" (ipv6_str z) = l).
  { apply split_on_join; [by destruct l|]. apply Forall_forall. intros t Ht. destruct (Hel t Ht) as [(h & -> & Hh)%Hx| ->]; [|done].
    by apply hex16_ok. }
  unfold ipv6_parse. replace (is_empty (ipv6_str z)) with false.
  2: { symmetry. apply String.eqb_neq. intros E. rewrite E in Hparts. subst l. rewrite <- Hparts in Hlen. simpl in Hlen. lia. }
  rewrite Hparts. rewrite (proj2 (Nat.ltb_ge _ _)) by lia.
  assert (expand_v4 l = Some l) as ->.
  { unfold expand_v4. destruct (last l) as [t|] eqn:E; [|done]. apply last_Some_elem_of in E.
    rewrite contains_char_false; [done|]. destruct (Hel t E) as [(h & -> & Hh)%Hx| ->]; [|done]. by apply hex16_ok. }
  simpl. rewrite (proj2 (Nat.ltb_ge 9 (length l))) by lia. rewrite Hsp. simpl. unfold texts.
  rewrite <- fmap_take, <- fmap_drop, !read_hex16 by (by apply Forall_take || by apply Forall_drop). simpl.
  rewrite read_hex16 by (by apply Forall_drop). f_equal. rewrite from_hextets_split; [by apply from_hextets_value|lia|].
  intros i Hi. specialize (Hzero i Hi). unfold texts in Hzero. rewrite list_lookup_fmap in Hzero.
  destruct (hextets z !! i) as [h|] eqn:Eh; [|done]. simpl in Hzero. injection Hzero as Hh. f_equal.
  rewrite Forall_lookup in Hr. by eapply hex16_ok in Hh; [|by eapply Hr].
Qed.

(** ** IPv4 *)

Lemma octet_reads (z : Z) : 0 <= z < 256 -> parse_octet (str_of_Z z) = Some z.
Proof.
  intros Hz. assert (forallb (fun n => bool_decide (parse_octet (str_of_Z (Z.of_nat n)) = Some (Z.of_nat n))) (seq 0 256) = true)
    as H by (vm_compute; reflexivity).
  rewrite forallb_forall in H. specialize (H (Z.to_nat z) ltac:(apply in_seq; lia)).
  apply bool_decide_eq_true in H. by rewrite Z2Nat.id in H by lia.
Qed.

Lemma octets_range (z : Z) : 0 <= z < 2 ^ 32 -> Forall (fun h => 0 <= h < 256) (octets z).
Proof. intros Hz. unfold octets. repeat constructor; divlia. Qed.

Lemma ipv4_text (z : Z) : 0 <= z < 2 ^ 32 -> split_on "." (ipv4_str z) = str_of_Z <$> octets z.
Proof.
  intros Hz. pose proof (octets_range z Hz) as Hr. apply split_on_join; [done|]. apply Forall_forall.
  intros t (h & -> & Hh)%list_elem_of_fmap. rewrite Forall_forall in Hr. specialize (Hr h Hh).
  apply digits_without; [done|]. apply str_of_nonneg_digits. lia.
Qed.

(** The text of an IPv4 address is read back as that address. *)
Lemma ipv4_reads (z : Z) : 0 <= z < 2 ^ 32 -> ipv4_parse (ipv4_str z) = Some z.
Proof.
  intros Hz. unfold ipv4_parse. rewrite ipv4_text by done. unfold octets. cbn [fmap list_fmap].
  rewrite !octet_reads by divlia. simpl. f_equal. divlia.
Qed.
