(* ===== verification/Listeners.v ===== *)
(** * The listening socket snapshotter ([inspectord/workers/
      listening_socket_snapshotter], [evidence/netsnapshot.py])

    The text of [/proc/net/tcp] and its siblings, the sockets read from it, the
    comparison of two snapshots, the worker that reports each change as an
    event, and the bounded snapshot of all sockets taken as evidence. The files
    are read as ASCII; [reader proto = None] is a read or decoding that raises.
    A snapshot is a dict whose values repeat its keys, so it is modelled by its
    keys in insertion order. *)

From S2P Require Import Prelude Schemas Numerals IpAddr.

Definition PROTOS : list string := ["tcp"; "tcp6"; "udp"; "udp6"]%string.

(** ** [int(s, 16)]

    Blanks around, a sign, an optional [0x], single underscores between the
    digits. [None] is the [ValueError]. *)

Fixpoint int16_digits (s : string) (acc : Z) (prev_us : bool) : option Z :=
  match s with
  | EmptyString => if prev_us then None else Some acc
  | String c s' =>
      match hex_val c with
      | Some v => int16_digits s' (16 * acc + v) false
      | None => if (code c =? 95)%N then if prev_us then None else int16_digits s' acc true else None
      end
  end.
Definition int16_unsigned (s : string) : option Z :=
  match s with
  | String "0" (String c s') =>
      if Ascii.eqb c "x" || Ascii.eqb c "X" then
        match s' with String "_" s'' => int16_digits s'' 0 true | _ => int16_digits s' 0 true end
      else int16_digits s 0 true
  | _ => int16_digits s 0 true
  end.
Definition py_int16 (s : string) : option Z :=
  match strip s with
  | String "+" s' => int16_unsigned s'
  | String "-" s' => Z.opp <$> int16_unsigned s'
  | s' => int16_unsigned s'
  end.

(** [s.upper()] on ASCII. *)
Definition upper_char (c : ascii) : ascii := if is_lower_ascii c then ascii_of_N (code c - 32) else c.
Fixpoint str_upper (s : string) : string :=
  match s with EmptyString => EmptyString | String c s' => String (upper_char c) (str_upper s') end.

(** ** Addresses *)

(** [s[i:i+2]] for [i] in [range(0, 8, 2)]. *)
Definition pairs8 (s : string) : list string :=
  [str_take 2 s; str_take 2 (str_drop 2 s); str_take 2 (str_drop 4 s); str_take 2 (str_drop 6 s)].
Definition word_bytes (s : string) : option (list Z) := mapM py_int16 (pairs8 s).

Definition decode_ipv4 (hexip : string) : option string :=
  octets ← word_bytes hexip; Some (join "." (str_of_Z <$> rev octets)).

(** [bytes] of a value outside a byte raises [ValueError]. *)
Definition byte_ok (b : Z) : bool := (0 <=? b) && (b <? 256).
Definition word_le (s : string) : option (list Z) :=
  bs ← word_bytes s; if forallb byte_ok bs then Some (rev bs) else None.
Definition bytes_value (bs : list Z) : Z := foldl (fun a b => a * 256 + b) 0 bs.

Definition decode_ipv6 (hexip : string) : option string :=
  w0 ← word_le (str_take 8 hexip);
  w1 ← word_le (str_take 8 (str_drop 8 hexip));
  w2 ← word_le (str_take 8 (str_drop 16 hexip));
  w3 ← word_le (str_take 8 (str_drop 24 hexip));
  Some (ipv6_str (bytes_value (w0 ++ w1 ++ w2 ++ w3))).

Definition decode_local_addr (hexaddr : string) : option (string * Z) :=
  match split_on ":" hexaddr with
  | [hex_ip; hex_port] =>
      port ← py_int16 hex_port;
      ip ← (if (String.length hex_ip =? 8)%nat then decode_ipv4 hex_ip else decode_ipv6 hex_ip);
      Some (ip, port)
  | _ => None
  end.

(** ** Snapshots *)

(** [(proto, ip, port)]. *)
Definition Sock : Type := string * string * Z.
Definition Snapshot : Type := list Sock.

(** [d[key] = ...]. *)
Definition put (d : Snapshot) (k : Sock) : Snapshot := if bool_decide (k ∈ d) then d else d ++ [k].

Definition is_udp (proto : string) : bool := String.eqb proto "udp" || String.eqb proto "udp6".

(** One row after the header: the socket it adds, if any. *)
Definition parse_row (proto : string) (line : string) : option Sock :=
  match split_ws line with
  | _ :: local_addr :: rem_addr :: state :: _ =>
      let local := '(ip, port) ← decode_local_addr local_addr; Some (proto, ip, port) in
      if is_udp proto then
        '(_, rem_port) ← decode_local_addr rem_addr;
        if rem_port =? 0 then local else None
      else if String.eqb (str_upper state) "0A" then local
      else None
  | _ => None
  end.

(** The lines that are not blank, stripped, without the first. *)
Definition body_rows (text : string) : list string :=
  drop 1 (List.filter (fun l => negb (is_empty l)) (strip <$> splitlines text)).

Definition parse_listeners (text proto : string) : Snapshot := foldl put [] (omap (parse_row proto) (body_rows text)).

(** [_snapshot_all]: [None] when a file cannot be read. *)
Definition snapshot_all (reader : string -> option string) : option Snapshot :=
  texts ← mapM (fun p => t ← reader p; Some (t, p)) PROTOS;
  Some (foldl (fun m '(t, p) => foldl put m (parse_listeners t p)) [] texts).

(** ** Changes *)

Inductive Change := listener_added | listener_removed.
#[export] Instance Change_eq_dec : EqDecision Change.
Proof. solve_decision. Defined.
Definition change_value (c : Change) : string :=
  match c with listener_added => "listener_added" | listener_removed => "listener_removed" end.

Definition ChangeRecord : Type := Change * Sock.

(** The order of [(action, proto, ip, port)]. *)
Definition str_lt (a b : string) : Prop := String.le a b /\ a <> b.
#[export] Instance str_lt_dec a b : Decision (str_lt a b).
Proof. unfold str_lt. apply _. Defined.
Definition record_le (a b : ChangeRecord) : Prop :=
  let '(ca, (pa, ia, qa)) := a in
  let '(cb, (pb, ib, qb)) := b in
  str_lt (change_value ca) (change_value cb) \/
  change_value ca = change_value cb /\
  (str_lt pa pb \/ pa = pb /\ (str_lt ia ib \/ ia = ib /\ qa <= qb)).
#[export] Instance record_le_dec a b : Decision (record_le a b).
Proof. destruct a as [? [[? ?] ?]], b as [? [[? ?] ?]]. unfold record_le. apply _. Defined.

Definition diff_listeners (prev curr : Snapshot) : list ChangeRecord :=
  merge_sort record_le
    (((fun k => (listener_added, k)) <$> List.filter (fun k => negb (bool_decide (k ∈ prev))) curr) ++
     ((fun k => (listener_removed, k)) <$> List.filter (fun k => negb (bool_decide (k ∈ curr))) prev)).

(** ** The source *)

Record Source := mkSource { so_closed : bool; so_snapshot : Snapshot }.

Definition new_source (reader : string -> option string) : option Source := mkSource false <$> snapshot_all reader.

(** A poll of a closed source raises [RuntimeError]; one whose read raises
    leaves the snapshot as it was. *)
Definition poll (reader : string -> option string) (s : Source) : option (list ChangeRecord) * Source :=
  if so_closed s then (None, s)
  else
    match snapshot_all reader with
    | None => (None, s)
    | Some curr => (Some (diff_listeners (so_snapshot s) curr), mkSource false curr)
    end.
Definition close (s : Source) : Source := mkSource true (so_snapshot s).

(** ** The worker *)

Definition transport (proto : string) : string := if startswith "tcp" proto then "tcp" else "udp".

Definition record_args (host_name : string) (ts : Z) (r : ChangeRecord) : EventArgs :=
  let '(c, (proto, ip, port)) := r in
  let where_ := ip +:+ ":" +:+ str_of_Z port +:+ "/" +:+ transport proto in
  let b := event_args "listening_socket_snapshotter" (change_value c) ["network"]%string
             (match c with listener_added => ["start"] | listener_removed => ["end"] end)%string "info" in
  {| a_module := a_module b; a_action := a_action b; a_category := a_category b; a_type := a_type b;
     a_severity := a_severity b; a_kind := a_kind b;
     a_host := Some [("name"%string, PStr host_name)]; a_outcome := None;
     a_message := Some ("listening socket " +:+ where_ +:+
                        match c with listener_added => " opened" | listener_removed => " closed" end)%string;
     a_process := None; a_file := None; a_user := None;
     a_source := Some [("ip", PStr ip); ("port", PInt port)]%string; a_destination := None;
     a_network := Some [("transport", PStr (transport proto)); ("direction", PStr "ingress")]%string;
     a_service := None; a_package := None; a_device := None; a_persistence := None; a_vulnerability := None;
     a_hunt := None; a_threat := None; a_raw := Some [("source"%string, PStr ("/proc/net/" +:+ proto))];
     a_labels := Some ["listener"%string]; a_ts := Some ts; a_first_seen := false |}.

(** [stamp] gives each event its time and id. *)
Definition record_to_event (host_name : string) (stamp : ChangeRecord -> Z * string) (r : ChangeRecord) : option Event :=
  build_event (stamp r).1 (stamp r).2 (record_args host_name (stamp r).1 r).

Record ListenerWorker := mkListenerWorker { lw_stream : option Source }.

(** [start]: [None] when the first snapshot raises. *)
Definition start (reader : string -> option string) : option ListenerWorker :=
  s ← new_source reader; Some (mkListenerWorker (Some s)).

(** [step]: the events written; [None] is an exception. *)
Definition step (host_name : string) (reader : string -> option string) (stamp : ChangeRecord -> Z * string)
    (w : ListenerWorker) : option (list Event) * ListenerWorker :=
  match lw_stream w with
  | None => (None, w)
  | Some s =>
      let '(records, s') := poll reader s in
      (match records with
       | Some rs => Some (omap (record_to_event host_name stamp) rs)
       | None => None
       end, mkListenerWorker (Some s'))
  end.

Definition stop (w : ListenerWorker) : ListenerWorker := mkListenerWorker None.

(** The loop of [main]: an exception ends it. Each round has what the reader
    then returns and the stamps of its events. *)
Fixpoint main_loop (host_name : string) (rounds : list ((string -> option string) * (ChangeRecord -> Z * string)))
    (w : ListenerWorker) : list Event :=
  match rounds with
  | [] => []
  | (reader, stamp) :: rest =>
      match step host_name reader stamp w with
      | (Some events, w') => events ++ main_loop host_name rest w'
      | (None, _) => []
      end
  end.

(** ** The evidence snapshot *)

Definition MAX_ROWS : nat := 4096.
Definition STATE_NAMES (st : string) : string :=
  if String.eqb st "0A" then "listen" else if String.eqb st "01" then "established" else st.

Record SocketRow := mkSocketRow {
  sk_proto : string; sk_local : string * Z; sk_remote : string * Z; sk_state : string;
}.
Record NetSnapshot := mkNetSnapshot { ns_truncated : bool; ns_sockets : list SocketRow }.

Definition socket_row (proto line : string) : option SocketRow :=
  match split_ws line with
  | _ :: local_addr :: rem_addr :: state :: _ =>
      local ← decode_local_addr local_addr;
      remote ← decode_local_addr rem_addr;
      Some (mkSocketRow proto local remote (STATE_NAMES (str_upper state)))
  | _ => None
  end.

(** The rows of one file: a row met when the bound is reached truncates. *)
Fixpoint collect_rows (proto : string) (lines : list string) (acc : NetSnapshot) : NetSnapshot :=
  match lines with
  | [] => acc
  | l :: rest =>
      if (MAX_ROWS <=? length (ns_sockets acc))%nat then mkNetSnapshot true (ns_sockets acc)
      else
        collect_rows proto rest
          (match socket_row proto l with
           | Some r => mkNetSnapshot (ns_truncated acc) (ns_sockets acc ++ [r])
           | None => acc
           end)
  end.

(** A file that cannot be read is skipped. *)
Definition network_snapshot (reader : string -> option string) : NetSnapshot :=
  foldl (fun acc p =>
           if ns_truncated acc then acc
           else match reader p with None => acc | Some text => collect_rows p (body_rows text) acc end)
    (mkNetSnapshot false []) PROTOS.
