(* ===== verification/ListenersProofs.v ===== *)
(** * The snapshotter reports the sockets of the kernel

    The kernel writes an address as its 32-bit words in host byte order; what
    is read from such text are exactly the listening sockets
    ([listeners_read_back]). The events of the worker, projected, give a table
    of the sockets that listen now and did not listen all along
    ([listener_table_follows]). The evidence snapshot is bounded
    ([net_snapshot_bounded]). *)

From S2P Require Import Prelude Schemas Tables RuleEval Alerts Projector Numerals IpAddr IpAddrProofs Listeners.

(** ** What the kernel writes *)

(** [%02X] and [%04X]. *)
Definition HEX (d : Z) : ascii := ascii_of_N (Z.to_N (if d <? 10 then 48 + d else 55 + d)).
Definition hex2 (b : Z) : string := String (HEX (b / 16)) (String (HEX (b mod 16)) EmptyString).
Definition hex4 (p : Z) : string := hex2 (p / 256) +:+ hex2 (p mod 256).

(** [%08X] of a 32-bit word in host (little-endian) byte order. *)
Definition enc_word (z : Z) : string :=
  hex2 (z mod 256) +:+ hex2 (z / 2 ^ 8 mod 256) +:+ hex2 (z / 2 ^ 16 mod 256) +:+ hex2 (z / 2 ^ 24).

Inductive Address := A4 (z : Z) | A6 (z : Z).
Definition address_ok (a : Address) : Prop :=
  match a with A4 z => 0 <= z < 2 ^ 32 | A6 z => 0 <= z < 2 ^ 128 end.
Definition enc_address (a : Address) : string :=
  match a with
  | A4 z => enc_word z
  | A6 z => enc_word (z / 2 ^ 96) +:+ enc_word (z / 2 ^ 64 mod 2 ^ 32) +:+ enc_word (z / 2 ^ 32 mod 2 ^ 32) +:+ enc_word (z mod 2 ^ 32)
  end.
Definition enc_endpoint (a : Address) (p : Z) : string := enc_address a +:+ String ":" (hex4 p).
Definition address_text (a : Address) : string := match a with A4 z => ipv4_str z | A6 z => ipv6_str z end.

(** The text names this address. *)
Definition names (text : string) (a : Address) : Prop :=
  match a with A4 z => ipv4_parse text = Some z | A6 z => ipv6_parse text = Some z end.

Lemma address_text_names (a : Address) : address_ok a -> names (address_text a) a.
Proof. destruct a; [apply ipv4_reads|apply ipv6_reads]. Qed.

(** ** Decoding *)

Lemma HEX_val (d : Z) : 0 <= d < 16 -> hex_val (HEX d) = Some d.
Proof.
  intros Hd. assert (d = 0 \/ d = 1 \/ d = 2 \/ d = 3 \/ d = 4 \/ d = 5 \/ d = 6 \/ d = 7 \/ d = 8 \/ d = 9 \/ d = 10 \/
    d = 11 \/ d = 12 \/ d = 13 \/ d = 14 \/ d = 15) as H by lia.
  repeat destruct H as [->|H]; try done. by subst.
Qed.

(** A hexadecimal digit is no blank, sign, colon or [x]. *)
Definition hex_char (c : ascii) : bool := bool_decide (is_Some (hex_val c)).
Lemma hex_char_facts (c : ascii) :
  hex_char c = true -> py_space c = false /\ Ascii.eqb c "+" = false /\ Ascii.eqb c "-" = false /\
    Ascii.eqb c "x" = false /\ Ascii.eqb c "X" = false /\ Ascii.eqb c ":" = false.
Proof. destruct c as [[] [] [] [] [] [] [] []]; vm_compute; try discriminate; intros _; split_and!; reflexivity. Qed.

Lemma hex_text (s : string) : str_forall hex_char s = true ->
  strip s = s /\ str_forall (fun d => negb (Ascii.eqb d ":")) s = true.
Proof.
  intros H. assert (Hp : str_forall (fun c => negb (py_space c)) s = true).
  { eapply str_forall_impl; [|exact H]. intros c Hc. destruct (hex_char_facts c Hc) as (-> & _). done. }
  split.
  - unfold strip. assert (lstrip s = s) as ->.
    { destruct s as [|c s]; [done|]. simpl in *. apply andb_prop in Hp as [Hc%negb_true_iff _]. by rewrite Hc. }
    clear H. induction s as [|c s IH]; [done|]. simpl in *. apply andb_prop in Hp as [Hc%negb_true_iff Hs].
    rewrite IH, Hc by done. by destruct s.
  - eapply str_forall_impl; [|exact H]. intros c Hc. by destruct (hex_char_facts c Hc) as (_ & _ & _ & _ & _ & ->).
Qed.

Lemma py_int16_hex (s : string) :
  s <> EmptyString -> str_forall hex_char s = true -> py_int16 s = int16_digits s 0 true.
Proof.
  intros Hne H. unfold py_int16. rewrite (proj1 (hex_text s H)). destruct s as [|c s]; [done|].
  simpl in H. apply andb_prop in H as [Hc Hs]. destruct (hex_char_facts c Hc) as (_ & Hp & Hm & _).
  assert (int16_unsigned (String c s) = int16_digits (String c s) 0 true) as Hu.
  { destruct s as [|d s]; [by destruct c as [[] [] [] [] [] [] [] []]|]. simpl in Hs. apply andb_prop in Hs as [Hd _].
    destruct (hex_char_facts d Hd) as (_ & _ & _ & Hx & HX & _). unfold int16_unsigned. rewrite Hx, HX. simpl orb. cbv iota.
    by destruct c as [[] [] [] [] [] [] [] []]. }
  destruct (Ascii.eqb_spec c "+"); [done|]. destruct (Ascii.eqb_spec c "-"); [done|].
  rewrite <- Hu. by destruct c as [[] [] [] [] [] [] [] []].
Qed.

Lemma hex2_chars (b : Z) : 0 <= b < 256 -> str_forall hex_char (hex2 b) = true.
Proof.
  intros Hb. unfold hex2, hex_char. cbn [str_forall]. rewrite !HEX_val by divlia. done.
Qed.
Lemma hex2_reads (b : Z) : 0 <= b < 256 -> py_int16 (hex2 b) = Some b.
Proof.
  intros Hb. rewrite py_int16_hex by (done || by apply hex2_chars). unfold hex2. cbn [int16_digits].
  rewrite !HEX_val by divlia. f_equal. divlia.
Qed.
Lemma hex4_chars (p : Z) : 0 <= p < 2 ^ 16 -> str_forall hex_char (hex4 p) = true.
Proof. intros Hp. unfold hex4. rewrite str_forall_app, !hex2_chars by divlia. done. Qed.
Lemma hex4_reads (p : Z) : 0 <= p < 2 ^ 16 -> py_int16 (hex4 p) = Some p.
Proof.
  intros Hp. rewrite py_int16_hex by (done || by apply hex4_chars). unfold hex4, hex2. cbn [String.append int16_digits].
  rewrite !HEX_val by divlia. f_equal. divlia.
Qed.

Lemma word_reads (z : Z) : 0 <= z < 2 ^ 32 -> word_bytes (enc_word z) = Some (rev (octets z)).
Proof.
  intros Hz. unfold word_bytes.
  change (pairs8 (enc_word z)) with [hex2 (z mod 256); hex2 (z / 2 ^ 8 mod 256); hex2 (z / 2 ^ 16 mod 256); hex2 (z / 2 ^ 24)].
  cbn [mapM]. rewrite !hex2_reads by divlia. done.
Qed.

Lemma enc_word_chars (z : Z) : 0 <= z < 2 ^ 32 -> str_forall hex_char (enc_word z) = true.
Proof. intros Hz. unfold enc_word. rewrite !str_forall_app, !hex2_chars by divlia. done. Qed.
Lemma enc_address_chars (a : Address) : address_ok a -> str_forall hex_char (enc_address a) = true.
Proof.
  destruct a as [z|z]; cbn [address_ok enc_address]; intros Hz; [by apply enc_word_chars|].
  rewrite !str_forall_app, !enc_word_chars by divlia. done.
Qed.

Lemma word_le_reads (z : Z) : 0 <= z < 2 ^ 32 -> word_le (enc_word z) = Some (octets z).
Proof.
  intros Hz. unfold word_le. rewrite word_reads by done. cbn [mbind option_bind].
  rewrite (proj2 (forallb_forall byte_ok (rev (octets z)))).
  - by rewrite List.rev_involutive.
  - intros b Hb%in_rev%list_elem_of_In. pose proof (octets_range z Hz) as Hr. rewrite Forall_forall in Hr.
    specialize (Hr b Hb). unfold byte_ok. apply andb_true_iff. rewrite Z.leb_le, Z.ltb_lt. lia.
Qed.

Lemma decode4 (z : Z) : 0 <= z < 2 ^ 32 -> decode_ipv4 (enc_word z) = Some (ipv4_str z).
Proof. intros Hz. unfold decode_ipv4. rewrite word_reads by done. done. Qed.

Lemma octets_value (z acc : Z) : 0 <= z < 2 ^ 32 -> foldl (fun a b => a * 256 + b) acc (octets z) = acc * 2 ^ 32 + z.
Proof. intros Hz. unfold octets. cbn [foldl]. divlia. Qed.

Lemma decode6 (z : Z) : 0 <= z < 2 ^ 128 -> decode_ipv6 (enc_address (A6 z)) = Some (ipv6_str z).
Proof.
  intros Hz. unfold decode_ipv6. cbn [enc_address].
  set (w0 := z / 2 ^ 96). set (w1 := z / 2 ^ 64 mod 2 ^ 32). set (w2 := z / 2 ^ 32 mod 2 ^ 32). set (w3 := z mod 2 ^ 32).
  change (str_take 8 (enc_word w0 +:+ enc_word w1 +:+ enc_word w2 +:+ enc_word w3)) with (enc_word w0).
  change (str_take 8 (str_drop 8 (enc_word w0 +:+ enc_word w1 +:+ enc_word w2 +:+ enc_word w3))) with (enc_word w1).
  change (str_take 8 (str_drop 16 (enc_word w0 +:+ enc_word w1 +:+ enc_word w2 +:+ enc_word w3))) with (enc_word w2).
  change (str_take 8 (str_drop 24 (enc_word w0 +:+ enc_word w1 +:+ enc_word w2 +:+ enc_word w3))) with (enc_word w3).
  assert (0 <= w0 < 2 ^ 32) by (subst w0; divlia). assert (0 <= w1 < 2 ^ 32) by (subst w1; divlia).
  assert (0 <= w2 < 2 ^ 32) by (subst w2; divlia). assert (0 <= w3 < 2 ^ 32) by (subst w3; divlia).
  rewrite !word_le_reads by done. cbn [mbind option_bind]. f_equal. f_equal.
  unfold bytes_value. rewrite !foldl_app, !octets_value by done. subst w0 w1 w2 w3. divlia.
Qed.

(** An endpoint as the kernel writes it is read back. *)
Lemma endpoint_reads (a : Address) (p : Z) :
  address_ok a -> 0 <= p < 2 ^ 16 -> decode_local_addr (enc_endpoint a p) = Some (address_text a, p).
Proof.
  intros Ha Hp. unfold decode_local_addr, enc_endpoint.
  rewrite split_on_app by (apply hex_text; by apply enc_address_chars).
  rewrite split_on_single by (apply hex_text; by apply hex4_chars).
  rewrite hex4_reads by done. cbn [mbind option_bind].
  destruct a as [z|z].
  - change (String.length (enc_address (A4 z)) =? 8)%nat with true. cbv iota. cbn [enc_address]. by rewrite decode4.
  - change (String.length (enc_address (A6 z)) =? 8)%nat with false. cbv iota. by rewrite decode6.
Qed.

(** ** The sockets of a file *)

Record KernelSock := mkKernelSock {
  k_local : Address; k_port : Z; k_remote : Address; k_rport : Z; k_state : Z;
}.
Definition is_v6 (proto : string) : bool := String.eqb proto "tcp6" || String.eqb proto "udp6".
Definition family_of (proto : string) (a : Address) : Prop :=
  address_ok a /\ match a with A4 _ => is_v6 proto = false | A6 _ => is_v6 proto = true end.
Record sock_ok (proto : string) (s : KernelSock) : Prop := {
  so_local : family_of proto (k_local s);
  so_remote : family_of proto (k_remote s);
  so_ports : 0 <= k_port s < 2 ^ 16 /\ 0 <= k_rport s < 2 ^ 16;
  so_state : 0 <= k_state s < 256;
}.

(** A line of the file: a slot, the endpoints, the state and more columns. *)
Definition kernel_line (s : KernelSock) (line : string) : Prop :=
  exists slot tail, split_ws line =
    slot :: enc_endpoint (k_local s) (k_port s) :: enc_endpoint (k_remote s) (k_rport s) :: hex2 (k_state s) :: tail.

(** The text of [/proc/net/<proto>] when the kernel has these sockets. *)
Definition kernel_text (proto text : string) (socks : list KernelSock) : Prop :=
  Forall (sock_ok proto) socks /\ Forall2 kernel_line socks (body_rows text).

(** TCP in state LISTEN, or UDP with no remote port. *)
Definition listening (proto : string) (s : KernelSock) : bool :=
  if is_udp proto then k_rport s =? 0 else k_state s =? 10.
Definition sock_key (proto : string) (s : KernelSock) : Sock := (proto, address_text (k_local s), k_port s).

Lemma hex2_listen (b : Z) : 0 <= b < 256 -> String.eqb (str_upper (hex2 b)) "0A" = (b =? 10).
Proof.
  intros Hb. assert (forallb (fun n => Bool.eqb (String.eqb (str_upper (hex2 (Z.of_nat n))) "0A") (Z.of_nat n =? 10)) (seq 0 256) = true)
    as H by (vm_compute; reflexivity).
  rewrite forallb_forall in H. specialize (H (Z.to_nat b) ltac:(apply in_seq; lia)). rewrite Z2Nat.id in H by lia.
  by apply eqb_prop in H.
Qed.

Lemma row_reads (proto line : string) (s : KernelSock) :
  sock_ok proto s -> kernel_line s line ->
  parse_row proto line = if listening proto s then Some (sock_key proto s) else None.
Proof.
  intros [[Hl _] [Hr _] [Hp Hrp] Hst] (slot & tail & Hw). unfold parse_row, listening. rewrite Hw.
  rewrite !endpoint_reads by done. cbn [mbind option_bind]. destruct (is_udp proto); [done|]. by rewrite hex2_listen.
Qed.

Lemma rows_read (proto : string) (socks : list KernelSock) (lines : list string) :
  Forall (sock_ok proto) socks -> Forall2 kernel_line socks lines ->
  omap (parse_row proto) lines = sock_key proto <$> List.filter (listening proto) socks.
Proof.
  intros Hok H. induction H as [|s l socks lines Hl _ IH]; [done|]. inversion Hok as [|? ? Hs Hok']; subst.
  cbn [omap list_omap List.filter]. rewrite (row_reads proto l s Hs Hl). destruct (listening proto s); csimpl; by rewrite <- IH.
Qed.

(** Filling a dict. *)
Lemma puts_spec (d : Snapshot) (ks : list Sock) :
  NoDup d -> NoDup (foldl put d ks) /\ forall k, k ∈ foldl put d ks <-> k ∈ d \/ k ∈ ks.
Proof.
  revert d. induction ks as [|x ks IH]; intros d Hd; [set_solver|]. cbn [foldl].
  assert (Hp : NoDup (put d x) /\ forall k, k ∈ put d x <-> k ∈ d \/ k = x).
  { unfold put. case_bool_decide as Hx.
    - split; [done|]. intros k. split; [auto|]. by intros [?| ->].
    - split; [|intros k; rewrite elem_of_app, list_elem_of_singleton; done].
      apply NoDup_app. split_and!; [done| |apply NoDup_singleton]. intros y Hy ->%list_elem_of_singleton. done. }
  destruct (IH (put d x) (proj1 Hp)) as [H1 H2]. split; [done|]. intros k. rewrite H2, (proj2 Hp), elem_of_cons. tauto.
Qed.

Lemma parse_listeners_mem (proto text : string) (socks : list KernelSock) (k : Sock) :
  kernel_text proto text socks ->
  k ∈ parse_listeners text proto <-> exists s, s ∈ socks /\ listening proto s = true /\ k = sock_key proto s.
Proof.
  intros [Hok Hl]. unfold parse_listeners. rewrite (rows_read proto socks) by done.
  rewrite (proj2 (puts_spec [] _ ltac:(constructor))). rewrite list_elem_of_fmap. split.
  - intros [H%elem_of_nil|(s & -> & Hs%list_elem_of_In)]; [done|]. apply filter_In in Hs as [Hs%list_elem_of_In ?]. eauto.
  - intros (s & Hs & Hls & ->). right. exists s. split; [done|]. apply list_elem_of_In, filter_In. split; [by apply list_elem_of_In|done].
Qed.

(** C21. From the text the kernel writes, the snapshotter reads exactly the
    listening sockets (TCP in state LISTEN, UDP with no remote port), each
    once, with its port and a text of its address that reads back as that
    address, for every IPv4 and IPv6 address and every port. *)
Theorem listeners_read_back (proto text : string) (socks : list KernelSock) :
  kernel_text proto text socks ->
  NoDup (parse_listeners text proto) /\
  (forall s, s ∈ socks -> listening proto s = true ->
     exists ip, (proto, ip, k_port s) ∈ parse_listeners text proto /\ names ip (k_local s)) /\
  (forall proto' ip port, (proto', ip, port) ∈ parse_listeners text proto ->
     exists s, s ∈ socks /\ listening proto s = true /\ proto' = proto /\ port = k_port s /\ names ip (k_local s)).
Proof.
  intros Hk. pose proof (fun k => parse_listeners_mem proto text socks k Hk) as Hm. destruct Hk as [Hok _].
  rewrite Forall_forall in Hok. split_and!.
  - apply puts_spec. constructor.
  - intros s Hs Hl. exists (address_text (k_local s)). split; [apply Hm; eauto|].
    apply address_text_names. by apply (so_local _ _ (Hok s Hs)).
  - intros proto' ip port (s & Hs & Hl & [= -> -> ->])%Hm. exists s. split_and!; [done..|].
    apply address_text_names. by apply (so_local _ _ (Hok s Hs)).
Qed.

(** ** Snapshots *)

(** The readers of a host whose kernel has the sockets [socks proto]. *)
Definition kernel_reader (reader : string -> option string) : Prop :=
  forall p, p ∈ PROTOS -> exists text socks, reader p = Some text /\ kernel_text p text socks.

(** The protocol and the form of the address agree. *)
Definition sock_family (k : Sock) : Prop :=
  let '(proto, ip, _) := k in proto ∈ PROTOS /\ contains ":" ip = is_v6 proto.

Lemma ipv6_colon (s : string) (z : Z) : ipv6_parse s = Some z -> contains ":" s = true.
Proof.
  intros H. destruct (contains ":" s) eqn:E; [done|]. exfalso. unfold ipv6_parse in H.
  assert (Hs : str_forall (fun c => negb (Ascii.eqb c ":")) s = true).
  { clear H. induction s as [|c s IH]; [done|]. cbn [contains] in E. apply orb_false_iff in E as [E1 E2]. cbn [str_forall].
    rewrite IH by done. rewrite andb_true_r. cbn [startswith] in E1. rewrite Ascii.eqb_sym. by destruct (Ascii.eqb ":" c). }
  rewrite split_on_single in H by done. by destruct (is_empty s).
Qed.

Lemma address_text_colon (a : Address) : address_ok a -> contains ":" (address_text a) = match a with A4 _ => false | A6 _ => true end.
Proof.
  destruct a as [z|z]; intros Hz; [|by eapply ipv6_colon, ipv6_reads]. apply contains_char_false. cbn [address_text].
  unfold ipv4_str, octets. cbn [fmap list_fmap join]. pose proof (octets_range z Hz) as Hr.
  assert (Hd : forall o, 0 <= o < 256 -> str_forall (fun c => negb (Ascii.eqb c ":")) (str_of_Z o) = true).
  { intros o Ho. apply digits_without; [done|]. apply str_of_nonneg_digits. lia. }
  unfold octets in Hr. rewrite !Forall_cons in Hr. destruct Hr as (? & ? & ? & ? & _).
  rewrite !str_forall_app, !Hd by done. done.
Qed.

(** One file. *)
Lemma file_reads (reader : string -> option string) (p : string) :
  kernel_reader reader -> p ∈ PROTOS -> exists t, reader p = Some t /\ forall k, k ∈ parse_listeners t p -> sock_family k.
Proof.
  intros Hr Hp. destruct (Hr p Hp) as (t & socks & Ht & Hk). exists t. split; [done|].
  intros k (s & Hs & _ & ->)%(parse_listeners_mem p t socks k Hk). destruct Hk as [Hok _]. rewrite Forall_forall in Hok.
  destruct (so_local _ _ (Hok s Hs)) as [Ha Hf]. split; [done|]. rewrite address_text_colon by done. by destruct (k_local s).
Qed.

Lemma files_read (reader : string -> option string) (ps : list string) :
  kernel_reader reader -> (forall p, p ∈ ps -> p ∈ PROTOS) ->
  exists texts, mapM (fun p => t ← reader p; Some (t, p)) ps = Some texts /\
    forall t p k, (t, p) ∈ texts -> k ∈ parse_listeners t p -> sock_family k.
Proof.
  intros Hr. induction ps as [|p ps IH]; intros Hin; [exists []; split; [done|]; intros t p k H; by apply elem_of_nil in H|].
  destruct (file_reads reader p Hr (Hin p ltac:(left))) as (t & Ht & Hk). destruct IH as (texts & He & Hks); [intros; apply Hin; by right|].
  exists ((t, p) :: texts). cbn [mapM]. rewrite Ht. cbn [mbind option_bind]. rewrite He. split; [done|].
  intros t' p' k [[= -> ->]|H]%elem_of_cons; [apply Hk|by apply Hks].
Qed.

Lemma snapshot_reads (reader : string -> option string) :
  kernel_reader reader ->
  exists snap, snapshot_all reader = Some snap /\ NoDup snap /\ forall k, k ∈ snap -> sock_family k.
Proof.
  intros Hr. unfold snapshot_all. destruct (files_read reader PROTOS Hr ltac:(done)) as (texts & -> & Hk).
  cbn [mbind option_bind]. eexists. split; [done|].
  enough (H : forall m : Snapshot, NoDup m -> (forall k, k ∈ m -> sock_family k) ->
    NoDup (foldl (fun m '(t, p) => foldl put m (parse_listeners t p)) m texts) /\
    forall k, k ∈ foldl (fun m '(t, p) => foldl put m (parse_listeners t p)) m texts -> sock_family k).
  { apply H; [constructor|]. intros k H'. by apply elem_of_nil in H'. }
  clear -Hk. induction texts as [|[t p] texts IH]; intros m Hm Hf; [done|]. cbn [foldl].
  destruct (puts_spec m (parse_listeners t p) Hm) as [Hn He]. apply IH; [|done|].
  - intros t' p' k H. apply Hk. by right.
  - intros k [H|H]%He; [by apply Hf|]. by eapply Hk; [left|].
Qed.

(** ** Changes *)

Lemma diff_mem (prev curr : Snapshot) (c : Change) (k : Sock) :
  (c, k) ∈ diff_listeners prev curr <->
  match c with listener_added => k ∈ curr /\ k ∉ prev | listener_removed => k ∈ prev /\ k ∉ curr end.
Proof.
  unfold diff_listeners. rewrite merge_sort_Permutation, elem_of_app, !list_elem_of_fmap.
  assert (Hf : forall (l m : Snapshot), k ∈ List.filter (fun x => negb (bool_decide (x ∈ m))) l <-> k ∈ l /\ k ∉ m).
  { intros l m. rewrite list_elem_of_In, filter_In, <- list_elem_of_In, negb_true_iff, bool_decide_eq_false. done. }
  split.
  - intros [(x & [= -> ->] & Hx)|(x & [= -> ->] & Hx)]; by apply Hf.
  - destruct c; intros H%Hf; [left|right]; eauto.
Qed.

Lemma diff_nodup (prev curr : Snapshot) : NoDup prev -> NoDup curr -> NoDup (diff_listeners prev curr).
Proof.
  intros Hp Hc. unfold diff_listeners. rewrite merge_sort_Permutation. apply NoDup_app. split_and!.
  - apply NoDup_fmap; [by intros ? ? [= ->]|]. by apply NoDup_ListNoDup, List.NoDup_filter, NoDup_ListNoDup.
  - intros x (y & -> & _)%list_elem_of_fmap (z & [=] & _)%list_elem_of_fmap.
  - apply NoDup_fmap; [by intros ? ? [= ->]|]. by apply NoDup_ListNoDup, List.NoDup_filter, NoDup_ListNoDup.
Qed.

(** ** The table *)

Section Table.
Context (host_name : string) (col : pyval -> string).
Hypothesis col_str : forall s, col (PStr s) = s.
Hypothesis col_int : forall z, col (PInt z) = str_of_Z z.

(** The key of the row about a socket. *)
Definition row_key (k : Sock) : string * string * string :=
  let '(proto, ip, port) := k in (ip, str_of_Z port, transport proto).

Lemma row_key_inj (k k' : Sock) : sock_family k -> sock_family k' -> row_key k = row_key k' -> k = k'.
Proof.
  destruct k as [[p i] q], k' as [[p' i'] q']. intros [Hp Hc] [Hp' Hc'] [= -> Hq Ht]. apply str_of_Z_inj in Hq as ->.
  rewrite Hc in Hc'. unfold PROTOS in *. rewrite !elem_of_cons, elem_of_nil in Hp, Hp'.
  destruct Hp as [->|[->|[->|[->|[]]]]], Hp' as [->|[->|[->|[->|[]]]]]; done.
Qed.

(** What the event about a change does to the table. *)
Lemma record_op (stamp : ChangeRecord -> Z * string) (c : Change) (k : Sock) :
  exists e, record_to_event host_name stamp (c, k) = Some e /\
    match c with
    | listener_removed => listener_op col e = TDrop (row_key k)
    | listener_added => exists row, listener_op col e = TUpsert row (listener_upd row) /\ ls_key row = row_key k
    end.
Proof.
  destruct k as [[p i] q]. destruct c; eexists; (split; [reflexivity|]); unfold listener_op; cbn.
  - destruct (contains ":" i); eexists; (split; [reflexivity|]); cbn; unfold listen_key; cbn; by rewrite !col_str, col_int.
  - unfold listen_key. cbn. by rewrite !col_str, col_int.
Qed.

(** The row of a key after a record. *)
Definition after (key : string * string * string) (o : option ListenerRow) (e : Event) : option ListenerRow :=
  key_step ls_key key o (listener_op col e).

Lemma after_record (stamp : ChangeRecord -> Z * string) (c : Change) (k : Sock) (key : string * string * string)
    (o : option ListenerRow) (e : Event) :
  record_to_event host_name stamp (c, k) = Some e ->
  if decide (row_key k = key) then
    match c with listener_added => is_Some (after key o e) | listener_removed => after key o e = None end
  else after key o e = o.
Proof.
  intros He. destruct (record_op stamp c k) as (e' & He' & Hop). rewrite He in He'. injection He' as <-. unfold after.
  destruct c.
  - destruct Hop as (row & -> & Hk). cbn [key_step]. unfold has_key. rewrite Hk.
    destruct (decide (row_key k = key)); [rewrite bool_decide_true by done; by destruct o|by rewrite bool_decide_false].
  - rewrite Hop. cbn [key_step]. by destruct (decide (row_key k = key)); [rewrite bool_decide_true|rewrite bool_decide_false].
Qed.

(** The records of one poll, of which at most one is about the key. *)
Lemma after_records (stamp : ChangeRecord -> Z * string) (key : string * string * string) (rs : list ChangeRecord) (o : option ListenerRow) :
  NoDup rs -> (forall r r', r ∈ rs -> r' ∈ rs -> row_key r.2 = key -> row_key r'.2 = key -> r = r') ->
  let o' := foldl (after key) o (omap (record_to_event host_name stamp) rs) in
  (forall r, r ∈ rs -> row_key r.2 = key -> (is_Some o' <-> r.1 = listener_added)) /\
  ((forall r, r ∈ rs -> row_key r.2 <> key) -> o' = o).
Proof.
  revert o. induction rs as [|[c k] rs IH]; intros o Hnd Hu; [split; [|done]; intros r Hr; by apply elem_of_nil in Hr|].
  apply NoDup_cons in Hnd as [Hni Hnd]. destruct (record_op stamp c k) as (e & He & _).
  cbn [omap list_omap]. rewrite He. cbn [foldl].
  change (list_omap _ _ (record_to_event host_name stamp) rs) with (omap (record_to_event host_name stamp) rs).
  pose proof (after_record stamp c k key o e He) as Ha.
  destruct (IH (after key o e) Hnd ltac:(intros r r' H1 H2; apply Hu; by right)) as [IH1 IH2]. split.
  - intros r [->|Hr]%elem_of_cons Hk; [|by apply IH1]. cbn [fst snd] in *. rewrite decide_True in Ha by done.
    rewrite IH2; [destruct c; [tauto|]; rewrite Ha; split; [by intros [? ?]|done]|].
    intros r' Hr' Hk'. apply Hni. by rewrite (Hu (c, k) r' ltac:(left) ltac:(by right) Hk Hk').
  - intros Hn. rewrite IH2 by (intros r Hr; apply Hn; by right).
    rewrite decide_False in Ha; [done|]. by apply (Hn (c, k)); left.
Qed.

Abbreviation Round := ((string -> option string) * (ChangeRecord -> Z * string))%type.

(** The rounds see these snapshots. *)
Definition rounds_see (rounds : list Round) (snaps : list Snapshot) : Prop :=
  Forall2 (fun r snap => snapshot_all r.1 = Some snap) rounds snaps.

Definition snap_ok (snap : Snapshot) : Prop := NoDup snap /\ forall k, k ∈ snap -> sock_family k.

Lemma unique_record (prev curr : Snapshot) (key : string * string * string) (r r' : ChangeRecord) :
  snap_ok prev -> snap_ok curr -> r ∈ diff_listeners prev curr -> r' ∈ diff_listeners prev curr ->
  row_key r.2 = key -> row_key r'.2 = key -> r = r'.
Proof.
  intros [_ Hp] [_ Hc] Hr Hr' Hk Hk'. destruct r as [c k], r' as [c' k']. cbn [snd] in *.
  apply diff_mem in Hr, Hr'. assert (k = k') as ->.
  { apply row_key_inj; [destruct c; naive_solver|destruct c'; naive_solver|congruence]. }
  f_equal. destruct c, c'; try done; exfalso; tauto.
Qed.

(** One round, seen from a socket and from a key that no socket has. *)
Lemma round_step (prev curr : Snapshot) (stamp : ChangeRecord -> Z * string) (o : option ListenerRow) :
  snap_ok prev -> snap_ok curr ->
  (forall s, sock_family s ->
     let o' := foldl (after (row_key s)) o (omap (record_to_event host_name stamp) (diff_listeners prev curr)) in
     if decide (s ∈ curr) then if decide (s ∈ prev) then o' = o else is_Some o'
     else if decide (s ∈ prev) then o' = None else o' = o) /\
  (forall key, (forall s, s ∈ prev ++ curr -> row_key s <> key) ->
     foldl (after key) o (omap (record_to_event host_name stamp) (diff_listeners prev curr)) = o).
Proof.
  intros Hp Hc. pose proof (diff_nodup prev curr (proj1 Hp) (proj1 Hc)) as Hnd. split.
  - intros s Hs. set (key := row_key s).
    destruct (after_records stamp key (diff_listeners prev curr) o Hnd (fun r r' => unique_record prev curr key r r' Hp Hc)) as [H1 H2].
    assert (Hno : (forall c, (c, s) ∉ diff_listeners prev curr) ->
      foldl (after key) o (omap (record_to_event host_name stamp) (diff_listeners prev curr)) = o).
    { intros Hn. apply H2. intros [c k] Hin Hk. apply (Hn c). replace s with k; [done|].
      apply row_key_inj; [|done|done]. apply diff_mem in Hin. destruct Hp as [_ Hp], Hc as [_ Hc]. destruct c; naive_solver. }
    destruct (decide (s ∈ curr)) as [Hin|Hin], (decide (s ∈ prev)) as [Hip|Hip].
    + apply Hno. intros c. rewrite diff_mem. destruct c; tauto.
    + by apply (H1 (listener_added, s)); [apply diff_mem|..].
    + apply eq_None_not_Some. rewrite (H1 (listener_removed, s)); [done|by apply diff_mem|done].
    + apply Hno. intros c. rewrite diff_mem. destruct c; tauto.
  - intros key Hn. apply (after_records stamp key _ o Hnd (fun r r' => unique_record prev curr key r r' Hp Hc)).
    intros [c k] Hr. apply diff_mem in Hr. apply Hn. apply elem_of_app. destruct c; tauto.
Qed.

(** The first round of the loop. *)
Lemma loop_round (prev curr : Snapshot) (reader : string -> option string) (stamp : ChangeRecord -> Z * string) (rounds : list Round) :
  snapshot_all reader = Some curr ->
  main_loop host_name ((reader, stamp) :: rounds) (mkListenerWorker (Some (mkSource false prev))) =
  omap (record_to_event host_name stamp) (diff_listeners prev curr) ++
  main_loop host_name rounds (mkListenerWorker (Some (mkSource false curr))).
Proof. intros H. cbn [main_loop step lw_stream]. unfold poll. cbn [so_closed]. by rewrite H. Qed.

Lemma loop_sock (s : Sock) (rounds : list Round) (snaps : list Snapshot) (prev : Snapshot) (o : option ListenerRow) (seen : Prop) :
  sock_family s -> snap_ok prev -> Forall snap_ok snaps -> rounds_see rounds snaps ->
  (is_Some o <-> s ∈ prev /\ seen) -> (s ∉ prev -> seen) ->
  is_Some (foldl (after (row_key s)) o (main_loop host_name rounds (mkListenerWorker (Some (mkSource false prev))))) <->
  s ∈ default prev (last snaps) /\ (seen \/ exists snap, snap ∈ snaps /\ s ∉ snap).
Proof.
  intros Hs Hp Hok Hsee. revert prev o seen Hp Hok. induction Hsee as [|[reader stamp] curr rounds snaps Hr _ IH]; intros prev o seen Hp Hok Ho Hseen.
  { cbn. rewrite Ho. split; [tauto|]. intros [? [?|(snap & Hin & _)]]; [done|]. by apply elem_of_nil in Hin. }
  inversion Hok as [|? ? Hcur Hok']; subst. rewrite (loop_round prev curr) by exact Hr. rewrite foldl_app.
  destruct (round_step prev curr stamp o Hp Hcur) as [H1 _]. specialize (H1 s Hs). cbv zeta in H1.
  set (o' := foldl (after (row_key s)) o (omap (record_to_event host_name stamp) (diff_listeners prev curr))) in *.
  rewrite (IH curr o' (seen \/ s ∉ curr) Hcur Hok').
  - assert (default prev (last (curr :: snaps)) = default curr (last snaps)) as ->.
    { rewrite last_cons. by destruct (last snaps). }
    split; intros [? H]; (split; [done|]).
    + destruct H as [[?|?]|(snap & ? & ?)]; [by left|right; exists curr; split; [left|done]|right; exists snap; split; [by right|done]].
    + destruct H as [?|(snap & [->|?]%elem_of_cons & ?)]; [tauto|tauto|right; eauto].
  - destruct (decide (s ∈ curr)), (decide (s ∈ prev)).
    + rewrite H1, Ho. tauto.
    + tauto.
    + rewrite H1. split; [by intros [? ?]|tauto].
    + rewrite H1, Ho. tauto.
  - intros ?. by right.
Qed.

Lemma loop_other (key : string * string * string) (rounds : list Round) (snaps : list Snapshot) (prev : Snapshot) (o : option ListenerRow) :
  snap_ok prev -> Forall snap_ok snaps -> rounds_see rounds snaps ->
  (forall s, s ∈ prev ++ mjoin snaps -> row_key s <> key) ->
  foldl (after key) o (main_loop host_name rounds (mkListenerWorker (Some (mkSource false prev)))) = o.
Proof.
  intros Hp Hok Hsee. revert prev o Hp Hok. induction Hsee as [|[reader stamp] curr rounds snaps Hr _ IH]; intros prev o Hp Hok Hn; [done|].
  inversion Hok as [|? ? Hcur Hok']; subst. rewrite (loop_round prev curr) by exact Hr. rewrite foldl_app.
  destruct (round_step prev curr stamp o Hp Hcur) as [_ H2]. rewrite H2.
  - apply IH; [done..|]. intros s Hs. apply Hn. csimpl. rewrite !elem_of_app in *. tauto.
  - intros s Hs. apply Hn. csimpl. rewrite !elem_of_app in *. tauto.
Qed.
End Table.

Lemma listener_rows (str_other col : pyval -> string) (fromiso : string -> option Z) (varchar : pyval -> option string)
    (boot_id : option string) (es : list Event) :
  let rows := st_listeners (foldl (project str_other col fromiso varchar boot_id) empty_db es) in
  NoDup (keys ls_key rows) /\ forall key, to_map ls_key rows !! key = foldl (after col key) None es.
Proof.
  rewrite (project_rows str_other col fromiso varchar boot_id st_listeners ls_key (listener_op col))
    by (intros; apply project_listeners).
  destruct (run_ops_keys ls_key (listener_op col <$> es)) as [H1 H2].
  { apply Forall_fmap, Forall_forall. intros e _. apply (ct_ok (row := listener_of col)). }
  split; [done|]. intros key. cbn [st_listeners empty_db]. rewrite H2.
  clear. generalize (@None ListenerRow). induction es as [|e es IH]; intros o; [done|]. apply IH.
Qed.

(** C20. While the kernel's files can be read, the projected listener table
    holds exactly one row per socket that listens at the last poll and did not
    at some earlier snapshot since the worker started, whatever came and went
    between; a row for anything else never stays. *)
Theorem listener_table_follows (str_other col : pyval -> string) (fromiso : string -> option Z)
    (varchar : pyval -> option string) (boot_id : option string) (host_name : string)
    (reader : string -> option string) (rounds : list ((string -> option string) * (ChangeRecord -> Z * string))) :
  (forall s, col (PStr s) = s) -> (forall z, col (PInt z) = str_of_Z z) ->
  kernel_reader reader -> Forall (fun r => kernel_reader r.1) rounds ->
  exists w base snaps, start reader = Some w /\ snapshot_all reader = Some base /\ rounds_see rounds snaps /\
    let now := default base (last snaps) in
    let rows := st_listeners (foldl (project str_other col fromiso varchar boot_id) empty_db (main_loop host_name rounds w)) in
    NoDup (keys ls_key rows) /\
    (forall s, sock_family s ->
       is_Some (to_map ls_key rows !! row_key s) <-> s ∈ now /\ exists snap, snap ∈ base :: snaps /\ s ∉ snap) /\
    (forall key, is_Some (to_map ls_key rows !! key) -> exists s, row_key s = key /\ s ∈ now).
Proof.
  intros Hcs Hci Hr Hrs. destruct (snapshot_reads reader Hr) as (base & Hb & Hbok).
  assert (exists snaps, rounds_see rounds snaps /\ Forall snap_ok snaps) as (snaps & Hsee & Hok).
  { clear Hr Hb Hbok. induction Hrs as [|r rounds Hr _ (snaps & Hsee & Hok)]; [exists []; split; constructor|].
    destruct (snapshot_reads r.1 Hr) as (snap & Hs & Hsok). exists (snap :: snaps). split; constructor; done. }
  exists (mkListenerWorker (Some (mkSource false base))), base, snaps.
  assert (start reader = Some (mkListenerWorker (Some (mkSource false base)))) as ->.
  { unfold start, new_source. by rewrite Hb. }
  split_and!; [done..|]. intros now rows.
  destruct (listener_rows str_other col fromiso varchar boot_id (main_loop host_name rounds (mkListenerWorker (Some (mkSource false base)))))
    as [Hnd Hmap]. fold rows in Hnd, Hmap.
  assert (Hsock : forall s, sock_family s ->
    is_Some (to_map ls_key rows !! row_key s) <-> s ∈ now /\ exists snap, snap ∈ base :: snaps /\ s ∉ snap).
  { intros s Hs. rewrite Hmap. rewrite (loop_sock host_name col Hcs Hci s rounds snaps base None (s ∉ base)); try done.
    - setoid_rewrite elem_of_cons. unfold now. split; intros [H1 H2]; (split; [done|]).
      + destruct H2 as [?|(snap & ? & ?)]; [exists base; auto|exists snap; auto].
      + destruct H2 as (snap & [->|?] & ?); [by left|right; eauto].
    - split; [by intros [? ?]|tauto]. }
  split_and!; [done..|]. intros key Hkey.
  destruct (decide (Exists (fun s => row_key s = key) (base ++ mjoin snaps))) as [He|He].
  - apply Exists_exists in He as (s & Hs & <-). exists s. split; [done|]. apply Hsock; [|done].
    apply elem_of_app in Hs as [Hs|(snap & Hs & Hin)%list_elem_of_join]; [by apply Hbok|].
    rewrite Forall_forall in Hok. by apply (Hok snap).
  - exfalso. rewrite Hmap, (loop_other host_name col Hcs Hci key rounds snaps base None) in Hkey by
      (done || (intros s Hs Hk; apply He, Exists_exists; eauto)). by destruct Hkey.
Qed.

(** A missing file (there is no [/proc/net/tcp6] when IPv6 is disabled) keeps
    the worker from starting, and ends it when it runs. *)
Lemma missing_file_stops_worker (host_name : string) (reader : string -> option string) (p : string)
    (stamp : ChangeRecord -> Z * string) (w : ListenerWorker) :
  p ∈ PROTOS -> reader p = None -> start reader = None /\ (step host_name reader stamp w).1 = None.
Proof.
  intros Hp Hr. assert (snapshot_all reader = None) as Hs.
  { unfold snapshot_all. enough (forall ps, p ∈ ps -> mapM (fun p => t ← reader p; Some (t, p)) ps = None) as H by by rewrite H.
    clear Hp. induction ps as [|q ps IH]; [by intros ?%elem_of_nil|]. intros [<-|Hin]%elem_of_cons; cbn [mapM]; [by rewrite Hr|].
    rewrite IH by done. by destruct (reader q). }
  unfold start, new_source, step, poll. rewrite Hs. split; [done|]. by destruct (lw_stream w) as [[[] ?]|].
Qed.

(** ** The evidence snapshot *)

Lemma collect_spec (proto : string) (lines : list string) (acc : NetSnapshot) :
  ns_truncated acc = false -> (length (ns_sockets acc) <= MAX_ROWS)%nat ->
  let acc' := collect_rows proto lines acc in
  exists more, ns_sockets acc' = ns_sockets acc ++ more /\ (length (ns_sockets acc') <= MAX_ROWS)%nat /\
    (ns_truncated acc' = false -> more = omap (socket_row proto) lines) /\
    (ns_truncated acc' = true -> length (ns_sockets acc') = MAX_ROWS).
Proof.
  revert acc. induction lines as [|l lines IH]; intros acc Ht Hl; cbn [collect_rows].
  { exists []. rewrite app_nil_r. split_and!; [done..|congruence]. }
  destruct (MAX_ROWS <=? length (ns_sockets acc))%nat eqn:E.
  { apply Nat.leb_le in E. exists []. cbn [ns_sockets ns_truncated]. rewrite app_nil_r. split_and!; [done..|lia]. }
  apply Nat.leb_gt in E. cbn [omap list_omap]. destruct (socket_row proto l) as [r|]; [|by apply IH].
  destruct (IH (mkNetSnapshot (ns_truncated acc) (ns_sockets acc ++ [r])) Ht) as (more & H1 & H2 & H3 & H4).
  { cbn [ns_sockets]. rewrite length_app. simpl length. lia. }
  exists (r :: more). rewrite H1 in *. cbn [ns_sockets] in *. rewrite <- app_assoc in *. split_and!; [done..| |done].
  intros Hf. by rewrite H3.
Qed.

(** The snapshot has at most 4096 sockets; when it is not marked truncated it
    has every row of every readable file, in order. *)
Lemma net_snapshot_bounded (reader : string -> option string) :
  let s := network_snapshot reader in
  (length (ns_sockets s) <= MAX_ROWS)%nat /\
  (ns_truncated s = false ->
   ns_sockets s = mjoin ((fun p => match reader p with Some t => omap (socket_row p) (body_rows t) | None => [] end) <$> PROTOS)) /\
  (ns_truncated s = true -> length (ns_sockets s) = MAX_ROWS).
Proof.
  set (f := fun p => match reader p with Some t => omap (socket_row p) (body_rows t) | None => [] end).
  set (g := fun acc p => if ns_truncated acc then acc
     else match reader p with None => acc | Some text => collect_rows p (body_rows text) acc end).
  enough (H : forall ps acc, (length (ns_sockets acc) <= MAX_ROWS)%nat -> (ns_truncated acc = true -> length (ns_sockets acc) = MAX_ROWS) ->
    let s := foldl g acc ps in
    (length (ns_sockets s) <= MAX_ROWS)%nat /\
    (ns_truncated s = false -> ns_truncated acc = false /\ ns_sockets s = ns_sockets acc ++ mjoin (f <$> ps)) /\
    (ns_truncated s = true -> length (ns_sockets s) = MAX_ROWS)).
  { destruct (H PROTOS (mkNetSnapshot false [])) as (H1 & H2 & H3); [simpl; unfold MAX_ROWS; lia|done|].
    split_and!; [exact H1| |exact H3]. intros Hf. by destruct (H2 Hf) as [_ E]. }
  induction ps as [|p ps IH]; intros acc Hl Ht; cbn [foldl].
  { split_and!; [done| |done]. intros Hf. by rewrite app_nil_r. }
  assert (Hg : (length (ns_sockets (g acc p)) <= MAX_ROWS)%nat /\
    (ns_truncated (g acc p) = false -> ns_truncated acc = false /\ ns_sockets (g acc p) = ns_sockets acc ++ f p) /\
    (ns_truncated (g acc p) = true -> length (ns_sockets (g acc p)) = MAX_ROWS)).
  { unfold g, f. destruct (ns_truncated acc) eqn:E; [rewrite E; split_and!; [done|done|]; by intros _; apply Ht|].
    destruct (reader p) as [t|]; [|rewrite E; split_and!; [done| |done]; intros _; by rewrite app_nil_r].
    destruct (collect_spec p (body_rows t) acc E Hl) as (more & H1 & H2 & H3 & H4). split_and!; [done| |done].
    intros Hf. split; [done|]. by rewrite H1, H3. }
  destruct Hg as (G1 & G2 & G3). destruct (IH (g acc p) G1 G3) as (I1 & I2 & I3). split_and!; [done| |done].
  intros Hf. destruct (I2 Hf) as [Hg Hs]. destruct (G2 Hg) as [Ha Hs']. split; [done|]. csimpl. by rewrite Hs, Hs', app_assoc.
Qed.

(** ** Witnesses *)

Module ListenExample.
Definition lf : string := String newline EmptyString.
Definition header : string := "  sl  local_address rem_address   st tx_queue rx_queue".
Definition sshd : string := "   0: 00000000:0016 00000000:0000 0A 00000000:00000000 00:00000000 00000000".
Definition web : string := "   1: 0100007F:1F90 00000000:0000 0A 00000000:00000000 00:00000000 00000000".
Definition reader (tcp : list string) (p : string) : option string :=
  Some (join lf (header :: if String.eqb p "tcp" then tcp else [])).
Definition sock (z p : Z) : KernelSock := mkKernelSock (A4 z) p (A4 0) 0 10.
Definition socks : list KernelSock := [sock 0 22; sock 2130706433 8080].
Definition key (ip : string) (p : Z) : Sock := ("tcp"%string, ip, p).
Definition stamp (r : ChangeRecord) : Z * string := (0, "id"%string).
Definition col (v : pyval) : string :=
  match v with PStr s => s | PInt z => str_of_Z z | _ => EmptyString end.
Definition rounds : list ((string -> option string) * (ChangeRecord -> Z * string)) := [(reader [sshd; web], stamp)].
Definition table : list ListenerRow :=
  match start (reader [sshd]) with
  | Some w => st_listeners (foldl (project (fun _ => EmptyString) col (fun _ => None) (fun _ => None) None) empty_db
                              (main_loop "h" rounds w))
  | None => []
  end.
End ListenExample.

Lemma example_text : kernel_text "tcp" (default EmptyString (ListenExample.reader [ListenExample.sshd; ListenExample.web] "tcp")) ListenExample.socks.
Proof.
  split; [repeat constructor; done|].
  assert (body_rows (default EmptyString (ListenExample.reader [ListenExample.sshd; ListenExample.web] "tcp")) =
          [strip ListenExample.sshd; strip ListenExample.web]) as -> by (vm_compute; reflexivity).
  repeat constructor; do 2 eexists; vm_compute; reflexivity.
Qed.

Lemma example_reader (tcp : list string) (socks : list KernelSock) :
  kernel_text "tcp" (join ListenExample.lf (ListenExample.header :: tcp)) socks -> kernel_reader (ListenExample.reader tcp).
Proof.
  intros Ht p Hp. unfold PROTOS in Hp. rewrite !elem_of_cons, elem_of_nil in Hp.
  destruct Hp as [->|[->|[->|[->|[]]]]]; [by eexists _, socks|..]; eexists _, []; (split; [reflexivity|]); split;
    try constructor; (assert (body_rows ListenExample.header = []) as -> by (vm_compute; reflexivity)); constructor.
Qed.

(** The socket that listened when the worker started has no row. *)
Lemma startup_listener_missing :
  snapshot_all (ListenExample.reader [ListenExample.sshd; ListenExample.web]) =
    Some [ListenExample.key "0.0.0.0" 22; ListenExample.key "127.0.0.1" 8080] /\
  ls_key <$> ListenExample.table = [row_key (ListenExample.key "127.0.0.1" 8080)].
Proof. split; vm_compute; reflexivity. Qed.

Lemma listeners_read_back_witness :
  exists ip, ("tcp"%string, ip, 22) ∈ parse_listeners
      (default EmptyString (ListenExample.reader [ListenExample.sshd; ListenExample.web] "tcp")) "tcp" /\ names ip (A4 0).
Proof.
  destruct (listeners_read_back "tcp" _ ListenExample.socks example_text) as (_ & H & _).
  exact (H (ListenExample.sock 0 22) ltac:(left) eq_refl).
Defined.

Lemma listener_table_follows_witness :
  exists w base snaps, start (ListenExample.reader [ListenExample.sshd]) = Some w /\
    snapshot_all (ListenExample.reader [ListenExample.sshd]) = Some base /\ rounds_see ListenExample.rounds snaps.
Proof.
  destruct (listener_table_follows (fun _ => EmptyString) ListenExample.col (fun _ => None) (fun _ => None) None "h"
              (ListenExample.reader [ListenExample.sshd]) ListenExample.rounds) as (w & base & snaps & H1 & H2 & H3 & _).
  - reflexivity.
  - reflexivity.
  - apply (example_reader _ [ListenExample.sock 0 22]). split; [repeat constructor; done|].
    assert (body_rows (join ListenExample.lf [ListenExample.header; ListenExample.sshd]) = [strip ListenExample.sshd])
      as -> by (vm_compute; reflexivity).
    repeat constructor; do 2 eexists; vm_compute; reflexivity.
  - constructor; [|constructor]. apply (example_reader _ ListenExample.socks). exact example_text.
  - exists w, base, snaps. split; [exact H1|]. split; [exact H2|exact H3].
Defined.
