(* ===== verification/Services.v ===== *)
(** * The services monitor and the kernel module watcher
      ([inspectord/workers/services_monitor], [workers/kmod_watcher])

    Two workers that compare successive snapshots: the units [systemctl] lists
    and the modules of [/proc/modules]. What [systemctl] and the file give at
    each poll are inputs, as are the time and id of each event. *)

From S2P Require Import Prelude Schemas Float64 Json Listeners.
Local Open Scope Z_scope.

(** ** [systemctl] *)

(** How the command ends: not found, another subprocess error (such as a
    timeout), or an exit code with output. *)
Inductive CommandResult := NotFound | SubprocessError | Exited (returncode : Z) (stdout : string).

Definition capture_units (r : CommandResult) : string :=
  match r with
  | Exited 0 stdout => stdout
  | _ => EmptyString
  end.

Record UnitInfo := mkUnitInfo { ui_active : string; ui_sub : string; ui_load : string }.
#[export] Instance UnitInfo_eq_dec : EqDecision UnitInfo.
Proof. solve_decision. Defined.
Abbreviation Units := (list (string * UnitInfo)).

(** The text of a field, [EmptyString] when it is missing. *)
Definition field_text (k : string) (item : dict) : option string :=
  match dict_lookup k item with
  | None => Some EmptyString
  | Some (PStr s) => Some s
  | Some _ => None
  end.

Inductive Item := SkipItem | UnitItem (name : string) (info : UnitInfo) | OtherItem.

(** [OtherItem]: a name or a state that is no text. *)
Definition read_item (v : pyval) : Item :=
  match v with
  | PDict item =>
      let u := dict_get "unit" item in
      if negb (truthy u) then SkipItem
      else
        match u, field_text "active" item, field_text "sub" item, field_text "load" item with
        | PStr name, Some a, Some s, Some l => UnitItem name (mkUnitInfo a s l)
        | _, _, _, _ => OtherItem
        end
  | _ => SkipItem
  end.

Fixpoint read_items (items : list pyval) (acc : Units) : option Units :=
  match items with
  | [] => Some acc
  | v :: rest =>
      match read_item v with
      | SkipItem => read_items rest acc
      | UnitItem name info => read_items rest (od_set name info acc)
      | OtherItem => None
      end
  end.

Section Parse.
Variable float_parse : string -> Q.

(** [None]: the [TypeError] of a document that cannot be iterated, or a name
    or state that is no text ([systemctl] writes texts only; such a document
    is not modelled further). *)
Definition parse_units (text : string) : option Units :=
  if String.eqb (strip text) EmptyString then Some []
  else
    match json_loads float_parse text with
    | None => Some []
    | Some (PList items) => read_items items []
    | Some (PStr _) | Some (PDict _) => Some []
    | Some _ => None
    end.

(** ** Changes *)

Inductive ServiceChange :=
| service_added (unit : string) (now : UnitInfo)
| service_removed (unit : string) (previous : UnitInfo)
| service_state_changed (unit : string) (now previous : UnitInfo).

Definition change_action (c : ServiceChange) : string :=
  match c with
  | service_added _ _ => "service_added"
  | service_removed _ _ => "service_removed"
  | service_state_changed _ _ _ => "service_state_changed"
  end.
Definition change_unit (c : ServiceChange) : string :=
  match c with service_added u _ | service_removed u _ | service_state_changed u _ _ => u end.

Definition change_le (a b : ServiceChange) : Prop :=
  str_lt (change_action a) (change_action b) \/
  change_action a = change_action b /\ String.le (change_unit a) (change_unit b).
#[export] Instance change_le_dec a b : Decision (change_le a b).
Proof. unfold change_le. apply _. Defined.

Definition diff_units (prev curr : Units) : list ServiceChange :=
  merge_sort change_le
    (omap (fun '(u, i) => match od_get u prev with None => Some (service_added u i) | Some _ => None end) curr ++
     omap (fun '(u, i) => match od_get u curr with None => Some (service_removed u i) | Some _ => None end) prev ++
     omap (fun '(u, i) => match od_get u prev with
                          | Some p => if bool_decide (i = p) then None else Some (service_state_changed u i p)
                          | None => None
                          end) curr).

(** ** The source *)

Record ServicesSource := mkServicesSource { sv_units : Units; sv_closed : bool }.

Definition new_services_source (r : CommandResult) : option ServicesSource :=
  units ← parse_units (capture_units r); Some (mkServicesSource units false).

(** [None]: the source is closed, or the text cannot be read. *)
Definition poll_services (r : CommandResult) (s : ServicesSource) : option (list ServiceChange) * ServicesSource :=
  if sv_closed s then (None, s)
  else
    let text := capture_units r in
    if String.eqb text EmptyString then (Some [], s)
    else
      match parse_units text with
      | None => (None, s)
      | Some [] => (Some [], s)
      | Some curr =>
          match sv_units s with
          | [] => (Some [], mkServicesSource curr false)
          | prev => (Some (diff_units prev curr), mkServicesSource curr false)
          end
      end.
Definition close_services (s : ServicesSource) : ServicesSource := mkServicesSource (sv_units s) true.

(** ** The worker *)

Definition with_service (b : EventArgs) (host_name : string) (ts : Z) (service raw : dict) (label message : string) : EventArgs :=
  {| a_module := a_module b; a_action := a_action b; a_category := a_category b; a_type := a_type b;
     a_severity := a_severity b; a_kind := a_kind b;
     a_host := Some [("name"%string, PStr host_name)]; a_outcome := None; a_message := Some message;
     a_process := None; a_file := None; a_user := None; a_source := None; a_destination := None;
     a_network := None; a_service := match service with [] => None | _ => Some service end; a_package := None;
     a_device := None; a_persistence := None; a_vulnerability := None; a_hunt := None; a_threat := None;
     a_raw := Some raw; a_labels := Some [label]; a_ts := Some ts; a_first_seen := false |}.

Definition state_fields (prefix : string) (i : UnitInfo) : dict :=
  [(prefix +:+ "active", PStr (ui_active i)); (prefix +:+ "sub", PStr (ui_sub i));
   (prefix +:+ "load", PStr (ui_load i))]%string.

Definition service_args (host_name : string) (ts : Z) (c : ServiceChange) : EventArgs :=
  let args action type_ := event_args "services_monitor" action ["configuration"] [type_] "info" in
  let src := [("source", PStr "systemctl")] in
  match c with
  | service_added u i =>
      with_service (args "service_added" "installation") host_name ts
        [("name", PStr u); ("state", PStr (ui_active i))] (app src (state_fields EmptyString i)) "service"
        ("service " +:+ u +:+ " appeared (active=" +:+ ui_active i +:+ ", sub=" +:+ ui_sub i +:+
         ", load=" +:+ ui_load i +:+ ")")
  | service_removed u p =>
      with_service (args "service_removed" "deletion") host_name ts
        [("name", PStr u); ("state", PStr (ui_active p))] (app src (state_fields "previous_" p)) "service"
        ("service " +:+ u +:+ " disappeared (was active=" +:+ ui_active p +:+ ", sub=" +:+ ui_sub p +:+ ")")
  | service_state_changed u i p =>
      with_service (args "service_state_changed" "change") host_name ts
        [("name", PStr u); ("state", PStr (ui_active i))]
        (app src (app (state_fields EmptyString i) (state_fields "previous_" p))) "service"
        ("service " +:+ u +:+ " changed: " +:+ ui_active p +:+ "/" +:+ ui_sub p +:+ " -> " +:+
         ui_active i +:+ "/" +:+ ui_sub i)
  end%string.

Definition service_event (host_name : string) (stamp : ServiceChange -> Z * string) (c : ServiceChange) : option Event :=
  build_event (stamp c).1 (stamp c).2 (service_args host_name (stamp c).1 c).

Record ServicesWorker := mkServicesWorker { svw_stream : option ServicesSource }.
Definition start_services (r : CommandResult) : option ServicesWorker :=
  s ← new_services_source r; Some (mkServicesWorker (Some s)).
Definition step_services (host_name : string) (stamp : ServiceChange -> Z * string) (r : CommandResult) (w : ServicesWorker)
  : option (list Event) * ServicesWorker :=
  match svw_stream w with
  | None => (None, w)
  | Some s =>
      let '(cs, s') := poll_services r s in
      (match cs with Some cs => Some (omap (service_event host_name stamp) cs) | None => None end,
       mkServicesWorker (Some s'))
  end.
Definition stop_services (w : ServicesWorker) : ServicesWorker := mkServicesWorker None.

(** The loop of [main]. *)
Fixpoint services_loop (host_name : string) (rounds : list (CommandResult * (ServiceChange -> Z * string))) (w : ServicesWorker)
  : list Event :=
  match rounds with
  | [] => []
  | (r, stamp) :: rest =>
      match step_services host_name stamp r w with
      | (Some es, w') => es ++ services_loop host_name rest w'
      | (None, _) => []
      end
  end.
End Parse.

(** ** Kernel modules *)

Abbreviation Modules := (list (string * (Z * Z))).

(** A line gives a name with its size and reference count. *)
Definition parse_module (line : string) : option (string * (Z * Z)) :=
  match split_ws (strip line) with
  | name :: size :: refcount :: _ => s ← py_int size; r ← py_int refcount; Some (name, (s, r))
  | _ => None
  end.
Definition parse_proc_modules (text : string) : Modules :=
  foldl (fun d '(n, i) => od_set n i d) [] (omap parse_module (splitlines text)).

Inductive ModuleChange := loaded (name : string) (size refcount : Z) | unloaded (name : string).
Definition module_action (c : ModuleChange) : string := match c with loaded _ _ _ => "loaded" | unloaded _ => "unloaded" end.
Definition module_name (c : ModuleChange) : string := match c with loaded n _ _ | unloaded n => n end.
Definition module_le (a b : ModuleChange) : Prop :=
  str_lt (module_action a) (module_action b) \/
  module_action a = module_action b /\ String.le (module_name a) (module_name b).
#[export] Instance module_le_dec a b : Decision (module_le a b).
Proof. unfold module_le. apply _. Defined.

Definition diff_modules (prev curr : Modules) : list ModuleChange :=
  merge_sort module_le
    (omap (fun '(n, (s, r)) => match od_get n prev with None => Some (loaded n s r) | Some _ => None end) curr ++
     omap (fun '(n, _) => match od_get n curr with None => Some (unloaded n) | Some _ => None end) prev).

Record ModulesSource := mkModulesSource { md_snapshot : Modules; md_closed : bool }.

(** [text = None]: reading the file raises. *)
Definition new_modules_source (text : option string) : option ModulesSource :=
  t ← text; Some (mkModulesSource (parse_proc_modules t) false).
Definition poll_modules (text : option string) (s : ModulesSource) : option (list ModuleChange) * ModulesSource :=
  if md_closed s then (None, s)
  else
    match text with
    | None => (None, s)
    | Some t =>
        let curr := parse_proc_modules t in
        (Some (diff_modules (md_snapshot s) curr), mkModulesSource curr false)
    end.
Definition close_modules (s : ModulesSource) : ModulesSource := mkModulesSource (md_snapshot s) true.

Definition module_args (host_name : string) (ts : Z) (c : ModuleChange) : EventArgs :=
  let args action type_ := event_args "kmod_watcher" action ["driver"] [type_] "info" in
  match c with
  | loaded n s r =>
      with_service (args "kmod_loaded" "installation") host_name ts []
        [("source", PStr "/proc/modules"); ("module_name", PStr n); ("module_size", PInt s); ("module_refcount", PInt r)]
        "kmod" ("kernel module " +:+ n +:+ " loaded")
  | unloaded n =>
      with_service (args "kmod_unloaded" "deletion") host_name ts []
        [("source", PStr "/proc/modules"); ("module_name", PStr n)] "kmod" ("kernel module " +:+ n +:+ " unloaded")
  end%string.
Definition module_event (host_name : string) (stamp : ModuleChange -> Z * string) (c : ModuleChange) : option Event :=
  build_event (stamp c).1 (stamp c).2 (module_args host_name (stamp c).1 c).

Record ModulesWorker := mkModulesWorker { mdw_stream : option ModulesSource }.
Definition start_modules (text : option string) : option ModulesWorker :=
  s ← new_modules_source text; Some (mkModulesWorker (Some s)).
Definition step_modules (host_name : string) (stamp : ModuleChange -> Z * string) (text : option string) (w : ModulesWorker)
  : option (list Event) * ModulesWorker :=
  match mdw_stream w with
  | None => (None, w)
  | Some s =>
      let '(cs, s') := poll_modules text s in
      (match cs with Some cs => Some (omap (module_event host_name stamp) cs) | None => None end,
       mkModulesWorker (Some s'))
  end.
Definition stop_modules (w : ModulesWorker) : ModulesWorker := mkModulesWorker None.

Fixpoint modules_loop (host_name : string) (rounds : list (option string * (ModuleChange -> Z * string))) (w : ModulesWorker)
  : list Event :=
  match rounds with
  | [] => []
  | (text, stamp) :: rest =>
      match step_modules host_name stamp text w with
      | (Some es, w') => es ++ modules_loop host_name rest w'
      | (None, _) => []
      end
  end.
