(* ===== verification/ServicesProofs.v ===== *)
(** * What the services monitor and the module watcher report

    The projected service table and the baseline together give the state of
    every unit ([services_table_follows]); the module events, replayed on the
    modules loaded at the start, give the modules loaded now
    ([modules_replay]). *)

From S2P Require Import Prelude Schemas Tables RuleEval Alerts Float64 Json Projector Listeners Services.

(** ** Changes, one per key *)

Section ByKey.
Context {R K O : Type} `{EqDecision K} (key : R -> K) (f : O -> R -> O).

(** Of records with distinct keys only the one with the key counts. *)
Lemma fold_by_key (k : K) (rs : list R) (o : O) :
  (forall o r, r ∈ rs -> key r <> k -> f o r = o) -> NoDup (key <$> rs) ->
  foldl f o rs = match List.find (fun r => bool_decide (key r = k)) rs with Some r => f o r | None => o end.
Proof.
  revert o. induction rs as [|r rs IH]; intros o Hf Hn; [done|]. rewrite fmap_cons in Hn.
  apply NoDup_cons in Hn as [Hr Hn]. cbn [foldl List.find]. rewrite IH; [|intros; apply Hf; [by right|done]|done]. case_bool_decide as Hk.
  - destruct (List.find _ rs) as [r'|] eqn:E; [|done]. apply List.find_some in E as [Hin Hk'%bool_decide_eq_true].
    exfalso. apply Hr. rewrite Hk, <- Hk'. apply list_elem_of_fmap_2. by apply list_elem_of_In.
  - rewrite Hf; [done|left|done].
Qed.

Lemma find_by_key_unique (k : K) (rs : list R) (r : R) :
  NoDup (key <$> rs) -> r ∈ rs -> key r = k -> List.find (fun r => bool_decide (key r = k)) rs = Some r.
Proof.
  intros Hn Hr Hk. destruct (List.find _ rs) as [r'|] eqn:E.
  - apply List.find_some in E as [Hin Hk'%bool_decide_eq_true]. f_equal. apply (NoDup_fmap_eq key rs); [done|by apply list_elem_of_In|done|congruence].
  - eapply List.find_none in E; [|by apply list_elem_of_In]. by apply bool_decide_eq_false in E.
Qed.

(** The records of the entries of a dict that a test picks. *)
Lemma nodup_picked {V} (g : K * V -> option R) (d : list (K * V)) :
  (forall p r, g p = Some r -> key r = p.1) -> NoDup d.*1 -> NoDup (key <$> omap g d).
Proof.
  intros Hg. induction d as [|p d IH]; [constructor|]. rewrite fmap_cons. intros [Hp Hd]%NoDup_cons. cbn [omap list_omap].
  destruct (g p) as [r|] eqn:E; [|by apply IH]. rewrite fmap_cons. apply NoDup_cons. split; [|by apply IH].
  rewrite (Hg p r E). intros (r' & Hk & (q & Hq & Hgq)%list_elem_of_omap)%list_elem_of_fmap. apply Hp.
  rewrite Hk, (Hg q r' Hgq). by apply list_elem_of_fmap_2.
Qed.
End ByKey.

(** A fold over events is a fold over the changes they are about. *)
Lemma fold_events {C E O} (ev : C -> option E) (f : O -> E -> O) (cs : list C) (o : O) :
  foldl f o (omap ev cs) = foldl (fun o c => match ev c with Some e => f o e | None => o end) o cs.
Proof.
  revert o. induction cs as [|c cs IH]; intros o; [done|]. cbn [omap list_omap foldl].
  destruct (ev c); cbn [foldl]; apply IH.
Qed.

(** ** Unit changes *)

Section Diff.
Context (prev curr : Units) (Hp : NoDup prev.*1) (Hc : NoDup curr.*1).

Lemma diff_units_mem (c : ServiceChange) :
  c ∈ diff_units prev curr <->
  match c with
  | service_added u i => od_get u curr = Some i /\ od_get u prev = None
  | service_removed u p => od_get u prev = Some p /\ od_get u curr = None
  | service_state_changed u i p => od_get u curr = Some i /\ od_get u prev = Some p /\ i <> p
  end.
Proof using Hp Hc.
  unfold diff_units. rewrite merge_sort_Permutation, !elem_of_app, !list_elem_of_omap. split.
  - intros [([u i] & Hin%od_get_elem & Hg)|[([u i] & Hin%od_get_elem & Hg)|([u i] & Hin%od_get_elem & Hg)]]; try done.
    + destruct (od_get u prev) eqn:E; [done|]. by injection Hg as <-.
    + destruct (od_get u curr) eqn:E; [done|]. by injection Hg as <-.
    + destruct (od_get u prev) as [p|] eqn:E; [|done]. case_bool_decide; [done|]. by injection Hg as <-.
  - destruct c as [u i|u p|u i p].
    + intros [H1 H2]. left. exists (u, i). split; [by apply od_get_elem|]. by rewrite H2.
    + intros [H1 H2]. right; left. exists (u, p). split; [by apply od_get_elem|]. by rewrite H2.
    + intros (H1 & H2 & H3). right; right. exists (u, i). split; [by apply od_get_elem|]. rewrite H2. by rewrite bool_decide_false.
Qed.

Lemma diff_units_nodup : NoDup (change_unit <$> diff_units prev curr).
Proof using Hp Hc.
  unfold diff_units. rewrite merge_sort_Permutation, !fmap_app.
  assert (Hmem : forall (g : string * UnitInfo -> option ServiceChange) (d : Units) x,
    (forall p r, g p = Some r -> change_unit r = p.1) -> x ∈ change_unit <$> omap g d -> exists i r, (x, i) ∈ d /\ g (x, i) = Some r).
  { intros g d x Hg (r & -> & ([u i] & Hq & Hgq)%list_elem_of_omap)%list_elem_of_fmap. exists i, r.
    by rewrite (Hg _ _ Hgq). }
  set (ga := fun '(u, i) => match od_get u prev with None => Some (service_added u i) | Some _ => None end).
  set (gr := fun '(u, i) => match od_get u curr with None => Some (service_removed u i) | Some _ => None end).
  set (gc := fun '(u, i) => match od_get u prev with Some p => if bool_decide (i = p) then None else Some (service_state_changed u i p) | None => None end).
  assert (Ha : forall p r, ga p = Some r -> change_unit r = p.1) by (intros [u i] r; simpl; by destruct (od_get u prev); intros [= <-]).
  assert (Hr : forall p r, gr p = Some r -> change_unit r = p.1) by (intros [u i] r; simpl; by destruct (od_get u curr); intros [= <-]).
  assert (Hg : forall p r, gc p = Some r -> change_unit r = p.1).
  { intros [u i] r. simpl. destruct (od_get u prev); [|done]. case_bool_decide; [done|]. by intros [= <-]. }
  pose proof (fun x => Hmem ga curr x Ha) as Ma. pose proof (fun x => Hmem gr prev x Hr) as Mr. pose proof (fun x => Hmem gc curr x Hg) as Mc.
  clear Hmem. apply NoDup_app. split_and!; [by apply nodup_picked| |].
  - intros x (i & r & _ & Hgx)%Ma. simpl in Hgx. destruct (od_get x prev) eqn:Ex; [done|].
    rewrite elem_of_app. intros [(j & r' & Hy & _)%Mr|(j & r' & _ & Hgy)%Mc].
    + apply od_get_elem in Hy; [congruence|done].
    + simpl in Hgy. by rewrite Ex in Hgy.
  - apply NoDup_app. split_and!; [by apply nodup_picked| |by apply nodup_picked].
    intros x (i & r & _ & Hgx)%Mr (j & r' & Hy & _)%Mc. apply od_get_elem in Hy; [|done].
    simpl in Hgx. by rewrite Hy in Hgx.
Qed.

(** What happened to a unit. *)
Lemma diff_units_find (u : string) :
  List.find (fun c => bool_decide (change_unit c = u)) (diff_units prev curr) =
  match od_get u prev, od_get u curr with
  | None, None => None
  | None, Some i => Some (service_added u i)
  | Some p, None => Some (service_removed u p)
  | Some p, Some i => if bool_decide (i = p) then None else Some (service_state_changed u i p)
  end.
Proof using Hp Hc.
  assert (Hnone : (forall c, c ∈ diff_units prev curr -> change_unit c <> u) ->
    List.find (fun c => bool_decide (change_unit c = u)) (diff_units prev curr) = None).
  { intros H. destruct (List.find _ _) as [c|] eqn:E; [|done]. apply List.find_some in E as [Hin Hk%bool_decide_eq_true].
    by apply list_elem_of_In, H in Hin. }
  destruct (od_get u prev) as [p|] eqn:Ep, (od_get u curr) as [i|] eqn:Ec.
  - case_bool_decide as Hip.
    + apply Hnone. intros c Hin%diff_units_mem <-. destruct c; cbn [change_unit] in *; destruct_and!; congruence.
    + apply (find_by_key_unique change_unit); [apply diff_units_nodup|by apply diff_units_mem|done].
  - apply (find_by_key_unique change_unit); [apply diff_units_nodup|by apply diff_units_mem|done].
  - apply (find_by_key_unique change_unit); [apply diff_units_nodup|by apply diff_units_mem|done].
  - apply Hnone. intros c Hin%diff_units_mem <-. destruct c; cbn [change_unit] in *; destruct_and!; congruence.
Qed.
End Diff.

(** ** The table *)

Definition units_ok (us : Units) : Prop := NoDup us.*1 /\ forall u, u ∈ us.*1 -> u <> EmptyString.

Lemma read_items_ok (items : list pyval) (acc us : Units) :
  units_ok acc -> read_items items acc = Some us -> units_ok us.
Proof.
  revert acc. induction items as [|v items IH]; intros acc Ha; cbn [read_items]; [by intros [= <-]|].
  destruct (read_item v) as [|n i|] eqn:E; [by apply IH| |done]. apply IH. destruct Ha as [Hn He].
  split; [by apply od_set_nodup|]. intros u Hu. rewrite od_set_keys in Hu. unfold read_item in E.
  destruct v as [| | | | | | |item]; try done. destruct (truthy (dict_get "unit" item)) eqn:Et; [|done]. cbn [negb] in E.
  assert (Hne : n <> EmptyString).
  { destruct (dict_get "unit" item) as [| | | |s| | |]; try done.
    destruct (field_text "active" item), (field_text "sub" item), (field_text "load" item); try done.
    injection E as <- _. by destruct s. }
  destruct (decide (n ∈ acc.*1)) as [Hin|Hin] in Hu; [by apply He|].
  apply elem_of_app in Hu as [Hu|Hu]; [by apply He|]. by apply list_elem_of_singleton in Hu as ->.
Qed.

Lemma parse_units_ok (fp : string -> Q) (text : string) (us : Units) : parse_units fp text = Some us -> units_ok us.
Proof.
  assert (H0 : units_ok []) by (split; [constructor|]; intros u H; by apply elem_of_nil in H).
  unfold parse_units. destruct (String.eqb (strip text) EmptyString); [by intros [= <-]|].
  destruct (json_loads fp text) as [[| | | | | |items|]|]; try (by intros [= <-]). by apply read_items_ok.
Qed.

Section Table.
Context (host_name : string) (col : pyval -> string) (float_parse : string -> Q).
Hypothesis col_str : forall s, col (PStr s) = s.

Definition row_info (r : ServiceRow) : pyval * pyval * pyval := (sr_active r, sr_sub r, sr_load r).
Definition info_value (i : UnitInfo) : pyval * pyval * pyval := (PStr (ui_active i), PStr (ui_sub i), PStr (ui_load i)).

Definition after_service (u : string) (o : option ServiceRow) (e : Event) : option ServiceRow :=
  key_step sr_unit u o (service_op col e).

(** What a change does to the row of a unit. *)
Lemma after_change (stamp : ServiceChange -> Z * string) (c : ServiceChange) (u : string) (o : option ServiceRow) :
  change_unit c <> EmptyString ->
  let o' := match service_event host_name stamp c with Some e => after_service u o e | None => o end in
  if decide (change_unit c = u) then
    match c with
    | service_added _ i | service_state_changed _ i _ => row_info <$> o' = Some (info_value i)
    | service_removed _ _ => o' = None
    end
  else o' = o.
Proof.
  intros Hne. unfold after_service, service_event, service_op, unit_of. destruct c as [v i|v p|v i p]; cbn [change_unit] in *;
    (assert (truthy (PStr v) = true) as Ht by (by destruct v)); cbn -[truthy]; rewrite Ht; cbn -[decide]; unfold has_key; cbn -[decide];
    rewrite col_str; destruct (decide (v = u)) as [Hv|Hv];
    first [rewrite bool_decide_true by done | rewrite bool_decide_false by done]; try done; by destruct o.
Qed.

(** One round, seen from a unit. *)
Lemma after_round (stamp : ServiceChange -> Z * string) (prev curr : Units) (u : string) (o : option ServiceRow) :
  units_ok prev -> units_ok curr ->
  let o' := foldl (after_service u) o (omap (service_event host_name stamp) (diff_units prev curr)) in
  match od_get u prev, od_get u curr with
  | None, None => o' = o
  | None, Some i => row_info <$> o' = Some (info_value i)
  | Some _, None => o' = None
  | Some p, Some i => if bool_decide (i = p) then o' = o else row_info <$> o' = Some (info_value i)
  end.
Proof.
  intros [Hpn Hpe] [Hcn Hce]. cbv zeta. rewrite fold_events.
  assert (Hne : forall c, c ∈ diff_units prev curr -> change_unit c <> EmptyString).
  { intros c Hin. apply diff_units_mem in Hin; [|done..]. destruct c; destruct_and!; cbn [change_unit];
      [eapply Hce|eapply Hpe|eapply Hce]; by eapply od_get_Some_mem. }
  set (f := fun o c => match service_event host_name stamp c with Some e => after_service u o e | None => o end).
  rewrite (fold_by_key change_unit f u); [|intros o0 c Hin Hk|by apply diff_units_nodup].
  2: { pose proof (after_change stamp c u o0 (Hne c Hin)) as Ha. cbv zeta in Ha. by rewrite decide_False in Ha. }
  rewrite diff_units_find by done.
  assert (Hin : forall c, List.find (fun c => bool_decide (change_unit c = u)) (diff_units prev curr) = Some c -> change_unit c <> EmptyString).
  { intros c E. apply List.find_some in E as [Hin _]. by apply Hne, list_elem_of_In. }
  rewrite diff_units_find in Hin by done.
  destruct (od_get u prev) as [p|], (od_get u curr) as [i|]; [case_bool_decide; [done|]|..|done];
    match goal with |- context [f o ?c] =>
      pose proof (after_change stamp c u o (Hin c eq_refl)) as Ha; cbv zeta in Ha; cbn [change_unit] in Ha; by rewrite decide_True in Ha
    end.
Qed.

(** ** The loop *)

Abbreviation Round := (CommandResult * (ServiceChange -> Z * string))%type.

(** The units a poll adopts: none when the command fails or lists none. *)
Definition seen (r : Round) : option Units :=
  match parse_units float_parse (capture_units r.1) with Some ((_ :: _) as us) => Some us | _ => None end.
Definition adopt (cur : Units) (r : Round) : Units := default cur (seen r).

(** The first units seen. *)
Definition baseline (first : Units) (rounds : list Round) : Units :=
  match first with [] => default [] (head (omap seen rounds)) | _ => first end.

Lemma seen_ok (r : Round) (us : Units) : seen r = Some us -> units_ok us /\ us <> [].
Proof.
  unfold seen. destruct (parse_units float_parse (capture_units r.1)) as [[|x us']|] eqn:E; try done. intros [= <-].
  split; [by eapply parse_units_ok|done].
Qed.

Abbreviation worker us := (mkServicesWorker (Some (mkServicesSource us false))).

Lemma services_loop_round (cur : Units) (r : CommandResult) (stamp : ServiceChange -> Z * string) (rounds : list Round) :
  parse_units float_parse (capture_units r) <> None ->
  services_loop float_parse host_name ((r, stamp) :: rounds) (worker cur) =
  (match cur, seen (r, stamp) with
   | _ :: _, Some us => omap (service_event host_name stamp) (diff_units cur us)
   | _, _ => []
   end) ++ services_loop float_parse host_name rounds (worker (adopt cur (r, stamp))).
Proof.
  intros Hn. cbn [services_loop step_services svw_stream]. unfold poll_services, adopt, seen. cbn [sv_closed fst sv_units].
  destruct (String.eqb_spec (capture_units r) EmptyString) as [->|Ht]; [by destruct cur|].
  destruct (parse_units float_parse (capture_units r)) as [[|x us]|]; [by destruct cur| |done]. by destruct cur.
Qed.

(** The row of a unit against the baseline and the units listed now. *)
Definition row_agrees (base now : Units) (u : string) (o : option ServiceRow) : Prop :=
  match od_get u now with
  | None => o = None
  | Some i => match o with Some r => row_info r = info_value i | None => od_get u base = Some i end
  end.

Lemma loop_agrees (u : string) (rounds : list Round) (cur base : Units) (o : option ServiceRow) :
  Forall (fun r => parse_units float_parse (capture_units r.1) <> None) rounds -> units_ok cur -> cur <> [] ->
  row_agrees base cur u o ->
  row_agrees base (foldl adopt cur rounds) u
    (foldl (after_service u) o (services_loop float_parse host_name rounds (worker cur))).
Proof.
  intros Hr. revert cur o. induction Hr as [|[r stamp] rounds Hn _ IH]; intros cur o Hok Hne Ho; [done|].
  rewrite services_loop_round by done. rewrite foldl_app. cbn [foldl]. destruct (seen (r, stamp)) as [us|] eqn:Es.
  - destruct (seen_ok _ _ Es) as [Huo Hun]. assert (adopt cur (r, stamp) = us) as -> by (unfold adopt; by rewrite Es).
    destruct cur as [|x cur']; [done|]. apply IH; [done|done|].
    pose proof (after_round stamp (x :: cur') us u o Hok Huo) as Ha. cbv zeta in Ha. unfold row_agrees in *.
    destruct (od_get u (x :: cur')) as [p|], (od_get u us) as [i|].
    + case_bool_decide as Hip; [by rewrite Ha, Hip|]. by destruct (foldl _ _ _) as [row|]; simpl in Ha; simplify_eq.
    + done.
    + by destruct (foldl _ _ _) as [row|]; simpl in Ha; simplify_eq.
    + by rewrite Ha.
  - assert (adopt cur (r, stamp) = cur) as -> by (unfold adopt; by rewrite Es).
    destruct cur as [|x cur']; [done|]. cbn [foldl]. by apply IH.
Qed.

Lemma loop_from_empty (u : string) (rounds : list Round) :
  Forall (fun r => parse_units float_parse (capture_units r.1) <> None) rounds ->
  row_agrees (baseline [] rounds) (foldl adopt [] rounds) u
    (foldl (after_service u) None (services_loop float_parse host_name rounds (worker []))).
Proof.
  intros Hr. induction Hr as [|[r stamp] rounds Hn Hr IH]; [done|]. rewrite services_loop_round by done. cbn [foldl app].
  unfold baseline. cbn [omap list_omap]. destruct (seen (r, stamp)) as [us|] eqn:Es.
  2: { assert (adopt [] (r, stamp) = []) as -> by (unfold adopt; by rewrite Es). exact IH. }
  assert (adopt [] (r, stamp) = us) as -> by (unfold adopt; by rewrite Es).
  destruct (seen_ok _ _ Es) as [Huo Hun]. cbn [default head]. apply loop_agrees; [done..|].
  unfold row_agrees. destruct (od_get u us) eqn:Eu; [exact Eu|done].
Qed.
End Table.

Lemma service_rows (str_other col : pyval -> string) (fromiso : string -> option Z) (varchar : pyval -> option string)
    (boot_id : option string) (es : list Event) :
  let rows := st_services (foldl (project str_other col fromiso varchar boot_id) empty_db es) in
  NoDup (keys sr_unit rows) /\ forall u, to_map sr_unit rows !! u = foldl (after_service col u) None es.
Proof.
  rewrite (project_rows str_other col fromiso varchar boot_id st_services sr_unit (service_op col))
    by (intros; apply project_services).
  destruct (run_ops_keys sr_unit (service_op col <$> es)) as [H1 H2].
  { apply Forall_fmap, Forall_forall. intros e _. apply (ct_ok (row := service_of col)). }
  split; [done|]. intros u. cbn [st_services empty_db]. rewrite H2.
  clear. generalize (@None ServiceRow). induction es as [|e es IH]; intros o; [done|]. apply IH.
Qed.

(** C26. Whatever [systemctl] lists at each poll, and however often it fails,
    the projected service table is right about every unit it has a row for:
    the unit is listed, with the states of the row; a listed unit without a
    row is as the first listing had it, and no row is left of a unit that is
    gone. *)
Theorem services_table_follows (str_other col : pyval -> string) (fromiso : string -> option Z)
    (varchar : pyval -> option string) (boot_id : option string) (host_name : string) (float_parse : string -> Q)
    (first : CommandResult) (rounds : list (CommandResult * (ServiceChange -> Z * string))) :
  (forall s, col (PStr s) = s) -> parse_units float_parse (capture_units first) <> None ->
  Forall (fun r => parse_units float_parse (capture_units r.1) <> None) rounds ->
  exists w units, start_services float_parse first = Some w /\ parse_units float_parse (capture_units first) = Some units /\
    let now := foldl (adopt float_parse) units rounds in
    let base := baseline float_parse units rounds in
    let rows := st_services (foldl (project str_other col fromiso varchar boot_id) empty_db
                               (services_loop float_parse host_name rounds w)) in
    NoDup (keys sr_unit rows) /\
    forall u, match to_map sr_unit rows !! u with
              | Some r => info_value <$> od_get u now = Some (row_info r)
              | None => od_get u now = None \/ od_get u now = od_get u base
              end.
Proof.
  intros Hcs Hf Hr. destruct (parse_units float_parse (capture_units first)) as [units|] eqn:Eu; [|done].
  exists (mkServicesWorker (Some (mkServicesSource units false))), units.
  assert (start_services float_parse first = Some (mkServicesWorker (Some (mkServicesSource units false)))) as ->.
  { unfold start_services, new_services_source. by rewrite Eu. }
  split_and!; [done..|]. intros now base rows.
  destruct (service_rows str_other col fromiso varchar boot_id
              (services_loop float_parse host_name rounds (mkServicesWorker (Some (mkServicesSource units false))))) as [Hnd Hmap].
  fold rows in Hnd, Hmap. split; [done|]. intros u. rewrite Hmap.
  assert (Ha : row_agrees base now u (foldl (after_service col u) None
    (services_loop float_parse host_name rounds (mkServicesWorker (Some (mkServicesSource units false)))))).
  { destruct units as [|x units']; [by apply loop_from_empty|]. apply loop_agrees; [done..|by eapply parse_units_ok|done|].
    unfold row_agrees. destruct (od_get u (x :: units')) eqn:Eg; [exact Eg|done]. }
  unfold row_agrees in Ha. destruct (foldl (after_service col u) None _) as [r|], (od_get u now) as [i|]; try done.
  - cbn. by rewrite Ha.
  - right. by rewrite Ha.
  - by left.
Qed.

Module ServicesExample.
Definition col (v : pyval) : string := match v with PStr s => s | _ => "?" end.
Definition unit_json (name active sub : string) : pyval :=
  PDict [("unit", PStr name); ("load", PStr "loaded"); ("active", PStr active); ("sub", PStr sub)].
Definition listing (us : list pyval) : CommandResult :=
  Exited 0 (default EmptyString (json_dumps (fun _ => EmptyString) (PList us))).
Definition sshd := unit_json "sshd.service" "active" "running".
Definition cron (active sub : string) := unit_json "cron.service" active sub.
Definition stamp (c : ServiceChange) : Z * string := (0%Z, change_unit c).
Definition rounds :=
  [(NotFound, stamp); (listing [sshd; cron "failed" "failed"], stamp); (Exited 1 EmptyString, stamp)].
Definition w : ServicesWorker :=
  default (mkServicesWorker None) (start_services (fun _ => 0%Q) (listing [sshd; cron "active" "running"])).
Definition table : list ServiceRow :=
  st_services (foldl (project (fun _ => EmptyString) col (fun _ => None) (fun _ => None) None) empty_db
                 (services_loop (fun _ => 0%Q) "h" rounds w)).
End ServicesExample.

(** The unit that keeps the state it had at the start has no row, though it
    runs. *)
Lemma steady_service_missing :
  (fun r => (sr_unit r, sr_active r)) <$> ServicesExample.table = [("cron.service"%string, PStr "failed")] /\
  ((fun s => (sv_units s).*1) <$> svw_stream ServicesExample.w) = Some ["sshd.service"; "cron.service"]%string.
Proof. split; vm_compute; reflexivity. Qed.

Lemma services_table_follows_witness :
  exists w units, start_services (fun _ => 0%Q) (ServicesExample.listing [ServicesExample.sshd]) = Some w /\
    units.*1 = ["sshd.service"%string] /\
    forall u, match to_map sr_unit (st_services (foldl (project (fun _ => EmptyString) ServicesExample.col (fun _ => None) (fun _ => None) None) empty_db
                               (services_loop (fun _ => 0%Q) "h" ServicesExample.rounds w))) !! u with
              | Some r => info_value <$> od_get u (foldl (adopt (fun _ => 0%Q)) units ServicesExample.rounds) = Some (row_info r)
              | None => True
              end.
Proof.
  destruct (services_table_follows (fun _ => EmptyString) ServicesExample.col (fun _ => None) (fun _ => None) None "h"
              (fun _ => 0%Q) (ServicesExample.listing [ServicesExample.sshd]) ServicesExample.rounds)
    as (w & units & H1 & H2 & _ & H).
  - reflexivity.
  - vm_compute. discriminate.
  - repeat constructor; vm_compute; discriminate.
  - exists w, units. split; [exact H1|]. split.
    + assert (Some units.*1 = Some ["sshd.service"%string]) as E by (apply (f_equal (fmap (fmap fst))) in H2; cbn in H2; rewrite <- H2; vm_compute; reflexivity).
      by injection E.
    + intros u. specialize (H u). destruct (to_map _ _ !! u); [exact H|exact I].
Defined.

(** ** Kernel modules *)

(** A reader of the events keeps the set of loaded modules. *)
Definition replay_module (s : gset string) (e : Event) : gset string :=
  match dict_get "module_name" (default [] (ev_raw e)) with
  | PStr n => if String.eqb (ev_action e) "kmod_loaded" then {[n]} ∪ s else s ∖ {[n]}
  | _ => s
  end.
Definition change_modules (s : gset string) (c : ModuleChange) : gset string :=
  match c with loaded n _ _ => {[n]} ∪ s | unloaded n => s ∖ {[n]} end.
Definition names (ms : Modules) : gset string := list_to_set ms.*1.

Lemma replay_change (host_name : string) (stamp : ModuleChange -> Z * string) (s : gset string) (c : ModuleChange) :
  match module_event host_name stamp c with Some e => replay_module s e | None => s end = change_modules s c.
Proof. by destruct c. Qed.

Lemma change_modules_elem (n : string) (cs : list ModuleChange) (s : gset string) :
  (forall x y, loaded n x y ∈ cs -> unloaded n ∉ cs) ->
  n ∈ foldl change_modules s cs <-> (n ∈ s /\ unloaded n ∉ cs) \/ exists x y, loaded n x y ∈ cs.
Proof.
  revert s. induction cs as [|c cs IH]; intros s Hn; cbn [foldl].
  - split; [intros H; left; split; [done|apply not_elem_of_nil]|intros [[H _]|(x & y & H)]; [done|by apply elem_of_nil in H]].
  - rewrite IH by (intros x y Hl Hu; apply (Hn x y); by right). destruct c as [m x y|m]; cbn [change_modules]; split.
    + intros [[[->%elem_of_singleton|Hs]%elem_of_union Hu]|(x' & y' & Hl)]; [right; exists x, y; left|left|right; exists x', y'; by right].
      split; [done|]. by intros [?|?]%elem_of_cons.
    + intros [[Hs Hu]|(x' & y' & [[= -> -> ->]|Hl]%elem_of_cons)].
      * left. split; [set_solver|]. intros Hc. apply Hu. by right.
      * left. split; [set_solver|]. intros Hc. apply (Hn x y); [left|by right].
      * right. by exists x', y'.
    + intros [[[Hs Hm%not_elem_of_singleton]%elem_of_difference Hu]|(x & y & Hl)]; [left|right; exists x, y; by right].
      split; [done|]. intros [[= ?]|?]%elem_of_cons; done.
    + intros [[Hs Hu]|(x & y & [?|Hl]%elem_of_cons)]; [left|done|right; by exists x, y].
      split; [apply elem_of_difference; split; [done|]; intros ->%elem_of_singleton; apply Hu; left|].
      intros Hc. apply Hu. by right.
Qed.

(** A round turns the previous modules into the present ones. *)
Lemma diff_modules_replayed (prev curr : Modules) :
  NoDup prev.*1 -> NoDup curr.*1 -> foldl change_modules (names prev) (diff_modules prev curr) = names curr.
Proof.
  intros Hp Hc.
  assert (Hl : forall n, (exists x y, loaded n x y ∈ diff_modules prev curr) <-> n ∈ curr.*1 /\ n ∉ prev.*1).
  { intros n. unfold diff_modules. setoid_rewrite merge_sort_Permutation. setoid_rewrite elem_of_app. setoid_rewrite list_elem_of_omap. split.
    - intros (x & y & [([m [a b]] & Hin & Hg)|([m i] & Hin & Hg)]); [|by destruct (od_get m curr)].
      destruct (od_get m prev) eqn:E; [done|]. injection Hg as -> -> ->. apply od_get_None in E. split; [|done].
      by apply (list_elem_of_fmap_2 fst) in Hin.
    - intros [([m [a b]] & -> & Hin)%list_elem_of_fmap Hn]. exists a, b. left. exists (m, (a, b)). split; [done|].
      apply od_get_None in Hn. cbn in Hn |- *. by rewrite Hn. }
  assert (Hu : forall n, unloaded n ∈ diff_modules prev curr <-> n ∈ prev.*1 /\ n ∉ curr.*1).
  { intros n. unfold diff_modules. rewrite merge_sort_Permutation, elem_of_app, !list_elem_of_omap. split.
    - intros [([m [a b]] & Hin & Hg)|([m i] & Hin & Hg)]; [by destruct (od_get m prev)|].
      destruct (od_get m curr) eqn:E; [done|]. injection Hg as ->. apply od_get_None in E. split; [|done].
      by apply (list_elem_of_fmap_2 fst) in Hin.
    - intros [([m i] & -> & Hin)%list_elem_of_fmap Hn]. right. exists (m, i). split; [done|].
      apply od_get_None in Hn. cbn in Hn |- *. by rewrite Hn. }
  apply set_eq. intros n. rewrite change_modules_elem.
  - unfold names. rewrite Hl, Hu, !elem_of_list_to_set. destruct (decide (n ∈ prev.*1)), (decide (n ∈ curr.*1)); naive_solver.
  - intros x y H1 [? H2]%Hu. destruct (proj1 (Hl n) (ex_intro _ x (ex_intro _ y H1))) as [? ?]. done.
Qed.

Lemma parse_modules_nodup (text : string) : NoDup (parse_proc_modules text).*1.
Proof.
  unfold parse_proc_modules. assert (NoDup (@nil (string * (Z * Z))).*1) as H by constructor. revert H.
  generalize (@nil (string * (Z * Z))). induction (omap parse_module (splitlines text)) as [|[n i] l IH]; intros d Hd; [done|].
  apply IH. by apply od_set_nodup.
Qed.

(** The file as last read, before it could not be read. *)
Fixpoint last_read (text : string) (rounds : list (option string * (ModuleChange -> Z * string))) : string :=
  match rounds with
  | (Some t, _) :: rest => last_read t rest
  | _ => text
  end.

Lemma modules_loop_replayed (host_name : string) (rounds : list (option string * (ModuleChange -> Z * string))) (text : string) :
  foldl replay_module (names (parse_proc_modules text))
    (modules_loop host_name rounds (mkModulesWorker (Some (mkModulesSource (parse_proc_modules text) false)))) =
  names (parse_proc_modules (last_read text rounds)).
Proof.
  revert text. induction rounds as [|[[t|] stamp] rounds IH]; intros text; [done| |done].
  cbn [modules_loop step_modules mdw_stream poll_modules md_closed md_snapshot last_read]. rewrite foldl_app, fold_events.
  rewrite <- (IH t), <- (diff_modules_replayed (parse_proc_modules text) (parse_proc_modules t)) by apply parse_modules_nodup.
  f_equal. generalize (names (parse_proc_modules text)). induction (diff_modules _ _) as [|c cs IHc]; intros o; [done|].
  cbn [foldl]. rewrite replay_change. apply IHc.
Qed.

(** Whatever modules are loaded and unloaded between the polls, the
    events of the module watcher, replayed on the modules of the file at the
    start, give those of the file as last read; a file that cannot be read
    ends the worker with the events so far. *)
Theorem modules_replay (host_name : string) (first : string) (rounds : list (option string * (ModuleChange -> Z * string))) :
  exists w, start_modules (Some first) = Some w /\
    foldl replay_module (names (parse_proc_modules first)) (modules_loop host_name rounds w) =
    names (parse_proc_modules (last_read first rounds)).
Proof. eexists. split; [reflexivity|]. apply modules_loop_replayed. Qed.
