(* ===== verification/WebGuard.v ===== *)
(** * Host and origin guards of the dashboard ([inspectorctl/web/csrf.py],
      [web/app.py])

    Every request passes [AllowedHostMiddleware], and one with an unsafe method
    [SameOriginMiddleware], before it reaches the application. Headers are
    Latin-1 text, as the server hands them on. [urlsplit] and the properties of
    its result are those of CPython 3.12; [_checknetloc] rejects nothing in
    Latin-1, whose compatibility decompositions hold none of [/?#@:]. *)

From S2P Require Import Prelude Numerals IpAddr.

(** ** [urllib.parse.urlsplit] *)

Definition c0_or_space (c : ascii) : bool := (code c <=? 32)%N.
Fixpoint lstrip_c0 (s : string) : string :=
  match s with
  | String c s' => if c0_or_space c then lstrip_c0 s' else s
  | EmptyString => EmptyString
  end.

(** Tab, carriage return and newline are removed wherever they stand. *)
Definition unsafe_url_char (c : ascii) : bool := (code c =? 9)%N || (code c =? 10)%N || (code c =? 13)%N.
Fixpoint remove_unsafe (s : string) : string :=
  match s with
  | String c s' => if unsafe_url_char c then remove_unsafe s' else String c (remove_unsafe s')
  | EmptyString => EmptyString
  end.

Definition scheme_char (c : ascii) : bool :=
  is_alpha_ascii c || is_digit c || (code c =? 43)%N || (code c =? 45)%N || (code c =? 46)%N.

(** [_splitnetloc]: up to the first of [/?#]. *)
Fixpoint split_netloc (s : string) : string * string :=
  match s with
  | EmptyString => (EmptyString, EmptyString)
  | String c s' =>
      if Ascii.eqb c "/" || Ascii.eqb c "?" || Ascii.eqb c "#" then (EmptyString, s)
      else let '(a, b) := split_netloc s' in (String c a, b)
  end.

(** The part after the last [@]. *)
Fixpoint after_at (s : string) : option string :=
  match s with
  | EmptyString => None
  | String c s' =>
      match after_at s' with
      | Some t => Some t
      | None => if Ascii.eqb c "@" then Some s' else None
      end
  end.
Definition host_and_port (netloc : string) : string := default netloc (after_at netloc).

Fixpoint drop_hex (s : string) : string :=
  match s with
  | String c s' => if bool_decide (is_Some (hex_val c)) then drop_hex s' else s
  | EmptyString => EmptyString
  end.

(** [_check_bracketed_host]: IPvFuture, or an IPv6 address. *)
Definition bracketed_host_ok (h : string) : bool :=
  match h with
  | String "v" r =>
      let t := drop_hex r in
      negb (String.eqb t r) && match t with String "." (String _ _) => true | _ => false end
  | _ => match ip_address h with Some (IPv6 _ _) => true | _ => false end
  end.

(** [_check_bracketed_netloc]. *)
Definition bracketed_netloc_ok (netloc : string) : bool :=
  match str_partition "[" (host_and_port netloc) with
  | (before, Some bracketed) =>
      let '(host, rest) := str_partition "]" bracketed in
      is_empty before && (match rest with Some (String c _) => Ascii.eqb c ":" | _ => true end) && bracketed_host_ok host
  | (before, None) => bracketed_host_ok (str_partition ":" before).1
  end.

Record SplitResult := mkSplit {
  url_scheme : string; url_netloc : string; url_path : string; url_query : string; url_fragment : string;
}.

Definition before_char (c : ascii) (s : string) : string * string :=
  match str_partition c s with (a, Some b) => (a, b) | (a, None) => (a, EmptyString) end.

(** [None] is the [ValueError]. *)
Definition urlsplit (url : string) : option SplitResult :=
  let url := remove_unsafe (lstrip_c0 url) in
  let '(scheme, url) :=
    match str_partition ":" url with
    | (String c s, Some rest) =>
        if is_alpha_ascii c && str_forall scheme_char (String c s) then (str_lower (String c s), rest)
        else (EmptyString, url)
    | _ => (EmptyString, url)
    end in
  let tail netloc url :=
    let '(url, fragment) := before_char "#" url in
    let '(path, query) := before_char "?" url in
    Some (mkSplit scheme netloc path query fragment) in
  if startswith "//" url then
    let '(netloc, rest) := split_netloc (str_drop 2 url) in
    let open := contains "[" netloc in
    let close := contains "]" netloc in
    if xorb open close then None
    else if open && negb (bracketed_netloc_ok netloc) then None
    else tail netloc rest
  else tail EmptyString url.

(** [_hostinfo]: an empty port is [None]. *)
Definition hostinfo (netloc : string) : string * option string :=
  let h := host_and_port netloc in
  let '(host, port) :=
    match str_partition "[" h with
    | (_, Some bracketed) =>
        let '(host, rest) := str_partition "]" bracketed in
        (host, match rest with Some r => (str_partition ":" r).2 | None => None end)
    | (_, None) => str_partition ":" h
    end in
  (host, match port with Some p => if is_empty p then None else Some p | None => None end).

(** [hostname]: the zone of a scoped address keeps its case. *)
Definition hostname (p : SplitResult) : option string :=
  let h := (hostinfo (url_netloc p)).1 in
  if is_empty h then None
  else Some (match str_partition "%" h with
             | (a, Some zone) => str_lower a +:+ "%" +:+ zone
             | (a, None) => str_lower a
             end).

(** [port]: the [ValueError] is [None]. *)
Definition port (p : SplitResult) : option (option Z) :=
  match (hostinfo (url_netloc p)).2 with
  | None => Some None
  | Some s =>
      if ascii_digits s then
        match int_unsigned s with
        | Some z => if z <=? 65535 then Some (Some z) else None
        | None => None
        end
      else None
  end.

(** [username] and [password] are both [None] exactly when there is no [@]. *)
Definition has_userinfo (p : SplitResult) : bool := match after_at (url_netloc p) with Some _ => true | None => false end.

(** ** Hosts *)

Definition SAFE_METHODS : list string := ["GET"; "HEAD"; "OPTIONS"]%string.
Definition LOOPBACK_HOST : string := "<loopback>".
Definition MAX_LOG_VALUE : nat := 200.

(** [str.isprintable] on Latin-1. *)
Definition printable_char (c : ascii) : bool :=
  in_range 32 126 c || (in_range 161 255 c && negb (code c =? 173)%N).
Fixpoint clean_chars (s : string) : string :=
  match s with
  | EmptyString => EmptyString
  | String c s' => String (if printable_char c then c else "?"%char) (clean_chars s')
  end.
Definition sanitise_for_log (value : option string) : string :=
  match value with
  | None => "-"
  | Some v =>
      let cleaned := clean_chars v in
      if (MAX_LOG_VALUE <? String.length cleaned)%nat then str_take MAX_LOG_VALUE cleaned +:+ "..." else cleaned
  end.

Definition canonical_host (host : string) : string :=
  let host := str_lower (strip host) in
  let host := if startswith "[" host && endswith "]" host then str_inner host else host in
  if String.eqb host "localhost" || endswith ".localhost" host then LOOPBACK_HOST
  else
    match ip_address host with
    | None => host
    | Some a => if is_loopback a then LOOPBACK_HOST else compressed a
    end.

Fixpoint count_char (c : ascii) (s : string) : nat :=
  match s with
  | EmptyString => 0
  | String d s' => if Ascii.eqb d c then S (count_char c s') else count_char c s'
  end.

Definition canonical_authority_host (authority : string) : option string :=
  let authority := strip authority in
  if is_empty authority then None
  else if (1 <? count_char ":" authority)%nat && negb (startswith "[" authority) then Some (canonical_host authority)
  else
    parts ← urlsplit ("//" +:+ authority);
    _ ← port parts;
    host ← hostname parts;
    if has_userinfo parts || negb (is_empty (url_path parts)) || negb (is_empty (url_query parts)) ||
       negb (is_empty (url_fragment parts))
    then None
    else Some (canonical_host host).

Definition build_allowed_hosts (extra : list string) : list string :=
  LOOPBACK_HOST :: List.filter (fun h => negb (is_empty h)) (omap canonical_authority_host extra).

(** ** Origins *)

Definition DEFAULT_PORTS (scheme : string) : option Z :=
  if String.eqb scheme "http" || String.eqb scheme "ws" then Some 80
  else if String.eqb scheme "https" || String.eqb scheme "wss" then Some 443
  else None.

Definition Origin : Type := string * string * Z.

Definition parse_origin (value : string) : option Origin :=
  parts ← urlsplit value;
  p ← port parts;
  if is_empty (url_scheme parts) then None
  else
    host ← hostname parts;
    let scheme := str_lower (url_scheme parts) in
    p ← (match p with Some z => Some z | None => DEFAULT_PORTS scheme end);
    Some (scheme, canonical_host host, p).

(** ** Requests *)

(** The ASGI scope. [server] is the local address and port. *)
Record Scope := mkScope {
  sc_type : string;
  sc_scheme : option string;
  sc_method : option string;
  sc_path : option string;
  sc_headers : list (string * string);
  sc_server : option (string * option Z);
}.

(** [Headers.getlist] and [Headers.get]. *)
Definition getlist (scope : Scope) (name : string) : list string :=
  snd <$> List.filter (fun h => String.eqb h.1 name) (sc_headers scope).
Definition header (scope : Scope) (name : string) : option string := head (getlist scope name).

Definition scope_server_host (scope : Scope) : option string :=
  match sc_server scope with
  | Some (host, _) => if is_empty host then None else Some host
  | None => None
  end.

Definition text_or (o : option string) (dflt : string) : string :=
  match o with Some s => if is_empty s then dflt else s | None => dflt end.

Definition self_origin (scope : Scope) : option Origin :=
  let scheme := str_lower (text_or (sc_scheme scope) "http") in
  match text_or (header scope "host") EmptyString with
  | EmptyString =>
      host ← scope_server_host scope;
      let authority := if contains ":" host then "[" +:+ host +:+ "]" else host in
      let authority :=
        match sc_server scope with
        | Some (_, Some p) => if p =? 0 then authority else authority +:+ ":" +:+ str_of_Z p
        | _ => authority
        end in
      parse_origin (scheme +:+ "://" +:+ authority)
  | authority => parse_origin (scheme +:+ "://" +:+ authority)
  end.

(** What becomes of a request. *)
Inductive Answer :=
| Reached
| Refused (status : Z) (log : list string).

(** [AllowedHostMiddleware]. *)
Definition request_host (scope : Scope) : option string :=
  match getlist scope "host" with
  | [] => canonical_host <$> scope_server_host scope
  | [v] => canonical_authority_host v
  | _ => None
  end.

Definition allowed_host_middleware (allowed : list string) (app : Scope -> Answer) (scope : Scope) : Answer :=
  if negb (String.eqb (sc_type scope) "http") then app scope
  else
    match request_host scope with
    | Some h => if bool_decide (h ∈ allowed) then app scope
                else Refused 400 [sanitise_for_log (Some (default "?" (sc_method scope)));
                                  sanitise_for_log (Some (default "?" (sc_path scope)));
                                  sanitise_for_log (header scope "host")]
    | None => Refused 400 [sanitise_for_log (Some (default "?" (sc_method scope)));
                           sanitise_for_log (Some (default "?" (sc_path scope)));
                           sanitise_for_log (header scope "host")]
    end%string.

(** [SameOriginMiddleware]. *)
Definition claimed_origin (scope : Scope) : option string :=
  match header scope "origin" with Some o => Some o | None => header scope "referer" end.

Definition same_origin (scope : Scope) : bool :=
  match claimed_origin scope, self_origin scope with
  | Some claimed, Some expected => bool_decide (parse_origin claimed = Some expected)
  | _, _ => false
  end.

Definition same_origin_middleware (app : Scope -> Answer) (scope : Scope) : Answer :=
  if negb (String.eqb (sc_type scope) "http") || bool_decide (default EmptyString (sc_method scope) ∈ SAFE_METHODS)
  then app scope
  else if same_origin scope then app scope
  else Refused 403 [sanitise_for_log (Some (default "?" (sc_method scope)));
                    sanitise_for_log (Some (default "?" (sc_path scope)));
                    sanitise_for_log (header scope "origin"); sanitise_for_log (header scope "referer")]%string.

(** The stack of [create_app]: the middleware added last is the outermost. *)
Definition dashboard (extra : list string) (app : Scope -> Answer) : Scope -> Answer :=
  allowed_host_middleware (build_allowed_hosts extra) (same_origin_middleware app).
