(* ===== verification/WebGuardProofs.v ===== *)
(** * What reaches the dashboard

    A request reaches the application only if it is addressed to an allowed
    host, and with an unsafe method only if it comes from the origin it is
    addressed to ([guards_only_own_requests]); for the headers a browser sends
    the decision is exact ([browser_request_decided]). *)

From S2P Require Import Prelude Numerals IpAddr IpAddrProofs WebGuard.

(** ** Text *)

Definition without (c : ascii) (s : string) : bool := str_forall (fun d => negb (Ascii.eqb d c)) s.

Lemma partition_without (c : ascii) (s : string) : without c s = true -> str_partition c s = (s, None).
Proof.
  induction s as [|d s IH]; [done|]. unfold without. cbn [str_forall]. intros [Hd%negb_true_iff Hs]%andb_prop.
  cbn [str_partition]. by rewrite Hd, IH.
Qed.

(** A property of the characters of Latin-1, checked on each. *)
Lemma ascii_cases (p : ascii -> bool) :
  forallb (fun n => p (ascii_of_nat n)) (seq 0 256) = true -> forall c, p c = true.
Proof.
  intros H c. rewrite forallb_forall in H. rewrite <- (ascii_nat_embedding c). apply H, in_seq.
  pose proof (nat_ascii_bounded c). lia.
Qed.

(** Neither blanks nor control characters. *)
Definition solid (c : ascii) : bool := negb (py_space c) && negb (c0_or_space c).

Lemma solid_safe (c : ascii) : solid c = true -> unsafe_url_char c = false.
Proof.
  intros H. pose proof (ascii_cases (fun c => negb (solid c) || negb (unsafe_url_char c)) ltac:(vm_compute; reflexivity) c) as Hc.
  cbv beta in Hc. rewrite H in Hc. by apply negb_true_iff in Hc.
Qed.

Lemma strip_solid (s : string) : str_forall solid s = true -> strip s = s.
Proof.
  intros H. assert (Hr : rstrip s = s).
  { clear -H. induction s as [|c s IH]; [done|]. cbn [str_forall] in H. apply andb_prop in H as [Hc Hs].
    cbn [rstrip]. rewrite IH by done. apply andb_prop in Hc as [Hc%negb_true_iff _]. rewrite Hc. by destruct s. }
  unfold strip. assert (lstrip s = s) as ->; [|done]. destruct s as [|c s]; [done|]. cbn [str_forall] in H.
  apply andb_prop in H as [[Hc%negb_true_iff _]%andb_prop _]. cbn [lstrip]. by rewrite Hc.
Qed.

Lemma remove_unsafe_solid (s : string) : str_forall solid s = true -> remove_unsafe s = s.
Proof.
  induction s as [|c s IH]; [done|]. cbn [str_forall]. intros [Hc Hs]%andb_prop. cbn [remove_unsafe].
  by rewrite solid_safe, IH.
Qed.

(** ** [urlsplit] on an authority *)

Section Split.
Context (h : string) (Hh : str_forall solid h = true).

(** The result of [urlsplit] after the scheme. *)
Definition after_scheme (scheme : string) : option SplitResult :=
  let '(netloc, rest) := split_netloc h in
  if xorb (contains "[" netloc) (contains "]" netloc) then None
  else if contains "[" netloc && negb (bracketed_netloc_ok netloc) then None
  else let '(url, fragment) := before_char "#" rest in
       let '(path, query) := before_char "?" url in
       Some (mkSplit scheme netloc path query fragment).

Lemma urlsplit_authority : urlsplit ("//" +:+ h) = after_scheme EmptyString.
Proof.
  unfold urlsplit. change ("//" +:+ h) with (String "/" (String "/" h)).
  assert (remove_unsafe (lstrip_c0 (String "/" (String "/" h))) = String "/" (String "/" h)) as ->.
  { change (lstrip_c0 (String "/" (String "/" h))) with (String "/" (String "/" h)). by apply (remove_unsafe_solid (String "/" (String "/" h))). }
  cbn [str_partition]. change (Ascii.eqb "/" ":") with false. cbv iota. destruct (str_partition ":" h) as [a [b|]]; done.
Qed.

Lemma urlsplit_origin (scheme : string) :
  scheme = "http"%string \/ scheme = "https"%string ->
  urlsplit (scheme +:+ "://" +:+ h) = after_scheme scheme.
Proof.
  intros Hs. unfold urlsplit. change ("://" +:+ h) with (String ":" (String "/" (String "/" h))).
  assert (remove_unsafe (lstrip_c0 (scheme +:+ String ":" (String "/" (String "/" h)))) =
          scheme +:+ String ":" (String "/" (String "/" h))) as ->.
  { assert (lstrip_c0 (scheme +:+ String ":" (String "/" (String "/" h))) = scheme +:+ String ":" (String "/" (String "/" h)))
      as -> by (by destruct Hs as [->| ->]).
    apply remove_unsafe_solid. rewrite str_forall_app. destruct Hs as [->| ->]; exact Hh. }
  rewrite partition_reads by (by destruct Hs as [->| ->]). by destruct Hs as [->| ->].
Qed.
End Split.

(** ** The host that is checked is the host that is trusted *)

(** A text that can stand in a Host header: no blanks or control characters,
    and an IPv6 address only in brackets. *)
Definition plain_authority (h : string) : bool :=
  str_forall solid h && ((count_char ":" h <=? 1)%nat || startswith "[" h).

Definition web_scheme (scope : Scope) : Prop :=
  let s := str_lower (text_or (sc_scheme scope) "http") in s = "http"%string \/ s = "https"%string.

(** The host, when the text is split. *)
Definition split_host (p : SplitResult) : option string := canonical_host <$> hostname p.

Lemma after_scheme_host (h scheme scheme' : string) (p p' : SplitResult) :
  after_scheme h scheme = Some p -> after_scheme h scheme' = Some p' -> split_host p = split_host p' /\ port p = port p'.
Proof.
  unfold after_scheme. destruct (split_netloc h) as [nl rest]. case_match; [done|]. case_match; [done|].
  destruct (before_char "#" rest) as [u f]. destruct (before_char "?" u) as [pa q]. intros [= <-] [= <-]. split; reflexivity.
Qed.

Lemma parse_origin_spec (v : string) (o : Origin) :
  parse_origin v = Some o -> exists p, urlsplit v = Some p /\ split_host p = Some o.1.2 /\ url_scheme p <> EmptyString.
Proof.
  unfold parse_origin, split_host. destruct (urlsplit v) as [p|]; [|done]. simpl. destruct (port p) as [pt|]; [|done]. simpl.
  destruct (is_empty (url_scheme p)) eqn:E; [done|]. destruct (hostname p) as [hn|] eqn:Eh; [|done]. simpl.
  destruct (match pt with Some z => _ | None => _ end) as [z|]; [|done]. intros [= <-]. exists p.
  rewrite Eh. split_and!; [done..|]. by apply String.eqb_neq.
Qed.

Lemma authority_host_spec (h a : string) :
  plain_authority h = true -> canonical_authority_host h = Some a ->
  exists p, urlsplit ("//" +:+ h) = Some p /\ split_host p = Some a.
Proof.
  intros [Hs Hc]%andb_prop. unfold canonical_authority_host. rewrite strip_solid by done.
  destruct (is_empty h); [done|].
  replace ((1 <? count_char ":" h)%nat && negb (startswith "[" h)) with false.
  2: { symmetry. apply orb_prop in Hc as [H%Nat.leb_le| ->]; [|apply andb_false_r].
       by rewrite (proj2 (Nat.ltb_ge _ _) H). }
  destruct (urlsplit ("//" +:+ h)) as [p|]; [|done]. simpl. destruct (port p) as [pt|]; [|done]. simpl.
  unfold split_host. destruct (hostname p) as [hn|] eqn:Eh; [|done]. simpl. case_match; [done|]. intros [= <-].
  exists p. by rewrite Eh.
Qed.

Lemma checked_host_trusted (scheme h a : string) (o : Origin) :
  scheme = "http"%string \/ scheme = "https"%string -> plain_authority h = true ->
  canonical_authority_host h = Some a -> parse_origin (scheme +:+ "://" +:+ h) = Some o -> o.1.2 = a.
Proof.
  intros Hsch Hp Ha Ho. destruct (authority_host_spec h a Hp Ha) as (p & Hu & Hh).
  destruct (parse_origin_spec _ _ Ho) as (p' & Hu' & Hh' & _). apply andb_prop in Hp as [Hs _].
  rewrite urlsplit_authority in Hu by done. rewrite urlsplit_origin in Hu' by done.
  destruct (after_scheme_host _ _ _ _ _ Hu Hu') as [E _]. congruence.
Qed.

(** ** Safety *)

Definition reaches (extra : list string) (scope : Scope) : Prop := dashboard extra (fun _ => Reached) scope = Reached.
Definition unsafe_method (scope : Scope) : Prop := default EmptyString (sc_method scope) ∉ SAFE_METHODS.

Lemma reaches_spec (extra : list string) (scope : Scope) :
  sc_type scope = "http"%string ->
  reaches extra scope <->
  (exists a, request_host scope = Some a /\ a ∈ build_allowed_hosts extra) /\
  (unsafe_method scope -> same_origin scope = true).
Proof.
  intros Ht. unfold reaches, dashboard, allowed_host_middleware, same_origin_middleware, unsafe_method. rewrite Ht. simpl negb. cbv iota.
  destruct (request_host scope) as [a|]; [|split; [done|by intros [(a & [=] & _) _]]].
  destruct (bool_decide_reflect (a ∈ build_allowed_hosts extra)) as [Ha|Ha];
    [|split; [done|intros [(a' & [= <-] & ?) _]; done]].
  simpl orb. destruct (bool_decide_reflect (default EmptyString (sc_method scope) ∈ SAFE_METHODS)).
  - split; [|done]. intros _. split; [eauto|done].
  - destruct (same_origin scope); split; try done; [|intros [_ H]; by specialize (H ltac:(done))].
    intros _. split; [eauto|done].
Qed.

(** C19. A request reaches the dashboard only with at most one Host header,
    which names an allowed host (or, without one, over an allowed local
    address); with a method other than GET, HEAD or OPTIONS only if its
    Origin, or Referer when there is none, parses to the origin the request
    is addressed to. The host of that origin is the very host that was
    checked, for a Host header without blanks whose IPv6 address is in
    brackets, so no foreign page can make the two agree. *)
Theorem guards_only_own_requests (extra : list string) (scope : Scope) :
  sc_type scope = "http"%string -> reaches extra scope ->
  exists a, request_host scope = Some a /\
    (a = LOOPBACK_HOST \/ exists e, e ∈ extra /\ canonical_authority_host e = Some a) /\
    (length (getlist scope "host") <= 1)%nat /\
    (unsafe_method scope -> exists claimed o,
       claimed_origin scope = Some claimed /\ parse_origin claimed = Some o /\ self_origin scope = Some o /\
       forall h, getlist scope "host" = [h] -> plain_authority h = true -> web_scheme scope -> o.1.2 = a).
Proof.
  intros Ht [(a & Hr & Ha) Ho]%reaches_spec; [|done]. exists a. split_and!; [done|..].
  - apply elem_of_cons in Ha as [->|Ha]; [by left|]. right.
    apply list_elem_of_In, filter_In in Ha as [Ha%list_elem_of_In _]. apply list_elem_of_omap in Ha as (e & ? & ?). eauto.
  - unfold request_host in Hr. destruct (getlist scope "host") as [|? [|]]; simpl; [lia|lia|done].
  - intros Hu. specialize (Ho Hu). unfold same_origin in Ho. destruct (claimed_origin scope) as [c|]; [|done].
    destruct (self_origin scope) as [o|] eqn:Hs; [|done]. apply bool_decide_eq_true in Ho. exists c, o.
    split_and!; [done..|]. intros h Hh Hp Hw. unfold request_host in Hr. rewrite Hh in Hr. unfold self_origin, header in Hs.
    rewrite Hh in Hs. simpl in Hs. assert (Hne : is_empty h = false).
    { unfold canonical_authority_host in Hr. destruct h; [done|done]. }
    rewrite Hne in Hs. destruct h as [|c0 h0]; [done|]. by eapply checked_host_trusted.
Qed.

(** A Host header that is no authority at all passes as loopback: more than one
    colon makes the whole text the host, and it ends in [.localhost]; the
    origin it stands for is another one. *)
Lemma forged_host_reaches :
  let scope := mkScope "http" (Some "http") (Some "POST") (Some "/alerts/suppress")
                 [("host", "evil.example/::.localhost"); ("origin", "http://evil.example")]
                 (Some ("127.0.0.1", Some 8765)) in
  reaches [] scope /\ self_origin scope = Some ("http", "evil.example", 80).
Proof. split; vm_compute; reflexivity. Qed.

(** ** The requests a browser sends *)

Definition name_char (c : ascii) : bool := is_alpha_ascii c || is_digit c || (code c =? 45)%N || (code c =? 46)%N || (code c =? 95)%N.

(** A host name or an IPv4 address. *)
Definition dns_name (n : string) : bool := negb (is_empty n) && str_forall name_char n.
Definition authority (n : string) (p : Z) : string := n +:+ ":" +:+ str_of_Z p.

(** [localhost], a name under it, or an address of [127.0.0.0/8]. *)
Definition loopback_name (n : string) : Prop :=
  str_lower n = "localhost"%string \/ endswith ".localhost" (str_lower n) = true \/
  exists z, ipv4_parse (str_lower n) = Some z /\ z / 2 ^ 24 = 127.

Lemma name_char_facts (c : ascii) :
  name_char c = true ->
  solid c = true /\ lower_char (lower_char c) = lower_char c /\ name_char (lower_char c) = true /\
  forall d, name_char d = false -> Ascii.eqb c d = false.
Proof.
  intros H.
  pose proof (ascii_cases (fun c => negb (name_char c) || (solid c && Ascii.eqb (lower_char (lower_char c)) (lower_char c) &&
    name_char (lower_char c))) ltac:(vm_compute; reflexivity) c) as Hc.
  cbv beta in Hc. rewrite H in Hc. simpl in Hc. rewrite !andb_true_iff in Hc. destruct Hc as [[Hs Hl%Ascii.eqb_eq] Hn].
  split_and!; [done..|]. intros d Hd. destruct (Ascii.eqb_spec c d) as [->|]; [congruence|done].
Qed.

Lemma name_without (n : string) (d : ascii) : str_forall name_char n = true -> name_char d = false -> without d n = true.
Proof.
  intros Hn Hd. eapply str_forall_impl; [|exact Hn]. intros c Hc. cbv beta.
  by rewrite (proj2 (proj2 (proj2 (name_char_facts c Hc))) d Hd).
Qed.
Lemma name_solid (n : string) : str_forall name_char n = true -> str_forall solid n = true.
Proof. apply str_forall_impl. intros c Hc. apply (name_char_facts c Hc). Qed.
Lemma name_lower (n : string) : str_forall name_char n = true -> str_forall name_char (str_lower n) = true /\ str_lower (str_lower n) = str_lower n.
Proof.
  induction n as [|c n IH]; [done|]. cbn [str_forall str_lower]. intros [Hc Hn]%andb_prop.
  destruct (name_char_facts c Hc) as (_ & Hl & Hlc & _). destruct (IH Hn) as [IH1 IH2]. by rewrite Hlc, IH1, Hl, IH2.
Qed.

Lemma digits_name (s : string) : ascii_digits s = true -> str_forall name_char s = true.
Proof.
  intros [_ H]%andb_prop. eapply str_forall_impl; [|exact H]. intros c Hc. unfold name_char. by rewrite Hc, orb_true_r.
Qed.

(** A text of name characters and colons has no other delimiter. *)
Definition authority_char (c : ascii) : bool := name_char c || Ascii.eqb c ":".
Lemma authority_chars (n : string) (p : Z) :
  dns_name n = true -> 0 <= p -> str_forall authority_char (authority n p) = true.
Proof.
  intros [_ Hn]%andb_prop Hp. unfold authority.
  assert (Hi : forall s, str_forall name_char s = true -> str_forall authority_char s = true).
  { intros s. apply str_forall_impl. intros c. unfold authority_char. by intros ->. }
  rewrite str_forall_app, Hi by done. simpl. by apply Hi, digits_name, str_of_nonneg_digits.
Qed.
Lemma authority_without (s : string) (d : ascii) :
  str_forall authority_char s = true -> authority_char d = false -> without d s = true.
Proof.
  intros Hs Hd. eapply str_forall_impl; [|exact Hs]. intros c Hc. cbv beta.
  destruct (Ascii.eqb_spec c d) as [->|]; [congruence|done].
Qed.

Lemma split_netloc_all (s : string) :
  without "/" s = true -> without "?" s = true -> without "#" s = true -> split_netloc s = (s, EmptyString).
Proof.
  unfold without. induction s as [|c s IH]; [done|]. cbn [str_forall].
  intros [H1%negb_true_iff ?]%andb_prop [H2%negb_true_iff ?]%andb_prop [H3%negb_true_iff ?]%andb_prop.
  cbn [split_netloc]. by rewrite H1, H2, H3, IH.
Qed.
Lemma after_at_none (s : string) : without "@" s = true -> after_at s = None.
Proof.
  unfold without. induction s as [|c s IH]; [done|]. cbn [str_forall]. intros [H%negb_true_iff ?]%andb_prop.
  cbn [after_at]. by rewrite IH, H.
Qed.
Lemma count_char_app (c : ascii) (a b : string) : count_char c (a +:+ b) = (count_char c a + count_char c b)%nat.
Proof. induction a as [|d a IH]; [done|]. simpl. case_match; rewrite IH; lia. Qed.
Lemma count_char_none (c : ascii) (s : string) : without c s = true -> count_char c s = 0%nat.
Proof.
  unfold without. induction s as [|d s IH]; [done|]. simpl. intros [H%negb_true_iff ?]%andb_prop. by rewrite H, IH.
Qed.

(** The parts of [name:port]. *)
Lemma authority_split (n scheme : string) (p : Z) :
  dns_name n = true -> 0 <= p <= 65535 ->
  exists r, after_scheme (authority n p) scheme = Some r /\ url_scheme r = scheme /\
    hostname r = Some (str_lower n) /\ port r = Some (Some p) /\ has_userinfo r = false /\
    url_path r = EmptyString /\ url_query r = EmptyString /\ url_fragment r = EmptyString.
Proof.
  intros Hn Hp. pose proof (authority_chars n p Hn (proj1 Hp)) as Ha.
  pose proof (fun d => authority_without (authority n p) d Ha) as Hw. apply andb_prop in Hn as [Hne%negb_true_iff Hn].
  exists (mkSplit scheme (authority n p) EmptyString EmptyString EmptyString).
  assert (Hi : hostinfo (authority n p) = (n, Some (str_of_Z p))).
  { unfold hostinfo, host_and_port. rewrite after_at_none by (by apply Hw). simpl default.
    rewrite partition_without by (by apply Hw). unfold authority. change (":" +:+ str_of_Z p) with (String ":" (str_of_Z p)).
    rewrite partition_reads by (by apply name_without). by destruct (str_of_Z p) eqn:E; [pose proof (str_of_nonneg_digits p (proj1 Hp)); rewrite E in *|]. }
  split_and!; try done.
  - unfold after_scheme. rewrite split_netloc_all by (by apply Hw). by rewrite !contains_char_false by (by apply Hw).
  - unfold hostname. simpl. rewrite Hi. simpl. rewrite Hne. by rewrite partition_without by (by apply name_without).
  - unfold port. simpl. rewrite Hi. simpl. rewrite str_of_nonneg_digits by lia.
    rewrite int_column_reads by lia. by rewrite (proj2 (Z.leb_le _ _)) by lia.
  - unfold has_userinfo. simpl. by rewrite after_at_none by (by apply Hw).
Qed.

(** ** Canonical names *)

Lemma startswith_without (c : ascii) (s : string) : without c s = true -> startswith (String c EmptyString) s = false.
Proof.
  unfold without. destruct s as [|d s]; [done|]. cbn [str_forall startswith]. intros [H%negb_true_iff _]%andb_prop.
  by rewrite Ascii.eqb_sym, H.
Qed.

(** The canonical host of a name, by its lower case. *)
Lemma canonical_name (n : string) :
  dns_name n = true ->
  canonical_host n =
    (if String.eqb (str_lower n) "localhost" || endswith ".localhost" (str_lower n) then LOOPBACK_HOST
     else match ipv4_parse (str_lower n) with
          | Some z => if z / 2 ^ 24 =? 127 then LOOPBACK_HOST else ipv4_str z
          | None => str_lower n
          end) /\ canonical_host (str_lower n) = canonical_host n.
Proof.
  intros [_ Hn]%andb_prop. destruct (name_lower n Hn) as [Hl Hi]. unfold canonical_host.
  rewrite !strip_solid by (by apply name_solid). rewrite Hi. split; [|done].
  rewrite (startswith_without "[") by (by apply name_without). simpl andb. cbv iota.
  case_match; [done|]. unfold ip_address. rewrite contains_char_false by (by apply name_without).
  destruct (ipv4_parse (str_lower n)) as [z|]; [done|]. unfold split_scope.
  rewrite partition_without by (by apply name_without). simpl. unfold ipv6_parse.
  rewrite split_on_single by (by apply name_without). by destruct (is_empty (str_lower n)).
Qed.

Lemma int_digits_nonneg (s : string) (acc n v k : Z) (us : bool) :
  0 <= acc -> int_digits s acc n us = Some (v, k) -> 0 <= v.
Proof.
  revert acc n us. induction s as [|c s IH]; intros acc n us Ha; cbn [int_digits].
  - destruct us; [done|]. by intros [= <- <-].
  - destruct (is_digit c) eqn:Hc.
    + apply IH. unfold digit_val. unfold is_digit, in_range in Hc. apply andb_prop in Hc as [?%N.leb_le _]. lia.
    + destruct (code c =? 95)%N; [|done]. destruct us; [done|]. by apply IH.
Qed.

Lemma octet_range (s : string) (v : Z) : parse_octet s = Some v -> 0 <= v <= 255.
Proof.
  unfold parse_octet, int_unsigned. case_match; [done|]. case_match; [done|].
  destruct (int_digits s 0 0 true) as [[w k]|] eqn:E; [|done]. case_match; [|done]. simpl.
  case_match eqn:E5; [done|]. intros [= <-]. apply Z.ltb_ge in E5. apply int_digits_nonneg in E; lia.
Qed.

Lemma ipv4_parse_range (s : string) (z : Z) : ipv4_parse s = Some z -> 0 <= z < 2 ^ 32.
Proof.
  unfold ipv4_parse. destruct (split_on "." s) as [|a [|b [|c [|d [|]]]]]; try done.
  destruct (parse_octet a) eqn:Ea; [|done]. simpl. destruct (parse_octet b) eqn:Eb; [|done]. simpl.
  destruct (parse_octet c) eqn:Ec; [|done]. simpl. destruct (parse_octet d) eqn:Ed; [|done]. simpl.
  intros [= <-]. apply octet_range in Ea, Eb, Ec, Ed. lia.
Qed.

(** No text of an address or of a name is the mark of the loopback host. *)
Lemma ipv4_str_not_loopback (z : Z) : 0 <= z < 2 ^ 32 -> ipv4_str z <> LOOPBACK_HOST.
Proof.
  intros Hz E. pose proof (ipv4_text z Hz) as Ht. rewrite E in Ht.
  apply (f_equal length) in Ht. rewrite length_fmap in Ht. discriminate Ht.
Qed.

Lemma canonical_loopback (n : string) : dns_name n = true -> canonical_host n = LOOPBACK_HOST <-> loopback_name n.
Proof.
  intros Hn. destruct (canonical_name n Hn) as [-> _]. unfold loopback_name.
  destruct (String.eqb_spec (str_lower n) "localhost") as [|H1]; [simpl; tauto|].
  destruct (endswith ".localhost" (str_lower n)); [simpl; tauto|]. simpl orb. cbv iota.
  destruct (ipv4_parse (str_lower n)) as [z|] eqn:E.
  - destruct (Z.eqb_spec (z / 2 ^ 24) 127) as [Hz|Hz]; [split; [eauto|done]|]. split.
    + intros Hl. by apply ipv4_str_not_loopback in Hl; [|by apply ipv4_parse_range in E].
    + intros [?|[?|(z' & [= <-] & ?)]]; done.
  - split; [|by intros [?|[?|(z' & [=] & ?)]]]. intros Hl. apply andb_prop in Hn as [_ Hn].
    destruct (name_lower n Hn) as [Hc _]. rewrite Hl in Hc. vm_compute in Hc. done.
Qed.

Lemma authority_canonical (n : string) (p : Z) :
  dns_name n = true -> 0 <= p <= 65535 ->
  canonical_authority_host (authority n p) = Some (canonical_host n) /\
  parse_origin ("http" +:+ "://" +:+ authority n p) = Some ("http"%string, canonical_host n, p).
Proof.
  intros Hn Hp. pose proof (authority_chars n p Hn (proj1 Hp)) as Ha.
  assert (Hs : str_forall solid (authority n p) = true).
  { eapply str_forall_impl; [|exact Ha]. intros c. unfold authority_char. intros [Hc|Hc%Ascii.eqb_eq]%orb_prop;
      [apply (name_char_facts c Hc)|by subst]. }
  destruct (canonical_name n Hn) as [_ Hl]. split.
  - destruct (authority_split n EmptyString p Hn Hp) as (r & Hr & _ & Hh & Hpt & Hu & H1 & H2 & H3).
    unfold canonical_authority_host. rewrite strip_solid by done.
    assert (is_empty (authority n p) = false) as -> by (by destruct n).
    assert ((1 <? count_char ":" (authority n p))%nat = false) as ->.
    { apply andb_prop in Hn as [_ Hn]. unfold authority. rewrite !count_char_app, (count_char_none _ n) by (by apply name_without).
      rewrite (count_char_none _ (str_of_Z p)); [done|]. apply digits_without; [done|]. apply str_of_nonneg_digits. lia. }
    simpl andb. cbv iota. rewrite urlsplit_authority, Hr by done. simpl. rewrite Hpt. simpl. rewrite Hh. simpl.
    by rewrite Hu, H1, H2, H3, Hl.
  - destruct (authority_split n "http" p Hn Hp) as (r & Hr & Hsc & Hh & Hpt & _).
    unfold parse_origin. rewrite urlsplit_origin, Hr by auto. simpl. rewrite Hpt. simpl. rewrite Hsc. simpl. by rewrite Hh, <- Hl.
Qed.

(** With no configured hosts, a browser's request with an unsafe method,
    Host [n:p] and Origin [http://n':p'], reaches the dashboard exactly when
    both names are loopback names ([localhost], a name under it or an address
    of 127.0.0.0/8) and the ports agree. In particular a name an attacker
    points at 127.0.0.1 is refused although its Origin and Host agree. *)
Theorem browser_request_decided (scope : Scope) (n n' : string) (p p' : Z) :
  sc_type scope = "http"%string -> sc_scheme scope = Some "http"%string -> unsafe_method scope ->
  dns_name n = true -> dns_name n' = true -> 0 <= p <= 65535 -> 0 <= p' <= 65535 ->
  getlist scope "host" = [authority n p] -> header scope "origin" = Some ("http" +:+ "://" +:+ authority n' p')%string ->
  reaches [] scope <-> loopback_name n /\ loopback_name n' /\ p = p'.
Proof.
  intros Ht Hsc Hu Hn Hn' Hp Hp' Hh Ho. rewrite reaches_spec by done.
  destruct (authority_canonical n p Hn Hp) as [Ha Hso]. destruct (authority_canonical n' p' Hn' Hp') as [_ Hco].
  rewrite <- !canonical_loopback by done. unfold request_host. rewrite Hh, Ha.
  assert (self_origin scope = Some ("http"%string, canonical_host n, p)) as Hself.
  { unfold self_origin, header. rewrite Hh, Hsc. change (str_lower (text_or (Some "http"%string) "http")) with "http"%string.
    simpl head. simpl text_or. assert (is_empty (authority n p) = false) as -> by (by destruct n).
    destruct (authority n p) eqn:E; [by destruct n|]. exact Hso. }
  unfold same_origin, claimed_origin. rewrite Ho, Hself, Hco. split.
  - intros [(a & [= <-] & Hin) Hso']. apply elem_of_cons in Hin as [Hl|Hin]; [|by apply elem_of_nil in Hin].
    specialize (Hso' Hu). apply bool_decide_eq_true in Hso'. injection Hso' as Hc Hpp. split_and!; [done|by rewrite Hc|done].
  - intros (Hl & Hl' & <-). split; [exists (canonical_host n); split; [done|]; rewrite Hl; apply list_elem_of_here|].
    intros _. apply bool_decide_eq_true. by rewrite Hl, Hl'.
Qed.

(** ** Log lines *)

(** A logged value is at most 203 printable characters, whatever the header
    holds: no line break of an attacker's reaches the log. *)
Lemma logged_value_printable (v : option string) :
  str_forall printable_char (sanitise_for_log v) = true /\ (String.length (sanitise_for_log v) <= 203)%nat.
Proof.
  destruct v as [v|]; [|split; [done|simpl; lia]]. cbn [sanitise_for_log].
  assert (Hc : str_forall printable_char (clean_chars v) = true).
  { induction v as [|c v IH]; [done|]. cbn [clean_chars str_forall]. rewrite IH, andb_true_r. by destruct (printable_char c) eqn:E. }
  destruct (MAX_LOG_VALUE <? String.length (clean_chars v))%nat eqn:E.
  - split.
    + rewrite str_forall_app. rewrite <- (str_take_drop MAX_LOG_VALUE (clean_chars v)), str_forall_app in Hc.
      apply andb_prop in Hc as [-> _]. done.
    + rewrite slength_app, str_take_length. change (String.length "...") with 3%nat. unfold MAX_LOG_VALUE. lia.
  - apply Nat.ltb_ge in E. unfold MAX_LOG_VALUE in E. split; [done|lia].
Qed.

(** ** Witnesses *)

Module WebExample.
Definition scope (host origin : string) : Scope :=
  mkScope "http" (Some "http"%string) (Some "POST"%string) (Some "/alerts/ack"%string)
    [("host", host); ("origin", origin)]%string (Some ("127.0.0.1"%string, Some 8765)).
Definition own : Scope := scope "localhost:8765" "http://127.0.0.1:8765".
Definition rebound : Scope := scope "evil.example:8765" "http://evil.example:8765".
End WebExample.

Lemma guards_only_own_requests_witness :
  exists a, request_host WebExample.own = Some a /\ (length (getlist WebExample.own "host") <= 1)%nat.
Proof.
  destruct (guards_only_own_requests [] WebExample.own) as (a & Ha & _ & Hl & _).
  - reflexivity.
  - vm_compute. reflexivity.
  - exists a. split; [exact Ha|exact Hl].
Defined.

Lemma post_unsafe (host origin : string) : unsafe_method (WebExample.scope host origin).
Proof.
  intros H. change ("POST"%string ∈ SAFE_METHODS) in H. unfold SAFE_METHODS in H.
  rewrite !elem_of_cons in H. by destruct H as [H|[H|[H|H%elem_of_nil]]].
Qed.

Lemma browser_request_decided_witness :
  reaches [] WebExample.own /\ (reaches [] WebExample.rebound -> loopback_name "evil.example").
Proof.
  split.
  - refine (proj2 (browser_request_decided WebExample.own "localhost" "127.0.0.1" 8765 8765 eq_refl eq_refl
      (post_unsafe _ _) eq_refl eq_refl _ _ eq_refl eq_refl) _); [lia|lia|].
    split; [left; reflexivity|]. split; [|reflexivity]. right. right. exists 2130706433. split; vm_compute; reflexivity.
  - intros H. refine (proj1 (proj1 (browser_request_decided WebExample.rebound "evil.example" "evil.example" 8765 8765 eq_refl eq_refl
      (post_unsafe _ _) eq_refl eq_refl _ _ eq_refl eq_refl) H)); lia.
Defined.
