(* ===== verification/EntityCard.v ===== *)
(** * Entity context cards ([inspectord/entities/card.py],
      [entities/ipc_handlers.py])

    A card is read from the state tables, the stored events and the stored
    alerts: a header, the recent events that mention the entity, its alerts
    and links to related entities.

    The rows here have the columns of [0004_entity_state.sql] that the
    statements read, at their SQL types: a nullable column is an [option].
    [pwd.getpwnam] and [pwd.getpwuid] are parameters ([None] is the [KeyError]
    or [OSError] the code catches), as is the text [isoformat] gives a time.
    Rows that an [ORDER BY] does not separate stay in table order. *)

From S2P Require Import Prelude Schemas Expr RuleEval HuntCompiler HuntSql Alerts Numerals.

Definition KINDS : list string :=
  ["process"; "executable"; "user"; "ip"; "file"; "port"; "service"; "device"]%string.
Definition MAX_KEY_LEN : nat := 512.
Definition EVENTS_CAP : nat := 100.
Definition ALERTS_CAP : nat := 50.
Definition RELATED_CAP : nat := 50.
Definition CHILD_CAP : nat := 20.
Definition LISTENER_CAP : nat := 20.
Definition IP_CAP : nat := 20.

(** ** Keys *)

Inductive InvalidEntity := invalid_kind | invalid_key.
Definition entity_error (e : InvalidEntity) : string :=
  match e with invalid_kind => "invalid_kind" | invalid_key => "invalid_key" end.

Definition control_char (c : ascii) : bool := (code c <? 32)%N || (code c =? 127)%N.

Definition validate (kind key : string) : result InvalidEntity unit :=
  if negb (bool_decide (kind ∈ KINDS)) then Err invalid_kind
  else if String.eqb key EmptyString || (MAX_KEY_LEN <? String.length key)%nat || str_exists control_char key
  then Err invalid_key
  else Ok tt.

(** [str.rpartition] with a separator of one character: [None] when it does
    not occur. *)
Fixpoint str_rpartition (sep : ascii) (s : string) : option (string * string) :=
  match s with
  | EmptyString => None
  | String c s' =>
      match str_rpartition sep s' with
      | Some (a, b) => Some (String c a, b)
      | None => if Ascii.eqb c sep then Some (EmptyString, s') else None
      end
  end.

(** A [ValueError] of [int] (more than 4300 digits) counts as [invalid_key];
    a validated key is shorter. *)
Definition split_process_key (key : string) : result InvalidEntity (Z * string) :=
  match str_partition "@" key with
  | (pid_s, Some boot) =>
      if negb (ascii_digits pid_s) || String.eqb boot EmptyString then Err invalid_key
      else match int_unsigned pid_s with Some pid => Ok (pid, boot) | None => Err invalid_key end
  | (_, None) => Err invalid_key
  end.

Definition split_port_key (key : string) : result InvalidEntity (string * Z * string) :=
  match str_rpartition "/" key with
  | None => Err invalid_key
  | Some (addr_port, proto) =>
      if String.eqb proto EmptyString then Err invalid_key
      else
        match str_rpartition ":" addr_port with
        | None => Err invalid_key
        | Some (addr, port_s) =>
            if String.eqb addr EmptyString || negb (ascii_digits port_s) then Err invalid_key
            else match int_unsigned port_s with
                 | Some port => Ok (addr, port, proto)
                 | None => Err invalid_key
                 end
        end
  end.

Definition process_key (pid : Z) (boot : string) : string := str_of_Z pid +:+ "@" +:+ boot.
Definition port_key (addr : string) (port : Z) (proto : string) : string :=
  addr +:+ ":" +:+ str_of_Z port +:+ "/" +:+ proto.

(** ** Rows *)

Record ProcCol := mkProcCol {
  p_pid : Z; p_boot : string; p_ppid : option Z;
  p_comm : option string; p_exe_path : option string; p_exe_sha256 : option string;
  p_uid : option Z; p_cmdline : option string; p_status : string; p_exit_code : option Z;
  p_first : Z; p_last : Z;
}.
Record ConnCol := mkConnCol {
  c_pid : option Z; c_comm : option string; c_saddr : option string; c_daddr : option string;
  c_first : Z; c_last : Z;
}.
Record ListenCol := mkListenCol {
  l_addr : string; l_port : Z; l_proto : string; l_family : option string;
  l_pid : option Z; l_comm : option string; l_first : Z; l_last : Z;
}.
Record FileCol := mkFileCol {
  f_path : string; f_change : option string; f_sha256 : option string; f_size : option Z;
  f_mode : option Z; f_uid : option Z; f_gid : option Z; f_first : Z; f_last : Z;
}.
Record ServiceCol := mkServiceCol {
  s_unit : string; s_active : option string; s_sub : option string; s_load : option string;
  s_first : Z; s_last : Z;
}.
Record DeviceCol := mkDeviceCol {
  d_key : string; d_vendor : option string; d_product : option string; d_serial : option string;
  d_subsystem : option string; d_devnode : option string; d_status : string;
  d_first : Z; d_last : Z;
}.

Record CardDb := mkCardDb {
  db_events : list EventRow;
  db_alert_rows : list AlertRow;
  db_procs : list ProcCol;
  db_conns : list ConnCol;
  db_listeners : list ListenCol;
  db_files : list FileCol;
  db_services : list ServiceCol;
  db_devices : list DeviceCol;
}.

(** ** Links *)

(** [daddr] is nullable, so a link's key may be [None]. *)
Record Related := mkRelated {
  rel_kind : string; rel_key : option string; rel_label : option string; rel_relation : string;
}.

Definition related_process (pid : Z) (boot label rel : string) : Related :=
  mkRelated "process" (Some (process_key pid boot)) (Some label) rel.

(** [comm or str(pid)]. *)
Definition or_text (s : option string) (dflt : string) : string :=
  match s with Some t => if String.eqb t EmptyString then dflt else t | None => dflt end.

(** A header is a dict. *)
Definition opt_int (z : option Z) : pyval := match z with Some z => PInt z | None => PNone end.

(** ** Ordering *)

Definition by_Z {A} (f : A -> Z) (a b : A) : Prop := f a <= f b.
#[export] Instance by_Z_dec {A} (f : A -> Z) a b : Decision (by_Z f a b).
Proof. unfold by_Z. apply _. Defined.
Definition order_by {A} (f : A -> Z) (l : list A) : list A := merge_sort (by_Z f) l.

(** [ORDER BY] a nullable text: NULLs last. *)
Definition nulls_last (a b : option string) : Prop :=
  match a, b with
  | _, None => True
  | None, Some _ => False
  | Some a, Some b => String.le a b
  end.
#[export] Instance nulls_last_dec a b : Decision (nulls_last a b).
Proof. destruct a, b; simpl; apply _. Defined.

Definition min_of {A} (f : A -> Z) (l : list A) : option Z :=
  foldr (fun x o => Some (match o with Some m => Z.min (f x) m | None => f x end)) None l.
Definition max_of {A} (f : A -> Z) (l : list A) : option Z :=
  foldr (fun x o => Some (match o with Some m => Z.max (f x) m | None => f x end)) None l.

(** [max] of a nullable text: NULLs are skipped. *)
Definition text_max (a b : option string) : option string :=
  match a, b with
  | Some s, Some t => Some (if decide (String.le s t) then t else s)
  | Some s, None => Some s
  | None, o => o
  end.

(** [json.loads(alerts.payload_json)]: what [Alert.model_dump_json] wrote. *)
Definition rule_ref_fields (r : RuleRef) : dict :=
  [("id", PStr (rr_id r)); ("name", PStr (rr_name r)); ("ruleset", PStr (rr_ruleset r));
   ("version", PStr (rr_version r)); ("severity", PStr (severity_value (rr_severity r)));
   ("why", PStr (rr_why r)); ("false_positives", str_list (rr_false_positives r))]%string.
Definition alert_fields (iso : Z -> string) (a : Alert) : dict :=
  [("schema_version", PStr (al_schema_version a));
   ("alert_id", PStr (al_alert_id a));
   ("rule", PDict (rule_ref_fields (al_rule a)));
   ("ts", PStr (iso (al_ts a)));
   ("severity", PStr (severity_value (al_severity a)));
   ("status", PStr (status_value (al_status a)));
   ("category", PStr (al_category a));
   ("event_ids", str_list (al_event_ids a));
   ("entities", PList ((fun r => PDict [("kind", PStr (er_kind r)); ("key", PStr (er_key r))]) <$> al_entities a));
   ("incident_id", opt_str (al_incident_id a));
   ("dedup_key", PStr (al_dedup_key a));
   ("dedup_count", PInt (al_dedup_count a));
   ("first_seen_at", PStr (iso (al_first_seen_at a)));
   ("last_seen_at", PStr (iso (al_last_seen_at a)));
   ("evidence_case_id", opt_str (al_evidence_case_id a));
   ("notes", PList (PDict <$> al_notes a));
   ("labels", str_list (al_labels a));
   ("rendered", PDict [("short", PStr (ra_short (al_rendered a))); ("detail", PStr (ra_detail (al_rendered a)))])]%string.

Section Card.
Context {D : DuckDB}.
Variable getpwnam : string -> option Z.
Variable getpwuid : Z -> option string.
Variable iso : Z -> string.

(** ** Predicates on [payload_json] *)

(** A fragment: alternatives [json_extract_string(payload_json, ?) = ?] joined
    by [OR], each with its two parameters. *)
Record Fragment := mkFragment { frag_parens : bool; frag_alts : list (string * string) }.

Definition json_eq_text : string := "json_extract_string(payload_json, ?) = ?".
Definition frag_text (f : Fragment) : string :=
  let body := join " OR " ((fun _ => json_eq_text) <$> frag_alts f) in
  if frag_parens f then "(" +:+ body +:+ ")" else body.
Definition frag_params (f : Fragment) : list string := mjoin ((fun '(p, v) => [p; v]) <$> frag_alts f).

(** SQL truth of a fragment on a document. *)
Definition alt_holds (doc : dict) (alt : string * string) : tv :=
  (fun t => String.eqb t alt.2) <$> json_extract_string (PDict doc) alt.1.
Definition frag_holds (f : Fragment) (doc : dict) : bool :=
  tv_true (foldr (fun a o => tv_or (alt_holds doc a) o) (Some false) (frag_alts f)).

Definition payload_predicate (kind key : string) : result InvalidEntity (option Fragment) :=
  if String.eqb kind "process" then
    match split_process_key key with
    | Ok (pid, _) => Ok (Some (mkFragment false [("$.process.pid", str_of_Z pid)%string]))
    | Err e => Err e
    end
  else if String.eqb kind "executable" then Ok (Some (mkFragment false [("$.process.hash.sha256", key)%string]))
  else if String.eqb kind "ip" then
    Ok (Some (mkFragment true [("$.destination.ip", key); ("$.source.ip", key)]%string))
  else if String.eqb kind "file" then Ok (Some (mkFragment false [("$.file.path", key)%string]))
  else if String.eqb kind "service" then Ok (Some (mkFragment false [("$.service.name", key)%string]))
  else if String.eqb kind "device" then
    Ok (Some (mkFragment true [("$.raw.DEVPATH", key); ("$.device.name", key)]%string))
  else if String.eqb kind "user" then
    Ok (Some (mkFragment true
                (("$.user.name", key)%string ::
                 match getpwnam key with
                 | Some uid => [("$.user.id", str_of_Z uid)%string]
                 | None => []
                 end)))
  else Ok None.

(** ** Events and alerts *)

Record EventView := mkEventView {
  v_event_id : string; v_ts : string; v_module : string; v_action : string;
  v_severity : string; v_payload : dict;
}.
Definition event_view (r : EventRow) : EventView :=
  {| v_event_id := row_event_id r; v_ts := iso (row_ts r); v_module := row_module r;
     v_action := row_action r; v_severity := row_severity r; v_payload := row_payload r |}.

Record AlertView := mkAlertView {
  w_alert_id : string; w_rule_id : string; w_ts : string; w_severity : string;
  w_status : string; w_short : string;
}.
Definition alert_view (r : AlertRow) : AlertView :=
  {| w_alert_id := ar_alert_id r; w_rule_id := ar_rule_id r; w_ts := iso (ar_ts r);
     w_severity := severity_value (ar_severity r); w_status := status_value (ar_status r);
     w_short := ra_short (ar_rendered r) |}.

Definition HOUR_US : Z := 3600000000.
Definition in_window (now window_h : Z) (r : EventRow) : bool :=
  (now - window_h * HOUR_US <=? row_ts r) && (row_ts r <=? now).

(** The rows the statement of the events section returns. *)
Definition events_rows (rows : list EventRow) (f : Fragment) (now window_h : Z) : list EventRow :=
  take EVENTS_CAP
    (order_by (fun r => - row_ts r)
       (List.filter (fun r => in_window now window_h r && frag_holds f (row_payload r)) rows)).

Definition events_section (db : CardDb) (kind key : string) (now window_h : Z)
  : result InvalidEntity (list EventView) :=
  match payload_predicate kind key with
  | Err e => Err e
  | Ok None => Ok []
  | Ok (Some f) => Ok (event_view <$> events_rows (db_events db) f now window_h)
  end.

Definition alerts_rows (rows : list AlertRow) (f : Fragment) : list AlertRow :=
  take ALERTS_CAP
    (order_by (fun r => - ar_ts r) (List.filter (fun r => frag_holds f (alert_fields iso (ar_payload r))) rows)).

Definition alerts_section (db : CardDb) (kind key : string) : result InvalidEntity (list AlertView) :=
  match payload_predicate kind key with
  | Err e => Err e
  | Ok None => Ok []
  | Ok (Some f) => Ok (alert_view <$> alerts_rows (db_alert_rows db) f)
  end.

(** ** Headers and related entities *)

Definition HeaderRelated : Type := bool * dict * list Related.
Definition times (first last : Z) : dict :=
  [("first_seen", PStr (iso first)); ("last_seen", PStr (iso last))]%string.

Definition is_proc (pid : Z) (boot : string) (r : ProcCol) : bool :=
  (p_pid r =? pid) && String.eqb (p_boot r) boot.

Definition children (db : CardDb) (pid : Z) (boot : string) : list ProcCol :=
  take CHILD_CAP
    (order_by p_pid
       (List.filter (fun r => bool_decide (p_ppid r = Some pid) && String.eqb (p_boot r) boot) (db_procs db))).

Definition process_header_related (db : CardDb) (key : string) (boot_id : option string)
  : result InvalidEntity HeaderRelated :=
  match split_process_key key with
  | Err e => Err e
  | Ok (pid, boot) =>
      Ok match List.find (is_proc pid boot) (db_procs db) with
         | None => (false, [], [])
         | Some r =>
             let header :=
               [("pid", PInt pid); ("boot_id", PStr boot); ("ppid", opt_int (p_ppid r));
                ("comm", opt_str (p_comm r)); ("exe_path", opt_str (p_exe_path r));
                ("exe_sha256", opt_str (p_exe_sha256 r)); ("uid", opt_int (p_uid r));
                ("cmdline", opt_str (p_cmdline r)); ("status", PStr (p_status r));
                ("exit_code", opt_int (p_exit_code r))]%string ++ times (p_first r) (p_last r) in
             let parent :=
               match p_ppid r with
               | Some ppid => [related_process ppid boot ("ppid " +:+ str_of_Z ppid) "parent"]
               | None => []
               end in
             let kids :=
               (fun c => related_process (p_pid c) boot (or_text (p_comm c) (str_of_Z (p_pid c))) "child")
                 <$> children db pid boot in
             let exe :=
               match p_exe_sha256 r with
               | Some sha =>
                   if String.eqb sha EmptyString then []
                   else [mkRelated "executable" (Some sha) (Some (or_text (p_exe_path r) (str_take 12 sha))) "executable"]
               | None => []
               end in
             let user :=
               match p_uid r ≫= getpwuid with
               | Some name =>
                   if String.eqb name EmptyString then [] else [mkRelated "user" (Some name) (Some name) "user"]
               | None => []
               end in
             let net :=
               if bool_decide (boot_id = Some boot) then
                 ((fun d => mkRelated "ip" d d "outbound") <$>
                    take IP_CAP
                      (merge_sort nulls_last
                         (remove_dups (c_daddr <$> List.filter (fun c => bool_decide (c_pid c = Some pid)) (db_conns db))))) ++
                 ((fun l => let k := Some (port_key (l_addr l) (l_port l) (l_proto l)) in mkRelated "port" k k "listens") <$>
                    take LISTENER_CAP
                      (order_by l_port (List.filter (fun l => bool_decide (l_pid l = Some pid)) (db_listeners db))))
               else [] in
             (true, header, parent ++ kids ++ exe ++ user ++ net)
         end
  end.

Definition run_by (rel : string) (r : ProcCol) : Related :=
  related_process (p_pid r) (p_boot r) (or_text (p_comm r) (str_of_Z (p_pid r))) rel.

Definition executable_header_related (db : CardDb) (key : string) (boot_id : option string) : HeaderRelated :=
  let rows := List.filter (fun r => bool_decide (p_exe_sha256 r = Some key)) (db_procs db) in
  match min_of p_first rows, max_of p_last rows with
  | Some first, Some last =>
      (true,
       [("sha256", PStr key);
        ("paths", PList (PStr <$> merge_sort String.le (remove_dups (omap p_exe_path rows))));
        ("process_count", PInt (Z.of_nat (length rows)))]%string ++ times first last,
       run_by "runs-as" <$> take RELATED_CAP (order_by p_pid rows))
  | _, _ => (false, [], [])
  end.

Definition user_header_related (db : CardDb) (key : string) (boot_id : option string) : HeaderRelated :=
  let uid := getpwnam key in
  let header := [("username", PStr key); ("uid", opt_int uid)]%string in
  match uid with
  | None => (false, header, [])
  | Some u =>
      let rows := take RELATED_CAP
                    (order_by p_pid (List.filter (fun r => bool_decide (p_uid r = Some u)) (db_procs db))) in
      (negb (bool_decide (rows = [])), header, run_by "runs" <$> rows)
  end.

(** [GROUP BY pid ORDER BY pid] with [max(comm)]. *)
Definition talkers (db : CardDb) (key : string) : list (Z * option string) :=
  let rows := List.filter (fun c => bool_decide (c_daddr c = Some key)) (db_conns db) in
  (fun pid =>
     (pid, foldr text_max None
             (c_comm <$> List.filter (fun c => bool_decide (c_pid c = Some pid)) rows)))
    <$> order_by id (remove_dups (omap c_pid rows)).

Definition ip_header_related (db : CardDb) (key : string) (boot_id : option string) : HeaderRelated :=
  let rows := List.filter (fun c => bool_decide (c_daddr c = Some key) || bool_decide (c_saddr c = Some key))
                (db_conns db) in
  match min_of c_first rows, max_of c_last rows with
  | Some first, Some last =>
      (true,
       [("address", PStr key); ("connection_count", PInt (Z.of_nat (length rows)))]%string ++ times first last,
       match boot_id with
       | Some boot =>
           (fun '(pid, comm) => related_process pid boot (or_text comm (str_of_Z pid)) "talked-to")
             <$> take RELATED_CAP (talkers db key)
       | None => []
       end)
  | _, _ => (false, [], [])
  end.

Definition file_header_related (db : CardDb) (key : string) (boot_id : option string) : HeaderRelated :=
  match List.find (fun r => String.eqb (f_path r) key) (db_files db) with
  | None => (false, [], [])
  | Some r =>
      let exe := head (omap p_exe_sha256
                   (order_by (fun p => - p_last p)
                      (List.filter (fun p => bool_decide (p_exe_path p = Some key) &&
                                             bool_decide (p_exe_sha256 p <> None)) (db_procs db)))) in
      (true,
       [("path", PStr (f_path r)); ("change_type", opt_str (f_change r)); ("sha256", opt_str (f_sha256 r));
        ("size", opt_int (f_size r)); ("mode", opt_int (f_mode r)); ("uid", opt_int (f_uid r));
        ("gid", opt_int (f_gid r))]%string ++ times (f_first r) (f_last r),
       match exe with Some sha => [mkRelated "executable" (Some sha) (Some key) "executed-as"] | None => [] end)
  end.

Definition is_listener (addr : string) (port : Z) (proto : string) (l : ListenCol) : bool :=
  String.eqb (l_addr l) addr && (l_port l =? port) && String.eqb (l_proto l) proto.

Definition port_header_related (db : CardDb) (key : string) (boot_id : option string)
  : result InvalidEntity HeaderRelated :=
  match split_port_key key with
  | Err e => Err e
  | Ok (addr, port, proto) =>
      Ok match List.find (is_listener addr port proto) (db_listeners db) with
         | None => (false, [], [])
         | Some l =>
             (true,
              [("addr", PStr addr); ("port", PInt port); ("proto", PStr proto); ("family", opt_str (l_family l));
               ("pid", opt_int (l_pid l)); ("comm", opt_str (l_comm l))]%string ++ times (l_first l) (l_last l),
              match l_pid l, boot_id with
              | Some pid, Some boot => [related_process pid boot (or_text (l_comm l) (str_of_Z pid)) "owner"]
              | _, _ => []
              end)
         end
  end.

Definition service_header_related (db : CardDb) (key : string) (boot_id : option string) : HeaderRelated :=
  match List.find (fun r => String.eqb (s_unit r) key) (db_services db) with
  | None => (false, [], [])
  | Some r =>
      (true,
       [("unit", PStr (s_unit r)); ("active_state", opt_str (s_active r)); ("sub_state", opt_str (s_sub r));
        ("load_state", opt_str (s_load r))]%string ++ times (s_first r) (s_last r),
       [])
  end.

Definition device_header_related (db : CardDb) (key : string) (boot_id : option string) : HeaderRelated :=
  match List.find (fun r => String.eqb (d_key r) key) (db_devices db) with
  | None => (false, [], [])
  | Some r =>
      (true,
       [("dev_key", PStr (d_key r)); ("vendor", opt_str (d_vendor r)); ("product", opt_str (d_product r));
        ("serial", opt_str (d_serial r)); ("subsystem", opt_str (d_subsystem r));
        ("devnode", opt_str (d_devnode r)); ("status", PStr (d_status r))]%string ++ times (d_first r) (d_last r),
       [])
  end.

Definition BUILDERS (db : CardDb) (kind key : string) (boot_id : option string) : result InvalidEntity HeaderRelated :=
  if String.eqb kind "process" then process_header_related db key boot_id
  else if String.eqb kind "executable" then Ok (executable_header_related db key boot_id)
  else if String.eqb kind "user" then Ok (user_header_related db key boot_id)
  else if String.eqb kind "ip" then Ok (ip_header_related db key boot_id)
  else if String.eqb kind "file" then Ok (file_header_related db key boot_id)
  else if String.eqb kind "port" then port_header_related db key boot_id
  else if String.eqb kind "service" then Ok (service_header_related db key boot_id)
  else Ok (device_header_related db key boot_id).

(** ** The card *)

Record Card := mkCard {
  card_kind : string;
  card_key : string;
  card_found : bool;
  card_header : dict;
  card_events : list EventView;
  card_alerts : list AlertView;
  card_related : list Related;
  card_warnings : list string;
}.

(** Which sections raise for another reason than their key: a statement the
    database refuses. *)
Record Faults := mkFaults { header_raises : bool; events_raise : bool; alerts_raise : bool }.

(** [try: ... except Exception: ...] around a section: its value, or the
    default and one warning. *)
Definition guarded {A} (raises : bool) (r : result InvalidEntity A) (dflt : A) (warning : string)
  : A * list string :=
  match raises, r with
  | false, Ok a => (a, [])
  | _, _ => (dflt, [warning])
  end.

Definition key_shape (kind key : string) : result InvalidEntity unit :=
  if String.eqb kind "process" then
    match split_process_key key with Ok _ => Ok tt | Err e => Err e end
  else if String.eqb kind "port" then
    match split_port_key key with Ok _ => Ok tt | Err e => Err e end
  else Ok tt.

Definition build_entity_card (faults : Faults) (db : CardDb) (kind key : string) (now : Z)
    (boot_id : option string) (window_h : Z) : result InvalidEntity Card :=
  match validate kind key with
  | Err e => Err e
  | Ok _ =>
      match key_shape kind key with
      | Err e => Err e
      | Ok _ =>
          let '((found, header, related), w1) :=
            guarded (header_raises faults) (BUILDERS db kind key boot_id) (false, [], []) "header_failed" in
          let '(events, w2) :=
            guarded (events_raise faults) (events_section db kind key now window_h) [] "events_failed" in
          let '(alerts, w3) :=
            guarded (alerts_raise faults) (alerts_section db kind key) [] "alerts_failed" in
          Ok {| card_kind := kind; card_key := key;
                card_found :=
                  if String.eqb kind "user" && negb found
                  then negb (bool_decide (events = [])) || negb (bool_decide (alerts = []))
                  else found;
                card_header := header; card_events := events; card_alerts := alerts;
                card_related := take RELATED_CAP related;
                card_warnings := w1 ++ w2 ++ w3 |}
      end
  end.

(** ** [handle_get_entity_card] *)

Definition MIN_WINDOW_H : Z := 1.
Definition MAX_WINDOW_H : Z := 168.

Inductive CardReply :=
| CardOk (c : Card)
| CardError (error : string).

Definition window_param (params : dict) : Z :=
  Z.max MIN_WINDOW_H
    (Z.min MAX_WINDOW_H (default 24 (int_of (default (PInt 24) (dict_lookup "window_h" params))))).

(** [boot_id] is [None] when [current_boot_id] raises [OSError]. *)
Definition handle_get_entity_card (so : pyval -> string) (faults : Faults) (db : CardDb) (now : Z)
    (boot_id : option string) (params : dict) : CardReply :=
  let text k := py_str so (default (PStr EmptyString) (dict_lookup k params)) in
  match build_entity_card faults db (text "kind"%string) (text "key"%string) now boot_id (window_param params) with
  | Err e => CardError (entity_error e)
  | Ok c => CardOk c
  end.

End Card.
