(* ===== verification/EntityCardProofs.v ===== *)
(** * What an entity card shows

    The events of a card are the newest events of the window that mention the
    entity ([card_events_exact]); the links of a card lead to the cards they
    name ([child_link_leads_back], [port_key_reads]); a section that fails
    leaves the others as they are ([sections_degrade_alone]). *)

From S2P Require Import Prelude Schemas Expr RuleEval HuntCompiler HuntSql HuntFidelity Alerts Numerals EntityCard.

(** ** What the statements need of the database *)

(** [json_extract_string] is NULL where the document has nothing, or null. *)
Class DuckDBNulls (D : DuckDB) : Prop := {
  json_text_missing doc segs :
    ident_segs segs = true -> json_walk doc segs = None -> json_extract_string doc (json_path segs) = None;
  json_text_null doc segs :
    ident_segs segs = true -> json_walk doc segs = Some PNone -> json_extract_string doc (json_path segs) = None;
}.

#[export] Instance ReferenceDB_nulls : DuckDBNulls ReferenceDB.
Proof. split; intros doc segs Hs Hw; simpl; by rewrite path_segs_json_path, Hw. Qed.

(** ** Mentions *)

(** A value that identifies something: a text, an integer, a boolean or
    nothing. *)
Definition plain (v : pyval) : bool :=
  match v with
  | PNone | PStr _ | PBool _ => true
  | PInt z => (- 2 ^ 63 <=? z) && (z <? 2 ^ 64)
  | _ => false
  end.
Definition value_text (v : pyval) : option string :=
  match v with
  | PStr s => Some s
  | PInt z => Some (str_of_Z z)
  | PBool b => Some (if b then "true" else "false")%string
  | _ => None
  end.

Definition event_value (e : Event) (segs : list string) : option pyval := json_walk (PDict (event_fields e)) segs.
Definition event_text (e : Event) (segs : list string) : option string := event_value e segs ≫= value_text.

Definition IDENTITY_PATHS : list (list string) :=
  [["process"; "pid"]; ["process"; "hash"; "sha256"]; ["destination"; "ip"]; ["source"; "ip"]; ["file"; "path"];
   ["service"; "name"]; ["raw"; "DEVPATH"]; ["device"; "name"]; ["user"; "name"]; ["user"; "id"]]%string.

(** Every identifying field of the event is plain. *)
Definition plain_event (e : Event) : bool :=
  forallb (fun segs => match event_value e segs with Some v => plain v | None => true end) IDENTITY_PATHS.

Definition has_text (e : Event) (segs : list string) (t : string) : bool := bool_decide (event_text e segs = Some t).

(** The event is about the entity. *)
Definition mentions (getpwnam : string -> option Z) (kind key : string) (e : Event) : bool :=
  if String.eqb kind "process" then
    match split_process_key key with
    | Ok (pid, _) => has_text e ["process"; "pid"]%string (str_of_Z pid)
    | Err _ => false
    end
  else if String.eqb kind "executable" then has_text e ["process"; "hash"; "sha256"]%string key
  else if String.eqb kind "ip" then has_text e ["destination"; "ip"]%string key || has_text e ["source"; "ip"]%string key
  else if String.eqb kind "file" then has_text e ["file"; "path"]%string key
  else if String.eqb kind "service" then has_text e ["service"; "name"]%string key
  else if String.eqb kind "device" then has_text e ["raw"; "DEVPATH"]%string key || has_text e ["device"; "name"]%string key
  else if String.eqb kind "user" then
    has_text e ["user"; "name"]%string key ||
    match getpwnam key with Some uid => has_text e ["user"; "id"]%string (str_of_Z uid) | None => false end
  else false.

(** The rows of the table are those of the events [es]. *)
Definition stored (iso : Z -> string) (rows : list EventRow) (es : list Event) : Prop :=
  Forall2 (fun r e => exists seq, r = row_of_event iso e seq) rows es.

Definition event_in_window (now window_h : Z) (e : Event) : bool :=
  (now - window_h * HOUR_US <=? ev_ts e) && (ev_ts e <=? now).

(** ** Sorting *)

#[export] Instance by_Z_total {A} (f : A -> Z) : Total (by_Z f).
Proof. intros a b. unfold by_Z. lia. Qed.
#[export] Instance by_Z_trans {A} (f : A -> Z) : Transitive (by_Z f).
Proof. intros a b c. unfold by_Z. lia. Qed.

Lemma order_by_perm {A} (f : A -> Z) (l : list A) : order_by f l ≡ₚ l.
Proof. apply merge_sort_Permutation. Qed.
Lemma order_by_sorted {A} (f : A -> Z) (l : list A) : StronglySorted (by_Z f) (order_by f l).
Proof. apply StronglySorted_merge_sort; apply _. Qed.

Lemma sorted_take_drop {A} (R : relation A) (n : nat) (l : list A) :
  StronglySorted R l ->
  StronglySorted R (take n l) /\ forall x y, x ∈ take n l -> y ∈ drop n l -> R x y.
Proof.
  intros H. rewrite <- (take_drop n l) in H. apply StronglySorted_app in H as (? & ? & Hxy); eauto.
Qed.

Lemma filter_fmap {A B} (f : A -> B) (p : B -> bool) (q : A -> bool) (l : list A) :
  (forall x, x ∈ l -> p (f x) = q x) -> List.filter p (f <$> l) = f <$> List.filter q l.
Proof.
  induction l as [|x l IH]; intros H; [done|]. csimpl. rewrite H, IH by set_solver. by destruct (q x).
Qed.

Section Events.
Context {D : DuckDB} {DL : DuckDBLaws D} {DN : DuckDBNulls D}.
Variable getpwnam : string -> option Z.
Variable getpwuid : Z -> option string.
Variable iso : Z -> string.

(** ** The predicate is the mention *)

Lemma extract_plain (doc : pyval) (segs : list string) :
  ident_segs segs = true -> (forall v, json_walk doc segs = Some v -> plain v = true) ->
  json_extract_string doc (json_path segs) = json_walk doc segs ≫= value_text.
Proof.
  intros Hs Hp. destruct (json_walk doc segs) as [v|] eqn:Hw; [|by apply json_text_missing].
  specialize (Hp v eq_refl). destruct v; try discriminate Hp.
  - by apply json_text_null.
  - by apply json_text_bool.
  - apply andb_prop in Hp as [?%Z.leb_le ?%Z.ltb_lt]. by apply json_text_int.
  - by apply json_text_str.
Qed.

Lemma payload_walk (e : Event) (segs : list string) :
  segs ∈ IDENTITY_PATHS -> json_walk (PDict (payload_of iso e)) segs = event_value e segs.
Proof. intros H. repeat (apply elem_of_cons in H as [->|H]; [done|]). by apply elem_of_nil in H. Qed.

Lemma alt_mention (e : Event) (segs : list string) (t : string) :
  plain_event e = true -> segs ∈ IDENTITY_PATHS ->
  tv_true (alt_holds (payload_of iso e) (json_path segs, t)) = has_text e segs t.
Proof.
  intros Hp Hs. unfold alt_holds, has_text, event_text. simpl. rewrite extract_plain.
  - rewrite payload_walk by done. destruct (event_value e segs ≫= value_text) as [x|]; cbn [fmap option_fmap option_map tv_true]; [|by rewrite bool_decide_false].
    destruct (String.eqb_spec x t) as [->|]; [by rewrite bool_decide_true|]. rewrite bool_decide_false; congruence.
  - repeat (apply elem_of_cons in Hs as [->|Hs]; [done|]). by apply elem_of_nil in Hs.
  - rewrite payload_walk by done. intros v Hv. unfold plain_event in Hp. rewrite forallb_forall in Hp.
    specialize (Hp segs (proj1 (list_elem_of_In _ _) Hs)). by rewrite Hv in Hp.
Qed.

(** The paths of the fragments, as the segments they are made of. *)
Lemma fragment_paths :
  "$.process.pid" = json_path ["process"; "pid"] /\ "$.process.hash.sha256" = json_path ["process"; "hash"; "sha256"] /\
  "$.destination.ip" = json_path ["destination"; "ip"] /\ "$.source.ip" = json_path ["source"; "ip"] /\
  "$.file.path" = json_path ["file"; "path"] /\ "$.service.name" = json_path ["service"; "name"] /\
  "$.raw.DEVPATH" = json_path ["raw"; "DEVPATH"] /\ "$.device.name" = json_path ["device"; "name"] /\
  "$.user.name" = json_path ["user"; "name"] /\ "$.user.id" = json_path ["user"; "id"].
Proof. by vm_compute. Qed.

Lemma frag_mention (kind key : string) (f : Fragment) (e : Event) :
  plain_event e = true -> payload_predicate getpwnam kind key = Ok (Some f) ->
  frag_holds f (payload_of iso e) = mentions getpwnam kind key e.
Proof.
  intros Hp. unfold payload_predicate, mentions.
  pose proof (fun segs t H => alt_mention e segs t Hp (bool_decide_eq_true_1 _ H)) as Ha.
  destruct fragment_paths as (-> & -> & -> & -> & -> & -> & -> & -> & -> & ->).
  repeat (match goal with |- context [String.eqb kind ?k] => destruct (String.eqb kind k) end);
    try destruct (split_process_key key) as [[pid b]|]; try destruct (getpwnam key) as [uid|]; intros [= <-];
    unfold frag_holds; cbn [frag_alts foldr]; rewrite ?tv_true_or, ?Ha by (vm_compute; reflexivity);
    cbn [tv_true]; by rewrite ?orb_false_r.
Qed.

(** ** The events section *)

(** The rows of stored events, and their sequence numbers. *)
Lemma stored_pairs (rows : list EventRow) (es : list Event) :
  stored iso rows es ->
  exists ps : list (Event * Z), ps.*1 = es /\ rows = (fun p => row_of_event iso p.1 p.2) <$> ps.
Proof.
  induction 1 as [|r e rows es [seq ->] _ (ps & <- & ->)]; [by exists []|]. by exists ((e, seq) :: ps).
Qed.

Definition view_of_event (e : Event) : EventView := event_view iso (row_of_event iso e 0).

(** [shown] are the newest [cap] of [l], newest first. *)
Definition newest_first (cap : nat) (l shown : list Event) : Prop :=
  exists rest, shown ++ rest ≡ₚ l /\ length shown = min cap (length l) /\
    StronglySorted (fun a b => ev_ts b <= ev_ts a) shown /\
    forall a b, a ∈ shown -> b ∈ rest -> ev_ts b <= ev_ts a.

Lemma sorted_events (ps : list (Event * Z)) :
  StronglySorted (by_Z (fun r => - row_ts r)) ((fun p => row_of_event iso p.1 p.2) <$> ps) ->
  StronglySorted (fun a b => ev_ts b <= ev_ts a) ps.*1.
Proof.
  induction ps as [|p ps IH]; [constructor|]. csimpl. intros [Hs Hf]%StronglySorted_inv.
  constructor; [by apply IH|]. apply Forall_forall. rewrite Forall_forall in Hf. intros x (y & -> & Hy)%list_elem_of_fmap.
  specialize (Hf _ (list_elem_of_fmap_2 _ _ _ Hy)). unfold by_Z in Hf. simpl in Hf. lia.
Qed.

Lemma events_rows_exact (rows : list EventRow) (es : list Event) (f : Fragment) (now window_h : Z)
    (p : Event -> bool) :
  stored iso rows es -> (forall e, e ∈ es -> frag_holds f (payload_of iso e) = p e) ->
  exists shown,
    newest_first EVENTS_CAP (List.filter (fun e => event_in_window now window_h e && p e) es) shown /\
    event_view iso <$> events_rows rows f now window_h = view_of_event <$> shown.
Proof.
  intros (ps & <- & ->)%stored_pairs Hp. unfold events_rows.
  set (g := fun p : Event * Z => row_of_event iso p.1 p.2). set (q := fun e => event_in_window now window_h e && p e).
  rewrite (filter_fmap g _ (fun x => q x.1)) by (intros x Hx; unfold q, g; simpl; rewrite Hp; [done|by apply list_elem_of_fmap_2]).
  rewrite (filter_fmap fst q (fun x => q x.1)) by done.
  pose proof (order_by_sorted (fun r => - row_ts r) (g <$> List.filter (fun x => q x.1) ps)) as Hs.
  destruct (Permutation_map_inv g (List.filter (fun x => q x.1) ps) (l1 := order_by (fun r => - row_ts r) (g <$> List.filter (fun x => q x.1) ps)))
    as (sp & Hsp & Hperm); [by rewrite order_by_perm|].
  rewrite Hsp in *. apply sorted_events in Hs. exists (take EVENTS_CAP sp).*1. split.
  - destruct (sorted_take_drop _ EVENTS_CAP _ Hs) as [Hs1 Hs2]. rewrite <- fmap_take, <- fmap_drop in *.
    exists (drop EVENTS_CAP sp).*1. split_and!; [|..]; try done.
    + rewrite <- fmap_app, take_drop. by apply fmap_Permutation.
    + rewrite !length_fmap, length_take. by rewrite Hperm.
  - change (map g sp) with (g <$> sp). by rewrite <- fmap_take, <- !list_fmap_compose.
Qed.
End Events.

(** ** Keys *)

Lemma process_key_reads (pid : Z) (boot : string) :
  0 <= pid < 2 ^ 31 -> boot <> EmptyString -> split_process_key (process_key pid boot) = Ok (pid, boot).
Proof.
  intros Hp Hb. unfold split_process_key, process_key.
  pose proof (str_of_nonneg_digits pid (proj1 Hp)) as Hd.
  change ("@" +:+ boot) with (String "@" boot).
  rewrite partition_reads by (by apply digits_without).
  rewrite Hd, int_column_reads by done.
  by apply String.eqb_neq in Hb as ->.
Qed.

Lemma rpartition_none (sep : ascii) (b : string) :
  str_forall (fun d => negb (Ascii.eqb d sep)) b = true -> str_rpartition sep b = None.
Proof.
  induction b as [|c b IH]; [done|]. simpl. intros [Hc%negb_true_iff Hb]%andb_prop. by rewrite IH, Hc.
Qed.
Lemma rpartition_reads (sep : ascii) (a b : string) :
  str_forall (fun d => negb (Ascii.eqb d sep)) b = true -> str_rpartition sep (a +:+ String sep b) = Some (a, b).
Proof.
  intros Hb. induction a as [|c a IH]; simpl; [by rewrite rpartition_none, Ascii.eqb_refl by done|by rewrite IH].
Qed.

(** The address may hold colons (IPv6) and slashes; the protocol no slash. *)
Lemma port_key_reads (addr proto : string) (port : Z) :
  addr <> EmptyString -> proto <> EmptyString -> str_forall (fun d => negb (Ascii.eqb d "/")) proto = true ->
  0 <= port < 2 ^ 31 -> split_port_key (port_key addr port proto) = Ok (addr, port, proto).
Proof.
  intros Ha Hp Hs Hz. unfold split_port_key, port_key.
  pose proof (str_of_nonneg_digits port (proj1 Hz)) as Hd.
  rewrite <- !sapp_assoc. change ((?x +:+ "/") +:+ proto) with ((x +:+ "/") +:+ proto).
  rewrite (sapp_assoc _ "/"). change ("/" +:+ proto) with (String "/" proto). rewrite rpartition_reads by done.
  rewrite (proj2 (String.eqb_neq _ _) Hp), sapp_assoc. change (":" +:+ ?x) with (String ":" x).
  rewrite rpartition_reads by (by apply digits_without). rewrite (proj2 (String.eqb_neq _ _) Ha), Hd. simpl.
  by rewrite int_column_reads.
Qed.

Definition printable (s : string) : bool := str_forall (fun c => negb (control_char c)) s.

Lemma validate_ok (kind key : string) :
  bool_decide (kind ∈ KINDS) = true -> key <> EmptyString -> (String.length key <= MAX_KEY_LEN)%nat ->
  printable key = true -> validate kind key = Ok tt.
Proof.
  intros Hk He Hl Hp. unfold validate. rewrite Hk. simpl. apply String.eqb_neq in He as ->.
  rewrite (proj2 (Nat.ltb_ge _ _) Hl). simpl. unfold str_exists. fold (printable key). by rewrite Hp.
Qed.

Lemma digits_printable (s : string) : ascii_digits s = true -> printable s = true.
Proof.
  intros [_ H]%andb_prop. unfold printable. induction s as [|d s IH]; [done|]. simpl in *.
  apply andb_prop in H as [Hd H]. rewrite IH by done. rewrite andb_true_r. revert Hd.
  unfold is_digit, in_range, control_char. generalize (code d). intros n [?%N.leb_le ?%N.leb_le]%andb_prop.
  rewrite (proj2 (N.ltb_ge n 32)), (proj2 (N.eqb_neq n 127)) by lia. done.
Qed.

(** A boot id, address or protocol that fits into a key. *)
Definition key_part (s : string) : bool :=
  negb (String.eqb s EmptyString) && (String.length s <=? 200)%nat && printable s.

Lemma key_part_spec (s : string) :
  key_part s = true -> s <> EmptyString /\ (String.length s <= 200)%nat /\ printable s = true.
Proof.
  unfold key_part. rewrite !andb_true_iff. intros [[?%negb_true_iff%String.eqb_neq ?%Nat.leb_le] ?]. done.
Qed.

Lemma process_key_valid (pid : Z) (boot : string) :
  0 <= pid < 2 ^ 31 -> key_part boot = true ->
  validate "process" (process_key pid boot) = Ok tt /\ key_shape "process" (process_key pid boot) = Ok tt.
Proof.
  intros Hp (Hb & Hl & Hpr)%key_part_spec. split; [|unfold key_shape; by rewrite process_key_reads].
  pose proof (str_of_Z_length pid 31 Hp). apply validate_ok; unfold process_key.
  - done.
  - by destruct (str_of_Z pid).
  - rewrite slength_app. simpl. unfold MAX_KEY_LEN. lia.
  - unfold printable. rewrite str_forall_app. fold (printable (str_of_Z pid)).
    rewrite digits_printable by (apply str_of_nonneg_digits; lia). by simpl.
Qed.

Lemma port_key_valid (addr proto : string) (port : Z) :
  key_part addr = true -> key_part proto = true -> str_forall (fun d => negb (Ascii.eqb d "/")) proto = true ->
  0 <= port < 2 ^ 31 ->
  validate "port" (port_key addr port proto) = Ok tt /\ key_shape "port" (port_key addr port proto) = Ok tt.
Proof.
  intros (Ha & Hal & Hap)%key_part_spec (Hp & Hpl & Hpp)%key_part_spec Hs Hz.
  split; [|unfold key_shape; by rewrite port_key_reads].
  pose proof (str_of_Z_length port 31 Hz). apply validate_ok; unfold port_key.
  - done.
  - by destruct addr.
  - rewrite slength_app. simpl. rewrite slength_app. simpl. unfold MAX_KEY_LEN. lia.
  - unfold printable in *. rewrite str_forall_app, Hap. simpl. rewrite str_forall_app.
    fold (printable (str_of_Z port)). rewrite digits_printable by (apply str_of_nonneg_digits; lia). by simpl.
Qed.

Section Cards.
Context {D : DuckDB}.
Variable getpwnam : string -> option Z.
Variable getpwuid : Z -> option string.
Variable iso : Z -> string.

Abbreviation build := (build_entity_card getpwnam getpwuid iso).

(** ** A card is always built for a well-formed key *)

Lemma predicate_ok (kind key : string) :
  key_shape kind key = Ok tt -> exists o, payload_predicate getpwnam kind key = Ok o.
Proof.
  unfold key_shape, payload_predicate. destruct (String.eqb kind "process"); [|intros _; by repeat case_match; eauto].
  destruct (split_process_key key) as [[pid b]|]; [eauto|done].
Qed.

Lemma builders_ok (db : CardDb) (kind key : string) (boot_id : option string) :
  key_shape kind key = Ok tt -> exists h, BUILDERS getpwnam getpwuid iso db kind key boot_id = Ok h.
Proof.
  unfold key_shape, BUILDERS, process_header_related, port_header_related.
  destruct (String.eqb kind "process"); [by destruct (split_process_key key) as [[]|]; eauto|].
  destruct (String.eqb kind "port"); [destruct (split_port_key key) as [[[]]|]; [|done]|];
    intros _; repeat case_match; eauto.
Qed.

(** The card, section by section. *)
Record card_of (faults : Faults) (db : CardDb) (kind key : string) (now : Z) (boot_id : option string)
    (window_h : Z) (c : Card) : Prop := {
  co_events : events_raise faults = false ->
    events_section getpwnam iso db kind key now window_h = Ok (card_events c);
  co_alerts : alerts_raise faults = false -> alerts_section getpwnam iso db kind key = Ok (card_alerts c);
  co_header : header_raises faults = false ->
    exists found related,
      BUILDERS getpwnam getpwuid iso db kind key boot_id = Ok (found, card_header c, related) /\
      card_related c = take RELATED_CAP related /\
      card_found c = (found || String.eqb kind "user" &&
                       (negb (bool_decide (card_events c = [])) || negb (bool_decide (card_alerts c = []))));
  co_failed : (events_raise faults = true -> card_events c = []) /\ (alerts_raise faults = true -> card_alerts c = []) /\
    (length (card_related c) <= RELATED_CAP)%nat;
  co_warnings : card_warnings c =
    (if header_raises faults then ["header_failed"]%string else []) ++
    (if events_raise faults then ["events_failed"]%string else []) ++
    (if alerts_raise faults then ["alerts_failed"]%string else []);
}.

Lemma build_card (faults : Faults) (db : CardDb) (kind key : string) (now : Z) (boot_id : option string) (window_h : Z) :
  validate kind key = Ok tt -> key_shape kind key = Ok tt ->
  exists c, build faults db kind key now boot_id window_h = Ok c /\
    card_of faults db kind key now boot_id window_h c.
Proof.
  intros Hv Hk. unfold build_entity_card. rewrite Hv, Hk.
  destruct (predicate_ok kind key Hk) as [o Ho]. destruct (builders_ok db kind key boot_id Hk) as [[[fd hd] rl] Hb].
  rewrite Hb. unfold events_section, alerts_section. rewrite Ho.
  destruct faults as [[] [] []], o as [f|]; cbn [guarded header_raises events_raise alerts_raise]; eexists; (split; [reflexivity|]);
    split; cbn [events_raise alerts_raise header_raises card_events card_alerts card_related card_header card_found card_warnings];
    unfold events_section, alerts_section; rewrite ?Hb, ?Ho; intros;
    try solve [done | split_and!; intros; first [done | rewrite length_take; apply Nat.le_min_l]];
    do 2 eexists; (split; [reflexivity|]); (split; [reflexivity|]); destruct fd, (String.eqb kind "user"); done.
Qed.

(** ** Links *)

Record tables_ok (db : CardDb) : Prop := {
  to_procs : NoDup ((fun r => (p_pid r, p_boot r)) <$> db_procs db);
  to_pids : Forall (fun r => 0 <= p_pid r < 2 ^ 31 /\ key_part (p_boot r) = true) (db_procs db);
  to_listeners : NoDup ((fun l => (l_addr l, l_port l, l_proto l)) <$> db_listeners db);
  to_ports : Forall (fun l => 0 <= l_port l < 2 ^ 31 /\ key_part (l_addr l) = true /\ key_part (l_proto l) = true /\
                              str_forall (fun d => negb (Ascii.eqb d "/")) (l_proto l) = true) (db_listeners db);
}.

(** A primary key finds the row it was taken from. *)
Lemma find_by_key {A K} `{EqDecision K} (key : A -> K) (p : A -> bool) (l : list A) (x : A) :
  NoDup (key <$> l) -> x ∈ l -> p x = true -> (forall y, p y = true -> key y = key x) -> List.find p l = Some x.
Proof.
  intros Hn Hx Hp Hk. destruct (List.find p l) as [y|] eqn:E.
  - apply List.find_some in E as [Hy Hpy]. f_equal. apply (NoDup_fmap_eq key l); auto. by apply list_elem_of_In.
  - exfalso. assert (p x = false) by (eapply List.find_none; [done|by apply list_elem_of_In]). congruence.
Qed.

Lemma find_proc (db : CardDb) (r : ProcCol) :
  tables_ok db -> r ∈ db_procs db -> List.find (is_proc (p_pid r) (p_boot r)) (db_procs db) = Some r.
Proof.
  intros Hdb Hr. apply (find_by_key (fun r => (p_pid r, p_boot r))); [apply Hdb | done | |].
  - unfold is_proc. by rewrite Z.eqb_refl, String.eqb_refl.
  - intros y. unfold is_proc. intros [?%Z.eqb_eq ?%String.eqb_eq]%andb_prop. congruence.
Qed.

Lemma find_listener (db : CardDb) (l : ListenCol) :
  tables_ok db -> l ∈ db_listeners db -> List.find (is_listener (l_addr l) (l_port l) (l_proto l)) (db_listeners db) = Some l.
Proof.
  intros Hdb Hl. apply (find_by_key (fun l => (l_addr l, l_port l, l_proto l))); [apply Hdb | done | |].
  - unfold is_listener. by rewrite Z.eqb_refl, !String.eqb_refl.
  - intros y. unfold is_listener. rewrite !andb_true_iff. intros [[?%String.eqb_eq ?%Z.eqb_eq] ?%String.eqb_eq]. congruence.
Qed.

Lemma in_capped {A} (f : A -> Z) (p : A -> bool) (n : nat) (l : list A) (x : A) :
  x ∈ take n (order_by f (List.filter p l)) -> x ∈ l /\ p x = true.
Proof.
  intros (i & Hx%list_elem_of_lookup_2 & _)%elem_of_take. rewrite order_by_perm in Hx. by apply list_elem_of_In, filter_In in Hx as [Hx%list_elem_of_In ?].
Qed.

(** The card of a stored process. *)
Lemma process_card (faults : Faults) (db : CardDb) (r : ProcCol) (now : Z) (boot_id : option string) (window_h : Z) :
  tables_ok db -> r ∈ db_procs db -> header_raises faults = false ->
  exists c hd rl, build faults db "process" (process_key (p_pid r) (p_boot r)) now boot_id window_h = Ok c /\
    process_header_related getpwuid iso db (process_key (p_pid r) (p_boot r)) boot_id = Ok (true, hd, rl) /\
    card_found c = true /\ card_related c = take RELATED_CAP rl /\
    forall ppid, p_ppid r = Some ppid ->
      related_process ppid (p_boot r) ("ppid " +:+ str_of_Z ppid) "parent" ∈ card_related c.
Proof.
  intros Hdb Hr Hh. pose proof (to_pids _ Hdb) as Hp. rewrite Forall_forall in Hp. destruct (Hp r Hr) as [Hpid Hboot].
  destruct (process_key_valid _ _ Hpid Hboot) as [Hv Hk].
  destruct (build_card faults db _ _ now boot_id window_h Hv Hk) as (c & -> & Hc).
  destruct (co_header _ _ _ _ _ _ _ _ Hc Hh) as (fd & rl & Hb & Hrel & Hf).
  change (BUILDERS _ _ _ _ _ _ _) with
    (process_header_related getpwuid iso db (process_key (p_pid r) (p_boot r)) boot_id) in Hb.
  exists c, (card_header c), rl. rewrite Hb. apply key_part_spec in Hboot as (Hne & _ & _).
  unfold process_header_related in Hb. rewrite process_key_reads, find_proc in Hb by done.
  injection Hb as <- Hhd <-. split_and!; [done..|by rewrite Hf|done|].
  intros ppid Hpp. rewrite Hrel, Hpp. cbn [app]. apply list_elem_of_here.
Qed.

(** The card of a stored listener. *)
Lemma port_card (faults : Faults) (db : CardDb) (l : ListenCol) (now : Z) (boot_id : option string) (window_h : Z) :
  tables_ok db -> l ∈ db_listeners db -> header_raises faults = false ->
  exists c, build faults db "port" (port_key (l_addr l) (l_port l) (l_proto l)) now boot_id window_h = Ok c /\
    card_found c = true /\
    forall pid boot, l_pid l = Some pid -> boot_id = Some boot ->
      related_process pid boot (or_text (l_comm l) (str_of_Z pid)) "owner" ∈ card_related c.
Proof.
  intros Hdb Hl Hh. pose proof (to_ports _ Hdb) as Hp. rewrite Forall_forall in Hp.
  destruct (Hp l Hl) as (Hport & Ha & Hpr & Hs). destruct (port_key_valid _ _ _ Ha Hpr Hs Hport) as [Hv Hk].
  destruct (build_card faults db _ _ now boot_id window_h Hv Hk) as (c & -> & Hc).
  destruct (co_header _ _ _ _ _ _ _ _ Hc Hh) as (fd & rl & Hb & Hrel & Hf).
  change (BUILDERS _ _ _ _ _ _ _) with (port_header_related iso db (port_key (l_addr l) (l_port l) (l_proto l)) boot_id) in Hb.
  apply key_part_spec in Ha as (Hne & _), Hpr as (Hnp & _).
  unfold port_header_related in Hb. rewrite port_key_reads, find_listener in Hb by done.
  injection Hb as <- Hhd <-. exists c. split_and!; [done|by rewrite Hf|].
  intros pid boot Hpid ->. rewrite Hrel, Hpid. apply list_elem_of_here.
Qed.

(** A link of the card of [r]: to a process whose card names [r] as its
    parent, or to a port whose card names [r] as its owner. *)
Definition leads_back (faults : Faults) (db : CardDb) (now : Z) (boot_id : option string) (window_h : Z)
    (r : ProcCol) (l : Related) (back : string) : Prop :=
  exists k c l', rel_key l = Some k /\ build faults db (rel_kind l) k now boot_id window_h = Ok c /\ card_found c = true /\
    l' ∈ card_related c /\ rel_relation l' = back /\ rel_kind l' = "process"%string /\
    rel_key l' = Some (process_key (p_pid r) (p_boot r)).

Lemma process_links (db : CardDb) (r : ProcCol) (boot_id : option string) hd rl l :
  tables_ok db -> r ∈ db_procs db ->
  process_header_related getpwuid iso db (process_key (p_pid r) (p_boot r)) boot_id = Ok (true, hd, rl) -> l ∈ rl ->
  (rel_relation l = "child"%string -> exists c, c ∈ db_procs db /\ p_ppid c = Some (p_pid r) /\ p_boot c = p_boot r /\
     l = related_process (p_pid c) (p_boot c) (or_text (p_comm c) (str_of_Z (p_pid c))) "child") /\
  (rel_relation l = "listens"%string -> exists s k, s ∈ db_listeners db /\ l_pid s = Some (p_pid r) /\
     boot_id = Some (p_boot r) /\ k = Some (port_key (l_addr s) (l_port s) (l_proto s)) /\ l = mkRelated "port" k k "listens").
Proof.
  intros Hdb Hr Hb Hl. pose proof (to_pids _ Hdb) as Hp. rewrite Forall_forall in Hp.
  destruct (Hp r Hr) as [Hpid (Hne & _)%key_part_spec].
  unfold process_header_related in Hb. rewrite process_key_reads, find_proc in Hb by done.
  injection Hb as _ <-. rewrite !elem_of_app in Hl. destruct Hl as [Hl|[Hl|[Hl|[Hl|Hl]]]].
  - destruct (p_ppid r); [|by apply elem_of_nil in Hl]. by apply list_elem_of_singleton in Hl as ->.
  - apply list_elem_of_fmap in Hl as (c & -> & Hc). split; [intros _|done].
    apply in_capped in Hc as [Hc [?%bool_decide_eq_true ?%String.eqb_eq]%andb_prop].
    exists c. split_and!; [done..|congruence].
  - destruct (p_exe_sha256 r); [|by apply elem_of_nil in Hl]. case_match; [by apply elem_of_nil in Hl|].
    by apply list_elem_of_singleton in Hl as ->.
  - destruct (p_uid r ≫= getpwuid); [|by apply elem_of_nil in Hl]. case_match; [by apply elem_of_nil in Hl|].
    by apply list_elem_of_singleton in Hl as ->.
  - case_bool_decide as Hbo; [|by apply elem_of_nil in Hl]. apply elem_of_app in Hl as [Hl|Hl];
      apply list_elem_of_fmap in Hl as (s & -> & Hs); [done|]. split; [done|intros _].
    apply in_capped in Hs as [Hs ?%bool_decide_eq_true]. eauto 10.
Qed.

Lemma length_take_le_cap {A} (n : nat) (l : list A) : (length (take n l) <= n)%nat.
Proof. rewrite length_take. apply Nat.le_min_l. Qed.
Lemma in_take_app {A} (n : nat) (a b : list A) (x : A) : (length a <= n)%nat -> x ∈ a -> x ∈ take n (a ++ b).
Proof. intros Hn Hx. rewrite take_app_ge by done. by apply elem_of_app; left. Qed.

(** The rows whose parent is [r]. *)
Definition child_rows (db : CardDb) (r : ProcCol) : list ProcCol :=
  List.filter (fun c => bool_decide (p_ppid c = Some (p_pid r)) && String.eqb (p_boot c) (p_boot r)) (db_procs db).

Lemma child_linked (db : CardDb) (r ch : ProcCol) (boot_id : option string) hd rl :
  tables_ok db -> r ∈ db_procs db -> ch ∈ child_rows db r -> (length (child_rows db r) <= CHILD_CAP)%nat ->
  process_header_related getpwuid iso db (process_key (p_pid r) (p_boot r)) boot_id = Ok (true, hd, rl) ->
  related_process (p_pid ch) (p_boot ch) (or_text (p_comm ch) (str_of_Z (p_pid ch))) "child" ∈ take RELATED_CAP rl.
Proof.
  intros Hdb Hr Hch Hcap Hb. pose proof (to_pids _ Hdb) as Hp. rewrite Forall_forall in Hp.
  destruct (Hp r Hr) as [Hpid (Hne & _)%key_part_spec].
  unfold process_header_related in Hb. rewrite process_key_reads, find_proc in Hb by done.
  injection Hb as _ <-. rewrite app_assoc. apply in_take_app.
  - rewrite length_app, length_fmap.
    assert (length (children db (p_pid r) (p_boot r)) <= 20)%nat by apply length_take_le_cap.
    unfold RELATED_CAP. destruct (p_ppid r); cbn [length]; lia.
  - apply elem_of_app; right. apply list_elem_of_fmap. exists ch.
    pose proof (proj1 (filter_In _ _ _) (proj1 (list_elem_of_In _ _) Hch)) as [_ [_ Hbo%String.eqb_eq]%andb_prop].
    split; [by rewrite Hbo|]. unfold children. fold (child_rows db r).
    rewrite take_ge by (by rewrite order_by_perm). by rewrite order_by_perm.
Qed.

(** The card of a stored process is found, and its links lead somewhere:
    a child link opens the card of a process that links back to this one as
    its parent, a port link opens the card of a listening socket that links
    back to it as its owner, and when the process has at most twenty children
    each of them has a link. *)
Theorem process_links_lead_back (faults : Faults) (db : CardDb) (r : ProcCol) (now : Z) (boot_id : option string)
    (window_h : Z) :
  tables_ok db -> r ∈ db_procs db -> header_raises faults = false ->
  exists c, build faults db "process" (process_key (p_pid r) (p_boot r)) now boot_id window_h = Ok c /\
    card_found c = true /\
    (forall l, l ∈ card_related c ->
       (rel_relation l = "child"%string -> leads_back faults db now boot_id window_h r l "parent") /\
       (rel_relation l = "listens"%string -> leads_back faults db now boot_id window_h r l "owner")) /\
    ((length (child_rows db r) <= CHILD_CAP)%nat -> forall ch, ch ∈ child_rows db r ->
       exists l, l ∈ card_related c /\ rel_relation l = "child"%string /\
         rel_key l = Some (process_key (p_pid ch) (p_boot ch))).
Proof.
  intros Hdb Hr Hh. destruct (process_card faults db r now boot_id window_h Hdb Hr Hh) as (c & hd & rl & Hb & Hrl & Hf & Hrel & _).
  exists c. split_and!; [done..| |].
  - intros l Hl. rewrite Hrel in Hl. apply elem_of_take in Hl as (i & Hl%list_elem_of_lookup_2 & _).
    destruct (process_links db r boot_id hd rl l Hdb Hr Hrl Hl) as [Hch Hli]. split.
    + intros (ch & Hin & Hpp & Hbo & ->)%Hch.
      destruct (process_card faults db ch now boot_id window_h Hdb Hin Hh) as (c' & _ & _ & Hb' & _ & Hf' & _ & Hpar).
      specialize (Hpar _ Hpp). rewrite Hbo in Hpar. do 3 eexists. split_and!; [reflexivity|exact Hb'|exact Hf'|exact Hpar|done..].
    + intros (s & k & Hin & Hpid & Hbo & -> & ->)%Hli.
      destruct (port_card faults db s now boot_id window_h Hdb Hin Hh) as (c' & Hb' & Hf' & Hown).
      specialize (Hown _ _ Hpid Hbo). do 3 eexists. split_and!; [reflexivity|exact Hb'|exact Hf'|exact Hown|done..].
  - intros Hcap ch Hch. rewrite Hrel. eexists. split_and!; [by eapply child_linked|done..].
Qed.

Lemma events_section_cap (db : CardDb) (kind key : string) (now window_h : Z) (evs : list EventView) :
  events_section getpwnam iso db kind key now window_h = Ok evs -> (length evs <= 100)%nat.
Proof.
  unfold events_section. destruct (payload_predicate _ _ _) as [[f|]|]; intros [= <-]; [|simpl; lia].
  rewrite length_fmap. apply length_take_le_cap.
Qed.
Lemma alerts_section_cap (db : CardDb) (kind key : string) (als : list AlertView) :
  alerts_section getpwnam iso db kind key = Ok als -> (length als <= 50)%nat.
Proof.
  unfold alerts_section. destruct (payload_predicate _ _ _) as [[f|]|]; intros [= <-]; [|simpl; lia].
  rewrite length_fmap. apply length_take_le_cap.
Qed.

(** Whatever the tables hold and whichever sections fail, a request with a
    valid kind and key is answered with a card: at most 100 events, 50 alerts
    and 50 links, a warning for each section that failed and none other, and
    a section that did not fail is what it is when none does. *)
Theorem card_degrades_by_section (faults : Faults) (db : CardDb) (kind key : string) (now : Z)
    (boot_id : option string) (window_h : Z) :
  validate kind key = Ok tt -> key_shape kind key = Ok tt ->
  exists c c0, build faults db kind key now boot_id window_h = Ok c /\
    build (mkFaults false false false) db kind key now boot_id window_h = Ok c0 /\
    (length (card_events c) <= 100)%nat /\ (length (card_alerts c) <= 50)%nat /\ (length (card_related c) <= 50)%nat /\
    card_warnings c0 = [] /\
    (header_raises faults = false -> card_header c = card_header c0 /\ card_related c = card_related c0) /\
    (events_raise faults = false -> card_events c = card_events c0) /\
    (alerts_raise faults = false -> card_alerts c = card_alerts c0) /\
    card_warnings c =
      (if header_raises faults then ["header_failed"]%string else []) ++
      (if events_raise faults then ["events_failed"]%string else []) ++
      (if alerts_raise faults then ["alerts_failed"]%string else []).
Proof.
  intros Hv Hk. destruct (build_card faults db kind key now boot_id window_h Hv Hk) as (c & Hc & [He Ha Hh Hfl Hw]).
  destruct Hfl as (Hef & Haf & Hr).
  destruct (build_card (mkFaults false false false) db kind key now boot_id window_h Hv Hk) as (c0 & Hc0 & [He0 Ha0 Hh0 _ Hw0]).
  specialize (He0 eq_refl). specialize (Ha0 eq_refl). destruct (Hh0 eq_refl) as (fd0 & rl0 & Hb0 & Hrel0 & _).
  exists c, c0. split_and!; try done.
  - destruct (events_raise faults); [rewrite Hef by done; simpl; lia|]. by eapply events_section_cap, He.
  - destruct (alerts_raise faults); [rewrite Haf by done; simpl; lia|]. by eapply alerts_section_cap, Ha.
  - intros (fd & rl & Hb & Hrel & _)%Hh. rewrite Hb in Hb0. injection Hb0 as <- Hhd <-. split; [done|congruence].
  - intros H%He. congruence.
  - intros H%Ha. congruence.
Qed.
End Cards.

Section Exact.
Context {D : DuckDB} {DL : DuckDBLaws D} {DN : DuckDBNulls D}.
Variable getpwnam : string -> option Z.
Variable getpwuid : Z -> option string.
Variable iso : Z -> string.

(** The events of a card are the newest hundred, newest first, of the
    stored events in the window that mention the entity: whose process id,
    executable digest, address, path, unit, device or user is the key. All are
    shown when there are no more than a hundred, and an event left out is no
    newer than any event shown. *)
Theorem card_events_exact (faults : Faults) (db : CardDb) (es : list Event) (kind key : string) (now : Z)
    (boot_id : option string) (window_h : Z) :
  stored iso (db_events db) es -> forallb plain_event es = true -> events_raise faults = false ->
  validate kind key = Ok tt -> key_shape kind key = Ok tt ->
  exists c shown, build_entity_card getpwnam getpwuid iso faults db kind key now boot_id window_h = Ok c /\
    newest_first EVENTS_CAP (List.filter (fun e => event_in_window now window_h e && mentions getpwnam kind key e) es) shown /\
    card_events c = view_of_event iso <$> shown.
Proof.
  intros Hst Hpl Hf Hv Hk. destruct (build_card getpwnam getpwuid iso faults db kind key now boot_id window_h Hv Hk) as (c & Hc & Hco).
  pose proof (co_events _ _ _ _ _ _ _ _ _ _ _ Hco Hf) as He. exists c. rewrite Hc. clear Hco Hc.
  unfold events_section in He. destruct (payload_predicate getpwnam kind key) as [[f|]|] eqn:Hp; [| |done].
  - destruct (events_rows_exact iso _ es f now window_h (mentions getpwnam kind key) Hst) as (shown & Hn & Hev).
    { intros e Hin. apply (frag_mention getpwnam iso kind key); [|done]. rewrite forallb_forall in Hpl.
      by apply Hpl, list_elem_of_In. }
    exists shown. split_and!; [done..|]. rewrite <- Hev. congruence.
  - exists []. injection He as <-. split_and!; [done| |done]. exists [].
    assert (List.filter (fun e => event_in_window now window_h e && mentions getpwnam kind key e) es = []) as ->.
    { unfold payload_predicate in Hp. unfold mentions. repeat case_match; try done. clear.
      induction es; [done|]. simpl. by rewrite andb_false_r. }
    split_and!; [done..|constructor|]. intros a b Ha. by apply elem_of_nil in Ha.
Qed.

(** The alerts section is empty whatever alerts are stored: a stored alert is
    the document of the alert model, which has none of the blocks of an event
    that the predicates look into. *)
Lemma alerts_section_empty (db : CardDb) (kind key : string) :
  key_shape kind key = Ok tt -> alerts_section getpwnam iso db kind key = Ok [].
Proof.
  intros Hk. unfold alerts_section. destruct (predicate_ok getpwnam kind key Hk) as [[f|] Hp]; rewrite Hp; [|done].
  assert (forall a, frag_holds f (alert_fields iso a) = false) as Hf.
  { intros a.
    assert (forall segs t, ident_segs segs = true -> json_walk (PDict (alert_fields iso a)) segs = None ->
      tv_true (alt_holds (alert_fields iso a) (json_path segs, t)) = false) as Ha.
    { intros segs t Hs Hw. unfold alt_holds. simpl. by rewrite json_text_missing. }
    unfold payload_predicate in Hp. destruct fragment_paths as (E1 & E2 & E3 & E4 & E5 & E6 & E7 & E8 & E9 & E10).
    rewrite E1, E2, E3, E4, E5, E6, E7, E8, E9, E10 in Hp. clear E1 E2 E3 E4 E5 E6 E7 E8 E9 E10.
    repeat (match type of Hp with context [String.eqb kind ?k] => destruct (String.eqb kind k) end);
      try destruct (split_process_key key) as [[pid b]|]; try destruct (getpwnam key) as [uid|]; simplify_eq;
      unfold frag_holds; cbn [frag_alts foldr]; by rewrite ?tv_true_or, ?Ha by reflexivity. }
  unfold alerts_rows. replace (List.filter _ _) with (@nil AlertRow); [done|].
  induction (db_alert_rows db) as [|r rows IH]; [done|]. simpl. by rewrite Hf.
Qed.

(** The text of a statement does not depend on the key. *)
Lemma fragment_text_fixed (kind key key' : string) (f f' : Fragment) :
  payload_predicate getpwnam kind key = Ok (Some f) -> payload_predicate getpwnam kind key' = Ok (Some f') ->
  (kind = "user"%string -> (is_Some (getpwnam key) <-> is_Some (getpwnam key'))) -> frag_text f = frag_text f'.
Proof.
  unfold payload_predicate. intros H H' Hu. repeat (match type of H with context [String.eqb kind ?k] =>
    destruct (String.eqb_spec kind k) end); try destruct (split_process_key key) as [[]|];
    try destruct (split_process_key key') as [[]|]; simplify_eq; try done.
  all: destruct (getpwnam key), (getpwnam key'); try done; destruct (Hu eq_refl) as [H1 H2];
    first [by destruct (H1 ltac:(eauto)) | by destruct (H2 ltac:(eauto))].
Qed.
End Exact.

(** ** Examples *)

Module CardExample.
Definition proc (pid : Z) (ppid : option Z) (comm : string) : ProcCol :=
  mkProcCol pid "b1" ppid (Some comm) (Some "/usr/bin/sshd"%string) (Some "ab12cd34ef56ab12"%string) (Some 0) None
    "running" None 10 20.
Definition sock : ListenCol := mkListenCol "::1" 22 "tcp" (Some "ipv6"%string) (Some 7) (Some "sshd"%string) 10 20.
Definition event (id : string) (ts pid : Z) : Event :=
  {| ev_schema_version := "1.0.0"; ev_ts := ts; ev_event_id := id; ev_kind := EK_event; ev_category := ["process"]%string;
     ev_type := ["start"]%string; ev_action := "process_start"; ev_outcome := None; ev_severity := SevInfo;
     ev_module := "process"; ev_first_seen := false; ev_host := None; ev_user := None;
     ev_process := Some [("pid", PInt pid)]%string; ev_file := None; ev_source := None; ev_destination := None;
     ev_network := None; ev_service := None; ev_package := None; ev_device := None; ev_persistence := None;
     ev_vulnerability := None; ev_hunt := None; ev_rule := None; ev_threat := None; ev_baseline := None;
     ev_evidence := None; ev_raw := None; ev_labels := []; ev_message := None |}.
Definition events : list Event := [event "a" 100 7; event "b" 200 8; event "c" 300 7].
Definition iso (t : Z) : string := str_of_Z t.
Definition db : CardDb :=
  mkCardDb ((fun e => row_of_event iso e 0) <$> events) [] [proc 7 None "sshd"; proc 8 (Some 7) "sh"] [] [sock] [] [] [].
Definition faults : Faults := mkFaults false false false.
Definition names (k : string) : option Z := if String.eqb k "root" then Some 0 else None.
Definition uids (u : Z) : option string := if u =? 0 then Some "root"%string else None.
Definition card : result InvalidEntity Card :=
  build_entity_card (D := ReferenceDB) names uids iso faults db "process" "7@b1" 400 (Some "b1"%string) 24.
End CardExample.

Example card_of_sshd :
  match CardExample.card with
  | Ok c => (v_event_id <$> card_events c, (fun l => (rel_relation l, rel_key l)) <$> card_related c)
  | Err _ => ([], [])
  end =
  (["c"; "a"], [("child", Some "8@b1"); ("executable", Some "ab12cd34ef56ab12"); ("user", Some "root");
                ("listens", Some "::1:22/tcp")])%string.
Proof. vm_compute. reflexivity. Qed.

Lemma card_events_exact_witness :
  exists c shown, CardExample.card = Ok c /\ length shown = 2%nat /\
    card_events c = view_of_event CardExample.iso <$> shown.
Proof.
  destruct (card_events_exact (D := ReferenceDB) CardExample.names CardExample.uids CardExample.iso CardExample.faults
              CardExample.db CardExample.events "process" "7@b1" 400 (Some "b1"%string) 24)
    as (c & shown & Hc & (rest & Hp & Hl & _) & Hv).
  - repeat constructor; by exists 0.
  - vm_compute. reflexivity.
  - reflexivity.
  - vm_compute. reflexivity.
  - vm_compute. reflexivity.
  - exists c, shown. split; [exact Hc|]. split; [|exact Hv]. rewrite Hl. vm_compute. reflexivity.
Defined.

Lemma example_tables : tables_ok CardExample.db.
Proof.
  split.
  - apply (bool_decide_eq_true_1 (NoDup _)). by vm_compute.
  - repeat constructor; vm_compute; congruence.
  - apply (bool_decide_eq_true_1 (NoDup _)). by vm_compute.
  - repeat constructor; vm_compute; congruence.
Qed.

Lemma process_links_lead_back_witness :
  exists c, CardExample.card = Ok c /\ card_found c = true.
Proof.
  destruct (process_links_lead_back (D := ReferenceDB) CardExample.names CardExample.uids CardExample.iso CardExample.faults
              CardExample.db (CardExample.proc 7 None "sshd") 400 (Some "b1"%string) 24) as (c & Hc & Hf & _).
  - apply example_tables.
  - apply list_elem_of_here.
  - reflexivity.
  - exists c. split; [exact Hc|exact Hf].
Defined.

Lemma card_degrades_by_section_witness :
  exists c, build_entity_card (D := ReferenceDB) CardExample.names CardExample.uids CardExample.iso
      (mkFaults true false true) CardExample.db "process" "7@b1" 400 None 24 = Ok c /\
    card_warnings c = ["header_failed"; "alerts_failed"]%string.
Proof.
  destruct (card_degrades_by_section (D := ReferenceDB) CardExample.names CardExample.uids CardExample.iso
              (mkFaults true false true) CardExample.db "process" "7@b1" 400 None 24)
    as (c & c0 & Hc & _ & _ & _ & _ & _ & _ & _ & _ & Hw).
  - vm_compute. reflexivity.
  - vm_compute. reflexivity.
  - exists c. split; [exact Hc|exact Hw].
Defined.
