(* ===== verification/Udev.v ===== *)
(** * The udev monitor ([inspectord/workers/udev_monitor])

    Device events streamed by [udevadm monitor]: blocks of [KEY=VALUE] lines
    ended by a blank line, read in chunks that may end anywhere. What one call
    of [poll] finds is an input: nothing to read, an interrupted read, the end
    of the stream, or the text the incremental decoder returns for the bytes
    read.

    However the bytes of the stream are cut into reads, the records are those
    of its blocks ([udev_stream_exact]); what is kept between reads stays
    bounded ([udev_memory_bounded]). *)

From S2P Require Import Prelude Schemas Expr RuleEval HuntCompiler HuntSql Alerts Float64 Tables Projector EntityCard EntityCardProofs.
Local Open Scope Z_scope.

Definition MAX_BLOCK_LINES : nat := 500.
Definition MAX_LINEBUF_CHARS : Z := 2 ^ 20.

(** ** Event blocks *)

Record DeviceRecord := mkDeviceRecord {
  dr_action : string; dr_subsystem : string; dr_devtype : string; dr_devpath : string;
  dr_vendor : string; dr_product : string; dr_serial : string; dr_name : string;
  dr_properties : list (string * string);
}.

Definition add_property (props : list (string * string)) (line : string) : list (string * string) :=
  if String.eqb (strip line) EmptyString then props
  else
    match str_partition "=" line with
    | (_, None) => props
    | (key, Some value) => if String.eqb key EmptyString then props else od_set key value props
    end.

Definition prop (props : list (string * string)) (key : string) : string := default EmptyString (od_get key props).
(** [a or b]. *)
Definition or_else (a b : string) : string := if String.eqb a EmptyString then b else a.

Definition parse_event_block (lines : list string) : option DeviceRecord :=
  let props := foldl add_property [] lines in
  let p := prop props in
  let action := p "ACTION" in
  if String.eqb action EmptyString then None
  else
    let devpath := p "DEVPATH" in
    Some {| dr_action := action; dr_subsystem := p "SUBSYSTEM"; dr_devtype := p "DEVTYPE"; dr_devpath := devpath;
            dr_vendor := or_else (p "ID_VENDOR_ID") (p "ID_VENDOR");
            dr_product := or_else (p "ID_MODEL_ID") (p "ID_MODEL");
            dr_serial := or_else (p "ID_SERIAL_SHORT") (p "ID_SERIAL");
            dr_name := or_else (p "ID_MODEL") (or_else (p "ID_VENDOR") (path_basename devpath));
            dr_properties := props |}%string.

(** ** The source *)

Record UdevSource := mkUdevSource { us_block : list string; us_linebuf : string; us_closed : bool }.
Definition new_udev_source : UdevSource := mkUdevSource [] EmptyString false.

Inductive Readable :=
| Timeout_            (** nothing within the timeout *)
| Interrupted         (** [BlockingIOError] or [InterruptedError] *)
| EndOfStream         (** an empty read, or an [OSError] *)
| Chunk (text : string).

(** One complete line: a blank one ends the block. *)
Definition feed_line (st : list string * list DeviceRecord) (line : string) : list string * list DeviceRecord :=
  let '(block, records) := st in
  if String.eqb line EmptyString then
    ([], match parse_event_block block with Some r => records ++ [r] | None => records end)
  else
    let block := block ++ [line] in
    (if (MAX_BLOCK_LINES <? length block)%nat then [] else block, records).

Definition lf : string := String newline EmptyString.

(** [None] is the [RuntimeError]. *)
Definition poll (r : Readable) (s : UdevSource) : option (list DeviceRecord) * UdevSource :=
  if us_closed s then (None, s)
  else
    match r with
    | Timeout_ | Interrupted => (Some [], s)
    | EndOfStream => (None, s)
    | Chunk text =>
        let buf := us_linebuf s +:+ text in
        if negb (contains lf buf) && (MAX_LINEBUF_CHARS <? Z.of_nat (String.length buf))
        then (Some [], mkUdevSource [] EmptyString false)
        else
          let parts := split_on newline buf in
          let '(block, records) := foldl feed_line (us_block s, []) (removelast parts) in
          (Some records, mkUdevSource block (List.last parts EmptyString) false)
    end.

(** ** Closing *)

(** The child: whether it still runs, and whether it ends within five seconds
    of SIGTERM. *)
Record Child := mkChild { ch_running : bool; ch_ends_on_term : bool }.
Inductive Signal := SIGTERM | SIGKILL.

(** The signals sent; [wait] times out while the child runs on. *)
Definition close (c : Child) (s : UdevSource) : list Signal * UdevSource :=
  let s' := mkUdevSource (us_block s) (us_linebuf s) true in
  if negb (ch_running c) then ([], s')
  else if ch_ends_on_term c then ([SIGTERM], s')
  else ([SIGTERM; SIGKILL], s').

(** ** The worker *)

Definition record_args (host_name : string) (ts : Z) (r : DeviceRecord) : EventArgs :=
  let what := dr_name r +:+ " " +:+ dr_vendor r +:+ ":" +:+ dr_product r +:+ " at " +:+ dr_devpath r in
  let '(action, type_, message) :=
    if String.eqb (dr_action r) "add" then
      ("device_added", "installation", dr_subsystem r +:+ " device added: " +:+ what)
    else if String.eqb (dr_action r) "remove" then
      ("device_removed", "deletion", dr_subsystem r +:+ " device removed: " +:+ what)
    else ("device_changed", "change",
          dr_subsystem r +:+ " device changed (" +:+ dr_action r +:+ "): " +:+ what) in
  let b := event_args "udev_monitor" action ["host"] [type_] "info" in
  {| a_module := a_module b; a_action := a_action b; a_category := a_category b; a_type := a_type b;
     a_severity := a_severity b; a_kind := a_kind b;
     a_host := Some [("name", PStr host_name)]; a_outcome := None; a_message := Some message;
     a_process := None; a_file := None; a_user := None; a_source := None; a_destination := None;
     a_network := None; a_service := None; a_package := None;
     a_device := Some [("name", PStr (dr_name r)); ("kind", PStr (or_else (dr_devtype r) (dr_subsystem r)));
                       ("vendor", PStr (dr_vendor r)); ("product", PStr (dr_product r)); ("serial", PStr (dr_serial r))];
     a_persistence := None; a_vulnerability := None; a_hunt := None; a_threat := None;
     a_raw := Some (dict_set "source" (PStr "udevadm") (prod_map id PStr <$> dr_properties r));
     a_labels := Some ["device"]; a_ts := Some ts; a_first_seen := false |}%string.

Definition record_to_event (host_name : string) (stamp : DeviceRecord -> Z * string) (r : DeviceRecord) : option Event :=
  build_event (stamp r).1 (stamp r).2 (record_args host_name (stamp r).1 r).

Record UdevWorker := mkUdevWorker { uw_stream : option UdevSource }.
Definition start : UdevWorker := mkUdevWorker (Some new_udev_source).

Definition step (host_name : string) (stamp : DeviceRecord -> Z * string) (r : Readable) (w : UdevWorker)
  : option (list Event) * UdevWorker :=
  match uw_stream w with
  | None => (None, w)
  | Some s =>
      let '(records, s') := poll r s in
      (match records with Some rs => Some (omap (record_to_event host_name stamp) rs) | None => None end,
       mkUdevWorker (Some s'))
  end.

(** [stop]: the signals sent to the child. *)
Definition stop (c : Child) (w : UdevWorker) : list Signal * UdevWorker :=
  match uw_stream w with
  | None => ([], w)
  | Some s => ((close c s).1, mkUdevWorker None)
  end.

(** The loop of [main]: [true] says that a stop signal has set the flag when
    the loop looks at it; [c] is the child when the loop ends. The loop and an
    exception both end in [stop]. *)
Fixpoint main_loop (host_name : string) (stamp : DeviceRecord -> Z * string) (rounds : list (bool * Readable))
    (c : Child) (w : UdevWorker) : list Event * list Signal :=
  match rounds with
  | [] => ([], [])
  | (stopping, r) :: rest =>
      if (stopping : bool) then ([], (stop c w).1)
      else
        match step host_name stamp r w with
        | (Some es, w') => let '(es', sig) := main_loop host_name stamp rest c w' in (es ++ es', sig)
        | (None, w') => ([], (stop c w').1)
        end
  end.

(** ** Cutting a text into lines *)

Lemma split_on_nonempty (sep : ascii) (s : string) : split_on sep s <> [].
Proof. induction s as [|c s IH]; [done|]. simpl. case_match; [done|]. by destruct (split_on sep s). Qed.

(** The parts of a text that grows: only the last part changes. *)
Lemma split_on_grow (sep : ascii) (a b : string) :
  split_on sep (a +:+ b) = removelast (split_on sep a) ++ split_on sep (List.last (split_on sep a) EmptyString +:+ b).
Proof.
  induction a as [|c a IH]; [done|]. cbn [String.append split_on]. destruct (Ascii.eqb c sep) eqn:Ec.
  - rewrite IH. pose proof (split_on_nonempty sep a) as Hne. by destruct (split_on sep a) as [|w [|w' ws]].
  - rewrite IH. pose proof (split_on_nonempty sep a) as Hne. destruct (split_on sep a) as [|w [|w' ws]] eqn:E; [done| |done].
    cbn. by rewrite Ec.
Qed.

Lemma split_last_clean (sep : ascii) (s : string) :
  str_forall (fun c => negb (Ascii.eqb c sep)) (List.last (split_on sep s) EmptyString) = true.
Proof.
  induction s as [|c s IH]; [done|]. cbn [split_on]. pose proof (split_on_nonempty sep s) as Hne.
  destruct (Ascii.eqb c sep) eqn:Ec; destruct (split_on sep s) as [|w [|w' ws]]; try done. cbn in *. by rewrite Ec.
Qed.

(** ** Feeding lines *)

Lemma feed_records (block : list string) (records : list DeviceRecord) (lines : list string) :
  foldl feed_line (block, records) lines =
  ((foldl feed_line (block, []) lines).1, records ++ (foldl feed_line (block, []) lines).2).
Proof.
  revert block records. induction lines as [|l lines IH]; intros block records; [simpl; by rewrite app_nil_r|].
  cbn [foldl feed_line]. destruct (String.eqb l EmptyString); [|by apply IH].
  destruct (parse_event_block block) as [r|].
  - rewrite IH, (IH [] ([] ++ [r])). cbn [fst snd]. by rewrite <- !app_assoc.
  - by apply IH.
Qed.

(** The polls of a run, until one raises. *)
Fixpoint polls (reads : list Readable) (s : UdevSource) : option (list DeviceRecord) * UdevSource :=
  match reads with
  | [] => (Some [], s)
  | r :: rest =>
      match poll r s with
      | (None, s') => (None, s')
      | (Some rs, s') =>
          let '(more, s'') := polls rest s' in
          (match more with Some rs' => Some (rs ++ rs') | None => None end, s'')
      end
  end.

Definition text_of (r : Readable) : string := match r with Chunk t => t | _ => EmptyString end.
Fixpoint text_read (reads : list Readable) : string :=
  match reads with [] => EmptyString | r :: rest => text_of r +:+ text_read rest end.

Definition short (l : string) : Prop := Z.of_nat (String.length l) <= MAX_LINEBUF_CHARS.

Lemma split_first_long (sep : ascii) (a b : string) :
  str_forall (fun c => negb (Ascii.eqb c sep)) a = true ->
  exists w ws, split_on sep (a +:+ b) = w :: ws /\ (String.length a <= String.length w)%nat.
Proof.
  intros Ha. rewrite split_on_grow, split_on_single by done. cbn [removelast List.last app].
  induction a as [|c a IH]; simpl.
  - pose proof (split_on_nonempty sep b). destruct (split_on sep b) as [|w ws]; [done|]. exists w, ws. split; [done|lia].
  - simpl in Ha. apply andb_prop in Ha as [Hc%negb_true_iff Ha]. rewrite Hc. destruct (IH Ha) as (w & ws & -> & Hl).
    exists (String c w), ws. split; [done|]. simpl. lia.
Qed.

Lemma contains_lf_without (s : string) :
  contains lf s = false -> str_forall (fun c => negb (Ascii.eqb c newline)) s = true.
Proof.
  induction s as [|c s IH]; [done|]. cbn [contains]. intros [H1 H2]%orb_false_iff. cbn [str_forall]. rewrite IH by done.
  rewrite andb_true_r. unfold lf in H1. cbn [startswith] in H1. rewrite Ascii.eqb_sym. by destruct (Ascii.eqb newline c).
Qed.

Lemma last_of_app {A} (a b : list A) (d : A) : b <> [] -> List.last (a ++ b) d = List.last b d.
Proof.
  intros Hb. induction a as [|x a IH]; [done|]. cbn [app]. rewrite <- IH. by destruct a, b.
Qed.

(** Reading the rest of a stream of which [buf] is the unfinished line. *)
Lemma polls_stream (reads : list Readable) (block : list string) (buf : string) :
  EndOfStream ∉ reads -> str_forall (fun c => negb (Ascii.eqb c newline)) buf = true ->
  Forall short (split_on newline (buf +:+ text_read reads)) ->
  let parts := split_on newline (buf +:+ text_read reads) in
  let '(block', records) := foldl feed_line (block, []) (removelast parts) in
  polls reads (mkUdevSource block buf false) = (Some records, mkUdevSource block' (List.last parts EmptyString) false).
Proof.
  revert block buf. induction reads as [|r reads IH]; intros block buf He Hb Hs.
  { simpl. rewrite sapp_nil_r, split_on_single by done. done. }
  apply not_elem_of_cons in He as [Hr He]. cbn [polls]. destruct r as [| | |t]; [| |done|].
  - unfold poll at 1. cbn [us_closed]. specialize (IH block buf He Hb Hs). cbv zeta in *. cbn [text_read text_of] in *.
    change (EmptyString +:+ text_read reads) with (text_read reads) in *.
    destruct (foldl feed_line _ _) as [block' records]. by rewrite IH.
  - unfold poll at 1. cbn [us_closed]. specialize (IH block buf He Hb Hs). cbv zeta in *. cbn [text_read text_of] in *.
    change (EmptyString +:+ text_read reads) with (text_read reads) in *.
    destruct (foldl feed_line _ _) as [block' records]. by rewrite IH.
  - cbn [text_read text_of] in *. rewrite <- sapp_assoc in Hs. set (buf1 := buf +:+ t) in *.
    assert (Hcap : negb (contains lf buf1) && (MAX_LINEBUF_CHARS <? Z.of_nat (String.length buf1)) = false).
    { destruct (contains lf buf1) eqn:Ec; [done|]. cbn [negb andb]. apply Z.ltb_ge.
      destruct (split_first_long newline buf1 (text_read reads) (contains_lf_without _ Ec)) as (w & ws & Hw & Hl).
      rewrite Hw in Hs. apply Forall_cons in Hs as [Hs _]. unfold short in Hs. lia. }
    unfold poll at 1. cbn [us_closed us_linebuf us_block]. fold buf1. rewrite Hcap.
    rewrite split_on_grow in Hs. apply Forall_app in Hs as [_ Hs].
    destruct (foldl feed_line (block, []) (removelast (split_on newline buf1))) as [b1 r1] eqn:E1.
    specialize (IH b1 (List.last (split_on newline buf1) EmptyString) He (split_last_clean _ _) Hs). cbv zeta in IH.
    rewrite <- (sapp_assoc buf t). fold buf1. rewrite (split_on_grow newline buf1). cbv zeta.
    pose proof (split_on_nonempty newline (List.last (split_on newline buf1) EmptyString +:+ text_read reads)) as Hne.
    rewrite removelast_app, foldl_app, E1, (feed_records b1 r1) by done.
    destruct (foldl feed_line (b1, []) _) as [b2 r2]. cbn [fst snd]. rewrite IH. f_equal. f_equal.
    by rewrite last_of_app.
Qed.

(** ** The stream of events *)

Definition line_ok (l : string) : Prop :=
  l <> EmptyString /\ str_forall (fun c => negb (Ascii.eqb c newline)) l = true /\ short l.
Definition block_ok (b : list string) : Prop := (length b <= MAX_BLOCK_LINES)%nat /\ Forall line_ok b.

(** The text of the events: the lines of each, and a blank line. *)
Fixpoint print_lines (ls : list string) : string :=
  match ls with [] => EmptyString | l :: rest => l +:+ String newline (print_lines rest) end.
Definition stream (blocks : list (list string)) : string := print_lines (mjoin ((fun b => b ++ [EmptyString]) <$> blocks)).

Lemma split_print (ls : list string) :
  Forall (fun l => str_forall (fun c => negb (Ascii.eqb c newline)) l = true) ls ->
  split_on newline (print_lines ls) = ls ++ [EmptyString].
Proof.
  induction ls as [|l ls IH]; intros H; [done|]. apply Forall_cons in H as [Hl Hls]. cbn [print_lines].
  by rewrite split_on_app, IH by done.
Qed.

Lemma feed_block (b : list string) :
  block_ok b ->
  foldl feed_line ([], []) (b ++ [EmptyString]) = ([], match parse_event_block b with Some r => [r] | None => [] end).
Proof.
  intros [Hl Hb]. rewrite foldl_app.
  enough (H : forall pre, (length pre + length b <= MAX_BLOCK_LINES)%nat -> foldl feed_line (pre, []) b = (pre ++ b, [])).
  { rewrite (H []) by done. done. }
  clear Hl. induction Hb as [|l b (Hne & _) _ IH]; intros pre Hl; cbn [foldl feed_line]; [by rewrite app_nil_r|].
  apply String.eqb_neq in Hne as ->. cbn [length] in Hl. rewrite (proj2 (Nat.ltb_ge _ _)) by (rewrite length_app; cbn [length]; lia).
  rewrite IH by (rewrite length_app; cbn [length]; lia). by rewrite <- app_assoc.
Qed.

Lemma feed_blocks (blocks : list (list string)) :
  Forall block_ok blocks ->
  foldl feed_line ([], []) (mjoin ((fun b => b ++ [EmptyString]) <$> blocks)) = ([], omap parse_event_block blocks).
Proof.
  induction 1 as [|b blocks Hb _ IH]; [done|]. csimpl. rewrite foldl_app, feed_block, feed_records, IH by done. cbn [fst snd].
  by destruct (parse_event_block b).
Qed.

(** C27. However the text of a series of device events is cut into reads, with
    timeouts and interrupted reads between them, the records are exactly those
    of the events, in order, and nothing is left over. *)
Theorem udev_stream_exact (blocks : list (list string)) (reads : list Readable) :
  Forall block_ok blocks -> EndOfStream ∉ reads -> text_read reads = stream blocks ->
  polls reads new_udev_source = (Some (omap parse_event_block blocks), new_udev_source).
Proof.
  intros Hb He Ht. pose proof (polls_stream reads [] EmptyString He eq_refl) as H.
  change (EmptyString +:+ text_read reads) with (text_read reads) in H. rewrite Ht in H.
  assert (Hlines : Forall line_ok (mjoin blocks)).
  { apply Forall_join. eapply Forall_impl; [exact Hb|]. by intros b [_ ?]. }
  set (ls := mjoin ((fun b => b ++ [EmptyString]) <$> blocks)) in *.
  assert (Hin : Forall (fun l => l = EmptyString \/ line_ok l) ls).
  { unfold ls. clear -Hb. induction Hb as [|b blocks [_ Hb] _ IH]; csimpl; [constructor|].
    apply Forall_app. split; [|done]. apply Forall_app. split; [|by repeat constructor; left].
    eapply Forall_impl; [exact Hb|]. by right. }
  assert (Hsp : split_on newline (stream blocks) = ls ++ [EmptyString]).
  { apply split_print. eapply Forall_impl; [exact Hin|]. intros l [->|(_ & ? & _)]; done. }
  rewrite Hsp in H. cbv zeta in H. rewrite removelast_last in H. unfold ls in H at 2. rewrite feed_blocks in H by done.
  rewrite last_of_app in H by done. apply H. apply Forall_app. split; [|repeat constructor; unfold short; simpl; done].
  eapply Forall_impl; [exact Hin|]. intros l [->|(_ & _ & ?)]; [unfold short; simpl; done|done].
Qed.

(** ** Bounds *)

Lemma feed_bound (lines : list string) (block : list string) (records : list DeviceRecord) :
  (length block <= MAX_BLOCK_LINES)%nat -> (length (foldl feed_line (block, records) lines).1 <= MAX_BLOCK_LINES)%nat.
Proof.
  revert block records. induction lines as [|l lines IH]; intros block records Hb; [done|]. cbn [foldl feed_line].
  destruct (String.eqb l EmptyString); [apply IH; simpl; lia|]. apply IH.
  destruct (MAX_BLOCK_LINES <? length (block ++ [l]))%nat eqn:E; [simpl; lia|]. by apply Nat.ltb_ge in E.
Qed.

Lemma split_last_suffix (sep : ascii) (s : string) :
  (String.length (List.last (split_on sep s) EmptyString) <= String.length s)%nat.
Proof.
  induction s as [|c s IH]; [done|]. cbn [split_on String.length]. pose proof (split_on_nonempty sep s).
  destruct (Ascii.eqb c sep); destruct (split_on sep s) as [|w [|w' ws]]; cbn in *; lia.
Qed.

Lemma split_grow_last (buf t : string) :
  str_forall (fun c => negb (Ascii.eqb c newline)) buf = true -> contains lf (buf +:+ t) = true ->
  (String.length (List.last (split_on newline (buf +:+ t)) EmptyString) <= String.length t)%nat.
Proof.
  intros Hb. induction buf as [|c buf IH]; [intros _; apply split_last_suffix|].
  cbn [str_forall] in Hb. apply andb_prop in Hb as [Hc%negb_true_iff Hb]. cbn [String.append contains split_on].
  unfold lf at 1. cbn [startswith]. rewrite Ascii.eqb_sym, Hc. cbn [andb orb]. intros Hl. specialize (IH Hb Hl).
  pose proof (split_on_nonempty newline (buf +:+ t)) as Hne.
  destruct (split_on newline (buf +:+ t)) as [|w [|w' ws]] eqn:E; [done| |done].
  exfalso. clear -E Hl. revert w E. generalize (buf +:+ t) as s, Hl. clear. induction s as [|c s IH]; [done|].
  cbn [contains split_on]. unfold lf at 1. cbn [startswith]. rewrite Ascii.eqb_sym.
  pose proof (split_on_nonempty newline s) as Hne. destruct (Ascii.eqb c newline).
  - intros _ w E. by destruct (split_on newline s).
  - cbn [andb orb]. intros Hl w. destruct (split_on newline s) as [|w1 [|w2 ws]]; [done| |done]. intros _. by eapply IH.
Qed.

(** What the source keeps. *)
Record kept_ok (s : UdevSource) : Prop := {
  ko_block : (length (us_block s) <= MAX_BLOCK_LINES)%nat;
  ko_buf : short (us_linebuf s);
  ko_clean : str_forall (fun c => negb (Ascii.eqb c newline)) (us_linebuf s) = true;
}.

(** Whatever is read, in pieces of up to 64 KiB, at most 500 lines and a
    partial line of 1 MiB are kept between reads. *)
Lemma udev_memory_bounded (reads : list Readable) :
  Forall (fun r => Z.of_nat (String.length (text_of r)) <= 65536) reads -> kept_ok (polls reads new_udev_source).2.
Proof.
  assert (H0 : kept_ok new_udev_source) by (split; [simpl; lia|done|done]). revert H0. generalize new_udev_source as s.
  intros s Hs Hr. revert s Hs. induction Hr as [|r reads Hr _ IH]; intros s Hs; [done|]. cbn [polls].
  assert (Hp : kept_ok (poll r s).2).
  { unfold poll. destruct (us_closed s); [done|]. destruct r as [| | |t]; [done..|]. destruct Hs as [Hb Hl Hc].
    destruct (negb (contains lf (us_linebuf s +:+ t)) && _) eqn:E; [split; [simpl; lia|done|done]|].
    pose proof (feed_bound (removelast (split_on newline (us_linebuf s +:+ t))) (us_block s) [] Hb) as Hf.
    destruct (foldl feed_line _ _) as [b rs]. split; [done| |apply split_last_clean]. cbn [us_linebuf snd]. unfold short.
    destruct (contains lf (us_linebuf s +:+ t)) eqn:Ec.
    - pose proof (split_grow_last _ _ Hc Ec). simpl in Hr. unfold MAX_LINEBUF_CHARS. lia.
    - cbn [negb andb] in E. apply Z.ltb_ge in E. pose proof (split_last_suffix newline (us_linebuf s +:+ t)). lia. }
  destruct (poll r s) as [[rs|] s']; [|done]. specialize (IH s' Hp). by destruct (polls reads s').
Qed.

(** A worker that stops, on a signal or an exception, leaves no child that was
    not killed: one that is still running has been sent SIGTERM, and SIGKILL
    unless it ended. *)
Lemma udev_child_signalled (host_name : string) (stamp : DeviceRecord -> Z * string) (rounds : list (bool * Readable))
    (c : Child) (w : UdevWorker) :
  is_Some (uw_stream w) -> ch_running c = true ->
  (exists r, r ∈ rounds /\ (r.1 = true \/ r.2 = EndOfStream)) ->
  let sig := (main_loop host_name stamp rounds c w).2 in
  SIGTERM ∈ sig /\ (ch_ends_on_term c = false -> SIGKILL ∈ sig).
Proof.
  intros Hw Hc (r & Hr & Hend). revert w Hw. induction rounds as [|[b rd] rounds IH]; intros w [s Hs]; [by apply elem_of_nil in Hr|].
  assert (Hstop : forall w' s', uw_stream w' = Some s' ->
    SIGTERM ∈ (stop c w').1 /\ (ch_ends_on_term c = false -> SIGKILL ∈ (stop c w').1)).
  { intros w' s' E. unfold stop. rewrite E. cbn [fst]. unfold close. rewrite Hc. cbn [negb].
    destruct (ch_ends_on_term c); cbn [fst]; (split; [left|]); [done|intros _; right; left]. }
  cbn [main_loop]. destruct b; [cbn [snd]; by eapply Hstop|]. unfold step. rewrite Hs.
  destruct (poll rd s) as [[rs|] s'] eqn:Ep; [|cbn [snd]; by eapply Hstop].
  apply elem_of_cons in Hr as [->|Hr].
  - exfalso. destruct Hend as [?|Hend]; [done|]. cbn [snd] in Hend. subst rd. unfold poll in Ep. by destruct (us_closed s).
  - specialize (IH Hr (mkUdevWorker (Some s')) ltac:(eauto)). by destruct (main_loop host_name stamp rounds c _).
Qed.

(** ** Examples *)

Module UdevExample.
Definition block : list string :=
  ["UDEV  [12.5] add      /devices/usb1/1-1 (usb)"; "ACTION=add"; "DEVPATH=/devices/usb1/1-1"; "SUBSYSTEM=usb";
   "ID_VENDOR_ID=046d"; "ID_MODEL_ID=c52b"; "ID_MODEL=USB_Receiver"]%string.
Definition reads : list Readable :=
  [Chunk (str_take 60 (stream [block])); Timeout_; Chunk (str_drop 60 (stream [block]))].
Definition stamp (r : DeviceRecord) : Z * string := (0, "id"%string).
(** The event about the block. *)
Definition event : option Event := r ← parse_event_block block; record_to_event "h" stamp r.
Definition oversized : list string := replicate 501 "X=1"%string ++ ["ACTION=add"; "DEVPATH=/forged"]%string.
End UdevExample.

(** The lines after an oversized block is dropped count as a block of their
    own: the source is not in step with the stream until the next blank line. *)
Lemma oversized_block_tail_parsed :
  option_map (map dr_devpath) (polls [Chunk (stream [UdevExample.oversized])] new_udev_source).1 = Some ["/forged"%string].
Proof. vm_compute. reflexivity. Qed.

(** The key of the table row of a device with a vendor and product is their
    pair, which the predicate of its card looks for under the path and the
    name only: the card of the device does not show the device's events. *)
Lemma device_card_misses_events :
  match UdevExample.event with
  | Some e => device_key (fun _ => EmptyString) e = PStr "046d:c52b:" /\ mentions (fun _ => None) "device" "046d:c52b:" e = false
  | None => False
  end.
Proof. split; vm_compute; reflexivity. Qed.

Lemma example_block_ok : Forall block_ok [UdevExample.block].
Proof.
  constructor; [|constructor]. split; [cbn; unfold MAX_BLOCK_LINES; lia|].
  repeat (constructor; [split_and!; [discriminate|vm_compute; reflexivity|vm_compute; discriminate]|]). constructor.
Qed.

Lemma udev_stream_exact_witness :
  polls UdevExample.reads new_udev_source = (Some (omap parse_event_block [UdevExample.block]), new_udev_source).
Proof.
  apply udev_stream_exact.
  - exact example_block_ok.
  - intros H. repeat (apply elem_of_cons in H as [H|H]; [discriminate H|]). by apply elem_of_nil in H.
  - vm_compute. reflexivity.
Defined.
