(* ===== verification/DepsFiles.v ===== *)
(** * Files of the dependency manager ([dependencies/distro.py], [backup.py])

    Which distribution family the host is of, and editing a configuration file
    between markers with a backup. The texts of files are given; [sha256] and
    the text of a time are parameters.

    An edit replaces the managed block and nothing else ([edit_replaces_block]),
    and restoring its backup gives the file back ([restore_undoes_edit]), with
    the limits that the examples at the end show. *)

From S2P Require Import Prelude Float64 Regex RegexSub.
Local Open Scope Z_scope.

(** ** [shlex.split] *)

Inductive LexState := Blank | Word | Quoted (q : ascii) | Escaped (back : option ascii).
Definition lex_space (c : ascii) : bool := existsb (Ascii.eqb c) [" "; "009"; "010"; "013"]%char.
Definition lex_quote (c : ascii) : bool := existsb (Ascii.eqb c) ["034"; "'"]%char.
Definition bslash : ascii := "092"%char.

(** [tok] is the token so far, [quoted] whether it had quotes. [None] is the
    [ValueError] of a quote or an escape that does not end. *)
Fixpoint shlex_from (s : string) (st : LexState) (tok : string) (quoted : bool) : option (list string) :=
  let emit := if quoted || negb (String.eqb tok EmptyString) then [tok] else [] in
  match s with
  | EmptyString => match st with Blank | Word => Some emit | _ => None end
  | String c s' =>
      match st with
      | Blank | Word =>
          if lex_space c then app emit <$> shlex_from s' Blank EmptyString false
          else if Ascii.eqb c bslash then shlex_from s' (Escaped None) tok quoted
          else if lex_quote c then shlex_from s' (Quoted c) tok quoted
          else shlex_from s' Word (tok +:+ String c EmptyString) quoted
      | Quoted q =>
          if Ascii.eqb c q then shlex_from s' Word tok true
          else if Ascii.eqb c bslash && Ascii.eqb q "034" then shlex_from s' (Escaped (Some q)) tok true
          else shlex_from s' (Quoted q) (tok +:+ String c EmptyString) true
      | Escaped None => shlex_from s' Word (tok +:+ String c EmptyString) quoted
      | Escaped (Some q) =>
          let tok := if Ascii.eqb c bslash || Ascii.eqb c q then tok else tok +:+ String bslash EmptyString in
          shlex_from s' (Quoted q) (tok +:+ String c EmptyString) quoted
      end
  end.
Definition shlex_split (s : string) : option (list string) := shlex_from s Blank EmptyString false.

(** ** [distro.py] *)

Inductive Distro := arch | debian | fedora | opensuse.
#[export] Instance Distro_eq_dec : EqDecision Distro.
Proof. solve_decision. Defined.
Definition distro_value (d : Distro) : string :=
  match d with arch => "arch" | debian => "debian" | fedora => "fedora" | opensuse => "opensuse" end.

Definition ID_TO_FAMILY : list (string * Distro) :=
  [("arch", arch); ("cachyos", arch); ("manjaro", arch); ("endeavouros", arch); ("garuda", arch);
   ("debian", debian); ("ubuntu", debian); ("linuxmint", debian); ("pop", debian);
   ("fedora", fedora); ("rhel", fedora); ("centos", fedora); ("rocky", fedora); ("almalinux", fedora);
   ("opensuse", opensuse); ("opensuse-leap", opensuse); ("opensuse-tumbleweed", opensuse); ("sles", opensuse)]%string.
Definition LIKE_TO_FAMILY : list (string * Distro) :=
  [("arch", arch); ("debian", debian); ("ubuntu", debian); ("fedora", fedora); ("rhel", fedora);
   ("suse", opensuse); ("opensuse", opensuse)]%string.

Definition os_release_field (raw_line : string) : option (string * string) :=
  let line := strip raw_line in
  if String.eqb line EmptyString || startswith "#" line then None
  else match str_partition "=" line with
       | (_, None) => None
       | (key, Some val) =>
           Some (strip key, match shlex_split val with
                            | None => val
                            | Some parsed => default EmptyString (head parsed)
                            end)
       end.
Definition parse_os_release (text : string) : list (string * string) :=
  foldl (fun out '(k, v) => od_set k v out) [] (omap os_release_field (splitlines text)).

(** [None] is the [DistroDetectionError]. *)
Definition detect_distro_from_text (text : string) : option Distro :=
  let fields := parse_os_release text in
  match od_get (str_lower (default EmptyString (od_get "ID"%string fields))) ID_TO_FAMILY with
  | Some d => Some d
  | None => head (omap (fun tok => od_get (str_lower tok) LIKE_TO_FAMILY)
                    (split_ws (default EmptyString (od_get "ID_LIKE"%string fields))))
  end.
Definition detect_distro (os_release : option string) : option Distro := os_release ≫= detect_distro_from_text.

(** ** [backup.py] *)

Definition BEGIN_MARKER : string := "# >>> inspectord BEGIN".
Definition END_MARKER : string := "# <<< inspectord END".
Definition lf : string := String newline EmptyString.
(** [BEGIN.*?END\n?] over all characters, with the match as a group. *)
Definition BLOCK_RE : re :=
  RGroup "0" (RLit BEGIN_MARKER +++ RLazy (fun _ => true) +++ RLit END_MARKER +++ ROpt (RLit lf))%re.

(** The replacement string of [re.sub] is a template: literal text, the whole
    match, or an error ([None]). There are no groups to refer to. *)
Inductive Piece := Lit (c : ascii) | Whole.
Definition octal (c : ascii) : bool := in_range 48 55 c.
Definition octal_char (n : Z) : option Piece := if n <=? 255 then Some (Lit (ascii_of_N (Z.to_N n))) else None.
(** [\g<0>]: zeros up to the bracket. *)
Fixpoint zeros_then_close (s : string) (some : bool) : option string :=
  match s with
  | String "0" s' => zeros_then_close s' true
  | String ">" s' => if some then Some s' else None
  | _ => None
  end.
Definition simple_escape (c : ascii) : option ascii :=
  (if Ascii.eqb c "a" then Some "007" else if Ascii.eqb c "b" then Some "008"
   else if Ascii.eqb c "f" then Some "012" else if Ascii.eqb c "n" then Some "010"
   else if Ascii.eqb c "r" then Some "013" else if Ascii.eqb c "t" then Some "009"
   else if Ascii.eqb c "v" then Some "011" else if Ascii.eqb c bslash then Some bslash
   else None)%char.
Fixpoint parse_template (fuel : nat) (s : string) : option (list Piece) :=
  match fuel with
  | O => None
  | S f =>
      match s with
      | EmptyString => Some []
      | String c s' =>
          if negb (Ascii.eqb c bslash) then cons (Lit c) <$> parse_template f s'
          else
            match s' with
            | EmptyString => None
            | String e s2 =>
                if Ascii.eqb e "g" then
                  match s2 with
                  | String "<" s3 => r ← zeros_then_close s3 false; cons Whole <$> parse_template f r
                  | _ => None
                  end
                else if Ascii.eqb e "0" then
                  match s2 with
                  | String a s3 =>
                      if octal a then
                        match s3 with
                        | String b s4 =>
                            if octal b then p ← octal_char (8 * digit_val a + digit_val b); cons p <$> parse_template f s4
                            else p ← octal_char (digit_val a); cons p <$> parse_template f s3
                        | EmptyString => p ← octal_char (digit_val a); Some [p]
                        end
                      else p ← octal_char 0; cons p <$> parse_template f s2
                  | EmptyString => p ← octal_char 0; Some [p]
                  end
                else if is_digit e then
                  match s2 with
                  | String a (String b s4) =>
                      if octal e && octal a && octal b then
                        p ← octal_char (64 * digit_val e + 8 * digit_val a + digit_val b); cons p <$> parse_template f s4
                      else None
                  | _ => None
                  end
                else
                  match simple_escape e with
                  | Some x => cons (Lit x) <$> parse_template f s2
                  | None => if is_alpha_ascii e then None
                            else (fun ps => Lit bslash :: Lit e :: ps) <$> parse_template f s2
                  end
            end
      end
  end.
Definition expand (ps : list Piece) (whole : string) : string :=
  foldr (fun p acc => match p with Lit c => String c acc | Whole => whole +:+ acc end) EmptyString ps.

(** [_BLOCK_RE.sub(block, text)]. *)
Definition sub_block (block text : string) : option string :=
  ps ← parse_template (S (String.length block)) block;
  Some (re_sub (mkPattern Anywhere BLOCK_RE) (fun g => expand ps (group "0" g)) text).

(** [read_text]: every line ending becomes a newline. *)
Fixpoint universal_newlines (s : string) : string :=
  match s with
  | EmptyString => EmptyString
  | String c s' =>
      if Ascii.eqb c "013" then
        String newline (match s' with String "010" s2 => universal_newlines s2 | _ => universal_newlines s' end)
      else String c (universal_newlines s')
  end.

Record BackupRecord := mkBackup {
  bk_id : string;
  bk_dep_name : string;
  bk_original_path : string;
  bk_backup_path : string;
  bk_original_sha256 : string;
  bk_created_at : Z;
}.
Record BackupState := mkBackupState { bs_files : gmap string string; bs_rows : list BackupRecord }.

Inductive EditError := FileNotFound | BadTemplate.

Fixpoint underscore_slashes (s : string) : string :=
  match s with
  | EmptyString => EmptyString
  | String c s' => String (if Ascii.eqb c "/" then "_"%char else c) (underscore_slashes s')
  end.
Fixpoint lstrip_underscore (s : string) : string :=
  match s with String "_" s' => lstrip_underscore s' | _ => s end.

Section Backup.
Context (sha256 : string -> string) (stamp : Z -> string).

(** [now] in microseconds; the name of the backup has whole seconds. [root]
    and [target_path] are plain absolute paths. *)
Definition backup_path (root target_path : string) (now : Z) : string :=
  root +:+ "/" +:+ lstrip_underscore (underscore_slashes target_path) +:+ "." +:+ stamp (now / 1000000) +:+ ".bak".

Definition record_backup (id dep_name target_path root text : string) (now : Z) (s : BackupState)
  : BackupRecord * BackupState :=
  let path := backup_path root target_path now in
  let rec_ := mkBackup id dep_name target_path path (sha256 text) now in
  (rec_, mkBackupState (<[path := text]> (bs_files s)) (bs_rows s ++ [rec_])).

(** The new text of the file. *)
Definition edited (managed_block text : string) : option string :=
  let block := BEGIN_MARKER +:+ lf +:+ managed_block +:+ END_MARKER +:+ lf in
  match re_search BLOCK_RE text with
  | Some _ => sub_block block text
  | None => Some (text +:+ (if endswith lf text then EmptyString else lf) +:+ block)
  end.

Definition apply_edit_with_backup (id dep_name target_path root managed_block : string) (now : Z) (s : BackupState)
  : result EditError BackupRecord * BackupState :=
  match bs_files s !! target_path with
  | None => (Err FileNotFound, s)
  | Some raw =>
      let text := universal_newlines raw in
      let '(rec_, s1) := record_backup id dep_name target_path root text now s in
      match edited managed_block text with
      | None => (Err BadTemplate, s1)
      | Some new => (Ok rec_, mkBackupState (<[target_path := new]> (bs_files s1)) (bs_rows s1))
      end
  end.

(** Newest first. *)
Definition newer (a b : BackupRecord) : Prop := bk_created_at b <= bk_created_at a.
#[export] Instance newer_dec a b : Decision (newer a b).
Proof. unfold newer. apply _. Defined.
Definition list_backups (dep_name : string) (s : BackupState) : list BackupRecord :=
  merge_sort newer (List.filter (fun r => String.eqb (bk_dep_name r) dep_name) (bs_rows s)).

Definition restore_backup (id : string) (s : BackupState) : result EditError unit * BackupState :=
  match List.find (fun r => String.eqb (bk_id r) id) (bs_rows s) with
  | None => (Err FileNotFound, s)
  | Some r =>
      match bs_files s !! bk_backup_path r with
      | None => (Err FileNotFound, s)
      | Some content => (Ok tt, mkBackupState (<[bk_original_path r := content]> (bs_files s)) (bs_rows s))
      end
  end.
End Backup.

(** ** Where a marker can occur *)

Definition free_of (c : ascii) (s : string) : bool := str_forall (fun d => negb (Ascii.eqb d c)) s.

(** A word without [c] that begins in [u], where [c] follows, ends in it. *)
Lemma ends_before (c : ascii) (v u rest r : string) :
  free_of c v = true -> u +:+ String c rest = v +:+ r -> exists r', u = v +:+ r'.
Proof.
  revert u. induction v as [|x v IH]; intros u Hv Heq; [by exists u|]. cbn in Hv. apply andb_prop in Hv as [Hx Hv].
  destruct u as [|y u]; injection Heq as -> Heq; [by rewrite Ascii.eqb_refl in Hx|].
  destruct (IH u Hv Heq) as [r' ->]. by exists r'.
Qed.

(** A word with [c] at its head only does not straddle a [c]. *)
Lemma no_straddle (c : ascii) (w u rest : string) :
  free_of c w = true -> u <> EmptyString -> contains (String c w) u = false -> eat (String c w) (u +:+ String c rest) = None.
Proof.
  intros Hw Hu Hn. destruct (eat _ _) as [r|] eqn:E; [|done]. apply eat_spec in E. destruct u as [|y u]; [done|].
  injection E as -> E. destruct (ends_before c w u rest r Hw E) as [r' ->]. cbn [contains] in Hn.
  change (String c (w +:+ r')) with (String c w +:+ r') in Hn. by rewrite startswith_app in Hn.
Qed.

Lemma contains_tail (w : string) (y : ascii) (u : string) : contains w (String y u) = false -> contains w u = false.
Proof. cbn. by intros [_ H]%orb_false_iff. Qed.

Lemma not_contained_eat (w s : string) : contains w s = false -> eat w s = None.
Proof.
  intros Hn. destruct (eat w s) as [r|] eqn:E; [|done]. apply eat_spec in E as ->. by destruct (w +:+ r) eqn:E2; cbn in Hn; rewrite <- E2, startswith_app in Hn.
Qed.

(** ** The block *)

Definition block_of (managed : string) : string := BEGIN_MARKER +:+ lf +:+ managed +:+ END_MARKER +:+ lf.

(** The lazy part stops at the first end marker. *)
Lemma lazy_to_end {A} (u rest : string) (k : string -> option A) (x : A) :
  contains END_MARKER u = false -> k rest = Some x ->
  reps_lazy (fun _ => true) (u +:+ END_MARKER +:+ rest)
    (fun s => match eat END_MARKER s with Some s' => k s' | None => None end) = Some x.
Proof.
  intros Hu Hk. induction u as [|y u IH].
  - change (EmptyString +:+ ?s) with s. remember (END_MARKER +:+ rest) as t eqn:Et. destruct t as [|c t]; [done|].
    cbn [reps_lazy]. by rewrite Et, eat_app, Hk.
  - change (String y u +:+ ?s) with (String y (u +:+ s)). cbn [reps_lazy].
    assert (eat END_MARKER (String y (u +:+ END_MARKER +:+ rest)) = None) as ->.
    { exact (no_straddle "#" " <<< inspectord END" (String y u) _ eq_refl ltac:(done) Hu). }
    apply IH. by eapply contains_tail.
Qed.

Lemma block_matches (managed tail : string) (g : Groups) {A} (k : string -> Groups -> option A) (x : A) :
  contains END_MARKER managed = false ->
  k tail (("0"%string, consumed (block_of managed +:+ tail) tail) :: g) = Some x ->
  matcher BLOCK_RE (block_of managed +:+ tail) g k = Some x.
Proof.
  unfold block_of. intros Hm Hk. unfold BLOCK_RE. cbn [matcher]. rewrite !sapp_assoc in Hk. rewrite !sapp_assoc, eat_app.
  change (lf +:+ managed +:+ END_MARKER +:+ lf +:+ tail) with ((lf +:+ managed) +:+ END_MARKER +:+ (lf +:+ tail)).
  eapply lazy_to_end; [exact Hm|]. cbv beta. rewrite eat_app.
  change ((lf +:+ managed) +:+ ?z) with (lf +:+ managed +:+ z). by rewrite Hk.
Qed.

(** Before the block nothing matches. *)
Definition no_begin (s : string) : Prop := contains BEGIN_MARKER s = false.

Lemma no_match_before (u managed tail : string) (g : Groups) {A} (k : string -> Groups -> option A) :
  u <> EmptyString -> no_begin u -> matcher BLOCK_RE (u +:+ block_of managed +:+ tail) g k = None.
Proof.
  intros Hu Hn. unfold BLOCK_RE. cbn [matcher].
  change (block_of managed +:+ tail) with (String "#" (" >>> inspectord BEGIN" +:+ (lf +:+ managed +:+ END_MARKER +:+ lf) +:+ tail)).
  by rewrite (no_straddle "#" " >>> inspectord BEGIN" u _ eq_refl Hu Hn).
Qed.
Lemma no_match_after (s : string) (g : Groups) {A} (k : string -> Groups -> option A) :
  no_begin s -> matcher BLOCK_RE s g k = None.
Proof. intros Hn. unfold BLOCK_RE. cbn [matcher]. by rewrite (not_contained_eat _ _ Hn). Qed.

Lemma search_block (pre managed tail : string) :
  no_begin pre -> contains END_MARKER managed = false -> is_Some (re_search BLOCK_RE (pre +:+ block_of managed +:+ tail)).
Proof.
  intros Hp Hm. induction pre as [|c pre IH].
  - change (EmptyString +:+ ?s) with s. remember (block_of managed +:+ tail) as t eqn:Et. destruct t as [|c t]; [done|].
    cbn [re_search]. unfold re_match. rewrite Et. by erewrite block_matches.
  - change (String c pre +:+ ?s) with (String c (pre +:+ s)). cbn [re_search]. unfold re_match.
    pose proof (no_match_before (String c pre) managed tail [] (fun _ g => Some g) ltac:(done) Hp) as E.
    change (String c pre +:+ ?s) with (String c (pre +:+ s)) in E. rewrite E. apply IH. by eapply contains_tail.
Qed.

(** ** Substitution *)

Lemma sub_skip (p : Pattern) (repl : Groups -> string) (a s : string) (prev : option ascii) :
  exists prev', sub_from p repl prev (String.length a) (a +:+ s) = sub_from p repl prev' 0 s.
Proof.
  revert prev. induction a as [|c a IH]; intros prev; [by exists prev|]. apply (IH (Some c)).
Qed.

Abbreviation BLOCK := (mkPattern Anywhere BLOCK_RE).

Lemma sub_none (repl : Groups -> string) (s : string) (prev : option ascii) : no_begin s -> sub_from BLOCK repl prev 0 s = s.
Proof.
  revert prev. induction s as [|c s IH]; intros prev Hn; [done|]. cbn [sub_from pt_start may_start pt_body]. unfold match_here.
  rewrite no_match_after by done. f_equal. apply IH. by eapply contains_tail.
Qed.

Lemma sub_one (text pre managed tail : string) (prev : option ascii) :
  no_begin pre -> no_begin tail -> contains END_MARKER managed = false ->
  sub_from BLOCK (fun _ => text) prev 0 (pre +:+ block_of managed +:+ tail) = pre +:+ text +:+ tail.
Proof.
  intros Hp Ht Hm. revert prev. induction pre as [|c pre IH]; intros prev.
  - change (EmptyString +:+ ?s) with s.
    assert (Hb : exists b, block_of managed = String "#" b) by by eexists. destruct Hb as [b Hb].
    assert (Hh : match_here BLOCK_RE (String "#" (b +:+ tail)) = Some (S (String.length b), [("0"%string, consumed (String "#" b +:+ tail) tail)])).
    { unfold match_here. change (String "#" (b +:+ tail)) with (String "#" b +:+ tail). rewrite <- Hb.
      apply block_matches; [done|]. rewrite Hb, slength_app. cbn [String.length]. do 2 f_equal. lia. }
    rewrite Hb. change (String "#" b +:+ tail) with (String "#" (b +:+ tail)). cbn [sub_from pt_start may_start pt_body]. rewrite Hh.
    destruct (sub_skip BLOCK (fun _ => text) b tail (Some "#"%char)) as [prev' ->]. by rewrite sub_none.
  - change (String c pre +:+ ?s) with (String c (pre +:+ s)). cbn [sub_from pt_start may_start pt_body]. unfold match_here.
    pose proof (no_match_before (String c pre) managed tail []
      (fun s' g => Some ((String.length (String c (pre +:+ block_of managed +:+ tail)) - String.length s')%nat, g)) ltac:(done) Hp) as E.
    change (String c pre +:+ ?s) with (String c (pre +:+ s)) in E. rewrite E. f_equal. apply IH. by eapply contains_tail.
Qed.

(** A replacement without a backslash stands for itself. *)
Fixpoint lits (s : string) : list Piece := match s with EmptyString => [] | String c s' => Lit c :: lits s' end.
Lemma plain_template (s : string) (fuel : nat) :
  free_of bslash s = true -> (String.length s < fuel)%nat -> parse_template fuel s = Some (lits s).
Proof.
  revert fuel. induction s as [|c s IH]; intros [|fuel] Hs Hf; cbn in Hf; try lia; [done|]. cbn in Hs. apply andb_prop in Hs as [Hc Hs].
  cbn [parse_template]. rewrite Hc, IH by (done || lia). done.
Qed.
Lemma expand_lits (s whole : string) : expand (lits s) whole = s.
Proof. induction s as [|c s IH]; [done|]. unfold expand in *. cbn [lits foldr]. by rewrite IH. Qed.

Lemma sub_ext (p : Pattern) (f g : Groups -> string) (s : string) (prev : option ascii) (n : nat) :
  (forall x, f x = g x) -> sub_from p f prev n s = sub_from p g prev n s.
Proof.
  intros Hfg. revert prev n. induction s as [|c s IH]; intros prev n; [done|]. cbn [sub_from]. destruct n; [|apply IH].
  destruct (if may_start (pt_start p) prev (String c s) then match_here (pt_body p) (String c s) else None) as [[[|n] gg]|];
    rewrite ?Hfg, ?IH; done.
Qed.



(** ** Backups *)

Section Backups.
Context (sha256 : string -> string) (stamp : Z -> string).

Lemma find_new_row (id : string) (rows : list BackupRecord) (r : BackupRecord) :
  id ∉ (bk_id <$> rows) -> bk_id r = id -> List.find (fun r => String.eqb (bk_id r) id) (rows ++ [r]) = Some r.
Proof.
  intros Hn <-. induction rows as [|x rows IH]; cbn; [by rewrite String.eqb_refl|]. rewrite fmap_cons in Hn.
  apply not_elem_of_cons in Hn as [Hx Hn]. destruct (String.eqb_spec (bk_id x) (bk_id r)); [congruence|]. by apply IH.
Qed.

(** An edit records a backup first, whether or not it then succeeds, and
    restoring that backup gives the file the text it was read with; only the
    file and its backup are touched. *)
Theorem restore_undoes_edit (id dep_name path root managed raw : string) (now : Z) (s : BackupState) :
  bs_files s !! path = Some raw -> id ∉ (bk_id <$> bs_rows s) -> backup_path stamp root path now <> path ->
  let '(r, s1) := apply_edit_with_backup sha256 stamp id dep_name path root managed now s in
  (exists rec_, bs_rows s1 = bs_rows s ++ [rec_] /\ bk_original_sha256 rec_ = sha256 (universal_newlines raw) /\
     bs_files s1 !! bk_backup_path rec_ = Some (universal_newlines raw)) /\
  (forall p, p <> path -> p <> backup_path stamp root path now -> bs_files s1 !! p = bs_files s !! p) /\
  exists s2, restore_backup id s1 = (Ok tt, s2) /\ bs_files s2 !! path = Some (universal_newlines raw).
Proof.
  intros Hf Hid Hne. unfold apply_edit_with_backup, record_backup. rewrite Hf.
  set (b := mkBackup id dep_name path (backup_path stamp root path now) (sha256 (universal_newlines raw)) now).
  assert (Hrest : forall files, files !! backup_path stamp root path now = Some (universal_newlines raw) ->
    exists s2, restore_backup id (mkBackupState files (bs_rows s ++ [b])) = (Ok tt, s2) /\ bs_files s2 !! path = Some (universal_newlines raw)).
  { intros files Hb. unfold restore_backup. cbn [bs_rows bs_files]. rewrite find_new_row by done. cbn [bk_backup_path b]. rewrite Hb.
    eexists. split; [reflexivity|]. cbn. by rewrite lookup_insert_eq. }
  destruct (edited managed (universal_newlines raw)) as [new|].
  - assert (Hb : <[path := new]> (<[backup_path stamp root path now := universal_newlines raw]> (bs_files s)) !! backup_path stamp root path now
              = Some (universal_newlines raw)) by by rewrite lookup_insert_ne, lookup_insert_eq.
    split; [exists b; by split_and!|]. split; [|by apply Hrest]. intros p Hp Hq. cbn. by rewrite !lookup_insert_ne.
  - assert (Hb : <[backup_path stamp root path now := universal_newlines raw]> (bs_files s) !! backup_path stamp root path now
              = Some (universal_newlines raw)) by by rewrite lookup_insert_eq.
    split; [exists b; by split_and!|]. split; [|by apply Hrest]. intros p Hp Hq. cbn. by rewrite lookup_insert_ne.
Qed.

(** A text without carriage returns is read as it is. *)
Lemma newlines_kept (s : string) : free_of "013" s = true -> universal_newlines s = s.
Proof.
  induction s as [|c s IH]; [done|]. cbn. intros [Hc Hs]%andb_prop. apply negb_true_iff in Hc. by rewrite Hc, IH.
Qed.
End Backups.

Lemma restore_undoes_edit_witness :
  exists s2, restore_backup "1" (apply_edit_with_backup (fun s => s) str_of_Z "1" "auditd" "/etc/a.conf" "/b" "x" 0
                                   (mkBackupState {["/etc/a.conf" := "y = 2"]} [])).2 = (Ok tt, s2) /\
    bs_files s2 !! "/etc/a.conf" = Some "y = 2".
Proof.
  destruct (restore_undoes_edit (fun s => s) str_of_Z "1" "auditd" "/etc/a.conf" "/b" "x" "y = 2" 0
              (mkBackupState {["/etc/a.conf" := "y = 2"]} [])) as (_ & _ & s2 & H).
  - reflexivity.
  - apply not_elem_of_nil.
  - vm_compute. discriminate.
  - exists s2. exact H.
Defined.

(** ** Where it goes wrong *)

Module BackupExample.
Definition id_hash (s : string) : string := s.
Definition conf : string := "/etc/a.conf".
Definition start (text : string) : BackupState := mkBackupState {[conf := text]} [].
Definition edit (id managed : string) (now : Z) (s : BackupState) : result EditError BackupRecord * BackupState :=
  apply_edit_with_backup id_hash str_of_Z id "auditd" conf "/b" managed now s.
Definition pattern_rule : string := "-k" +:+ String bslash "d+" +:+ lf.
End BackupExample.

(** A managed block is written as it is the first time and read as a template
    of [re.sub] when it is updated: a rule with a backslash cannot be updated. *)
Lemma backslash_block_not_updated :
  let first := BackupExample.edit "1" BackupExample.pattern_rule 0 (BackupExample.start EmptyString) in
  is_ok first.1 = true /\ (BackupExample.edit "2" BackupExample.pattern_rule 5000000 first.2).1 = Err BadTemplate.
Proof. split; vm_compute; reflexivity. Qed.

(** Two edits within a second share the name of the backup: restoring the first
    one gives the text after it. *)
Lemma same_second_backup_lost :
  let first := (BackupExample.edit "1" ("a" +:+ lf) 0 (BackupExample.start ("x" +:+ lf))).2 in
  let second := (BackupExample.edit "2" ("b" +:+ lf) 1000 first).2 in
  bs_files (restore_backup "1" second).2 !! BackupExample.conf = Some ("x" +:+ lf +:+ block_of ("a" +:+ lf)).
Proof. vm_compute. reflexivity. Qed.

(** A file with carriage returns is not given back. *)
Lemma carriage_returns_lost :
  let raw := "x" +:+ String "013" lf in
  bs_files (restore_backup "1" (BackupExample.edit "1" EmptyString 0 (BackupExample.start raw)).2).2 !! BackupExample.conf
  = Some ("x" +:+ lf).
Proof. vm_compute. reflexivity. Qed.

(** ** The distribution family *)

Example cachyos_is_arch :
  detect_distro (Some ("NAME=CachyOS" +:+ lf +:+ "ID=" +:+ String "034" ("cachyos" +:+ String "034" lf))) = Some arch.
Proof. vm_compute. reflexivity. Qed.
Example unknown_id_like_debian : detect_distro (Some ("ID=foo" +:+ lf +:+ "ID_LIKE='bar Debian'" +:+ lf)) = Some debian.
Proof. vm_compute. reflexivity. Qed.
