(* ===== verification/Deps.v ===== *)
(** * Dependency management ([inspectord/dependencies])

    Planning, the privileged package helper, the pacman backend, health probes,
    drop-in files, applying a plan, the IPC handlers and the worker. The
    operations run in a state and exception monad over the tables of the
    database, the files that are written and the host; the trace of commands is
    part of the state. Commands, the clock, fresh ids and faults of system calls
    belong to the host, an interface. The manifests are an argument: reading
    the YAML files is not modelled. Database calls succeed, except for a plan
    id that exists already. *)

From S2P Require Import Prelude Schemas RuleEval Tables Float64 Json Regex DepsFiles.
Local Open Scope Z_scope.

(** ** Manifests and plans *)

Inductive ConfigStrategy := sidecar | edit_with_backup.
#[export] Instance ConfigStrategy_eq_dec : EqDecision ConfigStrategy.
Proof. solve_decision. Defined.

Inductive ProbeKind :=
| binary_exists_and_runs | service_active | file_exists | file_exists_and_growing
| command_exit_zero | journal_pattern_recent.

Record WhenCondition := mkWhen { wh_profiles : list string; wh_flags : list string }.
Record ServiceSpec := mkServiceSpec { ss_systemd_unit : string; ss_enable : bool; ss_start : bool }.
Record DropinSpec := mkDropin { dp_filename : string; dp_template : string; dp_owner : string; dp_mode : string }.
Record ConfigSpec := mkConfigSpec {
  cs_strategy : ConfigStrategy;
  cs_include_dir : option string;
  cs_target_path : option string;
  cs_dropin : option DropinSpec;
  cs_validate_cmd : option (list string);
  cs_edit_marker_begin : option string;
  cs_edit_marker_end : option string;
}.
Record HealthProbe := mkProbe {
  hp_kind : ProbeKind;
  hp_path : option string;
  hp_grow_window_s : Z;
  hp_command : option (list string);
  hp_pattern : option string;
  hp_window_s : Z;
  hp_unit : option string;
}.
Record VerifySpec := mkVerify {
  vs_binary_paths : list string;
  vs_version_cmd : option (list string);
  vs_version_regex : option string;
  vs_health_probe : HealthProbe;
}.
Record PostInstallHook := mkHook { hk_command : list string; hk_optional : bool }.
Record ManualInstallSpec := mkManual { mi_reason : string; mi_instructions : string }.

(** The permissions and rollback blocks are read by nothing and left out. *)
Record DependencyManifest := mkManifest {
  m_name : string;
  m_description : string;
  m_required_when : WhenCondition;
  m_optional_when : WhenCondition;
  m_distro_packages : list (string * list string);
  m_manual_install : option ManualInstallSpec;
  m_minimum_version : option string;
  m_service : option ServiceSpec;
  m_config : option ConfigSpec;
  m_verify : VerifySpec;
  m_post_install_hooks : list PostInstallHook;
}.
Abbreviation Manifests := (list (string * DependencyManifest)).

Record DependencyPlanItem := mkItem {
  it_name : string;
  it_action : string;
  it_packages : list string;
  it_expected_command : option string;
  it_config_dropin : option string;
  it_service_actions : list string;
  it_permission_actions : list string;
  it_post_install_hooks : list string;
  it_manual_reason : option string;
  it_manual_instructions : option string;
}.
Record DependencyPlan := mkPlan {
  pl_id : string;
  pl_created_at : Z;
  pl_created_by : string;
  pl_distro : string;
  pl_package_manager : string;
  pl_items : list DependencyPlanItem;
  pl_estimated_disk_mb : Z;
  pl_expires_at : Z;
}.

(** [item.model_dump(mode="json")]. *)
Definition opt_text (o : option string) : pyval := match o with Some s => PStr s | None => PNone end.
Definition texts (l : list string) : pyval := PList (PStr <$> l).
Definition item_value (i : DependencyPlanItem) : pyval :=
  PDict [("name", PStr (it_name i)); ("action", PStr (it_action i)); ("packages", texts (it_packages i));
         ("expected_command", opt_text (it_expected_command i)); ("config_dropin", opt_text (it_config_dropin i));
         ("service_actions", texts (it_service_actions i)); ("permission_actions", texts (it_permission_actions i));
         ("post_install_hooks", texts (it_post_install_hooks i)); ("manual_reason", opt_text (it_manual_reason i));
         ("manual_instructions", opt_text (it_manual_instructions i))]%string.

(** [DependencyPlanItem.model_validate]: a field is missing, of its type, or
    makes the item invalid; further keys are forbidden. *)
Definition ITEM_FIELDS : list string :=
  ["name"; "action"; "packages"; "expected_command"; "config_dropin"; "service_actions"; "permission_actions";
   "post_install_hooks"; "manual_reason"; "manual_instructions"]%string.
Definition opt_text_of (v : option pyval) : option (option string) :=
  match v with
  | None | Some PNone => Some None
  | Some (PStr s) => Some (Some s)
  | Some _ => None
  end.
Definition texts_of (v : option pyval) : option (list string) :=
  match v with
  | None => Some []
  | Some (PList l) => mapM as_str l
  | Some _ => None
  end.
Definition item_of (v : pyval) : option DependencyPlanItem :=
  match v with
  | PDict d =>
      if forallb (fun kv => bool_decide (kv.1 ∈ ITEM_FIELDS)) d then
        name ← dict_lookup "name" d ≫= as_str;
        action ← dict_lookup "action" d ≫= as_str;
        packages ← texts_of (dict_lookup "packages" d);
        expected ← opt_text_of (dict_lookup "expected_command" d);
        dropin ← opt_text_of (dict_lookup "config_dropin" d);
        service ← texts_of (dict_lookup "service_actions" d);
        permission ← texts_of (dict_lookup "permission_actions" d);
        hooks ← texts_of (dict_lookup "post_install_hooks" d);
        reason ← opt_text_of (dict_lookup "manual_reason" d);
        instructions ← opt_text_of (dict_lookup "manual_instructions" d);
        Some (mkItem name action packages expected dropin service permission hooks reason instructions)
      else None
  | _ => None
  end.

(** ** The database *)

Record PlanRow := mkPlanRow {
  pr_plan_id : string;
  pr_created_at : Z;
  pr_created_by : string;
  pr_distro : string;
  pr_package_manager : string;
  pr_items_json : string;
  pr_estimated_disk_mb : Z;
  pr_expires_at : Z;
  pr_status : string;
}.
(** Without the digests before and after, which no caller gives. *)
Record DepAudit := mkDepAudit {
  da_ts : Z;
  da_actor : string;
  da_action : string;
  da_target : option string;
  da_plan_id : option string;
  da_command : option string;
  da_exit_code : option Z;
  da_stderr_tail : option string;
}.
Record DepRow := mkDepRow {
  dr_name : string;
  dr_installed : bool;
  dr_installed_version : option string;
  dr_dropin_present : bool;
  dr_dropin_sha256 : option string;
  dr_last_verify_ts : option Z;
  dr_last_verify_pass : option bool;
  dr_last_verify_detail : option string;
  dr_updated_at : Z;
}.
(** A call of [append_audit], which does not raise. *)
Record AuditCall := mkAuditCall { ac_actor : string; ac_action : string; ac_target : string; ac_details : dict }.
Record DropFile := mkDropFile { df_content : string; df_mode : Z; df_owner : option string }.

(** ** The host *)

Record RunResult := mkRun { rr_returncode : Z; rr_stdout : string; rr_stderr : string }.

(** [run]: [None] is an exception, such as a program that is not there.
    [fault]: whether the named system call raises. [chown_outcome]: whether the
    owner is known and may be set ([Some true]), an exception that is ignored
    ([Some false]), or another one. *)
Class Host (W : Type) := {
  host_run : list string -> W -> option RunResult * W;
  host_now : W -> Z * W;
  host_id : W -> string * W;
  host_exists : string -> W -> bool;
  host_executable : string -> W -> bool;
  host_mtime : string -> W -> option Z;
  host_fault : string -> W -> bool * W;
  host_chown : string -> W -> option bool * W;
}.

Inductive Refusal :=
| plan_not_found | plan_status (status : string) | plan_expired | not_pacman (pm : string) | not_arch (distro : string)
| unknown_dep (name : string) | undeclared_package (pkg name : string).

Inductive Exc :=
| PkgHelperError (r : Refusal)
| BackendLockedError
| BackendNotAvailableError
| PlanNotFound
| SidecarError (msg : string)
| IpcParamError
| OtherError.

Record St (W : Type) := mkSt {
  st_plans : list PlanRow;
  st_dep_audit : list DepAudit;
  st_deps : list DepRow;
  st_audit : list AuditCall;
  st_files : gmap string DropFile;
  st_mtimes : gmap string Z;      (** [_GROW_LAST_MTIME] *)
  st_ran : list (list string);    (** the commands that were run *)
  st_world : W;
}.
Arguments mkSt {W}.
Arguments st_plans {W}. Arguments st_dep_audit {W}. Arguments st_deps {W}. Arguments st_audit {W}.
Arguments st_files {W}. Arguments st_mtimes {W}. Arguments st_ran {W}. Arguments st_world {W}.

Definition Dep (W A : Type) : Type := St W -> result Exc A * St W.
#[export] Instance dep_ret {W} : MRet (Dep W) := fun A x s => (Ok x, s).
#[export] Instance dep_bind {W} : MBind (Dep W) :=
  fun A B f m s => match m s with (Ok x, s') => f x s' | (Err e, s') => (Err e, s') end.

Section Primitives.
Context {W : Type} `{Host W}.

Definition raise {A} (e : Exc) : Dep W A := fun s => (Err e, s).
(** [try: m except Exception as e: h e]. *)
Definition try_except {A} (m : Dep W A) (h : Exc -> Dep W A) : Dep W A :=
  fun s => match m s with (Ok x, s') => (Ok x, s') | (Err e, s') => h e s' end.
Definition gets {A} (f : St W -> A) : Dep W A := fun s => (Ok (f s), s).
Definition modify (f : St W -> St W) : Dep W unit := fun s => (Ok tt, f s).
Definition with_world {A} (f : W -> A * W) : Dep W A :=
  fun s => let '(x, w) := f (st_world s) in
           (Ok x, mkSt (st_plans s) (st_dep_audit s) (st_deps s) (st_audit s) (st_files s) (st_mtimes s) (st_ran s) w).
Definition set_plans (rows : list PlanRow) (s : St W) : St W :=
  mkSt rows (st_dep_audit s) (st_deps s) (st_audit s) (st_files s) (st_mtimes s) (st_ran s) (st_world s).
Definition add_dep_audit (row : DepAudit) (s : St W) : St W :=
  mkSt (st_plans s) (st_dep_audit s ++ [row]) (st_deps s) (st_audit s) (st_files s) (st_mtimes s) (st_ran s) (st_world s).
Definition set_deps (rows : list DepRow) (s : St W) : St W :=
  mkSt (st_plans s) (st_dep_audit s) rows (st_audit s) (st_files s) (st_mtimes s) (st_ran s) (st_world s).
Definition add_audit (c : AuditCall) (s : St W) : St W :=
  mkSt (st_plans s) (st_dep_audit s) (st_deps s) (st_audit s ++ [c]) (st_files s) (st_mtimes s) (st_ran s) (st_world s).
Definition set_files (fs : gmap string DropFile) (s : St W) : St W :=
  mkSt (st_plans s) (st_dep_audit s) (st_deps s) (st_audit s) fs (st_mtimes s) (st_ran s) (st_world s).
Definition set_mtimes (ms : gmap string Z) (s : St W) : St W :=
  mkSt (st_plans s) (st_dep_audit s) (st_deps s) (st_audit s) (st_files s) ms (st_ran s) (st_world s).
Definition add_ran (argv : list string) (s : St W) : St W :=
  mkSt (st_plans s) (st_dep_audit s) (st_deps s) (st_audit s) (st_files s) (st_mtimes s) (st_ran s ++ [argv]) (st_world s).

(** [runner.run(argv)]. *)
Definition run (argv : list string) : Dep W RunResult :=
  _ ← modify (add_ran argv);
  r ← with_world (host_run argv);
  match r with Some r => mret r | None => raise OtherError end.
Definition now : Dep W Z := with_world host_now.
(** The named system call. *)
Definition syscall (name : string) : Dep W unit :=
  fault ← with_world (host_fault name); if (fault : bool) then raise OtherError else mret tt.

Definition iterM {A} (f : A -> Dep W unit) : list A -> Dep W unit :=
  fix go (l : list A) := match l with [] => mret tt | x :: l' => _ ← f x; go l' end.
Fixpoint list_mapM {A B} (f : A -> Dep W B) (l : list A) : Dep W (list B) :=
  match l with [] => mret [] | x :: l' => y ← f x; ys ← list_mapM f l'; mret (y :: ys) end.
End Primitives.

Section Operations.
Context {W : Type} `{Host W}.
(** Decoding of command output, the text of a refusal, of a number of seconds
    and of a file time, templates, JSON floats. *)
Context (decode : string -> string) (decode_strict : string -> option string) (refusal_text : Refusal -> string)
  (age_text mtime_text : Z -> string) (render : string -> DependencyManifest -> option string)
  (float_repr : Q -> string) (float_parse : string -> Q) (str_other : pyval -> string) (isoformat : Z -> string).
Context (manifests : Manifests).

(** ** [audit.py] *)

Definition log_dep_action (actor action : string) (target plan_id command : option string) (exit_code : option Z)
    (stderr_tail : option string) : Dep W unit :=
  ts ← now;
  let truncated := match stderr_tail with
                   | Some t => if String.eqb t EmptyString then None else Some (str_take 2000 t)
                   | None => None
                   end in
  modify (add_dep_audit (mkDepAudit ts actor action target plan_id command exit_code truncated)).

(** ** [probes.py] *)

Record ProbeResult := mkProbeResult { pb_ok : bool; pb_detail : string }.

(** [str(list_of_str)] is a value of [str_other]. *)
Definition probe_binary (paths : list string) (version_cmd : option (list string)) : Dep W ProbeResult :=
  w ← gets st_world;
  match List.filter (fun p => host_exists p w && host_executable p w) paths with
  | [] => mret (mkProbeResult false ("no executable binary in " +:+ str_other (texts paths)))
  | first :: _ =>
      match version_cmd with
      | Some ((_ :: _) as cmd) =>
          r ← run cmd;
          if negb (rr_returncode r =? 0)
          then mret (mkProbeResult false ("version command exit " +:+ str_of_Z (rr_returncode r)))
          else mret (mkProbeResult true (str_take 200 (strip (decode (rr_stdout r)))))
      | _ => mret (mkProbeResult true ("binary found at " +:+ first))
      end
  end.

Definition probe_service (unit : option string) : Dep W ProbeResult :=
  match unit with
  | None | Some EmptyString => mret (mkProbeResult false "service_active probe requires unit")
  | Some u =>
      r ← run ["systemctl"; "is-active"; u]%string;
      if rr_returncode r =? 0 then mret (mkProbeResult true (u +:+ " active"))
      else match decode_strict (rr_stdout r) with
           | Some out => mret (mkProbeResult false (u +:+ " returned " +:+ strip out))
           | None => raise OtherError
           end
  end.

Definition probe_file_exists (path : option string) : Dep W ProbeResult :=
  match path with
  | None => mret (mkProbeResult false "file_exists requires path")
  | Some p =>
      w ← gets st_world;
      mret (mkProbeResult (host_exists p w) (p +:+ " " +:+ (if host_exists p w then "present" else "missing")))
  end.

Definition probe_file_growing (path : option string) (window_s : Z) : Dep W ProbeResult :=
  match path with
  | None => mret (mkProbeResult false "file_exists_and_growing requires path")
  | Some p =>
      w ← gets st_world;
      if negb (host_exists p w) then
        _ ← modify (fun s => set_mtimes (delete p (st_mtimes s)) s);
        mret (mkProbeResult false (p +:+ " missing"))
      else
        match host_mtime p w with
        | None => raise OtherError
        | Some cur =>
            prev ← gets (fun s => st_mtimes s !! p);
            _ ← modify (fun s => set_mtimes (<[p := cur]> (st_mtimes s)) s);
            match prev with
            | None => mret (mkProbeResult false (p +:+ " mtime sample captured (waiting for next probe)"))
            | Some prev =>
                if prev <? cur then
                  mret (mkProbeResult true (p +:+ " mtime advanced from " +:+ mtime_text prev +:+ " to " +:+ mtime_text cur))
                else
                  t ← now;
                  if window_s * 1000000 <? t - cur
                  then mret (mkProbeResult false (p +:+ " has not grown in " +:+ age_text (t - cur) +:+ "s (> " +:+
                                                  str_of_Z window_s +:+ "s)"))
                  else mret (mkProbeResult false (p +:+ " mtime unchanged (" +:+ mtime_text cur +:+ ")"))
            end
        end
  end.

Definition probe_command_zero (command : option (list string)) : Dep W ProbeResult :=
  match command with
  | None | Some [] => mret (mkProbeResult false "command_exit_zero requires command")
  | Some cmd =>
      r ← run cmd;
      mret (mkProbeResult (rr_returncode r =? 0) (join " " cmd +:+ " exit " +:+ str_of_Z (rr_returncode r)))
  end.

Definition probe_journal (pattern : option string) (window_s : Z) : Dep W ProbeResult :=
  match pattern with
  | None | Some EmptyString => mret (mkProbeResult false "journal_pattern_recent requires pattern")
  | Some pat =>
      r ← run ["journalctl"; "--since"; str_of_Z (Z.max 1 (window_s / 60)) +:+ " minute ago"; "--no-pager"; "--quiet";
               "--grep"; pat]%string;
      if negb (rr_returncode r =? 0)
      then mret (mkProbeResult false ("journalctl exit " +:+ str_of_Z (rr_returncode r)))
      else
        let out := decode (rr_stdout r) in
        if String.eqb (strip out) EmptyString then mret (mkProbeResult false "no matching journal lines")
        else mret (mkProbeResult true ("matched in journal: " +:+
                     str_take 200 (default EmptyString (head (splitlines out)))))
  end.

(** [run_probe] and [_dispatch]. *)
Definition run_probe (v : VerifySpec) : Dep W ProbeResult :=
  let probe := vs_health_probe v in
  match hp_kind probe with
  | binary_exists_and_runs => probe_binary (vs_binary_paths v) (vs_version_cmd v)
  | service_active => probe_service (hp_unit probe)
  | file_exists => probe_file_exists (hp_path probe)
  | file_exists_and_growing => probe_file_growing (hp_path probe) (hp_grow_window_s probe)
  | command_exit_zero => probe_command_zero (hp_command probe)
  | journal_pattern_recent => probe_journal (hp_pattern probe) (hp_window_s probe)
  end.

(** ** [pkg_helper.py] *)

Record HelperResult := mkHelperResult { hr_exit_code : Z; hr_stdout : string; hr_stderr : string }.

Definition refuse {A} (r : Refusal) : Dep W A := raise (PkgHelperError r).

(** [[DependencyPlanItem.model_validate(i) for i in json.loads(text)]]. *)
Definition read_plan_items (text : string) : option (list DependencyPlanItem) :=
  match json_loads float_parse text with
  | Some (PList l) => mapM item_of l
  | Some (PDict []) | Some (PStr EmptyString) => Some []
  | _ => None
  end.
Definition find_plan (plan_id : string) (rows : list PlanRow) : option PlanRow :=
  List.find (fun r => String.eqb (pr_plan_id r) plan_id) rows.

Definition load_plan (plan_id : string) : Dep W (string * string * list DependencyPlanItem) :=
  rows ← gets st_plans;
  match find_plan plan_id rows with
  | None => refuse plan_not_found
  | Some r =>
      if negb (String.eqb (pr_status r) "pending") then refuse (plan_status (pr_status r))
      else
        t ← now;
        if pr_expires_at r <? t then refuse plan_expired
        else match read_plan_items (pr_items_json r) with
             | Some items => mret (pr_distro r, pr_package_manager r, items)
             | None => raise OtherError
             end
  end.

Definition packages_for (distro : string) (m : DependencyManifest) : list string :=
  default [] (od_get distro (m_distro_packages m)).

(** The first package that is not declared. *)
Definition check_item (distro : string) (item : DependencyPlanItem) : option Refusal :=
  match od_get (it_name item) manifests with
  | None => Some (unknown_dep (it_name item))
  | Some m =>
      (fun pkg => undeclared_package pkg (it_name item)) <$>
        List.find (fun pkg => negb (bool_decide (pkg ∈ packages_for distro m))) (it_packages item)
  end.
Definition validate_against_manifest (items : list DependencyPlanItem) (distro : string) : Dep W unit :=
  match omap (check_item distro) items with
  | [] => mret tt
  | r :: _ => refuse r
  end.

Definition helper_audit (plan_id action : string) (target command : option string) (exit_code : option Z)
    (stderr_tail : option string) : Dep W unit :=
  ts ← now;
  modify (add_dep_audit (mkDepAudit ts "pkg-helper" action target (Some plan_id) command exit_code
                           (Some (str_take 2000 (default EmptyString stderr_tail))))).

Definition set_plan_status (status : string) (r : PlanRow) : PlanRow :=
  mkPlanRow (pr_plan_id r) (pr_created_at r) (pr_created_by r) (pr_distro r) (pr_package_manager r) (pr_items_json r)
    (pr_estimated_disk_mb r) (pr_expires_at r) status.
Definition mark_applied (plan_id : string) (rows : list PlanRow) : list PlanRow :=
  (fun r => if String.eqb (pr_plan_id r) plan_id then set_plan_status "applied" r else r) <$> rows.

Definition REFRESH : list string := ["pacman"; "-Sy"]%string.
Definition install_argv (pkgs : list string) : list string :=
  (["pacman"; "-S"; "--noconfirm"; "--needed"]%string ++ pkgs)%list.
Definition is_install (item : DependencyPlanItem) : bool :=
  String.eqb (it_action item) "install" && negb (bool_decide (it_packages item = [])).

(** The loop over the items: [Err r] is the early return. *)
Fixpoint install_items (plan_id : string) (items : list DependencyPlanItem) (out err : string)
  : Dep W (HelperResult + (string * string)) :=
  match items with
  | [] => mret (inr (out, err))
  | item :: rest =>
      if negb (is_install item) then install_items plan_id rest out err
      else
        let argv := install_argv (it_packages item) in
        r ← run argv;
        let out := decode (rr_stdout r) in
        let err := decode (rr_stderr r) in
        _ ← helper_audit plan_id (if rr_returncode r =? 0 then "install" else "install_failed")
              (Some (it_name item)) (Some (join " " argv)) (Some (rr_returncode r)) (Some err);
        if negb (rr_returncode r =? 0) then mret (inl (mkHelperResult (rr_returncode r) out err))
        else install_items plan_id rest out err
  end.

(** The commands, once the plan is accepted. *)
Definition refresh_and_install (plan_id : string) (items : list DependencyPlanItem) : Dep W HelperResult :=
  refresh ← run REFRESH;
  _ ← helper_audit plan_id "metadata_refresh" None (Some "pacman -Sy"%string) (Some (rr_returncode refresh))
        (Some (decode (rr_stderr refresh)));
  if negb (rr_returncode refresh =? 0)
  then mret (mkHelperResult (rr_returncode refresh) (decode (rr_stdout refresh)) (decode (rr_stderr refresh)))
  else
    finished ← install_items plan_id items EmptyString EmptyString;
    match finished with
    | inl r => mret r
    | inr (out, err) =>
        _ ← modify (fun s => set_plans (mark_applied plan_id (st_plans s)) s);
        _ ← helper_audit plan_id "plan_applied" None None (Some 0) None;
        mret (mkHelperResult 0 out err)
    end.

Definition run_helper (plan_id : string) : Dep W HelperResult :=
  '(distro, pm, items) ← load_plan plan_id;
  if negb (String.eqb pm "pacman") then refuse (not_pacman pm)
  else if negb (String.eqb distro "arch") then refuse (not_arch distro)
  else _ ← validate_against_manifest items distro; refresh_and_install plan_id items.

(** [main]: the exit code of the helper process; another exception ends it
    with a traceback and the code 1. *)
Definition HELPER_PROTOCOL_VERSION : string := "1.0.0".
Definition helper_main (plan_id protocol_version : string) (s : St W) : Z * St W :=
  if negb (String.eqb protocol_version HELPER_PROTOCOL_VERSION) then (2, s)
  else match run_helper plan_id s with
       | (Ok r, s') => (hr_exit_code r, s')
       | (Err (PkgHelperError _), s') => (3, s')
       | (Err _, s') => (1, s')
       end.

(** ** [pacman_backend.py] *)

(** [_VERSION_RE.search]: the pattern at the start of a line. *)
Definition VERSION_RE : re :=
  (RLit "Version" +++ RStar py_space +++ RLit ":" +++ RStar py_space +++ RGroup "1" (RPlus (fun c => negb (py_space c))))%re.
Fixpoint search_line_start (r : re) (line_start : bool) (s : string) : option Groups :=
  match (if line_start then re_match r s else None) with
  | Some g => Some g
  | None => match s with
            | EmptyString => None
            | String c s' => search_line_start r (Ascii.eqb c newline) s'
            end
  end.

Record PacmanBackend := mkBackend { pb_lock_path : string; pb_helper_command : option (list string); pb_db_path : bool }.
(** [PacmanBackend()]. An empty helper command is none. *)
Definition default_backend : PacmanBackend := mkBackend "/var/lib/pacman/db.lck" None false.
Definition new_backend (lock_path : string) (helper_command : option (list string)) (db_path : bool) : PacmanBackend :=
  mkBackend lock_path (match helper_command with Some [] => None | c => c end) db_path.
Definition BACKEND_NAME : string := "pacman".
Definition IN_PROCESS : string := "__in_process__".

Record InstallResult := mkInstall {
  in_installed : list string;
  in_command : string;
  in_exit_code : Z;
  in_stdout_tail : string;
  in_stderr_tail : string;
}.
Definition install_failed (r : InstallResult) : bool := negb (in_exit_code r =? 0).

Definition is_installed (pkg : string) : Dep W bool :=
  r ← run ["pacman"; "-Qi"; pkg]%string; mret (rr_returncode r =? 0).
Definition parse_version (argv : list string) : Dep W (option string) :=
  r ← run argv;
  if negb (rr_returncode r =? 0) then mret None
  else mret (group "1" <$> search_line_start VERSION_RE true (decode (rr_stdout r))).
Definition installed_version (pkg : string) : Dep W (option string) := parse_version ["pacman"; "-Qi"; pkg]%string.
Definition candidate_version (pkg : string) : Dep W (option string) := parse_version ["pacman"; "-Si"; pkg]%string.
Definition is_locked (b : PacmanBackend) : Dep W bool := w ← gets st_world; mret (host_exists (pb_lock_path b) w).
Definition refresh_metadata : Dep W unit := raise BackendNotAvailableError.

(** [s[-2000:]]. *)
Definition tail2000 (s : string) : string := str_drop (String.length s - 2000) s.

Definition invoke_helper (b : PacmanBackend) (helper : list string) (pkgs : list string) (plan_id : string)
  : Dep W InstallResult :=
  if bool_decide (helper = [IN_PROCESS]) then
    let text := "helper plan=" +:+ plan_id +:+ " pkgs=" +:+ join "," pkgs in
    if negb (pb_db_path b) then raise BackendNotAvailableError
    else
      try_except
        (r ← run_helper plan_id;
         mret (mkInstall (if hr_exit_code r =? 0 then pkgs else []) text (hr_exit_code r)
                 (tail2000 (hr_stdout r)) (tail2000 (hr_stderr r))))
        (fun e => match e with
                  | PkgHelperError r => mret (mkInstall [] text 3 EmptyString (refusal_text r))
                  | _ => raise e
                  end)
  else
    let argv := (helper ++ ["--plan-id"%string; plan_id])%list in
    r ← run argv;
    mret (mkInstall (if rr_returncode r =? 0 then pkgs else []) (join " " argv) (rr_returncode r)
            (tail2000 (decode (rr_stdout r))) (tail2000 (decode (rr_stderr r)))).

Definition install (b : PacmanBackend) (pkgs : list string) (dry_run : bool) (plan_id : option string)
  : Dep W InstallResult :=
  locked ← is_locked b;
  if (locked : bool) then raise BackendLockedError
  else match pb_helper_command b, plan_id with
       | None, _ | _, None => raise BackendNotAvailableError
       | Some helper, Some id =>
           if dry_run then mret (mkInstall pkgs ("(dry-run) helper plan " +:+ id) 0 EmptyString EmptyString)
           else invoke_helper b helper pkgs id
       end.
Definition remove (b : PacmanBackend) (pkgs : list string) : Dep W unit :=
  locked ← is_locked b;
  if (locked : bool) then raise BackendLockedError else raise BackendNotAvailableError.

(** ** [sidecar.py] *)

(** [int(s, 8)]: [first] asks for a digit. *)
Fixpoint octal_digits (s : string) (acc : Z) (first : bool) : option Z :=
  match s with
  | EmptyString => if first then None else Some acc
  | String c s' =>
      if Ascii.eqb c "_" then if first then None else octal_digits s' acc true
      else if in_range 48 55 c then octal_digits s' (8 * acc + digit_val c) false
      else None
  end.
Definition octal_unsigned (s : string) : option Z :=
  match s with
  | String "0" (String o s') =>
      if Ascii.eqb o "o" || Ascii.eqb o "O" then
        octal_digits (match s' with String "_" s2 => s2 | _ => s' end) 0 true
      else octal_digits s 0 true
  | _ => octal_digits s 0 true
  end.
Definition int_octal (s : string) : option Z :=
  match strip s with
  | String "-" s' => Z.opp <$> octal_unsigned s'
  | String "+" s' => octal_unsigned s'
  | s' => octal_unsigned s'
  end.

(** [str(Path(s))] and [Path(dir) / name]. *)
Definition path_text (s : string) : string :=
  let root := if startswith "//" s && negb (startswith "///" s) then "//"
              else if startswith "/" s then "/" else EmptyString in
  let parts := List.filter (fun p => negb (String.eqb p EmptyString || String.eqb p ".")) (split_on "/" s) in
  let t := root +:+ join "/" parts in
  if String.eqb t EmptyString then "." else t.
Definition path_join (dir name : string) : string :=
  if startswith "/" name then path_text name else path_text (dir +:+ "/" +:+ name).

(** [_atomic_write]: an exception after the temporary file was made removes it;
    [unlink] may itself raise. *)
Definition atomic_write (target content : string) (mode : Z) : Dep W unit :=
  _ ← syscall "mkdir";
  tmp ← with_world host_id;
  _ ← syscall "mkstemp";
  _ ← modify (fun s => set_files (<[tmp := mkDropFile EmptyString 384 None]> (st_files s)) s);
  try_except
    (_ ← syscall "write";
     _ ← modify (fun s => set_files (<[tmp := mkDropFile content 384 None]> (st_files s)) s);
     _ ← syscall "chmod";
     _ ← modify (fun s => set_files (<[tmp := mkDropFile content mode None]> (st_files s)) s);
     _ ← syscall "replace";
     modify (fun s => set_files (<[target := mkDropFile content mode None]> (delete tmp (st_files s))) s))
    (fun e => _ ← syscall "unlink"; _ ← modify (fun s => set_files (delete tmp (st_files s)) s); raise e).

Definition write_sidecar (m : DependencyManifest) (include_dir : string) (chown : bool) : Dep W string :=
  match m_config m with
  | Some cfg =>
      if bool_decide (cs_strategy cfg <> sidecar) then raise (SidecarError (m_name m +:+ ": no sidecar config"))
      else
        match cs_dropin cfg with
        | None => raise (SidecarError (m_name m +:+ ": config.dropin not set"))
        | Some d =>
            match render (dp_template d) m with
            | None => raise OtherError
            | Some content =>
                match int_octal (dp_mode d) with
                | None => raise OtherError
                | Some mode =>
                    let target := path_join include_dir (dp_filename d) in
                    _ ← atomic_write target content mode;
                    if negb chown then mret target
                    else
                      c ← with_world (host_chown (dp_owner d));
                      match c with
                      | None => raise OtherError
                      | Some false => mret target
                      | Some true =>
                          _ ← modify (fun s => set_files (<[target := mkDropFile content mode (Some (dp_owner d))]> (st_files s)) s);
                          mret target
                      end
                end
            end
        end
  | None => raise (SidecarError (m_name m +:+ ": no sidecar config"))
  end.

(** ** [planner.py] *)

Definition PLAN_TTL : Z := 3600 * 1000000.

Definition is_required (m : DependencyManifest) (profile : string) (flags : list string) : bool :=
  if bool_decide (profile ∈ wh_profiles (m_required_when m)) then
    match wh_flags (m_required_when m) with
    | [] => true
    | fs => existsb (fun f => bool_decide (f ∈ flags)) fs
    end
  else false.

Definition name_le (a b : string * DependencyManifest) : Prop := String.le a.1 b.1.
#[local] Instance name_le_dec a b : Decision (name_le a b).
Proof. unfold name_le. apply _. Defined.
Definition sorted_manifests : Manifests := merge_sort name_le manifests.

(** [all(backend.is_installed(pkg) for pkg in pkgs)], which stops at the first
    that is not. *)
Fixpoint all_installed (pkgs : list string) : Dep W bool :=
  match pkgs with
  | [] => mret true
  | p :: rest => i ← is_installed p; if (i : bool) then all_installed rest else mret false
  end.
Fixpoint missing_of (pkgs : list string) : Dep W (list string) :=
  match pkgs with
  | [] => mret []
  | p :: rest => i ← is_installed p; ms ← missing_of rest; mret (if (i : bool) then ms else p :: ms)
  end.

Definition dropin_of (m : DependencyManifest) : option string :=
  cfg ← m_config m;
  d ← cs_dropin cfg;
  match cs_include_dir cfg with
  | Some dir => if String.eqb dir EmptyString then None else Some (dir +:+ dp_filename d)
  | None => None
  end.
Definition service_actions_of (m : DependencyManifest) : list string :=
  match m_service m with
  | Some s => if ss_enable s then ["systemctl enable --now " +:+ ss_systemd_unit s] else []
  | None => []
  end.

Definition manual_item (name : string) (manual : ManualInstallSpec) : DependencyPlanItem :=
  mkItem name "manual" [] None None [] [] [] (Some (mi_reason manual)) (Some (mi_instructions manual)).
Definition install_item (name : string) (m : DependencyManifest) (missing : list string) : DependencyPlanItem :=
  mkItem name "install" missing (Some (BACKEND_NAME +:+ " install " +:+ join " " missing)) (dropin_of m)
    (service_actions_of m) [] ((fun h => join " " (hk_command h)) <$> m_post_install_hooks m) None None.

(** The body of the loop: the item of one manifest, if any. *)
Definition plan_item (distro profile : string) (flags : list string) (nm : string * DependencyManifest)
  : Dep W (option DependencyPlanItem) :=
  let '(name, m) := nm in
  if negb (is_required m profile flags) then mret None
  else
    let packages := packages_for distro m in
    match m_manual_install m with
    | Some manual =>
        match packages with
        | [] => mret (Some (manual_item name manual))
        | _ => all ← all_installed packages; mret (if (all : bool) then None else Some (manual_item name manual))
        end
    | None =>
        match packages with
        | [] => mret None
        | _ =>
            missing ← missing_of packages;
            mret (match missing with [] => None | _ => Some (install_item name m missing) end)
        end
    end.

Definition build_plan (distro profile : string) (flags : list string) (created_by : string) : Dep W DependencyPlan :=
  items ← list_mapM (plan_item distro profile flags) sorted_manifests;
  created_at ← now;
  id ← with_world host_id;
  mret (mkPlan id created_at created_by distro BACKEND_NAME (omap (fun i => i) items) 0 (created_at + PLAN_TTL)).

Definition persist_plan (plan : DependencyPlan) : Dep W unit :=
  match json_spaced float_repr (PList (item_value <$> pl_items plan)) with
  | None => raise OtherError
  | Some items_json =>
      rows ← gets st_plans;
      match find_plan (pl_id plan) rows with
      | Some _ => raise OtherError
      | None =>
          _ ← modify (set_plans (rows ++ [mkPlanRow (pl_id plan) (pl_created_at plan) (pl_created_by plan) (pl_distro plan)
                (pl_package_manager plan) items_json (pl_estimated_disk_mb plan) (pl_expires_at plan) "pending"])%list);
          log_dep_action (pl_created_by plan) "plan_created" None (Some (pl_id plan)) None None None
      end
  end.

(** ** [applier.py] *)

Record ApplierResult := mkApplied { ap_ok : bool; ap_failed_dep : option string; ap_notes : list string }.

Definition load_items (plan_id : string) : Dep W (list DependencyPlanItem) :=
  rows ← gets st_plans;
  match find_plan plan_id rows with
  | None => raise PlanNotFound
  | Some r => match read_plan_items (pr_items_json r) with Some items => mret items | None => raise OtherError end
  end.

(** The drop-ins: [inl] is the early return. *)
Fixpoint write_dropins (plan_id : string) (sidecar_dirs : list (string * string)) (chown : bool)
    (items : list DependencyPlanItem) (notes : list string) : Dep W (ApplierResult + list string) :=
  match items with
  | [] => mret (inr notes)
  | item :: rest =>
      match (m ← od_get (it_name item) manifests; cfg ← m_config m; d ← cs_dropin cfg; Some (m, cfg)) with
      | None => write_dropins plan_id sidecar_dirs chown rest notes
      | Some (m, cfg) =>
          let dir := match od_get (it_name item) sidecar_dirs with
                     | Some d => d
                     | None => match cs_include_dir cfg with
                               | Some d => if String.eqb d EmptyString then "/" else d
                               | None => "/"
                               end
                     end in
          r ← try_except (t ← write_sidecar m dir chown; mret (inr t))
                (fun e => match e with
                          | SidecarError msg =>
                              _ ← log_dep_action "applier" "dropin_failed" (Some (it_name item)) (Some plan_id) None None (Some msg);
                              mret (inl (mkApplied false (Some (it_name item)) [msg]))
                          | _ => raise e
                          end);
          match r with
          | inl res => mret (inl res)
          | inr target =>
              _ ← log_dep_action "applier" "dropin_written" (Some (it_name item)) (Some plan_id) (Some target) None None;
              write_dropins plan_id sidecar_dirs chown rest (notes ++ ["wrote " +:+ target])
          end
      end
  end.

Definition service_action (plan_id : string) (item : DependencyPlanItem) (action : string) : Dep W unit :=
  r ← run (split_ws action);
  log_dep_action "applier" (if rr_returncode r =? 0 then "service_action" else "service_action_failed")
    (Some (it_name item)) (Some plan_id) (Some action) (Some (rr_returncode r)) (Some (decode (rr_stderr r))).

(** [ON CONFLICT (name) DO UPDATE]: the stored digest stays. *)
Definition dep_upd (new old : DepRow) : DepRow :=
  mkDepRow (dr_name old) (dr_installed new) (dr_installed_version new) (dr_dropin_present new) (dr_dropin_sha256 old)
    (dr_last_verify_ts new) (dr_last_verify_pass new) (dr_last_verify_detail new) (dr_updated_at new).

Definition verify_item (plan_id : string) (item : DependencyPlanItem) : Dep W unit :=
  match od_get (it_name item) manifests with
  | None => mret tt
  | Some m =>
      probe ← run_probe (m_verify m);
      _ ← log_dep_action "applier" (if pb_ok probe then "verify_pass" else "verify_fail") (Some (it_name item)) (Some plan_id)
            None None (Some (pb_detail probe));
      version ← match it_packages item with p :: _ => installed_version p | [] => mret None end;
      ts ← now;
      modify (fun s => set_deps (upsert_with dr_name dep_upd
        (mkDepRow (it_name item) true version (match it_config_dropin item with Some _ => true | None => false end) None
           (Some ts) (Some (pb_ok probe)) (Some (pb_detail probe)) ts) (st_deps s)) s)
  end.

Definition append_audit (action : string) (names : list string) (plan_id : string) : Dep W unit :=
  match names with
  | [] => mret tt
  | _ => modify (add_audit (mkAuditCall "user:local" action ("dep:" +:+ join "," names) [("plan_id"%string, PStr plan_id)]))
  end.

Definition apply_plan (b : PacmanBackend) (plan_id : string) (sidecar_dirs : list (string * string)) (chown : bool)
  : Dep W ApplierResult :=
  all ← load_items plan_id;
  let items := List.filter (fun i => negb (String.eqb (it_action i) "manual")) all in
  failed ← match List.filter is_install items with
           | [] => mret None
           | install_its =>
               result ← install b (mjoin (it_packages <$> install_its)) false (Some plan_id);
               _ ← log_dep_action "applier" (if install_failed result then "install_failed" else "install") None (Some plan_id)
                     (Some (in_command result)) (Some (in_exit_code result)) (Some (in_stderr_tail result));
               mret (if install_failed result then Some (in_stderr_tail result) else None)
           end;
  match failed with
  | Some tail => mret (mkApplied false (Some "install"%string) [tail])
  | None =>
      w ← write_dropins plan_id sidecar_dirs chown items [];
      match w with
      | inl res => mret res
      | inr notes =>
          _ ← iterM (fun item => iterM (service_action plan_id item) (it_service_actions item)) items;
          _ ← iterM (verify_item plan_id) items;
          _ ← append_audit "dep_plan_applied" (it_name <$> items) plan_id;
          mret (mkApplied true None notes)
      end
  end.

(** ** [ipc_handlers.py] *)

(** One row of the listing. *)
Definition dependency_value (name : string) (m : DependencyManifest) (installed : option bool) (version : option string)
    (prior : option DepRow) : pyval :=
  PDict [("name", PStr name); ("description", PStr (m_description m));
         ("required_when_profiles", texts (wh_profiles (m_required_when m)));
         ("packages_for_arch", texts (packages_for "arch" m));
         ("installed", match installed with Some b => PBool b | None => PNone end);
         ("installed_version", opt_text version);
         ("dropin_present", PBool (match prior with Some r => dr_dropin_present r | None => false end));
         ("last_verify_ts", opt_text (isoformat <$> (prior ≫= dr_last_verify_ts)));
         ("last_verify_pass", match prior ≫= dr_last_verify_pass with Some b => PBool b | None => PNone end);
         ("last_verify_detail", opt_text (prior ≫= dr_last_verify_detail))]%string.

Definition handle_list_dependencies : Dep W pyval :=
  state ← gets st_deps;
  rows ← list_mapM (fun nm : string * DependencyManifest =>
           let '(name, m) := nm in
           let pkgs := packages_for "arch" m in
           let prior := List.find (fun r => String.eqb (dr_name r) name) state in
           match pkgs with
           | [] => mret (dependency_value name m None None prior)
           | first :: _ =>
               i ← all_installed pkgs;
               version ← (if (i : bool) then installed_version first else mret None);
               mret (dependency_value name m (Some i) version prior)
           end) sorted_manifests;
  mret (PDict [("schema_version", PStr "1.0.0"); ("dependencies", PList rows)]%string).

(** [set(v or [])], of which only the texts can match; [None] is a
    [TypeError]. *)
Fixpoint chars (s : string) : list string :=
  match s with EmptyString => [] | String c s' => String c EmptyString :: chars s' end.
Definition hashable (v : pyval) : bool := match v with PList _ | PDict _ => false | _ => true end.
Definition flag_set (v : pyval) : option (list string) :=
  if negb (truthy v) then Some []
  else match v with
       | PList l => if forallb hashable l then Some (omap as_str l) else None
       | PStr s => Some (chars s)
       | PDict d => Some d.*1
       | _ => None
       end.
Definition str_param (params : dict) (key def : string) : string :=
  match dict_lookup key params with Some v => py_str str_other v | None => def end.

Definition handle_plan_dependency_install (os_release : option string) (params : dict) : Dep W pyval :=
  let profile := str_param params "profile" "standard" in
  match flag_set (default (PList []) (dict_lookup "flags" params)) with
  | None => raise OtherError
  | Some flags =>
      let actor := str_param params "actor" "ipc" in
      match detect_distro os_release with
      | None => raise OtherError
      | Some d =>
          plan ← build_plan (distro_value d) profile flags actor;
          _ ← persist_plan plan;
          _ ← append_audit "dep_plan_created" (it_name <$> pl_items plan) (pl_id plan);
          mret (PDict [("schema_version", PStr "1.0.0"); ("plan_id", PStr (pl_id plan)); ("distro", PStr (pl_distro plan));
                       ("package_manager", PStr (pl_package_manager plan)); ("items", PList (item_value <$> pl_items plan));
                       ("expires_at", PStr (isoformat (pl_expires_at plan)))]%string)
      end
  end.

(** [ORDER BY ts DESC LIMIT 200]. *)
Definition audit_newer (a b : DepAudit) : Prop := da_ts b <= da_ts a.
#[local] Instance audit_newer_dec a b : Decision (audit_newer a b).
Proof. unfold audit_newer. apply _. Defined.
Definition audit_value (r : DepAudit) : pyval :=
  PDict [("ts", PStr (isoformat (da_ts r))); ("actor", PStr (da_actor r)); ("action", PStr (da_action r));
         ("target", opt_text (da_target r)); ("plan_id", opt_text (da_plan_id r)); ("command", opt_text (da_command r));
         ("exit_code", match da_exit_code r with Some z => PInt z | None => PNone end);
         ("stderr_tail", opt_text (da_stderr_tail r))]%string.
(** The target is a text; another value is not modelled further and matches
    no row. *)
Definition target_is (v : pyval) (r : DepAudit) : bool :=
  negb (truthy v) ||
  match v, da_target r with PStr t, Some t' => String.eqb t t' | _, _ => false end.
Definition handle_get_dep_audit (params : dict) : Dep W pyval :=
  rows ← gets st_dep_audit;
  let target := dict_get "target" params in
  mret (PDict [("schema_version", PStr "1.0.0");
               ("entries", PList (audit_value <$> take 200 (merge_sort audit_newer (List.filter (target_is target) rows))))]%string).

Definition handle_apply_dependency_plan (b : PacmanBackend) (sidecar_dirs : list (string * string)) (chown : bool)
    (params : dict) : Dep W pyval :=
  let plan_id := str_param params "plan_id" EmptyString in
  if String.eqb plan_id EmptyString then raise IpcParamError
  else
    r ← apply_plan b plan_id sidecar_dirs chown;
    mret (PDict [("schema_version", PStr "1.0.0"); ("plan_id", PStr plan_id); ("ok", PBool (ap_ok r));
                 ("failed_dep", opt_text (ap_failed_dep r)); ("notes", texts (ap_notes r))]%string).

(** ** The worker ([workers/dependency_manager]) *)

Definition verify_severity (m : DependencyManifest) (ok : bool) : string :=
  if ok then "info"
  else match wh_profiles (m_required_when m) with [] => "low" | _ => "high" end.
Definition verify_event (nodename name : string) (m : DependencyManifest) (probe : ProbeResult) (ts : Z) (id : string) : dict :=
  let ok := pb_ok probe in
  [("schema_version", PStr EVENT_SCHEMA_VERSION); ("ts", PStr (isoformat ts)); ("event_id", PStr id); ("kind", PStr "state");
   ("category", texts ["host"]); ("type", texts [if ok then "info" else "change"]);
   ("action", PStr (if ok then "dep_verified" else "dep_misconfigured")); ("severity", PStr (verify_severity m ok));
   ("module", PStr "dependency_manager");
   ("host", PDict [("hostname", PStr nodename); ("os", PDict [("family", PStr "linux")])]);
   ("labels", texts ["dep:" +:+ name]); ("message", PStr (name +:+ ": " +:+ pb_detail probe))]%string.
(** The events are emitted one by one: those before an exception stay. *)
Fixpoint verify_all (nodename : string) (ms : Manifests) (s : St W) : list dict * option Exc * St W :=
  match ms with
  | [] => ([], None, s)
  | (name, m) :: rest =>
      match (probe ← run_probe (m_verify m); ts ← now; id ← with_world host_id;
             mret (verify_event nodename name m probe ts id)) s with
      | (Ok e, s') => let '(es, exc, s2) := verify_all nodename rest s' in (e :: es, exc, s2)
      | (Err exc, s') => ([], Some exc, s')
      end
  end.
Definition worker_step (nodename : string) : St W -> list dict * option Exc * St W := verify_all nodename sorted_manifests.
End Operations.
