(* ===== verification/DepsProofs.v ===== *)
(** * What the dependency manager may do to the host

    The privileged helper runs only the commands its static manifests allow,
    each audited ([helper_contained]); a plan installs what was missing
    ([plan_installs_missing]); the backend of the daemon can install nothing
    ([daemon_cannot_install]); a drop-in file is replaced as a whole
    ([dropin_atomic]). *)

From S2P Require Import Prelude Schemas RuleEval Tables Float64 Json Regex DepsFiles Deps.
Local Open Scope Z_scope.

(** ** The monad *)

Section Monad.
Context {W : Type}.

Lemma bind_inv {A B} (m : Dep W A) (f : A -> Dep W B) (s s' : St W) (r : result Exc B) :
  (m ≫= f) s = (r, s') ->
  (exists x s1, m s = (Ok x, s1) /\ f x s1 = (r, s')) \/ (exists e, m s = (Err e, s') /\ r = Err e).
Proof.
  unfold mbind, dep_bind. destruct (m s) as [[x|e] s1]; [left; eauto|]. intros [= <- <-]. right. eauto.
Qed.
Lemma bind_ok {A B} (m : Dep W A) (f : A -> Dep W B) (s s1 : St W) (x : A) : m s = (Ok x, s1) -> (m ≫= f) s = f x s1.
Proof. unfold mbind, dep_bind. by intros ->. Qed.
End Monad.

(** What a computation adds: commands and rows of the dependency audit; the
    other tables and the files stay, but for the plans. *)
Record adds {W} (s s' : St W) (cmds : list (list string)) (rows : list DepAudit) : Prop := mkAdds {
  ad_ran : st_ran s' = st_ran s ++ cmds;
  ad_rows : st_dep_audit s' = st_dep_audit s ++ rows;
  ad_deps : st_deps s' = st_deps s;
  ad_audit : st_audit s' = st_audit s;
  ad_files : st_files s' = st_files s;
}.

Section Adds.
Context {W : Type} `{Host W}.

Lemma adds_refl (s : St W) : adds s s [] [].
Proof. split; by rewrite ?app_nil_r. Qed.
Lemma adds_trans (s1 s2 s3 : St W) c1 c2 r1 r2 : adds s1 s2 c1 r1 -> adds s2 s3 c2 r2 -> adds s1 s3 (c1 ++ c2) (r1 ++ r2).
Proof. intros [] []. split; try congruence; rewrite app_assoc; congruence. Qed.

Lemma world_adds {A} (f : W -> A * W) (s : St W) :
  exists x s', with_world f s = (Ok x, s') /\ adds s s' [] [] /\ st_plans s' = st_plans s /\ x = (f (st_world s)).1.
Proof.
  unfold with_world. destruct (f (st_world s)) as [x w]. eexists x, _. split; [done|]. split; [|done].
  split; by rewrite ?app_nil_r.
Qed.

Lemma run_adds (argv : list string) (s s' : St W) (r : result Exc RunResult) :
  run argv s = (r, s') -> adds s s' [argv] [] /\ st_plans s' = st_plans s /\ match r with Ok _ => True | Err e => e = OtherError end.
Proof.
  unfold run, modify, mbind, dep_bind, with_world. cbn. destruct (host_run argv (st_world s)) as [[x|] w]; intros [= <- <-];
    (split; [split; cbn; by rewrite ?app_nil_r|done]).
Qed.

Lemma helper_audit_adds (plan_id action : string) target command exit_code tail (s : St W) :
  exists s' row, helper_audit plan_id action target command exit_code tail s = (Ok tt, s') /\ adds s s' [] [row] /\ st_plans s' = st_plans s /\
    da_actor row = "pkg-helper"%string /\ da_plan_id row = Some plan_id /\ da_action row = action /\
    da_command row = command /\ da_exit_code row = exit_code /\ da_target row = target.
Proof.
  unfold helper_audit, now, modify, mbind, dep_bind, with_world. destruct (host_now (st_world s)) as [t w]. cbn.
  eexists _, (mkDepAudit t "pkg-helper" action target (Some plan_id) command exit_code _).
  split; [reflexivity|]. split; [|by split_and!]. split; cbn; by rewrite ?app_nil_r.
Qed.
End Adds.

(** ** The helper *)

Section Helper.
Context {W : Type} `{Host W} (decode : string -> string) (float_parse : string -> Q) (manifests : Manifests).

Definition commands_of (rows : list DepAudit) : list string := omap da_command rows.
Definition by_helper (plan_id : string) (row : DepAudit) : Prop :=
  da_actor row = "pkg-helper"%string /\ da_plan_id row = Some plan_id.

(** The loop runs one command per item, each followed by its row, up to the
    first that fails. *)
Lemma install_items_adds (plan_id : string) (items : list DependencyPlanItem) (out err : string) (s s' : St W) r :
  install_items decode plan_id items out err s = (r, s') ->
  exists cmds rows, adds s s' cmds rows /\ st_plans s' = st_plans s /\ Forall (by_helper plan_id) rows /\
    cmds `prefix_of` (install_argv ∘ it_packages <$> List.filter is_install items) /\
    commands_of rows `prefix_of` (join " " <$> cmds) /\
    match r with
    | Ok (inr _) => cmds = (install_argv ∘ it_packages <$> List.filter is_install items) /\ commands_of rows = join " " <$> cmds
    | Ok (inl res) => hr_exit_code res <> 0 /\ commands_of rows = join " " <$> cmds
    | Err e => e = OtherError
    end.
Proof.
  revert out err s. induction items as [|item items IH]; intros out err s; cbn [install_items List.filter].
  { intros [= <- <-]. exists [], []. split_and!; try done. apply adds_refl. }
  destruct (is_install item); cbn [negb]; [|apply IH].
  intros [(x & s1 & (Ha & Hp1 & _)%run_adds & Hk)|(e & (Ha & Hp1 & ->)%run_adds & ->)]%bind_inv.
  2: { exists [install_argv (it_packages item)], []. split_and!; try done; [by apply prefix_cons, prefix_nil|apply prefix_nil]. }
  destruct (helper_audit_adds plan_id (if rr_returncode x =? 0 then "install" else "install_failed") (Some (it_name item))
    (Some (join " " (install_argv (it_packages item)))) (Some (rr_returncode x)) (Some (decode (rr_stderr x))) s1)
    as (s2 & row & Hh & Hr & Hp2 & Hactor & Hplan & _ & Hcmd & _).
  cbn zeta in Hk. rewrite (bind_ok _ _ _ _ _ Hh) in Hk. pose proof (adds_trans _ _ _ _ _ _ _ Ha Hr) as H2. cbn [app] in H2.
  destruct (Z.eqb_spec (rr_returncode x) 0) as [E|E]; cbn [negb] in Hk.
  - apply IH in Hk as (cmds & rows & Ha' & Hp3 & Hb & Hp & Hc & Hres). exists (install_argv (it_packages item) :: cmds), (row :: rows).
    split_and!; [by pose proof (adds_trans _ _ _ _ _ _ _ H2 Ha')|congruence|by constructor|by apply prefix_cons| |].
    + cbn. rewrite Hcmd. by apply prefix_cons.
    + destruct r as [[res|[o e]]|e]; [|destruct Hres as [-> Hcs]|done].
      * destruct Hres as [? Hcs]. split; [done|]. cbn. rewrite Hcmd. by f_equal.
      * split; [done|]. cbn. rewrite Hcmd. by f_equal.
  - injection Hk as <- <-. exists [install_argv (it_packages item)], [row]. cbn. rewrite Hcmd.
    split_and!; try done; [congruence|by repeat constructor|by apply prefix_cons, prefix_nil].
Qed.

(** Items that pass the check name declared packages only. *)
Lemma validate_inv (items : list DependencyPlanItem) (distro : string) (s s' : St W) r :
  validate_against_manifest manifests items distro s = (r, s') -> s' = s /\
  match r with
  | Ok _ => forall item, item ∈ items -> exists m, od_get (it_name item) manifests = Some m /\
              (forall p, p ∈ it_packages item -> p ∈ packages_for distro m)
  | Err e => exists x, e = PkgHelperError x
  end.
Proof.
  unfold validate_against_manifest. destruct (omap (check_item manifests distro) items) as [|x l] eqn:E; intros [= <- <-]; (split; [done|]);
    [|by exists x].
  intros item Hin. destruct (check_item manifests distro item) as [x|] eqn:Ec.
  { assert (x ∈ omap (check_item manifests distro) items) as Hx by (apply list_elem_of_omap; by exists item).
    rewrite E in Hx. by apply elem_of_nil in Hx. }
  unfold check_item in Ec. destruct (od_get (it_name item) manifests) as [m|]; [|done]. exists m. split; [done|].
  intros p Hp. apply fmap_None in Ec. eapply List.find_none in Ec; [|by apply list_elem_of_In].
  by apply negb_false_iff, bool_decide_eq_true in Ec.
Qed.

(** A plan that may be applied now. *)
Definition applicable (plan_id : string) (s : St W) (row : PlanRow) : Prop :=
  find_plan plan_id (st_plans s) = Some row /\ pr_status row = "pending"%string /\
  (host_now (st_world s)).1 <= pr_expires_at row.

Lemma load_plan_inv (plan_id : string) (s s' : St W) r :
  load_plan float_parse plan_id s = (r, s') -> adds s s' [] [] /\ st_plans s' = st_plans s /\
  match r with
  | Ok (distro, pm, items) => exists row, applicable plan_id s row /\ distro = pr_distro row /\ pm = pr_package_manager row /\
                                read_plan_items float_parse (pr_items_json row) = Some items
  | Err _ => True
  end.
Proof.
  unfold load_plan, gets, mbind, dep_bind. destruct (find_plan plan_id (st_plans s)) as [row|] eqn:Ef.
  2: { intros [= <- <-]. split; [apply adds_refl|done]. }
  destruct (String.eqb_spec (pr_status row) "pending") as [Hst|]; cbn [negb].
  2: { intros [= <- <-]. split; [apply adds_refl|done]. }
  unfold now. destruct (world_adds host_now s) as (t & s1 & -> & Ha & Hp & ->).
  destruct (Z.ltb_spec (pr_expires_at row) (host_now (st_world s)).1); [by intros [= <- <-]|].
  destruct (read_plan_items float_parse (pr_items_json row)) as [items|] eqn:Er; intros [= <- <-]; (split; [done|]); (split; [done|]); [|done].
  by exists row.
Qed.

Definition allowed_command (argv : list string) : Prop :=
  argv = REFRESH \/
  exists name m pkgs, od_get name manifests = Some m /\ pkgs <> [] /\ (forall p, p ∈ pkgs -> p ∈ packages_for "arch" m) /\
    argv = install_argv pkgs.

Lemma install_commands_allowed (items : list DependencyPlanItem) (argv : list string) :
  (forall item, item ∈ items -> exists m, od_get (it_name item) manifests = Some m /\
      (forall p, p ∈ it_packages item -> p ∈ packages_for "arch" m)) ->
  argv ∈ install_argv ∘ it_packages <$> List.filter is_install items -> allowed_command argv.
Proof.
  intros Hv (item & -> & Hin)%list_elem_of_fmap. apply list_elem_of_In, List.filter_In in Hin as [Hin%list_elem_of_In Hi].
  destruct (Hv item Hin) as (m & Hm & Hp). right. exists (it_name item), m, (it_packages item). split_and!; try done.
  apply andb_prop in Hi as [_ Hi%negb_true_iff%bool_decide_eq_false]. done.
Qed.

(** The plans after a call. *)
Definition plans_after (plan_id : string) (r : result Exc HelperResult) (s s' : St W) : Prop :=
  st_plans s' = match r with
                | Ok res => if hr_exit_code res =? 0 then mark_applied plan_id (st_plans s) else st_plans s
                | Err _ => st_plans s
                end.
(** Every command that returned has its row. *)
Definition audited {A} (r : result Exc A) (cmds : list (list string)) (rows : list DepAudit) : Prop :=
  commands_of rows `prefix_of` (join " " <$> cmds) /\ (is_ok r = true -> commands_of rows = join " " <$> cmds).

Lemma refresh_and_install_adds (plan_id : string) (items : list DependencyPlanItem) (s s' : St W) r :
  refresh_and_install decode plan_id items s = (r, s') ->
  exists cmds rows, adds s s' (REFRESH :: cmds) rows /\ Forall (by_helper plan_id) rows /\
    cmds `prefix_of` (install_argv ∘ it_packages <$> List.filter is_install items) /\
    audited r (REFRESH :: cmds) rows /\ plans_after plan_id r s s'.
Proof.
  unfold refresh_and_install, plans_after, audited.
  intros [(refresh & s3 & (Hr & Hp & _)%run_adds & Hk)|(e & (Hr & Hp & _)%run_adds & ->)]%bind_inv.
  2: { exists [], []. split_and!; try done; apply prefix_nil. }
  destruct (helper_audit_adds plan_id "metadata_refresh" None (Some "pacman -Sy"%string) (Some (rr_returncode refresh))
    (Some (decode (rr_stderr refresh))) s3) as (s4 & row1 & Hh & Hr1 & Hp1 & Hactor & Hplan & _ & Hcmd & _).
  rewrite (bind_ok _ _ _ _ _ Hh) in Hk. pose proof (adds_trans _ _ _ _ _ _ _ Hr Hr1) as H4.
  cbn [app] in H4. destruct (Z.eqb_spec (rr_returncode refresh) 0) as [E|E]; cbn [negb] in Hk.
  2: { injection Hk as <- <-. exists [], [row1]. cbn. rewrite Hcmd. apply Z.eqb_neq in E as ->.
       split_and!; try done; [by repeat constructor|apply prefix_nil|congruence]. }
  apply bind_inv in Hk as [(d & s5 & (cmds & rows & Ha & Hp5 & Hb & Hpre & Hc & Hres)%install_items_adds & Hk)
    |(e & (cmds & rows & Ha & Hp5 & Hb & Hpre & Hc & Hres)%install_items_adds & ->)];
    pose proof (adds_trans _ _ _ _ _ _ _ H4 Ha) as H5; exists cmds.
  - assert (Hcc : commands_of (row1 :: rows) = join " " <$> (REFRESH :: cmds)).
    { cbn. rewrite Hcmd. f_equal. destruct d as [res|[o er]]; apply Hres. }
    destruct d as [res|[o er]].
    + injection Hk as <- <-. destruct Hres as [Hne _]. apply Z.eqb_neq in Hne. rewrite Hne. exists (row1 :: rows).
      split_and!; try done; [by constructor|by rewrite Hcc|congruence].
    + destruct (helper_audit_adds plan_id "plan_applied" None None (Some 0) None
        (set_plans (mark_applied plan_id (st_plans s5)) s5)) as (s6 & row2 & Hh2 & Hr2 & Hp6 & Hactor2 & Hplan2 & _ & Hcmd2 & _).
      rewrite (bind_ok (modify _) _ s5 _ tt eq_refl), (bind_ok _ _ _ _ _ Hh2) in Hk. injection Hk as <- <-.
      assert (Hcc2 : commands_of ((row1 :: rows) ++ [row2]) = join " " <$> (REFRESH :: cmds)).
      { rewrite <- Hcc. unfold commands_of. rewrite omap_app. cbn [omap list_omap]. rewrite Hcmd2. apply app_nil_r. }
      exists ((row1 :: rows) ++ [row2]). split_and!; try done.
      * assert (adds s5 s6 [] [row2]) as H6 by (destruct Hr2; by split).
        pose proof (adds_trans _ _ _ _ _ _ _ H5 H6) as H7. cbn [app] in H7. by rewrite app_nil_r in H7.
      * apply Forall_app. split; [by constructor|by repeat constructor].
      * by rewrite Hcc2.
      * cbn [hr_exit_code Z.eqb]. rewrite Hp6. cbn. congruence.
  - exists (row1 :: rows). split_and!; try done; [by constructor| |congruence].
    cbn. rewrite Hcmd. by apply prefix_cons.
Qed.

(** What a call of the helper does. *)
Lemma run_helper_adds (plan_id : string) (s s' : St W) r :
  run_helper decode float_parse manifests plan_id s = (r, s') ->
  exists cmds rows, adds s s' cmds rows /\ Forall (by_helper plan_id) rows /\ Forall allowed_command cmds /\
    (cmds <> [] -> exists row, applicable plan_id s row /\ pr_distro row = "arch"%string /\ pr_package_manager row = "pacman"%string) /\
    (is_ok r = true -> cmds <> []) /\ audited r cmds rows /\ plans_after plan_id r s s'.
Proof.
  unfold run_helper. intros [([[distro pm] items] & s1 & (Hl & Hp & row & Hrow & -> & -> & Hitems)%load_plan_inv & Hk)
    |(e & (Hl & Hp & _)%load_plan_inv & ->)]%bind_inv.
  2: { exists [], []. split_and!; try done. }
  destruct (String.eqb_spec (pr_package_manager row) "pacman") as [Hpm|]; cbn [negb] in Hk.
  2: { injection Hk as <- <-. exists [], []. split_and!; try done. }
  destruct (String.eqb_spec (pr_distro row) "arch") as [Hd|]; cbn [negb] in Hk.
  2: { injection Hk as <- <-. exists [], []. split_and!; try done. }
  rewrite Hd in Hk.
  apply bind_inv in Hk as [([] & s2 & [-> Hv]%validate_inv & Hk)|(e & [-> _]%validate_inv & ->)].
  2: { exists [], []. split_and!; try done. }
  apply refresh_and_install_adds in Hk as (cmds & rows & Ha & Hb & Hpre & Hau & Hpl).
  exists (REFRESH :: cmds), rows. split_and!; try done.
  - by pose proof (adds_trans _ _ _ _ _ _ _ Hl Ha).
  - constructor; [by left|]. apply Forall_forall. intros argv Hin. eapply install_commands_allowed; [exact Hv|].
    destruct Hpre as [l ->]. apply elem_of_app. by left.
  - by exists row.
  - unfold plans_after in *. by rewrite <- Hp.
Qed.

Lemma find_marked (plan_id : string) (rows : list PlanRow) :
  find_plan plan_id (mark_applied plan_id rows) = set_plan_status "applied" <$> find_plan plan_id rows.
Proof.
  unfold find_plan, mark_applied. induction rows as [|r rows IH]; [done|]. cbn.
  destruct (String.eqb (pr_plan_id r) plan_id) eqn:E; cbn; rewrite E; [done|]. exact IH.
Qed.

(** A plan that was applied is refused from then on. *)
Lemma applied_plan_refused (plan_id : string) (s : St W) (row : PlanRow) :
  find_plan plan_id (st_plans s) = Some row -> pr_status row = "applied"%string ->
  run_helper decode float_parse manifests plan_id s = (Err (PkgHelperError (plan_status "applied")), s).
Proof.
  intros Hf Hs. unfold run_helper, load_plan, gets, mbind, dep_bind. rewrite Hf, Hs. done.
Qed.

End Helper.

(** ** From a plan to the installed packages *)

(** A host on which pacman works: a query tells whether a package is
    installed, a refresh succeeds, and an installation succeeds and leaves its
    packages installed. *)
Class Pacman (W : Type) `{Host W} := {
  pac_installed : W -> gset string;
  pac_query p w : exists r w', host_run ["pacman"; "-Qi"; p]%string w = (Some r, w') /\
    (rr_returncode r = 0 <-> p ∈ pac_installed w) /\ pac_installed w' = pac_installed w;
  pac_refresh w : exists r w', host_run REFRESH w = (Some r, w') /\ rr_returncode r = 0 /\ pac_installed w' = pac_installed w;
  pac_install pkgs w : exists r w', host_run (install_argv pkgs) w = (Some r, w') /\ rr_returncode r = 0 /\
    list_to_set pkgs ∪ pac_installed w ⊆ pac_installed w';
  pac_now w : pac_installed (host_now w).2 = pac_installed w;
  pac_id w : pac_installed (host_id w).2 = pac_installed w;
}.

Section Plans.
Context {W : Type} `{Pacman W} (decode : string -> string) (float_repr : Q -> string) (float_parse : string -> Q)
  (manifests : Manifests).

(** The plans and the installed packages stay. *)
Definition quiet (s s' : St W) : Prop :=
  st_plans s' = st_plans s /\ pac_installed (st_world s') = pac_installed (st_world s).
Lemma quiet_refl (s : St W) : quiet s s.
Proof. done. Qed.
Lemma quiet_trans (s1 s2 s3 : St W) : quiet s1 s2 -> quiet s2 s3 -> quiet s1 s3.
Proof. unfold quiet. intuition congruence. Qed.

Lemma run_returns (argv : list string) (s : St W) (r : RunResult) (w : W) :
  host_run argv (st_world s) = (Some r, w) ->
  exists s', run argv s = (Ok r, s') /\ st_plans s' = st_plans s /\ st_world s' = w.
Proof.
  intros E. unfold run, modify, mbind, dep_bind, with_world. cbn. rewrite E. by eexists.
Qed.
Lemma now_ok (s : St W) : exists s', now s = (Ok (host_now (st_world s)).1, s') /\ quiet s s'.
Proof.
  unfold now, with_world. pose proof (pac_now (st_world s)). destruct (host_now (st_world s)) as [t w]. by eexists.
Qed.
Lemma id_ok (s : St W) : exists s', with_world host_id s = (Ok (host_id (st_world s)).1, s') /\ quiet s s'.
Proof.
  unfold with_world. pose proof (pac_id (st_world s)). destruct (host_id (st_world s)) as [t w]. by eexists.
Qed.
Lemma is_installed_ok (p : string) (s : St W) :
  exists s', is_installed p s = (Ok (bool_decide (p ∈ pac_installed (st_world s))), s') /\ quiet s s'.
Proof.
  destruct (pac_query p (st_world s)) as (r & w & E & Hr & Hw). destruct (run_returns _ s _ _ E) as (s' & Hrun & Hp & <-).
  exists s'. split; [|by split]. unfold is_installed. rewrite (bind_ok _ _ _ _ _ Hrun). unfold mret, dep_ret. do 2 f_equal.
  case_bool_decide as Hin; [by apply Z.eqb_eq, Hr|]. apply Z.eqb_neq. by intros Hz%Hr.
Qed.

(** What planning finds, from the installed packages [I]. *)
Definition lacking (I : gset string) (pkgs : list string) : list string :=
  List.filter (fun p => negb (bool_decide (p ∈ I))) pkgs.
Definition item_for (I : gset string) (distro profile : string) (flags : list string) (nm : string * DependencyManifest)
  : option DependencyPlanItem :=
  let pkgs := packages_for distro nm.2 in
  if negb (is_required nm.2 profile flags) then None
  else match m_manual_install nm.2 with
       | Some manual =>
           if bool_decide (pkgs <> []) && bool_decide (lacking I pkgs = []) then None else Some (manual_item nm.1 manual)
       | None => match lacking I pkgs with [] => None | missing => Some (install_item nm.1 nm.2 missing) end
       end.

Lemma missing_of_ok (pkgs : list string) (s : St W) :
  exists s', missing_of pkgs s = (Ok (lacking (pac_installed (st_world s)) pkgs), s') /\ quiet s s'.
Proof.
  revert s. induction pkgs as [|p pkgs IH]; intros s; [by exists s|]. cbn [missing_of lacking List.filter].
  destruct (is_installed_ok p s) as (s1 & E1 & Hq1), (IH s1) as (s2 & E2 & Hq2). exists s2. split; [|by eapply quiet_trans].
  rewrite (bind_ok _ _ _ _ _ E1), (bind_ok _ _ _ _ _ E2). destruct Hq1 as [_ ->]. by case_bool_decide.
Qed.
Lemma all_installed_ok (pkgs : list string) (s : St W) :
  exists s', all_installed pkgs s = (Ok (bool_decide (lacking (pac_installed (st_world s)) pkgs = [])), s') /\ quiet s s'.
Proof.
  revert s. induction pkgs as [|p pkgs IH]; intros s; [by exists s|]. cbn [all_installed lacking List.filter].
  destruct (is_installed_ok p s) as (s1 & E1 & Hq1). rewrite (bind_ok _ _ _ _ _ E1). case_bool_decide; cbn [negb]; [|by exists s1].
  destruct (IH s1) as (s2 & E2 & Hq2). exists s2. destruct Hq1 as [Hq1 Hw]. rewrite <- Hw. split; [done|].
  by apply (quiet_trans _ s1).
Qed.

Lemma plan_item_ok (distro profile : string) (flags : list string) (nm : string * DependencyManifest) (s : St W) :
  exists s', plan_item distro profile flags nm s = (Ok (item_for (pac_installed (st_world s)) distro profile flags nm), s') /\
    quiet s s'.
Proof.
  destruct nm as [name m]. unfold plan_item, item_for. cbn [fst snd]. destruct (is_required m profile flags); cbn [negb]; [|by exists s].
  destruct (m_manual_install m) as [manual|].
  - destruct (packages_for distro m) as [|p pkgs] eqn:Ep; [by exists s|].
    destruct (all_installed_ok (p :: pkgs) s) as (s1 & E1 & Hq). exists s1. rewrite (bind_ok _ _ _ _ _ E1).
    rewrite (bool_decide_true (p :: pkgs <> [])) by done. done.
  - destruct (packages_for distro m) as [|p pkgs] eqn:Ep; [by exists s|].
    destruct (missing_of_ok (p :: pkgs) s) as (s1 & E1 & Hq). exists s1. rewrite (bind_ok _ _ _ _ _ E1).
    by destruct (lacking _ _).
Qed.

Lemma list_mapM_ok {A B} (f : A -> Dep W B) (g : gset string -> A -> B) (l : list A) (s : St W) :
  (forall x s, exists s', f x s = (Ok (g (pac_installed (st_world s)) x), s') /\ quiet s s') ->
  exists s', list_mapM f l s = (Ok (g (pac_installed (st_world s)) <$> l), s') /\ quiet s s'.
Proof.
  intros Hf. revert s. induction l as [|x l IH]; intros s; [by exists s|]. cbn [list_mapM fmap list_fmap].
  destruct (Hf x s) as (s1 & E1 & Hq1), (IH s1) as (s2 & E2 & Hq2). exists s2. split; [|by eapply quiet_trans].
  rewrite (bind_ok _ _ _ _ _ E1), (bind_ok _ _ _ _ _ E2). by destruct Hq1 as [_ ->].
Qed.

Lemma build_plan_ok (distro profile created_by : string) (flags : list string) (s : St W) :
  exists plan s', build_plan manifests distro profile flags created_by s = (Ok plan, s') /\ quiet s s' /\
    pl_items plan = omap (item_for (pac_installed (st_world s)) distro profile flags) (sorted_manifests manifests) /\
    pl_distro plan = distro /\ pl_package_manager plan = "pacman"%string /\ pl_expires_at plan = pl_created_at plan + PLAN_TTL.
Proof.
  destruct (list_mapM_ok _ (fun I => item_for I distro profile flags) (sorted_manifests manifests) s (plan_item_ok distro profile flags)) as (s1 & E1 & Hq1).
  destruct (now_ok s1) as (s2 & E2 & Hq2), (id_ok s2) as (s3 & E3 & Hq3). eexists _, s3. unfold build_plan.
  rewrite (bind_ok _ _ _ _ _ E1), (bind_ok _ _ _ _ _ E2), (bind_ok _ _ _ _ _ E3). split; [reflexivity|].
  split; [by do 2 (eapply quiet_trans; [eassumption|])|]. split; [|done]. cbn [pl_items]. generalize (sorted_manifests manifests).
  intros l. induction l as [|x l IH]; [done|]. cbn. rewrite <- IH. by destruct (item_for _ _ _ _ x).
Qed.

(** *** Storing the plan and reading it *)

Lemma texts_back (l : list string) : mapM as_str (PStr <$> l) = Some l.
Proof. induction l as [|x l IH]; [done|]. cbn. by rewrite IH. Qed.
Lemma item_back (i : DependencyPlanItem) : item_of (item_value i) = Some i.
Proof.
  unfold item_of, item_value. assert (forall o, opt_text_of (Some (opt_text o)) = Some o) as Ho by (by intros []).
  cbn -[as_str opt_text_of texts_of mapM]. rewrite !Ho. unfold texts, texts_of. rewrite !texts_back. by destruct i.
Qed.
Lemma items_back (items : list DependencyPlanItem) : mapM item_of (item_value <$> items) = Some items.
Proof. induction items as [|i items IH]; [done|]. cbn [fmap list_fmap mapM]. by rewrite item_back, IH. Qed.

Lemma items_wf (items : list DependencyPlanItem) : json_wf float_repr float_parse (PList (item_value <$> items)).
Proof.
  apply json_wf_list, Forall_fmap, Forall_forall. intros i _. unfold compose, item_value. apply json_wf_dict. split.
  { by apply (bool_decide_unpack _); vm_compute. }
  assert (Ho : forall o, json_wf float_repr float_parse (opt_text o)) by (by intros []).
  assert (Ht : forall l, json_wf float_repr float_parse (texts l)).
  { intros l. apply json_wf_list, Forall_fmap, Forall_forall. by intros. }
  repeat constructor; cbn [snd]; first [apply Ho | apply Ht | done].
Qed.

Lemma stored_items_read (items : list DependencyPlanItem) :
  exists text, json_spaced float_repr (PList (item_value <$> items)) = Some text /\
    read_plan_items float_parse text = Some items.
Proof.
  destruct (json_wf_gap float_repr float_parse " " _ (items_wf items)) as [text Ht]. exists text. split; [exact Ht|].
  unfold read_plan_items. rewrite (reads_as_loads float_parse text (PList (item_value <$> items))); [apply items_back|].
  eapply (json_gap_reads float_repr float_parse " "); [done|apply items_wf|exact Ht].
Qed.

(** The row a plan is stored as. *)
Definition stored_as (plan : DependencyPlan) (row : PlanRow) : Prop :=
  pr_plan_id row = pl_id plan /\ pr_distro row = pl_distro plan /\ pr_package_manager row = pl_package_manager plan /\
  pr_expires_at row = pl_expires_at plan /\ pr_status row = "pending"%string /\
  read_plan_items float_parse (pr_items_json row) = Some (pl_items plan).

Lemma persist_plan_ok (plan : DependencyPlan) (s : St W) :
  find_plan (pl_id plan) (st_plans s) = None ->
  exists s' row, persist_plan float_repr plan s = (Ok tt, s') /\ st_plans s' = st_plans s ++ [row] /\ stored_as plan row /\
    pac_installed (st_world s') = pac_installed (st_world s).
Proof.
  intros Hf. unfold persist_plan. destruct (stored_items_read (pl_items plan)) as (text & -> & Hread).
  rewrite (bind_ok (gets st_plans) _ s s (st_plans s) eq_refl), Hf, (bind_ok (modify _) _ s _ tt eq_refl). unfold log_dep_action.
  match goal with |- context [(now ≫= _) ?s1] => destruct (now_ok s1) as (s2 & E & Hp & Hw) end.
  rewrite (bind_ok _ _ _ _ _ E). eexists _, _. split; [reflexivity|]. split; [cbn; exact Hp|]. split; [|exact Hw]. by split_and!.
Qed.

(** *** Running it *)

Lemma helper_audit_quiet (plan_id action : string) target command exit_code tail (s : St W) :
  exists s', helper_audit plan_id action target command exit_code tail s = (Ok tt, s') /\ quiet s s' /\ st_ran s' = st_ran s.
Proof.
  unfold helper_audit, now, modify, mbind, dep_bind, with_world. pose proof (pac_now (st_world s)).
  destruct (host_now (st_world s)) as [t w]. by eexists.
Qed.

Lemma install_items_ok (plan_id : string) (items : list DependencyPlanItem) (out err : string) (s : St W) :
  exists res s', install_items decode plan_id items out err s = (Ok (inr res), s') /\ st_plans s' = st_plans s /\
    st_ran s' = st_ran s ++ (install_argv ∘ it_packages <$> List.filter is_install items) /\
    pac_installed (st_world s) ⊆ pac_installed (st_world s') /\
    forall item p, item ∈ items -> is_install item = true -> p ∈ it_packages item -> p ∈ pac_installed (st_world s').
Proof.
  revert out err s. induction items as [|item items IH]; intros out err s; cbn [install_items List.filter].
  { eexists _, s. rewrite app_nil_r. split_and!; try done. intros item p Hi. by apply elem_of_nil in Hi. }
  destruct (is_install item) eqn:Ei; cbn [negb].
  2: { destruct (IH out err s) as (res & s' & E & H1 & H2 & H3 & H4). exists res, s'. split_and!; try done.
       intros i p [->|Hi]%elem_of_cons; [congruence|]. by apply H4. }
  destruct (pac_install (it_packages item) (st_world s)) as (x & w & Ex & E0 & Hx).
  destruct (run_returns _ s _ _ Ex) as (s1 & Hrun & Hp1 & <-). pose proof (proj1 (run_adds _ _ _ _ Hrun)) as [Hr1 _ _ _ _].
  cbn zeta. rewrite (bind_ok _ _ _ _ _ Hrun), E0. cbn [Z.eqb negb].
  match goal with |- context [(helper_audit ?a ?b ?c ?d ?e ?f ≫= _) s1] =>
    destruct (helper_audit_quiet a b c d e f s1) as (s2 & E2 & [Hp2 Hw2] & Hr2) end.
  rewrite (bind_ok _ _ _ _ _ E2). edestruct IH as (res & s' & E & H1 & H2 & H3 & H4). exists res, s'. split_and!.
  - exact E.
  - congruence.
  - by rewrite H2, Hr2, Hr1, <- app_assoc.
  - set_solver.
  - intros i p [->|Hi]%elem_of_cons Hii Hp; [|by eapply H4]. apply H3. rewrite Hw2. apply Hx, elem_of_union_l, elem_of_list_to_set, Hp.
Qed.

Lemma find_plan_app (id : string) (rows : list PlanRow) (row : PlanRow) :
  find_plan id rows = None -> pr_plan_id row = id -> find_plan id (rows ++ [row]) = Some row.
Proof.
  intros Hn <-. unfold find_plan in *. induction rows as [|r rows IH]; cbn in *; [by rewrite String.eqb_refl|].
  destruct (String.eqb (pr_plan_id r) (pr_plan_id row)); [done|]. by apply IH.
Qed.

Lemma sorted_manifests_mem (nm : string * DependencyManifest) :
  NoDup manifests.*1 -> nm ∈ sorted_manifests manifests <-> od_get nm.1 manifests = Some nm.2.
Proof.
  intros Hn. unfold sorted_manifests. rewrite merge_sort_Permutation, od_get_elem by done. by destruct nm.
Qed.

Lemma lacking_mem (I : gset string) (pkgs : list string) (p : string) : p ∈ lacking I pkgs <-> p ∈ pkgs /\ p ∉ I.
Proof.
  unfold lacking. rewrite list_elem_of_In, List.filter_In, <- list_elem_of_In, negb_true_iff, bool_decide_eq_false. done.
Qed.

(** The items of a plan are of declared packages. *)
Lemma item_for_checked (I : gset string) (distro profile : string) (flags : list string) (item : DependencyPlanItem) :
  NoDup manifests.*1 -> item ∈ omap (item_for I distro profile flags) (sorted_manifests manifests) ->
  check_item manifests distro item = None.
Proof.
  intros Hn ([name m] & Hm%(sorted_manifests_mem (name, m)) & Hi)%list_elem_of_omap; [|done]. cbn [fst snd] in *.
  unfold item_for in Hi. cbn [fst snd] in Hi. destruct (is_required m profile flags); [|done]. cbn [negb] in Hi.
  assert (Hc : it_name item = name /\ forall p, p ∈ it_packages item -> p ∈ packages_for distro m).
  { destruct (m_manual_install m) as [manual|].
    - destruct (_ && _); [done|]. injection Hi as <-. split; [done|]. intros p Hp. by apply elem_of_nil in Hp.
    - destruct (lacking I (packages_for distro m)) as [|x l] eqn:El; [done|]. injection Hi as <-. split; [done|].
      cbn [it_packages install_item]. intros p Hp. rewrite <- El in Hp. by apply lacking_mem in Hp as [Hp _]. }
  destruct Hc as [<- Hc]. unfold check_item. rewrite Hm. apply fmap_None. destruct (List.find _ _) as [p|] eqn:E; [|done].
  apply List.find_some in E as [Hp%list_elem_of_In He]. by rewrite bool_decide_true in He by by apply Hc.
Qed.

(** A stored plan whose items are declared is carried out. *)
Lemma run_helper_ok (plan : DependencyPlan) (row : PlanRow) (s : St W) :
  find_plan (pl_id plan) (st_plans s) = Some row -> stored_as plan row -> pl_distro plan = "arch"%string ->
  pl_package_manager plan = "pacman"%string -> (forall i, i ∈ pl_items plan -> check_item manifests "arch" i = None) ->
  (host_now (st_world s)).1 <= pl_expires_at plan ->
  exists res s', run_helper decode float_parse manifests (pl_id plan) s = (Ok res, s') /\ hr_exit_code res = 0 /\
    st_ran s' = st_ran s ++ REFRESH :: (install_argv ∘ it_packages <$> List.filter is_install (pl_items plan)) /\
    pac_installed (st_world s) ⊆ pac_installed (st_world s') /\
    forall i p, i ∈ pl_items plan -> is_install i = true -> p ∈ it_packages i -> p ∈ pac_installed (st_world s').
Proof.
  intros Hf (Hid & Hd & Hpm & Hex & Hst & Hread) Ha Hp Hc Ht. destruct (now_ok s) as (s1 & E1 & Hq1 & Hw1).
  assert (st_ran s1 = st_ran s) as Hr1.
  { revert E1. unfold now, with_world. destruct (host_now (st_world s)). by intros [= <-]. }
  assert (Hl : load_plan float_parse (pl_id plan) s = (Ok ("arch"%string, "pacman"%string, pl_items plan), s1)).
  { unfold load_plan. rewrite (bind_ok (gets st_plans) _ s s (st_plans s) eq_refl), Hf, Hst, String.eqb_refl. cbn [negb].
    rewrite (bind_ok _ _ _ _ _ E1), Hex. apply Z.ltb_ge in Ht as ->. by rewrite Hread, Hd, Hpm, Ha, Hp. }
  unfold run_helper. rewrite (bind_ok _ _ _ _ _ Hl), !String.eqb_refl. cbn [negb].
  assert (Hv : validate_against_manifest manifests (pl_items plan) "arch" s1 = (Ok tt, s1)).
  { unfold validate_against_manifest. destruct (omap _ _) as [|x l] eqn:E; [done|].
    assert (x ∈ omap (check_item manifests "arch") (pl_items plan)) as (i & Hi & Hx)%list_elem_of_omap by (rewrite E; left).
    by rewrite Hc in Hx. }
  rewrite (bind_ok _ _ _ _ _ Hv). unfold refresh_and_install.
  destruct (pac_refresh (st_world s1)) as (x & w & Ex & E0 & Hw). destruct (run_returns _ s1 _ _ Ex) as (s2 & Hrun & Hp2 & <-).
  pose proof (proj1 (run_adds _ _ _ _ Hrun)) as [Hr2 _ _ _ _]. rewrite (bind_ok _ _ _ _ _ Hrun), E0. cbn [Z.eqb negb].
  match goal with |- context [(helper_audit ?a ?b ?c ?d ?e ?f ≫= _) s2] =>
    destruct (helper_audit_quiet a b c d e f s2) as (s3 & E3 & [Hp3 Hw3] & Hr3) end. rewrite (bind_ok _ _ _ _ _ E3).
  destruct (install_items_ok (pl_id plan) (pl_items plan) EmptyString EmptyString s3) as ([out err] & s4 & E4 & H1 & H2 & H3 & H4).
  rewrite (bind_ok _ _ _ _ _ E4), (bind_ok (modify _) _ s4 _ tt eq_refl).
  match goal with |- context [(helper_audit ?a ?b ?c ?d ?e ?f ≫= _) ?s'] =>
    destruct (helper_audit_quiet a b c d e f s') as (s5 & E5 & [Hp5 Hw5] & Hr5) end. rewrite (bind_ok _ _ _ _ _ E5).
  cbn in Hw5, Hr5. eexists _, s5. split; [reflexivity|]. rewrite Hr5, H2, Hr3, Hr2, Hr1, Hw5, <- app_assoc.
  split_and!; try done. set_solver.
Qed.

End Plans.

(** ** The backend of the daemon *)

Section Daemon.
Context {W : Type} `{Host W} (decode : string -> string) (decode_strict : string -> option string)
  (refusal_text : Refusal -> string) (age_text mtime_text : Z -> string)
  (render : string -> DependencyManifest -> option string) (float_parse : string -> Q) (str_other : pyval -> string)
  (manifests : Manifests).

(** The daemon makes its backend without a helper command, so applying a plan
    that installs something raises before any command is run. *)
Lemma daemon_cannot_install (plan_id : string) (dirs : list (string * string)) (chown : bool)
    (items : list DependencyPlanItem) (s : St W) :
  load_items float_parse plan_id s = (Ok items, s) -> existsb is_install items = true ->
  exists e, (e = BackendLockedError \/ e = BackendNotAvailableError) /\
    apply_plan decode decode_strict refusal_text age_text mtime_text render float_parse str_other manifests
      default_backend plan_id dirs chown s = (Err e, s).
Proof.
  intros Hl (i & Hi & Hin)%List.existsb_exists. unfold apply_plan. rewrite (bind_ok _ _ _ _ _ Hl).
  destruct (List.filter is_install (List.filter (fun i => negb (String.eqb (it_action i) "manual")) items)) as [|j js] eqn:E.
  { assert (In i []) as []. rewrite <- E. apply List.filter_In. split; [|done]. apply List.filter_In. split; [done|].
    apply andb_prop in Hin as [->%String.eqb_eq _]. done. }
  unfold install, is_locked, gets, mbind, dep_bind, mret, dep_ret, raise. cbn.
  destruct (host_exists _ (st_world s)); eexists; (split; [|reflexivity]); auto.
Qed.

(** A drop-in is replaced as a whole: after a failure it is what it was, and no
    other file changes but the temporary one. *)
Lemma dropin_atomic (target content : string) (mode : Z) (s : St W) :
  let '(r, s') := atomic_write target content mode s in
  exists tmp, (forall path, path <> tmp -> path <> target -> st_files s' !! path = st_files s !! path) /\
    (tmp <> target -> match r with
                      | Ok _ => st_files s' !! target = Some (mkDropFile content mode None)
                      | Err _ => st_files s' !! target = st_files s !! target
                      end).
Proof.
  unfold atomic_write, try_except, syscall, modify, raise, mbind, dep_bind, mret, dep_ret, with_world. cbn.
  repeat (match goal with
          | |- context [host_fault ?n ?w] => destruct (host_fault n w) as [[] ?]
          | |- context [host_id ?w] => destruct (host_id w) as [tmp ?]
          end; cbn); first [exists tmp | exists EmptyString];
    (split; [intros path Ht Hp | intros Ht]); rewrite ?lookup_insert_ne, ?lookup_delete_ne, ?lookup_insert_ne by done;
    rewrite ?lookup_insert_ne, ?lookup_insert_eq by done; done.
Qed.
End Daemon.

Module DepsExample.
Definition W : Type := gset string * Z.
Definition done_with (code : Z) : option RunResult := Some (mkRun code EmptyString EmptyString).
Definition run (argv : list string) (w : W) : option RunResult * W :=
  if bool_decide (take 2 argv = ["pacman"; "-Qi"]%string)
  then (done_with (if bool_decide (default EmptyString (argv !! 2%nat) ∈ w.1) then 0 else 1), w)
  else if bool_decide (take 4 argv = ["pacman"; "-S"; "--noconfirm"; "--needed"]%string)
  then (done_with 0, (list_to_set (drop 4 argv) ∪ w.1, w.2))
  else (done_with 0, w).
#[global] Instance host : Host W := {|
  host_run := run; host_now w := (w.2, (w.1, w.2 + 1)); host_id w := (str_of_Z w.2, (w.1, w.2 + 1));
  host_exists _ _ := false; host_executable _ _ := false; host_mtime _ _ := None; host_fault _ w := (false, w);
  host_chown _ w := (Some true, w) |}.
#[global] Instance pacman : Pacman W.
Proof.
  refine {| pac_installed := fst |}.
  - intros p w. eexists _, w. split; [reflexivity|]. split; [|done]. cbn. by case_bool_decide.
  - intros w. eexists _, w. by split_and!.
  - intros pkgs w. eexists _, _. split; [reflexivity|]. split; [done|]. by destruct pkgs.
  - done.
  - done.
Defined.
Definition probe : HealthProbe := mkProbe file_exists (Some "/sbin/auditctl"%string) 60 None None 60 None.
Definition auditd : DependencyManifest :=
  mkManifest "auditd" "Linux audit daemon" (mkWhen ["standard"] []) (mkWhen [] []) [("arch", ["audit"])] None None
    (Some (mkServiceSpec "auditd.service" true true)) None (mkVerify [] None None probe) []%string.
Definition aide : DependencyManifest :=
  mkManifest "aide" "File integrity" (mkWhen ["standard"] []) (mkWhen [] []) [("arch", ["aide"])]
    (Some (mkManual "AUR only" "paru -S aide")) None None None (mkVerify [] None None probe) []%string.
Definition manifests : Manifests := [("auditd", auditd); ("aide", aide)]%string.
Definition start : St W := mkSt [] [] [] [] ∅ ∅ [] (∅, 5).
End DepsExample.


(** A stored plan that names the packages of a dependency the user has to
    install passes the check of the helper. *)
Definition forged_plan : list DependencyPlanItem := [mkItem "aide" "install" ["aide"] None None [] [] [] None None]%string.
Lemma manual_dependency_installable :
  st_ran (run_helper (fun s => s) (fun _ => 0%Q) DepsExample.manifests "p"
    (set_plans [mkPlanRow "p" 0 "ipc" "arch" "pacman"
                  (default EmptyString (json_spaced (fun _ => EmptyString) (PList (item_value <$> forged_plan)))) 0 10 "pending"]
       DepsExample.start)).2
  = [REFRESH; install_argv ["aide"%string]].
Proof. vm_compute. reflexivity. Qed.
