(* ===== verification/Collectors.v ===== *)
(** * The eBPF collectors, the firewall inspector and the file watcher
      ([inspectord/workers])

    Seven workers that turn the records of a kernel stream into events, one per
    record, one that compares successive firewall rulesets, and one that reports
    the notifications of [inotify]. The streams are native code: what a poll
    returns is an input, a record of the fields that are read.
    [difflib.unified_diff] and [sha256] are parameters.

    The process table shows, for every process, the last record received of it
    ([process_table_follows]), and the firewall events are the changes between
    consecutive readable rulesets ([firewall_reports_changes]). *)

From S2P Require Import Prelude Schemas Tables RuleEval Alerts Float64 Parsers Projector Services Deps.
Local Open Scope Z_scope.

(** ** Time *)

(** [int(now.timestamp() * 1e9)], from microseconds. *)
Definition billion : float64 := float_lit 1000000000 1.
Definition wall_ns (now_us : Z) : result PyErr Z :=
  t ← int_truediv now_us 1000000; int_of_float (fmul t billion).
(** [datetime.fromtimestamp(ts_ns / 1e9, tz=UTC)], in microseconds. *)
Definition time_of_ns (ts_ns : Z) : result PyErr Z :=
  n ← float_of_int ts_ns; x ← fdiv n billion; fromtimestamp x.

(** ** The workers' common shape *)

Record Collector := mkCollector { co_open : bool; co_wall_offset_ns : Z }.
Definition new_collector : Collector := mkCollector false 0.
Definition start_collector (now_us mono_ns : Z) : result PyErr Collector :=
  w ← wall_ns now_us; Ok (mkCollector true (w - mono_ns)).
Definition stop_collector (c : Collector) : Collector := mkCollector false (co_wall_offset_ns c).

Section Step.
Context {R : Type} (timestamp_ns : R -> Z) (args : string -> Z -> R -> EventArgs).

Definition to_event (host_name : string) (id : R -> string) (c : Collector) (r : R) : option Event :=
  match time_of_ns (timestamp_ns r + co_wall_offset_ns c) with
  | Ok ts => build_event ts (id r) (args host_name ts r)
  | Err _ => None
  end.
(** The events that are written, and whether the step ends without an
    exception. *)
Fixpoint write_events (host_name : string) (id : R -> string) (c : Collector) (records : list R) : list Event * bool :=
  match records with
  | [] => ([], true)
  | r :: rest =>
      match to_event host_name id c r with
      | None => ([], false)
      | Some e => let '(es, ok) := write_events host_name id c rest in (e :: es, ok)
      end
  end.
Definition step_collector (host_name : string) (id : R -> string) (records : list R) (c : Collector) : list Event * bool :=
  if co_open c then write_events host_name id c records else ([], false).
End Step.

Definition collector_args (b : EventArgs) (host_name : string) (ts : Z) (outcome : option string)
    (user process source destination network : option dict) (raw : dict) : EventArgs :=
  {| a_module := a_module b; a_action := a_action b; a_category := a_category b; a_type := a_type b;
     a_severity := a_severity b; a_kind := a_kind b;
     a_host := Some [("name"%string, PStr host_name)]; a_outcome := outcome; a_message := None;
     a_process := process; a_file := None; a_user := user; a_source := source; a_destination := destination;
     a_network := network; a_service := None; a_package := None; a_device := None; a_persistence := None;
     a_vulnerability := None; a_hunt := None; a_threat := None; a_raw := Some raw; a_labels := None;
     a_ts := Some ts; a_first_seen := false |}.
Definition user_id (uid : Z) : option dict := Some [("id"%string, PStr (str_of_Z uid))].

(** *** [process_collector] *)

Record ExecRecord := mkExec {
  ex_timestamp_ns : Z; ex_pid : Z; ex_ppid : Z; ex_uid : Z; ex_comm : string; ex_cmdline : string;
}.
Definition exec_args (host_name : string) (ts : Z) (r : ExecRecord) : EventArgs :=
  collector_args (event_args "process_collector" "process_start" ["process"] ["start"] "info") host_name ts None
    (user_id (ex_uid r))
    (Some (app [("pid", PInt (ex_pid r)); ("name", PStr (ex_comm r)); ("command_line", PStr (ex_cmdline r))]
             (if ex_ppid r =? 0 then [] else [("parent", PDict [("pid", PInt (ex_ppid r))])])))
    None None None [("source", PStr "ebpf:sched_process_exec")]%string.
Definition exec_event := to_event ex_timestamp_ns exec_args.
Definition exec_start := start_collector.
Definition exec_step := step_collector ex_timestamp_ns exec_args.
Definition exec_stop := stop_collector.

(** *** [process_collector_exit] *)

Record ExitRecord := mkExit {
  xt_timestamp_ns : Z; xt_pid : Z; xt_comm : string; xt_exit_code : Z; xt_exit_status : option Z; xt_killed_by_signal : option Z;
}.
Definition exit_outcome (r : ExitRecord) : string :=
  match xt_exit_status r, xt_killed_by_signal r with
  | Some 0, _ => "success"
  | None, None => "unknown"
  | _, _ => "failure"
  end.
Definition exit_args (host_name : string) (ts : Z) (r : ExitRecord) : EventArgs :=
  let opt k o := match o with Some z => [(k, PInt z)] | None => [] end in
  collector_args (event_args "process_collector_exit" "process_exit" ["process"] ["end"] "info") host_name ts
    (Some (exit_outcome r)) None
    (Some (app [("pid", PInt (xt_pid r)); ("name", PStr (xt_comm r)); ("exit_code", PInt (xt_exit_code r))]
             (app (opt "exit_status" (xt_exit_status r)) (opt "killed_by_signal" (xt_killed_by_signal r)))))
    None None None [("source", PStr "ebpf:sched_process_exit")]%string.
Definition exit_event := to_event xt_timestamp_ns exit_args.
Definition exit_start := start_collector.
Definition exit_step := step_collector xt_timestamp_ns exit_args.
Definition exit_stop := stop_collector.

(** *** [process_collector_module_load] *)

Record ModuleLoadRecord := mkModuleLoad {
  ml_timestamp_ns : Z; ml_pid : Z; ml_uid : Z; ml_comm : string; ml_variant : Z; ml_variant_name : string; ml_fd : Z; ml_flags : Z;
}.
Definition module_load_args (host_name : string) (ts : Z) (r : ModuleLoadRecord) : EventArgs :=
  collector_args (event_args "process_collector_module_load" "module_load_attempt" ["driver"] ["installation"] "info") host_name ts None
    (user_id (ml_uid r))
    (Some [("pid", PInt (ml_pid r)); ("name", PStr (ml_comm r)); ("module_load_variant", PStr (ml_variant_name r));
           ("module_load_fd", PInt (ml_fd r)); ("module_load_flags", PInt (ml_flags r))])
    None None None
    [("source", PStr ("ebpf:sys_enter_" +:+ ml_variant_name r)); ("variant", PInt (ml_variant r)); ("fd", PInt (ml_fd r));
     ("flags", PInt (ml_flags r))]%string.
Definition module_load_event := to_event ml_timestamp_ns module_load_args.
Definition module_load_start := start_collector.
Definition module_load_step := step_collector ml_timestamp_ns module_load_args.
Definition module_load_stop := stop_collector.

(** *** [process_collector_ptrace] *)

Record PtraceRecord := mkPtrace {
  pt_timestamp_ns : Z; pt_pid : Z; pt_uid : Z; pt_comm : string; pt_request : Z; pt_request_name : string; pt_target_pid : Z;
}.
Definition ptrace_args (host_name : string) (ts : Z) (r : PtraceRecord) : EventArgs :=
  collector_args (event_args "process_collector_ptrace" "ptrace_call" ["process"] ["access"] "info") host_name ts None
    (user_id (pt_uid r))
    (Some [("pid", PInt (pt_pid r)); ("name", PStr (pt_comm r)); ("ptrace_request", PStr (pt_request_name r));
           ("target_pid", PInt (pt_target_pid r)); ("target", PDict [("pid", PInt (pt_target_pid r))])])
    None None None [("source", PStr "ebpf:sys_enter_ptrace"); ("request", PInt (pt_request r))]%string.
Definition ptrace_event := to_event pt_timestamp_ns ptrace_args.
Definition ptrace_start := start_collector.
Definition ptrace_step := step_collector pt_timestamp_ns ptrace_args.
Definition ptrace_stop := stop_collector.

(** *** [process_collector_raw_socket] *)

Record RawSocketRecord := mkRawSocket {
  rs_timestamp_ns : Z; rs_pid : Z; rs_uid : Z; rs_comm : string; rs_family : Z; rs_family_name : string; rs_type : Z; rs_protocol : Z;
}.
Definition raw_socket_args (host_name : string) (ts : Z) (r : RawSocketRecord) : EventArgs :=
  collector_args (event_args "process_collector_raw_socket" "raw_socket_created" ["network"] ["start"] "info") host_name ts None
    (user_id (rs_uid r)) (Some [("pid", PInt (rs_pid r)); ("name", PStr (rs_comm r))]) None None
    (Some [("socket_family", PStr (rs_family_name r)); ("socket_type", PInt (rs_type r)); ("socket_protocol", PInt (rs_protocol r))])
    [("source", PStr "ebpf:sys_enter_socket"); ("family", PInt (rs_family r)); ("type", PInt (rs_type r));
     ("protocol", PInt (rs_protocol r))]%string.
Definition raw_socket_event := to_event rs_timestamp_ns raw_socket_args.
Definition raw_socket_start := start_collector.
Definition raw_socket_step := step_collector rs_timestamp_ns raw_socket_args.
Definition raw_socket_stop := stop_collector.

(** *** [outbound_connection_tracker] and its IPv6 counterpart *)

Record ConnectRecord := mkConnect {
  ct_timestamp_ns : Z; ct_pid : Z; ct_uid : Z; ct_comm : string; ct_saddr : string; ct_sport : Z; ct_daddr : string; ct_dport : Z;
}.
Definition tracker_args (module_ host_name : string) (ts : Z) (r : ConnectRecord) : EventArgs :=
  collector_args (event_args module_ "outbound_connection" ["network"] ["connection"; "start"] "info") host_name ts None
    (user_id (ct_uid r)) (Some [("pid", PInt (ct_pid r)); ("name", PStr (ct_comm r))])
    (Some [("ip", PStr (ct_saddr r)); ("port", PInt (ct_sport r))])
    (Some [("ip", PStr (ct_daddr r)); ("port", PInt (ct_dport r))])
    (Some [("transport", PStr "tcp"); ("direction", PStr "egress")])
    [("source", PStr "ebpf:inet_sock_set_state")]%string.
Definition connect_args := tracker_args "outbound_connection_tracker".
Definition connect_event := to_event ct_timestamp_ns connect_args.
Definition connect_start := start_collector.
Definition connect_step := step_collector ct_timestamp_ns connect_args.
Definition connect_stop := stop_collector.
Definition connect6_args := tracker_args "outbound_connection_tracker6".
Definition connect6_event := to_event ct_timestamp_ns connect6_args.
Definition connect6_start := start_collector.
Definition connect6_step := step_collector ct_timestamp_ns connect6_args.
Definition connect6_stop := stop_collector.

(** ** The firewall inspector *)

(** How [nft list ruleset] and [iptables-save] end. *)
Record Capture := mkCapture { cp_nft : CommandResult; cp_iptables : CommandResult }.
Definition capture_ruleset (c : Capture) : string * string :=
  match cp_nft c with
  | Exited 0 text => ("nftables", text)
  | _ => match cp_iptables c with
         | Exited 0 text => ("iptables", text)
         | _ => ("none", EmptyString)
         end
  end%string.

Section Firewall.
Context (sha256 : string -> string) (unified_diff : list string -> list string -> list string).

Record DiffSummary := mkDiffSummary { ds_added : Z; ds_removed : Z; ds_diff : string }.
Definition MAX_DIFF_LINES : nat := 50.
(** The marker of a truncated diff starts with an ellipsis; [ellipsis] stands
    for that character. *)
Context (ellipsis : string).
Definition diff_summary (old new : string) : DiffSummary :=
  let lines := unified_diff (splitlines old) (splitlines new) in
  let count p pp := Z.of_nat (length (List.filter (fun l => startswith p l && negb (startswith pp l)) lines)) in
  mkDiffSummary (count "+" "+++") (count "-" "---")
    (join (String newline EmptyString)
       (if (MAX_DIFF_LINES <? length lines)%nat then app (take MAX_DIFF_LINES lines) [ellipsis +:+ " (truncated)"] else lines))%string.

Record FirewallRecord := mkFirewallRecord {
  fw_backend : string; fw_previous_digest : string; fw_digest : string; fw_added : Z; fw_removed : Z; fw_diff : string;
}.
Record FirewallSource := mkFirewallSource { fs_backend : string; fs_text : string; fs_digest : string; fs_closed : bool }.
Definition new_firewall_source (c : Capture) : FirewallSource :=
  let '(backend, text) := capture_ruleset c in mkFirewallSource backend text (sha256 text) false.

(** [None]: the source is closed. *)
Definition poll_firewall (c : Capture) (s : FirewallSource) : option (list FirewallRecord) * FirewallSource :=
  if fs_closed s then (None, s)
  else
    let '(backend, text) := capture_ruleset c in
    let digest := sha256 text in
    if String.eqb digest (fs_digest s) then (Some [], mkFirewallSource backend (fs_text s) (fs_digest s) false)
    else if String.eqb (fs_backend s) "none" || String.eqb backend "none"
    then (Some [], mkFirewallSource backend text digest false)
    else
      let d := diff_summary (fs_text s) text in
      (Some [mkFirewallRecord backend (fs_digest s) digest (ds_added d) (ds_removed d) (ds_diff d)],
       mkFirewallSource backend text digest false).
Definition close_firewall (s : FirewallSource) : FirewallSource :=
  mkFirewallSource (fs_backend s) (fs_text s) (fs_digest s) true.

Definition firewall_args (host_name : string) (ts : Z) (r : FirewallRecord) : EventArgs :=
  let b := event_args "firewall_inspector" "firewall_ruleset_changed" ["configuration"] ["change"] "medium" in
  {| a_module := a_module b; a_action := a_action b; a_category := a_category b; a_type := a_type b;
     a_severity := a_severity b; a_kind := "state";
     a_host := Some [("name", PStr host_name)]; a_outcome := None;
     a_message := Some ("firewall ruleset changed (" +:+ fw_backend r +:+ "): +" +:+ str_of_Z (fw_added r) +:+ " -" +:+
                        str_of_Z (fw_removed r) +:+ " lines");
     a_process := None; a_file := None; a_user := None; a_source := None; a_destination := None;
     a_network := None; a_service := None; a_package := None; a_device := None; a_persistence := None;
     a_vulnerability := None; a_hunt := None; a_threat := None;
     a_raw := Some [("source", PStr (fw_backend r)); ("digest", PStr (fw_digest r)); ("previous_digest", PStr (fw_previous_digest r));
                    ("added", PInt (fw_added r)); ("removed", PInt (fw_removed r)); ("diff", PStr (fw_diff r))];
     a_labels := Some ["firewall"]; a_ts := Some ts; a_first_seen := false |}%string.
Definition firewall_event (host_name : string) (stamp : FirewallRecord -> Z * string) (r : FirewallRecord) : option Event :=
  build_event (stamp r).1 (stamp r).2 (firewall_args host_name (stamp r).1 r).

Record FirewallWorker := mkFirewallWorker { fww_stream : option FirewallSource }.
Definition start_firewall (c : Capture) : FirewallWorker := mkFirewallWorker (Some (new_firewall_source c)).
Definition step_firewall (host_name : string) (stamp : FirewallRecord -> Z * string) (c : Capture) (w : FirewallWorker)
  : option (list Event) * FirewallWorker :=
  match fww_stream w with
  | None => (None, w)
  | Some s =>
      let '(rs, s') := poll_firewall c s in
      (match rs with Some rs => Some (omap (firewall_event host_name stamp) rs) | None => None end, mkFirewallWorker (Some s'))
  end.
Definition stop_firewall (w : FirewallWorker) : FirewallWorker := mkFirewallWorker None.

Fixpoint firewall_loop (host_name : string) (rounds : list (Capture * (FirewallRecord -> Z * string))) (w : FirewallWorker) : list Event :=
  match rounds with
  | [] => []
  | (c, stamp) :: rest =>
      match step_firewall host_name stamp c w with
      | (Some es, w') => es ++ firewall_loop host_name rest w'
      | (None, _) => []
      end
  end.
End Firewall.

(** ** The file integrity watcher *)

(** The bits of [inotify(7)]. *)
Definition IN_MODIFY : Z := 0x2.
Definition IN_ATTRIB : Z := 0x4.
Definition IN_MOVED_FROM : Z := 0x40.
Definition IN_MOVED_TO : Z := 0x80.
Definition IN_CREATE : Z := 0x100.
Definition IN_DELETE : Z := 0x200.
Definition IN_DELETE_SELF : Z := 0x400.
Definition IN_MOVE_SELF : Z := 0x800.
Definition IN_Q_OVERFLOW : Z := 0x4000.
Definition WATCH_MASK : Z :=
  foldr Z.lor 0 [IN_CREATE; IN_DELETE; IN_MODIFY; IN_ATTRIB; IN_MOVED_FROM; IN_MOVED_TO; IN_DELETE_SELF; IN_MOVE_SELF].

Definition has (mask bit : Z) : bool := negb (Z.land mask bit =? 0).
Definition action_from_flags (mask : Z) : string :=
  if has mask IN_CREATE || has mask IN_MOVED_TO then "file_created"
  else if has mask IN_DELETE || has mask IN_MOVED_FROM || has mask IN_DELETE_SELF || has mask IN_MOVE_SELF then "file_deleted"
  else if has mask IN_MODIFY then "file_modified"
  else if has mask IN_ATTRIB then "file_attributes_changed"
  else "file_event".

Definition default_watch_paths (home : option string) : list string :=
  ["/etc"; "/usr/bin"; "/usr/sbin"; "/boot"; "/etc/sudoers"; "/etc/sudoers.d"]%string ++
  match home with
  | None | Some EmptyString => []
  | Some h => path_join h <$> [".bashrc"; ".zshrc"; ".profile"; ".zprofile"; ".config/autostart"]%string
  end.

Record FimWatcher := mkFim { fm_watch_paths : list string; fm_open : bool; fm_wd_to_path : list (Z * string) }.
(** [config.get("watch_paths") or default_watch_paths()]. *)
Definition new_fim (configured : list string) (home : option string) : FimWatcher :=
  mkFim (match configured with [] => default_watch_paths home | _ => configured end) false [].

(** [watch]: the descriptor of an existing path; [None] when it is missing or
    the watch is refused. *)
Definition fim_setup (watch : string -> option Z) (w : FimWatcher) : FimWatcher :=
  mkFim (fm_watch_paths w) true
    (foldl (fun d raw => match watch (path_text raw) with Some wd => od_set wd (path_text raw) d | None => d end)
       (fm_wd_to_path w) (fm_watch_paths w)).
Definition fim_teardown (w : FimWatcher) : FimWatcher := mkFim (fm_watch_paths w) false (fm_wd_to_path w).

Record Notification := mkNotification { nt_wd : Z; nt_mask : Z; nt_name : string }.

Definition fim_args (nodename action path : string) (ts : Z) : EventArgs :=
  let b := event_args "fim_watcher" action ["file"] ["change"] "low" in
  {| a_module := a_module b; a_action := a_action b; a_category := a_category b; a_type := a_type b;
     a_severity := a_severity b; a_kind := a_kind b;
     a_host := Some [("hostname", PStr nodename); ("os", PDict [("family", PStr "linux")])]; a_outcome := None;
     a_message := Some (action +:+ " " +:+ path); a_process := None; a_file := Some [("path", PStr path)];
     a_user := None; a_source := None; a_destination := None; a_network := None; a_service := None; a_package := None;
     a_device := None; a_persistence := None; a_vulnerability := None; a_hunt := None; a_threat := None; a_raw := None;
     a_labels := Some ["fim:" +:+ path_basename path]; a_ts := Some ts; a_first_seen := false |}%string.

Definition full_path (w : FimWatcher) (n : Notification) : string :=
  let base := default "?"%string (od_get (nt_wd n) (fm_wd_to_path w)) in
  if String.eqb (nt_name n) EmptyString then base else path_join base (nt_name n).
Definition fim_step (nodename : string) (stamp : Notification -> Z * string) (ns : list Notification) (w : FimWatcher) : list Event :=
  if fm_open w then
    omap (fun n => build_event (stamp n).1 (stamp n).2
                     (fim_args nodename (action_from_flags (nt_mask n)) (full_path w n) (stamp n).1)) ns
  else [].

(** ** Processes *)

Inductive ProcRecord := Execed (r : ExecRecord) | Exited_ (r : ExitRecord).
Definition rec_pid (x : ProcRecord) : Z := match x with Execed r => ex_pid r | Exited_ r => xt_pid r end.

Section Processes.
Context (str_other : pyval -> string) (col : pyval -> string) (fromiso : string -> option Z) (varchar : pyval -> option string)
  (boot_id host_name : string) (id : ProcRecord -> string) (execs exits : Collector).
Hypothesis col_int : forall a b, col (PInt a) = col (PInt b) -> a = b.

(** The event of a record, from the worker it belongs to. *)
Definition event_of (x : ProcRecord) : option Event :=
  match x with
  | Execed r => exec_event host_name (fun r => id (Execed r)) execs r
  | Exited_ r => exit_event host_name (fun r => id (Exited_ r)) exits r
  end.

(** What the row of a process says, given its last record. *)
Definition row_says (x : option ProcRecord) (o : option ProcRow) : Prop :=
  match x with
  | None => o = None
  | Some (Execed r) =>
      exists row, o = Some row /\ pc_status row = Proc_running /\ pc_comm row = PStr (ex_comm r) /\
        pc_cmdline row = PStr (ex_cmdline r) /\ pc_ppid row = (if ex_ppid r =? 0 then PNone else PInt (ex_ppid r)) 
  | Some (Exited_ r) => exists row, o = Some row /\ pc_status row = Proc_exited /\ pc_exit_code row = PInt (xt_exit_code r)
  end.
Definition last_record (p : Z) (rs : list ProcRecord) : option ProcRecord :=
  last (List.filter (fun x => rec_pid x =? p) rs).

Lemma event_concerns (x : ProcRecord) (e : Event) (p : Z) :
  event_of x = Some e -> concerns col (col (PInt p), boot_id) boot_id e = (rec_pid x =? p).
Proof using col_int.
  intros He. assert (Hk : concerns col (col (PInt p), boot_id) boot_id e = bool_decide ((col (PInt p), boot_id) = (col (PInt (rec_pid x)), boot_id))).
  { destruct x as [r|r]; cbn in He; unfold exec_event, exit_event, to_event in He; destruct (time_of_ns _) as [ts|]; try done.
    - cbn in He. injection He as <-. unfold concerns, pid_of, is_exit, ppid_of, sha_of, proc_field. cbn.
      destruct (ex_ppid r =? 0); cbn; by rewrite andb_true_r.
    - cbn in He. unfold exit_outcome in He. destruct (xt_exit_status r) as [[]|], (xt_killed_by_signal r); cbn in He; injection He as <-;
        unfold concerns, pid_of, is_exit; cbn; by rewrite andb_true_r. }
  rewrite Hk. destruct (Z.eqb_spec (rec_pid x) p) as [->|Hne]; [by apply bool_decide_true|].
  apply bool_decide_false. intros [= E%col_int]. by destruct Hne.
Qed.

Lemma event_next (x : ProcRecord) (e : Event) (o : option ProcRow) (k : string * string) :
  event_of x = Some e -> row_says (Some x) (Some (proc_next k e o)).
Proof.
  intros He. destruct x as [r|r]; cbn in He; unfold exec_event, exit_event, to_event in He; destruct (time_of_ns _) as [ts|]; try done.
  - cbn in He. injection He as <-. unfold proc_next, proc_new, is_exit. cbn -[start_upd]. eexists. split; [reflexivity|].
    unfold ppid_of, proc_field, nested_get. cbn. by destruct o, (ex_ppid r =? 0) eqn:E; cbn.
  - cbn in He. unfold exit_outcome in He. destruct (xt_exit_status r) as [[]|], (xt_killed_by_signal r); cbn in He; injection He as <-;
      unfold proc_next, proc_new, is_exit; cbn; eexists; (split; [reflexivity|]); by destruct o.
Qed.

Lemma spec_follows (rs : list ProcRecord) (es : list Event) (p : Z) :
  mapM event_of rs = Some es ->
  row_says (last_record p rs) (proc_spec col (col (PInt p), boot_id) (PEvent boot_id <$> es)).
Proof using col_int.
  revert es. induction rs as [|x rs IH] using rev_ind; intros es Hm.
  { injection Hm as <-. done. }
  apply mapM_Some in Hm. apply Forall2_app_inv_l in Hm as (es0 & es1 & H0 & H1 & ->).
  inversion H1 as [|? e ? ? He Hn]; subst. inversion Hn; subst. rewrite fmap_app. cbn [fmap list_fmap].
  rewrite proc_spec_event, (event_concerns x e p He). unfold last_record. rewrite List.filter_app. cbn [List.filter].
  destruct (rec_pid x =? p).
  - rewrite last_snoc. by apply event_next.
  - rewrite app_nil_r. apply IH. by apply mapM_Some.
Qed.
End Processes.


Module CollectorExample.
Definition col (v : pyval) : string := match v with PInt z => str_of_Z z | _ => "?" end.
Definition started : Collector := mkCollector true 1700000000000000000.
Definition sh : ExecRecord := mkExec 1000000000 42 1 0 "sh" "sh -c true".
Definition sh_exit : ExitRecord := mkExit 1001000000 42 "sh" 0 (Some 0) None.
Definition rows (rs : list ProcRecord) : list ProcRow :=
  st_procs (foldl (project (fun _ => EmptyString) col (fun _ => None) (fun _ => None) (Some "b"%string)) empty_db
              (default [] (mapM (event_of "h" (fun _ => "e"%string) started started) rs))).
End CollectorExample.


(** The two collectors are processes of their own, polled independently: when
    the exit of a short-lived process arrives before its start, the row shows
    it as running from then on. *)
Lemma late_start_leaves_running :
  (fun r => (pc_key r, pc_status r)) <$> CollectorExample.rows [Exited_ CollectorExample.sh_exit; Execed CollectorExample.sh] =
  [(("42", "b")%string, Proc_running)].
Proof. vm_compute. reflexivity. Qed.

(** The offset of the wall clock is taken once, at the start, and the clock of
    the records stands still while the host is suspended: a process started
    right after an hour of suspension, when the wall clock reads
    [1700003610] seconds, is reported an hour early. *)
Lemma suspension_not_counted :
  (c ← start_collector 1700000000000000 5000000000; time_of_ns (15000000000 + co_wall_offset_ns c)) = Ok 1700000010000000.
Proof. vm_compute. reflexivity. Qed.

(** ** The firewall *)

Section Firewall.
Context (sha256 : string -> string) (unified_diff : list string -> list string -> list string) (ellipsis : string).

(** The change between two captured rulesets: both can be read and differ. *)
Definition ruleset_change (a b : string * string) : option (pyval * pyval) :=
  if String.eqb (sha256 b.2) (sha256 a.2) || String.eqb a.1 "none" || String.eqb b.1 "none" then None
  else Some (PStr (sha256 a.2), PStr (sha256 b.2)).
Fixpoint ruleset_changes (prev : string * string) (l : list (string * string)) : list (pyval * pyval) :=
  match l with
  | [] => []
  | x :: l' => match ruleset_change prev x with Some c => c :: ruleset_changes x l' | None => ruleset_changes x l' end
  end.
Definition event_digests (e : Event) : pyval * pyval :=
  let raw := default [] (ev_raw e) in (dict_get "previous_digest" raw, dict_get "digest" raw).

Lemma firewall_loop_changes (host_name : string) (rounds : list (Capture * (FirewallRecord -> Z * string)))
    (prev : string * string) (text : string) :
  event_digests <$> firewall_loop sha256 unified_diff ellipsis host_name rounds
    (mkFirewallWorker (Some (mkFirewallSource prev.1 text (sha256 prev.2) false))) =
  ruleset_changes prev ((fun r => capture_ruleset r.1) <$> rounds).
Proof.
  revert prev text. induction rounds as [|[c stamp] rounds IH]; intros prev text; [done|].
  rewrite fmap_cons. cbn [firewall_loop step_firewall fww_stream poll_firewall fs_closed ruleset_changes fst]. unfold poll_firewall, ruleset_change.
  cbn [fs_closed fs_digest fs_backend fs_text]. destruct (capture_ruleset c) as [backend t] eqn:Ec. cbn [fst snd].
  destruct (String.eqb_spec (sha256 t) (sha256 prev.2)) as [E|E]; cbn [orb].
  - cbn [omap list_omap app]. rewrite <- E. apply (IH (backend, t)).
  - destruct (_ || _); [apply (IH (backend, t))|]. cbn [omap list_omap]. unfold firewall_event. cbn. f_equal. apply (IH (backend, t)).
Qed.

(** The firewall inspector reports exactly the polls at which the ruleset
    can be read, could be read the time before, and has another digest, each
    with both digests, in order. *)
Theorem firewall_reports_changes (host_name : string) (first : Capture) (rounds : list (Capture * (FirewallRecord -> Z * string))) :
  event_digests <$> firewall_loop sha256 unified_diff ellipsis host_name rounds (start_firewall sha256 first) =
  ruleset_changes (capture_ruleset first) ((fun r => capture_ruleset r.1) <$> rounds).
Proof.
  unfold start_firewall, new_firewall_source. rewrite <- (firewall_loop_changes host_name rounds (capture_ruleset first) (capture_ruleset first).2).
  by destruct (capture_ruleset first).
Qed.
End Firewall.

(** When [nft] fails at one poll the text of [iptables-save] is taken instead:
    two changes are reported, though no rule changed. *)
Lemma transient_nft_failure_reported :
  let good := mkCapture (Exited 0 "table a") (Exited 0 "*filter") in
  let timeout := mkCapture SubprocessError (Exited 0 "*filter") in
  let stamp (r : FirewallRecord) := (0, "e"%string) in
  length (firewall_loop (fun s => s) (fun _ _ => []) "..." "h" [(good, stamp); (timeout, stamp); (good, stamp)]
            (start_firewall (fun s => s) good)) = 2%nat.
Proof. vm_compute. reflexivity. Qed.

(** ** The file watcher's events *)

(** Every notification gives one event, about its path. *)
Lemma fim_step_exact (nodename : string) (stamp : Notification -> Z * string) (ns : list Notification) (w : FimWatcher) :
  fm_open w = true ->
  (fun e => (ev_action e, path_of e)) <$> fim_step nodename stamp ns w =
  (fun n => (action_from_flags (nt_mask n), PStr (full_path w n))) <$> ns.
Proof.
  intros Ho. unfold fim_step. rewrite Ho. induction ns as [|n ns IH]; [done|]. cbn [omap list_omap]. cbn. by f_equal.
Qed.

(** A kind of change that is watched for has an action of its own. *)
Lemma watched_change_named (mask : Z) : has mask WATCH_MASK = true -> action_from_flags mask <> "file_event"%string.
Proof.
  unfold has, action_from_flags, has. intros H%negb_true_iff%Z.eqb_neq.
  change WATCH_MASK with (Z.lor IN_CREATE (Z.lor IN_DELETE (Z.lor IN_MODIFY (Z.lor IN_ATTRIB (Z.lor IN_MOVED_FROM
    (Z.lor IN_MOVED_TO (Z.lor IN_DELETE_SELF (Z.lor IN_MOVE_SELF 0)))))))) in H. rewrite !Z.land_lor_distr_r, Z.land_0_r in H.
  destruct (Z.eqb_spec (Z.land mask IN_CREATE) 0) as [E1|], (Z.eqb_spec (Z.land mask IN_MOVED_TO) 0) as [E2|]; try done.
  destruct (Z.eqb_spec (Z.land mask IN_DELETE) 0) as [E3|], (Z.eqb_spec (Z.land mask IN_MOVED_FROM) 0) as [E4|],
    (Z.eqb_spec (Z.land mask IN_DELETE_SELF) 0) as [E5|], (Z.eqb_spec (Z.land mask IN_MOVE_SELF) 0) as [E6|]; try done.
  destruct (Z.eqb_spec (Z.land mask IN_MODIFY) 0) as [E7|], (Z.eqb_spec (Z.land mask IN_ATTRIB) 0) as [E8|]; try done.
  rewrite E1, E2, E3, E4, E5, E6, E7, E8 in H. by destruct H.
Qed.

(** A full queue, of which the kernel tells with descriptor -1, is reported as
    a change of a file called [?]; that notifications were lost is not. *)
Lemma overflow_reported_as_file :
  let w := fim_setup (fun _ => Some 1) (new_fim ["/etc"%string] None) in
  (fun e => (ev_action e, path_of e)) <$> fim_step "h" (fun _ => (0, "e"%string)) [mkNotification (-1) IN_Q_OVERFLOW EmptyString] w =
  [("file_event"%string, PStr "?")].
Proof. vm_compute. reflexivity. Qed.
