(* ===== verification/WorkerLoop.v ===== *)
(** * The main loop of a worker ([Worker.run] of [workers/contract.py])

    The loop runs against two other parties: whoever requests a stop, which
    sets one event and then another, and the command reader, which wakes the
    loop when a command is accepted. Their steps interleave in any order; the
    theorem says that no stop and no accepted command waits for the interval
    between two steps to pass. What [step] does is left open: exceptions of it
    are caught. Times are in microseconds. *)

From S2P Require Import Prelude.
Local Open Scope Z_scope.

Definition HEARTBEAT_INTERVAL : Z := 10 * 1000000.

(** Where the loop is: at the condition of [while], at [wake.clear], at the
    check after it, before [step], at [wake.wait], at the check after that, in
    [finally], and past it. *)
Inductive Point := AtWhile | AtClear | AtCheck | AtStep | AtWait | AtCheckAfter | AtFinally | Ended.
#[export] Instance Point_eq_dec : EqDecision Point.
Proof. solve_decision. Defined.

(** [lp_pending]: stop requests that have set [_stop] and not yet [_wake];
    [lp_due]: a command was accepted since the last call of [step] began. *)
Record Loop := mkLoop {
  lp_point : Point;
  lp_stop : bool;
  lp_wake : bool;
  lp_pending : nat;
  lp_due : bool;
  lp_steps : nat;
  lp_last_heartbeat : Z;
  lp_heartbeats : list Z;
  lp_torn_down : nat;
}.
Definition run_start (now : Z) : Loop := mkLoop AtWhile false false 0 false 0 now [] 0.

Definition goto (p : Point) (s : Loop) : Loop :=
  mkLoop p (lp_stop s) (lp_wake s) (lp_pending s) (lp_due s) (lp_steps s) (lp_last_heartbeat s) (lp_heartbeats s) (lp_torn_down s).

(** One step of the loop at [now]; [None]: it has ended, or [wait] blocks.
    [elapsed] says that the interval between steps has passed. *)
Definition loop_step (now : Z) (elapsed : bool) (s : Loop) : option Loop :=
  match lp_point s with
  | AtWhile => Some (goto (if lp_stop s then AtFinally else AtClear) s)
  | AtClear => Some (mkLoop AtCheck (lp_stop s) false (lp_pending s) (lp_due s) (lp_steps s) (lp_last_heartbeat s) (lp_heartbeats s) (lp_torn_down s))
  | AtCheck => Some (goto (if lp_stop s then AtFinally else AtStep) s)
  | AtStep =>
      let beat := HEARTBEAT_INTERVAL <=? now - lp_last_heartbeat s in
      Some (mkLoop AtWait (lp_stop s) (lp_wake s) (lp_pending s) false (S (lp_steps s))
              (if beat then now else lp_last_heartbeat s) (if beat then lp_heartbeats s ++ [now] else lp_heartbeats s) (lp_torn_down s))
  | AtWait => if lp_wake s || elapsed then Some (goto AtCheckAfter s) else None
  | AtCheckAfter => Some (goto (if lp_stop s then AtFinally else AtWhile) s)
  | AtFinally =>
      Some (mkLoop Ended (lp_stop s) (lp_wake s) (lp_pending s) (lp_due s) (lp_steps s) (lp_last_heartbeat s)
              (lp_heartbeats s ++ [now]) (S (lp_torn_down s)))
  | Ended => None
  end.

(** [request_stop]: [_stop.set()], then [_wake.set()]. *)
Definition request_stop_1 (s : Loop) : Loop :=
  mkLoop (lp_point s) true (lp_wake s) (S (lp_pending s)) (lp_due s) (lp_steps s) (lp_last_heartbeat s) (lp_heartbeats s) (lp_torn_down s).
Definition request_stop_2 (s : Loop) : Loop :=
  mkLoop (lp_point s) (lp_stop s) true (pred (lp_pending s)) (lp_due s) (lp_steps s) (lp_last_heartbeat s) (lp_heartbeats s) (lp_torn_down s).
(** An accepted command: [_wake.set()]. *)
Definition accept_command (s : Loop) : Loop :=
  mkLoop (lp_point s) (lp_stop s) true (lp_pending s) true (lp_steps s) (lp_last_heartbeat s) (lp_heartbeats s) (lp_torn_down s).

(** The steps of all parties. *)
Inductive lstep : Loop -> Loop -> Prop :=
| LLoop now elapsed s s' : loop_step now elapsed s = Some s' -> lstep s s'
| LStop1 s : lstep s (request_stop_1 s)
| LStop2 s : (0 < lp_pending s)%nat -> lstep s (request_stop_2 s)
| LCommand s : lstep s (accept_command s).

(** ** The invariant *)

Definition awake (s : Loop) : Prop :=
  (lp_point s = AtStep \/ lp_point s = AtWait -> lp_stop s = true -> lp_pending s = 0%nat -> lp_wake s = true) /\
  (lp_point s = AtWait -> lp_due s = true -> lp_wake s = true) /\
  (lp_stop s = false -> lp_pending s = 0%nat) /\
  lp_torn_down s = (if bool_decide (lp_point s = Ended) then 1 else 0)%nat.

Lemma awake_start (now : Z) : awake (run_start now).
Proof. by split_and!. Qed.

Lemma awake_step (s s' : Loop) : lstep s s' -> awake s -> awake s'.
Proof.
  intros Hs (H1 & H2 & H3 & H4). destruct Hs as [now elapsed s s' E|s|s Hp|s].
  - unfold loop_step in E. destruct (lp_point s) eqn:Ep; simplify_eq; unfold awake; cbn.
    + destruct (lp_stop s); split_and!; cbn; try done; by intros [|].
    + split_and!; try done; by intros [|].
    + destruct (lp_stop s) eqn:Es; split_and!; cbn; try done; by intros [|].
    + split_and!; try done. intros _ Hst Hp. apply H1; auto.
    + destruct (lp_wake s || elapsed); simplify_eq. unfold awake; cbn. split_and!; try done; by intros [|].
    + destruct (lp_stop s); split_and!; cbn; try done; by intros [|].
    + split_and!; try done; [by intros [|]|]. by rewrite H4.
  - unfold awake; cbn. by split_and!.
  - unfold awake; cbn. split_and!; try done. intros Hst. rewrite (H3 Hst) in Hp. lia.
  - unfold awake; cbn. by split_and!.
Qed.

Lemma awake_reachable (now : Z) (s : Loop) : rtc lstep (run_start now) s -> awake s.
Proof.
  intros Hr. assert (forall a, rtc lstep a s -> awake a -> awake s) as H.
  { intros a Ha. induction Ha as [|a b c Hab _ IH]; [done|]. intros Haw. by apply IH, (awake_step a). }
  by apply (H _ Hr), awake_start.
Qed.

(** ** Ending *)

(** The loop on its own, no interval ever passing. *)
Fixpoint run_alone (n : nat) (now : Z) (s : Loop) : Loop :=
  match n with
  | O => s
  | S n' => match loop_step now false s with Some s' => run_alone n' now s' | None => s end
  end.

(** C24. In every interleaving of the loop with stop requests and accepted
    commands: once a stop request is complete the loop, left alone, ends within
    five steps of its own without waiting for the interval, calling [step] at
    most once more, and tears down exactly once; and while an accepted command
    has not been followed by a call of [step], the loop does not block. *)
Theorem worker_loop_prompt (start now : Z) (s : Loop) :
  rtc lstep (run_start start) s ->
  (lp_stop s = true -> lp_pending s = 0%nat ->
   let s' := run_alone 5 now s in
   lp_point s' = Ended /\ lp_torn_down s' = 1%nat /\ (lp_steps s' <= S (lp_steps s))%nat) /\
  (lp_due s = true -> lp_point s <> Ended -> is_Some (loop_step now false s)).
Proof.
  intros (H1 & H2 & H3 & H4)%awake_reachable. split.
  - intros Hst Hp. destruct s as [p st w pe du k lh hs td]. cbn in *. subst. destruct p; cbn in *;
      try (assert (w = true) as -> by auto); cbn; (split_and!; [reflexivity|reflexivity|lia]).
  - intros Hd Hne. unfold loop_step. destruct (lp_point s); [by eexists..| |by eexists|by eexists|done].
    rewrite (H2 eq_refl Hd). by eexists.
Qed.

Lemma worker_loop_prompt_witness :
  let s := request_stop_2 (request_stop_1 (default (run_start 0) (loop_step 0 false (run_start 0)))) in
  lp_point (run_alone 5 1 s) = Ended.
Proof.
  apply (worker_loop_prompt 0 1); [|reflexivity|reflexivity].
  eapply rtc_l; [apply (LLoop 0 false _ (goto AtClear (run_start 0))); reflexivity|].
  eapply rtc_l; [apply LStop1|]. eapply rtc_l; [apply LStop2; cbn; lia|]. apply rtc_refl.
Defined.
